(* ===== verification/_CoqProject ===== *)
-Q . S2P
Prelude.v
Text.v
Chars.v
Crypto.v
Clru.v
Api.v
BoundedTtlCache.v
LeaseAwareCache.v
Maintenance.v
Encrypt.v
Json.v
SeedWrapping.v
Sessions.v
OsFlags.v
Models.v
Routing.v
Conversions.v
ContextBuilder.v
Database.v
Statements.v
Rows.v
Pagination.v
Claims.v
Accounts.v
Frames.v
Credentials.v
Tokens.v
UserKeys.v
Kv.v
ApiKeys.v
OAuth.v
AppleSignin.v
OAuthUsers.v
UserRoutes.v
Turns.v
Responses.v
Storage.v
ClientStream.v
Retrieval.v
CancelledTask.v
Sse.v
ProviderClient.v
Billing.v
Completions.v
Audio.v
Media.v
Conversations.v
ConversationRoutes.v
ThreadContext.v
CreateResponse.v
Isolation.v
Pages.v
Defaults.v
Organizations.v
OrganizationRoutes.v
Roles.v
OrganizationSteps.v
PlatformAccounts.v
OAuthRoutes.v
Permissions.v
WebSafety.v
Kagi.v
WebTools.v
WebRoutes.v
