(* ===== verification/Prelude.v ===== *)
(** * OpenSecret backend: a verification library

    The program under [src/src] is the backend of an end-to-end encrypted
    application platform that runs inside an enclave.  Clients first attest the
    enclave and agree on a session key; every later request and answer is
    encrypted under it.  Behind the sessions are accounts whose private seed is
    wrapped under the user's credential, keys derived from that seed, an
    encrypted key-value store, and an OpenAI-compatible "Responses" API that
    streams a model's turns to the client while it stores them.  Users sign in by
    password or through a provider; developers manage organizations and projects
    with accounts of their own.

    This library translates those parts to pure functions and state
    transformers and proves what makes them correct.  A call that can fail or
    panic is an [outcome] (this file); a call that changes shared state is an
    [ST S E A].  Time, random bytes, database faults and the answers of services
    outside the repository are arguments or section variables; cryptographic
    primitives are the class [Crypto] with the laws the code relies on.

    ** Files

    - [Prelude]: outcomes, state with errors, machine integers, list lemmas,
      the [inv_ok] tactic and the [opensecret] hint database.
    - [Text], [Chars], [Json]: the UTF-8, [str] and [serde_json] functions the code
      uses; what they keep of a text's characters, words and lines.
    - [Crypto]: the primitives as a class with laws, and a toy instance that
      satisfies them, for the witnesses.  [Clru]: the LRU crate's interface.

    Sessions.
    - [BoundedTtlCache] ([bounded_ttl_cache.rs]): the cache of pending
      attestations.  [LeaseAwareCache] ([lease_aware_cache.rs]): the session
      cache, over a heap of reference-counted slots.  [Maintenance]
      ([secret_cache_maintenance.rs]): the purge of both.
    - [Sessions] ([main.rs], [web/attestation_routes.rs],
      [web/encryption_middleware.rs]): handshake, request decryption and answer
      encryption over the two caches.  [Api] ([main.rs]): the API errors.

    Accounts.
    - [Encrypt] ([encrypt.rs]), [SeedWrapping] ([seed_wrapping.rs]): envelopes,
      derivations, canonical bytes, wrapped seeds and their bindings.
    - [Database] ([db.rs], [models/]): the account tables, statements that may
      fail, transactions.  [Accounts], [Credentials] ([main.rs]): registration,
      login, password change and reset, account deletion; the abstract account
      machine they refine.  [Frames]: what a call keeps of these tables.
    - [Claims], [Tokens] ([jwt.rs], [web/login_routes.rs],
      [web/protected_routes.rs]): claims, issuing and validating tokens, the
      routes that log in, refresh, change and reset.
    - [UserKeys] ([private_key.rs], [message_signing.rs]): derivation paths,
      BIP-85, signing.  [Kv] ([kv.rs]): the encrypted store and the map it
      refines.  [OsFlags] ([os_flags.rs]): feature flags with a cache.  [ApiKeys]
      ([models/user_api_keys.rs], [web/protected_routes.rs], [web/openai_auth.rs]):
      bearer keys and the map they refine.
    - [OAuth] ([oauth.rs]): pending sign-ins and the ledger they refine.
      [AppleSignin] ([apple_signin.rs]): Apple's keys and tokens.  [OAuthUsers],
      [OAuthRoutes] ([web/oauth_routes.rs], [models/oauth.rs]): the account of a
      provider's subject, the routes that start and finish a sign-in.
    - [UserRoutes] ([web/protected_routes.rs], [web/login_routes.rs]): every other
      handler of a signed-in user, and one request of any kind.

    Models and Responses.
    - [Models] ([model_config.rs]), [Routing] ([proxy_config.rs],
      [provider_routing.rs]): catalogue, aliases, plans, weighted routing.
    - [Conversions], [ContextBuilder] ([web/responses/conversions.rs],
      [context_builder.rs]): stored items and the prompt rebuilt from them.
    - [Turns] ([web/responses/handlers.rs], [tools.rs]): one assistant turn,
      streamed tool calls, the loop of turns, and the protocol of the messages
      it sends.  [Responses] ([models/responses.rs], [db.rs]): the tables of
      responses and items.  [Storage] ([storage.rs], [handlers.rs]): the task that
      stores the stream, cancellation, deletion.
    - [ClientStream] ([events.rs], [builders.rs], [handlers.rs]): the events the
      client receives and a client that files them.  [Retrieval] ([handlers.rs],
      [builders.rs]): the response read back, and its agreement with the stream.
      [CancelledTask] ([handlers.rs], [storage.rs]): a cancellation request between
      any two messages the storage task handles.
    - [ThreadContext] ([context_builder.rs], [db.rs], [models/responses.rs]): the
      prompt read from the tables.  [CreateResponse] ([handlers.rs]): the request
      that checks, stores, and starts the tasks of the modules above from within
      the stream the client reads.

    Providers and completions.
    - [Sse] ([web/openai.rs]): frames of a server-sent event stream cut anywhere.
      [ProviderClient] ([provider_client.rs]): the requests that leave the enclave,
      attested transport with one discovery at a time.  [Billing] ([billing.rs],
      [web/openai.rs]): quota snapshots.  [Completions] ([web/openai.rs]): the
      completion service, what it sends, relays and bills.  [Audio]
      ([web/audio_utils.rs]): splitting WAV files and merging transcripts.  [Media]
      ([web/openai.rs]): speech, transcription, embeddings, model lists.

    Conversations.
    - [Statements]: tables with statements that may fail, methods on a pool.
      [Rows]: what filtering, updating and deleting rows leaves; keys, references.
    - [Pagination] ([web/responses/pagination.rs], [models/responses.rs]): cursors.
      [Conversations] ([models/responses.rs], [db.rs]): conversations, projects
      and instructions.  [ConversationRoutes] ([conversations.rs],
      [conversation_projects.rs], [instructions.rs]): every handler on them.
      [Isolation], [Pages], [Defaults]: three groups of theorems on the handlers.

    The developer platform.
    - [Organizations] ([models/orgs.rs] and the other [models/org_*.rs],
      [invite_codes.rs], [project_settings.rs], [db.rs]): the tables.
      [OrganizationRoutes] ([web/platform/*_routes.rs], [common.rs],
      [validation.rs]): every handler.  [Roles]: the abstract machine of who may
      change what; [OrganizationSteps]: each handler makes one of its steps;
      [Permissions]: the theorems.
    - [PlatformAccounts] ([web/platform/login_routes.rs], [me_routes.rs],
      [models/platform_*.rs], [main.rs]): the accounts of developers, every handler
      on them, and the machine of their passwords that the handlers step.

    Web search.
    - [WebSafety] ([web/web_safety.rs]): URLs that may leave the enclave, addresses
      that are not public, untrusted Markdown.  [Kagi] ([kagi.rs]): the client.
      [WebTools] ([web/responses/tools.rs], [brave.rs]): the tools of a turn, the
      pages they may open, the URLs read out of a history.  [WebRoutes]
      ([web/web_routes.rs]): search and extraction for paying users.

    ** What the theorems show

    - Sessions: a leased session is never evicted, freed or replaced in any
      interleaving; both ends of a handshake share a key; a forged request
      leaves no trace; requests and answers round trip; a purge removes exactly
      what is expired and unused.
    - Accounts: every committed state opens with the user's current credential
      and only the operations of the abstract machine change it; the account
      requests take its steps and report them, but for the last check of a password
      change, whose error comes after the step; a reset needs
      its code and secret; changing a credential ends older sessions; tokens are
      separated by audience; deletion removes everything of the user.  A provider
      signs in the subject it vouches for, with a state used once; an address counts
      as verified only after its code came back.
    - Keys and store: wrapped seeds are bound to their context; BIP-85 agrees
      with a reference derivation; the store refines a finite map and its errors
      change nothing; API keys refine a map from owner and name to hash, and a key
      works from its creation to its deletion; what a user encrypts can be decrypted
      with any credential of the same seed.
    - Responses: a prompt fits the budget, but for a last user message larger than
      it, and keeps a last user message; the stream
      keeps a protocol and the loop of turns ends; whatever reaches the storage
      task, nothing is left in progress and an ended response stays as it ended;
      a client that follows the stream ends with the response that is retrieved.  A
      request leaves rows only after all its checks; once the client has read the
      first two events the response ends, whatever else is cancelled or lost, and is
      retrieved as it was stored; a client that leaves before leaves it in progress.
    - Providers: what the relay sends and bills is a function of the bytes of the
      provider, however the network cuts them; no chat completion leaves without the
      entitlement, and no request with a credential of the caller; one discovery runs at a
      time and the transport recovers; an audio file is cut into parts that are
      WAV files and hold its samples, and transcribed part by part in order.
    - Conversations: what a user gets and changes by requests on conversations,
      projects and instructions depends on that user's rows only, and no row of
      another user changes, the items of the responses included;
      following the cursors lists everything once; a batch moves all or nothing;
      the default instruction is a register.
    - Platform: requests change an organization only by a role in it, make one
      atomic step, and leave every organization an owner.  A developer's password
      changes only with the token and the old password, or with the mailed code and
      its secret; the password last set signs in.
    - Web search: only public pages that the conversation or a search named are
      opened, whatever the model asks for and the web says; tool outputs are bounded
      and read back as the URLs they listed (those of at most 2048 characters);
      refused addresses are those of a table
      of blocks; the provider is asked only for users who pay.

    ** Bounds and fuel

    [Turns.TURN_FUEL] is 31: after thirty tool calls the tools are withdrawn and
    the next turn cannot ask for one, and [tool_loop_terminates] shows that more
    fuel changes nothing.  The fuel of [Text.utf8_ok] and of the loops in
    [Maintenance] is the length of what is left to read, as is that of [Sse].
    [Pagination.follow] takes the number of requests a client makes, and
    [conversation_pages_cover] says which number is enough.  The rounds of
    [WebSafety.truncate_loop] are one more than the characters allowed, and
    [truncate_loop_ends] shows that they suffice.  Machine integers are
    [Z] with their bounds written out ([i32_max], [usize_max] below).

    Arithmetic wraps as in the release build, which is the one deployed, and a
    [debug_assert!] is checked.  Those of the two caches never fail
    ([trace_invariant], [system_safe]); the one of [provider_client.rs] repeats the
    branch it is in and is left out.  One of [context_builder.rs] can fail, so there
    the build is a parameter ([ContextBuilder.BuildProfile]) and [prompt_fits] says
    what each build does.

    ** Not modelled

    Generated or declarative code ([models/schema.rs], migrations); the exchanges
    with services outside the repository, whose answers are inputs here (HTTP of
    [provider_client.rs], [billing.rs], [kagi.rs] and [brave.rs], [email.rs],
    [sqs.rs], [aws_credentials.rs], the code and token exchanges of the OAuth
    providers); start-up and health routes; e-mails.  In [Turns] the answer of a
    tool is an input, and [WebTools] says which answers there are.  Two
    methods that no route calls ([create_with_response_and_message], single lookups of
    user messages) are left out.  The trigger that dates a conversation when a
    message is written and the deletion of the application users of a deleted
    project are left out.  Log lines and tracing are left out everywhere. *)

From stdpp Require Export base tactics list sets gmap strings sorting.
From Stdlib Require Export ZArith Lia Sorting.Sorted.
From Stdlib Require Strings.Byte.

#[export] Set Warnings "-clear-no-such-hyp,-register-all".

(** ** Outcomes of a Rust call

    [Ok] and [Err] are the constructors of [std::result::Result]; [Panic] is
    a call that does not return because an [expect], an [unwrap], an index or a
    [debug_assert!] failed.  A function that cannot return an error but may
    panic has the error type [Empty_set]. *)
Inductive outcome (E A : Type) : Type :=
| Ok (a : A)
| Err (e : E)
| Panic.
Arguments Ok {E A} _.
Arguments Err {E A} _.
Arguments Panic {E A}.

#[export] Instance outcome_ret {E} : MRet (outcome E) := fun _ a => Ok a.
#[export] Instance outcome_bind {E} : MBind (outcome E) := fun _ _ f m =>
  match m with Ok a => f a | Err e => Err e | Panic => Panic end.
#[export] Instance outcome_fmap {E} : FMap (outcome E) := fun _ _ f m =>
  match m with Ok a => Ok (f a) | Err e => Err e | Panic => Panic end.

(** [Result::map_err]; a panic stays a panic. *)
Definition map_err {E E' A} (f : E -> E') (m : outcome E A) : outcome E' A :=
  match m with Ok a => Ok a | Err e => Err (f e) | Panic => Panic end.

(** [Option::ok_or] and [Option::expect] (or [unwrap]). *)
Definition ok_or {E A} (e : E) (o : option A) : outcome E A :=
  match o with Some a => Ok a | None => Err e end.
Definition expect {E A} (o : option A) : outcome E A :=
  match o with Some a => Ok a | None => Panic end.

(** [debug_assert!]: a violated assertion panics (as in a debug build). *)
Definition debug_assert {E} (b : bool) : outcome E unit :=
  if b then Ok tt else Panic.

(** A panicking-only call used where an error type is expected. *)
Definition lift {E A} (m : outcome Empty_set A) : outcome E A :=
  match m with Ok a => Ok a | Err e => match e with end | Panic => Panic end.

(** [Result::ok]. *)
Definition is_ok {E A} (m : outcome E A) : bool :=
  match m with Ok _ => true | _ => false end.

Section outcome_facts.
Context {E A B : Type}.
Implicit Types (m : outcome E A) (f : A -> outcome E B).

Lemma bind_Ok m f b : (x ← m; f x) = Ok b <-> exists a, m = Ok a /\ f a = Ok b.
Proof.
  destruct m; cbn; (split; [intros H; try done; eauto|]); intros (a0 & ? & ?); congruence.
Qed.

Lemma bind_Ok_l a f : (x ← Ok a; f x) = f a.
Proof. reflexivity. Qed.

Lemma map_err_Ok {E'} (g : E -> E') m a : map_err g m = Ok a <-> m = Ok a.
Proof. destruct m; cbn; split; congruence. Qed.

Lemma ok_or_Ok (e : E) (o : option A) a : ok_or e o = Ok a <-> o = Some a.
Proof. destruct o; cbn; split; congruence. Qed.

Lemma fmap_Ok (g : A -> B) m b : g <$> m = Ok b <-> exists a, m = Ok a /\ b = g a.
Proof.
  destruct m as [a0| |]; cbn; (split; [intros [= <-]; eauto|]); intros (a1 & H & ?); congruence.
Qed.

Lemma lift_Ok (m : outcome Empty_set A) (a : A) : @lift E A m = Ok a <-> m = Ok a.
Proof. destruct m as [?|[]|]; cbn; split; congruence. Qed.

Lemma expect_Ok (o : option A) (a : A) : @expect E A o = Ok a <-> o = Some a.
Proof. destruct o; cbn; split; congruence. Qed.
End outcome_facts.

(** [inv_ok]: split every hypothesis [(x ← m; f) = Ok b] into the successful
    steps it is made of. *)
Ltac inv_ok :=
  repeat match goal with
  | H : mbind _ _ = Ok _ |- _ =>
      apply bind_Ok in H; destruct H as (? & ? & H)
  | H : map_err _ _ = Ok _ |- _ => apply map_err_Ok in H
  | H : ok_or _ _ = Ok _ |- _ => apply ok_or_Ok in H
  | H : fmap _ _ = Ok _ |- _ => apply fmap_Ok in H; destruct H as (? & H & ?)
  | H : lift _ = Ok _ |- _ => apply lift_Ok in H
  | H : expect _ = Ok _ |- _ => apply expect_Ok in H
  end; simplify_eq.

(** ** State and errors

    A call that changes shared state and may fail: the state changes it made
    before failing remain. *)
Definition ST (S E A : Type) : Type := S -> outcome E A * S.
#[export] Instance ST_ret {S E} : MRet (ST S E) := fun _ a s => (Ok a, s).
#[export] Instance ST_bind {S E} : MBind (ST S E) := fun _ _ f m s =>
  match m s with
  | (Ok a, s) => f a s
  | (Err e, s) => (Err e, s)
  | (Panic, s) => (Panic, s)
  end.

Definition st_get {S E} : ST S E S := fun s => (Ok s, s).
Definition st_put {S E} (s : S) : ST S E unit := fun _ => (Ok tt, s).
Definition st_modify {S E} (f : S -> S) : ST S E unit := fun s => (Ok tt, f s).
Definition st_lift {S E A} (m : outcome E A) : ST S E A := fun s => (m, s).
Definition st_err {S E A} (e : E) : ST S E A := fun s => (Err e, s).
Definition st_ok {S E A} (a : A) : ST S E A := fun s => (Ok a, s).

Lemma ST_bind_Ok {S E A B} (m : ST S E A) (f : A -> ST S E B) s b s' :
  (x ← m; f x) s = (Ok b, s') <-> exists a s1, m s = (Ok a, s1) /\ f a s1 = (Ok b, s').
Proof.
  unfold mbind, ST_bind. destruct (m s) as [[a|e|] s1]; (split; [intros H; try done; eauto|]);
    intros (a0 & s2 & H1 & H2); congruence.
Qed.
Lemma bind_cases {S E A B} (m : ST S E A) (f : A -> ST S E B) s r s' :
  (x ← m; f x) s = (r, s') -> exists r0 s1, m s = (r0, s1) /\
    match r0 with Ok a => f a s1 = (r, s') | Err e => r = Err e /\ s' = s1 | Panic => r = Panic /\ s' = s1 end.
Proof. unfold mbind, ST_bind. destruct (m s) as [[a|e|] s1]; [|intros [= <- <-]..]; intros; by do 2 eexists. Qed.
Lemma bind_ok {S E A B} (m : ST S E A) (f : A -> B) s r s' :
  (x ← m; st_ok (f x)) s = (r, s') -> exists r0, m s = (r0, s') /\ r = f <$> r0.
Proof. unfold mbind, ST_bind. destruct (m s) as [[a|e|] s1]; intros [= <- <-]; by eexists. Qed.
(** A lifted result in front of a program that succeeds. *)
Lemma bind_lift_Ok {S E A B} (m : outcome E A) (f : A -> ST S E B) s b s' :
  (x ← st_lift m; f x) s = (Ok b, s') -> exists a, m = Ok a /\ f a s = (Ok b, s').
Proof. unfold mbind, ST_bind, st_lift. destruct m; [|done..]. by eexists. Qed.

(** ** Integers of a machine width *)
Definition u16_max : Z := 2 ^ 16 - 1.
Definition u32_max : Z := 2 ^ 32 - 1.
Definition usize_max : Z := 2 ^ 64 - 1.
Definition i32_max : Z := 2 ^ 31 - 1.
Definition i32_min : Z := - 2 ^ 31.

(** [checked_add] on [usize]. *)
Definition usize_checked_add (a b : Z) : option Z :=
  if decide (a + b <= usize_max)%Z then Some (a + b)%Z else None.

(** ** Time

    [std::time::Instant] on the supported targets is a count of nanoseconds
    with a signed 64-bit number of seconds; [checked_add] returns [None] when
    the sum does not fit.  A [Duration] is a nonnegative number of
    nanoseconds. *)
Definition instant_max : Z := (2 ^ 63 - 1) * 10 ^ 9 + 999999999.
Definition instant_checked_add (now ttl : Z) : option Z :=
  if decide (now + ttl <= instant_max)%Z then Some (now + ttl)%Z else None.
Definition secs (n : Z) : Z := n * 10 ^ 9.

(** ** Lists *)
Section list_facts.
Context {A : Type}.
Implicit Types l : list A.

(** [Iterator::take_while] and what it leaves. *)
Fixpoint take_while (p : A -> bool) (l : list A) : list A :=
  match l with
  | [] => []
  | x :: l' => if p x then x :: take_while p l' else []
  end.

Lemma take_while_all p l1 l2 :
  Forall (fun x => p x = true) l1 -> take_while p (l1 ++ l2) = l1 ++ take_while p l2.
Proof. induction 1 as [|x l1 Hx _ IH]; cbn; [done|]. by rewrite Hx, IH. Qed.

Lemma take_while_none p l :
  Forall (fun x => p x = false) l -> take_while p l = [].
Proof. destruct 1 as [|x l Hx _]; cbn; [done|]. by rewrite Hx. Qed.

Lemma StronglySorted_app_iff (R : relation A) l1 l2 :
  StronglySorted R (l1 ++ l2) <->
  StronglySorted R l1 /\ StronglySorted R l2 /\ (forall x y, x ∈ l1 -> y ∈ l2 -> R x y).
Proof.
  induction l1 as [|x l1 IH]; cbn.
  - split; [|naive_solver]. intros. split_and!; [constructor|done|set_solver].
  - split.
    + intros [Hs Hall]%StronglySorted_inv. apply IH in Hs as (H1 & H2 & H3).
      rewrite Forall_app in Hall. destruct Hall as [Ha Hb].
      split_and!; [by constructor|done|].
      intros a b [->|?]%elem_of_cons ?; [|eauto]. by eapply Forall_forall in Hb.
    + intros ([Hs Ha]%StronglySorted_inv & H2 & H3). constructor.
      * apply IH. split_and!; [done..|]. intros; apply H3; set_solver.
      * apply Forall_app. split; [done|]. apply Forall_forall. intros; apply H3; set_solver.
Qed.

Lemma Forall_sublist (P : A -> Prop) l1 l2 :
  l1 `sublist_of` l2 -> Forall P l2 -> Forall P l1.
Proof.
  intros Hsub. rewrite !Forall_forall. intros HP x Hx.
  apply HP. by eapply sublist_subseteq.
Qed.

Lemma StronglySorted_sublist (R : relation A) l1 l2 :
  l1 `sublist_of` l2 -> StronglySorted R l2 -> StronglySorted R l1.
Proof.
  induction 1 as [|x l1 l2 Hsub IH|x l1 l2 Hsub IH]; [done| |].
  - intros [Hs Ha]%StronglySorted_inv. constructor; [auto|].
    eapply Forall_forall. intros y Hy. eapply Forall_forall in Ha; [done|].
    by eapply sublist_subseteq.
  - intros [Hs _]%StronglySorted_inv. auto.
Qed.

Lemma filter_ext_elem (P Q : A -> Prop) `{!forall x, Decision (P x), !forall x, Decision (Q x)} l :
  (forall x, x ∈ l -> P x <-> Q x) -> filter P l = filter Q l.
Proof.
  induction l as [|x l IH]; intros Hiff; [done|]. rewrite !filter_cons, IH by (intros; apply Hiff; set_solver).
  specialize (Hiff x ltac:(set_solver)). repeat case_decide; tauto.
Qed.

Lemma filter_all (P : A -> Prop) `{!forall x, Decision (P x)} l :
  Forall P l -> filter P l = l.
Proof. induction 1; [done|]. rewrite filter_cons_True by done. by f_equal. Qed.

Lemma filter_none (P : A -> Prop) `{!forall x, Decision (P x)} l :
  Forall (fun x => ~ P x) l -> filter P l = [].
Proof. induction 1; [done|]. by rewrite filter_cons_False by done. Qed.

Lemma StronglySorted_reverse (R : relation A) l :
  StronglySorted R l -> StronglySorted (fun x y => R y x) (reverse l).
Proof.
  induction 1 as [|x l Hs IH Hall]; [constructor|].
  rewrite reverse_cons. apply StronglySorted_app_iff. split_and!; [done|repeat constructor|].
  intros y z Hy ->%list_elem_of_singleton. rewrite elem_of_reverse in Hy.
  rewrite Forall_forall in Hall. auto.
Qed.

(** The search [iter().rev().find(p)]. *)
Lemma list_find_reverse (P : A -> Prop) `{!forall x, Decision (P x)} l1 x l2 :
  P x -> Forall (fun y => ~ P y) l2 ->
  list_find P (reverse (l1 ++ x :: l2)) = Some (length l2, x).
Proof.
  intros Hx Hl2. apply list_find_Some. rewrite reverse_app, reverse_cons, <- app_assoc. cbn.
  split_and!; [|done|].
  - rewrite lookup_app_r by (rewrite length_reverse; lia).
    by rewrite length_reverse, Nat.sub_diag.
  - intros j y Hy Hj. rewrite lookup_app_l in Hy by (rewrite length_reverse; lia).
    apply list_elem_of_lookup_2 in Hy. rewrite elem_of_reverse in Hy.
    rewrite Forall_forall in Hl2. auto.
Qed.

Lemma last_match_split (P : A -> Prop) `{!forall x, Decision (P x)} l :
  Exists P l -> exists l1 x l2, l = l1 ++ x :: l2 /\ P x /\ Forall (fun y => ~ P y) l2.
Proof.
  induction l as [|y l IH]; intros Hex; [by apply Exists_nil in Hex|].
  destruct (decide (Exists P l)) as [Hl|Hl].
  - destruct (IH Hl) as (l1 & x & l2 & -> & ? & ?). by exists (y :: l1), x, l2.
  - apply Exists_cons in Hex as [Hy|?]; [|done].
    exists [], y, l. split_and!; [done|done|]. by apply not_Exists_Forall in Hl.
Qed.

Lemma sublist_fmap {B} (f : A -> B) l1 l2 :
  l1 `sublist_of` l2 -> f <$> l1 `sublist_of` f <$> l2.
Proof. apply fmap_sublist. Qed.
End list_facts.

Create HintDb opensecret.
#[export] Hint Resolve sublist_take sublist_drop sublist_filter StronglySorted_sublist Forall_sublist : opensecret.
