(* ===== verification/Text.v ===== *)
(** * Strings and bytes

    Rust strings are UTF-8 byte sequences.  A [string] of the model is such a
    sequence (one [ascii] per byte); the functions below are the methods of
    [str] and [String] the program uses.  Every separator the program searches
    for is an ASCII character, which UTF-8 never uses inside a longer
    sequence, so working bytewise agrees with working by [char]. *)

From Stdlib Require Export Strings.String Strings.Ascii Strings.Byte.
From stdpp Require Export strings.
From S2P Require Import Prelude.

#[global] Open Scope string_scope.
#[global] Open Scope list_scope.
#[global] Open Scope nat_scope.

#[global] Arguments String.append !_ _ : simpl nomatch.

Abbreviation byte := Byte.byte.
Abbreviation bytes := (list Byte.byte).

#[export] Instance byte_dec : EqDecision byte := Byte.byte_eq_dec.
#[export] Program Instance byte_countable : Countable byte :=
  inj_countable' ascii_of_byte byte_of_ascii _.
Next Obligation. apply byte_of_ascii_of_byte. Qed.

(** [str::as_bytes], and the string a byte sequence is. *)
Definition as_bytes (s : string) : bytes := list_byte_of_string s.
Definition of_bytes (b : bytes) : string := string_of_list_byte b.

Lemma of_as_bytes s : of_bytes (as_bytes s) = s.
Proof. apply string_of_list_byte_of_string. Qed.
Lemma as_of_bytes b : as_bytes (of_bytes b) = b.
Proof. apply list_byte_of_string_of_list_byte. Qed.
#[export] Instance as_bytes_inj : Inj (=) (=) as_bytes.
Proof. intros s s' H. by rewrite <- (of_as_bytes s), H, of_as_bytes. Qed.

(** [str::len]: the number of bytes. *)
Definition str_len (s : string) : nat := String.length s.

Definition newline : ascii := ascii_of_nat 10.
Definition carriage_return : ascii := ascii_of_nat 13.
Definition nl : string := String newline EmptyString.

(** [str::contains] and [str::ends_with] for one ASCII character. *)
Fixpoint contains_char (c : ascii) (s : string) : bool :=
  match s with
  | EmptyString => false
  | String c' s => bool_decide (c = c') || contains_char c s
  end.

Fixpoint ends_with_char (c : ascii) (s : string) : bool :=
  match s with
  | EmptyString => false
  | String c' EmptyString => bool_decide (c = c')
  | String _ s => ends_with_char c s
  end.

(** [str::strip_suffix] for one ASCII character. *)
Fixpoint strip_suffix_char (c : ascii) (s : string) : option string :=
  match s with
  | EmptyString => None
  | String c' EmptyString => if decide (c = c') then Some EmptyString else None
  | String c' s => String c' <$> strip_suffix_char c s
  end.

(** [str::strip_prefix] and [str::starts_with]. *)
Fixpoint strip_prefix (p s : string) : option string :=
  match p, s with
  | EmptyString, _ => Some s
  | String a p, String b s => if decide (a = b) then strip_prefix p s else None
  | String _ _, EmptyString => None
  end.
Definition starts_with (p s : string) : bool := bool_decide (is_Some (strip_prefix p s)).

(** [str::contains] with a string. *)
Fixpoint contains_str (p s : string) : bool :=
  starts_with p s || match s with EmptyString => false | String _ s => contains_str p s end.

(** [str::split] at one ASCII character: never empty. *)
Fixpoint split_char (c : ascii) (s : string) : list string :=
  match s with
  | EmptyString => [EmptyString]
  | String c' s =>
      if decide (c = c') then EmptyString :: split_char c s
      else match split_char c s with
           | [] => [String c' EmptyString]
           | part :: parts => String c' part :: parts
           end
  end.

(** [str::to_ascii_lowercase]. *)
Definition ascii_lower (c : ascii) : ascii :=
  let n := nat_of_ascii c in
  if decide (65 <= n <= 90) then ascii_of_nat (n + 32) else c.
Fixpoint to_ascii_lowercase (s : string) : string :=
  match s with
  | EmptyString => EmptyString
  | String c s => String (ascii_lower c) (to_ascii_lowercase s)
  end.

(** [str::trim]: the Unicode [White_Space] characters, by their UTF-8
    encodings. *)
Definition whitespace : list (list nat) :=
  [[9]; [10]; [11]; [12]; [13]; [32]; [194; 133]; [194; 160]; [225; 154; 128];
   [226; 128; 128]; [226; 128; 129]; [226; 128; 130]; [226; 128; 131]; [226; 128; 132];
   [226; 128; 133]; [226; 128; 134]; [226; 128; 135]; [226; 128; 136]; [226; 128; 137];
   [226; 128; 138]; [226; 128; 168]; [226; 128; 169]; [226; 128; 175]; [226; 129; 159];
   [227; 128; 128]].

Fixpoint strip_nat_prefix (p l : list nat) : option (list nat) :=
  match p, l with
  | [], _ => Some l
  | a :: p, b :: l => if decide (a = b) then strip_nat_prefix p l else None
  | _ :: _, [] => None
  end.

Fixpoint strip_any (ps : list (list nat)) (l : list nat) : option (list nat) :=
  match ps with
  | [] => None
  | p :: ps => match strip_nat_prefix p l with Some l' => Some l' | None => strip_any ps l end
  end.

Fixpoint trim_codes (fuel : nat) (ps : list (list nat)) (l : list nat) : list nat :=
  match fuel with
  | 0 => l
  | S fuel => match strip_any ps l with Some l' => trim_codes fuel ps l' | None => l end
  end.

Definition codes (s : string) : list nat := nat_of_ascii <$> list_ascii_of_string s.
Definition of_codes (l : list nat) : string := string_of_list_ascii (ascii_of_nat <$> l).

Definition trim_start (s : string) : string :=
  of_codes (trim_codes (str_len s) whitespace (codes s)).
Definition trim_end (s : string) : string :=
  of_codes (reverse (trim_codes (str_len s) (reverse <$> whitespace) (reverse (codes s)))).
Definition trim (s : string) : string := trim_end (trim_start s).

Definition is_empty (s : string) : bool := bool_decide (s = EmptyString).

Example trim_ex : trim "  a b " = "a b".
Proof. vm_compute. reflexivity. Qed.
Example split_ex : split_char "/" "m/0//1" = ["m"; "0"; ""; "1"].
Proof. vm_compute. reflexivity. Qed.

(** ** Lemmas *)
Lemma string_app_assoc (a b c : string) : (a +:+ b) +:+ c = a +:+ (b +:+ c).
Proof. induction a as [|x a IH]; [reflexivity|]. cbn. by rewrite IH. Qed.

Lemma string_length_app (a b : string) : String.length (a +:+ b) = String.length a + String.length b.
Proof. induction a as [|x a IH]; [done|]. cbn. by rewrite IH. Qed.

Lemma string_app_inj_r (a b c : string) : a +:+ c = b +:+ c -> a = b.
Proof.
  revert b. induction a as [|x a IH]; intros [|y b] Heq; [done| | |].
  - apply (f_equal String.length) in Heq. cbn in Heq. rewrite string_length_app in Heq. lia.
  - apply (f_equal String.length) in Heq. cbn in Heq. rewrite string_length_app in Heq. lia.
  - cbn in Heq. injection Heq as -> Heq. f_equal. auto.
Qed.

Lemma string_app_nil_r (a : string) : a +:+ EmptyString = a.
Proof. induction a as [|x a IH]; [done|]. cbn. by rewrite IH. Qed.

Lemma strip_prefix_Some p s s' : strip_prefix p s = Some s' <-> s = p +:+ s'.
Proof.
  revert s. induction p as [|a p IH]; intros s; cbn.
  - split; congruence.
  - destruct s as [|b s]; [split; discriminate|]. case_decide as Hab.
    + subst b. rewrite IH. split; [by intros ->|]. intros H. by injection H.
    + split; [done|congruence].
Qed.

Lemma strip_suffix_char_Some c s s' :
  strip_suffix_char c s = Some s' <-> s = s' +:+ String c EmptyString.
Proof.
  revert s'. induction s as [|a s IH]; intros s'.
  - cbn. split; [done|]. destruct s'; discriminate.
  - destruct s as [|b s].
    + cbn. case_decide; (split; [|destruct s' as [|x [|]]; cbn; congruence]); intros; simplify_eq; done.
    + cbn [strip_suffix_char]. cbn [strip_suffix_char] in IH. split.
      * intros (s1 & H & ->)%fmap_Some. apply IH in H. cbn. congruence.
      * destruct s' as [|x s1]; cbn; [congruence|]. intros [= -> H]. apply IH in H. by rewrite H.
Qed.

Lemma contains_char_app c s1 s2 :
  contains_char c (s1 +:+ s2) = contains_char c s1 || contains_char c s2.
Proof. induction s1 as [|a s1 IH]; [done|]. cbn. by rewrite IH, orb_assoc. Qed.

Lemma ends_with_char_app c s1 s2 :
  s2 <> EmptyString -> ends_with_char c (s1 +:+ s2) = ends_with_char c s2.
Proof.
  intros Hs2. induction s1 as [|a s1 IH]; [done|]. cbn.
  destruct (s1 +:+ s2) as [|b s] eqn:Hs; [|done].
  by destruct s1; [destruct s2|].
Qed.

Lemma ends_with_contains c s : ends_with_char c s = true -> contains_char c s = true.
Proof.
  induction s as [|a s IH]; [done|]. destruct s as [|b s].
  - cbn. intros ->. done.
  - intros H. change (bool_decide (c = a) || contains_char c (String b s) = true).
    rewrite IH; [apply orb_true_r|exact H].
Qed.

Lemma split_char_none c s : contains_char c s = false -> split_char c s = [s].
Proof.
  induction s as [|a s IH]; [done|]. cbn. intros [Ha Hs]%orb_false_iff.
  apply bool_decide_eq_false in Ha. rewrite decide_False, IH by done. done.
Qed.

Lemma split_char_app c s1 s2 :
  contains_char c s1 = false -> split_char c (s1 +:+ String c s2) = s1 :: split_char c s2.
Proof.
  induction s1 as [|a s1 IH]; cbn; [by rewrite decide_True|].
  intros [Ha Hs]%orb_false_iff. apply bool_decide_eq_false in Ha.
  by rewrite decide_False, IH by done.
Qed.

(** [split] loses nothing: joining the parts gives the string back. *)
Fixpoint join (sep : string) (parts : list string) : string :=
  match parts with
  | [] => EmptyString
  | [p] => p
  | p :: parts => p +:+ sep +:+ join sep parts
  end.

Lemma split_char_nonempty c s : split_char c s <> [].
Proof. destruct s as [|a s]; cbn; [done|]. case_decide; [done|]. by destruct (split_char c s). Qed.

Lemma join_split c s : join (String c EmptyString) (split_char c s) = s.
Proof.
  induction s as [|a s IH]; [done|]. cbn [split_char].
  pose proof (split_char_nonempty c s) as Hne.
  destruct (split_char c s) as [|p ps]; [done|]. case_decide as Ha.
  - subst a. cbn in *. by rewrite IH.
  - destruct ps; cbn in *; by rewrite IH.
Qed.

Lemma split_char_free c s p : p ∈ split_char c s -> contains_char c p = false.
Proof.
  revert p. induction s as [|a s IH]; cbn; intros p.
  - by intros ->%list_elem_of_singleton.
  - case_decide as Ha.
    + intros [->|?]%elem_of_cons; auto.
    + destruct (split_char c s) as [|q ps] eqn:Hs.
      * by destruct (split_char_nonempty c s).
      * intros [->|?]%elem_of_cons; [|apply IH; set_solver].
        cbn. rewrite bool_decide_false by done. apply IH. set_solver.
Qed.

(** ** Machine integers as big-endian bytes *)
Definition byte_of_Z (v : Z) : byte := byte_of_ascii (ascii_of_N (Z.to_N (v mod 256))).
Definition Z_of_byte (b : byte) : Z := Z.of_N (N_of_ascii (ascii_of_byte b)).

Lemma Z_of_byte_of_Z v : Z_of_byte (byte_of_Z v) = (v mod 256)%Z.
Proof.
  unfold Z_of_byte, byte_of_Z. rewrite ascii_of_byte_of_ascii.
  pose proof (Z.mod_pos_bound v 256 ltac:(lia)) as Hb.
  rewrite N_ascii_embedding by lia. lia.
Qed.

Lemma Z_of_byte_bound b : (0 <= Z_of_byte b < 256)%Z.
Proof. unfold Z_of_byte. pose proof (N_ascii_bounded (ascii_of_byte b)). lia. Qed.

(** [to_be_bytes] of an integer of [n] bytes, signed or not. *)
Fixpoint be_bytes (n : nat) (v : Z) : bytes :=
  match n with
  | 0 => []
  | S n => byte_of_Z (v / 256 ^ Z.of_nat n) :: be_bytes n v
  end.

(** [from_be_bytes], read as an unsigned integer. *)
Fixpoint be_value (b : bytes) : Z :=
  match b with
  | [] => 0
  | x :: b => (Z_of_byte x * 256 ^ Z.of_nat (length b) + be_value b)%Z
  end.

Lemma be_bytes_length n v : length (be_bytes n v) = n.
Proof. induction n; cbn; auto. Qed.

Lemma be_value_bytes n v : be_value (be_bytes n v) = (v mod 256 ^ Z.of_nat n)%Z.
Proof.
  induction n as [|n IH]; [cbn; by rewrite Z.mod_1_r|].
  cbn [be_bytes be_value]. rewrite be_bytes_length, IH, Z_of_byte_of_Z.
  assert (0 < 256 ^ Z.of_nat n)%Z as Hp by (apply Z.pow_pos_nonneg; lia).
  rewrite Nat2Z.inj_succ, Z.pow_succ_r by lia.
  rewrite (Z.mul_comm 256), Z.rem_mul_r by lia. lia.
Qed.

(** Integers of [n] bytes have distinct encodings, in any range of that size. *)
Lemma be_bytes_inj n lo v v' :
  (lo <= v < lo + 256 ^ Z.of_nat n)%Z -> (lo <= v' < lo + 256 ^ Z.of_nat n)%Z ->
  be_bytes n v = be_bytes n v' -> v = v'.
Proof.
  intros Hv Hv' Heq. apply (f_equal be_value) in Heq. rewrite !be_value_bytes in Heq.
  set (m := (256 ^ Z.of_nat n)%Z) in *.
  assert (0 < m)%Z as Hm by (apply Z.pow_pos_nonneg; lia).
  pose proof (Z.div_mod v m ltac:(lia)). pose proof (Z.div_mod v' m ltac:(lia)).
  assert (v / m = v' / m \/ v / m < v' / m \/ v' / m < v / m)%Z as [|[|]] by lia; nia.
Qed.

(** ** UTF-8

    [str::from_utf8] accepts exactly the well-formed sequences; in
    [String::from_utf8_lossy] every maximal ill-formed subsequence becomes
    U+FFFD. *)
Definition between (lo hi n : nat) : bool := (lo <=? n) && (n <=? hi).
Definition continuation : nat -> bool := between 128 191.

(** How many of the next bytes satisfy the tests, one test per byte. *)
Fixpoint matching (tests : list (nat -> bool)) (l : list nat) : nat :=
  match tests, l with
  | t :: tests, b :: l => if t b then S (matching tests l) else 0
  | _, _ => 0
  end.

(** The tests the bytes after a leading byte must pass; [None]: no sequence
    starts with this byte. *)
Definition followers (b : nat) : option (list (nat -> bool)) :=
  if b <? 128 then Some []
  else if between 194 223 b then Some [continuation]
  else if b =? 224 then Some [between 160 191; continuation]
  else if b =? 237 then Some [between 128 159; continuation]
  else if between 225 239 b then Some [continuation; continuation]
  else if b =? 240 then Some [between 144 191; continuation; continuation]
  else if between 241 243 b then Some [continuation; continuation; continuation]
  else if b =? 244 then Some [between 128 143; continuation; continuation]
  else None.

Definition replacement : list nat := [239; 191; 189].

(** The chunk at the front: is it well formed, and its length. *)
Definition utf8_chunk (b : nat) (l : list nat) : bool * nat :=
  match followers b with
  | None => (false, 1)
  | Some tests =>
      let n := matching tests l in
      (n =? length tests, S n)
  end.

Fixpoint utf8_lossy (fuel : nat) (l : list nat) : list nat :=
  match fuel, l with
  | S fuel, b :: l' =>
      let '(ok, n) := utf8_chunk b l' in
      (if ok then take n l else replacement) ++ utf8_lossy fuel (drop n l)
  | _, _ => []
  end.

Fixpoint utf8_ok (fuel : nat) (l : list nat) : bool :=
  match fuel, l with
  | S fuel, b :: l' => let '(ok, n) := utf8_chunk b l' in ok && utf8_ok fuel (drop n l)
  | _, _ => true
  end.

(** [str::chars], each character as its UTF-8 bytes. *)
Fixpoint utf8_chars (fuel : nat) (l : list nat) : list (list nat) :=
  match fuel, l with
  | S fuel, b :: l' => let n := (utf8_chunk b l').2 in take n l :: utf8_chars fuel (drop n l)
  | _, _ => []
  end.
Definition chars (s : string) : list (list nat) := utf8_chars (str_len s) (codes s).
(** [char::is_control] and [chars().count()]. *)
Definition is_control (c : list nat) : bool :=
  match c with
  | [b] => (b <? 32) || (b =? 127)
  | [194; b] => (128 <=? b) && (b <=? 159)
  | _ => false
  end.
Definition char_count (s : string) : nat := length (filter (fun b => continuation b = false) (codes s)).

Definition from_utf8_lossy (b : bytes) : string :=
  of_codes (utf8_lossy (length b) (codes (of_bytes b))).
Definition is_utf8 (s : string) : bool := utf8_ok (str_len s) (codes s).
Definition from_utf8 (b : bytes) : option string :=
  if is_utf8 (of_bytes b) then Some (of_bytes b) else None.

Example lossy_ex : from_utf8_lossy [Byte.x61; Byte.xe2; Byte.x82; Byte.x41] =
  of_bytes [Byte.x61; Byte.xef; Byte.xbf; Byte.xbd; Byte.x41].
Proof. vm_compute. reflexivity. Qed.

Lemma codes_of_codes s : of_codes (codes s) = s.
Proof.
  unfold of_codes, codes. rewrite <- list_fmap_compose.
  rewrite (list_fmap_ext _ id); [|intros; apply ascii_nat_embedding].
  by rewrite list_fmap_id, string_of_list_ascii_of_string.
Qed.

Lemma utf8_lossy_ok fuel l : length l <= fuel -> utf8_ok fuel l = true -> utf8_lossy fuel l = l.
Proof.
  revert l. induction fuel as [|fuel IH]; intros [|b l] Hlen Hok; cbn in *; try done; [lia|].
  destruct (utf8_chunk b l) as [ok n] eqn:Hc. apply andb_true_iff in Hok as [-> Hok].
  rewrite IH; [apply take_drop| |done]. rewrite length_drop. cbn.
  unfold utf8_chunk in Hc. destruct (followers b); simplify_eq; lia.
Qed.

(** A well-formed string survives being stored as bytes. *)
Lemma from_utf8_lossy_as_bytes s : is_utf8 s = true -> from_utf8_lossy (as_bytes s) = s.
Proof.
  unfold is_utf8, from_utf8_lossy. rewrite of_as_bytes. intros Hok.
  assert (length (as_bytes s) = str_len s) as ->.
  { unfold as_bytes, str_len. clear Hok. induction s; cbn; [done|]. by f_equal. }
  rewrite utf8_lossy_ok; [apply codes_of_codes| |done].
  unfold codes, str_len. rewrite length_fmap. clear Hok. induction s; cbn; lia.
Qed.

(** ** Well-formed texts, joined *)
Lemma matching_app tests l1 l2 : matching tests l1 = length tests -> matching tests (l1 ++ l2) = length tests.
Proof.
  revert l1. induction tests as [|t tests IH]; intros [|b l1]; cbn; try done.
  destruct (t b); [|done]. intros [= Hm]. by rewrite IH.
Qed.
Lemma matching_bound tests l : matching tests l <= length l.
Proof. revert l. induction tests as [|t tests IH]; intros [|b l]; cbn; try lia. destruct (t b); [|lia]. specialize (IH l). lia. Qed.
Lemma utf8_chunk_bound b l : 1 <= (utf8_chunk b l).2 <= S (length l).
Proof. unfold utf8_chunk. destruct (followers b) as [tests|]; cbn; [|lia]. pose proof (matching_bound tests l). lia. Qed.
Lemma utf8_chunk_app b l1 l2 : (utf8_chunk b l1).1 = true -> utf8_chunk b (l1 ++ l2) = utf8_chunk b l1.
Proof.
  unfold utf8_chunk. destruct (followers b) as [tests|]; [|done]. cbn. intros Hm%Nat.eqb_eq.
  by rewrite matching_app, Hm.
Qed.

Lemma utf8_ok_fuel f f' l : length l <= f -> length l <= f' -> utf8_ok f l = utf8_ok f' l.
Proof.
  revert f' l. induction f as [|f IH]; intros [|f'] [|b l]; cbn; try done; try lia. intros Hf Hf'.
  pose proof (utf8_chunk_bound b l). destruct (utf8_chunk b l) as [ok n]. cbn in *. f_equal.
  apply IH; rewrite length_drop; cbn; lia.
Qed.
Lemma utf8_ok_app f l1 l2 :
  length l1 + length l2 <= f -> utf8_ok f l1 = true -> utf8_ok f l2 = true -> utf8_ok f (l1 ++ l2) = true.
Proof.
  revert l1. induction f as [|f IH]; intros [|b l1]; try done. intros Hlen H1 H2.
  pose proof (utf8_chunk_bound b l1) as Hb. revert H1. cbn [utf8_ok app].
  destruct (utf8_chunk b l1) as [ok n] eqn:Hc. intros [-> H1]%andb_true_iff.
  rewrite utf8_chunk_app by (by rewrite Hc). rewrite Hc. cbn [andb fst snd] in *. cbn in Hlen.
  rewrite app_comm_cons, drop_app_le by (cbn; lia). apply IH; [rewrite length_drop; cbn; lia|done|].
  rewrite (utf8_ok_fuel f (S f)); [done|lia|lia].
Qed.
Lemma length_codes s : length (codes s) = str_len s.
Proof. unfold codes, str_len. rewrite length_fmap. induction s; cbn; lia. Qed.
Lemma codes_app s t : codes (s +:+ t) = codes s ++ codes t.
Proof. unfold codes. rewrite <- fmap_app. f_equal. induction s; cbn; [done|]. by f_equal. Qed.
Lemma is_utf8_app s t : is_utf8 s = true -> is_utf8 t = true -> is_utf8 (s +:+ t) = true.
Proof.
  unfold is_utf8. rewrite codes_app, <- !length_codes. intros Hs Ht.
  assert (length (codes (s +:+ t)) = length (codes s) + length (codes t)) as Hlen by (by rewrite codes_app, length_app).
  apply utf8_ok_app; [lia|..].
  - rewrite (utf8_ok_fuel _ (length (codes s))); [done|lia|lia].
  - rewrite (utf8_ok_fuel _ (length (codes t))); [done|lia|lia].
Qed.
