(* ===== verification/Chars.v ===== *)
(** * Characters, words and lines

    More of the [str] functions of the standard library, on the UTF-8 bytes of
    [Text], and what they keep of a text: its length in characters, its lines. *)

From S2P Require Import Prelude Text.

Module Chars.

(** ** Patterns *)
Definition ends_with (p s : string) : bool :=
  bool_decide (str_len p <= str_len s) && bool_decide (String.substring (str_len s - str_len p) (str_len p) s = p).
(** [str::replace] of a nonempty pattern: the matches from the left, without overlap. *)
Fixpoint replace_from (skip : nat) (p to s : string) : string :=
  match s with
  | EmptyString => EmptyString
  | String c s' =>
      match skip with
      | S k => replace_from k p to s'
      | O => if starts_with p s then to +:+ replace_from (str_len p - 1) p to s' else String c (replace_from 0 p to s')
      end
  end.
(** An empty pattern matches before every character and at the end. *)
Definition replace (p to s : string) : string :=
  if is_empty p then to +:+ String.concat "" ((fun c => of_codes c +:+ to) <$> chars s) else replace_from 0 p to s.
Fixpoint trim_end_matches (p : ascii -> bool) (s : string) : string :=
  match s with
  | EmptyString => EmptyString
  | String c s =>
      match trim_end_matches p s with
      | EmptyString => if p c then EmptyString else String c EmptyString
      | s => String c s
      end
  end.
(** [split_once] of a nonempty pattern: around its first occurrence. *)
Fixpoint split_once (p s : string) : option (string * string) :=
  match strip_prefix p s with
  | Some rest => Some (EmptyString, rest)
  | None => match s with
            | EmptyString => None
            | String c s => (fun ab => (String c ab.1, ab.2)) <$> split_once p s
            end
  end.

(** ** Lines and words *)
(** The text after the last line feed is a line only if it is not empty, and keeps
    a carriage return. *)
Definition strip_return (s : string) : string := default s (strip_suffix_char carriage_return s).
Fixpoint lines_of (parts : list string) : list string :=
  match parts with
  | [] => []
  | [last] => if is_empty last then [] else [last]
  | line :: parts => strip_return line :: lines_of parts
  end.
Definition lines (s : string) : list string := lines_of (split_char newline s).

Definition is_whitespace (c : list nat) : bool := bool_decide (c ∈ whitespace).
Definition word (cur : list nat) : list (list nat) := match cur with [] => [] | _ => [cur] end.
Fixpoint words (cur : list nat) (l : list (list nat)) : list (list nat) :=
  match l with
  | [] => word cur
  | c :: l => if is_whitespace c then word cur ++ words [] l else words (cur ++ c) l
  end.
Definition split_whitespace (s : string) : list string := of_codes <$> words [] (chars s).
(** [chars().take(n).collect()]. *)
Definition take_chars (n : nat) (s : string) : string := of_codes (concat (take n (chars s))).

Example split_whitespace_ex : split_whitespace (" a  b" +:+ nl +:+ "cd ") = ["a"; "b"; "cd"].
Proof. vm_compute. reflexivity. Qed.
Example lines_ex : lines ("a" +:+ nl +:+ nl +:+ "b" +:+ nl) = ["a"; ""; "b"].
Proof. vm_compute. reflexivity. Qed.
Example split_once_ex : split_once ": " "1: 2: 3" = Some ("1", "2: 3").
Proof. vm_compute. reflexivity. Qed.

(** ** Codes *)
Lemma codes_below s : Forall (fun n => n < 256) (codes s).
Proof. unfold codes. apply Forall_fmap, Forall_true. intros c. cbn. apply nat_ascii_bounded. Qed.
Lemma of_codes_codes l : Forall (fun n => n < 256) l -> codes (of_codes l) = l.
Proof.
  intros Hl. unfold codes, of_codes. rewrite list_ascii_of_string_of_list_ascii, <- list_fmap_compose.
  induction Hl as [|n l Hn Hl IH]; [done|]. cbn. rewrite nat_ascii_embedding by done. by f_equal.
Qed.
Lemma of_codes_app l l' : of_codes (l ++ l') = of_codes l +:+ of_codes l'.
Proof. unfold of_codes. rewrite fmap_app. induction l as [|n l IH]; [done|]. cbn. by f_equal. Qed.

(** ** The number of characters *)
Definition leading (l : list nat) : nat := length (filter (fun b => continuation b = false) l).
Lemma leading_app l l' : leading (l ++ l') = leading l + leading l'.
Proof. unfold leading. by rewrite filter_app, length_app. Qed.
Lemma char_count_app s s' : char_count (s +:+ s') = char_count s + char_count s'.
Proof. unfold char_count. rewrite codes_app. apply leading_app. Qed.
Lemma char_count_codes l : Forall (fun n => n < 256) l -> char_count (of_codes l) = leading l.
Proof. intros Hl. unfold char_count. by rewrite of_codes_codes. Qed.

Lemma chars_concat fuel l : length l <= fuel -> concat (utf8_chars fuel l) = l.
Proof.
  revert l. induction fuel as [|fuel IH]; intros [|b l] Hl; cbn in Hl; try done; [lia|].
  cbn [utf8_chars concat]. pose proof (utf8_chunk_bound b l). rewrite IH; [apply take_drop|]. rewrite length_drop. cbn. lia.
Qed.
Lemma concat_chars s : concat (chars s) = codes s.
Proof. apply chars_concat. by rewrite length_codes. Qed.
Lemma chars_below s : Forall (Forall (fun n => n < 256)) (chars s).
Proof. rewrite <- Forall_concat, concat_chars. apply codes_below. Qed.
(** A byte below 128 is a character of its own. *)
Lemma matching_continues tests l n x : (forall t, t ∈ tests -> forall b, t b = true -> 128 <= b) ->
  n <= matching tests l -> x ∈ take n l -> 128 <= x.
Proof.
  revert l n. induction tests as [|t tests IH]; intros l n Ht Hn Hx; cbn in Hn.
  { assert (n = 0) as -> by lia. by apply elem_of_nil in Hx. }
  destruct l as [|b l]; [rewrite take_nil in Hx; by apply elem_of_nil in Hx|]. destruct n as [|n]; [by apply elem_of_nil in Hx|].
  destruct (t b) eqn:Hb; [|lia]. cbn in Hx. apply elem_of_cons in Hx as [->|Hx]; [apply (Ht t); [by left|done]|].
  apply (IH l n); [|lia|done]. intros t' Ht'. apply Ht. by right.
Qed.
Lemma followers_continue b tests t x : followers b = Some tests -> t ∈ tests -> t x = true -> 128 <= x.
Proof.
  unfold followers, continuation. intros Hf Ht Hx.
  assert (exists lo hi, t = between lo hi /\ 128 <= lo) as (lo & hi & -> & Hlo).
  { repeat (match type of Hf with context [if ?c then _ else _] => destruct c end); simplify_eq;
      repeat (apply elem_of_cons in Ht as [->|Ht]); try (by apply elem_of_nil in Ht); do 2 eexists; (split; [reflexivity|lia]). }
  unfold between in Hx. apply andb_true_iff in Hx as [Hx%Nat.leb_le _]. lia.
Qed.
Lemma chars_ascii fuel l c x : c ∈ utf8_chars fuel l -> x ∈ c -> x < 128 -> c = [x].
Proof.
  revert l. induction fuel as [|fuel IH]; intros [|b l] Hc Hx Hl; cbn in Hc; try (by apply elem_of_nil in Hc).
  apply elem_of_cons in Hc as [->|Hc]; [|by eapply IH]. unfold utf8_chunk in *.
  destruct (followers b) as [tests|] eqn:Hf; cbn in *.
  - apply elem_of_cons in Hx as [->|Hx].
    + unfold followers in Hf. destruct (b <? 128) eqn:Hb; [|apply Nat.ltb_ge in Hb; lia]. injection Hf as <-. done.
    + assert (128 <= x); [|lia]. eapply matching_continues; [|reflexivity|exact Hx].
      intros t Ht y Hy. by eapply followers_continue.
  - by apply list_elem_of_singleton in Hx as ->.
Qed.

(** ** Words, joined by spaces *)
Lemma whitespace_leading c : is_whitespace c = true -> leading c = 1.
Proof.
  intros Hc%bool_decide_eq_true. assert (Forall (fun c => leading c = 1) whitespace) as Hall by (by repeat constructor).
  rewrite Forall_forall in Hall. by apply Hall.
Qed.
Lemma join_cons sep p l : l <> [] -> join sep (p :: l) = p +:+ sep +:+ join sep l.
Proof. by destruct l. Qed.
Lemma join_count l l' : char_count (join " " (l ++ l')) <= char_count (join " " l) + 1 + char_count (join " " l').
Proof.
  induction l as [|p l IH]; cbn [app]; [lia|]. destruct l as [|q l].
  - destruct l' as [|p' l']; cbn [app join]; [lia|]. rewrite !char_count_app. change (char_count " ") with 1. lia.
  - rewrite (join_cons _ p (q :: l)) by done. cbn [app] in *. rewrite join_cons by done.
    rewrite !char_count_app. change (char_count " ") with 1. lia.
Qed.
Lemma words_count cur l : Forall (fun n => n < 256) cur -> Forall (Forall (fun n => n < 256)) l ->
  char_count (join " " (of_codes <$> words cur l)) <= leading cur + leading (concat l).
Proof.
  intros Hcur Hl. revert cur Hcur. induction Hl as [|c l Hc Hl IH]; intros cur Hcur; cbn [words concat].
  - destruct cur; [exact (Nat.le_0_l _)|]. cbn [word fmap list_fmap join]. rewrite char_count_codes by done. lia.
  - rewrite leading_app. destruct (is_whitespace c) eqn:Hw.
    + apply whitespace_leading in Hw. rewrite fmap_app. specialize (IH [] ltac:(done)). change (leading []) with 0 in IH.
      pose proof (join_count (of_codes <$> word cur) (of_codes <$> words [] l)).
      assert (char_count (join " " (of_codes <$> word cur)) <= leading cur) by (destruct cur; [done|by cbn [word fmap list_fmap join]; rewrite char_count_codes]).
      lia.
    + specialize (IH (cur ++ c)). rewrite leading_app in IH. etransitivity; [apply IH; by apply Forall_app|lia].
Qed.
Lemma split_whitespace_count s : char_count (join " " (split_whitespace s)) <= char_count s.
Proof.
  unfold split_whitespace. etransitivity; [apply words_count; [done|apply chars_below]|]. by rewrite concat_chars.
Qed.

(** No byte of a white-space character below 128 is left. *)
Definition free (x : nat) (s : string) : Prop := x ∉ codes s.
Lemma free_app x s s' : free x (s +:+ s') <-> free x s /\ free x s'.
Proof. unfold free. rewrite codes_app, elem_of_app. tauto. Qed.
Lemma free_join x sep l : free x sep -> Forall (free x) l -> free x (join sep l).
Proof.
  intros Hs. induction 1 as [|p l Hp Hl IH]; [by intros ?%elem_of_nil|]. destruct l; [done|]. rewrite join_cons by done.
  by rewrite !free_app.
Qed.
Lemma words_Forall (P : nat -> Prop) cur l : Forall P cur -> (forall c, c ∈ l -> is_whitespace c = false -> Forall P c) ->
  Forall (Forall P) (words cur l).
Proof.
  assert (forall cur, Forall P cur -> Forall (Forall P) (word cur)) as Hword by (intros [|n w] ?; [done|by constructor]).
  revert cur. induction l as [|c l IH]; intros cur Hcur Hl; cbn [words]; [by apply Hword|].
  assert (forall d, d ∈ l -> is_whitespace d = false -> Forall P d) as Hl' by (intros d Hd; apply Hl; by right).
  destruct (is_whitespace c) eqn:Hw; [|by apply IH; [apply Forall_app; split; [|apply Hl; [left|]]|]].
  apply Forall_app. split; [by apply Hword|by apply IH].
Qed.
Lemma split_whitespace_free x s : x < 128 -> [x] ∈ whitespace -> Forall (free x) (split_whitespace s).
Proof.
  intros Hx Hw. unfold split_whitespace. apply Forall_fmap. eapply Forall_impl; [apply (words_Forall (fun n => n < 256 /\ n <> x))|]; [done|..].
  - intros c Hc Hn. pose proof (chars_below s) as Hb. rewrite Forall_forall in Hb. specialize (Hb c Hc). rewrite Forall_forall in Hb |- *.
    intros n Hin. split; [by apply Hb|]. intros ->. rewrite (chars_ascii _ _ _ _ Hc Hin Hx) in Hn. by apply bool_decide_eq_false in Hn.
  - intros w [Hb Hne]%Forall_and. cbn. unfold free. rewrite of_codes_codes by done. intros Hin. rewrite Forall_forall in Hne. by apply (Hne x).
Qed.

(** ** Texts made of lines *)
Fixpoint unlines (ls : list string) : string := match ls with [] => EmptyString | l :: ls => l +:+ nl +:+ unlines ls end.
Lemma unlines_app ls ls' : unlines (ls ++ ls') = unlines ls +:+ unlines ls'.
Proof. induction ls as [|l ls IH]; [done|]. cbn [app unlines]. by rewrite IH, !string_app_assoc. Qed.
Lemma free_cons x c s : free x (String c s) <-> nat_of_ascii c <> x /\ free x s.
Proof. unfold free. cbn. rewrite elem_of_cons. naive_solver. Qed.
Lemma split_char_line x l s : free (nat_of_ascii x) l -> split_char x (l +:+ String x s) = l :: split_char x s.
Proof.
  induction l as [|c l IH]; cbn.
  - intros _. by rewrite decide_True.
  - intros [Hc Hl]%free_cons. rewrite decide_False by (by intros ->). by rewrite IH.
Qed.
Lemma strip_return_free l : free 13 l -> strip_return l = l.
Proof.
  unfold strip_return. enough (free 13 l -> strip_suffix_char carriage_return l = None) as He by (intros Hl; by rewrite He).
  induction l as [|c l IH]; [done|]. intros [Hc Hl]%free_cons. destruct l as [|c' l].
  - cbn. rewrite decide_False; [done|]. by intros <-.
  - change (String c <$> strip_suffix_char carriage_return (String c' l) = None). by rewrite (IH Hl).
Qed.
Definition one_line (l : string) : Prop := free 10 l /\ free 13 l.
Lemma lines_line l s : one_line l -> lines (l +:+ nl +:+ s) = l :: lines s.
Proof.
  intros [H10 H13]. unfold lines. change (nl +:+ s) with (String newline s). rewrite split_char_line by done.
  pose proof (split_char_nonempty newline s) as Hne. destruct (split_char newline s) as [|p parts]; [done|].
  cbn [lines_of]. by rewrite strip_return_free.
Qed.
Lemma lines_unlines ls s : Forall one_line ls -> lines (unlines ls +:+ s) = ls ++ lines s.
Proof. induction 1 as [|l ls Hl Hls IH]; [done|]. cbn [unlines]. rewrite !string_app_assoc, lines_line by done. cbn. by rewrite IH. Qed.
Lemma one_line_app l l' : one_line l -> one_line l' -> one_line (l +:+ l').
Proof. intros [] []. split; by apply free_app. Qed.

Lemma str_prefix_app p s : strip_prefix p (p +:+ s) = Some s.
Proof. induction p as [|c p IH]; cbn; [done|]. by rewrite decide_True. Qed.
(** A first occurrence whose first character does not occur before it. *)
Lemma split_once_first c p l s : free (nat_of_ascii c) l -> split_once (String c p) (l +:+ String c p +:+ s) = Some (l, s).
Proof.
  induction l as [|c' l IH].
  - intros _. change (EmptyString +:+ String c p +:+ s) with (String c p +:+ s). pose proof (str_prefix_app (String c p) s) as Hp.
    change (String c p +:+ s) with (String c (p +:+ s)) in *. cbn [split_once]. by rewrite Hp.
  - intros [Hc Hl]%free_cons. change (String c' l +:+ String c p +:+ s) with (String c' (l +:+ String c p +:+ s)). cbn [split_once].
    assert (strip_prefix (String c p) (String c' (l +:+ String c p +:+ s)) = None) as ->; [|by rewrite IH].
    cbn [strip_prefix]. rewrite decide_False; [done|]. by intros ->.
Qed.
(** An empty line ends nonempty ones. *)
Lemma split_once_blank l ls s : Forall (fun l => free 10 l /\ l <> EmptyString) (l :: ls) ->
  split_once (nl +:+ nl) (unlines (l :: ls) +:+ nl +:+ s) = Some (join nl (l :: ls), s).
Proof.
  revert l. induction ls as [|l' ls IH]; intros l [[Hl Hne] Hls]%Forall_cons.
  - cbn [unlines join]. rewrite string_app_nil_r, string_app_assoc. exact (split_once_first newline (String newline EmptyString) l s Hl).
  - specialize (IH l' Hls). rewrite join_cons by done. change (unlines (l :: l' :: ls)) with (l +:+ nl +:+ unlines (l' :: ls)).
    rewrite !string_app_assoc. revert IH. generalize (join nl (l' :: ls)). intros t Ht.
    apply Forall_cons in Hls as [[Hl' Hne'] Hls]. clear Hne. cbn [unlines] in *. destruct l' as [|c l']; [done|]. apply free_cons in Hl' as [Hc Hl'].
    set (rest := (String c l' +:+ nl +:+ unlines ls) +:+ nl +:+ s) in *. assert (exists r, rest = String c r) as [r Hr] by by eexists.
    clearbody rest. change (nl +:+ nl) with (String newline (String newline EmptyString)) in *. induction l as [|d l IHl].
    + change (EmptyString +:+ nl +:+ rest) with (String newline rest). change (EmptyString +:+ nl +:+ t) with (String newline t). cbn [split_once].
      assert (strip_prefix (String newline (String newline EmptyString)) (String newline rest) = None) as ->; [|by rewrite Ht].
      cbn [strip_prefix]. rewrite decide_True by done. rewrite Hr. rewrite decide_False; [done|]. by intros <-.
    + apply free_cons in Hl as [Hd Hl]. change (String d l +:+ nl +:+ rest) with (String d (l +:+ nl +:+ rest)).
      change (String d l +:+ nl +:+ t) with (String d (l +:+ nl +:+ t)). cbn [split_once].
      assert (strip_prefix (String newline (String newline EmptyString)) (String d (l +:+ nl +:+ rest)) = None) as ->; [|by rewrite IHl].
      cbn [strip_prefix]. rewrite decide_False; [done|]. by intros <-.
Qed.
Lemma split_char_whole x l : free (nat_of_ascii x) l -> split_char x l = [l].
Proof.
  induction l as [|c l IH]; [done|]. intros [Hc Hl]%free_cons. cbn. rewrite decide_False by (by intros ->). by rewrite IH.
Qed.
Lemma lines_join l ls : Forall (fun l => one_line l /\ l <> EmptyString) (l :: ls) -> lines (join nl (l :: ls)) = l :: ls.
Proof.
  revert l. induction ls as [|l' ls IH]; intros l [[Hl Hne] Hls]%Forall_cons.
  - cbn [join]. unfold lines. rewrite split_char_whole by apply Hl. cbn. unfold is_empty. by rewrite bool_decide_eq_false_2.
  - rewrite join_cons by done. rewrite lines_line by done. f_equal. by apply IH.
Qed.

End Chars.
