(* ===== verification/Crypto.v ===== *)
(** * Cryptographic primitives as an interface

    The cipher, hash, encoding and key-agreement crates are not part of the
    repository.  [Crypto] lists the primitives the program calls and
    [CryptoLaws] their documented behaviour: an authenticated cipher opens
    exactly what it sealed, digests have their size, Base64 decodes what it
    encoded, Diffie-Hellman is symmetric.  Nothing is assumed about the
    hardness of breaking them: the security theorems of the development are
    reductions, which exhibit the two colliding inputs.  [ToyCrypto] satisfies
    the laws and is used by the witnesses. *)

From S2P Require Import Prelude Text.

(** An AEAD cipher: key, nonce and associated data first. *)
Record aead := MkAead {
  seal : bytes -> bytes -> bytes -> bytes -> option bytes;
  open : bytes -> bytes -> bytes -> bytes -> option bytes;
}.

Class Crypto := {
  aes_256_gcm : aead;
  chacha20_poly1305 : aead;
  aes_256_siv : aead;
  hkdf_sha256 : option bytes -> bytes -> bytes -> option bytes; (* salt, input key, info *)
  hmac_sha256 : bytes -> bytes -> bytes;                        (* key, message *)
  sha256 : bytes -> bytes;
  sha512 : bytes -> bytes;
  base64_encode : bytes -> string;
  base64_decode : string -> option bytes;
  dh_secret : Type;                                             (* X25519 *)
  dh_public : dh_secret -> bytes;
  dh_agree : dh_secret -> bytes -> bytes;
  was_contributory : bytes -> bool;
}.

Record aead_ok (a : aead) : Prop := {
  open_seal k n ad m c : seal a k n ad m = Some c -> open a k n ad c = Some m;
  seal_open k n ad m c : open a k n ad c = Some m -> seal a k n ad m = Some c;
}.

Class CryptoLaws (cr : Crypto) : Prop := {
  gcm_ok : aead_ok aes_256_gcm;
  chacha_ok : aead_ok chacha20_poly1305;
  siv_ok : aead_ok aes_256_siv;
  hkdf_length salt ikm info : exists k, hkdf_sha256 salt ikm info = Some k /\ length k = 32;
  hmac_length k m : length (hmac_sha256 k m) = 32;
  sha256_length m : length (sha256 m) = 32;
  sha512_length m : length (sha512 m) = 64;
  base64_roundtrip b : base64_decode (base64_encode b) = Some b;
  base64_alphabet b c : c = newline \/ c = carriage_return -> contains_char c (base64_encode b) = false;
  base64_nonempty b : b <> [] -> base64_encode b <> EmptyString;
  dh_public_length s : length (dh_public s) = 32;
  dh_agree_length s p : length p = 32 -> length (dh_agree s p) = 32;
  (* sealing fails only beyond the cipher's message limit *)
  chacha_total k n ad m : length k = 32 -> length n = 12 -> (Z.of_nat (length m) <= u32_max)%Z ->
    is_Some (seal chacha20_poly1305 k n ad m);
  dh_symmetric s s' : dh_agree s (dh_public s') = dh_agree s' (dh_public s);
}.

(** Two distinct messages with the same MAC under one key. *)
Definition mac_collision `{Crypto} : Prop :=
  exists k m m', m <> m' /\ hmac_sha256 k m = hmac_sha256 k m'.

(** One ciphertext that is a valid sealing under two different contexts. *)
Definition aead_confusion (a : aead) : Prop :=
  exists k k' n ad ad' m m' c,
    (k, ad) <> (k', ad') /\ seal a k n ad m = Some c /\ seal a k' n ad' m' = Some c.

Lemma aead_open_unique a k n ad m m' c :
  aead_ok a -> seal a k n ad m = Some c -> open a k n ad c = Some m' -> m' = m.
Proof. intros Ha Hs%(open_seal a Ha). congruence. Qed.

(** ** An executable instance *)
Module ToyCrypto.

Definition pad (n : nat) (b : bytes) : bytes := take n (b ++ replicate n Byte.x00).

Lemma pad_length n b : length (pad n b) = n.
Proof. unfold pad. rewrite length_take, length_app, length_replicate. lia. Qed.

(** The tag is the whole context. *)
Definition tag (k n ad : bytes) : bytes := pad 32 k ++ pad 12 n ++ pad 64 ad.

Lemma tag_length k n ad : length (tag k n ad) = 108.
Proof. unfold tag. rewrite !length_app, !pad_length. done. Qed.

Definition toy_seal (k n ad m : bytes) : option bytes := Some (m ++ tag k n ad).
Definition toy_open (k n ad c : bytes) : option bytes :=
  if decide (108 <= length c /\ drop (length c - 108) c = tag k n ad)
  then Some (take (length c - 108) c) else None.

Definition toy_aead : aead := MkAead toy_seal toy_open.

Lemma toy_aead_ok : aead_ok toy_aead.
Proof.
  split; cbn; unfold toy_seal, toy_open; intros k n ad m c.
  - intros [= <-]. rewrite length_app, tag_length.
    replace (length m + 108 - 108) with (length m) by lia.
    rewrite drop_app_length, take_app_length. rewrite decide_True; [done|]. split; [lia|done].
  - case_decide as Hc; [|done]. intros [= <-]. destruct Hc as [_ <-]. by rewrite take_drop.
Qed.

Fixpoint xor_bytes (a b : bytes) : bytes :=
  match a, b with
  | x :: a, y :: b =>
      from_option id Byte.x00 (Byte.of_N (N.lxor (Byte.to_N x) (Byte.to_N y))) :: xor_bytes a b
  | _, _ => []
  end.

Lemma xor_bytes_comm a b : xor_bytes a b = xor_bytes b a.
Proof. revert b. induction a as [|x a IH]; intros [|y b]; cbn; [done..|]. by rewrite N.lxor_comm, IH. Qed.

Lemma xor_bytes_length a b : length (xor_bytes a b) = length a `min` length b.
Proof. revert b. induction a as [|x a IH]; intros [|y b]; cbn; auto. Qed.

(** Hexadecimal digits, a line-free encoding. *)
Definition hex_digit (n : nat) : ascii := ascii_of_nat (97 + n).
Definition unhex_digit (c : ascii) : nat := nat_of_ascii c - 97.
Fixpoint hex (b : bytes) : string :=
  match b with
  | [] => EmptyString
  | x :: b =>
      let n := nat_of_ascii (ascii_of_byte x) in
      String (hex_digit (n / 16)) (String (hex_digit (n mod 16)) (hex b))
  end.
Fixpoint unhex (s : string) : option bytes :=
  match s with
  | EmptyString => Some []
  | String a (String b s) =>
      rest ← unhex s;
      Some (byte_of_ascii (ascii_of_nat (unhex_digit a * 16 + unhex_digit b)) :: rest)
  | _ => None
  end.

Lemma hex_byte x :
  byte_of_ascii (ascii_of_nat (unhex_digit (hex_digit (nat_of_ascii (ascii_of_byte x) / 16)) * 16 +
    unhex_digit (hex_digit (nat_of_ascii (ascii_of_byte x) mod 16)))) = x.
Proof. destruct x; vm_compute; reflexivity. Qed.

Lemma unhex_hex b : unhex (hex b) = Some b.
Proof. induction b as [|x b IH]; [done|]. cbn [hex unhex]. rewrite IH. cbn [mbind option_bind]. by rewrite hex_byte. Qed.

Lemma hex_alphabet b c : c = newline \/ c = carriage_return -> contains_char c (hex b) = false.
Proof.
  intros Hc. induction b as [|x b IH]; [done|]. cbn [hex contains_char].
  rewrite IH, orb_false_r. apply orb_false_iff.
  split; apply bool_decide_eq_false; destruct Hc as [-> | ->]; by destruct x.
Qed.

#[export] Instance toy : Crypto := {
  aes_256_gcm := toy_aead;
  chacha20_poly1305 := toy_aead;
  aes_256_siv := toy_aead;
  hkdf_sha256 salt ikm info := Some (pad 32 (default [] salt ++ info ++ ikm));
  hmac_sha256 k m := pad 32 (m ++ k);
  sha256 := pad 32;
  sha512 := pad 64;
  base64_encode := hex;
  base64_decode := unhex;
  dh_secret := bytes;
  dh_public := pad 32;
  dh_agree s p := xor_bytes (pad 32 s) p;
  was_contributory k := bool_decide (k <> replicate 32 Byte.x00);
}.

#[export] Instance toy_laws : CryptoLaws toy.
Proof.
  split; cbn; intros; try apply toy_aead_ok; try apply pad_length.
  - eexists. split; [done|apply pad_length].
  - apply unhex_hex.
  - by apply hex_alphabet.
  - by destruct b.
  - unfold dh_agree. cbn. rewrite xor_bytes_length, pad_length. lia.
  - eauto.
  - apply xor_bytes_comm.
Qed.
End ToyCrypto.

(** [Uuid::to_string] and [Uuid::parse_str], on the 16 bytes of a UUID. *)
Class UuidText := { uuid_to_string : bytes -> string; uuid_parse_str : string -> option bytes }.
Class UuidTextLaws (u : UuidText) : Prop :=
  uuid_roundtrip b : length b = 16 -> uuid_parse_str (uuid_to_string b) = Some b.

(** [URL_SAFE_NO_PAD]. *)
Class UrlBase64 := { url_encode : bytes -> string; url_decode : string -> option bytes }.
Class UrlBase64Laws (u : UrlBase64) : Prop := url_roundtrip b : url_decode (url_encode b) = Some b.
