(* ===== verification/Clru.v ===== *)
(** * The [clru] crate as an interface

    [bounded_ttl_cache.rs] and [lease_aware_cache.rs] keep their entries in a
    [clru::CLruCache], which is not part of the repository.  This file states,
    as a class of operations ([Clru]) and a class of laws ([ClruLaws]), the
    documented behaviour of the operations the two caches use.  Everything is
    expressed through [clru_iter], the sequence [CLruCache::iter] yields (most
    recently used entry first).  The caches are proved against the laws;
    [ListClru] is an executable implementation that satisfies them, used by the
    witnesses. *)


From S2P Require Import Prelude.

(** ** Association lists in recency order *)
Section assoc.
Context {K V : Type} `{EqDecision K}.
Implicit Types (l : list (K * V)) (k : K) (v : V).

Fixpoint assoc k l : option V :=
  match l with
  | [] => None
  | (k', v) :: l' => if decide (k = k') then Some v else assoc k l'
  end.

Fixpoint remove_key k l : list (K * V) :=
  match l with
  | [] => []
  | (k', v) :: l' =>
      if decide (k = k') then l' else (k', v) :: remove_key k l'
  end.

(** Write a new value over the one stored at [k], in place. *)
Fixpoint update_key k v l : list (K * V) :=
  match l with
  | [] => []
  | (k', v') :: l' =>
      if decide (k = k') then (k', v) :: l' else (k', v') :: update_key k v l'
  end.

Lemma assoc_None k l : assoc k l = None <-> k ∉ l.*1.
Proof.
  induction l as [|[k' v] l IH]; cbn; [set_solver|].
  case_decide; [set_solver|]. rewrite IH. set_solver.
Qed.

Lemma assoc_elem_of k v l : assoc k l = Some v -> (k, v) ∈ l.
Proof.
  induction l as [|[k' v'] l IH]; cbn; [done|].
  case_decide; intros; simplify_eq; [left|right; auto].
Qed.

Lemma elem_of_assoc k v l :
  NoDup l.*1 -> (k, v) ∈ l -> assoc k l = Some v.
Proof.
  induction l as [|[k' v'] l IH]; cbn; [by intros _ ?%not_elem_of_nil|].
  intros [Hk' Hnd]%NoDup_cons [[= -> ->]|Hin]%elem_of_cons.
  - by rewrite decide_True.
  - rewrite decide_False; [by apply IH|].
    intros ->. apply Hk'. apply list_elem_of_fmap. by exists (k', v).
Qed.

Lemma remove_key_id k l : k ∉ l.*1 -> remove_key k l = l.
Proof.
  induction l as [|[k' v] l IH]; cbn; [done|]. intros Hk.
  rewrite decide_False by set_solver. f_equal. apply IH. set_solver.
Qed.

(** With distinct keys, removal splits the list around the entry. *)
Lemma remove_key_split k v l :
  assoc k l = Some v ->
  exists l1 l2, l = l1 ++ (k, v) :: l2 /\ remove_key k l = l1 ++ l2 /\ k ∉ l1.*1.
Proof.
  induction l as [|[k' v'] l IH]; cbn; [done|].
  case_decide as Hk.
  - intros [= ->]. subst k'. exists [], l. set_solver.
  - intros (l1 & l2 & -> & -> & Hni)%IH.
    exists ((k', v') :: l1), l2. split_and!; [done..|].
    cbn. set_solver.
Qed.

Lemma remove_key_middle k v l1 l2 :
  k ∉ l1.*1 -> remove_key k (l1 ++ (k, v) :: l2) = l1 ++ l2.
Proof.
  induction l1 as [|[k' v'] l1 IH]; cbn; [by rewrite decide_True|].
  intros Hk. rewrite decide_False by set_solver. f_equal. apply IH. set_solver.
Qed.

(** An entry in the middle of a list with distinct keys. *)
Lemma assoc_middle k v l1 l2 :
  NoDup (l1 ++ (k, v) :: l2).*1 ->
  assoc k (l1 ++ (k, v) :: l2) = Some v /\ remove_key k (l1 ++ (k, v) :: l2) = l1 ++ l2.
Proof.
  intros Hnd. split; [apply elem_of_assoc; [done|set_solver]|].
  apply remove_key_middle. rewrite fmap_app in Hnd.
  apply NoDup_app in Hnd as (_ & Hnd & _). intros Hin. apply (Hnd k Hin). cbn. left.
Qed.

Lemma remove_key_filter k l :
  NoDup l.*1 -> remove_key k l = filter (fun kv => kv.1 <> k) l.
Proof.
  induction l as [|[k' v'] l IH]; [done|]. rewrite fmap_cons. intros [Hk Hnd]%NoDup_cons.
  rewrite filter_cons. cbn [remove_key fst] in *. case_decide as Heq.
  - subst k'. rewrite decide_False by (intros H; by apply H).
    rewrite filter_all; [done|]. apply Forall_forall. intros kv Hin <-.
    apply Hk. by apply list_elem_of_fmap_2.
  - rewrite decide_True by done. f_equal. auto.
Qed.

Lemma remove_key_sublist k l : remove_key k l `sublist_of` l.
Proof.
  induction l as [|[k' v] l IH]; cbn; [done|].
  case_decide; by constructor.
Qed.

Lemma remove_key_fst_sublist k l : (remove_key k l).*1 `sublist_of` l.*1.
Proof.
  induction l as [|[k' v] l IH]; cbn; [done|].
  case_decide; by constructor.
Qed.

Lemma remove_key_NoDup k l : NoDup l.*1 -> NoDup (remove_key k l).*1.
Proof. intros. eapply sublist_NoDup; [done|apply remove_key_fst_sublist]. Qed.

Lemma remove_key_not_in k l : NoDup l.*1 -> k ∉ (remove_key k l).*1.
Proof.
  induction l as [|[k' v] l IH]; cbn; [set_solver|].
  intros [Hk' Hnd]%NoDup_cons. case_decide; [by subst|].
  cbn. rewrite not_elem_of_cons. auto.
Qed.

Lemma remove_key_length k l : length (remove_key k l) <= length l.
Proof. apply sublist_length, remove_key_sublist. Qed.

Lemma remove_key_length_Some k v l :
  assoc k l = Some v -> S (length (remove_key k l)) = length l.
Proof.
  intros (l1 & l2 & -> & -> & _)%remove_key_split.
  rewrite !length_app. cbn. lia.
Qed.

Lemma assoc_remove_key_ne k k' l : k <> k' -> assoc k (remove_key k' l) = assoc k l.
Proof.
  intros Hne. induction l as [|[k0 v] l IH]; cbn; [done|].
  repeat (case_decide; cbn; simplify_eq); try done.
Qed.

Lemma assoc_remove_key_eq k l : NoDup l.*1 -> assoc k (remove_key k l) = None.
Proof. intros. apply assoc_None, remove_key_not_in. done. Qed.

Lemma assoc_update_key_eq k v l : is_Some (assoc k l) -> assoc k (update_key k v l) = Some v.
Proof.
  induction l as [|[k0 v0] l IH]; cbn; [by intros []|].
  case_decide; cbn; [by rewrite decide_True|]. by rewrite decide_False.
Qed.

Lemma assoc_app k l1 l2 :
  assoc k (l1 ++ l2) = match assoc k l1 with Some v => Some v | None => assoc k l2 end.
Proof.
  induction l1 as [|[k0 v0] l1 IH]; cbn; [done|]. by case_decide.
Qed.
End assoc.

(** ** The operations of [CLruCache] the repository uses *)
Class Clru (C K V : Type) := {
  clru_with_memory : nat -> C;                 (* with_memory(capacity, _) *)
  clru_capacity : C -> nat;
  clru_iter : C -> list (K * V);               (* iter(): most recent first *)
  clru_len : C -> nat;
  clru_is_full : C -> bool;
  clru_peek : K -> C -> option V;              (* no change of recency *)
  clru_pop : K -> C -> option V * C;
  clru_pop_back : C -> option (K * V) * C;     (* least recently used entry *)
  clru_put : K -> V -> C -> option V * C;      (* previous value of the key *)
  clru_get_mut : K -> C -> option (V * (V -> C));   (* promotes; value and write-back *)
  clru_back_mut : C -> option ((K * V) * (V -> C)); (* in place; value and write-back *)
}.
#[global] Hint Mode Clru - - - : typeclass_instances.

(** The documented laws.  [clru_ok] is the representation invariant of the
    crate: distinct keys, never more entries than the capacity. *)
Class ClruLaws (C K V : Type) `{EqDecision K} {clru : Clru C K V} (clru_ok : C -> Prop) : Prop := {
  clru_ok_NoDup c : clru_ok c -> NoDup (clru_iter c).*1;
  clru_ok_bound c : clru_ok c -> length (clru_iter c) <= clru_capacity c;

  clru_new_ok n : 0 < n -> clru_ok (clru_with_memory n);
  clru_new_capacity n : clru_capacity (clru_with_memory n) = n;
  clru_new_iter n : clru_iter (clru_with_memory n) = [];

  clru_len_iter c : clru_len c = length (clru_iter c);
  clru_is_full_spec c : clru_is_full c = bool_decide (length (clru_iter c) = clru_capacity c);
  clru_peek_spec c k : clru_ok c -> clru_peek k c = assoc k (clru_iter c);

  clru_pop_ok c k : clru_ok c -> clru_ok (clru_pop k c).2;
  clru_pop_capacity c k : clru_capacity (clru_pop k c).2 = clru_capacity c;
  clru_pop_value c k : clru_ok c -> (clru_pop k c).1 = assoc k (clru_iter c);
  clru_pop_iter c k : clru_ok c -> clru_iter (clru_pop k c).2 = remove_key k (clru_iter c);

  clru_pop_back_ok c : clru_ok c -> clru_ok (clru_pop_back c).2;
  clru_pop_back_capacity c : clru_capacity (clru_pop_back c).2 = clru_capacity c;
  clru_pop_back_value c : clru_ok c -> (clru_pop_back c).1 = last (clru_iter c);
  clru_pop_back_iter c : clru_ok c ->
    clru_iter (clru_pop_back c).2 = take (pred (length (clru_iter c))) (clru_iter c);

  clru_put_ok c k v : clru_ok c -> clru_ok (clru_put k v c).2;
  clru_put_capacity c k v : clru_capacity (clru_put k v c).2 = clru_capacity c;
  clru_put_value c k v : clru_ok c -> (clru_put k v c).1 = assoc k (clru_iter c);
  (* an update of a present key, or an insertion with room, promotes the key *)
  clru_put_iter c k v : clru_ok c ->
    (is_Some (assoc k (clru_iter c)) \/ length (clru_iter c) < clru_capacity c) ->
    clru_iter (clru_put k v c).2 = (k, v) :: remove_key k (clru_iter c);

  clru_get_mut_None c k : clru_ok c ->
    clru_get_mut k c = None <-> assoc k (clru_iter c) = None;
  clru_get_mut_value c k v w : clru_ok c -> clru_get_mut k c = Some (v, w) ->
    assoc k (clru_iter c) = Some v;
  clru_get_mut_iter c k v w v' : clru_ok c -> clru_get_mut k c = Some (v, w) ->
    clru_ok (w v') /\ clru_capacity (w v') = clru_capacity c /\
    clru_iter (w v') = (k, v') :: remove_key k (clru_iter c);

  clru_back_mut_None c : clru_ok c -> clru_back_mut c = None <-> clru_iter c = [];
  clru_back_mut_iter c k v w v' : clru_ok c -> clru_back_mut c = Some ((k, v), w) ->
    exists l, clru_iter c = l ++ [(k, v)] /\
      clru_ok (w v') /\ clru_capacity (w v') = clru_capacity c /\
      clru_iter (w v') = l ++ [(k, v')];
}.

(** ** An executable implementation: the list itself *)
Module ListClru.
Record t (K V : Type) := Mk { capacity : nat; items : list (K * V) }.
Arguments Mk {K V}. Arguments capacity {K V}. Arguments items {K V}.

Section ops.
Context {K V : Type} `{EqDecision K}.

Definition ok (c : t K V) : Prop :=
  NoDup (items c).*1 /\ length (items c) <= capacity c.

Definition pop (k : K) (c : t K V) : option V * t K V :=
  (assoc k (items c), Mk (capacity c) (remove_key k (items c))).

Definition pop_back (c : t K V) : option (K * V) * t K V :=
  (last (items c), Mk (capacity c) (take (pred (length (items c))) (items c))).

Definition put (k : K) (v : V) (c : t K V) : option V * t K V :=
  (assoc k (items c),
   Mk (capacity c) (take (capacity c) ((k, v) :: remove_key k (items c)))).

Definition get_mut (k : K) (c : t K V) : option (V * (V -> t K V)) :=
  match assoc k (items c) with
  | None => None
  | Some v => Some (v, fun v' => Mk (capacity c) ((k, v') :: remove_key k (items c)))
  end.

Definition back_mut (c : t K V) : option ((K * V) * (V -> t K V)) :=
  match last (items c) with
  | None => None
  | Some (k, v) =>
      Some ((k, v), fun v' =>
        Mk (capacity c) (take (pred (length (items c))) (items c) ++ [(k, v')]))
  end.

#[export] Instance clru : Clru (t K V) K V := {
  clru_with_memory n := Mk n [];
  clru_capacity := capacity;
  clru_iter := items;
  clru_len c := length (items c);
  clru_is_full c := bool_decide (length (items c) = capacity c);
  clru_peek k c := assoc k (items c);
  clru_pop := pop;
  clru_pop_back := pop_back;
  clru_put := put;
  clru_get_mut := get_mut;
  clru_back_mut := back_mut;
}.

Lemma take_pred_last (l : list (K * V)) x :
  last l = Some x -> l = take (pred (length l)) l ++ [x].
Proof.
  intros [l' ->]%last_Some. rewrite length_app. cbn.
  replace (length l' + 1 - 1) with (length l') by lia.
  rewrite Nat.add_1_r. cbn. by rewrite take_app_length.
Qed.

Lemma promote_ok k v (c : t K V) :
  ok c -> is_Some (assoc k (items c)) \/ length (items c) < capacity c ->
  ok (Mk (capacity c) ((k, v) :: remove_key k (items c))).
Proof.
  intros [Hnd Hle] Hroom. split; cbn.
  - apply NoDup_cons. split; [by apply remove_key_not_in|by apply remove_key_NoDup].
  - destruct Hroom as [[v' Hv]|Hlt].
    + apply remove_key_length_Some in Hv. lia.
    + pose proof (remove_key_length k (items c)). lia.
Qed.

#[export] Instance clru_laws : ClruLaws (t K V) K V ok.
Proof.
  split; cbn; try done.
  - by intros c [? _].
  - by intros c [_ ?].
  - intros n _. split; [constructor|cbn; lia].
  - intros c k [Hnd Hle]. split; cbn; [by apply remove_key_NoDup|].
    pose proof (remove_key_length k (items c)). lia.
  - intros c [Hnd Hle]. split; cbn.
    + eapply sublist_NoDup; [exact Hnd|]. rewrite fmap_take. apply sublist_take.
    + rewrite length_take. lia.
  - intros c k v [Hnd Hle]. split; cbn [items capacity put fst snd].
    + rewrite fmap_take. eapply sublist_NoDup; [|apply sublist_take].
      cbn. apply NoDup_cons. split; [by apply remove_key_not_in|by apply remove_key_NoDup].
    + rewrite length_take. lia.
  - intros c k v [Hnd Hle] Hroom. cbn [items put fst snd].
    apply take_ge. by apply (promote_ok k v) in Hroom as [_ ?].
  - intros c k _. unfold get_mut. by destruct (assoc k (items c)).
  - intros c k v w _. unfold get_mut. destruct (assoc k (items c)); naive_solver.
  - intros c k v w v' Hok. unfold get_mut.
    destruct (assoc k (items c)) as [v0|] eqn:Hv; [|done]. intros [= <- <-].
    split_and!; [|done|done]. apply promote_ok; [done|]. left. by rewrite Hv.
  - intros c _. unfold back_mut. destruct (last (items c)) as [[k v]|] eqn:Hl.
    + split; [done|]. intros Hn%last_None. congruence.
    + by apply last_None in Hl.
  - intros c k v w v' [Hnd Hle]. unfold back_mut.
    destruct (last (items c)) as [[k0 v0]|] eqn:Hl; [|done]. intros [= <- <- <-].
    apply take_pred_last in Hl.
    exists (take (pred (length (items c))) (items c)). split_and!; [done| |done|done].
    split; cbn.
    + rewrite Hl in Hnd. by rewrite fmap_app in Hnd |- *.
    + rewrite Hl in Hle. by rewrite length_app in Hle |- *.
Qed.
End ops.
End ListClru.
