(* ===== verification/Api.v ===== *)
(** * The error type of the HTTP handlers and its responses ([main.rs]) *)

From S2P Require Import Prelude Text.

Module Api.

Inductive ApiError :=
| InvalidUsernameOrPassword | InvalidJwt | InternalServerError | ServiceUnavailable | BadRequest
| Conflict | EncryptionError | Unauthorized | InvalidInviteCode | RefreshFailed
| UserAlreadyVerified | NoEmailFound | UserExistsNotLinked | UserNotFound | EmailAlreadyExists
| UsageLimitReached | FreeTokenLimitExceeded | ModelNotAvailableOnPlan
| MessageExceedsContextLimit | NotFound | UnprocessableEntity | PayloadTooLarge | TooManyRequests.

#[export] Instance ApiError_eq_dec : EqDecision ApiError.
Proof. solve_decision. Defined.

(** [Display]. *)
Definition to_string (e : ApiError) : string :=
  match e with
  | InvalidUsernameOrPassword => "Invalid email, password, or login method"
  | InvalidJwt => "Invalid JWT"
  | InternalServerError => "Internal server error"
  | ServiceUnavailable => "Upstream provider temporarily unavailable"
  | BadRequest => "Bad Request"
  | Conflict => "Conflict"
  | EncryptionError => "Encryption error"
  | Unauthorized => "Unauthorized"
  | InvalidInviteCode => "Invalid invite code"
  | RefreshFailed => "Token refresh failed"
  | UserAlreadyVerified => "User is already verified"
  | NoEmailFound => "No valid email found for the Oauth account"
  | UserExistsNotLinked => "User exists but Oauth not linked"
  | UserNotFound => "User not found"
  | EmailAlreadyExists => "Email already registered"
  | UsageLimitReached => "Usage limit reached"
  | FreeTokenLimitExceeded => "Free tier token limit exceeded"
  | ModelNotAvailableOnPlan => "Model not available on current plan"
  | MessageExceedsContextLimit => "Message exceeds context limit"
  | NotFound => "Resource not found"
  | UnprocessableEntity => "Unprocessable entity"
  | PayloadTooLarge => "Payload too large"
  | TooManyRequests => "Too many requests"
  end.

Record ErrorResponse := MkErrorResponse { status : Z; message : string }.

(** [IntoResponse]: the status is also repeated in the body. *)
Definition status_code (e : ApiError) : Z :=
  match e with
  | InvalidUsernameOrPassword | InvalidJwt | Unauthorized | InvalidInviteCode | RefreshFailed => 401
  | InternalServerError => 500
  | ServiceUnavailable => 503
  | BadRequest | UserAlreadyVerified | EncryptionError | NoEmailFound => 400
  | Conflict | UserExistsNotLinked | EmailAlreadyExists => 409
  | UserNotFound | NotFound => 404
  | UsageLimitReached | FreeTokenLimitExceeded | ModelNotAvailableOnPlan => 403
  | MessageExceedsContextLimit | PayloadTooLarge => 413
  | UnprocessableEntity => 422
  | TooManyRequests => 429
  end.

Definition into_response (e : ApiError) : Z * ErrorResponse :=
  (status_code e, MkErrorResponse (status_code e) (to_string e)).

End Api.
