(* ===== verification/BoundedTtlCache.v ===== *)
(** * [bounded_ttl_cache.rs]: the pending-attestation cache

    A fixed-capacity map with a fixed time to live and oldest-first eviction,
    which holds the ephemeral secrets of attestations that have not been
    redeemed yet.  The operations are translated over the [Clru] interface; the
    file then shows that no reachable cache panics, exceeds its capacity or
    loses the expiry order, that the newest entries survive, that a value is
    handed out once, and that cleanup removes exactly what is expired. *)

From S2P Require Import Prelude Clru.

Module Bounded.

Inductive InsertOutcome := Inserted | Replaced | ReclaimedExpired | EvictedOldest.

#[export] Instance InsertOutcome_eq_dec : EqDecision InsertOutcome.
Proof. solve_decision. Defined.

Record TimedEntry (V : Type) := MkTimedEntry { value : V; expires_at : Z }.
Arguments MkTimedEntry {V}. Arguments value {V}. Arguments expires_at {V}.

Record RetiredValues (V : Type) := MkRetired { retired : list (TimedEntry V) }.
Arguments MkRetired {V}. Arguments retired {V}.

Definition removed_count {V} (r : RetiredValues V) : nat := length (retired r).

Record BoundedTtlCache (C : Type) := MkCache { entries : C; ttl : Z }.
Arguments MkCache {C}. Arguments entries {C}. Arguments ttl {C}.

Section cache.
Context {C K V : Type} `{EqDecision K} {clru : Clru C K (TimedEntry V)}.
Implicit Types (key : K) (v : V) (now : Z) (self : BoundedTtlCache C).

Definition new (capacity : nat) (ttl : Z) : BoundedTtlCache C :=
  MkCache (clru_with_memory capacity) ttl.

Definition is_expired (now : Z) (e : TimedEntry V) : bool :=
  bool_decide (expires_at e <= now)%Z.

(** [insert_evicting_at]: pop the key first, so that a replacement is
    promoted; at capacity the oldest entry goes. *)
Definition insert_evicting_at key v now self
    : outcome Empty_set (InsertOutcome * BoundedTtlCache C) :=
  expires ← expect (instant_checked_add now (ttl self));
  let entry := MkTimedEntry v expires in
  let '(popped, es) := clru_pop key (entries self) in
  match popped with
  | Some _ =>
      let '(previous, es) := clru_put key entry es in
      _ ← debug_assert (bool_decide (previous = None));
      Ok (Replaced, MkCache es (ttl self))
  | None =>
      '(out, es) ←
        (if clru_is_full es then
           let '(back, es) := clru_pop_back es in
           '(_, oldest) ← expect back;
           Ok ((if is_expired now oldest then ReclaimedExpired else EvictedOldest), es)
         else Ok (Inserted, es));
      let '(previous, es) := clru_put key entry es in
      _ ← debug_assert (bool_decide (previous = None));
      _ ← debug_assert (bool_decide (clru_len es <= clru_capacity es));
      Ok (out, MkCache es (ttl self))
  end.

(** [take_live_at]: the entry leaves the cache in every case. *)
Definition take_live_at key now self : option V * BoundedTtlCache C :=
  let '(popped, es) := clru_pop key (entries self) in
  let self := MkCache es (ttl self) in
  match popped with
  | None => (None, self)
  | Some entry => if is_expired now entry then (None, self) else (Some (value entry), self)
  end.

Section retire.
Context (zeroize : V -> V).

(** The loop of [retire_expired_at]: zeroize in place, then detach. *)
Fixpoint retire_loop (n : nat) (es : C) (acc : list (TimedEntry V))
    : outcome Empty_set (list (TimedEntry V) * C) :=
  match n with
  | 0 => Ok (acc, es)
  | S n =>
      '(kv, write) ← expect (clru_back_mut es);
      let es := write (MkTimedEntry (zeroize (value kv.2)) (expires_at kv.2)) in
      let '(back, es) := clru_pop_back es in
      '(_, entry) ← expect back;
      retire_loop n es (acc ++ [entry])
  end.

Definition retire_expired_at now self
    : outcome Empty_set (RetiredValues V * BoundedTtlCache C) :=
  let expired_count :=
    length (take_while (fun kv => is_expired now kv.2) (reverse (clru_iter (entries self)))) in
  '(acc, es) ← retire_loop expired_count (entries self) [];
  Ok (MkRetired acc, MkCache es (ttl self)).
End retire.

(** A timed sequence of calls, as the callers issue them under the lock. *)
Inductive op := Insert (key : K) (v : V) | Take (key : K) | Retire.

Definition run_op (zeroize : V -> V) (now : Z) (o : op) self
    : outcome Empty_set (BoundedTtlCache C) :=
  match o with
  | Insert key v => '(_, self) ← insert_evicting_at key v now self; Ok self
  | Take key => Ok (take_live_at key now self).2
  | Retire => '(_, self) ← retire_expired_at zeroize now self; Ok self
  end.

Fixpoint run (zeroize : V -> V) (trace : list (Z * op)) self
    : outcome Empty_set (BoundedTtlCache C) :=
  match trace with
  | [] => Ok self
  | (now, o) :: trace => self ← run_op zeroize now o self; run zeroize trace self
  end.
End cache.
Arguments op : clear implicits.

(** ** The cache as a list

    [view] is what [iter] yields, most recent first.  [spec_insert],
    [spec_take] and [spec_retire] say what each operation does to it. *)
Section spec.
Context {K V : Type} `{EqDecision K}.
Implicit Types (l : list (K * TimedEntry V)).

Definition spec_insert (cap : nat) (key : K) (e : TimedEntry V) (now : Z) l
    : InsertOutcome * list (K * TimedEntry V) :=
  match assoc key l with
  | Some _ => (Replaced, (key, e) :: remove_key key l)
  | None =>
      if decide (length l = cap) then
        match last l with
        | Some (_, oldest) =>
            ((if is_expired now oldest then ReclaimedExpired else EvictedOldest),
             (key, e) :: take (pred (length l)) l)
        | None => (Inserted, (key, e) :: l)
        end
      else (Inserted, (key, e) :: l)
  end.

Definition live (now : Z) l : list (K * TimedEntry V) :=
  filter (fun kv => is_expired now kv.2 = false) l.
Definition dead (now : Z) l : list (K * TimedEntry V) :=
  filter (fun kv => is_expired now kv.2 = true) l.

(** Later entries never expire after earlier ones. *)
Definition expiry_order (a b : K * TimedEntry V) : Prop :=
  (expires_at b.2 <= expires_at a.2)%Z.

Lemma is_expired_true now (e : TimedEntry V) :
  is_expired now e = true <-> (expires_at e <= now)%Z.
Proof. apply bool_decide_eq_true. Qed.
Lemma is_expired_false now (e : TimedEntry V) :
  is_expired now e = false <-> (now < expires_at e)%Z.
Proof. unfold is_expired. rewrite bool_decide_eq_false. lia. Qed.

(** In expiry order the expired entries are a suffix. *)
Lemma live_dead_split now l :
  StronglySorted expiry_order l -> l = live now l ++ dead now l.
Proof.
  induction 1 as [|x l Hs IH Hall]; [done|].
  unfold live, dead in *. rewrite !filter_cons.
  destruct (is_expired now x.2) eqn:Hx.
  - rewrite decide_False, decide_True by congruence.
    enough (filter (fun kv => is_expired now kv.2 = false) l = []) as Hn.
    { rewrite Hn in *. cbn in *. by f_equal. }
    apply elem_of_nil_inv. intros y Hy.
    apply list_elem_of_filter in Hy as [Hy Hin].
    eapply Forall_forall in Hall; [|exact Hin].
    apply is_expired_true in Hx. apply is_expired_false in Hy.
    unfold expiry_order in Hall. lia.
  - rewrite decide_True, decide_False by congruence. cbn. by f_equal.
Qed.

Lemma take_while_dead now l :
  StronglySorted expiry_order l ->
  take_while (fun kv => is_expired now kv.2) (reverse l) = reverse (dead now l).
Proof.
  intros Hs. rewrite (live_dead_split now l Hs) at 1. rewrite reverse_app.
  rewrite take_while_all, take_while_none, app_nil_r; [done| |].
  - apply Forall_reverse, Forall_forall. intros x Hx.
    by apply list_elem_of_filter in Hx as [? _].
  - apply Forall_reverse, Forall_forall. intros x Hx.
    by apply list_elem_of_filter in Hx as [? _].
Qed.

Lemma assoc_take key n l e : assoc key (take n l) = Some e -> assoc key l = Some e.
Proof.
  rewrite <- (take_drop n l) at 2. rewrite assoc_app. by intros ->.
Qed.
End spec.

Section refinement.
Context {C K V : Type} `{EqDecision K} {clru : Clru C K (TimedEntry V)}.
Context {clru_ok : C -> Prop} {laws : ClruLaws C K (TimedEntry V) clru_ok}.
Implicit Types (key : K) (v : V) (now : Z) (self : BoundedTtlCache C).

Definition view self : list (K * TimedEntry V) := clru_iter (entries self).
Definition cap self : nat := clru_capacity (entries self).

(** One promoted or fresh insertion of an absent key. *)
Lemma put_absent key (e : TimedEntry V) (es : C) :
  clru_ok es -> key ∉ (clru_iter es).*1 -> length (clru_iter es) < clru_capacity es ->
  let '(previous, es') := clru_put key e es in
  previous = None /\ clru_ok es' /\ clru_capacity es' = clru_capacity es /\
  clru_iter es' = (key, e) :: clru_iter es.
Proof.
  intros Hok Hni Hlt. destruct (clru_put key e es) as [previous es'] eqn:Hput.
  pose proof (clru_put_value es key e Hok) as Hv.
  pose proof (clru_put_ok es key e Hok) as Hok'.
  pose proof (clru_put_capacity es key e) as Hc.
  pose proof (clru_put_iter es key e Hok (or_intror Hlt)) as Hi.
  rewrite Hput in *. cbn in *. rewrite remove_key_id in Hi by done.
  apply assoc_None in Hni. by rewrite Hni in Hv.
Qed.

Lemma insert_refines key v now self :
  clru_ok (entries self) -> 0 < cap self -> (now + ttl self <= instant_max)%Z ->
  exists self',
    insert_evicting_at key v now self =
      Ok ((spec_insert (cap self) key (MkTimedEntry v (now + ttl self)%Z) now (view self)).1,
          self') /\
    view self' =
      (spec_insert (cap self) key (MkTimedEntry v (now + ttl self)%Z) now (view self)).2 /\
    clru_ok (entries self') /\ cap self' = cap self /\ ttl self' = ttl self.
Proof.
  intros Hok Hcap Httl. unfold insert_evicting_at, instant_checked_add, spec_insert, view, cap.
  rewrite decide_True by done. cbn.
  set (e := MkTimedEntry v _).
  pose proof (clru_pop_value (entries self) key Hok) as Hpv.
  pose proof (clru_pop_ok (entries self) key Hok) as Hpok.
  pose proof (clru_pop_capacity (entries self) key) as Hpc.
  pose proof (clru_pop_iter (entries self) key Hok) as Hpi.
  destruct (clru_pop key (entries self)) as [popped es]. cbn in *. subst popped.
  pose proof (clru_ok_NoDup _ Hok) as Hnd. pose proof (clru_ok_bound _ Hok) as Hle.
  assert (key ∉ (clru_iter es).*1) as Hni by (rewrite Hpi; by apply remove_key_not_in).
  destruct (assoc key (clru_iter (entries self))) as [old|] eqn:Hold.
  - pose proof (remove_key_length_Some _ _ _ Hold).
    pose proof (put_absent key e es Hpok Hni ltac:(rewrite Hpi, Hpc; lia)) as Hput.
    destruct (clru_put key e es) as [previous es'].
    destruct Hput as (-> & ? & ? & ?). cbn.
    eexists. split; [done|]. cbn. split_and!; [congruence|done|congruence|done].
  - rewrite clru_is_full_spec, Hpc, Hpi.
    apply assoc_None in Hold as Hkey. rewrite (remove_key_id _ _ Hkey) in Hpi |- *.
    case_bool_decide as Hfull.
    + rewrite decide_True by done.
      pose proof (clru_pop_back_value es Hpok) as Hbv.
      pose proof (clru_pop_back_ok es Hpok) as Hbok.
      pose proof (clru_pop_back_capacity es) as Hbc.
      pose proof (clru_pop_back_iter es Hpok) as Hbi.
      destruct (clru_pop_back es) as [back es2]. cbn in *. subst back. rewrite Hpi in *.
      destruct (last (clru_iter (entries self))) as [[k0 oldest]|] eqn:Hlast;
        [|apply last_None in Hlast; rewrite Hlast in Hfull; cbn in Hfull; unfold cap in Hcap; lia].
      cbn.
      assert (length (clru_iter es2) < clru_capacity es2) as Hroom.
      { rewrite Hbi, length_take, Hbc, Hpc. unfold cap in Hcap. lia. }
      assert (key ∉ (clru_iter es2).*1) as Hni2.
      { rewrite Hbi. intros Hin. apply Hkey. revert Hin. rewrite fmap_take.
        apply sublist_subseteq, sublist_take. }
      pose proof (put_absent key e es2 Hbok Hni2 Hroom) as Hput.
      destruct (clru_put key e es2) as [previous es3].
      destruct Hput as (-> & ? & Hc3 & Hi3). cbn.
      rewrite bool_decide_true by (rewrite clru_len_iter, Hi3, Hc3; cbn; lia). cbn.
      eexists. split; [done|]. cbn. split_and!; [congruence|done|congruence|done].
    + rewrite decide_False by done. cbn.
      pose proof (put_absent key e es Hpok Hni ltac:(rewrite Hpi, Hpc; lia)) as Hput.
      destruct (clru_put key e es) as [previous es3].
      destruct Hput as (-> & ? & Hc3 & Hi3). cbn.
      rewrite bool_decide_true by (rewrite clru_len_iter, Hi3, Hc3, Hpi, Hpc; cbn; lia). cbn.
      eexists. split; [done|]. cbn. split_and!; [congruence|done|congruence|done].
Qed.

Lemma take_refines key now self :
  clru_ok (entries self) ->
  (take_live_at key now self).1 =
    (match assoc key (view self) with
     | Some e => if is_expired now e then None else Some (value e)
     | None => None
     end) /\
  view (take_live_at key now self).2 = remove_key key (view self) /\
  clru_ok (entries (take_live_at key now self).2) /\
  cap (take_live_at key now self).2 = cap self /\
  ttl (take_live_at key now self).2 = ttl self.
Proof.
  intros Hok. unfold take_live_at, view, cap.
  pose proof (clru_pop_value (entries self) key Hok) as Hpv.
  pose proof (clru_pop_ok (entries self) key Hok) as Hpok.
  pose proof (clru_pop_capacity (entries self) key) as Hpc.
  pose proof (clru_pop_iter (entries self) key Hok) as Hpi.
  destruct (clru_pop key (entries self)) as [popped es]. cbn in *. subst popped.
  destruct (assoc key (clru_iter (entries self))) as [e|]; [destruct (is_expired now e)|]; done.
Qed.

Definition wiped (zeroize : V -> V) (kv : K * TimedEntry V) : TimedEntry V :=
  MkTimedEntry (zeroize (value kv.2)) (expires_at kv.2).

Lemma retire_loop_refines zeroize l1 l2 es acc :
  clru_ok es -> clru_iter es = l1 ++ l2 ->
  exists es',
    retire_loop zeroize (length l2) es acc = Ok (acc ++ (wiped zeroize <$> reverse l2), es') /\
    clru_iter es' = l1 /\ clru_ok es' /\ clru_capacity es' = clru_capacity es.
Proof.
  revert es acc. induction l2 as [|kv l2 IH] using rev_ind; intros es acc Hok Hi.
  { exists es. cbn. by rewrite !app_nil_r in *. }
  rewrite length_app, Nat.add_1_r. cbn [retire_loop].
  destruct (clru_back_mut es) as [[[k e] w]|] eqn:Hb; cycle 1.
  { apply clru_back_mut_None in Hb; [|done]. rewrite Hi in Hb.
    by apply app_nil in Hb as [_ [_ ?]%app_nil]. }
  cbn. set (e' := MkTimedEntry _ _).
  destruct (clru_back_mut_iter es k e w e' Hok Hb) as (l & Hl & Hok1 & Hc1 & Hi1).
  rewrite Hi, app_assoc in Hl. apply app_inj_tail in Hl as [<- ->].
  pose proof (clru_pop_back_value (w e') Hok1) as Hbv.
  pose proof (clru_pop_back_ok (w e') Hok1) as Hbok.
  pose proof (clru_pop_back_capacity (w e')) as Hbc.
  pose proof (clru_pop_back_iter (w e') Hok1) as Hbi.
  destruct (clru_pop_back (w e')) as [back es2]. cbn in *. subst back.
  rewrite Hi1, last_snoc. cbn.
  rewrite Hi1, length_app, Nat.add_1_r in Hbi. cbn in Hbi. rewrite take_app_length in Hbi.
  destruct (IH es2 (acc ++ [e']) Hbok Hbi) as (es3 & -> & ? & ? & ?).
  exists es3. split_and!; [|done..|congruence].
  rewrite reverse_snoc. cbn. by rewrite <- app_assoc.
Qed.

Lemma retire_refines zeroize now self :
  clru_ok (entries self) -> StronglySorted expiry_order (view self) ->
  exists self',
    retire_expired_at zeroize now self =
      Ok (MkRetired (wiped zeroize <$> reverse (dead now (view self))), self') /\
    view self' = live now (view self) /\
    clru_ok (entries self') /\ cap self' = cap self /\ ttl self' = ttl self.
Proof.
  intros Hok Hs. unfold retire_expired_at. fold (view self).
  rewrite take_while_dead, length_reverse by done.
  destruct (retire_loop_refines zeroize (live now (view self)) (dead now (view self))
              (entries self) [] Hok (live_dead_split now _ Hs)) as (es & -> & ? & ? & ?).
  cbn. eexists. split; [done|]. done.
Qed.
End refinement.

(** ** Invariant and reachable caches *)
Section invariant.
Context {C K V : Type} `{EqDecision K} {clru : Clru C K (TimedEntry V)}.
Context {clru_ok : C -> Prop} {laws : ClruLaws C K (TimedEntry V) clru_ok}.
Implicit Types (key : K) (v : V) (now : Z) (self : BoundedTtlCache C).

(** [inv capacity ttl now]: what holds of a cache none of whose calls came
    after [now]. *)
Record inv (capacity : nat) (lifetime now : Z) (self : BoundedTtlCache C) : Prop := {
  inv_ok : clru_ok (entries self);
  inv_cap : cap self = capacity;
  inv_ttl : ttl self = lifetime;
  inv_sorted : StronglySorted expiry_order (view self);
  inv_bound : Forall (fun kv => expires_at kv.2 <= now + lifetime)%Z (view self);
}.

Lemma inv_mono capacity lifetime now now' self :
  (now <= now')%Z -> inv capacity lifetime now self -> inv capacity lifetime now' self.
Proof.
  intros Hle [? ? ? ? Hb]. split; try done.
  eapply Forall_impl; [exact Hb|]. cbn. intros; lia.
Qed.

Lemma inv_sublist capacity lifetime now self self' :
  inv capacity lifetime now self -> view self' `sublist_of` view self ->
  clru_ok (entries self') -> cap self' = cap self -> ttl self' = ttl self ->
  inv capacity lifetime now self'.
Proof.
  intros [? ? ? Hs Hb] Hsub ? ? ?. split; [done|congruence|congruence| |].
  - by eapply StronglySorted_sublist.
  - by eapply Forall_sublist.
Qed.

Lemma spec_insert_shape key (e : TimedEntry V) capacity now l :
  exists l', (spec_insert capacity key e now l).2 = (key, e) :: l' /\ l' `sublist_of` l.
Proof.
  unfold spec_insert. destruct (assoc key l).
  - eexists. split; [done|]. apply remove_key_sublist.
  - case_decide; [destruct (last l) as [[]|]|]; cbn; eexists; (split; [done|]);
      auto using sublist_take.
Qed.

Lemma inv_insert capacity lifetime now key v self :
  0 < capacity -> (now + lifetime <= instant_max)%Z ->
  inv capacity lifetime now self ->
  exists out self', insert_evicting_at key v now self = Ok (out, self') /\
    inv capacity lifetime now self'.
Proof.
  intros Hcap Hmax [Hok Hc Ht Hs Hb].
  destruct (insert_refines key v now self Hok) as (self' & Hrun & Hv & Hok' & Hc' & Ht');
    [lia|by rewrite Ht|].
  eexists _, _. split; [exact Hrun|].
  destruct (spec_insert_shape key (MkTimedEntry v (now + ttl self)%Z) (cap self) now (view self))
    as (l' & Hshape & Hsub).
  rewrite Hshape in Hv. pose proof (Forall_sublist _ _ _ Hsub Hb) as Hb'.
  split; [done|congruence|congruence| |]; rewrite Hv.
  - constructor; [by eapply StronglySorted_sublist|].
    eapply Forall_impl; [exact Hb'|]. unfold expiry_order. cbn. intros; lia.
  - constructor; [cbn; lia|done].
Qed.

Lemma inv_take capacity lifetime now key self :
  inv capacity lifetime now self -> inv capacity lifetime now (take_live_at key now self).2.
Proof.
  intros Hinv. destruct (take_refines key now self (inv_ok _ _ _ _ Hinv)) as (_ & Hv & ? & ? & ?).
  eapply inv_sublist; [done| |done..]. rewrite Hv. apply remove_key_sublist.
Qed.

Lemma inv_retire zeroize capacity lifetime now self :
  inv capacity lifetime now self ->
  exists r self', retire_expired_at zeroize now self = Ok (r, self') /\
    inv capacity lifetime now self'.
Proof.
  intros Hinv.
  destruct (retire_refines zeroize now self (inv_ok _ _ _ _ Hinv) (inv_sorted _ _ _ _ Hinv))
    as (self' & Hrun & Hv & ? & ? & ?).
  eexists _, _. split; [exact Hrun|]. eapply inv_sublist; [done| |done..].
  rewrite Hv. apply sublist_filter.
Qed.

Lemma inv_run_op zeroize capacity lifetime now o self :
  0 < capacity -> (now + lifetime <= instant_max)%Z ->
  inv capacity lifetime now self ->
  exists self', run_op zeroize now o self = Ok self' /\ inv capacity lifetime now self'.
Proof.
  intros Hcap Hmax Hinv. destruct o as [key v|key|]; cbn.
  - destruct (inv_insert capacity lifetime now key v self) as (out & self' & -> & ?); eauto.
  - eauto using inv_take.
  - destruct (inv_retire zeroize capacity lifetime now self) as (r & self' & -> & ?); eauto.
Qed.

(** Calls in an order the monotonic clock allows, within its range. *)
Fixpoint timely (lifetime now : Z) (trace : list (Z * op K V)) : Prop :=
  match trace with
  | [] => True
  | (t, _) :: trace =>
      (now <= t)%Z /\ (t + lifetime <= instant_max)%Z /\ timely lifetime t trace
  end.

Lemma inv_run zeroize capacity lifetime now trace self :
  0 < capacity -> timely lifetime now trace -> inv capacity lifetime now self ->
  exists now' self', run zeroize trace self = Ok self' /\ (now <= now')%Z /\
    inv capacity lifetime now' self'.
Proof.
  intros Hcap. revert now self.
  induction trace as [|[t o] trace IH]; intros now self; cbn.
  - intros _ Hinv. exists now, self. split_and!; [done|lia|done].
  - intros (Hle & Hmax & Ht) Hinv.
    destruct (inv_run_op zeroize capacity lifetime t o self) as (self1 & -> & Hinv1);
      [done..|by eapply inv_mono|]. cbn.
    destruct (IH t self1 Ht Hinv1) as (now' & self' & ? & ? & ?).
    exists now', self'. split_and!; [done|lia|done].
Qed.

Lemma inv_new capacity lifetime now : 0 < capacity -> inv capacity lifetime now (new capacity lifetime).
Proof.
  intros. split; unfold view, cap, new; cbn.
  - by apply (clru_new_ok (K := K) (V := TimedEntry V)).
  - apply (clru_new_capacity (K := K) (V := TimedEntry V)).
  - done.
  - rewrite clru_new_iter. constructor.
  - rewrite clru_new_iter. constructor.
Qed.

(** *** The position of a key *)

(** [key] holds [v] until [deadline] and fewer than [room] entries are more
    recent. *)
Definition holds_at key v (deadline : Z) (room : nat) self : Prop :=
  exists l1 l2, view self = l1 ++ (key, MkTimedEntry v deadline) :: l2 /\ length l1 < room /\
    key ∉ l1.*1.

(** Calls on other keys, before the deadline. *)
Definition elsewhere key (o : op K V) : Prop :=
  match o with Insert k _ => k <> key | Take k => k <> key | Retire => True end.
Definition is_insert (o : op K V) : bool :=
  match o with Insert _ _ => true | _ => false end.
Definition inserts (trace : list (Z * op K V)) : nat :=
  length (filter (fun to => is_insert to.2 = true) trace).

Lemma inserts_cons t (o : op K V) (trace : list (Z * op K V)) :
  inserts ((t, o) :: trace) = (if is_insert o then 1 else 0) + inserts trace.
Proof. unfold inserts. rewrite filter_cons. by destruct o. Qed.

Lemma remove_key_app key (l1 l2 : list (K * TimedEntry V)) :
  remove_key key (l1 ++ l2) =
    if decide (key ∈ l1.*1) then remove_key key l1 ++ l2 else l1 ++ remove_key key l2.
Proof.
  induction l1 as [|[k0 e0] l1 IH]; cbn [app remove_key fmap list_fmap].
  - by rewrite decide_False by set_solver.
  - destruct (decide (key = k0)) as [->|Hne].
    + by rewrite decide_True by set_solver.
    + rewrite IH. do 2 case_decide; try done; set_solver.
Qed.

Lemma holds_remove key k v deadline room l1 l2 (l : list (K * TimedEntry V)) :
  l = l1 ++ (key, MkTimedEntry v deadline) :: l2 -> length l1 < room -> key ∉ l1.*1 ->
  k <> key ->
  exists l1' l2', remove_key k l = l1' ++ (key, MkTimedEntry v deadline) :: l2' /\
    length l1' < room /\ key ∉ l1'.*1.
Proof.
  intros -> Hlen Hni Hne. rewrite remove_key_app. case_decide.
  - exists (remove_key k l1), l2. split_and!; [done| |].
    + pose proof (remove_key_length k l1). lia.
    + intros Hin. apply Hni. by eapply sublist_subseteq; [apply remove_key_fst_sublist|].
  - exists l1, (remove_key k l2). split_and!; [|done..].
    cbn. by rewrite decide_False by done.
Qed.

Lemma holds_insert capacity lifetime now key k v v' deadline room self out self' :
  0 < capacity -> (now + lifetime <= instant_max)%Z -> inv capacity lifetime now self ->
  k <> key -> room < capacity -> holds_at key v deadline room self ->
  insert_evicting_at k v' now self = Ok (out, self') ->
  holds_at key v deadline (S room) self'.
Proof.
  intros Hcap Hmax [Hok Hc Ht Hs Hb] Hne Hroom (l1 & l2 & Hv & Hlen & Hni) Hrun.
  destruct (insert_refines k v' now self Hok) as (self1 & Hrun1 & Hv1 & _);
    [lia|by rewrite Ht|].
  rewrite Hrun in Hrun1. injection Hrun1 as _ <-.
  unfold holds_at. rewrite Hv1. unfold spec_insert.
  set (e := MkTimedEntry v' _). set (x := (key, MkTimedEntry v deadline)) in *.
  assert (forall l1' l2', length l1' < room -> key ∉ l1'.*1 ->
    exists a b, (k, e) :: l1' ++ x :: l2' = a ++ x :: b /\ length a < S room /\ key ∉ a.*1)
    as Hcons.
  { intros l1' l2' ? ?. exists ((k, e) :: l1'), l2'. split_and!; [done|cbn; lia|].
    cbn. set_solver. }
  destruct (assoc k (view self)) as [old|].
  - destruct (holds_remove key k v deadline room l1 l2 (view self)) as (a & b & -> & ? & ?);
      [done..|]. by apply Hcons.
  - case_decide as Hfull; [destruct (last (view self)) as [[k0 oldest]|]|]; cbn [snd].
    2, 3: rewrite Hv; by apply Hcons.
    rewrite Hv. rewrite take_app_ge by (rewrite Hv in Hfull; rewrite length_app in *; cbn in *; lia).
    rewrite Hv, length_app in Hfull. cbn in Hfull. rewrite length_app. cbn [length].
    replace (pred (length l1 + S (length l2)) - length l1) with (S (pred (length l2))) by lia.
    cbn [take]. by apply Hcons.
Qed.

Lemma holds_retire capacity lifetime zeroize now key v deadline room self r self' :
  inv capacity lifetime now self -> (now < deadline)%Z ->
  holds_at key v deadline room self ->
  retire_expired_at zeroize now self = Ok (r, self') -> holds_at key v deadline room self'.
Proof.
  intros Hinv Hnow (l1 & l2 & Hv & Hlen & Hni) Hrun.
  destruct (retire_refines zeroize now self (inv_ok _ _ _ _ Hinv) (inv_sorted _ _ _ _ Hinv))
    as (self1 & Hrun1 & Hv1 & _).
  rewrite Hrun in Hrun1. injection Hrun1 as _ <-.
  unfold holds_at. rewrite Hv1, Hv. unfold live. rewrite filter_app, filter_cons.
  rewrite decide_True by (apply is_expired_false; done).
  eexists _, _. split; [done|]. split.
  - eapply Nat.le_lt_trans; [|exact Hlen]. apply length_filter.
  - intros Hin. apply Hni. apply list_elem_of_fmap in Hin as (kv & -> & [_ Hkv]%list_elem_of_filter).
    by apply list_elem_of_fmap_2.
Qed.

Lemma holds_run capacity lifetime zeroize now key v deadline room trace self self' :
  0 < capacity -> timely lifetime now trace -> inv capacity lifetime now self ->
  Forall (fun to => to.1 < deadline /\ elsewhere key to.2)%Z trace ->
  inserts trace + room <= capacity -> holds_at key v deadline room self ->
  run zeroize trace self = Ok self' ->
  holds_at key v deadline (inserts trace + room) self'.
Proof.
  intros Hcap. revert now room self.
  induction trace as [|[t o] trace IH]; intros now room self.
  { by intros _ _ _ _ ? [= <-]. }
  cbn [timely run]. intros (Hle & Hmax & Ht) Hinv [[Htd Helse] Hall]%Forall_cons Hroom Hh Hrun.
  apply (inv_mono _ _ now t) in Hinv; [|done].
  destruct (inv_run_op zeroize capacity lifetime t o self) as (self1 & Ho & Hinv1); [done..|].
  rewrite Ho in Hrun. cbn in Hrun. cbn [fst snd] in *.
  rewrite inserts_cons in *.
  destruct o as [k v'|k|]; cbn [is_insert elsewhere Nat.add] in *.
  - rewrite <- Nat.add_succ_r in *. eapply IH; [done..| |done].
    cbn in Ho. destruct (insert_evicting_at k v' t self) as [[out s]| |] eqn:Hins; [|done..].
    injection Ho as ->. apply (holds_insert capacity lifetime t key k v v' deadline room self out self1); try done; lia.
  - eapply IH; [done..| |done]. cbn in Ho. injection Ho as <-.
    destruct (take_refines k t self (inv_ok _ _ _ _ Hinv)) as (_ & Hv & _).
    destruct Hh as (l1 & l2 & Hl & Hlen & Hni). unfold holds_at. rewrite Hv.
    by eapply (holds_remove key k v deadline room l1 l2).
  - eapply IH; [done..| |done]. cbn in Ho.
    destruct (retire_expired_at zeroize t self) as [[r s]| |] eqn:Hret; [|done..].
    injection Ho as ->. by apply (holds_retire capacity lifetime zeroize t key v deadline room self r self1).
Qed.
End invariant.

(** ** Properties *)
Section properties.
Context {C K V : Type} `{EqDecision K} {clru : Clru C K (TimedEntry V)}.
Context {clru_ok : C -> Prop} {laws : ClruLaws C K (TimedEntry V) clru_ok}.
Implicit Types (key : K) (v : V) (now : Z) (self : BoundedTtlCache C).

Lemma timely_app lifetime now (tr1 tr2 : list (Z * op K V)) zeroize capacity self self1 :
  0 < capacity -> timely lifetime now (tr1 ++ tr2) -> inv (clru_ok := clru_ok) capacity lifetime now self ->
  run zeroize tr1 self = Ok self1 ->
  exists now1, (now <= now1)%Z /\ timely lifetime now1 tr2 /\ inv (clru_ok := clru_ok) capacity lifetime now1 self1.
Proof.
  intros Hcap. revert now self. induction tr1 as [|[t o] tr1 IH]; intros now self.
  - cbn. intros Ht Hinv [= <-]. exists now. split_and!; [lia|done..].
  - cbn [app timely run]. intros (Hle & Hmax & Ht) Hinv Hrun.
    destruct (inv_run_op zeroize capacity lifetime t o self) as (s & Ho & Hs);
      [done..|by eapply inv_mono|].
    rewrite Ho in Hrun. destruct (IH t s Ht Hs Hrun) as (now1 & ? & ? & ?).
    exists now1. split_and!; [lia|done..].
Qed.

Lemma run_app zeroize (tr1 tr2 : list (Z * op K V)) self :
  run zeroize (tr1 ++ tr2) self = (s ← run zeroize tr1 self; run zeroize tr2 s).
Proof.
  revert self. induction tr1 as [|[t o] tr1 IH]; intros self; [done|]. cbn.
  destruct (run_op zeroize t o self); cbn; auto.
Qed.

Lemma absent_run capacity lifetime zeroize now key trace self self' :
  0 < capacity -> timely lifetime now trace -> inv (clru_ok := clru_ok) capacity lifetime now self ->
  Forall (fun to => forall v, to.2 <> Insert key v) trace ->
  assoc key (view self) = None -> run zeroize trace self = Ok self' ->
  assoc key (view self') = None.
Proof.
  intros Hcap. revert now self. induction trace as [|[t o] trace IH]; intros now self.
  { by intros _ _ _ ? [= <-]. }
  cbn [timely run]. intros (Hle & Hmax & Ht) Hinv [Ho Hall]%Forall_cons Habs Hrun.
  apply (inv_mono _ _ now t) in Hinv; [|done].
  destruct (inv_run_op zeroize capacity lifetime t o self) as (s & Hs & Hinv1); [done..|].
  rewrite Hs in Hrun. eapply IH; [done..| |done].
  apply assoc_None. apply assoc_None in Habs.
  destruct o as [k v|k|]; cbn in Hs, Ho.
  - destruct (insert_refines k v t self (inv_ok _ _ _ _ Hinv)) as (s1 & Hs1 & Hv & _);
      [rewrite (inv_cap _ _ _ _ Hinv); lia|by rewrite (inv_ttl _ _ _ _ Hinv)|].
    rewrite Hs1 in Hs. injection Hs as <-. rewrite Hv.
    destruct (spec_insert_shape k (MkTimedEntry v (t + ttl self)%Z) (cap self) t (view self))
      as (l' & -> & Hsub). cbn.
    rewrite not_elem_of_cons. split; [intros ->; by apply (Ho v)|].
    intros Hin. apply Habs. revert Hin. apply sublist_subseteq. by apply (sublist_fmap fst).
  - injection Hs as <-.
    destruct (take_refines k t self (inv_ok _ _ _ _ Hinv)) as (_ & -> & _).
    intros Hin. apply Habs. revert Hin. apply sublist_subseteq, remove_key_fst_sublist.
  - destruct (retire_refines zeroize t self (inv_ok _ _ _ _ Hinv) (inv_sorted _ _ _ _ Hinv))
      as (s1 & Hs1 & Hv & _).
    rewrite Hs1 in Hs. injection Hs as <-. rewrite Hv.
    intros Hin. apply Habs. revert Hin. apply sublist_subseteq. apply (sublist_fmap fst).
    apply sublist_filter.
Qed.

(** From an empty cache, every sequence of calls the clock allows runs
    without a panic and ends in a cache within its capacity, with distinct
    keys and with entries in expiry order (newest first). *)
Theorem trace_invariant zeroize capacity lifetime start trace :
  0 < capacity -> timely lifetime start trace ->
  exists self, run zeroize trace (new capacity lifetime) = Ok self /\
    clru_len (entries self) <= capacity /\ NoDup (view self).*1 /\
    StronglySorted expiry_order (view self).
Proof.
  intros Hcap Ht.
  destruct (inv_run zeroize capacity lifetime start trace (new capacity lifetime) Hcap Ht)
    as (now' & self & Hrun & _ & [Hok Hc _ Hs _]); [by apply inv_new|].
  exists self. split_and!; [done| |by apply clru_ok_NoDup|done].
  rewrite clru_len_iter, <- Hc. by apply clru_ok_bound.
Qed.

(** A value inserted at [t] is handed out by [take_live_at] at any later
    time before [t + ttl], as long as fewer than [capacity] insertions follow
    and nobody else uses its key: neither eviction nor cleanup loses it. *)
Theorem newest_survives zeroize capacity lifetime start before key v t after now self :
  timely lifetime start (before ++ (t, Insert key v) :: after) ->
  Forall (fun to => to.1 < t + lifetime /\ elsewhere key to.2)%Z after ->
  inserts after < capacity -> (now < t + lifetime)%Z ->
  run zeroize (before ++ (t, Insert key v) :: after) (new capacity lifetime) = Ok self ->
  (take_live_at key now self).1 = Some v.
Proof.
  intros Ht Helse Hroom Hnow Hrun. assert (0 < capacity) as Hcap by lia.
  rewrite run_app in Hrun.
  destruct (run zeroize before _) as [s0| |] eqn:Hb; [|done..]. cbn in Hrun.
  destruct (timely_app lifetime start before _ zeroize capacity (new capacity lifetime) s0 Hcap Ht) as
    (now0 & _ & Ht0 & Hinv0); [by apply inv_new|done|].
  cbn [timely] in Ht0. destruct Ht0 as (Hle & Hmax & Ht1).
  apply (inv_mono _ _ _ t) in Hinv0; [|done].
  pose proof (inv_ok _ _ _ _ Hinv0) as Hok0.
  destruct (insert_refines key v t s0 Hok0) as (s1 & Hs1 & Hv1 & Hok1 & Hc1 & Httl1);
    [rewrite (inv_cap _ _ _ _ Hinv0); lia|by rewrite (inv_ttl _ _ _ _ Hinv0)|].
  destruct (inv_insert capacity lifetime t key v s0 Hcap Hmax Hinv0) as (o & s1' & Hs1' & Hinv1).
  rewrite Hs1 in Hrun, Hs1'. injection Hs1' as _ <-. cbn in Hrun.
  destruct (spec_insert_shape key (MkTimedEntry v (t + ttl s0)%Z) (cap s0) t (view s0))
    as (l' & Hsh & _).
  rewrite Hsh, (inv_ttl _ _ _ _ Hinv0) in Hv1.
  assert (holds_at key v (t + lifetime) 1 s1) as Hh.
  { exists [], l'. split_and!; [done|cbn; lia|apply not_elem_of_nil]. }
  pose proof (holds_run capacity lifetime zeroize t key v (t + lifetime) 1 after s1 self Hcap Ht1
    Hinv1 Helse ltac:(lia) Hh Hrun) as (l1 & l2 & Hv & _ & Hni).
  destruct (inv_run zeroize capacity lifetime t after s1 Hcap Ht1 Hinv1)
    as (now' & self' & Hrun' & _ & Hinv').
  rewrite Hrun in Hrun'. injection Hrun' as <-.
  destruct (take_refines key now self (inv_ok _ _ _ _ Hinv')) as (-> & _).
  rewrite Hv, assoc_app. apply assoc_None in Hni. rewrite Hni. cbn.
  rewrite decide_True by done. unfold is_expired. cbn.
  by rewrite bool_decide_false by lia.
Qed.

(** A value is handed out once: after a [take_live_at], no later
    [take_live_at] of the key returns anything until the key is inserted
    again. *)
Theorem take_is_one_use zeroize capacity lifetime start before key t after now self self' :
  0 < capacity ->
  timely lifetime start (before ++ (t, Take key) :: after) ->
  Forall (fun to => forall v, to.2 <> Insert key v) after ->
  run zeroize before (new capacity lifetime) = Ok self ->
  run zeroize after (take_live_at key t self).2 = Ok self' ->
  (take_live_at key now self').1 = None.
Proof.
  intros Hcap Ht Hno Hb Ha.
  destruct (timely_app lifetime start before _ zeroize capacity (new capacity lifetime) self Hcap Ht) as
    (now0 & _ & (Hle & Hmax & Ht1) & Hinv0); [by apply inv_new|done|].
  apply (inv_mono _ _ _ t) in Hinv0; [|done].
  destruct (take_refines key t self (inv_ok _ _ _ _ Hinv0)) as (_ & Hv & _).
  pose proof (inv_take capacity lifetime t key self Hinv0) as Hinv1.
  assert (assoc key (view self') = None) as Habs.
  { eapply (absent_run capacity lifetime zeroize t key after); [done..| |done].
    rewrite Hv. apply assoc_remove_key_eq, clru_ok_NoDup. by destruct Hinv0. }
  destruct (inv_run zeroize capacity lifetime t after _ Hcap Ht1 Hinv1)
    as (now' & s & Hs & _ & Hinv').
  rewrite Ha in Hs. injection Hs as <-.
  destruct (take_refines key now self' (inv_ok _ _ _ _ Hinv')) as (-> & _).
  by rewrite Habs.
Qed.

(** Cleanup is exact: on every reachable cache [retire_expired_at]
    detaches all the expired entries and only those, oldest first and with
    their values zeroized, and keeps the live entries in their order. *)
Theorem cleanup_exact zeroize capacity lifetime start trace now self :
  0 < capacity -> timely lifetime start trace ->
  run zeroize trace (new capacity lifetime) = Ok self ->
  exists r self', retire_expired_at zeroize now self = Ok (r, self') /\
    retired r = wiped zeroize <$>
      reverse (filter (fun kv => is_expired now kv.2 = true) (view self)) /\
    view self' = filter (fun kv => is_expired now kv.2 = false) (view self) /\
    removed_count r + length (view self') = length (view self).
Proof.
  intros Hcap Ht Hrun.
  destruct (inv_run zeroize capacity lifetime start trace (new capacity lifetime) Hcap Ht)
    as (now' & s & Hs & _ & Hinv); [by apply inv_new|].
  rewrite Hrun in Hs. injection Hs as <-.
  destruct (retire_refines zeroize now self (inv_ok _ _ _ _ Hinv) (inv_sorted _ _ _ _ Hinv))
    as (self' & Hret & Hv & _).
  eexists _, _. split_and!; [exact Hret|done|done|].
  unfold removed_count. cbn. rewrite length_fmap, length_reverse, Hv.
  rewrite (live_dead_split now (view self)) at 3 by (by destruct Hinv).
  rewrite length_app. lia.
Qed.
End properties.

(** ** Witnesses, on the executable implementation of the interface *)
Section witnesses.
#[local] Existing Instances ListClru.clru ListClru.clru_laws.
Local Abbreviation cache := (ListClru.t Z (TimedEntry Z)).
Local Abbreviation laws := (ListClru.clru_laws (K := Z) (V := TimedEntry Z)).

Definition demo : list (Z * op Z Z) :=
  [(0, Insert 1 10); (1, Insert 2 20); (2, Insert 3 30); (5, Retire)]%Z.

Lemma trace_invariant_witness :
  exists self : BoundedTtlCache cache, run (fun _ => 0%Z) demo (new 2 5%Z) = Ok self /\
    clru_len (entries self) <= 2 /\ NoDup (view self).*1 /\
    StronglySorted expiry_order (view self).
Proof.
  apply (trace_invariant (laws := laws) (fun _ => 0%Z) 2 5 0 demo).
  - lia.
  - repeat split; vm_compute; discriminate.
Defined.

Lemma newest_survives_witness :
  (take_live_at 1%Z 4%Z
     (@MkCache cache (ListClru.Mk 2 [(3, MkTimedEntry 30 7); (1, MkTimedEntry 10 6)]%Z) 5)).1
  = Some 10%Z.
Proof.
  apply (newest_survives (laws := laws) (fun _ => 0%Z) 2 5 0 [(0, Insert 2 20)]%Z 1%Z 10%Z 1
           [(2, Insert 3 30)]%Z).
  - repeat split; vm_compute; discriminate.
  - repeat constructor; cbn; lia.
  - vm_compute. lia.
  - lia.
  - reflexivity.
Defined.

Lemma take_is_one_use_witness :
  (take_live_at 1%Z 3%Z
     (@MkCache cache (ListClru.Mk 2 [(2, MkTimedEntry 20 7)]%Z) 5)).1 = None.
Proof.
  eapply (take_is_one_use (laws := laws) (fun _ => 0%Z) 2 5 0 [(0, Insert 1 10)]%Z 1%Z 1
           [(2, Insert 2 20)]%Z 3%Z).
  - lia.
  - repeat split; vm_compute; discriminate.
  - repeat constructor. intros v. discriminate.
  - reflexivity.
  - reflexivity.
Defined.

Lemma cleanup_exact_witness :
  exists r (self' : BoundedTtlCache cache),
    retire_expired_at (fun _ => 0%Z) 6%Z
      (MkCache (ListClru.Mk 2 [(3, MkTimedEntry 30 7); (2, MkTimedEntry 20 6)]%Z) 5%Z) = Ok (r, self') /\
    retired r = wiped (K := Z) (fun _ => 0%Z) <$> reverse [(2, MkTimedEntry 20 6)]%Z /\
    view self' = [(3, MkTimedEntry 30 7)]%Z /\ removed_count r + length (view self') = 2.
Proof.
  apply (cleanup_exact (laws := laws) (fun _ => 0%Z) 2 5 0
           [(0, Insert 1 10); (1, Insert 2 20); (2, Insert 3 30)]%Z 6%Z).
  - lia.
  - repeat split; vm_compute; discriminate.
  - reflexivity.
Defined.
End witnesses.

End Bounded.
