(* ===== verification/LeaseAwareCache.v ===== *)
(** * [lease_aware_cache.rs]: the cache of established sessions

    A fixed-capacity LRU cache with a sliding time to live, whose entries can
    be leased by requests in flight.  A cached value lives in an [Arc] slot
    with an atomic lease counter, so the model has a heap of slots with their
    strong counts and lease counters, the cache that points into it, and the
    handles that requests and the maintenance task own.  Calls under the
    session mutex are single steps; the two halves of dropping a lease (the
    [fetch_sub], then the release of the [Arc]) happen outside the mutex and
    interleave with them. *)

From stdpp Require Import gmultiset.
From S2P Require Import Prelude Clru.

Module Lease.

Inductive InsertOutcome := Inserted | ReclaimedExpired | EvictedLeastRecentlyUsed.
Inductive InsertError := DuplicateKey | AllEntriesLeased.

(** A slot behind an [Arc]: the value, its lease counter (a [usize]) and the
    strong count of the [Arc]. *)
Record LeaseSlot (V : Type) := MkSlot { value : V; leases : Z; strong : nat }.
Arguments MkSlot {V}. Arguments value {V}. Arguments leases {V}. Arguments strong {V}.

(** The heap: slots by address. *)
Abbreviation heap V := (gmap nat (LeaseSlot V)).

Record CachedValue := MkCached { slot : nat; expires_at : Z }.

Record RetiredLeaseValues := MkRetired { slots : list nat }.
Definition removed_count (r : RetiredLeaseValues) : nat := length (slots r).

(** A [CacheLease] is the address it holds. *)
Record CacheLease := MkLease { lease_slot : nat }.

Record LeaseAwareTtlCache (C : Type) := MkCache { entries : C; ttl : Z }.
Arguments MkCache {C}. Arguments entries {C}. Arguments ttl {C}.

(** ** Slots and reference counts *)
Section slots.
Context {V : Type}.
Implicit Types (h : heap V) (s : nat) (v : V).

Definition slot_new v : LeaseSlot V := MkSlot v 0 1.

Definition is_leased (c : LeaseSlot V) : bool := bool_decide (leases c <> 0%Z).

(** [fetch_update] with [checked_add]: [None] leaves the counter alone. *)
Definition try_acquire s h : bool * heap V :=
  match h !! s with
  | Some c =>
      match usize_checked_add (leases c) 1 with
      | Some n => (true, <[s := MkSlot (value c) n (strong c)]> h)
      | None => (false, h)
      end
  | None => (false, h)
  end.

Definition strong_count s h : nat := from_option strong 0 (h !! s).

Definition arc_new v h : nat * heap V :=
  let s := fresh (dom h) in (s, <[s := slot_new v]> h).

Definition arc_clone s h : heap V :=
  alter (fun c => MkSlot (value c) (leases c) (S (strong c))) s h.

(** Dropping an [Arc]: the last owner frees the slot. *)
Definition arc_drop s h : heap V :=
  match h !! s with
  | Some c =>
      if decide (strong c <= 1) then delete s h
      else <[s := MkSlot (value c) (leases c) (pred (strong c))]> h
  | None => h
  end.

Definition has_external_lease h (e : CachedValue) : bool :=
  match h !! slot e with
  | Some c => is_leased c || bool_decide (strong c <> 1)
  | None => true
  end.

(** [CacheLease::value]. *)
Definition lease_value (l : CacheLease) h : option V := value <$> h !! lease_slot l.

(** [Drop for CacheLease], up to the release of its [Arc]. *)
Definition lease_drop (l : CacheLease) h : outcome Empty_set (heap V) :=
  c ← expect (h !! lease_slot l);
  let h := <[lease_slot l := MkSlot (value c) ((leases c - 1) mod 2 ^ 64)%Z (strong c)]> h in
  _ ← debug_assert (bool_decide (0 < leases c)%Z);
  Ok h.
End slots.

(** ** The cache *)
Section cache.
Context {C K V : Type} `{EqDecision K} {clru : Clru C K CachedValue}.
Implicit Types (key : K) (v : V) (now : Z) (h : heap V) (self : LeaseAwareTtlCache C).

Definition new (capacity : nat) (ttl : Z) : LeaseAwareTtlCache C :=
  MkCache (clru_with_memory capacity) ttl.

Definition expiry_at now self : outcome Empty_set Z :=
  expect (instant_checked_add now (ttl self)).

Definition insert_new key v (expires : Z) h self
    : outcome Empty_set (heap V * LeaseAwareTtlCache C) :=
  let '(s, h) := arc_new v h in
  let '(previous, es) := clru_put key (MkCached s expires) (entries self) in
  _ ← debug_assert (match previous with Some _ => false | None => true end);
  _ ← debug_assert (bool_decide (clru_len es <= clru_capacity es));
  Ok (h, MkCache es (ttl self)).

Definition insert_evicting_at key v now h self
    : outcome InsertError (InsertOutcome * (heap V * LeaseAwareTtlCache C)) :=
  match clru_peek key (entries self) with
  | Some _ => Err DuplicateKey
  | None =>
      expires ← lift (expiry_at now self);
      if negb (clru_is_full (entries self)) then
        st ← lift (insert_new key v expires h self);
        Ok (Inserted, st)
      else
        '(eviction_key, _) ← ok_or AllEntriesLeased
          (snd <$> list_find (fun kv => has_external_lease h kv.2 = false)
                     (reverse (clru_iter (entries self))));
        let '(popped, es) := clru_pop eviction_key (entries self) in
        evicted ← expect popped;
        _ ← debug_assert (bool_decide (strong_count (slot evicted) h = 1));
        let out := if decide (expires_at evicted <= now)%Z
                   then ReclaimedExpired else EvictedLeastRecentlyUsed in
        let h := arc_drop (slot evicted) h in
        st ← lift (insert_new key v expires h (MkCache es (ttl self)));
        Ok (out, st)
  end.

(** An expired entry that nobody leases. *)
Definition expired_and_unleased now h (e : CachedValue) : bool :=
  bool_decide (expires_at e <= now)%Z && negb (has_external_lease h e).

(** The removal [acquire_at] and [touch_at] share. *)
Definition drop_expired key h self : outcome Empty_set (heap V * LeaseAwareTtlCache C) :=
  let '(expired, es) := clru_pop key (entries self) in
  _ ← debug_assert (match expired with
                    | Some entry => bool_decide (strong_count (slot entry) h = 1)
                    | None => true
                    end);
  Ok (match expired with Some entry => arc_drop (slot entry) h | None => h end,
      MkCache es (ttl self)).

Definition acquire_at key now h self
    : outcome Empty_set (option CacheLease * (heap V * LeaseAwareTtlCache C)) :=
  match clru_peek key (entries self) with
  | None => Ok (None, (h, self))
  | Some entry =>
      if expired_and_unleased now h entry then
        st ← drop_expired key h self;
        Ok (None, st)
      else
        match clru_peek key (entries self) with
        | None => Ok (None, (h, self))
        | Some entry =>
            let h := arc_clone (slot entry) h in
            let '(acquired, h) := try_acquire (slot entry) h in
            if acquired then Ok (Some (MkLease (slot entry)), (h, self))
            else Ok (None, (arc_drop (slot entry) h, self))
        end
  end.

Definition touch_at key now h self
    : outcome Empty_set (bool * (heap V * LeaseAwareTtlCache C)) :=
  match clru_peek key (entries self) with
  | None => Ok (false, (h, self))
  | Some entry =>
      if expired_and_unleased now h entry then
        st ← drop_expired key h self;
        Ok (false, st)
      else
        expires ← expiry_at now self;
        '(entry, write) ← expect (clru_get_mut key (entries self));
        Ok (true, (h, MkCache (write (MkCached (slot entry) expires)) (ttl self)))
  end.

(** The loop of [expired_unleased_keys_at], which stops at a live entry. *)
Fixpoint expired_unleased_scan now h (l : list (K * CachedValue)) : list K :=
  match l with
  | [] => []
  | (key, entry) :: l =>
      if bool_decide (now < expires_at entry)%Z then []
      else if has_external_lease h entry then expired_unleased_scan now h l
      else key :: expired_unleased_scan now h l
  end.

Definition expired_unleased_keys_at now h self : list K :=
  expired_unleased_scan now h (reverse (clru_iter (entries self))).

Fixpoint retire_expired_candidates_loop (keys : list K) now h self (acc : list nat)
    : outcome Empty_set (list nat * LeaseAwareTtlCache C) :=
  match keys with
  | [] => Ok (acc, self)
  | key :: keys =>
      let should_retire :=
        match clru_peek key (entries self) with
        | Some entry => expired_and_unleased now h entry
        | None => false
        end in
      if should_retire then
        let '(popped, es) := clru_pop key (entries self) in
        retired ← expect popped;
        _ ← debug_assert (bool_decide (strong_count (slot retired) h = 1));
        retire_expired_candidates_loop keys now h (MkCache es (ttl self)) (acc ++ [slot retired])
      else retire_expired_candidates_loop keys now h self acc
  end.

(** The retired slots keep their [Arc], so the heap does not change. *)
Definition retire_expired_candidates_at (keys : list K) now h self
    : outcome Empty_set (RetiredLeaseValues * LeaseAwareTtlCache C) :=
  '(acc, self) ← retire_expired_candidates_loop keys now h self [];
  Ok (MkRetired acc, self).
End cache.

(** ** The whole system: heap, cache and handles

    [live] are the leases requests hold, [dropping] the leases whose counter
    has been decremented but whose [Arc] has not been released yet, and
    [detached] the retired slots whose destruction is pending. *)
Record world (C V : Type) := MkWorld {
  mem : heap V;
  cache : LeaseAwareTtlCache C;
  clock : Z;
  live : gmultiset nat;
  dropping : gmultiset nat;
  detached : gmultiset nat;
}.
Arguments MkWorld {C V}. Arguments mem {C V}. Arguments cache {C V}. Arguments clock {C V}.
Arguments live {C V}. Arguments dropping {C V}. Arguments detached {C V}.

Inductive action (K V : Type) :=
| Insert (key : K) (v : V)
| Acquire (key : K)
| Touch (key : K)
| BeginDrop (s : nat)
| EndDrop (s : nat)
| RetireCandidates (keys : list K)
| FreeRetired (s : nat).
Arguments Insert {K V}. Arguments Acquire {K V}. Arguments Touch {K V}.
Arguments BeginDrop {K V}. Arguments EndDrop {K V}. Arguments RetireCandidates {K V}.
Arguments FreeRetired {K V}.

Section system.
Context {C K V : Type} `{EqDecision K} {clru : Clru C K CachedValue}.
Implicit Types (key : K) (v : V) (now : Z) (w : world C V).

Definition call now (a : action K V) w : outcome Empty_set (world C V) :=
  let w := MkWorld (mem w) (cache w) now (live w) (dropping w) (detached w) in
  match a with
  | Insert key v =>
      match insert_evicting_at key v now (mem w) (cache w) with
      | Ok (_, (h, c)) => Ok (MkWorld h c now (live w) (dropping w) (detached w))
      | Err _ => Ok w
      | Panic => Panic
      end
  | Acquire key =>
      '(l, (h, c)) ← acquire_at key now (mem w) (cache w);
      Ok (MkWorld h c now
            (match l with Some l => {[+ lease_slot l +]} ⊎ live w | None => live w end)
            (dropping w) (detached w))
  | Touch key =>
      '(_, (h, c)) ← touch_at key now (mem w) (cache w);
      Ok (MkWorld h c now (live w) (dropping w) (detached w))
  | BeginDrop s =>
      h ← lease_drop (MkLease s) (mem w);
      Ok (MkWorld h (cache w) now (live w ∖ {[+ s +]}) ({[+ s +]} ⊎ dropping w) (detached w))
  | EndDrop s =>
      Ok (MkWorld (arc_drop s (mem w)) (cache w) now (live w) (dropping w ∖ {[+ s +]}) (detached w))
  | RetireCandidates keys =>
      '(r, c) ← retire_expired_candidates_at keys now (mem w) (cache w);
      Ok (MkWorld (mem w) c now (live w) (dropping w) (list_to_set_disj (slots r) ⊎ detached w))
  | FreeRetired s =>
      Ok (MkWorld (arc_drop s (mem w)) (cache w) now (live w) (dropping w) (detached w ∖ {[+ s +]}))
  end.

(** What ownership lets a caller do: only a held handle is dropped. *)
Definition owned (a : action K V) w : Prop :=
  match a with
  | BeginDrop s => s ∈ live w
  | EndDrop s => s ∈ dropping w
  | FreeRetired s => s ∈ detached w
  | _ => True
  end.

(** The clock is monotone and far from the end of the [Instant] range.  The batches
    of [secret_cache_maintenance.rs] use the [now] read before the first of them:
    such a call is one of these steps, with a part of the batch ([stale_retire]). *)
Definition timely now w : Prop :=
  (clock w <= now /\ now + ttl (cache w) <= instant_max)%Z.

Inductive steps : list (action K V) -> world C V -> world C V -> Prop :=
| steps_refl w : steps [] w w
| steps_cons now a tr w w1 w2 :
    timely now w -> owned a w -> call now a w = Ok w1 -> steps tr w1 w2 ->
    steps (a :: tr) w w2.

(** Retiring a batch with an earlier [now] retires a part of it at the present. *)
Lemma stale_retire keys stale now (h : heap V) (c : LeaseAwareTtlCache C) : (stale <= now)%Z ->
  exists part, part `sublist_of` keys /\
    retire_expired_candidates_at keys stale h c = retire_expired_candidates_at part now h c.
Proof.
  intros Hle. unfold retire_expired_candidates_at. generalize (@nil nat) at 1 2 as acc. revert c.
  induction keys as [|key keys IH]; intros c acc; [by exists []|]. cbn [retire_expired_candidates_loop].
  destruct (match clru_peek key (entries c) with Some e => expired_and_unleased stale h e | None => false end) eqn:Hs.
  - assert (match clru_peek key (entries c) with Some e => expired_and_unleased now h e | None => false end = true) as Hn.
    { destruct (clru_peek key (entries c)); [|done]. unfold expired_and_unleased in *.
      apply andb_true_iff in Hs as [Hs%bool_decide_eq_true ->]. rewrite bool_decide_true; [done|lia]. }
    destruct (clru_pop key (entries c)) as [popped es] eqn:Hp. destruct popped as [retired|].
    + destruct (bool_decide (strong_count (slot retired) h = 1)) eqn:Hc.
      * destruct (IH (MkCache es (ttl c)) (acc ++ [slot retired])) as (part & Hsub & Heq). exists (key :: part).
        split; [by constructor|]. cbn [retire_expired_candidates_loop]. rewrite Hn, Hp. cbn. rewrite Hc. cbn. exact Heq.
      * exists [key]. split; [constructor; apply sublist_nil_l|]. cbn [retire_expired_candidates_loop]. rewrite Hn, Hp. cbn. by rewrite Hc.
    + exists [key]. split; [constructor; apply sublist_nil_l|]. cbn [retire_expired_candidates_loop]. by rewrite Hn, Hp.
  - destruct (IH c acc) as (part & Hsub & Heq). exists part. split; [by constructor|exact Heq].
Qed.

(** An executable run, for traces whose steps are all possible. *)
#[export] Instance owned_dec a w : Decision (owned a w).
Proof. destruct a; cbn; apply _. Defined.

Fixpoint run (tr : list (Z * action K V)) w : option (world C V) :=
  match tr with
  | [] => Some w
  | (now, a) :: tr =>
      if decide (timely now w /\ owned a w) then
        match call now a w with Ok w => run tr w | _ => None end
      else None
  end.

Lemma run_steps tr w w' : run tr w = Some w' -> steps tr.*2 w w'.
Proof.
  revert w. induction tr as [|[now a] tr IH]; intros w; cbn.
  - intros [= ->]. constructor.
  - case_decide as Hd; [|done]. destruct Hd as [Ht Ho].
    destruct (call now a w) as [w1| |] eqn:Hc; [|done..]. intros Hr.
    econstructor; eauto.
Qed.

Definition init (capacity : nat) (lifetime start : Z) : world C V :=
  MkWorld ∅ (new capacity lifetime) start ∅ ∅ ∅.
End system.

(** ** Reference counts are exact

    [counts h pool held]: the strong count of every slot is the number of
    references to it in [pool], its lease counter the number in [held], and
    a slot without references is freed. *)
#[local] Arguments gmultiset_disj_union : simpl never.
#[local] Arguments gmultiset_difference : simpl never.
#[local] Arguments gmultiset_singleton : simpl never.
#[local] Arguments gmultiset_empty : simpl never.
#[local] Arguments multiplicity : simpl never.
#[local] Arguments arc_new : simpl never.
#[local] Arguments arc_drop : simpl never.
#[local] Arguments try_acquire : simpl never.
#[local] Arguments insert_new : simpl never.
#[local] Arguments drop_expired : simpl never.

(** Membership and multiplicity of one slot, by arithmetic. *)
Ltac mult_norm :=
  rewrite ?elem_of_multiplicity in *;
  repeat progress rewrite ?multiplicity_difference, ?multiplicity_disj_union in *.
Ltac mult := mult_norm; rewrite ?multiplicity_singleton_eq in *; lia.
Ltac mult_at s a :=
  destruct (decide (s = a)) as [->|?]; [mult|];
  mult_norm; rewrite ?multiplicity_singleton_ne in * by done; lia.

Section counting.
Context {V : Type}.
Implicit Types (h : heap V) (s : nat) (v : V) (pool held : gmultiset nat).

(** The state of one slot with [p] references, [l] of them leases. *)
Definition accounted (o : option (LeaseSlot V)) (p l : nat) : Prop :=
  match o with
  | Some c => strong c = p /\ 0 < strong c /\ leases c = Z.of_nat l /\ (leases c <= usize_max)%Z
  | None => p = 0
  end.

Definition counts h pool held : Prop :=
  forall s, accounted (h !! s) (multiplicity s pool) (multiplicity s held).

Lemma counts_pool h pool pool' held :
  (forall s, multiplicity s pool = multiplicity s pool') -> counts h pool held -> counts h pool' held.
Proof. intros Hp Hc s. specialize (Hc s). by rewrite <- Hp. Qed.

Lemma counts_cell h pool held s :
  counts h pool held -> s ∈ pool ->
  exists c, h !! s = Some c /\ strong c = multiplicity s pool /\
            leases c = Z.of_nat (multiplicity s held) /\ (leases c <= usize_max)%Z.
Proof.
  intros Hc Hin. specialize (Hc s). unfold accounted in Hc. destruct (h !! s) as [c|].
  - exists c. by destruct Hc as (? & ? & ? & ?).
  - rewrite elem_of_multiplicity in Hin. lia.
Qed.

Lemma counts_new v h pool held :
  held ⊆ pool -> counts h pool held ->
  multiplicity (arc_new v h).1 pool = 0 /\
  counts (arc_new v h).2 ({[+ (arc_new v h).1 +]} ⊎ pool) held.
Proof.
  intros Hsub Hc. unfold arc_new. generalize (is_fresh (dom h)). generalize (fresh (dom h)) as s.
  intros s Hfresh. cbn.
  assert (h !! s = None) as Hs by (by apply not_elem_of_dom).
  pose proof (Hc s) as Hcs. rewrite Hs in Hcs. cbn in Hcs. split; [done|].
  intros s'. rewrite multiplicity_disj_union, lookup_insert.
  specialize (Hsub s). pose proof (Hc s') as Hcs'. case_decide as Heq.
  - subst s'. rewrite multiplicity_singleton_eq. cbn. unfold usize_max.
    split_and!; lia.
  - rewrite multiplicity_singleton_ne by done. by cbn.
Qed.

Lemma counts_drop s h pool held :
  s ∈ pool -> counts h pool held -> counts (arc_drop s h) (pool ∖ {[+ s +]}) held.
Proof.
  intros Hin Hc. destruct (counts_cell _ _ _ _ Hc Hin) as (c & Hs & Hstrong & Hl & Hmax).
  unfold arc_drop. rewrite Hs. intros s'. rewrite multiplicity_difference.
  pose proof (Hc s') as Hcs'. rewrite elem_of_multiplicity in Hin.
  case_decide; [rewrite lookup_delete|rewrite lookup_insert];
    (case_decide; [subst s'; rewrite multiplicity_singleton_eq
                  |rewrite multiplicity_singleton_ne, Nat.sub_0_r by done; done]).
  - cbn. lia.
  - cbn. split_and!; [lia..|done|done].
Qed.

Lemma counts_acquire s h pool held :
  s ∈ pool -> counts h pool held ->
  match try_acquire s (arc_clone s h) with
  | (true, h') => counts h' ({[+ s +]} ⊎ pool) ({[+ s +]} ⊎ held)
  | (false, h') => counts (arc_drop s h') pool held
  end.
Proof.
  intros Hin Hc. destruct (counts_cell _ _ _ _ Hc Hin) as (c & Hs & Hstrong & Hl & Hmax).
  unfold try_acquire, arc_clone. rewrite lookup_alter_eq, Hs. cbn.
  unfold usize_checked_add. rewrite elem_of_multiplicity in Hin. case_decide as Hfit.
  - intros s'. rewrite !multiplicity_disj_union, lookup_insert.
    pose proof (Hc s') as Hcs'. case_decide as Heq.
    + subst s'. rewrite multiplicity_singleton_eq. cbn. split_and!; lia.
    + rewrite multiplicity_singleton_ne by done. rewrite lookup_alter_ne by done. done.
  - unfold arc_drop. rewrite lookup_alter_eq, Hs. cbn. rewrite decide_False by lia.
    intros s'. rewrite lookup_insert. pose proof (Hc s') as Hcs'. case_decide as Heq.
    + subst s'. cbn. split_and!; lia.
    + rewrite lookup_alter_ne by done. done.
Qed.

Lemma counts_begin_drop s h pool held :
  s ∈ held -> held ⊆ pool -> counts h pool held ->
  exists h', lease_drop (MkLease s) h = Ok h' /\ counts h' pool (held ∖ {[+ s +]}).
Proof.
  intros Hin Hsub Hc. assert (s ∈ pool) as Hp by multiset_solver.
  destruct (counts_cell _ _ _ _ Hc Hp) as (c & Hs & Hstrong & Hl & Hmax).
  rewrite elem_of_multiplicity in Hin. unfold lease_drop. cbn [lease_slot]. rewrite Hs. cbn.
  rewrite bool_decide_true by lia. cbn. eexists. split; [done|].
  intros s'. rewrite multiplicity_difference, lookup_insert.
  pose proof (Hc s') as Hcs'. case_decide as Heq.
  - subst s'. rewrite multiplicity_singleton_eq. rewrite Hs in Hcs'. cbn in Hcs' |- *.
    unfold usize_max in *. rewrite Z.mod_small by lia. split_and!; lia.
  - rewrite multiplicity_singleton_ne, Nat.sub_0_r by done. done.
Qed.

(** No operation changes the value of a slot that stays allocated. *)
Definition same_values h h' : Prop :=
  forall s c c', h !! s = Some c -> h' !! s = Some c' -> value c' = value c.

Lemma same_values_refl h : same_values h h.
Proof. intros s c c' H1 H2. congruence. Qed.

Lemma same_values_insert h s c n m :
  h !! s = Some c -> same_values h (<[s := MkSlot (value c) n m]> h).
Proof.
  intros Hs s' c1 c2 H1. rewrite lookup_insert. case_decide; intros; simplify_eq; done.
Qed.

Lemma same_values_drop s h : same_values h (arc_drop s h).
Proof.
  unfold arc_drop. destruct (h !! s) as [c|] eqn:Hs; [|apply same_values_refl].
  case_decide; [|by apply same_values_insert].
  intros s' c1 c2 H1 [_ H2]%lookup_delete_Some. congruence.
Qed.

Lemma same_values_new v h : same_values h (arc_new v h).2.
Proof.
  intros s c c' Hs. unfold arc_new. cbn. rewrite lookup_insert_ne; [congruence|].
  intros Heq. apply (is_fresh (dom h)). rewrite Heq. by apply elem_of_dom_2 in Hs.
Qed.

Lemma lookup_arc_drop_ne s s' h : s' <> s -> arc_drop s h !! s' = h !! s'.
Proof.
  intros Hne. unfold arc_drop. destruct (h !! s); [|done].
  case_decide; [by rewrite lookup_delete_ne|by rewrite lookup_insert_ne].
Qed.

Lemma lookup_arc_new_ne v h s : s <> (arc_new v h).1 -> (arc_new v h).2 !! s = h !! s.
Proof. intros Hne. unfold arc_new in *. cbn in *. by rewrite lookup_insert_ne. Qed.

Lemma same_values_acquire s h : same_values h (try_acquire s (arc_clone s h)).2.
Proof.
  unfold try_acquire, arc_clone. intros s' c c' Hs'. cbn zeta.
  rewrite lookup_alter_eq. destruct (h !! s) as [c0|] eqn:Hs; cbn;
    [destruct (usize_checked_add _ _); cbn; [rewrite lookup_insert; case_decide; [intros; by simplify_eq/=|]|]|];
    rewrite lookup_alter; case_decide; intros; simplify_eq/=; try done;
    rewrite Hs' in *; simplify_eq/=; done.
Qed.

Lemma same_values_failed_acquire s h :
  same_values h (arc_drop s (try_acquire s (arc_clone s h)).2).
Proof.
  intros s' c c' Hs Hs'.
  assert (exists c2, (try_acquire s (arc_clone s h)).2 !! s' = Some c2) as [c2 Hc2].
  { unfold try_acquire, arc_clone. rewrite lookup_alter_eq. destruct (decide (s' = s)) as [->|Hne].
    - rewrite Hs. cbn. destruct (usize_checked_add _ _); cbn;
        [rewrite lookup_insert_eq|rewrite lookup_alter_eq, Hs]; cbn; eauto.
    - exists c. destruct (h !! s); cbn; [destruct (usize_checked_add _ _); cbn|];
        rewrite ?lookup_insert_ne by done; by rewrite lookup_alter_ne. }
  pose proof (same_values_acquire s h s' c c2 Hs Hc2).
  pose proof (same_values_drop s _ s' c2 c' Hc2 Hs'). congruence.
Qed.

Lemma same_values_begin_drop l h h' : lease_drop l h = Ok h' -> same_values h h'.
Proof.
  unfold lease_drop. destruct (h !! lease_slot l) as [c|] eqn:Hs; [|done]. cbn.
  case_bool_decide; [|done]. intros [= <-]. by apply same_values_insert.
Qed.
End counting.

(** ** The operations on the recency list

    [good h self rest held]: the cache is well formed and the references to
    the slots of [h] are exactly those of the cached entries and of [rest],
    [held] of which are leases. *)
Section operations.
Context {C K V : Type} `{EqDecision K} {clru : Clru C K CachedValue}.
Context {clru_ok : C -> Prop} {laws : ClruLaws C K CachedValue clru_ok}.
Implicit Types (key : K) (v : V) (now : Z) (h : heap V) (self : LeaseAwareTtlCache C).
Implicit Types (l : list (K * CachedValue)) (rest held : gmultiset nat).

Definition view self : list (K * CachedValue) := clru_iter (entries self).
Definition cap self : nat := clru_capacity (entries self).
Definition cached l : gmultiset nat := list_to_set_disj ((fun kv => slot kv.2) <$> l).

Record good h self rest held : Prop := {
  g_ok : clru_ok (entries self);
  g_counts : counts h (cached (view self) ⊎ rest) held;
  g_held : held ⊆ rest;
  g_unique : forall s, multiplicity s (cached (view self)) <= 1;
}.

Lemma cached_cons kv l : cached (kv :: l) = {[+ slot kv.2 +]} ⊎ cached l.
Proof. done. Qed.

Lemma cached_app l1 l2 : cached (l1 ++ l2) = cached l1 ⊎ cached l2.
Proof. unfold cached. by rewrite fmap_app, list_to_set_disj_app. Qed.

Lemma cached_remove key e l :
  assoc key l = Some e -> cached l = {[+ slot e +]} ⊎ cached (remove_key key l).
Proof.
  intros (l1 & l2 & -> & -> & _)%remove_key_split.
  rewrite !cached_app, cached_cons. cbn. multiset_solver.
Qed.

Lemma cached_elem key e l : (key, e) ∈ l -> slot e ∈ cached l.
Proof.
  intros (l1 & l2 & ->)%list_elem_of_split. rewrite cached_app, cached_cons. cbn. multiset_solver.
Qed.

(** Leased means referenced from outside the cache. *)
Lemma external_lease h self rest held key e :
  good h self rest held -> (key, e) ∈ view self ->
  has_external_lease h e = bool_decide (slot e ∈ rest).
Proof.
  intros [Hok Hc Hsub Hu] Hin%cached_elem.
  destruct (counts_cell h _ held (slot e) Hc ltac:(multiset_solver)) as (c & Hs & Hst & Hl & _).
  unfold has_external_lease, is_leased. rewrite Hs.
  specialize (Hsub (slot e)). specialize (Hu (slot e)).
  rewrite multiplicity_disj_union in Hst. rewrite elem_of_multiplicity in Hin.
  pose proof (elem_of_multiplicity (slot e) rest) as Hiff.
  repeat case_bool_decide; try done; naive_solver lia.
Qed.

Lemma unleased_strong h self rest held key e :
  good h self rest held -> assoc key (view self) = Some e -> has_external_lease h e = false ->
  strong_count (slot e) h = 1 /\ (slot e ∉ rest) /\ (slot e ∉ cached (remove_key key (view self))).
Proof.
  intros Hg Ha Hun. pose proof (assoc_elem_of _ _ _ Ha) as Hin.
  rewrite (external_lease _ _ _ _ _ _ Hg Hin) in Hun. apply bool_decide_eq_false in Hun.
  destruct Hg as [Hok Hc Hsub Hu].
  rewrite (cached_remove _ _ _ Ha) in Hc, Hu.
  destruct (counts_cell h _ held (slot e) Hc ltac:(multiset_solver)) as (c & Hs & Hst & _).
  specialize (Hu (slot e)). unfold strong_count. rewrite Hs. cbn. split_and!; [|done|]; mult.
Qed.

(** Popping an entry turns its reference into one outside the cache. *)
Lemma pop_spec h self rest held key e :
  good h self rest held -> assoc key (view self) = Some e ->
  let '(popped, es) := clru_pop key (entries self) in
  let self' := MkCache es (ttl self) in
  popped = Some e /\ view self' = remove_key key (view self) /\
  good h self' ({[+ slot e +]} ⊎ rest) held /\ cap self' = cap self.
Proof.
  intros [Hok Hc Hsub Hu] Ha. pose proof (cached_remove _ _ _ Ha) as Hrem.
  pose proof (clru_pop_value (entries self) key Hok) as Hpv.
  pose proof (clru_pop_ok (entries self) key Hok) as Hpok.
  pose proof (clru_pop_capacity (entries self) key) as Hpc.
  pose proof (clru_pop_iter (entries self) key Hok) as Hpi.
  destruct (clru_pop key (entries self)) as [popped es]. unfold view, cap in *. cbn in *.
  split_and!; [congruence|done| |done]. split; unfold view; cbn; rewrite ?Hpi; [done|..].
  - eapply counts_pool; [|exact Hc]. intros s. rewrite Hrem. mult_norm. lia.
  - multiset_solver.
  - intros s. specialize (Hu s). rewrite Hrem in Hu. mult_norm. lia.
Qed.

(** Releasing a reference outside the cache. *)
Lemma good_drop s h self rest held :
  held ⊆ rest -> good h self ({[+ s +]} ⊎ rest) held -> good (arc_drop s h) self rest held.
Proof.
  intros Hsub [Hok Hc _ Hu]. split; [done| |done|done].
  eapply counts_pool; [|apply (counts_drop s); [|exact Hc]].
  - intros s'. mult_at s' s.
  - mult.
Qed.

Lemma drop_expired_spec h self rest held key e :
  good h self rest held -> assoc key (view self) = Some e -> has_external_lease h e = false ->
  exists self', drop_expired key h self = Ok (arc_drop (slot e) h, self') /\
    view self' = remove_key key (view self) /\ good (arc_drop (slot e) h) self' rest held /\
    cap self' = cap self /\ ttl self' = ttl self.
Proof.
  intros Hg Ha Hun. destruct (unleased_strong _ _ _ _ _ _ Hg Ha Hun) as (Hst & _).
  unfold drop_expired. pose proof (pop_spec h self rest held key e Hg Ha) as Hpop.
  destruct (clru_pop key (entries self)) as [popped es]. destruct Hpop as (-> & Hv & Hg' & Hcap).
  rewrite bool_decide_true by done. cbn. eexists. split_and!; [done|done| |done|done].
  apply good_drop; [by destruct Hg|done].
Qed.

Lemma insert_new_spec h self rest held key v expires :
  good h self rest held -> key ∉ (view self).*1 -> length (view self) < cap self ->
  exists self', insert_new key v expires h self = Ok ((arc_new v h).2, self') /\
    view self' = (key, MkCached (arc_new v h).1 expires) :: view self /\
    good (arc_new v h).2 self' rest held /\ ((arc_new v h).1 ∉ rest) /\
    cap self' = cap self /\ ttl self' = ttl self.
Proof.
  intros [Hok Hc Hsub Hu] Hk Hlen. unfold insert_new.
  assert (held ⊆ cached (view self) ⊎ rest) as Hsub' by multiset_solver.
  destruct (counts_new v h _ _ Hsub' Hc) as [Hnew Hc'].
  destruct (arc_new v h) as [s h'] eqn:Hn. cbn in Hnew, Hc' |- *. rewrite multiplicity_disj_union in Hnew.
  set (e := MkCached s expires).
  pose proof (clru_put_value (entries self) key e Hok) as Hv.
  pose proof (clru_put_ok (entries self) key e Hok) as Hok'.
  pose proof (clru_put_capacity (entries self) key e) as Hcap.
  pose proof (clru_put_iter (entries self) key e Hok (or_intror Hlen)) as Hi.
  destruct (clru_put key e (entries self)) as [previous es]. cbn in *.
  rewrite remove_key_id in Hi by done. apply assoc_None in Hk. unfold view in Hk. rewrite Hk in Hv.
  subst previous. rewrite bool_decide_true; cycle 1.
  { rewrite clru_len_iter, Hi, Hcap. cbn. unfold view, cap in Hlen. lia. }
  cbn. eexists. split; [done|]. unfold view at 1. cbn. split; [done|]. split; [|split].
  - split; cbn; [done| |done|].
    + unfold view. cbn. rewrite Hi, cached_cons. cbn. eapply counts_pool; [|exact Hc'].
      intros s'. rewrite !multiplicity_disj_union. unfold view. lia.
    + intros s'. unfold view. cbn. rewrite Hi, cached_cons, multiplicity_disj_union. cbn.
      specialize (Hu s'). unfold view in Hu, Hnew. destruct (decide (s' = s)) as [->|Hne].
      * rewrite multiplicity_singleton_eq. lia.
      * rewrite multiplicity_singleton_ne by done. lia.
  - rewrite elem_of_multiplicity. lia.
  - by unfold cap.
Qed.

Lemma insert_duplicate key v now h self rest held e :
  good h self rest held -> assoc key (view self) = Some e ->
  insert_evicting_at key v now h self = Err DuplicateKey.
Proof. intros Hg Ha. unfold insert_evicting_at. rewrite clru_peek_spec by apply Hg. unfold view in Ha. by rewrite Ha. Qed.

Lemma insert_room key v now h self rest held :
  good h self rest held -> key ∉ (view self).*1 -> length (view self) < cap self ->
  (now + ttl self <= instant_max)%Z ->
  exists self', insert_evicting_at key v now h self = Ok (Inserted, ((arc_new v h).2, self')) /\
    view self' = (key, MkCached (arc_new v h).1 (now + ttl self)) :: view self /\
    good (arc_new v h).2 self' rest held /\ ((arc_new v h).1 ∉ rest) /\
    cap self' = cap self /\ ttl self' = ttl self.
Proof.
  intros Hg Hk Hlen Hmax.
  destruct (insert_new_spec h self rest held key v (now + ttl self)%Z Hg Hk Hlen)
    as (self' & Hins & Hrest). exists self'. split; [|done].
  unfold insert_evicting_at, expiry_at, instant_checked_add.
  rewrite clru_peek_spec by apply Hg. apply assoc_None in Hk. unfold view in Hk. rewrite Hk.
  rewrite decide_True by done. cbn. rewrite clru_is_full_spec, bool_decide_false; cycle 1.
  { unfold view, cap in Hlen. lia. }
  cbn. by rewrite Hins.
Qed.

Lemma insert_overload key v now h self rest held :
  good h self rest held -> key ∉ (view self).*1 -> length (view self) = cap self ->
  (now + ttl self <= instant_max)%Z ->
  Forall (fun kv => has_external_lease h kv.2 = true) (view self) ->
  insert_evicting_at key v now h self = Err AllEntriesLeased.
Proof.
  intros Hg Hk Hlen Hmax Hall.
  unfold insert_evicting_at, expiry_at, instant_checked_add.
  rewrite clru_peek_spec by apply Hg. apply assoc_None in Hk. unfold view in Hk. rewrite Hk.
  rewrite decide_True by done. cbn. rewrite clru_is_full_spec, bool_decide_true by done. cbn.
  destruct (list_find _ _) as [[i [k e]]|] eqn:Hf; [|done].
  apply list_find_Some in Hf as (Hi & Hun & _). apply list_elem_of_lookup_2 in Hi.
  rewrite elem_of_reverse in Hi. eapply Forall_forall in Hall; [|exact Hi]. cbn in *. congruence.
Qed.

(** When full, the least recently used entry without a lease goes. *)
Lemma insert_evicts key v now h self rest held l1 k e l2 :
  good h self rest held -> key ∉ (view self).*1 -> length (view self) = cap self ->
  (now + ttl self <= instant_max)%Z ->
  view self = l1 ++ (k, e) :: l2 -> has_external_lease h e = false ->
  Forall (fun kv => has_external_lease h kv.2 = true) l2 ->
  exists self', insert_evicting_at key v now h self =
      Ok (if decide (expires_at e <= now)%Z then ReclaimedExpired else EvictedLeastRecentlyUsed,
          ((arc_new v (arc_drop (slot e) h)).2, self')) /\
    view self' = (key, MkCached (arc_new v (arc_drop (slot e) h)).1 (now + ttl self)) :: l1 ++ l2 /\
    good (arc_new v (arc_drop (slot e) h)).2 self' rest held /\
    ((arc_new v (arc_drop (slot e) h)).1 ∉ rest) /\
    cap self' = cap self /\ ttl self' = ttl self.
Proof.
  intros Hg Hk Hlen Hmax Hv Hun Hall.
  assert (list_find (fun kv => has_external_lease h kv.2 = false) (reverse (view self))
          = Some (length l2, (k, e))) as Hf.
  { rewrite Hv. by apply list_find_reverse; [|eapply Forall_impl; [done|cbn; intros ? ->]]. }
  pose proof (clru_ok_NoDup _ (g_ok _ _ _ _ Hg)) as Hnd. fold (view self) in Hnd.
  destruct (assoc_middle k e l1 l2 ltac:(by rewrite <- Hv)) as [Ha Hrm].
  rewrite <- Hv in Ha, Hrm.
  destruct (unleased_strong _ _ _ _ _ _ Hg Ha Hun) as (Hst & _).
  pose proof (pop_spec h self rest held k e Hg Ha) as Hpop.
  unfold insert_evicting_at, expiry_at, instant_checked_add.
  rewrite clru_peek_spec by apply Hg. pose proof Hk as Hk0. apply assoc_None in Hk0.
  unfold view in Hk0. rewrite Hk0. rewrite decide_True by done. cbn.
  rewrite clru_is_full_spec, bool_decide_true by done. cbn.
  fold (view self). rewrite Hf. cbn.
  destruct (clru_pop k (entries self)) as [popped es]. destruct Hpop as (-> & Hv' & Hg' & Hcap).
  cbn. rewrite bool_decide_true by done. cbn.
  apply good_drop in Hg'; [|by destruct Hg]. rewrite Hrm in Hv'.
  destruct (insert_new_spec (arc_drop (slot e) h) (MkCache es (ttl self)) rest held key v
    (now + ttl self)%Z Hg') as (self' & -> & Hview & Hrest).
  - rewrite Hv'. rewrite Hv in Hk. set_solver.
  - rewrite Hv', Hcap, <- Hlen, Hv, !length_app. cbn. lia.
  - cbn. rewrite Hv' in Hview. rewrite Hcap in Hrest. eexists. split; [done|]. by split.
Qed.
(** Outside overload, a new key gets a fresh slot at the front. *)
Lemma insert_fresh key v now h self rest held :
  good h self rest held -> key ∉ (view self).*1 -> (now + ttl self <= instant_max)%Z ->
  length (view self) < cap self \/ Exists (fun kv => has_external_lease h kv.2 = false) (view self) ->
  exists o h' self' s l', insert_evicting_at key v now h self = Ok (o, (h', self')) /\
    view self' = (key, MkCached s (now + ttl self)) :: l' /\ l' `sublist_of` view self /\
    h' !! s = Some (slot_new v) /\ good h' self' rest held /\ cap self' = cap self /\ ttl self' = ttl self.
Proof.
  intros Hg Hk Hmax Hroom.
  destruct (decide (length (view self) < cap self)) as [Hlt|Hfull].
  - destruct (insert_room key v now h self rest held Hg Hk Hlt Hmax)
      as (self' & Hins & Hv & Hg' & _ & Hcap & Httl).
    do 5 eexists. split_and!; [exact Hins|exact Hv|done| |done..].
    unfold arc_new. cbn. by rewrite lookup_insert_eq.
  - destruct Hroom as [|Hex]; [done|].
    pose proof (clru_ok_bound _ (g_ok _ _ _ _ Hg)) as Hb. fold (view self) (cap self) in Hb.
    apply (last_match_split (fun kv => has_external_lease h kv.2 = false)) in Hex
      as (l1 & [k e] & l2 & Hview & Hun & Hl2).
    assert (Forall (fun kv => has_external_lease h kv.2 = true) l2) as Hl2'.
    { eapply Forall_impl; [exact Hl2|]. intros kv. apply not_false_is_true. }
    assert (length (view self) = cap self) as Hlen by lia.
    destruct (insert_evicts key v now h self rest held l1 k e l2 Hg Hk Hlen Hmax Hview Hun Hl2')
      as (self' & Hins & Hv & Hg' & _ & Hcap & Httl).
    do 5 eexists. split_and!; [exact Hins|exact Hv| | |done..].
    + rewrite Hview. apply sublist_app; [done|by apply sublist_cons].
    + unfold arc_new. cbn. by rewrite lookup_insert_eq.
Qed.

(** Acquisition changes neither recency nor deadlines. *)
Lemma acquire_absent key now h self rest held :
  good h self rest held -> assoc key (view self) = None ->
  acquire_at key now h self = Ok (None, (h, self)).
Proof. intros Hg Ha. unfold acquire_at. rewrite clru_peek_spec by apply Hg. unfold view in Ha. by rewrite Ha. Qed.

Lemma acquire_expired key now h self rest held e :
  good h self rest held -> assoc key (view self) = Some e ->
  expired_and_unleased now h e = true ->
  exists self', acquire_at key now h self = Ok (None, (arc_drop (slot e) h, self')) /\
    view self' = remove_key key (view self) /\ good (arc_drop (slot e) h) self' rest held /\
    cap self' = cap self /\ ttl self' = ttl self.
Proof.
  intros Hg Ha Hexp. pose proof Hexp as [_ Hun%negb_true_iff]%andb_true_iff.
  destruct (drop_expired_spec h self rest held key e Hg Ha Hun) as (self' & Hd & Hrest).
  exists self'. split; [|done]. unfold acquire_at. rewrite clru_peek_spec by apply Hg.
  unfold view in Ha. rewrite Ha, Hexp, Hd. done.
Qed.

Lemma acquire_present key now h self rest held e :
  good h self rest held -> assoc key (view self) = Some e ->
  expired_and_unleased now h e = false ->
  (exists h', try_acquire (slot e) (arc_clone (slot e) h) = (true, h') /\
     acquire_at key now h self = Ok (Some (MkLease (slot e)), (h', self)) /\
     good h' self ({[+ slot e +]} ⊎ rest) ({[+ slot e +]} ⊎ held)) \/
  (exists h', try_acquire (slot e) (arc_clone (slot e) h) = (false, h') /\
     acquire_at key now h self = Ok (None, (arc_drop (slot e) h', self)) /\
     good (arc_drop (slot e) h') self rest held).
Proof.
  intros Hg Ha Hexp. pose proof (cached_elem _ _ _ (assoc_elem_of _ _ _ Ha)) as Hin.
  destruct Hg as [Hok Hc Hsub Hu].
  assert (slot e ∈ cached (view self) ⊎ rest) as Hin' by multiset_solver.
  pose proof (counts_acquire (slot e) h _ _ Hin' Hc) as Hacq.
  unfold acquire_at. rewrite clru_peek_spec by done. unfold view in Ha. rewrite Ha, Hexp.
  destruct (try_acquire _ _) as [[] h']; [left|right]; exists h'; (split_and!; [done|done|]).
  - split; [done| |by apply gmultiset_disj_union_mono_l|done].
    eapply counts_pool; [|exact Hacq]. intros s. mult_norm. lia.
  - by split.
Qed.

(** Short of [usize::MAX] leases, acquisition of a present entry succeeds. *)
Lemma acquire_live key now h self rest held e :
  good h self rest held -> assoc key (view self) = Some e ->
  expired_and_unleased now h e = false ->
  (Z.of_nat (multiplicity (slot e) held) < usize_max)%Z ->
  exists h', acquire_at key now h self = Ok (Some (MkLease (slot e)), (h', self)) /\
    good h' self ({[+ slot e +]} ⊎ rest) ({[+ slot e +]} ⊎ held) /\
    value <$> h' !! slot e = value <$> h !! slot e.
Proof.
  intros Hg Ha Hexp Hmax.
  pose proof (cached_elem _ _ _ (assoc_elem_of _ _ _ Ha)) as Hin.
  destruct (counts_cell h _ held (slot e) (g_counts _ _ _ _ Hg) ltac:(multiset_solver))
    as (c & Hs & _ & Hl & _).
  assert (try_acquire (slot e) (arc_clone (slot e) h)
    = (true, <[slot e := MkSlot (value c) (leases c + 1) (S (strong c))]> (arc_clone (slot e) h))) as Htry.
  { unfold try_acquire, arc_clone. rewrite lookup_alter_eq, Hs. cbn.
    unfold usize_checked_add. by rewrite decide_True by lia. }
  destruct (acquire_present key now h self rest held e Hg Ha Hexp) as [(h' & Ht & Hacq & Hg')|(h' & Ht & _)];
    rewrite Htry in Ht; simplify_eq.
  eexists. split_and!; [exact Hacq|done|]. by rewrite lookup_insert_eq, Hs.
Qed.

(** Dropping a lease undoes its acquisition. *)
Lemma lease_drop_spec s h self rest held :
  good h self ({[+ s +]} ⊎ rest) ({[+ s +]} ⊎ held) -> held ⊆ rest ->
  exists h', lease_drop (MkLease s) h = Ok h' /\ good (arc_drop s h') self rest held.
Proof.
  intros [Hok Hc Hsub Hu] Hsub'.
  assert (s ∈ ({[+ s +]} ⊎ held : gmultiset nat)) as Hin by multiset_solver.
  assert ({[+ s +]} ⊎ held ⊆ cached (view self) ⊎ ({[+ s +]} ⊎ rest)) as Hle by multiset_solver.
  destruct (counts_begin_drop s h _ _ Hin Hle Hc) as (h' & Hd & Hc').
  exists h'. split; [done|]. apply good_drop; [done|].
  replace (({[+ s +]} ⊎ held) ∖ {[+ s +]}) with held in Hc' by multiset_solver.
  split; [done|done|multiset_solver|done].
Qed.

Lemma touch_absent key now h self rest held :
  good h self rest held -> assoc key (view self) = None ->
  touch_at key now h self = Ok (false, (h, self)).
Proof. intros Hg Ha. unfold touch_at. rewrite clru_peek_spec by apply Hg. unfold view in Ha. by rewrite Ha. Qed.

Lemma touch_expired key now h self rest held e :
  good h self rest held -> assoc key (view self) = Some e ->
  expired_and_unleased now h e = true ->
  exists self', touch_at key now h self = Ok (false, (arc_drop (slot e) h, self')) /\
    view self' = remove_key key (view self) /\ good (arc_drop (slot e) h) self' rest held /\
    cap self' = cap self /\ ttl self' = ttl self.
Proof.
  intros Hg Ha Hexp. pose proof Hexp as [_ Hun%negb_true_iff]%andb_true_iff.
  destruct (drop_expired_spec h self rest held key e Hg Ha Hun) as (self' & Hd & Hrest).
  exists self'. split; [|done]. unfold touch_at. rewrite clru_peek_spec by apply Hg.
  unfold view in Ha. rewrite Ha, Hexp, Hd. done.
Qed.

Lemma touch_present key now h self rest held e :
  good h self rest held -> assoc key (view self) = Some e ->
  expired_and_unleased now h e = false -> (now + ttl self <= instant_max)%Z ->
  exists self', touch_at key now h self = Ok (true, (h, self')) /\
    view self' = (key, MkCached (slot e) (now + ttl self)) :: remove_key key (view self) /\
    good h self' rest held /\ cap self' = cap self /\ ttl self' = ttl self.
Proof.
  intros [Hok Hc Hsub Hu] Ha Hexp Hmax. pose proof (cached_remove _ _ _ Ha) as Hrem.
  unfold touch_at, expiry_at, instant_checked_add. rewrite clru_peek_spec by done.
  unfold view in Ha. rewrite Ha, Hexp, decide_True by done. cbn.
  destruct (clru_get_mut key (entries self)) as [[e' w]|] eqn:Hgm; cycle 1.
  { apply clru_get_mut_None in Hgm; [congruence|done]. }
  pose proof (clru_get_mut_value _ _ _ _ Hok Hgm) as Hv. rewrite Ha in Hv. injection Hv as <-.
  set (e1 := MkCached (slot e) (now + ttl self)).
  destruct (clru_get_mut_iter _ _ _ _ e1 Hok Hgm) as (Hok' & Hcap & Hi).
  eexists. split; [done|]. unfold view, cap in *. cbn. split_and!; [done| |done|done].
  split; unfold view; cbn; [done| |done|intros s]; fold e1; rewrite Hi, cached_cons; cbn; rewrite <- Hrem; done.
Qed.

(** The scan finds every expired entry without a lease. *)
Lemma expired_unleased_scan_spec now h l :
  StronglySorted (fun a b => expires_at a.2 <= expires_at b.2)%Z l ->
  expired_unleased_scan now h l =
    (filter (fun kv => expired_and_unleased now h kv.2 = true) l).*1.
Proof.
  induction 1 as [|[k e] l Hs IH Hall]; [done|]. cbn [expired_unleased_scan].
  rewrite filter_cons. cbn [snd].
  assert (expired_and_unleased now h e
          = negb (bool_decide (now < expires_at e)%Z) && negb (has_external_lease h e)) as Heq.
  { unfold expired_and_unleased. repeat case_bool_decide; (done || lia). }
  case_bool_decide as Hlive; cbn [negb andb] in Heq.
  - rewrite decide_False by congruence. rewrite filter_none; [done|].
    eapply Forall_impl; [exact Hall|]. intros [k' e'] Hle Hexp.
    apply andb_true_iff in Hexp as [Hexp%bool_decide_eq_true _]. cbn in *. lia.
  - rewrite IH. destruct (has_external_lease h e); cbn [negb] in Heq.
    + by rewrite decide_False by congruence.
    + by rewrite decide_True by congruence.
Qed.

(** The retirement of a batch: exactly the entries named by the batch that
    are still expired and without a lease. *)
Definition retires now h (keys : list K) (kv : K * CachedValue) : Prop :=
  kv.1 ∈ keys /\ expired_and_unleased now h kv.2 = true.
#[local] Instance retires_dec now h keys kv : Decision (retires now h keys kv) := _.

Lemma retire_loop_spec keys now h self rest held acc :
  good h self rest held ->
  exists self' acc',
    retire_expired_candidates_loop keys now h self acc = Ok (acc ++ acc', self') /\
    view self' = filter (fun kv => ~ retires now h keys kv) (view self) /\
    cached (view self) = list_to_set_disj acc' ⊎ cached (view self') /\
    length (view self) = length acc' + length (view self') /\
    Forall (fun s => strong_count s h = 1 /\ (s ∉ rest)) acc' /\
    good h self' (list_to_set_disj acc' ⊎ rest) held /\
    cap self' = cap self /\ ttl self' = ttl self.
Proof.
  revert self rest acc. induction keys as [|key keys IH]; intros self rest acc Hg.
  { exists self, []. cbn. rewrite app_nil_r, !(left_id_L ∅ _), filter_all; [by split_and!|].
    apply Forall_forall. intros kv _ [Hin _]. by apply not_elem_of_nil in Hin. }
  cbn [retire_expired_candidates_loop]. rewrite clru_peek_spec by apply Hg. fold (view self).
  pose proof (clru_ok_NoDup _ (g_ok _ _ _ _ Hg)) as Hnd. fold (view self) in Hnd.
  destruct (assoc key (view self)) as [e|] eqn:Ha; [destruct (expired_and_unleased now h e) eqn:Hexp|].
  - pose proof Hexp as [_ Hun%negb_true_iff]%andb_true_iff.
    destruct (unleased_strong _ _ _ _ _ _ Hg Ha Hun) as (Hst & Hnr & _).
    pose proof (cached_remove _ _ _ Ha) as Hrem.
    pose proof (remove_key_length_Some _ _ _ Ha) as Hlen.
    pose proof (pop_spec h self rest held key e Hg Ha) as Hpop.
    destruct (clru_pop key (entries self)) as [popped es]. destruct Hpop as (-> & Hv & Hg' & Hcap).
    cbn. rewrite bool_decide_true by done. cbn.
    destruct (IH _ _ (acc ++ [slot e]) Hg') as (self' & acc' & -> & Hv' & Hc' & Hl' & Hst' & Hg2 & Hcap' & Httl').
    exists self', (slot e :: acc'). rewrite <- app_assoc. cbn [app length].
    rewrite Hv in Hv', Hc', Hl'. rewrite list_to_set_disj_cons. split_and!.
    + done.
    + rewrite Hv', remove_key_filter, list_filter_filter by done.
      apply filter_ext_elem. intros [k' e'] Hin. unfold retires. cbn.
      assert (k' = key -> e' = e) as Hk'.
      { intros ->. apply elem_of_assoc in Hin; [|done]. congruence. }
      set_solver.
    + rewrite Hrem, Hc'. by rewrite (assoc_L _).
    + lia.
    + constructor; [done|]. eapply Forall_impl; [exact Hst'|]. cbn. intros s [? ?]. multiset_solver.
    + destruct Hg2 as [Hok2 Hc2 Hsub2 Hu2]. split; [done| |multiset_solver|done].
      eapply counts_pool; [|exact Hc2]. intros s. mult_norm. lia.
    + congruence.
    + done.
  - destruct (IH self rest acc Hg) as (self' & acc' & -> & Hv' & Hrest).
    exists self', acc'. split_and!; try apply Hrest; [done|]. rewrite Hv'.
    apply filter_ext_elem. intros [k' e'] Hin. unfold retires. cbn.
    assert (k' = key -> e' = e) as Hk'.
    { intros ->. apply elem_of_assoc in Hin; [|done]. congruence. }
    rewrite elem_of_cons. naive_solver congruence.
  - destruct (IH self rest acc Hg) as (self' & acc' & -> & Hv' & Hrest).
    exists self', acc'. split_and!; try apply Hrest; [done|]. rewrite Hv'.
    apply filter_ext_elem. intros [k' e'] Hin. unfold retires. cbn.
    apply assoc_None in Ha. apply (list_elem_of_fmap_2 fst) in Hin. cbn in Hin.
    rewrite elem_of_cons. naive_solver congruence.
Qed.
End operations.

(** ** The invariant of the system and the frame of each step *)
Section invariant.
Context {C K V : Type} `{EqDecision K} {clru : Clru C K CachedValue}.
Context {clru_ok : C -> Prop} {laws : ClruLaws C K CachedValue clru_ok}.
Context (capacity : nat) (lifetime : Z) (Hcapacity : 0 < capacity).
Implicit Types (key : K) (v : V) (now : Z) (h : heap V) (self : LeaseAwareTtlCache C).
Implicit Types (w : world C V) (a : action K V) (l : list (K * CachedValue)).

Definition outside w : gmultiset nat := live w ⊎ dropping w ⊎ detached w.

(** Entries nearer the front never expire before entries behind them. *)
Definition expiry_order (a b : K * CachedValue) : Prop :=
  (expires_at b.2 <= expires_at a.2)%Z.

Record wf w : Prop := {
  wf_good : good (clru_ok := clru_ok) (mem w) (cache w) (outside w) (live w);
  wf_cap : cap (cache w) = capacity;
  wf_ttl : ttl (cache w) = lifetime;
  wf_sorted : StronglySorted expiry_order (view (cache w));
  wf_bound : Forall (fun kv => expires_at kv.2 <= clock w + lifetime)%Z (view (cache w));
  wf_detached : forall s, s ∈ detached w ->
    (s ∉ cached (view (cache w))) /\ multiplicity s (outside w) = 1;
}.

(** What an operation may do to the recency list: remove entries, and put one
    entry with a fresh deadline in front. *)
Definition refreshed now l l' : Prop :=
  l' `sublist_of` l \/
  exists k s l0, l' = (k, MkCached s (now + lifetime)) :: l0 /\ l0 `sublist_of` l.

Lemma wf_update w now h' self' live' dropping' detached' :
  wf w -> (clock w <= now)%Z ->
  good (clru_ok := clru_ok) h' self' (live' ⊎ dropping' ⊎ detached') live' ->
  cap self' = cap (cache w) -> ttl self' = ttl (cache w) ->
  refreshed now (view (cache w)) (view self') ->
  (forall s, s ∈ detached' ->
     (s ∉ cached (view self')) /\ multiplicity s (live' ⊎ dropping' ⊎ detached') = 1) ->
  wf (MkWorld h' self' now live' dropping' detached').
Proof.
  intros [Hg Hcap Httl Hs Hb Hd] Hnow Hg' Hcap' Httl' Hr Hd'.
  assert (forall l0, l0 `sublist_of` view (cache w) ->
    StronglySorted expiry_order l0 /\
    Forall (fun kv => expires_at kv.2 <= now + lifetime)%Z l0) as Hsub.
  { intros l0 Hl0. split; [by eapply StronglySorted_sublist|].
    eapply Forall_impl; [by eapply Forall_sublist|]. cbn. intros; lia. }
  split; cbn; try done; try congruence;
    destruct Hr as [Hl0|(k & s & l0 & -> & Hl0)]; try apply Hsub in Hl0 as [? Hle]; try done.
  - constructor; [done|]. eapply Forall_impl; [exact Hle|]. unfold expiry_order. cbn. lia.
  - constructor; [cbn; lia|done].
Qed.

Lemma wf_init start : wf (init capacity lifetime start).
Proof.
  assert (view (new capacity lifetime : LeaseAwareTtlCache C) = []) as Hv by apply clru_new_iter.
  split; unfold outside, init; cbn [mem cache live dropping detached clock ttl new]; rewrite ?Hv; try done.
  - split; cbn [entries new]; rewrite ?Hv; try done.
    + by apply clru_new_ok.
    + intros s. cbn. rewrite multiplicity_empty. lia.
  - apply clru_new_capacity.
  - constructor.
  - intros s Hs. exfalso. multiset_solver.
Qed.

(** How many leases on [s] the action gives up. *)
Definition drops (s : nat) a : nat :=
  match a with BeginDrop s' => if decide (s' = s) then 1 else 0 | _ => 0 end.

(** Slots leased by a request stay cached under their key with their value,
    and only the drop of a lease takes one away. *)
Record effect a w w' : Prop := {
  ef_pinned k e : assoc k (view (cache w)) = Some e -> slot e ∈ live w ->
    exists e', assoc k (view (cache w')) = Some e' /\ slot e' = slot e;
  ef_value s : s ∈ live w -> value <$> mem w' !! s = value <$> mem w !! s;
  ef_live s : multiplicity s (live w) <=
    multiplicity s (live w') + drops s a;
}.

Lemma live_cell w s : wf w -> s ∈ outside w -> is_Some (mem w !! s).
Proof.
  intros [[_ Hc _ _] _ _ _ _ _] Hin.
  destruct (counts_cell (mem w) _ (live w) s Hc ltac:(multiset_solver)) as (c & Hs & _). by exists c.
Qed.

Lemma value_same w w' s :
  wf w -> wf w' -> s ∈ live w -> s ∈ outside w' -> same_values (mem w) (mem w') ->
  value <$> mem w' !! s = value <$> mem w !! s.
Proof.
  intros Hw Hw' Hl Ho Hsame.
  destruct (live_cell w s Hw ltac:(unfold outside; multiset_solver)) as [c Hc].
  destruct (live_cell w' s Hw' Ho) as [c' Hc'].
  rewrite Hc, Hc'. cbn. f_equal. by eapply Hsame.
Qed.

(** What a removal or a promotion of [key] keeps of the other keys. *)
Lemma pinned_remove w key e l' k e' :
  wf w -> assoc key (view (cache w)) = Some e -> has_external_lease (mem w) e = false ->
  l' = remove_key key (view (cache w)) ->
  assoc k (view (cache w)) = Some e' -> slot e' ∈ live w -> assoc k l' = Some e'.
Proof.
  intros Hw Ha Hun -> Hk Hl. rewrite assoc_remove_key_ne; [done|]. intros ->.
  rewrite Ha in Hk. injection Hk as ->.
  rewrite (external_lease _ _ _ _ _ _ (wf_good _ Hw) (assoc_elem_of _ _ _ Ha)) in Hun.
  apply bool_decide_eq_false in Hun. unfold outside in Hun. multiset_solver.
Qed.

Lemma refreshed_same now l : refreshed now l l.
Proof. by left. Qed.
Lemma refreshed_remove now key l : refreshed now l (remove_key key l).
Proof. left. apply remove_key_sublist. Qed.

(** The step taken when an expired entry is dropped, by [Acquire] or [Touch]. *)
Lemma step_drop_expired w now key e self' a :
  wf w -> (clock w <= now)%Z -> (forall s, drops s a = 0) ->
  assoc key (view (cache w)) = Some e -> has_external_lease (mem w) e = false ->
  view self' = remove_key key (view (cache w)) ->
  good (clru_ok := clru_ok) (arc_drop (slot e) (mem w)) self' (outside w) (live w) ->
  cap self' = cap (cache w) -> ttl self' = ttl (cache w) ->
  let w' := MkWorld (arc_drop (slot e) (mem w)) self' now (live w) (dropping w) (detached w) in
  wf w' /\ effect a w w'.
Proof.
  intros Hw Hnow Hno Ha Hun Hv Hg Hcap Httl w'.
  assert (wf w') as Hw'.
  { eapply wf_update; try done; [rewrite Hv; apply refreshed_remove|].
    intros s Hs. destruct (wf_detached w Hw s Hs) as [Hni Hone]. split; [|done].
    rewrite Hv. rewrite (cached_remove _ _ _ Ha) in Hni. multiset_solver. }
  split; [done|]. split.
  - intros k e' Hk Hl. exists e'. split; [|done]. cbn.
    by apply (pinned_remove w key e).
  - intros s Hs. apply value_same; try done; [unfold outside; cbn; multiset_solver|].
    apply same_values_drop.
  - intros s. cbn. lia.
Qed.

(** A call that leaves heap, cache and handles alone. *)
Lemma step_nothing w now a :
  wf w -> (clock w <= now)%Z ->
  let w' := MkWorld (mem w) (cache w) now (live w) (dropping w) (detached w) in
  wf w' /\ effect a w w'.
Proof.
  intros Hw Hnow w'. split.
  - eapply wf_update; try done; [apply Hw|by left|apply Hw].
  - split; cbn; [by eauto|done|lia].
Qed.

Lemma step_insert_room w now key v self' :
  wf w -> (clock w <= now)%Z -> key ∉ (view (cache w)).*1 ->
  view self' = (key, MkCached (arc_new v (mem w)).1 (now + lifetime)) :: view (cache w) ->
  good (clru_ok := clru_ok) (arc_new v (mem w)).2 self' (outside w) (live w) ->
  (arc_new v (mem w)).1 ∉ outside w -> cap self' = cap (cache w) -> ttl self' = ttl (cache w) ->
  let w' := MkWorld (arc_new v (mem w)).2 self' now (live w) (dropping w) (detached w) in
  wf w' /\ effect (Insert key v) w w'.
Proof.
  intros Hw Hnow Ha Hv Hg' Hnew Hcap' Httl' w'.
  assert (wf w') as Hw'.
  { eapply wf_update; try done; [right; eauto|]. intros s Hs.
    destruct (wf_detached w Hw s Hs) as [Hni Hone]. split; [|done].
    rewrite Hv, cached_cons. cbn. unfold outside in Hnew. multiset_solver. }
  split; [done|]. split; cbn.
  - intros k e Hk Hl. exists e. split; [|done]. rewrite Hv. cbn. rewrite decide_False; [done|].
    intros ->. apply assoc_None in Ha. congruence.
  - intros s Hs. f_equal. apply lookup_arc_new_ne. unfold outside in *. multiset_solver.
  - lia.
Qed.

Lemma step_insert_evict w now key v k e self' :
  wf w -> (clock w <= now)%Z -> key ∉ (view (cache w)).*1 ->
  assoc k (view (cache w)) = Some e -> has_external_lease (mem w) e = false ->
  view self' = (key, MkCached (arc_new v (arc_drop (slot e) (mem w))).1 (now + lifetime))
               :: remove_key k (view (cache w)) ->
  good (clru_ok := clru_ok) (arc_new v (arc_drop (slot e) (mem w))).2 self' (outside w) (live w) ->
  (arc_new v (arc_drop (slot e) (mem w))).1 ∉ outside w ->
  cap self' = cap (cache w) -> ttl self' = ttl (cache w) ->
  let w' := MkWorld (arc_new v (arc_drop (slot e) (mem w))).2 self' now
              (live w) (dropping w) (detached w) in
  wf w' /\ effect (Insert key v) w w'.
Proof.
  intros Hw Hnow Ha Hke Hun Hv Hg' Hnew Hcap' Httl' w'.
  destruct (unleased_strong _ _ _ _ _ _ (wf_good _ Hw) Hke Hun) as (_ & Hout & _).
  assert (wf w') as Hw'.
  { eapply wf_update; try done; [right; do 3 eexists; split; [done|apply remove_key_sublist]|].
    intros s Hs. destruct (wf_detached w Hw s Hs) as [Hni Hone]. split; [|done].
    rewrite (cached_remove _ _ _ Hke) in Hni.
    rewrite Hv, cached_cons. cbn. unfold outside in Hnew. multiset_solver. }
  split; [done|]. split; cbn.
  - intros k' e' Hk Hl. exists e'. split; [|done]. rewrite Hv. cbn. rewrite decide_False.
    + by apply (pinned_remove w k e).
    + intros ->. apply assoc_None in Ha. congruence.
  - intros s Hs. f_equal. rewrite lookup_arc_new_ne, lookup_arc_drop_ne; [done|..];
      unfold outside in *; multiset_solver.
  - lia.
Qed.

Lemma step_insert w now key v :
  wf w -> timely now w ->
  exists w', call now (Insert key v) w = Ok w' /\ wf w' /\ effect (Insert key v) w w'.
Proof.
  intros Hw [Hnow Hmax]. unfold call. cbn [mem cache live dropping detached].
  pose proof (wf_good _ Hw) as Hg. pose proof (wf_ttl _ Hw) as Httl.
  destruct (assoc key (view (cache w))) as [e|] eqn:Ha.
  { rewrite (insert_duplicate key v now _ _ _ _ _ Hg Ha). eexists. split; [done|]. by apply step_nothing. }
  apply assoc_None in Ha.
  pose proof (clru_ok_bound _ (g_ok _ _ _ _ Hg)) as Hbound.
  fold (view (cache w)) (cap (cache w)) in Hbound.
  destruct (decide (length (view (cache w)) < cap (cache w))) as [Hlt|Hfull].
  { destruct (insert_room key v now _ _ _ _ Hg Ha Hlt Hmax) as (self' & -> & Hv & ?).
    eexists. split; [done|]. rewrite Httl in Hv. apply step_insert_room; naive_solver. }
  assert (length (view (cache w)) = cap (cache w)) as Hlen by lia.
  destruct (decide (Exists (fun kv => has_external_lease (mem w) kv.2 = false) (view (cache w)))) as [Hex|Hall].
  - apply (last_match_split (fun kv => has_external_lease (mem w) kv.2 = false)) in Hex
      as (l1 & [k e] & l2 & Hview & Hun & Hl2).
    assert (Forall (fun kv => has_external_lease (mem w) kv.2 = true) l2) as Hl2'.
    { eapply Forall_impl; [exact Hl2|]. intros kv. apply not_false_is_true. }
    destruct (insert_evicts key v now _ _ _ _ _ _ _ _ Hg Ha Hlen Hmax Hview Hun Hl2')
      as (self' & -> & Hv & ?).
    pose proof (clru_ok_NoDup _ (g_ok _ _ _ _ Hg)) as Hnd. fold (view (cache w)) in Hnd.
    destruct (assoc_middle k e l1 l2 ltac:(by rewrite <- Hview)) as [Hke Hrm].
    rewrite <- Hview in Hke, Hrm.
    eexists. split; [done|]. rewrite Httl, <- Hrm in Hv. apply (step_insert_evict w now key v k e); naive_solver.
  - apply not_Exists_Forall in Hall; [|apply _].
    rewrite (insert_overload key v now _ _ _ _ Hg Ha Hlen Hmax); cycle 1.
    { eapply Forall_impl; [exact Hall|]. intros kv. apply not_false_is_true. }
    eexists. split; [done|]. by apply step_nothing.
Qed.

Lemma step_acquire w now key :
  wf w -> timely now w ->
  exists w', call now (Acquire key) w = Ok w' /\ wf w' /\ effect (Acquire key) w w'.
Proof.
  intros Hw [Hnow Hmax]. unfold call. cbn [mem cache live dropping detached].
  pose proof (wf_good _ Hw) as Hg.
  destruct (assoc key (view (cache w))) as [e|] eqn:Ha; cycle 1.
  { rewrite (acquire_absent key now _ _ _ _ Hg Ha). eexists. split; [done|]. by apply step_nothing. }
  destruct (expired_and_unleased now (mem w) e) eqn:Hexp.
  { pose proof Hexp as [_ Hun%negb_true_iff]%andb_true_iff.
    destruct (acquire_expired key now _ _ _ _ _ Hg Ha Hexp) as (self' & -> & Hv & Hg' & Hcap' & Httl').
    eexists. split; [done|]. by apply (step_drop_expired w now key e self'). }
  pose proof (same_values_acquire (slot e) (mem w)) as Hsame.
  destruct (acquire_present key now _ _ _ _ _ Hg Ha Hexp) as [(h' & Htry & -> & Hg')|(h' & Htry & -> & Hg')];
    rewrite Htry in Hsame; cbn [snd] in Hsame; eexists; (split; [done|]); cbn [lease_slot].
  - set (w' := MkWorld _ _ _ _ _ _).
    assert (wf w') as Hw'.
    { eapply wf_update; try done; [|by left|].
      - destruct Hg' as [? Hc' ? ?]. split; [done| |unfold outside in *; multiset_solver|done].
        eapply counts_pool; [|exact Hc']. intros s. unfold outside. mult_norm. lia.
      - intros s Hs. destruct (wf_detached w Hw s Hs) as [Hni Hone]. split; [done|].
        pose proof (cached_elem _ _ _ (assoc_elem_of _ _ _ Ha)) as Hin.
        unfold outside in Hone. mult_norm. rewrite multiplicity_singleton_ne; [lia|].
        intros ->. lia. }
    split; [done|]. split; cbn; [by eauto| |].
    + intros s Hs. by apply (value_same w w'); [..|unfold outside; cbn; multiset_solver|].
    + intros s. mult_norm. lia.
  - set (w' := MkWorld _ _ _ _ _ _).
    assert (wf w') as Hw' by (eapply wf_update; try done; [by left|apply Hw]).
    split; [done|]. split; cbn; [by eauto| |lia].
    intros s Hs. apply (value_same w w'); try done; [unfold outside; cbn; multiset_solver|].
    pose proof (same_values_failed_acquire (slot e) (mem w)) as Hfail. by rewrite Htry in Hfail.
Qed.

Lemma step_touch w now key :
  wf w -> timely now w ->
  exists w', call now (Touch key) w = Ok w' /\ wf w' /\ effect (Touch key) w w'.
Proof.
  intros Hw [Hnow Hmax]. unfold call. cbn [mem cache live dropping detached].
  pose proof (wf_good _ Hw) as Hg. pose proof (wf_ttl _ Hw) as Httl.
  destruct (assoc key (view (cache w))) as [e|] eqn:Ha; cycle 1.
  { rewrite (touch_absent key now _ _ _ _ Hg Ha). eexists. split; [done|]. by apply step_nothing. }
  destruct (expired_and_unleased now (mem w) e) eqn:Hexp.
  { pose proof Hexp as [_ Hun%negb_true_iff]%andb_true_iff.
    destruct (touch_expired key now _ _ _ _ _ Hg Ha Hexp) as (self' & -> & Hv & Hg' & Hcap' & Httl').
    eexists. split; [done|]. by apply (step_drop_expired w now key e self'). }
  destruct (touch_present key now _ _ _ _ _ Hg Ha Hexp Hmax) as (self' & -> & Hv & Hg' & Hcap' & Httl').
  rewrite Httl in Hv. eexists. split; [done|]. split.
  - eapply wf_update; try done; [right; do 3 eexists; split; [done|apply remove_key_sublist]|].
    intros s Hs. destruct (wf_detached w Hw s Hs) as [Hni Hone]. split; [|done].
    rewrite Hv, cached_cons. cbn [snd slot]. by rewrite <- (cached_remove _ _ _ Ha).
  - split; cbn; [|done|lia]. intros k e' Hk Hl. rewrite Hv. cbn. case_decide as Heq.
    + subst k. eexists. split; [done|]. cbn. congruence.
    + exists e'. by rewrite assoc_remove_key_ne.
Qed.

Lemma step_begin_drop w now s :
  wf w -> timely now w -> s ∈ live w ->
  exists w', call now (BeginDrop s) w = Ok w' /\ wf w' /\ effect (BeginDrop s) w w'.
Proof.
  intros Hw [Hnow Hmax] Hin. unfold call. cbn [mem cache live dropping detached].
  pose proof (wf_good _ Hw) as [Hok Hc Hsub Hu].
  assert (live w ⊆ cached (view (cache w)) ⊎ outside w) as Hsub' by multiset_solver.
  destruct (counts_begin_drop s (mem w) _ _ Hin Hsub' Hc) as (h' & Hd & Hc').
  rewrite Hd. cbn. eexists. split; [done|].
  assert (forall s', multiplicity s' (live w ∖ {[+ s +]} ⊎ ({[+ s +]} ⊎ dropping w) ⊎ detached w)
    = multiplicity s' (outside w)) as Hout.
  { intros s'. unfold outside. mult_at s' s. }
  set (w' := MkWorld _ _ _ _ _ _).
  assert (wf w') as Hw'.
  { eapply wf_update; try done; [|by left|].
    - split; [done| |unfold outside in *; multiset_solver|done].
      eapply counts_pool; [|exact Hc']. intros s'. rewrite !(multiplicity_disj_union (cached _)).
      by rewrite Hout.
    - intros s' Hs'. rewrite Hout. by apply (wf_detached w Hw s'). }
  split; [done|]. split; cbn; [by eauto| |].
  - intros s' Hs'. apply (value_same w w'); try done; [|by apply same_values_begin_drop in Hd].
    apply elem_of_multiplicity. unfold outside at 1. cbn [live dropping detached w'].
    rewrite (Hout s'). unfold outside. mult.
  - intros s'. case_decide as Heq; [subst; mult|]. mult_norm.
    rewrite multiplicity_singleton_ne by done. lia.
Qed.

(** The release of the [Arc] of a dropped lease or of a retired slot. *)
Lemma step_release w now s dropping' detached' a :
  wf w -> (clock w <= now)%Z -> (forall s, drops s a = 0) ->
  outside w = {[+ s +]} ⊎ (live w ⊎ dropping' ⊎ detached') ->
  detached' ⊆ detached w ->
  let w' := MkWorld (arc_drop s (mem w)) (cache w) now (live w) dropping' detached' in
  wf w' /\ effect a w w'.
Proof.
  intros Hw Hnow Hno Hout Hdet w'.
  assert (wf w') as Hw'.
  { eapply wf_update; try done; [|by left|].
    - apply good_drop; [multiset_solver|]. rewrite <- Hout. apply Hw.
    - intros s' Hs'. assert (s' ∈ detached w) as Hd by multiset_solver.
      destruct (wf_detached w Hw s' Hd) as [Hni Hm]. split; [done|].
      rewrite Hout in Hm. mult_at s' s. }
  split; [done|]. split; cbn; [by eauto| |lia].
  intros s' Hs'. apply (value_same w w'); try done; [|apply same_values_drop].
  unfold outside. cbn. multiset_solver.
Qed.

Lemma step_retire w now keys :
  wf w -> timely now w ->
  exists w', call now (RetireCandidates keys) w = Ok w' /\ wf w' /\
    effect (RetireCandidates keys) w w'.
Proof.
  intros Hw [Hnow Hmax]. unfold call, retire_expired_candidates_at. cbn [mem cache live dropping detached].
  pose proof (wf_good _ Hw) as Hg.
  destruct (retire_loop_spec keys now _ _ _ _ [] Hg)
    as (self' & acc & Hrun & Hv & Hc & _ & Hst & Hg' & Hcap & Httl).
  rewrite Hrun. cbn. eexists. split; [done|]. set (w' := MkWorld _ _ _ _ _ _).
  assert (wf w') as Hw'.
  { eapply wf_update; try done; [| |].
    - destruct Hg' as [? Hc' ? ?]. split; [done| |unfold outside in *; multiset_solver|done].
      eapply counts_pool; [|exact Hc']. intros s. unfold outside. mult_norm. lia.
    - left. rewrite Hv. apply sublist_filter.
    - intros s Hs. pose proof (g_unique _ _ _ _ Hg s) as Hu.
      rewrite Forall_forall in Hst. rewrite Hc in Hu.
      destruct (decide (s ∈ acc)) as [Hin|Hni].
      + destruct (Hst s Hin) as [_ Hno]. unfold outside in Hno.
        apply elem_of_list_to_set_disj in Hin. mult_norm. lia.
      + rewrite <- elem_of_list_to_set_disj in Hni.
        destruct (wf_detached w Hw s ltac:(multiset_solver)) as [Hn1 Hm].
        rewrite Hc in Hn1. unfold outside in Hm. mult_norm. lia. }
  split; [done|]. split; cbn; [|done|lia].
  intros k e Hk Hl. exists e. split; [|done]. rewrite Hv.
  pose proof (clru_ok_NoDup _ (g_ok _ _ _ _ Hg)) as Hnd. fold (view (cache w)) in Hnd.
  apply elem_of_assoc.
  - eapply sublist_NoDup; [exact Hnd|]. apply sublist_fmap, sublist_filter.
  - pose proof (assoc_elem_of _ _ _ Hk) as Hin. apply list_elem_of_filter. split; [|done].
    intros [_ [_ Hun%negb_true_iff]%andb_true_iff]. cbn in Hun.
    rewrite (external_lease _ _ _ _ _ _ Hg Hin) in Hun.
    apply bool_decide_eq_false in Hun. unfold outside in Hun. multiset_solver.
Qed.

(** Every call the owners can make at the current time returns, keeps the
    invariant and has the frame above. *)
Lemma step_ok w now a :
  wf w -> timely now w -> owned a w ->
  exists w', call now a w = Ok w' /\ wf w' /\ effect a w w'.
Proof.
  intros Hw Ht Hown. pose proof Ht as [Hnow _].
  destruct a as [key v|key|key|s|s|keys|s]; cbn [owned] in Hown.
  - by apply step_insert.
  - by apply step_acquire.
  - by apply step_touch.
  - by apply step_begin_drop.
  - eexists. split; [done|].
    apply (step_release w now s (dropping w ∖ {[+ s +]}) (detached w));
      [done..| |]; unfold outside; multiset_solver.
  - by apply step_retire.
  - eexists. split; [done|].
    apply (step_release w now s (dropping w) (detached w ∖ {[+ s +]}));
      [done..| |]; unfold outside; multiset_solver.
Qed.

Lemma steps_wf tr w w' : steps tr w w' -> wf w -> wf w'.
Proof.
  induction 1 as [|now a tr w w1 w2 Ht Hown Hcall _ IH]; [done|]. intros Hw.
  destruct (step_ok w now a Hw Ht Hown) as (w1' & Hc & Hw1 & _).
  rewrite Hcall in Hc. injection Hc as <-. auto.
Qed.

Definition total_drops (s : nat) (tr : list (action K V)) : nat :=
  foldr (fun a n => drops s a + n) 0 tr.

Lemma steps_pinned tr w w' key e :
  steps tr w w' -> wf w -> assoc key (view (cache w)) = Some e ->
  total_drops (slot e) tr < multiplicity (slot e) (live w) ->
  exists e', assoc key (view (cache w')) = Some e' /\ slot e' = slot e /\
    slot e ∈ live w' /\ value <$> mem w' !! slot e = value <$> mem w !! slot e.
Proof.
  intros Hs. revert e. induction Hs as [|now a tr w w1 w2 Ht Hown Hcall _ IH]; intros e Hw Hk Hd.
  { exists e. split_and!; [done..| |done]. apply elem_of_multiplicity. cbn in Hd. lia. }
  destruct (step_ok w now a Hw Ht Hown) as (w1' & Hc & Hw1 & [Hpin Hval Hlive]).
  rewrite Hcall in Hc. injection Hc as <-. cbn in Hd.
  assert (slot e ∈ live w) as Hin by (apply elem_of_multiplicity; lia).
  destruct (Hpin key e Hk Hin) as (e1 & Hk1 & Hs1).
  specialize (Hlive (slot e)).
  destruct (IH e1 Hw1 Hk1) as (e2 & ? & ? & ? & ?); [rewrite Hs1; unfold total_drops in *; lia|].
  exists e2. rewrite Hs1 in *. split_and!; try done. rewrite <- Hval by done. done.
Qed.
End invariant.

(** ** Properties *)
Section properties.
Context {C K V : Type} `{EqDecision K} {clru : Clru C K CachedValue}.
Context {clru_ok : C -> Prop} {laws : ClruLaws C K CachedValue clru_ok}.
Implicit Types (key : K) (v : V) (now : Z) (h : heap V).
Implicit Types (w : world C V) (a : action K V) (tr : list (action K V)).

Lemma reachable_wf capacity lifetime start tr w :
  0 < capacity -> steps tr (init capacity lifetime start) w ->
  wf (clru_ok := clru_ok) capacity lifetime w.
Proof. intros Hcap Hs. eapply steps_wf; [done|exact Hs|]. by apply wf_init. Qed.

(** C19. As long as a request holds a lease, the session it was acquired for
    stays in the cache under its key, in the same slot and with the same
    value, whatever insertions, touches, cleanups and drops of other leases
    happen. *)
Theorem lease_pins_entry capacity lifetime start before key now w l h c after w' :
  0 < capacity -> steps before (init capacity lifetime start) w -> timely now w ->
  acquire_at key now (mem w) (cache w) = Ok (Some l, (h, c)) ->
  steps after (MkWorld h c now ({[+ lease_slot l +]} ⊎ live w) (dropping w) (detached w)) w' ->
  total_drops (lease_slot l) after <= multiplicity (lease_slot l) (live w) ->
  exists e, assoc key (view (cache w')) = Some e /\ slot e = lease_slot l /\
    is_Some (lease_value l (mem w')) /\ lease_value l (mem w') = lease_value l h.
Proof.
  intros Hcap Hs Ht Hacq Hs' Hd.
  pose proof (reachable_wf _ _ _ _ _ Hcap Hs) as Hw.
  destruct (step_ok capacity lifetime Hcap w now (Acquire key) Hw Ht I) as (w1 & Hc & Hw1 & _).
  cbn in Hc. rewrite Hacq in Hc. cbn in Hc. injection Hc as Hc. rewrite Hc in Hs'.
  pose proof (wf_good _ _ _ Hw) as Hg.
  destruct (assoc key (view (cache w))) as [e|] eqn:Ha; cycle 1.
  { rewrite (acquire_absent key now _ _ _ _ Hg Ha) in Hacq. done. }
  destruct (expired_and_unleased now (mem w) e) eqn:Hexp.
  { destruct (acquire_expired key now _ _ _ _ _ Hg Ha Hexp) as (? & Hacq' & _). congruence. }
  destruct (acquire_present key now _ _ _ _ _ Hg Ha Hexp) as [(h' & _ & Hacq' & _)|(h' & _ & Hacq' & _)];
    rewrite Hacq in Hacq'; simplify_eq/=.
  destruct (steps_pinned capacity lifetime Hcap after _ w' key e Hs' Hw1 Ha) as (e' & Hk & Hse & Hl & Hv).
  { cbn. mult. }
  exists e'. unfold lease_value. cbn in *. split_and!; try done.
  rewrite Hv. apply fmap_is_Some. refine (live_cell capacity lifetime Hcap _ (slot e) Hw1 _).
  unfold outside. cbn. multiset_solver.
Qed.

(** An insertion is refused for capacity only when it is a real overload:
    the key is new, the cache is full and every resident entry is referenced
    by a request.  Otherwise a full cache evicts the least recently used
    entry that is not. *)
Theorem insert_overload_or_evict capacity lifetime start tr key v now w :
  0 < capacity -> steps tr (init capacity lifetime start) w -> timely now w ->
  assoc key (view (cache w)) = None -> clru_len (entries (cache w)) = capacity ->
  (insert_evicting_at key v now (mem w) (cache w) = Err AllEntriesLeased /\
   Forall (fun kv => slot kv.2 ∈ outside w) (view (cache w))) \/
  (exists l1 k e l2 o h c s, insert_evicting_at key v now (mem w) (cache w) = Ok (o, (h, c)) /\
     view (cache w) = l1 ++ (k, e) :: l2 /\ (slot e ∉ outside w) /\
     Forall (fun kv => slot kv.2 ∈ outside w) l2 /\
     view c = (key, MkCached s (now + lifetime)) :: l1 ++ l2 /\
     lease_value (MkLease s) h = Some v).
Proof.
  intros Hcap Hs [Hnow Hmax] Ha Hfull.
  pose proof (reachable_wf _ _ _ _ _ Hcap Hs) as Hw.
  pose proof (wf_good _ _ _ Hw) as Hg. apply assoc_None in Ha.
  rewrite clru_len_iter in Hfull. fold (view (cache w)) in Hfull.
  rewrite <- (wf_cap _ _ _ Hw) in Hfull.
  assert (forall kv, kv ∈ view (cache w) ->
    has_external_lease (mem w) kv.2 = true <-> slot kv.2 ∈ outside w) as Hext.
  { intros [k e] Hin. cbn [snd]. rewrite (external_lease _ _ _ _ _ _ Hg Hin). apply bool_decide_eq_true. }
  destruct (decide (Exists (fun kv => has_external_lease (mem w) kv.2 = false) (view (cache w)))) as [Hex|Hall].
  - right. apply (last_match_split (fun kv => has_external_lease (mem w) kv.2 = false)) in Hex
      as (l1 & [k e] & l2 & Hview & Hun & Hl2).
    assert (Forall (fun kv => has_external_lease (mem w) kv.2 = true) l2) as Hl2'.
    { eapply Forall_impl; [exact Hl2|]. intros kv. apply not_false_is_true. }
    destruct (insert_evicts key v now _ _ _ _ _ _ _ _ Hg Ha Hfull Hmax Hview Hun Hl2')
      as (self' & Hins & Hv & _).
    rewrite (wf_ttl _ _ _ Hw) in Hv.
    do 8 eexists. split_and!; [exact Hins|exact Hview| | |exact Hv|].
    + intros Hin. apply (Hext (k, e)) in Hin; [cbn in *; congruence|]. rewrite Hview. set_solver.
    + rewrite Forall_forall in Hl2' |- *. intros kv Hin. apply Hext; [|by apply Hl2'].
      rewrite Hview. set_solver.
    + unfold lease_value, arc_new. cbn. by rewrite lookup_insert_eq.
  - left. apply not_Exists_Forall in Hall; [|apply _].
    assert (Forall (fun kv => has_external_lease (mem w) kv.2 = true) (view (cache w))) as Hall'.
    { eapply Forall_impl; [exact Hall|]. intros kv. apply not_false_is_true. }
    split; [by apply (insert_overload key v now _ _ _ _ Hg Ha Hfull Hmax)|].
    rewrite Forall_forall in Hall' |- *. intros kv Hin. apply Hext; auto.
Qed.

(** C24. In every interleaving of the calls with the two halves of dropping a
    lease, each call the owners can make returns without a panic, the cache
    stays within its capacity, and memory is exact: the allocated slots are
    those something refers to, none is freed early and none leaks. *)
Theorem system_safe capacity lifetime start tr w now a :
  0 < capacity -> steps tr (init capacity lifetime start) w -> timely now w -> owned a w ->
  exists w', call now a w = Ok w' /\ clru_len (entries (cache w')) <= capacity /\
    (forall s, is_Some (mem w' !! s) <->
          s ∈ cached (view (cache w')) \/ s ∈ live w' \/ s ∈ dropping w' \/ s ∈ detached w').
Proof.
  intros Hcap Hs Ht Hown.
  pose proof (reachable_wf _ _ _ _ _ Hcap Hs) as Hw.
  destruct (step_ok capacity lifetime Hcap w now a Hw Ht Hown) as (w' & Hc & Hw' & _).
  exists w'. split; [done|]. destruct (wf_good _ _ _ Hw') as [Hok Hcnt _ _]. split.
  - rewrite clru_len_iter, <- (wf_cap _ _ _ Hw'). by apply clru_ok_bound.
  - intros s. specialize (Hcnt s). unfold accounted in Hcnt.
    rewrite !elem_of_multiplicity. unfold outside in Hcnt.
    rewrite !multiplicity_disj_union in Hcnt. split.
    + intros [c Hcell]. rewrite Hcell in Hcnt. lia.
    + destruct (mem w' !! s); [eauto|lia].
Qed.

(** Cleanup of a batch of keys removes exactly the entries named by the
    batch that are expired and not referenced by a request; it hands their
    slots over as the only references to them. *)
Theorem retire_exact capacity lifetime start tr w keys now :
  0 < capacity -> steps tr (init capacity lifetime start) w ->
  exists r c, retire_expired_candidates_at keys now (mem w) (cache w) = Ok (r, c) /\
    view c = filter (fun kv => ~ (kv.1 ∈ keys /\ (expires_at kv.2 <= now)%Z /\ (slot kv.2 ∉ outside w)))
               (view (cache w)) /\
    length (view (cache w)) = removed_count r + length (view c) /\
    Forall (fun s => strong_count s (mem w) = 1 /\ (s ∉ outside w) /\ (s ∉ cached (view c))) (slots r).
Proof.
  intros Hcap Hs.
  pose proof (reachable_wf _ _ _ _ _ Hcap Hs) as Hw.
  pose proof (wf_good _ _ _ Hw) as Hg.
  destruct (retire_loop_spec keys now _ _ _ _ [] Hg)
    as (self' & acc & Hrun & Hv & Hc & Hlen & Hst & Hg' & _).
  exists (MkRetired acc), self'. unfold retire_expired_candidates_at. rewrite Hrun. split_and!; try done.
  - rewrite Hv. apply filter_ext_elem. intros [k e] Hin. unfold retires, expired_and_unleased. cbn.
    rewrite andb_true_iff, negb_true_iff, bool_decide_eq_true, (external_lease _ _ _ _ _ _ Hg Hin).
    by rewrite bool_decide_eq_false.
  - cbn. rewrite Forall_forall in Hst |- *. intros s Hin. destruct (Hst s Hin) as [? ?].
    split_and!; [done..|]. pose proof (g_unique _ _ _ _ Hg s) as Hu. rewrite Hc in Hu.
    apply elem_of_list_to_set_disj in Hin. mult.
Qed.
End properties.

(** ** Witnesses, on the executable implementation of the interface *)
Section witnesses.
#[local] Existing Instances ListClru.clru ListClru.clru_laws.

Local Abbreviation C := (ListClru.t Z CachedValue).
Local Abbreviation laws := (ListClru.clru_laws (K := Z) (V := CachedValue)).

(** A cache of two entries with a lifetime of five, after a trace. *)
Definition demo_init : world C Z := init 2 5 0.
Definition after (tr : list (Z * action Z Z)) (w : world C Z) : world C Z :=
  default demo_init (run tr w).

Lemma after_steps tr (w : world C Z) :
  bool_decide (is_Some (run tr w)) = true -> steps tr.*2 w (after tr w).
Proof.
  intros [w' Hw]%bool_decide_eq_true. apply run_steps. unfold after. by rewrite Hw.
Qed.

Definition trace1 : list (Z * action Z Z) := [(0, Insert 1 10); (1, Acquire 1)]%Z.
Definition trace2 : list (Z * action Z Z) :=
  [(2, Insert 2 20); (3, Insert 3 30); (9, BeginDrop 0%nat); (9, EndDrop 0%nat); (10, RetireCandidates [1; 3])]%Z.
Definition held : world C Z := after [(1, Acquire 1)]%Z (after trace1 demo_init).

Lemma lease_pins_entry_witness :
  exists e, assoc 1%Z (view (cache (after trace2 held))) = Some e /\ slot e = 0 /\
    is_Some (lease_value (MkLease 0) (mem (after trace2 held))) /\
    lease_value (MkLease 0) (mem (after trace2 held)) = Some 10%Z.
Proof.
  eapply (lease_pins_entry (laws := laws) 2 5 0 trace1.*2 1%Z 1 (after trace1 demo_init) (MkLease 0)
    (mem held) (cache held) trace2.*2 (after trace2 held)).
  - lia.
  - apply after_steps. vm_compute. reflexivity.
  - split; vm_compute; discriminate.
  - vm_compute. reflexivity.
  - apply (after_steps trace2 held). vm_compute. reflexivity.
  - vm_compute. lia.
Defined.

(** Both entries leased: an insertion fails. *)
Definition full : world C Z :=
  after [(0, Insert 1 10); (0, Insert 2 20); (1, Acquire 1); (1, Acquire 2)]%Z demo_init.

Lemma insert_overload_or_evict_witness :
  insert_evicting_at 3%Z 30%Z 2 (mem full) (cache full) = Err AllEntriesLeased /\
  Forall (fun kv => slot kv.2 ∈ outside full) (view (cache full)).
Proof.
  destruct (insert_overload_or_evict (laws := laws) 2 5 0 _ 3%Z 30%Z 2 full ltac:(lia)
    (after_steps [(0, Insert 1 10); (0, Insert 2 20); (1, Acquire 1); (1, Acquire 2)]%Z demo_init
       ltac:(vm_compute; reflexivity))) as [H|(l1 & k & e & l2 & o & h & c & s & H & _)].
  - split; vm_compute; discriminate.
  - reflexivity.
  - reflexivity.
  - exact H.
  - vm_compute in H. discriminate H.
Defined.

Lemma system_safe_witness :
  exists w', call 9 (BeginDrop 0) held = Ok w' /\ clru_len (entries (cache w')) <= 2 /\
    (forall s, is_Some (mem w' !! s) <->
          s ∈ cached (view (cache w')) \/ s ∈ live w' \/ s ∈ dropping w' \/ s ∈ detached w').
Proof.
  apply (system_safe (laws := laws) 2 5 0 (trace1 ++ [(1, Acquire 1)]%Z).*2 held 9 (BeginDrop 0)).
  - lia.
  - apply (after_steps (trace1 ++ [(1, Acquire 1)]%Z) demo_init). vm_compute. reflexivity.
  - split; vm_compute; discriminate.
  - apply (bool_decide_eq_true (owned (BeginDrop 0) held)). vm_compute. reflexivity.
Defined.

Lemma retire_exact_witness :
  exists r c, retire_expired_candidates_at [1; 2]%Z 9 (mem (after [(2, Insert 2 20)]%Z held))
      (cache (after [(2, Insert 2 20)]%Z held)) = Ok (r, c) /\
    view c = filter (fun kv => ~ (kv.1 ∈ [1; 2]%Z /\ (expires_at kv.2 <= 9)%Z /\
                               (slot kv.2 ∉ outside (after [(2, Insert 2 20)]%Z held))))
               (view (cache (after [(2, Insert 2 20)]%Z held))) /\
    length (view (cache (after [(2, Insert 2 20)]%Z held))) = removed_count r + length (view c) /\
    Forall (fun s => strong_count s (mem (after [(2, Insert 2 20)]%Z held)) = 1 /\
                  (s ∉ outside (after [(2, Insert 2 20)]%Z held)) /\ (s ∉ cached (view c))) (slots r).
Proof.
  apply (retire_exact (laws := laws) 2 5 0 (trace1 ++ [(1, Acquire 1); (2, Insert 2 20)]%Z).*2).
  - lia.
  - apply (after_steps (trace1 ++ [(1, Acquire 1); (2, Insert 2 20)]%Z) demo_init).
    vm_compute. reflexivity.
Defined.
End witnesses.

End Lease.
