(* ===== verification/Maintenance.v ===== *)
(** * [secret_cache_maintenance.rs]: the periodic purge of expired secrets

    One tick of the maintenance task: the pending attestations are purged
    under their lock, then the expired sessions are snapshotted once and
    retired in batches, with the session mutex released between batches and
    every retired value dropped outside it. *)

From stdpp Require Import gmultiset.
From S2P Require Import Prelude Clru BoundedTtlCache LeaseAwareCache.

Module Maintenance.

Definition SECRET_CACHE_MAINTENANCE_INTERVAL : Z := secs (5 * 60).
Definition SESSION_RETIREMENT_BATCH_SIZE : nat := 4096.

(** [slice::chunks]; the length of the slice is fuel enough. *)
Fixpoint chunks_fuel {A} (fuel n : nat) (l : list A) : list (list A) :=
  match fuel, l with
  | S fuel, _ :: _ => take n l :: chunks_fuel fuel n (drop n l)
  | _, _ => []
  end.
Definition chunks {A} (n : nat) (l : list A) : list (list A) := chunks_fuel (length l) n l.

Lemma concat_chunks {A} n (l : list A) : 0 < n -> concat (chunks n l) = l.
Proof.
  intros Hn. unfold chunks. assert (length l <= length l) as Hle by lia.
  revert Hle. generalize (length l) at 2 3 as fuel. intros fuel. revert l.
  induction fuel as [|fuel IH]; intros l Hle.
  - by destruct l; cbn in *; [|lia].
  - destruct l as [|x l]; [done|]. cbn [chunks_fuel]. rewrite concat_cons, IH, take_drop; [done|].
    rewrite length_drop. cbn in *. lia.
Qed.

Section purge.
Context {C1 C2 K1 K2 V1 V2 : Type} `{EqDecision K1, EqDecision K2}.
Context {clru1 : Clru C1 K1 (Bounded.TimedEntry V1)} {clru2 : Clru C2 K2 Lease.CachedValue}.
Context (zeroize : V1 -> V1).
Implicit Types (now : Z).

(** The two caches of [AppState] the task touches, and the session slots. *)
Record SecretState := MkSecretState {
  ephemeral_keys : Bounded.BoundedTtlCache C1;
  session_states : Lease.LeaseAwareTtlCache C2;
  session_slots : Lease.heap V2;
}.

(** Dropping a [RetiredLeaseValues]: one [Arc] after the other. *)
Definition drop_retired (r : Lease.RetiredLeaseValues) (h : Lease.heap V2) : Lease.heap V2 :=
  foldl (fun h s => Lease.arc_drop s h) h (Lease.slots r).

Fixpoint retire_batches (batches : list (list K2)) now (h : Lease.heap V2)
    (sessions : Lease.LeaseAwareTtlCache C2) (session_count : nat)
    : outcome Empty_set (nat * (Lease.heap V2 * Lease.LeaseAwareTtlCache C2)) :=
  match batches with
  | [] => Ok (session_count, (h, sessions))
  | batch :: batches =>
      '(retired_sessions, sessions) ← Lease.retire_expired_candidates_at batch now h sessions;
      let session_count := session_count + Lease.removed_count retired_sessions in
      retire_batches batches now (drop_retired retired_sessions h) sessions session_count
  end.

Definition purge_expired_secret_state now (st : SecretState)
    : outcome Empty_set ((nat * nat) * SecretState) :=
  '(retired_pending, pending) ← Bounded.retire_expired_at zeroize now (ephemeral_keys st);
  let pending_count := Bounded.removed_count retired_pending in
  let candidates := Lease.expired_unleased_keys_at now (session_slots st) (session_states st) in
  '(session_count, (h, sessions)) ←
    retire_batches (chunks SESSION_RETIREMENT_BATCH_SIZE candidates) now
      (session_slots st) (session_states st) 0;
  Ok ((pending_count, session_count), MkSecretState pending sessions h).
End purge.
Arguments SecretState : clear implicits.
Arguments MkSecretState {C1 C2 V2}.
Arguments ephemeral_keys {C1 C2 V2}. Arguments session_states {C1 C2 V2}. Arguments session_slots {C1 C2 V2}.

#[local] Arguments drop_retired : simpl never.

Section sessions.
Context {C K V : Type} `{EqDecision K} {clru : Clru C K Lease.CachedValue}.
Context {clru_ok : C -> Prop} {laws : ClruLaws C K Lease.CachedValue clru_ok}.
Implicit Types (now : Z) (h : Lease.heap V) (rest held : gmultiset nat).
Implicit Types (sessions : Lease.LeaseAwareTtlCache C).

Abbreviation good := (Lease.good (clru_ok := clru_ok)).

Lemma good_drop_retired acc h sessions rest held :
  held ⊆ rest -> good h sessions (list_to_set_disj acc ⊎ rest) held ->
  good (drop_retired (Lease.MkRetired acc) h) sessions rest held.
Proof.
  intros Hsub. unfold drop_retired. cbn [Lease.slots]. revert h.
  induction acc as [|s acc IH]; intros h Hg.
  - by rewrite list_to_set_disj_nil, (left_id_L ∅ _) in Hg.
  - rewrite list_to_set_disj_cons, <- (assoc_L _) in Hg. cbn [foldl]. apply IH.
    apply (Lease.good_drop s); [multiset_solver|done].
Qed.

(** Batches of keys retire the same entries as one batch. *)
Lemma retire_batches_spec batches now h sessions rest held n :
  good h sessions rest held ->
  exists h' sessions' m,
    retire_batches batches now h sessions n = Ok (n + m, (h', sessions')) /\
    Lease.view sessions' =
      filter (fun kv => ~ (kv.1 ∈ concat batches /\ (Lease.expires_at kv.2 <= now)%Z /\
                           (Lease.slot kv.2 ∉ rest))) (Lease.view sessions) /\
    length (Lease.view sessions) = m + length (Lease.view sessions') /\
    good h' sessions' rest held.
Proof.
  revert h sessions n. induction batches as [|batch batches IH]; intros h sessions n Hg.
  { exists h, sessions, 0. cbn [retire_batches concat]. rewrite Nat.add_0_r, filter_all; [done|].
    apply Forall_forall. intros kv _ [Hin _]. by apply not_elem_of_nil in Hin. }
  cbn [retire_batches]. unfold Lease.retire_expired_candidates_at.
  destruct (Lease.retire_loop_spec batch now h sessions rest held [] Hg)
    as (s1 & acc & -> & Hv & _ & Hlen & _ & Hg1 & _). cbn.
  apply good_drop_retired in Hg1; [|by destruct Hg].
  destruct (IH _ s1 (n + length acc) Hg1) as (h' & s2 & m & Hrun & Hv2 & Hlen2 & Hg2).
  exists h', s2, (length acc + m). rewrite Hrun. split_and!; [by rewrite Nat.add_assoc| |lia|done].
  rewrite Hv2, Hv, list_filter_filter. apply filter_ext_elem. intros [k e] Hin.
  unfold Lease.retires, Lease.expired_and_unleased. cbn [fst snd concat].
  rewrite andb_true_iff, negb_true_iff, bool_decide_eq_true.
  rewrite (Lease.external_lease _ _ _ _ _ _ Hg Hin), bool_decide_eq_false.
  rewrite elem_of_app. tauto.
Qed.

(** The snapshot names every expired entry without a lease. *)
Lemma snapshot_spec now h sessions rest held :
  good h sessions rest held -> StronglySorted Lease.expiry_order (Lease.view sessions) ->
  Lease.expired_unleased_keys_at now h sessions =
    (filter (fun kv => (Lease.expires_at kv.2 <= now)%Z /\ (Lease.slot kv.2 ∉ rest))
       (reverse (Lease.view sessions))).*1.
Proof.
  intros Hg Hs%StronglySorted_reverse. unfold Lease.expired_unleased_keys_at.
  fold (Lease.view sessions). rewrite Lease.expired_unleased_scan_spec by done. f_equal.
  apply filter_ext_elem. intros [k e] Hin. rewrite elem_of_reverse in Hin.
  unfold Lease.expired_and_unleased. cbn [snd].
  rewrite andb_true_iff, negb_true_iff, bool_decide_eq_true.
  by rewrite (Lease.external_lease _ _ _ _ _ _ Hg Hin), bool_decide_eq_false.
Qed.
End sessions.

(** ** Properties *)
Section properties.
Context {C1 C2 K1 K2 V1 V2 : Type} `{EqDecision K1, EqDecision K2}.
Context {clru1 : Clru C1 K1 (Bounded.TimedEntry V1)} {clru2 : Clru C2 K2 Lease.CachedValue}.
Context {ok1 : C1 -> Prop} {laws1 : ClruLaws C1 K1 (Bounded.TimedEntry V1) ok1}.
Context {ok2 : C2 -> Prop} {laws2 : ClruLaws C2 K2 Lease.CachedValue ok2}.

(** One purge removes from both caches exactly what is expired and not in
    use: no live entry and no session leased by a request goes, nothing
    expired and unleased stays (whatever the number of batches), the counts
    are right, and the memory of every removed session is freed. *)
Theorem purge_complete zeroize cap1 life1 start1 trace1 (pending : Bounded.BoundedTtlCache C1)
    cap2 life2 start2 trace2 (w : Lease.world C2 V2) now :
  0 < cap1 -> Bounded.timely life1 start1 trace1 ->
  Bounded.run zeroize trace1 (Bounded.new cap1 life1) = Ok pending ->
  0 < cap2 -> Lease.steps trace2 (Lease.init cap2 life2 start2) w ->
  exists np ns st',
    purge_expired_secret_state zeroize now (MkSecretState pending (Lease.cache w) (Lease.mem w))
      = Ok ((np, ns), st') /\
    Bounded.view (ephemeral_keys st') =
      filter (fun kv => Bounded.is_expired now kv.2 = false) (Bounded.view pending) /\
    length (Bounded.view pending) = np + length (Bounded.view (ephemeral_keys st')) /\
    Lease.view (session_states st') =
      filter (fun kv => ~ ((Lease.expires_at kv.2 <= now)%Z /\ (Lease.slot kv.2 ∉ Lease.outside w)))
        (Lease.view (Lease.cache w)) /\
    length (Lease.view (Lease.cache w)) = ns + length (Lease.view (session_states st')) /\
    (forall s, is_Some (session_slots st' !! s) <->
          s ∈ Lease.cached (Lease.view (session_states st')) \/ s ∈ Lease.outside w).
Proof.
  intros Hc1 Ht Hrun Hc2 Hs.
  destruct (Bounded.inv_run zeroize cap1 life1 start1 trace1 (Bounded.new cap1 life1) Hc1 Ht)
    as (now' & p & Hp & _ & Hinv); [by apply Bounded.inv_new|].
  rewrite Hrun in Hp. injection Hp as <-.
  destruct (Bounded.retire_refines zeroize now pending (Bounded.inv_ok _ _ _ _ Hinv)
    (Bounded.inv_sorted _ _ _ _ Hinv)) as (pending' & Hret & Hv1 & _).
  pose proof (Lease.reachable_wf (laws := laws2) _ _ _ _ _ Hc2 Hs) as Hw.
  pose proof (Lease.wf_good _ _ _ Hw) as Hg. pose proof (Lease.wf_sorted _ _ _ Hw) as Hsort.
  unfold purge_expired_secret_state. cbn [ephemeral_keys session_states session_slots].
  rewrite Hret. cbn. rewrite (snapshot_spec now _ _ _ _ Hg Hsort).
  set (keys := (filter _ _).*1).
  destruct (retire_batches_spec (chunks SESSION_RETIREMENT_BATCH_SIZE keys) now _ _ _ _ 0 Hg)
    as (h' & s' & m & -> & Hv2 & Hlen2 & Hg2). cbn.
  rewrite concat_chunks in Hv2 by (unfold SESSION_RETIREMENT_BATCH_SIZE; lia).
  do 3 eexists. split; [done|]. cbn. split_and!; [done| | |done|].
  - unfold Bounded.removed_count. cbn. rewrite length_fmap, length_reverse, Hv1.
    rewrite (Bounded.live_dead_split now (Bounded.view pending)) at 1 by apply Hinv.
    rewrite length_app. lia.
  - rewrite Hv2. apply filter_ext_elem. intros [k e] Hin. cbn.
    enough ((Lease.expires_at e <= now)%Z -> Lease.slot e ∉ Lease.outside w -> k ∈ keys) by tauto.
    intros He Ho. apply list_elem_of_fmap. exists (k, e). split; [done|].
    apply list_elem_of_filter. split; [done|]. by apply elem_of_reverse.
  - destruct Hg2 as [_ Hcnt _ _]. intros s. specialize (Hcnt s). unfold Lease.accounted in Hcnt.
    rewrite !elem_of_multiplicity. rewrite multiplicity_disj_union in Hcnt. split.
    + intros [c Hcell]. rewrite Hcell in Hcnt. lia.
    + destruct (h' !! s); [eauto|lia].
Qed.
End properties.

(** ** Witness *)
Section witness.
#[local] Existing Instances ListClru.clru ListClru.clru_laws.
Local Abbreviation C1 := (ListClru.t Z (Bounded.TimedEntry Z)).

(** One pending attestation expired and one live; sessions 1 and 2 expired,
    1 leased; session 3 live. *)
Definition pending : Bounded.BoundedTtlCache C1 :=
  Bounded.MkCache (ListClru.Mk 2 [(8, Bounded.MkTimedEntry 80 9); (7, Bounded.MkTimedEntry 70 5)]%Z) 5.
Definition busy : Lease.world (ListClru.t Z Lease.CachedValue) Z :=
  default (Lease.init 3 5 0)
    (Lease.run [(0, Lease.Insert 1 10); (0, Lease.Insert 2 20); (1, Lease.Acquire 1);
                (4, Lease.Insert 3 30)]%Z (Lease.init 3 5 0)).

Lemma purge_complete_witness :
  exists np ns st',
    purge_expired_secret_state (fun _ => 0%Z) 6 (MkSecretState pending (Lease.cache busy) (Lease.mem busy))
      = Ok ((np, ns), st') /\
    Bounded.view (ephemeral_keys st') = [(8, Bounded.MkTimedEntry 80 9)]%Z /\
    length (Bounded.view pending) = np + length (Bounded.view (ephemeral_keys st')) /\
    Lease.view (session_states st') = [(3%Z, Lease.MkCached 2 9); (1%Z, Lease.MkCached 0 5)] /\
    length (Lease.view (Lease.cache busy)) = ns + length (Lease.view (session_states st')) /\
    (forall s, is_Some (session_slots st' !! s) <->
          s ∈ Lease.cached (Lease.view (session_states st')) \/ s ∈ Lease.outside busy).
Proof.
  apply (purge_complete (laws1 := ListClru.clru_laws) (laws2 := ListClru.clru_laws)
    (fun _ => 0%Z) 2 5 0 [(0, Bounded.Insert 7 70); (4, Bounded.Insert 8 80)]%Z pending
    3 5 0 [(0, Lease.Insert 1 10); (0, Lease.Insert 2 20); (1, Lease.Acquire 1);
           (4, Lease.Insert 3 30)]%Z.*2 busy 6).
  - lia.
  - repeat split; vm_compute; discriminate.
  - reflexivity.
  - lia.
  - apply Lease.run_steps. vm_compute. reflexivity.
Defined.
End witness.

End Maintenance.
