(* ===== verification/Encrypt.v ===== *)
(** * [encrypt.rs]: envelopes, canonical encodings and KMS output

    Ciphertext envelopes (a 96-bit nonce in front of the ciphertext), the
    canonical byte encoding of authenticated facts, deterministic encryption
    of storage keys, the strict parsers of the output of the KMS tool and the
    buffered random generator.  A random nonce is an argument. *)

From S2P Require Import Prelude Text Crypto.

Module Encrypt.

Definition AES_256_KEY_LENGTH : nat := 32.
Definition KMSTOOL_PLAINTEXT_PREFIX : string := "PLAINTEXT: ".
Definition KMSTOOL_CIPHERTEXT_PREFIX : string := "CIPHERTEXT: ".

Inductive EncryptError :=
| FailedToDecrypt
| BadData
| KmsError (msg : string)
| NoContent
| DeserializationFailed (msg : string)
| KeyDerivationFailed.

#[export] Instance EncryptError_eq_dec : EqDecision EncryptError.
Proof. solve_decision. Defined.

(** A secp256k1 secret key, by its 32 bytes. *)
Record SecretKey := MkSecretKey { secret_bytes : bytes }.
Definition Uuid : Type := bytes.

Section encrypt.
Context `{Crypto}.
Implicit Types (key : SecretKey) (nonce b : bytes).

(** [Aes256Gcm::new_from_slice]: the key must have 32 bytes. *)
Definition gcm_new_from_slice (key : bytes) : option bytes :=
  if decide (length key = AES_256_KEY_LENGTH) then Some key else None.

Definition encrypt_with_key nonce key b : outcome Empty_set bytes :=
  cipher ← expect (gcm_new_from_slice (secret_bytes key));
  ciphertext ← expect (seal aes_256_gcm cipher nonce [] b);
  Ok (nonce ++ ciphertext).

Definition decrypt_with_key key b : outcome EncryptError bytes :=
  if decide (length b < 12) then Err BadData
  else
    let nonce := take 12 b in
    let ciphertext := drop 12 b in
    cipher ← ok_or FailedToDecrypt (gcm_new_from_slice (secret_bytes key));
    ok_or FailedToDecrypt (open aes_256_gcm cipher nonce [] ciphertext).

Definition derive_key_with_optional_salt (input_key : bytes) (salt : option bytes) (info : bytes)
    : outcome EncryptError bytes :=
  ok_or KeyDerivationFailed (hkdf_sha256 salt input_key info).

Definition derive_key (root_key info : bytes) : outcome EncryptError bytes :=
  derive_key_with_optional_salt root_key None info.

Definition derive_key_with_salt (input_key salt info : bytes) : outcome EncryptError bytes :=
  derive_key_with_optional_salt input_key (Some salt) info.

Definition encrypt_aead_v1 nonce (encryption_key plaintext aad : bytes) : outcome EncryptError bytes :=
  cipher ← ok_or FailedToDecrypt (gcm_new_from_slice encryption_key);
  ciphertext ← ok_or FailedToDecrypt (seal aes_256_gcm cipher nonce aad plaintext);
  Ok (nonce ++ ciphertext).

Definition decrypt_aead_v1 (encryption_key b aad : bytes) : outcome EncryptError bytes :=
  if decide (length b < 12) then Err BadData
  else
    cipher ← ok_or FailedToDecrypt (gcm_new_from_slice encryption_key);
    ok_or FailedToDecrypt (open aes_256_gcm cipher (take 12 b) aad (drop 12 b)).

(** Typed decryption: absent content is not an error, bad content always is.
    [from_slice] is the deserializer of the type, [de_error] its message. *)
Definition decrypt_content {T} (from_slice : bytes -> string + T) key (encrypted : option bytes)
    : outcome EncryptError (option T) :=
  match encrypted with
  | None => Ok None
  | Some encrypted =>
      decrypted_bytes ← decrypt_with_key key encrypted;
      match from_slice decrypted_bytes with
      | inr value => Ok (Some value)
      | inl e => Err (DeserializationFailed e)
      end
  end.

Definition decrypt_string key (encrypted : option bytes)
    : outcome EncryptError (option string) :=
  match encrypted with
  | None => Ok None
  | Some encrypted =>
      b ← decrypt_with_key key encrypted;
      Ok (Some (from_utf8_lossy b))
  end.

(** Deterministic encryption: the all-zero SIV nonce and a 64-byte key. *)
Definition extend_key (key : bytes) : bytes := sha512 key.
Definition siv_nonce : bytes := replicate 16 Byte.x00.

Definition encrypt_key_deterministic (encryption_key : SecretKey) (key : bytes)
    : outcome Empty_set bytes :=
  expect (seal aes_256_siv (extend_key (secret_bytes encryption_key)) siv_nonce [] key).

Definition decrypt_key_deterministic (encryption_key : SecretKey) (encrypted : bytes)
    : outcome EncryptError bytes :=
  ok_or FailedToDecrypt
    (open aes_256_siv (extend_key (secret_bytes encryption_key)) siv_nonce [] encrypted).
End encrypt.

(** ** Canonical bytes *)
Record CanonicalBytes := MkCanonical { canonical : bytes }.

Definition append_field (tag : byte) (value : bytes) (self : CanonicalBytes)
    : outcome Empty_set CanonicalBytes :=
  len ← expect (if decide (Z.of_nat (length value) <= u32_max)%Z
                then Some (Z.of_nat (length value)) else None);
  Ok (MkCanonical (canonical self ++ tag :: be_bytes 4 len ++ value)).

Definition append_str (value : string) := append_field Byte.x73 (as_bytes value).
Definition append_bytes (value : bytes) := append_field Byte.x62 value.
Definition append_i16 (value : Z) := append_field Byte.x69 (be_bytes 2 value).
Definition append_i32 (value : Z) := append_field Byte.x49 (be_bytes 4 value).
Definition append_uuid (value : Uuid) := append_field Byte.x75 value.

Definition canonical_default : CanonicalBytes := MkCanonical [].
Definition canonical_new (domain : string) : outcome Empty_set CanonicalBytes :=
  append_str domain canonical_default.
Definition into_bytes (self : CanonicalBytes) : bytes := canonical self.

(** ** The output of the KMS tool *)
Section kmstool.
Context `{Crypto} (base64_error : string -> string).

Record GenKeyResult := MkGenKey { genkey_key : bytes; encrypted_key : bytes }.

Definition strip_single_trailing_newline (output operation : string) : outcome EncryptError string :=
  if contains_char carriage_return output then
    Err (KmsError ("Unexpected carriage return in kmstool " +:+ operation +:+ " output"))
  else
    let output := default output (strip_suffix_char newline output) in
    if ends_with_char newline output then
      Err (KmsError ("Unexpected blank line in kmstool " +:+ operation +:+ " output"))
    else Ok output.

Definition decode_kmstool_line (line expected_prefix field_name : string) : outcome EncryptError bytes :=
  encoded ← ok_or (KmsError ("Failed to parse kmstool " +:+ field_name)) (strip_prefix expected_prefix line);
  if is_empty encoded then Err (KmsError ("Empty kmstool " +:+ field_name))
  else ok_or (KmsError ("Failed to decode kmstool " +:+ field_name +:+ ": " +:+ base64_error encoded))
         (base64_decode encoded).

(** [show] is the decimal [Display] of a [usize]. *)
Definition parse_kmstool_plaintext (show : nat -> string) (output operation : string)
    (expected_length : option nat) : outcome EncryptError bytes :=
  line ← strip_single_trailing_newline output operation;
  if contains_char newline line then
    Err (KmsError ("Unexpected additional line in kmstool " +:+ operation +:+ " output"))
  else
    plaintext ← decode_kmstool_line line KMSTOOL_PLAINTEXT_PREFIX "plaintext";
    match expected_length with
    | Some expected =>
        if decide (length plaintext = expected) then Ok plaintext
        else Err (KmsError ("Invalid kmstool " +:+ operation +:+ " plaintext length: expected "
               +:+ show expected +:+ " bytes, got " +:+ show (length plaintext)))
    | None => Ok plaintext
    end.

Definition validate_aes_256_key_length (show : nat -> string) (key : bytes) : outcome EncryptError unit :=
  if decide (length key = AES_256_KEY_LENGTH) then Ok tt
  else Err (KmsError ("Invalid AES-256 key length: expected " +:+ show AES_256_KEY_LENGTH
              +:+ " bytes, got " +:+ show (length key))).

Definition parse_kmstool_genkey (show : nat -> string) (output : string) : outcome EncryptError GenKeyResult :=
  output ← strip_single_trailing_newline output "genkey";
  let lines := split_char newline output in
  '(ciphertext_line, lines) ←
    (match lines with l :: ls => Ok (l, ls) | [] => Err (KmsError "Missing kmstool ciphertext") end);
  '(plaintext_line, lines) ←
    (match lines with l :: ls => Ok (l, ls) | [] => Err (KmsError "Missing kmstool plaintext") end);
  match lines with
  | _ :: _ => Err (KmsError "Unexpected additional line in kmstool genkey output")
  | [] =>
      enc ← decode_kmstool_line ciphertext_line KMSTOOL_CIPHERTEXT_PREFIX "encrypted key";
      key ← decode_kmstool_line plaintext_line KMSTOOL_PLAINTEXT_PREFIX "plaintext key";
      _ ← validate_aes_256_key_length show key;
      Ok (MkGenKey key enc)
  end.

(** The process the commands run: exit status, standard output as text when
    it is UTF-8, standard error. *)
Record ToolOutput := MkTool { success : bool; stdout : string + string; stderr : string }.

Definition run_kmstool {A} (spawned : string + ToolOutput) (parse : string -> outcome EncryptError A)
    : outcome EncryptError A :=
  match spawned with
  | inl e => Err (KmsError e)
  | inr out =>
      if negb (success out) then Err (KmsError (stderr out))
      else match stdout out with
           | inl e => Err (KmsError e)
           | inr text => parse text
           end
  end.

Definition decrypt_with_kms (show : nat -> string) (spawned : string + ToolOutput) : outcome EncryptError bytes :=
  run_kmstool spawned (fun text => parse_kmstool_plaintext show text "decrypt" None).

Definition create_new_encryption_key (show : nat -> string) (spawned : string + ToolOutput)
    : outcome EncryptError GenKeyResult :=
  run_kmstool spawned (parse_kmstool_genkey show).

Definition generate_random_bytes_from_enclave (show : nat -> string) (spawned : string + ToolOutput)
    (len : nat) : outcome EncryptError bytes :=
  run_kmstool spawned (fun text => parse_kmstool_plaintext show text "genrandom" (Some len)).
End kmstool.

(** ** The buffered random generator

    The operating system's random bytes are the blocks of 1024 bytes that
    [fill_buffer] draws, in order. *)
Record CustomRng := MkRng { buffer : bytes; blocks_drawn : nat }.
Definition rng_new : CustomRng := MkRng [] 0.

Section rng.
Context (block : nat -> bytes).  (* the n-th 1024-byte draw *)

Definition fill_buffer (self : CustomRng) : CustomRng :=
  MkRng (buffer self ++ block (blocks_drawn self)) (S (blocks_drawn self)).

(** The loop of [fill_bytes]; [None] when the fuel runs out. *)
Fixpoint fill_until (fuel n : nat) (self : CustomRng) : option CustomRng :=
  if decide (length (buffer self) < n) then
    match fuel with
    | 0 => None
    | S fuel => fill_until fuel n (fill_buffer self)
    end
  else Some self.

Definition fill_bytes (n : nat) (self : CustomRng) : option (bytes * CustomRng) :=
  self ← fill_until (S (n / 1024)) n self;
  Some (take n (buffer self), MkRng (drop n (buffer self)) (blocks_drawn self)).

Definition le_value (b : bytes) : Z := be_value (reverse b).
Definition next_u32 (self : CustomRng) : option (Z * CustomRng) :=
  '(b, self) ← fill_bytes 4 self; Some (le_value b, self).
Definition next_u64 (self : CustomRng) : option (Z * CustomRng) :=
  '(b, self) ← fill_bytes 8 self; Some (le_value b, self).
End rng.

(** ** Canonical bytes are a prefix-free code *)
Definition encode_field (f : byte * bytes) : bytes :=
  f.1 :: be_bytes 4 (Z.of_nat (length f.2)) ++ f.2.
Definition encode_fields (fs : list (byte * bytes)) : bytes := concat (encode_field <$> fs).
Definition field_fits (f : byte * bytes) : Prop := (Z.of_nat (length f.2) <= u32_max)%Z.

Lemma append_field_Ok tag value self self' :
  append_field tag value self = Ok self' <->
  field_fits (tag, value) /\ self' = MkCanonical (canonical self ++ encode_field (tag, value)).
Proof.
  unfold append_field, field_fits, encode_field. cbn [fst snd]. case_decide; cbn; split; try done.
  - by intros [= <-].
  - by intros [_ ->].
  - by intros [? _].
Qed.

Lemma encode_field_inj f g rest rest' :
  field_fits f -> field_fits g ->
  encode_field f ++ rest = encode_field g ++ rest' -> f = g /\ rest = rest'.
Proof.
  destruct f as [t v], g as [t' v']. unfold field_fits, encode_field. cbn [fst snd app].
  intros Hv Hv'.
  remember (be_bytes 4 (Z.of_nat (length v))) as p eqn:Hp.
  remember (be_bytes 4 (Z.of_nat (length v'))) as p' eqn:Hp'.
  intros [= <- Heq]. rewrite <- !app_assoc in Heq.
  apply app_inj_1 in Heq as [Hlen Heq]; [|by rewrite Hp, Hp', !be_bytes_length].
  rewrite Hp, Hp' in Hlen. apply (be_bytes_inj 4 0) in Hlen; [|unfold u32_max in *; lia..].
  apply app_inj_1 in Heq as [-> ->]; [done|lia].
Qed.

Lemma encode_fields_inj fs gs :
  Forall field_fits fs -> Forall field_fits gs -> encode_fields fs = encode_fields gs -> fs = gs.
Proof.
  unfold encode_fields. intros Hfs. revert gs. induction Hfs as [|f fs Hf _ IH]; intros gs Hgs Heq.
  - by destruct Hgs.
  - destruct Hgs as [|g gs Hg Hgs]; [done|]. cbn [fmap list_fmap concat] in Heq.
    apply encode_field_inj in Heq as [-> Heq]; [|done..]. f_equal. by apply IH.
Qed.

(** The builder, as a list of fields. *)
Fixpoint append_all (fs : list (byte * bytes)) (self : CanonicalBytes) : outcome Empty_set CanonicalBytes :=
  match fs with
  | [] => Ok self
  | (tag, value) :: fs => self ← append_field tag value self; append_all fs self
  end.

Lemma append_all_Ok fs self self' :
  append_all fs self = Ok self' ->
  Forall field_fits fs /\ canonical self' = canonical self ++ encode_fields fs.
Proof.
  revert self. induction fs as [|[tag value] fs IH]; intros self.
  - intros [= <-]. unfold encode_fields. cbn. by rewrite app_nil_r.
  - cbn [append_all]. intros (s1 & [Hf ->]%append_field_Ok & [Hfs Hc]%IH)%bind_Ok.
    split; [by constructor|]. rewrite Hc. cbn [canonical]. by rewrite <- app_assoc.
Qed.

Lemma append_all_total fs self :
  Forall field_fits fs ->
  append_all fs self = Ok (MkCanonical (canonical self ++ encode_fields fs)).
Proof.
  intros Hfs. revert self. induction Hfs as [|[tag value] fs Hf _ IH]; intros self; cbn [append_all].
  - unfold encode_fields. cbn. rewrite app_nil_r. by destruct self.
  - assert (append_field tag value self = Ok (MkCanonical (canonical self ++ encode_field (tag, value))))
      as -> by (by apply append_field_Ok). cbn [mbind outcome_bind]. rewrite IH. cbn [canonical].
    by rewrite <- app_assoc.
Qed.

(** Facts built with the same fields only. *)
Lemma append_all_inj fs gs c :
  append_all fs canonical_default = Ok c -> append_all gs canonical_default = Ok c -> fs = gs.
Proof.
  intros [Hfs Hc]%append_all_Ok [Hgs Hc']%append_all_Ok.
  apply encode_fields_inj; [done..|]. rewrite Hc in Hc'. exact Hc'.
Qed.

(** ** Envelopes *)
Section envelopes.
Context {cr : Crypto} {laws : CryptoLaws cr}.

Lemma aead_v1_exact nonce k m aad c :
  length k = AES_256_KEY_LENGTH -> length nonce = 12 ->
  encrypt_aead_v1 nonce k m aad = Ok c <->
  decrypt_aead_v1 k c aad = Ok m /\ take 12 c = nonce.
Proof.
  intros Hk Hn. unfold encrypt_aead_v1, decrypt_aead_v1, gcm_new_from_slice.
  rewrite !decide_True by done. cbn. split.
  - intros (ct & Hs%ok_or_Ok & [= <-])%bind_Ok. rewrite length_app, decide_False by lia.
    rewrite drop_app_length', take_app_length' by done. split; [|done].
    apply ok_or_Ok. by apply (open_seal _ gcm_ok).
  - intros [Hd Ht]. case_decide as Hlen; [done|]. apply ok_or_Ok in Hd.
    rewrite Ht in Hd. apply (seal_open _ gcm_ok) in Hd. rewrite Hd. cbn.
    by rewrite <- Ht, take_drop.
Qed.
End envelopes.

(** ** The KMS tool's lines *)
Section kmstool_facts.
Context `{Crypto} (base64_error : string -> string) (show : nat -> string).

Lemma ends_with_nl_app o : ends_with_char newline (o +:+ nl) = true.
Proof. rewrite ends_with_char_app by done. by cbn. Qed.

Lemma strip_newline_spec out op o :
  strip_single_trailing_newline out op = Ok o <->
  contains_char carriage_return out = false /\ ends_with_char newline o = false /\
  (out = o \/ out = o +:+ nl).
Proof.
  unfold strip_single_trailing_newline.
  destruct (contains_char carriage_return out); [by split; [|intros [? _]]|].
  destruct (strip_suffix_char newline out) as [o1|] eqn:Hs; cbn.
  - apply strip_suffix_char_Some in Hs as ->. destruct (ends_with_char newline o1) eqn:He.
    + split; [done|]. intros (_ & Ho & [<-|Heq]).
      * by rewrite ends_with_nl_app in Ho.
      * apply string_app_inj_r in Heq as ->. congruence.
    + split; [intros [= <-]; auto|]. intros (_ & Ho & [<-|Heq]).
      * by rewrite ends_with_nl_app in Ho.
      * by apply string_app_inj_r in Heq as ->.
  - assert (forall o', out = o' +:+ nl -> False) as Hno.
    { intros o' Heq. apply strip_suffix_char_Some in Heq. congruence. }
    destruct (ends_with_char newline out) eqn:He.
    + split; [done|]. intros (_ & Ho & [<-|Heq]); [congruence|by apply Hno in Heq].
    + split; [intros [= <-]; auto|]. intros (_ & Ho & [<-|Heq]); [done|by apply Hno in Heq].
Qed.

Lemma decode_line_spec line prefix field b :
  decode_kmstool_line base64_error line prefix field = Ok b <->
  exists e, line = prefix +:+ e /\ e <> EmptyString /\ base64_decode e = Some b.
Proof.
  unfold decode_kmstool_line. split.
  - intros (e & He%ok_or_Ok%strip_prefix_Some & Hd)%bind_Ok.
    unfold is_empty in Hd. case_bool_decide; [done|]. apply ok_or_Ok in Hd. eauto.
  - intros (e & He%strip_prefix_Some & Hne & Hd). rewrite He. cbn.
    unfold is_empty. rewrite bool_decide_false by done. by rewrite Hd.
Qed.
End kmstool_facts.

(** ** The random stream *)
Section rng_facts.
Context (block : nat -> bytes) (Hblock : forall n, length (block n) = 1024).

Definition stream (n : nat) : bytes := concat (block <$> seq 0 n).

Lemma stream_S n : stream (S n) = stream n ++ block n.
Proof. unfold stream. rewrite seq_S, fmap_app, concat_app. cbn. by rewrite app_nil_r. Qed.

(** What has been handed out, followed by the buffer, is the stream drawn. *)
Definition rng_inv (used : bytes) (self : CustomRng) : Prop :=
  used ++ buffer self = stream (blocks_drawn self).

Lemma fill_until_spec fuel n used self :
  rng_inv used self -> n <= length (buffer self) + fuel * 1024 ->
  exists self', fill_until block fuel n self = Some self' /\ rng_inv used self' /\
    n <= length (buffer self').
Proof.
  revert self. induction fuel as [|fuel IH]; intros self Hinv Hn; cbn [fill_until].
  - rewrite decide_False by lia. exists self. split_and!; [done..|lia].
  - case_decide as Hlt; [|exists self; split_and!; [done..|lia]].
    apply IH.
    + unfold rng_inv, fill_buffer in *. cbn [buffer blocks_drawn]. by rewrite stream_S, app_assoc, Hinv.
    + unfold fill_buffer. cbn. rewrite length_app, Hblock. lia.
Qed.

Lemma fill_bytes_spec n used self :
  rng_inv used self ->
  exists out self', fill_bytes block n self = Some (out, self') /\ length out = n /\
    rng_inv (used ++ out) self'.
Proof.
  intros Hinv. destruct (fill_until_spec (S (n / 1024)) n used self Hinv) as (s & Hf & Hs & Hn).
  - pose proof (Nat.div_mod n 1024 ltac:(lia)). pose proof (Nat.mod_upper_bound n 1024 ltac:(lia)). lia.
  - exists (take n (buffer s)), (MkRng (drop n (buffer s)) (blocks_drawn s)).
    unfold fill_bytes. rewrite Hf. split_and!; [done|rewrite length_take; lia|].
    unfold rng_inv in *. cbn. by rewrite <- app_assoc, take_drop.
Qed.

Fixpoint reads (ns : list nat) (self : CustomRng) : option (list bytes * CustomRng) :=
  match ns with
  | [] => Some ([], self)
  | n :: ns =>
      '(out, self) ← fill_bytes block n self;
      '(outs, self) ← reads ns self;
      Some (out :: outs, self)
  end.

Lemma reads_spec ns used self :
  rng_inv used self ->
  exists outs self', reads ns self = Some (outs, self') /\ length <$> outs = ns /\
    rng_inv (used ++ concat outs) self'.
Proof.
  revert used self. induction ns as [|n ns IH]; intros used self Hinv.
  - exists [], self. split_and!; [done..|]. by rewrite app_nil_r.
  - destruct (fill_bytes_spec n used self Hinv) as (out & s1 & Hf & Hl & Hi1).
    destruct (IH _ _ Hi1) as (outs & s2 & Hr & Hls & Hi2).
    exists (out :: outs), s2. cbn [reads]. rewrite Hf. cbn [mbind option_bind]. rewrite Hr. cbn. split_and!; [done|by f_equal|].
    by rewrite app_assoc.
Qed.
End rng_facts.

Lemma with_key_exact {cr : Crypto} {laws : CryptoLaws cr} nonce k m c :
  length k = AES_256_KEY_LENGTH -> length nonce = 12 ->
  (encrypt_with_key nonce (MkSecretKey k) m = Ok c <->
     decrypt_with_key (MkSecretKey k) c = Ok m /\ take 12 c = nonce).
Proof.
  intros Hk Hn. unfold encrypt_with_key, decrypt_with_key, gcm_new_from_slice. cbn [secret_bytes].
  rewrite !decide_True by done. cbn. split.
  - destruct (seal aes_256_gcm k nonce [] m) as [ct|] eqn:Hs; [|done]. cbn. intros [= <-].
    rewrite length_app, decide_False by lia.
    rewrite drop_app_length', take_app_length' by done. split; [|done].
    apply ok_or_Ok. by apply (open_seal _ gcm_ok).
  - intros [Hd Ht]. case_decide as Hlen; [done|]. apply ok_or_Ok in Hd.
    rewrite Ht in Hd. apply (seal_open _ gcm_ok) in Hd. rewrite Hd. cbn.
    by rewrite <- Ht, take_drop.
Qed.

(** ** Properties *)
Section properties.
Context {cr : Crypto} {laws : CryptoLaws cr}.

(** The envelope is exact: a byte string decrypts to [m] under a key and
    associated data if and only if it is the encryption of [m] under them with
    the nonce it starts with.  So encryption round trips, and whatever was not
    produced by encryption with the same key and context is refused. *)
Theorem envelope_exact nonce k m aad c :
  length k = AES_256_KEY_LENGTH -> length nonce = 12 ->
  (encrypt_aead_v1 nonce k m aad = Ok c <-> decrypt_aead_v1 k c aad = Ok m /\ take 12 c = nonce) /\
  (encrypt_with_key nonce (MkSecretKey k) m = Ok c <->
     decrypt_with_key (MkSecretKey k) c = Ok m /\ take 12 c = nonce).
Proof. intros Hk Hn. split; [by apply aead_v1_exact|by apply with_key_exact]. Qed.

(** The parser of the KMS tool's key-generation output accepts exactly the
    two lines of that command, with or without one final newline, no carriage
    return, both fields non-empty Base64 and the plaintext key of 32 bytes. *)
Theorem kmstool_genkey_exact base64_error show out key enc :
  parse_kmstool_genkey base64_error show out = Ok (MkGenKey key enc) <->
  exists c p tail, out = KMSTOOL_CIPHERTEXT_PREFIX +:+ c +:+ nl +:+ KMSTOOL_PLAINTEXT_PREFIX +:+ p +:+ tail /\
    (tail = EmptyString \/ tail = nl) /\ c <> EmptyString /\ p <> EmptyString /\
    contains_char newline c = false /\ contains_char newline p = false /\
    contains_char carriage_return (c +:+ p) = false /\
    base64_decode c = Some enc /\ base64_decode p = Some key /\ length key = AES_256_KEY_LENGTH.
Proof.
  unfold parse_kmstool_genkey. split.
  - intros (o & Ho & Hp)%bind_Ok. apply strip_newline_spec in Ho as (Hcr & Hend & Htail).
    pose proof (join_split newline o) as Hjoin.
    pose proof (split_char_free newline o) as Hfree.
    destruct (split_char newline o) as [|l1 [|l2 [|l3 ls]]]; cbn in Hp; try done.
    apply bind_Ok in Hp as (e & (c & Hl1 & Hc & Hdc)%decode_line_spec & Hp).
    apply bind_Ok in Hp as (k & (p & Hl2 & Hp2 & Hdp)%decode_line_spec & Hp).
    unfold validate_aes_256_key_length in Hp. case_decide as Hlen; cbn in Hp; [|done].
    injection Hp as -> ->. cbn in Hjoin. subst l1 l2.
    pose proof (Hfree _ ltac:(left)) as Hf1. pose proof (Hfree _ ltac:(right; left)) as Hf2.
    rewrite contains_char_app in Hf1, Hf2. cbn [contains_char] in Hf1, Hf2.
    exists c, p, (if decide (out = o) then EmptyString else nl).
    assert (out = o +:+ (if decide (out = o) then EmptyString else nl)) as Hout.
    { case_decide; [by rewrite string_app_nil_r|]. destruct Htail; congruence. }
    assert (out = KMSTOOL_CIPHERTEXT_PREFIX +:+ c +:+ nl +:+ KMSTOOL_PLAINTEXT_PREFIX +:+ p +:+
      (if decide (out = o) then EmptyString else nl)) as Hout2.
    { rewrite Hout at 1. rewrite <- Hjoin at 1. unfold nl at 2. by rewrite !string_app_assoc. }
    split_and!; try done; [case_decide; auto|].
    rewrite Hout2, !contains_char_app in Hcr. rewrite contains_char_app.
    destruct (contains_char carriage_return c), (contains_char carriage_return p); cbn in Hcr; try done;
      rewrite ?orb_true_r in Hcr; try done.
  - intros (c & p & tail & -> & Htail & Hc & Hp & Hnc & Hnp & Hcr & Hdc & Hdp & Hlen).
    set (line2 := KMSTOOL_PLAINTEXT_PREFIX +:+ p).
    assert (strip_single_trailing_newline
      (KMSTOOL_CIPHERTEXT_PREFIX +:+ c +:+ nl +:+ KMSTOOL_PLAINTEXT_PREFIX +:+ p +:+ tail) "genkey"
      = Ok ((KMSTOOL_CIPHERTEXT_PREFIX +:+ c) +:+ nl +:+ line2)) as ->.
    { apply strip_newline_spec. rewrite contains_char_app in Hcr. apply orb_false_iff in Hcr as [Hcr1 Hcr2].
      split_and!.
      - rewrite !contains_char_app, Hcr1, Hcr2. by destruct Htail as [-> | ->].
      - unfold line2. rewrite !ends_with_char_app by (by destruct p).
        apply not_true_is_false. intros He%ends_with_contains. congruence.
      - unfold line2. destruct Htail as [-> | ->]; rewrite ?string_app_nil_r, !string_app_assoc; auto. }
    change (nl +:+ line2) with (String newline line2).
    cbn [mbind outcome_bind]. rewrite (split_char_app newline (KMSTOOL_CIPHERTEXT_PREFIX +:+ c) line2) by
      (rewrite contains_char_app, Hnc; done).
    rewrite (split_char_none newline line2) by (unfold line2; rewrite contains_char_app, Hnp; done).
    cbn [mbind outcome_bind].
    assert (decode_kmstool_line base64_error (KMSTOOL_CIPHERTEXT_PREFIX +:+ c)
      KMSTOOL_CIPHERTEXT_PREFIX "encrypted key" = Ok enc) as -> by (apply decode_line_spec; eauto).
    assert (decode_kmstool_line base64_error line2 KMSTOOL_PLAINTEXT_PREFIX "plaintext key" = Ok key)
      as -> by (apply decode_line_spec; exists p; auto).
    cbn [mbind outcome_bind]. unfold validate_aes_256_key_length. by rewrite decide_True.
Qed.

(** Reading from the buffered generator always returns the requested
    number of bytes, and consecutive reads hand out consecutive bytes of the
    operating system's stream: none is used twice, none is skipped. *)
Theorem rng_reads_are_the_stream block ns :
  (forall n, length (block n) = 1024) ->
  exists outs self, reads block ns rng_new = Some (outs, self) /\ length <$> outs = ns /\
    concat outs ++ buffer self = stream block (blocks_drawn self).
Proof. intros Hb. by apply (reads_spec block Hb ns [] rng_new). Qed.
End properties.

(** ** Witnesses *)
Section witnesses.
#[local] Existing Instances ToyCrypto.toy ToyCrypto.toy_laws.

Definition demo_key : bytes := replicate 32 Byte.x07.
Definition demo_nonce : bytes := replicate 12 Byte.x01.

Lemma envelope_exact_witness :
  (encrypt_aead_v1 demo_nonce demo_key [Byte.x41] [] =
     Ok (demo_nonce ++ [Byte.x41] ++ ToyCrypto.tag demo_key demo_nonce []) <->
   decrypt_aead_v1 demo_key (demo_nonce ++ [Byte.x41] ++ ToyCrypto.tag demo_key demo_nonce []) [] = Ok [Byte.x41]
     /\ take 12 (demo_nonce ++ [Byte.x41] ++ ToyCrypto.tag demo_key demo_nonce []) = demo_nonce) /\
  (encrypt_with_key demo_nonce (MkSecretKey demo_key) [Byte.x41] =
     Ok (demo_nonce ++ [Byte.x41] ++ ToyCrypto.tag demo_key demo_nonce []) <->
   decrypt_with_key (MkSecretKey demo_key)
     (demo_nonce ++ [Byte.x41] ++ ToyCrypto.tag demo_key demo_nonce []) = Ok [Byte.x41]
     /\ take 12 (demo_nonce ++ [Byte.x41] ++ ToyCrypto.tag demo_key demo_nonce []) = demo_nonce).
Proof. apply (envelope_exact (laws := ToyCrypto.toy_laws)); reflexivity. Defined.

Lemma rng_reads_are_the_stream_witness :
  exists outs self, reads (fun _ => replicate 1024 Byte.x2a) [32; 2000; 4] rng_new = Some (outs, self) /\
    length <$> outs = [32; 2000; 4] /\
    concat outs ++ buffer self = stream (fun _ => replicate 1024 Byte.x2a) (blocks_drawn self).
Proof. apply rng_reads_are_the_stream. intros n. apply length_replicate. Defined.
End witnesses.

End Encrypt.
