(* ===== verification/Json.v ===== *)
(** * JSON values ([serde_json::Value])

    The constructors of [serde_json::Value] and the accessors and builders the
    program uses.  An object is the list of its members; [get] finds a member
    by name and an assignment replaces it or adds it.  Numbers are integers,
    or 64-bit floats in the format of [SpecFloat]. *)

From Stdlib Require Export Floats.SpecFloat.
From S2P Require Import Prelude Text.

Inductive number := NInt (z : Z) | NFloat (f : spec_float).

Inductive Value :=
| Null
| Bool (b : bool)
| Number (n : number)
| Str (s : string)
| Array (items : list Value)
| Object (members : list (string * Value)).

(** [Value::get] with a name. *)
Fixpoint member (name : string) (members : list (string * Value)) : option Value :=
  match members with
  | [] => None
  | (name', v) :: members => if decide (name = name') then Some v else member name members
  end.
Definition get (name : string) (v : Value) : option Value :=
  match v with Object members => member name members | _ => None end.

Definition as_str (v : Value) : option string := match v with Str s => Some s | _ => None end.
Definition as_bool (v : Value) : option bool := match v with Bool b => Some b | _ => None end.
Definition as_array (v : Value) : option (list Value) := match v with Array l => Some l | _ => None end.
Definition as_object (v : Value) : option (list (string * Value)) :=
  match v with Object l => Some l | _ => None end.
Definition as_i64 (v : Value) : option Z :=
  match v with
  | Number (NInt z) => if decide (- 2 ^ 63 <= z < 2 ^ 63)%Z then Some z else None
  | _ => None
  end.
Definition as_u64 (v : Value) : option Z :=
  match v with
  | Number (NInt z) => if decide (0 <= z < 2 ^ 64)%Z then Some z else None
  | _ => None
  end.
Definition is_null (v : Value) : bool := match v with Null => true | _ => false end.

(** [value[name] = v] and [Map::insert] on an object. *)
Fixpoint set_member (name : string) (v : Value) (members : list (string * Value)) : list (string * Value) :=
  match members with
  | [] => [(name, v)]
  | (name', v') :: members =>
      if decide (name = name') then (name', v) :: members else (name', v') :: set_member name v members
  end.
Definition set (name : string) (v : Value) (o : Value) : Value :=
  match o with Object members => Object (set_member name v members) | _ => o end.

(** [Map::remove]. *)
Fixpoint del_member (name : string) (members : list (string * Value)) : list (string * Value) :=
  match members with
  | [] => []
  | (name', v) :: members => if decide (name = name') then members else (name', v) :: del_member name members
  end.

Definition strs (l : list string) : Value := Array (Str <$> l).
Definition int (z : Z) : Value := Number (NInt z).

Lemma member_set_eq name v members : member name (set_member name v members) = Some v.
Proof.
  induction members as [|[n w] members IH]; cbn; [by rewrite decide_True|].
  case_decide; cbn; [by rewrite decide_True|by rewrite decide_False].
Qed.

Lemma member_set_ne name name' v members :
  name <> name' -> member name (set_member name' v members) = member name members.
Proof.
  intros Hne. induction members as [|[n w] members IH]; cbn; [by rewrite decide_False|].
  repeat (case_decide; cbn); simplify_eq; try done.
Qed.

(** The names of an object are distinct, and stay so. *)
Lemma member_None name members : member name members = None <-> (name ∉ members.*1).
Proof.
  induction members as [|[n v] members IH]; cbn; [split; [intros _; apply not_elem_of_nil|done]|].
  rewrite not_elem_of_cons, <- IH. case_decide; [subst; split; [done|by intros []]|by split; [|intros []]].
Qed.
Lemma member_del_ne name name' members :
  name <> name' -> member name (del_member name' members) = member name members.
Proof.
  intros Hne. induction members as [|[n w] members IH]; cbn; [done|].
  repeat (case_decide; cbn); simplify_eq; try done.
Qed.
Lemma elem_of_del name name' members : name ∈ (del_member name' members).*1 -> name ∈ members.*1.
Proof.
  induction members as [|[n w] members IH]; cbn; [done|]. case_decide; cbn; rewrite !elem_of_cons; tauto.
Qed.
Lemma del_member_NoDup name members : NoDup members.*1 -> NoDup (del_member name members).*1.
Proof.
  induction members as [|[n w] members IH]; cbn; [done|]. intros [Hn Hm]%NoDup_cons.
  case_decide; cbn; [done|]. apply NoDup_cons. split; [by intros ?%elem_of_del|by apply IH].
Qed.
Lemma member_del_eq name members : NoDup members.*1 -> member name (del_member name members) = None.
Proof.
  induction members as [|[n w] members IH]; cbn; [done|]. intros [Hn Hm]%NoDup_cons.
  case_decide; [subst; by apply member_None|]. cbn. rewrite decide_False by done. by apply IH.
Qed.
Lemma set_member_NoDup name v members : NoDup members.*1 -> NoDup (set_member name v members).*1.
Proof.
  assert (forall n l, n ∈ (set_member name v l).*1 -> n = name \/ n ∈ l.*1) as Hin.
  { intros n l. induction l as [|[n' w] l IH]; cbn; [by rewrite elem_of_cons|].
    case_decide; cbn; rewrite !elem_of_cons; [tauto|]. intros [?|?]; [tauto|]. destruct (IH H0); tauto. }
  induction members as [|[n w] members IH]; cbn; [intros; apply NoDup_singleton|]. intros [Hn Hm]%NoDup_cons.
  case_decide; cbn; [by apply NoDup_cons|]. apply NoDup_cons. split; [|by apply IH].
  by intros [->|?]%Hin.
Qed.

(** [serde_json::from_str] and [serde_json::to_string] on values. *)
Class SerdeJson := {
  from_str : string -> option Value;
  to_string : Value -> string;
}.
