(* ===== verification/SeedWrapping.v ===== *)
(** * [seed_wrapping.rs]: wrapping a user's seed under its credentials

    A user's seed is stored once per credential, sealed under a key derived
    from the enclave's root key and the credential's authentication binding,
    with the owner, the project, the kind of credential and the binding as
    associated data.  Bindings and lookup hashes are MACs of canonical facts
    under purpose-specific keys. *)

From S2P Require Import Prelude Text Crypto Encrypt.
Import Encrypt.

Module SeedWrap.

Definition AUTH_BINDING_MAC_INFO : bytes := as_bytes "os.auth-binding-mac.v1".
Definition CREDENTIAL_LOOKUP_MAC_INFO : bytes := as_bytes "os.credential-lookup-mac.v1".
Definition PASSWORD_RESET_CODE_MAC_INFO : bytes := as_bytes "os.password-reset-code-mac.v1".
Definition SEED_WRAP_ROOT_INFO : bytes := as_bytes "os.seed-wrap-root.v1".
Definition SEED_WRAP_AEAD_KEY_INFO : bytes := as_bytes "os.seed-wrap-aead-key.v1".

Definition PASSWORD_AUTH_BINDING_DOMAIN : string := "os.password-auth-binding.v1".
Definition PASSWORD_LOOKUP_DOMAIN : string := "os.password-lookup.v1".
Definition PASSWORD_RESET_CODE_DOMAIN : string := "os.password-reset-code.v1".
Definition OAUTH_AUTH_BINDING_DOMAIN : string := "os.oauth-auth-binding.v1".
Definition OAUTH_LOOKUP_DOMAIN : string := "os.oauth-lookup.v1".
Definition SEED_WRAP_DOMAIN : string := "os.seed-wrap.v1".

Definition SEED_WRAP_VERSION_V1 : Z := 1.

Inductive CredentialKind := Password | OAuth.
#[export] Instance CredentialKind_eq_dec : EqDecision CredentialKind.
Proof. solve_decision. Defined.

Definition CredentialKind_as_str (k : CredentialKind) : string :=
  match k with Password => "password" | OAuth => "oauth" end.

Inductive PasswordLoginIdentifierKind := Email | GuestUuid.
Definition PasswordLoginIdentifierKind_as_str (k : PasswordLoginIdentifierKind) : string :=
  match k with Email => "email" | GuestUuid => "guest_uuid" end.

Definition normalize_email_login_identifier (email : string) : string :=
  to_ascii_lowercase (trim email).
Definition normalize_guest_login_identifier (uuid_to_string : Uuid -> string) (user_uuid : Uuid) : string :=
  uuid_to_string user_uuid.

Record AuthBinding := MkBinding { binding_bytes : bytes }.
Record CredentialLookupHash := MkLookup { lookup_bytes : bytes }.

Section seed.
Context `{Crypto}.

Definition hmac_with_root_domain_key (root_key key_info message : bytes) : outcome EncryptError bytes :=
  mac_key ← derive_key root_key key_info;
  Ok (hmac_sha256 mac_key message).

Definition compute_password_auth_binding (root_key : bytes) (project_id : Z) (user_uuid : Uuid)
    (login_identifier_kind : PasswordLoginIdentifierKind)
    (normalized_login_identifier decrypted_password_verifier : string) : outcome EncryptError AuthBinding :=
  facts ← lift (canonical_new PASSWORD_AUTH_BINDING_DOMAIN);
  facts ← lift (append_i32 project_id facts);
  facts ← lift (append_uuid user_uuid facts);
  facts ← lift (append_str (PasswordLoginIdentifierKind_as_str login_identifier_kind) facts);
  facts ← lift (append_str normalized_login_identifier facts);
  facts ← lift (append_str decrypted_password_verifier facts);
  MkBinding <$> hmac_with_root_domain_key root_key AUTH_BINDING_MAC_INFO (into_bytes facts).

Definition compute_oauth_auth_binding (root_key : bytes) (project_id : Z) (user_uuid : Uuid)
    (provider provider_user_id : string) : outcome EncryptError AuthBinding :=
  facts ← lift (canonical_new OAUTH_AUTH_BINDING_DOMAIN);
  facts ← lift (append_i32 project_id facts);
  facts ← lift (append_uuid user_uuid facts);
  facts ← lift (append_str provider facts);
  facts ← lift (append_str provider_user_id facts);
  MkBinding <$> hmac_with_root_domain_key root_key AUTH_BINDING_MAC_INFO (into_bytes facts).

Definition password_credential_lookup_hash (root_key : bytes) (project_id : Z) (user_uuid : Uuid)
    : outcome EncryptError CredentialLookupHash :=
  facts ← lift (canonical_new PASSWORD_LOOKUP_DOMAIN);
  facts ← lift (append_i32 project_id facts);
  facts ← lift (append_uuid user_uuid facts);
  MkLookup <$> hmac_with_root_domain_key root_key CREDENTIAL_LOOKUP_MAC_INFO (into_bytes facts).

Definition oauth_credential_lookup_hash (root_key : bytes) (project_id : Z) (user_uuid : Uuid)
    (provider provider_user_id : string) : outcome EncryptError CredentialLookupHash :=
  facts ← lift (canonical_new OAUTH_LOOKUP_DOMAIN);
  facts ← lift (append_i32 project_id facts);
  facts ← lift (append_uuid user_uuid facts);
  facts ← lift (append_str provider facts);
  facts ← lift (append_str provider_user_id facts);
  MkLookup <$> hmac_with_root_domain_key root_key CREDENTIAL_LOOKUP_MAC_INFO (into_bytes facts).

Definition password_reset_code_mac (root_key : bytes) (project_id : Z) (user_uuid : Uuid)
    (alphanumeric_code : string) : outcome EncryptError bytes :=
  facts ← lift (canonical_new PASSWORD_RESET_CODE_DOMAIN);
  facts ← lift (append_i32 project_id facts);
  facts ← lift (append_uuid user_uuid facts);
  facts ← lift (append_str alphanumeric_code facts);
  hmac_with_root_domain_key root_key PASSWORD_RESET_CODE_MAC_INFO (into_bytes facts).

Definition derive_seed_wrap_aead_key (root_key : bytes) (auth_binding : AuthBinding)
    : outcome EncryptError bytes :=
  seed_wrap_root_key ← derive_key root_key SEED_WRAP_ROOT_INFO;
  derive_key_with_salt seed_wrap_root_key (binding_bytes auth_binding) SEED_WRAP_AEAD_KEY_INFO.

Definition seed_wrap_aad_v1 (user_uuid : Uuid) (project_id : Z) (credential_kind : CredentialKind)
    (auth_binding : AuthBinding) : outcome Empty_set bytes :=
  aad ← canonical_new SEED_WRAP_DOMAIN;
  aad ← append_uuid user_uuid aad;
  aad ← append_i32 project_id aad;
  aad ← append_str (CredentialKind_as_str credential_kind) aad;
  aad ← append_i16 SEED_WRAP_VERSION_V1 aad;
  aad ← append_bytes (binding_bytes auth_binding) aad;
  Ok (into_bytes aad).

Definition encrypt_seed_v1 (nonce root_key plaintext_seed : bytes) (user_uuid : Uuid) (project_id : Z)
    (credential_kind : CredentialKind) (auth_binding : AuthBinding) : outcome EncryptError bytes :=
  aead_key ← derive_seed_wrap_aead_key root_key auth_binding;
  aad ← lift (seed_wrap_aad_v1 user_uuid project_id credential_kind auth_binding);
  encrypt_aead_v1 nonce aead_key plaintext_seed aad.

Definition decrypt_seed_v1 (root_key encrypted_seed : bytes) (user_uuid : Uuid) (project_id : Z)
    (credential_kind : CredentialKind) (auth_binding : AuthBinding) : outcome EncryptError bytes :=
  aead_key ← derive_seed_wrap_aead_key root_key auth_binding;
  aad ← lift (seed_wrap_aad_v1 user_uuid project_id credential_kind auth_binding);
  decrypt_aead_v1 aead_key encrypted_seed aad.
End seed.

#[local] Arguments append_field : simpl never.
#[local] Arguments be_bytes : simpl never.
#[local] Arguments as_bytes : simpl never.

(** ** The facts each MAC authenticates, as fields *)
Definition str_field (s : string) : byte * bytes := (Byte.x73, as_bytes s).
Definition i32_field (z : Z) : byte * bytes := (Byte.x49, be_bytes 4 z).
Definition uuid_field (u : Uuid) : byte * bytes := (Byte.x75, u).

Inductive Facts :=
| PasswordFacts (project_id : Z) (user : Uuid) (kind : PasswordLoginIdentifierKind)
    (identifier verifier : string)
| OAuthFacts (project_id : Z) (user : Uuid) (provider provider_user_id : string).

Definition facts_fields (f : Facts) : list (byte * bytes) :=
  match f with
  | PasswordFacts p u k i v =>
      [str_field PASSWORD_AUTH_BINDING_DOMAIN; i32_field p; uuid_field u;
       str_field (PasswordLoginIdentifierKind_as_str k); str_field i; str_field v]
  | OAuthFacts p u pr i =>
      [str_field OAUTH_AUTH_BINDING_DOMAIN; i32_field p; uuid_field u; str_field pr; str_field i]
  end.

Definition is_i32 (z : Z) : Prop := (i32_min <= z <= i32_max)%Z.
Definition facts_project (f : Facts) : Z :=
  match f with PasswordFacts p _ _ _ _ | OAuthFacts p _ _ _ => p end.

Definition auth_binding `{Crypto} (root_key : bytes) (f : Facts) : outcome EncryptError AuthBinding :=
  match f with
  | PasswordFacts p u k i v => compute_password_auth_binding root_key p u k i v
  | OAuthFacts p u pr i => compute_oauth_auth_binding root_key p u pr i
  end.

Lemma i32_field_inj z z' : is_i32 z -> is_i32 z' -> i32_field z = i32_field z' -> z = z'.
Proof.
  unfold is_i32, i32_min, i32_max, i32_field. intros Hz Hz'.
  remember (be_bytes 4 z) as a eqn:Ha. remember (be_bytes 4 z') as b eqn:Hb. intros [= Heq].
  rewrite Ha, Hb in Heq. apply (be_bytes_inj 4 (- 2 ^ 31)) in Heq; [done|lia..].
Qed.

Lemma str_field_inj s s' : str_field s = str_field s' -> s = s'.
Proof. unfold str_field. intros [= Heq]. by apply as_bytes_inj. Qed.

Lemma facts_fields_inj f f' :
  is_i32 (facts_project f) -> is_i32 (facts_project f') -> facts_fields f = facts_fields f' -> f = f'.
Proof.
  destruct f as [p u k i v|p u pr i], f' as [p' u' k' i' v'|p' u' pr' i'];
    cbn [facts_fields facts_project]; intros Hp Hp' Heq; try discriminate Heq;
    repeat match goal with
    | H : _ :: _ = _ :: _ |- _ =>
        let H1 := fresh in let H2 := fresh in
        pose proof (f_equal head H) as H1; pose proof (f_equal tail H) as H2; clear H;
        cbn [head tail] in H1, H2; apply (inj Some) in H1
    end;
    repeat match goal with
    | H : str_field _ = str_field _ |- _ => apply str_field_inj in H
    | H : i32_field _ = i32_field _ |- _ => apply i32_field_inj in H; [|done..]
    | H : uuid_field _ = uuid_field _ |- _ => unfold uuid_field in H
    end; simplify_eq; [destruct k, k'|]; done.
Qed.

(** The message of a binding's MAC is the code of its facts. *)
Lemma append_step tag value fs self self' r :
  append_field tag value self = Ok self' -> append_all fs self' = r ->
  append_all ((tag, value) :: fs) self = r.
Proof. intros H. cbn. by rewrite H. Qed.

Lemma auth_binding_Ok `{Crypto} root_key f b :
  auth_binding root_key f = Ok b ->
  exists c mac_key, append_all (facts_fields f) canonical_default = Ok c /\
    derive_key root_key AUTH_BINDING_MAC_INFO = Ok mac_key /\
    b = MkBinding (hmac_sha256 mac_key (into_bytes c)).
Proof.
  destruct f as [p u k i v|p u pr i]; cbn [auth_binding];
    unfold compute_password_auth_binding, compute_oauth_auth_binding, hmac_with_root_domain_key,
      canonical_new; intros Hb; inv_ok; do 2 eexists; (split; [|split; [eassumption|done]]);
    unfold facts_fields, str_field, i32_field, uuid_field;
    repeat (eapply append_step; [eassumption|]); done.
Qed.

Definition aad_fields (u : Uuid) (p : Z) (k : CredentialKind) (b : AuthBinding) : list (byte * bytes) :=
  [str_field SEED_WRAP_DOMAIN; uuid_field u; i32_field p; str_field (CredentialKind_as_str k);
   (Byte.x69, be_bytes 2 SEED_WRAP_VERSION_V1); (Byte.x62, binding_bytes b)].

Lemma seed_wrap_aad_fields u p k b aad :
  seed_wrap_aad_v1 u p k b = Ok aad ->
  exists c, append_all (aad_fields u p k b) canonical_default = Ok c /\ aad = into_bytes c.
Proof.
  unfold seed_wrap_aad_v1, canonical_new. intros Ha. inv_ok.
  eexists. split; [|reflexivity].
  unfold aad_fields, str_field, i32_field, uuid_field.
  repeat (eapply append_step; [eassumption|]). done.
Qed.

Lemma append_all_into_bytes_inj fs gs c c' :
  append_all fs canonical_default = Ok c -> append_all gs canonical_default = Ok c' ->
  into_bytes c = into_bytes c' -> fs = gs.
Proof.
  destruct c as [x], c' as [y]. cbn. intros Hf Hg ->. by eapply append_all_inj.
Qed.

Lemma seed_wrap_aad_inj u p k b u' p' k' b' aad :
  is_i32 p -> is_i32 p' ->
  seed_wrap_aad_v1 u p k b = Ok aad -> seed_wrap_aad_v1 u' p' k' b' = Ok aad ->
  u = u' /\ p = p' /\ k = k' /\ b = b'.
Proof.
  intros Hp Hp' (c & Hc & Ha)%seed_wrap_aad_fields (c' & Hc' & Ha')%seed_wrap_aad_fields.
  rewrite Ha in Ha'. pose proof (append_all_into_bytes_inj _ _ _ _ Hc Hc' Ha') as Heq.
  unfold aad_fields in Heq.
  remember (i32_field p) as fp eqn:Hfp. remember (i32_field p') as fp' eqn:Hfp'.
  remember (str_field (CredentialKind_as_str k)) as fk eqn:Hfk.
  remember (str_field (CredentialKind_as_str k')) as fk' eqn:Hfk'.
  injection Heq as -> -> -> Hb. rewrite Hfp' in Hfp. rewrite Hfk' in Hfk.
  apply i32_field_inj in Hfp; [|done..]. apply str_field_inj in Hfk.
  destruct b as [x], b' as [y]. cbn in Hb. subst y. split_and!; try done.
  by destruct k, k'.
Qed.

(** Bindings of different facts differ, unless HMAC collides. *)
Lemma auth_binding_facts `{Crypto} root_key f f' b :
  is_i32 (facts_project f) -> is_i32 (facts_project f') ->
  auth_binding root_key f = Ok b -> auth_binding root_key f' = Ok b -> f = f' \/ mac_collision.
Proof.
  intros Hp Hp' (c & k & Hc & Hk & ->)%auth_binding_Ok (c' & k' & Hc' & Hk' & Hb)%auth_binding_Ok.
  rewrite Hk in Hk'. injection Hk' as <-. injection Hb as Hb.
  destruct (decide (into_bytes c = into_bytes c')) as [Heq|Hne].
  - left. apply facts_fields_inj; [done..|]. by eapply append_all_into_bytes_inj.
  - right. by exists k, (into_bytes c), (into_bytes c').
Qed.

Lemma derive_key_length `{cr : Crypto} `{!CryptoLaws cr} salt root info k :
  derive_key_with_optional_salt root salt info = Ok k -> length k = AES_256_KEY_LENGTH.
Proof.
  unfold derive_key_with_optional_salt. intros Hk%ok_or_Ok.
  destruct (hkdf_length salt root info) as (k' & Hk' & Hl). unfold AES_256_KEY_LENGTH. congruence.
Qed.

(** Two contexts under which one ciphertext unwraps. *)
Lemma unwrap_contexts {cr : Crypto} {laws : CryptoLaws cr} nonce root_key seed user project kind binding c
    root_key' user' project' kind' binding' seed' :
  is_i32 project -> is_i32 project' -> length nonce = 12 ->
  encrypt_seed_v1 nonce root_key seed user project kind binding = Ok c ->
  decrypt_seed_v1 root_key' c user' project' kind' binding' = Ok seed' ->
  (user' = user /\ project' = project /\ kind' = kind /\ binding' = binding) \/
  aead_confusion aes_256_gcm.
Proof.
  intros Hp Hp' Hn He Hd. unfold encrypt_seed_v1, decrypt_seed_v1 in *.
  apply bind_Ok in He as (k & Hk & He). apply bind_Ok in He as (aad & Haad & He).
  apply bind_Ok in Hd as (k' & Hk' & Hd). apply bind_Ok in Hd as (aad' & Haad' & Hd).
  apply lift_Ok in Haad, Haad'.
  destruct (decide (aad' = aad)) as [->|Hne].
  - left. destruct (seed_wrap_aad_inj _ _ _ _ _ _ _ _ _ Hp Hp' Haad Haad') as (-> & -> & -> & ->). done.
  - right. unfold encrypt_aead_v1, decrypt_aead_v1 in *.
    apply bind_Ok in He as (ck & Hck%ok_or_Ok & He). apply bind_Ok in He as (ct & Hs%ok_or_Ok & He).
    injection He as <-. rewrite length_app, decide_False in Hd by lia.
    apply bind_Ok in Hd as (ck' & Hck'%ok_or_Ok & Ho%ok_or_Ok).
    rewrite take_app_length', drop_app_length' in Ho by done.
    apply (seal_open _ gcm_ok) in Ho.
    exists ck, ck', nonce, aad, aad', seed, seed', ct. split_and!; [congruence|done..].
Qed.

(** ** Properties *)
Section properties.
Context {cr : Crypto} {laws : CryptoLaws cr}.

(** Unwrapping with the same owner, project, credential kind and binding
    gives back the seed that was wrapped. *)
Theorem seed_wrap_roundtrip nonce root_key seed user project kind binding c :
  length nonce = 12 ->
  encrypt_seed_v1 nonce root_key seed user project kind binding = Ok c ->
  decrypt_seed_v1 root_key c user project kind binding = Ok seed.
Proof.
  intros Hn He. unfold encrypt_seed_v1, decrypt_seed_v1 in *.
  apply bind_Ok in He as (k & Hk & He). apply bind_Ok in He as (aad & Haad & He).
  rewrite Hk. cbn [mbind outcome_bind]. rewrite Haad. cbn [mbind outcome_bind].
  apply (aead_v1_exact nonce) in He as [Hd _]; [done| |done].
  unfold derive_seed_wrap_aead_key in Hk. apply bind_Ok in Hk as (k0 & _ & Hk).
  by eapply derive_key_length.
Qed.

(** C25. A wrapped seed belongs to its context: if it unwraps for another
    owner, project, credential kind or binding, then one AES-GCM ciphertext is
    valid under two different keys or associated data. *)
Theorem seed_wrap_context_bound nonce root_key seed user project kind binding c
    root_key' user' project' kind' binding' seed' :
  is_i32 project -> is_i32 project' -> length nonce = 12 ->
  encrypt_seed_v1 nonce root_key seed user project kind binding = Ok c ->
  decrypt_seed_v1 root_key' c user' project' kind' binding' = Ok seed' ->
  (user' = user /\ project' = project /\ kind' = kind /\ binding' = binding) \/
  aead_confusion aes_256_gcm.
Proof. apply unwrap_contexts. Qed.

(** Authentication bindings separate their facts: a password and an OAuth
    account, two users, two projects, two login identifiers, two verifiers or
    two provider accounts never share a binding under one root key, unless
    HMAC-SHA256 collides. *)
Theorem auth_binding_separates root_key f f' b :
  is_i32 (facts_project f) -> is_i32 (facts_project f') ->
  auth_binding root_key f = Ok b -> auth_binding root_key f' = Ok b -> f = f' \/ mac_collision.
Proof. apply auth_binding_facts. Qed.
End properties.

(** ** Witnesses *)
Section witnesses.
#[local] Existing Instances ToyCrypto.toy ToyCrypto.toy_laws.

Definition root : bytes := replicate 32 Byte.x07.
Definition nonce : bytes := replicate 12 Byte.x01.
Definition alice : Uuid := replicate 16 Byte.x0a.
Definition binding : AuthBinding := MkBinding (replicate 32 Byte.x0b).
Definition wrapped : bytes :=
  match encrypt_seed_v1 nonce root [Byte.x73] alice 5 Password binding with Ok c => c | _ => [] end.

Lemma seed_wrap_roundtrip_witness :
  decrypt_seed_v1 root wrapped alice 5 Password binding = Ok [Byte.x73].
Proof.
  apply (seed_wrap_roundtrip (laws := ToyCrypto.toy_laws) nonce); [reflexivity|].
  vm_compute. reflexivity.
Defined.

Lemma seed_wrap_context_bound_witness :
  (alice = alice /\ 5%Z = 5%Z /\ Password = Password /\ binding = binding) \/
  aead_confusion aes_256_gcm.
Proof.
  apply (seed_wrap_context_bound (laws := ToyCrypto.toy_laws) nonce root [Byte.x73] alice 5 Password
    binding wrapped root alice 5 Password binding [Byte.x73]).
  - vm_compute. split; discriminate.
  - vm_compute. split; discriminate.
  - reflexivity.
  - vm_compute. reflexivity.
  - vm_compute. reflexivity.
Defined.

Definition alice_facts : Facts := PasswordFacts 5 alice Email "alice@example.com" "$argon2id$".

Lemma auth_binding_separates_witness : alice_facts = alice_facts \/ mac_collision.
Proof.
  apply (auth_binding_separates root alice_facts alice_facts
    (match auth_binding root alice_facts with Ok b => b | _ => binding end)).
  - vm_compute. split; discriminate.
  - vm_compute. split; discriminate.
  - vm_compute. reflexivity.
  - vm_compute. reflexivity.
Defined.
End witnesses.

End SeedWrap.
