(* ===== verification/Sessions.v ===== *)
(** * Attested sessions: [main.rs], [web/attestation_routes.rs],
      [web/encryption_middleware.rs]

    A client fetches an attestation for a nonce, which leaves an ephemeral
    X25519 secret in the pending cache; exchanges keys once for that nonce,
    which stores a session key; and then sends requests encrypted under that
    key.  The state is the pending cache, the session cache and the session
    slots ([Maintenance.SecretState]); random values and the instants of the
    calls are arguments. *)

From stdpp Require Import gmultiset.
From S2P Require Import Prelude Text Crypto Clru Api BoundedTtlCache LeaseAwareCache Maintenance Encrypt.
Import Api Maintenance.

Module Sessions.

Definition MAX_ATTESTATION_NONCE_BYTES : nat := 512.
Definition MAX_PENDING_ATTESTATIONS : Z := 65536.
Definition PENDING_ATTESTATION_TTL : Z := secs (5 * 60).
Definition MAX_ENCRYPTION_SESSIONS : Z := 2097152.
Definition ENCRYPTION_SESSION_IDLE_TTL : Z := secs (65 * 60).
Definition MAX_ENCRYPTED_BODY_BYTES : Z := 50 * 1024 * 1024.

Record SessionState := MkSession { session_key : bytes }.
Record KeyExchangeRequest := MkKeyExchange { nonce : string; client_public_key : string }.
Record KeyExchangeResponse := MkKeyExchangeResponse {
  session_id : Encrypt.Uuid;
  encrypted_session_key : string;
}.

Section sessions.
Context {C1 C2 : Type} `{cr : Crypto}.
Context {clru1 : Clru C1 bytes (Bounded.TimedEntry dh_secret)} {clru2 : Clru C2 Encrypt.Uuid Lease.CachedValue}.

Abbreviation State := (SecretState C1 C2 SessionState).
Abbreviation M := (ST State ApiError).

Definition validate_attestation_nonce (nonce : string) : outcome ApiError unit :=
  if decide (MAX_ATTESTATION_NONCE_BYTES < str_len nonce) then Err BadRequest else Ok tt.

Definition attestation_nonce_key (nonce : string) : bytes := sha256 (as_bytes nonce).

(** [SessionState::decrypt]. *)
Definition session_decrypt (self : SessionState) (encrypted_data nonce : bytes) : outcome ApiError bytes :=
  ok_or InternalServerError (open chacha20_poly1305 (session_key self) nonce [] encrypted_data).

Definition create_ephemeral_key (nonce : string) (ephemeral_secret : dh_secret) (now : Z) : M bytes :=
  _ ← st_lift (validate_attestation_nonce nonce);
  st ← st_get;
  '(_, pending) ← st_lift (lift (Bounded.insert_evicting_at (attestation_nonce_key nonce)
                                  ephemeral_secret now (ephemeral_keys st)));
  _ ← st_put (MkSecretState pending (session_states st) (session_slots st));
  st_ok (dh_public ephemeral_secret).

Definition get_and_remove_ephemeral_secret (nonce : string) (now : Z) : M (option dh_secret) :=
  _ ← st_lift (validate_attestation_nonce nonce);
  st ← st_get;
  let '(secret, pending) := Bounded.take_live_at (attestation_nonce_key nonce) now (ephemeral_keys st) in
  _ ← st_put (MkSecretState pending (session_states st) (session_slots st));
  st_ok secret.

Definition put_sessions (sessions : Lease.heap SessionState * Lease.LeaseAwareTtlCache C2) : M unit :=
  st_modify (fun st => MkSecretState (ephemeral_keys st) sessions.2 sessions.1).

Definition store_session_state (id : Encrypt.Uuid) (session : SessionState) (now : Z) : M unit :=
  st ← st_get;
  match Lease.insert_evicting_at id session now (session_slots st) (session_states st) with
  | Ok (_, sessions) => put_sessions sessions
  | Err Lease.DuplicateKey => st_err InternalServerError
  | Err Lease.AllEntriesLeased => st_err TooManyRequests
  | Panic => st_lift Panic
  end.

Definition acquire_session (id : Encrypt.Uuid) (now : Z) : M Lease.CacheLease :=
  st ← st_get;
  '(l, sessions) ← st_lift (lift (Lease.acquire_at id now (session_slots st) (session_states st)));
  _ ← put_sessions sessions;
  st_lift (ok_or BadRequest l).

Definition touch_session (id : Encrypt.Uuid) (now : Z) : M unit :=
  st ← st_get;
  '(touched, sessions) ← st_lift (lift (Lease.touch_at id now (session_slots st) (session_states st)));
  _ ← put_sessions sessions;
  if touched : bool then st_ok tt else st_err BadRequest.

(** Dropping a lease: the counter, then the [Arc]. *)
Definition drop_lease (l : Lease.CacheLease) : M unit :=
  st ← st_get;
  h ← st_lift (lift (Lease.lease_drop l (session_slots st)));
  put_sessions (Lease.arc_drop (Lease.lease_slot l) h, session_states st).

(** A lease that goes out of scope, in every case or on an error only. *)
Definition finally_drop {A} (l : Lease.CacheLease) (m : M A) : M A := fun st =>
  let '(r, st) := m st in
  match drop_lease l st with
  | (Ok _, st) => (r, st)
  | (Err e, st) => (Err e, st)
  | (Panic, st) => (Panic, st)
  end.
Definition drop_on_error {A} (l : Lease.CacheLease) (m : M A) : M A := fun st =>
  match m st with
  | (Ok a, st) => (Ok a, st)
  | (r, st) => finally_drop l (fun st => (r, st)) st
  end.

Definition decrypt_session_data (id : Encrypt.Uuid) (l : Lease.CacheLease) (encrypted_data : string)
    (now : Z) : M bytes :=
  decoded_data ← st_lift (ok_or BadRequest (base64_decode encrypted_data));
  if decide (length decoded_data < 12) then st_err BadRequest
  else
    let nonce := take 12 decoded_data in
    let ciphertext := drop 12 decoded_data in
    st ← st_get;
    session ← st_lift (expect (Lease.lease_value l (session_slots st)));
    decrypted ← st_lift (session_decrypt session ciphertext nonce);
    (* Invalid ciphertext must not extend an attacker's retained session. *)
    _ ← touch_session id now;
    st_ok decrypted.

Definition encrypt_session_data (id : Encrypt.Uuid) (data nonce : bytes) (now1 now2 : Z) : M bytes :=
  l ← acquire_session id now1;
  finally_drop l (
    st ← st_get;
    session ← st_lift (expect (Lease.lease_value l (session_slots st)));
    ciphertext ← st_lift (ok_or InternalServerError
      (seal chacha20_poly1305 (session_key session) nonce [] data));
    _ ← touch_session id now2;
    st_ok (nonce ++ ciphertext)).

(** [key_exchange] and the contributory check. *)
Definition derive_contributory_shared_secret (ephemeral_secret : dh_secret) (client_public_key : bytes)
    : outcome ApiError bytes :=
  let shared_secret := dh_agree ephemeral_secret client_public_key in
  if was_contributory shared_secret then Ok shared_secret else Err BadRequest.

Definition to_array_32 (b : bytes) : option bytes := if decide (length b = 32) then Some b else None.

Definition key_exchange (payload : KeyExchangeRequest) (random_key random_nonce : bytes)
    (new_id : Encrypt.Uuid) (now1 now2 : Z) : M KeyExchangeResponse :=
  client_public_key_bytes ← st_lift (ok_or BadRequest (base64_decode (client_public_key payload)));
  client_public ← st_lift (ok_or BadRequest (to_array_32 client_public_key_bytes));
  found ← get_and_remove_ephemeral_secret (nonce payload) now1;
  ephemeral_secret ← st_lift (ok_or BadRequest found);
  shared_secret ← st_lift (derive_contributory_shared_secret ephemeral_secret client_public);
  let session := MkSession random_key in
  ciphertext ← st_lift (ok_or InternalServerError
    (seal chacha20_poly1305 shared_secret random_nonce [] (session_key session)));
  _ ← store_session_state new_id session now2;
  st_ok (MkKeyExchangeResponse new_id (base64_encode (random_nonce ++ ciphertext))).

(** [get_attestation]; the document is built by the Nitro module or, in local
    mode, by the mock. *)
Definition get_attestation {Doc} (attest : bytes -> string -> outcome ApiError Doc) (nonce : string)
    (ephemeral_secret : dh_secret) (now : Z) : M Doc :=
  enclave_public_key ← create_ephemeral_key nonce ephemeral_secret now;
  st_lift (attest enclave_public_key nonce).

(** ** The request middleware

    A request: the parsed session header, whether it is a bodyless request
    ([GET], [DELETE] or the unit payload), and its body.  [parse_envelope] and
    [parse_payload] are the JSON deserializers.  On success the payload, the
    session and its lease go to the handler, whose response body holds the
    lease to its end. *)
Record Request := MkRequest { x_session_id : option Encrypt.Uuid; bodyless : bool; body : bytes }.

Definition forward_bodyless_request {A} (session_check : M A) : M A := session_check.

Definition decrypt_request {T} (parse_envelope : bytes -> option string) (parse_payload : bytes -> option T)
    (request : Request) (now1 now2 : Z) : M (option T * Encrypt.Uuid * Lease.CacheLease) :=
  id ← st_lift (ok_or BadRequest (x_session_id request));
  if bodyless request then
    forward_bodyless_request (
      l ← acquire_session id now1;
      drop_on_error l (
        _ ← touch_session id now2;
        st_ok (None, id, l)))
  else
    body_bytes ← st_lift (if decide (Z.of_nat (length (body request)) <= MAX_ENCRYPTED_BODY_BYTES)%Z
                          then Ok (body request) else Err PayloadTooLarge);
    encrypted ← st_lift (ok_or BadRequest (parse_envelope body_bytes));
    l ← acquire_session id now1;
    drop_on_error l (
      decrypted_data ← (fun st => match decrypt_session_data id l encrypted now2 st with
                                  | (r, st) => (map_err (fun _ => BadRequest) r, st)
                                  end);
      decrypted ← st_lift (ok_or BadRequest (parse_payload decrypted_data));
      st_ok (Some decrypted, id, l)).

(** [encrypt_response]: serialize, encrypt, encode. *)
Definition encrypt_response {T} (to_vec : T -> option bytes) (id : Encrypt.Uuid) (response : T)
    (nonce : bytes) (now1 now2 : Z) : M string :=
  response_json ← st_lift (ok_or InternalServerError (to_vec response));
  encrypted_response ← encrypt_session_data id response_json nonce now1 now2;
  st_ok (base64_encode encrypted_response).
End sessions.

#[local] Arguments gmultiset_disj_union : simpl never.
#[local] Arguments gmultiset_singleton : simpl never.
#[local] Arguments multiplicity : simpl never.

(** ** What each call does *)
Section facts.
Context {C1 C2 : Type} {cr : Crypto} {crypto_laws : CryptoLaws cr}.
Context {clru1 : Clru C1 bytes (Bounded.TimedEntry dh_secret)} {clru2 : Clru C2 Encrypt.Uuid Lease.CachedValue}.
Context {ok1 : C1 -> Prop} {laws1 : ClruLaws C1 bytes (Bounded.TimedEntry dh_secret) ok1}.
Context {ok2 : C2 -> Prop} {laws2 : ClruLaws C2 Encrypt.Uuid Lease.CachedValue ok2}.
Implicit Types (st : SecretState C1 C2 SessionState) (id : Encrypt.Uuid) (now : Z).
Implicit Types (rest held : gmultiset nat).

Definition sessions_good st rest held : Prop :=
  Lease.good (clru_ok := ok2) (session_slots st) (session_states st) rest held.

Ltac st_unfold := unfold put_sessions, mbind, ST_bind, st_get, st_put, st_modify, st_lift, st_err, st_ok.

(** The session [id] is stored with key [k], leased or not expired at [now]. *)
Definition stored st id (k : bytes) (e : Lease.CachedValue) : Prop :=
  assoc id (Lease.view (session_states st)) = Some e /\
  Lease.value <$> session_slots st !! Lease.slot e = Some (MkSession k).

Lemma acquire_session_live id now st rest held k e :
  sessions_good st rest held -> stored st id k e ->
  Lease.expired_and_unleased now (session_slots st) e = false ->
  (Z.of_nat (multiplicity (Lease.slot e) held) < usize_max)%Z ->
  exists h', acquire_session id now st
      = (Ok (Lease.MkLease (Lease.slot e)), MkSecretState (ephemeral_keys st) (session_states st) h') /\
    sessions_good (MkSecretState (ephemeral_keys st) (session_states st) h')
      ({[+ Lease.slot e +]} ⊎ rest) ({[+ Lease.slot e +]} ⊎ held) /\
    stored (MkSecretState (ephemeral_keys st) (session_states st) h') id k e.
Proof.
  intros Hg [Ha Hk] Hexp Hmax.
  destruct (Lease.acquire_live id now _ _ rest held e Hg Ha Hexp Hmax) as (h' & Hacq & Hg' & Hv).
  exists h'. unfold acquire_session. st_unfold. rewrite Hacq. cbn. split_and!; [done|done|].
  split; [done|]. cbn. congruence.
Qed.

Lemma drop_lease_ok s st rest held :
  sessions_good st ({[+ s +]} ⊎ rest) ({[+ s +]} ⊎ held) -> held ⊆ rest ->
  exists h', drop_lease (Lease.MkLease s) st
      = (Ok tt, MkSecretState (ephemeral_keys st) (session_states st) h') /\
    sessions_good (MkSecretState (ephemeral_keys st) (session_states st) h') rest held.
Proof.
  intros Hg Hsub. destruct (Lease.lease_drop_spec s _ _ rest held Hg Hsub) as (h' & Hd & Hg').
  eexists. unfold drop_lease. st_unfold. rewrite Hd. cbn. by split.
Qed.

Lemma touch_session_live id now st rest held k e :
  sessions_good st rest held -> stored st id k e ->
  Lease.expired_and_unleased now (session_slots st) e = false ->
  (now + Lease.ttl (session_states st) <= instant_max)%Z ->
  exists self', touch_session id now st
      = (Ok tt, MkSecretState (ephemeral_keys st) self' (session_slots st)) /\
    sessions_good (MkSecretState (ephemeral_keys st) self' (session_slots st)) rest held /\
    Lease.ttl self' = Lease.ttl (session_states st) /\
    stored (MkSecretState (ephemeral_keys st) self' (session_slots st)) id k
      (Lease.MkCached (Lease.slot e) (now + Lease.ttl (session_states st))).
Proof.
  intros Hg [Ha Hk] Hexp Hmax.
  destruct (Lease.touch_present id now _ _ rest held e Hg Ha Hexp Hmax)
    as (self' & Ht & Hv & Hg' & Hcap & Httl).
  exists self'. unfold touch_session. st_unfold. rewrite Ht. cbn. split_and!; [done|done|done|].
  split; [|done]. cbn. rewrite Hv. cbn. by rewrite decide_True.
Qed.

(** A leased entry counts as live at any time. *)
Lemma leased_live id now st rest held k e :
  sessions_good st rest held -> stored st id k e -> Lease.slot e ∈ rest ->
  Lease.expired_and_unleased now (session_slots st) e = false.
Proof.
  intros Hg [Ha _] Hin. unfold Lease.expired_and_unleased.
  rewrite (Lease.external_lease _ _ _ _ _ _ Hg (assoc_elem_of _ _ _ Ha)).
  rewrite (bool_decide_true (Lease.slot e ∈ rest)) by done. by rewrite andb_false_r.
Qed.

(** [decrypt_session_data] under a lease: a valid ciphertext refreshes the
    session, anything else changes nothing. *)
Lemma decrypt_session_data_valid id now st rest held k e n ct p :
  sessions_good st rest held -> stored st id k e -> Lease.slot e ∈ rest ->
  (now + Lease.ttl (session_states st) <= instant_max)%Z ->
  length n = 12 -> seal chacha20_poly1305 k n [] p = Some ct ->
  exists self', decrypt_session_data id (Lease.MkLease (Lease.slot e)) (base64_encode (n ++ ct)) now st
      = (Ok p, MkSecretState (ephemeral_keys st) self' (session_slots st)) /\
    sessions_good (MkSecretState (ephemeral_keys st) self' (session_slots st)) rest held /\
    Lease.ttl self' = Lease.ttl (session_states st) /\
    stored (MkSecretState (ephemeral_keys st) self' (session_slots st)) id k
      (Lease.MkCached (Lease.slot e) (now + Lease.ttl (session_states st))).
Proof.
  intros Hg Hst Hin Hmax Hn Hs.
  destruct (touch_session_live id now st rest held k e Hg Hst) as (self' & Ht & Hrest);
    [by eapply leased_live|done|].
  exists self'. split; [|done]. unfold decrypt_session_data. st_unfold. rewrite base64_roundtrip. cbn.
  rewrite length_app, decide_False by lia.
  unfold Lease.lease_value. cbn. destruct Hst as [_ ->]. cbn.
  unfold session_decrypt. cbn. rewrite drop_app_length', take_app_length' by done.
  rewrite (open_seal _ chacha_ok _ _ _ _ _ Hs). cbn. by rewrite Ht.
Qed.

Definition authentic (k : bytes) (encrypted : string) : Prop :=
  exists d m, base64_decode encrypted = Some d /\ 12 <= length d /\
    open chacha20_poly1305 k (take 12 d) [] (drop 12 d) = Some m.

Lemma decrypt_session_data_forged id now st k e encrypted :
  stored st id k e -> ~ authentic k encrypted ->
  exists err, decrypt_session_data id (Lease.MkLease (Lease.slot e)) encrypted now st = (Err err, st).
Proof.
  intros [_ Hk] Hno. unfold decrypt_session_data. st_unfold.
  destruct (base64_decode encrypted) as [d|] eqn:Hd; cbn; [|by eexists].
  case_decide as Hlen; [by eexists|].
  unfold Lease.lease_value. cbn. rewrite Hk. cbn. unfold session_decrypt. cbn.
  destruct (open _ _ _ _ _) as [m|] eqn:Ho; cbn; [|by eexists].
  destruct Hno. exists d, m. split_and!; [done|lia|done].
Qed.
End facts.

(** ** Properties *)
Section properties.
Context {C1 C2 : Type} {cr : Crypto} {crypto_laws : CryptoLaws cr}.
Context {clru1 : Clru C1 bytes (Bounded.TimedEntry dh_secret)} {clru2 : Clru C2 Encrypt.Uuid Lease.CachedValue}.
Context {ok1 : C1 -> Prop} {laws1 : ClruLaws C1 bytes (Bounded.TimedEntry dh_secret) ok1}.
Context {ok2 : C2 -> Prop} {laws2 : ClruLaws C2 Encrypt.Uuid Lease.CachedValue ok2}.
Implicit Types (st : SecretState C1 C2 SessionState) (id : Encrypt.Uuid) (now : Z).
Implicit Types (rest held : gmultiset nat).

(** What a client with the secret of the key it sent gets out of a response. *)
Definition client_session_key (client : dh_secret) (enclave_public : bytes)
    (response : KeyExchangeResponse) : option bytes :=
  d ← base64_decode (encrypted_session_key response);
  open chacha20_poly1305 (dh_agree client enclave_public) (take 12 d) [] (drop 12 d).

Ltac st_unfold := unfold put_sessions, mbind, ST_bind, st_get, st_put, st_modify, st_lift, st_err, st_ok.

Lemma create_ephemeral_key_spec capacity nonce es now st :
  0 < capacity -> str_len nonce <= MAX_ATTESTATION_NONCE_BYTES ->
  (now + PENDING_ATTESTATION_TTL <= instant_max)%Z ->
  Bounded.inv (clru_ok := ok1) capacity PENDING_ATTESTATION_TTL now (ephemeral_keys st) ->
  exists pending, create_ephemeral_key nonce es now st
      = (Ok (dh_public es), MkSecretState pending (session_states st) (session_slots st)) /\
    Bounded.inv (clru_ok := ok1) capacity PENDING_ATTESTATION_TTL now pending /\
    assoc (attestation_nonce_key nonce) (Bounded.view pending)
      = Some (Bounded.MkTimedEntry es (now + PENDING_ATTESTATION_TTL)).
Proof.
  intros Hcap Hn Hmax Hinv.
  destruct (Bounded.insert_refines (attestation_nonce_key nonce) es now (ephemeral_keys st)
    (Bounded.inv_ok _ _ _ _ Hinv)) as (p1 & Hp1 & Hv & _);
    [rewrite (Bounded.inv_cap _ _ _ _ Hinv); lia|by rewrite (Bounded.inv_ttl _ _ _ _ Hinv)|].
  destruct (Bounded.inv_insert capacity PENDING_ATTESTATION_TTL now (attestation_nonce_key nonce) es
    (ephemeral_keys st) Hcap Hmax Hinv) as (o & p & Hp & Hinv').
  rewrite Hp in Hp1. injection Hp1 as -> <-. exists p.
  unfold create_ephemeral_key, validate_attestation_nonce. rewrite decide_False by lia.
  st_unfold. rewrite Hp. cbn. split_and!; [done|done|]. rewrite Hv.
  destruct (Bounded.spec_insert_shape (attestation_nonce_key nonce)
    (Bounded.MkTimedEntry es (now + Bounded.ttl (ephemeral_keys st))%Z)
    (Bounded.cap (ephemeral_keys st)) now (Bounded.view (ephemeral_keys st))) as (l' & -> & _).
  cbn. rewrite decide_True by done. by rewrite (Bounded.inv_ttl _ _ _ _ Hinv).
Qed.

(** C20. The handshake: a client that fetches an attestation for a nonce and
    exchanges a contributory key for it within the pending lifetime gets,
    encrypted under the shared secret, exactly the key the enclave stores for
    the new session, which is then live for the idle lifetime. *)
Theorem handshake_shares_key capacity nonce es client rk rn id t0 t1 t2 st rest held :
  0 < capacity -> str_len nonce <= MAX_ATTESTATION_NONCE_BYTES ->
  Bounded.inv (clru_ok := ok1) capacity PENDING_ATTESTATION_TTL t0 (ephemeral_keys st) ->
  sessions_good (ok2 := ok2) st rest held ->
  Lease.ttl (session_states st) = ENCRYPTION_SESSION_IDLE_TTL ->
  (t0 + PENDING_ATTESTATION_TTL <= instant_max)%Z -> (t2 + ENCRYPTION_SESSION_IDLE_TTL <= instant_max)%Z ->
  (t1 < t0 + PENDING_ATTESTATION_TTL)%Z ->
  id ∉ (Lease.view (session_states st)).*1 ->
  length (Lease.view (session_states st)) < Lease.cap (session_states st) \/
    Exists (fun kv => Lease.has_external_lease (session_slots st) kv.2 = false) (Lease.view (session_states st)) ->
  length rk = 32 -> length rn = 12 ->
  was_contributory (dh_agree es (dh_public client)) = true ->
  exists st1 response st2 e,
    create_ephemeral_key nonce es t0 st = (Ok (dh_public es), st1) /\
    key_exchange (MkKeyExchange nonce (base64_encode (dh_public client))) rk rn id t1 t2 st1
      = (Ok response, st2) /\
    client_session_key client (dh_public es) response = Some rk /\
    session_id response = id /\ stored st2 id rk e /\
    Lease.expires_at e = (t2 + ENCRYPTION_SESSION_IDLE_TTL)%Z /\
    assoc (attestation_nonce_key nonce) (Bounded.view (ephemeral_keys st2)) = None.
Proof.
  intros Hcap Hn Hinv Hg Httl Hm0 Hm2 Ht1 Hid Hroom Hrk Hrn Hcon.
  destruct (create_ephemeral_key_spec capacity nonce es t0 st Hcap Hn Hm0 Hinv) as (p & Hc & Hinv1 & Ha).
  rewrite <- Httl in Hm2.
  destruct (Lease.insert_fresh id (MkSession rk) t2 (session_slots st) (session_states st) rest held
    Hg Hid Hm2 Hroom) as (o & h' & s' & a & l' & Hins & Hv & _ & Hslot & _).
  destruct (chacha_total (dh_agree es (dh_public client)) rn [] rk) as [ct Hct].
  { apply dh_agree_length, dh_public_length. } { done. } { rewrite Hrk. vm_compute. discriminate. }
  destruct (Bounded.take_refines (attestation_nonce_key nonce) t1 p (Bounded.inv_ok _ _ _ _ Hinv1))
    as (Htake & Hview & _). rewrite Ha in Htake. unfold Bounded.is_expired in Htake.
  cbn [Bounded.expires_at Bounded.value] in Htake. rewrite bool_decide_false in Htake by lia.
  destruct (Bounded.take_live_at (attestation_nonce_key nonce) t1 p) as [taken p'] eqn:Htk.
  cbn [fst snd] in Htake, Hview. subst taken.
  eexists _, (MkKeyExchangeResponse id (base64_encode (rn ++ ct))), (MkSecretState p' s' h'), _.
  split; [exact Hc|]. split; [|split; [|split; [done|split; [split|split]]]]; cbn.
  - assert (validate_attestation_nonce nonce = Ok tt) as Hval.
    { unfold validate_attestation_nonce. by rewrite decide_False by lia. }
    unfold key_exchange, to_array_32, get_and_remove_ephemeral_secret,
      derive_contributory_shared_secret, store_session_state. st_unfold.
    cbn [client_public_key Sessions.nonce]. rewrite base64_roundtrip. cbn [ok_or].
    rewrite decide_True by apply dh_public_length. cbn [ok_or]. rewrite Hval.
    cbn [ephemeral_keys]. rewrite Htk. cbn [ok_or]. rewrite Hcon. cbn [session_key].
    rewrite Hct. cbn. by rewrite Hins.
  - unfold client_session_key. cbn. rewrite base64_roundtrip. cbn.
    rewrite take_app_length', drop_app_length' by done. rewrite dh_symmetric.
    by apply (open_seal _ chacha_ok).
  - rewrite Hv. cbn. rewrite decide_True by done. done.
  - cbn. by rewrite Hslot.
  - cbn. by rewrite Httl.
  - rewrite Hview. apply assoc_remove_key_eq, clru_ok_NoDup. apply Hinv1.
Qed.

(** C26. A live session serves a request end to end: the middleware hands the
    handler exactly the payload the client encrypted, with a lease on the
    session and a fresh deadline; the response, encrypted while the request
    holds its lease, opens to the handler's response under the session key. *)
Theorem request_response_roundtrip {T R} parse_envelope (parse_payload : bytes -> option T)
    (to_vec : R -> option bytes) id k e rest held st body n ct p payload response json rn now1 now2 now3 now4 :
  sessions_good (ok2 := ok2) st rest held -> stored st id k e -> length k = 32 ->
  Lease.expired_and_unleased now1 (session_slots st) e = false ->
  (Z.of_nat (multiplicity (Lease.slot e) held) + 1 < usize_max)%Z ->
  (now2 + Lease.ttl (session_states st) <= instant_max)%Z ->
  (now4 + Lease.ttl (session_states st) <= instant_max)%Z ->
  (Z.of_nat (length body) <= MAX_ENCRYPTED_BODY_BYTES)%Z ->
  length n = 12 -> seal chacha20_poly1305 k n [] p = Some ct ->
  parse_envelope body = Some (base64_encode (n ++ ct)) -> parse_payload p = Some payload ->
  to_vec response = Some json -> length rn = 12 -> (Z.of_nat (length json) <= u32_max)%Z ->
  exists st1 st2 text d,
    decrypt_request parse_envelope parse_payload (MkRequest (Some id) false body) now1 now2 st
      = (Ok (Some payload, id, Lease.MkLease (Lease.slot e)), st1) /\
    stored st1 id k (Lease.MkCached (Lease.slot e) (now2 + Lease.ttl (session_states st))) /\
    sessions_good (ok2 := ok2) st1 ({[+ Lease.slot e +]} ⊎ rest) ({[+ Lease.slot e +]} ⊎ held) /\
    encrypt_response to_vec id response rn now3 now4 st1 = (Ok text, st2) /\
    base64_decode text = Some d /\ open chacha20_poly1305 k (take 12 d) [] (drop 12 d) = Some json /\
    sessions_good (ok2 := ok2) st2 ({[+ Lease.slot e +]} ⊎ rest) ({[+ Lease.slot e +]} ⊎ held).
Proof.
  intros Hg Hst Hk Hexp Hmax Hm2 Hm4 Hbody Hn Hct Henv Hpay Hvec Hrn Hjson.
  destruct (acquire_session_live id now1 st rest held k e Hg Hst Hexp ltac:(lia)) as (h1 & Ha & Hg1 & Hst1).
  destruct (decrypt_session_data_valid id now2 _ _ _ k e n ct p Hg1 Hst1 ltac:(multiset_solver) Hm2 Hn Hct)
    as (c2 & Hd & Hg2 & Httl2 & Hst2). cbn [session_states session_slots ephemeral_keys] in *.
  set (st1 := MkSecretState (ephemeral_keys st) c2 h1) in *.
  set (e1 := Lease.MkCached (Lease.slot e) (now2 + Lease.ttl (session_states st))) in *.
  destruct (acquire_session_live id now3 st1 _ _ k e1 Hg2 Hst2) as (h3 & Ha3 & Hg3 & Hst3).
  { by eapply (leased_live id now3 st1 _ _ k e1); [exact Hg2|exact Hst2|cbn; multiset_solver]. }
  { cbn. rewrite multiplicity_disj_union, multiplicity_singleton_eq. lia. }
  cbn [session_states session_slots ephemeral_keys Lease.slot e1] in *.
  destruct (touch_session_live id now4 _ _ _ k e1 Hg3 Hst3) as (c4 & Ht4 & Hg4 & _).
  { by eapply (leased_live id now4 _ _ _ k e1); [exact Hg3|exact Hst3|cbn; multiset_solver]. }
  { cbn. by rewrite Httl2. }
  destruct (drop_lease_ok (Lease.slot e) _ _ _ Hg4) as (h5 & Hd5 & Hg5); [apply Hg1|].
  destruct (chacha_total k rn [] json Hk Hrn Hjson) as [ct' Hct'].
  exists st1, (MkSecretState (ephemeral_keys st) c4 h5), (base64_encode (rn ++ ct')), (rn ++ ct').
  split_and!; [|done|done| |apply base64_roundtrip| |done].
  - unfold decrypt_request. st_unfold. cbn [x_session_id bodyless Sessions.body ok_or].
    rewrite decide_True by done. rewrite Henv. cbn [ok_or]. rewrite Ha.
    unfold drop_on_error. rewrite Hd. cbn [map_err]. rewrite Hpay. done.
  - unfold encrypt_response, encrypt_session_data. st_unfold. rewrite Hvec. cbn [ok_or]. rewrite Ha3.
    unfold finally_drop. destruct Hst3 as [_ Hval]. unfold Lease.lease_value, e1 in *.
    cbn [Lease.lease_slot Lease.slot session_slots] in Hval |- *. rewrite Hval. cbn [expect session_key session_slots session_states ephemeral_keys].
    rewrite Hct'. cbn [ok_or]. rewrite Ht4.
    cbn [session_slots session_states ephemeral_keys] in *. by rewrite Hd5.
  - rewrite take_app_length', drop_app_length' by done. by apply (open_seal _ chacha_ok).
Qed.

(** C21. A request whose ciphertext does not authenticate under the session's
    key gets an error and leaves no trace: no deadline is extended, no entry
    moves or appears in the session cache, no lease stays held and the pending
    attestations are untouched. *)
Theorem forged_request_leaves_no_trace {T} parse_envelope (parse_payload : bytes -> option T)
    id body rest held st now1 now2 :
  sessions_good (ok2 := ok2) st rest held ->
  (forall k e encrypted, stored st id k e -> parse_envelope body = Some encrypted -> ~ authentic k encrypted) ->
  exists err st', decrypt_request parse_envelope parse_payload (MkRequest (Some id) false body) now1 now2 st
      = (Err err, st') /\
    Lease.view (session_states st') `sublist_of` Lease.view (session_states st) /\
    sessions_good (ok2 := ok2) st' rest held /\ ephemeral_keys st' = ephemeral_keys st.
Proof.
  intros Hg Hforged. unfold decrypt_request. st_unfold. cbn [x_session_id bodyless Sessions.body ok_or].
  case_decide as Hlen; [|by do 2 eexists].
  destruct (parse_envelope body) as [encrypted|] eqn:Henv; cbn [ok_or]; [|by do 2 eexists].
  unfold acquire_session. st_unfold.
  destruct (assoc id (Lease.view (session_states st))) as [e|] eqn:Ha; cycle 1.
  { rewrite (Lease.acquire_absent id now1 _ _ _ _ Hg Ha). by do 2 eexists. }
  destruct (Lease.expired_and_unleased now1 (session_slots st) e) eqn:Hexp.
  { destruct (Lease.acquire_expired id now1 _ _ _ _ _ Hg Ha Hexp) as (c' & -> & Hv & Hg' & _).
    cbn. do 2 eexists. split; [done|]. cbn. split_and!; [rewrite Hv; apply remove_key_sublist|done|done]. }
  destruct (Lease.acquire_present id now1 _ _ _ _ _ Hg Ha Hexp) as [(h' & Ht & -> & Hg')|(h' & _ & -> & Hg')];
    cbn [lift fst snd ok_or]; [|by do 2 eexists; split].
  pose proof (Lease.cached_elem _ _ _ (assoc_elem_of _ _ _ Ha)) as Hin.
  destruct (Lease.counts_cell _ _ held (Lease.slot e) (Lease.g_counts _ _ _ _ Hg) ltac:(multiset_solver))
    as (cell & Hcell & _).
  destruct (Lease.counts_cell _ _ _ (Lease.slot e) (Lease.g_counts _ _ _ _ Hg') ltac:(multiset_solver))
    as (cell' & Hcell' & _).
  pose proof (Lease.same_values_acquire (Lease.slot e) (session_slots st)) as Hsame.
  rewrite Ht in Hsame. specialize (Hsame _ _ _ Hcell Hcell').
  set (st1 := MkSecretState (ephemeral_keys st) (session_states st) h').
  assert (stored st1 id (session_key (Lease.value cell)) e) as Hst1.
  { split; [done|]. cbn. rewrite Hcell'. cbn. rewrite Hsame. by destruct (Lease.value cell). }
  assert (~ authentic (session_key (Lease.value cell)) encrypted) as Hno.
  { apply (Hforged _ e); [|done]. split; [done|]. rewrite Hcell. cbn. by destruct (Lease.value cell). }
  destruct (decrypt_session_data_forged id now2 st1 _ e encrypted Hst1 Hno) as (err & Hd).
  unfold drop_on_error, finally_drop. rewrite Hd. cbn [map_err].
  destruct (drop_lease_ok (Lease.slot e) st1 rest held Hg') as (h2 & Hdrop & Hg2); [apply Hg|].
  rewrite Hdrop. by do 2 eexists.
Qed.
End properties.

(** ** Witnesses *)
Section witnesses.
#[local] Existing Instances ListClru.clru ListClru.clru_laws ToyCrypto.toy ToyCrypto.toy_laws.

Local Abbreviation C1 := (ListClru.t bytes (Bounded.TimedEntry bytes)).
Local Abbreviation C2 := (ListClru.t Encrypt.Uuid Lease.CachedValue).
Local Abbreviation claws1 := (ListClru.clru_laws (K := bytes) (V := Bounded.TimedEntry bytes)).
Local Abbreviation claws2 := (ListClru.clru_laws (K := Encrypt.Uuid) (V := Lease.CachedValue)).

Definition empty_state : SecretState C1 C2 SessionState :=
  MkSecretState (Bounded.new 2 PENDING_ATTESTATION_TTL) (Lease.new 2 ENCRYPTION_SESSION_IDLE_TTL) ∅.
Definition the_key : bytes := replicate 32 Byte.x2a.
Definition the_nonce : bytes := replicate 12 Byte.x01.
Definition the_id : Encrypt.Uuid := replicate 16 Byte.x0c.

Lemma empty_state_good : sessions_good (ok2 := ListClru.ok) empty_state (∅ ⊎ ∅ ⊎ ∅) ∅.
Proof.
  apply (Lease.wf_good (clru_ok := ListClru.ok) 2 ENCRYPTION_SESSION_IDLE_TTL
    (Lease.init (V := SessionState) 2 ENCRYPTION_SESSION_IDLE_TTL 0)).
  by apply (Lease.wf_init (laws := claws2)); lia.
Qed.

Lemma handshake_shares_key_witness :
  exists st1 response st2 e,
    create_ephemeral_key "n-1" [Byte.x01] 0 empty_state = (Ok (dh_public (Crypto := ToyCrypto.toy) [Byte.x01]), st1) /\
    key_exchange (MkKeyExchange "n-1" (base64_encode (dh_public (Crypto := ToyCrypto.toy) [Byte.x02])))
      the_key the_nonce the_id 5 6 st1 = (Ok response, st2) /\
    client_session_key [Byte.x02] (dh_public (Crypto := ToyCrypto.toy) [Byte.x01]) response = Some the_key /\
    session_id response = the_id /\ stored st2 the_id the_key e /\
    Lease.expires_at e = (6 + ENCRYPTION_SESSION_IDLE_TTL)%Z /\
    assoc (attestation_nonce_key "n-1") (Bounded.view (ephemeral_keys st2)) = None.
Proof.
  apply (handshake_shares_key (crypto_laws := ToyCrypto.toy_laws) (laws1 := claws1) (laws2 := claws2)
    2 "n-1" [Byte.x01] [Byte.x02] the_key the_nonce the_id 0 5 6 empty_state (∅ ⊎ ∅ ⊎ ∅) ∅).
  - lia.
  - vm_compute. lia.
  - apply (Bounded.inv_new (laws := claws1)). lia.
  - apply empty_state_good.
  - reflexivity.
  - vm_compute. discriminate.
  - vm_compute. discriminate.
  - reflexivity.
  - apply not_elem_of_nil.
  - left. vm_compute. lia.
  - reflexivity.
  - reflexivity.
  - reflexivity.
Defined.

(** One stored session. *)
Definition one_world : Lease.world C2 SessionState :=
  default (Lease.init 2 ENCRYPTION_SESSION_IDLE_TTL 0)
    (Lease.run [(0%Z, Lease.Insert the_id (MkSession the_key))] (Lease.init 2 ENCRYPTION_SESSION_IDLE_TTL 0)).
Definition one_state : SecretState C1 C2 SessionState :=
  MkSecretState (Bounded.new 2 PENDING_ATTESTATION_TTL) (Lease.cache one_world) (Lease.mem one_world).

Lemma one_state_good :
  sessions_good (ok2 := ListClru.ok) one_state (Lease.outside one_world) (Lease.live one_world).
Proof.
  assert (Lease.wf (clru_ok := ListClru.ok) 2 ENCRYPTION_SESSION_IDLE_TTL one_world) as Hwf.
  { apply (Lease.reachable_wf (laws := claws2) 2 ENCRYPTION_SESSION_IDLE_TTL 0
      [(0%Z, Lease.Insert the_id (MkSession the_key))].*2); [lia|].
    apply Lease.run_steps. vm_compute. reflexivity. }
  apply Hwf.
Qed.

Definition hello : bytes := as_bytes "hello".
Definition sealed_hello : bytes := hello ++ ToyCrypto.tag the_key the_nonce [].
Definition one_entry : Lease.CachedValue := Lease.MkCached 0 ENCRYPTION_SESSION_IDLE_TTL.

Lemma request_response_roundtrip_witness :
  exists st1 st2 text d,
    decrypt_request (fun _ => Some (base64_encode (the_nonce ++ sealed_hello))) Some
      (MkRequest (Some the_id) false [Byte.x00]) 1 2 one_state
      = (Ok (Some hello, the_id, Lease.MkLease 0), st1) /\
    stored st1 the_id the_key (Lease.MkCached 0 (2 + ENCRYPTION_SESSION_IDLE_TTL)) /\
    sessions_good (ok2 := ListClru.ok) st1 ({[+ 0 +]} ⊎ Lease.outside one_world) ({[+ 0 +]} ⊎ Lease.live one_world) /\
    encrypt_response Some the_id hello the_nonce 3 4 st1 = (Ok text, st2) /\
    base64_decode text = Some d /\ open chacha20_poly1305 the_key (take 12 d) [] (drop 12 d) = Some hello /\
    sessions_good (ok2 := ListClru.ok) st2 ({[+ 0 +]} ⊎ Lease.outside one_world) ({[+ 0 +]} ⊎ Lease.live one_world).
Proof.
  eapply (request_response_roundtrip (crypto_laws := ToyCrypto.toy_laws) (laws2 := claws2)
    (fun _ => Some (base64_encode (the_nonce ++ sealed_hello))) Some Some the_id the_key one_entry
    (Lease.outside one_world) (Lease.live one_world) one_state [Byte.x00] the_nonce sealed_hello hello
    hello hello hello the_nonce 1 2 3 4).
  - apply one_state_good.
  - split; reflexivity.
  - reflexivity.
  - reflexivity.
  - vm_compute. reflexivity.
  - vm_compute. discriminate.
  - vm_compute. discriminate.
  - vm_compute. discriminate.
  - reflexivity.
  - reflexivity.
  - reflexivity.
  - reflexivity.
  - reflexivity.
  - reflexivity.
  - vm_compute. discriminate.
Defined.

Lemma forged_request_leaves_no_trace_witness :
  exists err st', decrypt_request (fun _ => Some "x") (fun b => Some b)
      (MkRequest (Some the_id) false [Byte.x00]) 1 2 one_state = (Err err, st') /\
    Lease.view (session_states st') `sublist_of` Lease.view (session_states one_state) /\
    sessions_good (ok2 := ListClru.ok) st' (Lease.outside one_world) (Lease.live one_world) /\
    ephemeral_keys st' = ephemeral_keys one_state.
Proof.
  apply (forged_request_leaves_no_trace (laws2 := claws2)).
  - apply one_state_good.
  - intros k e encrypted _ [= <-] (d & m & Hd & _). vm_compute in Hd. discriminate Hd.
Defined.
End witnesses.

End Sessions.
