(* ===== verification/OsFlags.v ===== *)
(** * [os_flags.rs]: the feature-flag client and its cache

    A time-limited cache in front of the flags service, keyed by user and
    normalised list of flag names.  The HTTP exchange is the argument
    [service]. *)

From S2P Require Import Prelude Text Json Encrypt.

Module OsFlags.

Definition USER_FLAGS_CACHE_TTL : Z := secs (10 * 60).
Definition KAGI_WEB_SEARCH_FLAG_KEY : string := "web-search.kagi".
Definition KIMI_K3_MODEL_ACCESS_FLAG_KEY : string := "model-access.kimi-k3".
Definition MODEL_ACCESS_FLAG_KEYS : list string := [KIMI_K3_MODEL_ACCESS_FLAG_KEY].
Definition PAID_QUICK_DEEPSEEK_ALIAS_FLAG_KEY : string := "model-alias.paid.quick.deepseek-v4-flash".
Definition PAID_POWERFUL_GLM_ALIAS_FLAG_KEY : string := "model-alias.paid.powerful.glm-5-2".
Definition PAID_MODEL_ALIAS_FLAG_KEYS : list string :=
  [PAID_QUICK_DEEPSEEK_ALIAS_FLAG_KEY; PAID_POWERFUL_GLM_ALIAS_FLAG_KEY].

Inductive OsFlagsError :=
| InvalidBaseUrl (e : string)
| RequestError (e : string)
| Service (status : Z) (message : string).

Record UserFlagsResponse := MkFlags { user_uuid : Encrypt.Uuid; flags : gmap string bool }.

(** [normalize_keys]: trimmed, non-empty, sorted and without duplicates; no
    key left means no filter. *)
Fixpoint dedup (l : list string) : list string :=
  match l with
  | [] => []
  | x :: l =>
      match l with
      | [] => [x]
      | y :: _ => if decide (x = y) then dedup l else x :: dedup l
      end
  end.

Definition normalize_keys (keys : option (list string)) : option (list string) :=
  keys ← keys;
  let keys := filter (fun k => k <> EmptyString) (trim <$> keys) in
  match keys with
  | [] => None
  | _ => Some (dedup (merge_sort String.le keys))
  end.

Definition UserFlagsCacheKey : Type := Encrypt.Uuid * option (list string).
Definition cache_key (user : Encrypt.Uuid) (keys : option (list string)) : UserFlagsCacheKey :=
  (user, normalize_keys keys).

Record UserFlagsCacheEntry := MkEntry { response : UserFlagsResponse; expires_at : Z }.
Record UserFlagsCache := MkCache { inner : gmap UserFlagsCacheKey UserFlagsCacheEntry; ttl : Z }.

Definition cache_default : UserFlagsCache := MkCache ∅ USER_FLAGS_CACHE_TTL.

(** [get]: an expired entry is removed under the write lock. *)
Definition cache_get (now : Z) (key : UserFlagsCacheKey) (self : UserFlagsCache)
    : option UserFlagsResponse * UserFlagsCache :=
  match inner self !! key with
  | None => (None, self)
  | Some entry =>
      if decide (now < expires_at entry)%Z then (Some (response entry), self)
      else (None, MkCache (if decide (expires_at entry <= now)%Z then delete key (inner self) else inner self)
                          (ttl self))
  end.

Definition evict_expired (m : gmap UserFlagsCacheKey UserFlagsCacheEntry) (now : Z)
    : gmap UserFlagsCacheKey UserFlagsCacheEntry :=
  filter (fun kv => (now < expires_at kv.2)%Z) m.

Definition cache_insert (now : Z) (key : UserFlagsCacheKey) (r : UserFlagsResponse) (self : UserFlagsCache)
    : UserFlagsCache :=
  MkCache (<[key := MkEntry r (now + ttl self)%Z]> (evict_expired (inner self) now)) (ttl self).

(** What the HTTP exchange ended in. *)
Inductive exchange :=
| TransportError (e : OsFlagsError)            (* URL, connection or timeout *)
| Success (body : string + UserFlagsResponse)  (* a 2xx answer, decoded or not *)
| Failure (status : Z) (text : string).        (* any other answer *)

(** The message of a failed answer: the [error] member when there is one. *)
Definition failure_message (from_str : string -> option Value) (text : string) : string :=
  default text (v ← from_str text; e ← get "error" v; as_str e).

Definition get_user_flags (from_str : string -> option Value)
    (service : UserFlagsCacheKey -> exchange) (now now' : Z)
    (user : Encrypt.Uuid) (keys : option (list string))
    : ST UserFlagsCache OsFlagsError UserFlagsResponse := fun self =>
  let key := cache_key user keys in
  let '(cached, self) := cache_get now key self in
  match cached with
  | Some r => (Ok r, self)
  | None =>
      match service key with
      | TransportError e => (Err e, self)
      | Success (inl e) => (Err (RequestError e), self)
      | Success (inr r) => (Ok r, cache_insert now' key r self)
      | Failure status text => (Err (Service status (failure_message from_str text)), self)
      end
  end.

Definition get_bool_flag from_str service now now' (user : Encrypt.Uuid) (key : string)
    : ST UserFlagsCache OsFlagsError (option bool) :=
  resp ← get_user_flags from_str service now now' user (Some [key]);
  st_ok (flags resp !! key).

Definition is_enabled from_str service now now' (user : Encrypt.Uuid) (key : string)
    : ST UserFlagsCache OsFlagsError bool :=
  v ← get_bool_flag from_str service now now' user key;
  st_ok (default false v).

(** ** Normalisation is canonical *)
Lemma dedup_cons x y l :
  dedup (x :: y :: l) = if decide (x = y) then dedup (y :: l) else x :: dedup (y :: l).
Proof. done. Qed.

Lemma elem_of_dedup k l : k ∈ dedup l <-> k ∈ l.
Proof.
  induction l as [|x l IH]; [done|]. destruct l as [|y l]; [done|]. rewrite dedup_cons.
  case_decide as Hxy; [subst y|]; set_solver.
Qed.

Lemma dedup_strict l :
  StronglySorted String.le l ->
  StronglySorted (fun a b => String.le a b /\ a <> b) (dedup l).
Proof.
  induction l as [|x l IH]; [constructor|]. intros [Hs Hall]%StronglySorted_inv.
  destruct l as [|y l]; [repeat constructor|]. rewrite dedup_cons.
  case_decide as Hxy; [by apply IH|]. constructor; [by apply IH|].
  apply Forall_forall. intros z Hz. rewrite elem_of_dedup in Hz. rewrite Forall_forall in Hall.
  split; [by apply Hall|]. intros ->.
  (* then y lies between z and itself *)
  assert (y = z) as ->; [|done].
  apply (anti_symm String.le).
  - apply StronglySorted_inv in Hs as [_ Hy]. rewrite Forall_forall in Hy.
    apply elem_of_cons in Hz as [->|Hz]; [reflexivity|by apply Hy].
  - apply Hall. left.
Qed.

Lemma strict_sorted_unique l l' :
  StronglySorted (fun a b => String.le a b /\ a <> b) l ->
  StronglySorted (fun a b => String.le a b /\ a <> b) l' ->
  (forall k, k ∈ l <-> k ∈ l') -> l = l'.
Proof.
  intros Hs. revert l'. induction Hs as [|x l Hs IH Hall]; intros l' Hs' Hiff.
  - destruct l' as [|y l']; [done|]. set_solver.
  - destruct Hs' as [|y l' Hs' Hall']; [set_solver|].
    rewrite Forall_forall in Hall, Hall'.
    assert (x = y) as <-.
    { destruct (decide (x = y)) as [|Hne]; [done|].
      assert (x ∈ l') as Hx by (specialize (Hiff x); set_solver).
      assert (y ∈ l) as Hy by (specialize (Hiff y); set_solver).
      apply (anti_symm String.le); [by apply Hall|by apply Hall']. }
    f_equal. apply IH; [done|]. intros k. specialize (Hiff k).
    assert (x ∉ l) as Hxl by (intros Hin; by destruct (Hall x Hin)).
    assert (x ∉ l') as Hxl' by (intros Hin; by destruct (Hall' x Hin)).
    set_solver.
Qed.

Definition cleaned (keys : list string) : list string := filter (fun k => k <> EmptyString) (trim <$> keys).

Lemma normalize_keys_Some keys :
  normalize_keys (Some keys) =
    match cleaned keys with [] => None | _ => Some (dedup (merge_sort String.le (cleaned keys))) end.
Proof. unfold normalize_keys. cbn. fold (cleaned keys). by destruct (cleaned keys). Qed.

(** Two lists with the same names, in any order, repeated or padded with
    blanks, make the same query and share a cache entry. *)
Lemma normalize_keys_canonical keys keys' :
  (forall k, k ∈ cleaned keys <-> k ∈ cleaned keys') ->
  normalize_keys (Some keys) = normalize_keys (Some keys').
Proof.
  intros Hiff. rewrite !normalize_keys_Some.
  assert (dedup (merge_sort String.le (cleaned keys)) = dedup (merge_sort String.le (cleaned keys'))) as Heq.
  { apply strict_sorted_unique.
    - apply dedup_strict. apply StronglySorted_merge_sort; apply _.
    - apply dedup_strict. apply StronglySorted_merge_sort; apply _.
    - intros k. rewrite !elem_of_dedup, !merge_sort_Permutation. apply Hiff. }
  destruct (cleaned keys) as [|a l], (cleaned keys') as [|b l']; try done.
  - specialize (Hiff b). set_solver.
  - specialize (Hiff a). set_solver.
  - by rewrite Heq.
Qed.

(** ** Traces of calls *)
Record flag_call := MkCall { at_ : Z; done_at : Z; user : Encrypt.Uuid; keys : option (list string) }.

Section trace.
Context (from_str : string -> option Value) (service : Z -> UserFlagsCacheKey -> exchange).

Definition call_flags (c : flag_call) : ST UserFlagsCache OsFlagsError UserFlagsResponse :=
  get_user_flags from_str (service (done_at c)) (at_ c) (done_at c) (user c) (keys c).

Fixpoint run_calls (calls : list flag_call) (self : UserFlagsCache)
    : list (outcome OsFlagsError UserFlagsResponse) :=
  match calls with
  | [] => []
  | c :: calls => let '(r, self) := call_flags c self in r :: run_calls calls self
  end.

(** Every entry is an answer of the service, kept for one lifetime. *)
Definition answered (self : UserFlagsCache) : Prop :=
  ttl self = USER_FLAGS_CACHE_TTL /\
  forall key e, inner self !! key = Some e ->
    exists t, service t key = Success (inr (response e)) /\ expires_at e = (t + USER_FLAGS_CACHE_TTL)%Z.

(** An answer given at [c]: what the service said, then or less than one
    lifetime ago, to the same query. *)
Definition fresh_answer (c : flag_call) (r : outcome OsFlagsError UserFlagsResponse) : Prop :=
  forall flags, r = Ok flags ->
    exists t, service t (cache_key (user c) (keys c)) = Success (inr flags) /\
      (at_ c < t + USER_FLAGS_CACHE_TTL)%Z.

Lemma call_flags_fresh c self :
  (at_ c <= done_at c)%Z -> answered self ->
  fresh_answer c (call_flags c self).1 /\ answered (call_flags c self).2.
Proof.
  intros Hle [Httl Hans]. unfold call_flags, get_user_flags, cache_get.
  set (key := cache_key _ _).
  assert (forall m, m ⊆ inner self -> answered (MkCache m (ttl self))) as Hsub.
  { intros m Hm. split; [done|]. cbn. intros k e Hk. apply Hans. by eapply lookup_weaken. }
  assert (forall cache, answered cache -> forall r, fresh_answer c r ->
    fresh_answer c (r, cache).1 /\ answered (r, cache).2) as Hpair by auto.
  assert (forall cache, answered cache ->
    let res := match service (done_at c) key with
               | TransportError e => (Err e, cache)
               | Success (inl e) => (Err (RequestError e), cache)
               | Success (inr r) => (Ok r, cache_insert (done_at c) key r cache)
               | Failure status text => (Err (Service status (failure_message from_str text)), cache)
               end in fresh_answer c res.1 /\ answered res.2) as Hserve.
  { intros cache [Ht Ha]. destruct (service (done_at c) key) as [e|[e|r]|status text] eqn:Hs; cbn;
      try (split; [by intros flags|by split]). split.
    - intros flags [= <-]. exists (done_at c). split; [done|]. unfold USER_FLAGS_CACHE_TTL, secs. lia.
    - split; [done|]. cbn. intros k e. rewrite lookup_insert. case_decide as Hk.
      + subst k. intros [= <-]. exists (done_at c). cbn. by rewrite Ht.
      + intros He. apply Ha. unfold evict_expired in He. by apply map_lookup_filter_Some in He as [? _]. }
  destruct (inner self !! key) as [e|] eqn:Hk; [|by apply (Hserve self)].
  case_decide as Hlive.
  - cbn. split; [|done]. intros flags [= <-]. destruct (Hans _ _ Hk) as (t & ? & ?).
    exists t. split; [done|]. lia.
  - apply (Hserve (MkCache _ _)), Hsub. case_decide; [apply delete_subseteq|done].
Qed.

(** Feature flags are never older than the cache's lifetime: in any
    sequence of calls from an empty cache, each answer is what the service
    said to that user and that set of flag names at that call or less than
    ten minutes before it. *)
Theorem flags_never_stale calls :
  Forall (fun c => at_ c <= done_at c)%Z calls ->
  Forall2 fresh_answer calls (run_calls calls cache_default).
Proof.
  intros Hcalls. assert (answered cache_default) as Hans.
  { split; [done|]. intros key e. cbn. by rewrite lookup_empty. }
  revert Hans. generalize cache_default as self.
  induction Hcalls as [|c calls Hle _ IH]; intros self Hans; [constructor|]. cbn.
  destruct (call_flags_fresh c self Hle Hans) as [Hf Ha].
  destruct (call_flags c self) as [r self']. constructor; [done|]. by apply IH.
Qed.
End trace.

Definition demo_service (t : Z) (key : UserFlagsCacheKey) : exchange :=
  Success (inr (MkFlags key.1 {[ "web-search.kagi" := bool_decide (t < 100)%Z ]})).
Definition demo_calls : list flag_call :=
  [MkCall 1 2 [] (Some ["web-search.kagi"]); MkCall 200 201 [] (Some [" web-search.kagi "; ""])].

Lemma flags_never_stale_witness :
  Forall2 (fresh_answer demo_service) demo_calls (run_calls (fun _ => None) demo_service demo_calls cache_default).
Proof. apply flags_never_stale. repeat constructor; vm_compute; discriminate. Defined.

End OsFlags.
