(* ===== verification/Models.v ===== *)
(** * Model configuration and the public catalog

    [src/src/model_config.rs]: the static table of models, the "auto" aliases
    with their per-plan targets, access by plan and by feature flag, name
    resolution, and the two catalog responses.  [f32] constants are
    [spec_float]s. *)

From S2P Require Import Prelude Text Json Encrypt OsFlags.

Module Models.
(** ** Data *)
Record SamplingConfig := MkSampling { temperature : spec_float; top_p : spec_float }.
Record ResponsesModelConfig := MkResponses {
  sampling : SamplingConfig; include_reasoning : bool; enable_thinking : bool }.
Record ModelConfig := MkConfig { context_window : Z; responses : ResponsesModelConfig }.
Inductive ReasoningHistoryStrategy := KimiPreserveThinking | GlmClearThinking.
Inductive ModelAccessTier := Free | Starter | Pro.
Inductive ModelPlan := FreePlan | PaidPlan.
Record ModelCapabilities := MkCaps { chat : bool; vision : bool; reasoning : bool; tool_use : bool }.
Record ModelCatalogMetadata := MkMeta {
  input_modalities : list string; output_modalities : list string;
  parameter_size : option string; active_parameter_size : option string }.
Record ModelConfigEntry := MkEntry {
  id : string; provider_id : string; catalog_provider : string; catalog_provider_id : string;
  display_name : string; short_name : string; description : string;
  access : ModelAccessTier; capabilities : ModelCapabilities; badges : list string;
  listed : bool; api_listed : bool; enabled : bool;
  required_feature_flag : option string; deprecated : bool; sort_order : Z;
  config : ModelConfig; catalog_metadata : option ModelCatalogMetadata }.
Record ModelFeatureAccess := MkAccess { kimi_k3 : bool }.
Record ModelAliasEntry := MkAlias {
  alias_id : string; label : string; alias_short_name : string; alias_description : string }.
Record ModelAliasTargets := MkTargets { quick : string; powerful : string }.
Record PaidModelAliasOverrides := MkOverrides { quick_deepseek : bool; powerful_glm : bool }.

#[local] Instance tier_dec : EqDecision ModelAccessTier.
Proof. solve_decision. Defined.
#[local] Instance plan_dec : EqDecision ModelPlan.
Proof. solve_decision. Defined.

Definition with_overrides (self : SamplingConfig) (t p : option spec_float) : SamplingConfig :=
  MkSampling (default (temperature self) t) (default (top_p self) p).

Definition DEFAULT_CONTEXT_WINDOW : Z := 64000.
(** [0.7f32] and [1.0f32]. *)
Definition DEFAULT_TEMPERATURE : spec_float := S754_finite false 11744051 (-24).
Definition DEFAULT_TOP_P : spec_float := S754_finite false 8388608 (-23).
Definition AUTO_QUICK_MODEL_ID := "auto:quick".
Definition AUTO_POWERFUL_MODEL_ID := "auto:powerful".
Definition QUICK_MODEL_ID := "gpt-oss-120b".
Definition POWERFUL_MODEL_ID := "kimi-k2-6".
Definition DEEPSEEK_V4_FLASH_MODEL_ID := "deepseek-v4-flash".
Definition GLM_5_2_MODEL_ID := "glm-5-2".
Definition FREE_MODEL_ALIAS_TARGETS := MkTargets QUICK_MODEL_ID POWERFUL_MODEL_ID.
Definition PAID_MODEL_ALIAS_TARGETS := MkTargets QUICK_MODEL_ID POWERFUL_MODEL_ID.
Definition DEFAULT_SAMPLING_CONFIG := MkSampling DEFAULT_TEMPERATURE DEFAULT_TOP_P.
Definition DEFAULT_RESPONSES_MODEL_CONFIG := MkResponses DEFAULT_SAMPLING_CONFIG false false.

(** [ModelConfig::new], and the three [ModelConfigEntry] constructors. *)
Definition config_new (window : Z) : ModelConfig := MkConfig window DEFAULT_RESPONSES_MODEL_CONFIG.
Definition entry_with_responses (id display short desc : string) (tier : ModelAccessTier)
    (caps : ModelCapabilities) (badges : list string) (listed enabled deprecated : bool)
    (order window : Z) (r : ResponsesModelConfig) : ModelConfigEntry :=
  MkEntry id id "tinfoil" id display short desc tier caps badges listed listed enabled None
    deprecated order (MkConfig window r) None.
Definition entry_new (id display short desc : string) (tier : ModelAccessTier)
    (caps : ModelCapabilities) (badges : list string) (listed enabled deprecated : bool)
    (order window : Z) : ModelConfigEntry :=
  MkEntry id id "tinfoil" id display short desc tier caps badges listed listed enabled None
    deprecated order (config_new window) None.
Definition api_only (id display short desc : string) (tier : ModelAccessTier)
    (caps : ModelCapabilities) (badges : list string) (enabled deprecated : bool)
    (order window : Z) : ModelConfigEntry :=
  MkEntry id id "tinfoil" id display short desc tier caps badges false true enabled None
    deprecated order (config_new window) None.

Definition requiring_feature_flag (flag : string) (e : ModelConfigEntry) : ModelConfigEntry :=
  MkEntry (id e) (provider_id e) (catalog_provider e) (catalog_provider_id e) (display_name e)
    (short_name e) (description e) (access e) (capabilities e) (badges e) (listed e)
    (api_listed e) (enabled e) (Some flag) (deprecated e) (sort_order e) (config e)
    (catalog_metadata e).
Definition with_catalog_provider (provider provider_id' : string) (e : ModelConfigEntry)
    : ModelConfigEntry :=
  MkEntry (id e) (provider_id e) provider provider_id' (display_name e)
    (short_name e) (description e) (access e) (capabilities e) (badges e) (listed e)
    (api_listed e) (enabled e) (required_feature_flag e) (deprecated e) (sort_order e) (config e)
    (catalog_metadata e).
Definition with_catalog_metadata (m : ModelCatalogMetadata) (e : ModelConfigEntry)
    : ModelConfigEntry :=
  MkEntry (id e) (provider_id e) (catalog_provider e) (catalog_provider_id e) (display_name e)
    (short_name e) (description e) (access e) (capabilities e) (badges e) (listed e)
    (api_listed e) (enabled e) (required_feature_flag e) (deprecated e) (sort_order e) (config e)
    (Some m).

Definition caps_chat (reasoning vision : bool) : ModelCapabilities := MkCaps true vision reasoning true.
Definition chat_with_tool_use (reasoning vision tool_use : bool) : ModelCapabilities :=
  MkCaps true vision reasoning tool_use.

Definition DEFAULT_MODEL_CONFIG : ModelConfig := config_new DEFAULT_CONTEXT_WINDOW.
Definition GEMMA4_RESPONSES_MODEL_CONFIG := MkResponses DEFAULT_SAMPLING_CONFIG true true.

Definition MODEL_CONFIGS : list ModelConfigEntry :=
  [ entry_new "gpt-oss-120b" "OpenAI GPT-OSS 120B" "GPT-OSS" "Fast, everyday reasoning model."
      Free (caps_chat true false) ["Reasoning"] true true false 10 128000;
    entry_with_responses "gemma4-31b" "Gemma 4 31B" "Gemma 4"
      "Starter-friendly reasoning and vision model."
      Starter (caps_chat true true) ["New"; "Reasoning"] true true false 20 256000
      GEMMA4_RESPONSES_MODEL_CONFIG;
    with_catalog_metadata (MkMeta ["text"; "image"] ["text"] (Some "2.8T") (Some "104B"))
      (requiring_feature_flag OsFlags.KIMI_K3_MODEL_ACCESS_FLAG_KEY
        (entry_new "kimi-k3" "Kimi K3" "Kimi K3" "Multimodal reasoning and tool-use model."
          Pro (caps_chat true true) ["New"; "Reasoning"] true true false 30 256000));
    with_catalog_provider "continuum" "kimi-k2.6"
      (entry_new "kimi-k2-6" "Kimi K2.6" "Kimi K2.6"
        "Powerful model for deeper thinking and analysis."
        Pro (caps_chat true true) ["New"; "Reasoning"] true true false 40 256000);
    entry_new GLM_5_2_MODEL_ID "GLM 5.2" "GLM 5.2" "Long-horizon pro reasoning model."
      Pro (caps_chat true false) ["New"; "Reasoning"] true true false 50 384000;
    with_catalog_metadata (MkMeta ["text"] ["text"] (Some "284B") (Some "13B"))
      (entry_new DEEPSEEK_V4_FLASH_MODEL_ID "DeepSeek V4 Flash" "DeepSeek V4 Flash"
        "Long-context reasoning and tool-use model."
        Pro (caps_chat true false) ["New"; "Reasoning"] true true false 60 800000);
    entry_new "llama3-3-70b" "Llama 3.3 70B" "Llama 3.3" "General-purpose model."
      Free (caps_chat false false) [] true true false 70 128000;
    api_only "gpt-oss-safeguard-120b" "OpenAI GPT-OSS Safeguard 120B" "GPT-OSS Safeguard"
      "Safety model available through the API."
      Free (chat_with_tool_use true false false) ["Safety"] true false 900 131000 ].

Definition MODEL_ALIAS_ENTRIES : list ModelAliasEntry :=
  [ MkAlias AUTO_QUICK_MODEL_ID "Quick" "Quick" "Fast, everyday responses";
    MkAlias AUTO_POWERFUL_MODEL_ID "Powerful" "Powerful" "Deeper thinking & analysis" ].

(** ** Plans, aliases, overrides *)
Definition from_is_paid (is_paid : bool) : ModelPlan := if is_paid then PaidPlan else FreePlan.
Definition plan_is_paid (p : ModelPlan) : bool := match p with PaidPlan => true | FreePlan => false end.
Definition is_available_to (tier : ModelAccessTier) (p : ModelPlan) : bool :=
  bool_decide (tier = Free) || bool_decide (p = PaidPlan).
Definition tier_as_str (t : ModelAccessTier) : string :=
  match t with Free => "free" | Starter => "starter" | Pro => "pro" end.

Definition for_plan (p : ModelPlan) : ModelAliasTargets :=
  match p with FreePlan => FREE_MODEL_ALIAS_TARGETS | PaidPlan => PAID_MODEL_ALIAS_TARGETS end.
Definition for_plan_with_overrides (p : ModelPlan) (o : PaidModelAliasOverrides) : ModelAliasTargets :=
  match p with
  | FreePlan => FREE_MODEL_ALIAS_TARGETS
  | PaidPlan => MkTargets
      (if quick_deepseek o then DEEPSEEK_V4_FLASH_MODEL_ID else quick PAID_MODEL_ALIAS_TARGETS)
      (if powerful_glm o then GLM_5_2_MODEL_ID else powerful PAID_MODEL_ALIAS_TARGETS)
  end.
Definition targets_default : ModelAliasTargets := for_plan FreePlan.

Definition resolve (self : ModelAliasTargets) (model : string) : string :=
  if decide (model = AUTO_QUICK_MODEL_ID) then quick self
  else if decide (model = AUTO_POWERFUL_MODEL_ID) then powerful self
  else model.
Definition target_for (self : ModelAliasTargets) (alias : string) : option string :=
  if decide (alias = AUTO_QUICK_MODEL_ID) then Some (quick self)
  else if decide (alias = AUTO_POWERFUL_MODEL_ID) then Some (powerful self)
  else None.
Definition alias_target (model : string) : option string := target_for targets_default model.
Definition is_auto_model_alias (model : string) : bool :=
  bool_decide (model = AUTO_QUICK_MODEL_ID) || bool_decide (model = AUTO_POWERFUL_MODEL_ID).

(** [PaidModelAliasOverrides::from_flag_values] and
    [ModelFeatureAccess::from_flag_values]. *)
Definition overrides_from_flag_values (flags : gmap string bool) : PaidModelAliasOverrides :=
  MkOverrides (default false (flags !! OsFlags.PAID_QUICK_DEEPSEEK_ALIAS_FLAG_KEY))
    (default false (flags !! OsFlags.PAID_POWERFUL_GLM_ALIAS_FLAG_KEY)).
Definition from_flag_values (flags : gmap string bool) : ModelFeatureAccess :=
  MkAccess (default false (flags !! OsFlags.KIMI_K3_MODEL_ACCESS_FLAG_KEY)).

(** ** Lookup *)
Definition find_entry (p : ModelConfigEntry -> bool) : option ModelConfigEntry :=
  snd <$> list_find (fun e => p e = true) MODEL_CONFIGS.
Definition model_entry (model : string) : option ModelConfigEntry :=
  find_entry (fun e => bool_decide (id e = model)).
Definition canonical (model : string) : string := default model (alias_target model).

Definition flag_enabled (self : ModelFeatureAccess) (flag_key : string) : bool :=
  if decide (flag_key = OsFlags.KIMI_K3_MODEL_ACCESS_FLAG_KEY) then kimi_k3 self else false.
Definition allows_model (self : ModelFeatureAccess) (model : string) : bool :=
  match e ← model_entry (canonical model); required_feature_flag e with
  | None => true
  | Some flag => flag_enabled self flag
  end.
(** [ModelPlan::allows_model]. *)
Definition plan_allows_model (p : ModelPlan) (model : string) : bool :=
  match model_entry (canonical model) with
  | None => true
  | Some e => is_available_to (access e) p
  end.

Definition resolve_completion_model_id (model : string) : option string :=
  provider_id <$> find_entry (fun e => bool_decide (id e = canonical model) && api_listed e && enabled e).
Definition resolve_public_model_id (model : string) : option string :=
  id <$> find_entry (fun e => bool_decide (id e = canonical model) && api_listed e && enabled e).
Definition model_requires_feature_flag (model : string) : bool :=
  bool_decide (is_Some (e ← model_entry (canonical model); required_feature_flag e)).

Definition model_config (model : string) : ModelConfig :=
  default DEFAULT_MODEL_CONFIG
    (config <$>
      match model_entry (canonical model) with
      | Some e => Some e
      | None => find_entry (fun e => starts_with (id e) (canonical model))
      end).
Definition model_context_window (model : string) : Z := context_window (model_config model).

Definition model_reasoning_history_strategy (model : string) : option ReasoningHistoryStrategy :=
  let normalized := to_ascii_lowercase (canonical model) in
  let normalized :=
    match strip_prefix "openai/" normalized with
    | Some s => s
    | None => default normalized (strip_prefix "tinfoil/" normalized)
    end in
  if decide (normalized ∈ ["kimi-k2-6"; "kimi-k2.6"; "kimi-k3"]) then Some KimiPreserveThinking
  else if decide (normalized ∈ ["glm-5-2"; "glm-5.2"]) then Some GlmClearThinking
  else None.
Definition model_supports_reasoning_history (model : string) : bool :=
  bool_decide (is_Some (model_reasoning_history_strategy model)).

(** ** Catalog responses *)
Definition caps_json (c : ModelCapabilities) : Value :=
  Object [("chat", Bool (chat c)); ("vision", Bool (vision c)); ("reasoning", Bool (reasoning c));
          ("tool_use", Bool (tool_use c))].
Definition tasks (e : ModelConfigEntry) : list string :=
  "generate" :: (if vision (capabilities e) then ["vision"] else []).

Definition add_opt (name : string) (o : option string) (v : Value) : Value :=
  match o with Some s => set name (Str s) v | None => v end.

Definition catalog_json (e : ModelConfigEntry) : Value :=
  let value := Object
    [("id", Str (id e)); ("object", Str "model"); ("created", int 0);
     ("owned_by", Str "opensecret"); ("provider", Str (catalog_provider e));
     ("provider_id", Str (catalog_provider_id e)); ("display_name", Str (display_name e));
     ("short_name", Str (short_name e)); ("description", Str (description e));
     ("context_window", int (context_window (config e)));
     ("max_context_tokens", int (context_window (config e)));
     ("access", Str (tier_as_str (access e))); ("capabilities", caps_json (capabilities e));
     ("tasks", strs (tasks e)); ("badges", strs (badges e)); ("enabled", Bool (enabled e));
     ("deprecated", Bool (deprecated e)); ("sort_order", int (sort_order e))] in
  match catalog_metadata e with
  | Some m =>
      let value := set "input_modalities" (strs (input_modalities m)) value in
      let value := set "output_modalities" (strs (output_modalities m)) value in
      let value := add_opt "parameter_size" (parameter_size m) value in
      add_opt "active_parameter_size" (active_parameter_size m) value
  | None => value
  end.

Definition openai_model_json (e : ModelConfigEntry) : Value :=
  Object
    [("id", Str (id e)); ("object", Str "model"); ("created", int 0);
     ("owned_by", Str "opensecret"); ("tasks", strs (tasks e));
     ("display_name", Str (display_name e)); ("short_name", Str (short_name e));
     ("context_window", int (context_window (config e)));
     ("max_context_tokens", int (context_window (config e)));
     ("access", Str (tier_as_str (access e))); ("capabilities", caps_json (capabilities e));
     ("badges", strs (badges e))].

(** [ModelAliasEntry::catalog_json]; the [expect] may panic. *)
Definition alias_catalog_json (a : ModelAliasEntry) (targets : ModelAliasTargets)
    : outcome Empty_set Value :=
  target_model ← expect (target_for targets (alias_id a));
  let target := model_entry target_model in
  Ok (Object
    [("id", Str (alias_id a)); ("label", Str (label a)); ("short_name", Str (alias_short_name a));
     ("description", Str (alias_description a)); ("target_model", Str target_model);
     ("access", Str (default "free" (tier_as_str ∘ access <$> target)));
     ("capabilities", default (caps_json (caps_chat false false)) (caps_json ∘ capabilities <$> target))]).

Fixpoint collect {A B} (f : A -> outcome Empty_set B) (l : list A) : outcome Empty_set (list B) :=
  match l with
  | [] => Ok []
  | x :: l => y ← f x; ys ← collect f l; Ok (y :: ys)
  end.

Definition model_catalog_response (a : ModelFeatureAccess) (targets : ModelAliasTargets)
    : outcome Empty_set Value :=
  let data := catalog_json <$>
    filter (fun e => listed e && allows_model a (id e) = true) MODEL_CONFIGS in
  aliases ← collect (fun e => alias_catalog_json e targets)
    (filter (fun e => match target_for targets (alias_id e) with
                      | Some t => allows_model a t
                      | None => false
                      end = true) MODEL_ALIAS_ENTRIES);
  Ok (Object
    [("object", Str "list"); ("data", Array data); ("aliases", Array aliases);
     ("defaults", Object [("quick", Str AUTO_QUICK_MODEL_ID); ("powerful", Str AUTO_POWERFUL_MODEL_ID)]);
     ("audio", Object
       [("transcription", Object [("available", Bool true); ("model", Str "whisper-large-v3");
                                  ("display_name", Str "Whisper Large v3")]);
        ("speech", Object [("available", Bool true); ("model", Str "voxtral-tts");
                           ("display_name", Str "Voxtral TTS")])])]).

Definition extra_model (id task display short : string) : Value :=
  Object [("id", Str id); ("object", Str "model"); ("created", int 0);
          ("owned_by", Str "opensecret"); ("tasks", strs [task]);
          ("display_name", Str display); ("short_name", Str short)].

Definition openai_models_response (a : ModelFeatureAccess) : Value :=
  let data := openai_model_json <$>
    filter (fun e => api_listed e && enabled e && allows_model a (id e) = true) MODEL_CONFIGS in
  Object
    [("object", Str "list");
     ("data", Array (data ++
       [ extra_model "whisper-large-v3" "transcribe" "Whisper Large v3" "Whisper";
         extra_model "voxtral-small-24b" "transcribe" "Voxtral Small 24B" "Voxtral Small";
         extra_model "nomic-embed-text" "embed" "Nomic Embed Text" "Nomic Embed";
         extra_model "voxtral-tts" "speech" "Voxtral TTS" "Voxtral TTS" ]))].

Definition filter_model_list_response_for_access (response : Value) (a : ModelFeatureAccess) : Value :=
  match data ← get "data" response; as_array data with
  | None => response
  | Some data =>
      set "data" (Array (filter (fun model =>
        match i ← get "id" model; as_str i with
        | None => true
        | Some i => allows_model a i
        end = true) data)) response
  end.

(** ** Lemmas *)
Lemma find_entry_Some p e :
  find_entry p = Some e -> e ∈ MODEL_CONFIGS /\ p e = true.
Proof.
  unfold find_entry. intros ([i e'] & (Hi & Hp & _)%list_find_Some & ->)%fmap_Some.
  split; [by eapply list_elem_of_lookup_2|done].
Qed.

Lemma find_entry_None p : find_entry p = None -> forall e, e ∈ MODEL_CONFIGS -> p e = false.
Proof.
  unfold find_entry. intros Hn%fmap_None e He. apply list_find_None in Hn.
  rewrite Forall_forall in Hn. apply not_true_is_false. auto.
Qed.

(** No identifier of the table is a prefix of another one, in particular the
    identifiers are distinct; and none is in the name space of the aliases. *)
Lemma table_prefix_free e e' :
  e ∈ MODEL_CONFIGS -> e' ∈ MODEL_CONFIGS -> starts_with (id e) (id e') = true -> e = e'.
Proof.
  assert (forallb (fun e1 => forallb (fun e2 =>
    negb (starts_with (id e1) (id e2)) || bool_decide (id e1 = id e2)) MODEL_CONFIGS)
    MODEL_CONFIGS = true) as Hpre by (vm_compute; reflexivity).
  assert (NoDup (id <$> MODEL_CONFIGS)) as Hnd by (apply (bool_decide_unpack _); vm_compute; exact I).
  intros He He' Hs. rewrite forallb_forall in Hpre.
  specialize (Hpre e ltac:(by apply list_elem_of_In)). rewrite forallb_forall in Hpre.
  specialize (Hpre e' ltac:(by apply list_elem_of_In)).
  rewrite Hs in Hpre. cbn [negb orb] in Hpre. apply bool_decide_eq_true in Hpre.
  apply list_elem_of_lookup in He as [i Hi], He' as [j Hj].
  assert (i = j) as ->; [|congruence].
  apply (NoDup_lookup _ _ _ (id e) Hnd); rewrite list_lookup_fmap; [by rewrite Hi|].
  rewrite Hj. cbn. by rewrite Hpre.
Qed.

Lemma starts_with_prefix_of p q s :
  starts_with p s = true -> starts_with q s = true ->
  starts_with p q = true \/ starts_with q p = true.
Proof.
  unfold starts_with. rewrite !bool_decide_eq_true. unfold is_Some. setoid_rewrite strip_prefix_Some.
  intros [a Ha] [b Hb]. rewrite Ha in Hb. clear Ha s.
  revert q Hb. induction p as [|x p IH]; intros [|y q] Hb; cbn in *; simplify_eq; eauto.
  destruct (IH q) as [[c ->]|[c ->]]; eauto.
Qed.

Lemma starts_with_app p s : starts_with p (p +:+ s) = true.
Proof. unfold starts_with. apply bool_decide_eq_true. exists s. by apply strip_prefix_Some. Qed.

Lemma entry_by_id e : e ∈ MODEL_CONFIGS -> find_entry (fun e' => bool_decide (id e' = id e)) = Some e.
Proof.
  intros He. destruct (find_entry _) as [e'|] eqn:Hf.
  - apply find_entry_Some in Hf as [He' Hid%bool_decide_eq_true]. f_equal.
    apply table_prefix_free; [done..|]. rewrite Hid, <- (string_app_nil_r (id e)) at 1.
    rewrite string_app_nil_r. rewrite <- (string_app_nil_r (id e)) at 2. apply starts_with_app.
  - eapply find_entry_None in Hf; [|exact He]. by rewrite bool_decide_true in Hf.
Qed.

Lemma not_alias_canonical s : starts_with "auto:" s = false -> canonical s = s.
Proof.
  intros Hs. unfold canonical, alias_target, target_for.
  repeat (case_decide; [subst s; by vm_compute in Hs|]). done.
Qed.

(** A name that extends an identifier of the table is not an alias. *)
Lemma table_not_alias e s : e ∈ MODEL_CONFIGS -> canonical (id e +:+ s) = id e +:+ s.
Proof.
  intros He. apply not_alias_canonical.
  repeat (apply elem_of_cons in He as [->|He]; [reflexivity|]). by apply elem_of_nil in He.
Qed.

(** Case analysis of a model name: the two aliases, or a name that stands for
    itself. *)
Lemma model_name_cases model :
  model = AUTO_QUICK_MODEL_ID \/ model = AUTO_POWERFUL_MODEL_ID \/
  (canonical model = model /\ is_auto_model_alias model = false /\ forall t, resolve t model = model).
Proof.
  unfold canonical, alias_target, target_for, is_auto_model_alias, resolve.
  repeat (case_decide; [by auto|]). right; right. by rewrite !bool_decide_false.
Qed.

(** The provider is sent the identifier itself. *)
Lemma completion_is_public model : resolve_completion_model_id model = resolve_public_model_id model.
Proof.
  unfold resolve_completion_model_id, resolve_public_model_id.
  destruct (find_entry _) as [e|] eqn:Hf; [|done]. cbn. f_equal. apply find_entry_Some in Hf as [He _].
  repeat (apply elem_of_cons in He as [->|He]; [reflexivity|]). by apply elem_of_nil in He.
Qed.

Lemma resolve_public_elem model i :
  resolve_public_model_id model = Some i -> exists e, e ∈ MODEL_CONFIGS /\ i = id e.
Proof. intros (e & [He _]%find_entry_Some & ->)%fmap_Some. eauto. Qed.

(** ** Properties *)

(** Alias resolution and access control commute: whatever the plan of the
    user and the alias overrides, checking the plan or the feature access of the
    name the request gave is the same as checking the model the alias resolves
    to for that user; the resolved name is never an alias again, and it can be
    served exactly when the requested name can. *)
Theorem alias_checks_commute (p : ModelPlan) (o : PaidModelAliasOverrides) (a : ModelFeatureAccess)
    (model : string) :
  let resolved := resolve (for_plan_with_overrides p o) model in
  is_auto_model_alias resolved = false /\
  plan_allows_model p resolved = plan_allows_model p model /\
  allows_model a resolved = allows_model a model /\
  model_requires_feature_flag resolved = model_requires_feature_flag model /\
  (is_Some (resolve_completion_model_id resolved) <-> is_Some (resolve_completion_model_id model)) /\
  (is_auto_model_alias model = true -> resolve_public_model_id resolved = Some resolved).
Proof.
  intros resolved. destruct (model_name_cases model) as [->|[->|(_ & Ha & Hr)]].
  1,2: destruct p, o as [[] []], a as [[]]; repeat split; vm_compute; eauto.
  subst resolved. rewrite Hr. repeat split; auto. by rewrite Ha.
Qed.

(** The identifiers a catalog response shows under a member. *)
Definition shown (field name : string) (v : Value) : list string :=
  match data ← get field v; as_array data with
  | Some data => omap (fun m => i ← get name m; as_str i) data
  | None => []
  end.

(** The models a user with feature access [a] may see. *)
Definition visible (a : ModelFeatureAccess) (e : ModelConfigEntry) : Prop :=
  listed e = true /\ forall flag, required_feature_flag e = Some flag -> flag_enabled a flag = true.

(** The catalog shows exactly the listed models whose feature flag, if
    any, the user has, in table order; it always builds, shows both aliases with
    the targets of the user's plan, and every alias points to a model of the
    same catalog.  The model list of the OpenAI-compatible endpoint, filtered
    for a user, is the list built for that user. *)
Theorem catalog_exact (a : ModelFeatureAccess) (p : ModelPlan) (o : PaidModelAliasOverrides) :
  exists v, model_catalog_response a (for_plan_with_overrides p o) = Ok v /\
  (exists shown_entries, shown "data" "id" v = id <$> shown_entries /\
     shown_entries `sublist_of` MODEL_CONFIGS /\
     forall e, e ∈ shown_entries <-> e ∈ MODEL_CONFIGS /\ visible a e) /\
  shown "aliases" "id" v = [AUTO_QUICK_MODEL_ID; AUTO_POWERFUL_MODEL_ID] /\
  shown "aliases" "target_model" v =
    resolve (for_plan_with_overrides p o) <$> [AUTO_QUICK_MODEL_ID; AUTO_POWERFUL_MODEL_ID] /\
  shown "aliases" "target_model" v ⊆ shown "data" "id" v /\
  filter_model_list_response_for_access (openai_models_response (MkAccess true)) a =
    openai_models_response a.
Proof.
  destruct (model_catalog_response a (for_plan_with_overrides p o)) as [v|e|] eqn:Hv; swap 1 3.
  1: by destruct a as [[]], p, o as [[] []]; vm_compute in Hv.
  1: destruct e.
  exists v. split; [done|]. split.
  - exists (filter (fun e => listed e && allows_model a (id e) = true) MODEL_CONFIGS).
    split_and!.
    + destruct a as [[]], p, o as [[] []]; vm_compute in Hv; injection Hv as <-; vm_compute; reflexivity.
    + apply sublist_filter.
    + intros e. rewrite list_elem_of_filter, andb_true_iff. unfold visible.
      assert (e ∈ MODEL_CONFIGS -> allows_model a (id e) = true <->
        forall flag, required_feature_flag e = Some flag -> flag_enabled a flag = true) as Hallow.
      { intros He. unfold allows_model, model_entry.
        rewrite <- (string_app_nil_r (id e)), table_not_alias, string_app_nil_r, entry_by_id by done.
        cbn [mbind option_bind]. destruct (required_feature_flag e); naive_solver. }
      naive_solver.
  - destruct a as [[]], p, o as [[] []]; vm_compute in Hv; injection Hv as <-;
      (split_and!; [reflexivity|reflexivity| |vm_compute; reflexivity]);
      apply (bool_decide_unpack _); vm_compute; exact I.
Qed.

(** Name resolution: a name can be served exactly when it is an
    identifier of the table that is enabled for the API, or an alias; the name
    the provider gets is the identifier.  A name that extends an identifier (a
    dated version) has the configuration of that model, no other entry can claim
    it, and every name has a positive context window. *)
Theorem name_resolution (model : string) :
  (forall i, resolve_public_model_id model = Some i <->
     i = canonical model /\
     exists e, e ∈ MODEL_CONFIGS /\ id e = i /\ api_listed e = true /\ enabled e = true) /\
  resolve_completion_model_id model = resolve_public_model_id model /\
  (forall e suffix, e ∈ MODEL_CONFIGS -> model = id e +:+ suffix ->
     model_config model = config e) /\
  ((model_config model = DEFAULT_MODEL_CONFIG /\
    forall e, e ∈ MODEL_CONFIGS -> starts_with (id e) (canonical model) = false) \/
     exists e, e ∈ MODEL_CONFIGS /\ model_config model = config e /\
               starts_with (id e) (canonical model) = true) /\
  (0 < model_context_window model)%Z.
Proof.
  assert (forall e, e ∈ MODEL_CONFIGS -> (0 < context_window (config e))%Z) as Htab.
  { intros e He. repeat (apply elem_of_cons in He as [->|He]; [vm_compute; reflexivity|]). by apply elem_of_nil in He. }
  assert ((model_config model = DEFAULT_MODEL_CONFIG /\
    forall e, e ∈ MODEL_CONFIGS -> starts_with (id e) (canonical model) = false) \/
     exists e, e ∈ MODEL_CONFIGS /\ model_config model = config e /\
               starts_with (id e) (canonical model) = true) as Hcfg.
  { unfold model_config, model_entry.
    destruct (find_entry _) as [e|] eqn:He1; [|destruct (find_entry (fun e => starts_with _ _)) as [e|] eqn:He2];
      [right; exists e|right; exists e|left; split; [done|by apply find_entry_None]].
    - apply find_entry_Some in He1 as [He Hid%bool_decide_eq_true]. split_and!; [done..|].
      rewrite <- Hid. rewrite <- (string_app_nil_r (id e)) at 2. apply starts_with_app.
    - by apply find_entry_Some in He2 as [He Hid]. }
  split_and!; [| | |done|].
  - intros i. unfold resolve_public_model_id. rewrite fmap_Some. split.
    + intros (e & (He & Hp)%find_entry_Some & ->).
      apply andb_true_iff in Hp as [[Hid%bool_decide_eq_true ?]%andb_true_iff ?]. eauto 10.
    + intros [-> (e & He & Hid & Hapi & Hen)]. destruct (find_entry _) as [e'|] eqn:Hf.
      * exists e'. split; [done|]. apply find_entry_Some in Hf as [_ Hp].
        by apply andb_true_iff in Hp as [[Hid'%bool_decide_eq_true ?]%andb_true_iff ?].
      * eapply find_entry_None in Hf; [|exact He].
        by rewrite bool_decide_true, Hapi, Hen in Hf.
  - apply completion_is_public.
  - intros e suffix He ->. pose proof (table_not_alias e suffix He) as Hc.
    destruct Hcfg as [Hd|(e' & He' & -> & Hs)]; [destruct Hd as [_ Hd]|].
    + apply Hd in He. by rewrite Hc, starts_with_app in He.
    + rewrite Hc in Hs. f_equal.
      destruct (starts_with_prefix_of _ _ _ Hs (starts_with_app (id e) suffix));
        [|symmetry]; by apply table_prefix_free.
  - unfold model_context_window. destruct Hcfg as [[-> _]|(e & He & -> & _)]; [done|]. by apply Htab.
Qed.
End Models.
