(* ===== verification/Routing.v ===== *)
(** * Provider routing

    [src/src/proxy_config.rs] (the two upstream proxies) and
    [src/src/provider_routing.rs] (which of them, and which provider model, a
    completion request uses).  The arithmetic of the weighted split is on [u32];
    an overflow panics, as in a build with overflow checks. *)

From S2P Require Import Prelude Text Encrypt Models.

(** ** Proxies *)
Module Proxy.
Record ProxyConfig := MkProxy { base_url : string; api_key : option string; provider_name : string }.
Record ProxyRouter := MkRouter { default_proxy : ProxyConfig; tinfoil_proxy : ProxyConfig }.

Definition canonicalize_tinfoil_model (model : string) : string :=
  if decide (model = "whisper-large-v3-turbo") then "whisper-large-v3" else model.

(** [ProxyRouter::new]; the [assert!] may panic. *)
Definition new (openai_base : string) (openai_key : option string) (tinfoil_base : string)
    : outcome Empty_set ProxyRouter :=
  if is_empty (trim tinfoil_base) then Panic else
  let is_openai := contains_str "api.openai.com" openai_base in
  let default_proxy := MkProxy openai_base (if is_openai then openai_key else None)
    (if is_openai then "openai" else "continuum") in
  let tinfoil_proxy := MkProxy tinfoil_base None "tinfoil" in
  Ok (MkRouter default_proxy tinfoil_proxy).

Definition get_default_proxy (r : ProxyRouter) : ProxyConfig := default_proxy r.
Definition get_completion_proxy (r : ProxyRouter) : ProxyConfig := tinfoil_proxy r.
Definition get_tinfoil_proxy (r : ProxyRouter) : ProxyConfig := tinfoil_proxy r.
End Proxy.

(** ** Routing *)
Module Routing.
Inductive ProviderName := Tinfoil | Continuum.
#[local] Instance provider_dec : EqDecision ProviderName.
Proof. solve_decision. Defined.
Definition as_str (p : ProviderName) : string :=
  match p with Tinfoil => "tinfoil" | Continuum => "continuum" end.
Inductive ProviderSelectionSource := StaticSplit | DefaultProvider | Fallback.
Record ProviderConfig := MkProvider { p_provider : ProviderName; p_weight : Z; p_enabled : bool }.
Record ModelProviderRoute := MkRoute {
  provider : ProviderName; provider_model_id : string; weight : Z; enabled : bool }.
Record ModelRoutingConfig := MkModel {
  public_model_id : string; routes : list ModelProviderRoute; default_provider : option ProviderName }.
Record ProviderRoutingConfig := MkConfig {
  providers : list ProviderConfig; models : list ModelRoutingConfig }.
Record SelectedProviderRoute := MkSelected {
  proxy : Proxy.ProxyConfig; s_public_model_id : string; s_provider_model_id : string;
  response_model_id : string; bucket : option Z; selection_source : ProviderSelectionSource }.
Inductive ProviderRoutingError := UnsupportedModel (m : string) | NoEligibleRoute (m : string).
(** [ProviderRouter] is its configuration. *)
Definition ProviderRouter : Type := ProviderRoutingConfig.
Record EligibleRoute := MkEligible {
  e_provider : ProviderName; e_proxy : Proxy.ProxyConfig; e_model : string; effective_weight : Z }.

Definition PROVIDERS : list ProviderConfig := [MkProvider Tinfoil 70 true; MkProvider Continuum 30 true].
Definition KIMI_K2_6_ROUTES : list ModelProviderRoute := [MkRoute Continuum "kimi-k2.6" 100 true].
Definition MODEL_ROUTES : list ModelRoutingConfig :=
  [MkModel "kimi-k2-6" KIMI_K2_6_ROUTES (Some Continuum)].
Definition DEFAULT_PROVIDER_ROUTING_CONFIG : ProviderRoutingConfig := MkConfig PROVIDERS MODEL_ROUTES.

(** Checked and saturating [u32] operations. *)
Definition u32 {E} (z : Z) : outcome E Z := if decide (z <= u32_max)%Z then Ok z else Panic.
Definition u32_saturating_add (a b : Z) : Z := Z.min (a + b) u32_max.
Definition u32_saturating_sub (a b : Z) : Z := Z.max (a - b) 0.

Fixpoint sum_weights {E} (acc : Z) (l : list EligibleRoute) : outcome E Z :=
  match l with
  | [] => Ok acc
  | r :: l => acc ← u32 (acc + effective_weight r); sum_weights acc l
  end.

Definition stable_account_bucket (account : Encrypt.Uuid) : Z := be_value account mod 100.

(** The loop of [select_weighted_route] from the route [r] on. *)
Fixpoint select_loop {E} (bucket total cumulative : Z) (l : list EligibleRoute)
    : outcome E (option (EligibleRoute * Z)) :=
  match l with
  | [] => Ok None
  | r :: l' =>
      let last := bool_decide (l' = []) in
      bucket_span ← (if last then Ok (u32_saturating_sub 100 cumulative)
                     else (scaled ← u32 (effective_weight r * 100); Ok (scaled / total))%Z);
      let cumulative := u32_saturating_add cumulative bucket_span in
      if bool_decide (bucket < cumulative)%Z || last then Ok (Some (r, bucket))
      else select_loop bucket total cumulative l'
  end.

Definition select_weighted_route {E} (account : Encrypt.Uuid) (l : list EligibleRoute)
    : outcome E (option (EligibleRoute * Z)) :=
  if bool_decide (l = []) then Ok None else
  total_weight ← sum_weights 0 l;
  if bool_decide (total_weight = 0)%Z then Ok None else
  select_loop (stable_account_bucket account) total_weight 0 l.

Definition proxy_for_provider (r : Proxy.ProxyRouter) (p : ProviderName) : option Proxy.ProxyConfig :=
  match p with
  | Tinfoil => Some (Proxy.get_tinfoil_proxy r)
  | Continuum =>
      let proxy := Proxy.get_default_proxy r in
      if decide (Proxy.provider_name proxy = as_str Continuum) then Some proxy else None
  end.

Definition provider_config (self : ProviderRouter) (p : ProviderName) : option ProviderConfig :=
  snd <$> list_find (fun c => p_provider c = p) (providers self).
Definition model_config (self : ProviderRouter) (id : string) : option ModelRoutingConfig :=
  snd <$> list_find (fun c => public_model_id c = id) (models self).

(** One turn of the loop that collects the eligible routes. *)
Definition eligible_route (self : ProviderRouter) (pr : Proxy.ProxyRouter) (r : ModelProviderRoute)
    : option EligibleRoute :=
  if negb (enabled r) || bool_decide (weight r = 0)%Z then None else
  c ← provider_config self (provider r);
  if negb (p_enabled c) || bool_decide (p_weight c = 0)%Z then None else
  proxy ← proxy_for_provider pr (provider r);
  Some (MkEligible (provider r) proxy (provider_model_id r) (p_weight c * weight r)).

Definition select_configured_route (self : ProviderRouter) (pr : Proxy.ProxyRouter)
    (account : Encrypt.Uuid) (m : ModelRoutingConfig)
    : outcome ProviderRoutingError SelectedProviderRoute :=
  let eligible_routes := omap (eligible_route self pr) (routes m) in
  if bool_decide (eligible_routes = []) then Err (NoEligibleRoute (public_model_id m)) else
  let preferred_route :=
    p ← default_provider m;
    snd <$> list_find (fun r => e_provider r = p) eligible_routes in
  '(selected, bucket, source) ←
    match preferred_route with
    | Some r => Ok (r, None, DefaultProvider)
    | None =>
        sel ← select_weighted_route account eligible_routes;
        '(r, b) ← ok_or (NoEligibleRoute (public_model_id m)) sel;
        Ok (r, Some b, if bool_decide (is_Some (default_provider m)) then Fallback else StaticSplit)
    end;
  Ok (MkSelected (e_proxy selected) (public_model_id m) (e_model selected) (public_model_id m)
        bucket source).

Definition fallback_completion_route (pr : Proxy.ProxyRouter) (requested : string)
    : outcome ProviderRoutingError SelectedProviderRoute :=
  let proxy := Proxy.get_completion_proxy pr in
  let tinfoil := bool_decide (Proxy.provider_name proxy = as_str Tinfoil) in
  let resolved := Models.resolve_public_model_id requested in
  provider_model ←
    (if tinfoil then ok_or (UnsupportedModel requested) (Models.resolve_completion_model_id requested)
     else Ok (default requested resolved));
  let public := default provider_model resolved in
  let response := if tinfoil then Proxy.canonicalize_tinfoil_model provider_model else public in
  Ok (MkSelected proxy public provider_model response None StaticSplit).

Definition select_completion_route (self : ProviderRouter) (pr : Proxy.ProxyRouter)
    (account : Encrypt.Uuid) (requested : string)
    : outcome ProviderRoutingError SelectedProviderRoute :=
  match (id ← Models.resolve_public_model_id requested; model_config self id) with
  | Some m => select_configured_route self pr account m
  | None => fallback_completion_route pr requested
  end.

(** ** Lemmas *)
Definition total (l : list EligibleRoute) : Z := foldr Z.add 0%Z (effective_weight <$> l).
Definition weighted (l : list EligibleRoute) : Prop := Forall (fun r => 0 <= effective_weight r)%Z l.

(** The share of a route, in buckets out of 100, and of the routes before it. *)
Definition share (t : Z) (r : EligibleRoute) : Z := effective_weight r * 100 / t.
Definition shares (t : Z) (l : list EligibleRoute) : Z := foldr Z.add 0%Z (share t <$> l).

Lemma total_nonneg l : weighted l -> (0 <= total l)%Z.
Proof. induction 1; cbn in *; unfold total in *; lia. Qed.

Lemma sum_weights_exact {E} acc l :
  weighted l -> (0 <= acc)%Z -> (acc + total l <= u32_max)%Z ->
  @sum_weights E acc l = Ok (acc + total l)%Z.
Proof.
  intros Hw. revert acc. induction Hw as [|r l Hr Hw IH]; intros acc Ha Hb; cbn.
  - f_equal. unfold total. cbn. lia.
  - pose proof (total_nonneg l Hw). unfold total in *. cbn in *. unfold u32.
    rewrite decide_True by lia. cbn. rewrite IH by lia. f_equal. lia.
Qed.

Lemma shares_bound t l :
  weighted l -> (0 < t)%Z -> (0 <= shares t l /\ shares t l * t <= total l * 100)%Z.
Proof.
  intros Hw Ht. induction Hw as [|r l Hr Hw IH]; unfold shares, total in *; cbn in *; [lia|].
  assert (0 <= share t r /\ share t r * t <= effective_weight r * 100)%Z; [|lia].
  unfold share. split; [apply Z.div_pos; lia|]. rewrite Z.mul_comm. apply Z.mul_div_le. lia.
Qed.

Lemma shares_app t l1 l2 : shares t (l1 ++ l2) = (shares t l1 + shares t l2)%Z.
Proof. unfold shares. induction l1 as [|r l1 IH]; cbn in *; lia. Qed.
Lemma total_app l1 l2 : total (l1 ++ l2) = (total l1 + total l2)%Z.
Proof. unfold total. induction l1 as [|r l1 IH]; cbn in *; lia. Qed.

(** The loop stops at the route whose interval of buckets holds the bucket. *)
Lemma select_loop_exact {E} b t l0 l :
  weighted (l0 ++ l) -> (0 < t)%Z -> total (l0 ++ l) = t -> (t * 100 <= u32_max)%Z ->
  (b < 100)%Z -> (shares t l0 <= b)%Z -> l <> [] ->
  exists l1 r l2, l = l1 ++ r :: l2 /\ @select_loop E b t (shares t l0) l = Ok (Some (r, b)) /\
    (shares t (l0 ++ l1) <= b)%Z /\ (l2 <> [] -> b < shares t (l0 ++ l1 ++ [r]))%Z.
Proof.
  intros Hw Ht Htot Hmax Hb. revert l0 Hw Htot.
  induction l as [|r l IH]; intros l0 Hw Htot Hlo Hne; [done|].
  assert (0 <= effective_weight r /\ 0 <= total l0 /\ 0 <= total l)%Z as (Hr & H0 & Hl).
  { apply Forall_app in Hw as [Hw0 [Hwr Hwl]%Forall_cons]. auto using total_nonneg. }
  assert (0 <= shares t l0 <= 100)%Z as Hs0.
  { apply Forall_app in Hw as [Hw0 _]. pose proof (shares_bound t l0 Hw0 Ht).
    rewrite total_app in Htot. unfold total in Htot at 2. cbn in Htot. fold (total l) in Htot. nia. }
  cbn [select_loop]. destruct (decide (l = [])) as [->|Hl0].
  - exists [], r, []. rewrite !bool_decide_true by done. cbn [mbind outcome_bind]. rewrite orb_true_r, app_nil_r. done.
  - rewrite (bool_decide_false (l = [])) by done. cbn [negb]. unfold u32.
    rewrite total_app in Htot. unfold total in Htot at 2. cbn in Htot. fold (total l) in Htot.
    rewrite decide_True by nia. cbn [mbind outcome_bind]. fold (share t r).
    assert (Hwr : weighted (l0 ++ [r])).
    { apply Forall_app in Hw as [? [? ?]%Forall_cons]. apply Forall_app. split; [done|by repeat constructor]. }
    pose proof (shares_bound t _ Hwr Ht) as Hsr.
    assert (Hsx : shares t (l0 ++ [r]) = (shares t l0 + share t r)%Z).
    { rewrite shares_app. unfold shares at 2. cbn. lia. }
    rewrite total_app in Hsr. unfold total in Hsr at 2. cbn in Hsr.
    assert (u32_saturating_add (shares t l0) (share t r) = shares t (l0 ++ [r])) as ->.
    { rewrite Hsx. unfold u32_saturating_add, u32_max in *. apply Z.min_l. nia. }
    rewrite orb_false_r. case_bool_decide as Hlt.
    + exists [], r, l. cbn. rewrite app_nil_r. auto.
    + destruct (IH (l0 ++ [r])) as (l1 & r' & l2 & -> & Hsel & Hlo' & Hhi).
      * by rewrite <- app_assoc.
      * by rewrite <- app_assoc, total_app; unfold total at 2; cbn; fold (total l); lia.
      * lia.
      * done.
      * exists (r :: l1), r', l2. rewrite <- !app_assoc in Hlo', Hhi. auto.
Qed.

Lemma bucket_bound account : (0 <= stable_account_bucket account < 100)%Z.
Proof. apply Z.mod_pos_bound. lia. Qed.

Lemma select_weighted_exact {E} account l :
  weighted l -> (0 < total l)%Z -> (total l * 100 <= u32_max)%Z ->
  exists l1 r l2, l = l1 ++ r :: l2 /\
    @select_weighted_route E account l = Ok (Some (r, stable_account_bucket account)) /\
    (shares (total l) l1 <= stable_account_bucket account)%Z /\
    (l2 <> [] -> stable_account_bucket account < shares (total l) (l1 ++ [r]))%Z.
Proof.
  intros Hw Ht Hmax. unfold select_weighted_route.
  rewrite bool_decide_false by (intros ->; cbn in Ht; lia).
  rewrite sum_weights_exact by (try done; lia). cbn [mbind outcome_bind].
  rewrite Z.add_0_l, (bool_decide_false (total l = 0%Z)) by lia.
  pose proof (bucket_bound account) as Hb.
  destruct (select_loop_exact (E:=E) (stable_account_bucket account) (total l) [] l)
    as (l1 & r & l2 & Hl & Hsel & Hlo & Hhi); try done; try lia.
  { unfold shares. cbn. lia. }
  { intros ->. cbn in Ht. lia. }
  exists l1, r, l2. done.
Qed.

(** [u16] weights. *)
Definition u16_weights (self : ProviderRouter) (m : ModelRoutingConfig) : Prop :=
  Forall (fun c => 0 <= p_weight c <= u16_max)%Z (providers self) /\
  Forall (fun r => 0 <= weight r <= u16_max)%Z (routes m).

(** What makes a route eligible. *)
Definition eligible (self : ProviderRouter) (pr : Proxy.ProxyRouter) (r : ModelProviderRoute)
    (e : EligibleRoute) : Prop :=
  enabled r = true /\ weight r <> 0%Z /\
  exists c, provider_config self (provider r) = Some c /\ p_enabled c = true /\ p_weight c <> 0%Z /\
    proxy_for_provider pr (provider r) = Some (e_proxy e) /\
    e_provider e = provider r /\ e_model e = provider_model_id r /\
    effective_weight e = (p_weight c * weight r)%Z.

Lemma eligible_route_Some self pr r e : eligible_route self pr r = Some e -> eligible self pr r e.
Proof.
  unfold eligible_route, eligible. destruct (enabled r); cbn [negb orb]; [|done].
  case_bool_decide; [done|]. intros (c & Hc & He)%bind_Some.
  destruct (p_enabled c) eqn:?; cbn [negb orb] in He; [|done]. case_bool_decide; [done|].
  apply bind_Some in He as (proxy & Hp & [= <-]). naive_solver.
Qed.

Lemma eligible_weights self pr m :
  u16_weights self m -> Forall (fun e => 0 < effective_weight e)%Z (omap (eligible_route self pr) (routes m)).
Proof.
  intros [Hc Hr]. apply Forall_forall. intros e (r & Hin & He)%list_elem_of_omap.
  apply eligible_route_Some in He as (_ & Hw & c & Hpc & _ & Hcw & _ & _ & _ & ->).
  rewrite Forall_forall in Hr. rewrite Forall_forall in Hc. specialize (Hr r Hin).
  unfold provider_config in Hpc. apply fmap_Some in Hpc as ([i c'] & Hf & ->).
  apply list_find_Some in Hf as (Hi & _). specialize (Hc c' ltac:(by eapply list_elem_of_lookup_2)).
  cbn in *. nia.
Qed.

Lemma total_positive l : Forall (fun e => 0 < effective_weight e)%Z l -> l <> [] -> (0 < total l)%Z.
Proof.
  intros Hl Hne. destruct Hl as [|r l Hr Hl]; [done|].
  assert (0 <= total l)%Z by (apply total_nonneg; eapply Forall_impl; [exact Hl|]; cbn; lia).
  unfold total in *. cbn. lia.
Qed.

#[local] Arguments Models.resolve_public_model_id : simpl never.
#[local] Arguments Models.resolve_completion_model_id : simpl never.

(** ** Properties *)

(** The weighted split is exact and stable: over the hundred account
    buckets, every route but the last owns an interval of [weight * 100 / total]
    buckets, the last one the rest; the route of an account is the one whose
    interval holds its bucket, which depends on nothing but the account. *)
Theorem weighted_split (account : Encrypt.Uuid) (l : list EligibleRoute)
    (Hw : weighted l) (Hpos : (0 < total l)%Z) (Hmax : (total l * 100 <= u32_max)%Z) :
  (exists l1 r l2, l = l1 ++ r :: l2 /\
    @select_weighted_route ProviderRoutingError account l = Ok (Some (r, stable_account_bucket account)) /\
    (shares (total l) l1 <= stable_account_bucket account)%Z /\
    (stable_account_bucket account <
       if decide (l2 = []) then 100 else shares (total l) l1 + effective_weight r * 100 / total l)%Z) /\
  (0 <= stable_account_bucket account < 100)%Z /\
  forall l1 l2, l = l1 ++ l2 -> (total l1 * 100 - Z.of_nat (length l1) * total l <= shares (total l) l1 * total l <= total l1 * 100)%Z.
Proof.
  split_and!.
  - destruct (select_weighted_exact (E:=ProviderRoutingError) account l)
      as (l1 & r & l2 & Hl & Hsel & Hlo & Hhi); try done.
    exists l1, r, l2. split_and!; try done. case_decide as Hl2; [apply bucket_bound|].
    specialize (Hhi Hl2). rewrite shares_app in Hhi. unfold shares at 2 in Hhi. cbn in Hhi.
    unfold share in Hhi. lia.
  - apply bucket_bound.
  - apply bucket_bound.
  - intros l1 l2 ->. assert (weighted l1) as Hw1 by (by apply Forall_app in Hw as [? _]).
    remember (total (l1 ++ l2)) as t eqn:Ht. clear Ht Hmax Hw.
    split; [|by apply shares_bound].
    induction Hw1 as [|r l1 Hr Hw1 IH]; unfold shares, total in *; cbn [fmap list_fmap foldr length] in *; [lia|].
    pose proof (Z_div_mod_eq_full (effective_weight r * 100) t).
    pose proof (Z.mod_pos_bound (effective_weight r * 100) t ltac:(lia)).
    unfold share at 1. nia.
Qed.

(** Route selection for a configured model, for any configuration whose
    weights fit [u16] and whose hundredfold total fits [u32]: it fails exactly
    when no route is eligible; otherwise the request goes through the proxy and
    to the model of an enabled route of an enabled provider with positive
    weights, to the default provider whenever one of its routes is eligible, and
    else by the account's bucket. *)
Theorem configured_selection (self : ProviderRouter) (pr : Proxy.ProxyRouter)
    (account : Encrypt.Uuid) (m : ModelRoutingConfig)
    (Hw : u16_weights self m)
    (Hmax : (total (omap (eligible_route self pr) (routes m)) * 100 <= u32_max)%Z) :
  match select_configured_route self pr account m with
  | Panic => False
  | Err e => e = NoEligibleRoute (public_model_id m) /\ omap (eligible_route self pr) (routes m) = []
  | Ok s => exists r e, r ∈ routes m /\ eligible self pr r e /\
      proxy s = e_proxy e /\ s_provider_model_id s = provider_model_id r /\
      s_public_model_id s = public_model_id m /\ response_model_id s = public_model_id m /\
      match default_provider m with
      | None => selection_source s = StaticSplit /\ bucket s = Some (stable_account_bucket account)
      | Some d =>
          (provider r = d /\ selection_source s = DefaultProvider /\ bucket s = None) \/
          (Forall (fun e => e_provider e <> d) (omap (eligible_route self pr) (routes m)) /\
           selection_source s = Fallback /\ bucket s = Some (stable_account_bucket account))
      end
  end.
Proof.
  unfold select_configured_route. set (l := omap _ _) in *.
  pose proof (eligible_weights self pr m Hw) as Hpos. fold l in Hpos.
  case_bool_decide as Hl; [done|].
  assert (forall e, e ∈ l -> exists r, r ∈ routes m /\ eligible self pr r e) as Hel.
  { intros e (r & Hin & He)%list_elem_of_omap. eauto using eligible_route_Some. }
  destruct (p ← default_provider m; snd <$> list_find (fun r => e_provider r = p) l) as [e|] eqn:Hp.
  - cbn. apply bind_Some in Hp as (d & Hd & ([i e'] & (Hi & Hpd & _)%list_find_Some & ->)%fmap_Some).
    destruct (Hel e') as (r & Hr & He); [by eapply list_elem_of_lookup_2|].
    rewrite Hd. exists r, e'. pose proof He as (_ & _ & c & _ & _ & _ & _ & Hprov & Hmod & _).
    split_and!; try done. left. split_and!; try done. cbn in *. congruence.
  - destruct (select_weighted_exact (E:=ProviderRoutingError) account l)
      as (l1 & e & l2 & Hle & -> & _); [|by apply total_positive|done|].
    { eapply Forall_impl; [exact Hpos|]. cbn. lia. }
    cbn. destruct (Hel e) as (r & Hr & He); [rewrite Hle; set_solver|].
    exists r, e. pose proof He as (_ & _ & c & _ & _ & _ & _ & Hprov & Hmod & _).
    split_and!; try done. destruct (default_provider m) as [d|]; [|done].
    right. rewrite bool_decide_true by eauto. split_and!; try done.
    cbn in Hp. apply fmap_None, list_find_None in Hp. done.
Qed.

(** The shipped configuration, for every account: a Kimi K2.6 request
    (by name or alias) goes to Continuum under the provider's own model name
    when the default proxy is Continuum and is refused otherwise; every other
    enabled model goes to Tinfoil under its own name; a name that is no model
    is refused.  An API key is attached to no upstream but [api.openai.com]. *)
Theorem shipped_routing (account : Encrypt.Uuid) (openai_base : string) (key : option string)
    (tinfoil_base requested : string) (Hbase : is_empty (trim tinfoil_base) = false) :
  exists pr, Proxy.new openai_base key tinfoil_base = Ok pr /\
  let is_openai := contains_str "api.openai.com" openai_base in
  select_completion_route DEFAULT_PROVIDER_ROUTING_CONFIG pr account requested =
    match Models.resolve_public_model_id requested with
    | None => Err (UnsupportedModel requested)
    | Some i =>
        if decide (i = "kimi-k2-6")
        then if is_openai then Err (NoEligibleRoute "kimi-k2-6")
             else Ok (MkSelected (Proxy.MkProxy openai_base None "continuum")
                        "kimi-k2-6" "kimi-k2.6" "kimi-k2-6" None DefaultProvider)
        else Ok (MkSelected (Proxy.MkProxy tinfoil_base None "tinfoil") i i i None StaticSplit)
    end.
Proof.
  unfold Proxy.new. rewrite Hbase. eexists. split; [done|]. cbn zeta.
  unfold select_completion_route.
  destruct (Models.resolve_public_model_id requested) as [i|] eqn:Hi; cbn [mbind option_bind].
  - unfold model_config. cbn [models DEFAULT_PROVIDER_ROUTING_CONFIG MODEL_ROUTES list_find public_model_id].
    destruct (decide (i = "kimi-k2-6")) as [->|Hne].
    + rewrite decide_True by done. cbn [fmap option_fmap option_map snd].
      unfold select_configured_route. cbn [routes KIMI_K2_6_ROUTES omap list_omap].
      destruct (contains_str _ openai_base); vm_compute; reflexivity.
    + rewrite decide_False by done. cbn.
      unfold fallback_completion_route. cbn.
      rewrite Models.completion_is_public, Hi. cbn. do 2 f_equal.
      apply Models.resolve_public_elem in Hi as (e & He & ->).
      repeat (apply elem_of_cons in He as [->|He]; [reflexivity|]). by apply elem_of_nil in He.
  - cbn. unfold fallback_completion_route. cbn. by rewrite Models.completion_is_public, Hi.
Qed.

Definition demo_account : Encrypt.Uuid := [Byte.x01; Byte.x2c].
Definition demo_router : Proxy.ProxyRouter :=
  Proxy.MkRouter (Proxy.MkProxy "http://continuum" None "continuum") (Proxy.MkProxy "http://tinfoil" None "tinfoil").
Definition demo_model : ModelRoutingConfig :=
  MkModel "m" [MkRoute Tinfoil "a" 100 true; MkRoute Continuum "b" 100 true] None.
Definition demo_eligible : list EligibleRoute :=
  omap (eligible_route DEFAULT_PROVIDER_ROUTING_CONFIG demo_router) (routes demo_model).

Lemma weighted_split_witness :
  weighted demo_eligible /\
  exists l1 r l2, demo_eligible = l1 ++ r :: l2 /\
    @select_weighted_route ProviderRoutingError demo_account demo_eligible =
      Ok (Some (r, stable_account_bucket demo_account)).
Proof.
  assert (weighted demo_eligible) as Hw by (repeat constructor; cbn; lia).
  split; [done|].
  destruct (weighted_split demo_account demo_eligible Hw) as [(l1 & r & l2 & Hl & Hs & _) _];
    [vm_compute; reflexivity|vm_compute; discriminate|].
  exists l1, r, l2. done.
Defined.

Lemma demo_u16 : u16_weights DEFAULT_PROVIDER_ROUTING_CONFIG demo_model.
Proof. split; repeat constructor; cbn; discriminate. Qed.

Lemma configured_selection_witness :
  match select_configured_route DEFAULT_PROVIDER_ROUTING_CONFIG demo_router demo_account demo_model with
  | Ok s => exists r e, r ∈ routes demo_model /\
      eligible DEFAULT_PROVIDER_ROUTING_CONFIG demo_router r e /\ proxy s = e_proxy e
  | _ => False
  end.
Proof.
  pose proof (configured_selection DEFAULT_PROVIDER_ROUTING_CONFIG demo_router demo_account demo_model
    demo_u16 ltac:(vm_compute; discriminate)) as H.
  destruct (select_configured_route _ _ _ _) as [s|e|] eqn:Hs; vm_compute in Hs; [|discriminate..].
  destruct H as (r & e & Hr & He & Hp & _). exists r, e. done.
Defined.

Lemma shipped_routing_witness :
  is_empty (trim "http://tinfoil") = false /\
  exists pr, Proxy.new "http://continuum" None "http://tinfoil" = Ok pr /\
    select_completion_route DEFAULT_PROVIDER_ROUTING_CONFIG pr demo_account "auto:powerful" =
      Ok (MkSelected (Proxy.MkProxy "http://continuum" None "continuum")
            "kimi-k2-6" "kimi-k2.6" "kimi-k2-6" None DefaultProvider).
Proof.
  split; [vm_compute; reflexivity|].
  exact (shipped_routing demo_account "http://continuum" None "http://tinfoil" "auto:powerful" eq_refl).
Defined.
End Routing.
