(* ===== verification/Conversions.v ===== *)
(** * Message content and conversation items

    [src/src/web/responses/types.rs] and
    [src/src/web/responses/conversions.rs]: the content of user messages, its
    conversion to the chat-completion format and to the items of the
    Conversations API, and token estimates.  The tokenizer and the derived JSON
    (de)serializer of [MessageContent] are interfaces. *)

From S2P Require Import Prelude Text Crypto Api Encrypt Json.

(** The tokenizer ([tiktoken]). *)
Class Tokenizer := count_tokens : string -> Z.
(** [serde_json] on the content type: parsing and printing. *)
Module Conversions.
Inductive MessageContentPart :=
| Text (text : string)
| InputText (text : string)
| InputImage (image_url file_id detail : option string)
| InputFile (filename file_data : string).

Inductive MessageContent :=
| ContentText (text : string)
| ContentParts (parts : list MessageContentPart).

Class ContentJson := {
  content_from_str : string -> option MessageContent;
  content_to_string : MessageContent -> string;
}.
Class ContentJsonLaws (j : ContentJson) : Prop := {
  content_roundtrip c : content_from_str (content_to_string c) = Some c;
  content_utf8 c : is_utf8 (content_to_string c) = true;
}.

Inductive ConversationContent :=
| OutText (text : string)
| OutInputText (text : string)
| OutputText (text : string)
| OutInputImage (image_url : string)
| OutInputFile (filename : string).

(** [From<MessageContent> for Vec<ConversationContent>]. *)
Definition conversation_content (c : MessageContent) : list ConversationContent :=
  match c with
  | ContentText text => [OutInputText text]
  | ContentParts parts =>
      omap (fun part => match part with
        | Text text | InputText text => Some (OutInputText text)
        | InputImage image_url _ _ => OutInputImage <$> image_url
        | InputFile filename _ => Some (OutInputFile filename)
        end) parts
  end.

(** ** [MessageContentConverter] *)
Definition INPUT_IMAGE_TOKEN_ESTIMATE : Z := 1024.

Fixpoint validate_parts (parts : list MessageContentPart) : outcome Api.ApiError unit :=
  match parts with
  | [] => Ok tt
  | InputImage image_url file_id _ :: parts =>
      if bool_decide (is_Some file_id) then Err Api.BadRequest
      else if bool_decide (image_url = None) then Err Api.BadRequest
      else validate_parts parts
  | _ :: parts => validate_parts parts
  end.
Definition validate_content (c : MessageContent) : outcome Api.ApiError unit :=
  match c with ContentText _ => Ok tt | ContentParts parts => validate_parts parts end.

Definition normalize_content (c : MessageContent) : MessageContent :=
  match c with
  | ContentText text => ContentParts [InputText text]
  | ContentParts parts => ContentParts parts
  end.

Definition content_part_to_openai (part : MessageContentPart) : Value :=
  match part with
  | Text text | InputText text => Object [("type", Str "text"); ("text", Str text)]
  | InputImage image_url _ detail =>
      let image_obj := Object [("url", Str (default EmptyString image_url))] in
      let image_obj := match detail with Some d => set "detail" (Str d) image_obj | None => image_obj end in
      Object [("type", Str "image_url"); ("image_url", image_obj)]
  | InputFile filename file_data =>
      Object [("type", Str "file");
              ("file", Object [("filename", Str filename); ("file_data", Str file_data)])]
  end.
Definition to_openai_format (c : MessageContent) : Value :=
  match c with
  | ContentText text => Str text
  | ContentParts parts => Array (content_part_to_openai <$> parts)
  end.

Definition assistant_text_to_content (text : string) : list ConversationContent := [OutputText text].

Definition extract_text_for_token_counting (c : MessageContent) : string :=
  match c with
  | ContentText text => text
  | ContentParts parts =>
      join " " (omap (fun part => match part with
        | Text text | InputText text => Some text
        | InputImage _ _ _ | InputFile _ _ => None
        end) parts)
  end.

Definition usize_saturating_add (a b : Z) : Z := Z.min (a + b) usize_max.

Section tokens.
Context `{Tokenizer}.

Definition estimate_content_part_tokens (part : MessageContentPart) : Z :=
  match part with
  | Text text | InputText text => count_tokens text
  | InputImage _ _ _ => INPUT_IMAGE_TOKEN_ESTIMATE
  | InputFile filename _ => count_tokens filename
  end.
Definition estimate_prompt_tokens (c : MessageContent) : Z :=
  match c with
  | ContentText text => count_tokens text
  | ContentParts parts =>
      foldl (fun total part => usize_saturating_add total (estimate_content_part_tokens part)) 0%Z parts
  end.
End tokens.

(** ** Rows and items *)
Record RawThreadMessage := MkRaw {
  message_type : string; id : Z; uuid : Encrypt.Uuid; content_enc : option bytes;
  status : option string; created_at : Z; model : option string; token_count : option Z;
  tool_call_id : option Encrypt.Uuid; finish_reason : option string; tool_name : option string }.

Definition ROLE_USER := "user".
Definition ROLE_ASSISTANT := "assistant".
Definition ROLE_SYSTEM := "system".
Definition DEFAULT_TOOL_FUNCTION_NAME := "function".

Inductive ReasoningContentItem := ReasoningText (text : string).
Inductive ConversationItem :=
| Message (id : Encrypt.Uuid) (status : option string) (role : string)
    (content : list ConversationContent) (created_at : option Z)
| FunctionToolCall (id call_id : Encrypt.Uuid) (name arguments : string)
    (status : option string) (created_at : option Z)
| FunctionToolCallOutput (id call_id : Encrypt.Uuid) (output : string)
    (status : option string) (created_at : option Z)
| Reasoning (id : Encrypt.Uuid) (content : list ReasoningContentItem)
    (status : option string) (created_at : option Z).

Section items.
Context `{Crypto, ContentJson}.

Definition user_message_to_item (msg : RawThreadMessage) (content : string)
    : outcome Api.ApiError ConversationItem :=
  message_content ← ok_or Api.InternalServerError (content_from_str content);
  Ok (Message (uuid msg) (status msg) ROLE_USER (conversation_content message_content)
        (Some (created_at msg))).

Definition assistant_message_to_item (msg : RawThreadMessage) (content : string)
    : outcome Api.ApiError ConversationItem :=
  let content_parts := if is_empty content then [] else assistant_text_to_content content in
  Ok (Message (uuid msg) (status msg) ROLE_ASSISTANT content_parts (Some (created_at msg))).

Definition tool_call_to_item (msg : RawThreadMessage) (content : string)
    : outcome Api.ApiError ConversationItem :=
  call_id ← ok_or Api.InternalServerError (tool_call_id msg);
  Ok (FunctionToolCall (uuid msg) call_id (default DEFAULT_TOOL_FUNCTION_NAME (tool_name msg))
        content (status msg) (Some (created_at msg))).

Definition tool_output_to_item (msg : RawThreadMessage) (content : string)
    : outcome Api.ApiError ConversationItem :=
  call_id ← ok_or Api.InternalServerError (tool_call_id msg);
  Ok (FunctionToolCallOutput (uuid msg) call_id content (status msg) (Some (created_at msg))).

Definition reasoning_to_item (msg : RawThreadMessage) (content : string)
    : outcome Api.ApiError ConversationItem :=
  let content_items := if is_empty content then [] else [ReasoningText content] in
  Ok (Reasoning (uuid msg) content_items (status msg) (Some (created_at msg))).

Definition message_to_item (msg : RawThreadMessage) (user_key : Encrypt.SecretKey)
    : outcome Api.ApiError ConversationItem :=
  content ← map_err (fun _ => Api.InternalServerError)
    (Encrypt.decrypt_string user_key (content_enc msg));
  let content := default EmptyString content in
  if decide (message_type msg = "user") then user_message_to_item msg content
  else if decide (message_type msg = "assistant") then assistant_message_to_item msg content
  else if decide (message_type msg = "tool_call") then tool_call_to_item msg content
  else if decide (message_type msg = "tool_output") then tool_output_to_item msg content
  else if decide (message_type msg = "reasoning") then reasoning_to_item msg content
  else Err Api.InternalServerError.

(** The loop of [messages_to_items]. *)
Fixpoint items_of (msgs : list RawThreadMessage) (user_key : Encrypt.SecretKey)
    : outcome Api.ApiError (list ConversationItem) :=
  match msgs with
  | [] => Ok []
  | msg :: msgs =>
      item ← message_to_item msg user_key;
      items ← items_of msgs user_key;
      Ok (item :: items)
  end.
Definition messages_to_items (raw_messages : list RawThreadMessage) (user_key : Encrypt.SecretKey)
    (start_index limit : nat) : outcome Api.ApiError (list ConversationItem) :=
  items_of (take limit (drop start_index raw_messages)) user_key.
End items.

(** ** Lemmas *)
Lemma validate_parts_Ok parts :
  validate_parts parts = Ok tt <->
  Forall (fun p => match p with InputImage url fid _ => is_Some url /\ fid = None | _ => True end) parts.
Proof.
  induction parts as [|p parts IH]; cbn; [split; [constructor|done]|].
  rewrite Forall_cons, <- IH.
  destruct p as [| |[url|] [fid|] d|]; try tauto;
    rewrite ?bool_decide_true by eauto; rewrite ?(bool_decide_false (is_Some None)) by (by intros []);
    cbn; (split; [|try tauto]); intros; try done; try (split; [|done]; split; eauto);
    try (destruct_and!; done). 
Qed.

(** A row whose content is the encryption of a string. *)
Lemma decrypt_stored `{cr : Crypto, !CryptoLaws cr} nonce key s c :
  length (Encrypt.secret_bytes key) = Encrypt.AES_256_KEY_LENGTH -> length nonce = 12 ->
  is_utf8 s = true -> Encrypt.encrypt_with_key nonce key (as_bytes s) = Ok c ->
  Encrypt.decrypt_string key (Some c) = Ok (Some s).
Proof.
  intros Hk Hn Hs. unfold Encrypt.encrypt_with_key, Encrypt.decrypt_string, Encrypt.decrypt_with_key,
    Encrypt.gcm_new_from_slice. rewrite !decide_True by done. cbn.
  destruct (seal _ _ _ _ _) as [ct|] eqn:Hseal; [|done]. cbn. intros [= <-].
  rewrite length_app, decide_False by lia. rewrite drop_app_length', take_app_length' by done.
  rewrite (open_seal _ gcm_ok _ _ _ _ _ Hseal). cbn. by rewrite from_utf8_lossy_as_bytes.
Qed.

(** How many parts a content has once normalized. *)
Definition part_count (c : MessageContent) : nat :=
  match normalize_content c with ContentText _ => 1 | ContentParts parts => length parts end.

Lemma conversation_content_length c :
  validate_content c = Ok tt -> length (conversation_content c) = part_count c.
Proof.
  destruct c as [text|parts]; [done|]. unfold part_count. cbn. rewrite validate_parts_Ok.
  induction 1 as [|p parts Hp _ IH]; cbn; [done|].
  destruct p as [| |[url|] fid d|]; cbn; try by f_equal.
  destruct Hp as [[] _]; done.
Qed.

Lemma items_of_Ok `{Crypto, ContentJson} msgs key items :
  items_of msgs key = Ok items <-> Forall2 (fun m i => message_to_item m key = Ok i) msgs items.
Proof.
  revert items. induction msgs as [|m msgs IH]; intros items; cbn.
  - split; [intros [= <-]; constructor|by intros ->%Forall2_nil_inv_l].
  - split.
    + intros Hi. inv_ok. constructor; [done|]. by apply IH.
    + intros (i & items' & Hi & Hits & ->)%Forall2_cons_inv_l. apply IH in Hits. by rewrite Hi, Hits.
Qed.

(** ** Properties *)
Section properties.
Context `{cr : Crypto, !CryptoLaws cr, cj : ContentJson, !ContentJsonLaws cj}.

(** What a user sent is what the history shows: a validated content,
    serialized and encrypted under the user's key as the storage does, comes back
    from the row as a user message with one part per part sent, in a page that
    has one item per row from the start index on, up to the limit. *)
Theorem stored_message_roundtrip nonce key c enc (rows : list RawThreadMessage) items start limit i msg
    (Hk : length (Encrypt.secret_bytes key) = Encrypt.AES_256_KEY_LENGTH) (Hn : length nonce = 12)
    (Hvalid : validate_content c = Ok tt)
    (Henc : Encrypt.encrypt_with_key nonce key (as_bytes (content_to_string c)) = Ok enc)
    (Hrow : rows !! (start + i) = Some msg) (Hi : i < limit)
    (Hmsg : message_type msg = "user" /\ content_enc msg = Some enc)
    (Hitems : messages_to_items rows key start limit = Ok items) :
  length items = Nat.min limit (length rows - start) /\
  items !! i = Some (Message (uuid msg) (status msg) "user" (conversation_content c) (Some (created_at msg))) /\
  length (conversation_content c) = part_count c.
Proof.
  destruct Hmsg as [Ht He]. unfold messages_to_items in Hitems. apply items_of_Ok in Hitems.
  split_and!; [| |by apply conversation_content_length].
  - apply Forall2_length in Hitems. rewrite <- Hitems. rewrite length_take, length_drop. lia.
  - destruct (Forall2_lookup_l _ _ _ i msg Hitems) as (item & -> & Hitem).
    { rewrite lookup_take_lt, lookup_drop by done. done. }
    f_equal. revert Hitem. unfold message_to_item.
    rewrite He, (decrypt_stored nonce key _ _ Hk Hn (content_utf8 c) Henc).
    cbn. rewrite Ht. cbn. unfold user_message_to_item. rewrite content_roundtrip. cbn. by intros [= <-].
Qed.
End properties.

(** ** An executable serializer, for witnesses

    Any injective printing with ASCII output satisfies the laws; this one
    writes the content's code as a binary numeral. *)
Module ToyContent.
#[local] Instance part_dec : EqDecision MessageContentPart.
Proof. solve_decision. Defined.
#[local] Instance content_dec : EqDecision MessageContent.
Proof. solve_decision. Defined.

Definition part_sum (p : MessageContentPart)
    : string + (string + (option string * option string * option string + string * string)) :=
  match p with
  | Text t => inl t
  | InputText t => inr (inl t)
  | InputImage u f d => inr (inr (inl (u, f, d)))
  | InputFile n d => inr (inr (inr (n, d)))
  end.
Definition sum_part (s : string + (string + (option string * option string * option string + string * string)))
    : MessageContentPart :=
  match s with
  | inl t => Text t
  | inr (inl t) => InputText t
  | inr (inr (inl (u, f, d))) => InputImage u f d
  | inr (inr (inr (n, d))) => InputFile n d
  end.
#[local] Instance part_countable : Countable MessageContentPart.
Proof. apply (inj_countable' part_sum sum_part). by intros []. Defined.
#[local] Instance content_countable : Countable MessageContent.
Proof.
  apply (inj_countable' (fun c => match c with ContentText t => inl t | ContentParts l => inr l end)
    (fun s => match s with inl t => ContentText t | inr l => ContentParts l end)).
  by intros [].
Defined.

Fixpoint bits (p : positive) : string :=
  match p with
  | xH => EmptyString
  | xO p => String "0" (bits p)
  | xI p => String "1" (bits p)
  end.
Fixpoint of_bits (s : string) : positive :=
  match s with
  | EmptyString => xH
  | String a s => if decide (a = "0"%char) then xO (of_bits s) else xI (of_bits s)
  end.
Lemma of_bits_bits p : of_bits (bits p) = p.
Proof. induction p as [p IH|p IH|]; cbn; by rewrite ?IH. Qed.
Lemma bits_utf8 p : is_utf8 (bits p) = true.
Proof. unfold is_utf8, codes, str_len. by induction p. Qed.

Definition toy_content : ContentJson := {|
  content_from_str s := decode (of_bits s);
  content_to_string c := bits (encode c);
|}.
Lemma toy_content_laws : ContentJsonLaws toy_content.
Proof.
  split; intros c; cbn [content_from_str content_to_string toy_content].
  - by rewrite of_bits_bits, decode_encode.
  - apply bits_utf8.
Qed.
End ToyContent.

Section witnesses.
#[local] Existing Instances ToyCrypto.toy ToyCrypto.toy_laws.

Definition demo_key : Encrypt.SecretKey := Encrypt.MkSecretKey (replicate 32 Byte.x07).
Definition demo_nonce : bytes := replicate 12 Byte.x01.
Definition demo_content : MessageContent := ContentParts [InputText "a"; InputImage (Some "u") None None].
Definition demo_enc : bytes :=
  match Encrypt.encrypt_with_key demo_nonce demo_key
          (as_bytes (@content_to_string ToyContent.toy_content demo_content)) with
  | Ok enc => enc
  | _ => []
  end.
Definition demo_row : RawThreadMessage :=
  MkRaw "user" 1 [] (Some demo_enc) None 0 None None None None None.

Lemma stored_message_roundtrip_witness :
  exists items, @messages_to_items _ ToyContent.toy_content [demo_row] demo_key 0 10 = Ok items /\
    items !! 0 = Some (Message [] None "user" [OutInputText "a"; OutInputImage "u"] (Some 0%Z)).
Proof.
  eexists. split; [vm_compute; reflexivity|].
  refine (proj1 (proj2 (stored_message_roundtrip (cj := ToyContent.toy_content)
    (CryptoLaws0 := ToyCrypto.toy_laws) (ContentJsonLaws0 := ToyContent.toy_content_laws)
    demo_nonce demo_key demo_content demo_enc [demo_row] _ 0 10 0 demo_row _ _ _ _ _ _ _ _)));
    first [reflexivity | lia | split; reflexivity | vm_compute; reflexivity].
Defined.
End witnesses.
End Conversions.
