(* ===== verification/ContextBuilder.v ===== *)
(** * The context builder

    [src/src/web/responses/context_builder.rs]: which messages of a stored
    conversation fit the context window of a model, how they are decrypted and
    joined with the instructions, and the chat messages sent upstream.  The
    tokenizer, the JSON text format, the database rows and [Uuid::to_string] are
    parameters, and so is the build profile: a build with debug assertions panics
    where one fails or a sum on [usize] overflows, one without goes on. *)

From stdpp Require Import pretty.
From S2P Require Import Prelude Text Crypto Api Encrypt Json Models Conversions.

Module ContextBuilder.
Import Conversions.

(** ** Data *)
Record ChatMsg := MkMsg {
  role : string; content : string; reasoning : option string;
  tool_call_id : option Encrypt.Uuid; tok : Z }.
Record PendingReasoning := MkPending { p_content : string; p_tok : Z }.
Record ContextEntry := MkEntry { message_type : string; ids : list (string * Z); e_tok : Z }.
Record RawThreadMessageMetadata := MkMetadata {
  m_message_type : string; m_id : Z; m_uuid : Encrypt.Uuid; m_created_at : Z;
  m_token_count : option Z; m_tool_call_id : option Encrypt.Uuid }.

(** The build: [debug_assertions] turn on [debug_assert!] and the overflow checks. *)
Class BuildProfile := debug_assertions : bool.
Definition checked `{BuildProfile} {E} (b : bool) : outcome E unit := if debug_assertions then debug_assert b else Ok tt.

(** [i32 as usize], and the addition of [usize]. *)
Definition as_usize (t : Z) : Z := t mod 2 ^ 64.
Definition usize_add `{BuildProfile} {E} (a b : Z) : outcome E Z :=
  _ ← checked (bool_decide (a + b <= usize_max)%Z); Ok ((a + b) mod 2 ^ 64)%Z.
Fixpoint usize_sum `{BuildProfile} {E} (acc : Z) (l : list Z) : outcome E Z :=
  match l with
  | [] => Ok acc
  | x :: l => acc ← usize_add acc x; usize_sum acc l
  end.
Definition saturating_sub (a b : Z) : Z := Z.max (a - b) 0.

Definition metadata_token_count (m : RawThreadMessageMetadata) : Z :=
  default 0%Z (as_usize <$> m_token_count m).
Definition entry_single (m : RawThreadMessageMetadata) : ContextEntry :=
  MkEntry (m_message_type m) [(m_message_type m, m_id m)] (metadata_token_count m).
Definition stored_token_count (token_count : option Z) : option Z :=
  count ← token_count; if decide (0 <= count)%Z then Some count else None.

Definition TRUNCATED := "[Previous messages truncated due to context limits]".

(** [RESPONSE_RESERVE] and [SAFETY] of [prompt_token_budget]. *)
Definition prompt_token_budget (model : string) : Z :=
  saturating_sub (Models.model_context_window model) (4096 + 500).

(** ** The tail of a conversation

    The loop both truncations share: the most recent item, then earlier ones
    while they fit; reversed back into order, from its first user item on. *)
Section tail.
Context `{BuildProfile} {A : Type} (size : A -> Z) (is_user : A -> bool).

Fixpoint collect_back {E} (available used : Z) (rev : list A) : outcome E (list A) :=
  match rev with
  | [] => Ok []
  | x :: rev =>
      used ← usize_add used (size x);
      if decide (available < used)%Z then Ok []
      else l ← collect_back available used rev; Ok (x :: l)
  end.
Definition collect_tail {E} (available : Z) (l : list A) : outcome E (list A) :=
  match reverse l with
  | [] => Ok []
  | x :: rev =>
      used ← usize_add 0 (size x);
      l ← collect_back available used rev;
      Ok (reverse (x :: l))
  end.
Fixpoint from_first_user (l : list A) : list A :=
  match l with
  | [] => []
  | x :: l => if is_user x then x :: l else from_first_user l
  end.
End tail.

(** ** Pass one: the rows that are needed *)
Fixpoint build_entries `{BuildProfile} (include : bool) (pending : list RawThreadMessageMetadata)
    (metadata : list RawThreadMessageMetadata) : outcome Api.ApiError (list ContextEntry) :=
  match metadata with
  | [] => Ok []
  | m :: metadata =>
      if decide (m_message_type m = "reasoning") then
        build_entries include (if include then pending ++ [m] else pending) metadata
      else if include && (bool_decide (m_message_type m = "assistant") || bool_decide (m_message_type m = "tool_call")) then
        reasoning_tok ← usize_sum 0 (metadata_token_count <$> pending);
        total ← usize_add reasoning_tok (metadata_token_count m);
        let ids := ((fun r => (m_message_type r, m_id r)) <$> pending) ++ [(m_message_type m, m_id m)] in
        entries ← build_entries include [] metadata;
        Ok (MkEntry (m_message_type m) ids total :: entries)
      else
        entries ← build_entries include [] metadata;
        Ok (entry_single m :: entries)
  end.
Definition build_context_entries `{BuildProfile} (metadata : list RawThreadMessageMetadata) (include : bool)
    : outcome Api.ApiError (list ContextEntry) := build_entries include [] metadata.

Definition entry_is_user (e : ContextEntry) : bool := bool_decide (message_type e = "user").
Definition first_user (entries : list ContextEntry) : list ContextEntry :=
  match list_find (fun e => entry_is_user e = true) entries with Some (_, e) => [e] | None => [] end.

Section builder.
Context `{Tokenizer, Crypto, SerdeJson, ContentJson, UuidText, BuildProfile}.

(** Lines 488 to 542: the entries kept when not everything fits. *)
Definition needed_entries (entries : list ContextEntry) (ctx_budget system_tokens : Z)
    : outcome Api.ApiError (list ContextEntry) :=
  let head := first_user entries in
  head_tokens ← usize_sum 0 (e_tok <$> head);
  let truncation_msg_tokens := count_tokens TRUNCATED in
  reserved ← usize_add system_tokens head_tokens;
  reserved ← usize_add reserved truncation_msg_tokens;
  let available_for_tail := saturating_sub ctx_budget reserved in
  potential_tail ← collect_tail e_tok available_for_tail entries;
  Ok (head ++ from_first_user entry_is_user potential_tail).

Definition determine_needed_message_ids (metadata : list RawThreadMessageMetadata) (model : string)
    (system_tokens token_reserve : Z) : outcome Api.ApiError (list (string * Z) * bool) :=
  entries ← build_context_entries metadata (Models.model_supports_reasoning_history model);
  let ctx_budget := saturating_sub (prompt_token_budget model) token_reserve in
  total_msg_tokens ← usize_sum 0 (e_tok <$> entries);
  all_tokens ← usize_add system_tokens total_msg_tokens;
  if decide (all_tokens <= ctx_budget)%Z then Ok (mjoin (ids <$> entries), false)
  else
    needed ← needed_entries entries ctx_budget system_tokens;
    Ok (mjoin (ids <$> needed), true).

(** ** Truncation of chat messages *)
Definition is_user (m : ChatMsg) : bool := bool_decide (role m = ROLE_USER).
Definition is_system (m : ChatMsg) : bool := bool_decide (role m = ROLE_SYSTEM).

(** The loop that collects the head: the first system message seen before the
    first user message, and that user message. *)
Fixpoint collect_head (has_system : bool) (msgs : list ChatMsg) : list ChatMsg * bool :=
  match msgs with
  | [] => ([], has_system)
  | m :: msgs =>
      if is_system m && negb has_system then
        let '(l, s) := collect_head true msgs in (m :: l, s)
      else if is_user m then ([m], has_system)
      else collect_head has_system msgs
  end.

Definition truncation_msg : ChatMsg :=
  MkMsg ROLE_ASSISTANT TRUNCATED None None (count_tokens TRUNCATED).

Definition sum_tok (l : list ChatMsg) : outcome Api.ApiError Z := usize_sum 0 (tok <$> l).

(** Lines 708 to 735: when head, marker and tail are still too large. *)
Definition shrink (has_system : bool) (msgs tail : list ChatMsg) (ctx_budget : Z)
    : outcome Api.ApiError (list ChatMsg) :=
  total_after_truncation ← sum_tok msgs;
  if decide (total_after_truncation <= ctx_budget)%Z then Ok msgs
  else if has_system then
    match list_find (fun m => is_system m = true) msgs with
    | Some (_, sys) =>
        tail_tokens ← sum_tok tail;
        with_sys ← usize_add (tok sys) tail_tokens;
        if decide (with_sys <= ctx_budget)%Z then Ok (sys :: tail) else Ok tail
    | None => Ok tail
    end
  else Ok tail.

(** Lines 615 to 736. *)
Definition truncate (msgs : list ChatMsg) (ctx_budget : Z) : outcome Api.ApiError (list ChatMsg) :=
  total ← sum_tok msgs;
  if decide (total <= ctx_budget)%Z then Ok msgs
  else
    let '(head, has_system) := collect_head false msgs in
    head_tokens ← sum_tok head;
    let truncation_msg_tokens := count_tokens TRUNCATED in
    reserved ← usize_add head_tokens truncation_msg_tokens;
    let available_for_tail := saturating_sub ctx_budget reserved in
    potential_tail ← collect_tail tok available_for_tail msgs;
    let tail := from_first_user is_user potential_tail in
    let did_truncate := bool_decide (length head + length tail < length msgs) in
    shrink has_system (head ++ (if did_truncate then [truncation_msg] else []) ++ tail) tail ctx_budget.

(** ** Chat-completion messages *)
Definition attach_reasoning_to_assistant_message (message : Value) (reasoning : option string) : Value :=
  match reasoning, as_object message with
  | Some reasoning, Some _ =>
      let message := set "reasoning" (Str reasoning) message in
      match get "content" message with
      | Some _ => message
      | None => set "content" (Str EmptyString) message
      end
  | _, _ => message
  end.

(** One turn of the loop that formats the messages. *)
Definition format_message (include_reasoning_history : bool) (m : ChatMsg)
    : outcome Api.ApiError Value :=
  if decide (role m = "tool") then
    _ ← checked (bool_decide (is_Some (tool_call_id m)));
    call_id ← ok_or Api.InternalServerError (tool_call_id m);
    Ok (Object [("role", Str "tool"); ("content", Str (content m));
                ("tool_call_id", Str (uuid_to_string call_id))])
  else if decide (role m = ROLE_ASSISTANT) then
    let reasoning :=
      match (if include_reasoning_history then reasoning m else None) with
      | Some r => if is_empty r then None else Some r
      | None => None
      end in
    let message := Object [("role", Str ROLE_ASSISTANT); ("content", Str (content m))] in
    match from_str (content m) with
    | Some parsed =>
        match get "tool_calls" parsed with
        | Some _ => Ok (attach_reasoning_to_assistant_message parsed reasoning)
        | None => Ok (attach_reasoning_to_assistant_message message reasoning)
        end
    | None => Ok (attach_reasoning_to_assistant_message message reasoning)
    end
  else
    c ← (if decide (role m = ROLE_USER) then
           mc ← ok_or Api.InternalServerError (content_from_str (content m));
           Ok (to_openai_format mc)
         else Ok (Str (content m)));
    Ok (Object [("role", Str (role m)); ("content", c)]).

Fixpoint format_messages (include : bool) (msgs : list ChatMsg) : outcome Api.ApiError (list Value) :=
  match msgs with
  | [] => Ok []
  | m :: msgs =>
      v ← format_message include m;
      l ← format_messages include msgs;
      Ok (v :: l)
  end.

Definition model_uses_kimi_tool_call_ids (model : string) : bool :=
  contains_str "kimi" (to_ascii_lowercase model).

(** The state of [normalize_tool_call_ids_for_kimi]: the next index, and the
    new name of each old one. *)
Record KimiIds := MkKimi { next_tool_call_index : nat; original_to_kimi_id : gmap string string }.

Definition kimi_id (function_name : string) (i : nat) : string :=
  "functions." +:+ function_name +:+ ":" +:+ pretty (N.of_nat i).

Definition normalize_call (s : KimiIds) (tool_call : Value) : KimiIds * Value :=
  match (f ← get "function" tool_call; n ← get "name" f; as_str n), (i ← get "id" tool_call; as_str i) with
  | Some function_name, Some original_id =>
      let k := kimi_id function_name (next_tool_call_index s) in
      (MkKimi (S (next_tool_call_index s)) (<[original_id := k]> (original_to_kimi_id s)),
       set "id" (Str k) tool_call)
  | _, _ => (s, tool_call)
  end.
Fixpoint normalize_calls (s : KimiIds) (calls : list Value) : KimiIds * list Value :=
  match calls with
  | [] => (s, [])
  | c :: calls =>
      let '(s, c) := normalize_call s c in
      let '(s, calls) := normalize_calls s calls in
      (s, c :: calls)
  end.

Definition normalize_message (s : KimiIds) (message : Value) : KimiIds * Value :=
  match r ← get "role" message; as_str r with
  | None => (s, message)
  | Some r =>
      if decide (r = ROLE_ASSISTANT) then
        match calls ← get "tool_calls" message; as_array calls with
        | None => (s, message)
        | Some calls =>
            let '(s, calls) := normalize_calls s calls in (s, set "tool_calls" (Array calls) message)
        end
      else if decide (r = "tool") then
        match i ← get "tool_call_id" message; as_str i with
        | None => (s, message)
        | Some original_id =>
            match original_to_kimi_id s !! original_id with
            | Some k => (s, set "tool_call_id" (Str k) message)
            | None => (s, message)
            end
        end
      else (s, message)
  end.
Fixpoint normalize_messages (s : KimiIds) (messages : list Value) : list Value :=
  match messages with
  | [] => []
  | m :: messages => let '(s, m) := normalize_message s m in m :: normalize_messages s messages
  end.
Definition normalize_tool_call_ids_for_kimi (messages : list Value) : list Value :=
  normalize_messages (MkKimi 0 ∅) messages.

Definition build_prompt_from_chat_messages_with_token_reserve (msgs : list ChatMsg) (model : string)
    (token_reserve : Z) : outcome Api.ApiError (list Value * Z) :=
  let ctx_budget := saturating_sub (prompt_token_budget model) token_reserve in
  msgs ← truncate msgs ctx_budget;
  total ← sum_tok msgs;
  _ ← checked (bool_decide (total <= ctx_budget)%Z);
  final_msgs ← format_messages (Models.model_supports_reasoning_history model) msgs;
  let final_msgs :=
    if model_uses_kimi_tool_call_ids model then normalize_tool_call_ids_for_kimi final_msgs
    else final_msgs in
  Ok (final_msgs, total).

Definition build_prompt_from_chat_messages (msgs : list ChatMsg) (model : string)
    : outcome Api.ApiError (list Value * Z) :=
  build_prompt_from_chat_messages_with_token_reserve msgs model 0.

(** ** From the database *)
Definition user_message_prompt_token_count (content_json : string) (token_count : option Z) : Z :=
  let stored := default (count_tokens content_json) (stored_token_count token_count) in
  if negb (contains_str (String "034" "input_image" +:+ String "034" EmptyString) content_json) then stored
  else
    let estimated := default 0%Z (estimate_prompt_tokens <$> content_from_str content_json) in
    Z.max stored estimated.

(** The calls of [DBConnection] the builder makes; the error of a query is
    never looked at. *)
Record Instruction := MkInstruction { prompt_enc : bytes; prompt_tokens : Z }.
Record Db := MkDb {
  get_project_instruction_for_conversation : Z -> Encrypt.Uuid -> outcome unit (option Instruction);
  get_default_user_instruction : Encrypt.Uuid -> outcome unit (option Instruction);
  get_conversation_context_metadata : Z -> outcome unit (list RawThreadMessageMetadata);
  get_messages_by_ids : Z -> list (string * Z) -> outcome unit (list RawThreadMessage) }.

Definition internal {E A} (m : outcome E A) : outcome Api.ApiError A :=
  map_err (fun _ => Api.InternalServerError) m.

(** Decrypting a row: [decrypt_with_key] and [String::from_utf8_lossy]. *)
Definition decrypt_text (user_key : Encrypt.SecretKey) (enc : bytes) : outcome Api.ApiError string :=
  plain ← internal (Encrypt.decrypt_with_key user_key enc);
  Ok (from_utf8_lossy plain).

Definition decrypt_instruction (user_key : Encrypt.SecretKey) (i : Instruction)
    : outcome Api.ApiError (string * Z) :=
  content ← decrypt_text user_key (prompt_enc i);
  Ok (content, as_usize (prompt_tokens i)).

(** Lines 129 to 184: the system message, with its token count. *)
Definition system_message (db : Db) (conversation_id : Z) (user_id : Encrypt.Uuid)
    (user_key : Encrypt.SecretKey) (override_instructions internal_instructions : option string)
    : outcome Api.ApiError (option (string * Z)) :=
  base ←
    match override_instructions with
    | Some text => Ok (Some (text, count_tokens text))
    | None =>
        project ← internal (get_project_instruction_for_conversation db conversation_id user_id);
        match project with
        | Some i => Some <$> decrypt_instruction user_key i
        | None =>
            user ← internal (get_default_user_instruction db user_id);
            match user with
            | Some i => Some <$> decrypt_instruction user_key i
            | None => Ok None
            end
        end
    end;
  match internal_instructions with
  | None => Ok base
  | Some instructions =>
      let content :=
        match base with
        | Some (existing, _) => instructions +:+ nl +:+ nl +:+ existing
        | None => instructions
        end in
      Ok (Some (content, count_tokens content))
  end.

(** [token_count.map(|v| v as usize).unwrap_or_else(|| count_tokens(text))]. *)
Definition row_tokens (r : RawThreadMessage) (text : string) : Z :=
  default (count_tokens text) (as_usize <$> token_count r).

Definition take_reasoning (pending : option PendingReasoning) : option string * Z :=
  match pending with Some p => (Some (p_content p), p_tok p) | None => (None, 0%Z) end.

Definition tool_call_message (new_v4 : Encrypt.Uuid) (r : RawThreadMessage) (arguments_str : string)
    : string :=
  let arguments := default (Object []) (from_str arguments_str) in
  to_string (Object
    [("role", Str "assistant");
     ("tool_calls", Array [Object
       [("id", Str (uuid_to_string (default new_v4 (Conversions.tool_call_id r))));
        ("type", Str "function");
        ("function", Object [("name", Str (default "function" (tool_name r)));
                             ("arguments", Str (to_string arguments))])]])]).

(** One turn of the loop over the fetched rows: the messages it appends and the
    reasoning left pending.  [new_v4] is the identifier drawn if the row has
    none. *)
Definition push_row (user_key : Encrypt.SecretKey) (include_reasoning_history : bool)
    (new_v4 : Encrypt.Uuid) (pending : option PendingReasoning) (r : RawThreadMessage)
    : outcome Api.ApiError (list ChatMsg * option PendingReasoning) :=
  if decide (Conversions.message_type r = "user") then
    match content_enc r with
    | None => Ok ([], None)
    | Some enc =>
        content ← decrypt_text user_key enc;
        Ok ([MkMsg ROLE_USER content None None (user_message_prompt_token_count content (token_count r))], None)
    end
  else if decide (Conversions.message_type r = "assistant") then
    match content_enc r with
    | None => Ok ([], None)
    | Some enc =>
        content ← decrypt_text user_key enc;
        let '(reasoning, reasoning_tokens) := take_reasoning pending in
        t ← usize_add (row_tokens r content) reasoning_tokens;
        Ok ([MkMsg ROLE_ASSISTANT content reasoning None t], None)
    end
  else if decide (Conversions.message_type r = "tool_call") then
    match content_enc r with
    | None => Ok ([], None)
    | Some enc =>
        arguments_str ← decrypt_text user_key enc;
        let content := tool_call_message new_v4 r arguments_str in
        let '(reasoning, reasoning_tokens) := take_reasoning pending in
        t ← usize_add (row_tokens r arguments_str) reasoning_tokens;
        Ok ([MkMsg ROLE_ASSISTANT content reasoning None t], None)
    end
  else if decide (Conversions.message_type r = "tool_output") then
    match content_enc r with
    | None => Ok ([], None)
    | Some enc =>
        content ← decrypt_text user_key enc;
        Ok ([MkMsg "tool" content None (Conversions.tool_call_id r) (row_tokens r content)], None)
    end
  else if decide (Conversions.message_type r = "reasoning") then
    if negb include_reasoning_history then Ok ([], pending)
    else
      match content_enc r with
      | None => Ok ([], pending)
      | Some enc =>
          content ← decrypt_text user_key enc;
          if is_empty content then Ok ([], pending)
          else
            let t := row_tokens r content in
            match pending with
            | Some p =>
                t ← usize_add (p_tok p) t;
                Ok ([], Some (MkPending (p_content p +:+ content) t))
            | None => Ok ([], Some (MkPending content t))
            end
      end
  else Ok ([], None).

Fixpoint push_rows (user_key : Encrypt.SecretKey) (include : bool) (new_v4 : Z -> Encrypt.Uuid)
    (pending : option PendingReasoning) (raw : list RawThreadMessage)
    : outcome Api.ApiError (list ChatMsg) :=
  match raw with
  | [] => Ok []
  | r :: raw =>
      '(msgs, pending) ← push_row user_key include (new_v4 (Conversions.id r)) pending r;
      rest ← push_rows user_key include new_v4 pending raw;
      Ok (msgs ++ rest)
  end.

(** Lines 407 to 426. *)
Definition insert_truncation (did_truncate has_system_msg : bool) (msgs : list ChatMsg) : list ChatMsg :=
  let insert_pos := if has_system_msg then 2 else 1 in
  if did_truncate && bool_decide (insert_pos < length msgs) then
    take insert_pos msgs ++ truncation_msg :: drop insert_pos msgs
  else msgs.

Definition system_chat_msg (s : string * Z) : ChatMsg := MkMsg ROLE_SYSTEM s.1 None None s.2.

Definition build_prompt_with_token_reserve (db : Db) (new_v4 : Z -> Encrypt.Uuid)
    (conversation_id : Z) (user_id : Encrypt.Uuid)
    (user_key : Encrypt.SecretKey) (model : string)
    (override_instructions internal_instructions : option string) (token_reserve : Z)
    : outcome Api.ApiError (list Value * Z) :=
  system_msg_opt ← system_message db conversation_id user_id user_key override_instructions internal_instructions;
  let system_tokens := default 0%Z (snd <$> system_msg_opt) in
  metadata ← internal (get_conversation_context_metadata db conversation_id);
  '(needed_ids, did_truncate) ←
    determine_needed_message_ids metadata model system_tokens token_reserve;
  raw ← (if bool_decide (needed_ids = []) then Ok []
         else internal (get_messages_by_ids db conversation_id needed_ids));
  rows ← push_rows user_key (Models.model_supports_reasoning_history model) new_v4 None raw;
  let msgs := option_list (system_chat_msg <$> system_msg_opt) ++ rows in
  let msgs := insert_truncation did_truncate (bool_decide (is_Some system_msg_opt)) msgs in
  if decide (token_reserve = 0%Z) then build_prompt_from_chat_messages msgs model
  else build_prompt_from_chat_messages_with_token_reserve msgs model token_reserve.

Definition build_prompt (db : Db) (new_v4 : Z -> Encrypt.Uuid) (conversation_id : Z)
    (user_id : Encrypt.Uuid) (user_key : Encrypt.SecretKey) (model : string)
    (override_instructions internal_instructions : option string)
    : outcome Api.ApiError (list Value * Z) :=
  build_prompt_with_token_reserve db new_v4 conversation_id user_id user_key model
    override_instructions internal_instructions 0.
End builder.

(** ** Lemmas: sums *)
Definition tsum (l : list Z) : Z := foldr Z.add 0%Z l.

Lemma tsum_app l1 l2 : tsum (l1 ++ l2) = (tsum l1 + tsum l2)%Z.
Proof. unfold tsum. induction l1; cbn in *; lia. Qed.
Lemma tsum_nonneg l : Forall (Z.le 0) l -> (0 <= tsum l)%Z.
Proof. unfold tsum. induction 1; cbn; lia. Qed.
Lemma tsum_sublist l1 l2 : l1 `sublist_of` l2 -> Forall (Z.le 0) l2 -> (tsum l1 <= tsum l2)%Z.
Proof.
  unfold tsum. induction 1 as [|x l1 l2 _ IH|x l1 l2 _ IH]; intros Hp; [lia| |];
    apply Forall_cons in Hp as [? Hp]; specialize (IH Hp); cbn; lia.
Qed.

Lemma checked_true `{BuildProfile} {E} : @checked _ E true = Ok tt.
Proof. unfold checked. by destruct debug_assertions. Qed.
Lemma usize_add_exact `{BuildProfile} {E} a b : (0 <= a + b <= usize_max)%Z -> usize_add (E:=E) a b = Ok (a + b)%Z.
Proof.
  intros Hab. unfold usize_add. rewrite bool_decide_true, checked_true by lia. cbn. f_equal. apply Z.mod_small.
  unfold usize_max in Hab. lia.
Qed.
Lemma usize_sum_exact `{BuildProfile} {E} acc l :
  Forall (Z.le 0) l -> (0 <= acc)%Z -> (acc + tsum l <= usize_max)%Z -> usize_sum (E:=E) acc l = Ok (acc + tsum l)%Z.
Proof.
  intros Hl. revert acc. induction Hl as [|x l Hx Hl IH]; intros acc Hacc0 Hacc; unfold tsum in *; cbn in *.
  - f_equal. lia.
  - pose proof (tsum_nonneg l Hl). unfold tsum in *. rewrite usize_add_exact by lia. cbn.
    rewrite IH by lia. f_equal. lia.
Qed.

Lemma usize_sum_nonneg `{BuildProfile} {E} acc l t : usize_sum (E:=E) acc l = Ok t -> (0 <= acc)%Z -> (0 <= t)%Z.
Proof.
  revert acc. induction l as [|x l IH]; intros acc; cbn [usize_sum]; [by intros [= <-]|]. unfold usize_add.
  destruct (checked _) as [[]|e|]; [|done..]. cbn [mbind outcome_bind]. intros Hl _. eapply IH; [exact Hl|]. by apply Z.mod_pos_bound.
Qed.

(** ** Lemmas: the tail *)
Section tail_facts.
Context `{BuildProfile} {A : Type} (size : A -> Z) (is_user : A -> bool).
Abbreviation total l := (tsum (size <$> l)).

Lemma collect_back_spec {E} available used (rev : list A) :
  Forall (Z.le 0) (size <$> rev) -> (0 <= used)%Z -> (used + total rev <= usize_max)%Z ->
  exists kept rest, collect_back size (E:=E) available used rev = Ok kept /\ rev = kept ++ rest /\
    (kept = [] \/ used + total kept <= available)%Z /\
    (rest = [] \/ exists x rest', rest = x :: rest' /\ available < used + total kept + size x)%Z.
Proof.
  revert used. induction rev as [|x rev IH]; intros used Hp Hused Hmax.
  - exists [], []. cbn. auto.
  - cbn in Hp. apply Forall_cons in Hp as [Hx Hp]. cbn [fmap list_fmap] in Hmax.
    change (tsum (size x :: (size <$> rev))) with (size x + total rev)%Z in Hmax.
    pose proof (tsum_nonneg _ Hp). cbn [collect_back]. rewrite usize_add_exact by lia.
    cbn [mbind outcome_bind]. case_decide as Hav.
    + exists [], (x :: rev). cbn. split_and!; auto. right. exists x, rev. split; [done|]. unfold tsum. cbn. lia.
    + destruct (IH (used + size x)%Z Hp ltac:(lia) ltac:(lia)) as (kept & rest & -> & -> & Hk & Hr).
      exists (x :: kept), rest. cbn. split_and!; try done.
      * right. unfold tsum in *. cbn. destruct Hk as [->|?]; cbn; lia.
      * destruct Hr as [->|(y & rest' & -> & ?)]; [by left|right]. exists y, rest'. split; [done|].
        unfold tsum in *. cbn. lia.
Qed.

Lemma collect_tail_spec {E} available (l : list A) :
  Forall (Z.le 0) (size <$> l) -> (total l <= usize_max)%Z ->
  exists pre t, collect_tail size (E:=E) available l = Ok t /\ l = pre ++ t /\
    (t = [] -> l = []) /\ (length t <= 1 \/ (total t <= available)%Z) /\
    (pre = [] \/ exists pre' x, pre = pre' ++ [x] /\ (available < size x + total t)%Z).
Proof.
  intros Hp Hmax. unfold collect_tail. destruct (reverse l) as [|x rev] eqn:Hrev.
  - apply (f_equal reverse) in Hrev. rewrite reverse_involutive in Hrev. subst l. exists [], []. split_and!; auto.
  - apply (f_equal reverse) in Hrev. rewrite reverse_involutive, reverse_cons in Hrev. subst l.
    rewrite fmap_app in Hp, Hmax. apply Forall_app in Hp as [Hp Hx]. cbn in Hx.
    apply Forall_cons in Hx as [Hx _]. rewrite tsum_app in Hmax. unfold tsum in Hmax at 2. cbn in Hmax.
    pose proof (tsum_nonneg _ Hp).
    assert (forall k, total (reverse k) = total k) as Hrev.
    { intros k. unfold tsum. rewrite fmap_reverse. induction (size <$> k) as [|z k' IHk]; [done|].
      rewrite reverse_cons, foldr_app. cbn. rewrite <- IHk. clear IHk.
      assert (forall a m, foldr Z.add a m = foldr Z.add 0 m + a)%Z as Hf by (intros a m; induction m; cbn; lia).
      rewrite Hf. lia. }
    rewrite usize_add_exact by lia. cbn [mbind outcome_bind].
    destruct (collect_back_spec (E:=E) available (0 + size x) rev) as (kept & rest & -> & -> & Hk & Hr).
    { rewrite fmap_reverse in Hp. by rewrite Forall_reverse in Hp. }
    { lia. }
    { rewrite Hrev in Hmax. lia. }
    exists (reverse rest), (reverse (x :: kept)). cbn [mbind outcome_bind].
    rewrite reverse_cons, reverse_app, <- app_assoc. split_and!; try done.
    + by destruct (reverse kept).
    + destruct Hk as [->|Hk]; [left; done|right].
      rewrite fmap_app, tsum_app, Hrev. unfold tsum at 2. cbn. lia.
    + destruct Hr as [->|(y & rest' & -> & Hy)]; [by left|right].
      exists (reverse rest'), y. rewrite reverse_cons. split; [done|].
      rewrite fmap_app, tsum_app, Hrev. unfold tsum at 2. cbn. lia.
Qed.

Lemma from_first_user_spec (l : list A) :
  exists dropped, l = dropped ++ from_first_user is_user l /\ Forall (fun x => is_user x = false) dropped /\
    (from_first_user is_user l = [] \/ exists u rest, from_first_user is_user l = u :: rest /\ is_user u = true).
Proof.
  induction l as [|x l (d & Hl & Hd & Hu)]; [by exists []; auto|]. cbn. destruct (is_user x) eqn:Hx.
  - exists []. cbn. split_and!; eauto.
  - exists (x :: d). cbn. split_and!; [by f_equal|by constructor|done].
Qed.

(** The tail both truncations keep. *)
Lemma tail_spec {E} available (l : list A) :
  (0 <= available)%Z -> Forall (Z.le 0) (size <$> l) -> (total l <= usize_max)%Z ->
  exists potential pre, let tail := from_first_user is_user potential in
    collect_tail size (E:=E) available l = Ok potential /\ l = pre ++ tail /\
    (tail = [] \/ exists u rest, tail = u :: rest /\ is_user u = true) /\
    ((total tail <= available)%Z \/ exists x, last l = Some x /\ tail = [x]) /\
    (forall x, last l = Some x -> is_user x = true -> last tail = Some x).
Proof.
  intros Hav Hp Hmax. destruct (collect_tail_spec (E:=E) available l Hp Hmax) as (pre & t & Ht & Hl & Hne & Htot & _).
  destruct (from_first_user_spec t) as (d & Hd & Hnu & Hu). exists t, (pre ++ d). cbn.
  set (tail := from_first_user is_user t) in *. clearbody tail.
  assert (l = (pre ++ d) ++ tail) as Hl'. { rewrite <- app_assoc. by rewrite <- Hd. }
  assert (Hsub : (0 <= total d /\ total t = total d + total tail)%Z).
  { rewrite Hd. rewrite fmap_app, tsum_app. split; [|done]. apply tsum_nonneg.
    rewrite Hl', !fmap_app in Hp. apply Forall_app in Hp as [Hp _]. by apply Forall_app in Hp as [_ Hp]. }
  split_and!; try done.
  - destruct Htot as [Hlen|Htot]; [|left; lia].
    destruct tail as [|z tail'] eqn:Htl; [left; done|right].
    assert (d = [] /\ tail' = []) as [-> ->].
    { rewrite Hd in Hlen. rewrite length_app in Hlen. cbn in Hlen.
      destruct d; cbn in Hlen; [|lia]. split; [done|]. destruct tail'; cbn in Hlen; [done|lia]. }
    exists z. split; [|done]. rewrite Hl'. by rewrite last_snoc.
  - intros x Hx Hux. destruct tail as [|z tail'] eqn:Htl.
    + exfalso. rewrite app_nil_r in Hd. subst d.
      destruct (last t) as [y|] eqn:Hty.
      * assert (y = x) as ->.
        { apply last_Some in Hty as [t' ->]. rewrite Hl, app_assoc, last_snoc in Hx. congruence. }
        apply last_Some in Hty as [t' ->]. apply Forall_app in Hnu as [_ Hnu].
        apply Forall_cons in Hnu as [Hnu _]. cbn in Hnu. congruence.
      * apply last_None in Hty. specialize (Hne Hty). by rewrite Hne in Hx.
    + rewrite Hl' in Hx. by rewrite last_app_cons in Hx.
Qed.
End tail_facts.

(** ** Lemmas: the entries of pass one *)
Definition row_key (m : RawThreadMessageMetadata) : string * Z := (m_message_type m, m_id m).
Definition not_reasoning (k : string * Z) : Prop := k.1 <> "reasoning".
#[local] Instance not_reasoning_dec k : Decision (not_reasoning k).
Proof. unfold not_reasoning. apply _. Defined.
Definition entry_ids (entries : list ContextEntry) : list (string * Z) := mjoin (ids <$> entries).
Definition row_total (l : list RawThreadMessageMetadata) : Z := tsum (metadata_token_count <$> l).

Lemma metadata_token_count_nonneg m : (0 <= metadata_token_count m)%Z.
Proof.
  unfold metadata_token_count. destruct (m_token_count m); cbn; [|lia]. apply Z.mod_pos_bound. lia.
Qed.
Lemma row_totals_nonneg l : Forall (Z.le 0) (metadata_token_count <$> l).
Proof. apply Forall_fmap, Forall_true. apply metadata_token_count_nonneg. Qed.
Lemma row_total_app l1 l2 : row_total (l1 ++ l2) = (row_total l1 + row_total l2)%Z.
Proof. unfold row_total. by rewrite fmap_app, tsum_app. Qed.
Lemma row_total_nil : row_total [] = 0%Z.
Proof. reflexivity. Qed.
Lemma row_total_single m : row_total [m] = metadata_token_count m.
Proof. unfold row_total, tsum. cbn. lia. Qed.
Lemma row_total_nonneg l : (0 <= row_total l)%Z.
Proof. apply tsum_nonneg, row_totals_nonneg. Qed.

Lemma filter_reasoning_rows pending :
  Forall (fun m => m_message_type m = "reasoning") pending ->
  filter not_reasoning (row_key <$> pending) = [].
Proof.
  intros Hp. apply filter_none, Forall_fmap. eapply Forall_impl; [exact Hp|].
  intros m Hm. unfold not_reasoning. cbn. auto.
Qed.

Lemma build_entries_spec `{BuildProfile} include pending metadata :
  Forall (fun m => m_message_type m = "reasoning") pending ->
  (row_total pending + row_total metadata <= usize_max)%Z ->
  exists entries, build_entries include pending metadata = Ok entries /\
    entry_ids entries `sublist_of` row_key <$> (pending ++ metadata) /\
    filter not_reasoning (entry_ids entries) = filter not_reasoning (row_key <$> metadata) /\
    Forall (Z.le 0) (e_tok <$> entries) /\
    (tsum (e_tok <$> entries) <= row_total pending + row_total metadata)%Z /\
    (include = false -> Forall not_reasoning (entry_ids entries)).
Proof.
  revert pending. induction metadata as [|m metadata IH]; intros pending Hp Hmax.
  - exists []. rewrite row_total_nil. pose proof (row_total_nonneg pending). cbn [build_entries].
    split_and!; [done|apply sublist_nil_l|done|by constructor|cbn; lia|by constructor].
  - pose proof (metadata_token_count_nonneg m) as Hm.
    change (row_total (m :: metadata)) with (metadata_token_count m + row_total metadata)%Z in *.
    pose proof (row_total_nonneg pending). pose proof (row_total_nonneg metadata).
    cbn [build_entries]. case_decide as Ht.
    + destruct include.
      * destruct (IH (pending ++ [m])) as (entries & He & Hsub & Hf & Hpos & Htot & _).
        { apply Forall_app. auto. }
        { rewrite row_total_app, row_total_single. lia. }
        exists entries. rewrite <- app_assoc in Hsub. split_and!; try done.
        -- cbn [fmap list_fmap]. rewrite filter_cons_False; [done|]. unfold not_reasoning. cbn. auto.
        -- rewrite row_total_app, row_total_single in Htot. lia.
      * destruct (IH pending) as (entries & He & Hsub & Hf & Hpos & Htot & Hi); [done|lia|].
        exists entries. split_and!; try done.
        -- etransitivity; [exact Hsub|]. rewrite !fmap_app. apply sublist_app; [done|]. cbn. by constructor.
        -- cbn [fmap list_fmap]. rewrite filter_cons_False; [done|]. unfold not_reasoning. cbn. auto.
        -- lia.
    + assert (forall entries, filter not_reasoning (entry_ids entries) = filter not_reasoning (row_key <$> metadata) ->
        filter not_reasoning (row_key m :: entry_ids entries) = filter not_reasoning (row_key <$> m :: metadata)) as Hfm.
      { intros entries Hf. cbn [fmap list_fmap]. by rewrite !filter_cons, Hf. }
      destruct (IH []) as (entries & He & Hsub & Hf & Hpos & Htot & Hi); [done|rewrite row_total_nil; lia|].
      rewrite row_total_nil in Htot. cbn in Hsub.
      destruct (include && _) eqn:Hinc.
      * rewrite usize_sum_exact by (first [apply row_totals_nonneg|fold (row_total pending); lia]).
        cbn [mbind outcome_bind]. fold (row_total pending). rewrite usize_add_exact by lia.
        cbn [mbind outcome_bind]. rewrite He. cbn [mbind outcome_bind]. eexists. split; [done|].
        unfold entry_ids. cbn [fmap list_fmap ids e_tok mjoin list_join].
        change ((λ r : RawThreadMessageMetadata, (m_message_type r, m_id r)) <$> pending) with (row_key <$> pending).
        change (m_message_type m, m_id m) with (row_key m). rewrite <- app_assoc. cbn [app].
        split_and!.
        -- rewrite fmap_app. apply sublist_app; [done|]. cbn. by apply sublist_skip.
        -- rewrite filter_app, filter_reasoning_rows by done. by apply Hfm.
        -- constructor; [lia|done].
        -- unfold tsum in *. cbn. lia.
        -- intros ->. done.
      * rewrite He. cbn [mbind outcome_bind]. eexists. split; [done|].
        unfold entry_ids, entry_single. cbn [fmap list_fmap ids e_tok mjoin list_join].
        change (m_message_type m, m_id m) with (row_key m). cbn [app].
        split_and!.
        -- rewrite fmap_app. apply (sublist_app [] _ (_ :: _)); [apply sublist_nil_l|]. cbn. by apply sublist_skip.
        -- by apply Hfm.
        -- by constructor.
        -- unfold tsum in *. cbn. lia.
        -- intros Hif. constructor; [done|auto].
Qed.

(** ** Lemmas: truncation *)
Definition total_tok (l : list ChatMsg) : Z := tsum (tok <$> l).

Lemma total_tok_app l1 l2 : total_tok (l1 ++ l2) = (total_tok l1 + total_tok l2)%Z.
Proof. unfold total_tok. by rewrite fmap_app, tsum_app. Qed.
Lemma total_tok_cons m l : total_tok (m :: l) = (tok m + total_tok l)%Z.
Proof. reflexivity. Qed.

Definition nonneg (l : list ChatMsg) : Prop := Forall (Z.le 0) (tok <$> l).

Lemma sum_tok_exact `{BuildProfile} l : nonneg l -> (total_tok l <= usize_max)%Z -> sum_tok l = Ok (total_tok l).
Proof. intros. unfold sum_tok. rewrite usize_sum_exact; [done|done|done|]. fold (total_tok l). lia. Qed.
Lemma total_tok_sublist l1 l2 : l1 `sublist_of` l2 -> nonneg l2 -> nonneg l1 /\ (0 <= total_tok l1 <= total_tok l2)%Z.
Proof.
  intros Hs Hn. assert (nonneg l1) as Hn1 by (eapply Forall_sublist; [by apply sublist_fmap|done]).
  split; [done|]. split; [by apply tsum_nonneg|]. apply tsum_sublist; [by apply sublist_fmap|done].
Qed.

Lemma user_not_system m : is_user m = true -> is_system m = false.
Proof. unfold is_user, is_system. rewrite bool_decide_eq_true, bool_decide_eq_false. by intros ->. Qed.

Lemma collect_head_sublist b msgs : (collect_head b msgs).1 `sublist_of` msgs.
Proof.
  revert b. induction msgs as [|m msgs IH]; intros b; [done|]. cbn.
  destruct (is_system m && negb b).
  - specialize (IH true). destruct (collect_head true msgs). cbn in *. by constructor.
  - destruct (is_user m); cbn; [constructor; apply sublist_nil_l|by constructor].
Qed.

(** A prompt as the code expects it: at most one system message, then a user
    message. *)
Definition opens_with_user (msgs : list ChatMsg) : Prop :=
  exists sys u rest, msgs = option_list sys ++ u :: rest /\ is_user u = true /\
    (forall s, sys = Some s -> is_system s = true).

Lemma collect_head_opening sys u rest :
  is_user u = true -> (forall s, sys = Some s -> is_system s = true) ->
  collect_head false (option_list sys ++ u :: rest) = (option_list sys ++ [u], bool_decide (is_Some sys)).
Proof.
  intros Hu Hs. pose proof (user_not_system u Hu) as Hus.
  destruct sys as [s|]; cbn; [rewrite (Hs s eq_refl); cbn|]; by rewrite Hus, Hu.
Qed.

(** When everything does not fit, a tail that starts with a user message and
    fits together with the head does not reach into it. *)
Lemma head_before_tail sys u rest older tail budget :
  is_user u = true -> (forall s, sys = Some s -> is_system s = true) ->
  option_list sys ++ u :: rest = older ++ tail -> nonneg (older ++ tail) ->
  (tail = [] \/ exists u' rest', tail = u' :: rest' /\ is_user u' = true) ->
  (budget < total_tok (older ++ tail))%Z ->
  (total_tok (option_list sys ++ [u]) + total_tok tail <= budget)%Z ->
  exists gap, older = option_list sys ++ u :: gap.
Proof.
  intros Hu Hs Heq Hn Htail Hbig Hfit.
  assert (length (option_list sys) < length older) as Hlen.
  { destruct (decide (length (option_list sys) < length older)) as [|Hge]; [done|exfalso].
    destruct Htail as [->|(u' & rest' & -> & Hu')].
    - apply (f_equal length) in Heq. rewrite !length_app in Heq. cbn in Heq. lia.
    - assert (older = option_list sys) as ->.
      { destruct sys as [s|]; destruct older as [|a older]; cbn in *; try lia; try done.
        - simplify_eq. specialize (Hs _ eq_refl). apply user_not_system in Hu'. congruence.
        - destruct older; cbn in *; [|lia]. congruence. }
      rewrite total_tok_app in Hbig, Hfit.
      assert (nonneg [u]) as Hnu.
      { rewrite <- Heq in Hn. unfold nonneg in *. rewrite fmap_app in Hn. apply Forall_app in Hn as [_ Hn].
        apply Forall_cons in Hn as [? _]. by repeat constructor. }
      pose proof (tsum_nonneg _ Hnu). unfold total_tok in *. lia. }
  exists (drop (S (length (option_list sys))) older).
  assert (older = take (length older) (option_list sys ++ u :: rest)) as Ho.
  { rewrite Heq. by rewrite take_app_length. }
  destruct sys as [s|]; destruct older as [|a [|b older]]; cbn in *; simplify_eq; try lia; done.
Qed.

Section lengths.
Context `{Tokenizer, Crypto, SerdeJson, ContentJson, UuidText, BuildProfile}.
Lemma format_messages_length include msgs l : format_messages include msgs = Ok l -> length l = length msgs.
Proof.
  revert l. induction msgs as [|m msgs IH]; intros l Hl; cbn in Hl; inv_ok; [done|].
  cbn. f_equal. by apply IH.
Qed.
Lemma normalize_messages_length s l : length (normalize_messages s l) = length l.
Proof.
  revert s. induction l as [|m l IH]; intros s; cbn; [done|].
  destruct (normalize_message s m). cbn. by rewrite IH.
Qed.
End lengths.

(** ** Properties *)
Section properties.
Context `{Tokenizer, Crypto, SerdeJson, ContentJson, UuidText, BuildProfile}.

(** Pass one keeps what fits.  Reasoning rows apart, every row of the
    conversation is requested when the tokens of all rows and of the instructions
    fit the budget.  Otherwise the rows requested are the first user message
    and a tail of the conversation that starts with a user message and, with the
    instructions and the truncation marker, fits the budget, or is the most
    recent message alone; a most recent message of the user is always in it. *)
Theorem needed_rows_fit metadata model system_tokens token_reserve
    (Hs : (0 <= system_tokens)%Z) (Hm : (0 <= count_tokens TRUNCATED)%Z)
    (Hmax : (system_tokens + row_total metadata + count_tokens TRUNCATED <= usize_max)%Z) :
  let include := Models.model_supports_reasoning_history model in
  let budget := saturating_sub (prompt_token_budget model) token_reserve in
  exists entries needed did_truncate,
    build_context_entries metadata include = Ok entries /\
    determine_needed_message_ids metadata model system_tokens token_reserve =
      Ok (entry_ids needed, did_truncate) /\
    entry_ids entries `sublist_of` row_key <$> metadata /\
    filter not_reasoning (entry_ids entries) = filter not_reasoning (row_key <$> metadata) /\
    (include = false -> Forall not_reasoning (entry_ids entries)) /\
    (did_truncate = false -> needed = entries /\ (system_tokens + tsum (e_tok <$> entries) <= budget)%Z) /\
    (did_truncate = true ->
       (budget < system_tokens + tsum (e_tok <$> entries))%Z /\
       exists older tail,
         needed = first_user entries ++ tail /\ entries = older ++ tail /\
         (tail = [] \/ exists u rest, tail = u :: rest /\ entry_is_user u = true) /\
         ((tsum (e_tok <$> tail) <= saturating_sub budget
             (system_tokens + tsum (e_tok <$> first_user entries) + count_tokens TRUNCATED))%Z \/
          exists recent, last entries = Some recent /\ tail = [recent]) /\
         (forall recent, last entries = Some recent -> entry_is_user recent = true ->
            last needed = Some recent)).
Proof.
  intros include budget. pose proof (row_total_nonneg metadata).
  destruct (build_entries_spec include [] metadata) as (entries & He & Hsub & Hf & Hpos & Htot & Hi);
    [done|rewrite row_total_nil; lia|]. rewrite row_total_nil in Htot. cbn in Hsub. pose proof (tsum_nonneg _ Hpos).
  unfold determine_needed_message_ids, build_context_entries. fold include. rewrite He.
  cbn [mbind outcome_bind]. fold budget. rewrite usize_sum_exact by (try done; lia).
  cbn [mbind outcome_bind]. rewrite usize_add_exact by lia. cbn [mbind outcome_bind]. rewrite Z.add_0_l.
  case_decide as Hfit.
  - exists entries, entries, false. split_and!; try done.
  - assert (first_user entries `sublist_of` entries) as Hfu.
    { unfold first_user. destruct (list_find _ entries) as [[i e]|] eqn:Hfind; [|apply sublist_nil_l].
      apply list_find_Some in Hfind as (Hi' & _). apply singleton_sublist_l.
      by eapply list_elem_of_lookup_2. }
    assert (0 <= tsum (e_tok <$> first_user entries) <= tsum (e_tok <$> entries))%Z as Hfs.
    { split; [apply tsum_nonneg; eapply Forall_sublist; [by apply sublist_fmap|done]|].
      apply tsum_sublist; [by apply sublist_fmap|done]. }
    destruct (tail_spec (E:=Api.ApiError) e_tok entry_is_user
      (saturating_sub budget (system_tokens + tsum (e_tok <$> first_user entries) + count_tokens TRUNCATED)) entries)
      as (potential & older & Hct & Hol & Hu & Htail & Hlast); [unfold saturating_sub; lia|done|lia|].
    unfold needed_entries. rewrite usize_sum_exact by (first [lia|eapply Forall_sublist; [by apply sublist_fmap|done]]).
    cbn [mbind outcome_bind]. rewrite Z.add_0_l, usize_add_exact by lia. cbn [mbind outcome_bind].
    rewrite usize_add_exact by lia. cbn [mbind outcome_bind]. rewrite Hct. cbn [mbind outcome_bind].
    exists entries, (first_user entries ++ from_first_user entry_is_user potential), true.
    split_and!; try done. intros _. split; [lia|].
    exists older, (from_first_user entry_is_user potential). split_and!; try done.
    intros recent Hr Hru. specialize (Hlast recent Hr Hru).
    destruct (from_first_user entry_is_user potential); [done|]. by rewrite last_app_cons.
Qed.

(** What is kept of a prompt that opens with a system message [sys], if any, and
    a user message [u]. *)
Definition starts_with_user (l : list ChatMsg) : Prop := l = [] \/ exists u rest, l = u :: rest /\ is_user u = true.
Inductive kept (sys : option ChatMsg) (u : ChatMsg) (msgs : list ChatMsg) : list ChatMsg -> Prop :=
| kept_all : kept sys u msgs msgs
| kept_ends gap tail : msgs = option_list sys ++ u :: gap ++ tail -> gap <> [] -> starts_with_user tail ->
    kept sys u msgs (option_list sys ++ u :: truncation_msg :: tail)
| kept_system s older tail : sys = Some s -> msgs = older ++ tail -> older <> [] -> starts_with_user tail -> kept sys u msgs (s :: tail)
| kept_tail older tail : msgs = older ++ tail -> starts_with_user tail -> kept sys u msgs tail.
Definition opening (sys : option ChatMsg) (u : ChatMsg) (rest msgs : list ChatMsg) : Prop :=
  msgs = option_list sys ++ u :: rest /\ is_user u = true /\ (forall s, sys = Some s -> is_system s = true).

Lemma shrink_cases hs head marker tail budget msgs :
  nonneg msgs -> head `sublist_of` msgs -> tail `sublist_of` msgs ->
  nonneg marker -> (3 * total_tok msgs + total_tok marker <= usize_max)%Z ->
  exists out, shrink hs (head ++ marker ++ tail) tail budget = Ok out /\
    ((out = head ++ marker ++ tail /\ total_tok out <= budget)%Z \/
     (exists i sys, hs = true /\ list_find (fun m => is_system m = true) (head ++ marker ++ tail) = Some (i, sys) /\
        out = sys :: tail /\ total_tok out <= budget)%Z \/
     out = tail).
Proof.
  intros Hn Hh Ht Hnm Hmax.
  destruct (total_tok_sublist _ _ Hh Hn) as [Hnh Hhs]. destruct (total_tok_sublist _ _ Ht Hn) as [Hnt Hts].
  assert (nonneg (head ++ marker ++ tail)) as Hna.
  { unfold nonneg in *. rewrite !fmap_app. by rewrite !Forall_app. }
  pose proof (tsum_nonneg _ Hnm) as Hmk. fold (total_tok marker) in Hmk.
  unfold shrink. rewrite (sum_tok_exact (head ++ marker ++ tail)) by (first [exact Hna|rewrite !total_tok_app; lia]). cbn [mbind outcome_bind].
  case_decide as Hfit; [eauto|]. destruct hs; [|eauto].
  destruct (list_find _ _) as [[i sys]|] eqn:Hfind; [|eauto].
  rewrite sum_tok_exact by (done || lia). cbn [mbind outcome_bind].
  assert (0 <= tok sys + total_tok tail <= usize_max)%Z as Hle.
  { apply list_find_Some in Hfind as (Hi & _). apply list_elem_of_lookup_2 in Hi.
    assert ([sys] `sublist_of` head ++ marker ++ tail) as Hsub by by apply singleton_sublist_l.
    apply total_tok_sublist in Hsub as [_ Hsub]; [|done]. rewrite !total_tok_app, total_tok_cons in Hsub.
    change (total_tok []) with 0%Z in Hsub. lia. }
  rewrite usize_add_exact by done. cbn [mbind outcome_bind]. case_decide; [|eauto].
  eexists. split; [done|]. right; left. exists i, sys. rewrite total_tok_cons. auto.
Qed.

Lemma kept_of_cases hs head marker older tail budget msgs out sys u rest :
  opening sys u rest msgs -> msgs = older ++ tail -> collect_head false msgs = (head, hs) -> nonneg msgs ->
  marker = (if bool_decide (length head + length tail < length msgs) then [truncation_msg] else []) -> (0 <= total_tok marker)%Z ->
  starts_with_user tail -> (budget < total_tok msgs)%Z ->
  ((out = head ++ marker ++ tail /\ total_tok out <= budget)%Z \/
   (exists i s, hs = true /\ list_find (fun m => is_system m = true) (head ++ marker ++ tail) = Some (i, s) /\
      out = s :: tail /\ total_tok out <= budget)%Z \/
   out = tail) ->
  kept sys u msgs out.
Proof.
  intros (Hopen & Huu & Hs) Hol Hhd Hn Hmark Hm0 Hu Hbig Hcases.
  rewrite Hopen, collect_head_opening in Hhd by done. injection Hhd as <- Hsys.
  destruct Hcases as [[-> Hfit]|[(i & s & -> & Hfind & -> & _)| ->]]; [| |by eapply kept_tail].
  - destruct (head_before_tail sys u rest older tail budget) as [gap ->]; try done.
    { by rewrite <- Hopen. }
    { by rewrite <- Hol. }
    { by rewrite <- Hol. }
    { rewrite !total_tok_app in Hfit. rewrite total_tok_app. lia. }
    assert (gap <> []) as Hgap.
    { intros ->. rewrite !total_tok_app in Hfit. rewrite Hol, !total_tok_app in Hbig. lia. }
    assert (marker = [truncation_msg]) as ->.
    { rewrite Hmark, bool_decide_true; [done|]. rewrite Hol, !length_app. cbn. destruct gap; [done|]. cbn. lia. }
    rewrite <- app_assoc. cbn. eapply (kept_ends _ _ _ gap); [|done|done]. by rewrite Hol, <- app_assoc.
  - apply list_find_Some in Hfind as (Hi & Hss & Hfirst). apply bool_decide_eq_true in Hsys as [s' ->].
    assert (s' = s) as ->.
    { destruct i as [|i]; [cbn in Hi; congruence|]. exfalso. apply (Hfirst 0 s'); [done|lia|by apply Hs]. }
    eapply kept_system; [done|exact Hol| |done]. intros ->. cbn in Hol. rewrite Hopen in Hol.
    destruct Hu as [->|(u' & rest' & -> & Hu')]; [done|]. injection Hol as <- _.
    apply user_not_system in Hu'. by rewrite (Hs s) in Hu'.
Qed.

Lemma truncate_spec msgs budget :
  nonneg msgs -> (0 <= count_tokens TRUNCATED)%Z -> (0 <= budget)%Z ->
  (3 * total_tok msgs + count_tokens TRUNCATED <= usize_max)%Z ->
  exists out, truncate msgs budget = Ok out /\
    ((total_tok msgs <= budget)%Z -> out = msgs) /\ (forall sys u rest, opening sys u rest msgs -> kept sys u msgs out) /\
    ((total_tok out <= budget)%Z \/
     exists recent, last msgs = Some recent /\ is_user recent = true /\ (budget < tok recent)%Z /\ out = [recent]) /\
    (forall recent, last msgs = Some recent -> is_user recent = true -> last out = Some recent) /\
    nonneg out /\ (total_tok out <= usize_max)%Z.
Proof.
  intros Hn Hm Hbud Hmax. pose proof (tsum_nonneg _ Hn) as Hn0. fold (total_tok msgs) in Hn0.
  unfold truncate. rewrite (sum_tok_exact msgs) by (done || lia). cbn [mbind outcome_bind].
  case_decide as Hfit.
  { exists msgs. split_and!; try done; [|auto|lia]. intros. apply kept_all. }
  destruct (collect_head false msgs) as [head hs] eqn:Hhd.
  pose proof (collect_head_sublist false msgs) as Hhsub. rewrite Hhd in Hhsub. cbn in Hhsub.
  destruct (total_tok_sublist _ _ Hhsub Hn) as [Hnh Hhs].
  rewrite (sum_tok_exact head) by (done || lia). cbn [mbind outcome_bind].
  rewrite usize_add_exact by lia. cbn [mbind outcome_bind].
  set (available := saturating_sub budget _).
  destruct (tail_spec (E:=Api.ApiError) tok is_user available msgs)
    as (potential & older & Hct & Hol & Hu & Htail & Hlast);
    [subst available; unfold saturating_sub; lia|done|fold (total_tok msgs); lia|].
  rewrite Hct. cbn [mbind outcome_bind]. set (tail := from_first_user is_user potential) in *. clearbody tail.
  assert (tail `sublist_of` msgs) as Htsub by (rewrite Hol; by apply sublist_inserts_l).
  destruct (total_tok_sublist _ _ Htsub Hn) as [Hnt Hts].
  set (marker := if bool_decide _ then [truncation_msg] else []).
  assert (nonneg marker /\ (0 <= total_tok marker <= count_tokens TRUNCATED)%Z) as [Hnm Hms].
  { subst marker. case_bool_decide; [|by split; [constructor|cbn]].
    split; [by repeat constructor|]. rewrite total_tok_cons. cbn. lia. }
  destruct (shrink_cases hs head marker tail budget msgs) as (out & Hout & Hcases); [done..|lia|].
  exists out. split; [exact Hout|]. split; [lia|]. split.
  { intros sys u rest Hopen. apply (kept_of_cases hs head marker older tail budget msgs out sys u rest); try done; lia. }
  assert (exists front, out = front ++ tail /\ nonneg front /\ (total_tok front <= 2 * total_tok msgs + count_tokens TRUNCATED)%Z)
    as (front & Hfront & Hnf & Htf).
  { destruct Hcases as [[-> _]|[(i & s & _ & Hfind & -> & _)| ->]].
    - exists (head ++ marker). rewrite <- app_assoc, total_tok_app. split_and!; [done| |lia].
      unfold nonneg in *. rewrite fmap_app. by apply Forall_app.
    - exists [s]. apply list_find_Some in Hfind as (Hi & _). apply list_elem_of_lookup_2 in Hi.
      assert (nonneg (head ++ marker ++ tail)) as Hna.
      { unfold nonneg in *. rewrite !fmap_app. by rewrite !Forall_app. }
      apply singleton_sublist_l in Hi. apply total_tok_sublist in Hi as [Hns Hts']; [|done].
      rewrite !total_tok_app in Hts'. split_and!; [done|done|lia].
    - exists []. split_and!; [done|constructor|cbn; lia]. }
  split_and!.
  - destruct Hcases as [[_ ?]|[(i & s & _ & _ & _ & ?)| ->]]; [by left|by left|].
    destruct Htail as [Hle|(x & Hx & ->)].
    + left. fold (total_tok tail) in Hle. subst available. unfold saturating_sub in Hle. lia.
    + destruct Hu as [|(u & rest & [= <- <-] & Hux)]; [done|].
      rewrite total_tok_cons. change (total_tok []) with 0%Z.
      destruct (decide (tok x <= budget)%Z); [left; lia|right]. exists x. split_and!; auto. lia.
  - intros x Hx Hux. specialize (Hlast x Hx Hux). apply last_Some in Hlast as [t' Ht'].
    rewrite Hfront, Ht', app_assoc. apply last_snoc.
  - rewrite Hfront. unfold nonneg in *. rewrite fmap_app. by apply Forall_app.
  - rewrite Hfront, total_tok_app. lia.
Qed.

(** C27. The prompt fits.  Truncating a list of messages keeps it as it is when it
    fits the budget.  What is sent fits the budget unless the last message is a user
    message that is itself larger: that message alone is sent then, which a build
    with debug assertions refuses by a panic.  A last message of the user is always
    kept.  If the list opens with a system message, if any, and a user message, then
    what is sent is all of it, or these, the marker and a tail of the rest that is
    empty or starts with a user message, or such a tail, alone or after the system
    message.
    The count is that of the messages sent, and each makes one chat message. *)
Theorem prompt_fits msgs model token_reserve
    (Hn : nonneg msgs) (Hm : (0 <= count_tokens TRUNCATED)%Z)
    (Hmax : (3 * total_tok msgs + count_tokens TRUNCATED <= usize_max)%Z) :
  let budget := saturating_sub (prompt_token_budget model) token_reserve in
  let prompt := build_prompt_from_chat_messages_with_token_reserve msgs model token_reserve in
  exists out, truncate msgs budget = Ok out /\
    ((total_tok msgs <= budget)%Z -> out = msgs) /\
    (forall sys u rest, opening sys u rest msgs -> kept sys u msgs out) /\
    ((total_tok out <= budget)%Z \/
     exists recent, last msgs = Some recent /\ is_user recent = true /\ (budget < tok recent)%Z /\ out = [recent]) /\
    (forall recent, last msgs = Some recent -> is_user recent = true -> last out = Some recent) /\
    (debug_assertions = true -> (budget < total_tok out)%Z -> prompt = Panic) /\
    (debug_assertions = false \/ (total_tok out <= budget)%Z ->
       prompt = (chat ← format_messages (Models.model_supports_reasoning_history model) out;
                 Ok (if model_uses_kimi_tool_call_ids model then normalize_tool_call_ids_for_kimi chat else chat, total_tok out))) /\
    (forall chat total, prompt = Ok (chat, total) -> total = total_tok out /\ length chat = length out).
Proof.
  intros budget prompt.
  assert (0 <= budget)%Z as Hbud by (subst budget; unfold saturating_sub; lia).
  destruct (truncate_spec msgs budget) as (out & Hout & Hsame & Htr & Hfit & Hlast & Hno & Hto); [done..|].
  assert (prompt = (_ ← checked (bool_decide (total_tok out <= budget)%Z);
    chat ← format_messages (Models.model_supports_reasoning_history model) out;
    Ok (if model_uses_kimi_tool_call_ids model then normalize_tool_call_ids_for_kimi chat else chat, total_tok out))) as Hprompt.
  { subst prompt. unfold build_prompt_from_chat_messages_with_token_reserve. fold budget. rewrite Hout.
    cbn [mbind outcome_bind]. by rewrite sum_tok_exact. }
  exists out. split_and!; try done; clearbody prompt; rewrite Hprompt; unfold checked.
  - intros -> Hbig. rewrite bool_decide_false by lia. done.
  - intros [->|Hle]; [done|]. rewrite bool_decide_true by done. by destruct debug_assertions.
  - intros chat total Hp. destruct (if debug_assertions then _ else _) as [[]|e|]; [|done..]. cbn [mbind outcome_bind] in Hp.
    destruct (format_messages _ out) as [l|e|] eqn:Hl; [|done..]. injection Hp as <- <-. split; [done|].
    rewrite <- (format_messages_length _ _ _ Hl). case_match; [|done]. apply normalize_messages_length.
Qed.

End properties.

(** ** Lemmas: Kimi's tool call identifiers *)
Lemma last_separator (c : ascii) (s1 s2 d1 d2 : string) :
  contains_char c d1 = false -> contains_char c d2 = false ->
  s1 +:+ String c d1 = s2 +:+ String c d2 -> d1 = d2.
Proof.
  intros Hd1 Hd2. revert s2. induction s1 as [|a s1 IH]; intros [|b s2] Heq; cbn in Heq; simplify_eq; try done.
  - exfalso. rewrite contains_char_app in Hd1. cbn in Hd1.
    rewrite bool_decide_true, orb_true_r in Hd1 by done. done.
  - exfalso. rewrite contains_char_app in Hd2. cbn in Hd2.
    rewrite bool_decide_true, orb_true_r in Hd2 by done. done.
  - by apply (IH s2).
Qed.

Lemma pretty_N_no_colon (n : N) : contains_char ":" (pretty n) = false.
Proof.
  assert (forall s, contains_char ":" s = false -> contains_char ":" (pretty_N_go n s) = false) as Hgo.
  { induction (N.lt_wf_0 n) as [n _ IH]. intros s Hs. destruct (decide (n = 0%N)) as [->|Hn].
    - by rewrite pretty_N_go_0.
    - rewrite pretty_N_go_step by lia. apply IH; [apply N.div_lt; lia|].
      cbn [contains_char]. rewrite Hs, orb_false_r. apply bool_decide_eq_false.
      intros Hc. unfold pretty_N_char in Hc. repeat case_match; discriminate. }
  unfold pretty, pretty_N. case_decide; [done|]. by apply Hgo.
Qed.

Lemma kimi_id_inj f g i j : kimi_id f i = kimi_id g j -> i = j.
Proof.
  unfold kimi_id. intros Heq. injection Heq as Heq.
  apply last_separator in Heq; [|apply pretty_N_no_colon..].
  apply (inj pretty) in Heq. lia.
Qed.

(** What a message's tool calls say: the function's name and the identifier. *)
Definition call_key (c : Value) : option (string * string) :=
  f ← (f ← get "function" c; n ← get "name" f; as_str n);
  i ← (i ← get "id" c; as_str i);
  Some (f, i).
Definition role_of (m : Value) : option string := r ← get "role" m; as_str r.
Definition calls_of (m : Value) : list Value :=
  if decide (role_of m = Some ROLE_ASSISTANT)
  then default [] (calls ← get "tool_calls" m; as_array calls) else [].
Definition message_calls (m : Value) : list (string * string) := omap call_key (calls_of m).
Definition call_names (messages : list Value) : list (string * string) := mjoin (message_calls <$> messages).
Definition tool_ref (m : Value) : option string :=
  if decide (role_of m = Some "tool") then i ← get "tool_call_id" m; as_str i else None.

Definition rename (s : KimiIds) (k : string * string) : KimiIds :=
  MkKimi (S (next_tool_call_index s)) (<[k.2 := kimi_id k.1 (next_tool_call_index s)]> (original_to_kimi_id s)).
Definition renamed (n : nat) (l : list (string * string)) : list (string * string) :=
  imap (fun i k => (k.1, kimi_id k.1 (n + i))) l.

Lemma get_set_eq name v o : is_Some (as_object o) -> get name (set name v o) = Some v.
Proof. intros [l Hl]. destruct o; simplify_eq/=. apply member_set_eq. Qed.
Lemma get_set_ne name name' v o : name <> name' -> get name (set name' v o) = get name o.
Proof. intros Hne. destruct o; cbn; try done. by apply member_set_ne. Qed.
Lemma get_object name v o : get name o = Some v -> is_Some (as_object o).
Proof. destruct o; cbn; try done; eauto. Qed.

Lemma renamed_cons n k l : renamed n (k :: l) = (k.1, kimi_id k.1 n) :: renamed (S n) l.
Proof.
  unfold renamed. cbn. rewrite Nat.add_0_r. f_equal. apply imap_ext. intros i x _. cbn. by rewrite Nat.add_succ_r.
Qed.

Lemma normalize_call_spec s c s' c' :
  normalize_call s c = (s', c') ->
  s' = foldl rename s (option_list (call_key c)) /\
  option_list (call_key c') = renamed (next_tool_call_index s) (option_list (call_key c)).
Proof.
  unfold normalize_call, call_key.
  destruct (f ← get "function" c; n ← get "name" f; as_str n) as [f|] eqn:Hf; cbn [mbind option_bind];
    [|by intros [= <- <-]; rewrite Hf].
  destruct (i ← get "id" c; as_str i) as [i|] eqn:Hi; cbn [mbind option_bind];
    [|by intros [= <- <-]; rewrite Hf, Hi].
  intros [= <- <-]. split; [done|]. rewrite (get_set_ne "function") by done. rewrite Hf. cbn [mbind option_bind].
  apply bind_Some in Hi as (v & Hv & _). rewrite get_set_eq by (by eapply get_object). cbn.
  by rewrite Nat.add_0_r.
Qed.

Lemma foldl_rename_next s l : next_tool_call_index (foldl rename s l) = next_tool_call_index s + length l.
Proof. revert s. induction l as [|k l IH]; intros s; cbn; [lia|]. rewrite IH. cbn. lia. Qed.

Lemma renamed_app n l1 l2 : renamed n (l1 ++ l2) = renamed n l1 ++ renamed (n + length l1) l2.
Proof.
  unfold renamed. rewrite imap_app. f_equal. apply imap_ext. intros i x _. cbn. by rewrite Nat.add_assoc.
Qed.

Lemma omap_cons_list {A B} (f : A -> option B) x l : omap f (x :: l) = option_list (f x) ++ omap f l.
Proof. cbn. by destruct (f x). Qed.

Lemma normalize_calls_spec s calls s' calls' :
  normalize_calls s calls = (s', calls') ->
  s' = foldl rename s (omap call_key calls) /\
  omap call_key calls' = renamed (next_tool_call_index s) (omap call_key calls).
Proof.
  revert s s' calls'. induction calls as [|c calls IH]; intros s s' calls'; cbn [normalize_calls].
  - by intros [= <- <-].
  - destruct (normalize_call s c) as [s1 c1] eqn:Hc. destruct (normalize_calls s1 calls) as [s2 l] eqn:Hl.
    intros [= <- <-]. apply normalize_call_spec in Hc as [-> Hk]. apply IH in Hl as [-> Hl].
    rewrite !omap_cons_list, foldl_app, renamed_app, Hk, Hl, foldl_rename_next. done.
Qed.

Lemma normalize_message_spec s m s' m' :
  normalize_message s m = (s', m') ->
  s' = foldl rename s (message_calls m) /\
  message_calls m' = renamed (next_tool_call_index s) (message_calls m) /\
  match tool_ref m with
  | Some o =>
      match original_to_kimi_id s !! o with
      | Some k => tool_ref m' = Some k
      | None => m' = m
      end
  | None => True
  end.
Proof.
  unfold normalize_message, message_calls, calls_of, tool_ref. fold (role_of m).
  destruct (role_of m) as [r|] eqn:Hr; cbn [mbind option_bind].
  2: { intros [= <- <-]. rewrite Hr. done. }
  destruct (decide (r = ROLE_ASSISTANT)) as [->|Hra].
  - rewrite (decide_True (P := Some ROLE_ASSISTANT = Some ROLE_ASSISTANT)) by done.
    rewrite (decide_False (P := Some ROLE_ASSISTANT = Some "tool")) by done.
    destruct (calls ← get "tool_calls" m; as_array calls) as [calls|] eqn:Hc.
    + destruct (normalize_calls s calls) as [s1 calls'] eqn:Hn. intros [= <- <-].
      apply normalize_calls_spec in Hn as [-> Hk].
      apply bind_Some in Hc as (v & Hv & _). unfold role_of in *.
      rewrite (get_set_ne "role") by done. rewrite Hr, decide_True by done.
      rewrite get_set_eq by (by eapply get_object). done.
    + intros [= <- <-]. rewrite Hr, decide_True, Hc by done. done.
  - rewrite (decide_False (P := Some r = Some ROLE_ASSISTANT)) by congruence.
    destruct (decide (r = "tool")) as [->|Hrt].
    + rewrite (decide_True (P := Some "tool" = Some "tool")) by done.
      destruct (i ← get "tool_call_id" m; as_str i) as [o|] eqn:Ho.
      * destruct (original_to_kimi_id s !! o) as [k|] eqn:Hk; intros [= <- <-]; [|by rewrite Hr].
        apply bind_Some in Ho as (v & Hv & _). unfold role_of in *.
        rewrite (get_set_ne "role") by done. rewrite Hr.
        rewrite get_set_eq by (by eapply get_object). done.
      * intros [= <- <-]. by rewrite Hr.
    + rewrite (decide_False (P := Some r = Some "tool")) by congruence.
      intros [= <- <-]. rewrite Hr, decide_False by congruence. done.
Qed.

(** What the renaming knows after some calls: the new name of the last one. *)
Lemma foldl_rename_lookup l o :
  let s := foldl rename (MkKimi 0 ∅) l in
  (forall k f, l !! k = Some (f, o) -> (forall k' f', k < k' -> l !! k' <> Some (f', o)) ->
     original_to_kimi_id s !! o = Some (kimi_id f k)) /\
  ((forall k f, l !! k <> Some (f, o)) -> original_to_kimi_id s !! o = None).
Proof.
  induction l as [|[g p] l IH] using rev_ind; [split; done|]. cbn zeta in *. rewrite foldl_snoc.
  set (s := foldl rename (MkKimi 0 ∅) l) in *.
  assert (next_tool_call_index s = length l) as Hnext by (subst s; by rewrite foldl_rename_next).
  unfold rename. cbn [original_to_kimi_id fst snd]. rewrite Hnext. destruct IH as [IH1 IH2].
  assert ((l ++ [(g, p)]) !! length l = Some (g, p)) as Hlast by (by rewrite lookup_app_r, Nat.sub_diag by lia).
  split.
  - intros k f Hk Hmax. destruct (decide (k < length l)) as [Hlt|Hge].
    + rewrite lookup_app_l in Hk by done. destruct (decide (p = o)) as [->|Hpo].
      * by destruct (Hmax (length l) g).
      * rewrite lookup_insert_ne by done. apply IH1; [done|].
        intros k' f' Hk' Hl. apply (Hmax k' f'); [done|]. by apply lookup_app_l_Some.
    + assert (k = length l) as ->.
      { apply lookup_lt_Some in Hk. rewrite length_app in Hk. cbn in Hk. lia. }
      rewrite Hlast in Hk. simplify_eq. apply lookup_insert_eq.
  - intros Hnone. rewrite lookup_insert_ne by (intros ->; by eapply Hnone).
    apply IH2. intros k f Hk. apply (Hnone k f). by apply lookup_app_l_Some.
Qed.

Lemma normalize_messages_app s l1 l2 :
  normalize_messages s (l1 ++ l2) =
    normalize_messages s l1 ++ normalize_messages (foldl rename s (call_names l1)) l2.
Proof.
  revert s. induction l1 as [|m l1 IH]; intros s; cbn [normalize_messages app]; [done|].
  destruct (normalize_message s m) as [s1 m1] eqn:Hm. apply normalize_message_spec in Hm as (-> & _).
  rewrite IH. unfold call_names. cbn. by rewrite foldl_app.
Qed.

Lemma call_names_normalized s l :
  call_names (normalize_messages s l) = renamed (next_tool_call_index s) (call_names l).
Proof.
  revert s. induction l as [|m l IH]; intros s; cbn [normalize_messages]; [done|].
  destruct (normalize_message s m) as [s1 m1] eqn:Hm. apply normalize_message_spec in Hm as (-> & Hk & _).
  change (message_calls m1 ++ call_names (normalize_messages (foldl rename s (message_calls m)) l) =
    renamed (next_tool_call_index s) (message_calls m ++ call_names l)).
  by rewrite IH, Hk, renamed_app, foldl_rename_next.
Qed.

(** Renaming tool calls for Kimi keeps the conversation connected: the
    calls keep their order and functions and get distinct identifiers
    [functions.<name>:<index>]; a tool output that refers to an identifier of an
    earlier call refers, after the renaming, to the new identifier of the last
    earlier call that had it; any other tool output is left as it was. *)
Theorem kimi_ids_paired (messages : list Value) :
  let out := normalize_tool_call_ids_for_kimi messages in
  length out = length messages /\
  call_names out = imap (fun i k => (k.1, kimi_id k.1 i)) (call_names messages) /\
  NoDup (snd <$> call_names out) /\
  forall before m after o, messages = before ++ m :: after -> tool_ref m = Some o ->
    exists m', out !! length before = Some m' /\
      (forall k f, call_names before !! k = Some (f, o) ->
         (forall k' f', k < k' -> call_names before !! k' <> Some (f', o)) ->
         tool_ref m' = Some (kimi_id f k)) /\
      ((forall k f, call_names before !! k <> Some (f, o)) -> m' = m).
Proof.
  intros out. subst out. unfold normalize_tool_call_ids_for_kimi.
  pose proof (call_names_normalized (MkKimi 0 ∅) messages) as Hnames.
  split_and!; [apply normalize_messages_length|exact Hnames| |].
  - rewrite Hnames. apply NoDup_alt. intros i j x Hi Hj.
    unfold renamed in *. rewrite list_lookup_fmap, list_lookup_imap in Hi, Hj.
    destruct (call_names messages !! i) as [[f o]|] eqn:Hfi; [|done].
    destruct (call_names messages !! j) as [[g p]|] eqn:Hgj; [|done].
    apply (kimi_id_inj f g). transitivity x; [|symmetry]; apply (inj Some); [exact Hi|exact Hj].
  - intros before m after o -> Href. rewrite normalize_messages_app. cbn [normalize_messages].
    destruct (normalize_message _ m) as [s1 m'] eqn:Hm. apply normalize_message_spec in Hm as (_ & _ & Hm).
    rewrite Href in Hm. exists m'. split.
    + pose proof (normalize_messages_length (MkKimi 0 ∅) before).
      rewrite lookup_app_r by lia. by replace (length before - _) with 0 by lia.
    + destruct (foldl_rename_lookup (call_names before) o) as [Hfound Hmiss]. split.
      * intros k f Hk Hmax. by rewrite (Hfound k f Hk Hmax) in Hm.
      * intros Hnone. by rewrite (Hmiss Hnone) in Hm.
Qed.

(** ** Corner cases of the truncation *)
Section corners.
Context `{Tokenizer, Crypto, SerdeJson, ContentJson, UuidText, BuildProfile}.

(** A text of the model that happens to be a JSON object with a [tool_calls]
    member is not sent as text: the object itself becomes the message, whatever
    role it claims. *)
Lemma assistant_text_replayed m parsed calls :
  role m = ROLE_ASSISTANT -> from_str (content m) = Some parsed -> get "tool_calls" parsed = Some calls ->
  format_message false m = Ok parsed.
Proof.
  intros Hr Hp Hc. unfold format_message. rewrite decide_False by (by rewrite Hr).
  by rewrite decide_True, Hp, Hc by done.
Qed.
End corners.

Section witnesses.
#[local] Existing Instances ToyCrypto.toy ToyCrypto.toy_laws.
#[local] Instance demo_tokenizer : Tokenizer := fun s => Z.of_nat (str_len s).
#[local] Instance demo_serde : SerdeJson := {| from_str _ := None; to_string _ := EmptyString |}.
#[local] Instance release : BuildProfile := false.
#[local] Instance demo_uuid : UuidText :=
  {| uuid_to_string := of_bytes; uuid_parse_str s := Some (as_bytes s) |}.
#[local] Existing Instance ToyContent.toy_content.

Definition demo_msg (r : string) (t : Z) : ChatMsg := MkMsg r EmptyString None None t.

(** A prompt that opens with an oversized message of the assistant: the first
    user message is also the tail, and is sent twice. *)
Lemma first_user_sent_twice :
  truncate [demo_msg ROLE_ASSISTANT 200000; demo_msg ROLE_USER 5] 100000 =
    Ok [demo_msg ROLE_USER 5; demo_msg ROLE_USER 5].
Proof. vm_compute. reflexivity. Qed.

(** The most recent message is dropped when it is not a user message and the
    user message before it no longer fits beside it. *)
Lemma recent_tool_output_dropped :
  truncate [demo_msg ROLE_USER 5; demo_msg "tool" 200000] 100000 =
    Ok [demo_msg ROLE_USER 5; truncation_msg].
Proof. vm_compute. reflexivity. Qed.

(** So is the most recent user message, when a larger tool output follows it. *)
Lemma recent_user_message_lost :
  truncate [demo_msg ROLE_USER 5; demo_msg ROLE_ASSISTANT 5; demo_msg ROLE_USER 6; demo_msg "tool" 200000] 100000 =
    Ok [demo_msg ROLE_USER 5; truncation_msg].
Proof. vm_compute. reflexivity. Qed.

Definition demo_rows : list RawThreadMessageMetadata :=
  [MkMetadata "user" 1 [] 0 (Some 10%Z) None; MkMetadata "reasoning" 2 [] 1 (Some 7%Z) None;
   MkMetadata "assistant" 3 [] 2 (Some 200000%Z) None; MkMetadata "user" 4 [] 3 (Some 20%Z) None].

Lemma needed_rows_fit_witness :
  (5 + row_total demo_rows + count_tokens TRUNCATED <= usize_max)%Z /\
  exists needed did_truncate,
    determine_needed_message_ids demo_rows "gpt-oss-120b" 5 0 = Ok (entry_ids needed, did_truncate).
Proof.
  split; [vm_compute; discriminate|].
  destruct (needed_rows_fit demo_rows "gpt-oss-120b" 5 0) as (entries & needed & t & _ & Hd & _);
    [lia|vm_compute; discriminate|vm_compute; discriminate|].
  exists needed, t. exact Hd.
Defined.

Definition demo_msgs : list ChatMsg :=
  [demo_msg ROLE_SYSTEM 5; demo_msg ROLE_USER 10; demo_msg ROLE_ASSISTANT 200000; demo_msg ROLE_USER 20].

(** Truncated in the middle; and an oversized message alone, which a release build
    sends. *)
Lemma prompt_fits_witness :
  (exists out, truncate demo_msgs (saturating_sub (prompt_token_budget "gpt-oss-120b") 0) = Ok out /\
     kept (Some (demo_msg ROLE_SYSTEM 5)) (demo_msg ROLE_USER 10) demo_msgs out) /\
  exists out, truncate [demo_msg ROLE_USER 200000] (saturating_sub (prompt_token_budget "gpt-oss-120b") 0) = Ok out /\
    last out = Some (demo_msg ROLE_USER 200000).
Proof.
  assert (nonneg demo_msgs) as Hn by (repeat constructor; discriminate).
  assert (nonneg [demo_msg ROLE_USER 200000]) as Hn1 by (repeat constructor; discriminate).
  split.
  - destruct (prompt_fits demo_msgs "gpt-oss-120b" 0 Hn) as (out & Ht & _ & Hk & _);
      [vm_compute; discriminate|vm_compute; discriminate|].
    exists out. split; [exact Ht|]. apply (Hk _ _ [demo_msg ROLE_ASSISTANT 200000; demo_msg ROLE_USER 20]).
    split; [reflexivity|]. split; [vm_compute; reflexivity|]. intros s [= <-]. vm_compute. reflexivity.
  - destruct (prompt_fits [demo_msg ROLE_USER 200000] "gpt-oss-120b" 0 Hn1) as (out & Ht & _ & _ & _ & Hl & _);
      [vm_compute; discriminate|vm_compute; discriminate|].
    exists out. split; [exact Ht|]. apply Hl; [reflexivity|vm_compute; reflexivity].
Defined.

Definition demo_call (name id : string) : Value :=
  Object [("role", Str ROLE_ASSISTANT);
          ("tool_calls", Array [Object [("id", Str id); ("function", Object [("name", Str name)])]])].
Definition demo_output (id : string) : Value :=
  Object [("role", Str "tool"); ("tool_call_id", Str id)].

Lemma kimi_ids_paired_witness :
  normalize_tool_call_ids_for_kimi [demo_call "search" "a"; demo_output "a"] =
    [demo_call "search" "functions.search:0"; demo_output "functions.search:0"] /\
  exists m', normalize_tool_call_ids_for_kimi [demo_call "search" "a"; demo_output "a"] !! 1 = Some m' /\
    tool_ref m' = Some (kimi_id "search" 0).
Proof.
  split; [vm_compute; reflexivity|].
  destruct (kimi_ids_paired [demo_call "search" "a"; demo_output "a"]) as (_ & _ & _ & Hpair).
  destruct (Hpair [demo_call "search" "a"] (demo_output "a") [] "a" eq_refl ltac:(vm_compute; reflexivity))
    as (m' & Hm & Href & _).
  exists m'. split; [exact Hm|]. apply (Href 0 "search"); [vm_compute; reflexivity|].
  intros k' f' Hk Hl. destruct k' as [|k']; [lia|]. discriminate Hl.
Defined.
End witnesses.
End ContextBuilder.
