(* ===== verification/Database.v ===== *)
(** * The database, as the accounts code sees it

    The rows of [src/src/models/] that authentication, seed wrapping, password
    resets, account deletion and the key-value store use, the diesel queries on
    them, and the [DBConnection] methods of [src/src/db.rs] that combine them in
    transactions.  Every connection taken from the pool and every statement may
    fail; a failed transaction leaves the tables as they were. *)

From S2P Require Import Prelude Text Crypto Encrypt SeedWrapping.

(** The comparison of the [CITEXT] column that holds e-mail addresses. *)
Class Citext := email_eq : string -> string -> bool.

Module Db.
Abbreviation Uuid := Encrypt.Uuid.

(** ** Errors *)
Inductive DieselError :=
| NotFound | UniqueViolation | ForeignKeyViolation | CheckViolation | RollbackTransaction | Interrupted
| UniqueViolationOf (constraint : string) (** where the code asks which constraint *).
Inductive OAuthErrorKind := OAuthDatabaseError (e : DieselError) | AmbiguousProviderSubjectForProject.
Inductive ApiKeyErrorKind := KeyDatabaseError (e : DieselError) | DuplicateName | KeyNotFound.
(** [DBError]: the errors of these methods.  A model's error wraps the query
    error; the constructor names the model. *)
Inductive DBError :=
| ConnectionError | QueryError (e : DieselError) | UserError (e : DieselError) | UserNotFound
| EmailVerificationError (e : DieselError) | PasswordResetError (e : DieselError)
| PasswordResetRequestNotFound | AccountDeletionError (e : DieselError) | OAuthError (e : OAuthErrorKind)
| UserSeedWrappingError (e : DieselError) | UserApiKeyError (e : ApiKeyErrorKind)
| EmailVerificationNotFound | OrgProjectNotFound | StaleCredentialState.

(** ** Rows *)
Record User := MkUser {
  u_id : Z; uuid : Uuid; name : option string; email : option string; password_enc : option bytes;
  u_created_at : Z; u_updated_at : Z; project_id : Z }.
Record NewUser := MkNewUser {
  n_name : option string; n_email : option string; n_password_enc : option bytes; n_project_id : Z }.
Record UserSeedWrapping := MkWrapping {
  w_id : Z; w_user_id : Uuid; credential_kind : string; credential_lookup_hash : bytes;
  wrapping_version : Z; seed_enc : bytes; w_created_at : Z; w_updated_at : Z }.
Record NewUserSeedWrapping := MkNewWrapping {
  nw_user_id : Uuid; nw_credential_kind : string; nw_credential_lookup_hash : bytes;
  nw_wrapping_version : Z; nw_seed_enc : bytes }.
Record UserKV := MkKV {
  k_id : Z; k_user_id : Uuid; key_enc : bytes; value_enc : bytes; k_created_at : Z; k_updated_at : Z }.
Record NewUserKV := MkNewKV { nk_user_id : Uuid; nk_key_enc : bytes; nk_value_enc : bytes }.
Record PasswordResetRequest := MkReset {
  r_id : Z; r_user_id : Uuid; r_hashed_secret : string; r_encrypted_code : bytes;
  r_expiration_time : Z; r_created_at : Z; is_reset : bool }.
Record NewPasswordResetRequest := MkNewReset {
  nr_user_id : Uuid; nr_hashed_secret : string; nr_encrypted_code : bytes; nr_expiration_time : Z }.
Record AccountDeletionRequest := MkDeletion {
  d_id : Z; d_user_id : Uuid; d_project_id : Z; d_hashed_secret : string; d_encrypted_code : bytes;
  d_expiration_time : Z; d_created_at : Z; completed_at : option Z; is_deleted : bool }.
Record NewAccountDeletionRequest := MkNewDeletion {
  nd_user_id : Uuid; nd_project_id : Z; nd_hashed_secret : string; nd_encrypted_code : bytes;
  nd_expiration_time : Z }.
Record OAuthProvider := MkProvider {
  op_id : Z; op_name : string; auth_url : string; token_url : string; user_info_url : string;
  op_created_at : Z; op_updated_at : Z }.
Record NewOAuthProvider := MkNewProvider {
  nop_name : string; nop_auth_url : string; nop_token_url : string; nop_user_info_url : string }.
Record UserOAuthConnection := MkConnection {
  o_id : Z; o_user_id : Uuid; provider_id : Z; provider_user_id : string; access_token_enc : bytes;
  refresh_token_enc : option bytes; o_expires_at : option Z; o_created_at : Z; o_updated_at : Z }.
Record NewUserOAuthConnection := MkNewConnection {
  no_user_id : Uuid; no_provider_id : Z; no_provider_user_id : string; no_access_token_enc : bytes;
  no_refresh_token_enc : option bytes; no_expires_at : option Z }.
Record EmailVerification := MkVerification {
  v_id : Z; v_user_id : Uuid; verification_code : Uuid; is_verified : bool; v_created_at : Z; v_updated_at : Z;
  v_expires_at : Z }.
Record NewEmailVerification := MkNewVerification {
  nv_user_id : Uuid; nv_verification_code : Uuid; nv_expires_at : Z; nv_is_verified : bool }.
Record UserApiKey := MkApiKey {
  ak_id : Z; ak_user_id : Uuid; key_hash : string; ak_name : string; ak_created_at : Z; ak_updated_at : Z }.
Record NewUserApiKey := MkNewApiKey { nak_user_id : Uuid; nak_key_hash : string; nak_name : string }.

(** The tables.  [owned] stands for the tables this code only deletes from: the
    name of the table and the owner of each row. *)
Record Tables := MkTables {
  users : list User; seed_wrappings : list UserSeedWrapping; user_kv : list UserKV;
  password_reset_requests : list PasswordResetRequest;
  account_deletion_requests : list AccountDeletionRequest;
  oauth_connections : list UserOAuthConnection; email_verifications : list EmailVerification;
  oauth_providers : list OAuthProvider; user_api_keys : list UserApiKey;
  owned : list (string * Uuid) }.

(** [faults]: which of the next connections and statements fail.  [serial]: the
    next value of the sequences; a rollback does not give values back. *)
Record State := MkState { tables : Tables; serial : Z; faults : list bool }.

#[export] Instance user_dec : EqDecision User.
Proof. solve_decision. Defined.

(** ** Statements *)
Definition st_map_err {S E E' A} (f : E -> E') (m : ST S E A) : ST S E' A :=
  fun s => let '(r, s) := m s in (map_err f r, s).

Definition with_tables (t : Tables) (s : State) : State := MkState t (serial s) (faults s).
Definition advance (s : State) : State := MkState (tables s) (serial s + 1) (tail (faults s)).
Definition faulty (s : State) : bool := default false (head (faults s)).

(** One statement: it fails, or reads and writes the tables; the argument of
    [f] is the sequence value a new row gets. *)
Definition statement {A} (f : Z -> Tables -> outcome DieselError (A * Tables)) : ST State DieselError A :=
  fun s =>
    if faulty s then (Err Interrupted, advance s)
    else match f (serial s) (tables s) with
         | Ok (a, t) => (Ok a, with_tables t (advance s))
         | Err e => (Err e, advance s)
         | Panic => (Panic, advance s)
         end.
Definition select {A} (f : Tables -> A) : ST State DieselError A := statement (fun _ t => Ok (f t, t)).
Definition execute {A} (f : Z -> Tables -> A * Tables) : ST State DieselError A := statement (fun n t => Ok (f n t)).

(** [self.db.get()]. *)
Definition connection : ST State DBError unit :=
  fun s => if faulty s then (Err ConnectionError, advance s) else (Ok tt, advance s).

(** [conn.transaction]: BEGIN, the body, COMMIT; anything but a successful
    COMMIT rolls the tables back. *)
Definition transaction {E A} (from : DieselError -> E) (body : ST State E A) : ST State E A := fun s =>
  match (_ ← st_map_err from (select (fun _ => tt)); a ← body; _ ← st_map_err from (select (fun _ => tt)); st_ok a) s with
  | (Ok a, s') => (Ok a, s')
  | (r, s') => (r, with_tables (tables s) s')
  end.

(** ** Writing tables *)
Definition set_users (l : list User) (t : Tables) : Tables :=
  MkTables l (seed_wrappings t) (user_kv t) (password_reset_requests t) (account_deletion_requests t)
    (oauth_connections t) (email_verifications t) (oauth_providers t) (user_api_keys t) (owned t).
Definition set_seed_wrappings (l : list UserSeedWrapping) (t : Tables) : Tables :=
  MkTables (users t) l (user_kv t) (password_reset_requests t) (account_deletion_requests t)
    (oauth_connections t) (email_verifications t) (oauth_providers t) (user_api_keys t) (owned t).
Definition set_user_kv (l : list UserKV) (t : Tables) : Tables :=
  MkTables (users t) (seed_wrappings t) l (password_reset_requests t) (account_deletion_requests t)
    (oauth_connections t) (email_verifications t) (oauth_providers t) (user_api_keys t) (owned t).
Definition set_password_reset_requests (l : list PasswordResetRequest) (t : Tables) : Tables :=
  MkTables (users t) (seed_wrappings t) (user_kv t) l (account_deletion_requests t)
    (oauth_connections t) (email_verifications t) (oauth_providers t) (user_api_keys t) (owned t).
Definition set_account_deletion_requests (l : list AccountDeletionRequest) (t : Tables) : Tables :=
  MkTables (users t) (seed_wrappings t) (user_kv t) (password_reset_requests t) l
    (oauth_connections t) (email_verifications t) (oauth_providers t) (user_api_keys t) (owned t).
Definition set_oauth_connections (l : list UserOAuthConnection) (t : Tables) : Tables :=
  MkTables (users t) (seed_wrappings t) (user_kv t) (password_reset_requests t) (account_deletion_requests t)
    l (email_verifications t) (oauth_providers t) (user_api_keys t) (owned t).
Definition set_email_verifications (l : list EmailVerification) (t : Tables) : Tables :=
  MkTables (users t) (seed_wrappings t) (user_kv t) (password_reset_requests t) (account_deletion_requests t)
    (oauth_connections t) l (oauth_providers t) (user_api_keys t) (owned t).
Definition set_oauth_providers (l : list OAuthProvider) (t : Tables) : Tables :=
  MkTables (users t) (seed_wrappings t) (user_kv t) (password_reset_requests t) (account_deletion_requests t)
    (oauth_connections t) (email_verifications t) l (user_api_keys t) (owned t).
Definition set_user_api_keys (l : list UserApiKey) (t : Tables) : Tables :=
  MkTables (users t) (seed_wrappings t) (user_kv t) (password_reset_requests t) (account_deletion_requests t)
    (oauth_connections t) (email_verifications t) (oauth_providers t) l (owned t).
Definition set_owned (l : list (string * Uuid)) (t : Tables) : Tables :=
  MkTables (users t) (seed_wrappings t) (user_kv t) (password_reset_requests t) (account_deletion_requests t)
    (oauth_connections t) (email_verifications t) (oauth_providers t) (user_api_keys t) l.

(** [.first().optional()]: the first matching row. *)
Definition first {A} (p : A -> bool) (l : list A) : option A := snd <$> list_find (fun x => p x = true) l.
Definition matching_rows {A} (p : A -> bool) (l : list A) : list A := filter (fun x => p x = true) l.
Definition update_rows {A} (p : A -> bool) (f : A -> A) (l : list A) : list A :=
  (fun x => if p x then f x else x) <$> l.
Definition delete_rows {A} (p : A -> bool) (l : list A) : list A := filter (fun x => p x = false) l.

Definition opt_bytes_eq (a b : option bytes) : bool := bool_decide (a = b /\ is_Some a).

(** ** [models/users.rs] *)
Section users.
Context `{Citext}.

Definition is_user (id : Uuid) (u : User) : bool := bool_decide (uuid u = id).
Definition user_has_email (e : string) (p : Z) (u : User) : bool :=
  match email u with Some e' => email_eq e' e | None => false end && bool_decide (project_id u = p).

Definition user_get_by_uuid (id : Uuid) : ST State DieselError (option User) :=
  select (fun t => first (is_user id) (users t)).
Definition user_get_by_email (e : string) (p : Z) : ST State DieselError (option User) :=
  select (fun t => first (user_has_email e p) (users t)).

(** [NewUser::insert]: the primary key, the generated UUID and the unique index
    on (email, project) are the table's constraints. *)
Definition user_insert (now : Z) (fresh : Uuid) (n : NewUser) : ST State DieselError User :=
  statement (fun id t =>
    let u := MkUser id fresh (n_name n) (n_email n) (n_password_enc n) now now (n_project_id n) in
    if existsb (fun u' => is_user fresh u' ||
                  match n_email n with
                  | Some e => user_has_email e (n_project_id n) u'
                  | None => false
                  end) (users t)
    then Err UniqueViolation
    else Ok (u, set_users (users t ++ [u]) t)).
End users.

(** The foreign key to [users.uuid] of the rows below. *)
Definition references (id : Uuid) (t : Tables) {A} (r : outcome DieselError (A * Tables)) : outcome DieselError (A * Tables) :=
  if existsb (is_user id) (users t) then r else Err ForeignKeyViolation.

(** Deleting a user deletes the rows that refer to it, by the foreign keys. *)
Definition user_delete (u : User) : ST State DieselError unit :=
  execute (fun _ t =>
    (tt, MkTables (delete_rows (is_user (uuid u)) (users t))
      (delete_rows (fun w => bool_decide (w_user_id w = uuid u)) (seed_wrappings t))
      (delete_rows (fun k => bool_decide (k_user_id k = uuid u)) (user_kv t))
      (delete_rows (fun r => bool_decide (r_user_id r = uuid u)) (password_reset_requests t))
      (account_deletion_requests t)
      (delete_rows (fun o => bool_decide (o_user_id o = uuid u)) (oauth_connections t))
      (delete_rows (fun v => bool_decide (v_user_id v = uuid u)) (email_verifications t))
      (oauth_providers t)
      (delete_rows (fun k => bool_decide (ak_user_id k = uuid u)) (user_api_keys t))
      (delete_rows (fun r => bool_decide (r.2 = uuid u)) (owned t)))).

(** ** [models/user_seed_wrappings.rs] *)
Definition wrapping_of (id : Uuid) (kind : string) (w : UserSeedWrapping) : bool :=
  bool_decide (w_user_id w = id) && bool_decide (credential_kind w = kind).
Definition same_credential (n : NewUserSeedWrapping) (w : UserSeedWrapping) : bool :=
  wrapping_of (nw_user_id n) (nw_credential_kind n) w &&
  bool_decide (credential_lookup_hash w = nw_credential_lookup_hash n) &&
  bool_decide (wrapping_version w = nw_wrapping_version n).
Definition wrapping_row (id now : Z) (n : NewUserSeedWrapping) : UserSeedWrapping :=
  MkWrapping id (nw_user_id n) (nw_credential_kind n) (nw_credential_lookup_hash n)
    (nw_wrapping_version n) (nw_seed_enc n) now now.

(** Rows are appended with growing identifiers: table order is [id] order. *)
Definition wrapping_get_for_user_and_kind (id : Uuid) (kind : string)
    : ST State DieselError (list UserSeedWrapping) :=
  select (fun t => matching_rows (wrapping_of id kind) (seed_wrappings t)).
Definition wrapping_delete_for_user_and_kind (id : Uuid) (kind : string) : ST State DieselError nat :=
  execute (fun _ t =>
    (length (matching_rows (wrapping_of id kind) (seed_wrappings t)),
     set_seed_wrappings (delete_rows (wrapping_of id kind) (seed_wrappings t)) t)).
Definition wrapping_insert (now : Z) (n : NewUserSeedWrapping) : ST State DieselError UserSeedWrapping :=
  statement (fun id t => references (nw_user_id n) t (
    if existsb (same_credential n) (seed_wrappings t) then Err UniqueViolation
    else let w := wrapping_row id now n in Ok (w, set_seed_wrappings (seed_wrappings t ++ [w]) t))).
Definition wrapping_upsert_by_credential (now : Z) (n : NewUserSeedWrapping)
    : ST State DieselError UserSeedWrapping :=
  statement (fun id t => references (nw_user_id n) t (Ok
    match first (same_credential n) (seed_wrappings t) with
    | Some old =>
        let updated w := MkWrapping (w_id w) (w_user_id w) (credential_kind w) (credential_lookup_hash w)
                           (wrapping_version w) (nw_seed_enc n) (w_created_at w) now in
        (updated old, set_seed_wrappings (update_rows (same_credential n) updated (seed_wrappings t)) t)
    | None => let w := wrapping_row id now n in (w, set_seed_wrappings (seed_wrappings t ++ [w]) t)
    end)).

(** ** [models/user_kv.rs] *)
Definition kv_of (id : Uuid) (key : bytes) (k : UserKV) : bool :=
  bool_decide (k_user_id k = id) && bool_decide (key_enc k = key).
Definition kv_get_by_user_and_key (id : Uuid) (key : bytes) : ST State DieselError (option UserKV) :=
  select (fun t => first (kv_of id key) (user_kv t)).
Definition kv_get_all_for_user (id : Uuid) : ST State DieselError (list UserKV) :=
  select (fun t => matching_rows (fun k => bool_decide (k_user_id k = id)) (user_kv t)).
Definition kv_delete (row : UserKV) : ST State DieselError unit :=
  execute (fun _ t => (tt, set_user_kv (delete_rows (fun k => bool_decide (k_id k = k_id row)) (user_kv t)) t)).
Definition kv_delete_all_for_user (id : Uuid) : ST State DieselError unit :=
  execute (fun _ t => (tt, set_user_kv (delete_rows (fun k => bool_decide (k_user_id k = id)) (user_kv t)) t)).
Definition kv_insert (now : Z) (n : NewUserKV) : ST State DieselError UserKV :=
  statement (fun id t => references (nk_user_id n) t (Ok
    match first (kv_of (nk_user_id n) (nk_key_enc n)) (user_kv t) with
    | Some old =>
        let updated k := MkKV (k_id k) (k_user_id k) (key_enc k) (nk_value_enc n) (k_created_at k) now in
        (updated old,
         set_user_kv (update_rows (kv_of (nk_user_id n) (nk_key_enc n)) updated (user_kv t)) t)
    | None =>
        let k := MkKV id (nk_user_id n) (nk_key_enc n) (nk_value_enc n) now now in
        (k, set_user_kv (user_kv t ++ [k]) t)
    end)).

(** ** [models/password_reset.rs], [models/account_deletion.rs] *)
Definition reset_is_expired (now : Z) (r : PasswordResetRequest) : bool := bool_decide (r_expiration_time r < now)%Z.
Definition hours (h : Z) : Z := secs (h * 3600).
Definition reset_new (now : Z) (user : Uuid) (hashed_secret : string) (code : bytes) (expiration_hours : Z)
    : NewPasswordResetRequest :=
  MkNewReset user hashed_secret code (now + hours expiration_hours).
Definition reset_insert (now : Z) (n : NewPasswordResetRequest) : ST State DieselError PasswordResetRequest :=
  statement (fun id t => references (nr_user_id n) t (
    let r := MkReset id (nr_user_id n) (nr_hashed_secret n) (nr_encrypted_code n) (nr_expiration_time n) now false in
    Ok (r, set_password_reset_requests (password_reset_requests t ++ [r]) t))).
Definition reset_get_by_user_id_and_code (user : Uuid) (code : bytes)
    : ST State DieselError (option PasswordResetRequest) :=
  select (fun t => first (fun r => bool_decide (r_user_id r = user) && bool_decide (r_encrypted_code r = code)
                                    && negb (is_reset r)) (password_reset_requests t)).
Definition mark_reset (r : PasswordResetRequest) : PasswordResetRequest :=
  MkReset (r_id r) (r_user_id r) (r_hashed_secret r) (r_encrypted_code r) (r_expiration_time r) (r_created_at r) true.

Definition deletion_is_expired (now : Z) (d : AccountDeletionRequest) : bool := bool_decide (d_expiration_time d < now)%Z.
Definition deletion_new (now : Z) (user : Uuid) (project : Z) (hashed_secret : string) (code : bytes)
    (expiration_hours : Z) : NewAccountDeletionRequest :=
  MkNewDeletion user project hashed_secret code (now + hours expiration_hours).
Definition deletion_insert (now : Z) (n : NewAccountDeletionRequest) : ST State DieselError AccountDeletionRequest :=
  execute (fun id t =>
    let d := MkDeletion id (nd_user_id n) (nd_project_id n) (nd_hashed_secret n) (nd_encrypted_code n)
               (nd_expiration_time n) now None false in
    (d, set_account_deletion_requests (account_deletion_requests t ++ [d]) t)).
Definition deletion_get_by_user_id_and_code (now : Z) (user : Uuid) (code : bytes)
    : ST State DieselError (option AccountDeletionRequest) :=
  select (fun t => first (fun d => bool_decide (d_user_id d = user) && bool_decide (d_encrypted_code d = code)
                                    && negb (is_deleted d) && bool_decide (now < d_expiration_time d)%Z)
                         (account_deletion_requests t)).
Definition deletion_mark_as_deleted (now : Z) (d : AccountDeletionRequest) : ST State DieselError unit :=
  execute (fun _ t =>
    (tt, set_account_deletion_requests
      (update_rows (fun d' => bool_decide (d_id d' = d_id d))
        (fun d' => MkDeletion (d_id d') (d_user_id d') (d_project_id d') (d_hashed_secret d')
                     (d_encrypted_code d') (d_expiration_time d') (d_created_at d') (Some now) true)
        (account_deletion_requests t)) t)).

(** ** [models/oauth.rs] *)
Definition provider_named (n : string) (p : OAuthProvider) : bool := bool_decide (op_name p = n).
Definition provider_get_by_name (n : string) : ST State DieselError (option OAuthProvider) :=
  select (fun t => first (provider_named n) (oauth_providers t)).
Definition provider_get_by_id (id : Z) : ST State DieselError (option OAuthProvider) :=
  select (fun t => first (fun p => bool_decide (op_id p = id)) (oauth_providers t)).
(** The name of a provider is unique. *)
Definition provider_insert (now : Z) (n : NewOAuthProvider) : ST State DieselError OAuthProvider :=
  statement (fun id t =>
    if existsb (provider_named (nop_name n)) (oauth_providers t) then Err UniqueViolation
    else
      let p := MkProvider id (nop_name n) (nop_auth_url n) (nop_token_url n) (nop_user_info_url n) now now in
      Ok (p, set_oauth_providers (oauth_providers t ++ [p]) t)).

Definition connection_of (user : Uuid) (provider : Z) (o : UserOAuthConnection) : bool :=
  bool_decide (o_user_id o = user) && bool_decide (provider_id o = provider).
Definition same_connection (n : NewUserOAuthConnection) (o : UserOAuthConnection) : bool :=
  connection_of (no_user_id n) (no_provider_id n) o && bool_decide (provider_user_id o = no_provider_user_id n).
Definition connection_get_by_user_and_provider (user : Uuid) (provider : Z)
    : ST State DieselError (option UserOAuthConnection) :=
  select (fun t => first (connection_of user provider) (oauth_connections t)).
Definition connection_get_all_for_user (user : Uuid) : ST State DieselError (list UserOAuthConnection) :=
  select (fun t => matching_rows (fun o => bool_decide (o_user_id o = user)) (oauth_connections t)).
(** The join with [users], at most two rows. *)
Definition connection_for_subject (provider : Z) (subject : string) (project : Z) (t : Tables)
    (o : UserOAuthConnection) : bool :=
  bool_decide (provider_id o = provider) && bool_decide (provider_user_id o = subject)
  && existsb (fun u => bool_decide (uuid u = o_user_id o) && bool_decide (project_id u = project)) (users t).
Definition connection_get_by_provider_subject_and_project (provider : Z) (subject : string) (project : Z)
    : ST State OAuthErrorKind (option UserOAuthConnection) :=
  rows ← st_map_err OAuthDatabaseError
    (select (fun t => take 2 (matching_rows (connection_for_subject provider subject project t) (oauth_connections t))));
  match rows with
  | [] => st_ok None
  | [o] => st_ok (Some o)
  | _ => st_err AmbiguousProviderSubjectForProject
  end.
(** The user and the provider exist; user, provider and subject are unique
    together. *)
Definition oauth_insert (now : Z) (n : NewUserOAuthConnection) : ST State DieselError UserOAuthConnection :=
  statement (fun id t =>
    if existsb (same_connection n) (oauth_connections t) then Err UniqueViolation
    else references (no_user_id n) t (
      if existsb (fun p => bool_decide (op_id p = no_provider_id n)) (oauth_providers t) then
        let o := MkConnection id (no_user_id n) (no_provider_id n) (no_provider_user_id n) (no_access_token_enc n)
                   (no_refresh_token_enc n) (no_expires_at n) now now in
        Ok (o, set_oauth_connections (oauth_connections t ++ [o]) t)
      else Err ForeignKeyViolation)).
Definition connection_update (now : Z) (row : UserOAuthConnection) : ST State DieselError unit :=
  execute (fun _ t => (tt, set_oauth_connections
    (update_rows (fun o => bool_decide (o_id o = o_id row))
       (fun o => MkConnection (o_id o) (o_user_id o) (provider_id o) (provider_user_id o) (access_token_enc row)
                   (refresh_token_enc row) (o_expires_at row) (o_created_at o) now) (oauth_connections t)) t)).

(** ** [models/email_verification.rs] *)
Definition verification_is_expired (now : Z) (v : EmailVerification) : bool := bool_decide (v_expires_at v < now)%Z.
Definition verification_new (now : Z) (user code : Uuid) (expiration_hours : Z) (verified : bool)
    : NewEmailVerification := MkNewVerification user code (now + hours expiration_hours) verified.
Definition verification_insert (now : Z) (n : NewEmailVerification) : ST State DieselError EmailVerification :=
  statement (fun id t => references (nv_user_id n) t (
    let v := MkVerification id (nv_user_id n) (nv_verification_code n) (nv_is_verified n) now now (nv_expires_at n) in
    Ok (v, set_email_verifications (email_verifications t ++ [v]) t))).
Definition verification_get_by_user_id (user : Uuid) : ST State DieselError (option EmailVerification) :=
  select (fun t => first (fun v => bool_decide (v_user_id v = user)) (email_verifications t)).
Definition verification_get_by_code (code : Uuid) : ST State DieselError (option EmailVerification) :=
  select (fun t => first (fun v => bool_decide (verification_code v = code)) (email_verifications t)).
(** [AsChangeset] writes every column but the key; a trigger dates the row. *)
Definition verification_update (now : Z) (row : EmailVerification) : ST State DieselError unit :=
  statement (fun _ t =>
    let l := update_rows (fun v => bool_decide (v_id v = v_id row))
      (fun v => MkVerification (v_id v) (v_user_id row) (verification_code row) (is_verified row) (v_created_at row)
                  now (v_expires_at row)) (email_verifications t) in
    if existsb (fun v => bool_decide (v_id v = v_id row)) (email_verifications t)
    then references (v_user_id row) t (Ok (tt, set_email_verifications l t))
    else Ok (tt, t)).
Definition verification_verify (now : Z) (row : EmailVerification) : ST State DieselError unit :=
  verification_update now (MkVerification (v_id row) (v_user_id row) (verification_code row) true (v_created_at row)
    (v_updated_at row) (v_expires_at row)).
Definition verification_delete (row : EmailVerification) : ST State DieselError unit :=
  execute (fun _ t => (tt, set_email_verifications
    (delete_rows (fun v => bool_decide (v_id v = v_id row)) (email_verifications t)) t)).

(** ** [DBConnection] *)
Section methods.
Context `{Citext}.

Definition found {A} (e : DBError) (o : option A) : outcome DBError A := ok_or e o.

Definition get_user_by_uuid (id : Uuid) : ST State DBError User :=
  _ ← connection;
  u ← st_map_err UserError (user_get_by_uuid id);
  st_lift (found UserNotFound u).
Definition get_user_by_email (e : string) (p : Z) : ST State DBError User :=
  _ ← connection;
  u ← st_map_err UserError (user_get_by_email e p);
  st_lift (found UserNotFound u).
Definition get_user_seed_wrappings_for_user_and_kind (id : Uuid) (kind : string)
    : ST State DBError (list UserSeedWrapping) :=
  _ ← connection;
  st_map_err UserSeedWrappingError (wrapping_get_for_user_and_kind id kind).
Definition create_email_verification (now : Z) (n : NewEmailVerification) : ST State DBError EmailVerification :=
  _ ← connection;
  st_map_err EmailVerificationError (verification_insert now n).
Definition get_email_verification_by_user_id (user : Uuid) : ST State DBError EmailVerification :=
  _ ← connection;
  v ← st_map_err EmailVerificationError (verification_get_by_user_id user);
  st_lift (found EmailVerificationNotFound v).
Definition get_email_verification_by_code (code : Uuid) : ST State DBError EmailVerification :=
  _ ← connection;
  v ← st_map_err EmailVerificationError (verification_get_by_code code);
  st_lift (found EmailVerificationNotFound v).
Definition delete_email_verification (v : EmailVerification) : ST State DBError unit :=
  _ ← connection;
  st_map_err EmailVerificationError (verification_delete v).
Definition verify_email (now : Z) (v : EmailVerification) : ST State DBError unit :=
  _ ← connection;
  st_map_err EmailVerificationError (verification_verify now v).
Definition oauth_error (e : DieselError) : DBError := OAuthError (OAuthDatabaseError e).
Definition create_oauth_provider (now : Z) (n : NewOAuthProvider) : ST State DBError OAuthProvider :=
  _ ← connection;
  st_map_err oauth_error (provider_insert now n).
Definition get_oauth_provider_by_id (id : Z) : ST State DBError (option OAuthProvider) :=
  _ ← connection;
  st_map_err oauth_error (provider_get_by_id id).
Definition get_oauth_provider_by_name (n : string) : ST State DBError (option OAuthProvider) :=
  _ ← connection;
  st_map_err oauth_error (provider_get_by_name n).
Definition get_user_oauth_connection_by_user_and_provider (user : Uuid) (provider : Z)
    : ST State DBError (option UserOAuthConnection) :=
  _ ← connection;
  st_map_err oauth_error (connection_get_by_user_and_provider user provider).
Definition get_project_user_oauth_connection_by_provider_subject (provider : Z) (subject : string) (project : Z)
    : ST State DBError (option UserOAuthConnection) :=
  _ ← connection;
  st_map_err OAuthError (connection_get_by_provider_subject_and_project provider subject project).
Definition get_all_user_oauth_connections_for_user (user : Uuid) : ST State DBError (list UserOAuthConnection) :=
  _ ← connection;
  st_map_err oauth_error (connection_get_all_for_user user).
Definition update_user_oauth_connection (now : Z) (row : UserOAuthConnection) : ST State DBError unit :=
  _ ← connection;
  st_map_err oauth_error (connection_update now row).
Definition create_password_reset_request (now : Z) (n : NewPasswordResetRequest)
    : ST State DBError PasswordResetRequest :=
  _ ← connection;
  st_map_err PasswordResetError (reset_insert now n).
Definition get_password_reset_request_by_user_id_and_code (id : Uuid) (code : bytes)
    : ST State DBError (option PasswordResetRequest) :=
  _ ← connection;
  st_map_err PasswordResetError (reset_get_by_user_id_and_code id code).
Definition create_account_deletion_request (now : Z) (n : NewAccountDeletionRequest)
    : ST State DBError AccountDeletionRequest :=
  _ ← connection;
  st_map_err AccountDeletionError (deletion_insert now n).
Definition get_account_deletion_request_by_user_id_and_code (now : Z) (id : Uuid) (code : bytes)
    : ST State DBError (option AccountDeletionRequest) :=
  _ ← connection;
  st_map_err AccountDeletionError (deletion_get_by_user_id_and_code now id code).

(** The conditional update of the stored verifier: how many rows it changed. *)
Definition update_password_if (now : Z) (id : Uuid) (expected new_password_enc : bytes)
    : ST State DieselError nat :=
  execute (fun _ t =>
    let p u := is_user id u && bool_decide (password_enc u = Some expected) in
    (length (matching_rows p (users t)),
     set_users (update_rows p (fun u => MkUser (u_id u) (uuid u) (name u) (email u) (Some new_password_enc)
                                 (u_created_at u) now (project_id u)) (users t)) t)).

Definition update_user_password_and_seed_wrap (now : Z) (user : User)
    (expected_password_enc new_password_enc : bytes) (new_wrapping : NewUserSeedWrapping)
    : ST State DBError unit :=
  _ ← connection;
  transaction QueryError (
    updated_user_count ← st_map_err QueryError
      (update_password_if now (uuid user) expected_password_enc new_password_enc);
    if decide (updated_user_count <> 1) then st_err StaleCredentialState
    else
      _ ← st_map_err UserSeedWrappingError
        (wrapping_delete_for_user_and_kind (uuid user) (SeedWrap.CredentialKind_as_str SeedWrap.Password));
      _ ← st_map_err UserSeedWrappingError (wrapping_insert now new_wrapping);
      st_ok tt).

(** Consuming the reset request: how many rows the update changed. *)
Definition consume_reset (now : Z) (id : Uuid) (request : PasswordResetRequest) : ST State DieselError nat :=
  execute (fun _ t =>
    let p r := bool_decide (r_id r = r_id request) && bool_decide (r_user_id r = id) && negb (is_reset r)
               && bool_decide (now < r_expiration_time r)%Z in
    (length (matching_rows p (password_reset_requests t)),
     set_password_reset_requests (update_rows p mark_reset (password_reset_requests t)) t)).
Definition consume_other_resets (id : Uuid) (request : PasswordResetRequest) : ST State DieselError unit :=
  execute (fun _ t =>
    let p r := bool_decide (r_user_id r = id) && negb (bool_decide (r_id r = r_id request)) && negb (is_reset r) in
    (tt, set_password_reset_requests (update_rows p mark_reset (password_reset_requests t)) t)).
Definition delete_all_wrappings (id : Uuid) : ST State DieselError unit :=
  execute (fun _ t =>
    (tt, set_seed_wrappings (delete_rows (fun w => bool_decide (w_user_id w = id)) (seed_wrappings t)) t)).
Definition delete_all_connections (id : Uuid) : ST State DieselError unit :=
  execute (fun _ t =>
    (tt, set_oauth_connections (delete_rows (fun o => bool_decide (o_user_id o = id)) (oauth_connections t)) t)).
Definition delete_owned (table : string) (id : Uuid) : ST State DieselError unit :=
  execute (fun _ t =>
    (tt, set_owned (delete_rows (fun r => bool_decide (r = (table, id))) (owned t)) t)).
Fixpoint delete_each (tables : list string) (id : Uuid) : ST State DieselError unit :=
  match tables with
  | [] => st_ok tt
  | table :: tables => _ ← delete_owned table id; delete_each tables id
  end.
Definition set_password (now : Z) (id : Uuid) (new_password_enc : bytes) : ST State DieselError unit :=
  execute (fun _ t =>
    (tt, set_users (update_rows (is_user id)
      (fun u => MkUser (u_id u) (uuid u) (name u) (email u) (Some new_password_enc)
                  (u_created_at u) now (project_id u)) (users t)) t)).

Definition TABLES_BEFORE_KV : list string :=
  ["user_embeddings"; "agent_schedule_runs"; "agent_schedules"; "agents"; "notification_events";
   "push_devices"; "memory_blocks"; "user_preferences"].
Definition TABLES_AFTER_KV : list string :=
  ["user_instructions"; "conversation_projects"; "conversation_summaries"; "conversations"].

Definition complete_destructive_password_reset (now : Z) (user : User) (request : PasswordResetRequest)
    (new_password_enc : bytes) (new_wrapping : NewUserSeedWrapping) : ST State DBError unit :=
  _ ← connection;
  transaction QueryError (
    let user_id := uuid user in
    locked ← st_map_err QueryError (user_get_by_uuid user_id);
    _ ← st_lift (ok_or (QueryError NotFound) locked);
    consumed ← st_map_err QueryError (consume_reset now user_id request);
    if decide (consumed <> 1) then st_err PasswordResetRequestNotFound
    else
      _ ← st_map_err QueryError (consume_other_resets user_id request);
      _ ← st_map_err QueryError (delete_all_wrappings user_id);
      _ ← st_map_err QueryError (delete_all_connections user_id);
      _ ← st_map_err QueryError (delete_each TABLES_BEFORE_KV user_id);
      _ ← st_map_err QueryError (kv_delete_all_for_user user_id);
      _ ← st_map_err QueryError (delete_each TABLES_AFTER_KV user_id);
      _ ← st_map_err QueryError (set_password now user_id new_password_enc);
      _ ← st_map_err UserSeedWrappingError (wrapping_upsert_by_credential now new_wrapping);
      st_ok tt).

Definition mark_and_delete_user (now : Z) (user : User) (request : AccountDeletionRequest) : ST State DBError unit :=
  _ ← connection;
  transaction QueryError (
    _ ← st_map_err AccountDeletionError (deletion_mark_as_deleted now request);
    _ ← st_map_err UserError (user_delete user);
    st_ok tt).
End methods.

(** ** Lemmas: runs *)
Definition not_ok {E A} (r : outcome E A) : Prop := forall a, r <> Ok a.

(** A call that changes no table, whatever happens. *)
Definition reads {E A} (m : ST State E A) : Prop := forall s r s', m s = (r, s') -> tables s' = tables s.

Lemma ST_bind_inv {S E A B} (m : ST S E A) (f : A -> ST S E B) s r s' :
  (x ← m; f x) s = (r, s') ->
  (exists a s1, m s = (Ok a, s1) /\ f a s1 = (r, s')) \/ (exists r', m s = (r', s') /\ not_ok r' /\ not_ok r).
Proof.
  unfold mbind, ST_bind. destruct (m s) as [[a|e|] s1]; [eauto|..]; intros [= <- <-]; right; eexists;
    (split; [done|]); split; intros ?; discriminate.
Qed.

Lemma st_map_err_inv {S E E' A} (f : E -> E') (m : ST S E A) s r s' :
  st_map_err f m s = (r, s') -> exists r0, m s = (r0, s') /\ r = map_err f r0.
Proof. unfold st_map_err. destruct (m s) as [r0 s1]. intros [= <- <-]. eauto. Qed.

Lemma map_err_not_ok {E E' A} (f : E -> E') (r : outcome E A) : not_ok (map_err f r) <-> not_ok r.
Proof. unfold not_ok. destruct r as [a0| |]; cbn; split; intros Hn a'; try done; by destruct (Hn a0). Qed.

Lemma st_map_err_Ok {S E E' A} (f : E -> E') (m : ST S E A) s a s' :
  st_map_err f m s = (Ok a, s') <-> m s = (Ok a, s').
Proof. unfold st_map_err. destruct (m s) as [[] s1]; cbn; split; congruence. Qed.

Lemma statement_Ok {A} (f : Z -> Tables -> outcome DieselError (A * Tables)) s a s' :
  statement f s = (Ok a, s') -> f (serial s) (tables s) = Ok (a, tables s').
Proof.
  unfold statement. destruct (faulty s); [done|].
  destruct (f _ _) as [[a' t]| |] eqn:Hf; intros [= <- <-]. done.
Qed.
Lemma statement_not_ok {A} (f : Z -> Tables -> outcome DieselError (A * Tables)) s r s' :
  statement f s = (r, s') -> not_ok r -> tables s' = tables s.
Proof.
  unfold statement. destruct (faulty s); [by intros [= <- <-]|].
  destruct (f _ _) as [[a' t]| |]; intros [= <- <-] Hn; try done. by destruct (Hn a').
Qed.
Lemma execute_Ok {A} (f : Z -> Tables -> A * Tables) s a s' :
  execute f s = (Ok a, s') -> f (serial s) (tables s) = (a, tables s').
Proof. intros Hs%statement_Ok. by injection Hs. Qed.
Lemma select_Ok {A} (f : Tables -> A) s a s' : select f s = (Ok a, s') -> a = f (tables s) /\ tables s' = tables s.
Proof. intros Hs%statement_Ok. by injection Hs as <- <-. Qed.
Lemma st_lift_inv {E A} (m : outcome E A) (s : State) r s' : st_lift m s = (r, s') -> r = m /\ s' = s.
Proof. by intros [= <- <-]. Qed.

Lemma reads_select {A} (f : Tables -> A) : reads (select f).
Proof.
  intros s r s' Hs. destruct r as [a|e|]; [by apply select_Ok in Hs as [_ ?]|..];
    (eapply statement_not_ok; [exact Hs|intros ?; discriminate]).
Qed.
Lemma reads_connection : reads connection.
Proof. intros s r s'. unfold connection. by destruct (faulty s); intros [= <- <-]. Qed.
Lemma reads_lift {E A} (m : outcome E A) : reads (@st_lift State E A m).
Proof. intros s r s' [_ ->]%st_lift_inv. done. Qed.
Lemma reads_map_err {E E' A} (f : E -> E') (m : ST State E A) : reads m -> reads (st_map_err f m).
Proof. intros Hm s r s' (r0 & Hs & _)%st_map_err_inv. by eapply Hm. Qed.
Lemma reads_bind {E A B} (m : ST State E A) (f : A -> ST State E B) :
  reads m -> (forall a, reads (f a)) -> reads (x ← m; f x).
Proof.
  intros Hm Hf s r s' [(a & s1 & H1 & H2)|(r' & H1 & _)]%ST_bind_inv; [|by eapply Hm].
  etransitivity; [by eapply Hf|by eapply Hm].
Qed.
Lemma reads_ok {E A} (a : A) : reads (@st_ok State E A a).
Proof. by intros s r s' [= <- <-]. Qed.
Lemma reads_err {E A} (e : E) : reads (@st_err State E A e).
Proof. by intros s r s' [= <- <-]. Qed.

(** A transaction either runs its body to the end, or changes nothing. *)
Lemma transaction_inv {E A} (from : DieselError -> E) (body : ST State E A) s r s' :
  transaction from body s = (r, s') ->
  (exists a s1 s2, r = Ok a /\ tables s1 = tables s /\ body s1 = (Ok a, s2) /\ tables s' = tables s2) \/
  (not_ok r /\ tables s' = tables s).
Proof.
  unfold transaction.
  destruct ((_ ← st_map_err from (select (fun _ => tt)); a ← body;
    _ ← st_map_err from (select (fun _ => tt)); st_ok a) s) as [r0 s0] eqn:Hrun.
  destruct r0 as [a|e|]; intros [= <- <-]; [|right; split; [intros ?; discriminate|done]..].
  left. apply ST_bind_Ok in Hrun as (u1 & s1 & H1 & Hrun). apply ST_bind_Ok in Hrun as (a' & s2 & H2 & Hrun).
  apply ST_bind_Ok in Hrun as (u3 & s3 & H3 & Hrun). injection Hrun as -> ->.
  exists a, s1, s2.
  assert (tables s1 = tables s) as H1' by (by eapply (reads_map_err _ _ (reads_select _))).
  assert (tables s0 = tables s2) as H3' by (by eapply (reads_map_err _ _ (reads_select _))).
  done.
Qed.

(** ** Lemmas: rows *)
Lemma matching_rows_app {A} (p : A -> bool) l1 l2 : matching_rows p (l1 ++ l2) = matching_rows p l1 ++ matching_rows p l2.
Proof. apply filter_app. Qed.
Lemma elem_of_matching {A} (p : A -> bool) l x : x ∈ matching_rows p l <-> p x = true /\ x ∈ l.
Proof. unfold matching_rows. by rewrite list_elem_of_filter. Qed.
Lemma elem_of_deleted {A} (p : A -> bool) l x : x ∈ delete_rows p l <-> p x = false /\ x ∈ l.
Proof. unfold delete_rows. by rewrite list_elem_of_filter. Qed.
Lemma matching_none {A} (p : A -> bool) l : (forall x, x ∈ l -> p x = false) -> matching_rows p l = [].
Proof. intros Hn. apply filter_none, Forall_forall. intros x Hx. by rewrite (Hn x Hx). Qed.
Lemma matching_deleted {A} (p : A -> bool) l : matching_rows p (delete_rows p l) = [].
Proof. apply matching_none. by intros x [? _]%elem_of_deleted. Qed.
Lemma first_None {A} (p : A -> bool) l : matching_rows p l = [] -> first p l = None.
Proof.
  intros Hm. unfold first. apply fmap_None, list_find_None, Forall_forall. intros x Hx Hp.
  assert (x ∈ matching_rows p l) as Hin by by apply elem_of_matching. rewrite Hm in Hin. by apply elem_of_nil in Hin.
Qed.
Lemma first_Some {A} (p : A -> bool) l x : first p l = Some x -> p x = true /\ x ∈ l.
Proof.
  unfold first. intros ([i y] & (Hi & Hp & _)%list_find_Some & ->)%fmap_Some.
  split; [done|by eapply list_elem_of_lookup_2].
Qed.
Lemma elem_of_updated {A} (p : A -> bool) f l x :
  x ∈ update_rows p f l <-> exists y, y ∈ l /\ x = if p y then f y else y.
Proof. unfold update_rows. rewrite list_elem_of_fmap. naive_solver. Qed.
Lemma existsb_elem {A} (p : A -> bool) l : existsb p l = true <-> exists x, x ∈ l /\ p x = true.
Proof. rewrite existsb_exists. by setoid_rewrite list_elem_of_In. Qed.

Lemma NoDup_fmap_deleted {A B} (f : A -> B) p (l : list A) : NoDup (f <$> l) -> NoDup (f <$> delete_rows p l).
Proof. intros Hn. eapply sublist_NoDup; [apply Hn|]. apply fmap_sublist, sublist_filter. Qed.

Lemma NoDup_fmap_same {A B} (f : A -> B) (l : list A) x y : NoDup (f <$> l) -> x ∈ l -> y ∈ l -> f x = f y -> x = y.
Proof.
  induction l as [|z l IH]; [by intros _ ?%elem_of_nil|]. cbn. intros [Hz Hn]%NoDup_cons [->|Hx]%elem_of_cons [->|Hy]%elem_of_cons Hf; auto.
  - destruct Hz. rewrite Hf. by apply list_elem_of_fmap_2.
  - destruct Hz. rewrite <- Hf. by apply list_elem_of_fmap_2.
Qed.

(** The seed wrappings of everyone but one user. *)
Definition others (id : Uuid) (l : list UserSeedWrapping) : list UserSeedWrapping :=
  filter (fun w => w_user_id w <> id) l.

Lemma others_matching id id' kind l :
  id' <> id -> matching_rows (wrapping_of id' kind) (others id l) = matching_rows (wrapping_of id' kind) l.
Proof.
  intros Hne. unfold matching_rows, others. rewrite list_filter_filter. apply list_filter_iff.
  intros w. unfold wrapping_of. rewrite andb_true_iff, !bool_decide_eq_true. naive_solver.
Qed.
Lemma others_app id l1 l2 : others id (l1 ++ l2) = others id l1 ++ others id l2.
Proof. apply filter_app. Qed.
Lemma others_own id w : w_user_id w = id -> others id [w] = [].
Proof. intros Hw. unfold others. by rewrite filter_cons_False by tauto. Qed.
Lemma others_deleted id p l :
  (forall w, p w = true -> w_user_id w = id) -> others id (delete_rows p l) = others id l.
Proof.
  intros Hp. unfold others, delete_rows. rewrite list_filter_filter. apply list_filter_iff.
  intros w. destruct (p w) eqn:Hpw; [|naive_solver]. apply Hp in Hpw. naive_solver.
Qed.
End Db.
