(* ===== verification/Statements.v ===== *)
(** * Statements on tables of any type

    The statements, connections and transactions of [Database], for the parts of
    the schema that are modelled apart from the accounts: a store is a value of
    the tables, the next value of the sequences, and which of the next connections
    and statements fail.  Then the two ways to reason about a run: what every run
    keeps, and what a run does when nothing fails. *)

From S2P Require Import Prelude Database.

Module Sql.
Abbreviation DieselError := Db.DieselError.
Abbreviation st_map_err := Db.st_map_err.
Abbreviation first := Db.first.
Abbreviation matching_rows := Db.matching_rows.
Abbreviation update_rows := Db.update_rows.
Abbreviation delete_rows := Db.delete_rows.

Record Store (T : Type) := MkStore { tables : T; serial : Z; faults : list bool }.
Arguments MkStore {T} _ _ _.
Arguments tables {T} _.
Arguments serial {T} _.
Arguments faults {T} _.

Section statements.
Context {T : Type}.

Definition faulty (s : Store T) : bool := default false (head (faults s)).
Definition advance (s : Store T) : Store T := MkStore (tables s) (serial s + 1) (tail (faults s)).
Definition with_tables (t : T) (s : Store T) : Store T := MkStore t (serial s) (faults s).

Definition statement {A} (f : Z -> T -> outcome DieselError (A * T)) : ST (Store T) DieselError A :=
  fun s =>
    if faulty s then (Err Db.Interrupted, advance s)
    else match f (serial s) (tables s) with
         | Ok (a, t) => (Ok a, with_tables t (advance s))
         | Err e => (Err e, advance s)
         | Panic => (Panic, advance s)
         end.
Definition select {A} (f : T -> A) : ST (Store T) DieselError A := statement (fun _ t => Ok (f t, t)).
(** [.first]: no row is the error [NotFound]. *)
Definition select_first {A} (f : T -> option A) : ST (Store T) DieselError A :=
  statement (fun _ t => a ← ok_or Db.NotFound (f t); Ok (a, t)).

(** [self.db.get().map_err(|_| e)]. *)
Definition connection {E} (e : E) : ST (Store T) E unit :=
  fun s => if faulty s then (Err e, advance s) else (Ok tt, advance s).

(** [conn.transaction]: anything but a successful COMMIT rolls the tables back. *)
Definition transaction {E A} (from : DieselError -> E) (body : ST (Store T) E A) : ST (Store T) E A := fun s =>
  match (_ ← st_map_err from (select (fun _ => tt)); a ← body; _ ← st_map_err from (select (fun _ => tt)); st_ok a) s with
  | (Ok a, s') => (Ok a, s')
  | (r, s') => (r, with_tables (tables s) s')
  end.
End statements.

(** ** One run *)
Section runs.
Context {T : Type}.
Implicit Types (s : Store T).

(** A call that changes no table, whatever happens. *)
Definition reads {E A} (m : ST (Store T) E A) : Prop := forall s r s', m s = (r, s') -> tables s' = tables s.

Lemma sql_statement_Ok {A} (f : Z -> T -> outcome DieselError (A * T)) s a s' :
  statement f s = (Ok a, s') -> f (serial s) (tables s) = Ok (a, tables s').
Proof. unfold statement. destruct (faulty s); [done|]. destruct (f _ _) as [[a' t]| |]; intros [= <- <-]. done. Qed.
Lemma sql_statement_not_ok {A} (f : Z -> T -> outcome DieselError (A * T)) s r s' :
  statement f s = (r, s') -> Db.not_ok r -> tables s' = tables s.
Proof.
  unfold statement. destruct (faulty s); [by intros [= <- <-]|].
  destruct (f _ _) as [[a' t]| |]; intros [= <- <-] Hn; try done. by destruct (Hn a').
Qed.
Lemma reads_statement {A} (f : Z -> T -> outcome DieselError (A * T)) :
  (forall n t a t', f n t = Ok (a, t') -> t' = t) -> reads (statement f).
Proof.
  intros Hf s r s' Hs. destruct r as [a|e|]; [apply sql_statement_Ok in Hs; by apply Hf in Hs|..]; (eapply sql_statement_not_ok; [exact Hs|by intros ?]).
Qed.
Lemma sql_reads_select {A} (f : T -> A) : reads (select f).
Proof. apply reads_statement. by intros n t a t' [= <- <-]. Qed.
Lemma reads_select_first {A} (f : T -> option A) : reads (select_first f).
Proof. apply reads_statement. intros n t a t' Hb. destruct (f t); cbn in Hb; congruence. Qed.
Lemma sql_reads_connection {E} (e : E) : reads (connection e).
Proof. intros s r s'. unfold connection. by destruct (faulty s); intros [= <- <-]. Qed.
Lemma sql_reads_lift {E A} (m : outcome E A) : reads (@st_lift _ E A m).
Proof. by intros s r s' [= <- <-]. Qed.
Lemma sql_reads_map_err {E E' A} (f : E -> E') (m : ST (Store T) E A) : reads m -> reads (st_map_err f m).
Proof. intros Hm s r s' (r0 & Hs & _)%Db.st_map_err_inv. by eapply Hm. Qed.
Lemma sql_reads_bind {E A B} (m : ST (Store T) E A) (f : A -> ST (Store T) E B) :
  reads m -> (forall a, reads (f a)) -> reads (x ← m; f x).
Proof.
  intros Hm Hf s r s' [(a & s1 & H1 & H2)|(r' & H1 & _)]%Db.ST_bind_inv; [|by eapply Hm].
  etransitivity; [by eapply Hf|by eapply Hm].
Qed.
Lemma sql_select_Ok {A} (f : T -> A) s a s' : select f s = (Ok a, s') -> a = f (tables s) /\ tables s' = tables s.
Proof. intros Hs%sql_statement_Ok. by injection Hs as <- <-. Qed.
Lemma select_first_Ok {A} (f : T -> option A) s a s' : select_first f s = (Ok a, s') -> f (tables s) = Some a /\ tables s' = tables s.
Proof. intros Hs%sql_statement_Ok. destruct (f (tables s)); cbn in Hs; [|done]. by injection Hs as <- <-. Qed.

(** A transaction either runs its body to the end, or changes nothing. *)
Lemma sql_transaction_inv {E A} (from : DieselError -> E) (body : ST (Store T) E A) s r s' :
  transaction from body s = (r, s') ->
  (exists a s1 s2, r = Ok a /\ tables s1 = tables s /\ body s1 = (Ok a, s2) /\ tables s' = tables s2) \/
  (Db.not_ok r /\ tables s' = tables s).
Proof.
  unfold transaction.
  destruct ((_ ← st_map_err from (select (fun _ => tt)); a ← body;
    _ ← st_map_err from (select (fun _ => tt)); st_ok a) s) as [r0 s0] eqn:Hrun.
  destruct r0 as [a|e|]; intros [= <- <-]; [left|right; split; [intros ?; discriminate|done]..].
  apply ST_bind_Ok in Hrun as (u1 & s1 & H1%sql_reads_map_err & (a' & s2 & H2 & (u3 & s3 & H3%sql_reads_map_err & [= -> ->])%ST_bind_Ok)%ST_bind_Ok);
    [|apply sql_reads_select..].
  by exists a, s1, s2.
Qed.
Lemma bind_reads_inv {E A B} (m : ST (Store T) E A) (f : A -> ST (Store T) E B) s r s' : reads m -> (x ← m; f x) s = (r, s') ->
  (exists a s1, m s = (Ok a, s1) /\ tables s1 = tables s /\ f a s1 = (r, s')) \/ (Db.not_ok r /\ tables s' = tables s).
Proof.
  intros Hm [(a & s1 & H1 & H2)|(r0 & H1 & _ & Hn)]%Db.ST_bind_inv; [left|right].
  - exists a, s1. split_and!; [done|by eapply Hm|done].
  - split; [done|by eapply Hm].
Qed.

(** The sequences only go up. *)
Definition grows {E A} (m : ST (Store T) E A) : Prop := forall s r s', m s = (r, s') -> (serial s <= serial s')%Z.
Lemma grows_statement {A} (f : Z -> T -> outcome DieselError (A * T)) : grows (statement f).
Proof.
  intros s r s'. unfold statement. destruct (faulty s); [intros [= <- <-]; cbn; lia|].
  destruct (f _ _) as [[a t]| |]; intros [= <- <-]; cbn; lia.
Qed.
Lemma grows_connection {E} (e : E) : grows (connection e).
Proof. intros s r s'. unfold connection. destruct (faulty s); intros [= <- <-]; cbn; lia. Qed.
Lemma grows_lift {E A} (m : outcome E A) : grows (@st_lift _ E A m).
Proof. by intros s r s' [= <- <-]. Qed.
Lemma grows_ok {E A} (a : A) : grows (@st_ok (Store T) E A a).
Proof. by intros s r s' [= <- <-]. Qed.
Lemma grows_err {E A} (e : E) : grows (@st_err (Store T) E A e).
Proof. by intros s r s' [= <- <-]. Qed.
Lemma grows_map_err {E E' A} (f : E -> E') (m : ST (Store T) E A) : grows m -> grows (st_map_err f m).
Proof. intros Hm s r s' (r0 & Hs & _)%Db.st_map_err_inv. by eapply Hm. Qed.
Lemma grows_bind {E A B} (m : ST (Store T) E A) (f : A -> ST (Store T) E B) : grows m -> (forall a, grows (f a)) -> grows (x ← m; f x).
Proof.
  intros Hm Hf s r s' [(a & s1 & H1 & H2)|(r' & H1 & _)]%Db.ST_bind_inv; [|by eapply Hm].
  apply Hm in H1. apply Hf in H2. lia.
Qed.
Lemma grows_transaction {E A} (from : DieselError -> E) (body : ST (Store T) E A) : grows body -> grows (transaction from body).
Proof.
  intros Hb s r s'. unfold transaction. destruct ((_ ← st_map_err from (select (fun _ => tt)); a ← body;
    _ ← st_map_err from (select (fun _ => tt)); st_ok a) s) as [r0 s0] eqn:Hrun.
  apply grows_bind in Hrun; [|by apply grows_map_err, grows_statement|].
  2: { intros ?. apply grows_bind; [done|]. intros ?. apply grows_bind; [by apply grows_map_err, grows_statement|]. intros ?. apply grows_ok. }
  destruct r0; by intros [= <- <-].
Qed.
End runs.

(** ** Runs on two stores

    The tables are seen through [view]; [alike n] relates the tables of two stores
    that have the same view when the next sequence value is [n]; [beside] relates
    the tables before and after a run, as far as the view does not show them.
    [acts Pre m Post]: on related stores whose view satisfies [Pre], [m] gives the
    same result and related stores, stays [beside] where it began, and the view
    satisfies [Post] when it succeeds. *)
Section acts.
Context {T V : Type} (view : T -> V) (alike : Z -> T -> T -> Prop) (beside : T -> T -> Prop).
Context (alike_grows : forall n m t1 t2, (n <= m)%Z -> alike n t1 t2 -> alike m t1 t2).
Context (alike_view : forall n t1 t2, alike n t1 t2 -> view t1 = view t2).
Context `{!PreOrder beside}.

Definition acts {E A} (Pre : V -> Prop) (m : ST (Store T) E A) (Post : A -> V -> Prop) : Prop :=
  forall n l t1 t2, alike n t1 t2 -> Pre (view t1) ->
    exists r n' l' t1' t2', m (MkStore t1 n l) = (r, MkStore t1' n' l') /\ m (MkStore t2 n l) = (r, MkStore t2' n' l') /\
      (n <= n')%Z /\ alike n' t1' t2' /\ beside t1 t1' /\ (forall a, r = Ok a -> Post a (view t1')).

Lemma acts_post {E A} Pre (m : ST (Store T) E A) (Post Post' : A -> V -> Prop) :
  acts Pre m Post -> (forall a v, Post a v -> Post' a v) -> acts Pre m Post'.
Proof. intros Hm Hp n l t1 t2 Ha Hv. destruct (Hm n l t1 t2 Ha Hv) as (r & n' & l' & t1' & t2' & ?). naive_solver. Qed.
Lemma acts_pre {E A} (Pre Pre' : V -> Prop) (m : ST (Store T) E A) Post :
  acts Pre m Post -> (forall v, Pre' v -> Pre v) -> acts Pre' m Post.
Proof. intros Hm Hp n l t1 t2 Ha Hv. apply Hm; auto. Qed.
Lemma acts_lift {E A} Pre (m : outcome E A) : acts Pre (@st_lift _ E A m) (fun a v => m = Ok a /\ Pre v).
Proof. intros n l t1 t2 Ha Hv. exists m, n, l, t1, t2. by split_and!; [..|intros]. Qed.
Lemma acts_ok {E A} Pre (a : A) : acts Pre (@st_ok _ E A a) (fun a' v => a' = a /\ Pre v).
Proof. eapply acts_post; [apply (acts_lift (E:=E) Pre (Ok a))|]. naive_solver. Qed.
Lemma acts_err {E A} Pre (e : E) Post : acts Pre (@st_err _ E A e) Post.
Proof. eapply acts_post; [apply (acts_lift Pre (Err e))|]. naive_solver. Qed.
Lemma acts_bind {E A B} Pre (m : ST (Store T) E A) (f : A -> ST (Store T) E B) Mid Post :
  acts Pre m Mid -> (forall a, acts (Mid a) (f a) Post) -> acts Pre (x ← m; f x) Post.
Proof.
  intros Hm Hf n l t1 t2 Ha Hv. destruct (Hm n l t1 t2 Ha Hv) as (r & n1 & l1 & u1 & u2 & H1 & H2 & Hn & Ha1 & Hb & Hmid).
  unfold mbind, ST_bind. rewrite H1, H2. destruct r as [a|e|].
  - destruct (Hf a n1 l1 u1 u2 Ha1 (Hmid a eq_refl)) as (r & n2 & l2 & w1 & w2 & G1 & G2 & Gn & Ga & Gb & Gp).
    exists r, n2, l2, w1, w2. split_and!; [done|done|lia|done|by etransitivity|done].
  - exists (Err e), n1, l1, u1, u2. by split_and!.
  - exists Panic, n1, l1, u1, u2. by split_and!.
Qed.
Lemma acts_map_err {E E' A} (g : E -> E') Pre (m : ST (Store T) E A) Post :
  acts Pre m Post -> acts Pre (st_map_err g m) Post.
Proof.
  intros Hm n l t1 t2 Ha Hv. destruct (Hm n l t1 t2 Ha Hv) as (r & n1 & l1 & u1 & u2 & H1 & H2 & Hn & Ha1 & Hb & Hmid).
  unfold Db.st_map_err. rewrite H1, H2. exists (map_err g r), n1, l1, u1, u2. split_and!; [done..|].
  intros a Hr%map_err_Ok. by apply Hmid.
Qed.
Lemma acts_connection {E} (e : E) Pre : acts Pre (connection e) (fun _ v => Pre v).
Proof.
  intros n l t1 t2 Ha Hv. unfold connection, faulty, advance. cbn. destruct (default false (head l)); do 5 eexists;
    (split_and!; [done..|lia|eapply alike_grows; [|done]; lia|done|done]).
Qed.

(** A statement, from what its function does. *)
Lemma acts_statement {A} Pre (f : Z -> T -> outcome DieselError (A * T)) Post :
  (forall n t1 t2, alike n t1 t2 -> Pre (view t1) ->
    (exists e, f n t1 = Err e /\ f n t2 = Err e) \/
    (exists a t1' t2', f n t1 = Ok (a, t1') /\ f n t2 = Ok (a, t2') /\ alike (n + 1) t1' t2' /\ beside t1 t1' /\ Post a (view t1'))) ->
  acts Pre (statement f) Post.
Proof.
  intros Hf n l t1 t2 Ha Hv. unfold statement, faulty, advance, with_tables. cbn.
  assert (alike (n + 1) t1 t2) as Ha' by (eapply alike_grows; [|done]; lia).
  destruct (default false (head l)); [do 5 eexists; split_and!; [done|done|lia|done|done|by intros]|].
  destruct (Hf n t1 t2 Ha Hv) as [(e & -> & ->)|(a & t1' & t2' & -> & -> & Ht & Hb & Hp)]; do 5 eexists; cbn.
  - split_and!; [done|done|lia|done|done|by intros].
  - split_and!; [done..|lia|done|done|]. intros a' [= <-]. done.
Qed.
Lemma acts_select {A} Pre (f : T -> A) (g : V -> A) : (forall n t, alike n t t -> f t = g (view t)) ->
  (forall n t1 t2, alike n t1 t2 -> alike n t1 t1 /\ alike n t2 t2) ->
  acts Pre (select f) (fun a v => a = g v /\ Pre v).
Proof.
  intros Hg Hr. apply acts_statement. intros n t1 t2 Ha Hv. right. destruct (Hr _ _ _ Ha) as [H1 H2].
  rewrite (Hg _ _ H1), (Hg _ _ H2), <- (alike_view _ _ _ Ha). do 3 eexists.
  split_and!; [done..|eapply alike_grows; [|done]; lia|done|done|done].
Qed.
Lemma acts_select_first {A} Pre (f : T -> option A) (g : V -> option A) : (forall n t, alike n t t -> f t = g (view t)) ->
  (forall n t1 t2, alike n t1 t2 -> alike n t1 t1 /\ alike n t2 t2) ->
  acts Pre (select_first f) (fun a v => g v = Some a /\ Pre v).
Proof.
  intros Hg Hr. apply acts_statement. intros n t1 t2 Ha Hv. destruct (Hr _ _ _ Ha) as [H1 H2].
  rewrite (Hg _ _ H1), (Hg _ _ H2), <- (alike_view _ _ _ Ha).
  destruct (g (view t1)) as [a|] eqn:Hgv; cbn; [right|left; eauto]. do 3 eexists.
  split_and!; [done..|eapply alike_grows; [|done]; lia|done|done|done].
Qed.
Lemma acts_transaction {E A} (from : DieselError -> E) Pre (body : ST (Store T) E A) Post :
  (forall n t1 t2, alike n t1 t2 -> alike n t1 t1 /\ alike n t2 t2) ->
  acts Pre body Post -> acts Pre (transaction from body) Post.
Proof.
  intros Hr Hm n l t1 t2 Ha Hv. unfold transaction.
  assert (acts Pre (_ ← st_map_err from (select (fun _ => tt)); a ← body; _ ← st_map_err from (select (fun _ => tt)); st_ok a) Post) as Hall.
  { eapply acts_bind; [by apply acts_map_err, (acts_select _ _ (fun _ => tt))|]. intros [].
    eapply acts_bind; [eapply acts_pre; [exact Hm|naive_solver]|]. intros a.
    eapply acts_bind; [by apply acts_map_err, (acts_select _ _ (fun _ => tt))|]. intros [].
    eapply acts_post; [apply acts_ok|]. naive_solver. }
  destruct (Hall n l t1 t2 Ha Hv) as (r & n1 & l1 & u1 & u2 & H1 & H2 & Hn & Ha1 & Hb & Hp). rewrite H1, H2.
  assert (alike n1 t1 t2) as Ha2 by (by eapply alike_grows).
  destruct r; do 5 eexists; cbn; (split_and!; [done|done|cbn; lia|done|done|done]).
Qed.
End acts.

(** ** Runs that answer from tables that stay *)
Section answers.
Context {T : Type} (t : T).
Definition steady (s : Store T) : Prop := tables s = t /\ faults s = [].
Definition answers {E A} (m : ST (Store T) E A) (a : A) : Prop :=
  forall s, steady s -> exists s', m s = (Ok a, s') /\ steady s'.

Lemma answers_ok {E A} (a : A) : answers (@st_ok _ E A a) a.
Proof. intros s Hs. by exists s. Qed.
Lemma answers_lift {E A} (m : outcome E A) a : m = Ok a -> answers (@st_lift _ E A m) a.
Proof. intros -> s Hs. by exists s. Qed.
Lemma answers_bind {E A B} (m : ST (Store T) E A) (f : A -> ST (Store T) E B) a b :
  answers m a -> answers (f a) b -> answers (x ← m; f x) b.
Proof. intros Hm Hf s Hs. destruct (Hm s Hs) as (s1 & Hr & Hs1). unfold mbind, ST_bind. rewrite Hr. by apply Hf. Qed.
Lemma answers_map_err {E E' A} (g : E -> E') (m : ST (Store T) E A) a : answers m a -> answers (st_map_err g m) a.
Proof. intros Hm s Hs. destruct (Hm s Hs) as (s1 & Hr & Hs1). exists s1. unfold Db.st_map_err. by rewrite Hr. Qed.
Lemma answers_statement {A} (f : Z -> T -> outcome DieselError (A * T)) a : (forall n, f n t = Ok (a, t)) -> answers (statement f) a.
Proof.
  intros Hf [t' n l] [Ht Hl]. cbn in Ht, Hl. subst. unfold statement, faulty, with_tables, advance. cbn. rewrite Hf. by eexists.
Qed.
Lemma answers_select {A} (f : T -> A) : answers (select f) (f t).
Proof. by apply answers_statement. Qed.
Lemma answers_select_first {A} (f : T -> option A) a : f t = Some a -> answers (select_first f) a.
Proof. intros Hf. apply answers_statement. intros n. by rewrite Hf. Qed.
Lemma answers_connection {E} (e : E) : answers (connection e) tt.
Proof. intros [t' n l] [Ht Hl]. cbn in Ht, Hl. subst. unfold connection, faulty, advance. cbn. by eexists. Qed.
End answers.
End Sql.
