(* ===== verification/Rows.v ===== *)
(** * Rows of a table

    Lemmas on the rows that [filter], [update] and [delete] leave, and on the rows
    of one owner. *)

From S2P Require Import Prelude Database Statements.

(** ** Rows with an owner *)
Section owned.
Context {A K : Type} `{EqDecision K} (owner : A -> K).
Implicit Types l : list A.
Definition owned_by (v : K) (x : A) : bool := bool_decide (owner x = v).
Definition own (v : K) l : list A := Db.matching_rows (owned_by v) l.

Lemma elem_of_own v l x : x ∈ own v l <-> x ∈ l /\ owner x = v.
Proof. unfold own. rewrite Db.elem_of_matching. unfold owned_by. rewrite bool_decide_eq_true. tauto. Qed.
Lemma own_app v l l' : own v (l ++ l') = own v l ++ own v l'.
Proof. apply Db.matching_rows_app. Qed.
Lemma own_one v x : own v [x] = if decide (owner x = v) then [x] else [].
Proof. unfold own, Db.matching_rows, owned_by. rewrite filter_cons, filter_nil. repeat case_decide; try done; by rewrite bool_decide_eq_true in *. Qed.
Lemma own_update u v p f l : (forall x, x ∈ l -> p x = true -> owner x = u) -> (forall x, owner (f x) = owner x) ->
  own v (Db.update_rows p f l) = if decide (v = u) then Db.update_rows p f (own v l) else own v l.
Proof.
  intros Hp Hf. unfold own, Db.matching_rows, Db.update_rows, owned_by. induction l as [|x l IH]; [by case_decide|].
  rewrite fmap_cons, !filter_cons, IH by (intros; apply Hp; set_solver). specialize (Hp x ltac:(set_solver)).
  destruct (p x) eqn:Hx; [rewrite Hf|].
  - specialize (Hp eq_refl). repeat case_decide; rewrite ?bool_decide_eq_true in *; subst; try done. cbn. by rewrite Hx.
  - repeat case_decide; try done. cbn. by rewrite Hx.
Qed.
Lemma own_delete u v p l : (forall x, x ∈ l -> p x = true -> owner x = u) ->
  own v (Db.delete_rows p l) = if decide (v = u) then Db.delete_rows p (own v l) else own v l.
Proof.
  intros Hp. unfold own, Db.matching_rows, Db.delete_rows, owned_by. rewrite !list_filter_filter. case_decide; subst.
  - apply list_filter_iff. tauto.
  - apply filter_ext_elem. intros x Hin. rewrite bool_decide_eq_true. split; [tauto|]. intros Hx. split; [done|].
    destruct (p x) eqn:Hpx; [|done]. apply Hp in Hpx; [|done]. congruence.
Qed.
Lemma matching_own u p l : (forall x, p x = true -> owner x = u) -> Db.matching_rows p l = Db.matching_rows p (own u l).
Proof.
  intros Hp. unfold own, Db.matching_rows, owned_by. rewrite list_filter_filter. apply list_filter_iff. intros x.
  rewrite bool_decide_eq_true. naive_solver.
Qed.
Lemma matching_same u p l l' : (forall x, p x = true -> owner x = u) -> own u l = own u l' ->
  Db.matching_rows p l = Db.matching_rows p l'.
Proof. intros Hp Ho. rewrite (matching_own u p l), (matching_own u p l') by done. by rewrite Ho. Qed.
Lemma first_own u p l : (forall x, p x = true -> owner x = u) -> Db.first p l = Db.first p (own u l).
Proof.
  intros Hp. unfold own, Db.matching_rows, Db.first, owned_by. induction l as [|x l IH]; [done|]. rewrite filter_cons.
  destruct (p x) eqn:Hx.
  - rewrite decide_True by (rewrite bool_decide_eq_true; auto). cbn. rewrite !decide_True by done. done.
  - case_decide; cbn; rewrite ?(decide_False (P:=p x = true)) by congruence; rewrite ?fmap_prod_map_snd; cbn;
      destruct (list_find _ l) as [[]|], (list_find _ (filter _ l)) as [[]|]; cbn in *; congruence.
Qed.
Lemma existsb_own u p l : existsb p l = existsb p (own u l) || existsb (fun x => p x && negb (owned_by u x)) l.
Proof.
  unfold own, Db.matching_rows. induction l as [|x l IH]; [done|]. rewrite filter_cons. cbn [existsb]. rewrite IH.
  destruct (owned_by u x); [rewrite decide_True by done|rewrite decide_False by done]; cbn [existsb negb]; destruct (p x), (existsb p (filter _ l)); done.
Qed.
End owned.

Section rows.
Context {A : Type}.
Lemma existsb_update q p f (l : list A) : (forall x, q (f x) = q x) -> existsb q (Db.update_rows p f l) = existsb q l.
Proof. intros Hq. unfold Db.update_rows. induction l as [|x l IH]; [done|]. rewrite fmap_cons. cbn [existsb]. rewrite IH. destruct (p x); by rewrite ?Hq. Qed.
Lemma delete_sublist p (l : list A) : Db.delete_rows p l `sublist_of` l.
Proof. apply sublist_filter. Qed.
Lemma existsb_delete q p (l : list A) : (forall x, q x = true -> p x = false) -> existsb q (Db.delete_rows p l) = existsb q l.
Proof.
  intros Hq. unfold Db.delete_rows. induction l as [|x l IH]; [done|]. rewrite filter_cons. cbn.
  destruct (p x) eqn:Hp; [rewrite decide_False by done|rewrite decide_True by done]; cbn; rewrite IH; [|done].
  destruct (q x) eqn:Hx; [|done]. apply Hq in Hx. congruence.
Qed.
Lemma filter_sublist (P : A -> Prop) `{!forall x, Decision (P x)} (l l' : list A) : l `sublist_of` l' -> filter P l `sublist_of` filter P l'.
Proof.
  induction 1 as [|x l l' _ IH|x l l' _ IH]; [done| |]; rewrite !filter_cons; case_decide; [|done| |done].
  - by apply sublist_skip.
  - by apply sublist_cons.
Qed.
Lemma omap_sublist {B} (f : A -> option B) (l l' : list A) : l `sublist_of` l' -> omap f l `sublist_of` omap f l'.
Proof.
  induction 1 as [|x l l' _ IH|x l l' _ IH]; [done| |]; cbn; destruct (f x); [|done| |done].
  - by apply sublist_skip.
  - by apply sublist_cons.
Qed.
Lemma matching_delete q p (l : list A) : (forall x, q x = true -> p x = false) ->
  Db.matching_rows q (Db.delete_rows p l) = Db.matching_rows q l.
Proof.
  intros Hq. unfold Db.delete_rows, Db.matching_rows. rewrite list_filter_filter. apply list_filter_iff. naive_solver.
Qed.
Lemma matching_delete_elem q p (l : list A) : (forall x, x ∈ l -> q x = true -> p x = false) ->
  Db.matching_rows q (Db.delete_rows p l) = Db.matching_rows q l.
Proof.
  intros Hq. unfold Db.delete_rows, Db.matching_rows. rewrite list_filter_filter. apply filter_ext_elem. naive_solver.
Qed.
Lemma first_delete_elem q p (l : list A) : (forall x, x ∈ l -> q x = true -> p x = false) ->
  Db.first q (Db.delete_rows p l) = Db.first q l.
Proof.
  intros Hq. unfold Db.delete_rows, Db.first. induction l as [|x l IH]; [done|]. rewrite filter_cons.
  destruct (p x) eqn:Hp; [rewrite decide_False by congruence|rewrite decide_True by done].
  - cbn. destruct (decide (q x = true)) as [Hx|Hx]; [specialize (Hq x ltac:(set_solver) Hx); congruence|].
    rewrite IH by set_solver. by destruct (list_find _ l) as [[]|].
  - cbn. case_decide; [done|]. specialize (IH ltac:(set_solver)).
    destruct (list_find _ l) as [[]|], (list_find _ (filter _ l)) as [[]|]; cbn in *; congruence.
Qed.
Lemma matching_update_other q p f (l : list A) : (forall x, x ∈ l -> p x = true -> q x = false) -> (forall x, q (f x) = q x) ->
  Db.matching_rows q (Db.update_rows p f l) = Db.matching_rows q l.
Proof.
  intros Hq Hf. unfold Db.matching_rows, Db.update_rows. induction l as [|x l IH]; [done|]. rewrite fmap_cons, !filter_cons, IH by set_solver.
  destruct (p x) eqn:Hp; [|done]. specialize (Hq x ltac:(set_solver) Hp). rewrite Hf, Hq. done.
Qed.
Lemma matching_snoc_other q (l : list A) x : q x = false -> Db.matching_rows q (l ++ [x]) = Db.matching_rows q l.
Proof.
  intros Hq. rewrite Db.matching_rows_app. assert (Db.matching_rows q [x] = []) as ->; [|by rewrite app_nil_r].
  apply Db.matching_none. by intros y ->%list_elem_of_singleton.
Qed.
End rows.

Section columns.
Context {A B : Type} (g : A -> B).
Lemma fmap_update p f (l : list A) : (forall x, g (f x) = g x) -> g <$> Db.update_rows p f l = g <$> l.
Proof. intros Hg. unfold Db.update_rows. rewrite <- list_fmap_compose. apply list_fmap_ext. intros i x _. cbn. by destruct (p x). Qed.
Lemma delete_fmap p (l : list A) : Db.delete_rows p (g <$> l) = g <$> Db.delete_rows (fun x => p (g x)) l.
Proof. unfold Db.delete_rows. induction l as [|x l IH]; [done|]. rewrite fmap_cons, !filter_cons, IH. by case_decide. Qed.
Lemma NoDup_snoc (l : list A) x : NoDup (g <$> l) -> (g x ∉ g <$> l) -> NoDup (g <$> (l ++ [x])).
Proof. intros Hn Hx. rewrite fmap_app. apply NoDup_app. split_and!; [done|set_solver|apply NoDup_singleton]. Qed.
End columns.

(** ** Keys and references *)
Section keys.
Context {A B K : Type}.
Definition unique (f : A -> K) (l : list A) : Prop := NoDup (f <$> l).
Definition below (n : Z) (id : A -> Z) (l : list A) : Prop := forall x, x ∈ l -> (id x < n)%Z.
Definition refers (g : A -> K) (l : list A) (id : B -> K) (l' : list B) : Prop := forall x, x ∈ l -> exists y, y ∈ l' /\ id y = g x.

Lemma unique_snoc (f : A -> K) l x : unique f l -> (forall y, y ∈ l -> f y <> f x) -> unique f (l ++ [x]).
Proof. intros Hn Hx. apply NoDup_snoc; [done|]. intros (y & Hy & ?)%list_elem_of_fmap. by eapply Hx. Qed.
Lemma unique_update (f : A -> K) p g l : unique f l -> (forall x, f (g x) = f x) -> unique f (Db.update_rows p g l).
Proof. intros Hn Hg. unfold unique. by rewrite fmap_update. Qed.
Lemma unique_delete (f : A -> K) p l : unique f l -> unique f (Db.delete_rows p l).
Proof. apply Db.NoDup_fmap_deleted. Qed.
Lemma unique_same (f : A -> K) l x y : unique f l -> x ∈ l -> y ∈ l -> f x = f y -> x = y.
Proof. apply Db.NoDup_fmap_same. Qed.

Lemma below_mono n m (id : A -> Z) (l : list A) : below n id l -> (n <= m)%Z -> below m id l.
Proof. intros Hl Hn x Hx. specialize (Hl x Hx). lia. Qed.
Lemma below_snoc n (id : A -> Z) l x : below n id l -> (id x < n)%Z -> below n id (l ++ [x]).
Proof. intros Hl Hx y [Hy| ->%list_elem_of_singleton]%elem_of_app; [by apply Hl|done]. Qed.
Lemma below_update n (id : A -> Z) p g l : below n id l -> (forall x, id (g x) = id x) -> below n id (Db.update_rows p g l).
Proof. intros Hl Hg y (x & Hx & ->)%Db.elem_of_updated. specialize (Hl x Hx). destruct (p x); by rewrite ?Hg. Qed.
Lemma below_delete n (id : A -> Z) p l : below n id l -> below n id (Db.delete_rows p l).
Proof. intros Hl y [_ Hy]%Db.elem_of_deleted. by apply Hl. Qed.
Lemma below_fresh n (id : A -> Z) l k x : below n id l -> (n <= k)%Z -> x ∈ l -> id x <> k.
Proof. intros Hl Hk Hx. specialize (Hl x Hx). lia. Qed.

Lemma refers_snoc_l (g : A -> K) l (id : B -> K) l' x : refers g l id l' -> (exists y, y ∈ l' /\ id y = g x) -> refers g (l ++ [x]) id l'.
Proof. intros Hl Hx y [Hy| ->%list_elem_of_singleton]%elem_of_app; [by apply Hl|done]. Qed.
Lemma refers_update_l (g : A -> K) p f l (id : B -> K) l' : refers g l id l' -> (forall x, g (f x) = g x) ->
  refers g (Db.update_rows p f l) id l'.
Proof. intros Hl Hf y (x & Hx & ->)%Db.elem_of_updated. destruct (p x); rewrite ?Hf; by apply Hl. Qed.
Lemma refers_delete_l (g : A -> K) p l (id : B -> K) l' : refers g l id l' -> refers g (Db.delete_rows p l) id l'.
Proof. intros Hl y [_ Hy]%Db.elem_of_deleted. by apply Hl. Qed.
Lemma refers_snoc_r (g : A -> K) l (id : B -> K) l' (y : B) : refers g l id l' -> refers g l id (l' ++ [y]).
Proof. intros Hl x Hx. destruct (Hl x Hx) as (z & Hz & ?). exists z. split; [|done]. apply elem_of_app. by left. Qed.
Lemma refers_update_r (g : A -> K) l (id : B -> K) p f l' : refers g l id l' -> (forall y, id (f y) = id y) ->
  refers g l id (Db.update_rows p f l').
Proof.
  intros Hl Hf x Hx. destruct (Hl x Hx) as (z & Hz & <-). exists (if p z then f z else z).
  split; [apply Db.elem_of_updated; eauto|]. destruct (p z); by rewrite ?Hf.
Qed.
(** The references to the deleted rows are deleted with them. *)
Lemma refers_delete_r (g : A -> K) q l (id : B -> K) p l' : refers g l id l' ->
  (forall x y, x ∈ l -> y ∈ l' -> id y = g x -> p y = true -> q x = true) ->
  refers g (Db.delete_rows q l) id (Db.delete_rows p l').
Proof.
  intros Hl Hq x [Hqx Hx]%Db.elem_of_deleted. destruct (Hl x Hx) as (y & Hy & He). exists y. split; [|done].
  apply Db.elem_of_deleted. split; [|done]. destruct (p y) eqn:Hp; [|done]. by rewrite (Hq x y) in Hqx.
Qed.
End keys.

Create HintDb rows.
#[export] Hint Resolve unique_update unique_delete below_mono below_update below_delete refers_update_l refers_delete_l
  refers_snoc_r refers_update_r : rows.
