(* ===== verification/Pagination.v ===== *)
(** * Cursor pagination

    The list queries of [src/src/models/responses.rs] and [src/src/db.rs] sort
    rows by a time and an id, start after a cursor row and take a limit; the list
    routes ask for one row more than they answer ([pagination.rs] and the list
    handlers).  [follow] is the client that asks for page after page. *)

From S2P Require Import Prelude Encrypt.

Module Pagination.
Definition DEFAULT_PAGINATION_LIMIT : Z := 20.
Definition MAX_PAGINATION_LIMIT : Z := 100.
Definition DEFAULT_PAGINATION_ORDER : string := "desc".
Definition OBJECT_TYPE_LIST : string := "list".
Abbreviation Uuid := Encrypt.Uuid.

(** The [limit] of a list route. *)
Definition page_limit (limit : Z) : Z :=
  if decide (limit <= 0)%Z then DEFAULT_PAGINATION_LIMIT else Z.min limit MAX_PAGINATION_LIMIT.

(** [Paginator::get_cursor_ids]. *)
Definition get_cursor_ids {T ID} (items : list T) (id_extractor : T -> ID) : option ID * option ID :=
  (id_extractor <$> head items, id_extractor <$> last items).

Record Page (A : Type) := MkPage {
  object : string; data : list A; has_more : bool; first_id : option Uuid; last_id : option Uuid }.
Arguments MkPage {A} _ _ _ _ _.
Arguments object {A} _.
Arguments data {A} _.
Arguments has_more {A} _.
Arguments first_id {A} _.
Arguments last_id {A} _.

(** What a list route returns of the rows it fetched with [limit + 1], and
    whether there are more. *)
Definition split_page {A} (limit : Z) (rows : list A) : bool * list A :=
  let has_more := bool_decide (Z.to_nat limit < length rows) in
  (has_more, if has_more then take (Z.to_nat limit) rows else rows).

(** ** The queries: [at_] and [id] are the columns of the sort key *)
Section queries.
Context {A : Type} (at_ id : A -> Z).

(** [(at, id) < cursor] for ["desc"], [>] otherwise. *)
Definition beyond (order : string) (cursor : Z * Z) (x : A) : bool :=
  if decide (order = "desc")
  then bool_decide (at_ x < cursor.1 \/ at_ x = cursor.1 /\ id x < cursor.2)%Z
  else bool_decide (at_ x > cursor.1 \/ at_ x = cursor.1 /\ id x > cursor.2)%Z.
(** [ORDER BY at, id]. *)
Definition not_after (order : string) (x y : A) : Prop :=
  if decide (order = "desc")
  then (at_ y < at_ x \/ at_ y = at_ x /\ id y <= id x)%Z
  else (at_ x < at_ y \/ at_ x = at_ y /\ id x <= id y)%Z.
#[export] Instance not_after_dec order x y : Decision (not_after order x y).
Proof. unfold not_after. case_decide; apply _. Defined.
Definition ordered (order : string) (l : list A) : list A := merge_sort (not_after order) l.

Definition page_query (order : string) (limit : Z) (cursor : option (Z * Z)) (l : list A) : list A :=
  take (Z.to_nat limit) (ordered order
    match cursor with Some c => filter (fun x => beyond order c x = true) l | None => l end).
End queries.

(** ** The client *)
Section follow.
Context {S E A : Type} (route : option Uuid -> ST S E (Page A)).
Fixpoint follow (fuel : nat) (after : option Uuid) : ST S E (option (list (Page A))) :=
  match fuel with
  | 0 => st_ok None
  | Datatypes.S fuel =>
      page ← route after;
      if has_more page then
        pages ← follow fuel (last_id page);
        st_ok (cons page <$> pages)
      else st_ok (Some [page])
  end.
End follow.

(** ** Lemmas: the order *)
Section order.
Context {A : Type} (at_ id : A -> Z).
#[local] Abbreviation not_after := (not_after at_ id).
#[local] Abbreviation beyond := (beyond at_ id).
Implicit Types l : list A.

#[local] Instance not_after_trans order : Transitive (not_after order).
Proof. intros x y z. unfold Pagination.not_after. case_decide; lia. Qed.
#[local] Instance not_after_total order : Total (not_after order).
Proof. intros x y. unfold Pagination.not_after. case_decide; lia. Qed.

Lemma ordered_perm order l : ordered at_ id order l ≡ₚ l.
Proof. apply merge_sort_Permutation. Qed.
Lemma ordered_sorted order l : StronglySorted (not_after order) (ordered at_ id order l).
Proof. apply (StronglySorted_merge_sort _). Qed.
Lemma not_after_antisymm order x y : not_after order x y -> not_after order y x -> at_ x = at_ y /\ id x = id y.
Proof. unfold Pagination.not_after. case_decide; lia. Qed.
Lemma beyond_true order c x :
  beyond order (at_ c, id c) x = true <-> not_after order c x /\ (at_ x, id x) <> (at_ c, id c).
Proof.
  unfold Pagination.beyond, Pagination.not_after. case_decide; rewrite bool_decide_eq_true; cbn; (split; [intros Hx; split; [lia|]; intros [=]; lia|]);
    intros [Hx Hn]; destruct (decide (at_ x = at_ c)); [|lia| |lia]; destruct (decide (id x = id c)); try lia; by destruct Hn; f_equal.
Qed.
End order.
Definition keys {A} (at_ id : A -> Z) (l : list A) : list (Z * Z) := (fun x => (at_ x, id x)) <$> l.

Section pages.
Context {A : Type} (at_ id : A -> Z) (order : string).
#[local] Abbreviation not_after := (not_after at_ id order).
#[local] Abbreviation beyond := (beyond at_ id order).
#[local] Abbreviation ordered := (ordered at_ id order).
Implicit Types l : list A.

(** Rows with different keys have one sorted order. *)
Lemma sorted_once l1 l2 : NoDup (keys at_ id l1) -> l1 ≡ₚ l2 ->
  StronglySorted not_after l1 -> StronglySorted not_after l2 -> l1 = l2.
Proof.
  revert l2. induction l1 as [|x l1 IH]; intros l2 Hn Hp Hs1 Hs2.
  - by apply Permutation_nil_l in Hp.
  - destruct l2 as [|y l2]; [by apply Permutation_nil_r in Hp|].
    apply StronglySorted_inv in Hs1 as [Hs1 Ha1], Hs2 as [Hs2 Ha2].
    assert (x = y) as ->; [|f_equal; apply IH; [by apply NoDup_cons_1_2 in Hn|by apply Permutation_cons_inv in Hp|done..]].
    assert (x ∈ y :: l2) as Hx by (rewrite <- Hp; apply list_elem_of_here).
    assert (y ∈ x :: l1) as Hy by (rewrite Hp; apply list_elem_of_here).
    apply elem_of_cons in Hx as [?|Hx], Hy as [?|Hy]; try done.
    rewrite Forall_forall in Ha1, Ha2. destruct (not_after_antisymm _ _ _ _ _ (Ha1 _ Hy) (Ha2 _ Hx)).
    apply NoDup_cons_1_1 in Hn. destruct Hn. apply list_elem_of_fmap. exists y. split; [congruence|done].
Qed.

Lemma ordered_filter (P : A -> Prop) `{!forall x, Decision (P x)} l :
  NoDup (keys at_ id l) -> ordered (filter P l) = filter P (ordered l).
Proof.
  intros Hn. apply sorted_once.
  - unfold keys. rewrite ordered_perm. eapply sublist_NoDup; [exact Hn|]. apply sublist_fmap, sublist_filter.
  - by rewrite !ordered_perm.
  - apply ordered_sorted.
  - eapply StronglySorted_sublist; [apply sublist_filter|apply ordered_sorted].
Qed.

(** The rows after a cursor row are the rows that follow it in the order. *)
Lemma beyond_row l1 c l2 : NoDup (keys at_ id (l1 ++ c :: l2)) -> StronglySorted not_after (l1 ++ c :: l2) ->
  filter (fun x => beyond (at_ c, id c) x = true) (l1 ++ c :: l2) = l2.
Proof.
  intros Hn (_ & Hs & Hle)%StronglySorted_app_iff. apply StronglySorted_inv in Hs as [_ Hs].
  unfold keys in Hn. rewrite fmap_app, fmap_cons in Hn. apply NoDup_app in Hn as (_ & Hd & Hn). rewrite NoDup_cons in Hn.
  rewrite filter_app, filter_cons_False, filter_none, filter_all; [done|..].
  - rewrite Forall_forall in *. intros x Hx. apply beyond_true. split; [by apply Hs|]. intros Heq.
    destruct Hn as [Hn _]. apply Hn, list_elem_of_fmap. eauto.
  - apply Forall_forall. intros x Hx [Hb Hne]%beyond_true.
    destruct (not_after_antisymm _ _ _ _ _ Hb (Hle x c Hx ltac:(set_solver))). apply Hne. congruence.
  - intros [_ Hne]%beyond_true. done.
Qed.

(** The query that starts after a row of the list. *)
Lemma page_query_after limit l l1 c l2 : NoDup (keys at_ id l) -> ordered l = l1 ++ c :: l2 ->
  page_query at_ id order limit (Some (at_ c, id c)) l = take (Z.to_nat limit) l2.
Proof.
  intros Hn Ho. unfold page_query. f_equal. rewrite ordered_filter by done. rewrite Ho. apply beyond_row.
  - rewrite <- Ho. unfold keys. by rewrite ordered_perm.
  - rewrite <- Ho. apply ordered_sorted.
Qed.
End pages.

Lemma page_limit_bounds limit : (1 <= page_limit limit <= 100)%Z.
Proof. unfold page_limit, DEFAULT_PAGINATION_LIMIT, MAX_PAGINATION_LIMIT. case_decide; lia. Qed.

(** ** Lemmas: the client

    [served rest after rows]: the route called with the cursor [after] answers
    the page that begins [rest].  A client that starts there gets all of it. *)
Section client.
Context {S E A B : Type} (route : option Uuid -> ST S E (Page B)) (uuid : A -> Uuid) (show : A -> B).
Context (limit : nat) (inv : S -> Prop) (Hlimit : 0 < limit).

Definition page_of (rest : list A) : Page B :=
  let rows := take limit rest in
  MkPage OBJECT_TYPE_LIST (show <$> rows) (bool_decide (limit < length rest)) (uuid <$> head rows) (uuid <$> last rows).
Definition serves (after : option Uuid) (rest : list A) : Prop :=
  forall s, inv s -> exists s', route after s = (Ok (page_of rest), s') /\ inv s'.

Lemma follow_serves (all : list A) :
  (forall l1 c l2, all = l1 ++ c :: l2 -> serves (Some (uuid c)) l2) ->
  forall fuel l1 rest after s, all = l1 ++ rest -> serves after rest -> length rest < fuel -> inv s ->
    exists pages s', follow route fuel after s = (Ok (Some pages), s') /\ inv s' /\
      concat (data <$> pages) = show <$> rest /\
      Forall (fun p => length (data p) = limit) (removelast pages) /\
      length pages = 1 + (length rest - 1) / limit.
Proof.
  intros Hall. induction fuel as [|fuel IH]; intros l1 rest after s Hr Hs Hf Hi; [lia|].
  destruct (Hs s Hi) as (s1 & Hpage & Hi1). cbn [follow]. unfold mbind, ST_bind. rewrite Hpage. cbn [has_more last_id page_of].
  case_bool_decide as Hmore.
  - assert (is_Some (last (take limit rest))) as [c Hc].
    { apply last_is_Some. intros Hnil. apply (f_equal length) in Hnil. rewrite length_take in Hnil. cbn in Hnil. lia. }
    rewrite Hc. cbn [fmap option_fmap option_map]. apply last_Some in Hc as [l' Hl'].
    assert (rest = l' ++ c :: drop limit rest) as Hrest.
    { rewrite <- (take_drop limit rest) at 1. rewrite Hl', <- app_assoc. done. }
    destruct (IH (l1 ++ l' ++ [c]) (drop limit rest) (Some (uuid c)) s1) as (pages & s' & Hrun & Hi' & Hd & Hp & Hl).
    + rewrite Hr, Hrest at 1. by rewrite <- !app_assoc.
    + apply (Hall (l1 ++ l') c). rewrite Hr, Hrest at 1. by rewrite <- app_assoc.
    + rewrite length_drop. lia.
    + done.
    + exists (page_of rest :: pages), s'. rewrite Hrun. split_and!; [done|done|..].
      * cbn. rewrite Hd, <- fmap_app. by rewrite take_drop.
      * destruct pages as [|p pages]; [cbn in Hl; lia|]. constructor; [|done]. cbn. rewrite length_fmap, length_take. lia.
      * cbn [length]. rewrite Hl, length_drop.
        replace (length rest - 1) with (length rest - limit - 1 + 1 * limit) by lia. rewrite Nat.div_add by lia. lia.
  - exists [page_of rest], s1. split_and!; [done|done|..].
    + cbn. by rewrite app_nil_r, take_ge by lia.
    + constructor.
    + cbn. destruct (decide (length rest = 0)) as [->|]; [by rewrite Nat.Div0.div_0_l|]. rewrite Nat.div_small by lia. done.
Qed.
End client.
End Pagination.
