(* ===== verification/Claims.v ===== *)
(** * Token claims and authentication contexts

    The first part of [src/src/jwt.rs]: the claims of a user token, the
    authentication context they carry (how the user signed in, and the binding
    of the seed wrap that sign-in opens), and the audiences third-party tokens
    may name. *)

From S2P Require Import Prelude Text Crypto Api Encrypt.

Module Claims.
Definition USER_ACCESS := "access".
Definition USER_REFRESH := "refresh".
Definition PLATFORM_ACCESS := "platform_access".
Definition PLATFORM_REFRESH := "platform_refresh".
Definition USER_TOKEN_FORMAT_V2 : Z := 2.

Inductive TokenType := Access | Refresh | ThirdParty (aud : option string) (azp : string).

Record CustomClaims := MkClaims {
  sub : string; aud : option string; azp : option string; role : option string;
  token_format : option Z; auth_method : option string; project_id : option Z;
  auth_binding : option string }.

Inductive AuthMethod := Password | OAuth.
#[export] Instance AuthMethod_dec : EqDecision AuthMethod.
Proof. solve_decision. Defined.
Definition as_str (m : AuthMethod) : string := match m with Password => "password" | OAuth => "oauth" end.
Definition from_str (value : string) : outcome Api.ApiError AuthMethod :=
  if decide (value = "password") then Ok Password
  else if decide (value = "oauth") then Ok OAuth
  else Err Api.InvalidJwt.

Record AuthContext := MkContext {
  c_token_format : Z; method : AuthMethod; c_project_id : Z; c_auth_binding : bytes }.

Definition context_new (m : AuthMethod) (project : Z) (binding : bytes) : AuthContext :=
  MkContext USER_TOKEN_FORMAT_V2 m project binding.

Section claims.
Context `{UrlBase64}.

Definition apply_to_claims (self : AuthContext) (c : CustomClaims) : CustomClaims :=
  MkClaims (sub c) (aud c) (azp c) (role c) (Some (c_token_format self))
    (Some (as_str (method self))) (Some (c_project_id self)) (Some (url_encode (c_auth_binding self))).

Definition from_claims (c : CustomClaims) : outcome Api.ApiError AuthContext :=
  if decide (token_format c <> Some USER_TOKEN_FORMAT_V2) then Err Api.InvalidJwt
  else
    m ← ok_or Api.InvalidJwt (auth_method c);
    m ← from_str m;
    project ← ok_or Api.InvalidJwt (project_id c);
    claim ← ok_or Api.InvalidJwt (auth_binding c);
    b ← ok_or Api.InvalidJwt (url_decode claim);
    if decide (length b <> 32) then Err Api.InvalidJwt
    else Ok (MkContext USER_TOKEN_FORMAT_V2 m project b).
End claims.

(** ** Audiences of third-party tokens *)
Definition RESERVED_AUDIENCES : list string := [USER_ACCESS; USER_REFRESH; PLATFORM_ACCESS; PLATFORM_REFRESH].
Definition MAX_AUDIENCE_LENGTH : nat := 50.

Definition ascii_alphanumeric (c : nat) : bool := between 48 57 c || between 65 90 c || between 97 122 c.

(** [Url::parse(s).is_ok()], and [char::is_alphanumeric] beyond ASCII. *)
Class AudienceText := { url_parses : string -> bool; unicode_alphanumeric : list nat -> bool }.

Section audience.
Context `{AudienceText}.

Definition allowed_char (c : list nat) : bool :=
  match c with
  | [c] => ascii_alphanumeric c ||
           bool_decide (ascii_of_nat c ∈ list_ascii_of_string ".-:/_~?&=+%#")
  | c => unicode_alphanumeric c
  end.

Definition validate_third_party_audience (a : string) : outcome Api.ApiError unit :=
  if decide (a ∈ RESERVED_AUDIENCES) then Err Api.BadRequest
  else if decide (MAX_AUDIENCE_LENGTH < str_len a) then Err Api.BadRequest
  else if contains_char "000" a then Err Api.BadRequest
  else if negb (forallb allowed_char (chars a)) then Err Api.BadRequest
  else if is_empty a then Err Api.BadRequest
  else if contains_char ":" a && negb (url_parses a) then Err Api.BadRequest
  else Ok tt.
End audience.

(** ** Lemmas *)
Lemma from_claims_Ok `{UrlBase64} c ctx :
  from_claims c = Ok ctx ->
  token_format c = Some USER_TOKEN_FORMAT_V2 /\ c_token_format ctx = USER_TOKEN_FORMAT_V2 /\
  auth_method c = Some (as_str (method ctx)) /\ project_id c = Some (c_project_id ctx) /\
  length (c_auth_binding ctx) = 32 /\
  exists s, auth_binding c = Some s /\ url_decode s = Some (c_auth_binding ctx).
Proof.
  unfold from_claims. case_decide as Ht; [done|]. intros Hc. inv_ok. case_decide as Hl; [done|]. simplify_eq. cbn.
  split_and!; try done; [|by eauto].
  match goal with H : from_str _ = Ok _ |- _ => unfold from_str in H; repeat case_decide; simplify_eq; done end.
Qed.

Lemma from_claims_apply `{u : UrlBase64, !UrlBase64Laws u} m p b c :
  length b = 32 -> from_claims (apply_to_claims (context_new m p b) c) = Ok (context_new m p b).
Proof.
  intros Hb. unfold from_claims, apply_to_claims, context_new. cbn [token_format auth_method project_id auth_binding
    c_token_format method c_project_id c_auth_binding].
  rewrite decide_False by tauto. cbn [ok_or mbind outcome_bind].
  assert (from_str (as_str m) = Ok m) as -> by (by destruct m).
  rewrite url_roundtrip. cbn [ok_or mbind outcome_bind]. by rewrite decide_False by tauto.
Qed.

Lemma audience_not_reserved `{AudienceText} a :
  validate_third_party_audience a = Ok tt -> a ∉ RESERVED_AUDIENCES.
Proof. unfold validate_third_party_audience. by case_decide. Qed.
End Claims.
