(* ===== verification/Accounts.v ===== *)
(** * Accounts: registration, sign-in, password change, reset and deletion

    The methods of [AppState] in [src/src/main.rs] that bind a user's seed to
    the user's credentials: the password verifier is stored encrypted, the seed
    is stored wrapped under each credential, and every change of a verifier
    rewraps the seed in the same transaction.  Random draws, the clock, password
    hashing, BIP39 and the secp256k1 key check are parameters; e-mails sent in
    the background are left out. *)

From S2P Require Import Prelude Text Crypto Encrypt SeedWrapping Claims Database.

(** [SecretKey::from_slice], [generate_hash] and [verify_password] of
    [password_auth], and [Mnemonic::from_entropy] (the phrase). *)
Class AccountDeps := {
  secret_from_slice : bytes -> option Encrypt.SecretKey;
  generate_hash : bytes -> string -> string;                   (* salt, password *)
  verify_password : string -> string -> bool;                  (* password, hash *)
  mnemonic_from_entropy : bytes -> option string;
}.
Class AccountDepsLaws (d : AccountDeps) : Prop := {
  secret_bytes_from_slice b k : secret_from_slice b = Some k -> Encrypt.secret_bytes k = b /\ length b = 32;
  hash_verifies salt p : verify_password p (generate_hash salt p) = true;
  hash_utf8 salt p : is_utf8 (generate_hash salt p) = true;
}.

Module Accounts.
Import Db.

(** The errors of [main.rs] these methods return. *)
Inductive message := FromEncrypt (e : Encrypt.EncryptError) | Literal (s : string).
Inductive Error :=
| DatabaseError (e : DBError) | UserNotFound | PrivateKeyGenerationFailure
| EncryptionError (m : message) | AuthenticationError | PasswordResetExpired
| InvalidPasswordResetSecret | InvalidPasswordResetRequest | AccountDeletionExpired
| InvalidAccountDeletionSecret | InvalidAccountDeletionRequest | UserAlreadyExists
| InvalidDerivationPath | KeyDerivationError | SigningError.

(** [generate_reset_hash]: SHA-256 in lower-case hexadecimal. *)
Definition hex_digit (n : nat) : ascii :=
  default "0"%char (String.get n "0123456789abcdef").
Fixpoint hex (b : bytes) : string :=
  match b with
  | [] => EmptyString
  | x :: b =>
      let n := nat_of_ascii (ascii_of_byte x) in
      String (hex_digit (n / 16)) (String (hex_digit (n mod 16)) (hex b))
  end.
Definition generate_reset_hash `{Crypto} (password : string) : string := hex (sha256 (as_bytes password)).

(** [generate_alphanumeric_code] on eight random bytes. *)
Definition CHARSET : string := "ABCDEFGHIJKLMNOPQRSTUVWXYZ0123456789".
Definition generate_alphanumeric_code (random_bytes : bytes) : string :=
  string_of_list_ascii
    ((fun b => default "A"%char (String.get (nat_of_ascii (ascii_of_byte b) mod 36) CHARSET)) <$> random_bytes).

(** The random values one call draws. *)
Record Draws := MkDraws {
  salt : bytes; password_nonce : bytes; seed_nonce : bytes; entropy : bytes; new_uuid : Uuid; code_bytes : bytes;
  verification_uuid : Uuid }.
Definition draws_ok (d : Draws) : Prop :=
  length (password_nonce d) = 12 /\ length (seed_nonce d) = 12 /\ length (entropy d) = 16.

(** [m?] where the error type differs, and [match m] on a result. *)
Definition db {A} (m : ST State DBError A) : ST State Error A := st_map_err DatabaseError m.
Definition enc {A} (m : outcome Encrypt.EncryptError A) : outcome Error A :=
  map_err (fun e => EncryptionError (FromEncrypt e)) m.
Definition st_try {E E' A} (m : ST State E A) : ST State E' (outcome E A) := fun s =>
  match m s with
  | (Panic, s) => (Panic, s)
  | (r, s) => (Ok r, s)
  end.

Record RegisterCredentials := MkCredentials {
  reg_name : option string; reg_email : option string; reg_password : string; reg_client_id : Uuid }.
Record AuthenticatedUser := MkAuthenticated { auth_user : User; auth_context : Claims.AuthContext }.

Section app.
Context `{Crypto, Citext, UuidText, AccountDeps}.
(** The enclave key, and the projects by client identifier. *)
Context (enclave_key : bytes) (projects : Uuid -> option Z).

Definition get_org_project_by_client_id (client : Uuid) : ST State DBError Z :=
  _ ← connection;
  p ← st_map_err QueryError (select (fun _ => projects client));
  st_lift (found OrgProjectNotFound p).

(** [SecretKey::from_slice(&self.enclave_key)]. *)
Definition enclave_secret : outcome Error Encrypt.SecretKey :=
  ok_or (EncryptionError (Literal "secp256k1")) (secret_from_slice enclave_key).

(** ** Bindings and contexts *)
Definition password_login_identifier_for_user (u : User) : SeedWrap.PasswordLoginIdentifierKind * string :=
  match email u with
  | Some e => (SeedWrap.Email, SeedWrap.normalize_email_login_identifier e)
  | None => (SeedWrap.GuestUuid, SeedWrap.normalize_guest_login_identifier uuid_to_string (uuid u))
  end.
Definition password_auth_binding_for_user (u : User) (verifier : string) : outcome Error SeedWrap.AuthBinding :=
  let '(kind, identifier) := password_login_identifier_for_user u in
  enc (SeedWrap.compute_password_auth_binding enclave_key (project_id u) (uuid u) kind identifier verifier).
Definition password_auth_context_for_user (u : User) (verifier : string) : outcome Error Claims.AuthContext :=
  b ← password_auth_binding_for_user u verifier;
  Ok (Claims.context_new Claims.Password (project_id u) (SeedWrap.binding_bytes b)).
Definition oauth_auth_binding_for_user (u : User) (provider_name provider_user : string)
    : outcome Error SeedWrap.AuthBinding :=
  enc (SeedWrap.compute_oauth_auth_binding enclave_key (project_id u) (uuid u) provider_name provider_user).
Definition oauth_auth_context_for_user (u : User) (provider_name provider_user : string)
    : outcome Error Claims.AuthContext :=
  b ← oauth_auth_binding_for_user u provider_name provider_user;
  Ok (Claims.context_new Claims.OAuth (project_id u) (SeedWrap.binding_bytes b)).

(** ** Opening a seed *)
Definition kind_of (m : Claims.AuthMethod) : SeedWrap.CredentialKind :=
  match m with Claims.Password => SeedWrap.Password | Claims.OAuth => SeedWrap.OAuth end.

(** The loop over the candidates. *)
Fixpoint try_candidates (u : User) (kind : SeedWrap.CredentialKind) (b : SeedWrap.AuthBinding)
    (candidates : list UserSeedWrapping) : outcome Error bytes :=
  match candidates with
  | [] => Err AuthenticationError
  | c :: candidates =>
      if decide (wrapping_version c <> SeedWrap.SEED_WRAP_VERSION_V1) then try_candidates u kind b candidates
      else match SeedWrap.decrypt_seed_v1 enclave_key (seed_enc c) (uuid u) (project_id u) kind b with
           | Ok seed => Ok seed
           | Err _ => try_candidates u kind b candidates
           | Panic => Panic
           end
  end.
Definition decrypt_seed_for_auth_context (u : User) (c : Claims.AuthContext) : ST State Error bytes :=
  if decide (project_id u <> Claims.c_project_id c) then st_err AuthenticationError
  else
    let kind := kind_of (Claims.method c) in
    candidates ← db (get_user_seed_wrappings_for_user_and_kind (uuid u) (SeedWrap.CredentialKind_as_str kind));
    st_lift (try_candidates u kind (SeedWrap.MkBinding (Claims.c_auth_binding c)) candidates).
Definition verify_seed_wrap_for_auth_context (u : User) (c : Claims.AuthContext) : ST State Error unit :=
  _ ← decrypt_seed_for_auth_context u c; st_ok tt.

(** ** Wrapping a seed *)
Definition verify_new_password_seed_wrapping_for_user (u : User) (verifier : string) (seed : bytes)
    (n : NewUserSeedWrapping) : outcome Error unit :=
  b ← password_auth_binding_for_user u verifier;
  decrypted ← enc (SeedWrap.decrypt_seed_v1 enclave_key (nw_seed_enc n) (uuid u) (project_id u) SeedWrap.Password b);
  if decide (decrypted <> seed)
  then Err (EncryptionError (Literal "New password seed wrap verification failed")) else Ok tt.

Definition new_password_seed_wrapping_for_user (nonce : bytes) (u : User) (verifier : string) (seed : bytes)
    : outcome Error NewUserSeedWrapping :=
  b ← password_auth_binding_for_user u verifier;
  lookup ← enc (SeedWrap.password_credential_lookup_hash enclave_key (project_id u) (uuid u));
  seed_enc ← enc (SeedWrap.encrypt_seed_v1 nonce enclave_key seed (uuid u) (project_id u) SeedWrap.Password b);
  let n := MkNewWrapping (uuid u) (SeedWrap.CredentialKind_as_str SeedWrap.Password)
             (SeedWrap.lookup_bytes lookup) SeedWrap.SEED_WRAP_VERSION_V1 seed_enc in
  _ ← verify_new_password_seed_wrapping_for_user u verifier seed n;
  Ok n.

Definition verify_new_oauth_seed_wrapping_for_user (u : User) (provider_name provider_user : string)
    (seed : bytes) (n : NewUserSeedWrapping) : outcome Error unit :=
  b ← oauth_auth_binding_for_user u provider_name provider_user;
  decrypted ← enc (SeedWrap.decrypt_seed_v1 enclave_key (nw_seed_enc n) (uuid u) (project_id u) SeedWrap.OAuth b);
  if decide (decrypted <> seed)
  then Err (EncryptionError (Literal "New OAuth seed wrap verification failed")) else Ok tt.

Definition new_oauth_seed_wrapping_for_user (nonce : bytes) (u : User) (provider_name provider_user : string)
    (seed : bytes) : outcome Error NewUserSeedWrapping :=
  b ← oauth_auth_binding_for_user u provider_name provider_user;
  lookup ← enc (SeedWrap.oauth_credential_lookup_hash enclave_key (project_id u) (uuid u) provider_name provider_user);
  seed_enc ← enc (SeedWrap.encrypt_seed_v1 nonce enclave_key seed (uuid u) (project_id u) SeedWrap.OAuth b);
  let n := MkNewWrapping (uuid u) (SeedWrap.CredentialKind_as_str SeedWrap.OAuth)
             (SeedWrap.lookup_bytes lookup) SeedWrap.SEED_WRAP_VERSION_V1 seed_enc in
  _ ← verify_new_oauth_seed_wrapping_for_user u provider_name provider_user seed n;
  Ok n.

(** ** Creating users *)
Definition query_error (e : DieselError) : Error := DatabaseError (QueryError e).
Definition pool_connection : ST State Error unit := db connection.

Definition create_user_with_password_seed_wrap (now : Z) (d : Draws) (n : NewUser) (verifier : string)
    (seed : bytes) : ST State Error User :=
  _ ← pool_connection;
  transaction query_error (
    u ← st_map_err (DatabaseError ∘ UserError) (user_insert now (new_uuid d) n);
    w ← st_lift (new_password_seed_wrapping_for_user (seed_nonce d) u verifier seed);
    _ ← st_map_err (DatabaseError ∘ UserSeedWrappingError) (wrapping_upsert_by_credential now w);
    st_ok u).

Definition create_user_with_oauth_seed_wrap (now : Z) (d : Draws) (n : NewUser) (provider : Z)
    (provider_name provider_user : string) (token_enc seed : bytes) : ST State Error User :=
  _ ← pool_connection;
  transaction query_error (
    u ← st_map_err (DatabaseError ∘ UserError) (user_insert now (new_uuid d) n);
    _ ← st_map_err (DatabaseError ∘ OAuthError ∘ OAuthDatabaseError)
      (oauth_insert now (MkNewConnection (uuid u) provider provider_user token_enc None None));
    w ← st_lift (new_oauth_seed_wrapping_for_user (seed_nonce d) u provider_name provider_user seed);
    _ ← st_map_err (DatabaseError ∘ UserSeedWrappingError) (wrapping_upsert_by_credential now w);
    _ ← st_map_err (DatabaseError ∘ EmailVerificationError) 
      (verification_insert now (verification_new now (uuid u) (verification_uuid d) 24 true));
    st_ok u).

(** [generate_twelve_word_seed]. *)
Definition generate_twelve_word_seed (d : Draws) : outcome Error string :=
  ok_or PrivateKeyGenerationFailure (mnemonic_from_entropy (entropy d)).

(** [encrypt_user_password_verifier]. *)
Definition encrypt_user_password_verifier (d : Draws) (new_password : string) : outcome Error (string * bytes) :=
  let password_hash := generate_hash (salt d) new_password in
  secret_key ← enclave_secret;
  encrypted_password ← lift (Encrypt.encrypt_with_key (password_nonce d) secret_key (as_bytes password_hash));
  Ok (password_hash, encrypted_password).

Definition register_user (now : Z) (d : Draws) (creds : RegisterCredentials) : ST State Error User :=
  project ← st_map_err (fun _ => DatabaseError OrgProjectNotFound)
    (get_org_project_by_client_id (reg_client_id creds));
  _ ← match reg_email creds with
      | Some e =>
          r ← st_try (get_user_by_email e project);
          match r with
          | Ok _ => st_err UserAlreadyExists
          | Err Db.UserNotFound => st_ok tt
          | Err e => st_err (DatabaseError e)
          | Panic => st_lift Panic
          end
      | None => st_ok tt
      end;
  '(password_hash, encrypted_pw) ← st_lift (encrypt_user_password_verifier d (reg_password creds));
  words ← st_lift (generate_twelve_word_seed d);
  create_user_with_password_seed_wrap now d
    (MkNewUser (reg_name creds) (reg_email creds) (Some encrypted_pw) project) password_hash (as_bytes words).

(** ** Signing in *)
Definition authenticate_user (user_email : option string) (user_id : option Uuid) (user_password : string)
    (user_project_id : Z) : ST State Error (option AuthenticatedUser) :=
  if bool_decide (user_email = None) && bool_decide (user_id = None) then st_err AuthenticationError
  else
    u ← match user_email with
        | Some e => db (get_user_by_email e user_project_id)
        | None =>
            id ← st_lift (expect user_id);
            u ← db (get_user_by_uuid id);
            if decide (project_id u <> user_project_id) then st_err AuthenticationError else st_ok u
        end;
    match password_enc u with
    | None => st_ok None
    | Some password_enc =>
        secret_key ← st_lift enclave_secret;
        decrypted ← st_lift (enc (Encrypt.decrypt_with_key secret_key password_enc));
        hash ← st_lift (ok_or (EncryptionError (Literal "Failed to decode UTF-8")) (from_utf8 decrypted));
        if verify_password user_password hash then
          c ← st_lift (password_auth_context_for_user u hash);
          _ ← verify_seed_wrap_for_auth_context u c;
          st_ok (Some (MkAuthenticated u c))
        else st_ok None
    end.

Definition get_user (id : Uuid) : ST State Error User := st_map_err (fun _ => UserNotFound) (get_user_by_uuid id).

(** ** Changing a password *)
Definition stale_to_auth (e : DBError) : Error :=
  match e with StaleCredentialState => AuthenticationError | e => DatabaseError e end.

Definition update_user_password_and_seed_wrap (now : Z) (d : Draws) (u : User) (c : Claims.AuthContext)
    (new_password : string) : ST State Error Claims.AuthContext :=
  expected_password_enc ← st_lift (ok_or AuthenticationError (password_enc u));
  plaintext_seed ← decrypt_seed_for_auth_context u c;
  '(password_hash, encrypted_password) ← st_lift (encrypt_user_password_verifier d new_password);
  new_wrapping ← st_lift (new_password_seed_wrapping_for_user (seed_nonce d) u password_hash plaintext_seed);
  new_auth_context ← st_lift (password_auth_context_for_user u password_hash);
  _ ← st_map_err stale_to_auth
    (Db.update_user_password_and_seed_wrap now u expected_password_enc encrypted_password new_wrapping);
  _ ← verify_seed_wrap_for_auth_context u new_auth_context;
  st_ok new_auth_context.

(** ** Resetting a password *)
Definition create_password_reset_request (now : Z) (d : Draws) (user_email hashed_secret : string) (project : Z)
    : ST State Error string :=
  let code := generate_alphanumeric_code (code_bytes d) in
  r ← st_try (get_user_by_email user_email project);
  match r with
  | Ok u =>
      if bool_decide (is_Some (email u)) && bool_decide (is_Some (password_enc u)) then
        mac ← st_lift (enc (SeedWrap.password_reset_code_mac enclave_key project (uuid u) code));
        _ ← db (Db.create_password_reset_request now (reset_new now (uuid u) hashed_secret mac 24));
        st_ok code
      else st_ok code
  | _ => st_ok code
  end.

Definition confirm_password_reset (now : Z) (d : Draws)
    (user_email alphanumeric_code plaintext_secret new_password : string) (project : Z) : ST State Error unit :=
  u ← db (get_user_by_email user_email project);
  if bool_decide (email u = None) || bool_decide (password_enc u = None) then st_err UserNotFound
  else
    mac ← st_lift (enc (SeedWrap.password_reset_code_mac enclave_key project (uuid u) alphanumeric_code));
    reset_request ← db (get_password_reset_request_by_user_id_and_code (uuid u) mac);
    match reset_request with
    | None => st_err InvalidPasswordResetRequest
    | Some request =>
        if reset_is_expired now request then st_err PasswordResetExpired
        else if decide (generate_reset_hash plaintext_secret = r_hashed_secret request) then
          words ← st_lift (generate_twelve_word_seed d);
          '(password_hash, encrypted_password) ← st_lift (encrypt_user_password_verifier d new_password);
          new_wrapping ← st_lift
            (new_password_seed_wrapping_for_user (seed_nonce d) u password_hash (as_bytes words));
          _ ← st_lift (verify_new_password_seed_wrapping_for_user u password_hash (as_bytes words) new_wrapping);
          db (complete_destructive_password_reset now u request encrypted_password new_wrapping)
        else st_err InvalidPasswordResetSecret
    end.

(** ** Deleting an account *)
Definition create_account_deletion_request (now : Z) (d : Draws) (user_id : Uuid) (hashed_secret : string)
    (project : Z) : ST State Error unit :=
  r ← st_try (get_user_by_uuid user_id);
  match r with
  | Ok u =>
      if decide (project_id u <> project) then st_err UserNotFound
      else
        secret_key ← st_lift enclave_secret;
        encrypted_code ← st_lift (lift (Encrypt.encrypt_key_deterministic secret_key (new_uuid d)));
        _ ← db (Db.create_account_deletion_request now (deletion_new now (uuid u) project hashed_secret encrypted_code 24));
        st_ok tt
  | _ => st_ok tt
  end.

Definition confirm_account_deletion (now : Z) (user_id : Uuid) (confirmation_code plaintext_secret : string)
    : ST State Error unit :=
  u ← db (get_user_by_uuid user_id);
  code ← st_lift (ok_or InvalidAccountDeletionRequest (uuid_parse_str confirmation_code));
  secret_key ← st_lift enclave_secret;
  encrypted_code ← st_lift (lift (Encrypt.encrypt_key_deterministic secret_key code));
  deletion_request ← db (get_account_deletion_request_by_user_id_and_code now (uuid u) encrypted_code);
  match deletion_request with
  | None => st_err InvalidAccountDeletionRequest
  | Some request =>
      if deletion_is_expired now request then st_err AccountDeletionExpired
      else if decide (generate_reset_hash plaintext_secret = d_hashed_secret request) then
        db (mark_and_delete_user now u request)
      else st_err InvalidAccountDeletionSecret
  end.
End app.
End Accounts.

(** ** An executable instance, for the examples *)
Module ToyAccounts.
#[export] Instance toy_citext : Citext := String.eqb.
#[export] Instance toy_uuid : UuidText := {| uuid_to_string := ToyCrypto.hex; uuid_parse_str := ToyCrypto.unhex |}.
#[export] Instance toy_uuid_laws : UuidTextLaws toy_uuid.
Proof. intros b _. apply ToyCrypto.unhex_hex. Qed.

#[export] Instance toy_accounts : AccountDeps := {|
  secret_from_slice b := if decide (length b = 32) then Some (Encrypt.MkSecretKey b) else None;
  generate_hash salt p := ToyCrypto.hex (salt ++ as_bytes p);
  verify_password p h :=
    match ToyCrypto.unhex h with
    | Some b => bool_decide (drop (length b - length (as_bytes p)) b = as_bytes p)
    | None => false
    end;
  mnemonic_from_entropy e := Some (ToyCrypto.hex e);
|}.

Lemma hex_digits_ascii x :
  (nat_of_ascii (ToyCrypto.hex_digit (nat_of_ascii (ascii_of_byte x) / 16)) <? 128) = true /\
  (nat_of_ascii (ToyCrypto.hex_digit (nat_of_ascii (ascii_of_byte x) mod 16)) <? 128) = true.
Proof. destruct x; by vm_compute. Qed.

Lemma utf8_ascii n l fuel : (n <? 128) = true -> utf8_ok (S fuel) (n :: l) = utf8_ok fuel l.
Proof. intros Hn. cbn [utf8_ok]. unfold utf8_chunk, followers. by rewrite Hn. Qed.

Lemma hex_utf8 b : is_utf8 (ToyCrypto.hex b) = true.
Proof.
  induction b as [|x b IH]; [done|]. unfold is_utf8 in *. destruct (hex_digits_ascii x) as [H1 H2].
  cbn [ToyCrypto.hex]. unfold str_len, codes in *. cbn [String.length list_ascii_of_string fmap list_fmap].
  by rewrite (utf8_ascii _ _ _ H1), (utf8_ascii _ _ _ H2).
Qed.

#[export] Instance toy_account_laws : AccountDepsLaws toy_accounts.
Proof.
  split; cbn; intros; [|by rewrite ToyCrypto.unhex_hex, length_app, Nat.add_sub, drop_app_length, bool_decide_true|apply hex_utf8].
  case_decide; by simplify_eq.
Qed.
End ToyAccounts.
