(* ===== verification/Frames.v ===== *)
(** * What a call keeps of the tables

    A call stays within a preorder on the tables if every statement of it does,
    whatever fails: transactions that fail are rolled back. *)

From S2P Require Import Prelude Database Accounts.

Module Frames.
Import Db Accounts.

Section within.
Context (R : relation Tables) `{!PreOrder R}.

Definition within {E A} (m : ST State E A) : Prop := forall s r s', m s = (r, s') -> R (tables s) (tables s').

Lemma within_reads {E A} (m : ST State E A) : reads m -> within m.
Proof. intros Hm s r s' ->%Hm. done. Qed.
Lemma within_bind {E A B} (m : ST State E A) (f : A -> ST State E B) :
  within m -> (forall a, within (f a)) -> within (x ← m; f x).
Proof.
  intros Hm Hf s r s' (r0 & s1 & H1%Hm & H2)%bind_cases. etransitivity; [exact H1|].
  destruct r0 as [a| |]; [by eapply Hf|by destruct H2 as [_ ->]..].
Qed.
Lemma within_map_err {E E' A} (f : E -> E') (m : ST State E A) : within m -> within (st_map_err f m).
Proof. intros Hm s r s' (r0 & Hs & _)%st_map_err_inv. by eapply Hm. Qed.
Lemma within_try {E E' A} (m : ST State E A) : within m -> within (@st_try E E' A m).
Proof. intros Hm s r s'. unfold st_try. destruct (m s) as [r0 s0] eqn:Hs. destruct r0; intros [= _ <-]; by eapply Hm. Qed.
Lemma within_statement {A} (f : Z -> Tables -> outcome DieselError (A * Tables)) :
  (forall n t a t', f n t = Ok (a, t') -> R t t') -> within (statement f).
Proof.
  intros Hf s r s' Hs. destruct r as [a|e|].
  - apply statement_Ok in Hs. by eapply Hf.
  - by rewrite (statement_not_ok _ _ _ _ Hs) by (by intros ?).
  - by rewrite (statement_not_ok _ _ _ _ Hs) by (by intros ?).
Qed.
Lemma within_execute {A} (f : Z -> Tables -> A * Tables) : (forall n t, R t (f n t).2) -> within (execute f).
Proof. intros Hf. apply within_statement. intros n t a t' [= He]. specialize (Hf n t). by rewrite He in Hf. Qed.
Lemma within_transaction {E A} (from : DieselError -> E) (body : ST State E A) : within body -> within (transaction from body).
Proof.
  intros Hb s r s' [(a & s1 & s2 & _ & H1 & H2%Hb & ->)|[_ ->]]%transaction_inv; [by rewrite <- H1|done].
Qed.
End within.

Lemma within_mono (R R' : relation Tables) {E A} (m : ST State E A) :
  (forall t t', R t t' -> R' t t') -> within R m -> within R' m.
Proof. intros HR Hm s r s' Hs. by eapply HR, Hm. Qed.

(** Follow a program down to the statements that write. *)
Ltac by_reads tac := apply within_reads; [apply _|tac].
Ltac walk :=
  repeat first
    [ by_reads ltac:(first [apply reads_lift|apply reads_ok|apply reads_err|apply reads_connection|apply reads_select])
    | apply within_map_err | apply within_try | apply within_transaction; [apply _|]
    | apply within_bind; [apply _| |intros ?]
    | match goal with
      | |- within _ (match ?x with _ => _ end) => destruct x
      | |- within _ (let '(_, _) := ?x in _) => destruct x
      end ].

(** A statement, after the cases of what it writes. *)
Ltac at_statement tac :=
  first
    [ apply within_execute; [apply _|intros ? ?; cbn; tac]
    | apply within_statement; [apply _|
        let He := fresh in intros ? ? ? ? He; unfold references in He; repeat (case_match; simplify_eq/=); tac] ].
Ltac head_of t := lazymatch t with ?f _ => head_of f | _ => t end.
Ltac unfold_head :=
  match goal with
  | |- within _ ?m => let h := head_of m in lazymatch h with @statement => fail | _ => unfold h end
  end.
(** The whole program: [stop] closes the calls with lemmas of their own, [reading]
    those that only read, [writing] the statements. *)
Ltac walk_all stop reading writing :=
  repeat first [stop | progress walk | by_reads reading | at_statement writing | unfold_head].
End Frames.
