(* ===== verification/Credentials.v ===== *)
(** * The invariant of the stored credentials

    What the database transactions of [Accounts] do to the users and to the
    seed wrappings, and the invariant they keep however the requests that issue
    them interleave: whoever has a password verifier has exactly one password
    wrapping, and it opens under that verifier. *)

From S2P Require Import Prelude Text Crypto Encrypt SeedWrapping Claims Database Accounts.

Module Credentials.
Import Db Accounts.

(** Splits a successful run into the successful runs of its statements. *)
Ltac inv_run :=
  repeat match goal with
  | H : mbind _ _ _ = (Ok _, _) |- _ => apply ST_bind_Ok in H as (? & ? & ? & H)
  | H : st_map_err _ _ _ = (Ok _, _) |- _ => apply st_map_err_Ok in H
  | H : db _ _ = (Ok _, _) |- _ => apply st_map_err_Ok in H
  | H : st_lift _ _ = (Ok _, _) |- _ => apply st_lift_inv in H as [? ->]
  | H : st_ok _ _ = (Ok _, _) |- _ => injection H as ? ?; subst
  | H : st_err _ _ = (Ok _, _) |- _ => discriminate H
  | H : (if decide _ then _ else _) _ = (Ok _, _) |- _ => case_decide
  end.

Definition untouched (s s' : State) : Prop := tables s' = tables s.

(** A run that ended early and changed nothing. *)
Ltac unchanged := left; unfold untouched in *; split; congruence.

Section effects.
Context {cr : Crypto} {ci : Citext} {ut : UuidText} {ad : AccountDeps}.
Context (enclave_key : bytes).

(** What makes two rows the same login: nothing an account operation changes. *)
Definition same_login (u u' : User) : Prop :=
  uuid u = uuid u' /\ email u = email u' /\ project_id u = project_id u'.

Definition opens (u : User) (verifier : string) (seed wrapped : bytes) : Prop :=
  exists b, password_auth_binding_for_user enclave_key u verifier = Ok b /\
    SeedWrap.decrypt_seed_v1 enclave_key wrapped (uuid u) (project_id u) SeedWrap.Password b = Ok seed.

(** The stored ciphertext [enc] holds the verifier [hash]. *)
Definition stored (enc : bytes) (hash : string) : Prop :=
  exists k, enclave_secret enclave_key = Ok k /\ Encrypt.decrypt_with_key k enc = Ok (as_bytes hash) /\
    from_utf8 (as_bytes hash) = Some hash.

#[export] Instance same_login_trans : Transitive same_login.
Proof. unfold same_login. intros u v w (-> & -> & ->). done. Qed.

Lemma opens_same u u' v seed c : same_login u u' -> opens u v seed c -> opens u' v seed c.
Proof.
  intros (Hu & He & Hp) (b & Hb & Hd). exists b.
  unfold password_auth_binding_for_user, password_login_identifier_for_user in *. by rewrite <- Hu, <- He, <- Hp.
Qed.

Definition password_kind : string := SeedWrap.CredentialKind_as_str SeedWrap.Password.

Lemma new_wrapping_opens nonce u v seed n :
  new_password_seed_wrapping_for_user enclave_key nonce u v seed = Ok n ->
  nw_user_id n = uuid u /\ nw_credential_kind n = password_kind /\
  nw_wrapping_version n = SeedWrap.SEED_WRAP_VERSION_V1 /\ opens u v seed (nw_seed_enc n).
Proof.
  unfold new_password_seed_wrapping_for_user, verify_new_password_seed_wrapping_for_user, enc.
  intros (b & Hb & Hn)%bind_Ok. rewrite Hb in Hn. cbn [mbind outcome_bind] in Hn. inv_ok. cbn [nw_user_id
    nw_credential_kind nw_wrapping_version nw_seed_enc].
  split_and!; [done..|]. exists b. split; [done|]. case_decide as Hs; [done|].
  by subst.
Qed.

Lemma stored_verifier {cl : CryptoLaws cr} {al : AccountDepsLaws ad} d password hash c :
  length (password_nonce d) = 12 -> encrypt_user_password_verifier enclave_key d password = Ok (hash, c) ->
  hash = generate_hash (salt d) password /\ stored c hash.
Proof.
  intros Hn. unfold encrypt_user_password_verifier. intros (k & Hk & He)%bind_Ok. inv_ok. split; [done|].
  exists k. split; [done|]. unfold enclave_secret in Hk. apply ok_or_Ok, secret_bytes_from_slice in Hk as [Hb Hl].
  destruct k as [k]. cbn in Hb. subst k. split; [by eapply Encrypt.with_key_exact|].
  unfold from_utf8. by rewrite of_as_bytes, hash_utf8.
Qed.

(** ** What the transactions do *)
Definition no_user (id : Uuid) (t : Tables) : Prop := forall u, u ∈ users t -> uuid u <> id.
Definition owners (t : Tables) : Prop :=
  forall w, w ∈ seed_wrappings t -> exists u, u ∈ users t /\ uuid u = w_user_id w.

Lemma is_user_true id u : is_user id u = true <-> uuid u = id.
Proof. apply bool_decide_eq_true. Qed.

Lemma user_insert_Ok now fresh n s u s' :
  user_insert now fresh n s = (Ok u, s') ->
  no_user fresh (tables s) /\ u = MkUser (serial s) fresh (n_name n) (n_email n) (n_password_enc n) now now (n_project_id n) /\
  tables s' = set_users (users (tables s) ++ [u]) (tables s).
Proof.
  intros Hs%statement_Ok. destruct (existsb _ _) eqn:He; [done|]. injection Hs as <- <-.
  split_and!; [|done..]. intros u' Hu' Hid. apply not_true_iff_false in He. apply He, existsb_elem.
  exists u'. split; [done|]. apply orb_true_iff. left. by apply is_user_true.
Qed.

Lemma references_Ok {A} id t (r : outcome DieselError (A * Tables)) x :
  references id t r = Ok x -> (exists u, u ∈ users t /\ uuid u = id) /\ r = Ok x.
Proof.
  unfold references. destruct (existsb _ _) eqn:He; [|done]. apply existsb_elem in He as (u & Hu & Hid%is_user_true). eauto.
Qed.

Lemma wrapping_insert_Ok now n s w s' :
  wrapping_insert now n s = (Ok w, s') ->
  w = wrapping_row (serial s) now n /\
  tables s' = set_seed_wrappings (seed_wrappings (tables s) ++ [w]) (tables s).
Proof. intros [_ Hs]%statement_Ok%references_Ok. destruct (existsb _ _); [done|]. by injection Hs as <- <-. Qed.

(** An upsert for a user without wrappings of the kind is an insertion. *)
Lemma wrapping_upsert_new now n s w s' :
  matching_rows (wrapping_of (nw_user_id n) (nw_credential_kind n)) (seed_wrappings (tables s)) = [] ->
  wrapping_upsert_by_credential now n s = (Ok w, s') ->
  w = wrapping_row (serial s) now n /\
  tables s' = set_seed_wrappings (seed_wrappings (tables s) ++ [w]) (tables s).
Proof.
  intros Hnone [_ Hs]%statement_Ok%references_Ok. rewrite first_None in Hs; [by injection Hs as <- <-|].
  apply matching_none. intros w' Hw'. unfold same_credential.
  destruct (wrapping_of _ _ _) eqn:Hof; [|done].
  assert (w' ∈ matching_rows (wrapping_of (nw_user_id n) (nw_credential_kind n)) (seed_wrappings (tables s))) as Hin
    by (by apply elem_of_matching). rewrite Hnone in Hin. by apply elem_of_nil in Hin.
Qed.

Lemma wrapping_of_owner id kind w : wrapping_of id kind w = true -> w_user_id w = id.
Proof. unfold wrapping_of. by intros [Hw%bool_decide_eq_true _]%andb_true_iff. Qed.

Lemma no_wrappings_without_user id kind t :
  owners t -> no_user id t -> matching_rows (wrapping_of id kind) (seed_wrappings t) = [].
Proof.
  intros Ho Hn. apply matching_none. intros w Hw. apply not_true_iff_false. intros Hof%wrapping_of_owner.
  destruct (Ho w Hw) as (u & Hu & Hid). apply (Hn u Hu). congruence.
Qed.

Lemma reads_pool : reads pool_connection.
Proof. apply reads_map_err, reads_connection. Qed.

(** A connection and a transaction: the body ran from the tables of [s], or nothing changed. *)
Lemma call_inv {A} (c : ST State Error unit) (from : DieselError -> Error) (body : ST State Error A) s r s' :
  reads c -> (_ ← c; transaction from body) s = (r, s') ->
  (exists a s1 s2, r = Ok a /\ tables s1 = tables s /\ body s1 = (Ok a, s2) /\ tables s' = tables s2) \/
  (not_ok r /\ untouched s s').
Proof.
  intros Hc [([] & s0 & H1 & H2)|(r' & H1 & _ & Hr)]%ST_bind_inv; [|right; split; [done|by eapply Hc]].
  apply Hc in H1. apply transaction_inv in H2 as [(a & s1 & s2 & ? & ? & ? & ?)|[? ?]].
  - left. exists a, s1, s2. split_and!; congruence.
  - right. unfold untouched. split; congruence.
Qed.

Lemma register_effect now d n v seed s r s' :
  owners (tables s) -> create_user_with_password_seed_wrap enclave_key now d n v seed s = (r, s') ->
  (not_ok r /\ untouched s s') \/
  exists u w nw, r = Ok u /\ no_user (new_uuid d) (tables s) /\
    uuid u = new_uuid d /\ email u = n_email n /\ project_id u = n_project_id n /\ password_enc u = n_password_enc n /\
    new_password_seed_wrapping_for_user enclave_key (seed_nonce d) u v seed = Ok nw /\
    (exists id, w = wrapping_row id now nw) /\
    tables s' = set_seed_wrappings (seed_wrappings (tables s) ++ [w]) (set_users (users (tables s) ++ [u]) (tables s)).
Proof.
  intros Ho [(u & s1 & s2 & -> & Ht1 & Hb & Ht2)|?]%call_inv; [|by left|apply reads_pool]. right.
  apply ST_bind_Ok in Hb as (u' & s3 & Hins%st_map_err_Ok & Hb).
  apply ST_bind_Ok in Hb as (nw & s4 & [Hw ->]%st_lift_inv & Hb).
  apply ST_bind_Ok in Hb as (w & s5 & Hup%st_map_err_Ok & Hb). injection Hb as -> ->.
  apply user_insert_Ok in Hins as (Hno & Hu & Htu). rewrite Ht1 in Hno, Htu.
  pose proof (new_wrapping_opens _ _ _ _ _ (eq_sym Hw)) as (Hid & Hkind & _ & _).
  apply wrapping_upsert_new in Hup as [Hw2 Htw].
  - exists u, w, nw. rewrite Ht2, Htw, Htu, Hu. cbn. split_and!; try done; [by rewrite <- Hu|by eexists].
  - rewrite Htu. cbn. apply no_wrappings_without_user; [done|]. by rewrite Hid, Hu.
Qed.

Lemma new_oauth_wrapping_facts nonce u pn pu seed n :
  new_oauth_seed_wrapping_for_user enclave_key nonce u pn pu seed = Ok n ->
  nw_user_id n = uuid u /\ nw_credential_kind n = "oauth".
Proof. unfold new_oauth_seed_wrapping_for_user. intros Hn. inv_ok. done. Qed.

Lemma oauth_insert_Ok now n s o s' :
  oauth_insert now n s = (Ok o, s') -> users (tables s') = users (tables s) /\
    seed_wrappings (tables s') = seed_wrappings (tables s).
Proof.
  intros Hs%statement_Ok. destruct (existsb (same_connection n) _); [done|]. apply references_Ok in Hs as [_ Hs].
  destruct (existsb _ _); [|done]. by injection Hs as _ <-.
Qed.
Lemma verification_insert_Ok now n s v s' :
  verification_insert now n s = (Ok v, s') -> users (tables s') = users (tables s) /\
    seed_wrappings (tables s') = seed_wrappings (tables s).
Proof. intros [_ Hs]%statement_Ok%references_Ok. by injection Hs as _ <-. Qed.

Lemma oauth_effect now d n p pn pu tok seed s r s' :
  owners (tables s) -> create_user_with_oauth_seed_wrap enclave_key now d n p pn pu tok seed s = (r, s') ->
  (not_ok r /\ untouched s s') \/
  exists u w, r = Ok u /\ no_user (new_uuid d) (tables s) /\
    uuid u = new_uuid d /\ email u = n_email n /\ project_id u = n_project_id n /\ password_enc u = n_password_enc n /\
    w_user_id w = new_uuid d /\ users (tables s') = users (tables s) ++ [u] /\
    seed_wrappings (tables s') = seed_wrappings (tables s) ++ [w].
Proof.
  intros Ho [(u & s1 & s2 & -> & Ht1 & Hb & Ht2)|?]%call_inv; [|by left|apply reads_pool]. right.
  apply ST_bind_Ok in Hb as (u' & s3 & Hins%st_map_err_Ok & Hb).
  apply ST_bind_Ok in Hb as (o & s4 & [Huo Hwo]%st_map_err_Ok%oauth_insert_Ok & Hb).
  apply ST_bind_Ok in Hb as (nw & s5 & [Hw ->]%st_lift_inv & Hb).
  apply ST_bind_Ok in Hb as (w & s6 & Hup%st_map_err_Ok & Hb).
  apply ST_bind_Ok in Hb as (ev & s7 & [Huv Hwv]%st_map_err_Ok%verification_insert_Ok & Hb). injection Hb as -> ->.
  apply user_insert_Ok in Hins as (Hno & Hu & Htu). rewrite Ht1 in Hno, Htu.
  pose proof (new_oauth_wrapping_facts _ _ _ _ _ _ (eq_sym Hw)) as (Hid & Hkind).
  assert (uuid u = new_uuid d) as Huid by (by rewrite Hu).
  apply wrapping_upsert_new in Hup as [Hw2 Htw].
  - exists u, w. rewrite Ht2, Huv, Hwv, Htw. cbn. rewrite Huo, Hwo, Htu, Hu, Hw2. cbn. split_and!; try done.
    by rewrite Hid.
  - rewrite Hwo, Htu. cbn. apply no_wrappings_without_user; [done|]. by rewrite Hid, Huid.
Qed.

Definition set_verifier (now : Z) (c : bytes) (u : User) : User :=
  MkUser (u_id u) (uuid u) (name u) (email u) (Some c) (u_created_at u) now (project_id u).

Lemma change_effect now u old new nw s r s' :
  Db.update_user_password_and_seed_wrap now u old new nw s = (r, s') ->
  (not_ok r /\ untouched s s') \/
  r = Ok tt /\
  length (matching_rows (fun v => is_user (uuid u) v && bool_decide (password_enc v = Some old)) (users (tables s))) = 1 /\
  exists id, tables s' =
    set_seed_wrappings (delete_rows (wrapping_of (uuid u) password_kind) (seed_wrappings (tables s)) ++ [wrapping_row id now nw])
      (set_users (update_rows (fun v => is_user (uuid u) v && bool_decide (password_enc v = Some old))
                    (set_verifier now new) (users (tables s))) (tables s)).
Proof.
  intros [([] & s0 & H1%reads_connection & H2)|(r' & H1%reads_connection & _ & Hr)]%ST_bind_inv; [|by left].
  apply transaction_inv in H2 as [(a & s1 & s2 & -> & Ht1 & Hb & Ht2)|[? ?]]; [|left; unfold untouched; split; congruence].
  right. apply ST_bind_Ok in Hb as (n & s3 & Hup%st_map_err_Ok%execute_Ok & Hb). case_decide as Hn; [done|].
  apply ST_bind_Ok in Hb as (k & s4 & Hdel%st_map_err_Ok%execute_Ok & Hb).
  apply ST_bind_Ok in Hb as (w & s5 & [Hw Htw]%st_map_err_Ok%wrapping_insert_Ok & Hb). injection Hb as -> ->.
  injection Hup as Hlen Hs3. injection Hdel as _ Hs4. subst w.
  rewrite Ht1, H1 in Hlen, Hs3.
  rewrite <- Hlen in Hn.
  split_and!; [by destruct a|done|]. exists (serial s4). by rewrite Ht2, Htw, <- Hs4, <- Hs3.
Qed.

Lemma delete_each_Ok names id s s' :
  delete_each names id s = (Ok tt, s') ->
  tables s' = set_owned (filter (fun r => ~ (r.1 ∈ names /\ r.2 = id)) (owned (tables s))) (tables s).
Proof.
  revert s. induction names as [|n names IH]; intros s Hd; cbn in Hd.
  - injection Hd as <-. rewrite filter_all; [by destruct (tables s)|]. apply Forall_forall. set_solver.
  - apply ST_bind_Ok in Hd as ([] & s1 & [= Hs1]%execute_Ok & ->%IH). rewrite <- Hs1. unfold set_owned. cbn.
    f_equal. unfold delete_rows. rewrite list_filter_filter. apply list_filter_iff. intros [m o].
    rewrite bool_decide_eq_false. cbn. set_solver.
Qed.

Definition pending (now : Z) (id : Uuid) (request : PasswordResetRequest) (r : PasswordResetRequest) : bool :=
  bool_decide (r_id r = r_id request) && bool_decide (r_user_id r = id) && negb (is_reset r)
  && bool_decide (now < r_expiration_time r)%Z.

Definition reset_tables (now : Z) (u : User) (request : PasswordResetRequest) (c : bytes) (w : UserSeedWrapping)
    (t : Tables) : Tables :=
  MkTables (update_rows (is_user (uuid u)) (set_verifier now c) (users t))
    (delete_rows (fun w => bool_decide (w_user_id w = uuid u)) (seed_wrappings t) ++ [w])
    (delete_rows (fun k => bool_decide (k_user_id k = uuid u)) (user_kv t))
    (update_rows (fun r => bool_decide (r_user_id r = uuid u) && negb (bool_decide (r_id r = r_id request)) && negb (is_reset r))
       mark_reset (update_rows (pending now (uuid u) request) mark_reset (password_reset_requests t)))
    (account_deletion_requests t)
    (delete_rows (fun o => bool_decide (o_user_id o = uuid u)) (oauth_connections t))
    (email_verifications t) (oauth_providers t) (user_api_keys t)
    (filter (fun r => ~ (r.1 ∈ TABLES_BEFORE_KV ++ TABLES_AFTER_KV /\ r.2 = uuid u)) (owned t)).

Lemma reset_effect now u request c nw s r s' :
  nw_user_id nw = uuid u -> complete_destructive_password_reset now u request c nw s = (r, s') ->
  (not_ok r /\ untouched s s') \/
  r = Ok tt /\ (exists v, v ∈ users (tables s) /\ uuid v = uuid u) /\
  length (matching_rows (pending now (uuid u) request) (password_reset_requests (tables s))) = 1 /\
  exists id, tables s' = reset_tables now u request c (wrapping_row id now nw) (tables s).
Proof.
  intros Hnw [([] & s0 & H1%reads_connection & H2)|(r' & H1%reads_connection & _ & Hr)]%ST_bind_inv; [|by left].
  apply transaction_inv in H2 as [(a & s1 & s2 & -> & Ht1 & Hb & Ht2)|[? ?]]; [|left; unfold untouched; split; congruence].
  right. rewrite H1 in Ht1. clear H1. cbv zeta in Hb.
  apply ST_bind_Ok in Hb as (lk & s3 & [Hlk Hs3]%st_map_err_Ok%select_Ok & Hb).
  apply ST_bind_Ok in Hb as (v & s4 & [Hv ->]%st_lift_inv & Hb). symmetry in Hv. apply ok_or_Ok in Hv. subst lk.
  apply first_Some in Hv as [Hvid%is_user_true Hvin].
  apply ST_bind_Ok in Hb as (n & s4 & [= Hlen Hs4]%st_map_err_Ok%execute_Ok & Hb). case_decide as Hn; [done|].
  apply ST_bind_Ok in Hb as ([] & s5 & [= Hs5]%st_map_err_Ok%execute_Ok & Hb).
  apply ST_bind_Ok in Hb as ([] & s6 & [= Hs6]%st_map_err_Ok%execute_Ok & Hb).
  apply ST_bind_Ok in Hb as ([] & s7 & [= Hs7]%st_map_err_Ok%execute_Ok & Hb).
  apply ST_bind_Ok in Hb as ([] & s8 & Hs8%st_map_err_Ok%delete_each_Ok & Hb).
  apply ST_bind_Ok in Hb as ([] & s9 & [= Hs9]%st_map_err_Ok%execute_Ok & Hb).
  apply ST_bind_Ok in Hb as ([] & s10 & Hs10%st_map_err_Ok%delete_each_Ok & Hb).
  apply ST_bind_Ok in Hb as ([] & s11 & [= Hs11]%st_map_err_Ok%execute_Ok & Hb).
  apply ST_bind_Ok in Hb as (w & s12 & Hup%st_map_err_Ok & Hb). injection Hb as <- <-.
  rewrite Hs3, Ht1 in *.
  assert (seed_wrappings (tables s11) =
    delete_rows (fun w => bool_decide (w_user_id w = uuid u)) (seed_wrappings (tables s))) as Hsw
    by (by rewrite <- Hs11, Hs10, <- Hs9, Hs8, <- Hs7, <- Hs6, <- Hs5, <- Hs4).
  apply wrapping_upsert_new in Hup as [Hw Htw].
  - split_and!; [done|by exists v|exact (eq_trans Hlen Hn)|]. exists (serial s11). rewrite Ht2, Htw, Hsw, Hw.
    rewrite <- Hs11, Hs10, <- Hs9, Hs8, <- Hs7, <- Hs6, <- Hs5, <- Hs4. unfold reset_tables.
    assert (forall l, filter (fun r => ~ (r.1 ∈ TABLES_BEFORE_KV ++ TABLES_AFTER_KV /\ r.2 = uuid u)) l =
      filter (fun r => ~ (r.1 ∈ TABLES_AFTER_KV /\ r.2 = uuid u))
        (filter (fun r => ~ (r.1 ∈ TABLES_BEFORE_KV /\ r.2 = uuid u)) l)) as ->; [|done].
    intros l. rewrite list_filter_filter. apply list_filter_iff. intros x. rewrite elem_of_app. naive_solver.
  - rewrite Hsw, Hnw. apply matching_none. intros w' [Hw' _]%elem_of_deleted.
    apply bool_decide_eq_false in Hw'. apply not_true_iff_false. by intros ?%wrapping_of_owner.
Qed.

Lemma delete_effect now u request s r s' :
  mark_and_delete_user now u request s = (r, s') ->
  (not_ok r /\ untouched s s') \/
  r = Ok tt /\ users (tables s') = delete_rows (is_user (uuid u)) (users (tables s)) /\
  seed_wrappings (tables s') = delete_rows (fun w => bool_decide (w_user_id w = uuid u)) (seed_wrappings (tables s)).
Proof.
  intros [([] & s0 & H1%reads_connection & H2)|(r' & H1%reads_connection & _ & Hr)]%ST_bind_inv; [|by left].
  apply transaction_inv in H2 as [([] & s1 & s2 & -> & Ht1 & Hb & Ht2)|[? ?]]; [|left; unfold untouched; split; congruence].
  right. rewrite H1 in Ht1.
  apply ST_bind_Ok in Hb as ([] & s3 & [= Hs3]%st_map_err_Ok%execute_Ok & Hb).
  apply ST_bind_Ok in Hb as ([] & s4 & [= Hs4]%st_map_err_Ok%execute_Ok & Hb). injection Hb as <-.
  rewrite Ht2, <- Hs4. cbn. rewrite <- Hs3. cbn. by rewrite Ht1.
Qed.

(** ** The invariant *)

(** A user with a stored verifier has one password wrapping; it holds a seed
    wrapped under that verifier, which is the hash of a password. *)
Definition cred_ok (ws : list UserSeedWrapping) (u : User) : Prop :=
  match password_enc u with
  | None => True
  | Some c => exists salt password seed w,
      matching_rows (wrapping_of (uuid u) password_kind) ws = [w] /\
      wrapping_version w = SeedWrap.SEED_WRAP_VERSION_V1 /\
      stored c (generate_hash salt password) /\ opens u (generate_hash salt password) seed (seed_enc w)
  end.
Definition creds_ok (t : Tables) : Prop :=
  NoDup (uuid <$> users t) /\ owners t /\ (forall u, u ∈ users t -> cred_ok (seed_wrappings t) u).

Lemma cred_ok_matching ws ws' u :
  matching_rows (wrapping_of (uuid u) password_kind) ws' = matching_rows (wrapping_of (uuid u) password_kind) ws ->
  cred_ok ws u -> cred_ok ws' u.
Proof. unfold cred_ok. by intros ->. Qed.

Lemma creds_ok_same t t' :
  users t' = users t -> seed_wrappings t' = seed_wrappings t -> creds_ok t -> creds_ok t'.
Proof. unfold creds_ok, owners. by intros -> ->. Qed.

(** A new user with its wrapping. *)
Lemma creds_ok_insert t t' u w :
  creds_ok t -> no_user (uuid u) t -> w_user_id w = uuid u -> cred_ok [w] u ->
  users t' = users t ++ [u] -> seed_wrappings t' = seed_wrappings t ++ [w] -> creds_ok t'.
Proof.
  intros (Hnd & Ho & Hc) Hno Hw Hu Ht Hs. unfold creds_ok, owners. rewrite Ht, Hs. split_and!.
  - rewrite fmap_app, NoDup_app. split_and!; [done| |by apply NoDup_singleton].
    intros x (u' & -> & Hu')%list_elem_of_fmap Hx%list_elem_of_singleton. by apply (Hno u').
  - intros w' [Hw' | ->%list_elem_of_singleton]%elem_of_app.
    + destruct (Ho w' Hw') as (u' & ? & ?). exists u'. set_solver.
    + exists u. set_solver.
  - intros u' [Hu' | ->%list_elem_of_singleton]%elem_of_app.
    + apply (cred_ok_matching (seed_wrappings t)); [|auto]. rewrite matching_rows_app, (matching_none _ [w]), app_nil_r; [done|].
      intros x ->%list_elem_of_singleton. apply not_true_iff_false. intros Hx%wrapping_of_owner.
      apply (Hno u' Hu'). congruence.
    + apply (cred_ok_matching [w]); [|done].
      by rewrite matching_rows_app, (no_wrappings_without_user _ _ _ Ho Hno).
Qed.

(** A new verifier and wrapping for a user, all others kept. *)
Lemma creds_ok_replace t t' (f : User -> User) p u w ws :
  creds_ok t -> (forall v, same_login v (f v)) -> (forall v, p v = true -> uuid v = uuid u) ->
  users t' = update_rows p f (users t) -> seed_wrappings t' = ws ++ [w] -> w_user_id w = uuid u ->
  (exists v, v ∈ users t /\ uuid v = uuid u) ->
  others (uuid u) ws = others (uuid u) (seed_wrappings t) ->
  matching_rows (wrapping_of (uuid u) password_kind) ws = [] ->
  (forall v, v ∈ users t -> uuid v = uuid u -> p v = true /\ cred_ok [w] (f v)) ->
  creds_ok t'.
Proof.
  intros (Hnd & Ho & Hc) Hf Hp Ht Hs Hw (v0 & Hv0 & Hid0) Hoth Hnone Hnew.
  assert (uuid <$> users t' = uuid <$> users t) as Hids.
  { rewrite Ht. unfold update_rows. rewrite <- list_fmap_compose. apply list_fmap_ext. intros i v _. cbn.
    destruct (p v); [|done]. by destruct (Hf v) as (<- & _). }
  assert (forall w', w' ∈ seed_wrappings t' -> w_user_id w' = uuid u \/ w' ∈ seed_wrappings t) as Hws.
  { intros w'. rewrite Hs. intros [Hw' | ->%list_elem_of_singleton]%elem_of_app; [|by left].
    destruct (decide (w_user_id w' = uuid u)) as [|Hne]; [by left|right].
    assert (w' ∈ others (uuid u) ws) as Hin by (by apply list_elem_of_filter).
    rewrite Hoth in Hin. by apply list_elem_of_filter in Hin as [_ ?]. }
  split_and!; [by rewrite Hids| |].
  - intros w' Hw'. assert (w_user_id w' ∈ uuid <$> users t') as (v & Hv & ?)%list_elem_of_fmap; [|by eauto].
    rewrite Hids. destruct (Hws w' Hw') as [->|Hin].
    + rewrite <- Hid0. by apply list_elem_of_fmap_2.
    + destruct (Ho w' Hin) as (v & Hv & <-). by apply list_elem_of_fmap_2.
  - intros v'. rewrite Ht. intros (v & Hv & ->)%elem_of_updated. rewrite Hs.
    destruct (decide (uuid v = uuid u)) as [He|Hne].
    + destruct (Hnew v Hv He) as [-> Hok]. apply (cred_ok_matching [w]); [|done].
      assert (uuid (f v) = uuid u) as -> by (destruct (Hf v) as (<- & _); done). by rewrite matching_rows_app, Hnone.
    + destruct (p v) eqn:Hpv; [by apply Hp in Hpv|]. apply (cred_ok_matching (seed_wrappings t)); [|auto].
      rewrite <- (others_matching (uuid u)), <- (others_matching (uuid u) _ _ (seed_wrappings t)) by done.
      by rewrite others_app, Hoth, others_own, app_nil_r.
Qed.

Lemma creds_ok_delete t t' id :
  creds_ok t -> users t' = delete_rows (is_user id) (users t) ->
  seed_wrappings t' = delete_rows (fun w => bool_decide (w_user_id w = id)) (seed_wrappings t) -> creds_ok t'.
Proof.
  intros (Hnd & Ho & Hc) Ht Hs. unfold creds_ok, owners. rewrite Ht, Hs. split_and!.
  - eapply sublist_NoDup; [exact Hnd|]. apply fmap_sublist, sublist_filter.
  - intros w [Hw Hin]%elem_of_deleted. apply bool_decide_eq_false in Hw. destruct (Ho w Hin) as (u & Hu & He).
    exists u. split; [|done]. apply elem_of_deleted. split; [|done]. apply bool_decide_eq_false. congruence.
  - intros u [Hu Hin]%elem_of_deleted. apply bool_decide_eq_false in Hu.
    apply (cred_ok_matching (seed_wrappings t)); [|auto].
    rewrite <- (others_matching id), <- (others_matching id _ _ (seed_wrappings t)) by done.
    rewrite others_deleted; [done|]. by intros w ?%bool_decide_eq_true.
Qed.

(** ** Interleaved requests

    A request reads the tables, prepares what it will write, and writes in one
    transaction; between the two, other requests may write.  [history h] says
    that the tables of [h], the latest first, followed one another. *)
Definition new_to (h : list Tables) (id : Uuid) : Prop := forall t, t ∈ h -> no_user id t.
(** A row that some request may have read. *)
Definition seen (h : list Tables) (u : User) : Prop := exists t, t ∈ h /\ u ∈ users t.

Inductive step (h : list Tables) (t t' : Tables) : Prop :=
| step_register now d n password verifier c seed s r s' :
    draws_ok d -> new_to h (new_uuid d) ->
    encrypt_user_password_verifier enclave_key d password = Ok (verifier, c) -> n_password_enc n = Some c ->
    tables s = t -> create_user_with_password_seed_wrap enclave_key now d n verifier seed s = (r, s') ->
    t' = tables s' -> step h t t'
| step_oauth now d n p pn pu token seed s r s' :
    new_to h (new_uuid d) -> n_password_enc n = None ->
    tables s = t -> create_user_with_oauth_seed_wrap enclave_key now d n p pn pu token seed s = (r, s') ->
    t' = tables s' -> step h t t'
| step_change now d u expected password verifier c seed nw s r s' :
    draws_ok d -> seen h u ->
    encrypt_user_password_verifier enclave_key d password = Ok (verifier, c) ->
    new_password_seed_wrapping_for_user enclave_key (seed_nonce d) u verifier seed = Ok nw ->
    tables s = t -> Db.update_user_password_and_seed_wrap now u expected c nw s = (r, s') ->
    t' = tables s' -> step h t t'
| step_reset now d u request password verifier c seed nw s r s' :
    draws_ok d -> seen h u ->
    encrypt_user_password_verifier enclave_key d password = Ok (verifier, c) ->
    new_password_seed_wrapping_for_user enclave_key (seed_nonce d) u verifier seed = Ok nw ->
    tables s = t -> complete_destructive_password_reset now u request c nw s = (r, s') ->
    t' = tables s' -> step h t t'
| step_delete now u request s r s' :
    tables s = t -> mark_and_delete_user now u request s = (r, s') -> t' = tables s' -> step h t t'
| step_other : users t' = users t -> seed_wrappings t' = seed_wrappings t -> step h t t'.

Inductive history : list Tables -> Prop :=
| history_start t : users t = [] -> seed_wrappings t = [] -> history [t]
| history_step h t t' : history (t :: h) -> step (t :: h) t t' -> history (t' :: t :: h).

(** A user identifier always belongs to the same login. *)
Definition logins_fixed (h : list Tables) : Prop :=
  forall u u', seen h u -> seen h u' -> uuid u = uuid u' -> same_login u u'.

Lemma user_unique t u u' :
  NoDup (uuid <$> users t) -> u ∈ users t -> u' ∈ users t -> uuid u = uuid u' -> u = u'.
Proof.
  induction (users t) as [|x l IH]; cbn; [set_solver|]. intros [Hx Hnd]%NoDup_cons Hu Hu' He.
  apply elem_of_cons in Hu as [->|Hu], Hu' as [->|Hu']; try done; [| |by auto];
    destruct Hx; [rewrite He|rewrite <- He]; by apply list_elem_of_fmap_2.
Qed.

(** Fixed logins survive a step that only keeps, changes or adds users. *)
Lemma logins_fixed_step h t t' :
  logins_fixed (t :: h) ->
  (forall u, u ∈ users t' -> (exists v, v ∈ users t /\ same_login v u) \/ (new_to (t :: h) (uuid u) /\
     forall u', u' ∈ users t' -> uuid u' = uuid u -> u' = u)) ->
  logins_fixed (t' :: t :: h).
Proof.
  intros Hfix Hnew.
  assert (forall u, seen (t' :: t :: h) u -> (exists v, seen (t :: h) v /\ same_login v u) \/
    (u ∈ users t' /\ new_to (t :: h) (uuid u) /\ forall u', u' ∈ users t' -> uuid u' = uuid u -> u' = u)) as Hcase.
  { intros u (t0 & [->|Ht0]%elem_of_cons & Hu).
    - destruct (Hnew u Hu) as [(v & Hv & Hs)|[Hn Hun]]; [|by right]. left. exists v. split; [|done].
      exists t. split; [left|done].
    - left. exists u. split; [by exists t0|by unfold same_login]. }
  unfold same_login in *. intros u u' Hu Hu' He.
  destruct (Hcase u Hu) as [(v & Hv & Hsv)|(Hin & Hn & Hun)],
           (Hcase u' Hu') as [(v' & Hv' & Hsv')|(Hin' & Hn' & Hun')].
  - destruct Hsv as (? & ? & ?), Hsv' as (? & ? & ?).
    destruct (Hfix v v' Hv Hv' ltac:(congruence)) as (? & ? & ?). split_and!; congruence.
  - destruct Hv as (t0 & Ht0 & Hv0), Hsv as (? & ? & ?). destruct (Hn' t0 Ht0 v Hv0). congruence.
  - destruct Hv' as (t0 & Ht0 & Hv0), Hsv' as (? & ? & ?). destruct (Hn t0 Ht0 v' Hv0). congruence.
  - by rewrite (Hun u' Hin') by done.
Qed.

Section invariant.
Context {cl : CryptoLaws cr} {al : AccountDepsLaws ad}.

(** What a prepared wrapping gives the login it is written for. *)
Lemma prepared_cred_ok d password verifier c u seed nw id now v :
  draws_ok d -> encrypt_user_password_verifier enclave_key d password = Ok (verifier, c) ->
  new_password_seed_wrapping_for_user enclave_key (seed_nonce d) u verifier seed = Ok nw ->
  same_login u v -> password_enc v = Some c -> cred_ok [wrapping_row id now nw] v.
Proof.
  intros (Hn & _) [-> Hst]%stored_verifier (Hu & Hk & Hv & Ho)%new_wrapping_opens Hsame Hp; [|done].
  unfold cred_ok. rewrite Hp. exists (salt d), password, seed, (wrapping_row id now nw). split_and!.
  - unfold matching_rows. rewrite filter_cons_True; [done|]. unfold wrapping_of. cbn.
    destruct Hsame as (Hid & _). by rewrite Hu, Hk, Hid, !bool_decide_true.
  - done.
  - done.
  - by eapply opens_same.
Qed.

Lemma same_login_verifier now c v : same_login v (set_verifier now c v).
Proof. done. Qed.

Lemma new_user_logins h t t' u :
  creds_ok t' -> new_to (t :: h) (uuid u) -> users t' = users t ++ [u] ->
  forall v, v ∈ users t' -> (exists v', v' ∈ users t /\ same_login v' v) \/
    (new_to (t :: h) (uuid v) /\ forall u', u' ∈ users t' -> uuid u' = uuid v -> u' = v).
Proof.
  intros Hok Hn Ht v Hv. pose proof Hv as Hv'. rewrite Ht in Hv'.
  apply elem_of_app in Hv' as [Hv' | ->%list_elem_of_singleton].
  - left. by exists v.
  - right. split; [done|]. intros u' Hu' He. by eapply user_unique; [apply Hok| | |].
Qed.

Lemma updated_logins t t' p (f : User -> User) :
  (forall v, same_login v (f v)) -> users t' = update_rows p f (users t) ->
  forall v, v ∈ users t' -> (exists v', v' ∈ users t /\ same_login v' v).
Proof.
  intros Hf -> v (v' & Hv' & ->)%elem_of_updated. exists v'. split; [done|]. by destruct (p v').
Qed.

Lemma creds_ok_change h t t' d u expected password verifier c seed nw now id :
  creds_ok t -> logins_fixed (t :: h) -> seen (t :: h) u -> draws_ok d ->
  encrypt_user_password_verifier enclave_key d password = Ok (verifier, c) ->
  new_password_seed_wrapping_for_user enclave_key (seed_nonce d) u verifier seed = Ok nw ->
  length (matching_rows (fun v => is_user (uuid u) v && bool_decide (password_enc v = Some expected)) (users t)) = 1 ->
  users t' = update_rows (fun v => is_user (uuid u) v && bool_decide (password_enc v = Some expected))
               (set_verifier now c) (users t) ->
  seed_wrappings t' = delete_rows (wrapping_of (uuid u) password_kind) (seed_wrappings t) ++ [wrapping_row id now nw] ->
  creds_ok t'.
Proof.
  intros Hok Hfix Hseen Hd Hc Hnw Hlen Ht Hs.
  destruct (matching_rows _ (users t)) as [|v0 l] eqn:Hm; [done|].
  assert (v0 ∈ matching_rows (fun v => is_user (uuid u) v && bool_decide (password_enc v = Some expected)) (users t))
    as [[Hv0%is_user_true Hp0]%andb_true_iff Hin0]%elem_of_matching by (rewrite Hm; left).
  apply (creds_ok_replace t t' _ _ u _ _ Hok (same_login_verifier now c)) with (2 := Ht) (3 := Hs).
  - by intros v [Hv%is_user_true _]%andb_true_iff.
  - cbn. by apply new_wrapping_opens in Hnw as [-> _].
  - by exists v0.
  - by apply others_deleted, wrapping_of_owner.
  - apply matching_deleted.
  - intros v Hv He. assert (v = v0) as -> by (eapply user_unique; [apply Hok|..]; congruence).
    split; [apply andb_true_iff; split; [by apply is_user_true|done]|].
    eapply prepared_cred_ok; [done..| |done]. trans v0; [|done].
    apply Hfix; [done| |done]. exists t. split; [left|done].
Qed.

Lemma creds_ok_reset h t t' d u request password verifier c seed nw now id :
  creds_ok t -> logins_fixed (t :: h) -> seen (t :: h) u -> draws_ok d ->
  encrypt_user_password_verifier enclave_key d password = Ok (verifier, c) ->
  new_password_seed_wrapping_for_user enclave_key (seed_nonce d) u verifier seed = Ok nw ->
  (exists v, v ∈ users t /\ uuid v = uuid u) ->
  t' = reset_tables now u request c (wrapping_row id now nw) t -> creds_ok t'.
Proof.
  intros Hok Hfix Hseen Hd Hc Hnw Hin ->.
  eapply (creds_ok_replace t _ _ _ u _ _ Hok (same_login_verifier now c)) with (2 := eq_refl) (3 := eq_refl).
  - by intros v Hv%is_user_true.
  - cbn. by apply new_wrapping_opens in Hnw as [-> _].
  - done.
  - apply others_deleted. by intros w ?%bool_decide_eq_true.
  - apply matching_none. intros w [Hw _]%elem_of_deleted. apply bool_decide_eq_false in Hw.
    apply not_true_iff_false. by intros ?%wrapping_of_owner.
  - intros v Hv He. split; [by apply is_user_true|].
    eapply prepared_cred_ok; [done..| |done]. trans v; [|done].
    apply Hfix; [done| |done]. exists t. split; [left|done].
Qed.

Lemma same_tables_invariant h t t' :
  users t' = users t -> seed_wrappings t' = seed_wrappings t ->
  creds_ok t -> logins_fixed (t :: h) -> creds_ok t' /\ logins_fixed (t' :: t :: h).
Proof.
  intros Hu Hw Hok Hfix. split; [by eapply creds_ok_same|]. apply logins_fixed_step; [done|].
  intros u. rewrite Hu. left. by exists u.
Qed.

Lemma untouched_invariant h s s' :
  untouched s s' -> creds_ok (tables s) -> logins_fixed (tables s :: h) ->
  creds_ok (tables s') /\ logins_fixed (tables s' :: tables s :: h).
Proof. intros Hs. apply same_tables_invariant; f_equal; exact Hs. Qed.

Lemma inserted_invariant h t t' u w :
  creds_ok t -> logins_fixed (t :: h) -> new_to (t :: h) (uuid u) -> w_user_id w = uuid u -> cred_ok [w] u ->
  users t' = users t ++ [u] -> seed_wrappings t' = seed_wrappings t ++ [w] ->
  creds_ok t' /\ logins_fixed (t' :: t :: h).
Proof.
  intros Hok Hfix Hnew Hw Hc Hu Hs. assert (creds_ok t') as Hok'.
  { eapply creds_ok_insert; [done|apply Hnew; left|done..]. }
  split; [done|]. apply logins_fixed_step; [done|]. by eapply new_user_logins.
Qed.

Lemma step_invariant h t t' :
  creds_ok t -> logins_fixed (t :: h) -> step (t :: h) t t' -> creds_ok t' /\ logins_fixed (t' :: t :: h).
Proof.
  intros Hok Hfix [now d n password verifier c seed s r s' Hd Hnew Hc Hn Hs Hrun ->
    |now d n p pn pu token seed s r s' Hnew Hn Hs Hrun ->
    |now d u expected password verifier c seed nw s r s' Hd Hseen Hc Hnw Hs Hrun ->
    |now d u request password verifier c seed nw s r s' Hd Hseen Hc Hnw Hs Hrun ->
    |now u request s r s' Hs Hrun ->|Hu Hw]; try subst t.
  - apply register_effect in Hrun as [[_ Hsame]|(u & w & nw & _ & _ & Hid & He & Hp & Hpw & Hnw & (id & ->) & Ht)];
      [by apply untouched_invariant| |apply Hok].
    apply (inserted_invariant h (tables s) (tables s') u (wrapping_row id now nw)); rewrite ?Ht; try done.
    + by rewrite Hid.
    + cbn. by apply new_wrapping_opens in Hnw as [-> _].
    + eapply prepared_cred_ok; [done..| |]; [done|]. by rewrite Hpw.
  - apply oauth_effect in Hrun as [[_ Hsame]|(u & w & _ & _ & Hid & He & Hp & Hpw & Hw & Ht & Hsw)];
      [by apply untouched_invariant| |apply Hok].
    apply (inserted_invariant h (tables s) (tables s') u w); try done; [by rewrite Hid|by rewrite Hid|].
    unfold cred_ok. by rewrite Hpw, Hn.
  - apply change_effect in Hrun as [[_ Hsame]|(_ & Hlen & id & Ht)];
      [by apply untouched_invariant|].
    split; [by eapply creds_ok_change; try done; rewrite Ht|]. apply logins_fixed_step; [done|].
    intros v Hv. left. eapply (updated_logins (tables s) (tables s')); [apply (same_login_verifier now c)|by rewrite Ht|done].
  - apply reset_effect in Hrun as [[_ Hsame]|(_ & Hin & _ & id & Ht)];
      [by apply untouched_invariant| |by apply new_wrapping_opens in Hnw as [-> _]].
    split; [by eapply creds_ok_reset|]. apply logins_fixed_step; [done|].
    intros v Hv. left. eapply (updated_logins (tables s) (tables s')); [apply (same_login_verifier now c)|by rewrite Ht|done].
  - apply delete_effect in Hrun as [[_ Hsame]|(_ & Hu & Hw)];
      [by apply untouched_invariant|].
    split; [by eapply creds_ok_delete|]. apply logins_fixed_step; [done|].
    intros v. rewrite Hu. intros [_ Hv]%elem_of_deleted. left. by exists v.
  - by apply same_tables_invariant.
Qed.

Lemma history_invariant h t : history (t :: h) -> creds_ok t /\ logins_fixed (t :: h).
Proof.
  remember (t :: h) as th eqn:Hth. intros Hh. revert t h Hth.
  induction Hh as [t0 Hu Hw|h t0 t' Hh IH Hstep]; intros t h' [= -> <-].
  - split; [unfold creds_ok, owners; rewrite Hu, Hw; split_and!; [constructor|set_solver|set_solver]|].
    intros u u' (t1 & ->%list_elem_of_singleton & Hin). rewrite Hu in Hin. set_solver.
  - destruct (IH t0 h eq_refl) as [Hok Hfix]. by apply step_invariant.
Qed.

(** ** The requests are such steps *)
Lemma prefix_inv {E A B} (m : ST State E A) (f : A -> ST State E B) s r s' :
  reads m -> (x ← m; f x) s = (r, s') ->
  (exists a s1, m s = (Ok a, s1) /\ tables s1 = tables s /\ f a s1 = (r, s')) \/ (not_ok r /\ untouched s s').
Proof.
  intros Hm [(a & s1 & H1 & H2)|(r' & H1 & _ & Hr)]%ST_bind_inv.
  - left. exists a, s1. split_and!; [done|by eapply Hm|done].
  - right. split; [done|by eapply Hm].
Qed.

Lemma reads_db {A} (m : ST State DBError A) : reads m -> reads (db m).
Proof. apply reads_map_err. Qed.
Lemma reads_try {E E' A} (m : ST State E A) : reads m -> reads (@st_try E E' A m).
Proof.
  intros Hm s r s'. unfold st_try. destruct (m s) as [r0 s0] eqn:Hr. apply Hm in Hr. destruct r0; by intros [= _ <-].
Qed.
Lemma st_try_Ok {E E' A} (m : ST State E A) s r s' :
  @st_try E E' A m s = (Ok r, s') -> m s = (r, s').
Proof. unfold st_try. destruct (m s) as [[] s0]; congruence. Qed.
Lemma reads_get_by_uuid id : reads (get_user_by_uuid id).
Proof.
  apply reads_bind; [apply reads_connection|]. intros _. apply reads_bind; [apply reads_map_err, reads_select|].
  intros u. apply reads_lift.
Qed.
Lemma reads_get_by_email e p : reads (get_user_by_email e p).
Proof.
  apply reads_bind; [apply reads_connection|]. intros _. apply reads_bind; [apply reads_map_err, reads_select|].
  intros u. apply reads_lift.
Qed.
Lemma reads_query {A} (e : DieselError -> DBError) (f : Tables -> A) : reads (_ ← connection; st_map_err e (select f)).
Proof. apply reads_bind; [apply reads_connection|]. intros _. apply reads_map_err, reads_select. Qed.
Lemma reads_decrypt u c : reads (decrypt_seed_for_auth_context enclave_key u c).
Proof.
  unfold decrypt_seed_for_auth_context. case_decide; [apply reads_err|].
  apply reads_bind; [apply reads_db, reads_query|]. intros w. apply reads_lift.
Qed.

(** A user that was read is in the tables. *)
Lemma select_runs {A} (f : Tables -> A) s : faults s = [] -> select f s = (Ok (f (tables s)), advance s).
Proof. unfold select, statement, faulty, advance, with_tables. destruct s as [t n fs]. cbn. by intros ->. Qed.
Lemma connection_runs s : faults s = [] -> connection s = (Ok tt, advance s).
Proof. unfold connection, faulty. by intros ->. Qed.
Lemma advance_quiet s : faults s = [] -> faults (advance s) = [].
Proof. unfold advance. cbn. by intros ->. Qed.
Lemma user_read_by {e : DieselError -> DBError} p s u s' :
  (_ ← connection; v ← st_map_err e (select (fun t => first p (users t))); st_lift (found Db.UserNotFound v)) s = (Ok u, s') ->
  p u = true /\ u ∈ users (tables s).
Proof.
  intros ([] & s1 & H1%reads_connection & Hr)%ST_bind_Ok.
  apply ST_bind_Ok in Hr as (v & s2 & [-> _]%st_map_err_Ok%select_Ok & Hr).
  apply st_lift_inv in Hr as [Hr _]. symmetry in Hr. apply ok_or_Ok, first_Some in Hr. by rewrite H1 in Hr.
Qed.
Lemma user_read_finds {e : DieselError -> DBError} p s r s' :
  (_ ← connection; v ← st_map_err e (select (fun t => first p (users t))); st_lift (found Db.UserNotFound v)) s = (r, s') ->
  faults s = [] -> r = found Db.UserNotFound (first p (users (tables s))).
Proof.
  intros Hr Hf. unfold mbind, ST_bind, st_map_err, st_lift in Hr.
  rewrite connection_runs, select_runs in Hr by (done || by apply advance_quiet). by injection Hr as <- _.
Qed.

Lemma reads_authenticate oe oid password project :
  reads (authenticate_user enclave_key oe oid password project).
Proof.
  unfold authenticate_user. destruct (_ && _); [apply reads_err|].
  apply reads_bind.
  - destruct oe; [apply reads_db, reads_get_by_email|]. apply reads_bind; [apply reads_lift|]. intros id.
    apply reads_bind; [apply reads_db, reads_get_by_uuid|]. intros u. case_decide; [apply reads_err|apply reads_ok].
  - intros u. destruct (password_enc u); [|apply reads_ok].
    do 3 (apply reads_bind; [apply reads_lift|]; intros ?). destruct (verify_password _ _); [|apply reads_ok].
    apply reads_bind; [apply reads_lift|]. intros c.
    apply reads_bind; [apply reads_bind; [apply reads_decrypt|intros; apply reads_ok]|intros; apply reads_ok].
Qed.

Lemma prepare_verifier d password s x s' :
  @st_lift State _ _ (encrypt_user_password_verifier enclave_key d password) s = (Ok x, s') ->
  encrypt_user_password_verifier enclave_key d password = Ok (x.1, x.2).
Proof. intros [<- _]%st_lift_inv. by destruct x. Qed.

Section calls.
Context (projects : Uuid -> option Z) (h : list Tables).

Lemma register_is_step now d creds s r s' :
  owners (tables s) -> draws_ok d -> new_to (tables s :: h) (new_uuid d) ->
  register_user enclave_key projects now d creds s = (r, s') ->
  (not_ok r /\ untouched s s') \/
  exists u, r = Ok u /\ users (tables s') = users (tables s) ++ [u] /\ step (tables s :: h) (tables s) (tables s').
Proof.
  intros Ho Hd Hnew. unfold register_user.
  intros [(project & s1 & H1 & Ht1 & Hr)|?]%prefix_inv; [|by left|].
  2: { apply reads_map_err, reads_bind; [apply reads_connection|]. intros _. apply reads_bind; [apply reads_map_err, reads_select|].
       intros. apply reads_lift. }
  apply prefix_inv in Hr as [([] & s2 & H2 & Ht2 & Hr)|[? ?]]; [|unchanged|].
  2: { destruct (reg_email creds); [|apply reads_ok]. apply reads_bind; [apply reads_try, reads_get_by_email|].
       intros [a|[]|]; first [apply reads_err|apply reads_ok|apply reads_lift]. }
  apply prefix_inv in Hr as [([verifier c] & s3 & H3%prepare_verifier & Ht3 & Hr)|[? ?]];
    [|unchanged|apply reads_lift].
  apply prefix_inv in Hr as [(words & s4 & H4 & Ht4 & Hr)|[? ?]];
    [|unchanged|apply reads_lift].
  assert (tables s4 = tables s) as Ht by congruence.
  pose proof Hr as Heff. apply register_effect in Heff as [[? ?]|(u & w & nw & -> & _ & _ & _ & _ & _ & _ & _ & Hu)];
    [unchanged| |by rewrite Ht].
  right. exists u. split_and!; [done|by rewrite Hu, <- Ht|].
  by refine (step_register _ _ _ now d _ _ verifier c _ s4 _ s' Hd Hnew H3 _ Ht Hr _).
Qed.

Lemma change_is_step now d u ctx password s r s' :
  draws_ok d -> seen (tables s :: h) u ->
  update_user_password_and_seed_wrap enclave_key now d u ctx password s = (r, s') ->
  (not_ok r /\ untouched s s') \/
  step (tables s :: h) (tables s) (tables s') /\
  exists new_ctx, password_auth_context_for_user enclave_key u (generate_hash (salt d) password) = Ok new_ctx /\
    (r = Ok new_ctx \/
     not_ok r /\ exists s1, tables s1 = tables s' /\ not_ok (decrypt_seed_for_auth_context enclave_key u new_ctx s1).1).
Proof.
  intros Hd Hseen. unfold update_user_password_and_seed_wrap.
  intros [(old & s1 & H1 & Ht1 & Hr)|?]%prefix_inv; [|by left|apply reads_lift].
  apply prefix_inv in Hr as [(seed & s2 & H2 & Ht2 & Hr)|[? ?]]; [|unchanged|apply reads_decrypt].
  apply prefix_inv in Hr as [([verifier c] & s3 & H3%prepare_verifier & Ht3 & Hr)|[? ?]];
    [|unchanged|apply reads_lift].
  apply prefix_inv in Hr as [(nw & s4 & [H4 _]%st_lift_inv & Ht4 & Hr)|[? ?]];
    [|unchanged|apply reads_lift].
  apply prefix_inv in Hr as [(ctx' & s5 & [H5 _]%st_lift_inv & Ht5 & Hr)|[? ?]];
    [|unchanged|apply reads_lift].
  assert (tables s5 = tables s) as Ht by congruence. cbn [fst snd] in *.
  assert (verifier = generate_hash (salt d) password) as Hv.
  { revert H3. unfold encrypt_user_password_verifier. intros H3. inv_ok. done. }
  apply ST_bind_inv in Hr as [([] & s6 & H6 & Hr)|(r' & H6 & Hr' & Hn)].
  2: { apply st_map_err_inv in H6 as (r6 & H6 & ->). left. apply change_effect in H6 as [[? ?]|[-> _]]; [|by destruct (Hr' tt)].
       unfold untouched in *. split; [done|congruence]. }
  apply st_map_err_inv in H6 as (r6 & H6 & _). right.
  assert (tables s' = tables s6 /\ (r = Ok ctx' \/ not_ok r /\ not_ok (decrypt_seed_for_auth_context enclave_key u ctx' s6).1)) as [Ht6 Hres].
  { unfold verify_seed_wrap_for_auth_context in Hr. unfold mbind, ST_bind in Hr.
    destruct (decrypt_seed_for_auth_context enclave_key u ctx' s6) as [r7 s7] eqn:H7.
    apply reads_decrypt in H7. destruct r7 as [x|e|]; injection Hr as <- <-; (split; [done|]); [by left|right; done..]. }
  rewrite Ht6. split; [by eapply (step_change _ _ _ now d u _ _ _ _ _ _ s5)|]. exists ctx'. split; [by rewrite <- Hv|].
  destruct Hres as [?|[? ?]]; [by left|right]. split; [done|]. by exists s6.
Qed.

Lemma user_email_read e p s u s' : get_user_by_email e p s = (Ok u, s') -> u ∈ users (tables s).
Proof. intros Hr. by apply (user_read_by (e := UserError)) in Hr as [_ ?]. Qed.
Lemma seen_now u s : u ∈ users (tables s) -> seen (tables s :: h) u.
Proof. intros Hu. exists (tables s). split; [left|done]. Qed.

Lemma reset_is_step now d e code secret password project s r s' :
  draws_ok d -> confirm_password_reset enclave_key now d e code secret password project s = (r, s') ->
  (not_ok r /\ untouched s s') \/ r = Ok tt /\ step (tables s :: h) (tables s) (tables s').
Proof.
  intros Hd. unfold confirm_password_reset.
  intros [(u & s1 & H1%st_map_err_Ok%user_email_read & Ht1 & Hr)|?]%prefix_inv; [|by left|apply reads_db, reads_get_by_email].
  destruct (_ || _); [injection Hr as <- <-; by left|].
  apply prefix_inv in Hr as [(mac & s2 & _ & Ht2 & Hr)|[? ?]]; [|unchanged|apply reads_lift].
  apply prefix_inv in Hr as [(request & s3 & _ & Ht3 & Hr)|[? ?]]; [|unchanged|apply reads_db, reads_query].
  assert (tables s3 = tables s) as Ht by congruence.
  destruct request as [request|]; [|injection Hr as <- <-; by left].
  destruct (reset_is_expired _ _); [injection Hr as <- <-; by left|].
  case_decide; [|injection Hr as <- <-; by left].
  apply prefix_inv in Hr as [(words & s4 & _ & Ht4 & Hr)|[? ?]]; [|unchanged|apply reads_lift].
  apply prefix_inv in Hr as [([verifier c] & s5 & H5%prepare_verifier & Ht5 & Hr)|[? ?]]; [|unchanged|apply reads_lift].
  apply prefix_inv in Hr as [(nw & s6 & [H6 _]%st_lift_inv & Ht6 & Hr)|[? ?]]; [|unchanged|apply reads_lift].
  apply prefix_inv in Hr as [(x & s7 & _ & Ht7 & Hr)|[? ?]]; [|unchanged|apply reads_lift].
  symmetry in H6. apply st_map_err_inv in Hr as (r0 & Hr & ->). pose proof Hr as Heff.
  assert (tables s7 = tables s) as Ht' by congruence.
  apply reset_effect in Heff as [[Hn%(map_err_not_ok DatabaseError) ?]|(-> & _)]; [unchanged| |by apply new_wrapping_opens in H6 as [-> _]].
  right. split; [done|].
  by refine (step_reset _ _ _ now d u request _ verifier c _ nw s7 _ s' Hd (seen_now _ _ H1) H5 H6 Ht' Hr _).
Qed.

Lemma delete_is_step now id code secret s r s' :
  confirm_account_deletion enclave_key now id code secret s = (r, s') ->
  (not_ok r /\ untouched s s') \/ r = Ok tt /\ step (tables s :: h) (tables s) (tables s').
Proof.
  unfold confirm_account_deletion.
  intros [(u & s1 & H1 & Ht1 & Hr)|?]%prefix_inv; [|by left|apply reads_db, reads_get_by_uuid].
  do 3 (apply prefix_inv in Hr as [(? & ? & _ & ? & Hr)|[? ?]]; [|unchanged|apply reads_lift]).
  apply prefix_inv in Hr as [(request & s3 & _ & Ht3 & Hr)|[? ?]]; [|unchanged|apply reads_db, reads_query].
  assert (tables s3 = tables s) as Ht by congruence.
  destruct request as [request|]; [|injection Hr as <- <-; by left].
  destruct (deletion_is_expired _ _); [injection Hr as <- <-; by left|].
  case_decide; [|injection Hr as <- <-; by left].
  apply st_map_err_inv in Hr as (r0 & Hr & ->). pose proof Hr as Heff.
  apply delete_effect in Heff as [[Hn%(map_err_not_ok DatabaseError) ?]|(-> & _)]; [unchanged|].
  right. split; [done|]. by eapply step_delete.
Qed.

(** A statement that writes neither users nor wrappings. *)
Definition spares {E A} (m : ST State E A) : Prop := forall s r s', m s = (r, s') ->
  users (tables s') = users (tables s) /\ seed_wrappings (tables s') = seed_wrappings (tables s).
Lemma spares_reads {E A} (m : ST State E A) : reads m -> spares m.
Proof. intros Hm s r s' Hs. by rewrite (Hm _ _ _ Hs). Qed.
Lemma spares_bind {E A B} (m : ST State E A) (f : A -> ST State E B) :
  spares m -> (forall a, spares (f a)) -> spares (x ← m; f x).
Proof.
  intros Hm Hf s r s' [(a & s1 & H1 & H2)|(r' & H1 & _)]%ST_bind_inv; [|by eapply Hm].
  apply Hm in H1 as [<- <-]. by eapply Hf.
Qed.
Lemma spares_map_err {E E' A} (f : E -> E') (m : ST State E A) : spares m -> spares (st_map_err f m).
Proof. intros Hm s r s' (r0 & Hs & _)%st_map_err_inv. by eapply Hm. Qed.
Lemma spares_statement {A} (f : Z -> Tables -> outcome DieselError (A * Tables)) :
  (forall n t a t', f n t = Ok (a, t') -> users t' = users t /\ seed_wrappings t' = seed_wrappings t) ->
  spares (statement f).
Proof.
  intros Hf s r s' Hs. destruct r as [a|e|].
  - apply statement_Ok in Hs. by eapply Hf.
  - rewrite (statement_not_ok _ _ _ _ Hs); [done|intros ?; discriminate].
  - rewrite (statement_not_ok _ _ _ _ Hs); [done|intros ?; discriminate].
Qed.

Lemma reset_request_spares now d e hash project :
  spares (create_password_reset_request enclave_key now d e hash project).
Proof.
  apply spares_bind; [apply spares_reads, reads_try, reads_get_by_email|]. intros [u|x|]; try apply spares_reads, reads_ok.
  destruct (_ && _); [|apply spares_reads, reads_ok].
  apply spares_bind; [apply spares_reads, reads_lift|]. intros mac.
  apply spares_bind; [|intros; apply spares_reads, reads_ok].
  apply spares_map_err, spares_bind; [apply spares_reads, reads_connection|]. intros _. apply spares_map_err, spares_statement.
  intros n t a t' [_ [= _ <-]]%references_Ok. done.
Qed.
Lemma deletion_request_spares now d id hash project :
  spares (create_account_deletion_request enclave_key now d id hash project).
Proof.
  apply spares_bind; [apply spares_reads, reads_try, reads_get_by_uuid|]. intros [u|x|]; try apply spares_reads, reads_ok.
  case_decide; [apply spares_reads, reads_err|].
  do 2 (apply spares_bind; [apply spares_reads, reads_lift|]; intros ?).
  apply spares_bind; [|intros; apply spares_reads, reads_ok].
  apply spares_map_err, spares_bind; [apply spares_reads, reads_connection|]. intros _. apply spares_map_err, spares_statement.
  intros n t row t' [= _ <-]. done.
Qed.

Lemma first_absent id l r :
  r = found Db.UserNotFound (first (is_user id) l) -> not_ok r -> forall u, u ∈ l -> uuid u <> id.
Proof.
  intros -> Hn u Hu Hid. destruct (first (is_user id) l) as [v|] eqn:Hf; [by destruct (Hn v)|].
  apply fmap_None, list_find_None in Hf. rewrite Forall_forall in Hf. apply (Hf u Hu). by apply is_user_true.
Qed.
Lemma without_password e p l u :
  first (user_has_email e p) l = Some u -> bool_decide (is_Some (email u)) && bool_decide (is_Some (password_enc u)) = false ->
  password_enc u = None.
Proof.
  unfold user_has_email. intros [He _]%first_Some [Hp%bool_decide_eq_false|Hp%bool_decide_eq_false]%andb_false_iff.
  - destruct (email u); [by destruct Hp|done].
  - destruct (password_enc u); [by destruct Hp|done].
Qed.

(** A request for a code: an error leaves the tables, and so does an answer to
    someone without such an account; otherwise one row is added. *)
Lemma reset_request_reports now d e hash project s r s' :
  create_password_reset_request enclave_key now d e hash project s = (r, s') ->
  let code := generate_alphanumeric_code (code_bytes d) in
  (not_ok r \/ r = Ok code /\ (faults s = [] -> forall u,
     first (user_has_email e project) (users (tables s)) = Some u -> password_enc u = None)) /\ untouched s s' \/
  r = Ok code /\ exists u row, u ∈ users (tables s) /\ user_has_email e project u = true /\ is_Some (password_enc u) /\
    r_user_id row = uuid u /\ r_hashed_secret row = hash /\ is_reset row = false /\
    tables s' = set_password_reset_requests (password_reset_requests (tables s) ++ [row]) (tables s).
Proof.
  unfold create_password_reset_request.
  intros [(u & s1 & H1%st_try_Ok & Ht1 & Hr)|[? ?]]%prefix_inv; [|left; split; [by left|done]|apply reads_try, reads_get_by_email].
  cbv zeta. pose proof (user_read_finds (e := UserError) _ _ _ _ H1) as Hfind.
  destruct u as [u|x|]; [|left; injection Hr as <- <-; split; [right; split; [done|]|done]; intros Hf v Hv;
    specialize (Hfind Hf); by rewrite Hv in Hfind..].
  apply user_read_by in H1 as [He Hin].
  destruct (bool_decide (is_Some (email u)) && bool_decide (is_Some (password_enc u))) eqn:Hp;
    [|left; injection Hr as <- <-; split; [right; split; [done|]|done]; intros Hf v Hv;
      specialize (Hfind Hf); rewrite Hv in Hfind; injection Hfind as ->; by eapply without_password].
  apply andb_true_iff in Hp as [_ Hp%bool_decide_eq_true].
  apply prefix_inv in Hr as [(mac & s2 & _ & Ht2 & Hr)|[? ?]]; [|left; unfold untouched in *; split; [by left|congruence]|apply reads_lift].
  apply ST_bind_inv in Hr as [(row & s3 & H3 & [= <- <-])|(r' & H3 & Hr' & Hn)].
  - apply st_map_err_Ok in H3. apply ST_bind_Ok in H3 as ([] & s4 & H4%reads_connection & H3%st_map_err_Ok%statement_Ok).
    apply references_Ok in H3 as [_ [= Hrow Ht3]]. right. split; [done|]. exists u, row. rewrite <- Hrow. split_and!; try done.
    rewrite <- Ht3, H4, Ht2, Ht1. by subst row.
  - left. split; [by left|]. unfold untouched. rewrite <- Ht1, <- Ht2. apply st_map_err_inv in H3 as (r3 & H3 & ->).
    apply ST_bind_inv in H3 as [([] & s4 & H4%reads_connection & H3)|(r4 & H4%reads_connection & _)]; [|done].
    apply st_map_err_inv in H3 as (r5 & H3 & ->). rewrite (statement_not_ok _ _ _ _ H3); [done|]. intros x ->. by apply (Hr' x).
Qed.
Lemma deletion_request_reports now d id hash project s r s' :
  create_account_deletion_request enclave_key now d id hash project s = (r, s') ->
  (not_ok r \/ r = Ok tt /\ (faults s = [] -> forall u, u ∈ users (tables s) -> uuid u <> id)) /\ untouched s s' \/
  r = Ok tt /\ exists u row, u ∈ users (tables s) /\ uuid u = id /\ project_id u = project /\
    d_user_id row = id /\ d_project_id row = project /\ d_hashed_secret row = hash /\ is_deleted row = false /\
    tables s' = set_account_deletion_requests (account_deletion_requests (tables s) ++ [row]) (tables s).
Proof.
  unfold create_account_deletion_request.
  intros [(u & s1 & H1%st_try_Ok & Ht1 & Hr)|[? ?]]%prefix_inv; [|left; split; [by left|done]|apply reads_try, reads_get_by_uuid].
  pose proof (user_read_finds (e := UserError) _ _ _ _ H1) as Hfind.
  destruct u as [u|x|]; [|left; injection Hr as <- <-; split; [right; split; [done|]|done]; intros Hf;
    by eapply first_absent; [by apply Hfind|]..].
  apply user_read_by in H1 as [Hid%is_user_true Hin].
  case_decide as Hp; [left; injection Hr as <- <-; by split; [left|]|].
  do 2 (apply prefix_inv in Hr as [(? & ? & _ & ? & Hr)|[? ?]];
    [|left; unfold untouched in *; split; [by left|congruence]|apply reads_lift]).
  apply ST_bind_inv in Hr as [(row & s3 & H3 & [= <- <-])|(r' & H3 & Hr' & Hn)].
  - apply st_map_err_Ok in H3. apply ST_bind_Ok in H3 as ([] & s4 & H4%reads_connection & H3%st_map_err_Ok%execute_Ok).
    injection H3 as Hrow Ht3. right. split; [done|]. exists u, row. rewrite <- Hrow. split_and!; try done. rewrite <- Ht3.
    assert (tables s4 = tables s) as -> by congruence. by subst row.
  - left. split; [by left|]. unfold untouched. apply st_map_err_inv in H3 as (r3 & H3 & ->).
    apply ST_bind_inv in H3 as [([] & s4 & H4%reads_connection & H3)|(r4 & H4%reads_connection & _)]; [|congruence].
    apply st_map_err_inv in H3 as (r5 & H3 & ->). unfold deletion_insert, execute in H3.
    rewrite (statement_not_ok _ _ _ _ H3); [congruence|]. intros x' ->. by apply (Hr' x').
Qed.
Lemma oauth_is_step now d n p pn pu token seed s r s' :
  owners (tables s) -> new_to (tables s :: h) (new_uuid d) -> n_password_enc n = None ->
  create_user_with_oauth_seed_wrap enclave_key now d n p pn pu token seed s = (r, s') ->
  (not_ok r /\ untouched s s') \/
  exists u, r = Ok u /\ users (tables s') = users (tables s) ++ [u] /\ step (tables s :: h) (tables s) (tables s').
Proof.
  intros Ho Hnew Hp Hr. pose proof Hr as Heff. apply oauth_effect in Heff as [?|(u & w & -> & _ & _ & _ & _ & _ & _ & Hu & _)];
    [by left| |done].
  right. exists u. split; [done|]. split; [done|]. by eapply step_oauth.
Qed.

End calls.

(** ** Runs without faults *)
Lemma db_runs {A} (m : ST State DBError A) s a s' : m s = (Ok a, s') -> db m s = (Ok a, s').
Proof. unfold db, st_map_err. by intros ->. Qed.

Lemma first_only {A} (p : A -> bool) l x :
  x ∈ l -> p x = true -> (forall y, y ∈ l -> p y = true -> y = x) -> first p l = Some x.
Proof.
  intros Hx Hp Hu. destruct (first p l) as [y|] eqn:Hf; [by apply first_Some in Hf as [? ?]; f_equal; auto|].
  unfold first in Hf. apply fmap_None, list_find_None in Hf. rewrite Forall_forall in Hf. by destruct (Hf x).
Qed.

Lemma get_user_runs t u s :
  NoDup (uuid <$> users t) -> u ∈ users t -> tables s = t -> faults s = [] ->
  get_user_by_uuid (uuid u) s = (Ok u, advance (advance s)).
Proof.
  intros Hnd Hu Ht Hs. unfold get_user_by_uuid, user_get_by_uuid, mbind, ST_bind, st_map_err.
  rewrite connection_runs by done. rewrite select_runs by (by apply advance_quiet).
  assert (tables (advance s) = t) as -> by done. cbn [map_err]. rewrite (first_only _ _ u); [done|done| |].
  - by apply is_user_true.
  - intros v Hv Hid%is_user_true. by eapply user_unique.
Qed.

Lemma decrypt_seed_runs u w b seed s :
  matching_rows (wrapping_of (uuid u) password_kind) (seed_wrappings (tables s)) = [w] ->
  wrapping_version w = SeedWrap.SEED_WRAP_VERSION_V1 ->
  SeedWrap.decrypt_seed_v1 enclave_key (seed_enc w) (uuid u) (project_id u) SeedWrap.Password b = Ok seed ->
  faults s = [] ->
  decrypt_seed_for_auth_context enclave_key u
    (Claims.context_new Claims.Password (project_id u) (SeedWrap.binding_bytes b)) s = (Ok seed, advance (advance s)).
Proof.
  intros Hm Hv Hd Hs. unfold decrypt_seed_for_auth_context. cbn [Claims.context_new Claims.c_project_id Claims.method kind_of].
  rewrite decide_False by tauto. unfold mbind, ST_bind.
  rewrite (db_runs _ _ [w] (advance (advance s))); [|].
  - unfold st_lift. cbn [try_candidates Claims.c_auth_binding]. rewrite decide_False by tauto.
    destruct b as [b]. cbn [Claims.context_new Claims.c_auth_binding SeedWrap.binding_bytes]. by rewrite Hd.
  - unfold get_user_seed_wrappings_for_user_and_kind, wrapping_get_for_user_and_kind, mbind, ST_bind, st_map_err.
    rewrite connection_runs by done. rewrite select_runs by (by apply advance_quiet). cbn [map_err].
    assert (tables (advance s) = tables s) as -> by done. fold password_kind. by rewrite Hm.
Qed.

Lemma by_email_runs t e p u s :
  first (user_has_email e p) (users t) = Some u -> tables s = t -> faults s = [] ->
  get_user_by_email e p s = (Ok u, advance (advance s)).
Proof.
  intros Hf Ht Hs. unfold get_user_by_email, user_get_by_email, mbind, ST_bind, st_map_err.
  rewrite connection_runs by done. rewrite select_runs by (by apply advance_quiet).
  assert (tables (advance s) = t) as -> by done. cbn [map_err]. by rewrite Hf.
Qed.

(** The credentials of a request name the user [u]. *)
Definition named (t : Tables) (e : option string) (id : option Uuid) (u : User) : Prop :=
  match e with
  | Some e => first (user_has_email e (project_id u)) (users t) = Some u
  | None => id = Some (uuid u)
  end.

Lemma authenticate_runs t u c hash b seed w e id p s :
  creds_ok t -> u ∈ users t -> password_enc u = Some c -> stored c hash ->
  matching_rows (wrapping_of (uuid u) password_kind) (seed_wrappings t) = [w] ->
  wrapping_version w = SeedWrap.SEED_WRAP_VERSION_V1 -> password_auth_binding_for_user enclave_key u hash = Ok b ->
  SeedWrap.decrypt_seed_v1 enclave_key (seed_enc w) (uuid u) (project_id u) SeedWrap.Password b = Ok seed ->
  named t e id u -> tables s = t -> faults s = [] ->
  exists s', tables s' = t /\ faults s' = [] /\
    authenticate_user enclave_key e id p (project_id u) s =
      (Ok (if verify_password p hash
           then Some (MkAuthenticated u (Claims.context_new Claims.Password (project_id u) (SeedWrap.binding_bytes b)))
           else None), s').
Proof.
  intros (Hnd & _ & _) Hu Hp (k & Hk & Hdk & Hutf) Hm Hv Hb Hd Hnamed Ht Hs. unfold authenticate_user.
  assert ((match e with
     | Some e => db (get_user_by_email e (project_id u))
     | None => id ← st_lift (expect id); v ← db (get_user_by_uuid id);
               if decide (project_id v <> project_id u) then st_err AuthenticationError else st_ok v
     end) s = (Ok u, advance (advance s))) as Hlook.
  { destruct e as [e|]; cbn in Hnamed; [apply db_runs; by eapply by_email_runs|]. subst id.
    unfold mbind, ST_bind, st_lift. cbn [expect]. rewrite (db_runs _ _ _ _ (get_user_runs _ _ _ Hnd Hu Ht Hs)).
    by rewrite decide_False by tauto. }
  assert (bool_decide (e = None) && bool_decide (id = None) = false) as ->.
  { destruct e; [done|]. cbn in Hnamed. by subst id. }
  unfold mbind at 1, ST_bind at 1. rewrite Hlook, Hp. unfold mbind, ST_bind, st_lift.
  rewrite Hk. unfold enc. rewrite Hdk. cbn [map_err].
  rewrite Hutf. cbn [ok_or]. destruct (verify_password p _); [|by eexists; split_and!; [| |done]; [done|do 2 apply advance_quiet]].
  unfold password_auth_context_for_user. rewrite Hb. cbn [mbind outcome_bind].
  unfold verify_seed_wrap_for_auth_context, mbind, ST_bind.
  pose proof (decrypt_seed_runs u w b seed (advance (advance s))) as Hrun.
  rewrite Hrun; [|by rewrite <- Hm, <- Ht|done|done|by do 2 apply advance_quiet].
  eexists. split_and!; [| |done]; [done|by do 4 apply advance_quiet].
Qed.

(** C22. However account requests interleave, nobody is locked out: after any
    sequence of registrations, sign-ups through a provider, password changes,
    resets and deletions, each prepared from rows read at any earlier moment,
    failing at any statement, every user with a stored verifier can sign in,
    by e-mail address or by identifier, with exactly the passwords the verifier
    accepts (the password last set among them), and the context this gives
    opens the user's seed. *)
Theorem credentials_stay_usable h t u c :
  history (t :: h) -> u ∈ users t -> password_enc u = Some c ->
  exists salt password seed ctx, verify_password password (generate_hash salt password) = true /\
    forall s, tables s = t -> faults s = [] ->
      (forall e id p, named t e id u -> exists s', tables s' = t /\
        authenticate_user enclave_key e id p (project_id u) s =
          (Ok (if verify_password p (generate_hash salt password) then Some (MkAuthenticated u ctx) else None), s')) /\
      (exists s', tables s' = t /\ decrypt_seed_for_auth_context enclave_key u ctx s = (Ok seed, s')).
Proof.
  intros [Hok _]%history_invariant Hu Hp. pose proof Hok as (_ & _ & Hc). specialize (Hc u Hu).
  unfold cred_ok in Hc. rewrite Hp in Hc.
  destruct Hc as (salt & password & seed & w & Hm & Hv & Hst & (b & Hb & Hd)).
  exists salt, password, seed, (Claims.context_new Claims.Password (project_id u) (SeedWrap.binding_bytes b)).
  split; [apply hash_verifies|]. intros s Ht Hs. split.
  - intros e id p Hn. destruct (authenticate_runs t u c _ b seed w e id p s Hok Hu Hp Hst Hm Hv Hb Hd Hn Ht Hs)
      as (s' & Ht' & _ & Hr). by exists s'.
  - eexists. split; [|apply (decrypt_seed_runs u w b seed s); [by rewrite Ht|done..]]. done.
Qed.

(** ** Changing a password *)
Lemma decrypt_inv u ctx s seed s' :
  decrypt_seed_for_auth_context enclave_key u ctx s = (Ok seed, s') ->
  project_id u = Claims.c_project_id ctx /\
  try_candidates enclave_key u (kind_of (Claims.method ctx)) (SeedWrap.MkBinding (Claims.c_auth_binding ctx))
    (matching_rows (wrapping_of (uuid u) (SeedWrap.CredentialKind_as_str (kind_of (Claims.method ctx))))
       (seed_wrappings (tables s))) = Ok seed.
Proof.
  unfold decrypt_seed_for_auth_context. case_decide as Hp; [done|]. intros (l & s1 & Hl & Hr)%ST_bind_Ok.
  apply st_map_err_Ok, ST_bind_Ok in Hl as ([] & s0 & H0%reads_connection & [-> _]%st_map_err_Ok%select_Ok).
  apply st_lift_inv in Hr as [Hr _]. rewrite H0 in Hr. done.
Qed.

Lemma decrypt_again u ctx s seed s' q :
  decrypt_seed_for_auth_context enclave_key u ctx s = (Ok seed, s') -> tables q = tables s -> faults q = [] ->
  decrypt_seed_for_auth_context enclave_key u ctx q = (Ok seed, advance (advance q)).
Proof.
  intros [Hp Hc]%decrypt_inv Hq Hf. unfold decrypt_seed_for_auth_context. rewrite decide_False by tauto.
  unfold mbind, ST_bind. erewrite (db_runs _ _ _ (advance (advance q))).
  - unfold st_lift. by rewrite Hc.
  - unfold get_user_seed_wrappings_for_user_and_kind, wrapping_get_for_user_and_kind, mbind, ST_bind, st_map_err.
    rewrite connection_runs by done. rewrite select_runs by (by apply advance_quiet). cbn [map_err].
    assert (tables (advance q) = tables s) as -> by done. done.
Qed.

Lemma new_wrapping_encrypts nonce u v seed n :
  new_password_seed_wrapping_for_user enclave_key nonce u v seed = Ok n ->
  exists b, password_auth_binding_for_user enclave_key u v = Ok b /\
    SeedWrap.encrypt_seed_v1 nonce enclave_key seed (uuid u) (project_id u) SeedWrap.Password b = Ok (nw_seed_enc n).
Proof.
  unfold new_password_seed_wrapping_for_user, enc. intros (b & Hb & Hn)%bind_Ok. exists b. split; [done|].
  cbv zeta in Hn. inv_ok. done.
Qed.

Lemma password_binding_verifier u v v' b :
  SeedWrap.is_i32 (project_id u) ->
  password_auth_binding_for_user enclave_key u v = Ok b -> password_auth_binding_for_user enclave_key u v' = Ok b ->
  v = v' \/ mac_collision.
Proof.
  unfold password_auth_binding_for_user, enc. destruct (password_login_identifier_for_user u) as [kind i].
  intros Hp Hb%map_err_Ok Hb'%map_err_Ok.
  destruct (SeedWrap.auth_binding_facts enclave_key (SeedWrap.PasswordFacts (project_id u) (uuid u) kind i v)
    (SeedWrap.PasswordFacts (project_id u) (uuid u) kind i v') b Hp Hp Hb Hb') as [[= ->]|?]; auto.
Qed.

(** One password wrapping: what opens it was sealed for that verifier. *)
Lemma wrapping_opens_for_verifier u v seed nw w nonce t q ctx v' seed' q' :
  SeedWrap.is_i32 (project_id u) -> length nonce = 12 ->
  new_password_seed_wrapping_for_user enclave_key nonce u v seed = Ok nw -> seed_enc w = nw_seed_enc nw ->
  matching_rows (wrapping_of (uuid u) password_kind) (seed_wrappings t) = [w] ->
  tables q = t -> password_auth_context_for_user enclave_key u v' = Ok ctx ->
  decrypt_seed_for_auth_context enclave_key u ctx q = (Ok seed', q') ->
  v' = v \/ aead_confusion aes_256_gcm \/ mac_collision.
Proof.
  intros Hp Hn (b & Hb & He)%new_wrapping_encrypts Hw Hm <- Hctx [_ Hd]%decrypt_inv.
  unfold password_auth_context_for_user in Hctx. apply bind_Ok in Hctx as (b' & Hb' & [= <-]).
  cbn [Claims.context_new Claims.method kind_of Claims.c_auth_binding] in Hd. fold password_kind in Hd. rewrite Hm in Hd.
  cbn [try_candidates] in Hd. case_decide; [done|].
  destruct (SeedWrap.decrypt_seed_v1 _ _ _ _ _ _) as [x| |] eqn:Hx; try done. rewrite Hw in Hx.
  destruct (SeedWrap.unwrap_contexts _ _ _ _ _ _ _ _ _ _ _ _ _ _ Hp Hp Hn He Hx) as [(_ & _ & _ & Heq)|?]; [|auto].
  assert (b' = b) as -> by (destruct b, b'; cbn in Heq; congruence).
  destruct (password_binding_verifier u v' v b Hp Hb' Hb); auto.
Qed.

Lemma change_Ok now d u ctx password s ctx' s' :
  draws_ok d -> update_user_password_and_seed_wrap enclave_key now d u ctx password s = (Ok ctx', s') ->
  exists seed nw id s1 s2, tables s1 = tables s /\ decrypt_seed_for_auth_context enclave_key u ctx s1 = (Ok seed, s2) /\
    new_password_seed_wrapping_for_user enclave_key (seed_nonce d) u (generate_hash (salt d) password) seed = Ok nw /\
    password_auth_context_for_user enclave_key u (generate_hash (salt d) password) = Ok ctx' /\
    matching_rows (wrapping_of (uuid u) password_kind) (seed_wrappings (tables s')) = [wrapping_row id now nw].
Proof.
  intros (Hpn & Hsn & _). unfold update_user_password_and_seed_wrap.
  intros (old & s1 & [_ ->]%st_lift_inv & Hr)%ST_bind_Ok.
  apply ST_bind_Ok in Hr as (seed & s2 & Hdec & Hr). pose proof (reads_decrypt _ _ _ _ _ Hdec) as Ht2.
  apply ST_bind_Ok in Hr as ([verifier c] & s3 & Hver & Hr). pose proof (reads_lift _ _ _ _ Hver) as Ht3.
  apply prepare_verifier in Hver. cbn [fst snd] in Hver.
  apply ST_bind_Ok in Hr as (nw & s4 & [Hnw ->]%st_lift_inv & Hr). symmetry in Hnw.
  apply ST_bind_Ok in Hr as (ctx1 & s4 & [Hctx ->]%st_lift_inv & Hr). symmetry in Hctx.
  apply ST_bind_Ok in Hr as ([] & s5 & Hch%st_map_err_Ok & Hr).
  apply ST_bind_Ok in Hr as ([] & s6 & Hvf & [= <- <-]).
  pose proof (reads_bind _ (fun _ => st_ok tt) (reads_decrypt u ctx1) (fun _ => reads_ok tt) _ _ _ Hvf) as Ht6.
  apply stored_verifier in Hver as [-> _]; [|done].
  pose proof (new_wrapping_opens _ _ _ _ _ Hnw) as (Huid & Hkind & _).
  apply change_effect in Hch as [[Hbad _]|(_ & _ & id & Ht)]; [by destruct (Hbad tt)|].
  exists seed, nw, id, s, s2. split_and!; [done..|].
  rewrite Ht6, Ht. cbn [seed_wrappings set_seed_wrappings]. rewrite matching_rows_app, matching_deleted. unfold matching_rows.
  rewrite filter_cons_True; [done|]. unfold wrapping_of. cbn. by rewrite Huid, Hkind, !bool_decide_true.
Qed.

(** A password change keeps the seed and rotates the credential.  The seed
    the old context opened is the one the returned context opens afterwards;
    and of all the contexts of passwords of this user, only that of the new
    verifier opens the wrapping any more, short of a collision of HMAC-SHA256
    or a ciphertext valid under two AES-GCM contexts. *)
Theorem password_change_rotates now d u ctx password s ctx' s' :
  SeedWrap.is_i32 (project_id u) -> draws_ok d ->
  update_user_password_and_seed_wrap enclave_key now d u ctx password s = (Ok ctx', s') ->
  (exists seed,
    (forall q, tables q = tables s -> faults q = [] ->
       exists q', decrypt_seed_for_auth_context enclave_key u ctx q = (Ok seed, q')) /\
    (forall q, tables q = tables s' -> faults q = [] ->
       exists q', decrypt_seed_for_auth_context enclave_key u ctx' q = (Ok seed, q'))) /\
  (forall q v old_ctx seed q', tables q = tables s' -> password_auth_context_for_user enclave_key u v = Ok old_ctx ->
     decrypt_seed_for_auth_context enclave_key u old_ctx q = (Ok seed, q') ->
     v = generate_hash (salt d) password \/ aead_confusion aes_256_gcm \/ mac_collision).
Proof.
  intros Hp Hd (seed & nw & id & s1 & s2 & Ht1 & Hdec & Hnw & Hctx & Hm)%change_Ok; [|done].
  pose proof (new_wrapping_opens _ _ _ _ _ Hnw) as (_ & _ & Hver & b & Hb & Hopen).
  split.
  - exists seed. split; intros q Hq Hf; [eexists; eapply decrypt_again; [exact Hdec|congruence|done]|].
    unfold password_auth_context_for_user in Hctx. rewrite Hb in Hctx. injection Hctx as <-.
    eexists. apply (decrypt_seed_runs u (wrapping_row id now nw)); [by rewrite Hq|done..].
  - intros q v old_ctx seed' q' Hq Hold Hr. destruct Hd as (_ & Hsn & _).
    by eapply (wrapping_opens_for_verifier u _ seed nw (wrapping_row id now nw)).
Qed.

(** ** Resetting a password *)
Definition proves_reset (now : Z) (e code secret : string) (project : Z) (t : Tables) (u : User)
    (request : PasswordResetRequest) : Prop :=
  user_has_email e project u = true /\ u ∈ users t /\ is_Some (email u) /\ is_Some (password_enc u) /\
  request ∈ password_reset_requests t /\ r_user_id request = uuid u /\ is_reset request = false /\
  SeedWrap.password_reset_code_mac enclave_key project (uuid u) code = Ok (r_encrypted_code request) /\
  (now <= r_expiration_time request)%Z /\ generate_reset_hash secret = r_hashed_secret request.

Lemma confirm_password_reset_Ok now d e code secret password project s s' :
  length (password_nonce d) = 12 ->
  confirm_password_reset enclave_key now d e code secret password project s = (Ok tt, s') ->
  exists u request words c nw id, proves_reset now e code secret project (tables s) u request /\
    length (matching_rows (pending now (uuid u) request) (password_reset_requests (tables s))) = 1 /\
    generate_twelve_word_seed d = Ok words /\ stored c (generate_hash (salt d) password) /\
    new_password_seed_wrapping_for_user enclave_key (seed_nonce d) u (generate_hash (salt d) password) (as_bytes words) = Ok nw /\
    tables s' = reset_tables now u request c (wrapping_row id now nw) (tables s).
Proof.
  intros Hn. unfold confirm_password_reset.
  intros (u & s1 & H1%st_map_err_Ok & Hr)%ST_bind_Ok. pose proof (reads_get_by_email _ _ _ _ _ H1) as Ht1.
  apply (user_read_by (e := UserError)) in H1 as [Hemail Hu].
  destruct (_ || _) eqn:Hsome; [done|]. apply orb_false_iff in Hsome as [He%bool_decide_eq_false Hpw%bool_decide_eq_false].
  apply ST_bind_Ok in Hr as (mac & s2 & [Hmac ->]%st_lift_inv & Hr). symmetry in Hmac. apply map_err_Ok in Hmac.
  apply ST_bind_Ok in Hr as (request & s3 & Hreq%st_map_err_Ok & Hr).
  apply ST_bind_Ok in Hreq as ([] & s0 & H0%reads_connection & [Hreq Ht3]%st_map_err_Ok%select_Ok).
  destruct request as [request|]; [|done]. symmetry in Hreq. apply first_Some in Hreq as [Hreq Hin].
  apply andb_true_iff in Hreq as [[Hru%bool_decide_eq_true Hrc%bool_decide_eq_true]%andb_true_iff Hrr%negb_true_iff].
  destruct (reset_is_expired _ _) eqn:Hexp; [done|]. apply bool_decide_eq_false in Hexp.
  case_decide as Hsec; [|done].
  apply ST_bind_Ok in Hr as (words & s4 & [Hwords ->]%st_lift_inv & Hr).
  apply ST_bind_Ok in Hr as ([verifier c] & s5 & Hver & Hr). pose proof (reads_lift _ _ _ _ Hver) as Ht5.
  apply prepare_verifier, stored_verifier in Hver as [Hverifier Hst]; [|done]. cbn [fst snd] in Hverifier, Hst. subst verifier.
  apply ST_bind_Ok in Hr as (nw & s6 & [Hnw ->]%st_lift_inv & Hr). symmetry in Hnw.
  apply ST_bind_Ok in Hr as ([] & s6 & [_ ->]%st_lift_inv & Hr%st_map_err_Ok).
  apply reset_effect in Hr as [[Hbad _]|(_ & _ & Hlen & id & Ht)];
    [by destruct (Hbad tt)| |by apply new_wrapping_opens in Hnw as [-> _]].
  assert (tables s5 = tables s) as Heq by congruence. rewrite Heq in Hlen, Ht.
  assert (tables s0 = tables s) as Heq0 by congruence. rewrite Heq0 in Hin.
  exists u, request, words, c, nw, id. unfold proves_reset. split_and!; try done; try (by apply not_eq_None_Some); [congruence|lia].
Qed.

(** C34. A reset needs proof and is single-use.  It succeeds only for a
    registered e-mail address with a password, an unexpired and unused request
    of that user whose stored code is the MAC of the code given, and the secret
    the request was made with; afterwards every reset request of the user is
    used up. *)
Theorem reset_needs_proof now d e code secret password project s s' :
  length (password_nonce d) = 12 -> NoDup (r_id <$> password_reset_requests (tables s)) ->
  confirm_password_reset enclave_key now d e code secret password project s = (Ok tt, s') ->
  exists u request, proves_reset now e code secret project (tables s) u request /\
    (now < r_expiration_time request)%Z /\
    forall r, r ∈ password_reset_requests (tables s') -> r_user_id r = uuid u -> is_reset r = true.
Proof.
  intros Hn Hnd (u & request & words & c & nw & id & Hpr & Hlen & _ & _ & _ & Ht)%confirm_password_reset_Ok; [|done].
  exists u, request. split; [done|].
  assert (forall r, r ∈ password_reset_requests (tables s) -> r_id r = r_id request -> r = request) as Huniq.
  { intros r Hr Hid. apply list_elem_of_lookup in Hr as [i Hi].
    destruct Hpr as (_ & _ & _ & _ & [j Hj]%list_elem_of_lookup & _).
    assert (i = j) as ->; [|congruence].
    eapply NoDup_lookup; [exact Hnd|by rewrite list_lookup_fmap, Hi|rewrite list_lookup_fmap, Hj; cbn; by f_equal]. }
  assert (pending now (uuid u) request request = true) as Hpend.
  { destruct (matching_rows _ _) as [|r l] eqn:Hm; [done|].
    assert (r ∈ matching_rows (pending now (uuid u) request) (password_reset_requests (tables s)))
      as [Hp Hin]%elem_of_matching by (rewrite Hm; left).
    assert (r = request) as ->; [|done]. apply Huniq; [done|]. unfold pending in Hp.
    repeat (apply andb_true_iff in Hp as [Hp ?]). by apply bool_decide_eq_true in Hp. }
  split; [by apply andb_true_iff in Hpend as [_ ?%bool_decide_eq_true]|].
  rewrite Ht. cbn. intros r (r1 & (r0 & Hr0 & ->)%elem_of_updated & ->)%elem_of_updated Huid.
  destruct (pending now (uuid u) request r0) eqn:Hp0; cbn.
  - by rewrite andb_false_r.
  - destruct (decide (r_id r0 = r_id request)) as [Heq|Hne]; [apply Huniq in Heq; congruence|].
    cbn in Huid. destruct (is_reset r0) eqn:Hr; [by rewrite andb_false_r|].
    assert (r_user_id r0 = uuid u) as Hu.
    { revert Huid. generalize (bool_decide (r_user_id r0 = uuid u) && negb (bool_decide (r_id r0 = r_id request)) && negb false).
      by intros []. }
    by rewrite Hu, (bool_decide_true (uuid u = uuid u)), (bool_decide_false (r_id r0 = _)).
Qed.

(** What the tables hold of the other users. *)
Definition others_rows (id : Uuid) (t : Tables) : Tables :=
  MkTables (filter (fun u => uuid u <> id) (users t)) (others id (seed_wrappings t))
    (filter (fun k => k_user_id k <> id) (user_kv t))
    (filter (fun r => r_user_id r <> id) (password_reset_requests t))
    (filter (fun d => d_user_id d <> id) (account_deletion_requests t))
    (filter (fun o => o_user_id o <> id) (oauth_connections t))
    (filter (fun v => v_user_id v <> id) (email_verifications t))
    (oauth_providers t)
    (filter (fun k => ak_user_id k <> id) (user_api_keys t))
    (filter (fun r => r.2 <> id) (owned t)).

Lemma filter_delete {A} (owner : A -> Uuid) (P : A -> Prop) `{!forall x, Decision (P x)} id (l : list A) :
  (forall x, ~ P x -> owner x = id) ->
  filter (fun x => owner x <> id) (filter P l) = filter (fun x => owner x <> id) l.
Proof.
  intros HP. rewrite list_filter_filter. apply list_filter_iff. intros x. destruct (decide (P x)); naive_solver.
Qed.
Lemma filter_update {A} (owner : A -> Uuid) p (f : A -> A) id (l : list A) :
  (forall x, owner (f x) = owner x) -> (forall x, x ∈ l -> p x = true -> owner x = id) ->
  filter (fun x => owner x <> id) (update_rows p f l) = filter (fun x => owner x <> id) l.
Proof.
  intros Hf Hp. unfold update_rows. induction l as [|x l IH]; [done|].
  rewrite fmap_cons, !filter_cons.
  assert (owner (if p x then f x else x) = owner x) as -> by (by destruct (p x)).
  rewrite IH by (intros; apply Hp; [by right|done]).
  case_decide as Hx; [|done]. destruct (p x) eqn:Hpx; [|done]. destruct Hx. apply Hp; [left|done].
Qed.

Lemma reset_others now u request c w t :
  w_user_id w = uuid u -> others_rows (uuid u) (reset_tables now u request c w t) = others_rows (uuid u) t.
Proof.
  intros Hw. unfold others_rows, reset_tables, others, delete_rows.
  f_equal; cbn [users seed_wrappings user_kv password_reset_requests oauth_connections owned].
  - apply (filter_update uuid); [done|]. by intros x _ ?%is_user_true.
  - rewrite filter_app, filter_cons_False, app_nil_r by tauto.
    apply (filter_delete w_user_id). intros x Hx. by apply not_false_iff_true, bool_decide_eq_true in Hx.
  - apply (filter_delete k_user_id). intros x Hx. by apply not_false_iff_true, bool_decide_eq_true in Hx.
  - assert (forall x, pending now (uuid u) request x = true -> r_user_id x = uuid u) as Hpend.
    { unfold pending. intros x [[[_ Hx%bool_decide_eq_true]%andb_true_iff _]%andb_true_iff _]%andb_true_iff. done. }
    rewrite (filter_update r_user_id), (filter_update r_user_id); [done|done|intros x _; apply Hpend|done|].
    by intros x _ [[Hx%bool_decide_eq_true _]%andb_true_iff _]%andb_true_iff.
  - apply (filter_delete o_user_id). intros x Hx. by apply not_false_iff_true, bool_decide_eq_true in Hx.
  - apply (filter_delete snd). intros x Hx. apply dec_stable. naive_solver.
Qed.

(** A password reset starts over.  The account keeps one wrapping, of a
    freshly drawn seed, which the context of the new password opens; no key
    value pairs, provider logins, or rows of the wiped tables remain; and no
    row of any other user changes. *)
Theorem reset_wipes now d e code secret password project s s' :
  length (password_nonce d) = 12 ->
  confirm_password_reset enclave_key now d e code secret password project s = (Ok tt, s') ->
  exists u words ctx, user_has_email e project u = true /\ u ∈ users (tables s) /\
    generate_twelve_word_seed d = Ok words /\
    password_auth_context_for_user enclave_key u (generate_hash (salt d) password) = Ok ctx /\
    (exists w, filter (fun w => w_user_id w = uuid u) (seed_wrappings (tables s')) = [w]) /\
    (forall q, tables q = tables s' -> faults q = [] ->
       exists q', decrypt_seed_for_auth_context enclave_key u ctx q = (Ok (as_bytes words), q')) /\
    (forall k, k ∈ user_kv (tables s') -> k_user_id k <> uuid u) /\
    (forall o, o ∈ oauth_connections (tables s') -> o_user_id o <> uuid u) /\
    (forall name, name ∈ TABLES_BEFORE_KV ++ TABLES_AFTER_KV -> (name, uuid u) ∉ owned (tables s')) /\
    others_rows (uuid u) (tables s') = others_rows (uuid u) (tables s).
Proof.
  intros Hn (u & request & words & c & nw & id & Hpr & _ & Hwords & Hst & Hnw & Ht)%confirm_password_reset_Ok; [|done].
  pose proof (new_wrapping_opens _ _ _ _ _ Hnw) as (Huid & Hkind & Hver & b & Hb & Hopen).
  exists u, words, (Claims.context_new Claims.Password (project_id u) (SeedWrap.binding_bytes b)).
  assert (seed_wrappings (tables s') = delete_rows (fun w => bool_decide (w_user_id w = uuid u)) (seed_wrappings (tables s))
    ++ [wrapping_row id now nw]) as Hsw by (by rewrite Ht).
  assert (filter (fun w => w_user_id w = uuid u) (seed_wrappings (tables s')) = [wrapping_row id now nw]) as Hone.
  { rewrite Hsw, filter_app, filter_none, filter_cons_True; [done|done|].
    apply Forall_forall. intros w [Hw _]%elem_of_deleted. by apply bool_decide_eq_false in Hw. }
  destruct Hpr as (He & Hu & _). split_and!; try done.
  - unfold password_auth_context_for_user. by rewrite Hb.
  - by eexists.
  - intros q Hq Hf. eexists. apply (decrypt_seed_runs u (wrapping_row id now nw)); [|done..]. rewrite Hq.
    assert (forall l, matching_rows (wrapping_of (uuid u) password_kind) l =
      matching_rows (wrapping_of (uuid u) password_kind) (filter (fun w => w_user_id w = uuid u) l)) as ->.
    { intros l. unfold matching_rows. rewrite list_filter_filter. apply list_filter_iff. intros w. unfold wrapping_of.
      rewrite andb_true_iff, !bool_decide_eq_true. tauto. }
    rewrite Hone. unfold matching_rows. rewrite filter_cons_True; [done|]. unfold wrapping_of. cbn.
    by rewrite Huid, Hkind, !bool_decide_true.
  - intros k. rewrite Ht. intros [Hk _]%elem_of_deleted. by apply bool_decide_eq_false in Hk.
  - intros o. rewrite Ht. intros [Ho _]%elem_of_deleted. by apply bool_decide_eq_false in Ho.
  - intros name Hname. rewrite Ht. intros [Hno _]%list_elem_of_filter. by apply Hno.
  - rewrite Ht. by apply reset_others.
Qed.

(** ** Deleting an account *)
Lemma delete_tables now u request s s' :
  mark_and_delete_user now u request s = (Ok tt, s') ->
  exists s0 s1, deletion_mark_as_deleted now request s0 = (Ok tt, s1) /\ tables s0 = tables s /\
    exists s2, user_delete u s1 = (Ok tt, s2) /\ tables s' = tables s2.
Proof.
  intros ([] & s0 & H1%reads_connection & H2)%ST_bind_Ok.
  apply transaction_inv in H2 as [([] & s1 & s2 & _ & Ht1 & Hb & Ht2)|[Hn _]]; [|by destruct (Hn tt)].
  apply ST_bind_Ok in Hb as ([] & s3 & Hs3%st_map_err_Ok & Hb).
  apply ST_bind_Ok in Hb as ([] & s4 & Hs4%st_map_err_Ok & Hb). injection Hb as <-.
  exists s1, s3. split_and!; [done|congruence|]. by exists s4.
Qed.

Definition proves_deletion (now : Z) (code secret : string) (t : Tables) (id : Uuid)
    (request : AccountDeletionRequest) : Prop :=
  request ∈ account_deletion_requests t /\ d_user_id request = id /\ is_deleted request = false /\
  (now < d_expiration_time request)%Z /\ generate_reset_hash secret = d_hashed_secret request /\
  exists k code_bytes, enclave_secret enclave_key = Ok k /\ uuid_parse_str code = Some code_bytes /\
    Encrypt.encrypt_key_deterministic k code_bytes = Ok (d_encrypted_code request).

(** An account deletion needs the code and the secret of an open request of
    that user, and then removes the user and every row that refers to it; the
    request is closed, and the rows of all other users stay as they were. *)
Theorem deletion_complete now id code secret s s' :
  confirm_account_deletion enclave_key now id code secret s = (Ok tt, s') ->
  exists request, proves_deletion now code secret (tables s) id request /\
    no_user id (tables s') /\
    (forall w, w ∈ seed_wrappings (tables s') -> w_user_id w <> id) /\
    (forall k, k ∈ user_kv (tables s') -> k_user_id k <> id) /\
    (forall r, r ∈ password_reset_requests (tables s') -> r_user_id r <> id) /\
    (forall o, o ∈ oauth_connections (tables s') -> o_user_id o <> id) /\
    (forall v, v ∈ email_verifications (tables s') -> v_user_id v <> id) /\
    (forall k, k ∈ user_api_keys (tables s') -> ak_user_id k <> id) /\
    (forall r, r ∈ owned (tables s') -> r.2 <> id) /\
    (forall r, r ∈ account_deletion_requests (tables s') -> d_id r = d_id request -> is_deleted r = true) /\
    ((forall r, r ∈ account_deletion_requests (tables s) -> d_id r = d_id request -> r = request) ->
     others_rows id (tables s') = others_rows id (tables s)).
Proof.
  unfold confirm_account_deletion.
  intros (u & s1 & H1%st_map_err_Ok & Hr)%ST_bind_Ok. pose proof (reads_get_by_uuid _ _ _ _ H1) as Ht1.
  apply (user_read_by (e := UserError)) in H1 as [Hid%is_user_true Hu]. subst id.
  apply ST_bind_Ok in Hr as (cb & s2 & [Hcb ->]%st_lift_inv & Hr). symmetry in Hcb. apply ok_or_Ok in Hcb.
  apply ST_bind_Ok in Hr as (k & s2 & [Hk ->]%st_lift_inv & Hr).
  apply ST_bind_Ok in Hr as (ec & s2 & [Hec ->]%st_lift_inv & Hr). symmetry in Hec. apply lift_Ok in Hec.
  apply ST_bind_Ok in Hr as (request & s3 & Hreq%st_map_err_Ok & Hr).
  apply ST_bind_Ok in Hreq as ([] & s0 & H0%reads_connection & [Hreq Ht3]%st_map_err_Ok%select_Ok).
  destruct request as [request|]; [|done]. symmetry in Hreq. apply first_Some in Hreq as [Hreq Hin].
  apply andb_true_iff in Hreq as [[[Hru%bool_decide_eq_true Hrc%bool_decide_eq_true]%andb_true_iff
    Hrr%negb_true_iff]%andb_true_iff Hexp%bool_decide_eq_true].
  destruct (deletion_is_expired _ _); [done|]. case_decide as Hsec; [|done].
  apply st_map_err_Ok, delete_tables in Hr as (s4 & s5 & [= Hs5]%execute_Ok & Ht4 & s6 & [= Hs6]%execute_Ok & Ht6).
  assert (tables s0 = tables s) as Heq0 by congruence. rewrite Heq0 in *.
  assert (tables s4 = tables s) as Heq4 by congruence. rewrite Heq4 in *.
  exists request. split; [unfold proves_deletion; split_and!; try done; exists k, cb; by rewrite Hrc|].
  rewrite Ht6, <- Hs6. cbn [users seed_wrappings user_kv password_reset_requests account_deletion_requests
    oauth_connections email_verifications oauth_providers user_api_keys owned]. rewrite <- Hs5. cbn [users seed_wrappings user_kv
    password_reset_requests account_deletion_requests oauth_connections email_verifications oauth_providers user_api_keys owned set_account_deletion_requests].
  split_and!; try (intros ? [Hx%bool_decide_eq_false _]%elem_of_deleted; exact Hx).
  - intros r (r0 & Hr0 & ->)%elem_of_updated. case_bool_decide as Hd; [done|]. by intros.
  - intros Huniq. unfold others_rows, others, delete_rows.
    f_equal; cbn [users seed_wrappings user_kv password_reset_requests account_deletion_requests
      oauth_connections email_verifications oauth_providers user_api_keys owned].
    5: { apply (filter_update d_user_id); [done|]. intros x Hx Hd%bool_decide_eq_true. by rewrite (Huniq x Hx Hd). }
    1: apply (filter_delete uuid). 2: apply (filter_delete w_user_id). 3: apply (filter_delete k_user_id).
    4: apply (filter_delete r_user_id). 5: apply (filter_delete o_user_id). 6: apply (filter_delete v_user_id).
    7: apply (filter_delete ak_user_id). 8: apply (filter_delete snd).
    all: intros x Hx; by apply not_false_iff_true, bool_decide_eq_true in Hx.
Qed.
End invariant.
End effects.

(** ** Witnesses *)
Section witnesses.
#[local] Existing Instances ToyCrypto.toy ToyCrypto.toy_laws.
#[local] Existing Instances ToyAccounts.toy_citext ToyAccounts.toy_uuid ToyAccounts.toy_accounts ToyAccounts.toy_account_laws.

Definition key : bytes := replicate 32 Byte.x07.
Definition demo_draws : Draws :=
  MkDraws [Byte.x01] (replicate 12 Byte.x02) (replicate 12 Byte.x03) (replicate 16 Byte.x04) (replicate 16 Byte.x0a) []
    (replicate 16 Byte.x0b).
Definition empty : Tables := MkTables [] [] [] [] [] [] [] [] [] [].
Definition demo_state (t : Tables) : State := MkState t 1 [].
Definition demo_verifier : string * bytes :=
  match encrypt_user_password_verifier key demo_draws "pw" with Ok p => p | _ => ("", []) end.
Definition demo_new : NewUser := MkNewUser None (Some "a@b.c") (Some demo_verifier.2) 5.
Definition demo_seed : bytes := as_bytes (ToyCrypto.hex (replicate 16 Byte.x04)).
Definition registered : outcome Error User * State :=
  create_user_with_password_seed_wrap key 0 demo_draws demo_new demo_verifier.1 demo_seed (demo_state empty).
Definition demo_tables : Tables := tables registered.2.
Definition demo_user : User := default (MkUser 0 [] None None None 0 0 0) (head (users demo_tables)).

Lemma demo_history : history key [demo_tables; empty].
Proof.
  eapply history_step; [by apply history_start|].
  apply (step_register key [empty] empty _ 0 demo_draws demo_new "pw" demo_verifier.1 demo_verifier.2 demo_seed
    (demo_state empty) registered.1 registered.2); try done.
  intros t ->%list_elem_of_singleton u Hu. by apply elem_of_nil in Hu.
Qed.

Lemma credentials_stay_usable_witness :
  exists salt password seed ctx, verify_password password (generate_hash salt password) = true /\
    forall s, tables s = demo_tables -> faults s = [] ->
      (forall e id p, named demo_tables e id demo_user -> exists s', tables s' = demo_tables /\
        authenticate_user key e id p 5 s =
          (Ok (if verify_password p (generate_hash salt password) then Some (MkAuthenticated demo_user ctx) else None), s')) /\
      (exists s', tables s' = demo_tables /\ decrypt_seed_for_auth_context key demo_user ctx s = (Ok seed, s')).
Proof.
  apply (credentials_stay_usable (cl := ToyCrypto.toy_laws) (al := ToyAccounts.toy_account_laws)
    key [empty] demo_tables demo_user demo_verifier.2).
  - apply demo_history.
  - vm_compute. left.
  - vm_compute. reflexivity.
Defined.

Definition quiet (s : State) : State := demo_state (tables s).
Definition no_projects : Uuid -> option Z := fun _ => None.

Definition demo_context : Claims.AuthContext :=
  match password_auth_context_for_user key demo_user demo_verifier.1 with
  | Ok c => c
  | _ => Claims.context_new Claims.Password 0 []
  end.
Definition changed : outcome Error Claims.AuthContext * State :=
  update_user_password_and_seed_wrap key 1 demo_draws demo_user demo_context "new" (quiet registered.2).
Definition changed_context : Claims.AuthContext := match changed.1 with Ok c => c | _ => demo_context end.

Lemma password_change_rotates_witness :
  changed.1 = Ok changed_context /\
  (forall q v old_ctx seed q', tables q = tables changed.2 -> password_auth_context_for_user key demo_user v = Ok old_ctx ->
     decrypt_seed_for_auth_context key demo_user old_ctx q = (Ok seed, q') ->
     v = generate_hash (salt demo_draws) "new" \/ aead_confusion aes_256_gcm \/ mac_collision).
Proof.
  split; [vm_compute; reflexivity|].
  apply (password_change_rotates (cl := ToyCrypto.toy_laws) (al := ToyAccounts.toy_account_laws)
    key 1 demo_draws demo_user demo_context "new" (quiet registered.2) changed_context changed.2).
  - vm_compute. split; discriminate.
  - repeat split.
  - vm_compute. reflexivity.
Defined.

Definition reset_hash : string := generate_reset_hash "secret".
Definition requested : State :=
  (create_password_reset_request key 0 demo_draws "a@b.c" reset_hash 5 (quiet registered.2)).2.
Definition code : string := generate_alphanumeric_code (code_bytes demo_draws).
Definition reset : outcome Error unit * State :=
  confirm_password_reset key 10 demo_draws "a@b.c" code "secret" "new" 5 (quiet requested).

Lemma reset_needs_proof_witness :
  exists u request, proves_reset key 10 "a@b.c" code "secret" 5 (tables (quiet requested)) u request /\
    (10 < r_expiration_time request)%Z /\
    forall r, r ∈ password_reset_requests (tables reset.2) -> r_user_id r = uuid u -> is_reset r = true.
Proof.
  apply (reset_needs_proof (cl := ToyCrypto.toy_laws) (al := ToyAccounts.toy_account_laws)
    key 10 demo_draws "a@b.c" code "secret" "new" 5 (quiet requested) reset.2).
  - reflexivity.
  - vm_compute. apply NoDup_singleton.
  - vm_compute. reflexivity.
Defined.


Lemma reset_wipes_witness :
  exists u words ctx, user_has_email "a@b.c" 5 u = true /\ u ∈ users (tables (quiet requested)) /\
    generate_twelve_word_seed demo_draws = Ok words /\
    password_auth_context_for_user key u (generate_hash (salt demo_draws) "new") = Ok ctx /\
    (exists w, filter (fun w => w_user_id w = uuid u) (seed_wrappings (tables reset.2)) = [w]) /\
    (forall q, tables q = tables reset.2 -> faults q = [] ->
       exists q', decrypt_seed_for_auth_context key u ctx q = (Ok (as_bytes words), q')) /\
    (forall k, k ∈ user_kv (tables reset.2) -> k_user_id k <> uuid u) /\
    (forall o, o ∈ oauth_connections (tables reset.2) -> o_user_id o <> uuid u) /\
    (forall name, name ∈ TABLES_BEFORE_KV ++ TABLES_AFTER_KV -> (name, uuid u) ∉ owned (tables reset.2)) /\
    others_rows (uuid u) (tables reset.2) = others_rows (uuid u) (tables (quiet requested)).
Proof.
  apply (reset_wipes (cl := ToyCrypto.toy_laws) (al := ToyAccounts.toy_account_laws)
    key 10 demo_draws "a@b.c" code "secret" "new" 5 (quiet requested) reset.2).
  - reflexivity.
  - vm_compute. reflexivity.
Defined.

Definition deletion_requested : State :=
  (create_account_deletion_request key 0 demo_draws (uuid demo_user) reset_hash 5 (quiet registered.2)).2.
Definition deletion_code : string := uuid_to_string (new_uuid demo_draws).
Definition deleted : outcome Error unit * State :=
  confirm_account_deletion key 10 (uuid demo_user) deletion_code "secret" (quiet deletion_requested).

Lemma deletion_complete_witness :
  no_user (uuid demo_user) (tables deleted.2).
Proof.
  destruct (deletion_complete key 10 (uuid demo_user) deletion_code "secret" (quiet deletion_requested) deleted.2)
    as (request & _ & Hno & _).
  - vm_compute. reflexivity.
  - exact Hno.
Defined.
End witnesses.
End Credentials.
