(* ===== verification/Tokens.v ===== *)
(** * Tokens: issuing, validation, and the routes that hand them out

    The second part of [src/src/jwt.rs], with the login, refresh, registration
    and password-change handlers of [src/src/web/login_routes.rs] and
    [src/src/web/protected_routes.rs], up to the encryption of the response
    ([Sessions]).  Signing and signature checks are the class [Jwt]. *)

From S2P Require Import Prelude Text Crypto Api Encrypt SeedWrapping Claims Database Accounts Credentials.

Module Tokens.
Import Db Accounts Credentials.

(** [jwt_compact::Claims<CustomClaims>]; times in nanoseconds. *)
Record JwtClaims := MkJwt {
  custom : Claims.CustomClaims; issued_at : option Z; expiration : option Z; not_before : option Z }.

(** A token carries its times in whole seconds. *)
Definition whole_second (t : Z) : Z := secs (t / 10 ^ 9).
Definition as_sent (c : JwtClaims) : JwtClaims :=
  MkJwt (custom c) (whole_second <$> issued_at c) (whole_second <$> expiration c) (whole_second <$> not_before c).

(** [jwt_compact] with ES256K (parsing, checking the signature under the public
    key of a secret, deserializing the claims; the expiry check with its default
    options), and HS256 of [jsonwebtoken]. *)
Class Jwt := {
  es256k_token : Encrypt.SecretKey -> JwtClaims -> option string;
  es256k_validate : Encrypt.SecretKey -> string -> option JwtClaims;
  validate_expiration : Z -> JwtClaims -> bool;
  hs256_encode : bytes -> JwtClaims -> option string;
}.
Class JwtLaws (j : Jwt) : Prop := {
  es256k_total k c : is_Some (es256k_token k c);
  es256k_roundtrip k c t : es256k_token k c = Some t -> es256k_validate k t = Some (as_sent c);
  hs256_refused k key c t : hs256_encode key c = Some t -> es256k_validate k t = None;
  expiration_ahead now c e : expiration c = Some e -> (now <= e)%Z -> validate_expiration now c = true;
}.

(** The configured lifetimes ([main.rs]), in minutes and days. *)
Definition access_token_maxage : Z := 60.
Definition refresh_token_maxage : Z := 30.
Definition minutes (m : Z) : Z := secs (m * 60).
Definition days (d : Z) : Z := secs (d * 86400).

Section tokens.
Context {cr : Crypto} {ci : Citext} {ut : UuidText} {ad : AccountDeps} {ub : UrlBase64} {au : Claims.AudienceText} {jw : Jwt}.
Context (enclave_key : bytes) (projects : Uuid -> option Z).
(** [OrgProjectSecret]: the encrypted third-party JWT secret of a project. *)
Context (project_secret : Z -> option bytes).
(** [jwt_keys.signing_key]. *)
Context (signing_key : Encrypt.SecretKey).

(** [JwtKeys::new]: the first 32 bytes. *)
Definition jwt_keys_new (b : bytes) : outcome Error Encrypt.SecretKey :=
  if decide (length b < 32)
  then Err (EncryptionError (Literal "Insufficient key length: must be at least 32 bytes"))
  else ok_or (EncryptionError (Literal "secp256k1")) (secret_from_slice (take 32 b)).

Definition dated (now duration : Z) (c : Claims.CustomClaims) : JwtClaims :=
  let iat := (now - minutes 1)%Z in
  MkJwt c (Some iat) (Some (iat + duration)%Z) (Some iat).
Definition sign (c : JwtClaims) : outcome Api.ApiError string :=
  ok_or Api.InternalServerError (es256k_token signing_key c).

(** [get_third_party_token]. *)
Definition get_third_party_token (azp : string) (c : JwtClaims) : ST State Api.ApiError string :=
  project_client_id ← st_lift (ok_or Api.BadRequest (uuid_parse_str azp));
  project ← st_map_err (fun e => match e with OrgProjectNotFound => Api.BadRequest | _ => Api.InternalServerError end)
    (get_org_project_by_client_id projects project_client_id);
  secret ← st_map_err (fun _ => Api.InternalServerError)
    (_ ← connection; st_map_err QueryError (select (fun _ => project_secret project)));
  match secret with
  | Some secret_enc =>
      secret_key ← st_lift (ok_or Api.InternalServerError (secret_from_slice enclave_key));
      decrypted_key ← st_lift (map_err (fun _ => Api.InternalServerError) (Encrypt.decrypt_with_key secret_key secret_enc));
      st_lift (ok_or Api.InternalServerError (hs256_encode decrypted_key c))
  | None => st_lift (sign c)
  end.

(** [NewToken::new], [new_with_auth_context], [new_for_platform_user]. *)
Definition new (now : Z) (u : User) (tt : Claims.TokenType) : ST State Api.ApiError string :=
  match tt with
  | Claims.ThirdParty aud azp =>
      _ ← match aud with
          | Some a => st_lift (Claims.validate_third_party_audience a)
          | None => st_ok Datatypes.tt
          end;
      get_third_party_token azp (dated now (minutes 60)
        (Claims.MkClaims (uuid_to_string (uuid u)) aud (Some azp) (Some "authenticated") None None None None))
  | Claims.Access | Claims.Refresh => st_err Api.BadRequest
  end.

Definition new_with_auth_context (now : Z) (u : User) (tt : Claims.TokenType) (ctx : Claims.AuthContext)
    : outcome Api.ApiError string :=
  if decide (project_id u <> Claims.c_project_id ctx) then Err Api.BadRequest
  else
    '(aud, duration) ← match tt with
      | Claims.Access => Ok (Claims.USER_ACCESS, minutes access_token_maxage)
      | Claims.Refresh => Ok (Claims.USER_REFRESH, days refresh_token_maxage)
      | Claims.ThirdParty _ _ => Err Api.BadRequest
      end;
    sign (dated now duration (Claims.apply_to_claims ctx
      (Claims.MkClaims (uuid_to_string (uuid u)) (Some aud) None None None None None None))).

Definition new_for_platform_user (now : Z) (platform_user : Uuid) (tt : Claims.TokenType) : outcome Api.ApiError string :=
  '(aud, duration) ← match tt with
    | Claims.Access => Ok (Claims.PLATFORM_ACCESS, minutes access_token_maxage)
    | Claims.Refresh => Ok (Claims.PLATFORM_REFRESH, days refresh_token_maxage)
    | Claims.ThirdParty _ _ => Err Api.BadRequest
    end;
  sign (dated now duration (Claims.MkClaims (uuid_to_string platform_user) (Some aud) None None None None None None)).

(** [validate_token]. *)
Definition validate_token (now : Z) (original_token expected_audience : string)
    : outcome Api.ApiError Claims.CustomClaims :=
  token ← ok_or Api.InvalidJwt (es256k_validate signing_key original_token);
  if negb (validate_expiration now token) then Err Api.InvalidJwt
  else match Claims.aud (custom token) with
       | Some audience => if decide (audience <> expected_audience) then Err Api.InvalidJwt else Ok (custom token)
       | None => Err Api.InvalidJwt
       end.

(** ** The middleware: what it hands to the route, or its error *)
Definition bearer_token (header : option string) : option string :=
  v ← header; strip_prefix "Bearer " v.

Definition validate_jwt (now : Z) (header : option string) : ST State Api.ApiError (Claims.AuthContext * User) :=
  token ← st_lift (ok_or Api.InvalidJwt (bearer_token header));
  claims ← st_lift (map_err (fun _ => Api.InvalidJwt) (validate_token now token Claims.USER_ACCESS));
  auth_context ← st_lift (map_err (fun _ => Api.InvalidJwt) (Claims.from_claims claims));
  user_uuid ← st_lift (ok_or Api.InvalidJwt (uuid_parse_str (Claims.sub claims)));
  u ← st_map_err (fun _ => Api.InternalServerError) (get_user user_uuid);
  if decide (project_id u <> Claims.c_project_id auth_context) then st_err Api.InvalidJwt
  else
    _ ← st_map_err (fun _ => Api.InvalidJwt) (verify_seed_wrap_for_auth_context enclave_key u auth_context);
    st_ok (auth_context, u).

Definition validate_platform_jwt {S E P} (get_platform_user_by_uuid : Uuid -> ST S E P) (now : Z)
    (header : option string) : ST S Api.ApiError P :=
  token ← st_lift (ok_or Api.InvalidJwt (bearer_token header));
  claims ← st_lift (map_err (fun _ => Api.InvalidJwt) (validate_token now token Claims.PLATFORM_ACCESS));
  platform_user_id ← st_lift (ok_or Api.InvalidJwt (uuid_parse_str (Claims.sub claims)));
  st_map_err (fun _ => Api.Unauthorized) (get_platform_user_by_uuid platform_user_id).

(** ** The routes *)
Record Credentials := MkLogin {
  l_email : option string; l_id : option Uuid; l_password : string; l_client_id : Uuid }.
Record AuthResponse := MkAuth {
  a_id : Uuid; a_email : option string; a_access_token : string; a_refresh_token : string }.
Record RefreshResponse := MkRefresh { rf_access_token : string; rf_refresh_token : string }.

Definition is_guest (u : User) : bool := bool_decide (email u = None).

(** An access and a refresh token, in this order. *)
Definition both_tokens (now : Z) (u : User) (ctx : Claims.AuthContext) : outcome Api.ApiError (string * string) :=
  access ← new_with_auth_context now u Claims.Access ctx;
  refresh ← new_with_auth_context now u Claims.Refresh ctx;
  Ok (access, refresh).

(** The user the credentials name. *)
Definition login_user (email : option string) (id : option Uuid) (project : Z) : ST State Api.ApiError User :=
  match email, id with
  | Some e, _ =>
      r ← st_try (get_user_by_email e project);
      match r with
      | Ok u => st_ok u
      | Err Db.UserNotFound => st_err Api.InvalidUsernameOrPassword
      | Err _ => st_err Api.InternalServerError
      | Panic => st_lift Panic
      end
  | None, Some id =>
      r ← st_try (get_user_by_uuid id);
      match r with
      | Ok u =>
          if negb (is_guest u) then st_err Api.InvalidUsernameOrPassword
          else if decide (project_id u <> project) then st_err Api.InvalidUsernameOrPassword
          else st_ok u
      | Err Db.UserNotFound => st_err Api.InvalidUsernameOrPassword
      | Err _ => st_err Api.InternalServerError
      | Panic => st_lift Panic
      end
  | None, None => st_err Api.InvalidUsernameOrPassword
  end.

Definition login_internal (now : Z) (creds : Credentials) : ST State Api.ApiError AuthResponse :=
  project ← st_map_err (fun _ => Api.BadRequest) (get_org_project_by_client_id projects (l_client_id creds));
  u ← login_user (l_email creds) (l_id creds) project;
  if bool_decide (password_enc u = None) then st_err Api.InvalidUsernameOrPassword
  else
    r ← st_try (authenticate_user enclave_key (l_email creds) (l_id creds) (l_password creds) project);
    match r with
    | Ok (Some a) =>
        '(access, refresh) ← st_lift (both_tokens now (auth_user a) (auth_context a));
        st_ok (MkAuth (uuid (auth_user a)) (email (auth_user a)) access refresh)
    | Ok None => st_err Api.InvalidUsernameOrPassword
    | Err _ => st_err Api.InternalServerError
    | Panic => st_lift Panic
    end.

Definition handle_new_user_registration (now : Z) (code : Uuid) (u : User) (requires_email_verification : bool)
    : ST State Api.ApiError unit :=
  if requires_email_verification && negb (is_guest u) then
    _ ← st_map_err (fun _ => Api.InternalServerError)
      (create_email_verification now (verification_new now (uuid u) code 24 false));
    st_ok tt
  else st_ok tt.

Definition register (now : Z) (d : Draws) (creds : RegisterCredentials) : ST State Api.ApiError AuthResponse :=
  u ← st_map_err (fun e => match e with UserAlreadyExists => Api.EmailAlreadyExists | _ => Api.InternalServerError end)
    (register_user enclave_key projects now d creds);
  _ ← handle_new_user_registration now (verification_uuid d) u true;
  login_internal now (MkLogin (reg_email creds) (Some (uuid u)) (reg_password creds) (reg_client_id creds)).

Definition refresh_token (now : Z) (token : string) : ST State Api.ApiError RefreshResponse :=
  claims ← st_lift (validate_token now token Claims.USER_REFRESH);
  user_id ← st_lift (ok_or Api.InvalidJwt (uuid_parse_str (Claims.sub claims)));
  u ← st_map_err (fun _ => Api.Unauthorized) (get_user user_id);
  auth_context ← st_lift (Claims.from_claims claims);
  _ ← st_map_err (fun _ => Api.InvalidJwt) (verify_seed_wrap_for_auth_context enclave_key u auth_context);
  '(access, refresh) ← st_lift (both_tokens now u auth_context);
  st_ok (MkRefresh access refresh).

Definition change_password (now : Z) (d : Draws) (u : User) (ctx : Claims.AuthContext)
    (current_password new_password : string) : ST State Api.ApiError (string * string) :=
  if bool_decide (password_enc u = None) then st_err Api.InvalidUsernameOrPassword
  else
    r ← st_try (authenticate_user enclave_key (email u) (Some (uuid u)) current_password (project_id u));
    match r with
    | Panic => st_lift Panic
    | Ok (Some a) =>
        if decide (uuid (auth_user a) = uuid u) then
          r ← st_try (update_user_password_and_seed_wrap enclave_key now d u ctx new_password);
          match r with
          | Ok new_auth_context => st_lift (both_tokens now u new_auth_context)
          | Err AuthenticationError => st_err Api.InvalidUsernameOrPassword
          | Err _ => st_err Api.InternalServerError
          | Panic => st_lift Panic
          end
        else st_err Api.InvalidUsernameOrPassword
    | _ => st_err Api.InvalidUsernameOrPassword
    end.

(** ** Lemmas *)
Section facts.
Context {jl : JwtLaws jw} {ul : UrlBase64Laws ub} {il : UuidTextLaws ut}.

Lemma validated_signed now now' duration c c' t a :
  sign (dated now duration c) = Ok t -> validate_token now' t a = Ok c' -> c' = c /\ Claims.aud c = Some a.
Proof.
  clear enclave_key projects project_secret.
  intros Hs%ok_or_Ok Hv. unfold validate_token in Hv. rewrite (es256k_roundtrip _ _ _ Hs) in Hv. cbn [ok_or mbind outcome_bind] in Hv.
  destruct (negb _); [done|]. cbn [as_sent custom dated] in Hv. destruct (Claims.aud c); [|done]. case_decide; [done|].
  injection Hv as <-. by subst.
Qed.

Lemma signed_validates now now' duration c t a :
  sign (dated now duration c) = Ok t -> Claims.aud c = Some a ->
  (now' <= whole_second (now - minutes 1 + duration))%Z -> validate_token now' t a = Ok c.
Proof.
  clear enclave_key projects project_secret.
  intros Hs%ok_or_Ok Ha Hn. unfold validate_token. rewrite (es256k_roundtrip _ _ _ Hs). cbn [ok_or mbind outcome_bind].
  rewrite (expiration_ahead _ (as_sent (dated now duration c)) (whole_second (now - minutes 1 + duration))) by done.
  cbn [negb as_sent custom dated]. rewrite Ha. by rewrite decide_False by tauto.
Qed.

Definition user_audience (tt : Claims.TokenType) : option string :=
  match tt with
  | Claims.Access => Some Claims.USER_ACCESS
  | Claims.Refresh => Some Claims.USER_REFRESH
  | Claims.ThirdParty _ _ => None
  end.
Definition lifetime (tt : Claims.TokenType) : Z :=
  match tt with
  | Claims.Access => minutes access_token_maxage
  | Claims.Refresh => days refresh_token_maxage
  | Claims.ThirdParty _ _ => minutes 60
  end.
Definition platform_audience (tt : Claims.TokenType) : option string :=
  match tt with
  | Claims.Access => Some Claims.PLATFORM_ACCESS
  | Claims.Refresh => Some Claims.PLATFORM_REFRESH
  | Claims.ThirdParty _ _ => None
  end.
Definition user_claims (u : User) (aud : string) (ctx : Claims.AuthContext) : Claims.CustomClaims :=
  Claims.apply_to_claims ctx (Claims.MkClaims (uuid_to_string (uuid u)) (Some aud) None None None None None None).

Lemma new_with_auth_context_Ok now u tt ctx t :
  new_with_auth_context now u tt ctx = Ok t ->
  project_id u = Claims.c_project_id ctx /\
  exists aud, user_audience tt = Some aud /\ sign (dated now (lifetime tt) (user_claims u aud ctx)) = Ok t.
Proof.
  clear enclave_key projects project_secret.
  unfold new_with_auth_context. case_decide; [done|]. intros ([aud duration] & Ha & Hs)%bind_Ok. split; [done|].
  destruct tt; inversion Ha; subst; eexists; done.
Qed.

Lemma third_party_Ok now u tt s t s' :
  new now u tt s = (Ok t, s') ->
  exists aud azp duration c, tt = Claims.ThirdParty aud azp /\ Claims.aud c = aud /\
    (forall a, aud = Some a -> a ∉ Claims.RESERVED_AUDIENCES) /\
    ((exists key, hs256_encode key (dated now duration c) = Some t) \/ sign (dated now duration c) = Ok t).
Proof.
  destruct tt as [| |aud azp]; [done|done|]. intros ([] & s1 & Ha & Hr)%ST_bind_Ok.
  exists aud, azp, (minutes 60), (Claims.MkClaims (uuid_to_string (uuid u)) aud (Some azp) (Some "authenticated")
    None None None None). split; [done|]. split; [done|]. split.
  { intros a ->. apply st_lift_inv in Ha as [Ha _]. by apply Claims.audience_not_reserved. }
  apply ST_bind_Ok in Hr as (client & s2 & _ & Hr). apply ST_bind_Ok in Hr as (project & s3 & _ & Hr).
  apply ST_bind_Ok in Hr as (secret & s4 & _ & Hr). destruct secret as [secret|].
  - left. apply ST_bind_Ok in Hr as (k & s5 & _ & Hr). apply ST_bind_Ok in Hr as (key & s6 & _ & Hr).
    exists key. apply st_lift_inv in Hr as [Hr _]. symmetry in Hr. by apply ok_or_Ok in Hr.
  - right. by apply st_lift_inv in Hr as [Hr _].
Qed.

(** Every token is good for one purpose.  Whatever the server issued, if it
    validates for one of the four reserved audiences, then it was issued for
    exactly that audience: a refresh token is no access token, a platform token
    no user token, and a third-party token, whatever audience its requester
    asked for and whichever key signed it, is none of them. *)
Theorem audience_separation now now' t a c :
  a ∈ Claims.RESERVED_AUDIENCES -> validate_token now' t a = Ok c ->
  (forall u tt ctx, new_with_auth_context now u tt ctx = Ok t -> user_audience tt = Some a) /\
  (forall p tt, new_for_platform_user now p tt = Ok t -> platform_audience tt = Some a) /\
  (forall u tt s s', new now u tt s <> (Ok t, s')).
Proof.
  intros Ha Hv. split_and!.
  - intros u tt ctx Hs. apply new_with_auth_context_Ok in Hs. destruct Hs as [_ (aud & Haud & Hs)].
    pose proof (validated_signed _ _ _ _ _ _ _ Hs Hv) as [Hc' Haudc]. cbn in Haudc. congruence.
  - intros p tt Hs. apply bind_Ok in Hs as ([aud duration] & Haud & Hs).
    pose proof (validated_signed _ _ _ _ _ _ _ Hs Hv) as [Hc' Haudc]. cbn [Claims.aud] in Haudc.
    destruct tt; inversion Haud; subst; done.
  - intros u tt s s' Hs. apply third_party_Ok in Hs as (aud & azp & duration & c' & _ & Haud & Hres & [(key & Hs)|Hs]).
    + unfold validate_token in Hv. by rewrite (hs256_refused _ _ _ _ Hs) in Hv.
    + pose proof (validated_signed _ _ _ _ _ _ _ Hs Hv) as [Hc' Haudc]. by destruct (Hres a); [congruence|].
Qed.

(** A user token carries its session.  Until it expires, a token issued for
    a user and an authentication context validates for its audience, and its
    claims give back the user's identifier and the whole context. *)
Theorem user_token_roundtrip now now' u tt ctx t :
  length (uuid u) = 16 -> length (Claims.c_auth_binding ctx) = 32 ->
  Claims.c_token_format ctx = Claims.USER_TOKEN_FORMAT_V2 ->
  new_with_auth_context now u tt ctx = Ok t ->
  (now' <= whole_second (now - minutes 1 + lifetime tt))%Z ->
  exists a c, user_audience tt = Some a /\ validate_token now' t a = Ok c /\
    uuid_parse_str (Claims.sub c) = Some (uuid u) /\ Claims.from_claims c = Ok ctx.
Proof.
  intros Hu Hb Hf (_ & a & Ha & Hs)%new_with_auth_context_Ok Hn. exists a, (user_claims u a ctx).
  split_and!; [done|by eapply signed_validates|by apply uuid_roundtrip|].
  destruct ctx as [f m p b]. cbn in Hb, Hf. subst f. by apply Claims.from_claims_apply.
Qed.

(** ** Sessions *)
Lemma validate_jwt_Ok now header s ctx u s' :
  validate_jwt now header s = (Ok (ctx, u), s') ->
  tables s' = tables s /\
  exists token c, bearer_token header = Some token /\ validate_token now token Claims.USER_ACCESS = Ok c /\
    Claims.from_claims c = Ok ctx /\ uuid_parse_str (Claims.sub c) = Some (uuid u) /\ u ∈ users (tables s) /\
    exists seed q q', tables q = tables s /\ decrypt_seed_for_auth_context enclave_key u ctx q = (Ok seed, q').
Proof.
  unfold validate_jwt.
  intros (token & s1 & [Ht ->]%st_lift_inv & Hr)%ST_bind_Ok. symmetry in Ht. apply ok_or_Ok in Ht.
  apply ST_bind_Ok in Hr as (c & s2 & [Hc ->]%st_lift_inv & Hr). symmetry in Hc. apply map_err_Ok in Hc.
  apply ST_bind_Ok in Hr as (ctx1 & s2 & [Hctx ->]%st_lift_inv & Hr). symmetry in Hctx. apply map_err_Ok in Hctx.
  apply ST_bind_Ok in Hr as (id & s2 & [Hid ->]%st_lift_inv & Hr). symmetry in Hid. apply ok_or_Ok in Hid.
  apply ST_bind_Ok in Hr as (u1 & s2 & Hu%st_map_err_Ok%st_map_err_Ok & Hr).
  pose proof (reads_get_by_uuid _ _ _ _ Hu) as Ht2. apply (user_read_by (e := UserError)) in Hu as [Huid%is_user_true Hu].
  case_decide; [done|]. apply ST_bind_Ok in Hr as ([] & s3 & Hv%st_map_err_Ok & Hr). injection Hr as -> -> ->.
  apply ST_bind_Ok in Hv as (seed & s4 & Hd & [= <-]). pose proof (reads_decrypt _ _ _ _ _ _ Hd) as Ht3.
  split; [congruence|]. exists token, c. split_and!; try done; [by rewrite Huid|]. by exists seed, s2, s4.
Qed.

(** The access middleware lets a request through only with a signed, unexpired
    access token whose context is live: the user it hands on exists, is the one
    the token names, belongs to the token's project, and has a stored wrapping
    that the token's binding opens now.  It changes nothing. *)
Theorem middleware_sound now header s ctx u s' :
  validate_jwt now header s = (Ok (ctx, u), s') ->
  tables s' = tables s /\
  exists token c seed, bearer_token header = Some token /\
    validate_token now token Claims.USER_ACCESS = Ok c /\ Claims.from_claims c = Ok ctx /\
    uuid_parse_str (Claims.sub c) = Some (uuid u) /\ u ∈ users (tables s) /\
    project_id u = Claims.c_project_id ctx /\
    forall q, tables q = tables s -> faults q = [] ->
      exists q', decrypt_seed_for_auth_context enclave_key u ctx q = (Ok seed, q').
Proof.
  intros (Ht & token & c & Htok & Hc & Hctx & Hid & Hu & seed & q0 & q1 & Hq & Hd)%validate_jwt_Ok.
  split; [done|]. exists token, c, seed. split_and!; try done.
  - by apply decrypt_inv in Hd as [? _].
  - intros q Hq' Hf. eexists. eapply decrypt_again; [exact Hd|congruence|done].
Qed.

(** What opens the only wrapping there is carries its binding. *)
Lemma only_wrapping_binding {cl : CryptoLaws cr} nonce u v seed nw id now u' ctx q seed' q' :
  SeedWrap.is_i32 (project_id u) -> SeedWrap.is_i32 (project_id u') -> length nonce = 12 ->
  new_password_seed_wrapping_for_user enclave_key nonce u v seed = Ok nw ->
  (forall w, w ∈ matching_rows (wrapping_of (uuid u') (SeedWrap.CredentialKind_as_str (kind_of (Claims.method ctx))))
               (seed_wrappings (tables q)) -> w = wrapping_row id now nw) ->
  decrypt_seed_for_auth_context enclave_key u' ctx q = (Ok seed', q') ->
  (exists b, password_auth_binding_for_user enclave_key u v = Ok b /\ Claims.method ctx = Claims.Password /\
     Claims.c_auth_binding ctx = SeedWrap.binding_bytes b) \/ aead_confusion aes_256_gcm.
Proof.
  intros Hp Hp' Hn (b & Hb & He)%new_wrapping_encrypts Hall [_ Hd]%decrypt_inv. revert Hd Hall.
  induction (matching_rows _ _) as [|w l IH]; intros Hd Hall; [done|]. cbn [try_candidates] in Hd.
  assert (l ⊆ w :: l) as Hsub by (by right).
  case_decide; [apply IH; [done|]; intros; apply Hall; by right|].
  destruct (SeedWrap.decrypt_seed_v1 _ _ _ _ _ _) as [x| |] eqn:Hx; [|apply IH; [done|]; intros; apply Hall; by right|done].
  rewrite (Hall w) in Hx by left. cbn [seed_enc wrapping_row] in Hx.
  destruct (SeedWrap.unwrap_contexts _ _ _ _ _ _ _ _ _ _ _ _ _ _ Hp Hp' Hn He Hx) as [(_ & _ & Hk & Heq)|?]; [|by right].
  left. exists b. split_and!; [done|by destruct (Claims.method ctx)|by rewrite <- Heq].
Qed.

(** C29. Changing or resetting a password ends the old sessions.  After a password
    change, every password session the middleware still accepts for the user
    carries the context the change returned; after a reset, every session does,
    provider sign-ins included; short of an AES-GCM ciphertext valid under two
    contexts. *)
Theorem credential_changes_end_sessions {cl : CryptoLaws cr} {al : AccountDepsLaws ad} now d s s' :
  draws_ok d -> (forall u, u ∈ users (tables s) \/ u ∈ users (tables s') -> SeedWrap.is_i32 (project_id u)) ->
  (forall u ctx password ctx', u ∈ users (tables s) ->
     update_user_password_and_seed_wrap enclave_key now d u ctx password s = (Ok ctx', s') ->
     forall now' header q c2 u2 q', tables q = tables s' -> validate_jwt now' header q = (Ok (c2, u2), q') ->
       uuid u2 = uuid u -> Claims.method c2 = Claims.Password ->
       Claims.c_auth_binding c2 = Claims.c_auth_binding ctx' \/ aead_confusion aes_256_gcm) /\
  (forall e code secret password project,
     confirm_password_reset enclave_key now d e code secret password project s = (Ok tt, s') ->
     exists u ctx', user_has_email e project u = true /\ u ∈ users (tables s) /\
       password_auth_context_for_user enclave_key u (generate_hash (salt d) password) = Ok ctx' /\
       forall now' header q c2 u2 q', tables q = tables s' -> validate_jwt now' header q = (Ok (c2, u2), q') ->
         uuid u2 = uuid u ->
         (Claims.method c2 = Claims.Password /\ Claims.c_auth_binding c2 = Claims.c_auth_binding ctx') \/
         aead_confusion aes_256_gcm).
Proof.
  intros Hd Hi32. pose proof Hd as (Hpn & Hsn & _). split.
  - intros u ctx password ctx' Hu Hup.
    destruct (change_Ok enclave_key now d u ctx password s ctx' s' Hd Hup) as (seed & nw & id & s1 & s2 & _ & _ & Hnw & Hctx & Hm).
    intros now' header q c2 u2 q' Hq (_ & token & c & _ & _ & _ & _ & Hu2 & seed2 & q0 & q1 & Hq0 & Hr)%validate_jwt_Ok Hid Hk.
    rewrite Hq in Hu2, Hq0. pose proof (Hi32 u (or_introl Hu)) as Hp. pose proof (Hi32 u2 (or_intror Hu2)) as Hp2.
    assert (forall w, w ∈ matching_rows (wrapping_of (uuid u2) (SeedWrap.CredentialKind_as_str (kind_of (Claims.method c2))))
      (seed_wrappings (tables q0)) -> w = wrapping_row id now nw) as Hall.
    { rewrite Hk, Hid, Hq0. cbn [kind_of]. fold password_kind. rewrite Hm. by intros w ->%list_elem_of_singleton. }
    destruct (only_wrapping_binding _ _ _ _ _ _ _ _ _ _ _ _ Hp Hp2 Hsn Hnw Hall Hr) as [(b & Hb & _ & He)|?]; [left|by right].
    unfold password_auth_context_for_user in Hctx. rewrite Hb in Hctx. by injection Hctx as <-.
  - intros e code secret password project Hrs.
    destruct (confirm_password_reset_Ok enclave_key now d e code secret password project s s' Hpn Hrs)
      as (u & request & words & c & nw & id & Hpr & _ & _ & _ & Hnw & Ht).
    pose proof Hnw as (_ & _ & _ & b & Hb & _)%new_wrapping_opens. destruct Hpr as (He & Hu & _).
    exists u, (Claims.context_new Claims.Password (project_id u) (SeedWrap.binding_bytes b)). split_and!; [done|done| |].
    { unfold password_auth_context_for_user. by rewrite Hb. }
    intros now' header q c2 u2 q' Hq (_ & token & c' & _ & _ & _ & _ & Hu2 & seed2 & q0 & q1 & Hq0 & Hr)%validate_jwt_Ok Hid.
    rewrite Hq in Hu2, Hq0. pose proof (Hi32 u (or_introl Hu)) as Hp. pose proof (Hi32 u2 (or_intror Hu2)) as Hp2.
    assert (forall w, w ∈ matching_rows (wrapping_of (uuid u2) (SeedWrap.CredentialKind_as_str (kind_of (Claims.method c2))))
      (seed_wrappings (tables q0)) -> w = wrapping_row id now nw) as Hall.
    { rewrite Hid, Hq0, Ht. cbn [seed_wrappings reset_tables]. intros w [Hw Hin]%elem_of_matching.
      apply elem_of_app in Hin as [[Hne _]%elem_of_deleted | ->%list_elem_of_singleton]; [|done].
      apply bool_decide_eq_false in Hne. by apply wrapping_of_owner in Hw. }
    destruct (only_wrapping_binding _ _ _ _ _ _ _ _ _ _ _ _ Hp Hp2 Hsn Hnw Hall Hr) as [(b' & Hb' & Hm & Heq)|?]; [left|by right].
    split; [done|]. cbn. congruence.
Qed.

(** ** Signing in *)
Lemma project_runs client p s :
  projects client = Some p -> faults s = [] ->
  get_org_project_by_client_id projects client s = (Ok p, advance (advance s)).
Proof.
  clear project_secret.
  intros Hp Hs. unfold get_org_project_by_client_id, mbind, ST_bind, st_map_err.
  rewrite connection_runs by done. rewrite select_runs by (by apply advance_quiet). cbn [map_err]. by rewrite Hp.
Qed.

Lemma login_user_runs t u e id s :
  creds_ok enclave_key t -> u ∈ users t -> named t e id u -> (e = None -> is_guest u = true) -> tables s = t -> faults s = [] ->
  login_user e id (project_id u) s = (Ok u, advance (advance s)).
Proof.
  clear project_secret.
  intros (Hnd & _) Hu Hn Hg Ht Hs. unfold login_user. destruct e as [e|]; cbn in Hn.
  - unfold mbind, ST_bind, st_try. by rewrite (by_email_runs _ _ _ _ _ Hn Ht Hs).
  - subst id. unfold mbind, ST_bind, st_try. rewrite (get_user_runs _ _ _ Hnd Hu Ht Hs). rewrite Hg by done. cbn [negb].
    by rewrite decide_False by tauto.
Qed.

Lemma binding_length {cl : CryptoLaws cr} u v b :
  password_auth_binding_for_user enclave_key u v = Ok b -> length (SeedWrap.binding_bytes b) = 32.
Proof.
  unfold password_auth_binding_for_user, enc. destruct (password_login_identifier_for_user u) as [kind i].
  intros Hb%map_err_Ok.
  apply (SeedWrap.auth_binding_Ok enclave_key (SeedWrap.PasswordFacts (project_id u) (uuid u) kind i v)) in Hb
    as (c & k & _ & _ & ->). apply hmac_length.
Qed.

Lemma both_tokens_runs now u ctx :
  project_id u = Claims.c_project_id ctx -> exists access refresh, both_tokens now u ctx = Ok (access, refresh) /\
    new_with_auth_context now u Claims.Access ctx = Ok access /\ new_with_auth_context now u Claims.Refresh ctx = Ok refresh.
Proof.
  clear project_secret.
  intros Hp. assert (forall tt aud, user_audience tt = Some aud -> exists t, new_with_auth_context now u tt ctx = Ok t) as Htot.
  { intros tt aud Ha. unfold new_with_auth_context. rewrite decide_False by tauto. unfold sign.
    destruct tt; [..|done]; cbn [mbind outcome_bind]; match goal with
      |- exists t, ok_or _ (es256k_token ?k ?c) = _ => destruct (es256k_total k c) as [x ->]; by exists x end. }
  destruct (Htot Claims.Access _ eq_refl) as [a Ha], (Htot Claims.Refresh _ eq_refl) as [r Hr].
  exists a, r. unfold both_tokens. rewrite Ha, Hr. done.
Qed.

(** A live session: a context of the user, and tables in which it opens the seed. *)
Definition live (t : Tables) (u : User) (ctx : Claims.AuthContext) : Prop :=
  NoDup (uuid <$> users t) /\ u ∈ users t /\ length (uuid u) = 16 /\ length (Claims.c_auth_binding ctx) = 32 /\
  Claims.c_token_format ctx = Claims.USER_TOKEN_FORMAT_V2 /\
  exists seed, forall q, tables q = t -> faults q = [] ->
    decrypt_seed_for_auth_context enclave_key u ctx q = (Ok seed, advance (advance q)).

Lemma get_user_quiet t u s :
  NoDup (uuid <$> users t) -> u ∈ users t -> tables s = t -> faults s = [] ->
  get_user (uuid u) s = (Ok u, advance (advance s)).
Proof.
  clear project_secret.
 intros Hnd Hu Ht Hs. unfold get_user, st_map_err. by rewrite (get_user_runs _ _ _ Hnd Hu Ht Hs). Qed.

Lemma live_access_token t u ctx now access now' q :
  live t u ctx -> project_id u = Claims.c_project_id ctx ->
  new_with_auth_context now u Claims.Access ctx = Ok access ->
  (now' <= whole_second (now - minutes 1 + lifetime Claims.Access))%Z -> tables q = t -> faults q = [] ->
  exists q', validate_jwt now' (Some ("Bearer " +:+ access)) q = (Ok (ctx, u), q').
Proof.
  clear project_secret.
  intros (Hnd & Hu & Hlen & Hb & Hf & seed & Hd) Hp (_ & a & [= <-] & Hs)%new_with_auth_context_Ok Hn Hq Hq0.
  unfold validate_jwt, mbind, ST_bind, st_lift.
  change (bearer_token (Some ("Bearer " +:+ access))) with (strip_prefix "Bearer " ("Bearer " +:+ access)).
  assert (strip_prefix "Bearer " ("Bearer " +:+ access) = Some access) as -> by (by apply strip_prefix_Some).
  cbn [ok_or]. rewrite (signed_validates _ _ _ _ _ _ Hs eq_refl Hn). cbn [map_err].
  assert (Claims.from_claims (user_claims u Claims.USER_ACCESS ctx) = Ok ctx) as ->.
  { destruct ctx as [f m p b]. cbn in Hb, Hf. subst f. by apply Claims.from_claims_apply. }
  cbn [map_err]. change (Claims.sub (user_claims u Claims.USER_ACCESS ctx)) with (uuid_to_string (uuid u)).
  rewrite uuid_roundtrip by done. cbn [ok_or].
  unfold st_map_err at 1. rewrite (get_user_quiet t u q) by done. cbn [map_err].
  rewrite decide_False by tauto. unfold verify_seed_wrap_for_auth_context, mbind, ST_bind, st_map_err.
  rewrite Hd by first [done|by do 2 apply advance_quiet]. by eexists.
Qed.

Lemma live_refresh_token t u ctx now refresh now' q :
  live t u ctx -> project_id u = Claims.c_project_id ctx ->
  new_with_auth_context now u Claims.Refresh ctx = Ok refresh ->
  (now' <= whole_second (now - minutes 1 + lifetime Claims.Refresh))%Z -> tables q = t -> faults q = [] ->
  exists access' refresh' q', refresh_token now' refresh q = (Ok (MkRefresh access' refresh'), q') /\
    new_with_auth_context now' u Claims.Access ctx = Ok access' /\ new_with_auth_context now' u Claims.Refresh ctx = Ok refresh'.
Proof.
  clear project_secret.
  intros (Hnd & Hu & Hlen & Hb & Hf & seed & Hd) Hp (_ & a & [= <-] & Hs)%new_with_auth_context_Ok Hn Hq Hq0.
  destruct (both_tokens_runs now' u ctx Hp) as (a' & r' & Hboth & Ha & Hr).
  exists a', r'. unfold refresh_token, mbind, ST_bind, st_lift.
  rewrite (signed_validates _ _ _ _ _ _ Hs eq_refl Hn).
  change (Claims.sub (user_claims u Claims.USER_REFRESH ctx)) with (uuid_to_string (uuid u)).
  rewrite uuid_roundtrip by done. cbn [ok_or].
  unfold st_map_err at 1. rewrite (get_user_quiet t u q) by done. cbn [map_err].
  assert (Claims.from_claims (user_claims u Claims.USER_REFRESH ctx) = Ok ctx) as ->.
  { destruct ctx as [f m p b]. cbn in Hb, Hf. subst f. by apply Claims.from_claims_apply. }
  unfold verify_seed_wrap_for_auth_context, mbind, ST_bind, st_map_err.
  rewrite Hd by first [done|by do 2 apply advance_quiet]. cbn [map_err]. rewrite Hboth. by eexists.
Qed.

(** C28. Signing in works, end to end.  In any tables the account requests lead
    to, a user with a stored verifier (named by e-mail address, or a guest by
    identifier) who logs in to the user's project with a password gets the
    invalid-password error if the verifier refuses it, and otherwise an access
    and a refresh token.  While they last and the tables stay, the access token
    passes the middleware, which hands on this user and one and the same
    context; the refresh token buys a new pair, whose access token passes too. *)
Theorem login_end_to_end {cl : CryptoLaws cr} {al : AccountDepsLaws ad} h t u c client e id :
  history enclave_key (t :: h) -> u ∈ users t -> password_enc u = Some c -> length (uuid u) = 16 ->
  projects client = Some (project_id u) -> named t e id u -> (e = None -> is_guest u = true) ->
  exists salt password ctx, verify_password password (generate_hash salt password) = true /\
    forall s now p, tables s = t -> faults s = [] ->
      exists s', tables s' = t /\
      if verify_password p (generate_hash salt password) then
        exists access refresh,
          login_internal now (MkLogin e id p client) s = (Ok (MkAuth (uuid u) (email u) access refresh), s') /\
          (forall now' q, tables q = t -> faults q = [] -> (now' <= whole_second (now - minutes 1 + lifetime Claims.Access))%Z ->
             exists q', validate_jwt now' (Some ("Bearer " +:+ access)) q = (Ok (ctx, u), q')) /\
          (forall now' q, tables q = t -> faults q = [] -> (now' <= whole_second (now - minutes 1 + lifetime Claims.Refresh))%Z ->
             exists access' refresh' q', refresh_token now' refresh q = (Ok (MkRefresh access' refresh'), q') /\
               forall now2 q2, tables q2 = t -> faults q2 = [] -> (now2 <= whole_second (now' - minutes 1 + lifetime Claims.Access))%Z ->
                 exists q3, validate_jwt now2 (Some ("Bearer " +:+ access')) q2 = (Ok (ctx, u), q3))
      else login_internal now (MkLogin e id p client) s = (Err Api.InvalidUsernameOrPassword, s').
Proof.
  clear project_secret.
  intros Hh Hu Hp Hlen Hproj Hn Hg. destruct (history_invariant enclave_key h t Hh) as [Hok _]. pose proof Hok as (Hnd & _ & Hc). specialize (Hc u Hu).
  unfold cred_ok in Hc. rewrite Hp in Hc. destruct Hc as (salt & password & seed & w & Hm & Hv & Hst & (b & Hb & Hd)).
  set (ctx := Claims.context_new Claims.Password (project_id u) (SeedWrap.binding_bytes b)).
  exists salt, password, ctx. split; [apply hash_verifies|]. intros s now p Ht Hs.
  assert (live t u ctx) as Hlive.
  { unfold live. split_and!; try done; [by eapply binding_length|]. exists seed. intros q Hq Hf.
    apply (decrypt_seed_runs enclave_key u w b seed q); [by rewrite Hq|done..]. }
  set (s2 := advance (advance s)). set (s4 := advance (advance s2)).
  destruct (authenticate_runs enclave_key t u c _ b seed w e id p s4 Hok Hu Hp Hst Hm Hv Hb Hd Hn Ht)
    as (s' & Ht' & _ & Hauth); [by do 4 apply advance_quiet|].
  exists s'. split; [done|].
  assert (login_internal now (MkLogin e id p client) s =
    (if verify_password p (generate_hash salt password)
     then '(access, refresh) ← st_lift (both_tokens now u ctx); st_ok (MkAuth (uuid u) (email u) access refresh)
     else st_err Api.InvalidUsernameOrPassword) s') as ->.
  { unfold login_internal. cbn [l_email l_id l_password l_client_id]. unfold mbind at 1, ST_bind at 1, st_map_err at 1.
    rewrite (project_runs _ _ _ Hproj Hs). cbn [map_err]. unfold mbind at 1, ST_bind at 1.
    rewrite (login_user_runs t) by first [done|by do 2 apply advance_quiet].
    rewrite bool_decide_false by (by rewrite Hp). unfold mbind at 1, ST_bind at 1, st_try. fold s2 s4. rewrite Hauth.
    by destruct (verify_password _ _). }
  destruct (verify_password _ _); [|done].
  destruct (both_tokens_runs now u ctx eq_refl) as (access & refresh & Hboth & Ha & Hr).
  exists access, refresh. split_and!.
  - unfold mbind, ST_bind, st_lift. by rewrite Hboth.
  - intros now' q Hq Hf Hnow. by eapply live_access_token.
  - intros now' q Hq Hf Hnow.
    destruct (live_refresh_token t u ctx now refresh now' q Hlive eq_refl Hr Hnow Hq Hf) as (a' & r' & q' & Hrun & Ha' & _).
    exists a', r', q'. split; [done|]. intros now2 q2 Hq2 Hf2 Hnow2. by eapply live_access_token.
Qed.
End facts.
End tokens.
(** ** An executable signature scheme, for the examples *)
Module ToyJwt.
Fixpoint pos_to_string (p : positive) : string :=
  match p with
  | xH => EmptyString
  | xO p => String "0" (pos_to_string p)
  | xI p => String "1" (pos_to_string p)
  end.
Fixpoint string_to_pos (s : string) : positive :=
  match s with
  | EmptyString => xH
  | String c s => if decide (c = "1"%char) then xI (string_to_pos s) else xO (string_to_pos s)
  end.
Lemma string_pos p : string_to_pos (pos_to_string p) = p.
Proof. induction p; cbn; by f_equal. Qed.

Definition fields (k : Encrypt.SecretKey) (c : JwtClaims) : list (option string + option Z) :=
  let u := custom c in
  [inl (Some (of_bytes (Encrypt.secret_bytes k))); inl (Some (Claims.sub u)); inl (Claims.aud u); inl (Claims.azp u);
   inl (Claims.role u); inr (Claims.token_format u); inl (Claims.auth_method u); inr (Claims.project_id u);
   inl (Claims.auth_binding u); inr (issued_at c); inr (expiration c); inr (not_before c)].
Definition of_fields (k : Encrypt.SecretKey) (l : list (option string + option Z)) : option JwtClaims :=
  match l with
  | [inl (Some k'); inl (Some s); inl a; inl z; inl r; inr f; inl m; inr p; inl b; inr i; inr e; inr n] =>
      if decide (k' = of_bytes (Encrypt.secret_bytes k))
      then Some (MkJwt (Claims.MkClaims s a z r f m p b) i e n) else None
  | _ => None
  end.

#[export] Instance toy_jwt : Jwt := {|
  es256k_token k c := Some (String "E" (pos_to_string (encode (fields k (as_sent c)))));
  es256k_validate k t :=
    match t with
    | String c s => if decide (c = "E"%char) then l ← decode (string_to_pos s); of_fields k l else None
    | EmptyString => None
    end;
  validate_expiration now c := match expiration c with Some e => bool_decide (now <= e)%Z | None => false end;
  hs256_encode key c := Some "H";
|}.

#[export] Instance toy_jwt_laws : JwtLaws toy_jwt.
Proof.
  split; cbn.
  - eauto.
  - intros k c t [= <-]. rewrite decide_True, string_pos, decode_encode by done. cbn.
    rewrite decide_True by done. by destruct c as [[] ? ? ?].
  - by intros k key c t [= <-].
  - intros now c e -> Hn. by apply bool_decide_eq_true.
Qed.

#[export] Instance toy_url : UrlBase64 := {| url_encode := ToyCrypto.hex; url_decode := ToyCrypto.unhex |}.
#[export] Instance toy_url_laws : UrlBase64Laws toy_url.
Proof. intros b. apply ToyCrypto.unhex_hex. Qed.
#[export] Instance toy_audience : Claims.AudienceText := {| Claims.url_parses _ := true; Claims.unicode_alphanumeric _ := false |}.
End ToyJwt.

(** ** Witnesses *)
Section witnesses.
#[local] Existing Instances ToyCrypto.toy ToyCrypto.toy_laws.
#[local] Existing Instances ToyAccounts.toy_citext ToyAccounts.toy_uuid ToyAccounts.toy_uuid_laws
  ToyAccounts.toy_accounts ToyAccounts.toy_account_laws.
#[local] Existing Instances ToyJwt.toy_jwt ToyJwt.toy_jwt_laws ToyJwt.toy_url ToyJwt.toy_url_laws ToyJwt.toy_audience.

Definition demo_signing_key : Encrypt.SecretKey := Encrypt.MkSecretKey (replicate 32 Byte.x09).
Definition demo_projects : Uuid -> option Z := fun _ => Some 5%Z.
Definition demo_now : Z := secs 1000000.
Definition demo_token (tt : Claims.TokenType) : string :=
  match new_with_auth_context demo_signing_key demo_now demo_user tt demo_context with Ok t => t | _ => "" end.
Definition demo_claims : Claims.CustomClaims := user_claims demo_user Claims.USER_ACCESS demo_context.

Lemma audience_separation_witness :
  validate_token demo_signing_key demo_now (demo_token Claims.Access) Claims.USER_ACCESS = Ok demo_claims /\
  user_audience Claims.Access = Some Claims.USER_ACCESS.
Proof.
  split; [vm_compute; reflexivity|].
  apply (audience_separation key demo_projects (fun _ => None) demo_signing_key demo_now demo_now (demo_token Claims.Access)
    Claims.USER_ACCESS demo_claims) with (u := demo_user) (ctx := demo_context).
  - left.
  - vm_compute. reflexivity.
  - vm_compute. reflexivity.
Defined.

Lemma user_token_roundtrip_witness :
  exists a c, user_audience Claims.Refresh = Some a /\
    validate_token demo_signing_key demo_now (demo_token Claims.Refresh) a = Ok c /\
    uuid_parse_str (Claims.sub c) = Some (uuid demo_user) /\ Claims.from_claims c = Ok demo_context.
Proof.
  apply (user_token_roundtrip demo_signing_key demo_now demo_now).
  - vm_compute. reflexivity.
  - vm_compute. reflexivity.
  - vm_compute. reflexivity.
  - vm_compute. reflexivity.
  - vm_compute. discriminate.
Defined.

Definition demo_header : option string := Some ("Bearer " +:+ demo_token Claims.Access).
Definition passed : outcome Api.ApiError (Claims.AuthContext * User) * State :=
  validate_jwt key demo_signing_key demo_now demo_header (quiet registered.2).

Lemma middleware_sound_witness : tables passed.2 = tables (quiet registered.2).
Proof.
  apply (middleware_sound key demo_signing_key demo_now demo_header (quiet registered.2) demo_context demo_user passed.2).
  vm_compute. reflexivity.
Defined.

Lemma credential_changes_end_sessions_witness :
  changed.1 = Ok changed_context /\
  forall now' header q c2 u2 q', tables q = tables changed.2 ->
    validate_jwt key demo_signing_key now' header q = (Ok (c2, u2), q') ->
    uuid u2 = uuid demo_user -> Claims.method c2 = Claims.Password ->
    Claims.c_auth_binding c2 = Claims.c_auth_binding changed_context \/ aead_confusion aes_256_gcm.
Proof.
  split; [vm_compute; reflexivity|].
  apply (credential_changes_end_sessions key demo_signing_key 1 demo_draws (quiet registered.2) changed.2) with
    (u := demo_user) (ctx := demo_context) (password := "new").
  - repeat split.
  - intros u Hu. assert (project_id u = 5%Z) as ->; [|vm_compute; split; discriminate].
    revert Hu. generalize (eq_refl (users (tables (quiet registered.2)))).
    generalize (users (tables (quiet registered.2))) at 2 3. intros l1 E1. vm_compute in E1. subst l1.
    generalize (eq_refl (users (tables changed.2))). generalize (users (tables changed.2)) at 2 3. intros l2 E2. vm_compute in E2. subst l2.
    intros [Hu|Hu]; apply list_elem_of_singleton in Hu; by subst u.
  - vm_compute. left.
  - vm_compute. reflexivity.
Defined.

Lemma login_end_to_end_witness :
  exists salt password ctx, verify_password password (generate_hash salt password) = true /\
    forall s now p, tables s = demo_tables -> faults s = [] ->
      exists s', tables s' = demo_tables /\
      if verify_password p (generate_hash salt password) then
        exists access refresh,
          login_internal key demo_projects demo_signing_key now (MkLogin (Some "a@b.c") None p []) s =
            (Ok (MkAuth (uuid demo_user) (email demo_user) access refresh), s') /\
          (forall now' q, tables q = demo_tables -> faults q = [] ->
             (now' <= whole_second (now - minutes 1 + lifetime Claims.Access))%Z ->
             exists q', validate_jwt key demo_signing_key now' (Some ("Bearer " +:+ access)) q = (Ok (ctx, demo_user), q')) /\
          (forall now' q, tables q = demo_tables -> faults q = [] ->
             (now' <= whole_second (now - minutes 1 + lifetime Claims.Refresh))%Z ->
             exists access' refresh' q',
               refresh_token key demo_signing_key now' refresh q = (Ok (MkRefresh access' refresh'), q') /\
               forall now2 q2, tables q2 = demo_tables -> faults q2 = [] ->
                 (now2 <= whole_second (now' - minutes 1 + lifetime Claims.Access))%Z ->
                 exists q3, validate_jwt key demo_signing_key now2 (Some ("Bearer " +:+ access')) q2 = (Ok (ctx, demo_user), q3))
      else login_internal key demo_projects demo_signing_key now (MkLogin (Some "a@b.c") None p []) s =
             (Err Api.InvalidUsernameOrPassword, s').
Proof.
  apply (login_end_to_end key demo_projects demo_signing_key [empty] demo_tables demo_user demo_verifier.2).
  - apply demo_history.
  - vm_compute. left.
  - vm_compute. reflexivity.
  - vm_compute. reflexivity.
  - vm_compute. reflexivity.
  - vm_compute. reflexivity.
  - discriminate.
Defined.
End witnesses.

End Tokens.
