(* ===== verification/UserKeys.v ===== *)
(** * User keys: from the seed to private keys, child mnemonics and signatures

    [src/src/private_key.rs], the path checks and key routes of
    [src/src/web/protected_routes.rs], [src/src/message_signing.rs], and the
    [get_user_key] and [sign_message] methods of [src/src/main.rs].  BIP39, BIP32,
    BIP85 and secp256k1 are the class [Bip]. *)

From S2P Require Import Prelude Text Chars Crypto Api Encrypt SeedWrapping Claims Database Accounts.

Module UserKeys.
Import Db Accounts.
Import Chars(trim_end_matches).

(** ** Numbers in text: [str::parse::<u32>] *)
Definition digit (c : ascii) : option Z :=
  let n := nat_of_ascii c in if decide (48 <= n <= 57) then Some (Z.of_nat n - 48)%Z else None.
Fixpoint parse_digits (acc : Z) (s : string) : option Z :=
  match s with
  | EmptyString => Some acc
  | String c s =>
      d ← digit c;
      let v := (acc * 10 + d)%Z in
      if decide (v <= u32_max)%Z then parse_digits v s else None
  end.
Definition parse_u32 (s : string) : option Z :=
  match s with
  | EmptyString => None
  | String c s' =>
      if decide (c = "+"%char) then (if is_empty s' then None else parse_digits 0 s') else parse_digits 0 s
  end.

(** ** The crates *)
Class Bip := {
  mnemonic : Type; xpriv : Type; derivation_path : Type; signature : Type;
  mnemonic_from_str : string -> option mnemonic;
  mnemonic_to_string : mnemonic -> string;
  mnemonic_to_seed : mnemonic -> bytes;
  new_master : bytes -> option xpriv;
  path_from_str : string -> option derivation_path;
  derive_priv : xpriv -> derivation_path -> option xpriv;
  xpriv_key : xpriv -> Encrypt.SecretKey;
  bip85_to_mnemonic : xpriv -> Z -> Z -> option mnemonic;
  (* the 32 random bytes, the key and the digest *)
  sign_schnorr_with_aux_rand : bytes -> Encrypt.SecretKey -> bytes -> signature;
  sign_ecdsa : Encrypt.SecretKey -> bytes -> signature;
}.

(** ** Path validation *)
Definition BIP85_PURPOSE : Z := 83696968.
Definition BIP85_APPLICATION_BIP39 : Z := 39.
Definition VALID_BIP39_WORD_COUNTS : list Z := [12; 18; 24]%Z.

Definition is_mark (c : ascii) : bool := bool_decide (c = "'"%char \/ c = "h"%char).
Definition ends_with_mark (s : string) : bool := ends_with_char "'" s || ends_with_char "h" s.

Definition parse_hardened_bip85_segment (segment : string) : outcome Api.ApiError Z :=
  if negb (ends_with_mark segment) then Err Api.BadRequest
  else ok_or Api.BadRequest (parse_u32 (trim_end_matches is_mark segment)).

Definition validate_bip85_path (path : string) : outcome Api.ApiError unit :=
  match split_char "/" path with
  | [s0; s1; s2; s3; word_count; index] =>
      if decide (s0 <> "m") then Err Api.BadRequest
      else
        purpose ← parse_hardened_bip85_segment s1;
        if decide (purpose <> BIP85_PURPOSE) then Err Api.BadRequest
        else
          application ← parse_hardened_bip85_segment s2;
          if decide (application <> BIP85_APPLICATION_BIP39) then Err Api.BadRequest
          else
            language ← parse_hardened_bip85_segment s3;
            if decide (language <> 0%Z) then Err Api.BadRequest
            else
              word_count_value ← ok_or Api.BadRequest (parse_u32 (trim_end_matches is_mark word_count));
              if decide (word_count_value ∉ VALID_BIP39_WORD_COUNTS) then Err Api.BadRequest
              else if negb (ends_with_mark word_count) then Err Api.BadRequest
              else if negb (ends_with_mark index) then Err Api.BadRequest
              else
                _ ← ok_or Api.BadRequest (parse_u32 (trim_end_matches is_mark index));
                Ok tt
  | _ => Err Api.BadRequest
  end.

Section keys.
Context `{Crypto, Citext, UuidText, AccountDeps, Bip}.

Definition validate_path (path : string) : outcome Api.ApiError unit :=
  if is_empty path || bool_decide (path = "m") then Ok tt
  else _ ← ok_or Api.BadRequest (path_from_str path); Ok tt.

Record KeyOptions := MkKeyOptions {
  seed_phrase_derivation_path : option string; private_key_derivation_path : option string }.

Definition on_path (o : option string) (check : string -> outcome Api.ApiError unit) : outcome Api.ApiError unit :=
  match o with Some path => check path | None => Ok tt end.
Definition validate (o : KeyOptions) : outcome Api.ApiError unit :=
  _ ← on_path (private_key_derivation_path o) validate_path;
  on_path (seed_phrase_derivation_path o) (fun path => _ ← validate_path path; validate_bip85_path path).

(** ** Derivation *)
Definition plaintext_user_seed_to_mnemonic (plaintext_seed : bytes) : outcome Error mnemonic :=
  text ← ok_or (EncryptionError (Literal "Failed to decode UTF-8")) (from_utf8 plaintext_seed);
  ok_or (EncryptionError (Literal "mnemonic")) (mnemonic_from_str text).

(** [segments[i]]. *)
Definition segment (i : nat) (segments : list string) : outcome Error string := expect (segments !! i).

Definition derive_bip85_mnemonic_from_root (root : mnemonic) (bip85_path : string) : outcome Error mnemonic :=
  _ ← map_err (fun _ => InvalidDerivationPath) (validate_bip85_path bip85_path);
  key ← ok_or (EncryptionError (Literal "master key")) (new_master (mnemonic_to_seed root));
  let segments := split_char "/" bip85_path in
  s4 ← segment 4 segments;
  word_count ← ok_or InvalidDerivationPath (parse_u32 (trim_end_matches is_mark s4));
  if decide (word_count ∉ VALID_BIP39_WORD_COUNTS) then Err InvalidDerivationPath
  else
    s5 ← segment 5 segments;
    index ← ok_or InvalidDerivationPath (parse_u32 (trim_end_matches is_mark s5));
    ok_or KeyDerivationError (bip85_to_mnemonic key word_count index).

Definition derive_mnemonic_to_key (root : mnemonic) (derivation_path seed_phrase_path : option string)
    : outcome Error Encrypt.SecretKey :=
  source ← match seed_phrase_path with
           | Some bip85_path => derive_bip85_mnemonic_from_root root bip85_path
           | None => Ok root
           end;
  key ← ok_or (EncryptionError (Literal "master key")) (new_master (mnemonic_to_seed source));
  match derivation_path with
  | Some path =>
      path ← ok_or InvalidDerivationPath (path_from_str path);
      derived ← ok_or KeyDerivationError (derive_priv key path);
      Ok (xpriv_key derived)
  | None => Ok (xpriv_key key)
  end.

Definition plaintext_user_seed_to_key (plaintext_seed : bytes) (derivation_path seed_phrase_path : option string)
    : outcome Error Encrypt.SecretKey :=
  root ← plaintext_user_seed_to_mnemonic plaintext_seed;
  derive_mnemonic_to_key root derivation_path seed_phrase_path.

Definition get_user_key (enclave_key : bytes) (u : User) (ctx : Claims.AuthContext)
    (derivation_path seed_phrase_path : option string) : ST State Error Encrypt.SecretKey :=
  plaintext_seed ← decrypt_seed_for_auth_context enclave_key u ctx;
  st_lift (plaintext_user_seed_to_key plaintext_seed derivation_path seed_phrase_path).

(** ** Signing *)
Inductive SigningAlgorithm := Schnorr | Ecdsa.
Inductive SignatureType := SchnorrSignature (s : signature) | EcdsaSignature (s : signature).
Record SignMessageResponse := MkSigned { sig : SignatureType; message_hash : bytes }.

(** [Message::from_digest_slice] takes 32 bytes. *)
Definition sign_message_with_key (random_bytes : bytes) (secret_key : Encrypt.SecretKey) (message_bytes : bytes)
    (algorithm : SigningAlgorithm) : outcome Error SignMessageResponse :=
  let digest := sha256 message_bytes in
  if decide (length digest <> 32) then Err SigningError
  else
    Ok (MkSigned
      match algorithm with
      | Schnorr => SchnorrSignature (sign_schnorr_with_aux_rand random_bytes secret_key digest)
      | Ecdsa => EcdsaSignature (sign_ecdsa secret_key digest)
      end digest).

Definition sign_message (enclave_key random_bytes : bytes) (u : User) (ctx : Claims.AuthContext) (message_bytes : bytes)
    (algorithm : SigningAlgorithm) (derivation_path seed_phrase_path : option string) : ST State Error SignMessageResponse :=
  user_secret_key ← get_user_key enclave_key u ctx derivation_path seed_phrase_path;
  st_lift (sign_message_with_key random_bytes user_secret_key message_bytes algorithm).

(** ** The routes, up to the encryption of the response *)
Definition get_private_key (enclave_key : bytes) (u : User) (ctx : Claims.AuthContext) (query : KeyOptions)
    : ST State Api.ApiError string :=
  _ ← st_lift (validate query);
  plaintext_seed ← st_map_err (fun _ => Api.Unauthorized) (decrypt_seed_for_auth_context enclave_key u ctx);
  root ← st_lift (map_err (fun _ => Api.InternalServerError) (plaintext_user_seed_to_mnemonic plaintext_seed));
  match seed_phrase_derivation_path query with
  | Some bip85_path =>
      child ← st_lift (map_err (fun _ => Api.BadRequest) (derive_bip85_mnemonic_from_root root bip85_path));
      st_ok (mnemonic_to_string child)
  | None => st_ok (mnemonic_to_string root)
  end.

Definition get_private_key_bytes (enclave_key : bytes) (u : User) (ctx : Claims.AuthContext) (query : KeyOptions)
    : ST State Api.ApiError string :=
  _ ← st_lift (validate query);
  secret_key ← st_map_err (fun e => match e with
                                    | InvalidDerivationPath | KeyDerivationError => Api.BadRequest
                                    | _ => Api.InternalServerError
                                    end)
    (get_user_key enclave_key u ctx (private_key_derivation_path query) (seed_phrase_derivation_path query));
  st_ok (hex (Encrypt.secret_bytes secret_key)).
End keys.
(** ** Lemmas *)
Fixpoint all_chars (p : ascii -> bool) (s : string) : bool :=
  match s with EmptyString => true | String c s => p c && all_chars p s end.

Lemma trim_end_spec p s : exists t, s = trim_end_matches p s +:+ t /\ all_chars p t = true.
Proof.
  induction s as [|c s (t & Hs & Ht)]; [by exists EmptyString|]. cbn [trim_end_matches].
  destruct (trim_end_matches p s) as [|a r]; [|exists t; by rewrite Hs at 1].
  cbn in Hs. destruct (p c) eqn:Hc; [exists (String c s); cbn; rewrite Hc; by subst|].
  exists s. by subst.
Qed.

Lemma trim_end_all p s : all_chars p s = true -> trim_end_matches p s = EmptyString.
Proof. induction s as [|c s IH]; [done|]. cbn. intros [Hc Hs]%andb_true_iff. by rewrite IH, Hc by done. Qed.

Lemma trim_end_app p s t : all_chars p t = true -> trim_end_matches p (s +:+ t) = trim_end_matches p s.
Proof. intros Ht. induction s as [|c s IH]; [by apply trim_end_all|]. cbn. by rewrite IH. Qed.

Lemma trim_end_none p s : all_chars (fun c => negb (p c)) s = true -> trim_end_matches p s = s.
Proof.
  induction s as [|c s IH]; [done|]. cbn. intros [Hc Hs]%andb_true_iff. rewrite IH by done.
  apply negb_true_iff in Hc. rewrite Hc. by destruct s.
Qed.

Lemma ends_with_mark_last s c : ends_with_mark (s +:+ String c EmptyString) = is_mark c.
Proof.
  unfold ends_with_mark, is_mark. rewrite !ends_with_char_app by done. cbn.
  rewrite <- bool_decide_or. apply bool_decide_ext. naive_solver.
Qed.

Lemma all_chars_last p s : all_chars p s = true -> s = EmptyString \/ exists r c, s = r +:+ String c EmptyString /\ p c = true.
Proof.
  induction s as [|c s IH]; [by left|]. cbn. intros [Hc Hs]%andb_true_iff. right.
  destruct (IH Hs) as [->|(r & d & -> & Hd)]; [by exists EmptyString, c|by exists (String c r), d].
Qed.

Definition number_char (c : ascii) : bool := bool_decide (c = "+"%char) || bool_decide (is_Some (digit c)).
Lemma parse_digits_chars acc s v : parse_digits acc s = Some v -> all_chars number_char s = true.
Proof.
  revert acc. induction s as [|c s IH]; intros acc; [done|]. cbn. unfold number_char at 1.
  destruct (digit c) as [d|]; [|done]. cbn. case_decide; [|done]. intros Hs. apply IH in Hs. by rewrite Hs, orb_true_r.
Qed.
Lemma parse_u32_chars s v : parse_u32 s = Some v -> all_chars number_char s = true.
Proof.
  destruct s as [|c s]; [done|]. unfold parse_u32. case_decide as Hc; [|apply parse_digits_chars].
  destruct (is_empty s); [done|]. intros Hs%parse_digits_chars. cbn. by rewrite Hs, Hc.
Qed.
Lemma all_chars_impl (p q : ascii -> bool) s : (forall c, p c = true -> q c = true) -> all_chars p s = true -> all_chars q s = true.
Proof. intros Hpq. induction s as [|c s IH]; [done|]. cbn. intros [Hc Hs]%andb_true_iff. by rewrite Hpq, IH. Qed.
Lemma number_not_mark c : number_char c = true -> negb (is_mark c) = true.
Proof. destruct c as [[] [] [] [] [] [] [] []]; by vm_compute. Qed.
Lemma number_not_slash c : number_char c = true -> c <> "/"%char.
Proof. by intros Hc ->. Qed.
Lemma mark_not_slash c : is_mark c = true -> c <> "/"%char.
Proof. by intros Hc ->. Qed.
Lemma all_chars_free p a s : (forall c, p c = true -> c <> a) -> all_chars p s = true -> contains_char a s = false.
Proof.
  intros Hp. induction s as [|c s IH]; [done|]. cbn. intros [Hc Hs]%andb_true_iff.
  rewrite IH, orb_false_r by done. apply bool_decide_eq_false. intros ->. by apply (Hp c).
Qed.

(** A hardened segment: a decimal [u32] and at least one mark. *)
Definition hardened (s : string) (v : Z) : Prop :=
  exists n marks, s = n +:+ marks /\ marks <> EmptyString /\ all_chars is_mark marks = true /\ parse_u32 n = Some v.

Lemma hardened_iff s v :
  ends_with_mark s = true /\ parse_u32 (trim_end_matches is_mark s) = Some v <-> hardened s v.
Proof.
  split.
  - intros [He Hp]. destruct (trim_end_spec is_mark s) as (t & Hs & Ht).
    exists (trim_end_matches is_mark s), t. split_and!; try done. intros ->. rewrite string_app_nil_r in Hs.
    apply parse_u32_chars in Hp. rewrite <- Hs in Hp. destruct (all_chars_last _ _ Hp) as [->|(r & c & -> & Hc)]; [done|].
    rewrite ends_with_mark_last in He. apply number_not_mark, negb_true_iff in Hc. congruence.
  - intros (n & marks & -> & Hne & Hm & Hp). split.
    + destruct (all_chars_last _ _ Hm) as [->|(r & c & -> & Hc)]; [done|]. by rewrite <- string_app_assoc, ends_with_mark_last.
    + rewrite trim_end_app by done. rewrite trim_end_none; [done|].
      eapply all_chars_impl; [apply number_not_mark|]. by eapply parse_u32_chars.
Qed.

Lemma parse_hardened_Ok s v : parse_hardened_bip85_segment s = Ok v <-> hardened s v.
Proof.
  rewrite <- hardened_iff. unfold parse_hardened_bip85_segment. destruct (ends_with_mark s); cbn; [|naive_solver].
  rewrite ok_or_Ok. naive_solver.
Qed.

Lemma hardened_no_slash s v : hardened s v -> contains_char "/" s = false.
Proof.
  intros (n & marks & -> & _ & Hm & Hp%parse_u32_chars). rewrite contains_char_app.
  by rewrite (all_chars_free _ _ _ number_not_slash Hp), (all_chars_free _ _ _ mark_not_slash Hm).
Qed.

(** A BIP-85 path for [w] words and index [i]. *)
Definition bip85_path (path : string) (w i : Z) : Prop :=
  exists s1 s2 s3 s4 s5, path = join "/" ["m"; s1; s2; s3; s4; s5] /\ hardened s1 BIP85_PURPOSE /\
    hardened s2 BIP85_APPLICATION_BIP39 /\ hardened s3 0 /\ hardened s4 w /\ w ∈ VALID_BIP39_WORD_COUNTS /\ hardened s5 i.
Lemma split_join c l : l <> [] -> Forall (fun s => contains_char c s = false) l ->
  split_char c (join (String c EmptyString) l) = l.
Proof.
  induction l as [|s l IH]; [done|]. intros _ [Hs Hl]%Forall_cons. destruct l as [|s' l]; [by apply split_char_none|].
  change (join (String c EmptyString) (s :: s' :: l)) with (s +:+ String c (join (String c EmptyString) (s' :: l))).
  by rewrite split_char_app, IH.
Qed.

Lemma split_bip85 s1 s2 s3 s4 s5 v1 v2 v3 w i :
  hardened s1 v1 -> hardened s2 v2 -> hardened s3 v3 -> hardened s4 w -> hardened s5 i ->
  split_char "/" (join "/" ["m"; s1; s2; s3; s4; s5]) = ["m"; s1; s2; s3; s4; s5].
Proof. intros H1 H2 H3 H4 H5. apply split_join; [done|]. repeat constructor; try by eapply hardened_no_slash. Qed.

Lemma validate_bip85_Ok path : validate_bip85_path path = Ok tt <-> exists w i, bip85_path path w i.
Proof.
  split.
  - intros Hv. pose proof (join_split "/" path) as Hj. unfold validate_bip85_path in Hv.
    destruct (split_char "/" path) as [|s0 [|s1 [|s2 [|s3 [|s4 [|s5 []]]]]]]; try done.
    case_decide as H0; [done|]. subst s0. apply bind_Ok in Hv as (purpose & H1%parse_hardened_Ok & Hv).
    case_decide as Hp; [done|]. subst purpose. apply bind_Ok in Hv as (app & H2%parse_hardened_Ok & Hv).
    case_decide as Ha; [done|]. subst app. apply bind_Ok in Hv as (lang & H3%parse_hardened_Ok & Hv).
    case_decide as Hl; [done|]. subst lang. apply bind_Ok in Hv as (w & H4%ok_or_Ok & Hv).
    case_decide as Hw; [done|]. destruct (ends_with_mark s4) eqn:Hm4; [|done]. destruct (ends_with_mark s5) eqn:Hm5; [|done].
    cbn [negb] in Hv. apply bind_Ok in Hv as (i & H5%ok_or_Ok & _).
    exists w, i, s1, s2, s3, s4, s5. split_and!; try done; by apply hardened_iff.
  - intros (w & i & s1 & s2 & s3 & s4 & s5 & -> & H1 & H2 & H3 & H4 & Hw & H5). unfold validate_bip85_path.
    rewrite (split_bip85 s1 s2 s3 s4 s5 _ _ _ _ _ H1 H2 H3 H4 H5). rewrite decide_False by tauto.
    apply parse_hardened_Ok in H1, H2, H3. apply hardened_iff in H4 as [Hm4 Hp4], H5 as [Hm5 Hp5].
    rewrite H1. cbn [mbind outcome_bind]. rewrite decide_False by tauto.
    rewrite H2. cbn [mbind outcome_bind]. rewrite decide_False by tauto.
    rewrite H3. cbn [mbind outcome_bind]. rewrite decide_False by tauto.
    rewrite Hp4. cbn [ok_or mbind outcome_bind]. rewrite decide_False by tauto. by rewrite Hm4, Hm5, Hp5.
Qed.

Lemma bind_Panic {E A B} (m : outcome E A) (f : A -> outcome E B) :
  (x ← m; f x) = Panic -> m = Panic \/ exists a, f a = Panic.
Proof. destruct m; cbn; [by right; eauto|done|by left]. Qed.

Lemma validate_bip85_no_panic path : validate_bip85_path path <> Panic.
Proof.
  assert (forall s, parse_hardened_bip85_segment s <> Panic) as Hp.
  { intros s. unfold parse_hardened_bip85_segment. destruct (negb _); [done|]. by destruct (parse_u32 _). }
  intros Hv. unfold validate_bip85_path in Hv.
  destruct (split_char "/" path) as [|s0 [|s1 [|s2 [|s3 [|s4 [|s5 []]]]]]]; try done.
  repeat match goal with
  | H : (if decide _ then _ else _) = Panic |- _ => case_decide; [done|]
  | H : (if negb ?b then _ else _) = Panic |- _ => destruct b; cbn [negb] in H; [|done]
  | H : mbind _ _ = Panic |- _ => apply bind_Panic in H as [H|[? H]]
  | H : parse_hardened_bip85_segment _ = Panic |- _ => by apply Hp in H
  | H : ok_or _ ?o = Panic |- _ => by destruct o
  end; done.
Qed.

(** Child mnemonics are derived for the validated path and no other.  The
    route accepts exactly the paths [m/83696968'/39'/0'/w'/i'] with a supported
    word count and a 32-bit index (a segment may carry either hardening mark,
    even several); for those the derivation asks BIP85 for [w] words at index
    [i] of the root key, every other path is an invalid path, and nothing
    panics although the segments are read again by position. *)
Theorem bip85_derivation_exact `{Bip} root path :
  (validate_bip85_path path = Ok tt <-> exists w i, bip85_path path w i) /\
  (forall w i, bip85_path path w i -> derive_bip85_mnemonic_from_root root path =
     (key ← ok_or (EncryptionError (Literal "master key")) (new_master (mnemonic_to_seed root));
      ok_or KeyDerivationError (bip85_to_mnemonic key w i))) /\
  ((forall w i, ~ bip85_path path w i) -> derive_bip85_mnemonic_from_root root path = Err InvalidDerivationPath).
Proof.
  split; [apply validate_bip85_Ok|]. split.
  - intros w i Hpath. unfold derive_bip85_mnemonic_from_root.
    rewrite (proj2 (validate_bip85_Ok path)) by eauto. cbn [map_err mbind outcome_bind].
    destruct Hpath as (s1 & s2 & s3 & s4 & s5 & -> & H1 & H2 & H3 & H4 & Hw & H5).
    destruct (new_master _) as [key|]; [|done]. cbn [ok_or].
    rewrite (split_bip85 s1 s2 s3 s4 s5 _ _ _ _ _ H1 H2 H3 H4 H5). cbv zeta.
    change (segment 4 ["m"; s1; s2; s3; s4; s5]) with (@Ok Error _ s4).
    change (segment 5 ["m"; s1; s2; s3; s4; s5]) with (@Ok Error _ s5). cbn [mbind outcome_bind].
    apply hardened_iff in H4 as [_ Hp4], H5 as [_ Hp5]. rewrite Hp4. cbn [ok_or mbind outcome_bind]. rewrite decide_False by tauto.
    by rewrite Hp5.
  - intros Hno. unfold derive_bip85_mnemonic_from_root.
    destruct (validate_bip85_path path) as [[]|e|] eqn:Hv; [|done|].
    + apply validate_bip85_Ok in Hv as (w & i & Hp). by destruct (Hno w i).
    + by destruct (validate_bip85_no_panic path).
Qed.

End UserKeys.
