(* ===== verification/Kv.v ===== *)
(** * The key-value store

    [src/src/kv.rs] and its wrappers in [src/src/main.rs]: a user's pairs are
    rows whose key is encrypted deterministically and whose value is encrypted
    with a random nonce, both under the user's own key.  The theorem relates the
    rows to the map the user sees. *)

From S2P Require Import Prelude Text Crypto Encrypt SeedWrapping Claims Database Accounts Credentials UserKeys.

Module Kv.
Import Db Accounts Credentials.

(** [StoreError]; the pool error is reported as [NotFound]. *)
Inductive StoreError := KeyNotFound (key : string) | Unauthorized | DecryptionError | StoreDatabaseError (e : DieselError).
Record KVPair := MkPair { p_key : string; p_value : string; p_created_at : Z; p_updated_at : Z }.

Section kv.
Context {cr : Crypto}.

Definition store_connection : ST State StoreError unit := st_map_err (fun _ => StoreDatabaseError NotFound) connection.
Definition store {A} (m : ST State DieselError A) : ST State StoreError A := st_map_err StoreDatabaseError m.

(** Decryption and decoding of a stored value. *)
Definition decode (m : outcome Encrypt.EncryptError bytes) : outcome StoreError string :=
  b ← map_err (fun _ => DecryptionError) m;
  ok_or DecryptionError (from_utf8 b).

Definition get (user_id : Uuid) (key : string) (user_secret_key : Encrypt.SecretKey) : ST State StoreError (option string) :=
  _ ← store_connection;
  encrypted_key ← st_lift (lift (Encrypt.encrypt_key_deterministic user_secret_key (as_bytes key)));
  user_kv ← store (kv_get_by_user_and_key user_id encrypted_key);
  match user_kv with
  | Some row =>
      value ← st_lift (decode (Encrypt.decrypt_with_key user_secret_key (value_enc row)));
      st_ok (Some value)
  | None => st_ok None
  end.

Definition put (now : Z) (nonce : bytes) (user_id : Uuid) (key value : string) (encryption_key : Encrypt.SecretKey)
    : ST State StoreError unit :=
  _ ← store_connection;
  encrypted_key ← st_lift (lift (Encrypt.encrypt_key_deterministic encryption_key (as_bytes key)));
  encrypted_value ← st_lift (lift (Encrypt.encrypt_with_key nonce encryption_key (as_bytes value)));
  _ ← store (kv_insert now (MkNewKV user_id encrypted_key encrypted_value));
  st_ok tt.

Definition delete (user_id : Uuid) (key : string) (user_secret_key : Encrypt.SecretKey) : ST State StoreError unit :=
  _ ← store_connection;
  encrypted_key ← st_lift (lift (Encrypt.encrypt_key_deterministic user_secret_key (as_bytes key)));
  user_kv ← store (kv_get_by_user_and_key user_id encrypted_key);
  match user_kv with
  | Some row => store (kv_delete row)
  | None => st_err (KeyNotFound key)
  end.

Definition delete_all (user_id : Uuid) : ST State StoreError unit :=
  _ ← store_connection;
  store (kv_delete_all_for_user user_id).

(** [timestamp_millis]. *)
Definition timestamp_millis (t : Z) : Z := (t / 10 ^ 6)%Z.
Definition decode_row (user_secret_key : Encrypt.SecretKey) (row : UserKV) : outcome StoreError KVPair :=
  key ← decode (Encrypt.decrypt_key_deterministic user_secret_key (key_enc row));
  value ← decode (Encrypt.decrypt_with_key user_secret_key (value_enc row));
  Ok (MkPair key value (timestamp_millis (k_created_at row)) (timestamp_millis (k_updated_at row))).
Fixpoint decode_rows (user_secret_key : Encrypt.SecretKey) (rows : list UserKV) : outcome StoreError (list KVPair) :=
  match rows with
  | [] => Ok []
  | row :: rows =>
      pair ← decode_row user_secret_key row;
      pairs ← decode_rows user_secret_key rows;
      Ok (pair :: pairs)
  end.
Definition list (user_id : Uuid) (user_secret_key : Encrypt.SecretKey) : ST State StoreError (list KVPair) :=
  _ ← store_connection;
  user_kvs ← store (kv_get_all_for_user user_id);
  st_lift (decode_rows user_secret_key user_kvs).
End kv.

(** ** The methods of [AppState] *)
Section app.
Context `{Crypto, Citext, UuidText, AccountDeps, UserKeys.Bip}.
Context (enclave_key : bytes).

Definition with_user_key {A} (u : User) (ctx : Claims.AuthContext) (f : Encrypt.SecretKey -> ST State StoreError A)
    : ST State StoreError A :=
  user_key ← st_map_err (fun _ => Unauthorized) (UserKeys.get_user_key enclave_key u ctx None None);
  f user_key.

Definition app_get (u : User) (ctx : Claims.AuthContext) (key : string) : ST State StoreError (option string) :=
  with_user_key u ctx (get (uuid u) key).
Definition app_put (now : Z) (nonce : bytes) (u : User) (ctx : Claims.AuthContext) (key value : string)
    : ST State StoreError unit :=
  with_user_key u ctx (put now nonce (uuid u) key value).
Definition app_delete (u : User) (ctx : Claims.AuthContext) (key : string) : ST State StoreError unit :=
  with_user_key u ctx (delete (uuid u) key).
Definition app_delete_all (user_id : Uuid) : ST State StoreError unit := delete_all user_id.
Definition app_list (u : User) (ctx : Claims.AuthContext) : ST State StoreError (Datatypes.list KVPair) :=
  with_user_key u ctx (list (uuid u)).
End app.
(** ** The map a user sees *)
Section refinement.
Context {cr : Crypto} {cl : CryptoLaws cr}.

Definition rows_of (id : Uuid) (t : Tables) : Datatypes.list UserKV :=
  matching_rows (fun k => bool_decide (k_user_id k = id)) (user_kv t).
(** [c] is the stored form of a key; [c] holds the text [v]. *)
Definition key_code (k : Encrypt.SecretKey) (key : string) (c : bytes) : Prop :=
  is_utf8 key = true /\ Encrypt.encrypt_key_deterministic k (as_bytes key) = Ok c.
Definition holds (k : Encrypt.SecretKey) (c : bytes) (v : string) : Prop :=
  is_utf8 v = true /\ Encrypt.decrypt_with_key k c = Ok (as_bytes v).

(** The rows of [id] under the key [k] are the map [m]. *)
Record represents (id : Uuid) (k : Encrypt.SecretKey) (m : gmap string string) (s : State) : Prop := {
  rep_serial row : row ∈ user_kv (tables s) -> (k_id row < serial s)%Z;
  rep_ids : NoDup (k_id <$> user_kv (tables s));
  rep_keys : NoDup (key_enc <$> rows_of id (tables s));
  rep_rows row : row ∈ rows_of id (tables s) ->
    exists key v, key_code k key (key_enc row) /\ holds k (value_enc row) v /\ m !! key = Some v;
  rep_map key v : m !! key = Some v -> exists row, row ∈ rows_of id (tables s) /\ key_code k key (key_enc row);
}.

Lemma elem_of_rows id t row : row ∈ rows_of id t <-> row ∈ user_kv t /\ k_user_id row = id.
Proof. unfold rows_of. rewrite elem_of_matching, bool_decide_eq_true. tauto. Qed.

Lemma key_code_inj k key key' c : key_code k key c -> key_code k key' c -> key = key'.
Proof.
  unfold key_code, Encrypt.encrypt_key_deterministic. intros [_ H1%expect_Ok] [_ H2%expect_Ok].
  apply (open_seal _ siv_ok) in H1, H2. rewrite H1 in H2. injection H2 as H2. by apply as_bytes_inj.
Qed.

Lemma kv_of_true id c row : kv_of id c row = true <-> k_user_id row = id /\ key_enc row = c.
Proof. unfold kv_of. by rewrite andb_true_iff, !bool_decide_eq_true. Qed.

Lemma decode_holds k c v : holds k c v -> decode (Encrypt.decrypt_with_key k c) = Ok v.
Proof. intros [Hu ->]. unfold decode. cbn. unfold from_utf8. by rewrite of_as_bytes, Hu. Qed.

Lemma decode_key k key c : key_code k key c -> decode (Encrypt.decrypt_key_deterministic k c) = Ok key.
Proof.
  unfold key_code, Encrypt.encrypt_key_deterministic, Encrypt.decrypt_key_deterministic, decode.
  intros [Hu Hc%expect_Ok]. apply (open_seal _ siv_ok) in Hc. rewrite Hc. cbn. unfold from_utf8. by rewrite of_as_bytes, Hu.
Qed.

(** Looking a key up among the rows is looking it up in the map. *)
Lemma lookup_row id k m s key c :
  represents id k m s -> key_code k key c ->
  match first (kv_of id c) (user_kv (tables s)) with
  | Some row => row ∈ rows_of id (tables s) /\ key_enc row = c /\ exists v, holds k (value_enc row) v /\ m !! key = Some v
  | None => m !! key = None
  end.
Proof.
  intros R Hc. destruct (first _ _) as [row|] eqn:Hf.
  - apply first_Some in Hf as [[Hid Hk]%kv_of_true Hin].
    assert (row ∈ rows_of id (tables s)) as Hrow by (by apply elem_of_rows).
    destruct (rep_rows _ _ _ _ R row Hrow) as (key' & v & Hc' & Hh & Hm). rewrite Hk in Hc'.
    rewrite (key_code_inj _ _ _ _ Hc Hc'). eauto.
  - destruct (m !! key) as [v|] eqn:Hm; [|done]. exfalso.
    destruct (rep_map _ _ _ _ R _ _ Hm) as (row & [Hin Hid]%elem_of_rows & Hc').
    assert (key_enc row = c) as Hk by (destruct Hc, Hc'; congruence).
    unfold first in Hf. apply fmap_None, list_find_None in Hf. rewrite Forall_forall in Hf.
    by apply (Hf row); [|apply kv_of_true].
Qed.

Lemma filter_ext_in {A} (P Q : A -> Prop) `{!forall x, Decision (P x), !forall x, Decision (Q x)} (l : Datatypes.list A) :
  (forall x, x ∈ l -> P x <-> Q x) -> filter P l = filter Q l.
Proof.
  induction l as [|x l IH]; [done|]. intros Hpq. rewrite !filter_cons, IH by set_solver.
  destruct (Hpq x) as [H1 H2]; [left|]. repeat case_decide; tauto.
Qed.

(** The rows of the others. *)
Definition others_kv (id : Uuid) (t : Tables) : Tables := set_user_kv (filter (fun row => k_user_id row <> id) (user_kv t)) t.

Lemma represents_later id k m s s' :
  tables s' = tables s -> (serial s <= serial s')%Z -> represents id k m s -> represents id k m s'.
Proof.
  intros Ht Hn R. split; rewrite Ht; try apply R. intros row Hr%(rep_serial _ _ _ _ R). lia.
Qed.

Lemma statement_runs {A} (f : Z -> Tables -> outcome DieselError (A * Tables)) s a t :
  faults s = [] -> f (serial s) (tables s) = Ok (a, t) -> statement f s = (Ok a, with_tables t (advance s)).
Proof. intros Hs Hf. unfold statement, faulty. by rewrite Hs, Hf. Qed.

Lemma store_runs {A} (m : ST State DieselError A) s a s' : m s = (Ok a, s') -> store m s = (Ok a, s').
Proof. intros Hm. by apply st_map_err_Ok. Qed.
Lemma store_connection_runs s : faults s = [] -> store_connection s = (Ok tt, advance s).
Proof. intros Hs. unfold store_connection, st_map_err. by rewrite connection_runs. Qed.

Lemma rows_of_update id c f t :
  (forall row, k_user_id (f row) = k_user_id row) ->
  matching_rows (fun k => bool_decide (k_user_id k = id)) (update_rows (kv_of id c) f (user_kv t)) =
  update_rows (kv_of id c) f (rows_of id t).
Proof.
  intros Hf. unfold rows_of, update_rows, matching_rows. induction (user_kv t) as [|row l IH]; [done|].
  rewrite fmap_cons, !filter_cons.
  assert (k_user_id (if kv_of id c row then f row else row) = k_user_id row) as -> by (by destruct (kv_of id c row)).
  case_decide; [|done]. by rewrite fmap_cons, IH.
Qed.

(** A write of the value of an existing key. *)
Lemma represents_update id k m s key value c cv now :
  represents id k m s -> key_code k key c -> holds k cv value -> is_Some (m !! key) ->
  represents id k (<[key := value]> m)
    (with_tables (set_user_kv (update_rows (kv_of id c)
       (fun r => MkKV (k_id r) (k_user_id r) (key_enc r) cv (k_created_at r) now) (user_kv (tables s))) (tables s)) s).
Proof.
  set (f := fun r => MkKV (k_id r) (k_user_id r) (key_enc r) cv (k_created_at r) now).
  intros R Hc Hh Hsome.
  assert (forall {B} (g : UserKV -> B) l, (forall r, g (f r) = g r) -> g <$> update_rows (kv_of id c) f l = g <$> l) as Hfmap.
  { intros B g l Hg. unfold update_rows. rewrite <- list_fmap_compose. apply list_fmap_ext. intros i r _. cbn. by destruct (kv_of id c r). }
  assert (forall row, k_user_id (f row) = k_user_id row) as Hf by done.
  pose proof (rows_of_update id c f (tables s) Hf) as Hrows.
  split; cbn [tables with_tables serial]; unfold rows_of; cbn [user_kv set_user_kv]; rewrite ?Hrows.
  - intros row (r & Hr & ->)%elem_of_updated. apply (rep_serial _ _ _ _ R) in Hr. by destruct (kv_of id c r).
  - rewrite Hfmap by done. apply R.
  - rewrite Hfmap by done. apply R.
  - intros row (r & Hr & ->)%elem_of_updated.
    destruct (rep_rows _ _ _ _ R r Hr) as (key' & v & Hc' & Hh' & Hm).
    destruct (kv_of id c r) eqn:Hkv.
    + apply kv_of_true in Hkv as [_ Hk]. exists key, value. cbn. rewrite Hk. split_and!; [done|done|by rewrite lookup_insert_eq].
    + exists key', v. split_and!; [done|done|]. rewrite lookup_insert_ne; [done|]. intros <-.
      apply not_true_iff_false in Hkv. apply Hkv, kv_of_true. apply elem_of_rows in Hr as [_ Hid]. split; [done|].
      destruct Hc, Hc'. congruence.
  - intros key' v Hm.
    assert (exists v', m !! key' = Some v') as [v' Hm'].
    { destruct (decide (key' = key)) as [->|Hne]; [done|]. rewrite lookup_insert_ne in Hm by done. eauto. }
    destruct (rep_map _ _ _ _ R _ _ Hm') as (row & Hrow & Hcode).
    exists (if kv_of id c row then f row else row). split.
    + apply elem_of_updated. by exists row.
    + by destruct (kv_of id c row).
Qed.

(** A row for a new key. *)
Lemma represents_insert id k m s key value c cv now :
  represents id k m s -> key_code k key c -> holds k cv value -> m !! key = None ->
  represents id k (<[key := value]> m)
    (with_tables (set_user_kv (user_kv (tables s) ++ [MkKV (serial s) id c cv now now]) (tables s)) (advance s)).
Proof.
  intros R Hc Hh Hnone. set (new := MkKV (serial s) id c cv now now).
  assert (matching_rows (fun k => bool_decide (k_user_id k = id)) (user_kv (tables s) ++ [new]) = rows_of id (tables s) ++ [new]) as Hrows.
  { rewrite matching_rows_app. f_equal. unfold matching_rows. rewrite filter_cons_True; [done|]. cbn. by rewrite bool_decide_true. }
  split; cbn [tables with_tables serial advance]; unfold rows_of; cbn [user_kv set_user_kv]; rewrite ?Hrows.
  - intros row [Hr%(rep_serial _ _ _ _ R) | ->%list_elem_of_singleton]%elem_of_app; [lia|cbn; lia].
  - rewrite fmap_app. apply NoDup_app. split_and!; [apply R| |apply NoDup_singleton].
    intros x (r & -> & Hr%(rep_serial _ _ _ _ R))%list_elem_of_fmap Hx%list_elem_of_singleton. cbn in Hx. lia.
  - rewrite fmap_app. apply NoDup_app. split_and!; [apply R| |apply NoDup_singleton].
    intros x (r & -> & Hr)%list_elem_of_fmap Hx%list_elem_of_singleton. cbn in Hx.
    destruct (rep_rows _ _ _ _ R r Hr) as (key' & v & Hc' & _ & Hm). rewrite Hx in Hc'.
    rewrite (key_code_inj _ _ _ _ Hc' Hc) in Hm. congruence.
  - intros row [Hr | ->%list_elem_of_singleton]%elem_of_app.
    + destruct (rep_rows _ _ _ _ R row Hr) as (key' & v & Hc' & Hh' & Hm). exists key', v. split_and!; [done|done|].
      rewrite lookup_insert_ne; [done|]. intros <-. congruence.
    + exists key, value. split_and!; [done|done|by rewrite lookup_insert_eq].
  - intros key' v Hm. destruct (decide (key' = key)) as [->|Hne].
    + exists new. split; [apply elem_of_app; right; left|done].
    + rewrite lookup_insert_ne in Hm by done. destruct (rep_map _ _ _ _ R _ _ Hm) as (row & Hrow & Hcode).
      exists row. split; [apply elem_of_app; by left|done].
Qed.

Lemma rows_of_delete id t i :
  matching_rows (fun k => bool_decide (k_user_id k = id)) (delete_rows (fun k => bool_decide (k_id k = i)) (user_kv t)) =
  delete_rows (fun k => bool_decide (k_id k = i)) (rows_of id t).
Proof. unfold rows_of, matching_rows, delete_rows. rewrite !list_filter_filter. apply list_filter_iff. tauto. Qed.

(** The deletion of the row of a key. *)
Lemma represents_delete id k m s key c row :
  represents id k m s -> key_code k key c -> row ∈ rows_of id (tables s) -> key_enc row = c ->
  represents id k (base.delete key m)
    (with_tables (set_user_kv (delete_rows (fun r => bool_decide (k_id r = k_id row)) (user_kv (tables s))) (tables s)) s).
Proof.
  intros R Hc Hrow Hk. pose proof (rows_of_delete id (tables s) (k_id row)) as Hrows.
  assert (forall r, r ∈ rows_of id (tables s) -> bool_decide (k_id r = k_id row) = bool_decide (key_enc r = c)) as Hsame.
  { intros r Hr. apply bool_decide_ext. split.
    - intros Hid. enough (r = row) by congruence. apply elem_of_rows in Hr as [Hr _], Hrow as [Hrow _].
      by eapply (NoDup_fmap_same k_id); [apply (rep_ids _ _ _ _ R)|..].
    - intros Hkey. enough (r = row) by congruence.
      eapply (NoDup_fmap_same key_enc); [apply (rep_keys _ _ _ _ R)|done..|]. congruence. }
  split; cbn [tables with_tables serial]; unfold rows_of; cbn [user_kv set_user_kv]; rewrite ?Hrows.
  - intros r [_ Hr]%elem_of_deleted. by apply (rep_serial _ _ _ _ R).
  - apply NoDup_fmap_deleted, R.
  - apply NoDup_fmap_deleted, R.
  - intros r [Hd Hr]%elem_of_deleted. rewrite (Hsame r Hr) in Hd. apply bool_decide_eq_false in Hd.
    destruct (rep_rows _ _ _ _ R r Hr) as (key' & v & Hc' & Hh & Hm). exists key', v. split_and!; [done|done|].
    rewrite lookup_delete_ne; [done|]. intros <-. destruct Hc, Hc'. congruence.
  - intros key' v [Hne Hm]%lookup_delete_Some. destruct (rep_map _ _ _ _ R _ _ Hm) as (r & Hr & Hcode).
    exists r. split; [|done]. apply elem_of_deleted. split; [|done]. rewrite (Hsame r Hr). apply bool_decide_eq_false.
    intros Heq. rewrite Heq in Hcode. by rewrite (key_code_inj _ _ _ _ Hcode Hc) in Hne.
Qed.

Lemma represents_nothing id k m s :
  represents id k m s ->
  represents id k ∅ (with_tables (set_user_kv (delete_rows (fun r => bool_decide (k_user_id r = id)) (user_kv (tables s))) (tables s)) s).
Proof.
  intros R. assert (rows_of id (set_user_kv (delete_rows (fun r => bool_decide (k_user_id r = id)) (user_kv (tables s))) (tables s)) = []) as Hrows.
  { unfold rows_of. apply matching_deleted. }
  split; cbn [tables with_tables serial]; rewrite ?Hrows; cbn [user_kv set_user_kv].
  - intros r [_ Hr]%elem_of_deleted. by apply (rep_serial _ _ _ _ R).
  - apply NoDup_fmap_deleted, R.
  - apply NoDup_nil_2.
  - by intros r ?%elem_of_nil.
  - intros key v. by rewrite lookup_empty.
Qed.

(** ** The operations *)
Lemma kv_lookup_runs id c s :
  faults s = [] ->
  store (kv_get_by_user_and_key id c) s = (Ok (first (kv_of id c) (user_kv (tables s))), advance s).
Proof. intros Hs. unfold kv_get_by_user_and_key. apply store_runs. by rewrite select_runs. Qed.

Lemma others_delete id i t :
  (forall row, row ∈ user_kv t -> k_id row = i -> k_user_id row = id) ->
  others_kv id (set_user_kv (delete_rows (fun r => bool_decide (k_id r = i)) (user_kv t)) t) = others_kv id t.
Proof.
  intros Hi. unfold others_kv, set_user_kv. cbn. f_equal. unfold delete_rows. rewrite list_filter_filter.
  apply filter_ext_in. intros row Hr. rewrite bool_decide_eq_false. naive_solver.
Qed.

Lemma others_delete_all id t :
  others_kv id (set_user_kv (delete_rows (fun r => bool_decide (k_user_id r = id)) (user_kv t)) t) = others_kv id t.
Proof.
  unfold others_kv, set_user_kv. cbn. f_equal. unfold delete_rows. rewrite list_filter_filter.
  apply filter_ext_in. intros row _. rewrite bool_decide_eq_false. tauto.
Qed.

Lemma others_update id c f t :
  (forall row, k_user_id (f row) = k_user_id row) ->
  others_kv id (set_user_kv (update_rows (kv_of id c) f (user_kv t)) t) = others_kv id t.
Proof.
  intros Hf. unfold others_kv, set_user_kv. cbn. f_equal. unfold update_rows.
  induction (user_kv t) as [|row l IH]; [done|]. rewrite fmap_cons, !filter_cons, IH.
  destruct (kv_of id c row) eqn:Hk; [|done]. apply kv_of_true in Hk as [Hid _]. rewrite Hf, !decide_False by tauto. done.
Qed.

Lemma others_insert id row t : k_user_id row = id -> others_kv id (set_user_kv (user_kv t ++ [row]) t) = others_kv id t.
Proof.
  intros Hid. unfold others_kv, set_user_kv. cbn. f_equal. rewrite filter_app, filter_cons_False, filter_nil, app_nil_r; tauto.
Qed.

(** [s'] holds the map [m'], and nothing but the pairs of [id] differs from [s]. *)
Definition now_holds (id : Uuid) (k : Encrypt.SecretKey) (m' : gmap string string) (s s' : State) : Prop :=
  represents id k m' s' /\ others_kv id (tables s') = others_kv id (tables s).

Lemma now_holds_same id k m s s' :
  represents id k m s -> tables s' = tables s -> (serial s <= serial s')%Z -> now_holds id k m s s'.
Proof. intros R Ht Hn. split; [by eapply represents_later|by rewrite Ht]. Qed.

Lemma bind_ok_lift {E A B} (a : A) (f : A -> ST State E B) s : (x ← st_lift (lift (Ok a)); f x) s = f a s.
Proof. done. Qed.
Lemma bind_runs {E A B} (m : ST State E A) (f : A -> ST State E B) s a s' :
  m s = (Ok a, s') -> (x ← m; f x) s = f a s'.
Proof. unfold mbind, ST_bind. by intros ->. Qed.

Lemma get_runs id k m s key c :
  faults s = [] -> represents id k m s -> key_code k key c ->
  exists s', get id key k s = (Ok (m !! key), s') /\ tables s' = tables s /\ serial s' = (serial s + 2)%Z.
Proof.
  intros Hs R Hc. unfold get. rewrite (bind_runs _ _ _ _ _ (store_connection_runs _ Hs)).
  rewrite (proj2 Hc), bind_ok_lift, (bind_runs _ _ _ _ _ (kv_lookup_runs _ _ _ (advance_quiet _ Hs))).
  pose proof (lookup_row _ _ _ _ _ _ R Hc) as Hl. cbn [tables advance].
  destruct (first _ _) as [row|].
  - destruct Hl as (_ & _ & v & Hh & ->). rewrite (decode_holds _ _ _ Hh). eexists. split; [done|]. split; [done|]. cbn; lia.
  - rewrite Hl. eexists. split; [done|]. split; [done|]. cbn; lia.
Qed.

Lemma insert_runs now n s t row :
  faults s = [] -> existsb (is_user (nk_user_id n)) (users (tables s)) = true ->
  (match first (kv_of (nk_user_id n) (nk_key_enc n)) (user_kv (tables s)) with
   | Some old =>
       let updated k := MkKV (k_id k) (k_user_id k) (key_enc k) (nk_value_enc n) (k_created_at k) now in
       (updated old, set_user_kv (update_rows (kv_of (nk_user_id n) (nk_key_enc n)) updated (user_kv (tables s))) (tables s))
   | None =>
       let k := MkKV (serial s) (nk_user_id n) (nk_key_enc n) (nk_value_enc n) now now in
       (k, set_user_kv (user_kv (tables s) ++ [k]) (tables s))
   end = (row, t)) ->
  store (kv_insert now n) s = (Ok row, with_tables t (advance s)).
Proof. intros Hs Hu Hm. apply store_runs, statement_runs; [done|]. unfold references. rewrite Hu. by f_equal. Qed.

Lemma put_runs id k m s key value c cv now nonce :
  faults s = [] -> represents id k m s -> existsb (is_user id) (users (tables s)) = true ->
  key_code k key c -> Encrypt.encrypt_with_key nonce k (as_bytes value) = Ok cv -> holds k cv value ->
  exists s', put now nonce id key value k s = (Ok tt, s') /\ now_holds id k (<[key := value]> m) s s'.
Proof.
  intros Hs R Hu Hc He Hh. unfold put. rewrite (bind_runs _ _ _ _ _ (store_connection_runs _ Hs)).
  rewrite (proj2 Hc), bind_ok_lift, He, bind_ok_lift.
  assert (represents id k m (advance s)) as R' by (apply (represents_later id k m s); [done|cbn; lia|done]).
  pose proof (lookup_row _ _ _ _ _ _ R Hc) as Hl.
  destruct (first (kv_of id c) (user_kv (tables s))) as [old|] eqn:Hf; cbn [tables advance] in Hl.
  - destruct Hl as (_ & _ & v & _ & Hm). eexists. erewrite bind_runs.
    2:{ apply insert_runs; [by apply advance_quiet|done|]. cbn [nk_user_id nk_key_enc nk_value_enc tables advance]. by rewrite Hf. }
    split; [done|]. split.
    + eapply represents_later; [| |apply (represents_update id k m (advance s) key value c cv now R' Hc Hh (mk_is_Some _ _ Hm))];
        [done|cbn; lia].
    + by apply others_update.
  - eexists. erewrite bind_runs.
    2:{ apply insert_runs; [by apply advance_quiet|done|]. cbn [nk_user_id nk_key_enc nk_value_enc tables advance]. by rewrite Hf. }
    split; [done|]. split; [|by apply others_insert].
    eapply represents_later; [| |apply (represents_insert id k m (advance s) key value c cv now R' Hc Hh Hl)]; [done|cbn; lia].
Qed.

Lemma delete_runs id k m s key c :
  faults s = [] -> represents id k m s -> key_code k key c ->
  exists s', delete id key k s = (match m !! key with Some _ => Ok tt | None => Err (KeyNotFound key) end, s') /\
    now_holds id k (base.delete key m) s s' /\ (m !! key = None -> tables s' = tables s).
Proof.
  intros Hs R Hc. unfold delete. rewrite (bind_runs _ _ _ _ _ (store_connection_runs _ Hs)).
  rewrite (proj2 Hc), bind_ok_lift, (bind_runs _ _ _ _ _ (kv_lookup_runs _ _ _ (advance_quiet _ Hs))).
  pose proof (lookup_row _ _ _ _ _ _ R Hc) as Hl. cbn [tables advance].
  destruct (first _ _) as [row|].
  - destruct Hl as (Hrow & Hk & v & _ & ->). eexists. split; [|split; [|discriminate]].
    { apply store_runs, statement_runs; [|reflexivity]. by apply advance_quiet, advance_quiet. }
    split.
    + eapply represents_later; [| |apply (represents_delete id k m s key c row R Hc Hrow Hk)]; [done|cbn; lia].
    + apply others_delete. intros r Hr Hid. apply elem_of_rows in Hrow as [Hrow Huser].
      by rewrite (NoDup_fmap_same k_id _ _ _ (rep_ids _ _ _ _ R) Hr Hrow Hid).
  - rewrite Hl. eexists. split; [done|]. split; [|done]. rewrite delete_id by done.
    eapply now_holds_same; [done|done|cbn; lia].
Qed.

Lemma delete_all_runs id k m s :
  faults s = [] -> represents id k m s -> exists s', delete_all id s = (Ok tt, s') /\ now_holds id k ∅ s s'.
Proof.
  intros Hs R. unfold delete_all. rewrite (bind_runs _ _ _ _ _ (store_connection_runs _ Hs)). eexists. split.
  { apply store_runs, statement_runs; [by apply advance_quiet|reflexivity]. }
  split; [|apply others_delete_all]. eapply represents_later; [| |apply (represents_nothing id k m s R)]; [done|cbn; lia].
Qed.

(** Decoding the rows gives the pairs of the map. *)
Definition pair_of (p : KVPair) : string * string := (p_key p, p_value p).
Lemma decode_rows_runs id k m s rows :
  represents id k m s -> rows ⊆ rows_of id (tables s) ->
  exists pairs, decode_rows k rows = Ok pairs /\
    Forall2 (fun row p => key_code k (p_key p) (key_enc row) /\ m !! p_key p = Some (p_value p)) rows pairs.
Proof.
  intros R. induction rows as [|row rows IH]; intros Hsub; [by exists []|].
  destruct IH as (pairs & Hd & Hf); [set_solver|].
  destruct (rep_rows _ _ _ _ R row) as (key & v & Hc & Hh & Hm); [set_solver|].
  cbn [decode_rows]. unfold decode_row. rewrite (decode_key _ _ _ Hc), (decode_holds _ _ _ Hh). cbn [mbind outcome_bind].
  rewrite Hd. cbn [mbind outcome_bind]. eexists. split; [done|]. constructor; [done|done].
Qed.

Lemma list_runs id k m s :
  faults s = [] -> represents id k m s ->
  exists pairs s', list id k s = (Ok pairs, s') /\ tables s' = tables s /\ pair_of <$> pairs ≡ₚ map_to_list m /\
    serial s' = (serial s + 2)%Z.
Proof.
  intros Hs R. destruct (decode_rows_runs id k m s _ R (reflexivity (rows_of id (tables s)))) as (pairs & Hd & Hf).
  exists pairs. unfold list. rewrite (bind_runs _ _ _ _ _ (store_connection_runs _ Hs)). eexists. split; [|split; [|split]].
  { erewrite bind_runs; [|apply store_runs, select_runs; by apply advance_quiet]. cbn [tables advance].
    fold (rows_of id (tables s)). unfold st_lift. by rewrite Hd. }
  - done.
  - apply NoDup_Permutation.
    + apply (NoDup_fmap_1 fst). rewrite <- list_fmap_compose. pose proof (rep_keys _ _ _ _ R) as Hn.
      apply NoDup_alt. pose proof (proj1 (NoDup_alt _) Hn) as Hsame. intros i j key Hi Hj. apply list_lookup_fmap_Some in Hi as (p & -> & Hi), Hj as (q & Hk & Hj).
      destruct (Forall2_lookup_r _ _ _ _ _ Hf Hi) as (r & Hr & Hc & _), (Forall2_lookup_r _ _ _ _ _ Hf Hj) as (r' & Hr' & Hc' & _).
      cbn in Hk. rewrite <- Hk in Hc'. apply (Hsame i j (key_enc r)); rewrite list_lookup_fmap; [by rewrite Hr|].
      rewrite Hr'. cbn. f_equal. destruct Hc, Hc'. congruence.
    + apply NoDup_map_to_list.
    + intros [key v]. rewrite elem_of_map_to_list. split.
      * intros (p & [= -> ->] & Hp)%list_elem_of_fmap. apply list_elem_of_lookup in Hp as [i Hp].
        by destruct (Forall2_lookup_r _ _ _ _ _ Hf Hp) as (row & _ & _ & ?).
      * intros Hm. destruct (rep_map _ _ _ _ R _ _ Hm) as (row & Hrow & Hc). apply list_elem_of_lookup in Hrow as [i Hrow].
        destruct (Forall2_lookup_l _ _ _ _ _ Hf Hrow) as (p & Hp & Hc' & Hm').
        rewrite (key_code_inj _ _ _ _ Hc Hc') in *. apply list_elem_of_fmap. exists p. split; [|by eapply list_elem_of_lookup_2].
        unfold pair_of. congruence.
  - cbn; lia.
Qed.

(** The store is a map per user.  While the rows of a user represent a map
    of texts, every operation that the database does not fail does to the map
    what its name says, whatever rows other users have: a read finds the value,
    a write adds or replaces it, a deletion removes it or reports a missing key,
    a listing gives each pair once, and nobody else's rows change. *)
Theorem kv_refines_map id k m s :
  faults s = [] -> represents id k m s -> existsb (is_user id) (users (tables s)) = true ->
  length (Encrypt.secret_bytes k) = Encrypt.AES_256_KEY_LENGTH ->
  (forall key c, key_code k key c ->
     (exists s', get id key k s = (Ok (m !! key), s') /\ tables s' = tables s) /\
     (forall now nonce value cv, is_utf8 value = true -> length nonce = 12 ->
        Encrypt.encrypt_with_key nonce k (as_bytes value) = Ok cv ->
        exists s', put now nonce id key value k s = (Ok tt, s') /\ now_holds id k (<[key := value]> m) s s') /\
     (exists s', delete id key k s = (match m !! key with Some _ => Ok tt | None => Err (KeyNotFound key) end, s') /\
        now_holds id k (base.delete key m) s s')) /\
  (exists s', delete_all id s = (Ok tt, s') /\ now_holds id k ∅ s s') /\
  (exists pairs s', list id k s = (Ok pairs, s') /\ tables s' = tables s /\ pair_of <$> pairs ≡ₚ map_to_list m).
Proof.
  intros Hs R Hu Hk. split_and!.
  - intros key c Hc. split_and!.
    + destruct (get_runs _ _ _ _ _ _ Hs R Hc) as (s' & ? & ? & _). eauto.
    + intros now nonce value cv Hv Hn He. eapply put_runs; [done..|]. split; [done|].
      destruct k as [k]. by apply (Encrypt.with_key_exact nonce k) in He as [? _].
    + destruct (delete_runs _ _ _ _ _ _ Hs R Hc) as (s' & ? & ? & _). eauto.
  - by eapply delete_all_runs.
  - destruct (list_runs _ _ _ _ Hs R) as (pairs & s' & ? & ? & ? & _). eauto.
Qed.

Lemma represents_fresh id k s :
  rows_of id (tables s) = [] -> NoDup (k_id <$> user_kv (tables s)) ->
  (forall row, row ∈ user_kv (tables s) -> (k_id row < serial s)%Z) -> represents id k ∅ s.
Proof.
  intros Hr Hn Hs. split; rewrite ?Hr; [done|done|apply NoDup_nil_2|by intros row ?%elem_of_nil|].
  intros key v. by rewrite lookup_empty.
Qed.
End refinement.

(** ** Errors *)
Section errors.
Context `{Crypto, Citext, UuidText, AccountDeps, UserKeys.Bip}.
Context (enclave_key : bytes).

(** Only success writes. *)
Definition writes_on_success {E A} (m : ST State E A) : Prop :=
  forall s r s', m s = (r, s') -> not_ok r -> tables s' = tables s.

Lemma reads_quiet {E A} (m : ST State E A) : reads m -> writes_on_success m.
Proof. intros Hm s r s' Hr _. by apply Hm in Hr. Qed.
Lemma quiet_bind {E A B} (m : ST State E A) (f : A -> ST State E B) :
  reads m -> (forall a, writes_on_success (f a)) -> writes_on_success (x ← m; f x).
Proof.
  intros Hm Hf s r s' [(a & s1 & Ha & Hb)|(r' & Ha & _)]%ST_bind_inv Hn; [|by eapply Hm].
  etransitivity; [by eapply Hf|by eapply Hm].
Qed.
Lemma quiet_then_ok {E A B} (m : ST State E A) (b : B) : writes_on_success m -> writes_on_success (_ ← m; st_ok b).
Proof.
  intros Hm s r s' [(a & s1 & Ha & [= <- <-])|(r' & Ha & Hr & _)]%ST_bind_inv Hn; [by destruct (Hn b)|]. by eapply Hm.
Qed.
Lemma quiet_store {A} (f : Z -> Tables -> outcome DieselError (A * Tables)) : writes_on_success (store (statement f)).
Proof. intros s r s' (r0 & Hs & ->)%st_map_err_inv Hn%map_err_not_ok. by eapply statement_not_ok. Qed.

Lemma reads_store_connection : reads store_connection.
Proof. apply reads_map_err, reads_connection. Qed.
Lemma reads_lookup id c : reads (store (kv_get_by_user_and_key id c)).
Proof. apply reads_map_err, reads_select. Qed.
Lemma reads_user_key u ctx : reads (st_map_err (fun _ => Unauthorized) (UserKeys.get_user_key enclave_key u ctx None None)).
Proof. apply reads_map_err, reads_bind; [apply reads_decrypt|intros ?; apply reads_lift]. Qed.

Lemma reads_get id key k : reads (get id key k).
Proof.
  apply reads_bind; [apply reads_store_connection|intros _]. apply reads_bind; [apply reads_lift|intros c].
  apply reads_bind; [apply reads_lookup|intros [row|]; [|apply reads_ok]]. apply reads_bind; [apply reads_lift|intros; apply reads_ok].
Qed.
Lemma reads_list id k : reads (list id k).
Proof.
  apply reads_bind; [apply reads_store_connection|intros _].
  apply reads_bind; [apply reads_map_err, reads_select|intros rows; apply reads_lift].
Qed.

(** A request to the store that fails writes nothing.  Whatever goes wrong
    (the context opens no seed, the pool or a statement fails, a stored value
    does not decrypt or is no text, the key is absent), the tables stay as they
    were; reads never write; a context that opens no seed is unauthorized and
    reaches no row. *)
Theorem kv_errors_change_nothing u ctx key value now nonce :
  reads (app_get enclave_key u ctx key) /\ reads (app_list enclave_key u ctx) /\
  writes_on_success (app_put enclave_key now nonce u ctx key value) /\
  writes_on_success (app_delete enclave_key u ctx key) /\
  writes_on_success (app_delete_all (uuid u)) /\
  (forall s e s', decrypt_seed_for_auth_context enclave_key u ctx s = (Err e, s') ->
     app_get enclave_key u ctx key s = (Err Unauthorized, s') /\ app_list enclave_key u ctx s = (Err Unauthorized, s') /\
     app_put enclave_key now nonce u ctx key value s = (Err Unauthorized, s') /\
     app_delete enclave_key u ctx key s = (Err Unauthorized, s')).
Proof.
  split_and!.
  - apply reads_bind; [apply reads_user_key|intros k; apply reads_get].
  - apply reads_bind; [apply reads_user_key|intros k; apply reads_list].
  - apply quiet_bind; [apply reads_user_key|intros k]. apply quiet_bind; [apply reads_store_connection|intros _].
    apply quiet_bind; [apply reads_lift|intros c]. apply quiet_bind; [apply reads_lift|intros cv].
    apply quiet_then_ok, quiet_store.
  - apply quiet_bind; [apply reads_user_key|intros k]. apply quiet_bind; [apply reads_store_connection|intros _].
    apply quiet_bind; [apply reads_lift|intros c]. apply quiet_bind; [apply reads_lookup|intros [row|]].
    + apply quiet_store.
    + apply reads_quiet, reads_err.
  - apply quiet_bind; [apply reads_store_connection|intros _]. apply quiet_store.
  - intros s e s' Hd. unfold app_get, app_list, app_put, app_delete, with_user_key, UserKeys.get_user_key, st_map_err, mbind, ST_bind.
    rewrite Hd. done.
Qed.
End errors.

(** ** Witnesses *)
Section witnesses.
#[local] Existing Instances ToyCrypto.toy ToyCrypto.toy_laws.

Definition demo_secret : Encrypt.SecretKey := Encrypt.MkSecretKey (replicate 32 Byte.x05).
Definition demo_code : bytes :=
  match Encrypt.encrypt_key_deterministic demo_secret (as_bytes "k") with Ok c => c | _ => [] end.

Lemma kv_refines_map_witness :
  exists s', put 7 (replicate 12 Byte.x06) (uuid demo_user) "k" "v" demo_secret (demo_state demo_tables) = (Ok tt, s') /\
    now_holds (uuid demo_user) demo_secret {[ "k" := "v" ]} (demo_state demo_tables) s'.
Proof.
  destruct (kv_refines_map (cl := ToyCrypto.toy_laws) (uuid demo_user) demo_secret ∅ (demo_state demo_tables)) as (Hops & _).
  - reflexivity.
  - apply represents_fresh; [reflexivity|vm_compute; constructor|]. intros row Hr. by apply elem_of_nil in Hr.
  - vm_compute. reflexivity.
  - reflexivity.
  - destruct (Hops "k" demo_code) as (_ & Hput & _); [split; vm_compute; reflexivity|].
    eapply (Hput 7%Z (replicate 12 Byte.x06) "v"); vm_compute; reflexivity.
Defined.
End witnesses.

End Kv.
