(* ===== verification/ApiKeys.v ===== *)
(** * API keys

    [src/src/models/user_api_keys.rs], the key routes of
    [src/src/web/protected_routes.rs] and the middleware of
    [src/src/web/openai_auth.rs].  A key is a random UUID shown once; the table
    holds its hash under the owner and a name.  The theorems relate the table to
    a map from owner and name to hash. *)

From S2P Require Import Prelude Text Crypto Api Encrypt SeedWrapping Claims Database Accounts Credentials Tokens Rows.

Module ApiKeys.
Import Db Accounts Credentials.

(** ** Names *)
Inductive NameError := Whitespace | Length | InvalidCharacters.
Definition ascii_alphanumeric (b : nat) : bool := between 48 57 b || between 65 90 b || between 97 122 b.
(** A character allowed in a name: one byte, so ASCII. *)
Definition name_char (c : list nat) : bool :=
  match c with [b] => ascii_alphanumeric b || (b =? 32) || (b =? 45) || (b =? 95) | _ => false end.
Definition validate_api_key_name (name : string) : outcome NameError unit :=
  if decide (name <> trim name) then Err Whitespace
  else if is_empty name || bool_decide (50 < str_len name) then Err Length
  else if negb (forallb name_char (chars name)) then Err InvalidCharacters
  else Ok tt.
(** [CreateApiKeyRequest::validate]. *)
Definition validate_create (name : string) : bool :=
  bool_decide (1 <= char_count name <= 50) && is_ok (validate_api_key_name name).

(** ** [models/user_api_keys.rs] *)
Definition NAME_CONSTRAINT : string := "user_api_keys_user_id_name_key".
Definition key_by_id (id : Z) (k : UserApiKey) : bool := bool_decide (ak_id k = id).
Definition key_by_hash (h : string) (k : UserApiKey) : bool := bool_decide (key_hash k = h).
Definition key_of_user (user : Uuid) (k : UserApiKey) : bool := bool_decide (ak_user_id k = user).
Definition key_named (n : string) (user : Uuid) (k : UserApiKey) : bool :=
  bool_decide (ak_name k = n) && bool_decide (ak_user_id k = user).

(** The hash is unique, and so is the name among the keys of a user. *)
Definition insert_row (now : Z) (n : NewUserApiKey) : ST State DieselError UserApiKey :=
  statement (fun id t =>
    if existsb (key_by_hash (nak_key_hash n)) (user_api_keys t) then Err (UniqueViolationOf "user_api_keys_key_hash_key")
    else if existsb (key_named (nak_name n) (nak_user_id n)) (user_api_keys t) then Err (UniqueViolationOf NAME_CONSTRAINT)
    else references (nak_user_id n) t (
      let k := MkApiKey id (nak_user_id n) (nak_key_hash n) (nak_name n) now now in
      Ok (k, set_user_api_keys (user_api_keys t ++ [k]) t))).
Definition insert (now : Z) (n : NewUserApiKey) : ST State ApiKeyErrorKind UserApiKey :=
  st_map_err (fun e => match e with
    | UniqueViolationOf c => if decide (c = NAME_CONSTRAINT) then DuplicateName else KeyDatabaseError e
    | _ => KeyDatabaseError e
    end) (insert_row now n).
Definition get_by_id (id : Z) : ST State ApiKeyErrorKind (option UserApiKey) :=
  st_map_err KeyDatabaseError (select (fun t => first (key_by_id id) (user_api_keys t))).
Definition get_by_key_hash (h : string) : ST State ApiKeyErrorKind (option UserApiKey) :=
  st_map_err KeyDatabaseError (select (fun t => first (key_by_hash h) (user_api_keys t))).
Definition get_all_for_user (user : Uuid) : ST State ApiKeyErrorKind (list UserApiKey) :=
  st_map_err KeyDatabaseError (select (fun t => matching_rows (key_of_user user) (user_api_keys t))).
Definition delete_by_id (id : Z) : ST State ApiKeyErrorKind unit :=
  st_map_err KeyDatabaseError (execute (fun _ t =>
    (tt, set_user_api_keys (delete_rows (key_by_id id) (user_api_keys t)) t))).
Definition delete_by_name_and_user (n : string) (user : Uuid) : ST State ApiKeyErrorKind unit :=
  rows_affected ← st_map_err KeyDatabaseError (execute (fun _ t =>
    (length (matching_rows (key_named n user) (user_api_keys t)),
     set_user_api_keys (delete_rows (key_named n user) (user_api_keys t)) t)));
  if decide (rows_affected = 0) then st_err KeyNotFound else st_ok tt.

(** ** [db.rs] *)
Definition create_user_api_key (now : Z) (n : NewUserApiKey) : ST State DBError UserApiKey :=
  _ ← connection;
  st_map_err UserApiKeyError (insert now n).
Definition get_user_api_key_by_id (id : Z) : ST State DBError (option UserApiKey) :=
  _ ← connection;
  st_map_err UserApiKeyError (get_by_id id).
Definition get_user_api_key_by_hash (h : string) : ST State DBError (option UserApiKey) :=
  _ ← connection;
  st_map_err UserApiKeyError (get_by_key_hash h).
(** The join of [users] and [user_api_keys]. *)
Definition holder (h : string) (t : Tables) : option User :=
  first (fun u => existsb (fun k => key_by_hash h k && bool_decide (ak_user_id k = uuid u)) (user_api_keys t)) (users t).
Definition get_user_by_api_key_hash (h : string) : ST State DBError (option User) :=
  _ ← connection;
  st_map_err QueryError (select (holder h)).
Definition get_all_user_api_keys_for_user (user : Uuid) : ST State DBError (list UserApiKey) :=
  _ ← connection;
  st_map_err UserApiKeyError (get_all_for_user user).
Definition delete_user_api_key (id : Z) (user : Uuid) : ST State DBError unit :=
  _ ← connection;
  row ← st_map_err UserApiKeyError (get_by_id id);
  match row with
  | Some k => if decide (ak_user_id k = user) then st_map_err UserApiKeyError (delete_by_id id)
              else st_err (UserApiKeyError KeyNotFound)
  | None => st_err (UserApiKeyError KeyNotFound)
  end.
Definition delete_user_api_key_by_name (n : string) (user : Uuid) : ST State DBError unit :=
  _ ← connection;
  st_map_err UserApiKeyError (delete_by_name_and_user n user).

(** ** The routes *)
Record CreateApiKeyResponse := MkCreated { cr_key : string; cr_name : string; cr_created_at : Z }.
Record ApiKeyInfo := MkInfo { in_name : string; in_created_at : Z }.
Record ListApiKeysResponse := MkList { keys : list ApiKeyInfo }.
(** How a request was authenticated: with a token's context, or with a key. *)
Inductive AuthMethod := Jwt (auth_context : Claims.AuthContext) | ApiKey.

Section routes.
Context {cr : Crypto} {ut : UuidText}.

(** [format!("{:x}", Sha256::digest(uuid.to_string()))]. *)
Definition hash_key (key : Uuid) : string := hex (sha256 (as_bytes (uuid_to_string key))).

Definition create_error (e : DBError) : Api.ApiError :=
  match e with UserApiKeyError DuplicateName => Api.Conflict | _ => Api.InternalServerError end.
Definition create_api_key (now : Z) (random_bytes : bytes) (u : User) (name : string)
    : ST State Api.ApiError CreateApiKeyResponse :=
  if negb (validate_create name) then st_err Api.BadRequest
  else
    record ← st_map_err create_error (create_user_api_key now (MkNewApiKey (uuid u) (hash_key random_bytes) name));
    st_ok (MkCreated (uuid_to_string random_bytes) (ak_name record) (ak_created_at record)).

Definition list_api_keys (u : User) : ST State Api.ApiError ListApiKeysResponse :=
  api_keys ← st_map_err (fun _ => Api.InternalServerError) (get_all_user_api_keys_for_user (uuid u));
  st_ok (MkList ((fun k => MkInfo (ak_name k) (ak_created_at k)) <$> api_keys)).

Definition delete_error (e : DBError) : Api.ApiError :=
  match e with UserApiKeyError KeyNotFound => Api.NotFound | _ => Api.InternalServerError end.
Definition delete_api_key (name : string) (u : User) : ST State Api.ApiError unit :=
  st_map_err delete_error (delete_user_api_key_by_name name (uuid u)).

(** ** [validate_openai_auth] *)
Context {ci : Citext} {ad : AccountDeps} {ub : UrlBase64} {au : Claims.AudienceText} {jw : Tokens.Jwt}.
Context (enclave_key : bytes) (signing_key : Encrypt.SecretKey).

(** The key in a header, if it holds one. *)
Definition api_key_in (header : option string) : option Uuid :=
  auth_header ← Tokens.bearer_token header;
  if negb (contains_char "." auth_header) then uuid_parse_str auth_header else None.

Definition jwt_auth (now : Z) (header : option string) : ST State Api.ApiError (User * AuthMethod) :=
  token ← st_lift (ok_or Api.InvalidJwt (Tokens.bearer_token header));
  claims ← st_lift (map_err (fun _ => Api.InvalidJwt) (Tokens.validate_token signing_key now token Claims.USER_ACCESS));
  auth_context ← st_lift (map_err (fun _ => Api.InvalidJwt) (Claims.from_claims claims));
  user_uuid ← st_lift (ok_or Api.InvalidJwt (uuid_parse_str (Claims.sub claims)));
  u ← st_map_err (fun _ => Api.InternalServerError) (get_user user_uuid);
  if decide (project_id u <> Claims.c_project_id auth_context) then st_err Api.InvalidJwt
  else
    _ ← st_map_err (fun _ => Api.InvalidJwt) (verify_seed_wrap_for_auth_context enclave_key u auth_context);
    st_ok (u, Jwt auth_context).

Definition validate_openai_auth (now : Z) (header : option string) : ST State Api.ApiError (User * AuthMethod) :=
  match api_key_in header with
  | Some api_key_uuid =>
      found ← st_map_err (fun _ => Api.InternalServerError) (get_user_by_api_key_hash (hash_key api_key_uuid));
      match found with
      | Some u => st_ok (u, ApiKey)
      | None => st_err Api.Unauthorized
      end
  | None => jwt_auth now header
  end.

(** ** Requests on keys *)
Inductive request :=
| Create (now : Z) (random_bytes : bytes) (u : User) (name : string)
| List (u : User)
| Delete (name : string) (u : User)
| Authenticate (now : Z) (header : option string).
Inductive answer :=
| Created (key : string) | Listed (names : list string) | Deleted | Authenticated (id : Uuid) (by_key : bool).

Definition serve (r : request) : ST State Api.ApiError answer :=
  match r with
  | Create now b u n => c ← create_api_key now b u n; st_ok (Created (cr_key c))
  | List u => l ← list_api_keys u; st_ok (Listed (in_name <$> keys l))
  | Delete n u => _ ← delete_api_key n u; st_ok Deleted
  | Authenticate now h =>
      '(u, m) ← validate_openai_auth now h;
      st_ok (Authenticated (uuid u) (match m with ApiKey => true | Jwt _ => false end))
  end.
Fixpoint run (rs : list request) (s : State) : State :=
  match rs with [] => s | r :: rs => run rs (serve r s).2 end.

(** What the requests mean on a map from owner and name to hash.  [failed]: the
    database failed, the drawn key collides, or the account is gone. *)
Inductive allowed (m : gmap (Uuid * string) string) : request -> outcome Api.ApiError answer ->
    gmap (Uuid * string) string -> Prop :=
| bad_name now b u n : validate_create n = false -> allowed m (Create now b u n) (Err Api.BadRequest) m
| name_taken now b u n : validate_create n = true -> is_Some (m !! (uuid u, n)) ->
    allowed m (Create now b u n) (Err Api.Conflict) m
| created now b u n : validate_create n = true -> m !! (uuid u, n) = None -> (forall o, m !! o <> Some (hash_key b)) ->
    allowed m (Create now b u n) (Ok (Created (uuid_to_string b))) (<[(uuid u, n) := hash_key b]> m)
| listed u names : NoDup names -> (forall n, n ∈ names <-> is_Some (m !! (uuid u, n))) ->
    allowed m (List u) (Ok (Listed names)) m
| absent n u : m !! (uuid u, n) = None -> allowed m (Delete n u) (Err Api.NotFound) m
| deleted n u : is_Some (m !! (uuid u, n)) -> allowed m (Delete n u) (Ok Deleted) (delete (uuid u, n) m)
| recognised now h k id n : api_key_in h = Some k -> m !! (id, n) = Some (hash_key k) ->
    allowed m (Authenticate now h) (Ok (Authenticated id true)) m
| unknown now h k : api_key_in h = Some k -> (forall o, m !! o <> Some (hash_key k)) ->
    allowed m (Authenticate now h) (Err Api.Unauthorized) m
| token now h r : api_key_in h = None -> (forall id, r <> Ok (Authenticated id true)) ->
    allowed m (Authenticate now h) r m
| failed r : allowed m r (Err Api.InternalServerError) m.

(** The map a table stands for, and the constraints of the tables. *)
Definition entry (k : UserApiKey) : (Uuid * string) * string := ((ak_user_id k, ak_name k), key_hash k).
Definition abs (t : Tables) : gmap (Uuid * string) string := list_to_map (entry <$> user_api_keys t).
Record wf (t : Tables) : Prop := {
  wf_users : unique uuid (users t);
  wf_hashes : unique key_hash (user_api_keys t);
  wf_names : unique (fun k => (ak_user_id k, ak_name k)) (user_api_keys t);
  wf_owners : forall k, k ∈ user_api_keys t -> exists u, u ∈ users t /\ uuid u = ak_user_id k;
}.

(** ** Lemmas: one call of a method *)
Lemma call_connection {E A} (g : DBError -> E) (m : ST State DBError A) s r s' :
  st_map_err g (_ ← connection; m) s = (r, s') ->
  (r = Err (g ConnectionError) /\ s' = advance s /\ faults s <> []) \/ st_map_err g m (advance s) = (r, s').
Proof.
  unfold st_map_err, mbind, ST_bind, connection, faulty. destruct (faults s) as [|[] fs]; cbn; [by right| |by right].
  intros [= <- <-]. by left.
Qed.
Lemma call_statement {E A} (g : DieselError -> E) (f : Z -> Tables -> outcome DieselError (A * Tables)) s r s' :
  st_map_err g (statement f) s = (r, s') ->
  (r = Err (g Interrupted) /\ tables s' = tables s /\ faults s <> []) \/
  r = map_err g (fst <$> f (serial s) (tables s)) /\
  tables s' = match f (serial s) (tables s) with Ok (_, t) => t | _ => tables s end.
Proof.
  unfold st_map_err, statement, faulty. destruct (faults s) as [|[] fs]; cbn;
    [|by intros [= <- <-]; left|]; destruct (f _ _) as [[a t]| |]; intros [= <- <-]; by right.
Qed.
Lemma st_map_err_twice {E E1 E2 A} (g : E1 -> E2) (h : E -> E1) (m : ST State E A) s :
  st_map_err g (st_map_err h m) s = st_map_err (g ∘ h) m s.
Proof. unfold st_map_err. destruct (m s) as [[| |] ?]; done. Qed.

(** A call that only selects. *)
Lemma call_select {E A} (g : DBError -> E) (h : DieselError -> DBError) (f : Tables -> A) s r s' :
  st_map_err g (_ ← connection; st_map_err h (select f)) s = (r, s') ->
  tables s' = tables s /\
  ((faults s <> [] /\ (r = Err (g ConnectionError) \/ r = Err (g (h Interrupted)))) \/ r = Ok (f (tables s))).
Proof.
  intros [(-> & -> & Hf)|Hr]%call_connection; [split; [done|]; left; split; [done|]; by left|].
  rewrite st_map_err_twice in Hr. apply call_statement in Hr as [(-> & Ht & Hf)|[-> Ht]]; [|split; [done|by right]].
  split; [done|]. left. split; [|by right]. intros Hq. by rewrite advance_quiet in Hf.
Qed.

(** ** Lemmas: the table and its map *)
Lemma lookup_abs t o h : wf t ->
  abs t !! o = Some h <-> exists k, k ∈ user_api_keys t /\ (ak_user_id k, ak_name k) = o /\ key_hash k = h.
Proof.
  intros Hw. unfold abs. rewrite <- elem_of_list_to_map.
  - rewrite list_elem_of_fmap. split.
    + intros (k & [= -> ->] & Hk). by exists k.
    + intros (k & Hk & <- & <-). by exists k.
  - rewrite <- list_fmap_compose. apply (wf_names _ Hw).
Qed.
Lemma lookup_abs_None t o : wf t ->
  abs t !! o = None <-> forall k, k ∈ user_api_keys t -> (ak_user_id k, ak_name k) <> o.
Proof.
  intros Hw. rewrite eq_None_not_Some. unfold is_Some. setoid_rewrite lookup_abs; [|done]. naive_solver.
Qed.
Lemma key_named_true n u k : key_named n u k = true <-> (ak_user_id k, ak_name k) = (u, n).
Proof. unfold key_named. rewrite andb_true_iff, !bool_decide_eq_true. naive_solver. Qed.

Lemma abs_insert t k : wf (set_user_api_keys (user_api_keys t ++ [k]) t) -> wf t ->
  abs (set_user_api_keys (user_api_keys t ++ [k]) t) = <[(ak_user_id k, ak_name k) := key_hash k]> (abs t).
Proof.
  intros Hw' Hw. apply map_eq. intros o. apply option_eq. intros h. rewrite lookup_abs by done. cbn.
  setoid_rewrite elem_of_app. setoid_rewrite list_elem_of_singleton.
  destruct (decide ((ak_user_id k, ak_name k) = o)) as [<-|Hn].
  - rewrite lookup_insert_eq. split.
    + intros (k' & [Hk'| ->] & He & <-); [|done]. pose proof (wf_names _ Hw') as Hd. cbn in Hd. f_equal.
      assert (k' = k) as ->; [|done]. eapply unique_same; [exact Hd| | |exact He]; apply elem_of_app; [by left|].
      right. by apply list_elem_of_singleton.
    + intros [= <-]. exists k. by split; [right|].
  - rewrite lookup_insert_ne, lookup_abs by done. split.
    + intros (k' & [Hk'| ->] & He & Hh); [|done]. by exists k'.
    + intros (k' & Hk' & He & Hh). exists k'. by split; [left|].
Qed.
Lemma abs_delete t n u : wf (set_user_api_keys (delete_rows (key_named n u) (user_api_keys t)) t) -> wf t ->
  abs (set_user_api_keys (delete_rows (key_named n u) (user_api_keys t)) t) = delete (u, n) (abs t).
Proof.
  intros Hw' Hw. apply map_eq. intros o. apply option_eq. intros h. rewrite lookup_abs by done. cbn.
  setoid_rewrite elem_of_deleted. setoid_rewrite <- not_true_iff_false. setoid_rewrite key_named_true.
  rewrite lookup_delete_Some, lookup_abs by done. naive_solver.
Qed.

Lemma wf_add t k : wf t -> (forall k', k' ∈ user_api_keys t -> key_hash k' <> key_hash k) ->
  (forall k', k' ∈ user_api_keys t -> (ak_user_id k', ak_name k') <> (ak_user_id k, ak_name k)) ->
  (exists u, u ∈ users t /\ uuid u = ak_user_id k) -> wf (set_user_api_keys (user_api_keys t ++ [k]) t).
Proof.
  intros [] Hh Hn Ho. split; cbn; [done|by apply unique_snoc|by apply unique_snoc|].
  intros x [Hx| ->%list_elem_of_singleton]%elem_of_app; auto.
Qed.
Lemma wf_remove t p : wf t -> wf (set_user_api_keys (delete_rows p (user_api_keys t)) t).
Proof.
  intros []. split; cbn; [done|by apply unique_delete|by apply unique_delete|].
  intros x [_ Hx]%elem_of_deleted. auto.
Qed.
Lemma wf_same t t' : wf t -> t' = t -> wf t'.
Proof. by intros ? ->. Qed.

Lemma existsb_none {A} (p : A -> bool) l : existsb p l = false <-> forall x, x ∈ l -> p x = false.
Proof. rewrite <- not_true_iff_false, existsb_elem. setoid_rewrite <- not_true_iff_false. naive_solver. Qed.

Lemma hash_free h l : existsb (key_by_hash h) l = false <-> forall k, k ∈ l -> key_hash k <> h.
Proof. rewrite existsb_none. unfold key_by_hash. by setoid_rewrite bool_decide_eq_false. Qed.
Lemma name_free n u l : existsb (key_named n u) l = false <-> forall k, k ∈ l -> (ak_user_id k, ak_name k) <> (u, n).
Proof. rewrite existsb_none. setoid_rewrite <- not_true_iff_false. by setoid_rewrite key_named_true. Qed.

(** ** Lemmas: the requests *)
Definition key_row (id now : Z) (u : User) (b : bytes) (n : string) : UserApiKey :=
  MkApiKey id (uuid u) (hash_key b) n now now.

(** A key is refused for its hash or its name, or added. *)
Lemma create_cases now b u n s r s' :
  st_map_err create_error (create_user_api_key now (MkNewApiKey (uuid u) (hash_key b) n)) s = (r, s') ->
  (r = Err Api.InternalServerError /\ tables s' = tables s /\
    (faults s <> [] \/ existsb (key_by_hash (hash_key b)) (user_api_keys (tables s)) = true \/
     existsb (is_user (uuid u)) (users (tables s)) = false)) \/
  existsb (key_by_hash (hash_key b)) (user_api_keys (tables s)) = false /\
  (r = Err Api.Conflict /\ tables s' = tables s /\ existsb (key_named n (uuid u)) (user_api_keys (tables s)) = true \/
   existsb (key_named n (uuid u)) (user_api_keys (tables s)) = false /\
   existsb (is_user (uuid u)) (users (tables s)) = true /\
   let k := key_row (serial s + 1) now u b n in
   r = Ok k /\ tables s' = set_user_api_keys (user_api_keys (tables s) ++ [k]) (tables s)).
Proof.
  intros [(-> & -> & Hf)|Hr]%call_connection; [by left; split_and!; [| |left]|].
  unfold insert in Hr. rewrite !st_map_err_twice in Hr.
  apply call_statement in Hr as [(-> & Ht & Hf)|[-> Ht]].
  { left. split_and!; [done|done|]. left. intros Hq. by rewrite advance_quiet in Hf. }
  change (tables (advance s)) with (tables s) in *. cbn [nak_key_hash nak_name nak_user_id] in *.
  destruct (existsb (key_by_hash _) _); [left; split_and!; [done|done|by right; left]|].
  destruct (existsb (key_named _ _) _); [right; split; [done|]; by left|].
  unfold references in *. destruct (existsb (is_user _) _); [|left; split_and!; [done|done|by right; right]].
  right. split; [done|]. by right.
Qed.

Lemma delete_cases n u s r s' :
  delete_api_key n u s = (r, s') ->
  (r = Err Api.InternalServerError /\ tables s' = tables s /\ faults s <> []) \/
  (r = Err Api.NotFound /\ tables s' = set_user_api_keys (delete_rows (key_named n (uuid u)) (user_api_keys (tables s))) (tables s)
    /\ matching_rows (key_named n (uuid u)) (user_api_keys (tables s)) = []) \/
  (r = Ok tt /\ tables s' = set_user_api_keys (delete_rows (key_named n (uuid u)) (user_api_keys (tables s))) (tables s)
    /\ matching_rows (key_named n (uuid u)) (user_api_keys (tables s)) <> []).
Proof.
  intros [(-> & -> & Hf)|Hr]%call_connection; [by left|]. rewrite st_map_err_twice in Hr.
  apply st_map_err_inv in Hr as (r1 & Hr & ->). unfold delete_by_name_and_user in Hr.
  unfold mbind, ST_bind in Hr. destruct (st_map_err KeyDatabaseError _ (advance s)) as [r2 s2] eqn:H2.
  apply call_statement in H2 as [(-> & Ht & Hf)|[-> Ht]].
  { injection Hr as <- <-. left. split_and!; [done|done|]. intros Hq. by rewrite advance_quiet in Hf. }
  change (tables (advance s)) with (tables s) in *. cbn in Hr. case_decide as Hn; injection Hr as <- <-; right.
  - left. by apply nil_length_inv in Hn.
  - right. split_and!; try done. intros E. apply Hn. by rewrite E.
Qed.

(** ** The requests follow the map *)
Lemma hash_taken t h : wf t ->
  existsb (key_by_hash h) (user_api_keys t) = true <-> exists o, abs t !! o = Some h.
Proof.
  intros Hw. rewrite existsb_elem. setoid_rewrite lookup_abs; [|done]. unfold key_by_hash. setoid_rewrite bool_decide_eq_true.
  split; [intros (k & ? & ?)|intros (o & k & ? & ? & ?)]; eauto.
Qed.
Lemma name_taken_abs t n u : wf t ->
  existsb (key_named n u) (user_api_keys t) = true <-> is_Some (abs t !! (u, n)).
Proof.
  intros Hw. rewrite existsb_elem. unfold is_Some. setoid_rewrite lookup_abs; [|done]. setoid_rewrite key_named_true.
  naive_solver.
Qed.
Lemma matching_taken {A} (p : A -> bool) l : matching_rows p l <> [] <-> existsb p l = true.
Proof.
  rewrite existsb_elem. split.
  - destruct (matching_rows p l) as [|x l'] eqn:Hm; [done|]. intros _. exists x. apply and_comm, elem_of_matching. rewrite Hm. left.
  - intros (x & Hx & Hp) Hm. assert (x ∈ matching_rows p l) as H by by apply elem_of_matching. rewrite Hm in H.
    by apply not_elem_of_nil in H.
Qed.

Lemma jwt_reads now h : reads (jwt_auth now h).
Proof.
  unfold jwt_auth. do 4 (apply reads_bind; [apply reads_lift|intros ?]). apply reads_bind; [|intros u].
  - apply reads_map_err, (reads_map_err (fun _ => UserNotFound)), reads_get_by_uuid.
  - case_decide; [apply reads_err|]. apply reads_bind; [|intros []; apply reads_ok]. apply reads_map_err.
    unfold verify_seed_wrap_for_auth_context. apply reads_bind; [apply reads_decrypt|intros ?; apply reads_ok].
Qed.

Definition maps {S E A B} (g : A -> B) (m : ST S E A) (m' : ST S E B) : Prop :=
  forall s, m' s = let '(r, s') := m s in (g <$> r, s').
Lemma maps_bind {S E A B C} (g : A -> B) (m : ST S E C) (f : C -> ST S E A) (f' : C -> ST S E B) :
  (forall c, maps g (f c) (f' c)) -> maps g (x ← m; f x) (x ← m; f' x).
Proof. intros Hf s. unfold mbind, ST_bind. destruct (m s) as [[c|e|] s1]; [apply Hf|done..]. Qed.

(** The token branch is the middleware of the other routes. *)
Lemma jwt_auth_validates now h s r s' :
  jwt_auth now h s = (r, s') ->
  exists r0, Tokens.validate_jwt enclave_key signing_key now h s = (r0, s') /\ r = (fun p => (p.2, Jwt p.1)) <$> r0.
Proof.
  intros Hr. assert (maps (fun p : Claims.AuthContext * User => (p.2, Jwt p.1))
    (Tokens.validate_jwt enclave_key signing_key now h) (jwt_auth now h)) as Hm.
  { do 5 (apply maps_bind; intros ?). case_decide; [done|]. apply maps_bind. done. }
  rewrite Hm in Hr. destruct (Tokens.validate_jwt _ _ _ _ _) as [r0 s0]. injection Hr as <- <-. by exists r0.
Qed.

(** The key branch of the middleware. *)
Lemma key_cases now h k s r s' : wf (tables s) -> api_key_in h = Some k ->
  validate_openai_auth now h s = (r, s') ->
  tables s' = tables s /\
  ((r = Err Api.InternalServerError /\ faults s <> []) \/
   (r = Err Api.Unauthorized /\ forall o, abs (tables s) !! o <> Some (hash_key k)) \/
   exists u n, r = Ok (u, ApiKey) /\ u ∈ users (tables s) /\ abs (tables s) !! (uuid u, n) = Some (hash_key k)).
Proof.
  intros Hw Hk. unfold validate_openai_auth. rewrite Hk. unfold get_user_by_api_key_hash.
  intros (r0 & s1 & [Ht [[Hf Hr]| ->]]%call_select & H2)%bind_cases.
  { destruct Hr as [-> | ->]; destruct H2 as [-> ->]; (split; [done|]); by left. }
  destruct (holder _ _) as [u|] eqn:Hh; injection H2 as <- <-; (split; [done|]); right; [right|left; split; [done|]].
  - apply first_Some in Hh as [(x & Hx & [Hb%bool_decide_eq_true Hid%bool_decide_eq_true]%andb_true_iff)%existsb_elem Hu].
    exists u, (ak_name x). split_and!; [done|done|]. apply lookup_abs; [done|]. exists x. by rewrite Hid.
  - intros [id n] (x & Hx & [= <- <-] & Hb)%lookup_abs; [|done].
    destruct (wf_owners _ Hw x Hx) as (u & Hu & Hid).
    apply fmap_None, list_find_None in Hh. rewrite Forall_forall in Hh. destruct (Hh u); [done|].
    apply existsb_elem. exists x. split; [done|]. unfold key_by_hash.
    by rewrite !bool_decide_eq_true_2 by done.
Qed.

Lemma list_cases u s r s' :
  st_map_err (fun _ => Api.InternalServerError) (get_all_user_api_keys_for_user (uuid u)) s = (r, s') ->
  tables s' = tables s /\
  (r = Err Api.InternalServerError \/ r = Ok (matching_rows (key_of_user (uuid u)) (user_api_keys (tables s)))).
Proof.
  intros [(-> & -> & _)|Hr]%call_connection; [split; [done|by left]|]. unfold get_all_for_user in Hr.
  rewrite !st_map_err_twice in Hr. apply call_statement in Hr as [(-> & Ht & _)|[-> Ht]]; (split; [done|]); [by left|by right].
Qed.
Lemma listed_names t u : wf t ->
  allowed (abs t) (List u)
    (Ok (Listed (in_name <$> keys (MkList ((fun k => MkInfo (ak_name k) (ak_created_at k)) <$>
      matching_rows (key_of_user (uuid u)) (user_api_keys t)))))) (abs t).
Proof.
  intros Hw. cbn. rewrite <- list_fmap_compose. apply listed.
  - apply (NoDup_fmap_1 (pair (uuid u))). rewrite <- list_fmap_compose.
    erewrite (list_fmap_ext _ (fun k => (ak_user_id k, ak_name k))).
    + eapply sublist_NoDup; [apply (wf_names _ Hw)|]. by apply fmap_sublist, sublist_filter.
    + intros i k Hk%list_elem_of_lookup_2. apply elem_of_matching in Hk as [Hk%bool_decide_eq_true _]. cbn. by rewrite Hk.
  - intros n. rewrite list_elem_of_fmap. unfold is_Some. setoid_rewrite lookup_abs; [|done].
    setoid_rewrite elem_of_matching. unfold key_of_user. setoid_rewrite bool_decide_eq_true. cbn. split.
    + intros (k & -> & Hu & Hk). exists (key_hash k), k. by rewrite Hu.
    + intros (h & k & Hk & [= Hu <-] & _). by exists k.
Qed.

Lemma serve_allowed q s r s' :
  wf (tables s) -> serve q s = (r, s') ->
  allowed (abs (tables s)) q r (abs (tables s')) /\ wf (tables s').
Proof.
  intros Hw. destruct q as [now b u n|u|n u|now h]; cbn [serve]; intros Hr.
  - apply bind_ok in Hr as (r0 & Hr & ->). unfold create_api_key in Hr. destruct (validate_create n) eqn:Hv; cbn [negb] in Hr.
    2: { injection Hr as <- <-. split; [by apply bad_name|done]. }
    apply bind_ok in Hr as (r1 & Hr & ->).
    apply create_cases in Hr as [(-> & Ht & _)|(Hh & [(-> & Ht & Hn)|(Hn & Hu & -> & Ht)])]; rewrite Ht; try (split; [|done]).
    + apply failed.
    + apply name_taken; [done|]. by apply name_taken_abs.
    + rewrite hash_free in Hh. rewrite name_free in Hn. apply existsb_elem in Hu as (v & Hv' & Hid%bool_decide_eq_true).
      assert (wf (set_user_api_keys (user_api_keys (tables s) ++ [key_row (serial s + 1) now u b n]) (tables s))) as Hw'.
      { apply wf_add; [done|done|done|by exists v]. }
      split; [|done]. rewrite abs_insert by done. apply created; [done|by apply lookup_abs_None|].
      intros o (k & Hk & _ & Hc)%lookup_abs; [|done]. by apply (Hh k).
  - apply bind_ok in Hr as (r0 & Hr & ->). unfold list_api_keys in Hr. apply bind_ok in Hr as (r1 & Hr & ->).
    apply list_cases in Hr as [Ht [-> | ->]]; rewrite Ht; (split; [|done]); [apply failed|]. by apply listed_names.
  - apply bind_ok in Hr as (r0 & Hr & ->). apply delete_cases in Hr as [(-> & Ht & _)|[(-> & Ht & Hm)|(-> & Ht & Hm)]]; rewrite Ht.
    + split; [apply failed|done].
    + split; [|by apply wf_remove]. rewrite abs_delete by (done || by apply wf_remove).
      assert (abs (tables s) !! (uuid u, n) = None) as Hn.
      { apply eq_None_not_Some. intros He%name_taken_abs%matching_taken; done. }
      rewrite delete_id by done. by apply absent.
    + split; [|by apply wf_remove]. rewrite abs_delete by (done || by apply wf_remove). apply deleted.
      by apply name_taken_abs, matching_taken.
  - apply bind_cases in Hr as (r0 & s1 & Hr & Hd). destruct (api_key_in h) as [k|] eqn:Hk.
    + destruct (key_cases _ _ _ _ _ _ Hw Hk Hr) as [Ht [[-> _]|[[-> Hu]|(u & n & -> & Hu & Hn)]]];
        [destruct Hd as [-> ->]..|injection Hd as <- <-]; rewrite Ht; (split; [|done]); [apply failed|by eapply unknown|by eapply recognised].
    + unfold validate_openai_auth in Hr. rewrite Hk in Hr. pose proof (jwt_reads _ _ _ _ _ Hr) as Ht.
      assert (tables s' = tables s /\ forall id, r <> Ok (Authenticated id true)) as [Ht' Hn]; [|rewrite Ht'; split; [by apply token|done]].
      destruct r0 as [[u m]| |]; [|by destruct Hd as [-> ->]..]. injection Hd as <- <-. split; [done|]. intros id [= _ Hm].
      apply jwt_auth_validates in Hr as ([[ctx v]| |] & _ & [= -> ->]). done.
Qed.

(** Keys are a map from owner and name to hash.  Whatever the database does,
    each request on keys - create, list, delete, or authenticate with a bearer
    key - answers and changes the table as [allowed] says: an invalid or taken
    name is refused and changes nothing, a created key is added under its name,
    a deletion removes that one key of that user, a bearer key authenticates
    exactly the owner of its hash, and an unknown one is never tried as a token.
    The constraints of the table hold throughout. *)
Theorem keys_refine_map q s r s' :
  wf (tables s) -> serve q s = (r, s') ->
  allowed (abs (tables s)) q r (abs (tables s')) /\ wf (tables s').
Proof. apply serve_allowed. Qed.

(** ** Traces *)
Lemma run_wf rs s : wf (tables s) -> wf (tables (run rs s)).
Proof.
  revert s. induction rs as [|q rs IH]; intros s Hw; [done|]. cbn. apply IH.
  destruct (serve q s) as [r s1] eqn:Hq. by apply (serve_allowed q s r s1).
Qed.
(** An entry stays until its owner deletes it. *)
Lemma entry_stays rs s o c : wf (tables s) -> abs (tables s) !! o = Some c ->
  (forall n u, Delete n u ∈ rs -> (uuid u, n) <> o) -> abs (tables (run rs s)) !! o = Some c.
Proof.
  revert s. induction rs as [|q rs IH]; intros s Hw Hc Hd; [done|]. cbn.
  destruct (serve q s) as [r s1] eqn:Hq. apply serve_allowed in Hq as [Ha Hw1]; [|done]. cbn.
  apply IH; [done| |intros n u Hin; apply Hd; by right]. inversion Ha; subst; try done.
  - rewrite lookup_insert_ne; [done|]. intros <-. congruence.
  - rewrite lookup_delete_ne; [done|]. apply Hd. left.
Qed.
(** A hash nobody holds stays unknown until it is drawn again. *)
Lemma absent_stays rs s c : wf (tables s) -> (forall o, abs (tables s) !! o <> Some c) ->
  (forall now b u n, Create now b u n ∈ rs -> hash_key b <> c) -> forall o, abs (tables (run rs s)) !! o <> Some c.
Proof.
  revert s. induction rs as [|q rs IH]; intros s Hw Hc Hd; [done|]. cbn.
  destruct (serve q s) as [r s1] eqn:Hq. apply serve_allowed in Hq as [Ha Hw1]; [|done]. cbn.
  apply IH; [done| |intros ???? Hin; eapply Hd; by right]. intros o. inversion Ha; subst; try done.
  - intros [[<- Hh]|[_ Hh]]%lookup_insert_Some; [|by eapply Hc]. eapply Hd; [left|done].
  - intros [_ Hh]%lookup_delete_Some. by eapply Hc.
Qed.

(** A key works until it is deleted and never after.  Once a key was issued,
    whatever requests on keys follow, a bearer of it is its owner as long as that
    name was not deleted; once it is, the key is refused for good, unless the
    same hash is drawn again. *)
Theorem key_lifecycle now b u n s a s1 rs h now' :
  wf (tables s) -> serve (Create now b u n) s = (Ok a, s1) ->
  (forall n' u', Delete n' u' ∈ rs -> (uuid u', n') <> (uuid u, n)) -> api_key_in h = Some b ->
  let s2 := run rs s1 in
  (faults s2 = [] -> exists v s3,
    validate_openai_auth now' h s2 = (Ok (v, ApiKey), s3) /\ v ∈ users (tables s2) /\ uuid v = uuid u) /\
  (forall s3 rs' r s4, serve (Delete n u) s2 = (Ok Deleted, s3) ->
    (forall now b' u' n', Create now b' u' n' ∈ rs' -> hash_key b' <> hash_key b) ->
    validate_openai_auth now' h (run rs' s3) = (r, s4) ->
    r = Err Api.Unauthorized \/ r = Err Api.InternalServerError).
Proof.
  intros Hw [Ha Hw1]%serve_allowed Hd Hh s2; [|done].
  assert (abs (tables s1) !! (uuid u, n) = Some (hash_key b)) as Hs1.
  { inversion Ha; subst. by rewrite lookup_insert_eq. }
  assert (wf (tables s2)) as Hw2 by by apply run_wf.
  assert (abs (tables s2) !! (uuid u, n) = Some (hash_key b)) as Hs2 by by apply entry_stays. clearbody s2. split.
  - intros Hf. destruct (validate_openai_auth now' h s2) as [r s3] eqn:Hr.
    destruct (key_cases _ _ _ _ _ _ Hw2 Hh Hr) as [_ [[_ ?]|[[_ Hn]|(v & n' & -> & Hv & Hn)]]]; [done|by destruct (Hn (uuid u, n))|].
    exists v, s3. split_and!; [done|done|]. apply lookup_abs in Hs2 as (k & Hk & [= <- <-] & Hkh); [|done].
    apply lookup_abs in Hn as (k' & Hk' & [= <- <-] & Hkh'); [|done]. f_equal.
    eapply (unique_same key_hash); [apply (wf_hashes _ Hw2)|done..|congruence].
  - intros s3 rs' r s4 [Hdel Hw3]%serve_allowed Hc Hr; [|done].
    assert (forall o, abs (tables (run rs' s3)) !! o <> Some (hash_key b)) as Hno.
    { apply absent_stays; [done| |done]. intros o Ho. inversion Hdel; subst. 
      match goal with E : delete _ _ = _ |- _ => rewrite <- E in Ho end.
      apply lookup_delete_Some in Ho as [Hne Ho].
      apply lookup_abs in Hs2 as (k & Hk & He & Hkh); [|done].
      apply lookup_abs in Ho as (k' & Hk' & He' & Hkh'); [|done]. apply Hne. rewrite <- He, <- He'.
      f_equal; f_equal; (eapply (unique_same key_hash); [apply (wf_hashes _ Hw2)|done..|congruence]). }
    destruct (key_cases _ _ _ _ _ _ (run_wf rs' _ Hw3) Hh Hr) as [_ [[-> _]|[[-> _]|(v & n' & _ & _ & Hn)]]]; [by right|by left|].
    by destruct (Hno (uuid v, n')).
Qed.

(** What the middleware of the completion routes hands on is authenticated:
    a user found by key owns a stored key whose hash is that of the bearer's, and
    the bearer was a key; a user found by token is the one the middleware of the
    other routes would hand on for this header.  Nothing is written. *)
Theorem openai_auth_sound now h s u m s' :
  wf (tables s) -> validate_openai_auth now h s = (Ok (u, m), s') ->
  tables s' = tables s /\ u ∈ users (tables s) /\
  match m with
  | ApiKey => exists k row, api_key_in h = Some k /\ row ∈ user_api_keys (tables s) /\
      ak_user_id row = uuid u /\ key_hash row = hash_key k
  | Jwt ctx => api_key_in h = None /\ Tokens.validate_jwt enclave_key signing_key now h s = (Ok (ctx, u), s')
  end.
Proof.
  intros Hw Hr. destruct (api_key_in h) as [k|] eqn:Hk.
  - destruct (key_cases _ _ _ _ _ _ Hw Hk Hr) as [Ht [[? _]|[[? _]|(v & n & [= -> ->] & Hv & Hn)]]]; [done..|].
    apply lookup_abs in Hn as (row & Hrow & [= Hid _] & Hh); [|done]. split_and!; [done|done|]. by exists k, row.
  - unfold validate_openai_auth in Hr. rewrite Hk in Hr.
    apply jwt_auth_validates in Hr as ([[ctx v]| |] & Hv & [= -> ->]).
    pose proof (Tokens.validate_jwt_Ok _ _ _ _ _ _ _ _ Hv) as (Ht & _ & _ & _ & _ & _ & _ & Hu & _). by split_and!.
Qed.
End routes.

(** ** Witnesses *)
Section witnesses.
#[local] Existing Instances ToyCrypto.toy ToyCrypto.toy_laws.
#[local] Existing Instances ToyAccounts.toy_citext ToyAccounts.toy_uuid ToyAccounts.toy_uuid_laws
  ToyAccounts.toy_accounts ToyAccounts.toy_account_laws.
#[local] Existing Instances Tokens.ToyJwt.toy_jwt Tokens.ToyJwt.toy_url Tokens.ToyJwt.toy_audience.

Definition ann : User := MkUser 1 (replicate 16 Byte.x0a) None (Some "a@b.c") None 0 0 5.
Definition at_first : State := demo_state (set_users [ann] empty).
Definition drawn : bytes := replicate 16 Byte.x0c.
Definition ask (q : request) (s : State) : outcome Api.ApiError answer * State :=
  serve key Tokens.demo_signing_key q s.
Definition create_laptop : request := Create 0 drawn ann "laptop".
Definition issued : State := (ask create_laptop at_first).2.
Definition demo_header : option string := Some ("Bearer " +:+ uuid_to_string drawn).

Lemma wf_at_first : wf (tables at_first).
Proof.
  split; cbn; [apply NoDup_singleton|apply NoDup_nil_2..|].
  intros k Hk. by apply elem_of_nil in Hk.
Qed.

Lemma keys_refine_map_witness :
  allowed (abs (tables at_first)) create_laptop (Ok (Created (uuid_to_string drawn))) (abs (tables issued)) /\
  wf (tables issued).
Proof.
  apply (keys_refine_map key Tokens.demo_signing_key create_laptop at_first).
  - exact wf_at_first.
  - vm_compute. reflexivity.
Defined.

Lemma key_lifecycle_witness :
  exists v s3, validate_openai_auth key Tokens.demo_signing_key 1 demo_header
      (run key Tokens.demo_signing_key [List ann; create_laptop] issued) = (Ok (v, ApiKey), s3) /\
    uuid v = uuid ann.
Proof.
  destruct (key_lifecycle key Tokens.demo_signing_key 0 drawn ann "laptop" at_first
    (Created (uuid_to_string drawn)) issued [List ann; create_laptop] demo_header 1) as [Hl _].
  - exact wf_at_first.
  - vm_compute. reflexivity.
  - intros n' u' Hin. apply elem_of_cons in Hin as [Hin|Hin]; [discriminate|].
    apply list_elem_of_singleton in Hin. discriminate.
  - vm_compute. reflexivity.
  - destruct Hl as (v & s3 & Hr & _ & Hv); [vm_compute; reflexivity|]. exists v, s3. split; [exact Hr|exact Hv].
Defined.

Lemma openai_auth_sound_witness :
  tables (validate_openai_auth key Tokens.demo_signing_key 1 demo_header issued).2 = tables issued.
Proof.
  apply (openai_auth_sound key Tokens.demo_signing_key 1 demo_header issued ann ApiKey).
  - apply (serve_allowed key Tokens.demo_signing_key create_laptop at_first (Ok (Created (uuid_to_string drawn)))).
    + exact wf_at_first.
    + vm_compute. reflexivity.
  - vm_compute. reflexivity.
Defined.
End witnesses.
End ApiKeys.
