(* ===== verification/OAuth.v ===== *)
(** * OAuth providers and their pending states

    [src/src/oauth.rs]: each provider keeps the states it handed out for a
    bounded time and number.  A state is stored under its CSRF token and is
    consumed by the callback that brings exactly it back.  The theorem relates the
    store to a ledger that never purges: what a callback may rely on. *)

From S2P Require Import Prelude Text Crypto Encrypt Database Accounts.

Module OAuth.
Abbreviation Uuid := Encrypt.Uuid.

Definition OAUTH_STATE_TTL : Z := secs (10 * 60).
Definition OAUTH_STATE_CAPACITY : nat := 4096.

Record OAuthState := MkState { csrf_token : string; client_id : Uuid }.
#[export] Instance OAuthState_dec : EqDecision OAuthState.
Proof. solve_decision. Defined.
Record StoredOAuthState := MkStored { state : OAuthState; expires_at : Z }.
Record OAuthStateStore := MkStore { entries : gmap string StoredOAuthState; ttl : Z; capacity : nat }.
Inductive StoreError := OAuthStateCapacityError.

Definition with_limits (ttl : Z) (capacity : nat) : outcome Empty_set OAuthStateStore :=
  if decide (0 < capacity) then Ok (MkStore ∅ ttl capacity) else Panic.
Definition new : outcome Empty_set OAuthStateStore := with_limits OAUTH_STATE_TTL OAUTH_STATE_CAPACITY.

(** [retain(|_, s| s.expires_at > now)]. *)
Definition live (now : Z) (x : string * StoredOAuthState) : Prop := (now < expires_at x.2)%Z.
#[export] Instance live_dec now x : Decision (live now x).
Proof. unfold live. apply _. Defined.
Definition retain_live (now : Z) (m : gmap string StoredOAuthState) : gmap string StoredOAuthState := filter (live now) m.
Definition with_entries (m : gmap string StoredOAuthState) (s : OAuthStateStore) : OAuthStateStore :=
  MkStore m (ttl s) (capacity s).

Definition store_at (csrf : string) (st : OAuthState) (now : Z) : ST OAuthStateStore StoreError unit := fun s =>
  let m := retain_live now (entries s) in
  if bool_decide (m !! csrf = None) && bool_decide (capacity s <= size m)
  then (Err OAuthStateCapacityError, with_entries m s)
  else match instant_checked_add now (ttl s) with
       | Some t => (Ok tt, with_entries (<[csrf := MkStored st t]> m) s)
       | None => (Panic, with_entries m s)
       end.
Definition consume_at (st : OAuthState) (now : Z) : ST OAuthStateStore Empty_set bool := fun s =>
  let m := retain_live now (entries s) in
  match m !! csrf_token st with
  | Some x => if decide (state x = st) then (Ok true, with_entries (delete (csrf_token st) m) s)
              else (Ok false, with_entries m s)
  | None => (Ok false, with_entries m s)
  end.

(** ** Providers *)
Record GithubProvider := MkGithub { gh_auth_url : string; gh_token_url : string; gh_user_info_url : string; gh_states : OAuthStateStore }.
Record GoogleProvider := MkGoogle { go_auth_url : string; go_token_url : string; go_user_info_url : string; go_states : OAuthStateStore }.
Record AppleProvider := MkApple { ap_auth_url : string; ap_token_url : string; ap_jwks_url : string; ap_states : OAuthStateStore }.
(** [Box<dyn OAuthProvider>]. *)
Inductive OAuthProvider := Github (p : GithubProvider) | Google (p : GoogleProvider) | Apple (p : AppleProvider).
Definition as_github (p : OAuthProvider) : option GithubProvider := match p with Github p => Some p | _ => None end.
Definition as_google (p : OAuthProvider) : option GoogleProvider := match p with Google p => Some p | _ => None end.
Definition as_apple (p : OAuthProvider) : option AppleProvider := match p with Apple p => Some p | _ => None end.
Definition states (p : OAuthProvider) : OAuthStateStore :=
  match p with Github p => gh_states p | Google p => go_states p | Apple p => ap_states p end.
Definition set_states (s : OAuthStateStore) (p : OAuthProvider) : OAuthProvider :=
  match p with
  | Github p => Github (MkGithub (gh_auth_url p) (gh_token_url p) (gh_user_info_url p) s)
  | Google p => Google (MkGoogle (go_auth_url p) (go_token_url p) (go_user_info_url p) s)
  | Apple p => Apple (MkApple (ap_auth_url p) (ap_token_url p) (ap_jwks_url p) s)
  end.
Definition auth_url (p : OAuthProvider) : string :=
  match p with Github p => gh_auth_url p | Google p => go_auth_url p | Apple p => ap_auth_url p end.
Definition token_url (p : OAuthProvider) : string :=
  match p with Github p => gh_token_url p | Google p => go_token_url p | Apple p => ap_token_url p end.

Definition ensure_provider_exists (now : Z) (n : Db.NewOAuthProvider) : ST Db.State Accounts.Error unit :=
  existing ← Accounts.db (Db.get_oauth_provider_by_name (Db.nop_name n));
  match existing with
  | None => _ ← Accounts.db (Db.create_oauth_provider now n); st_ok tt
  | Some _ => st_ok tt
  end.
Definition github_new (now : Z) : ST Db.State Accounts.Error GithubProvider :=
  s ← st_lift (lift new);
  let p := MkGithub "https://github.com/login/oauth/authorize" "https://github.com/login/oauth/access_token"
             "https://api.github.com/user" s in
  _ ← ensure_provider_exists now (Db.MkNewProvider "github" (gh_auth_url p) (gh_token_url p) (gh_user_info_url p));
  st_ok p.
Definition google_new (now : Z) : ST Db.State Accounts.Error GoogleProvider :=
  s ← st_lift (lift new);
  let p := MkGoogle "https://accounts.google.com/o/oauth2/v2/auth" "https://oauth2.googleapis.com/token"
             "https://www.googleapis.com/oauth2/v3/userinfo" s in
  _ ← ensure_provider_exists now (Db.MkNewProvider "google" (go_auth_url p) (go_token_url p) (go_user_info_url p));
  st_ok p.
Definition apple_new (now : Z) : ST Db.State Accounts.Error AppleProvider :=
  s ← st_lift (lift new);
  let p := MkApple "https://appleid.apple.com/auth/authorize" "https://appleid.apple.com/auth/token"
             "https://appleid.apple.com/auth/keys" s in
  _ ← ensure_provider_exists now (Db.MkNewProvider "apple" (ap_auth_url p) (ap_token_url p) (ap_jwks_url p));
  st_ok p.

(** ** The client of the [oauth2] crate *)
Record BasicClient := MkClient {
  bc_client_id : string; bc_client_secret : string; bc_auth_url : string; bc_token_url : string; bc_redirect_url : string }.
Class OAuth2 := {
  url_parses : string -> bool;                                          (* AuthUrl, TokenUrl, RedirectUrl::new *)
  authorize_url : BasicClient -> string -> list string -> list (string * string) -> string }. (* token, scopes, extra *)

Section client.
Context {oa : OAuth2}.
(** The three [build_client]s are alike; [None] is [Error::OAuthError]. *)
Definition build_client (p : OAuthProvider) (client client_secret redirect : string) : option BasicClient :=
  if url_parses (auth_url p) && url_parses (token_url p) && url_parses redirect
  then Some (MkClient client client_secret (auth_url p) (token_url p) redirect) else None.
Definition generate_authorize_url (p : OAuthProvider) (csrf : string) (c : BasicClient) : string :=
  match p with
  | Github _ => authorize_url c csrf ["user:email"] []
  | Google _ => authorize_url c csrf ["email"; "profile"] []
  | Apple _ => authorize_url c csrf ["name"; "email"] [("response_type", "code id_token"); ("response_mode", "form_post")]
  end.
End client.

(** ** [OAuthManager] *)
Definition OAuthManager : Type := gmap string OAuthProvider.
Definition get_provider (name : string) (m : OAuthManager) : option OAuthProvider := m !! name.
(** A call on the state store of a provider, which all requests share. *)
Definition on_states {E A} (name : string) (p : OAuthProvider) (call : ST OAuthStateStore E A) : ST OAuthManager E A := fun m =>
  let cur := default p (m !! name) in
  let '(r, s) := call (states cur) in (r, <[name := set_states s cur]> m).

(** ** The ledger *)
Inductive call := Store (csrf : string) (st : OAuthState) (now : Z) | Consume (st : OAuthState) (now : Z).
Inductive reply := Stored | Refused | Consumed (ok : bool) | Overflow.
Definition time (c : call) : Z := match c with Store _ _ t => t | Consume _ t => t end.
Definition serve (c : call) (s : OAuthStateStore) : reply * OAuthStateStore :=
  match c with
  | Store csrf st now => let '(r, s) := store_at csrf st now s in
      (match r with Ok _ => Stored | Err _ => Refused | Panic => Overflow end, s)
  | Consume st now => let '(r, s) := consume_at st now s in
      (match r with Ok b => Consumed b | _ => Overflow end, s)
  end.
Fixpoint run (cs : list call) (s : OAuthStateStore) : list reply * OAuthStateStore :=
  match cs with
  | [] => ([], s)
  | c :: cs => let '(r, s) := serve c s in let '(rs, s) := run cs s in (r :: rs, s)
  end.

(** What was stored last under each token and not consumed since, with its end. *)
Definition note (ttl : Z) (l : gmap string (OAuthState * Z)) (e : call * reply) : gmap string (OAuthState * Z) :=
  match e with
  | (Store csrf st now, Stored) => <[csrf := (st, (now + ttl)%Z)]> l
  | (Consume st _, Consumed true) => delete (csrf_token st) l
  | _ => l
  end.
Definition ledger (ttl : Z) (es : list (call * reply)) : gmap string (OAuthState * Z) := foldl (note ttl) ∅ es.
(** The reply the ledger gives. *)
Definition live_entry (now : Z) (x : string * (OAuthState * Z)) : Prop := (now < x.2.2)%Z.
#[export] Instance live_entry_dec now x : Decision (live_entry now x).
Proof. unfold live_entry. apply _. Defined.
Definition expected (capacity : nat) (l : gmap string (OAuthState * Z)) (c : call) : reply :=
  match c with
  | Store csrf _ now =>
      let m := filter (live_entry now) l in
      if bool_decide (m !! csrf = None) && bool_decide (capacity <= size m) then Refused else Stored
  | Consume st now =>
      match l !! csrf_token st with
      | Some (st', e) => Consumed (bool_decide (st' = st /\ (now < e)%Z))
      | None => Consumed false
      end
  end.

Definition entry_of (x : OAuthState * Z) : StoredOAuthState := MkStored x.1 x.2.
(** The store holds what is live in the ledger; nothing live at [last] is missing. *)
Definition agrees (last : Z) (s : OAuthStateStore) (l : gmap string (OAuthState * Z)) : Prop :=
  entry_of <$> filter (live_entry last) l ⊆ entries s /\ entries s ⊆ entry_of <$> l.

Lemma lookup_retain now m k x : retain_live now m !! k = Some x <-> m !! k = Some x /\ (now < expires_at x)%Z.
Proof. unfold retain_live. rewrite map_lookup_filter_Some. done. Qed.

Lemma retain_agrees last now s l : agrees last s l -> (last <= now)%Z ->
  retain_live now (entries s) = entry_of <$> filter (live_entry now) l.
Proof.
  intros [Hl Hs] Hn. apply map_eq. intros k. apply option_eq. intros x. rewrite lookup_retain, lookup_fmap, fmap_Some.
  setoid_rewrite map_lookup_filter_Some. unfold live_entry. split.
  - intros [Hx Hlive]. apply (lookup_weaken _ _ _ _ Hx) in Hs. rewrite lookup_fmap, fmap_Some in Hs.
    destruct Hs as ([st e] & Hk & ->). exists (st, e). done.
  - intros ([st e] & [Hk Hlive] & ->). cbn in *. split; [|done]. eapply lookup_weaken; [|exact Hl].
    rewrite lookup_fmap, fmap_Some. exists (st, e). split; [|done]. apply map_lookup_filter_Some. unfold live_entry. cbn. split; [done|lia].
Qed.
Lemma agrees_retained now s l : retain_live now (entries s) = entry_of <$> filter (live_entry now) l ->
  agrees now (with_entries (retain_live now (entries s)) s) l.
Proof. intros E. unfold agrees. cbn. rewrite E. split; [done|]. apply map_fmap_mono, map_filter_subseteq. Qed.

(** One call: the reply of the ledger, and agreement after it. *)
Lemma serve_agrees last s l c r s' :
  agrees last s l -> (last <= time c)%Z -> (time c + ttl s <= instant_max)%Z -> serve c s = (r, s') ->
  r = expected (capacity s) l c /\ agrees (time c) s' (note (ttl s) l (c, r)) /\ ttl s' = ttl s /\ capacity s' = capacity s.
Proof.
  intros Ha Ht Hmax Hs. pose proof (retain_agrees _ _ _ _ Ha Ht) as E. pose proof (agrees_retained _ _ _ E) as Ha'.
  destruct c as [csrf st now|st now]; cbn [serve time expected] in *.
  - unfold store_at in Hs. cbv zeta in Hs. rewrite E, lookup_fmap, map_size_fmap in Hs.
    assert (bool_decide (entry_of <$> filter (live_entry now) l !! csrf = None) =
            bool_decide (filter (live_entry now) l !! csrf = None)) as Hb.
    { apply bool_decide_ext. by rewrite fmap_None. }
    rewrite Hb in Hs. destruct (bool_decide _ && bool_decide _).
    + injection Hs as <- <-. rewrite <- E. done.
    + unfold instant_checked_add in Hs. rewrite decide_True in Hs by done. injection Hs as <- <-. split_and!; try done.
      unfold note, agrees. cbn. change (MkStored st (now + ttl s)) with (entry_of (st, (now + ttl s)%Z)). rewrite <- fmap_insert.
      split; [|by apply map_fmap_mono, insert_mono, map_filter_subseteq].
      apply map_fmap_mono. apply map_subseteq_spec. intros k x [Hx Hlv]%map_lookup_filter_Some.
      destruct (decide (k = csrf)) as [->|Hne]; [by rewrite lookup_insert_eq in Hx |- *|].
      rewrite lookup_insert_ne in Hx |- * by done. by apply map_lookup_filter_Some.
  - unfold consume_at in Hs. cbv zeta in Hs. rewrite E, lookup_fmap in Hs.
    destruct (l !! csrf_token st) as [[st' e]|] eqn:Hl.
    + destruct (decide (now < e)%Z) as [He|He].
      * assert (filter (live_entry now) l !! csrf_token st = Some (st', e)) as Hf by by apply map_lookup_filter_Some.
        rewrite Hf in Hs. cbn in Hs. case_decide as Hst; injection Hs as <- <-.
        -- rewrite bool_decide_eq_true_2 by done. split_and!; try done. cbn. rewrite <- fmap_delete. split.
           ++ apply map_fmap_mono. rewrite map_filter_delete. done.
           ++ apply map_fmap_mono, delete_mono, map_filter_subseteq.
        -- rewrite bool_decide_eq_false_2 by naive_solver. split_and!; try done. cbn. rewrite <- E. done.
      * assert (filter (live_entry now) l !! csrf_token st = None) as Hn.
        { apply map_lookup_filter_None. right. unfold live_entry. cbn. naive_solver. }
        rewrite Hn in Hs. injection Hs as <- <-. rewrite bool_decide_eq_false_2 by naive_solver. split_and!; try done.
        cbn. rewrite <- E. done.
    + assert (filter (live_entry now) l !! csrf_token st = None) as Hn by (apply map_lookup_filter_None; by left).
      rewrite Hn in Hs. injection Hs as <- <-. split_and!; try done. cbn. rewrite <- E. done.
Qed.

(** Whatever the clock does, an entry of the store is in the ledger. *)
Lemma serve_recorded s l c r s' :
  entries s ⊆ entry_of <$> l -> serve c s = (r, s') ->
  entries s' ⊆ entry_of <$> note (ttl s) l (c, r) /\ ttl s' = ttl s /\ capacity s' = capacity s /\
  (forall st now, c = Consume st now -> r = Consumed true -> exists e, l !! csrf_token st = Some (st, e) /\ (now < e)%Z) /\
  (size (entries s) <= capacity s -> 0 < capacity s -> size (entries s') <= capacity s).
Proof.
  intros Hl Hs. pose proof (fun now => transitivity (map_filter_subseteq (live now) (entries s)) Hl) as Hr.
  assert (forall now, size (retain_live now (entries s)) <= size (entries s)) as Hz.
  { intros now. apply map_subseteq_size, map_filter_subseteq. }
  destruct c as [csrf st now|st now]; cbn [serve] in Hs; [unfold store_at in Hs|unfold consume_at in Hs]; cbv zeta in Hs.
  - destruct (bool_decide (retain_live _ _ !! _ = None) && _) eqn:Hb.
    { injection Hs as <- <-. split_and!; try done; [apply Hr|]. intros. specialize (Hz now). cbn. lia. }
    unfold instant_checked_add in Hs. case_decide; injection Hs as <- <-; (split_and!; try done).
    + cbn. change (MkStored st (now + ttl s)) with (entry_of (st, (now + ttl s)%Z)). rewrite fmap_insert. apply insert_mono, Hr.
    + intros Hc H0. cbn. specialize (Hz now). apply andb_false_iff in Hb as [Hb%bool_decide_eq_false|Hb%bool_decide_eq_false].
      * apply not_eq_None_Some in Hb as [x Hx]. rewrite map_size_insert_Some by by eexists. lia.
      * destruct (retain_live now (entries s) !! csrf) as [x|] eqn:Hx; [rewrite map_size_insert_Some by (by eexists); lia|].
        rewrite map_size_insert_None by done. lia.
    + apply Hr.
    + intros. cbn. specialize (Hz now). lia.
  - destruct (retain_live now (entries s) !! csrf_token st) as [x|] eqn:Hx.
    2: { injection Hs as <- <-. split_and!; try done; [apply Hr|]. intros. specialize (Hz now). cbn. lia. }
    case_decide as He; injection Hs as <- <-; (split_and!; try done).
    + cbn. rewrite fmap_delete. apply delete_mono, Hr.
    + intros ? ? [= <- <-] _. apply lookup_retain in Hx as [Hx Hlive]. apply (lookup_weaken _ _ _ _ Hx) in Hl.
      rewrite lookup_fmap, fmap_Some in Hl. destruct Hl as ([st' e] & Hk & ->). cbn in *. subst st'. by exists e.
    + intros Hc H0. cbn. specialize (Hz now). etransitivity; [apply map_subseteq_size, delete_subseteq|lia].
    + apply Hr.
    + intros. cbn. specialize (Hz now). lia.
Qed.

(** The clock does not go back and is far from its end. *)
Fixpoint timely (ttl last : Z) (cs : list call) : Prop :=
  match cs with [] => True | c :: cs => (last <= time c)%Z /\ (time c + ttl <= instant_max)%Z /\ timely ttl (time c) cs end.

Lemma run_follows cs s l rs s' :
  entries s ⊆ entry_of <$> l -> size (entries s) <= capacity s -> 0 < capacity s -> run cs s = (rs, s') ->
  size (entries s') <= capacity s /\ length rs = length cs /\
  (forall i st now, cs !! i = Some (Consume st now) -> rs !! i = Some (Consumed true) ->
     exists e, foldl (note (ttl s)) l (take i (zip cs rs)) !! csrf_token st = Some (st, e) /\ (now < e)%Z) /\
  (forall last, timely (ttl s) last cs -> agrees last s l ->
     forall i c, cs !! i = Some c -> rs !! i = Some (expected (capacity s) (foldl (note (ttl s)) l (take i (zip cs rs))) c)).
Proof.
  revert s l rs. induction cs as [|c cs IH]; intros s l rs Hl Hsz H0 Hr; cbn in Hr.
  { injection Hr as <- <-. by split_and!. }
  destruct (serve c s) as [r s1] eqn:Hs. destruct (run cs s1) as [rs1 s2] eqn:Hr1. injection Hr as <- <-.
  destruct (serve_recorded _ _ _ _ _ Hl Hs) as (Hl1 & Ht1 & Hc1 & Hone & Hsz1).
  destruct (IH s1 (note (ttl s) l (c, r)) rs1) as (IHs & IHn & IHc & IHe); rewrite ?Hc1; auto.
  rewrite Hc1 in *. rewrite Ht1 in *. split_and!; [done|cbn; congruence|..].
  - intros [|i] st now Hi Hri; cbn in Hi, Hri; simplify_eq; [by apply (Hone st now)|by apply IHc].
  - intros last (Hle & Hmax & Htm) Ha. destruct (serve_agrees _ _ _ _ _ _ Ha Hle Hmax Hs) as (Hexp & Ha1 & _).
    intros [|i] c' Hi; cbn in Hi; [injection Hi as <-; cbn; by f_equal|by apply (IHe (time c))].
Qed.

(** The state store is the ledger.  Whatever the clock does and whatever was
    stored and consumed before, a callback is accepted only for a state that was
    stored under its own token, has not been consumed or replaced since, and is not
    past its end; the store never holds more than its capacity.  While the clock
    does not go back every reply is the one of the ledger, which purges nothing:
    an unexpired state is accepted, and a new one refused only when the store is
    full of unexpired states. *)
Theorem state_store_is_ledger ttl cap s0 cs rs s :
  with_limits ttl cap = Ok s0 -> run cs s0 = (rs, s) ->
  size (entries s) <= cap /\
  (forall i st now, cs !! i = Some (Consume st now) -> rs !! i = Some (Consumed true) ->
     exists e, ledger ttl (take i (zip cs rs)) !! csrf_token st = Some (st, e) /\ (now < e)%Z) /\
  (forall last, timely ttl last cs ->
     forall i c, cs !! i = Some c -> rs !! i = Some (expected cap (ledger ttl (take i (zip cs rs))) c)).
Proof.
  unfold with_limits. case_decide as Hc; [|done]. intros [= <-] Hr.
  destruct (run_follows cs (MkStore ∅ ttl cap) ∅ rs s) as (Hs & _ & Hone & He); try done; cbn; [by rewrite map_size_empty; lia|].
  split_and!; [done|done|]. intros last Ht. apply (He last Ht). split; cbn; [by rewrite map_filter_empty, fmap_empty|apply map_empty_subseteq].
Qed.

(** ** Witness *)
Definition demo_id : OAuthState := MkState "t1" [Byte.x01].
Definition demo_forged : OAuthState := MkState "t1" [Byte.x02].
Definition demo_calls : list call :=
  [Store "t1" demo_id 0; Consume demo_forged 5; Consume demo_id 6; Consume demo_id 7; Store "t1" demo_id 8; Consume demo_id 18].
Definition demo_store : OAuthStateStore := MkStore ∅ 10 1.

Lemma state_store_is_ledger_witness :
  (run demo_calls demo_store).1 = [Stored; Consumed false; Consumed true; Consumed false; Stored; Consumed false] /\
  exists e, ledger 10 (take 2 (zip demo_calls (run demo_calls demo_store).1)) !! "t1" = Some (demo_id, e) /\ (6 < e)%Z.
Proof.
  split; [vm_compute; reflexivity|].
  assert (timely 10 0 demo_calls) as Ht by (cbn; unfold instant_max; lia).
  destruct (state_store_is_ledger 10 1 demo_store demo_calls (run demo_calls demo_store).1 (run demo_calls demo_store).2)
    as (_ & Hone & Hall).
  - reflexivity.
  - by destruct (run demo_calls demo_store).
  - apply (Hone 2 demo_id 6%Z); [reflexivity|vm_compute; reflexivity].
Defined.
End OAuth.
