(* ===== verification/AppleSignin.v ===== *)
(** * Apple identity tokens

    [src/src/apple_signin.rs]: the cache of Apple's public keys, the verification
    of an identity token against it, and the client secret of the web flow.  The
    [jsonwebtoken] crate is the class [AppleJwt].  The theorems say what an
    accepted token proves and when a retired key stops being accepted. *)

From S2P Require Import Prelude Text Crypto Api Json Accounts.

Module Apple.
Import Json.

Definition HOUR : Z := secs 3600.

(** ** Deserialization of a boolean that may be a string

    No character but an ASCII letter lower-cases to a letter of the two words. *)
Definition bool_from_string (v : Value) : option (option bool) :=
  match v with
  | Bool b => Some (Some b)
  | Str s =>
      let s := to_ascii_lowercase s in
      if decide (s = "true") then Some (Some true) else if decide (s = "false") then Some (Some false) else None
  | Null => Some None
  | _ => None
  end.

Definition APPLE_ISSUER : string := "https://appleid.apple.com".

Record AppleKey := MkKey { kty : string; kid : string; use_type : string; alg : string; n : string; e : string }.
Record AppleJwksCache := MkCache { keys : gmap string AppleKey; last_updated : Z }.
Record AppleIdTokenClaims := MkClaims {
  iss : string; sub : string; aud : string; exp : Z; iat : Z; email : option string; email_verified : option bool;
  is_private_email : option bool; nonce : option string; nonce_supported : option bool; real_user_status : option Z;
  auth_time : option Z }.
(** [jsonwebtoken::Validation], the fields this code sets. *)
Record Validation := MkValidation {
  v_audience : list string; v_issuer : list string; validate_exp : bool; validate_nbf : bool;
  required_spec_claims : list string; leeway : Z }.
Record AppleClientSecretClaims := MkSecretClaims { c_iss : string; c_iat : Z; c_exp : Z; c_aud : string; c_sub : string }.

Class AppleJwt := {
  DecodingKey : Type; EncodingKey : Type;
  from_rsa_components : string -> string -> option DecodingKey;
  decode_header : string -> option (option string);                            (* the key id, if any *)
  decode : Z -> string -> DecodingKey -> Validation -> option AppleIdTokenClaims; (* RS256, at a time *)
  from_ec_pem : string -> option EncodingKey;
  encode : string -> AppleClientSecretClaims -> EncodingKey -> option string }.   (* ES256, the key id *)

(** What a GET of the keys brings: nothing, a status, or a body that parses. *)
Inductive Answer (A : Type) := SendFailed | Status (success : bool) (body : option A).
Arguments SendFailed {A}.
Arguments Status {A} _ _.

Section apple.
Context {cr : Crypto} {aj : AppleJwt}.

Definition to_decoding_key (k : AppleKey) : outcome Api.ApiError DecodingKey :=
  ok_or Api.InternalServerError (from_rsa_components (n k) (e k)).
(** [AppleJwtVerifier::new]. *)
Definition verifier_new (now : Z) : AppleJwksCache := MkCache ∅ (now - 2 * HOUR).

Definition refresh_jwks (at_time : Z) (response : Answer (list AppleKey)) : ST AppleJwksCache Api.ApiError unit := fun c =>
  match response with
  | Status true (Some jwks) => (Ok tt, MkCache (foldl (fun m k => <[kid k := k]> m) ∅ jwks) at_time)
  | _ => (Err Api.InternalServerError, c)
  end.
(** [fetch]: the time of the refresh and its answer. *)
Definition refreshed_key (fetch : Z * Answer (list AppleKey)) (id : string) : ST AppleJwksCache Api.ApiError DecodingKey :=
  _ ← refresh_jwks fetch.1 fetch.2;
  fun c => (key ← ok_or Api.InvalidJwt (keys c !! id); to_decoding_key key, c).
Definition get_key_for_kid (now : Z) (fetch : Z * Answer (list AppleKey)) (id : string)
    : ST AppleJwksCache Api.ApiError DecodingKey := fun c =>
  match keys c !! id with
  | Some key => if decide (now - last_updated c <= HOUR)%Z then (to_decoding_key key, c) else refreshed_key fetch id c
  | None => refreshed_key fetch id c
  end.

Definition validation_for (audience : string) : Validation :=
  MkValidation [audience] [APPLE_ISSUER] true true ["iss"; "sub"; "aud"; "exp"; "iat"] 60.
Definition check_nonce (expected_nonce : option string) (c : AppleIdTokenClaims) : outcome Api.ApiError unit :=
  match expected_nonce with
  | None => Ok tt
  | Some expected =>
      match nonce c with
      | Some token_nonce => if decide (Accounts.hex (sha256 (as_bytes expected)) <> token_nonce) then Err Api.InvalidJwt else Ok tt
      | None => Err Api.InvalidJwt
      end
  end.
(** [now]: when the cache is read and the token decoded. *)
Definition verify_token (now : Z) (fetch : Z * Answer (list AppleKey)) (token audience : string)
    (expected_nonce : option string) : ST AppleJwksCache Api.ApiError AppleIdTokenClaims :=
  header ← st_lift (ok_or Api.InvalidJwt (decode_header token));
  id ← st_lift (ok_or Api.InvalidJwt header);
  decoding_key ← get_key_for_kid now fetch id;
  claims ← st_lift (ok_or Api.InvalidJwt (decode now token decoding_key (validation_for audience)));
  _ ← st_lift (check_nonce expected_nonce claims);
  st_ok claims.

Definition validate_apple_native_token (now : Z) (fetch : Z * Answer (list AppleKey)) (identity_token client_id : string)
    (nonce : option string) : ST AppleJwksCache Api.ApiError AppleIdTokenClaims :=
  verify_token now fetch identity_token client_id nonce.

(** Times of tokens are seconds. *)
Definition generate_apple_client_secret (now_seconds : Z) (team_id key_id private_key_pem client_id : string) : option string :=
  let now := (now_seconds - 60)%Z in
  let claims := MkSecretClaims team_id now (now + 60 * 60 * 24 * 150) "https://appleid.apple.com" client_id in
  if negb (contains_str "-----BEGIN" private_key_pem) || negb (contains_str "-----END" private_key_pem) then None
  else key ← from_ec_pem private_key_pem; encode key_id claims key.

(** ** What an accepted token proves *)
Definition by_kid (jwks : list AppleKey) : gmap string AppleKey := foldl (fun m k => <[kid k := k]> m) ∅ jwks.
Lemma by_kid_lookup jwks id k : by_kid jwks !! id = Some k -> k ∈ jwks /\ kid k = id.
Proof.
  unfold by_kid. revert id k. induction jwks as [|x jwks IH] using rev_ind; intros id k.
  { cbn. by rewrite lookup_empty. }
  rewrite foldl_snoc, elem_of_app, list_elem_of_singleton. intros [[<- <-]|[_ Hk%IH]]%lookup_insert_Some; naive_solver.
Qed.

Lemma refresh_cases t a c r c' :
  refresh_jwks t a c = (r, c') ->
  (r = Err Api.InternalServerError /\ c' = c) \/ exists jwks, a = Status true (Some jwks) /\ r = Ok tt /\ c' = MkCache (by_kid jwks) t.
Proof. unfold refresh_jwks. destruct a as [|[] [jwks|]]; intros [= <- <-]; eauto. Qed.

(** The key a token is checked with: from a cache of the last hour, or just fetched. *)
Lemma get_key_cases now fetch id c r c' :
  get_key_for_kid now fetch id c = (r, c') ->
  (c' = c /\ ((now - last_updated c <= HOUR)%Z \/ r = Err Api.InternalServerError) \/
   exists jwks, fetch.2 = Status true (Some jwks) /\ c' = MkCache (by_kid jwks) fetch.1) /\
  forall dk, r = Ok dk -> exists key, keys c' !! id = Some key /\ to_decoding_key key = Ok dk.
Proof.
  unfold get_key_for_kid. assert (refreshed_key fetch id c = (r, c') ->
    (c' = c /\ ((now - last_updated c <= HOUR)%Z \/ r = Err Api.InternalServerError) \/
     exists jwks, fetch.2 = Status true (Some jwks) /\ c' = MkCache (by_kid jwks) fetch.1) /\
    forall dk, r = Ok dk -> exists key, keys c' !! id = Some key /\ to_decoding_key key = Ok dk) as Href.
  { intros (r1 & c1 & [[-> ->]|(jwks & Ha & -> & ->)]%refresh_cases & Hr)%bind_cases.
    - destruct Hr as [-> ->]. split; [left; split; [done|by right]|done].
    - injection Hr as <- <-. split; [right; by exists jwks|]. intros dk (key & Hk%ok_or_Ok & Hd)%bind_Ok. by exists key. }
  destruct (keys c !! id) as [key|] eqn:Hk; [|exact Href]. case_decide; [|exact Href].
  intros [= <- <-]. split; [left; split; [done|by left]|]. intros dk Hd. by exists key.
Qed.

(** C?. An accepted identity token was decoded, with the audience and the issuer
    this code asks for, by the key its header names; that key is one Apple served
    in an answer at most an hour old; and where a nonce was expected, the token
    carries its hash.  A failed refresh leaves the cache alone. *)
Theorem apple_token_checked now fetch token audience expected c claims c' :
  verify_token now fetch token audience expected c = (Ok claims, c') ->
  exists id key dk, decode_header token = Some (Some id) /\ keys c' !! id = Some key /\
    from_rsa_components (n key) (e key) = Some dk /\
    decode now token dk (validation_for audience) = Some claims /\
    (forall x, expected = Some x -> nonce claims = Some (Accounts.hex (sha256 (as_bytes x)))) /\
    (c' = c /\ (now <= last_updated c + HOUR)%Z \/
     exists jwks, fetch.2 = Status true (Some jwks) /\ c' = MkCache (by_kid jwks) fetch.1 /\ key ∈ jwks /\ kid key = id).
Proof.
  unfold verify_token.
  intros (h & Hh%ok_or_Ok & (id & ->%ok_or_Ok & Hr)%bind_lift_Ok)%bind_lift_Ok.
  apply ST_bind_Ok in Hr as (dk & c1 & Hk & (cl & Hd%ok_or_Ok & ([] & Hn & [= -> ->])%bind_lift_Ok)%bind_lift_Ok).
  apply get_key_cases in Hk as [Hc Hk]. destruct (Hk dk eq_refl) as (key & Hkey & Hdk%ok_or_Ok).
  exists id, key, dk. split_and!; try done.
  - intros x ->. cbn in Hn. destruct (nonce claims) as [tn|]; [|done]. case_decide as Hx; [done|]. by subst tn.
  - destruct Hc as [[-> [?|?]]|(jwks & Ha & ->)]; [left; split; [done|lia]|done|]. right. exists jwks.
    apply by_kid_lookup in Hkey. by destruct Hkey.
Qed.

(** ** Keys that Apple no longer serves *)
Record Visit := MkVisit {
  v_now : Z; v_fetch : Z * Answer (list AppleKey); v_token : string; v_client : string; v_nonce : option string }.
Definition visit (v : Visit) : ST AppleJwksCache Api.ApiError AppleIdTokenClaims :=
  verify_token (v_now v) (v_fetch v) (v_token v) (v_client v) (v_nonce v).
Fixpoint visits (vs : list Visit) (c : AppleJwksCache) : AppleJwksCache :=
  match vs with [] => c | v :: vs => visits vs (visit v c).2 end.
(** A refresh brings what is served at its time, or fails. *)
Definition honest (served : Z -> list AppleKey) (v : Visit) : Prop :=
  forall jwks, (v_fetch v).2 = Status true (Some jwks) -> jwks = served (v_fetch v).1.
Definition current (served : Z -> list AppleKey) (c : AppleJwksCache) : Prop :=
  keys c = ∅ \/ keys c = by_kid (served (last_updated c)).

Lemma visit_cache v c : (visit v c).2 = c \/
  exists jwks, (v_fetch v).2 = Status true (Some jwks) /\ (visit v c).2 = MkCache (by_kid jwks) (v_fetch v).1.
Proof.
  unfold visit. destruct (verify_token _ _ _ _ _ c) as [r c'] eqn:Hr. cbn. unfold verify_token in Hr.
  apply bind_cases in Hr as (r1 & c1 & [= <- <-] & Hr). destruct (decode_header _) as [h|]; cbn in Hr; [|left; by destruct Hr].
  apply bind_cases in Hr as (r1 & c1 & [= <- <-] & Hr). destruct h as [id|]; cbn in Hr; [|left; by destruct Hr].
  apply bind_cases in Hr as (r1 & c1 & [Hc _]%get_key_cases & Hr).
  assert (c' = c1) as ->; [|destruct Hc as [[-> _]|(jwks & ? & ->)]; [by left|right; by exists jwks]].
  destruct r1 as [dk| |]; [|by destruct Hr..].
  apply bind_cases in Hr as (r2 & c2 & [= <- <-] & Hr). destruct (ok_or _ _) as [cl| |]; [|by destruct Hr..].
  apply bind_cases in Hr as (r2 & c2 & [= <- <-] & Hr). destruct (check_nonce _ _); [|by destruct Hr..]. by injection Hr.
Qed.
Lemma visits_current served vs c : Forall (honest served) vs -> current served c -> current served (visits vs c).
Proof.
  intros Hh. revert c. induction Hh as [|v vs Hv _ IH]; intros c Hc; [done|]. cbn. apply IH.
  destruct (visit_cache v c) as [->|(jwks & Ha & ->)]; [done|]. right. cbn. by rewrite (Hv _ Ha).
Qed.

(** A key stops being accepted an hour after Apple last served it.  In any
    sequence of verifications whose refreshes bring what Apple serves at the time or
    fail, a token whose header names a key that was not served after a time [T] is
    accepted at most an hour after [T]. *)
Theorem retired_key_expires served start vs v T id claims c' :
  Forall (honest served) vs -> honest served v -> (v_now v <= (v_fetch v).1)%Z ->
  decode_header (v_token v) = Some (Some id) ->
  (forall t k, (T < t)%Z -> k ∈ served t -> kid k <> id) ->
  visit v (visits vs (verifier_new start)) = (Ok claims, c') ->
  (v_now v <= T + HOUR)%Z.
Proof.
  intros Hvs Hv Hf Hid Hgone Hr. set (c := visits vs _) in Hr.
  assert (current served c) as Hc by (apply visits_current; [done|by left]). clearbody c.
  unfold visit, verify_token in Hr. apply bind_lift_Ok in Hr as (h & Hh%ok_or_Ok & Hr). rewrite Hid in Hh. injection Hh as <-.
  apply bind_lift_Ok in Hr as (id' & [= <-]%ok_or_Ok & Hr).
  apply ST_bind_Ok in Hr as (dk & c1 & [Hk Hok]%get_key_cases & _). destruct (Hok dk eq_refl) as (key & Hkey & _).
  destruct (decide (T + HOUR < v_now v)%Z) as [Hlate|]; [exfalso|lia].
  assert (0 < HOUR)%Z as Hhour by done. destruct Hk as [[-> [Hn|?]]|(jwks & Ha & ->)]; [|done|].
  - destruct Hc as [Hc|Hc]; rewrite Hc in Hkey; [by rewrite lookup_empty in Hkey|].
    apply by_kid_lookup in Hkey as [Hin Hkid]. apply (Hgone (last_updated c) key); [lia|done|done].
  - apply by_kid_lookup in Hkey as [Hin Hkid]. rewrite (Hv _ Ha) in Hin. apply (Hgone (v_fetch v).1 key); [lia|done|done].
Qed.
End apple.

(** ** A toy instance and witnesses *)
Module ToyApple.
Definition toy_claims (token audience : string) : AppleIdTokenClaims :=
  MkClaims APPLE_ISSUER ("user of " +:+ token) audience 1000 0 (Some "a@b.c") (Some true) None None None None None.
#[export] Instance toy_apple : AppleJwt := {|
  DecodingKey := string; EncodingKey := string;
  from_rsa_components n e := Some n;
  decode_header token := Some (Some token);
  decode now token key v :=
    if decide (key = "modulus of " +:+ token) then toy_claims token <$> head (v_audience v) else None;
  from_ec_pem pem := Some pem;
  encode key_id claims pem := Some (c_iss claims +:+ "." +:+ c_sub claims) |}.
End ToyApple.

Section witnesses.
#[local] Existing Instances ToyCrypto.toy ToyApple.toy_apple.
Definition demo_key : AppleKey := MkKey "RSA" "k1" "sig" "RS256" "modulus of k1" "AQAB".
Definition served (t : Z) : list AppleKey := if decide (t <= 10)%Z then [demo_key] else [].
Definition demo_visit (now : Z) : Visit := MkVisit now (now, Status true (Some (served now))) "k1" "app" None.

Lemma apple_token_checked_witness :
  (verify_token 5 (v_fetch (demo_visit 5)) "k1" "app" None (verifier_new 0)).1 = Ok (ToyApple.toy_claims "k1" "app") /\
  exists id, decode_header "k1" = Some (Some id).
Proof.
  split; [vm_compute; reflexivity|].
  destruct (apple_token_checked 5 (v_fetch (demo_visit 5)) "k1" "app" None (verifier_new 0) (ToyApple.toy_claims "k1" "app")
    (verify_token 5 (v_fetch (demo_visit 5)) "k1" "app" None (verifier_new 0)).2) as (id & key & dk & Hid & _).
  - vm_compute. reflexivity.
  - exists id. exact Hid.
Defined.

Lemma retired_key_expires_witness : (v_now (demo_visit 20) <= 10 + HOUR)%Z.
Proof.
  apply (retired_key_expires served 0 [demo_visit 5] (demo_visit 20) 10 "k1" (ToyApple.toy_claims "k1" "app")
    (visit (demo_visit 20) (visits [demo_visit 5] (verifier_new 0))).2).
  - apply Forall_singleton. intros jwks. cbn. intros [= <-]. reflexivity.
  - intros jwks. cbn. intros [= <-]. reflexivity.
  - cbn. lia.
  - reflexivity.
  - intros t k Ht. unfold served. rewrite decide_False by lia. intros Hk. by apply elem_of_nil in Hk.
  - vm_compute. reflexivity.
Defined.
End witnesses.
End Apple.
