(* ===== verification/OAuthUsers.v ===== *)
(** * Accounts behind an OAuth subject

    The part of [src/src/web/oauth_routes.rs] that finds or creates the account of
    a subject a provider vouched for.  The theorems say that an account is found
    only by its subject, never by an e-mail address, and that whoever signs in
    holds a context that opens the account's seed. *)

From S2P Require Import Prelude Text Crypto Api Encrypt SeedWrapping Claims Database Rows Accounts Credentials Tokens.

Module OAuthUsers.
Import Db Accounts Credentials.

Record AuthenticatedOAuthUser := MkAuthenticatedOAuth { oauth_user : User; oauth_context : Claims.AuthContext }.
Record OAuthCallbackResponse := MkCallbackResponse {
  cb_id : Uuid; cb_email : string; cb_access_token : string; cb_refresh_token : string }.

(** What one request draws: for a new account, and for the stored token. *)
Record OAuthDraws := MkOAuthDraws { account_draws : Draws; token_nonce : bytes }.

Section users.
Context {cr : Crypto} {ci : Citext} {ut : UuidText} {ad : AccountDeps} {ub : UrlBase64} {au : Claims.AudienceText} {jw : Tokens.Jwt}.
Context (enclave_key : bytes) (signing_key : Encrypt.SecretKey).

(** [From<DBError> for ApiError] on these errors. *)
Definition db_api_error (e : DBError) : Api.ApiError := Api.InternalServerError.
Definition internal {A} (m : ST State DBError A) : ST State Api.ApiError A := st_map_err (fun _ => Api.InternalServerError) m.

Definition authenticated_oauth_user (u : User) (provider_name provider_user_id : string)
    : ST State Api.ApiError AuthenticatedOAuthUser :=
  auth_context ← st_lift (map_err (fun _ => Api.InternalServerError)
    (oauth_auth_context_for_user enclave_key u provider_name provider_user_id));
  _ ← st_map_err (fun _ => Api.Unauthorized) (verify_seed_wrap_for_auth_context enclave_key u auth_context);
  st_ok (MkAuthenticatedOAuth u auth_context).

Definition oauth_callback_response (now : Z) (a : AuthenticatedOAuthUser) : outcome Api.ApiError OAuthCallbackResponse :=
  access_token ← map_err (fun _ => Api.InternalServerError)
    (Tokens.new_with_auth_context signing_key now (oauth_user a) Claims.Access (oauth_context a));
  refresh_token ← map_err (fun _ => Api.InternalServerError)
    (Tokens.new_with_auth_context signing_key now (oauth_user a) Claims.Refresh (oauth_context a));
  mail ← expect (email (oauth_user a));
  Ok (MkCallbackResponse (uuid (oauth_user a)) mail access_token refresh_token).

Definition encrypt_access_token (nonce : bytes) (access_token : string) : outcome Api.ApiError bytes :=
  secret_key ← ok_or Api.InternalServerError (secret_from_slice enclave_key);
  lift (Encrypt.encrypt_with_key nonce secret_key (as_bytes access_token)).

Definition update_provider_connection (now : Z) (nonce : bytes) (row : UserOAuthConnection) (token : string)
    : ST State Api.ApiError unit :=
  row ← st_lift (if is_empty token then Ok row
    else encrypted_token ← encrypt_access_token nonce token;
         Ok (MkConnection (o_id row) (o_user_id row) (provider_id row) (provider_user_id row) encrypted_token
               (refresh_token_enc row) (o_expires_at row) (o_created_at row) (o_updated_at row)));
  internal (update_user_oauth_connection now row).

(** A user for a subject that has none. *)
Definition create_oauth_user (now : Z) (d : OAuthDraws) (provider : OAuthProvider) (mail provider_user_id provider_name
    access_token : string) (user_name : option string) (project : Z) : ST State Api.ApiError AuthenticatedOAuthUser :=
  user_seed_words ← st_lift (map_err (fun _ => Api.InternalServerError) (generate_twelve_word_seed (account_draws d)));
  let new_user := MkNewUser (Some (default "" user_name)) (Some mail) None project in
  encrypted_access_token ← st_lift (if is_empty access_token then Ok [] else encrypt_access_token (token_nonce d) access_token);
  u ← st_map_err (fun _ => Api.InternalServerError)
    (create_user_with_oauth_seed_wrap enclave_key now (account_draws d) new_user (op_id provider) provider_name
       provider_user_id encrypted_access_token (as_bytes user_seed_words));
  _ ← Tokens.handle_new_user_registration now (verification_uuid (account_draws d)) u false;
  authenticated_oauth_user u provider_name provider_user_id.

Definition find_or_create_user_from_oauth (now : Z) (d : OAuthDraws) (mail : option string) (provider_user_id provider_name
    access_token : string) (user_name : option string) (project : Z) : ST State Api.ApiError AuthenticatedOAuthUser :=
  provider ← internal (get_oauth_provider_by_name provider_name);
  provider ← st_lift (ok_or Api.InternalServerError provider);
  existing_connection ← internal (get_project_user_oauth_connection_by_provider_subject (op_id provider) provider_user_id project);
  match existing_connection with
  | Some row =>
      u ← st_map_err db_api_error (get_user_by_uuid (o_user_id row));
      if decide (project_id u <> project) then st_err Api.Unauthorized
      else
        _ ← update_provider_connection now (token_nonce d) row access_token;
        authenticated_oauth_user u provider_name provider_user_id
  | None =>
      mail ← st_lift (ok_or Api.NoEmailFound
        (m ← mail; if negb (is_empty (trim m)) then Some m else None));
      existing ← st_try (get_user_by_email mail project);
      match existing with
      | Ok existing_user =>
          _ ← internal (get_user_oauth_connection_by_user_and_provider (uuid existing_user) (op_id provider));
          st_err Api.UserExistsNotLinked
      | Err Db.UserNotFound => create_oauth_user now d provider mail provider_user_id provider_name access_token user_name project
      | Err _ => st_err Api.InternalServerError
      | Panic => st_lift Panic
      end
  end.

(** ** Lemmas: what the calls change *)
Lemma reads_verify u c : reads (verify_seed_wrap_for_auth_context enclave_key u c).
Proof. unfold verify_seed_wrap_for_auth_context. apply reads_bind; [apply reads_decrypt|intros ?; apply reads_ok]. Qed.
Lemma reads_authenticated u pn subject : reads (authenticated_oauth_user u pn subject).
Proof.
  apply reads_bind; [apply reads_lift|intros ctx]. apply reads_bind; [apply reads_map_err, reads_verify|intros ?; apply reads_ok].
Qed.
Lemma reads_call {E A} (g : DBError -> E) (h : DieselError -> DBError) (f : Tables -> A) :
  reads (st_map_err g (_ ← connection; st_map_err h (select f))).
Proof. apply reads_map_err, reads_query. Qed.

(** The context a sign-in hands on opens the seed of the account. *)
Definition opens (u : User) (ctx : Claims.AuthContext) (t : Tables) : Prop :=
  exists seed q q', tables q = t /\ decrypt_seed_for_auth_context enclave_key u ctx q = (Ok seed, q').
Lemma authenticated_Ok u pn subject s a s' :
  authenticated_oauth_user u pn subject s = (Ok a, s') ->
  oauth_user a = u /\ oauth_auth_context_for_user enclave_key u pn subject = Ok (oauth_context a) /\
  tables s' = tables s /\ opens u (oauth_context a) (tables s).
Proof.
  intros Hr. pose proof (reads_authenticated _ _ _ _ _ _ Hr) as Ht.
  apply bind_lift_Ok in Hr as (ctx & Hc%map_err_Ok & ([] & s1 & (seed & s2 & Hd & _)%st_map_err_Ok%ST_bind_Ok & [= <- _])%ST_bind_Ok).
  split_and!; try done. by exists seed, s, s2.
Qed.

(** A stored token is replaced in one row; nothing else changes. *)
Definition with_token (b : bytes) (now : Z) (o : UserOAuthConnection) : UserOAuthConnection :=
  MkConnection (o_id o) (o_user_id o) (provider_id o) (provider_user_id o) b (refresh_token_enc o) (o_expires_at o)
    (o_created_at o) now.
Definition identity (o : UserOAuthConnection) : Z * Uuid * Z * string := (o_id o, o_user_id o, provider_id o, provider_user_id o).
(** The tables up to tokens and their dates. *)
Definition same_but_tokens (t t' : Tables) : Prop :=
  exists l, identity <$> l = identity <$> oauth_connections t /\ t' = set_oauth_connections l t.

Lemma same_but_tokens_refl t : same_but_tokens t t.
Proof. exists (oauth_connections t). split; [done|]. by destruct t. Qed.
Lemma update_connection_same now nonce row token s r s' :
  update_provider_connection now nonce row token s = (r, s') -> same_but_tokens (tables s) (tables s').
Proof.
  intros (r1 & s1 & [= <- <-] & Hr)%bind_cases. destruct (if is_empty token then _ else _) as [row'|e|] eqn:Hrow.
  2-3: destruct Hr as [-> ->]; apply same_but_tokens_refl.
  unfold internal, update_user_oauth_connection in Hr. apply st_map_err_inv in Hr as (r0 & Hr & _).
  apply bind_cases in Hr as (r1 & s1 & H1%reads_connection & Hr).
  destruct r1; [|destruct Hr as [-> ->]; rewrite H1; apply same_but_tokens_refl..].
  apply st_map_err_inv in Hr as (r2 & Hr & _). destruct r2 as [[]|e|].
  - apply execute_Ok in Hr. injection Hr as Hr. rewrite <- Hr, H1. eexists. split; [|done].
    apply fmap_update. done.
  - apply statement_not_ok in Hr; [|done]. rewrite Hr, H1. apply same_but_tokens_refl.
  - apply statement_not_ok in Hr; [|done]. rewrite Hr, H1. apply same_but_tokens_refl.
Qed.

(** The rows of a new account. *)
Definition account_added (u : User) (subject : string) (provider : Z) (t t' : Tables) : Prop :=
  exists w o v, w_user_id w = uuid u /\ o_user_id o = uuid u /\ provider_id o = provider /\ provider_user_id o = subject /\
    v_user_id v = uuid u /\ is_verified v = true /\
    t' = set_email_verifications (email_verifications t ++ [v])
          (set_seed_wrappings (seed_wrappings t ++ [w])
            (set_oauth_connections (oauth_connections t ++ [o]) (set_users (users t ++ [u]) t))).

Lemma connection_added now n s o s' :
  oauth_insert now n s = (Ok o, s') ->
  o_user_id o = no_user_id n /\ provider_id o = no_provider_id n /\ provider_user_id o = no_provider_user_id n /\
  tables s' = set_oauth_connections (oauth_connections (tables s) ++ [o]) (tables s).
Proof.
  intros Hs%statement_Ok. destruct (existsb (same_connection n) _); [done|]. apply references_Ok in Hs as [_ Hs].
  destruct (existsb _ _); [|done]. by injection Hs as <- <-.
Qed.
Lemma verification_added now n s v s' :
  verification_insert now n s = (Ok v, s') ->
  v_user_id v = nv_user_id n /\ is_verified v = nv_is_verified n /\
  tables s' = set_email_verifications (email_verifications (tables s) ++ [v]) (tables s).
Proof. intros [_ Hs]%statement_Ok%references_Ok. by injection Hs as <- <-. Qed.

Lemma oauth_user_added now d n p pn subject tok seed s r s' :
  owners (tables s) -> create_user_with_oauth_seed_wrap enclave_key now d n p pn subject tok seed s = (r, s') ->
  (not_ok r /\ tables s' = tables s) \/
  exists u, r = Ok u /\ no_user (uuid u) (tables s) /\ email u = n_email n /\ project_id u = n_project_id n /\
    password_enc u = n_password_enc n /\ account_added u subject p (tables s) (tables s').
Proof.
  intros Ho [(u & s1 & s2 & -> & Ht1 & Hb & Ht2)|[? Ht]]%call_inv; [|by left|apply reads_pool]. right.
  apply ST_bind_Ok in Hb as (u' & s3 & (Hno & Hu & Htu)%st_map_err_Ok%user_insert_Ok & Hb). rewrite Ht1 in Hno, Htu.
  apply ST_bind_Ok in Hb as (o & s4 & (Ho1 & Ho2 & Ho3 & Hto)%st_map_err_Ok%connection_added & Hb).
  apply ST_bind_Ok in Hb as (nw & s5 & [Hw ->]%st_lift_inv & Hb).
  apply ST_bind_Ok in Hb as (w & s6 & Hup%st_map_err_Ok & Hb).
  apply ST_bind_Ok in Hb as (v & s7 & (Hv1 & Hv2 & Htv)%st_map_err_Ok%verification_added & [= -> ->]).
  pose proof (new_oauth_wrapping_facts enclave_key _ _ _ _ _ _ (eq_sym Hw)) as (Hid & Hkind).
  assert (uuid u = new_uuid d) as Huid by by rewrite Hu.
  apply wrapping_upsert_new in Hup as [Hw2 Htw].
  - exists u. split_and!; [done|by rewrite Huid|by rewrite Hu..|]. exists w, o, v. rewrite Ht2, Htv, Htw, Hto, Htu.
    split_and!; try done. by rewrite Hw2.
  - rewrite Hto, Htu. cbn. apply no_wrappings_without_user; [done|]. by rewrite Hid, Huid.
Qed.

Lemma create_oauth_user_cases now d p mail subject pn tok un project s r s' :
  owners (tables s) -> create_oauth_user now d p mail subject pn tok un project s = (r, s') ->
  (not_ok r /\ tables s' = tables s) \/
  exists u, no_user (uuid u) (tables s) /\ email u = Some mail /\ project_id u = project /\ password_enc u = None /\
    account_added u subject (op_id p) (tables s) (tables s') /\
    forall a, r = Ok a -> oauth_user a = u /\
      oauth_auth_context_for_user enclave_key u pn subject = Ok (oauth_context a) /\ opens u (oauth_context a) (tables s').
Proof.
  intros Ho. unfold create_oauth_user.
  intros (r1 & s1 & [= <- <-] & Hr)%bind_cases. destruct (map_err _ _) as [words|e|]; [|by left; destruct Hr as [-> ->]..].
  cbv zeta in Hr. apply bind_cases in Hr as (r1 & s1 & [= <- <-] & Hr).
  destruct (if is_empty tok then _ else _) as [token|e|]; [|by left; destruct Hr as [-> ->]..].
  apply bind_cases in Hr as (r1 & s1 & (r2 & Hc & ->)%st_map_err_inv & Hr).
  apply oauth_user_added in Hc as [[Hn Ht]|(u & -> & Hno & Hm & Hp & Hpw & Hadd)]; [| |done].
  { left. destruct r2 as [u| |]; [by destruct (Hn u)|by destruct Hr as [-> ->]..]. }
  right. exists u. cbn in Hr.
  apply bind_cases in Hr as (r3 & s3 & H3 & Hr).
  assert (r3 = Ok tt /\ s3 = s1) as [-> ->] by (unfold Tokens.handle_new_user_registration in H3; cbn in H3; by injection H3 as <- <-).
  pose proof (reads_authenticated _ _ _ _ _ _ Hr) as Ht. rewrite Ht. split_and!; try done.
  intros a ->. apply authenticated_Ok in Hr as (Ha & Hctx & _ & Hop). by split_and!.
Qed.

(** ** The account of a subject *)
Definition provider_row (t : Tables) (pn : string) (p : OAuthProvider) : Prop := first (provider_named pn) (oauth_providers t) = Some p.
(** [u] is an account of the subject in the project. *)
Definition account_of (t : Tables) (pn subject : string) (project : Z) (u : User) : Prop :=
  exists p o, provider_row t pn p /\ o ∈ oauth_connections t /\ provider_id o = op_id p /\ provider_user_id o = subject /\
    o_user_id o = uuid u /\ u ∈ users t /\ project_id u = project.

Lemma subject_row_cases {E} (g : DBError -> E) p subject project s r s' :
  st_map_err g (get_project_user_oauth_connection_by_provider_subject p subject project) s = (r, s') ->
  tables s' = tables s /\
  let rows := matching_rows (connection_for_subject p subject project (tables s)) (oauth_connections (tables s)) in
  ((exists e, r = Err (g e)) \/ (r = Ok None /\ rows = []) \/ exists o, r = Ok (Some o) /\ rows = [o]).
Proof.
  intros (r0 & Hr & ->)%st_map_err_inv. unfold get_project_user_oauth_connection_by_provider_subject in Hr.
  apply bind_cases in Hr as (r1 & s1 & H1 & Hr). unfold connection in H1.
  destruct (faulty s); injection H1 as <- <-; [destruct Hr as [-> ->]; split; [done|left; by eexists]|].
  apply st_map_err_inv in Hr as (r2 & Hr & ->). unfold connection_get_by_provider_subject_and_project in Hr.
  apply bind_cases in Hr as (r3 & s3 & (r4 & H4 & ->)%st_map_err_inv & Hr). pose proof (reads_select _ _ _ _ H4) as Ht.
  destruct r4 as [l| |]; [|destruct Hr as [-> ->]; (split; [done|]); left; by eexists|].
  2: { unfold select, statement in H4. by destruct (faulty (advance s)). }
  apply select_Ok in H4 as [-> _]. change (tables (advance s)) with (tables s) in *. cbn [map_err] in Hr.
  destruct (matching_rows _ _) as [|o [|o' l]]; cbn in Hr; injection Hr as <- <-; (split; [done|]); cbv zeta.
  - right. by left.
  - right. right. by exists o.
  - left. by eexists.
Qed.
Lemma subject_row_true p subject project t o :
  connection_for_subject p subject project t o = true <->
  provider_id o = p /\ provider_user_id o = subject /\ exists u, u ∈ users t /\ uuid u = o_user_id o /\ project_id u = project.
Proof.
  unfold connection_for_subject. rewrite !andb_true_iff, !bool_decide_eq_true, existsb_elem. setoid_rewrite andb_true_iff.
  setoid_rewrite bool_decide_eq_true. naive_solver.
Qed.

Lemma provider_runs pn s r s' :
  internal (get_oauth_provider_by_name pn) s = (r, s') ->
  tables s' = tables s /\ forall o, r = Ok o -> o = first (provider_named pn) (oauth_providers (tables s)).
Proof.
  intros Hr. split; [by eapply reads_call|]. intros o ->. apply st_map_err_Ok in Hr.
  apply ST_bind_Ok in Hr as ([] & s1 & H1%reads_connection & [-> _]%st_map_err_Ok%select_Ok). by rewrite H1.
Qed.

(** What a sign-in of a subject does. *)
Definition found_account (t t' : Tables) (pn subject : string) (project : Z) (r : outcome Api.ApiError AuthenticatedOAuthUser) : Prop :=
  same_but_tokens t t' /\ forall a, r = Ok a ->
    account_of t pn subject project (oauth_user a) /\
    (forall v, account_of t pn subject project v -> uuid v = uuid (oauth_user a)) /\
    oauth_auth_context_for_user enclave_key (oauth_user a) pn subject = Ok (oauth_context a) /\
    opens (oauth_user a) (oauth_context a) t'.
Definition new_account (t t' : Tables) (mail : option string) (pn subject : string) (project : Z)
    (r : outcome Api.ApiError AuthenticatedOAuthUser) : Prop :=
  exists p u m, provider_row t pn p /\ (forall v, ~ account_of t pn subject project v) /\
    mail = Some m /\ is_empty (trim m) = false /\ (forall v, v ∈ users t -> user_has_email m project v = false) /\
    no_user (uuid u) t /\ email u = Some m /\ project_id u = project /\ password_enc u = None /\
    account_added u subject (op_id p) t t' /\
    forall a, r = Ok a -> oauth_user a = u /\
      oauth_auth_context_for_user enclave_key u pn subject = Ok (oauth_context a) /\ opens u (oauth_context a) t'.

Lemma found_err t t' pn subject project e : t' = t -> found_account t t' pn subject project (Err e).
Proof. intros ->. split; [apply same_but_tokens_refl|done]. Qed.
Lemma found_panic t t' pn subject project : t' = t -> found_account t t' pn subject project Panic.
Proof. intros ->. split; [apply same_but_tokens_refl|done]. Qed.

Lemma account_row t pn p subject project v : provider_row t pn p -> account_of t pn subject project v ->
  exists o, o ∈ matching_rows (connection_for_subject (op_id p) subject project t) (oauth_connections t) /\ o_user_id o = uuid v.
Proof.
  intros Hp (p' & o & Hp' & Ho & Hop & Hsub & Hid & Hv & Hpr). unfold provider_row in *. rewrite Hp in Hp'. injection Hp' as <-.
  exists o. split; [|done]. apply elem_of_matching. split; [|done]. apply subject_row_true. split_and!; try done. by exists v.
Qed.

Lemma first_none_all {A} (p : A -> bool) l : first p l = None -> forall x, x ∈ l -> p x = false.
Proof.
  intros Hf x Hx. apply fmap_None, list_find_None in Hf. rewrite Forall_forall in Hf. by apply not_true_iff_false, Hf.
Qed.
Lemma nobody_has_email m project s s' :
  get_user_by_email m project s = (Err Db.UserNotFound, s') -> forall v, v ∈ users (tables s) -> user_has_email m project v = false.
Proof.
  intros (r1 & s1 & H1 & Hr)%bind_cases. pose proof (reads_connection _ _ _ H1) as Ht1.
  destruct r1 as [[]|e|]; [|by unfold connection in H1; destruct (faulty s); destruct Hr; simplify_eq..].
  apply bind_cases in Hr as (r2 & s2 & (r3 & H3 & ->)%st_map_err_inv & Hr).
  destruct r3 as [o|e|]; [|by destruct Hr..]. apply select_Ok in H3 as [-> _]. rewrite Ht1 in Hr.
  cbn in Hr. unfold st_lift, found in Hr. destruct (first _ _) eqn:Hf; [done|]. by apply first_none_all.
Qed.
Lemma get_user_found id s u s' :
  st_map_err db_api_error (get_user_by_uuid id) s = (Ok u, s') -> uuid u = id /\ u ∈ users (tables s) /\ tables s' = tables s.
Proof.
  intros Hr%st_map_err_Ok. pose proof (reads_get_by_uuid _ _ _ _ Hr). apply (user_read_by (e := UserError)) in Hr as [Hid%is_user_true Hu].
  by split_and!.
Qed.

Lemma sign_in_cases now d mail subject pn tok un project s r s' :
  owners (tables s) -> find_or_create_user_from_oauth now d mail subject pn tok un project s = (r, s') ->
  found_account (tables s) (tables s') pn subject project r \/ new_account (tables s) (tables s') mail pn subject project r.
Proof.
  intros Ho (r1 & s1 & [Ht1 Hp]%provider_runs & Hr)%bind_cases.
  destruct r1 as [p| |]; [|left; destruct Hr as [-> ->]; first [by apply found_err|by apply found_panic]..].
  specialize (Hp p eq_refl). apply bind_cases in Hr as (r2 & s2 & [= <- <-] & Hr).
  destruct p as [p|]; [|left; destruct Hr as [-> ->]; by apply found_err]. symmetry in Hp. cbn [ok_or] in Hr.
  apply bind_cases in Hr as (r3 & s3 & [Ht3 H3]%subject_row_cases & Hr). rewrite Ht1 in H3, Ht3. cbv zeta in H3.
  destruct H3 as [(e & ->)|[[-> Hrows]|(o & -> & Hrows)]]; [left; destruct Hr as [-> ->]; by apply found_err| |].
  - assert (forall v, ~ account_of (tables s) pn subject project v) as Hnone.
    { intros v (o & Hin & _)%(account_row _ _ p); [|done]. rewrite Hrows in Hin. by apply elem_of_nil in Hin. }
    apply bind_cases in Hr as (r4 & s4 & [= <- <-] & Hr).
    destruct mail as [m|]; cbn in Hr; [|left; destruct Hr as [-> ->]; by apply found_err].
    destruct (is_empty (trim m)) eqn:Hm; cbn in Hr; [left; destruct Hr as [-> ->]; by apply found_err|].
    apply bind_cases in Hr as (r5 & s5 & H5 & Hr). destruct (get_user_by_email m project s3) as [r6 s6] eqn:H6.
    pose proof (reads_get_by_email _ _ _ _ _ H6) as Ht6. unfold st_try in H5. rewrite H6 in H5.
    destruct r6 as [v|e|]; injection H5 as <- <-.
    + left. apply bind_cases in Hr as (r7 & s7 & H7%reads_call & Hr).
      assert (tables s7 = tables s) by congruence.
      destruct r7; [injection Hr as <- <-|destruct Hr as [-> ->]..]; first [by apply found_err|by apply found_panic].
    + assert (e = Db.UserNotFound \/ e <> Db.UserNotFound) as [->|Hne] by (destruct e; (by left) || by right).
      2: { left. assert (tables s6 = tables s) by congruence. destruct e; try done; injection Hr as <- <-; by apply found_err. }
      assert (tables s6 = tables s) as Ht by congruence.
      apply create_oauth_user_cases in Hr as [[Hn Ht']|(u & Hno & Hem & Hpr & Hpw & Hadd & Hok)]; [| |by rewrite Ht].
      * left. split; [rewrite Ht', Ht; apply same_but_tokens_refl|]. intros a ->. by destruct (Hn a).
      * right. rewrite Ht in *. exists p, u, m. split_and!; try done. rewrite <- Ht3. by eapply nobody_has_email.
    + left. destruct Hr as [-> ->]. apply found_panic. congruence.
  - left. apply bind_cases in Hr as (r4 & s4 & H4 & Hr).
    assert (tables s4 = tables s) as Ht4.
    { etransitivity; [|exact Ht3]. by eapply (reads_map_err db_api_error), H4; apply reads_get_by_uuid. }
    destruct r4 as [u|e|]; [|destruct Hr as [-> ->]; first [by apply found_err|by apply found_panic]..].
    apply get_user_found in H4 as (Hid & Hu & _). rewrite Ht3 in Hu.
    case_decide as Hpr; [injection Hr as <- <-; by apply found_err|].
    apply bind_cases in Hr as (r5 & s5 & H5%update_connection_same & Hr). rewrite Ht4 in H5.
    destruct r5 as [[]|e|]; [|destruct Hr as [-> ->]; by split..].
    pose proof (reads_authenticated _ _ _ _ _ _ Hr) as Ht6. split; [by rewrite Ht6|].
    intros a ->. apply authenticated_Ok in Hr as (Ha & Hctx & _ & Hop). rewrite Ha, Ht6.
    assert (o ∈ matching_rows (connection_for_subject (op_id p) subject project (tables s)) (oauth_connections (tables s))) as Hin
      by (rewrite Hrows; left).
    apply elem_of_matching in Hin as [(Hpi & Hsub & _)%subject_row_true Hin]. split_and!; try done.
    + exists p, o. split_and!; try done.
    + intros v (o' & Hin' & Hid')%(account_row _ _ p); [|done]. rewrite Hrows in Hin'. apply list_elem_of_singleton in Hin' as ->. congruence.
Qed.

(** C13. An OAuth sign-in finds an account by its subject only.  Whatever fails,
    existing rows keep everything but stored tokens.  A sign-in that succeeds
    either returns an account that was connected to this subject in this project
    - and then every account so connected is that one - or, when none was and no
    account of the project has the e-mail address, a fresh account with that
    address and this subject: an account that exists is never taken over through
    its address.  What is returned holds the context of the subject, and it opens
    the account's seed. *)
Theorem sign_in_by_subject now d mail subject pn tok un project s r s' :
  owners (tables s) -> find_or_create_user_from_oauth now d mail subject pn tok un project s = (r, s') ->
  (users (tables s) `prefix_of` users (tables s') /\ seed_wrappings (tables s) `prefix_of` seed_wrappings (tables s') /\
   (identity <$> oauth_connections (tables s)) `prefix_of` (identity <$> oauth_connections (tables s')) /\
   user_kv (tables s') = user_kv (tables s) /\ user_api_keys (tables s') = user_api_keys (tables s)) /\
  forall a, r = Ok a ->
    oauth_auth_context_for_user enclave_key (oauth_user a) pn subject = Ok (oauth_context a) /\
    opens (oauth_user a) (oauth_context a) (tables s') /\ project_id (oauth_user a) = project /\
    ((account_of (tables s) pn subject project (oauth_user a) /\
      (forall v, account_of (tables s) pn subject project v -> uuid v = uuid (oauth_user a)) /\
      users (tables s') = users (tables s)) \/
     ((forall v, ~ account_of (tables s) pn subject project v) /\ no_user (uuid (oauth_user a)) (tables s) /\
      exists m, mail = Some m /\ email (oauth_user a) = Some m /\ password_enc (oauth_user a) = None /\
        (forall v, v ∈ users (tables s) -> user_has_email m project v = false) /\
        users (tables s') = users (tables s) ++ [oauth_user a] /\ account_of (tables s') pn subject project (oauth_user a))).
Proof.
  intros Ho [[(l & Hl & Ht) Hok]|Hnew]%sign_in_cases; [| |done].
  - split; [rewrite Ht; cbn; by rewrite Hl|]. intros a Ha. destruct (Hok a Ha) as (Hacc & Huniq & Hctx & Hop).
    pose proof Hacc as (_ & _ & _ & _ & _ & _ & _ & _ & Hpr). split_and!; try done. left. by rewrite Ht.
  - destruct Hnew as (p & u & m & Hp & Hnone & Hm & Htrim & Hfree & Hno & Hem & Hpr & Hpw & (w & o & v & Hw & Ho1 & Ho2 & Ho3 & Hv & Hver & Ht) & Hok).
    split; [rewrite Ht; cbn; rewrite fmap_app; split_and!; try done; apply prefix_app_r; done|].
    intros a Ha. destruct (Hok a Ha) as (-> & Hctx & Hop). split_and!; try done. right. split_and!; try done.
    exists m. split_and!; try done; [by rewrite Ht|]. exists p, o. rewrite Ht. cbn. split_and!; try done;
      apply elem_of_app; right; by apply list_elem_of_singleton.
Qed.

(** ** Sequences of sign-ins *)
Record SignIn := MkSignIn {
  si_now : Z; si_draws : OAuthDraws; si_mail : option string; si_subject : string; si_provider : string;
  si_token : string; si_name : option string; si_project : Z; si_faults : list bool }.
(** Any faults may hit a sign-in. *)
Definition sign_in (i : SignIn) (s : State) : outcome Api.ApiError AuthenticatedOAuthUser * State :=
  find_or_create_user_from_oauth (si_now i) (si_draws i) (si_mail i) (si_subject i) (si_provider i) (si_token i)
    (si_name i) (si_project i) (MkState (tables s) (serial s) (si_faults i)).
Fixpoint sign_ins (ins : list SignIn) (s : State) : list (outcome Api.ApiError AuthenticatedOAuthUser) * State :=
  match ins with
  | [] => ([], s)
  | i :: ins => let '(r, s) := sign_in i s in let '(rs, s) := sign_ins ins s in (r :: rs, s)
  end.
Definition same_subject (i j : SignIn) : Prop :=
  si_subject i = si_subject j /\ si_provider i = si_provider j /\ si_project i = si_project j.

Lemma sign_in_owners i s r s' : owners (tables s) -> sign_in i s = (r, s') ->
  owners (tables s') /\ oauth_providers (tables s') = oauth_providers (tables s).
Proof.
  intros Ho Hr. apply sign_in_cases in Hr as [[(l & _ & ->) _]|Hnew]; [| |done]; [by split|].
  destruct Hnew as (p & u & m & _ & _ & _ & _ & _ & _ & _ & _ & _ & (w & o & v & Hw & _ & _ & _ & _ & _ & ->) & _).
  split; [|done]. intros x [Hx| ->%list_elem_of_singleton]%elem_of_app.
  - destruct (Ho x Hx) as (y & Hy & Hid). exists y. split; [apply elem_of_app; by left|done].
  - exists u. split; [|done]. apply elem_of_app. right. by apply list_elem_of_singleton.
Qed.

(** An account of a subject stays one. *)
Lemma account_stays i s r s' pn subject project u :
  owners (tables s) -> sign_in i s = (r, s') ->
  account_of (tables s) pn subject project u -> account_of (tables s') pn subject project u.
Proof.
  intros Ho Hr (p & o & Hp & Hin & H1 & H2 & H3 & H4 & H5).
  pose proof (sign_in_owners _ _ _ _ Ho Hr) as [_ Hpr]. unfold account_of, provider_row. rewrite Hpr.
  apply sign_in_cases in Hr as [[(l & Hl & ->) _]|Hnew]; [| |done].
  - apply (list_elem_of_fmap_2 identity) in Hin. cbn in Hl. rewrite <- Hl in Hin.
    apply list_elem_of_fmap in Hin as (o' & [= _ E1 E2 E3] & Hin). exists p, o'. cbn. split_and!; try done; congruence.
  - destruct Hnew as (p' & u' & m & _ & _ & _ & _ & _ & _ & _ & _ & _ & (w & o' & v & _ & _ & _ & _ & _ & _ & ->) & _).
    exists p, o. cbn. split_and!; try done; apply elem_of_app; by left.
Qed.
Lemma sign_in_account i s a s' : owners (tables s) -> sign_in i s = (Ok a, s') ->
  account_of (tables s') (si_provider i) (si_subject i) (si_project i) (oauth_user a).
Proof.
  intros Ho Hr. pose proof Hr as [[Hs Hok]|Hnew]%sign_in_cases; [| |done].
  - eapply account_stays; [exact Ho|exact Hr|]. by destruct (Hok a eq_refl).
  - destruct Hnew as (p & u & m & Hp & _ & _ & _ & _ & _ & _ & Hpr & _ & (w & o & v & _ & Ho1 & Ho2 & Ho3 & _ & _ & ->) & Hok).
    destruct (Hok a eq_refl) as (-> & _). exists p, o. cbn. split_and!; try done; apply elem_of_app; right; by apply list_elem_of_singleton.
Qed.
Lemma later_sign_ins ins s pn subject project u j a rs s' :
  owners (tables s) -> account_of (tables s) pn subject project u -> sign_ins ins s = (rs, s') ->
  (exists i, ins !! j = Some i /\ si_subject i = subject /\ si_provider i = pn /\ si_project i = project) ->
  rs !! j = Some (Ok a) -> uuid (oauth_user a) = uuid u.
Proof.
  revert s j rs. induction ins as [|i ins IH]; intros s j rs Ho Hacc Hr (x & Hx & Hsub & Hpn & Hproj) Hj; [done|].
  cbn in Hr. destruct (sign_in i s) as [r s1] eqn:H1. destruct (sign_ins ins s1) as [rs1 s2] eqn:H2. injection Hr as <- <-.
  destruct j as [|j]; cbn in *.
  - simplify_eq. pose proof H1 as [[_ Hok]|Hnew]%sign_in_cases; [| |done].
    + destruct (Hok a eq_refl) as (_ & Huniq & _). symmetry. by apply Huniq.
    + destruct Hnew as (p & u' & m & _ & Hnone & _). by destruct (Hnone u).
  - apply (IH s1 j rs1); [by eapply sign_in_owners|by eapply account_stays|done|by exists x|done].
Qed.

(** A subject names one account.  In any sequence of sign-ins - any tokens, any
    e-mail addresses the provider reports, any failures - all that succeed for the
    same subject of the same provider in the same project reach the same account. *)
Theorem one_account_per_subject ins s rs s' i j x y a b :
  owners (tables s) -> sign_ins ins s = (rs, s') -> i <= j ->
  ins !! i = Some x -> ins !! j = Some y -> same_subject x y ->
  rs !! i = Some (Ok a) -> rs !! j = Some (Ok b) -> uuid (oauth_user a) = uuid (oauth_user b).
Proof.
  revert s i j rs. induction ins as [|z ins IH]; intros s i j rs Ho Hr Hij Hx Hy (E1 & E2 & E3) Ha Hb; [done|].
  cbn in Hr. destruct (sign_in z s) as [r s1] eqn:H1. destruct (sign_ins ins s1) as [rs1 s2] eqn:H2. injection Hr as <- <-.
  pose proof (sign_in_owners _ _ _ _ Ho H1) as [Ho1 _].
  destruct i as [|i], j as [|j]; cbn in *; simplify_eq; [done| |lia|].
  - symmetry. eapply (later_sign_ins ins s1 (si_provider x) (si_subject x) (si_project x) (oauth_user a) j); try done.
    + by apply (sign_in_account x s).
    + by exists y.
  - apply (IH s1 i j rs1); try done. lia.
Qed.
End users.

(** ** Witnesses *)
Section witnesses.
#[local] Existing Instances ToyCrypto.toy ToyCrypto.toy_laws.
#[local] Existing Instances ToyAccounts.toy_citext ToyAccounts.toy_uuid ToyAccounts.toy_accounts.
#[local] Existing Instances Tokens.ToyJwt.toy_jwt Tokens.ToyJwt.toy_url Tokens.ToyJwt.toy_audience.

Definition google : OAuthProvider := MkProvider 1 "google" "" "" "" 0 0.
Definition at_start : State := demo_state (set_oauth_providers [google] empty).
Definition first_time : SignIn :=
  MkSignIn 0 (MkOAuthDraws demo_draws (replicate 12 Byte.x0d)) (Some "a@b.c") "sub1" "google" "token" None 5 [].
(** The same subject under another address, with another token. *)
Definition second_time : SignIn :=
  MkSignIn 9 (MkOAuthDraws demo_draws (replicate 12 Byte.x0e)) (Some "other@b.c") "sub1" "google" "token2" None 5 [].
Definition both : list (outcome Api.ApiError AuthenticatedOAuthUser) * State := sign_ins key [first_time; second_time] at_start.
Definition nobody : AuthenticatedOAuthUser := MkAuthenticatedOAuth (MkUser 0 [] None None None 0 0 0) (Claims.context_new Claims.OAuth 0 []).
Definition signed_in (k : nat) : AuthenticatedOAuthUser :=
  match both.1 !! k with Some (Ok a) => a | _ => nobody end.

Lemma no_wrappings : owners (tables at_start).
Proof. intros w Hw. by apply elem_of_nil in Hw. Qed.

Lemma sign_in_by_subject_witness :
  opens key (oauth_user (signed_in 0)) (oauth_context (signed_in 0)) (tables (sign_in key first_time at_start).2).
Proof.
  apply (sign_in_by_subject key 0 (si_draws first_time) (Some "a@b.c") "sub1" "google" "token" None 5 at_start
    (Ok (signed_in 0)) (sign_in key first_time at_start).2).
  - exact no_wrappings.
  - vm_compute. reflexivity.
  - reflexivity.
Defined.

Lemma one_account_per_subject_witness : uuid (oauth_user (signed_in 0)) = uuid (oauth_user (signed_in 1)).
Proof.
  apply (one_account_per_subject key [first_time; second_time] at_start both.1 both.2 0 1 first_time second_time).
  - exact no_wrappings.
  - vm_compute. reflexivity.
  - lia.
  - reflexivity.
  - reflexivity.
  - repeat split.
  - vm_compute. reflexivity.
  - vm_compute. reflexivity.
Defined.
End witnesses.
End OAuthUsers.
