(* ===== verification/UserRoutes.v ===== *)
(** * The routes of a signed-in user

    The handlers of [src/src/web/protected_routes.rs] and the rest of those of
    [src/src/web/login_routes.rs], up to the encryption of their answers, behind
    the middleware.  The theorems say when an e-mail address counts as verified,
    that a request for a password reset tells nothing about the accounts, and that
    what a user encrypts can be decrypted again with the same key. *)

From S2P Require Import Prelude Text Crypto Api Encrypt SeedWrapping Claims Database Rows Accounts Credentials Frames Tokens UserKeys Kv ApiKeys OAuthUsers.

Module UserRoutes.
Import Db Accounts.

(** ** Requests and answers *)
Inductive LoginMethod := Email | Github | Google | Apple | Guest.
Record AppUser := MkAppUser {
  au_id : Uuid; au_name : option string; au_email : option string; email_verified : bool; login_method : LoginMethod;
  au_created_at : Z; au_updated_at : Z }.
Definition AppUser_from (u : User) : AppUser :=
  MkAppUser (uuid u) (name u) (email u) false (if Tokens.is_guest u then Guest else Email) (u_created_at u) (u_updated_at u).
Record ChangePasswordRequest := MkChange { cp_current_password : string; cp_new_password : string }.
Record InitiateAccountDeletionRequest := MkInitiate { id_hashed_secret : string }.
Record ConfirmAccountDeletionRequest := MkConfirm { cd_confirmation_code : string; cd_plaintext_secret : string }.
Record SignMessageRequest := MkSign {
  sm_message_base64 : string; sm_algorithm : UserKeys.SigningAlgorithm; sm_key_options : UserKeys.KeyOptions }.
Record SignMessageResponseJson := MkSignedJson { sj_signature : string; sj_message_hash : string }.
Record PublicKeyQuery := MkPublicKeyQuery { pq_algorithm : UserKeys.SigningAlgorithm; pq_key_options : UserKeys.KeyOptions }.
Record PublicKeyResponseJson := MkPublicKey { pk_public_key : string; pk_algorithm : UserKeys.SigningAlgorithm }.
Record EncryptDataRequest := MkEncrypt { ed_data : string; ed_key_options : UserKeys.KeyOptions }.
Record DecryptDataRequest := MkDecrypt { dd_encrypted_data : string; dd_key_options : UserKeys.KeyOptions }.
Record PasswordResetRequestPayload := MkResetRequest { rr_email : string; rr_hashed_secret : string; rr_client_id : Uuid }.
Record PasswordResetConfirmPayload := MkResetConfirm {
  rc_email : string; rc_alphanumeric_code : string; rc_plaintext_secret : string; rc_new_password : string; rc_client_id : Uuid }.
(** The [json!] objects with one text. *)
Inductive Note := Message (s : string) | ErrorNote (s : string).

(** Texts of keys and signatures of the secp256k1 crate. *)
Class KeyText `{Bip : UserKeys.Bip} := {
  xonly_public_key : Encrypt.SecretKey -> string;
  compressed_public_key : Encrypt.SecretKey -> string;
  signature_text : UserKeys.SignatureType -> string }.

Section routes.
Context {cr : Crypto} {ci : Citext} {ut : UuidText} {ad : AccountDeps} {ub : UrlBase64} {au : Claims.AudienceText} {jw : Tokens.Jwt}.
Context {bip : UserKeys.Bip} {kt : KeyText}.
Context (enclave_key : bytes) (projects : Uuid -> option Z) (project_secret : Z -> option bytes) (signing_key : Encrypt.SecretKey).
(** The client id of a project. *)
Context (project_client : Z -> option Uuid).
Abbreviation Route A := (ST State Api.ApiError A).
Definition internal_error {E A} (m : ST State E A) : Route A := st_map_err (fun _ => Api.InternalServerError) m.

(** ** The profile *)
Definition verified_status (u : User) : Route bool :=
  if Tokens.is_guest u then st_ok false
  else
    r ← st_try (get_email_verification_by_user_id (uuid u));
    match r with
    | Ok verification => st_ok (is_verified verification)
    | Err Db.EmailVerificationNotFound => st_ok false
    | Err _ => st_err Api.InternalServerError
    | Panic => st_lift Panic
    end.
Definition provider_login_method (provider_name : string) : outcome Api.ApiError LoginMethod :=
  if decide (provider_name = "github") then Ok Github
  else if decide (provider_name = "google") then Ok Google
  else if decide (provider_name = "apple") then Ok Apple
  else Err Api.InternalServerError.
Definition login_method_of (u : User) : Route LoginMethod :=
  if bool_decide (password_enc u = None) then
    connections ← internal_error (get_all_user_oauth_connections_for_user (uuid u));
    match head connections with
    | Some connection =>
        provider ← internal_error (get_oauth_provider_by_id (provider_id connection));
        provider ← st_lift (ok_or Api.InternalServerError provider);
        st_lift (provider_login_method (op_name provider))
    | None => st_ok (login_method (AppUser_from u))
    end
  else st_ok (login_method (AppUser_from u)).
Definition user_protected (u : User) : Route AppUser :=
  let app_user := AppUser_from u in
  verified ← verified_status u;
  method ← login_method_of u;
  st_ok (MkAppUser (au_id app_user) (au_name app_user) (au_email app_user) verified method
           (au_created_at app_user) (au_updated_at app_user)).

(** ** The key-value store *)
Definition get_kv (u : User) (ctx : Claims.AuthContext) (key : string) : Route (option string) :=
  internal_error (Kv.app_get enclave_key u ctx key).
Definition put_kv (now : Z) (nonce : bytes) (u : User) (ctx : Claims.AuthContext) (key value : string) : Route string :=
  _ ← internal_error (Kv.app_put enclave_key now nonce u ctx key value);
  st_ok value.
Definition delete_kv (u : User) (ctx : Claims.AuthContext) (key : string) : Route Note :=
  _ ← internal_error (Kv.app_delete enclave_key u ctx key);
  st_ok (Message "Resource deleted successfully").
Definition delete_all_kv (u : User) : Route Note :=
  _ ← internal_error (Kv.app_delete_all (uuid u));
  st_ok (Message "All key-value pairs deleted successfully").
Definition list_kv (u : User) (ctx : Claims.AuthContext) : Route (list Kv.KVPair) :=
  internal_error (Kv.app_list enclave_key u ctx).

(** ** Verification of the e-mail address *)
(** [code]: the drawn identifier; [sent]: whether the e-mail could be sent. *)
Definition request_new_verification_code (now : Z) (code : Uuid) (sent : bool) (u : User) : Route Note :=
  match email u with
  | None => st_ok (ErrorNote "No email associated with account")
  | Some _ =>
      let create : Route Note :=
        _ ← internal_error (create_email_verification now (verification_new now (uuid u) code 24 false));
        if sent then st_ok (Message "New verification code sent successfully") else st_err Api.InternalServerError in
      r ← st_try (get_email_verification_by_user_id (uuid u));
      match r with
      | Ok verification =>
          if is_verified verification then st_ok (ErrorNote "User is already verified")
          else
            _ ← internal_error (delete_email_verification verification);
            create
      | Err Db.EmailVerificationNotFound => create
      | Err _ => st_err Api.InternalServerError
      | Panic => st_lift Panic
      end
  end.

Definition verify_email (now : Z) (code : Uuid) : Route Note :=
  r ← st_try (get_email_verification_by_code code);
  match r with
  | Ok verification =>
      if verification_is_expired now verification then st_err Api.BadRequest
      else if is_verified verification then st_ok (Message "Email already verified")
      else
        _ ← internal_error (Db.verify_email now verification);
        st_ok (Message "Email verified successfully")
  | Err Db.EmailVerificationNotFound => st_err Api.BadRequest
  | Err _ => st_err Api.InternalServerError
  | Panic => st_lift Panic
  end.

(** ** Passwords *)
Definition reset_answer : Note := Message "If an account with that email exists, we have sent a password reset link.".
Definition password_reset_request (now : Z) (d : Draws) (payload : PasswordResetRequestPayload) : Route Note :=
  project ← st_map_err (fun _ => Api.BadRequest) (get_org_project_by_client_id projects (rr_client_id payload));
  r ← st_try (get_user_by_email (rr_email payload) project);
  match r with
  | Ok u =>
      if bool_decide (password_enc u = None) then st_ok reset_answer
      else
        r ← st_try (create_password_reset_request enclave_key now d (rr_email payload) (rr_hashed_secret payload) project);
        match r with Panic => st_lift Panic | _ => st_ok reset_answer end
  | Err Db.UserNotFound => st_ok reset_answer
  | Err _ => st_err Api.InternalServerError
  | Panic => st_lift Panic
  end.
Definition reset_error (e : Error) : Api.ApiError :=
  match e with
  | PasswordResetExpired | InvalidPasswordResetSecret | InvalidPasswordResetRequest => Api.BadRequest
  | _ => Api.InternalServerError
  end.
Definition password_reset_confirm (now : Z) (d : Draws) (payload : PasswordResetConfirmPayload) : Route Note :=
  project ← st_map_err (fun _ => Api.BadRequest) (get_org_project_by_client_id projects (rc_client_id payload));
  r ← st_try (get_user_by_email (rc_email payload) project);
  match r with
  | Ok u =>
      if bool_decide (password_enc u = None) then st_err Api.InvalidUsernameOrPassword
      else
        _ ← st_map_err reset_error (confirm_password_reset enclave_key now d (rc_email payload) (rc_alphanumeric_code payload)
              (rc_plaintext_secret payload) (rc_new_password payload) project);
        st_ok (Message "Password reset successful. You can now log in with your new password.")
  | Err Db.UserNotFound => st_err Api.InvalidUsernameOrPassword
  | Err _ => st_err Api.InternalServerError
  | Panic => st_lift Panic
  end.
(** The token is dropped; nothing is stored about it. *)
Definition logout (token : string) : Route Note := st_ok (Message "Logged out successfully").

(** ** Keys *)
Definition key_error (e : Error) : Api.ApiError :=
  match e with InvalidDerivationPath | KeyDerivationError => Api.BadRequest | _ => Api.InternalServerError end.
Definition key_for (u : User) (ctx : Claims.AuthContext) (o : UserKeys.KeyOptions) : ST State Error Encrypt.SecretKey :=
  UserKeys.get_user_key enclave_key u ctx (UserKeys.private_key_derivation_path o) (UserKeys.seed_phrase_derivation_path o).
Definition sign_message (random_bytes : bytes) (u : User) (ctx : Claims.AuthContext) (r : SignMessageRequest)
    : Route SignMessageResponseJson :=
  _ ← st_lift (UserKeys.validate (sm_key_options r));
  message_bytes ← st_lift (ok_or Api.BadRequest (base64_decode (sm_message_base64 r)));
  response ← internal_error (UserKeys.sign_message enclave_key random_bytes u ctx message_bytes (sm_algorithm r)
    (UserKeys.private_key_derivation_path (sm_key_options r)) (UserKeys.seed_phrase_derivation_path (sm_key_options r)));
  st_ok (MkSignedJson (signature_text (UserKeys.sig response)) (hex (UserKeys.message_hash response))).
Definition get_public_key (u : User) (ctx : Claims.AuthContext) (q : PublicKeyQuery) : Route PublicKeyResponseJson :=
  _ ← st_lift (UserKeys.validate (pq_key_options q));
  user_secret_key ← internal_error (key_for u ctx (pq_key_options q));
  let public_key_str := match pq_algorithm q with
                        | UserKeys.Schnorr => xonly_public_key user_secret_key
                        | UserKeys.Ecdsa => compressed_public_key user_secret_key
                        end in
  st_ok (MkPublicKey public_key_str (pq_algorithm q)).

Definition valid_audience (audience : option string) : bool :=
  match audience with
  | Some a => negb (is_empty a || contains_str ":" a && negb (Claims.url_parses a))
  | None => true
  end.
Definition generate_third_party_token (now : Z) (u : User) (audience : option string) : Route string :=
  if negb (valid_audience audience) then st_err Api.BadRequest
  else
    client ← internal_error (_ ← connection; p ← st_map_err QueryError (select (fun _ => project_client (project_id u)));
                             st_lift (found OrgProjectNotFound p));
    Tokens.new enclave_key projects project_secret signing_key now u (Claims.ThirdParty audience (uuid_to_string client)).

(** ** A user's own data *)
Definition encrypt_data (nonce : bytes) (u : User) (ctx : Claims.AuthContext) (r : EncryptDataRequest) : Route string :=
  _ ← st_lift (UserKeys.validate (ed_key_options r));
  user_key ← st_map_err key_error (key_for u ctx (ed_key_options r));
  encrypted_data ← st_lift (lift (Encrypt.encrypt_with_key nonce user_key (as_bytes (ed_data r))));
  st_ok (base64_encode encrypted_data).
Definition decrypt_data (u : User) (ctx : Claims.AuthContext) (r : DecryptDataRequest) : Route string :=
  _ ← st_lift (UserKeys.validate (dd_key_options r));
  user_key ← st_map_err key_error (key_for u ctx (dd_key_options r));
  encrypted_data ← st_lift (ok_or Api.BadRequest (base64_decode (dd_encrypted_data r)));
  decrypted_data ← st_lift (map_err (fun _ => Api.BadRequest) (Encrypt.decrypt_with_key user_key encrypted_data));
  st_lift (ok_or Api.BadRequest (from_utf8 decrypted_data)).

(** ** Deleting the account *)
Definition initiate_account_deletion (now : Z) (d : Draws) (u : User) (r : InitiateAccountDeletionRequest) : Route Note :=
  _ ← internal_error (create_account_deletion_request enclave_key now d (uuid u) (id_hashed_secret r) (project_id u));
  st_ok (Message "We have sent a confirmation code to your email.").
Definition deletion_error (e : Error) : Api.ApiError :=
  match e with
  | AccountDeletionExpired | InvalidAccountDeletionSecret | InvalidAccountDeletionRequest => Api.BadRequest
  | _ => Api.InternalServerError
  end.
Definition confirm_account_deletion (now : Z) (u : User) (r : ConfirmAccountDeletionRequest) : Route Note :=
  _ ← st_map_err deletion_error
    (Accounts.confirm_account_deletion enclave_key now (uuid u) (cd_confirmation_code r) (cd_plaintext_secret r));
  st_ok (Message "Your account has been successfully deleted.").

(** ** One request *)
Inductive UserOp :=
  | GetProfile | GetKv (key : string) | PutKv (nonce : bytes) (key value : string) | DeleteKv (key : string) | DeleteAllKv | ListKv
  | RequestVerification (code : Uuid) (sent : bool)
  | ChangePassword (d : Draws) (r : ChangePasswordRequest)
  | GetPrivateKey (q : UserKeys.KeyOptions) | GetPrivateKeyBytes (q : UserKeys.KeyOptions)
  | SignMessage (random_bytes : bytes) (r : SignMessageRequest) | GetPublicKey (q : PublicKeyQuery)
  | ThirdPartyToken (audience : option string)
  | EncryptData (nonce : bytes) (r : EncryptDataRequest) | DecryptData (r : DecryptDataRequest)
  | InitiateDeletion (d : Draws) (r : InitiateAccountDeletionRequest) | ConfirmDeletion (r : ConfirmAccountDeletionRequest)
  | CreateApiKey (random_bytes : bytes) (key_name : string) | ListApiKeys | DeleteApiKey (key_name : string).
(** [OAuthSignIn]: what the callbacks do with the accounts. *)
Inductive PublicOp :=
  | Register (d : Draws) (creds : RegisterCredentials) | Login (creds : Tokens.Credentials)
  | Refresh (token : string) | Logout (token : string) | VerifyEmail (code : Uuid)
  | ResetRequest (d : Draws) (r : PasswordResetRequestPayload) | ResetConfirm (d : Draws) (r : PasswordResetConfirmPayload)
  | OAuthSignIn (d : OAuthUsers.OAuthDraws) (mail : option string) (subject provider token : string) (user_name : option string)
      (project : Z).
Inductive Request := Authenticated (header : option string) (op : UserOp) | Public (op : PublicOp).
Inductive Answer :=
  | AUser (u : AppUser) | AValue (v : option string) | AText (s : string) | APairs (l : list Kv.KVPair) | ANote (n : Note)
  | ATokens (access refresh : string) | AAuth (a : Tokens.AuthResponse) | ARefresh (a : Tokens.RefreshResponse)
  | ASigned (a : SignMessageResponseJson) | APublicKey (a : PublicKeyResponseJson)
  | ACreatedKey (a : ApiKeys.CreateApiKeyResponse) | AKeys (a : ApiKeys.ListApiKeysResponse) | ADone
  | AOAuth (a : OAuthUsers.OAuthCallbackResponse).
Definition answer {A} (f : A -> Answer) (m : Route A) : Route Answer := a ← m; st_ok (f a).

Definition serve_user (now : Z) (op : UserOp) (ctx : Claims.AuthContext) (u : User) : Route Answer :=
  match op with
  | GetProfile => answer AUser (user_protected u)
  | GetKv key => answer AValue (get_kv u ctx key)
  | PutKv nonce key value => answer AText (put_kv now nonce u ctx key value)
  | DeleteKv key => answer ANote (delete_kv u ctx key)
  | DeleteAllKv => answer ANote (delete_all_kv u)
  | ListKv => answer APairs (list_kv u ctx)
  | RequestVerification code sent => answer ANote (request_new_verification_code now code sent u)
  | ChangePassword d r => answer (fun t => ATokens t.1 t.2)
      (Tokens.change_password enclave_key signing_key now d u ctx (cp_current_password r) (cp_new_password r))
  | GetPrivateKey q => answer AText (UserKeys.get_private_key enclave_key u ctx q)
  | GetPrivateKeyBytes q => answer AText (UserKeys.get_private_key_bytes enclave_key u ctx q)
  | SignMessage random_bytes r => answer ASigned (sign_message random_bytes u ctx r)
  | GetPublicKey q => answer APublicKey (get_public_key u ctx q)
  | ThirdPartyToken audience => answer AText (generate_third_party_token now u audience)
  | EncryptData nonce r => answer AText (encrypt_data nonce u ctx r)
  | DecryptData r => answer AText (decrypt_data u ctx r)
  | InitiateDeletion d r => answer ANote (initiate_account_deletion now d u r)
  | ConfirmDeletion r => answer ANote (confirm_account_deletion now u r)
  | CreateApiKey random_bytes key_name => answer ACreatedKey (ApiKeys.create_api_key now random_bytes u key_name)
  | ListApiKeys => answer AKeys (ApiKeys.list_api_keys u)
  | DeleteApiKey key_name => answer (fun _ => ADone) (ApiKeys.delete_api_key key_name u)
  end.
Definition oauth_sign_in (now : Z) (d : OAuthUsers.OAuthDraws) (mail : option string) (subject provider token : string)
    (user_name : option string) (project : Z) : Route OAuthUsers.OAuthCallbackResponse :=
  a ← OAuthUsers.find_or_create_user_from_oauth enclave_key now d mail subject provider token user_name project;
  st_lift (OAuthUsers.oauth_callback_response signing_key now a).
Definition serve_public (now : Z) (op : PublicOp) : Route Answer :=
  match op with
  | Register d creds => answer AAuth (Tokens.register enclave_key projects signing_key now d creds)
  | Login creds => answer AAuth (Tokens.login_internal enclave_key projects signing_key now creds)
  | Refresh token => answer ARefresh (Tokens.refresh_token enclave_key signing_key now token)
  | Logout token => answer ANote (logout token)
  | VerifyEmail code => answer ANote (verify_email now code)
  | ResetRequest d r => answer ANote (password_reset_request now d r)
  | ResetConfirm d r => answer ANote (password_reset_confirm now d r)
  | OAuthSignIn d mail subject provider token user_name project =>
      answer AOAuth (oauth_sign_in now d mail subject provider token user_name project)
  end.
(** The middleware lets the owner of the token through. *)
Definition serve (now : Z) (q : Request) : Route Answer :=
  match q with
  | Authenticated header op =>
      '(ctx, u) ← Tokens.validate_jwt enclave_key signing_key now header;
      serve_user now op ctx u
  | Public op => serve_public now op
  end.

(** ** Who adds a row to the verifications *)
Import Frames.
Definition grew (P : EmailVerification -> Prop) (t t' : Tables) : Prop :=
  forall v, v ∈ email_verifications t' -> v ∈ email_verifications t \/ P v.
#[local] Instance grew_preorder P : PreOrder (grew P).
Proof. split; [by left|]. intros t1 t2 t3 H1 H2 v [Hv|?]%H2; [by apply H1|by right]. Qed.
Definition nothing (v : EmailVerification) : Prop := False.
Abbreviation quiet := (within (grew nothing)).
Lemma grew_same P t t' : email_verifications t' = email_verifications t -> grew P t t'.
Proof. intros He v. rewrite He. by left. Qed.
Lemma quiet_within P {E A} (m : ST State E A) : quiet m -> within (grew P) m.
Proof. apply within_mono. intros t t' Ht v [?|[]]%Ht. by left. Qed.
Lemma grew_delete P p t t' : email_verifications t' = delete_rows p (email_verifications t) -> grew P t t'.
Proof. intros He v. rewrite He. unfold delete_rows. intros [_ Hv]%list_elem_of_filter. by left. Qed.

Ltac reading_users :=
  first [ apply Credentials.reads_decrypt | apply OAuthUsers.reads_verify | apply Credentials.reads_authenticate
        | apply Credentials.reads_get_by_uuid | apply Credentials.reads_get_by_email | apply OAuthUsers.reads_authenticated ].
Ltac quietly :=
  walk_all ltac:(fail) reading_users ltac:(first [by apply grew_same|by eapply grew_delete|done|by left]).
Lemma user_quiet now op ctx u : (forall c b, op <> RequestVerification c b) -> quiet (serve_user now op ctx u).
Proof. intros Hop. destruct op; try (by destruct (Hop code sent)); cbn [serve_user]; quietly. Qed.

(** A fresh row with the code, good for a day. *)
Definition fresh (now : Z) (user code : Uuid) (v : EmailVerification) : Prop :=
  v_user_id v = user /\ verification_code v = code /\ is_verified v = false /\ v_expires_at v = (now + hours 24)%Z.
Lemma insert_grows now user code :
  within (grew (fresh now user code)) (verification_insert now (verification_new now user code 24 false)).
Proof.
  apply within_statement; [apply _|]. intros ? ? ? ? [_ He]%Credentials.references_Ok. injection He as _ <-.
  intros v [?| ->%list_elem_of_singleton]%elem_of_app; [by left|by right].
Qed.
Lemma request_grows now code sent u : within (grew (fresh now (uuid u) code)) (request_new_verification_code now code sent u).
Proof.
  unfold request_new_verification_code, internal_error. cbv zeta.
  repeat first [apply insert_grows|progress walk|solve [apply quiet_within; quietly]].
Qed.
Lemma register_user_quiet now d creds : quiet (register_user enclave_key projects now d creds).
Proof. quietly. Qed.
Lemma register_grows now d creds s r s' : Tokens.register enclave_key projects signing_key now d creds s = (r, s') ->
  forall v, v ∈ email_verifications (tables s') -> v ∈ email_verifications (tables s) \/
    exists u s1, register_user enclave_key projects now d creds s = (Ok u, s1) /\ fresh now (uuid u) (verification_uuid d) v.
Proof.
  intros (r1 & s1 & (r0 & H0 & ->)%st_map_err_inv & Hr)%bind_cases v Hv. pose proof (register_user_quiet _ _ _ _ _ _ H0) as Hq.
  destruct r0 as [u|e|]; [|destruct Hr as [_ ->]; apply Hq in Hv as [?|[]]; by left..]. cbn in Hr.
  match type of Hr with ?m s1 = _ => assert (within (grew (fresh now (uuid u) (verification_uuid d))) m) as Hm end.
  { unfold Tokens.handle_new_user_registration. repeat first [apply insert_grows|progress walk|solve [apply quiet_within; quietly]]. }
  apply Hm in Hr. apply Hr in Hv as [[?|[]]%Hq|?]; [by left|right]. by exists u, s1.
Qed.
Lemma public_quiet now op :
  match op with Register _ _ | VerifyEmail _ | OAuthSignIn _ _ _ _ _ _ _ => True | _ => quiet (serve_public now op) end.
Proof. destruct op; try done; cbn [serve_public]; quietly. Qed.

(** An OAuth sign-in adds a row for an account that it opens. *)
Definition opened (t t' : Tables) : Prop :=
  (forall v, v ∈ email_verifications t' -> v ∈ email_verifications t \/ Credentials.no_user (v_user_id v) t) /\
  (forall u, u ∈ users t -> exists u', u' ∈ users t' /\ uuid u' = uuid u).
#[local] Instance opened_preorder : PreOrder opened.
Proof.
  split; [split; eauto|]. intros t1 t2 t3 [V1 U1] [V2 U2]. split.
  - intros v [Hv|Hv]%V2; [by apply V1|right]. intros u (u' & Hu' & <-)%U1. by apply Hv.
  - intros u (u' & Hu' & <-)%U1. by apply U2.
Qed.
Lemma opened_same t t' : email_verifications t' = email_verifications t -> users t' = users t -> opened t t'.
Proof. intros Hv Hu. unfold opened. rewrite Hv, Hu. split; eauto. Qed.
(** The rows of one account are added. *)
Definition adds_for (id : Uuid) (t t' : Tables) : Prop :=
  users t' = users t /\ forall v, v ∈ email_verifications t' -> v ∈ email_verifications t \/ v_user_id v = id.
#[local] Instance adds_for_preorder id : PreOrder (adds_for id).
Proof. split; [split; [done|by left]|]. intros t1 t2 t3 [U1 V1] [U2 V2]. split; [congruence|]. intros v [?|?]%V2; [by apply V1|by right]. Qed.
Lemma adds_same id t t' : users t' = users t -> email_verifications t' = email_verifications t -> adds_for id t t'.
Proof. intros Hu Hv. split; [done|]. rewrite Hv. by left. Qed.
Lemma adds_verification id t v :
  v_user_id v = id -> adds_for id t (set_email_verifications (email_verifications t ++ [v]) t).
Proof. intros Hv. split; [done|]. intros v' [?| ->%list_elem_of_singleton]%elem_of_app; [by left|by right]. Qed.

Lemma oauth_account_opened now d n p pn pu token seed :
  within opened (create_user_with_oauth_seed_wrap enclave_key now d n p pn pu token seed).
Proof.
  intros s r s' [(u & s1 & s2 & -> & Ht1 & Hb & Ht2)|[_ ->]]%Credentials.call_inv; [|done|apply Credentials.reads_pool].
  apply ST_bind_Ok in Hb as (u' & s3 & (Hno & Hu & Htu)%st_map_err_Ok%Credentials.user_insert_Ok & Hb).
  rewrite Ht1 in Hno, Htu.
  match type of Hb with ?m s3 = _ => assert (within (adds_for (uuid u')) m) as Hm end.
  { walk_all ltac:(fail) reading_users ltac:(first [by apply adds_same|by apply adds_verification]). }
  destruct (Hm _ _ _ Hb) as [Hus Hvs]. rewrite Ht2. split.
  - intros v [Hv|Hv]%Hvs; [rewrite Htu in Hv; by left|right]. by rewrite Hv, Hu.
  - intros w Hw. exists w. rewrite Hus, Htu. split; [|done]. apply elem_of_app. by left.
Qed.
#[local] Opaque create_user_with_oauth_seed_wrap.
Lemma sign_in_opens now d mail subject pn token un project :
  within opened (oauth_sign_in now d mail subject pn token un project).
Proof.
  walk_all ltac:(apply oauth_account_opened) reading_users ltac:(by apply opened_same).
Qed.
#[local] Transparent create_user_with_oauth_seed_wrap.

(** ** Where the verified rows come from *)
(** The request gives the user the code. *)
Definition issues (now : Z) (q : Request) (s : State) (user code : Uuid) : Prop :=
  match q with
  | Authenticated header (RequestVerification c _) => c = code /\
      exists ctx u s1, Tokens.validate_jwt enclave_key signing_key now header s = (Ok (ctx, u), s1) /\ uuid u = user
  | Public (Register d creds) => verification_uuid d = code /\
      exists u s1, register_user enclave_key projects now d creds s = (Ok u, s1) /\ uuid u = user
  | _ => False
  end.
(** The request brings the code of the row back in time. *)
Definition same_row (v0 v : EmailVerification) : Prop :=
  v_user_id v = v_user_id v0 /\ verification_code v = verification_code v0 /\ v_expires_at v = v_expires_at v0.
Definition confirms (now : Z) (q : Request) (v : EmailVerification) : Prop :=
  q = Public (VerifyEmail (verification_code v)) /\ (now <= v_expires_at v)%Z.
(** The request signs a subject in whose account did not exist. *)
Definition opens_account (q : Request) (s : State) (user : Uuid) : Prop :=
  Credentials.no_user user (tables s) /\
  exists d mail subject provider token un project, q = Public (OAuthSignIn d mail subject provider token un project).

Lemma verify_email_rows now code s r s' : verify_email now code s = (r, s') ->
  forall v, v ∈ email_verifications (tables s') -> v ∈ email_verifications (tables s) \/
    exists v0, v0 ∈ email_verifications (tables s) /\ same_row v0 v /\ verification_code v0 = code /\ (now <= v_expires_at v0)%Z.
Proof.
  intros (r1 & s1 & H1 & Hr)%bind_cases v Hv. unfold st_try in H1.
  destruct (get_email_verification_by_code code s) as [r0 s0] eqn:H0.
  assert (tables s0 = tables s) as Ht0.
  { eapply (reads_bind connection), H0; [apply reads_connection|]. intros ?. apply reads_bind; [apply reads_map_err, reads_select|intros ?; apply reads_lift]. }
  destruct r0 as [v0|e|]; injection H1 as <- <-; [| |destruct Hr as [_ ->]; left; by rewrite <- Ht0].
  2: { left. assert (s' = s0) as -> by (destruct e; by injection Hr). by rewrite <- Ht0. }
  apply ST_bind_Ok in H0 as ([] & s2 & H2%reads_connection & (o & s3 & (-> & _)%st_map_err_Ok%select_Ok & [Hf _]%st_lift_inv)%ST_bind_Ok).
  symmetry in Hf. apply ok_or_Ok, first_Some in Hf as [Hc%bool_decide_eq_true Hin]. rewrite H2 in Hin.
  destruct (verification_is_expired now v0) eqn:Hexp; [injection Hr as _ <-; left; by rewrite <- Ht0|].
  apply bool_decide_eq_false in Hexp. destruct (is_verified v0); [injection Hr as _ <-; left; by rewrite <- Ht0|].
  match type of Hr with ?m s0 = _ => assert (within (grew (same_row v0)) m) as Hm end.
  { walk_all ltac:(fail) reading_users ltac:(try (by apply grew_same)).
    intros w. cbn. unfold update_rows. rewrite list_elem_of_fmap. intros (w0 & -> & Hw0). case_match; [right; by split_and!|by left]. }
  apply Hm in Hr. apply Hr in Hv as [Hv|Hv]; [left; by rewrite <- Ht0|right]. exists v0. split_and!; try done. lia.
Qed.

Lemma answer_state {A} (f : A -> Answer) (m : Route A) s r s' : answer f m s = (r, s') -> exists r0, m s = (r0, s').
Proof. intros (r0 & s0 & H0 & Hr)%bind_cases. exists r0. destruct r0; [by injection Hr as _ <-|by destruct Hr as [_ ->]..]. Qed.
Lemma serve_rows now q s r s' : serve now q s = (r, s') ->
  forall v, v ∈ email_verifications (tables s') ->
    v ∈ email_verifications (tables s) \/
    (exists user code, issues now q s user code /\ fresh now user code v) \/
    (exists v0, v0 ∈ email_verifications (tables s) /\ same_row v0 v /\ confirms now q v0) \/
    opens_account q s (v_user_id v).
Proof.
  intros Hr v Hv. destruct q as [header op|op].
  - apply bind_cases in Hr as (r1 & s1 & H1 & Hr).
    assert (quiet (Tokens.validate_jwt enclave_key signing_key now header)) as Hq by quietly.
    pose proof (Hq _ _ _ H1) as Hq1. destruct r1 as [[ctx u]|e|]; [|destruct Hr as [_ ->]; apply Hq1 in Hv as [?|[]]; by left..].
    assert ((exists c b, op = RequestVerification c b) \/ forall c b, op <> RequestVerification c b) as [(c & b & ->)|Hne]
      by (destruct op; eauto).
    + apply answer_state in Hr as (r2 & H2%request_grows). apply H2 in Hv as [[?|[]]%Hq1|Hf]; [by left|]. right. left. exists (uuid u), c. split; [|done].
      split; [done|]. by exists ctx, u, s1.
    + apply user_quiet in Hr; [|done]. left. apply Hr in Hv as [[?|[]]%Hq1|[]]. done.
  - pose proof (public_quiet now op) as Hq. destruct op; try (apply Hq in Hr; apply Hr in Hv as [?|[]]; by left); clear Hq.
    + apply answer_state in Hr as (r0 & H0). apply (register_grows _ _ _ _ _ _ H0) in Hv as [?|(u & s1 & Hu & Hf)]; [by left|].
      right. left. exists (uuid u), (verification_uuid d). split; [|done]. split; [done|]. by exists u, s1.
    + apply answer_state in Hr as (r0 & H0). apply (verify_email_rows _ _ _ _ _ H0) in Hv as [?|(v0 & Hin & Hrow & <- & Ht)]; [by left|].
      right. right. left. exists v0. by split_and!.
    + apply answer_state in Hr as (r0 & H0). apply sign_in_opens in H0 as [Hvs _]. apply Hvs in Hv as [?|Hno]; [by left|].
      right. right. right. split; [done|]. by exists d, mail, subject, provider, token, user_name, project.
Qed.

(** ** A sequence of requests *)
Definition after (qs : list (Z * Request)) (s : State) : State := foldl (fun s q => (serve q.1 q.2 s).2) s qs.
(** Some request gave the user the code at time [t], before the request [j]. *)
Definition issued_before (qs : list (Z * Request)) (s : State) (j : nat) (user code : Uuid) (t : Z) : Prop :=
  exists i q, i < j /\ qs !! i = Some (t, q) /\ issues t q (after (take i qs) s) user code.
Definition confirmed (qs : list (Z * Request)) (s : State) (user code : Uuid) : Prop :=
  exists j t t', issued_before qs s j user code t /\ qs !! j = Some (t', Public (VerifyEmail code)) /\ (t' <= t + hours 24)%Z.
Definition opened_by_oauth (qs : list (Z * Request)) (s : State) (user : Uuid) : Prop :=
  exists j t q, qs !! j = Some (t, q) /\ opens_account q (after (take j qs) s) user.

Lemma issued_snoc qs q s j user code t : issued_before qs s j user code t -> issued_before (qs ++ [q]) s j user code t.
Proof.
  intros (i & x & Hij & Hi & Hx). exists i, x. split; [done|]. split; [by apply lookup_app_l_Some|].
  rewrite take_app_le; [done|]. apply lookup_lt_Some in Hi. lia.
Qed.
Lemma confirmed_snoc qs q s user code : confirmed qs s user code -> confirmed (qs ++ [q]) s user code.
Proof.
  intros (j & t & t' & Hi & Hj & Ht). exists j, t, t'. split_and!; [by apply issued_snoc|by apply lookup_app_l_Some|done].
Qed.
Lemma oauth_snoc qs q s user : opened_by_oauth qs s user -> opened_by_oauth (qs ++ [q]) s user.
Proof.
  intros (j & t & x & Hj & Hx). exists j, t, x. split; [by apply lookup_app_l_Some|].
  rewrite take_app_le; [done|]. apply lookup_lt_Some in Hj. lia.
Qed.

(** Every row was issued to its user, or came with an account opened by OAuth. *)
Lemma rows_accounted qs s : email_verifications (tables s) = [] ->
  forall v, v ∈ email_verifications (tables (after qs s)) ->
    opened_by_oauth qs s (v_user_id v) \/
    exists t, issued_before qs s (length qs) (v_user_id v) (verification_code v) t /\ v_expires_at v = (t + hours 24)%Z /\
      (is_verified v = true -> confirmed qs s (v_user_id v) (verification_code v)).
Proof.
  intros He. induction qs as [|[t q] qs IH] using rev_ind; intros v Hv.
  { cbn in Hv. rewrite He in Hv. by apply elem_of_nil in Hv. }
  unfold after in Hv. rewrite foldl_snoc in Hv. fold (after qs s) in Hv. cbn [fst snd] in Hv.
  destruct (serve t q (after qs s)) as [r s'] eqn:Hr. cbn [snd] in Hv. rewrite length_app. cbn [length].
  assert (Hnow : (qs ++ [(t, q)]) !! length qs = Some (t, q)) by (apply list_lookup_middle; done).
  assert (Htake : take (length qs) (qs ++ [(t, q)]) = qs) by (rewrite take_app_length; done).
  assert (forall u c x, issued_before qs s (length qs) u c x -> issued_before (qs ++ [(t, q)]) s (length qs + 1) u c x) as Hmono.
  { intros u c x (i & y & Hlt & Hi & Hy)%(issued_snoc _ (t, q)). exists i, y. split_and!; [lia|done|done]. }
  destruct (serve_rows _ _ _ _ _ Hr v Hv) as [Hold|[(user & code & Hiss & Hu & Hc & Hver & Hexp)|[(v0 & Hv0 & (Eu & Ec & Ee) & Hq & Ht)|Hop]]].
  - destruct (IH v Hold) as [?|(t0 & H1 & H2 & H3)]; [left; by apply oauth_snoc|right]. exists t0. split_and!; [by apply Hmono|done|].
    intros Hv'. by apply confirmed_snoc, H3.
  - right. exists t. subst user code. split_and!; [|done|congruence]. exists (length qs), q. split_and!; [lia|done|]. by rewrite Htake.
  - rewrite Eu, Ec, Ee. destruct (IH v0 Hv0) as [?|(t0 & H1 & H2 & _)]; [left; by apply oauth_snoc|right].
    exists t0. split_and!; [by apply Hmono|done|]. intros _. exists (length qs), t0, t. split_and!; [by apply issued_snoc| |lia].
    by rewrite Hnow, Hq.
  - left. exists (length qs), t, q. split; [done|]. by rewrite Htake.
Qed.

Lemma verified_status_true u s s' : verified_status u s = (Ok true, s') ->
  exists v, v ∈ email_verifications (tables s) /\ v_user_id v = uuid u /\ is_verified v = true.
Proof.
  unfold verified_status. destruct (Tokens.is_guest u); [done|]. intros (r & s1 & H1%Credentials.st_try_Ok & Hr)%ST_bind_Ok.
  destruct r as [v|e|]; [|by destruct e|done]. injection Hr as Hver _.
  apply ST_bind_Ok in H1 as ([] & s2 & H2%reads_connection & (o & s3 & (-> & _)%st_map_err_Ok%select_Ok & [Hf _]%st_lift_inv)%ST_bind_Ok).
  symmetry in Hf. apply ok_or_Ok, first_Some in Hf as [Hc%bool_decide_eq_true Hin]. rewrite H2 in Hin. by exists v.
Qed.

(** C14. An address counts as verified only for who proved it.  In any sequence of
    requests, with any failures, starting without verifications: when the profile
    of a user says that the address is verified, either the account was opened by
    an OAuth sign-in, or some request issued a code to this very user - the
    registration, or a request with this user's token - and a later request
    brought back that code at most a day after it was issued. *)
Theorem verified_address_was_proved qs s u p s' :
  email_verifications (tables s) = [] ->
  user_protected u (after qs s) = (Ok p, s') -> email_verified p = true ->
  opened_by_oauth qs s (uuid u) \/ exists code, confirmed qs s (uuid u) code.
Proof.
  intros He (verified & s1 & Hv & (m & s2 & _ & [= <- _])%ST_bind_Ok)%ST_bind_Ok Hp. cbn in Hp. subst verified.
  apply verified_status_true in Hv as (v & Hin & <- & Hver).
  destruct (rows_accounted qs s He v Hin) as [?|(t & _ & _ & Hc)]; [by left|right]. exists (verification_code v). by apply Hc.
Qed.

(** ** Asking for a password reset *)
Lemma append_runs tag value self : (Z.of_nat (length value) <= u32_max)%Z -> exists self', Encrypt.append_field tag value self = Ok self'.
Proof. intros Hf. eexists. by apply Encrypt.append_field_Ok. Qed.
Lemma mac_runs root project user code :
  length user = 16 -> (Z.of_nat (length (as_bytes code)) <= u32_max)%Z ->
  SeedWrap.password_reset_code_mac root project user code <> Panic.
Proof.
  intros Hu Hc. unfold SeedWrap.password_reset_code_mac, Encrypt.canonical_new, Encrypt.append_str, Encrypt.append_i32, Encrypt.append_uuid.
  destruct (append_runs Byte.x73 (as_bytes SeedWrap.PASSWORD_RESET_CODE_DOMAIN) Encrypt.canonical_default) as [f1 ->]; [done|].
  cbn [lift mbind outcome_bind].
  destruct (append_runs Byte.x49 (be_bytes 4 project) f1) as [f2 ->]; [by rewrite be_bytes_length|]. cbn [lift mbind outcome_bind].
  destruct (append_runs Byte.x75 user f2) as [f3 ->]; [by rewrite Hu|]. cbn [lift mbind outcome_bind].
  destruct (append_runs Byte.x73 (as_bytes code) f3) as [f4 ->]; [done|]. cbn [lift mbind outcome_bind].
  unfold SeedWrap.hmac_with_root_domain_key, Encrypt.derive_key, Encrypt.derive_key_with_optional_salt.
  by destruct (hkdf_sha256 _ _ _).
Qed.

Lemma ascii_bytes_length l : length (as_bytes (string_of_list_ascii l)) = length l.
Proof. induction l as [|x l IH]; [done|]. cbn. f_equal. exact IH. Qed.
Lemma code_length b : length (as_bytes (generate_alphanumeric_code b)) = length b.
Proof. unfold generate_alphanumeric_code. rewrite ascii_bytes_length. apply length_fmap. Qed.
Lemma statement_calm {A} (f : Z -> Tables -> outcome DieselError (A * Tables)) s :
  (forall n t, f n t <> Panic) -> (statement f s).1 <> Panic.
Proof. intros Hf. unfold statement. destruct (faulty s); [done|]. specialize (Hf (serial s) (tables s)). by destruct (f _ _) as [[a t]| |]. Qed.

(** Identifiers have sixteen bytes. *)
Definition ids_ok (t : Tables) : Prop := forall u, u ∈ users t -> length (uuid u) = 16.
Lemma create_reset_calm now d e hash project s :
  ids_ok (tables s) -> length (code_bytes d) = 8 ->
  (create_password_reset_request enclave_key now d e hash project s).1 <> Panic.
Proof.
  intros Hids Hd. destruct (create_password_reset_request _ _ _ _ _ _ _) as [r s'] eqn:Hr. cbn. intros ->.
  apply bind_cases in Hr as (r1 & s1 & H1 & Hr).
  assert (r1 <> Panic) as H1n.
  { intros ->. unfold st_try in H1. destruct (get_user_by_email e project s) as [r0 s0] eqn:H0. destruct r0; [done..|].
    unfold get_user_by_email, user_get_by_email, mbind, ST_bind, connection in H0. destruct (faulty s); [done|].
    unfold st_map_err, select, statement in H0. destruct (faulty _); [done|]. cbn in H0. unfold st_lift, found in H0. by destruct (first _ _). }
  destruct r1 as [r0|e0|]; [|by destruct Hr|done]. apply Credentials.st_try_Ok in H1.
  destruct r0 as [u|e0|]; [|done..]. apply (Credentials.user_read_by (e := UserError)) in H1 as [_ Hu]. apply Hids in Hu.
  destruct (bool_decide (is_Some _) && _); [|done]. cbn in Hr.
  apply bind_cases in Hr as (r2 & s2 & [= <- <-] & Hr).
  destruct (SeedWrap.password_reset_code_mac _ _ _ _) as [mac| |] eqn:Hm; [|by destruct Hr|].
  2: { by apply mac_runs in Hm; [| |rewrite code_length, Hd]. }
  cbn in Hr. apply bind_cases in Hr as (r3 & s3 & (r4 & H4 & ->)%st_map_err_inv & Hr). destruct r4; [done|by destruct Hr|].
  apply bind_cases in H4 as (r5 & s5 & H5 & H4). destruct r5; [|by destruct H4|].
  2: { unfold connection in H5. by destruct (faulty s1). }
  apply st_map_err_inv in H4 as (r6 & H6 & H4). destruct r6; [done..|].
  unfold reset_insert in H6. apply (f_equal fst) in H6. revert H6. apply statement_calm. intros n t. unfold references. by destruct (existsb _ _).
Qed.

Definition fault (i : nat) (s : State) : bool := default false (faults s !! i).
(** The answer, from what the service can reach and the client id alone. *)
Definition reset_outcome (s : State) (project : option Z) : outcome Api.ApiError Note :=
  if fault 0 s || fault 1 s || bool_decide (project = None) then Err Api.BadRequest
  else if fault 2 s || fault 3 s then Err Api.InternalServerError else Ok reset_answer.
Lemma reset_request_answer now d payload s :
  ids_ok (tables s) -> length (code_bytes d) = 8 ->
  (password_reset_request now d payload s).1 = reset_outcome s (projects (rr_client_id payload)).
Proof.
  intros Hids Hd. destruct s as [t n fs]. unfold password_reset_request, reset_outcome, fault. cbn in Hids.
  unfold get_org_project_by_client_id, get_user_by_email, user_get_by_email, mbind, ST_bind, st_try, st_map_err, connection, select, statement, st_lift.
  destruct (projects (rr_client_id payload)) as [project|], fs as [|[] [|[] [|[] [|[] fs]]]]; cbn; try done.
  all: destruct (first _ (users t)) as [u|]; cbn; try done; case_match; try done.
  all: match goal with |- context [create_password_reset_request _ ?now ?d ?e ?h ?p ?s] =>
         pose proof (create_reset_calm now d e h p s Hids Hd) as Hc; destruct (create_password_reset_request _ now d e h p s) as [[] ?]
       end; done.
Qed.

(** A request for a password reset tells nothing about the accounts.  Two
    services with any accounts, whose next calls of the database fail alike, answer
    alike: whether the address belongs to an account, to one without a password, or
    to nobody.  When nothing fails and the client id is known it is always the same
    answer. *)
Theorem reset_request_tells_nothing now1 now2 d1 d2 payload1 payload2 s1 s2 :
  ids_ok (tables s1) -> ids_ok (tables s2) -> length (code_bytes d1) = 8 -> length (code_bytes d2) = 8 ->
  faults s1 = faults s2 -> rr_client_id payload1 = rr_client_id payload2 ->
  (password_reset_request now1 d1 payload1 s1).1 = (password_reset_request now2 d2 payload2 s2).1 /\
  (faults s1 = [] -> is_Some (projects (rr_client_id payload1)) -> (password_reset_request now1 d1 payload1 s1).1 = Ok reset_answer).
Proof.
  intros H1 H2 L1 L2 Hf Hc. rewrite !reset_request_answer by done. unfold reset_outcome, fault. rewrite <- Hf, <- Hc.
  split; [done|]. intros -> [p ->]. done.
Qed.

(** ** A user's own data *)
Lemma key_for_runs u ctx o s k s' : key_for u ctx o s = (Ok k, s') ->
  exists seed, decrypt_seed_for_auth_context enclave_key u ctx s = (Ok seed, s') /\
    UserKeys.plaintext_user_seed_to_key seed (UserKeys.private_key_derivation_path o) (UserKeys.seed_phrase_derivation_path o) = Ok k.
Proof. intros (seed & s1 & Hs & [Hk ->]%st_lift_inv)%ST_bind_Ok. by exists seed. Qed.

Lemma key_for_seed u ctx o s seed s' k :
  decrypt_seed_for_auth_context enclave_key u ctx s = (Ok seed, s') ->
  UserKeys.plaintext_user_seed_to_key seed (UserKeys.private_key_derivation_path o) (UserKeys.seed_phrase_derivation_path o) = Ok k ->
  key_for u ctx o s = (Ok k, s').
Proof. intros Hs Hk. unfold key_for, UserKeys.get_user_key, mbind, ST_bind. rewrite Hs. cbn. by rewrite Hk. Qed.
Lemma with_key_cases `{!CryptoLaws cr} nonce k m c : length nonce = 12 ->
  Encrypt.encrypt_with_key nonce k m = Ok c -> Encrypt.decrypt_with_key k c = Ok m.
Proof.
  intros Hn He. destruct k as [k]. apply Encrypt.with_key_exact in He as [? _]; [done| |done].
  unfold Encrypt.encrypt_with_key, Encrypt.gcm_new_from_slice in He. cbn in He. by case_decide.
Qed.
Lemma with_key_only `{!CryptoLaws cr} k m c : Encrypt.decrypt_with_key k c = Ok m ->
  exists nonce, length nonce = 12 /\ Encrypt.encrypt_with_key nonce k m = Ok c.
Proof.
  intros Hd. destruct k as [k].
  assert (length k = Encrypt.AES_256_KEY_LENGTH /\ 12 <= length c) as [Hk Hc].
  { unfold Encrypt.decrypt_with_key, Encrypt.gcm_new_from_slice in Hd. cbn in Hd. repeat case_decide; try done. split; [done|lia]. }
  exists (take 12 c). assert (length (take 12 c) = 12) as Hl by (rewrite length_take; lia). split; [done|].
  by apply Encrypt.with_key_exact.
Qed.

(** C23. A user's data survives and stays the user's.  If the service encrypted a
    text for a user with some key options, then with the same options it decrypts
    the answer to the same text whenever the credentials of the request open the
    same seed - with the same session or another, after a change of the password,
    at any time.  And whatever it decrypts is an encryption under the very key
    that the credentials of the request derive. *)
Theorem data_roundtrip `{!CryptoLaws cr} o :
  (forall nonce u ctx text s c s1 u' ctx' seed s2 s3 s4,
     length nonce = 12 -> is_utf8 text = true ->
     encrypt_data nonce u ctx (MkEncrypt text o) s = (Ok c, s1) ->
     decrypt_seed_for_auth_context enclave_key u ctx s = (Ok seed, s2) ->
     decrypt_seed_for_auth_context enclave_key u' ctx' s3 = (Ok seed, s4) ->
     (decrypt_data u' ctx' (MkDecrypt c o) s3).1 = Ok text) /\
  (forall u ctx c s text s1, decrypt_data u ctx (MkDecrypt c o) s = (Ok text, s1) ->
     exists k s2 nonce b, key_for u ctx o s = (Ok k, s2) /\ base64_decode c = Some b /\ length nonce = 12 /\
       Encrypt.encrypt_with_key nonce k (as_bytes text) = Ok b).
Proof.
  split.
  - intros nonce u ctx text s c s1 u' ctx' seed s2 s3 s4 Hn Hu He Hs Hs'. apply bind_lift_Ok in He as ([] & Hv & He). cbn in Hv.
    apply ST_bind_Ok in He as (k & s5 & (seed' & Hs2 & Hk)%st_map_err_Ok%key_for_runs & He).
    rewrite Hs in Hs2. injection Hs2 as <- <-. apply bind_lift_Ok in He as (b & Hb%lift_Ok & [= <- _]).
    apply (with_key_cases _ _ _ _ Hn) in Hb. pose proof (key_for_seed _ _ o _ _ _ _ Hs' Hk) as Hk'.
    unfold decrypt_data, mbind, ST_bind, st_lift, st_map_err. cbn [dd_key_options dd_encrypted_data]. rewrite Hv, Hk'. cbn.
    rewrite base64_roundtrip. cbn [ok_or]. rewrite Hb. cbn [map_err]. unfold from_utf8. rewrite of_as_bytes. cbn [ed_data]. by rewrite Hu.
  - intros u ctx c s text s1 ([] & Hv & Hr)%bind_lift_Ok. apply ST_bind_Ok in Hr as (k & s2 & Hk%st_map_err_Ok & Hr).
    apply bind_lift_Ok in Hr as (b & Hb%ok_or_Ok & Hr). apply bind_lift_Ok in Hr as (m & Hm%map_err_Ok%with_key_only & Hr).
    injection Hr as Ht%ok_or_Ok _. destruct Hm as (nonce & Hn & He). exists k, s2, nonce, b. split_and!; try done.
    unfold from_utf8 in Ht. destruct (is_utf8 _); [|done]. injection Ht as <-. by rewrite as_of_bytes.
Qed.
End routes.

(** ** Witnesses *)
Section witnesses.
#[local] Existing Instances ToyCrypto.toy ToyCrypto.toy_laws.
#[local] Existing Instances ToyAccounts.toy_citext ToyAccounts.toy_uuid ToyAccounts.toy_accounts.
#[local] Existing Instances Tokens.ToyJwt.toy_jwt Tokens.ToyJwt.toy_url Tokens.ToyJwt.toy_audience.
#[local] Instance demo_bip : UserKeys.Bip := {|
  UserKeys.mnemonic := string; UserKeys.xpriv := bytes; UserKeys.derivation_path := string; UserKeys.signature := bytes;
  UserKeys.mnemonic_from_str := Some; UserKeys.mnemonic_to_string s := s; UserKeys.mnemonic_to_seed := as_bytes;
  UserKeys.new_master := Some; UserKeys.path_from_str := Some; UserKeys.derive_priv x _ := Some x;
  UserKeys.xpriv_key x := Encrypt.MkSecretKey (ToyCrypto.pad 32 x); UserKeys.bip85_to_mnemonic _ _ _ := None;
  UserKeys.sign_schnorr_with_aux_rand _ _ d := d; UserKeys.sign_ecdsa _ d := d |}.
#[local] Instance demo_key_text : KeyText := {|
  xonly_public_key _ := ""; compressed_public_key _ := ""; signature_text _ := "" |}.

Definition demo_creds : RegisterCredentials := MkCredentials None (Some "a@b.c") "pw" [].
Definition demo_code : Uuid := verification_uuid Credentials.demo_draws.
Definition demo_requests : list (Z * Request) :=
  [(Tokens.demo_now, Public (Register Credentials.demo_draws demo_creds)); ((Tokens.demo_now + 1)%Z, Public (VerifyEmail demo_code))].
Definition demo_start : State := Credentials.demo_state Credentials.empty.
Definition demo_after : State := after Credentials.key Tokens.demo_projects (fun _ => None) Tokens.demo_signing_key (fun _ => None)
  demo_requests demo_start.
Definition demo_owner : User := default Credentials.demo_user (head (users (tables demo_after))).
Definition demo_profile : AppUser := match (user_protected demo_owner demo_after).1 with Ok p => p | _ => AppUser_from demo_owner end.

Lemma verified_address_was_proved_witness :
  email_verified demo_profile = true /\
  (opened_by_oauth Credentials.key Tokens.demo_projects (fun _ => None) Tokens.demo_signing_key (fun _ => None) demo_requests demo_start
     (uuid demo_owner) \/
   exists code, confirmed Credentials.key Tokens.demo_projects (fun _ => None) Tokens.demo_signing_key (fun _ => None)
     demo_requests demo_start (uuid demo_owner) code).
Proof.
  split; [vm_compute; reflexivity|].
  apply (verified_address_was_proved Credentials.key Tokens.demo_projects (fun _ => None) Tokens.demo_signing_key (fun _ => None)
    demo_requests demo_start demo_owner demo_profile (user_protected demo_owner demo_after).2).
  - reflexivity.
  - vm_compute. reflexivity.
  - vm_compute. reflexivity.
Defined.

Definition ask (mail : string) : PasswordResetRequestPayload := MkResetRequest mail "hash" [].
Definition reset_draws : Draws := MkDraws [] [] [] [] [] (replicate 8 Byte.x01) [].
Lemma reset_request_tells_nothing_witness :
  let known := password_reset_request Credentials.key Tokens.demo_projects 7 reset_draws (ask "a@b.c") demo_after in
  let unknown := password_reset_request Credentials.key Tokens.demo_projects 7 reset_draws (ask "x@y.z") demo_start in
  known.1 = unknown.1 /\ length (password_reset_requests (tables known.2)) = 1 /\ length (password_reset_requests (tables unknown.2)) = 0.
Proof.
  cbv zeta. split; [|split; vm_compute; reflexivity].
  refine (proj1 (reset_request_tells_nothing Credentials.key Tokens.demo_projects 7 7 reset_draws reset_draws (ask "a@b.c") (ask "x@y.z")
    demo_after demo_start _ _ _ _ _ _)).
  - intros u Hu. assert (uuid <$> users (tables demo_after) = [new_uuid Credentials.demo_draws]) as E by (vm_compute; reflexivity).
    apply (list_elem_of_fmap_2 uuid) in Hu. rewrite E in Hu. apply list_elem_of_singleton in Hu as ->. reflexivity.
  - intros u Hu. by apply elem_of_nil in Hu.
  - reflexivity.
  - reflexivity.
  - vm_compute. reflexivity.
  - reflexivity.
Defined.

Definition no_options : UserKeys.KeyOptions := UserKeys.MkKeyOptions None None.
Definition demo_seed_run : outcome Error bytes * State :=
  decrypt_seed_for_auth_context Credentials.key Credentials.demo_user Credentials.demo_context (Credentials.quiet Credentials.registered.2).
Definition demo_encrypted : outcome Api.ApiError string * State :=
  encrypt_data Credentials.key (replicate 12 Byte.x06) Credentials.demo_user Credentials.demo_context (MkEncrypt "text" no_options)
    (Credentials.quiet Credentials.registered.2).
Definition demo_cipher : string := match demo_encrypted.1 with Ok c => c | _ => "" end.
Definition demo_seed_bytes : bytes := match demo_seed_run.1 with Ok b => b | _ => [] end.
Lemma data_roundtrip_witness :
  (decrypt_data Credentials.key Credentials.demo_user Credentials.demo_context (MkDecrypt demo_cipher no_options)
     (Credentials.quiet Credentials.registered.2)).1 = Ok "text".
Proof.
  refine (proj1 (data_roundtrip Credentials.key no_options) (replicate 12 Byte.x06) Credentials.demo_user Credentials.demo_context "text"
    (Credentials.quiet Credentials.registered.2) demo_cipher demo_encrypted.2 Credentials.demo_user Credentials.demo_context
    demo_seed_bytes demo_seed_run.2 (Credentials.quiet Credentials.registered.2) demo_seed_run.2 _ _ _ _ _).
  - reflexivity.
  - reflexivity.
  - vm_compute. reflexivity.
  - vm_compute. reflexivity.
  - vm_compute. reflexivity.
Defined.

(** The confirmation of a reset, unlike the request, tells whether the address
    belongs to an account. *)
Definition guess (mail : string) : PasswordResetConfirmPayload := MkResetConfirm mail "WRONG" "secret" "new" [].
Lemma reset_confirm_tells_accounts :
  (password_reset_confirm Credentials.key Tokens.demo_projects 7 Credentials.demo_draws (guess "a@b.c") demo_after).1 = Err Api.BadRequest /\
  (password_reset_confirm Credentials.key Tokens.demo_projects 7 Credentials.demo_draws (guess "x@y.z") demo_after).1 =
    Err Api.InvalidUsernameOrPassword.
Proof. vm_compute. by split. Qed.
End witnesses.
End UserRoutes.
