(* ===== verification/Responses.v ===== *)
(** * Responses and their items in the database

    The rows and queries of [src/src/models/responses.rs] for responses, user
    and assistant messages, reasoning items, tool calls and tool outputs, and
    the [DBConnection] methods of [src/src/db.rs] on them.  Every connection and
    every statement may fail; there are no transactions here. *)

From S2P Require Import Prelude Text Json Crypto Encrypt Conversions Database.

Module Responses.
Abbreviation Uuid := Encrypt.Uuid.
Abbreviation DieselError := Db.DieselError.

(** ** Errors *)
Inductive ResponsesError :=
| DatabaseError (e : DieselError) | ConversationNotFound | ConversationProjectNotFound | ResponseNotFound
| UserMessageNotFound | SystemPromptNotFound | ToolCallNotFound | ToolOutputNotFound
| AssistantMessageNotFound | Unauthorized | ValidationError.
(** [DBError], as far as these methods use it. *)
Inductive DBError := ConnectionError | QueryError (e : DieselError) | ResponsesErr (e : ResponsesError).

(** ** Rows *)
Inductive ResponseStatus := Queued | InProgress | Completed | Failed | RCancelled.
#[export] Instance status_dec : EqDecision ResponseStatus.
Proof. solve_decision. Defined.

Record NewResponse := MkNewResponse {
  nr_uuid : Uuid; nr_user_id : Uuid; nr_conversation_id : Z; nr_status : ResponseStatus; nr_model : string;
  nr_temperature : option spec_float; nr_top_p : option spec_float; nr_max_output_tokens : option Z;
  nr_tool_choice : option string; nr_parallel_tool_calls : bool; nr_store : bool; nr_metadata_enc : option bytes }.
(** A response: the inserted values and the columns that change. *)
Record Response := MkResponse {
  r_id : Z; r_new : NewResponse; r_status : ResponseStatus;
  r_created_at : Z; r_completed_at : option Z; r_updated_at : Z }.

Record NewUserMessage := MkNewUserMessage {
  nu_uuid : Uuid; nu_conversation_id : Z; nu_response_id : option Z; nu_user_id : Uuid;
  nu_content_enc : bytes; nu_prompt_tokens : Z }.
Record UserMessage := MkUserMessage { um_id : Z; um_new : NewUserMessage; um_created_at : Z }.

Record NewAssistantMessage := MkNewAssistant {
  na_uuid : Uuid; na_conversation_id : Z; na_response_id : option Z; na_user_id : Uuid;
  na_content_enc : option bytes; na_completion_tokens : Z; na_status : string; na_finish_reason : option string;
  na_created_at : Z }.
Record AssistantMessage := MkAssistant {
  a_id : Z; a_uuid : Uuid; a_conversation_id : Z; a_response_id : option Z; a_user_id : Uuid;
  a_content_enc : option bytes; a_completion_tokens : Z; a_status : string; a_finish_reason : option string;
  a_created_at : Z; a_updated_at : Z }.

Record NewReasoningItem := MkNewReasoning {
  ng_uuid : Uuid; ng_conversation_id : Z; ng_response_id : option Z; ng_assistant_message_id : option Z;
  ng_user_id : Uuid; ng_content_enc : option bytes; ng_summary_enc : option bytes; ng_reasoning_tokens : Z;
  ng_status : string; ng_created_at : Z }.
Record ReasoningItem := MkReasoning {
  g_id : Z; g_uuid : Uuid; g_conversation_id : Z; g_response_id : option Z; g_assistant_message_id : option Z;
  g_user_id : Uuid; g_content_enc : option bytes; g_summary_enc : option bytes; g_reasoning_tokens : Z;
  g_status : string; g_created_at : Z; g_updated_at : Z }.

Record NewToolCall := MkNewToolCall {
  nt_uuid : Uuid; nt_conversation_id : Z; nt_response_id : option Z; nt_user_id : Uuid; nt_name : string;
  nt_arguments_enc : option bytes; nt_argument_tokens : Z; nt_status : string; nt_created_at : Z }.
Record ToolCall := MkToolCall { tc_id : Z; tc_new : NewToolCall; tc_updated_at : Z }.

Record NewToolOutput := MkNewToolOutput {
  no_uuid : Uuid; no_conversation_id : Z; no_response_id : option Z; no_user_id : Uuid; no_tool_call_fk : Z;
  no_output_enc : bytes; no_output_tokens : Z; no_status : string; no_error : option string; no_created_at : Z }.
Record ToolOutput := MkToolOutput { to_id : Z; to_new : NewToolOutput; to_updated_at : Z }.

(** The tables; [conversations] lists the ids of the existing conversations. *)
Record Tables := MkTables {
  conversations : list Z; responses : list Response; user_messages : list UserMessage;
  assistant_messages : list AssistantMessage; reasoning_items : list ReasoningItem;
  tool_calls : list ToolCall; tool_outputs : list ToolOutput }.
Definition set_responses l t := MkTables (conversations t) l (user_messages t) (assistant_messages t) (reasoning_items t) (tool_calls t) (tool_outputs t).
Definition set_user_messages l t := MkTables (conversations t) (responses t) l (assistant_messages t) (reasoning_items t) (tool_calls t) (tool_outputs t).
Definition set_assistant_messages l t := MkTables (conversations t) (responses t) (user_messages t) l (reasoning_items t) (tool_calls t) (tool_outputs t).
Definition set_reasoning_items l t := MkTables (conversations t) (responses t) (user_messages t) (assistant_messages t) l (tool_calls t) (tool_outputs t).
Definition set_tool_calls l t := MkTables (conversations t) (responses t) (user_messages t) (assistant_messages t) (reasoning_items t) l (tool_outputs t).
Definition set_tool_outputs l t := MkTables (conversations t) (responses t) (user_messages t) (assistant_messages t) (reasoning_items t) (tool_calls t) l.

(** ** Statements

    [faults]: which of the next connections and statements fail; [serial]: the
    next value of the sequences and of the clock [now]. *)
Record Store := MkStore { tables : Tables; serial : Z; faults : list bool }.
Definition faulty (s : Store) : bool := default false (head (faults s)).
Definition advance (s : Store) : Store := MkStore (tables s) (serial s + 1) (tail (faults s)).
Definition with_tables (t : Tables) (s : Store) : Store := MkStore t (serial s) (faults s).

Definition statement {A} (f : Z -> Tables -> outcome DieselError (A * Tables)) : ST Store DieselError A :=
  fun s =>
    if faulty s then (Err Db.Interrupted, advance s)
    else match f (serial s) (tables s) with
         | Ok (a, t) => (Ok a, with_tables t (advance s))
         | Err e => (Err e, advance s)
         | Panic => (Panic, advance s)
         end.
Definition connection : ST Store DBError unit :=
  fun s => if faulty s then (Err ConnectionError, advance s) else (Ok tt, advance s).

Definition st_map_err {E E' A} (f : E -> E') (m : ST Store E A) : ST Store E' A :=
  fun s => let '(r, s) := m s in (map_err f r, s).
(** A method of [DBConnection]: a connection, then one model call. *)
Definition method {A} (m : ST Store ResponsesError A) : ST Store DBError A :=
  _ ← connection; st_map_err ResponsesErr m.
Definition query {A} (f : Z -> Tables -> outcome DieselError (A * Tables)) : ST Store ResponsesError A :=
  st_map_err DatabaseError (statement f).

Definition first {A} (p : A -> bool) (l : list A) : option A := snd <$> list_find (fun x => p x = true) l.
Definition update_rows {A} (p : A -> bool) (f : A -> A) (l : list A) : list A := (fun x => if p x then f x else x) <$> l.
Definition delete_rows {A} (p : A -> bool) (l : list A) : list A := filter (fun x => p x = false) l.

(** Foreign keys of an item: its conversation and its response. *)
Definition exists_response (t : Tables) (id : option Z) : bool :=
  match id with Some id => existsb (fun r => bool_decide (r_id r = id)) (responses t) | None => true end.
Definition exists_conversation (t : Tables) (id : Z) : bool := bool_decide (id ∈ conversations t).
Definition insert_checked {A} (conversation : Z) (response : option Z) (taken : bool) (t : Tables) (row : A) (t' : Tables)
    : outcome DieselError (A * Tables) :=
  if taken then Err Db.UniqueViolation
  else if negb (exists_conversation t conversation && exists_response t response) then Err Db.ForeignKeyViolation
  else Ok (row, t').

Section queries.
(** [now()] at a statement. *)
Context (now : Z -> Z).

(** *** Responses *)
Definition response_of (uuid user : Uuid) (r : Response) : bool :=
  bool_decide (nr_uuid (r_new r) = uuid) && bool_decide (nr_user_id (r_new r) = user).
Definition response_insert (n : NewResponse) : ST Store ResponsesError Response :=
  query (fun id t =>
    let row := MkResponse id n (nr_status n) (now id) None (now id) in
    insert_checked (nr_conversation_id n) None
      (existsb (fun r => bool_decide (nr_uuid (r_new r) = nr_uuid n)) (responses t)) t
      row (set_responses (responses t ++ [row]) t)).
Definition not_found (e : ResponsesError) (d : DieselError) : ResponsesError :=
  match d with Db.NotFound => e | _ => DatabaseError d end.
Definition get_by_uuid_and_user (uuid user : Uuid) : ST Store ResponsesError Response :=
  st_map_err (not_found ResponseNotFound)
    (statement (fun _ t => r ← ok_or Db.NotFound (first (response_of uuid user) (responses t)); Ok (r, t))).
Definition with_status (status : ResponseStatus) (completed_at : option Z) (updated_at : Z) (r : Response) : Response :=
  MkResponse (r_id r) (r_new r) status (r_created_at r) completed_at updated_at.
Definition update_status (id : Z) (status : ResponseStatus) (completed_at : option Z) : ST Store ResponsesError unit :=
  query (fun n t => Ok (tt, set_responses
    (update_rows (fun r => bool_decide (r_id r = id)) (with_status status completed_at (now n)) (responses t)) t)).
Definition update_status_if_current (id : Z) (current new : ResponseStatus) (completed_at : option Z)
    : ST Store ResponsesError nat :=
  query (fun n t =>
    let hit r := bool_decide (r_id r = id) && bool_decide (r_status r = current) in
    Ok (length (filter (fun r => hit r = true) (responses t)),
        set_responses (update_rows hit (with_status new completed_at (now n)) (responses t)) t)).
Definition cancelable (r : Response) : bool := bool_decide (r_status r = InProgress \/ r_status r = Queued).
Definition cancel_by_uuid_and_user (uuid user : Uuid) : ST Store ResponsesError Response :=
  fun s =>
    match statement (fun n t =>
      let hit r := response_of uuid user r && cancelable r in
      let cancelled r := with_status RCancelled (Some (now n)) (now n) r in
      r ← ok_or Db.NotFound (first hit (responses t));
      Ok (cancelled r, set_responses (update_rows hit cancelled (responses t)) t)) s with
    | (Ok r, s) => (Ok r, s)
    | (Err Db.NotFound, s) => (_ ← get_by_uuid_and_user uuid user; st_err ValidationError) s
    | (Err e, s) => (Err (DatabaseError e), s)
    | (Panic, s) => (Panic, s)
    end.
(** Deleting a response deletes the rows that refer to it. *)
Definition of_response (ids : list Z) (o : option Z) : bool :=
  match o with Some id => bool_decide (id ∈ ids) | None => false end.
Definition delete_by_uuid_and_user (uuid user : Uuid) : ST Store ResponsesError unit :=
  rows ← query (fun _ t =>
    let gone := r_id <$> filter (fun r => response_of uuid user r = true) (responses t) in
    let calls := tc_id <$> filter (fun c => of_response gone (nt_response_id (tc_new c)) = true) (tool_calls t) in
    let messages := a_id <$> filter (fun a => of_response gone (a_response_id a) = true) (assistant_messages t) in
    Ok (length gone, MkTables (conversations t)
      (delete_rows (response_of uuid user) (responses t))
      (delete_rows (fun m => of_response gone (nu_response_id (um_new m))) (user_messages t))
      (delete_rows (fun a => of_response gone (a_response_id a)) (assistant_messages t))
      (delete_rows (fun g => of_response gone (g_response_id g) || of_response messages (g_assistant_message_id g)) (reasoning_items t))
      (delete_rows (fun c => of_response gone (nt_response_id (tc_new c))) (tool_calls t))
      (delete_rows (fun o => of_response gone (no_response_id (to_new o)) || of_response calls (Some (no_tool_call_fk (to_new o))))
         (tool_outputs t))));
  if decide (rows = 0) then st_err ResponseNotFound else st_ok tt.

(** *** Items *)
Definition user_message_insert (n : NewUserMessage) : ST Store ResponsesError UserMessage :=
  query (fun id t =>
    let row := MkUserMessage id n (now id) in
    insert_checked (nu_conversation_id n) (nu_response_id n)
      (existsb (fun m => bool_decide (nu_uuid (um_new m) = nu_uuid n)) (user_messages t)) t
      row (set_user_messages (user_messages t ++ [row]) t)).

Definition is_assistant (uuid : Uuid) (a : AssistantMessage) : bool := bool_decide (a_uuid a = uuid).
Definition assistant_row (id updated_at : Z) (n : NewAssistantMessage) : AssistantMessage :=
  MkAssistant id (na_uuid n) (na_conversation_id n) (na_response_id n) (na_user_id n) (na_content_enc n)
    (na_completion_tokens n) (na_status n) (na_finish_reason n) (na_created_at n) updated_at.
Definition assistant_insert (n : NewAssistantMessage) : ST Store ResponsesError AssistantMessage :=
  query (fun id t =>
    let row := assistant_row id (now id) n in
    insert_checked (na_conversation_id n) (na_response_id n) (existsb (is_assistant (na_uuid n)) (assistant_messages t)) t
      row (set_assistant_messages (assistant_messages t ++ [row]) t)).
Definition assistant_update (uuid : Uuid) (content_enc : option bytes) (completion_tokens : Z) (status : string)
    (finish_reason : option string) : ST Store ResponsesError AssistantMessage :=
  query (fun n t =>
    let updated a := MkAssistant (a_id a) (a_uuid a) (a_conversation_id a) (a_response_id a) (a_user_id a)
                       content_enc completion_tokens status finish_reason (a_created_at a) (now n) in
    a ← ok_or Db.NotFound (first (is_assistant uuid) (assistant_messages t));
    Ok (updated a, set_assistant_messages (update_rows (is_assistant uuid) updated (assistant_messages t)) t)).

Definition is_reasoning (uuid : Uuid) (g : ReasoningItem) : bool := bool_decide (g_uuid g = uuid).
Definition reasoning_row (id updated_at : Z) (n : NewReasoningItem) : ReasoningItem :=
  MkReasoning id (ng_uuid n) (ng_conversation_id n) (ng_response_id n) (ng_assistant_message_id n) (ng_user_id n)
    (ng_content_enc n) (ng_summary_enc n) (ng_reasoning_tokens n) (ng_status n) (ng_created_at n) updated_at.
Definition reasoning_insert (n : NewReasoningItem) : ST Store ResponsesError ReasoningItem :=
  query (fun id t =>
    let row := reasoning_row id (now id) n in
    insert_checked (ng_conversation_id n) (ng_response_id n) (existsb (is_reasoning (ng_uuid n)) (reasoning_items t)) t
      row (set_reasoning_items (reasoning_items t ++ [row]) t)).
Definition reasoning_update (uuid : Uuid) (content_enc : option bytes) (reasoning_tokens : Z) (status : string)
    : ST Store ResponsesError ReasoningItem :=
  query (fun n t =>
    let updated g := MkReasoning (g_id g) (g_uuid g) (g_conversation_id g) (g_response_id g) (g_assistant_message_id g)
                       (g_user_id g) content_enc (g_summary_enc g) reasoning_tokens status (g_created_at g) (now n) in
    g ← ok_or Db.NotFound (first (is_reasoning uuid) (reasoning_items t));
    Ok (updated g, set_reasoning_items (update_rows (is_reasoning uuid) updated (reasoning_items t)) t)).

Definition tool_call_insert (n : NewToolCall) : ST Store ResponsesError ToolCall :=
  query (fun id t =>
    let row := MkToolCall id n (now id) in
    insert_checked (nt_conversation_id n) (nt_response_id n)
      (existsb (fun c => bool_decide (nt_uuid (tc_new c) = nt_uuid n)) (tool_calls t)) t
      row (set_tool_calls (tool_calls t ++ [row]) t)).
Definition is_call (uuid user : Uuid) (c : ToolCall) : bool :=
  bool_decide (nt_uuid (tc_new c) = uuid) && bool_decide (nt_user_id (tc_new c) = user).
Definition tool_call_get_by_uuid (uuid user : Uuid) : ST Store ResponsesError ToolCall :=
  st_map_err (not_found ToolCallNotFound)
    (statement (fun _ t => c ← ok_or Db.NotFound (first (is_call uuid user) (tool_calls t)); Ok (c, t))).
Definition tool_output_insert (n : NewToolOutput) : ST Store ResponsesError ToolOutput :=
  query (fun id t =>
    let row := MkToolOutput id n (now id) in
    if negb (existsb (fun c => bool_decide (tc_id c = no_tool_call_fk n)) (tool_calls t)) then Err Db.ForeignKeyViolation
    else insert_checked (no_conversation_id n) (no_response_id n)
      (existsb (fun o => bool_decide (no_uuid (to_new o) = no_uuid n)) (tool_outputs t)) t
      row (set_tool_outputs (tool_outputs t ++ [row]) t)).

(** *** The thread of a response: a union ordered by creation time *)
Abbreviation Raw := Conversions.RawThreadMessage.
Definition response_is (response : Z) (o : option Z) : bool := bool_decide (o = Some response).
Definition response_model (t : Tables) (response : option Z) : option string :=
  id ← response; (fun r => nr_model (r_new r)) <$> first (fun r => bool_decide (r_id r = id)) (responses t).
Definition raw_user (t : Tables) (m : UserMessage) : Raw :=
  let n := um_new m in
  Conversions.MkRaw "user" (um_id m) (nu_uuid n) (Some (nu_content_enc n)) (Some "completed") (um_created_at m)
    (response_model t (nu_response_id n)) (Some (nu_prompt_tokens n)) None None None.
Definition raw_assistant (t : Tables) (a : AssistantMessage) : Raw :=
  Conversions.MkRaw "assistant" (a_id a) (a_uuid a) (a_content_enc a) (Some (a_status a)) (a_created_at a)
    (response_model t (a_response_id a)) (Some (a_completion_tokens a)) None (a_finish_reason a) None.
Definition raw_tool_call (c : ToolCall) : Raw :=
  let n := tc_new c in
  Conversions.MkRaw "tool_call" (tc_id c) (nt_uuid n) (nt_arguments_enc n) (Some "completed") (nt_created_at n)
    None (Some (nt_argument_tokens n)) (Some (nt_uuid n)) None (Some (nt_name n)).
Definition raw_tool_output (t : Tables) (o : ToolOutput) : list Raw :=
  let n := to_new o in
  (fun c => Conversions.MkRaw "tool_output" (to_id o) (no_uuid n) (Some (no_output_enc n)) (Some "completed") (no_created_at n)
     None (Some (no_output_tokens n)) (Some (nt_uuid (tc_new c))) None (Some (nt_name (tc_new c)))) <$>
  filter (fun c => tc_id c = no_tool_call_fk n) (tool_calls t).
Definition raw_reasoning (g : ReasoningItem) : Raw :=
  Conversions.MkRaw "reasoning" (g_id g) (g_uuid g) (g_content_enc g) (Some (g_status g)) (g_created_at g)
    None (Some (g_reasoning_tokens g)) None None None.
Definition thread (t : Tables) (response : Z) : list Raw :=
  (raw_user t <$> filter (fun m => response_is response (nu_response_id (um_new m)) = true) (user_messages t)) ++
  (raw_assistant t <$> filter (fun a => response_is response (a_response_id a) = true) (assistant_messages t)) ++
  (raw_tool_call <$> filter (fun c => response_is response (nt_response_id (tc_new c)) = true) (tool_calls t)) ++
  mjoin (raw_tool_output t <$> filter (fun o => response_is response (no_response_id (to_new o)) = true) (tool_outputs t)) ++
  (raw_reasoning <$> filter (fun g => response_is response (g_response_id g) = true) (reasoning_items t)).
(** [ORDER BY created_at]; rows with the same time come in any order, here in
    the order of the union. *)
Definition earlier (a b : Raw) : Prop := (Conversions.created_at a <= Conversions.created_at b)%Z.
#[export] Instance earlier_dec a b : Decision (earlier a b).
Proof. unfold earlier. apply _. Defined.
Definition get_response_context (response : Z) : ST Store ResponsesError (list Raw) :=
  query (fun _ t => Ok (merge_sort earlier (thread t response), t)).

(** ** [DBConnection] *)
Definition create_response (n : NewResponse) : ST Store DBError Response := method (response_insert n).
Definition get_response_by_uuid_and_user (uuid user : Uuid) : ST Store DBError Response :=
  method (get_by_uuid_and_user uuid user).
Definition update_response_status (id : Z) (status : ResponseStatus) (completed_at : option Z) : ST Store DBError unit :=
  method (update_status id status completed_at).
Definition update_response_status_if_current (id : Z) (current new : ResponseStatus) (completed_at : option Z)
    : ST Store DBError bool :=
  rows ← method (update_status_if_current id current new completed_at); st_ok (bool_decide (0 < rows)).
Definition cancel_response (uuid user : Uuid) : ST Store DBError Response := method (cancel_by_uuid_and_user uuid user).
Definition delete_response (uuid user : Uuid) : ST Store DBError unit := method (delete_by_uuid_and_user uuid user).
Definition create_user_message (n : NewUserMessage) : ST Store DBError UserMessage := method (user_message_insert n).
Definition create_assistant_message (n : NewAssistantMessage) : ST Store DBError AssistantMessage :=
  method (assistant_insert n).
Definition get_assistant_message_by_uuid (uuid : Uuid) : ST Store DBError (option AssistantMessage) :=
  _ ← connection;
  st_map_err QueryError (statement (fun _ t => Ok (first (is_assistant uuid) (assistant_messages t), t))).
Definition update_assistant_message (uuid : Uuid) (content_enc : option bytes) (tokens : Z) (status : string)
    (finish_reason : option string) : ST Store DBError AssistantMessage :=
  method (assistant_update uuid content_enc tokens status finish_reason).
Definition create_reasoning_item (n : NewReasoningItem) : ST Store DBError ReasoningItem := method (reasoning_insert n).
Definition update_reasoning_item (uuid : Uuid) (content_enc : option bytes) (tokens : Z) (status : string)
    : ST Store DBError ReasoningItem := method (reasoning_update uuid content_enc tokens status).
Definition create_tool_call (n : NewToolCall) : ST Store DBError ToolCall := method (tool_call_insert n).
Definition get_tool_call_by_uuid (uuid user : Uuid) : ST Store DBError ToolCall := method (tool_call_get_by_uuid uuid user).
Definition create_tool_output (n : NewToolOutput) : ST Store DBError ToolOutput := method (tool_output_insert n).
Definition get_response_context_messages (response : Z) : ST Store DBError (list Raw) :=
  method (get_response_context response).
End queries.
End Responses.
