(* ===== verification/Storage.v ===== *)
(** * The storage task

    [src/src/web/responses/storage.rs]: the task that receives the messages of a
    response stream and persists its items, and the routes of
    [src/src/web/responses/handlers.rs] that cancel and delete a response. *)

From S2P Require Import Prelude Text Json Crypto Api Encrypt Conversions Database Turns Responses.

Module Storage.
Import Responses.
Import Turns(StorageMessage(..)).

Definition STATUS_IN_PROGRESS := "in_progress".
Definition STATUS_COMPLETED := "completed".
Definition STATUS_INCOMPLETE := "incomplete".
Definition FINISH_REASON_CANCELLED := "cancelled".

(** ** Local state

    The two maps of pending items; a [HashMap] is a list without repeated keys
    whose order is not specified. *)
Record PendingAssistantMessage := MkPending { p_content : string; p_created_at : option Z }.
Definition pending_default : PendingAssistantMessage := MkPending EmptyString None.
Record Local := MkLocal {
  pending_messages : list (Uuid * PendingAssistantMessage); pending_reasoning : list (Uuid * string);
  next_item_created_at : Z;
  (* nonces drawn, and the acknowledgements sent *)
  nonces_drawn : nat; acks : list bool }.

Definition hm_get {A} (k : Uuid) (m : list (Uuid * A)) : option A := (fun e => snd (snd e)) <$> list_find (fun e => e.1 = k) m.
Definition hm_remove {A} (k : Uuid) (m : list (Uuid * A)) : list (Uuid * A) := filter (fun e => e.1 <> k) m.
(** [*map.entry(k).or_default() = v]. *)
Definition hm_put {A} (k : Uuid) (v : A) (m : list (Uuid * A)) : list (Uuid * A) := (k, v) :: hm_remove k m.

Definition set_messages m (l : Local) : Local := MkLocal m (pending_reasoning l) (next_item_created_at l) (nonces_drawn l) (acks l).
Definition set_pending_reasoning m (l : Local) : Local := MkLocal (pending_messages l) m (next_item_created_at l) (nonces_drawn l) (acks l).
Definition set_next t (l : Local) : Local := MkLocal (pending_messages l) (pending_reasoning l) t (nonces_drawn l) (acks l).
Definition draw (l : Local) : Local := MkLocal (pending_messages l) (pending_reasoning l) (next_item_created_at l) (S (nonces_drawn l)) (acks l).
Definition ack (b : bool) (l : Local) : Local := MkLocal (pending_messages l) (pending_reasoning l) (next_item_created_at l) (nonces_drawn l) (acks l ++ [b]).

(** One microsecond, in nanoseconds. *)
Definition MICROSECOND : Z := 1000.
Definition allocate_created_at (l : Local) : Z * Local :=
  let created_at := next_item_created_at l in (created_at, set_next (created_at + MICROSECOND)%Z l).

Section storage.
Context `{Crypto, Tokenizer, SerdeJson}.
Context (now : Z -> Z) (nonce : nat -> bytes).
(** The order in which [drain] visits a map. *)
Context (drain : forall A, list (Uuid * A) -> list (Uuid * A)).
(** The parameters of the task. *)
Context (response_id conversation_id : Z) (user_id : Uuid) (user_key : Encrypt.SecretKey) (tool_ack : bool).

Definition clamp_token_count (text : string) : Z :=
  let token_count := count_tokens text in if decide (i32_max < token_count)%Z then i32_max else token_count.

(** Errors of the database become texts for the log. *)
Definition Db := ST Store unit.
Definition logged {A} (m : ST Store DBError A) : Db unit := st_map_err (fun _ => tt) (_ ← m; st_ok tt).
Definition encrypt (l : Local) (text : string) : outcome unit bytes :=
  lift (Encrypt.encrypt_with_key (nonce (nonces_drawn l)) user_key (as_bytes text)).
(** [if let Err(e) = m { error!(..) }]. *)
Definition or_log (m : Db unit) : ST Store Empty_set unit := fun s =>
  match m s with (Panic, s) => (Panic, s) | (_, s) => (Ok tt, s) end.

Definition create_assistant_message_if_missing (item_id : Uuid) (created_at : Z) : Db unit :=
  found ← st_map_err (fun _ => tt) (get_assistant_message_by_uuid item_id);
  match found with
  | Some _ => st_ok tt
  | None => logged (create_assistant_message now
      (MkNewAssistant item_id conversation_id (Some response_id) user_id None 0 STATUS_IN_PROGRESS None created_at))
  end.

(** Empty content is stored as NULL and draws no nonce. *)
Definition finalize_assistant_message (l : Local) (item_id : Uuid) (content status : string) (finish_reason : option string)
    : Db unit * Local :=
  if is_empty content then
    (logged (update_assistant_message now item_id None (clamp_token_count content) status finish_reason), l)
  else
    (content_enc ← st_lift (encrypt l content);
     logged (update_assistant_message now item_id (Some content_enc) (clamp_token_count content) status finish_reason), draw l).

Definition create_reasoning (item_id : Uuid) (created_at : Z) : Db unit :=
  logged (create_reasoning_item now
    (MkNewReasoning item_id conversation_id (Some response_id) None user_id None None 0 STATUS_IN_PROGRESS created_at)).
Definition finalize_reasoning_item (l : Local) (item_id : Uuid) (content status : string) : Db unit * Local :=
  if is_empty content then (logged (update_reasoning_item now item_id None (clamp_token_count content) status), l)
  else
    (content_enc ← st_lift (encrypt l content);
     logged (update_reasoning_item now item_id (Some content_enc) (clamp_token_count content) status), draw l).

Definition persist_tool_call (l : Local) (tool_call_id : Uuid) (name : string) (arguments : Value) (created_at : Z)
    : Db unit :=
  let arguments_json := to_string arguments in
  arguments_enc ← st_lift (encrypt l arguments_json);
  logged (create_tool_call now (MkNewToolCall tool_call_id conversation_id (Some response_id) user_id name
    (Some arguments_enc) (clamp_token_count arguments_json) STATUS_COMPLETED created_at)).
Definition persist_tool_output (l : Local) (tool_output_id tool_call_id : Uuid) (output : string) (created_at : Z)
    : Db unit :=
  call ← st_map_err (fun _ => tt) (get_tool_call_by_uuid tool_call_id user_id);
  output_enc ← st_lift (encrypt l output);
  logged (create_tool_output now (MkNewToolOutput tool_output_id conversation_id (Some response_id) user_id (tc_id call)
    output_enc (clamp_token_count output) STATUS_COMPLETED None created_at)).

(** The result and the nonces of a finalization; its error is only logged. *)
Definition run_logged (r : Db unit * Local) : ST Store Empty_set Local := _ ← or_log r.1; st_ok r.2.

Fixpoint finalize_messages (l : Local) (items : list (Uuid * PendingAssistantMessage)) (finish_reason : option string)
    : ST Store Empty_set Local :=
  match items with
  | [] => st_ok l
  | (item_id, pending) :: items =>
      l ← run_logged (finalize_assistant_message l item_id (p_content pending) STATUS_INCOMPLETE finish_reason);
      finalize_messages l items finish_reason
  end.
Fixpoint finalize_reasonings (l : Local) (items : list (Uuid * string)) : ST Store Empty_set Local :=
  match items with
  | [] => st_ok l
  | (item_id, content) :: items =>
      l ← run_logged (finalize_reasoning_item l item_id content STATUS_INCOMPLETE);
      finalize_reasonings l items
  end.
Definition mark_pending_items_incomplete (l : Local) (message_finish_reason : option string) : ST Store Empty_set Local :=
  let messages := drain _ (pending_messages l) in
  l ← finalize_messages (set_messages [] l) messages message_finish_reason;
  let reasoning := drain _ (pending_reasoning l) in
  finalize_reasonings (set_pending_reasoning [] l) reasoning.

Definition update_terminal_response_status (status : ResponseStatus) : ST Store Empty_set unit := fun s =>
  or_log (logged (update_response_status_if_current now response_id InProgress status (Some (now (serial s))))) s.

(** ** One message

    The result says whether the task goes on.  A tool message draws a nonce even
    when its encryption is not reached. *)
Definition goes_on (m : ST Store Empty_set Local) : ST Store Empty_set (Local * bool) := l ← m; st_ok (l, true).
Definition returns (m : ST Store Empty_set Local) : ST Store Empty_set (Local * bool) := l ← m; st_ok (l, false).
Definition nothing_pending (l : Local) : bool :=
  bool_decide (pending_messages l = []) && bool_decide (pending_reasoning l = []).

(** The acknowledgement of a tool message: an error always, success for outputs. *)
Definition acknowledged (on_success : bool) (l : Local) (m : Db unit) : ST Store Empty_set Local := fun s =>
  match m s with
  | (Ok _, s) => (Ok (if tool_ack && on_success then ack true l else l), s)
  | (Err _, s) => (Ok (if tool_ack then ack false l else l), s)
  | (Panic, s) => (Panic, s)
  end.

Definition step (l : Local) (msg : StorageMessage) : ST Store Empty_set (Local * bool) :=
  match msg with
  | MessageStarted item_id =>
      let pending := default pending_default (hm_get item_id (pending_messages l)) in
      let '(created_at, l) := match p_created_at pending with Some t => (t, l) | None => allocate_created_at l end in
      let l := set_messages (hm_put item_id (MkPending (p_content pending) (Some created_at)) (pending_messages l)) l in
      goes_on (_ ← or_log (create_assistant_message_if_missing item_id created_at); st_ok l)
  | ContentDelta item_id delta =>
      let pending := default pending_default (hm_get item_id (pending_messages l)) in
      goes_on (st_ok (set_messages (hm_put item_id (MkPending (p_content pending +:+ delta) (p_created_at pending))
        (pending_messages l)) l))
  | MessageDone item_id finish_reason =>
      let pending := default pending_default (hm_get item_id (pending_messages l)) in
      let l := set_messages (hm_remove item_id (pending_messages l)) l in
      let '(created_at, l) := match p_created_at pending with Some t => (t, l) | None => allocate_created_at l end in
      goes_on (
        _ ← or_log (create_assistant_message_if_missing item_id created_at);
        run_logged (finalize_assistant_message l item_id (p_content pending) STATUS_COMPLETED (Some finish_reason)))
  | ReasoningStarted item_id =>
      let l := set_pending_reasoning (hm_put item_id (default EmptyString (hm_get item_id (pending_reasoning l)))
                 (pending_reasoning l)) l in
      let '(created_at, l) := allocate_created_at l in
      goes_on (_ ← or_log (create_reasoning item_id created_at); st_ok l)
  | ReasoningDelta item_id delta =>
      let content := default EmptyString (hm_get item_id (pending_reasoning l)) in
      goes_on (st_ok (set_pending_reasoning (hm_put item_id (content +:+ delta) (pending_reasoning l)) l))
  | ReasoningDone item_id =>
      let content := default EmptyString (hm_get item_id (pending_reasoning l)) in
      let l := set_pending_reasoning (hm_remove item_id (pending_reasoning l)) l in
      goes_on (run_logged (finalize_reasoning_item l item_id content STATUS_COMPLETED))
  | Usage _ _ => goes_on (st_ok l)
  | ResponseDone _ =>
      returns (
        l ← (if nothing_pending l then st_ok l else mark_pending_items_incomplete l None);
        _ ← update_terminal_response_status Completed;
        st_ok l)
  | Cancelled =>
      returns (
        _ ← update_terminal_response_status RCancelled;
        mark_pending_items_incomplete l (Some FINISH_REASON_CANCELLED))
  | Error _ =>
      returns (
        _ ← update_terminal_response_status Failed;
        mark_pending_items_incomplete l None)
  | ToolCall tool_call_id name arguments =>
      let '(created_at, l) := allocate_created_at l in
      goes_on (acknowledged false (draw l) (persist_tool_call l tool_call_id name arguments created_at))
  | ToolOutput tool_output_id tool_call_id output =>
      let '(created_at, l) := allocate_created_at l in
      goes_on (acknowledged true (draw l) (persist_tool_output l tool_output_id tool_call_id output created_at))
  end.

(** The task on the messages the channel delivers until it closes. *)
Fixpoint run_task (l : Local) (rx : list StorageMessage) : ST Store Empty_set Local :=
  match rx with
  | [] =>
      _ ← update_terminal_response_status Failed;
      mark_pending_items_incomplete l None
  | msg :: rx =>
      r ← step l msg;
      if (r.2 : bool) then run_task r.1 rx else st_ok r.1
  end.
Definition storage_task (rx : list StorageMessage) (first_item_created_at : Z) : ST Store Empty_set Local :=
  run_task (MkLocal [] [] first_item_created_at 0 []) rx.
End storage.

(** ** The routes *)
Section routes.
Context (now : Z -> Z).

(** The retrieved response of a cancelled one, and the broadcast of its id. *)
Record Routes := MkRoutes { store_of : Store; broadcast : list Uuid }.
Definition lift_db {A} (f : DBError -> Api.ApiError) (m : ST Store DBError A) : ST Routes Api.ApiError A := fun s =>
  let '(r, s') := m (store_of s) in (map_err f r, MkRoutes s' (broadcast s)).
Definition get_error (e : DBError) : Api.ApiError :=
  match e with
  | ResponsesErr ResponseNotFound => Api.NotFound
  | ResponsesErr Responses.Unauthorized => Api.Unauthorized
  | _ => Api.InternalServerError
  end.
Definition cancel_error (e : DBError) : Api.ApiError :=
  match e with
  | ResponsesErr ResponseNotFound => Api.NotFound
  | ResponsesErr Responses.Unauthorized => Api.Unauthorized
  | ResponsesErr ValidationError => Api.BadRequest
  | _ => Api.InternalServerError
  end.

Definition send_cancellation (id : Uuid) : ST Routes Api.ApiError unit := fun s =>
  (Ok tt, MkRoutes (store_of s) (broadcast s ++ [id])).

(** Up to the encryption of the answer, which shows the row as cancelled. *)
Definition cancel_route (id user : Uuid) : ST Routes Api.ApiError Response :=
  response ← lift_db get_error (get_response_by_uuid_and_user id user);
  if negb (bool_decide (r_status response = Queued \/ r_status response = InProgress)) then st_err Api.BadRequest
  else
    response ← lift_db cancel_error (cancel_response now id user);
    _ ← send_cancellation id;
    st_ok response.
Definition delete_route (id user : Uuid) : ST Routes Api.ApiError unit :=
  lift_db get_error (delete_response id user).
End routes.

(** ** Runs on a database that does not fail *)
Definition quietly {E A} (m : ST Store E A) (Q : outcome E A -> Tables -> Tables -> Prop) : Prop :=
  forall s r s', faults s = [] -> m s = (r, s') -> faults s' = [] /\ Q r (tables s) (tables s').

Lemma quietly_weaken {E A} (m : ST Store E A) (Q Q' : outcome E A -> Tables -> Tables -> Prop) :
  quietly m Q -> (forall r t t', Q r t t' -> Q' r t t') -> quietly m Q'.
Proof. intros Hm Hq s r s' Hs Hr. destruct (Hm _ _ _ Hs Hr). auto. Qed.

Lemma quietly_statement {A} (f : Z -> Tables -> outcome DieselError (A * Tables)) :
  quietly (statement f) (fun r t t' => exists n, match f n t with
    | Ok (a, t1) => r = Ok a /\ t' = t1 | Err e => r = Err e /\ t' = t | Panic => r = Panic /\ t' = t end).
Proof.
  intros s r s' Hs. unfold statement, faulty. rewrite Hs. cbn.
  destruct (f (serial s) (tables s)) as [[a t1]|e|] eqn:Hf; intros [= <- <-]; cbn; rewrite Hs; split; try done;
    exists (serial s); by rewrite Hf.
Qed.
Lemma quietly_map_err {E E' A} (f : E -> E') (m : ST Store E A) Q :
  quietly m Q -> quietly (st_map_err f m) (fun r t t' => exists r0, Q r0 t t' /\ r = map_err f r0).
Proof.
  intros Hm s r s' Hs. unfold st_map_err. destruct (m s) as [r0 s0] eqn:Hr. intros [= <- <-].
  destruct (Hm _ _ _ Hs Hr) as [? ?]. eauto.
Qed.
Lemma quietly_connection : quietly connection (fun r t t' => r = Ok tt /\ t' = t).
Proof. intros s r s' Hs. unfold connection, faulty. rewrite Hs. cbn. intros [= <- <-]. cbn. by rewrite Hs. Qed.
Lemma quietly_bind {E A B} (m : ST Store E A) (f : A -> ST Store E B) Q R :
  quietly m Q -> (forall a, quietly (f a) (R a)) ->
  quietly (x ← m; f x) (fun r t t' => (exists a t1, Q (Ok a) t t1 /\ R a r t1 t') \/
    (exists e, Q (Err e) t t' /\ r = Err e) \/ (Q Panic t t' /\ r = Panic)).
Proof.
  intros Hm Hf s r s' Hs. unfold mbind, ST_bind. destruct (m s) as [[a|e|] s1] eqn:Hr; destruct (Hm _ _ _ Hs Hr) as [Hs1 Hq].
  - intros Hr2. destruct (Hf a _ _ _ Hs1 Hr2) as [? ?]. split; [done|]. left. eauto.
  - intros [= <- <-]. split; [done|]. right. left. eauto.
  - intros [= <- <-]. split; [done|]. right. by right.
Qed.
Lemma quietly_ok {E A} (a : A) : quietly (@st_ok Store E A a) (fun r t t' => r = Ok a /\ t' = t).
Proof. by intros s r s' Hs [= <- <-]. Qed.
Lemma quietly_lift {E A} (o : outcome E A) : quietly (@st_lift Store E A o) (fun r t t' => r = o /\ t' = t).
Proof. by intros s r s' Hs [= <- <-]. Qed.

(** A method of the database: its query decides. *)
Lemma quietly_method {A} (m : ST Store ResponsesError A) Q :
  quietly m Q -> quietly (method m) (fun r t t' => exists r0, Q r0 t t' /\ r = map_err ResponsesErr r0).
Proof.
  intros Hm. eapply quietly_weaken; [apply (quietly_bind _ _ _ (fun _ r t t' => exists r0, Q r0 t t' /\ r = map_err ResponsesErr r0) quietly_connection)|].
  - intros []. by apply quietly_map_err.
  - intros r t t' [(a & t1 & [_ ->] & Hq)|[(e & [? _] & _)|[[? _] _]]]; done.
Qed.
Lemma quietly_query {A} (f : Z -> Tables -> outcome DieselError (A * Tables)) :
  quietly (query f) (fun r t t' => exists n, match f n t with
    | Ok (a, t1) => r = Ok a /\ t' = t1 | Err e => r = Err (DatabaseError e) /\ t' = t | Panic => r = Panic /\ t' = t end).
Proof.
  eapply quietly_weaken; [apply quietly_map_err, quietly_statement|]. cbn.
  intros r t t' (r0 & (n & Hn) & ->). exists n. destruct (f n t) as [[a t1]|e|]; by destruct Hn as [-> ->].
Qed.
Lemma quietly_logged {A} (m : ST Store DBError A) Q :
  quietly m Q -> quietly (logged m) (fun r t t' => exists r0, Q r0 t t' /\ r = map_err (fun _ => tt) (x ← r0; Ok tt)).
Proof.
  intros Hm. eapply quietly_weaken.
  - apply quietly_map_err. apply (quietly_bind _ _ _ (fun _ r t t' => r = Ok tt /\ t' = t) Hm). intros a. apply quietly_ok.
  - cbn. intros r t t' (r0 & [(a & t1 & Hq & -> & ->)|[(e & Hq & ->)|[Hq ->]]] & ->); eauto.
Qed.
(** Logged errors leave the effect on the tables. *)
Lemma quietly_or_log (m : Db unit) Q :
  quietly m Q -> quietly (or_log m) (fun r t t' => exists r0, Q r0 t t' /\ r = match r0 with Panic => Panic | _ => Ok tt end).
Proof.
  intros Hm s r s' Hs. unfold or_log. destruct (m s) as [r0 s0] eqn:Hr. destruct (Hm _ _ _ Hs Hr) as [Hs0 Hq].
  destruct r0; intros [= <- <-]; split; eauto.
Qed.

Lemma elem_update {A} (p : A -> bool) f l x : x ∈ update_rows p f l <-> exists y, y ∈ l /\ x = if p y then f y else y.
Proof. unfold update_rows. rewrite list_elem_of_fmap. naive_solver. Qed.

(** ** What the pieces of the task do to the tables *)
Section effects.
Context {cr : Crypto} {cl : CryptoLaws cr} {tk : Tokenizer} {sj : SerdeJson}.
Context (now : Z -> Z) (nonce : nat -> bytes) (drain : forall A, list (Uuid * A) -> list (Uuid * A)).
Context (response_id conversation_id : Z) (user_id : Uuid) (user_key : Encrypt.SecretKey) (tool_ack : bool).

(** The key and the nonces have their sizes, and the cipher seals the texts
    (it refuses only messages beyond its limit of 64 GiB). *)
Record sealing : Prop := {
  key_size : length (Encrypt.secret_bytes user_key) = Encrypt.AES_256_KEY_LENGTH;
  nonce_size i : length (nonce i) = 12;
  seals i text : exists c, Encrypt.encrypt_with_key (nonce i) user_key (as_bytes text) = Ok c;
}.
Context (Hseal : sealing).

(** [enc] is the stored form of [text]. *)
Definition sealed_text (text : string) (enc : bytes) : Prop := Encrypt.decrypt_with_key user_key enc = Ok (as_bytes text).
Definition stored_text (text : string) (enc : option bytes) : Prop :=
  match enc with None => text = EmptyString | Some c => text <> EmptyString /\ sealed_text text c end.

Lemma encrypt_sealed l text : exists c, encrypt nonce user_key l text = Ok c /\ sealed_text text c.
Proof.
  destruct (seals Hseal (nonces_drawn l) text) as [c Hc]. exists c. unfold encrypt. rewrite Hc. split; [done|].
  pose proof (key_size Hseal) as Hk. pose proof (nonce_size Hseal (nonces_drawn l)) as Hn. unfold sealed_text. revert Hk Hc.
  destruct user_key as [k]. cbn. intros Hk Hc. by apply (Encrypt.with_key_exact _ _ _ _ Hk Hn) in Hc as [? _].
Qed.

Definition new_message (id : Uuid) (created_at : Z) : NewAssistantMessage :=
  MkNewAssistant id conversation_id (Some response_id) user_id None 0 STATUS_IN_PROGRESS None created_at.
Definition has_parents (t : Tables) : Prop := exists_conversation t conversation_id && exists_response t (Some response_id) = true.

Lemma existsb_first {A} (p : A -> bool) l : first p l = None -> existsb p l = false.
Proof.
  unfold first. intros Hf%fmap_None%list_find_None. apply not_true_iff_false. rewrite existsb_exists. intros (x & Hx & Hp).
  rewrite Forall_forall in Hf. apply (Hf x); [by apply list_elem_of_In|done].
Qed.

Lemma create_missing_effect id created_at :
  quietly (create_assistant_message_if_missing now response_id conversation_id user_id id created_at)
    (fun r t t' => r <> Panic /\
       match first (is_assistant id) (assistant_messages t) with
       | Some _ => t' = t
       | None => (exists n u, t' = set_assistant_messages (assistant_messages t ++ [assistant_row n u (new_message id created_at)]) t)
                 \/ (t' = t /\ ~ has_parents t)
       end).
Proof.
  unfold create_assistant_message_if_missing. eapply quietly_weaken.
  { eapply (quietly_bind _ _ _ (fun found r t t' => r <> Panic /\ (is_Some found -> t' = t) /\ (found = None ->
      first (is_assistant id) (assistant_messages t) = None ->
      (exists n u, t' = set_assistant_messages (assistant_messages t ++ [assistant_row n u (new_message id created_at)]) t)
      \/ (t' = t /\ ~ has_parents t)))).
    - apply quietly_map_err. unfold get_assistant_message_by_uuid. apply (quietly_bind _ _ _ (fun _ r t t' =>
        r = Ok (first (is_assistant id) (assistant_messages t)) /\ t' = t) quietly_connection).
      intros []. eapply quietly_weaken; [apply quietly_map_err, quietly_statement|]. cbn. by intros r t t' (r0 & (n & -> & ->) & ->).
    - intros [found|]; cbn.
      + eapply quietly_weaken; [apply quietly_ok|]. cbn. intros r t t' [-> ->]. done.
      + eapply quietly_weaken; [apply quietly_logged, quietly_method, quietly_query|]. cbn.
        intros r t t' (r0 & (r1 & (n & Hn) & ->) & ->). unfold insert_checked in Hn. revert Hn.
        destruct (existsb _ _) eqn:He; [|destruct (exists_conversation _ _ && _) eqn:Hp; cbn]; intros [-> ->]; split; try done;
          (split; [by intros []|]); intros _ Hnone.
        * by rewrite (existsb_first _ _ Hnone) in He.
        * left. by exists n, (now n).
        * right. split; [done|]. unfold has_parents. intros Hp'. cbn in Hp, Hp'. by rewrite Hp' in Hp. }
  cbn. intros r t t' [(a & t1 & (r0 & [(u & t0 & [_ ->] & [-> ->])|[(e & [? _] & _)|[[? _] _]]] & Ha) & Hr & Hs & Hn)|[(e & (r0 & Hq & Heq) & ->)|[(r0 & Hq & Heq) ->]]]; try done.
  - injection Ha as ->. split; [done|]. destruct (first _ _); [apply Hs; by eexists|by apply Hn].
  - exfalso. destruct Hq as [(u & t0 & [_ ->] & [-> ->])|[(e' & [? _] & _)|[[? _] _]]]; done.
  - exfalso. destruct Hq as [(u & t0 & [_ ->] & [-> ->])|[(e' & [? _] & _)|[[? _] _]]]; done.
Qed.

Definition finalized (enc : option bytes) (tokens : Z) (status : string) (reason : option string) (u : Z) (a : AssistantMessage)
    : AssistantMessage :=
  MkAssistant (a_id a) (a_uuid a) (a_conversation_id a) (a_response_id a) (a_user_id a) enc tokens status reason (a_created_at a) u.

Lemma update_message_effect id enc tokens status reason :
  quietly (logged (update_assistant_message now id enc tokens status reason))
    (fun r t t' => r <> Panic /\
       match first (is_assistant id) (assistant_messages t) with
       | Some _ => exists u, t' = set_assistant_messages
           (update_rows (is_assistant id) (finalized enc tokens status reason u) (assistant_messages t)) t
       | None => t' = t
       end).
Proof.
  eapply quietly_weaken; [apply quietly_logged, quietly_method, quietly_query|]. cbn.
  intros r t t' (r0 & (r1 & (n & Hn) & ->) & ->). destruct (first _ _) as [a|]; cbn in Hn; destruct Hn as [-> ->].
  - split; [done|]. by exists (now n).
  - done.
Qed.

Lemma quietly_sealed {A} l text (f : bytes -> ST Store unit A) Q :
  (forall enc, sealed_text text enc -> quietly (f enc) Q) ->
  quietly (enc ← st_lift (encrypt nonce user_key l text); f enc) Q.
Proof.
  intros Hf. destruct (encrypt_sealed l text) as (enc & -> & Henc). by apply Hf.
Qed.

Lemma finalize_message_effect l id content status reason :
  let r := finalize_assistant_message now nonce user_key l id content status reason in
  quietly r.1 (fun res t t' => res <> Panic /\
    match first (is_assistant id) (assistant_messages t) with
    | Some _ => exists enc u, stored_text content enc /\ t' = set_assistant_messages
        (update_rows (is_assistant id) (finalized enc (clamp_token_count content) status reason u) (assistant_messages t)) t
    | None => t' = t
    end) /\ (r.2 = l \/ r.2 = draw l).
Proof.
  cbv zeta. unfold finalize_assistant_message. destruct (is_empty content) eqn:He; cbn [fst snd].
  - split; [|by left]. eapply quietly_weaken; [apply update_message_effect|]. cbn. intros r t t' [Hr Ht]. split; [done|].
    destruct (first _ _); [|done]. destruct Ht as [u ->]. exists None, u. split; [by destruct content|done].
  - split; [|by right]. apply quietly_sealed. intros enc Henc. eapply quietly_weaken; [apply update_message_effect|]. cbn.
    intros r t t' [Hr Ht]. split; [done|]. destruct (first _ _); [|done]. destruct Ht as [u ->]. exists (Some enc), u.
    split; [split; [by destruct content|done]|done].
Qed.

Definition new_reasoning (id : Uuid) (created_at : Z) : NewReasoningItem :=
  MkNewReasoning id conversation_id (Some response_id) None user_id None None 0 STATUS_IN_PROGRESS created_at.
Lemma create_reasoning_effect id created_at :
  quietly (create_reasoning now response_id conversation_id user_id id created_at)
    (fun r t t' => r <> Panic /\
       ((exists n u, t' = set_reasoning_items (reasoning_items t ++ [reasoning_row n u (new_reasoning id created_at)]) t)
        \/ (t' = t /\ (existsb (is_reasoning id) (reasoning_items t) = true \/ ~ has_parents t)))).
Proof.
  eapply quietly_weaken; [apply quietly_logged, quietly_method, quietly_query|]. cbn.
  intros r t t' (r0 & (r1 & (n & Hn) & ->) & ->). unfold insert_checked in Hn. revert Hn.
  destruct (existsb _ _) eqn:He; [|destruct (exists_conversation _ _ && _) eqn:Hp; cbn]; intros [-> ->]; (split; [done|]).
  - right. split; [done|]. by left.
  - left. by exists n, (now n).
  - right. split; [done|]. right. unfold has_parents. intros Hp'. cbn in Hp, Hp'. by rewrite Hp' in Hp.
Qed.

Definition finalized_reasoning (enc : option bytes) (tokens : Z) (status : string) (u : Z) (g : ReasoningItem) : ReasoningItem :=
  MkReasoning (g_id g) (g_uuid g) (g_conversation_id g) (g_response_id g) (g_assistant_message_id g) (g_user_id g)
    enc (g_summary_enc g) tokens status (g_created_at g) u.
Lemma update_reasoning_effect id enc tokens status :
  quietly (logged (update_reasoning_item now id enc tokens status))
    (fun r t t' => r <> Panic /\
       match first (is_reasoning id) (reasoning_items t) with
       | Some _ => exists u, t' = set_reasoning_items
           (update_rows (is_reasoning id) (finalized_reasoning enc tokens status u) (reasoning_items t)) t
       | None => t' = t
       end).
Proof.
  eapply quietly_weaken; [apply quietly_logged, quietly_method, quietly_query|]. cbn.
  intros r t t' (r0 & (r1 & (n & Hn) & ->) & ->). destruct (first _ _) as [a|]; cbn in Hn; destruct Hn as [-> ->].
  - split; [done|]. by exists (now n).
  - done.
Qed.
Lemma finalize_reasoning_effect l id content status :
  let r := finalize_reasoning_item now nonce user_key l id content status in
  quietly r.1 (fun res t t' => res <> Panic /\
    match first (is_reasoning id) (reasoning_items t) with
    | Some _ => exists enc u, stored_text content enc /\ t' = set_reasoning_items
        (update_rows (is_reasoning id) (finalized_reasoning enc (clamp_token_count content) status u) (reasoning_items t)) t
    | None => t' = t
    end) /\ (r.2 = l \/ r.2 = draw l).
Proof.
  cbv zeta. unfold finalize_reasoning_item. destruct (is_empty content) eqn:He; cbn [fst snd].
  - split; [|by left]. eapply quietly_weaken; [apply update_reasoning_effect|]. cbn. intros r t t' [Hr Ht]. split; [done|].
    destruct (first _ _); [|done]. destruct Ht as [u ->]. exists None, u. split; [by destruct content|done].
  - split; [|by right]. apply quietly_sealed. intros enc Henc. eapply quietly_weaken; [apply update_reasoning_effect|]. cbn.
    intros r t t' [Hr Ht]. split; [done|]. destruct (first _ _); [|done]. destruct Ht as [u ->]. exists (Some enc), u.
    split; [split; [by destruct content|done]|done].
Qed.

Definition new_tool_call (id : Uuid) (name : string) (arguments : Value) (enc : bytes) (created_at : Z) : NewToolCall :=
  MkNewToolCall id conversation_id (Some response_id) user_id name (Some enc) (clamp_token_count (to_string arguments))
    STATUS_COMPLETED created_at.
Lemma tool_call_effect l id name arguments created_at :
  quietly (persist_tool_call now nonce response_id conversation_id user_id user_key l id name arguments created_at)
    (fun r t t' => r <> Panic /\
       ((exists n u enc, sealed_text (to_string arguments) enc /\ r = Ok tt /\
           t' = set_tool_calls (tool_calls t ++ [MkToolCall n (new_tool_call id name arguments enc created_at) u]) t)
        \/ (t' = t /\ (existsb (fun c => bool_decide (nt_uuid (tc_new c) = id)) (tool_calls t) = true \/ ~ has_parents t)))).
Proof.
  unfold persist_tool_call. cbv zeta. apply quietly_sealed. intros enc Henc.
  eapply quietly_weaken; [apply quietly_logged, quietly_method, quietly_query|]. cbn.
  intros r t t' (r0 & (r1 & (n & Hn) & ->) & ->). unfold insert_checked in Hn. revert Hn.
  destruct (existsb _ _) eqn:He; [|destruct (exists_conversation _ _ && _) eqn:Hp; cbn]; intros [-> ->]; (split; [done|]).
  - right. split; [done|]. by left.
  - left. by exists n, (now n), enc.
  - right. split; [done|]. right. unfold has_parents. intros Hp'. cbn in Hp, Hp'. by rewrite Hp' in Hp.
Qed.

Definition new_tool_output (id : Uuid) (fk : Z) (output : string) (enc : bytes) (created_at : Z) : NewToolOutput :=
  MkNewToolOutput id conversation_id (Some response_id) user_id fk enc (clamp_token_count output) STATUS_COMPLETED None created_at.
Lemma tool_output_effect l id call output created_at :
  quietly (persist_tool_output now nonce response_id conversation_id user_id user_key l id call output created_at)
    (fun r t t' => r <> Panic /\
       ((exists c n u enc, first (is_call call user_id) (tool_calls t) = Some c /\ sealed_text output enc /\ r = Ok tt /\
           t' = set_tool_outputs (tool_outputs t ++ [MkToolOutput n (new_tool_output id (tc_id c) output enc created_at) u]) t)
        \/ (t' = t /\ (first (is_call call user_id) (tool_calls t) = None \/
              existsb (fun o => bool_decide (no_uuid (to_new o) = id)) (tool_outputs t) = true \/ ~ has_parents t)))).
Proof.
  unfold persist_tool_output. eapply quietly_weaken.
  { eapply (quietly_bind _ _ _ (fun c r t t' => r <> Panic /\
      (first (is_call call user_id) (tool_calls t) = Some c -> (exists n u enc, sealed_text output enc /\ r = Ok tt /\
           t' = set_tool_outputs (tool_outputs t ++ [MkToolOutput n (new_tool_output id (tc_id c) output enc created_at) u]) t)
        \/ (t' = t /\ (existsb (fun o => bool_decide (no_uuid (to_new o) = id)) (tool_outputs t) = true \/ ~ has_parents t))))).
    - apply quietly_map_err. unfold get_tool_call_by_uuid. apply quietly_method, quietly_map_err, quietly_statement.
    - intros c. cbn beta. apply quietly_sealed. intros enc Henc.
      eapply quietly_weaken; [apply quietly_logged, quietly_method, quietly_query|]. cbn.
      intros r t t' (r0 & (r1 & (n & Hn) & ->) & ->). unfold insert_checked in Hn. revert Hn.
      destruct (existsb (fun c => bool_decide (tc_id c = _)) _) eqn:Hfk; cbn.
      2:{ intros [-> ->]. split; [done|]. intros Hf. exfalso. apply not_true_iff_false in Hfk. apply Hfk.
          unfold first in Hf. apply fmap_Some in Hf as ([i c'] & (Hi & _)%list_find_Some & [= <-]).
          apply existsb_exists. exists c. split; [apply list_elem_of_In; by eapply list_elem_of_lookup_2|by apply bool_decide_eq_true]. }
      destruct (existsb (fun o => bool_decide (no_uuid (to_new o) = id)) _) eqn:He; [|destruct (exists_conversation _ _ && _) eqn:Hp; cbn]; intros [-> ->]; (split; [done|]); intros _.
      + right. split; [done|]. by left.
      + left. by exists n, (now n), enc.
      + right. split; [done|]. right. unfold has_parents. intros Hp'. cbn in Hp, Hp'. by rewrite Hp' in Hp. }
  cbn. intros r t t' [(c & t1 & (r0 & (r1 & (r2 & (n & Hn) & ->) & ->) & Ha) & Hr & Hs)|[(e & (r0 & (r1 & (r2 & (n & Hn) & ->) & ->) & Ha) & ->)|[(r0 & (r1 & (r2 & (n & Hn) & ->) & ->) & Ha) ->]]];
    destruct (first _ _) as [c'|] eqn:Hf; cbn in Hn; destruct Hn as [-> ->]; try done.
  - injection Ha as ->. split; [done|]. destruct (Hs Hf) as [(n' & u & enc & ? & ? & ?)|[? ?]]; [left; by exists c', n', u, enc|right; tauto].
  - split; [done|]. right. split; [done|]. by left.
Qed.

Definition terminated (status : ResponseStatus) (at_ u : Z) (t : Tables) : Tables :=
  set_responses (update_rows (fun r => bool_decide (r_id r = response_id) && bool_decide (r_status r = InProgress))
    (with_status status (Some at_) u) (responses t)) t.
Lemma terminal_effect status :
  quietly (update_terminal_response_status now response_id status)
    (fun r t t' => r = Ok tt /\ exists at_ u, t' = terminated status at_ u t).
Proof.
  intros s r s' Hs Hr. unfold update_terminal_response_status in Hr. revert s r s' Hs Hr.
  enough (forall at_, quietly (or_log (logged (update_response_status_if_current now response_id InProgress status (Some at_))))
    (fun r t t' => r = Ok tt /\ exists u, t' = terminated status at_ u t)) as Hq.
  { intros s r s' Hs Hr. destruct (Hq _ _ _ _ Hs Hr) as [? [? [u ?]]]. eauto 6. }
  intros at_. eapply quietly_weaken.
  { apply quietly_or_log, quietly_logged. unfold update_response_status_if_current.
    apply (quietly_bind _ _ _ (fun _ r t t' => is_Some (match r with Ok b => Some b | _ => None end) /\ t' = t)
      (quietly_method _ _ (quietly_query _))).
    intros n. eapply quietly_weaken; [apply quietly_ok|]. cbn. by intros r t t' [-> ->]. }
  cbn. intros r t t' (r0 & (r1 & [(a & t1 & (r2 & (n & [-> ->]) & Ha) & [Hr ->])|[(e & (r2 & (n & [-> ->]) & Ha) & ->)|[(r2 & (n & [-> ->]) & Ha) ->]]] & ->) & ->); [|done..].
  destruct r1; cbn; try (by destruct Hr). split; [done|]. by exists (now n).
Qed.

(** ** Nothing stays in progress *)
#[local] Arguments hm_put : simpl never.
#[local] Arguments hm_remove : simpl never.
Lemma elem_hm_put {A} k (v : A) m x : x ∈ (hm_put k v m).*1 <-> x = k \/ x ∈ m.*1.
Proof.
  unfold hm_put, hm_remove. rewrite fmap_cons, elem_of_cons. cbn. split.
  - intros [->|(e & -> & [_ He]%list_elem_of_filter)%list_elem_of_fmap]; [by left|]. right. by apply list_elem_of_fmap_2.
  - intros [->|(e & -> & He)%list_elem_of_fmap]; [by left|]. destruct (decide (e.1 = k)) as [?|Hne]; [by left|]. right.
    apply list_elem_of_fmap_2, list_elem_of_filter. done.
Qed.
Lemma elem_hm_remove {A} k (m : list (Uuid * A)) x : x ∈ (hm_remove k m).*1 <-> x <> k /\ x ∈ m.*1.
Proof.
  unfold hm_remove. split.
  - intros (e & -> & [Hk He]%list_elem_of_filter)%list_elem_of_fmap. split; [done|]. by apply list_elem_of_fmap_2.
  - intros [Hk (e & -> & He)%list_elem_of_fmap]. apply list_elem_of_fmap_2, list_elem_of_filter. done.
Qed.

(** The rows of the response still in progress are among [ms] and [gs]. *)
Definition open_messages (ms : list Uuid) (t : Tables) : Prop :=
  forall a, a ∈ assistant_messages t -> a_response_id a = Some response_id -> a_status a = STATUS_IN_PROGRESS -> a_uuid a ∈ ms.
Definition open_reasonings (gs : list Uuid) (t : Tables) : Prop :=
  forall g, g ∈ reasoning_items t -> g_response_id g = Some response_id -> g_status g = STATUS_IN_PROGRESS -> g_uuid g ∈ gs.
Definition open_rows (l : Local) (t : Tables) : Prop :=
  open_messages (pending_messages l).*1 t /\ open_reasonings (pending_reasoning l).*1 t.
Definition settled (t : Tables) : Prop :=
  open_messages [] t /\ open_reasonings [] t /\
  forall r, r ∈ responses t -> r_id r = response_id -> r_status r <> InProgress.


Lemma first_none {A} (p : A -> bool) l x : first p l = None -> x ∈ l -> p x = false.
Proof.
  unfold first. intros Hf%fmap_None%list_find_None Hx. rewrite Forall_forall in Hf. apply not_true_iff_false. by apply Hf.
Qed.

Lemma finalized_closes id enc tokens status reason u ms t :
  status <> STATUS_IN_PROGRESS -> open_messages ms t ->
  open_messages (filter (fun x => x <> id) ms)
    (set_assistant_messages (update_rows (is_assistant id) (finalized enc tokens status reason u) (assistant_messages t)) t).
Proof.
  intros Hst Ho a (b & Hb & ->)%elem_update. unfold is_assistant. case_bool_decide as Hid; [done|]. intros Hr Hs.
  apply list_elem_of_filter. split; [done|]. by apply Ho.
Qed.
Lemma missing_closes id ms t :
  first (is_assistant id) (assistant_messages t) = None -> open_messages ms t -> open_messages (filter (fun x => x <> id) ms) t.
Proof.
  intros Hf Ho a Ha Hr Hs. apply list_elem_of_filter. split; [|by apply Ho].
  pose proof (first_none _ _ _ Hf Ha) as Hn. by apply bool_decide_eq_false in Hn.
Qed.
Lemma finalized_reasoning_closes id enc tokens status u gs t :
  status <> STATUS_IN_PROGRESS -> open_reasonings gs t ->
  open_reasonings (filter (fun x => x <> id) gs)
    (set_reasoning_items (update_rows (is_reasoning id) (finalized_reasoning enc tokens status u) (reasoning_items t)) t).
Proof.
  intros Hst Ho a (b & Hb & ->)%elem_update. unfold is_reasoning. case_bool_decide as Hid; [done|]. intros Hr Hs.
  apply list_elem_of_filter. split; [done|]. by apply Ho.
Qed.
Lemma missing_reasoning_closes id gs t :
  first (is_reasoning id) (reasoning_items t) = None -> open_reasonings gs t -> open_reasonings (filter (fun x => x <> id) gs) t.
Proof.
  intros Hf Ho a Ha Hr Hs. apply list_elem_of_filter. split; [|by apply Ho].
  pose proof (first_none _ _ _ Hf Ha) as Hn. by apply bool_decide_eq_false in Hn.
Qed.

(** A finalization, logged: the item is closed, the rest is as before. *)
Definition closes (ms gs ms' gs' : list Uuid) (r : outcome Empty_set Local) (l : Local) (t t' : Tables) : Prop :=
  (exists l', r = Ok l' /\ (l' = l \/ l' = draw l)) /\ responses t' = responses t /\
  (open_messages ms t -> open_messages ms' t') /\ (open_reasonings gs t -> open_reasonings gs' t').

Lemma quietly_run_logged (r : Db unit * Local) Q :
  quietly r.1 Q ->
  quietly (run_logged r) (fun res t t' => exists r0, Q r0 t t' /\ res = match r0 with Panic => Panic | _ => Ok r.2 end).
Proof.
  intros Hm. unfold run_logged. eapply quietly_weaken.
  { apply (quietly_bind _ _ _ (fun _ res t t' => res = Ok r.2 /\ t' = t) (quietly_or_log _ _ Hm)). intros []. apply quietly_ok. }
  cbn. intros res t t' [(a & t1 & (r0 & Hq & Ha) & -> & ->)|[(e & (r0 & Hq & Ha) & ->)|[(r0 & Hq & Ha) ->]]];
    exists r0; (split; [done|]); by destruct r0.
Qed.

Lemma finalize_message_closes l id content status reason ms gs :
  status <> STATUS_IN_PROGRESS ->
  quietly (run_logged (finalize_assistant_message now nonce user_key l id content status reason))
    (fun r t t' => closes ms gs (filter (fun x => x <> id) ms) gs r l t t').
Proof.
  intros Hst. destruct (finalize_message_effect l id content status reason) as [He Hl].
  eapply quietly_weaken; [apply quietly_run_logged, He|]. cbn. intros r t t' (r0 & [Hp Ht] & ->).
  split; [|].
  { destruct r0; [eauto..|done]. }
  destruct (first _ _) eqn:Hf.
  - destruct Ht as (enc & u & _ & ->). split; [done|]. split; [by apply finalized_closes|done].
  - subst t'. split; [done|]. split; [by apply missing_closes|done].
Qed.
Lemma finalize_reasoning_closes l id content status ms gs :
  status <> STATUS_IN_PROGRESS ->
  quietly (run_logged (finalize_reasoning_item now nonce user_key l id content status))
    (fun r t t' => closes ms gs ms (filter (fun x => x <> id) gs) r l t t').
Proof.
  intros Hst. destruct (finalize_reasoning_effect l id content status) as [He Hl].
  eapply quietly_weaken; [apply quietly_run_logged, He|]. cbn. intros r t t' (r0 & [Hp Ht] & ->).
  split; [|].
  { destruct r0; [eauto..|done]. }
  destruct (first _ _) eqn:Hf.
  - destruct Ht as (enc & u & _ & ->). split; [done|]. split; [done|by apply finalized_reasoning_closes].
  - subst t'. split; [done|]. split; [done|by apply missing_reasoning_closes].
Qed.

Lemma open_messages_mono ms ms' t : ms ⊆ ms' -> open_messages ms t -> open_messages ms' t.
Proof. intros Hs Ho a Ha Hr Hst. by apply Hs, Ho. Qed.
Lemma open_reasonings_mono gs gs' t : gs ⊆ gs' -> open_reasonings gs t -> open_reasonings gs' t.
Proof. intros Hs Ho a Ha Hr Hst. by apply Hs, Ho. Qed.

(** Finalizing a list of items closes them all. *)
Definition closes_all (ms gs ms' gs' : list Uuid) (r : outcome Empty_set Local) (l : Local) (t t' : Tables) : Prop :=
  (exists l', r = Ok l' /\ pending_messages l' = pending_messages l /\ pending_reasoning l' = pending_reasoning l) /\
  responses t' = responses t /\
  (open_messages ms t -> open_messages ms' t') /\ (open_reasonings gs t -> open_reasonings gs' t').

Lemma finalize_messages_closes items reason l ms gs :
  quietly (finalize_messages now nonce user_key l items reason)
    (fun r t t' => closes_all (items.*1 ++ ms) gs ms gs r l t t').
Proof.
  revert l. induction items as [|[id p] items IH]; intros l; cbn [finalize_messages].
  - eapply quietly_weaken; [apply quietly_ok|]. cbn. intros r t t' [-> ->]. split; [by eexists|done].
  - eapply quietly_weaken.
    { eapply (quietly_bind _ _ _ (fun l r t t' => closes_all (items.*1 ++ ms) gs ms gs r l t t')); [|intros l'; apply IH].
      by apply (finalize_message_closes l id (p_content p) STATUS_INCOMPLETE reason (((id, p) :: items).*1 ++ ms) gs). }
    cbn. intros r t t' [(l1 & t1 & ((l2 & [= ->] & Hl) & Hr & Hm & Hg) & Hc)|[([] & _)|[((l2 & ? & _) & _) _]]]; [|done].
    destruct Hc as ((l3 & -> & Hpm & Hpr) & Hr3 & Hm3 & Hg3). split; [exists l3; by destruct Hl as [-> | ->]|].
    split; [by rewrite Hr3|]. split; [|auto]. intros Ho. apply Hm3. eapply open_messages_mono; [|by apply Hm].
    intros x. rewrite decide_False by tauto. by intros [_ Hin]%list_elem_of_filter.
Qed.
Lemma finalize_reasonings_closes items l ms gs :
  quietly (finalize_reasonings now nonce user_key l items)
    (fun r t t' => closes_all ms (items.*1 ++ gs) ms gs r l t t').
Proof.
  revert l. induction items as [|[id p] items IH]; intros l; cbn [finalize_reasonings].
  - eapply quietly_weaken; [apply quietly_ok|]. cbn. intros r t t' [-> ->]. split; [by eexists|done].
  - eapply quietly_weaken.
    { eapply (quietly_bind _ _ _ (fun l r t t' => closes_all ms (items.*1 ++ gs) ms gs r l t t')); [|intros l'; apply IH].
      by apply (finalize_reasoning_closes l id p STATUS_INCOMPLETE ms (((id, p) :: items).*1 ++ gs)). }
    cbn. intros r t t' [(l1 & t1 & ((l2 & [= ->] & Hl) & Hr & Hm & Hg) & Hc)|[([] & _)|[((l2 & ? & _) & _) _]]]; [|done].
    destruct Hc as ((l3 & -> & Hpm & Hpr) & Hr3 & Hm3 & Hg3). split; [exists l3; by destruct Hl as [-> | ->]|].
    split; [by rewrite Hr3|]. split; [auto|]. intros Ho. apply Hg3. eapply open_reasonings_mono; [|by apply Hg].
    intros x. rewrite decide_False by tauto. by intros [_ Hin]%list_elem_of_filter.
Qed.

Context (Hdrain : forall A m, drain A m ≡ₚ m).
Lemma mark_incomplete_closes l reason :
  quietly (mark_pending_items_incomplete now nonce drain user_key l reason)
    (fun r t t' => (exists l', r = Ok l') /\ responses t' = responses t /\
       (open_rows l t -> open_messages [] t' /\ open_reasonings [] t')).
Proof.
  unfold mark_pending_items_incomplete. eapply quietly_weaken.
  { apply (quietly_bind _ _ _ (fun l1 r t t' => closes_all [] ((drain _ (pending_reasoning l1)).*1 ++ []) [] [] r (set_pending_reasoning [] l1) t t')
      (finalize_messages_closes _ _ _ [] (pending_reasoning l).*1)).
    intros l1. apply finalize_reasonings_closes. }
  cbn. intros r t t' [(l1 & t1 & ((l2 & [= ->] & _ & Hpr) & Hr & Hm & Hg) & Hc)|[([] & _)|[((l2 & ? & _) & _) _]]]; [|done].
  cbn in Hpr. destruct Hc as ((l3 & -> & _ & _) & Hr3 & Hm3 & Hg3). split; [by eexists|]. split; [by rewrite Hr3|].
  intros [Hom Hog]. split.
  - apply Hm3, Hm. eapply open_messages_mono; [|exact Hom]. intros x Hx. by rewrite app_nil_r, Hdrain.
  - apply Hg3. eapply open_reasonings_mono; [|by apply Hg]. intros x Hx. rewrite app_nil_r, Hdrain. cbn. by rewrite Hpr.
Qed.

Lemma terminated_settles status at_ u t :
  status <> InProgress -> open_messages [] t -> open_reasonings [] t -> settled (terminated status at_ u t).
Proof.
  intros Hst Hm Hg. split; [exact Hm|]. split; [exact Hg|]. intros r (r0 & Hr0 & ->)%elem_update.
  destruct (bool_decide (r_id r0 = response_id) && bool_decide (r_status r0 = InProgress)) eqn:Hb; [done|].
  intros Hid Hs. apply andb_false_iff in Hb as [Hb|Hb]; by apply bool_decide_eq_false in Hb.
Qed.
Lemma settled_responses t t' :
  responses t' = responses t -> (forall r, r ∈ responses t -> r_id r = response_id -> r_status r <> InProgress) ->
  open_messages [] t' -> open_reasonings [] t' -> settled t'.
Proof. intros Heq Hr Hm Hg. split; [done|]. split; [done|]. by rewrite Heq. Qed.
Lemma terminated_open status at_ u l t : open_rows l (terminated status at_ u t) <-> open_rows l t.
Proof. done. Qed.
Lemma terminated_status status at_ u t r :
  status <> InProgress -> r ∈ responses (terminated status at_ u t) -> r_id r = response_id -> r_status r <> InProgress.
Proof.
  intros Hst (r0 & Hr0 & ->)%elem_update.
  destruct (bool_decide (r_id r0 = response_id) && bool_decide (r_status r0 = InProgress)) eqn:Hb; [done|].
  intros Hid Hs. apply andb_false_iff in Hb as [Hb|Hb]; by apply bool_decide_eq_false in Hb.
Qed.

(** The end of the task: the status and the pending items. *)
Lemma end_settles status l reason :
  status <> InProgress ->
  quietly (_ ← update_terminal_response_status now response_id status; mark_pending_items_incomplete now nonce drain user_key l reason)
    (fun r t t' => (exists l', r = Ok l') /\ (open_rows l t -> settled t')).
Proof.
  intros Hst. eapply quietly_weaken.
  { apply (quietly_bind _ _ _ (fun _ r t t' => (exists l', r = Ok l') /\ responses t' = responses t /\
      (open_rows l t -> open_messages [] t' /\ open_reasonings [] t')) (terminal_effect status)).
    intros []. apply mark_incomplete_closes. }
  cbn. intros r t t' [(u & t1 & [_ (at_ & n & ->)] & Hl & Hr & Ho)|[(e & [? _] & _)|[[? _] _]]]; [|done..].
  split; [done|]. intros Hopen. destruct (Ho Hopen) as [Hm Hg].
  eapply settled_responses; [exact Hr| |done|done]. intros r' Hr'. by eapply terminated_status.
Qed.

(** ** One message, then any number *)
Definition step_ok (l : Local) (r : outcome Empty_set (Local * bool)) (t t' : Tables) : Prop :=
  exists l' go, r = Ok (l', go) /\ (open_rows l t -> if go then open_rows l' t' else settled t').

Lemma quietly_goes_on (m : ST Store Empty_set Local) Q l :
  quietly m Q -> (forall r t t', Q r t t' -> exists l', r = Ok l' /\ (open_rows l t -> open_rows l' t')) ->
  quietly (goes_on m) (step_ok l).
Proof.
  intros Hm Hq. unfold goes_on. eapply quietly_weaken.
  { apply (quietly_bind _ _ _ (fun l1 r t t' => r = Ok (l1, true) /\ t' = t) Hm). intros l1. apply quietly_ok. }
  cbn. intros r t t' [(l1 & t1 & H1 & -> & ->)|[([] & _)|[H1 ->]]]; destruct (Hq _ _ _ H1) as (l' & Heq & Ho); [|done].
  injection Heq as <-. by exists l1, true.
Qed.
Lemma quietly_returns (m : ST Store Empty_set Local) Q l :
  quietly m Q -> (forall r t t', Q r t t' -> (exists l', r = Ok l') /\ (open_rows l t -> settled t')) ->
  quietly (returns m) (step_ok l).
Proof.
  intros Hm Hq. unfold returns. eapply quietly_weaken.
  { apply (quietly_bind _ _ _ (fun l1 r t t' => r = Ok (l1, false) /\ t' = t) Hm). intros l1. apply quietly_ok. }
  cbn. intros r t t' [(l1 & t1 & H1 & -> & ->)|[([] & _)|[H1 ->]]]; destruct (Hq _ _ _ H1) as ([l' Heq] & Ho); [|done].
  injection Heq as <-. by exists l1, false.
Qed.

Lemma add_open_message n u id created ms t :
  open_messages ms t -> id ∈ ms ->
  open_messages ms (set_assistant_messages (assistant_messages t ++ [assistant_row n u (new_message id created)]) t).
Proof. intros Ho Hid a [Ha| ->%list_elem_of_singleton]%elem_of_app; [by apply Ho|done]. Qed.

(** A message item is created if needed, and then [id] may be open. *)
Lemma create_missing_opens id created ms gs :
  id ∈ ms ->
  quietly (or_log (create_assistant_message_if_missing now response_id conversation_id user_id id created))
    (fun r t t' => r = Ok tt /\ responses t' = responses t /\ (open_messages ms t -> open_messages ms t') /\
       (open_reasonings gs t -> open_reasonings gs t')).
Proof.
  intros Hid. eapply quietly_weaken; [apply quietly_or_log, create_missing_effect|]. cbn.
  intros r t t' (r0 & [Hp Ht] & ->). split; [by destruct r0|]. destruct (first _ _).
  - by subst.
  - destruct Ht as [(n & u & ->)|[-> _]]; [|done]. split; [done|]. split; [|done]. intros Ho. by apply add_open_message.
Qed.

Lemma step_started l id : quietly (step now nonce drain response_id conversation_id user_id user_key tool_ack l (MessageStarted id)) (step_ok l).
Proof.
  cbn [step]. set (pending := default pending_default _).
  destruct (match p_created_at pending with Some t => (t, l) | None => allocate_created_at l end) as [created l1] eqn:Hl1.
  assert (pending_messages l1 = pending_messages l /\ pending_reasoning l1 = pending_reasoning l) as [Hm Hg].
  { by destruct (p_created_at pending); injection Hl1 as <- <-. }
  set (l2 := set_messages _ l1). eapply quietly_goes_on.
  { eapply (quietly_bind _ _ _ (fun _ r t t' => r = Ok l2 /\ t' = t)); [|intros []; apply quietly_ok].
    apply (create_missing_opens id created (pending_messages l2).*1 (pending_reasoning l).*1). apply elem_hm_put. by left. }
  cbn. intros r t t' [(u & t1 & (_ & _ & Ho1 & Ho2) & -> & ->)|[([] & _)|[[? _] _]]]; [|done]. exists l2. split; [done|].
  intros [Hom Hog]. split; [|unfold l2; cbn; rewrite Hg; by apply Ho2]. apply Ho1. eapply open_messages_mono; [|exact Hom].
  intros x Hx. apply elem_hm_put. right. by rewrite Hm.
Qed.

Lemma step_done l id reason : quietly (step now nonce drain response_id conversation_id user_id user_key tool_ack l (MessageDone id reason)) (step_ok l).
Proof.
  cbn [step]. set (pending := default pending_default _). set (l0 := set_messages _ l).
  destruct (match p_created_at pending with Some t => (t, l0) | None => allocate_created_at l0 end) as [created l1] eqn:Hl1.
  assert (pending_messages l1 = hm_remove id (pending_messages l) /\ pending_reasoning l1 = pending_reasoning l) as [Hm Hg].
  { by destruct (p_created_at pending); injection Hl1 as <- <-. }
  set (ms := id :: (pending_messages l).*1). set (gs := (pending_reasoning l).*1). eapply quietly_goes_on.
  { eapply (quietly_bind _ _ _ (fun _ r t t' => closes ms gs (filter (fun x => x <> id) ms) gs r l1 t t')).
    - apply (create_missing_opens id created ms gs). by left.
    - intros []. by apply finalize_message_closes. }
  cbn. intros r t t' [(u & t1 & (_ & _ & Ho1 & Ho2) & (l2 & -> & Hl2) & _ & Hc1 & Hc2)|[([] & _)|[[? _] _]]]; [|done].
  exists l2. split; [done|]. intros [Hom Hog]. unfold open_rows.
  assert (pending_messages l2 = pending_messages l1 /\ pending_reasoning l2 = pending_reasoning l1) as [-> ->] by (by destruct Hl2 as [-> | ->]).
  rewrite Hm, Hg. split; [|by apply Hc2, Ho2]. eapply open_messages_mono; [|apply Hc1, Ho1].
  - intros x. rewrite decide_False by tauto. intros [Hx Hin]%list_elem_of_filter. by apply elem_hm_remove.
  - eapply open_messages_mono; [|exact Hom]. intros x Hx. by right.
Qed.

Abbreviation the_step := (step now nonce drain response_id conversation_id user_id user_key tool_ack).

Lemma step_reasoning_started l id : quietly (the_step l (ReasoningStarted id)) (step_ok l).
Proof.
  cbn [step]. set (l0 := set_pending_reasoning _ l). cbn [allocate_created_at].
  set (l1 := set_next _ l0). eapply quietly_goes_on.
  { eapply (quietly_bind _ _ _ (fun _ r t t' => r = Ok l1 /\ t' = t)); [|intros []; apply quietly_ok].
    apply quietly_or_log, create_reasoning_effect. }
  cbn. intros r t t' [(u & t1 & (r0 & (Hp & Hc) & _) & -> & ->)|[([] & _)|[(r0 & (Hp & _) & Hr0) _]]]; [|by destruct r0].
  exists l1. split; [done|]. intros [Hom Hog].
  assert (open_reasonings (hm_put id (default EmptyString (hm_get id (pending_reasoning l))) (pending_reasoning l)).*1 t) as Hog'.
  { eapply open_reasonings_mono; [|exact Hog]. intros x Hx. apply elem_hm_put. by right. }
  destruct Hc as [(n & u' & ->)|[-> _]]; [|by split]. split; [done|].
  intros g [Hin| ->%list_elem_of_singleton]%elem_of_app; [by apply Hog'|]. intros _ _. apply elem_hm_put. by left.
Qed.

Lemma step_reasoning_done l id : quietly (the_step l (ReasoningDone id)) (step_ok l).
Proof.
  cbn [step]. set (content := default EmptyString _). set (l1 := set_pending_reasoning _ l). eapply quietly_goes_on.
  { by apply (finalize_reasoning_closes l1 id content STATUS_COMPLETED (pending_messages l).*1 (pending_reasoning l).*1). }
  cbn. intros r t t' ((l2 & -> & Hl2) & _ & Hc1 & Hc2). exists l2. split; [done|]. intros [Hom Hog]. unfold open_rows.
  assert (pending_messages l2 = pending_messages l1 /\ pending_reasoning l2 = pending_reasoning l1) as [-> ->] by (by destruct Hl2 as [-> | ->]).
  split; [by apply Hc1|]. eapply open_reasonings_mono; [|by apply Hc2].
  intros x [Hx Hin]%list_elem_of_filter. by apply elem_hm_remove.
Qed.

Lemma acknowledged_keeps b l (m : Db unit) Q :
  quietly m Q -> (forall r t t', Q r t t' -> r <> Panic /\ (open_rows l t -> open_rows l t')) ->
  quietly (goes_on (acknowledged tool_ack b (draw l) m)) (step_ok l).
Proof.
  intros Hm Hq. apply (quietly_goes_on _ (fun r t t' => exists l', r = Ok l' /\ (open_rows l t -> open_rows l' t'))); [|done].
  intros s r s' Hs. unfold acknowledged. destruct (m s) as [r0 s0] eqn:Hr0. destruct (Hm _ _ _ Hs Hr0) as [Hs0 H0].
  destruct (Hq _ _ _ H0) as [Hp Ho].
  destruct r0 as [u|e|]; [| |done]; intros [= <- <-]; (split; [done|]); eexists; (split; [done|]);
    intros Hopen%Ho; by destruct (tool_ack && b), tool_ack.
Qed.

Lemma step_tool_call l id name arguments : quietly (the_step l (ToolCall id name arguments)) (step_ok l).
Proof.
  cbn [step allocate_created_at]. eapply (quietly_weaken _ (step_ok (set_next (next_item_created_at l + MICROSECOND)%Z l))); [|done].
  eapply acknowledged_keeps; [apply tool_call_effect|]. cbn.
  intros r t t' [Hp Ht]. split; [done|]. destruct Ht as [(n & u & enc & _ & _ & ->)|[-> _]]; done.
Qed.
Lemma step_tool_output l id call output : quietly (the_step l (ToolOutput id call output)) (step_ok l).
Proof.
  cbn [step allocate_created_at]. eapply (quietly_weaken _ (step_ok (set_next (next_item_created_at l + MICROSECOND)%Z l))); [|done].
  eapply acknowledged_keeps; [apply tool_output_effect|]. cbn.
  intros r t t' [Hp Ht]. split; [done|]. destruct Ht as [(c & n & u & enc & _ & _ & _ & ->)|[-> _]]; done.
Qed.

(** Messages that only touch the maps. *)
Lemma step_local l l' :
  (forall x, x ∈ (pending_messages l).*1 -> x ∈ (pending_messages l').*1) ->
  (forall x, x ∈ (pending_reasoning l).*1 -> x ∈ (pending_reasoning l').*1) ->
  quietly (goes_on (st_ok l')) (step_ok l).
Proof.
  intros Hm Hg. eapply quietly_goes_on; [apply quietly_ok|]. cbn. intros r t t' [-> ->]. exists l'. split; [done|].
  intros [Hom Hog]. split; [by eapply open_messages_mono|by eapply open_reasonings_mono].
Qed.

Lemma response_done_settles l reason : quietly (the_step l (ResponseDone reason)) (step_ok l).
Proof.
  cbn [step]. eapply (quietly_returns _ (fun r t t' => (exists l', r = Ok l') /\ (open_rows l t -> settled t'))); [|done].
  eapply quietly_weaken.
  { eapply (quietly_bind _ _ (fun r t t' => (exists l', r = Ok l') /\ (open_rows l t -> open_messages [] t' /\ open_reasonings [] t'))
      (fun l' r t t' => (exists l', r = Ok l') /\ (open_messages [] t -> open_reasonings [] t -> settled t'))).
    - unfold nothing_pending. case_bool_decide as Hm; [case_bool_decide as Hg|]; cbn [andb].
      + eapply quietly_weaken; [apply quietly_ok|]. cbn. intros r t t' [-> ->]. split; [by eexists|].
        unfold open_rows. by rewrite Hm, Hg.
      + eapply quietly_weaken; [apply mark_incomplete_closes|]. by intros r t t' (? & _ & ?).
      + eapply quietly_weaken; [apply mark_incomplete_closes|]. by intros r t t' (? & _ & ?).
    - intros l'. eapply quietly_weaken.
      { apply (quietly_bind _ _ _ (fun _ r t t' => r = Ok l' /\ t' = t) (terminal_effect Completed)). intros []. apply quietly_ok. }
      cbn. intros r t t' [(u & t1 & [_ (at_ & n & ->)] & -> & ->)|[([] & _)|[[? _] _]]]; [|done]. split; [by eexists|].
      intros Hm Hg. by apply terminated_settles. }
  cbn. intros r t t' [(l1 & t1 & (_ & Ho) & Hl & Hset)|[([] & _)|[([? ?] & _) _]]]; [|done]. split; [done|].
  intros [Hm Hg]%Ho. by apply Hset.
Qed.

Lemma step_settles l msg : quietly (the_step l msg) (step_ok l).
Proof.
  destruct msg as [id|id delta|id reason|id|id delta|id|p c|reason|msg| |id name args|id call output].
  - apply step_started.
  - cbn [step]. apply step_local; [|done]. intros x Hx. apply elem_hm_put. by right.
  - apply step_done.
  - apply step_reasoning_started.
  - cbn [step]. apply step_local; [done|]. intros x Hx. apply elem_hm_put. by right.
  - apply step_reasoning_done.
  - by apply step_local.
  - apply response_done_settles.
  - cbn [step]. eapply quietly_returns; [by apply end_settles|done].
  - cbn [step]. eapply quietly_returns; [by apply end_settles|done].
  - apply step_tool_call.
  - apply step_tool_output.
Qed.

Lemma run_task_settles l rx :
  quietly (run_task now nonce drain response_id conversation_id user_id user_key tool_ack l rx)
    (fun r t t' => (exists l', r = Ok l') /\ (open_rows l t -> settled t')).
Proof.
  revert l. induction rx as [|msg rx IH]; intros l; cbn [run_task].
  - by apply end_settles.
  - eapply quietly_weaken.
    { apply (quietly_bind _ _ _ (fun (x : Local * bool) r t t' => (exists l', r = Ok l') /\ ((if x.2 then open_rows x.1 t else settled t) -> settled t'))
        (step_settles l msg)).
      intros [l' []]; cbn [fst snd]; [apply IH|]. eapply quietly_weaken; [apply quietly_ok|]. cbn. intros r t t' [-> ->]. eauto. }
    cbn. intros r t t' [(x & t1 & (l' & go & [= ->] & Ho) & Hl & Hset)|[([] & _)|[(l' & go & ? & _) _]]]; [|done].
    split; [done|]. intros Hopen. by apply Hset, Ho.
Qed.
End effects.

(** ** What every run of the task respects

    [R] relates the database before and after any run of [m]: it must hold of
    every statement the task executes, whatever fails. *)
Definition stable (R : Store -> Store -> Prop) {E A} (m : ST Store E A) : Prop := forall s r s', m s = (r, s') -> R s s'.

Section stable.
Context (R : Store -> Store -> Prop) `{!PreOrder R} (Hadvance : forall s, R s (advance s)).

Lemma stable_bind {E A B} (m : ST Store E A) (f : A -> ST Store E B) :
  stable R m -> (forall a, stable R (f a)) -> stable R (x ← m; f x).
Proof.
  intros Hm Hf s r s'. unfold mbind, ST_bind. destruct (m s) as [[a|e|] s1] eqn:Hr.
  - intros Hr2. etrans; [by eapply Hm|by eapply Hf].
  - intros [= <- <-]. by eapply Hm.
  - intros [= <- <-]. by eapply Hm.
Qed.
Lemma stable_pure {E A} (o : outcome E A) : stable R (@st_lift Store E A o).
Proof. by intros s r s' [= <- <-]. Qed.
Lemma stable_ok {E A} (a : A) : stable R (@st_ok Store E A a).
Proof. by intros s r s' [= <- <-]. Qed.
Lemma stable_err {E A} (e : E) : stable R (@st_err Store E A e).
Proof. by intros s r s' [= <- <-]. Qed.
Lemma stable_connection : stable R connection.
Proof. intros s r s'. unfold connection. destruct (faulty s); by intros [= <- <-]. Qed.
Lemma stable_map_err {E E' A} (f : E -> E') (m : ST Store E A) : stable R m -> stable R (st_map_err f m).
Proof. intros Hm s r s'. unfold st_map_err. destruct (m s) as [r0 s0] eqn:Hr. intros [= <- <-]. by eapply Hm. Qed.
Lemma stable_statement {A} (f : Z -> Tables -> outcome DieselError (A * Tables)) :
  (forall s a t', f (serial s) (tables s) = Ok (a, t') -> R s (with_tables t' (advance s))) -> stable R (statement f).
Proof.
  intros Hf s r s'. unfold statement. destruct (faulty s); [by intros [= <- <-]|].
  destruct (f _ _) as [[a t]|e|] eqn:Hr; intros [= <- <-]; [by eapply Hf|done..].
Qed.
Lemma stable_query {A} (f : Z -> Tables -> outcome DieselError (A * Tables)) :
  (forall s a t', f (serial s) (tables s) = Ok (a, t') -> R s (with_tables t' (advance s))) -> stable R (query f).
Proof. intros Hf. by apply stable_map_err, stable_statement. Qed.
Lemma stable_method {A} (m : ST Store ResponsesError A) : stable R m -> stable R (method m).
Proof. intros Hm. apply stable_bind; [apply stable_connection|intros _]. by apply stable_map_err. Qed.
Lemma stable_logged {A} (m : ST Store DBError A) : stable R m -> stable R (logged m).
Proof. intros Hm. apply stable_map_err, stable_bind; [done|intros; apply stable_ok]. Qed.
Lemma stable_or_log (m : Db unit) : stable R m -> stable R (or_log m).
Proof. intros Hm s r s'. unfold or_log. destruct (m s) as [[]] eqn:Hr; intros [= <- <-]; by eapply Hm. Qed.
Lemma stable_acknowledged b b' l m : stable R m -> stable R (acknowledged b b' l m).
Proof. intros Hm s r s'. unfold acknowledged. destruct (m s) as [[]] eqn:Hr; intros [= <- <-]; by eapply Hm. Qed.
End stable.

Create HintDb stable.
#[export] Hint Resolve stable_pure stable_ok stable_err stable_connection stable_bind stable_map_err stable_query
  stable_method stable_logged stable_or_log stable_acknowledged stable_statement : stable.

(** The task inserts items, updates them, inserts tool calls under the next id,
    and ends its own response if that is still in progress. *)
Section task_stable.
Context {cr : Crypto} {tk : Tokenizer} {sj : SerdeJson}.
Context (now : Z -> Z) (nonce : nat -> bytes) (drain : forall A, list (Uuid * A) -> list (Uuid * A)).
Context (response_id conversation_id : Z) (user_id : Uuid) (user_key : Encrypt.SecretKey) (tool_ack : bool).
Context (R : Store -> Store -> Prop) `{!PreOrder R} (Hadvance : forall s, R s (advance s)).
Context (Hitems : forall s t', responses t' = responses (tables s) -> tool_calls t' = tool_calls (tables s) ->
  R s (with_tables t' (advance s))).
Context (Hcall : forall s n u, R s (with_tables
  (set_tool_calls (tool_calls (tables s) ++ [MkToolCall (serial s) n u]) (tables s)) (advance s))).
Context (Hterminal : forall s status at_ u, R s (with_tables (terminated response_id status at_ u (tables s)) (advance s))).

Lemma insert_items {A} c r taken s (row a : A) t1 t' :
  responses t1 = responses (tables s) -> tool_calls t1 = tool_calls (tables s) ->
  insert_checked c r taken (tables s) row t1 = Ok (a, t') -> R s (with_tables t' (advance s)).
Proof.
  intros Hr Hc. unfold insert_checked. destruct taken; [done|]. destruct (negb _); [done|]. intros [= <- <-]. by apply Hitems.
Qed.
Ltac st := eauto 8 with stable.
Ltac item_rows := intros ? ? ?; first [ apply insert_items; reflexivity | intros [= <- <-]; by apply Hitems
  | cbn; destruct (first _ _); [|discriminate]; cbn; intros [= <- <-]; by apply Hitems ].

Lemma stable_create_missing id created :
  stable R (create_assistant_message_if_missing now response_id conversation_id user_id id created).
Proof.
  apply stable_bind; [done| |].
  - apply stable_map_err, stable_bind; [done|st|intros _]. apply stable_map_err, stable_statement; [done..|]. item_rows.
  - intros [found|]; [st|]. apply stable_logged, stable_method, stable_query; [done..|]. item_rows.
Qed.
Lemma stable_finalize_message l id content status reason :
  stable R (run_logged (finalize_assistant_message now nonce user_key l id content status reason)).
Proof.
  assert (forall enc, stable R (logged (update_assistant_message now id enc (clamp_token_count content) status reason))) as Hu.
  { intros enc. apply stable_logged, stable_method, stable_query; [done..|]. item_rows. }
  apply stable_bind; [done| |st]. apply stable_or_log. unfold finalize_assistant_message. destruct (is_empty content); cbn [fst]; st.
Qed.
Lemma stable_finalize_reasoning l id content status :
  stable R (run_logged (finalize_reasoning_item now nonce user_key l id content status)).
Proof.
  assert (forall enc, stable R (logged (update_reasoning_item now id enc (clamp_token_count content) status))) as Hu.
  { intros enc. apply stable_logged, stable_method, stable_query; [done..|]. item_rows. }
  apply stable_bind; [done| |st]. apply stable_or_log. unfold finalize_reasoning_item. destruct (is_empty content); cbn [fst]; st.
Qed.
Lemma stable_mark l reason : stable R (mark_pending_items_incomplete now nonce drain user_key l reason).
Proof.
  unfold mark_pending_items_incomplete. apply stable_bind; [done| |].
  - generalize (set_messages [] l), (drain _ (pending_messages l)). intros l0 items. revert l0.
    induction items as [|[id p] items IH]; intros l0; cbn; [st|]. apply stable_bind; [done|apply stable_finalize_message|apply IH].
  - intros l1. generalize (set_pending_reasoning [] l1), (drain _ (pending_reasoning l1)). intros l0 items. revert l0.
    induction items as [|[id p] items IH]; intros l0; cbn; [st|]. apply stable_bind; [done|apply stable_finalize_reasoning|apply IH].
Qed.
Lemma stable_terminal status : stable R (update_terminal_response_status now response_id status).
Proof.
  intros s. apply stable_or_log, stable_logged, stable_bind; [done..| |st]. apply stable_method, stable_query; [done..|].
  intros s1 a t' [= <- <-]. apply Hterminal.
Qed.
Lemma stable_tool_call l id name args created :
  stable R (persist_tool_call now nonce response_id conversation_id user_id user_key l id name args created).
Proof.
  apply stable_bind; [done|st|intros enc]. apply stable_logged, stable_method, stable_query; [done..|].
  intros s a t'. unfold insert_checked. destruct (existsb _ _); [done|]. destruct (negb _); [done|]. intros [= <- <-]. apply Hcall.
Qed.
Lemma stable_tool_output l id call output created :
  stable R (persist_tool_output now nonce response_id conversation_id user_id user_key l id call output created).
Proof.
  apply stable_bind; [done| |intros c; apply stable_bind; [done|st|intros enc]].
  - apply stable_map_err, stable_method, stable_map_err, stable_statement; [done..|]. item_rows.
  - apply stable_logged, stable_method, stable_query; [done..|]. intros s a t'. destruct (negb _); [done|]. by apply insert_items.
Qed.

Lemma stable_step l msg : stable R (step now nonce drain response_id conversation_id user_id user_key tool_ack l msg).
Proof.
  destruct msg; cbn [step]; try (destruct (match p_created_at _ with Some t => _ | None => _ end)); cbn [allocate_created_at];
    (apply stable_bind; [done| |st]).
  - apply stable_bind; [done|apply stable_or_log, stable_create_missing|st].
  - st.
  - apply stable_bind; [done|apply stable_or_log, stable_create_missing|intros; apply stable_finalize_message].
  - apply stable_bind; [done| |st]. apply stable_or_log, stable_logged, stable_method, stable_query; [done..|]. item_rows.
  - st.
  - apply stable_finalize_reasoning.
  - st.
  - apply stable_bind; [done|destruct (nothing_pending l); [st|apply stable_mark]|intros l1].
    apply stable_bind; [done|apply stable_terminal|st].
  - apply stable_bind; [done|apply stable_terminal|intros; apply stable_mark].
  - apply stable_bind; [done|apply stable_terminal|intros; apply stable_mark].
  - apply stable_acknowledged, stable_tool_call.
  - apply stable_acknowledged, stable_tool_output.
Qed.
Lemma stable_task l rx : stable R (run_task now nonce drain response_id conversation_id user_id user_key tool_ack l rx).
Proof.
  revert l. induction rx as [|msg rx IH]; intros l; cbn [run_task].
  - apply stable_bind; [done|apply stable_terminal|intros; apply stable_mark].
  - apply stable_bind; [done|apply stable_step|intros [l' []]; [apply IH|by apply stable_ok]].
Qed.
End task_stable.

(** ** Final statuses *)
Definition final_status (s : ResponseStatus) : bool :=
  match s with Queued | InProgress => false | Completed | Failed | RCancelled => true end.
(** The responses that have ended are still there, as they were. *)
Definition keeps (s s' : Store) : Prop :=
  forall r, r ∈ responses (tables s) -> final_status (r_status r) = true -> r ∈ responses (tables s').
#[export] Instance keeps_preorder : PreOrder keeps.
Proof. split; [by intros s r Hr _|]. intros s1 s2 s3 H12 H23 r Hr Hf. auto. Qed.

Lemma keeps_same s t' : responses t' = responses (tables s) -> keeps s (with_tables t' (advance s)).
Proof. intros Heq r Hr _. cbn. by rewrite Heq. Qed.
Lemma keeps_advance s : keeps s (advance s).
Proof. by intros r Hr _. Qed.
Lemma keeps_update p f s : (forall r, p r = true -> final_status (r_status r) = false) ->
  keeps s (with_tables (set_responses (update_rows p f (responses (tables s))) (tables s)) (advance s)).
Proof.
  intros Hp r Hr Hf. apply elem_update. exists r. split; [done|]. destruct (p r) eqn:He; [|done]. by rewrite (Hp r He) in Hf.
Qed.
Lemma keeps_terminal response_id s status at_ u : keeps s (with_tables (terminated response_id status at_ u (tables s)) (advance s)).
Proof. apply keeps_update. intros r [_ Hs]%andb_true_iff. apply bool_decide_eq_true in Hs. by rewrite Hs. Qed.
#[export] Hint Resolve keeps_preorder keeps_advance keeps_terminal : stable.

Lemma keeps_create_response now n : stable keeps (create_response now n).
Proof.
  apply stable_method, stable_query; [eauto with stable..|]. intros s a t'. unfold insert_checked. destruct (existsb _ _); [done|].
  destruct (negb _); [done|]. intros [= <- <-] r Hr _. cbn. apply elem_of_app. by left.
Qed.
Lemma keeps_get uuid user : stable keeps (get_by_uuid_and_user uuid user).
Proof.
  apply stable_map_err, stable_statement; [eauto with stable..|]. intros s a t'. destruct (first _ _); [|done]. cbn. intros [= <- <-].
  by apply keeps_same.
Qed.
Lemma keeps_cancel now uuid user : stable keeps (cancel_response now uuid user).
Proof.
  apply stable_method; [eauto with stable..|]. intros s r s'. unfold cancel_by_uuid_and_user.
  destruct (statement _ s) as [r0 s0] eqn:Hst.
  assert (keeps s s0) as Hk.
  { eapply stable_statement; [eauto with stable.. | |exact Hst]. intros s1 a t'. cbn. destruct (first _ _); [|done]. cbn. intros [= <- <-].
    apply keeps_update. intros x [_ Hc]%andb_true_iff. unfold cancelable in Hc. apply bool_decide_eq_true in Hc.
    by destruct Hc as [-> | ->]. }
  destruct r0 as [a|[]|]; try (by intros [= <- <-]).
  intros Hr. etrans; [exact Hk|]. eapply stable_bind; [eauto with stable|apply keeps_get|intros; apply stable_err; eauto with stable|exact Hr].
Qed.

(** ** Properties *)
Section properties.
Context {cr : Crypto} {tk : Tokenizer} {sj : SerdeJson}.
Context (now : Z -> Z) (nonce : nat -> bytes) (drain : forall A, list (Uuid * A) -> list (Uuid * A)).

(** C35. No response is left hanging.  Whatever messages reach the storage task,
    in whatever order, and wherever they stop (a cancellation, an error, the
    channel closing early), the task returns without panicking, and then no
    message and no reasoning item of the response is in progress and neither is
    the response itself. *)
Theorem nothing_left_in_progress {cl : CryptoLaws cr} response_id conversation_id user_id user_key tool_ack rx first_at s :
  sealing nonce user_key -> (forall A m, drain A m ≡ₚ m) -> faults s = [] ->
  open_messages response_id [] (tables s) -> open_reasonings response_id [] (tables s) ->
  exists l s', storage_task now nonce drain response_id conversation_id user_id user_key tool_ack rx first_at s = (Ok l, s') /\
    settled response_id (tables s').
Proof.
  intros Hseal Hdrain Hs Hm Hg. unfold storage_task. set (l0 := MkLocal _ _ _ _ _).
  pose proof (run_task_settles now nonce drain response_id conversation_id user_id user_key tool_ack Hseal Hdrain l0 rx) as Hq.
  destruct (run_task _ _ _ _ _ _ _ _ _ _ s) as [r s'] eqn:Hr. destruct (Hq _ _ _ Hs Hr) as [_ [[l ->] Hset]].
  exists l, s'. split; [done|]. by apply Hset.
Qed.

(** One database action of the running service: a request that creates or
    cancels a response, or some storage task, in any state, at any message. *)
Inductive Call :=
| CallCreate (n : NewResponse)
| CallCancel (id user : Uuid)
| CallMessage (response_id conversation_id : Z) (user_id : Uuid) (user_key : Encrypt.SecretKey) (tool_ack : bool)
    (l : Local) (msg : StorageMessage)
| CallClosed (response_id conversation_id : Z) (user_id : Uuid) (user_key : Encrypt.SecretKey) (tool_ack : bool) (l : Local).
Definition run_call (c : Call) (s : Store) : Store :=
  match c with
  | CallCreate n => (create_response now n s).2
  | CallCancel id user => store_of (cancel_route now id user (MkRoutes s [])).2
  | CallMessage r c u k t l msg => (step now nonce drain r c u k t l msg s).2
  | CallClosed r c u k t l => (run_task now nonce drain r c u k t l [] s).2
  end.

Lemma lift_db_keeps {A} f (m : ST Store DBError A) s r s' :
  stable keeps m -> lift_db f m s = (r, s') -> keeps (store_of s) (store_of s').
Proof. intros Hm. unfold lift_db. destruct (m (store_of s)) as [r0 s0] eqn:Hr. intros [= <- <-]. by eapply Hm. Qed.

Lemma cancel_route_keeps id user s r s' :
  cancel_route now id user s = (r, s') -> keeps (store_of s) (store_of s').
Proof.
  unfold cancel_route, mbind, ST_bind. destruct (lift_db get_error _ s) as [r1 s1] eqn:H1.
  assert (keeps (store_of s) (store_of s1)) as Hk1.
  { eapply lift_db_keeps; [|exact H1]. apply stable_method; [eauto with stable..|apply keeps_get]. }
  destruct r1 as [x|e|]; [|by intros [= <- <-]..]. destruct (negb _); [by intros [= <- <-]|].
  destruct (lift_db cancel_error _ s1) as [r2 s2] eqn:H2.
  assert (keeps (store_of s1) (store_of s2)) as Hk2 by (eapply lift_db_keeps; [apply keeps_cancel|exact H2]).
  assert (keeps (store_of s) (store_of s2)) as Hk by (by etrans).
  by destruct r2; intros [= <- <-].
Qed.

Lemma call_keeps c s : keeps s (run_call c s).
Proof.
  destruct c as [n|id user|r c u k t l msg|r c u k t l]; cbn [run_call].
  - destruct (create_response now n s) eqn:Hr. by eapply keeps_create_response.
  - destruct (cancel_route now id user (MkRoutes s [])) eqn:Hr. by apply cancel_route_keeps in Hr.
  - destruct (step now nonce drain r c u k t l msg s) eqn:Hr. by eapply stable_step; [..|exact Hr]; eauto using keeps_same with stable.
  - destruct (run_task now nonce drain r c u k t l [] s) eqn:Hr. by eapply stable_task; [..|exact Hr]; eauto using keeps_same with stable.
Qed.

(** C36. An ended response stays as it ended.  Once a response is completed,
    failed or cancelled, no cancellation request and no storage task, in any
    interleaving and whichever statements fail, changes its status or its
    completion time. *)
Theorem final_status_is_final calls s r :
  r ∈ responses (tables s) -> final_status (r_status r) = true ->
  r ∈ responses (tables (foldl (fun s c => run_call c s) s calls)).
Proof.
  revert s. induction calls as [|c calls IH]; intros s Hr Hf; [done|]. cbn [foldl]. apply IH; [|done].
  by apply (call_keeps c s).
Qed.

Definition cancelled (at_ : Z) (r : Response) : Response := with_status RCancelled (Some at_) at_ r.

Lemma first_and {A} (p q : A -> bool) l x : first p l = Some x -> q x = true -> first (fun y => p y && q y) l = Some x.
Proof.
  unfold first. intros ([i y] & Hi & ->)%fmap_Some Hq. apply list_find_Some in Hi as (Hi & Hp & Hbefore).
  apply fmap_Some. exists (i, y). split; [|done]. apply list_find_Some. split; [done|]. split; [by rewrite Hp|].
  intros j z Hj Hlt Hpz%andb_true_iff. by eapply Hbefore; [| |apply Hpz].
Qed.
Lemma first_found {A} (p : A -> bool) l x : first p l = Some x -> p x = true /\ x ∈ l.
Proof.
  unfold first. intros ([i y] & Hi & ->)%fmap_Some. apply list_find_Some in Hi as (Hi & Hp & _).
  split; [done|]. by eapply list_elem_of_lookup_2.
Qed.
Lemma first_Some_None {A} (p q : A -> bool) l : (forall x, x ∈ l -> p x = true -> q x = false) -> first (fun y => p y && q y) l = None.
Proof.
  intros Hn. unfold first. apply fmap_None, list_find_None, Forall_forall. intros x Hx [Hp Hq]%andb_true_iff.
  by rewrite (Hn x Hx Hp) in Hq.
Qed.

Lemma statement_unfaulty {A} (f : Z -> Tables -> outcome DieselError (A * Tables)) s :
  faults s = [] -> statement f s =
    match f (serial s) (tables s) with
    | Ok (a, t) => (Ok a, with_tables t (advance s)) | Err e => (Err e, advance s) | Panic => (Panic, advance s) end.
Proof. intros Hs. unfold statement, faulty. by rewrite Hs. Qed.
Lemma method_runs {A} (m : ST Store ResponsesError A) s :
  faults s = [] -> method m s = st_map_err ResponsesErr m (advance s).
Proof. intros Hs. unfold method, mbind, ST_bind, connection, faulty. by rewrite Hs. Qed.
Lemma advance_unfaulty s : faults s = [] -> faults (advance s) = [].
Proof. intros Hs. cbn. by rewrite Hs. Qed.

Lemma get_response_runs id user s :
  faults s = [] ->
  get_response_by_uuid_and_user id user s =
    (match first (response_of id user) (responses (tables s)) with
     | Some r => Ok r | None => Err (ResponsesErr ResponseNotFound) end, advance (advance s)).
Proof.
  intros Hs. unfold get_response_by_uuid_and_user. rewrite (method_runs _ _ Hs).
  unfold st_map_err, get_by_uuid_and_user, st_map_err. rewrite (statement_unfaulty _ _ (advance_unfaulty _ Hs)). cbn [tables advance].
  destruct (first _ _); done.
Qed.

(** What the database does with a cancellation. *)
Lemma cancel_runs id user s :
  faults s = [] -> NoDup ((fun r => nr_uuid (r_new r)) <$> responses (tables s)) ->
  exists s', cancel_response now id user s =
    (match first (response_of id user) (responses (tables s)) with
     | None => Err (ResponsesErr ResponseNotFound)
     | Some r => if final_status (r_status r) then Err (ResponsesErr ValidationError) else Ok (cancelled (now (serial s + 1)%Z) r)
     end, s') /\
    match first (response_of id user) (responses (tables s)) with
    | Some r => if final_status (r_status r) then tables s' = tables s
                else responses (tables s') = update_rows (fun x => response_of id user x && cancelable x)
                       (cancelled (now (serial s + 1)%Z)) (responses (tables s))
    | None => tables s' = tables s
    end.
Proof.
  intros Hs Hnd. unfold cancel_response. rewrite (method_runs _ _ Hs). unfold st_map_err, cancel_by_uuid_and_user.
  rewrite (statement_unfaulty _ _ (advance_unfaulty _ Hs)). cbn [tables advance serial].
  assert (forall r, cancelable r = negb (final_status (r_status r))) as Hc.
  { intros r. unfold cancelable. by destruct (r_status r). }
  assert (forall x r, x ∈ responses (tables s) -> r ∈ responses (tables s) -> response_of id user x = true ->
    response_of id user r = true -> x = r) as Huniq.
  { intros x r Hx Hr [Hx1%bool_decide_eq_true _]%andb_true_iff [Hr1%bool_decide_eq_true _]%andb_true_iff.
    apply list_elem_of_lookup in Hx as [i Hi], Hr as [j Hj].
    assert (i = j) as ->; [|congruence]. apply (NoDup_lookup _ i j (nr_uuid (r_new x)) Hnd); rewrite list_lookup_fmap.
    - by rewrite Hi.
    - rewrite Hj. cbn. congruence. }
  assert (faults (advance (advance s)) = []) as Hs2 by (by apply advance_unfaulty, advance_unfaulty).
  destruct (first (response_of id user) (responses (tables s))) as [r|] eqn:Hf.
  - destruct (first_found _ _ _ Hf) as [Hr Hin]. destruct (final_status (r_status r)) eqn:Hfin.
    + rewrite first_Some_None.
      2:{ intros x Hx Hp. rewrite (Huniq x r Hx Hin Hp Hr), Hc. by rewrite Hfin. }
      cbn. unfold get_by_uuid_and_user, mbind, ST_bind, st_map_err. rewrite (statement_unfaulty _ _ Hs2). cbn [tables advance].
      rewrite Hf. cbn. by eexists.
    + rewrite (first_and _ _ _ r Hf) by (by rewrite Hc, Hfin). cbn. by eexists.
  - rewrite first_Some_None.
    2:{ intros x Hx Hp. exfalso. unfold first in Hf. apply fmap_None, list_find_None in Hf. rewrite Forall_forall in Hf. by apply (Hf x). }
    cbn. unfold get_by_uuid_and_user, mbind, ST_bind, st_map_err. rewrite (statement_unfaulty _ _ Hs2). cbn [tables advance].
    rewrite Hf. cbn. by eexists.
Qed.

(** Cancelling does exactly what its answer says.  For a response the user
    does not have, the route answers not found; for one that has ended, bad
    request, and neither changes a table or signals a stream; otherwise the row
    becomes cancelled, all other rows stay, and then the stream is signalled.
    If the response ended between the check and the update, the database
    reports a conflict, which the route answers as a bad request. *)
Theorem cancel_exact id user s sent :
  faults s = [] -> NoDup ((fun r => nr_uuid (r_new r)) <$> responses (tables s)) ->
  exists s', cancel_route now id user (MkRoutes s sent) =
    match first (response_of id user) (responses (tables s)) with
    | None => (Err Api.NotFound, MkRoutes s' sent)
    | Some r => if final_status (r_status r) then (Err Api.BadRequest, MkRoutes s' sent)
                else (Ok (cancelled (now (serial s + 3)%Z) r), MkRoutes s' (sent ++ [id]))
    end /\
    match first (response_of id user) (responses (tables s)) with
    | Some r => if final_status (r_status r) then tables s' = tables s
                else responses (tables s') = update_rows (fun x => response_of id user x && cancelable x)
                       (cancelled (now (serial s + 3)%Z)) (responses (tables s))
    | None => tables s' = tables s
    end /\
    (forall r, first (response_of id user) (responses (tables s)) = Some r -> final_status (r_status r) = true ->
       map_err cancel_error (cancel_response now id user s).1 = Err Api.BadRequest).
Proof.
  intros Hs Hnd.
  assert (forall r, first (response_of id user) (responses (tables s)) = Some r -> final_status (r_status r) = true ->
    map_err cancel_error (cancel_response now id user s).1 = Err Api.BadRequest) as Hrace.
  { intros r Hf Hfin. destruct (cancel_runs id user s Hs Hnd) as (s' & -> & _). by rewrite Hf, Hfin. }
  unfold cancel_route, mbind, ST_bind, lift_db. cbn [store_of]. rewrite (get_response_runs _ _ _ Hs).
  destruct (first (response_of id user) (responses (tables s))) as [r|] eqn:Hf; [|by eexists]. cbn [map_err].
  assert (bool_decide (r_status r = Queued \/ r_status r = InProgress) = negb (final_status (r_status r))) as ->
    by (by destruct (r_status r)).
  destruct (final_status (r_status r)) eqn:Hfin; cbn [negb]; [by eexists|].
  destruct (cancel_runs id user (advance (advance s)) (advance_unfaulty _ (advance_unfaulty _ Hs)) Hnd) as (s' & Hrun & Ht).
  cbn [tables advance store_of broadcast] in *. rewrite Hf, Hfin in Hrun, Ht.
  replace (serial (advance (advance s)) + 1)%Z with (serial s + 3)%Z in Hrun, Ht by (cbn; lia).
  rewrite Hrun. cbn. by exists s'.
Qed.
End properties.

(** ** Witnesses *)
Section witnesses.
#[local] Existing Instances ToyCrypto.toy ToyCrypto.toy_laws.
#[local] Instance demo_tokens : Tokenizer := fun s => Z.of_nat (String.length s).
#[local] Instance demo_serde : SerdeJson := {| from_str _ := None; to_string _ := EmptyString |}.
Definition demo_key : Encrypt.SecretKey := Encrypt.MkSecretKey (replicate 32 Byte.x05).
Definition demo_nonce (i : nat) : bytes := replicate 12 Byte.x06.
Definition demo_drain A (m : list (Uuid * A)) : list (Uuid * A) := m.
Definition demo_user : Uuid := replicate 16 Byte.x01.
Definition demo_uuid : Uuid := replicate 16 Byte.x02.
Definition demo_response (status : ResponseStatus) : Response :=
  MkResponse 5 (MkNewResponse demo_uuid demo_user 9 InProgress "m" None None None None false true None) status 0 None 0.
Definition demo_store (status : ResponseStatus) : Store :=
  MkStore (MkTables [9%Z] [demo_response status] [] [] [] [] []) 20 [].

Lemma demo_sealing : sealing demo_nonce demo_key.
Proof. split; [done|done|]. intros i text. by eexists. Qed.

(** A stream cut off by a cancellation. *)
Definition demo_rx : list StorageMessage :=
  [ReasoningStarted [Byte.x07]; MessageStarted [Byte.x08]; ContentDelta [Byte.x08] "hel"; Cancelled; ContentDelta [Byte.x08] "lo"].
Lemma nothing_left_in_progress_witness :
  exists l s', storage_task (fun n => n) demo_nonce demo_drain 5 9 demo_user demo_key true demo_rx 1000 (demo_store InProgress) = (Ok l, s') /\
    settled 5 (tables s').
Proof.
  apply (nothing_left_in_progress (fun n => n) demo_nonce demo_drain (cl := ToyCrypto.toy_laws)); [apply demo_sealing|done|done|..].
  - intros a Ha. by apply elem_of_nil in Ha.
  - intros a Ha. by apply elem_of_nil in Ha.
Defined.

Lemma final_status_is_final_witness :
  demo_response RCancelled ∈ responses (tables (foldl (fun s c => run_call (fun n => n) demo_nonce demo_drain c s) (demo_store RCancelled)
    [CallMessage 5 9 demo_user demo_key true (MkLocal [] [] 0 0 []) (ResponseDone "stop"); CallCancel demo_uuid demo_user])).
Proof. apply final_status_is_final; [by left|done]. Defined.

Lemma cancel_exact_witness :
  exists s', cancel_route (fun n => n) demo_uuid demo_user (MkRoutes (demo_store InProgress) []) =
    (Ok (cancelled 23 (demo_response InProgress)), MkRoutes s' [demo_uuid]).
Proof.
  destruct (cancel_exact (fun n => n) demo_uuid demo_user (demo_store InProgress) []) as (s' & H & _).
  - reflexivity.
  - vm_compute. repeat constructor. by intros ?%elem_of_nil.
  - exists s'. exact H.
Defined.
End witnesses.
End Storage.
