(* ===== verification/ClientStream.v ===== *)
(** * What the client receives

    The consumer side of a response stream in
    [src/src/web/responses/handlers.rs]: the items the event loop keeps and the
    events it yields ([events.rs], [builders.rs]).  An event is kept as the value
    that is serialized and encrypted for the session; that encryption is
    [Sessions.encrypt_session_data], which can fail at any event. *)

From S2P Require Import Prelude Text Json Crypto Api Models Encrypt Conversions Database Turns Responses Storage.

Module ClientStream.
Import Responses.
Import Turns(StorageMessage(..)).

(** [as i32], and [+=] on [i32] as a release build computes it. *)
Definition as_i32 (z : Z) : Z := ((z + 2 ^ 31) mod 2 ^ 32 - 2 ^ 31)%Z.
Definition i32_add (a b : Z) : Z := as_i32 (a + b).

(** ** The values sent *)
Record ContentPart := MkPart {
  part_type : string; annotations : list Value; logprobs : list Value; part_text : string }.
Definition new_output_text (text : string) : ContentPart := MkPart "output_text" [] [] text.
Record OutputItem := MkItem {
  output_type : string; item_id : string; item_status : string; role : option string;
  content : option (list ContentPart); call_id : option string; item_name : option string;
  arguments : option string; output : option string }.
Record ResponseUsage := MkUsage {
  input_tokens : Z; cached_tokens : Z; output_tokens : Z; reasoning_tokens : Z; total_tokens : Z }.
Definition build_usage (prompt_tokens completion_tokens : Z) : ResponseUsage :=
  MkUsage prompt_tokens 0 completion_tokens 0 (i32_add prompt_tokens completion_tokens).

(** The members of the response object that come from the row, and those that
    never vary. *)
Record ResponseHead := MkHead {
  h_id : Uuid; object : string; h_created_at : Z; background : bool; error : option unit;
  incomplete_details : option Value; instructions : option string; max_output_tokens : option Z;
  max_tool_calls : option Z; h_model : string; parallel_tool_calls : bool; previous_response_id : option Uuid;
  prompt_cache_key : option string; effort : option string; summary : option string;
  safety_identifier : option string; store : bool; temperature : spec_float; text_format : string;
  tool_choice : string; tools : list Value; top_logprobs : Z; top_p : spec_float; truncation : string;
  user : option string }.
Record ResponsesCreateResponse := MkCreateResponse {
  head_of : ResponseHead; cr_status : string; cr_output : list OutputItem; cr_usage : option ResponseUsage;
  cr_metadata : option Value }.

(** [DateTime::timestamp], of nanoseconds. *)
Definition timestamp (t : Z) : Z := (t / 10 ^ 9)%Z.
Definition from_response (response : Response) : ResponsesCreateResponse :=
  let n := r_new response in
  let sampling := Models.sampling (Models.responses (Models.model_config (nr_model n))) in
  MkCreateResponse
    (MkHead (nr_uuid n) "response" (timestamp (r_created_at response)) false None None None (nr_max_output_tokens n)
      None (nr_model n) (nr_parallel_tool_calls n) None None None None None (nr_store n)
      (default (Models.temperature sampling) (nr_temperature n)) "text" (default "auto" (nr_tool_choice n)) [] 0
      (default (Models.top_p sampling) (nr_top_p n)) "disabled" None)
    Storage.STATUS_IN_PROGRESS [] None None.
Definition with_status (s : string) (r : ResponsesCreateResponse) : ResponsesCreateResponse :=
  MkCreateResponse (head_of r) s (cr_output r) (cr_usage r) (cr_metadata r).
Definition with_output (o : list OutputItem) (r : ResponsesCreateResponse) : ResponsesCreateResponse :=
  MkCreateResponse (head_of r) (cr_status r) o (cr_usage r) (cr_metadata r).
Definition with_usage (u : ResponseUsage) (r : ResponsesCreateResponse) : ResponsesCreateResponse :=
  MkCreateResponse (head_of r) (cr_status r) (cr_output r) (Some u) (cr_metadata r).
Definition with_metadata (m : option Value) (r : ResponsesCreateResponse) : ResponsesCreateResponse :=
  MkCreateResponse (head_of r) (cr_status r) (cr_output r) (cr_usage r) m.

Section items.
Context `{UuidText}.
Definition new_message (message_id : Uuid) : OutputItem :=
  MkItem "message" (uuid_to_string message_id) Storage.STATUS_IN_PROGRESS (Some "assistant") (Some []) None None None None.
Definition message_item (id : Uuid) (status : string) (parts : list ContentPart) : OutputItem :=
  MkItem (output_type (new_message id)) (item_id (new_message id)) status (role (new_message id)) (Some parts) None None None None.
Definition reasoning_item (id : Uuid) (status : string) : OutputItem :=
  MkItem "reasoning" (uuid_to_string id) status None (Some []) None None None None.
Definition tool_call_item (id : Uuid) (status : string) (call : Uuid) (name : string) (arguments : option string) : OutputItem :=
  MkItem "tool_call" (uuid_to_string id) status None None (Some (uuid_to_string call)) (Some name) arguments None.
Definition tool_output_item (id : Uuid) (status : string) (call : option Uuid) (output : option string) : OutputItem :=
  MkItem "tool_output" (uuid_to_string id) status None None (uuid_to_string <$> call) None None output.
End items.

(** ** Events *)
Inductive ResponseEvent :=
| Created (response : ResponsesCreateResponse) (sequence_number : Z)
| InProgress (response : ResponsesCreateResponse) (sequence_number : Z)
| OutputItemAdded (sequence_number output_index : Z) (item : OutputItem)
| ContentPartAdded (sequence_number : Z) (item_id : string) (output_index content_index : Z) (part : ContentPart)
| OutputTextDelta (delta item_id : string) (output_index content_index sequence_number : Z) (logprobs : list Value)
| OutputTextDone (sequence_number : Z) (item_id : string) (output_index content_index : Z) (text : string) (logprobs : list Value)
| ReasoningTextDelta (delta item_id : string) (output_index content_index sequence_number : Z)
| ReasoningTextDone (sequence_number : Z) (item_id : string) (output_index content_index : Z) (text : string)
| ContentPartDone (sequence_number : Z) (item_id : string) (output_index content_index : Z) (part : ContentPart)
| OutputItemDone (sequence_number output_index : Z) (item : OutputItem)
| Completed (response : ResponsesCreateResponse) (sequence_number : Z)
| Cancelled (id : string) (created_at : Z) (data_id : Uuid)
| Error (error_type message : string)
| ToolCallCreated (sequence_number output_index : Z) (tool_call_id : Uuid) (name : string) (arguments : Value)
| ToolOutputCreated (sequence_number output_index : Z) (tool_output_id tool_call_id : Uuid) (output : string).

Definition event_type (e : ResponseEvent) : string :=
  match e with
  | Created _ _ => "response.created" | InProgress _ _ => "response.in_progress"
  | OutputItemAdded _ _ _ => "response.output_item.added" | ContentPartAdded _ _ _ _ _ => "response.content_part.added"
  | OutputTextDelta _ _ _ _ _ _ => "response.output_text.delta" | OutputTextDone _ _ _ _ _ _ => "response.output_text.done"
  | ReasoningTextDelta _ _ _ _ _ => "response.reasoning_text.delta" | ReasoningTextDone _ _ _ _ _ => "response.reasoning_text.done"
  | ContentPartDone _ _ _ _ _ => "response.content_part.done" | OutputItemDone _ _ _ => "response.output_item.done"
  | Completed _ _ => "response.completed" | Cancelled _ _ _ => "response.cancelled" | Error _ _ => "response.error"
  | ToolCallCreated _ _ _ _ _ => "tool_call.created" | ToolOutputCreated _ _ _ _ _ => "tool_output.created"
  end.

(** An [axum] event: its name and its data, encrypted or in the clear. *)
Inductive Data := Encrypted (payload : ResponseEvent) | Plain (data : string).
Record Event := MkEvent { event : string; data : Data }.

(** ** The items of the stream *)
Inductive StreamOutputItemRecord :=
| Message (id : Uuid) (text : string)
| Reasoning (id : Uuid) (text : string)
| ToolCallRecord (id call_id : Uuid) (name arguments : string)
| ToolOutputRecord (id call_id : Uuid) (output : string).
Record ClientResponseState := MkState { items : list StreamOutputItemRecord; indices : gmap Uuid nat }.
Definition state_default : ClientResponseState := MkState [] ∅.

Definition push (item_id : Uuid) (item : StreamOutputItemRecord) (self : ClientResponseState) : Z * ClientResponseState :=
  let output_index := length (items self) in
  (as_i32 (Z.of_nat output_index), MkState (items self ++ [item]) (<[item_id := output_index]> (indices self))).
Definition push_message (item_id : Uuid) := push item_id (Message item_id EmptyString).
Definition push_reasoning (item_id : Uuid) := push item_id (Reasoning item_id EmptyString).
Definition push_tool_call `{SerdeJson} (item_id : Uuid) (name : string) (arguments : Value) :=
  push item_id (ToolCallRecord item_id item_id name (to_string arguments)).
Definition push_tool_output (item_id call_id : Uuid) (output : string) := push item_id (ToolOutputRecord item_id call_id output).

Definition output_index (item_id : Uuid) (self : ClientResponseState) : option Z :=
  (fun index : nat => as_i32 (Z.of_nat index)) <$> indices self !! item_id.
Definition append_message_delta (item_id : Uuid) (delta : string) (self : ClientResponseState)
    : option (Z * ClientResponseState) :=
  index ← indices self !! item_id;
  match items self !! index with
  | Some (Message id text) =>
      Some (as_i32 (Z.of_nat index), MkState (<[index := Message id (text +:+ delta)]> (items self)) (indices self))
  | _ => None
  end.
Definition append_reasoning_delta (item_id : Uuid) (delta : string) (self : ClientResponseState)
    : option (Z * ClientResponseState) :=
  index ← indices self !! item_id;
  match items self !! index with
  | Some (Reasoning id text) =>
      Some (as_i32 (Z.of_nat index), MkState (<[index := Reasoning id (text +:+ delta)]> (items self)) (indices self))
  | _ => None
  end.
Definition message_text (item_id : Uuid) (self : ClientResponseState) : option string :=
  index ← indices self !! item_id;
  item ← items self !! index;
  match item with Message _ text => Some text | _ => None end.
Definition reasoning_text (item_id : Uuid) (self : ClientResponseState) : option string :=
  index ← indices self !! item_id;
  item ← items self !! index;
  match item with Reasoning _ text => Some text | _ => None end.

Section client.
Context `{UuidText, SerdeJson}.

Definition output_of (item : StreamOutputItemRecord) : OutputItem :=
  match item with
  | Message id text => message_item id Storage.STATUS_COMPLETED [new_output_text text]
  | Reasoning id _ => reasoning_item id Storage.STATUS_COMPLETED
  | ToolCallRecord id call_id name arguments => tool_call_item id Storage.STATUS_COMPLETED call_id name (Some arguments)
  | ToolOutputRecord id call_id output => tool_output_item id Storage.STATUS_COMPLETED (Some call_id) (Some output)
  end.
Definition build_output_items (self : ClientResponseState) : list OutputItem := output_of <$> items self.

(** ** The event loop

    [sealed]: whether the next encryptions for the session succeed;
    [events]: what has been yielded. *)
Record Client := MkClient {
  client_state : ClientResponseState; prompt_tokens_used : Z; completion_tokens : Z;
  emitter : Z; sealed : list bool; events : list Event }.
Definition set_state (st : ClientResponseState) (c : Client) : Client :=
  MkClient st (prompt_tokens_used c) (completion_tokens c) (emitter c) (sealed c) (events c).

(** [emit] counts the events that could be encrypted. *)
Definition emit (counted : bool) (e : ResponseEvent) (c : Client) : Client :=
  let ok := default true (head (sealed c)) in
  MkClient (client_state c) (prompt_tokens_used c) (completion_tokens c)
    (if ok && counted then i32_add (emitter c) 1 else emitter c) (tail (sealed c))
    (events c ++ [if ok then MkEvent (event_type e) (Encrypted e) else MkEvent "error" (Plain "encryption_failed")]).
Definition to_sse_event (e : ResponseEvent) (c : Client) : Client :=
  match e with
  | Cancelled _ _ _ | Error _ _ => emit false e c
  | _ => emit true e c
  end.
(** An event built with the current sequence number and yielded. *)
Definition yield (mk : Z -> ResponseEvent) (c : Client) : Client := to_sse_event (mk (emitter c)) c.

(** The response the stream is for, and what a cancellation event carries. *)
Context (response_for_stream : Response) (decrypted_metadata : option Value) (total_prompt_tokens : Z)
  (cancel_id : Uuid) (cancelled_at : Z).

Definition done_usage (c : Client) : ResponseUsage :=
  build_usage (if decide (0 < prompt_tokens_used c)%Z then prompt_tokens_used c else as_i32 total_prompt_tokens)
    (completion_tokens c).

(** One message; the result says whether the loop goes on. *)
Definition handle (msg : StorageMessage) (c : Client) : Client * bool :=
  match msg with
  | MessageStarted item_id =>
      let '(output_index, st) := push_message item_id (client_state c) in
      (yield (fun n => ContentPartAdded n (uuid_to_string item_id) output_index 0 (MkPart "output_text" [] [] EmptyString))
        (yield (fun n => OutputItemAdded n output_index (new_message item_id)) (set_state st c)), true)
  | ContentDelta item_id delta =>
      match append_message_delta item_id delta (client_state c) with
      | None => (c, true)
      | Some (output_index, st) =>
          (yield (fun n => OutputTextDelta delta (uuid_to_string item_id) output_index 0 n []) (set_state st c), true)
      end
  | MessageDone item_id _ =>
      match output_index item_id (client_state c) with
      | None => (c, true)
      | Some output_index =>
          let text := default EmptyString (message_text item_id (client_state c)) in
          (yield (fun n => OutputItemDone n output_index (message_item item_id Storage.STATUS_COMPLETED [new_output_text text]))
            (yield (fun n => ContentPartDone n (uuid_to_string item_id) output_index 0 (new_output_text text))
              (yield (fun n => OutputTextDone n (uuid_to_string item_id) output_index 0 text []) c)), true)
      end
  | ReasoningStarted item_id =>
      let '(output_index, st) := push_reasoning item_id (client_state c) in
      (yield (fun n => OutputItemAdded n output_index (reasoning_item item_id Storage.STATUS_IN_PROGRESS)) (set_state st c), true)
  | ReasoningDelta item_id delta =>
      match append_reasoning_delta item_id delta (client_state c) with
      | None => (c, true)
      | Some (output_index, st) =>
          (yield (fun n => ReasoningTextDelta delta (uuid_to_string item_id) output_index 0 n) (set_state st c), true)
      end
  | ReasoningDone item_id =>
      match output_index item_id (client_state c) with
      | None => (c, true)
      | Some output_index =>
          let text := default EmptyString (reasoning_text item_id (client_state c)) in
          (yield (fun n => OutputItemDone n output_index (reasoning_item item_id Storage.STATUS_COMPLETED))
            (yield (fun n => ReasoningTextDone n (uuid_to_string item_id) output_index 0 text) c), true)
      end
  | ResponseDone _ =>
      let done_response :=
        with_metadata decrypted_metadata (with_usage (done_usage c)
          (with_output (build_output_items (client_state c))
            (with_status Storage.STATUS_COMPLETED (from_response response_for_stream)))) in
      (yield (Completed done_response) c, false)
  | Usage prompt_tokens completion =>
      (MkClient (client_state c) (i32_add (prompt_tokens_used c) prompt_tokens) (i32_add (completion_tokens c) completion)
        (emitter c) (sealed c) (events c), true)
  | Turns.Cancelled =>
      (yield (fun _ => Cancelled (uuid_to_string cancel_id) (timestamp cancelled_at) (nr_uuid (r_new response_for_stream))) c, false)
  | Turns.Error error_msg => (yield (fun _ => Error "stream_error" error_msg) c, false)
  | ToolCall tool_call_id name arguments =>
      let '(output_index, st) := push_tool_call tool_call_id name arguments (client_state c) in
      let item status := tool_call_item tool_call_id status tool_call_id name (Some (to_string arguments)) in
      (yield (fun n => OutputItemDone n output_index (item Storage.STATUS_COMPLETED))
        (yield (fun n => ToolCallCreated n output_index tool_call_id name arguments)
          (yield (fun n => OutputItemAdded n output_index (item Storage.STATUS_IN_PROGRESS)) (set_state st c))), true)
  | ToolOutput tool_output_id tool_call_id output =>
      let '(output_index, st) := push_tool_output tool_output_id tool_call_id output (client_state c) in
      let item status := tool_output_item tool_output_id status (Some tool_call_id) (Some output) in
      (yield (fun n => OutputItemDone n output_index (item Storage.STATUS_COMPLETED))
        (yield (fun n => ToolOutputCreated n output_index tool_output_id tool_call_id output)
          (yield (fun n => OutputItemAdded n output_index (item Storage.STATUS_IN_PROGRESS)) (set_state st c))), true)
  end.

(** Until the loop breaks or the channel closes. *)
Fixpoint event_loop (rx : list StorageMessage) (c : Client) : Client :=
  match rx with
  | [] => c
  | msg :: rx => let '(c, go) := handle msg c in if go then event_loop rx c else c
  end.
Definition opened (sealed : list bool) : Client :=
  let created := with_metadata decrypted_metadata (with_status Storage.STATUS_IN_PROGRESS (from_response response_for_stream)) in
  yield (InProgress created) (yield (Created created) (MkClient state_default 0 0 0 sealed [])).
Definition event_stream (sealed : list bool) (rx : list StorageMessage) : list Event := events (event_loop rx (opened sealed)).
End client.

(** ** The transcript of a stream *)
Definition record_id (item : StreamOutputItemRecord) : Uuid :=
  match item with Message id _ | Reasoning id _ | ToolCallRecord id _ _ _ | ToolOutputRecord id _ _ => id end.
Definition record_text (item : StreamOutputItemRecord) : string :=
  match item with Message _ text | Reasoning _ text => text | _ => EmptyString end.
Definition add_text (id : Uuid) (delta : string) (item : StreamOutputItemRecord) : StreamOutputItemRecord :=
  match item with
  | Message id' text => if decide (id' = id) then Message id' (text +:+ delta) else item
  | Reasoning id' text => if decide (id' = id) then Reasoning id' (text +:+ delta) else item
  | _ => item
  end.
Definition transcript_step `{SerdeJson} (t : list StreamOutputItemRecord) (m : StorageMessage) : list StreamOutputItemRecord :=
  match m with
  | MessageStarted id => t ++ [Message id EmptyString]
  | ReasoningStarted id => t ++ [Reasoning id EmptyString]
  | ContentDelta id delta | ReasoningDelta id delta => add_text id delta <$> t
  | ToolCall id name arguments => t ++ [ToolCallRecord id id name (to_string arguments)]
  | ToolOutput id call output => t ++ [ToolOutputRecord id call output]
  | _ => t
  end.
Definition transcript `{SerdeJson} (rx : list StorageMessage) : list StreamOutputItemRecord := foldl transcript_step [] rx.

(** What the protocol's state says of the transcript so far. *)
Record fits (p : Turns.Protocol) (t : list StreamOutputItemRecord) : Prop := {
  ids_used : reverse (record_id <$> t) = Turns.used p;
  ids_distinct : NoDup (record_id <$> t);
  message_open id : Turns.open_message p = Some id -> exists i text, t !! i = Some (Message id text);
  reasoning_open id : Turns.open_reasoning p = Some id -> exists i text, t !! i = Some (Reasoning id text);
  call_pending id : Turns.pending_call p = Some id -> exists i name args, t !! i = Some (ToolCallRecord id id name args);
}.

Lemma fits_start : fits Turns.start [].
Proof. split; try done. constructor. Qed.
Lemma unused_fresh p t id : fits p t -> id ∉ Turns.used p -> id ∉ record_id <$> t.
Proof. intros Hf. by rewrite <- (ids_used _ _ Hf), elem_of_reverse. Qed.

Lemma add_text_id id d item : record_id (add_text id d item) = record_id item.
Proof. destruct item; cbn; try case_decide; done. Qed.
Lemma add_text_ids id d (t : list StreamOutputItemRecord) : record_id <$> (add_text id d <$> t) = record_id <$> t.
Proof. rewrite <- list_fmap_compose. apply list_fmap_ext. intros. apply add_text_id. Qed.
Lemma distinct_index (t : list StreamOutputItemRecord) i j x y : NoDup (record_id <$> t) -> t !! i = Some x -> t !! j = Some y -> record_id x = record_id y -> i = j.
Proof.
  intros Hnd Hi Hj Heq. apply (NoDup_lookup _ i j (record_id x) Hnd); rewrite list_lookup_fmap; [by rewrite Hi|by rewrite Hj, Heq].
Qed.
(** Adding a text changes the one item of that id. *)
Lemma add_text_insert id d (t : list StreamOutputItemRecord) i x :
  NoDup (record_id <$> t) -> t !! i = Some x -> record_id x = id -> add_text id d <$> t = <[i := add_text id d x]> t.
Proof.
  intros Hnd Hi Hx. apply list_eq. intros j. rewrite list_lookup_fmap. destruct (decide (i = j)) as [<-|Hne].
  - rewrite Hi, list_lookup_insert_eq by (by eapply lookup_lt_Some). done.
  - rewrite list_lookup_insert_ne by done. destruct (t !! j) as [y|] eqn:Hj; [|done]. cbn. f_equal.
    assert (record_id y <> id) as Hy by (intros Hy; apply Hne; eapply distinct_index; [exact Hnd|exact Hi|exact Hj|congruence]).
    destruct y; cbn in *; try case_decide; done.
Qed.

Lemma lookup_grow (t : list StreamOutputItemRecord) l i x : t !! i = Some x -> (t ++ l) !! i = Some x.
Proof. apply lookup_app_l_Some. Qed.

(** A new item under an unused id. *)
Lemma fits_add p q t item :
  fits p t -> record_id item ∉ Turns.used p -> Turns.used q = record_id item :: Turns.used p ->
  (forall id, Turns.open_message q = Some id -> Turns.open_message p = Some id \/ item = Message id EmptyString) ->
  (forall id, Turns.open_reasoning q = Some id -> Turns.open_reasoning p = Some id \/ item = Reasoning id EmptyString) ->
  (forall id, Turns.pending_call q = Some id -> exists name args, item = ToolCallRecord id id name args) ->
  fits q (t ++ [item]).
Proof.
  intros Hf Hid Hu Hm Hg Hc. pose proof (unused_fresh _ _ _ Hf Hid) as Hnew. destruct Hf as [Hids Hnd Hom Hog Hpc].
  assert ((t ++ [item]) !! length t = Some item) as Hlast by (by rewrite lookup_app_r, Nat.sub_diag by lia).
  split.
  - by rewrite fmap_app, reverse_app, Hids, Hu.
  - rewrite fmap_app. apply NoDup_app. split; [done|]. split; [|apply NoDup_singleton].
    intros x Hx ->%list_elem_of_singleton. done.
  - intros id [Hp| ->]%Hm; [|by eauto]. destruct (Hom _ Hp) as (i & text & Hi). exists i, text. by apply lookup_grow.
  - intros id [Hp| ->]%Hg; [|by eauto]. destruct (Hog _ Hp) as (i & text & Hi). exists i, text. by apply lookup_grow.
  - intros id (name & args & ->)%Hc. eauto.
Qed.
(** Items are the same, fewer of them open. *)
Lemma fits_less p q t :
  fits p t -> Turns.used q = Turns.used p ->
  (forall id, Turns.open_message q = Some id -> Turns.open_message p = Some id) ->
  (forall id, Turns.open_reasoning q = Some id -> Turns.open_reasoning p = Some id) ->
  (forall id, Turns.pending_call q = Some id -> Turns.pending_call p = Some id) -> fits q t.
Proof. intros [? ? Hm Hg Hc] Hu Hm' Hg' Hc'. split; [congruence|done|auto|auto|auto]. Qed.
Lemma fits_delta p t id d : fits p t -> fits p (add_text id d <$> t).
Proof.
  intros [Hids Hnd Hom Hog Hpc]. split.
  - by rewrite add_text_ids.
  - by rewrite add_text_ids.
  - intros x (i & text & Hi)%Hom. exists i. rewrite list_lookup_fmap, Hi. cbn. case_decide; eauto.
  - intros x (i & text & Hi)%Hog. exists i. rewrite list_lookup_fmap, Hi. cbn. case_decide; eauto.
  - intros x (i & name & args & Hi)%Hpc. exists i. rewrite list_lookup_fmap, Hi. cbn. eauto.
Qed.

Section transcripts.
Context `{SerdeJson}.
Lemma fits_step p t m q : fits p t -> Turns.accept p m = Some q -> fits q (transcript_step t m).
Proof.
  intros Hf. unfold Turns.accept. destruct (Turns.ended p); [done|].
  destruct m; cbn [transcript_step]; try case_decide as Hd; intros [= <-]; destruct_and?;
    try (apply (fits_delta _ _ _ _ Hf));
    try (eapply fits_less; [exact Hf|done|cbn; intros; congruence..]);
    (eapply fits_add; [exact Hf|done|done|cbn; intros; simplify_eq; eauto..]).
Qed.
Lemma fits_run p t rx q : fits p t -> Turns.accepts p rx = Some q -> fits q (foldl transcript_step t rx).
Proof.
  revert p t. induction rx as [|m rx IH]; intros p t Hf; cbn; [by intros [= <-]|].
  destruct (Turns.accept p m) as [p'|] eqn:Ha; [|done]. cbn. apply IH. by eapply fits_step.
Qed.
Lemma transcript_grows t rx : length t <= length (foldl transcript_step t rx).
Proof.
  revert t. induction rx as [|m rx IH]; intros t; [done|]. cbn. etrans; [|apply IH].
  destruct m; cbn; rewrite ?length_app, ?length_fmap; lia.
Qed.
End transcripts.

(** ** A client that follows the events

    It knows the items by their output index, each with the text received so
    far, and refuses an event that does not fit: an index that is not the next
    one, an identifier that is not the item's, a final text that is not the
    concatenation of the deltas. *)
Abbreviation View := (list (OutputItem * string)).
Definition at_index (v : View) (i : Z) (id : string) : option (OutputItem * string) :=
  x ← v !! Z.to_nat i; if decide (item_id x.1 = id) then Some x else None.
Definition follow_step `{UuidText} (v : View) (e : ResponseEvent) : option View :=
  match e with
  | Created _ _ | InProgress _ _ => if decide (v = []) then Some v else None
  | OutputItemAdded _ i item => if decide (i = Z.of_nat (length v)) then Some (v ++ [(item, EmptyString)]) else None
  | ContentPartAdded _ id i _ part => x ← at_index v i id; if decide (x.2 = part_text part) then Some v else None
  | OutputTextDelta delta id i _ _ _ | ReasoningTextDelta delta id i _ _ =>
      x ← at_index v i id; Some (<[Z.to_nat i := (x.1, x.2 +:+ delta)]> v)
  | OutputTextDone _ id i _ text _ | ReasoningTextDone _ id i _ text =>
      x ← at_index v i id; if decide (x.2 = text) then Some v else None
  | ContentPartDone _ id i _ part => x ← at_index v i id; if decide (x.2 = part_text part) then Some v else None
  | OutputItemDone _ i item => x ← at_index v i (item_id item); Some (<[Z.to_nat i := (item, x.2)]> v)
  | ToolCallCreated _ i id _ _ => _ ← at_index v i (uuid_to_string id); Some v
  | ToolOutputCreated _ i id _ _ => _ ← at_index v i (uuid_to_string id); Some v
  | Completed _ _ | Cancelled _ _ _ | Error _ _ => Some v
  end.
Fixpoint follow `{UuidText} (v : View) (es : list ResponseEvent) : option View :=
  match es with [] => Some v | e :: es => v ← follow_step v e; follow v es end.

Definition sequence_number (e : ResponseEvent) : option Z :=
  match e with
  | Created _ n | InProgress _ n | OutputItemAdded n _ _ | ContentPartAdded n _ _ _ _ | OutputTextDelta _ _ _ _ n _
  | OutputTextDone n _ _ _ _ _ | ReasoningTextDelta _ _ _ _ n | ReasoningTextDone n _ _ _ _ | ContentPartDone n _ _ _ _
  | OutputItemDone n _ _ | Completed _ n | ToolCallCreated n _ _ _ _ | ToolOutputCreated n _ _ _ _ => Some n
  | Cancelled _ _ _ | Error _ _ => None
  end.
(** The payloads of the events that could be encrypted. *)
Definition payload (ev : Event) : option ResponseEvent := match data ev with Encrypted e => Some e | Plain _ => None end.

(** How an item shows while the stream is at [p]. *)
Definition seen `{UuidText} (p : Turns.Protocol) (item : StreamOutputItemRecord) : OutputItem * string :=
  (match item with
   | Message id _ => if decide (Turns.open_message p = Some id) then new_message id else output_of item
   | Reasoning id _ => if decide (Turns.open_reasoning p = Some id) then reasoning_item id Storage.STATUS_IN_PROGRESS else output_of item
   | _ => output_of item
   end, record_text item).

Lemma follow_app `{UuidText} v es es' : follow v (es ++ es') = (w ← follow v es; follow w es').
Proof. revert v. induction es as [|e es IH]; intros v; [done|]. cbn. destruct (follow_step v e); [apply IH|done]. Qed.

Lemma as_i32_small z : (0 <= z <= i32_max)%Z -> as_i32 z = z.
Proof. unfold as_i32, i32_max. intros Hz. rewrite Z.mod_small by lia. lia. Qed.

Section following.
Context `{UuidText, SerdeJson}.
Context (response_for_stream : Response) (decrypted_metadata : option Value) (total_prompt_tokens : Z)
  (cancel_id : Uuid) (cancelled_at : Z).
Abbreviation the_handle := (handle response_for_stream decrypted_metadata total_prompt_tokens cancel_id cancelled_at).
Abbreviation the_loop := (event_loop response_for_stream decrypted_metadata total_prompt_tokens cancel_id cancelled_at).

Definition payloads (c : Client) : list ResponseEvent := omap payload (events c).

(** *** Sequence numbers: one more for every encrypted event that carries one *)
Definition numbered (c : Client) : Prop :=
  exists n, emitter c = as_i32 (Z.of_nat n) /\ omap sequence_number (payloads c) = (fun i : nat => as_i32 (Z.of_nat i)) <$> seq 0 n.

Lemma i32_add_1 n : i32_add (as_i32 (Z.of_nat n)) 1 = as_i32 (Z.of_nat (S n)).
Proof.
  unfold i32_add, as_i32. f_equal.
  replace ((Z.of_nat n + 2 ^ 31) `mod` 2 ^ 32 - 2 ^ 31 + 1 + 2 ^ 31)%Z with ((Z.of_nat n + 2 ^ 31) `mod` 2 ^ 32 + 1)%Z by lia.
  rewrite Zplus_mod_idemp_l. f_equal. lia.
Qed.

(** An event with the number it is given, or one that has none. *)
Definition takes_number (mk : Z -> ResponseEvent) : Prop :=
  (forall n, sequence_number (mk n) = Some n) \/ (forall n, sequence_number (mk n) = None).
Lemma emitted e c : payloads (to_sse_event e c) = payloads c ++ (if default true (head (sealed c)) then [e] else []) /\
  emitter (to_sse_event e c) =
    if default true (head (sealed c)) && bool_decide (is_Some (sequence_number e)) then i32_add (emitter c) 1 else emitter c.
Proof.
  unfold to_sse_event, payloads.
  destruct e; cbn; rewrite omap_app; destruct (default true (head (sealed c))); cbn; (split; [done|]);
    rewrite ?bool_decide_true by eauto; rewrite ?bool_decide_false by (by intros []); done.
Qed.
Lemma yield_numbered mk c : takes_number mk -> numbered c -> numbered (yield mk c).
Proof.
  intros Hmk (n & He & Hn). unfold yield, numbered. destruct (emitted (mk (emitter c)) c) as [-> ->].
  destruct (default true (head (sealed c))); cbn [andb]; [|exists n; by rewrite app_nil_r].
  rewrite omap_app. cbn [omap list_omap]. destruct Hmk as [Hmk|Hmk]; rewrite Hmk.
  - rewrite bool_decide_true by eauto. exists (S n). rewrite He, i32_add_1. split; [done|].
    by rewrite Hn, seq_S, fmap_app.
  - rewrite bool_decide_false by (by intros []). exists n. by rewrite app_nil_r.
Qed.
Lemma numbered_state c st : numbered (set_state st c) <-> numbered c.
Proof. done. Qed.

Lemma handle_numbered msg c : numbered c -> numbered (the_handle msg c).1.
Proof.
  intros Hc. destruct msg; cbn [handle push_message push_reasoning push_tool_call push_tool_output push fst].
  all: repeat match goal with |- context [match ?o with Some _ => _ | None => _ end] => destruct o as [[]|] || destruct o end.
  all: cbn [fst]; repeat (apply yield_numbered; [first [by left|by right]|]); exact Hc.
Qed.
Lemma loop_numbered rx c : numbered c -> numbered (the_loop rx c).
Proof.
  revert c. induction rx as [|msg rx IH]; intros c Hc; [done|]. cbn. pose proof (handle_numbered msg c Hc) as Hh.
  destruct (the_handle msg c) as [c' []]; [by apply IH|done].
Qed.
Lemma opened_numbered sealed : numbered (opened response_for_stream decrypted_metadata sealed).
Proof. unfold opened. do 2 (apply yield_numbered; [by left|]). by exists 0. Qed.

(** *** Every event fits *)
Implicit Types t : list StreamOutputItemRecord.
Definition follows (v : View) (c : Client) : Prop := sealed c = [] /\ follow [] (payloads c) = Some v.
Lemma yield_follows v w mk c : follows v c -> follow_step v (mk (emitter c)) = Some w -> follows w (yield mk c).
Proof.
  intros [Hs Hv] Hw. unfold yield. destruct (emitted (mk (emitter c)) c) as [Hp _]. rewrite Hs in Hp. cbn in Hp. split.
  - unfold to_sse_event. destruct (mk (emitter c)); cbn; by rewrite Hs.
  - rewrite Hp, follow_app, Hv. cbn. by rewrite Hw.
Qed.
Lemma yield_state mk c : client_state (yield mk c) = client_state c.
Proof. unfold yield, to_sse_event. by destruct (mk (emitter c)). Qed.

Definition small {A} (l : list A) : Prop := (Z.of_nat (length l) <= i32_max)%Z.
Lemma index_small {A} (l : list A) i : small l -> i <= length l -> as_i32 (Z.of_nat i) = Z.of_nat i.
Proof. unfold small. intros Hl Hi. apply as_i32_small. lia. Qed.

Lemma seen_id p item : item_id (seen p item).1 = uuid_to_string (record_id item).
Proof. destruct item; cbn; try case_decide; done. Qed.
Lemma at_seen p t i item :
  small t -> t !! i = Some item ->
  at_index (seen p <$> t) (as_i32 (Z.of_nat i)) (uuid_to_string (record_id item)) = Some (seen p item).
Proof.
  intros Hs Hi. pose proof (lookup_lt_Some _ _ _ Hi). rewrite (index_small t) by (done || lia). unfold at_index.
  rewrite Nat2Z.id, list_lookup_fmap, Hi. cbn [fmap option_fmap option_map mbind option_bind].
  by rewrite decide_True by apply seen_id.
Qed.
Lemma at_last (v : View) x id : item_id x.1 = id -> small v ->
  at_index (v ++ [x]) (as_i32 (Z.of_nat (length v))) id = Some x.
Proof.
  intros Hx Hs. rewrite (index_small v) by done. unfold at_index.
  rewrite Nat2Z.id, lookup_app_r, Nat.sub_diag by lia. cbn. by rewrite decide_True.
Qed.
Lemma insert_last (v : View) x y : <[length v := y]> (v ++ [x]) = v ++ [y].
Proof. by rewrite insert_app_r_alt, Nat.sub_diag by lia. Qed.
Lemma seen_ext p q t : (forall item, item ∈ t -> seen p item = seen q item) -> seen p <$> t = seen q <$> t.
Proof. intros Hs. apply list_fmap_ext. intros i x Hi. apply Hs. by eapply list_elem_of_lookup_2. Qed.
(** An item shown anew, the others as before. *)
Lemma seen_insert p q t i item x :
  NoDup (record_id <$> t) -> t !! i = Some item -> seen q item = x ->
  (forall y, y ∈ t -> record_id y <> record_id item -> seen p y = seen q y) ->
  <[i := x]> (seen p <$> t) = seen q <$> t.
Proof.
  intros Hnd Hi Hx Hother. apply list_eq. intros j. rewrite list_lookup_fmap. destruct (decide (i = j)) as [<-|Hne].
  - rewrite list_lookup_insert_eq by (rewrite length_fmap; by eapply lookup_lt_Some). rewrite Hi. cbn. by rewrite Hx.
  - rewrite list_lookup_insert_ne, list_lookup_fmap by done. destruct (t !! j) as [y|] eqn:Hj; [|done]. cbn. f_equal.
    apply Hother; [by eapply list_elem_of_lookup_2|]. intros Heq. apply Hne. eapply distinct_index; [exact Hnd|exact Hi|exact Hj|done].
Qed.

Definition indexed (t : list StreamOutputItemRecord) (st : ClientResponseState) : Prop :=
  items st = t /\ forall i item, t !! i = Some item -> indices st !! record_id item = Some i.
Definition in_step (p : Turns.Protocol) (t : list StreamOutputItemRecord) (c : Client) : Prop :=
  indexed t (client_state c) /\ follows (seen p <$> t) c.

Lemma indexed_push t st item : indexed t st -> record_id item ∉ record_id <$> t ->
  push (record_id item) item st = (as_i32 (Z.of_nat (length t)), (push (record_id item) item st).2) /\
  indexed (t ++ [item]) (push (record_id item) item st).2.
Proof.
  intros [Hit Hix] Hnew. unfold push. cbn [fst snd]. rewrite Hit. split; [done|]. split; [cbn; congruence|]. cbn.
  intros i x [Hi|[Hlen Hi]]%lookup_app_Some.
  - rewrite lookup_insert_ne; [by apply Hix|]. intros Heq. apply Hnew. rewrite Heq. apply list_elem_of_fmap_2.
    by eapply list_elem_of_lookup_2.
  - apply list_lookup_singleton_Some in Hi as [Hz <-]. rewrite lookup_insert_eq. f_equal. lia.
Qed.
Lemma indexed_insert t st i item item' :
  indexed t st -> t !! i = Some item -> record_id item' = record_id item ->
  indexed (<[i := item']> t) (MkState (<[i := item']> (items st)) (indices st)).
Proof.
  intros [Hit Hix] Hi Hid. split; [cbn; by rewrite Hit|]. cbn. intros j x. destruct (decide (i = j)) as [<-|Hne].
  - rewrite list_lookup_insert_eq by (by eapply lookup_lt_Some). intros [= <-]. rewrite Hid. by apply Hix.
  - rewrite list_lookup_insert_ne by done. apply Hix.
Qed.

Lemma in_step_tool p q t c item mk1 mk2 mk3 added :
  in_step p t c -> small t -> record_id item ∉ record_id <$> t ->
  (forall x, x ∈ t -> seen p x = seen q x) -> seen q item = (output_of item, EmptyString) ->
  let index := as_i32 (Z.of_nat (length t)) in
  (forall n, mk1 n = OutputItemAdded n index added) -> item_id added = uuid_to_string (record_id item) ->
  (forall n v, at_index v index (uuid_to_string (record_id item)) = Some (added, EmptyString) -> follow_step v (mk2 n) = Some v) ->
  (forall n, mk3 n = OutputItemDone n index (output_of item)) ->
  in_step q (t ++ [item]) (yield mk3 (yield mk2 (yield mk1 (set_state (push (record_id item) item (client_state c)).2 c)))).
Proof.
  intros [Hix Hv] Hs Hnew Hother Hshow index H1 Hadded H2 H3. destruct (indexed_push _ _ _ Hix Hnew) as [_ Hix'].
  split; [by rewrite !yield_state|].
  assert (Z.of_nat (length t) = index) as Hidx by (unfold index; by rewrite (index_small t)).
  assert (small (seen p <$> t)) as Hsv by (unfold small; by rewrite length_fmap).
  assert (at_index ((seen p <$> t) ++ [(added, EmptyString)]) index (uuid_to_string (record_id item)) = Some (added, EmptyString)) as Hat.
  { unfold index. rewrite <- (length_fmap (seen p) t). by apply at_last. }
  apply yield_follows with ((seen p <$> t) ++ [(added, EmptyString)]).
  { apply yield_follows with ((seen p <$> t) ++ [(added, EmptyString)]); [|by apply H2].
    apply yield_follows with (seen p <$> t); [exact Hv|]. rewrite H1. cbn. by rewrite decide_True by (by rewrite length_fmap). }
  rewrite H3. cbn. replace (item_id (output_of item)) with (uuid_to_string (record_id item)) by (by destruct item).
  rewrite Hat. cbn. unfold index. rewrite (index_small t), Nat2Z.id by done. rewrite <- (length_fmap (seen p) t), insert_last, fmap_app.
  cbn. by rewrite Hshow, (seen_ext p q).
Qed.

(** An open item gets more text. *)
Lemma in_step_delta p t c i item delta mk :
  in_step p t c -> small t -> fits p t -> t !! i = Some item -> record_id (add_text (record_id item) delta item) = record_id item ->
  seen p (add_text (record_id item) delta item) = ((seen p item).1, (seen p item).2 +:+ delta) ->
  let index := as_i32 (Z.of_nat i) in
  (forall n v, at_index v index (uuid_to_string (record_id item)) = Some (seen p item) ->
     follow_step v (mk n) = Some (<[Z.to_nat index := ((seen p item).1, (seen p item).2 +:+ delta)]> v)) ->
  in_step p (add_text (record_id item) delta <$> t)
    (yield mk (set_state (MkState (<[i := add_text (record_id item) delta item]> (items (client_state c))) (indices (client_state c))) c)).
Proof.
  intros [Hix Hv] Hs Hf Hi Hid Hseen index Hmk. rewrite (add_text_insert _ _ _ _ _ (ids_distinct _ _ Hf) Hi eq_refl).
  split; [rewrite yield_state; by eapply indexed_insert|].
  eapply yield_follows; [exact Hv|]. rewrite Hmk by (by apply at_seen). f_equal.
  pose proof (lookup_lt_Some _ _ _ Hi). unfold index. rewrite (index_small t), Nat2Z.id by (done || lia).
  by rewrite list_fmap_insert, Hseen.
Qed.

(** An open item is closed. *)
Lemma in_step_close p q t c i item mks :
  in_step p t c -> small t -> fits p t -> t !! i = Some item ->
  (forall y, y ∈ t -> record_id y <> record_id item -> seen p y = seen q y) -> seen q item = (output_of item, record_text item) ->
  let index := as_i32 (Z.of_nat i) in
  (forall mk n v, mk ∈ mks -> at_index v index (uuid_to_string (record_id item)) = Some (seen p item) -> follow_step v (mk n) = Some v) ->
  in_step q t (yield (fun n => OutputItemDone n index (output_of item)) (foldl (fun c mk => yield mk c) c mks)).
Proof.
  intros [Hix Hv] Hs Hf Hi Hother Hshow index Hmks.
  pose proof (at_seen p t i item Hs Hi) as Hat.
  assert (follows (seen p <$> t) (foldl (fun c mk => yield mk c) c mks) /\
    client_state (foldl (fun c mk => yield mk c) c mks) = client_state c) as [Hv' Hst].
  { clear Hix. revert c Hv. induction mks as [|mk mks IH]; intros c Hv; [done|]. cbn [foldl].
    destruct (IH (fun mk' n v Hin => Hmks mk' n v (list_elem_of_further _ _ _ Hin)) (yield mk c)) as [H1 H2].
    - eapply yield_follows; [exact Hv|]. apply Hmks; [by left|exact Hat].
    - split; [exact H1|]. by rewrite H2, yield_state. }
  split; [by rewrite yield_state, Hst|]. eapply yield_follows; [exact Hv'|]. cbn.
  replace (item_id (output_of item)) with (uuid_to_string (record_id item)) by (by destruct item).
  unfold index. rewrite Hat. cbn. pose proof (lookup_lt_Some _ _ _ Hi). rewrite (index_small t), Nat2Z.id by (done || lia). f_equal.
  eapply seen_insert; [exact (ids_distinct _ _ Hf)|exact Hi|by rewrite Hshow; destruct item|exact Hother].
Qed.

Lemma small_app t l : small (t ++ l) -> small t.
Proof. unfold small. rewrite length_app. lia. Qed.
(** New item: the earlier ones show as before. *)
Lemma seen_before p q t id x :
  id ∉ record_id <$> t -> x ∈ t ->
  (forall id', id' <> id -> Turns.open_message p = Some id' <-> Turns.open_message q = Some id') ->
  (forall id', id' <> id -> Turns.open_reasoning p = Some id' <-> Turns.open_reasoning q = Some id') ->
  seen p x = seen q x.
Proof.
  intros Hnew Hx Hm Hg. assert (record_id x <> id) as Hne by (intros <-; by apply Hnew, list_elem_of_fmap_2).
  unfold seen. f_equal. destruct x; cbn in *; try done.
  - specialize (Hm _ Hne). repeat case_decide; tauto.
  - specialize (Hg _ Hne). repeat case_decide; tauto.
Qed.
Lemma seen_other p q x id :
  record_id x <> id ->
  (forall id', id' <> id -> Turns.open_message p = Some id' <-> Turns.open_message q = Some id') ->
  (forall id', id' <> id -> Turns.open_reasoning p = Some id' <-> Turns.open_reasoning q = Some id') ->
  seen p x = seen q x.
Proof.
  intros Hne Hm Hg. apply (seen_before p q [x] id); [|by left|done..]. by intros ->%list_elem_of_singleton.
Qed.

Lemma started_in_step p q t c item added mks :
  in_step p t c -> small t -> record_id item ∉ record_id <$> t ->
  (forall x, x ∈ t -> seen p x = seen q x) -> seen q item = (added, EmptyString) ->
  let index := as_i32 (Z.of_nat (length t)) in
  (forall mk n v, mk ∈ mks -> at_index v index (uuid_to_string (record_id item)) = Some (added, EmptyString) -> follow_step v (mk n) = Some v) ->
  in_step q (t ++ [item])
    (foldl (fun c mk => yield mk c) (yield (fun n => OutputItemAdded n index added) (set_state (push (record_id item) item (client_state c)).2 c)) mks).
Proof.
  intros [Hix Hv] Hs Hnew Hother Hshow index Hmks. destruct (indexed_push _ _ _ Hix Hnew) as [_ Hix'].
  set (c1 := yield _ _).
  assert (follows (seen q <$> (t ++ [item])) c1) as Hv1.
  { unfold c1. eapply yield_follows; [exact Hv|]. cbn. unfold index. rewrite (index_small t), length_fmap, decide_True by done.
    rewrite fmap_app. cbn. by rewrite Hshow, (seen_ext p q). }
  assert (client_state c1 = (push (record_id item) item (client_state c)).2) as Hst1 by (unfold c1; by rewrite yield_state).
  assert (at_index (seen q <$> (t ++ [item])) index (uuid_to_string (record_id item)) = Some (added, EmptyString)) as Hat.
  { rewrite fmap_app. cbn. rewrite Hshow. unfold index. rewrite <- (length_fmap (seen q) t). apply at_last.
    - rewrite <- (seen_id q item). by rewrite Hshow.
    - unfold small. by rewrite length_fmap. }
  clearbody c1. revert c1 Hv1 Hst1. induction mks as [|mk mks IH]; intros c1 Hv1 Hst1; cbn [foldl].
  - split; [by rewrite Hst1|done].
  - apply IH; [intros; eapply Hmks; [by right|done]| |by rewrite yield_state].
    eapply yield_follows; [exact Hv1|]. apply Hmks; [by left|done].
Qed.

Lemma push_index t st id item : items st = t ->
  push id item st = (as_i32 (Z.of_nat (length t)), (push id item st).2).
Proof. by intros <-. Qed.
Lemma handle_in_step p q t c m :
  in_step p t c -> fits p t -> Turns.accept p m = Some q -> small (transcript_step t m) ->
  in_step q (transcript_step t m) (the_handle m c).1 /\ (the_handle m c).2 = negb (Turns.ended q).
Proof.
  intros Hin Hf. unfold Turns.accept. destruct (Turns.ended p) eqn:He; [done|]. pose proof Hin as [[Hit Hix] Hv].
  destruct m as [id|id delta|id reason|id|id delta|id|pt ct|reason|msg| |id name args|id call out]; cbn [transcript_step];
    try case_decide as Hd; intros [= <-] Hs.
  - destruct Hd as (Hnone & Hpc & Hu). apply small_app in Hs. pose proof (unused_fresh _ _ _ Hf Hu) as Hnew. split; [|done].
    cbn [handle]. unfold push_message, push_reasoning, push_tool_call, push_tool_output. rewrite (push_index t (client_state c)) by done.
    refine (started_in_step p _ t c (Message id EmptyString) (new_message id)
      [fun n => ContentPartAdded n (uuid_to_string id) (as_i32 (Z.of_nat (length t))) 0 (MkPart "output_text" [] [] EmptyString)]
      Hin Hs Hnew _ _ _).
    + intros x Hx. eapply seen_before; [exact Hnew|exact Hx|cbn; rewrite Hnone; naive_solver|done].
    + unfold seen. cbn. by rewrite decide_True.
    + intros mk n v ->%list_elem_of_singleton Hat. cbn in *. rewrite Hat. done.
  - destruct (message_open _ _ Hf id Hd) as (i & text & Hi). unfold small in Hs. rewrite length_fmap in Hs.
    cbn [handle]. unfold append_message_delta. pose proof (Hix i _ Hi) as Hk; cbn [record_id] in Hk; rewrite Hk, Hit. cbn [mbind option_bind]. rewrite Hi. cbn [fst snd].
    split; [|by rewrite He].
    pose proof (in_step_delta p t c i (Message id text) delta
      (fun n => OutputTextDelta delta (uuid_to_string id) (as_i32 (Z.of_nat i)) 0 n []) Hin Hs Hf Hi) as Hstep.
    cbn in Hstep. rewrite Hit, !decide_True in Hstep by done. apply Hstep; [done|unfold seen; cbn; by rewrite decide_True|].
    intros n v Hat. rewrite Hat. unfold seen. cbn. by rewrite decide_True.
  - destruct (message_open _ _ Hf id Hd) as (i & text & Hi).
    cbn [handle]. unfold output_index, message_text. pose proof (Hix i _ Hi) as Hk; cbn [record_id] in Hk; rewrite Hk. cbn [fmap option_fmap option_map mbind option_bind].
    rewrite Hit, Hi. cbn [mbind option_bind default from_option fst]. split; [|done].
    refine (in_step_close p _ t c i (Message id text)
      [fun n => OutputTextDone n (uuid_to_string id) (as_i32 (Z.of_nat i)) 0 text [];
       fun n => ContentPartDone n (uuid_to_string id) (as_i32 (Z.of_nat i)) 0 (new_output_text text)] Hin Hs Hf Hi _ _ _).
    + intros y _ Hy. eapply seen_other; [exact Hy|cbn; rewrite Hd; naive_solver|done].
    + done.
    + intros mk n v Hmk Hat. cbn in Hat. apply elem_of_cons in Hmk as [->|Hmk]; [|apply list_elem_of_singleton in Hmk as ->];
        cbn; rewrite Hat; cbn; by rewrite decide_True.
  - destruct Hd as (Hnone & Hpc & Hu). apply small_app in Hs. pose proof (unused_fresh _ _ _ Hf Hu) as Hnew. split; [|done].
    cbn [handle]. unfold push_message, push_reasoning, push_tool_call, push_tool_output. rewrite (push_index t (client_state c)) by done.
    refine (started_in_step p _ t c (Reasoning id EmptyString) (reasoning_item id Storage.STATUS_IN_PROGRESS) [] Hin Hs Hnew _ _ _).
    + intros x Hx. eapply seen_before; [exact Hnew|exact Hx|done|cbn; rewrite Hnone; naive_solver].
    + unfold seen. cbn. by rewrite decide_True.
    + by intros mk n v ?%elem_of_nil.
  - destruct (reasoning_open _ _ Hf id Hd) as (i & text & Hi). unfold small in Hs. rewrite length_fmap in Hs.
    cbn [handle]. unfold append_reasoning_delta. pose proof (Hix i _ Hi) as Hk; cbn [record_id] in Hk; rewrite Hk, Hit. cbn [mbind option_bind]. rewrite Hi. cbn [fst snd].
    split; [|by rewrite He].
    pose proof (in_step_delta p t c i (Reasoning id text) delta
      (fun n => ReasoningTextDelta delta (uuid_to_string id) (as_i32 (Z.of_nat i)) 0 n) Hin Hs Hf Hi) as Hstep.
    cbn in Hstep. rewrite Hit, !decide_True in Hstep by done. apply Hstep; [done|unfold seen; cbn; by rewrite decide_True|].
    intros n v Hat. rewrite Hat. unfold seen. cbn. by rewrite decide_True.
  - destruct (reasoning_open _ _ Hf id Hd) as (i & text & Hi).
    cbn [handle]. unfold output_index, reasoning_text. pose proof (Hix i _ Hi) as Hk; cbn [record_id] in Hk; rewrite Hk. cbn [fmap option_fmap option_map mbind option_bind].
    rewrite Hit, Hi. cbn [mbind option_bind default from_option fst]. split; [|done].
    refine (in_step_close p _ t c i (Reasoning id text)
      [fun n => ReasoningTextDone n (uuid_to_string id) (as_i32 (Z.of_nat i)) 0 text] Hin Hs Hf Hi _ _ _).
    + intros y _ Hy. eapply seen_other; [exact Hy|done|cbn; rewrite Hd; naive_solver].
    + done.
    + intros mk n v ->%list_elem_of_singleton Hat. cbn in Hat. cbn. rewrite Hat. cbn. by rewrite decide_True.
  - by rewrite He.
  - split; [|done]. split; [exact (conj Hit Hix)|]. destruct Hd as (Hm & Hg & _). cbn [handle fst].
    rewrite (seen_ext _ p) by (intros x _; unfold seen; cbn; by rewrite Hm, Hg). by eapply yield_follows.
  - split; [|done]. split; [exact (conj Hit Hix)|]. by eapply yield_follows.
  - split; [|done]. split; [exact (conj Hit Hix)|]. by eapply yield_follows.
  - destruct Hd as ((Hm & Hg & _) & Hu & _). apply small_app in Hs. pose proof (unused_fresh _ _ _ Hf Hu) as Hnew. split; [|done].
    cbn [handle]. unfold push_message, push_reasoning, push_tool_call, push_tool_output. rewrite (push_index t (client_state c)) by done.
    refine (in_step_tool p _ t c (ToolCallRecord id id name (to_string args))
      (fun n => OutputItemAdded n (as_i32 (Z.of_nat (length t))) (tool_call_item id Storage.STATUS_IN_PROGRESS id name (Some (to_string args))))
      (fun n => ToolCallCreated n (as_i32 (Z.of_nat (length t))) id name args)
      (fun n => OutputItemDone n (as_i32 (Z.of_nat (length t))) (tool_call_item id Storage.STATUS_COMPLETED id name (Some (to_string args))))
      _ Hin Hs Hnew _ _ _ _ _ _); try done.
    + intros x _. unfold seen. cbn. by rewrite Hm, Hg.
    + intros n v Hat. cbn in *. by rewrite Hat.
  - destruct Hd as (Hpc & Hu). apply small_app in Hs. pose proof (unused_fresh _ _ _ Hf Hu) as Hnew. split; [|done].
    cbn [handle]. unfold push_message, push_reasoning, push_tool_call, push_tool_output. rewrite (push_index t (client_state c)) by done.
    refine (in_step_tool p _ t c (ToolOutputRecord id call out)
      (fun n => OutputItemAdded n (as_i32 (Z.of_nat (length t))) (tool_output_item id Storage.STATUS_IN_PROGRESS (Some call) (Some out)))
      (fun n => ToolOutputCreated n (as_i32 (Z.of_nat (length t))) id call out)
      (fun n => OutputItemDone n (as_i32 (Z.of_nat (length t))) (tool_output_item id Storage.STATUS_COMPLETED (Some call) (Some out)))
      _ Hin Hs Hnew _ _ _ _ _ _); try done.
    intros n v Hat. cbn in *. by rewrite Hat.
Qed.

Lemma ended_stays p rx q : Turns.ended p = true -> Turns.accepts p rx = Some q -> rx = [].
Proof. intros He. destruct rx as [|m rx]; [done|]. cbn. unfold Turns.accept. by rewrite He. Qed.
Lemma loop_in_step p t c rx q :
  in_step p t c -> fits p t -> Turns.accepts p rx = Some q -> small (foldl transcript_step t rx) ->
  in_step q (foldl transcript_step t rx) (the_loop rx c) /\
  (Turns.ended q = false -> forall l, the_loop (rx ++ l) c = the_loop l (the_loop rx c)).
Proof.
  revert p t c. induction rx as [|m rx IH]; intros p t c Hin Hf; cbn [Turns.accepts foldl event_loop app].
  - by intros [= <-] _.
  - destruct (Turns.accept p m) as [p'|] eqn:Ha; [|done]. cbn [mbind option_bind]. intros Hrx Hs.
    assert (small (transcript_step t m)) as Hs1.
    { unfold small in *. pose proof (transcript_grows (transcript_step t m) rx). lia. }
    destruct (handle_in_step _ _ _ _ _ Hin Hf Ha Hs1) as [Hin1 Hgo]. destruct (the_handle m c) as [c1 go]. cbn in *. subst go.
    destruct (Turns.ended p') eqn:He; cbn [negb].
    + pose proof (ended_stays _ _ _ He Hrx) as ->. cbn in *. injection Hrx as <-. split; [done|]. by rewrite He.
    + eapply IH; [exact Hin1|by eapply fits_step|exact Hrx|exact Hs].
Qed.

Lemma opened_in_step : in_step Turns.start [] (opened response_for_stream decrypted_metadata []).
Proof. split; [by split|]. by split. Qed.

Lemma quiet_seen p t : Turns.quiet p -> seen p <$> t = (fun item => (output_of item, record_text item)) <$> t.
Proof.
  intros (Hm & Hg & _). apply list_fmap_ext. intros i item _. unfold seen. rewrite Hm, Hg. by destruct item.
Qed.
Lemma last_done p rx reason q :
  Turns.accepts p (rx ++ [ResponseDone reason]) = Some q ->
  exists p0, Turns.accepts p rx = Some p0 /\ Turns.ended p0 = false /\ Turns.quiet p0 /\ Turns.quiet q.
Proof.
  rewrite Turns.accepts_app. destruct (Turns.accepts p rx) as [p0|]; [|done]. cbn. unfold Turns.accept.
  destruct (Turns.ended p0) eqn:He; [done|]. case_decide; [|done]. intros [= <-]. by exists p0.
Qed.

(** The completed response lists the items. *)
Lemma completed_lists rx p reason :
  Turns.accepts Turns.start rx = Some p -> small (transcript rx) -> last rx = Some (ResponseDone reason) ->
  exists r n, last (omap payload (event_stream response_for_stream decrypted_metadata total_prompt_tokens cancel_id cancelled_at [] rx))
      = Some (Completed r n) /\
    cr_status r = "completed" /\ head_of r = head_of (from_response response_for_stream) /\ cr_output r = output_of <$> transcript rx /\
    Turns.quiet p.
Proof.
  intros Hrx Hs Hlast. apply last_Some in Hlast as [rx0 ->]. destruct (last_done _ _ _ _ Hrx) as (p0 & Hrx0 & He0 & Hq0 & Hq).
  unfold transcript in *. rewrite foldl_app in *. cbn [foldl transcript_step] in *.
  destruct (loop_in_step _ _ _ _ _ opened_in_step fits_start Hrx0 Hs) as [[[Hit _] [Hsealed _]] Happ].
  unfold event_stream. rewrite (Happ He0). set (c0 := event_loop _ _ _ _ _ rx0 _) in *.
  cbn [event_loop handle]. set (r := with_metadata _ _). exists r, (emitter c0).
  destruct (emitted (Completed r (emitter c0)) c0) as [Hp _]. rewrite Hsealed in Hp. cbn [head default from_option] in Hp.
  split; [|split; [done|split; [done|split; [|done]]]].
  - change (last (payloads (to_sse_event (Completed r (emitter c0)) c0)) = Some (Completed r (emitter c0))).
    rewrite Hp. by rewrite last_snoc.
  - cbn. unfold build_output_items. by rewrite Hit.
Qed.
End following.

(** ** Properties *)

(** The events let a client follow the response.  Whatever stream keeps the
    protocol, a client that files the events by output index and refuses an
    event with a wrong index, identifier or final text accepts them all, and
    ends with every item of the stream and its text, closed unless the stream
    left it open.  The events that carry sequence numbers carry consecutive
    ones, whichever events could not be encrypted.  A completed response lists
    exactly these items, in their order. *)
Theorem client_follows_the_stream `{UuidText, SerdeJson} response metadata prompt_tokens cancel_id cancelled_at rx p :
  Turns.accepts Turns.start rx = Some p -> (Z.of_nat (length (transcript rx)) <= i32_max)%Z ->
  let es sealed := omap payload (event_stream response metadata prompt_tokens cancel_id cancelled_at sealed rx) in
  follow [] (es []) = Some (seen p <$> transcript rx) /\
  (forall sealed, exists n, omap sequence_number (es sealed) = (fun i : nat => as_i32 (Z.of_nat i)) <$> seq 0 n) /\
  (forall reason, last rx = Some (ResponseDone reason) ->
     exists r n, last (es []) = Some (Completed r n) /\ cr_status r = "completed" /\ head_of r = head_of (from_response response) /\
       cr_output r = output_of <$> transcript rx /\
       follow [] (es []) = Some ((fun item => (output_of item, record_text item)) <$> transcript rx)).
Proof.
  intros Hrx Hs es. pose proof (loop_in_step response metadata prompt_tokens cancel_id cancelled_at _ _ _ _ _
    (opened_in_step response metadata) fits_start Hrx Hs) as [[_ [_ Hfollow]] _].
  split; [exact Hfollow|]. split.
  { intros sealed. destruct (loop_numbered response metadata prompt_tokens cancel_id cancelled_at rx _
      (opened_numbered response metadata sealed)) as (n & _ & Hn). by exists n. }
  intros reason Hlast.
  destruct (completed_lists response metadata prompt_tokens cancel_id cancelled_at rx p reason Hrx Hs Hlast) as (r & n & Hl & Hst & Hh & Ho & Hq).
  exists r, n. split_and!; try done. rewrite <- (quiet_seen p) by done. exact Hfollow.
Qed.

(** ** Witness *)
Section witness.
#[local] Instance demo_uuid_text : UuidText := {| uuid_to_string := of_bytes; uuid_parse_str s := Some (as_bytes s) |}.
#[local] Instance demo_serde : SerdeJson := {| from_str _ := None; to_string _ := "{}" |}.
Definition demo_rx : list StorageMessage :=
  [ReasoningStarted [Byte.x61]; ReasoningDelta [Byte.x61] "think"; ReasoningDone [Byte.x61];
   ToolCall [Byte.x62] "web_search" (Object []); ToolOutput [Byte.x63] [Byte.x62] "found";
   MessageStarted [Byte.x64]; ContentDelta [Byte.x64] "hel"; ContentDelta [Byte.x64] "lo"; Usage 3 4;
   MessageDone [Byte.x64] "stop"; ResponseDone "stop"].
Definition demo_response : Response := Storage.demo_response Responses.InProgress.

Example demo_transcript : transcript demo_rx =
  [Reasoning [Byte.x61] "think"; ToolCallRecord [Byte.x62] [Byte.x62] "web_search" "{}";
   ToolOutputRecord [Byte.x63] [Byte.x62] "found"; Message [Byte.x64] "hello"].
Proof. vm_compute. reflexivity. Qed.

Example demo_accepted : match Turns.accepts Turns.start demo_rx with Some p => Turns.ended p | None => false end = true.
Proof. vm_compute. reflexivity. Qed.

Lemma client_follows_the_stream_witness :
  let es := omap payload (event_stream demo_response None 5 [] 0 [] demo_rx) in
  exists r n, last es = Some (Completed r n) /\ cr_status r = "completed" /\ cr_output r = output_of <$> transcript demo_rx.
Proof.
  destruct (Turns.accepts Turns.start demo_rx) as [p|] eqn:Hp;
    [|pose proof demo_accepted as Ha; rewrite Hp in Ha; discriminate].
  assert (Z.of_nat (length (transcript demo_rx)) <= i32_max)%Z as Hs by (rewrite demo_transcript; by apply Z.leb_le).
  pose proof (client_follows_the_stream demo_response None 5 [] 0 demo_rx p Hp Hs) as (_ & _ & Hdone).
  destruct (Hdone "stop" eq_refl) as (r & n & Hl & Hst & _ & Ho & _). exact (ex_intro _ r (ex_intro _ n (conj Hl (conj Hst Ho)))).
Defined.
End witness.
End ClientStream.
