(* ===== verification/Retrieval.v ===== *)
(** * Retrieving a stored response

    The route of [src/src/web/responses/handlers.rs] that answers a stored
    response, and the composition of the stream, the storage task and this
    route: what is retrieved later is what was streamed. *)

From S2P Require Import Prelude Text Json Crypto Api Encrypt Conversions Database Turns Responses Storage ClientStream.

Module Retrieval.
Import Responses Storage.
Import Turns(StorageMessage(..)).
Import ClientStream(StreamOutputItemRecord(..), OutputItem, ResponseUsage, i32_add).

Abbreviation Raw := Conversions.RawThreadMessage.

(** ** The route *)
Record ResponsesRetrieveResponse := MkRetrieve {
  rr_id : Uuid; rr_object : string; rr_created_at : Z; rr_status : string; rr_model : string;
  rr_usage : option ResponseUsage; rr_output : list OutputItem }.

Definition status_str (s : ResponseStatus) : string :=
  match s with
  | Queued => "queued" | InProgress => "in_progress" | Responses.Completed => "completed" | Failed => "failed"
  | RCancelled => "cancelled"
  end.
Definition map_response_error (e : DBError) : Api.ApiError :=
  match e with
  | ResponsesErr ResponseNotFound => Api.NotFound
  | ResponsesErr Responses.Unauthorized => Api.Unauthorized
  | ResponsesErr ValidationError => Api.BadRequest
  | _ => Api.InternalServerError
  end.

Section route.
Context `{Crypto, UuidText}.

Definition retrieved_item (user_key : Encrypt.SecretKey) (msg : Raw) : outcome Api.ApiError (list OutputItem) :=
  let status := default STATUS_COMPLETED (Conversions.status msg) in
  let decrypted := map_err (fun _ => Api.InternalServerError) (Encrypt.decrypt_string user_key (Conversions.content_enc msg)) in
  if decide (Conversions.message_type msg = "assistant") then
    text ← decrypted;
    Ok [ClientStream.message_item (Conversions.uuid msg) status
          match text with Some text => [ClientStream.new_output_text text] | None => [] end]
  else if decide (Conversions.message_type msg = "tool_call") then
    arguments ← decrypted;
    Ok [ClientStream.tool_call_item (Conversions.uuid msg) status (default (Conversions.uuid msg) (Conversions.tool_call_id msg))
          (default "function" (Conversions.tool_name msg)) arguments]
  else if decide (Conversions.message_type msg = "tool_output") then
    output ← decrypted;
    Ok [ClientStream.tool_output_item (Conversions.uuid msg) status (Conversions.tool_call_id msg) output]
  else if decide (Conversions.message_type msg = "reasoning") then
    Ok [ClientStream.reasoning_item (Conversions.uuid msg) status]
  else Ok [].
Fixpoint retrieved_items (user_key : Encrypt.SecretKey) (messages : list Raw) : outcome Api.ApiError (list OutputItem) :=
  match messages with
  | [] => Ok []
  | msg :: messages =>
      item ← retrieved_item user_key msg;
      items ← retrieved_items user_key messages;
      Ok (item ++ items)
  end.

(** The token counts: input, output and reasoning. *)
Definition count_message (counts : Z * Z * Z) (msg : Raw) : Z * Z * Z :=
  let '(input, output, reasoning) := counts in
  match Conversions.token_count msg with
  | Some n =>
      if decide (Conversions.message_type msg = "user") then (i32_add input n, output, reasoning)
      else if decide (Conversions.message_type msg = "assistant") then (input, i32_add output n, reasoning)
      else if decide (Conversions.message_type msg = "reasoning") then (input, i32_add output n, i32_add reasoning n)
      else if decide (Conversions.message_type msg = "tool_call" \/ Conversions.message_type msg = "tool_output")
      then (i32_add input n, output, reasoning)
      else counts
  | None => counts
  end.
Definition retrieved_usage (status : ResponseStatus) (messages : list Raw) : option ResponseUsage :=
  if decide (status = Responses.Completed) then
    let '(input, output, reasoning) := foldl count_message (0, 0, 0)%Z messages in
    Some (ClientStream.MkUsage input 0 output reasoning (i32_add input output))
  else None.

(** [user_key] is what [get_user_key] gave; up to the encryption of the answer. *)
Definition get_response (id user : Uuid) (user_key : outcome Api.ApiError Encrypt.SecretKey)
    : ST Store Api.ApiError ResponsesRetrieveResponse :=
  response ← st_map_err map_response_error (get_response_by_uuid_and_user id user);
  messages ← st_map_err (fun _ => Api.InternalServerError) (get_response_context_messages (r_id response));
  user_key ← st_lift (map_err (fun _ => Api.InternalServerError) user_key);
  output ← st_lift (retrieved_items user_key messages);
  st_ok (MkRetrieve (nr_uuid (r_new response)) "response" (ClientStream.timestamp (r_created_at response))
    (status_str (r_status response)) (nr_model (r_new response)) (retrieved_usage (r_status response) messages) output).
End route.

(** ** Runs on a database that does not fail, from known tables *)
Definition run_ok {E A} (P : Tables -> Prop) (m : ST Store E A) (Q : A -> Tables -> Prop) : Prop :=
  forall s r s', faults s = [] -> P (tables s) -> m s = (r, s') ->
    faults s' = [] /\ exists a, r = Ok a /\ Q a (tables s').

Lemma run_ok_quietly {E A} P (m : ST Store E A) R Q :
  quietly m R -> (forall r t t', P t -> R r t t' -> exists a, r = Ok a /\ Q a t') -> run_ok P m Q.
Proof. intros Hm Hq s r s' Hs Hp Hr. destruct (Hm _ _ _ Hs Hr) as [? HR]. split; [done|]. by eapply Hq. Qed.
Lemma run_ok_bind {E A B} P (m : ST Store E A) (f : A -> ST Store E B) Q R :
  run_ok P m Q -> (forall a, run_ok (Q a) (f a) R) -> run_ok P (x ← m; f x) R.
Proof.
  intros Hm Hf s r s' Hs Hp. unfold mbind, ST_bind. destruct (m s) as [r0 s0] eqn:Hr.
  destruct (Hm _ _ _ Hs Hp Hr) as (Hs0 & a & -> & Hq). by apply Hf.
Qed.
Lemma run_ok_ok {E A} (P : Tables -> Prop) (a : A) (Q : A -> Tables -> Prop) :
  (forall t, P t -> Q a t) -> run_ok P (@st_ok Store E A a) Q.
Proof. intros Hq s r s' Hs Hp [= <- <-]. split; [done|]. eauto. Qed.
Lemma run_ok_post {E A} P (m : ST Store E A) Q Q' : run_ok P m Q -> (forall a t, Q a t -> Q' a t) -> run_ok P m Q'.
Proof. intros Hm Hq s r s' Hs Hp Hr. destruct (Hm _ _ _ Hs Hp Hr) as (? & a & -> & ?). eauto 6. Qed.
Lemma run_ok_from {E A} (P : Tables -> Prop) (m : ST Store E A) Q : (forall t, P t -> run_ok (eq t) m Q) -> run_ok P m Q.
Proof. intros Hm s r s' Hs Hp Hr. by eapply Hm. Qed.

(** ** The rows of the stream *)
Inductive Row :=
| RMessage (a : AssistantMessage) | RReasoning (g : ReasoningItem) | RCall (c : Responses.ToolCall) | ROutput (o : Responses.ToolOutput).
Definition as_message (r : Row) : option AssistantMessage := match r with RMessage a => Some a | _ => None end.
Definition as_reasoning (r : Row) : option ReasoningItem := match r with RReasoning g => Some g | _ => None end.
Definition as_call (r : Row) : option Responses.ToolCall := match r with RCall c => Some c | _ => None end.
Definition as_output (r : Row) : option Responses.ToolOutput := match r with ROutput o => Some o | _ => None end.
Definition row_id (r : Row) : Uuid :=
  match r with RMessage a => a_uuid a | RReasoning g => g_uuid g | RCall c => nt_uuid (tc_new c) | ROutput o => no_uuid (to_new o) end.

(** The tables before the stream, and its rows. *)
Definition with_rows (base : Tables) (rows : list Row) : Tables :=
  MkTables (conversations base) (responses base) (user_messages base)
    (assistant_messages base ++ omap as_message rows) (reasoning_items base ++ omap as_reasoning rows)
    (tool_calls base ++ omap as_call rows) (tool_outputs base ++ omap as_output rows).
Definition unknown (base : Tables) (id : Uuid) : Prop :=
  (forall a, a ∈ assistant_messages base -> a_uuid a <> id) /\ (forall g, g ∈ reasoning_items base -> g_uuid g <> id) /\
  (forall c, c ∈ tool_calls base -> nt_uuid (tc_new c) <> id) /\ (forall o, o ∈ tool_outputs base -> no_uuid (to_new o) <> id).

Definition on_message (id : Uuid) (f : AssistantMessage -> AssistantMessage) (r : Row) : Row :=
  match r with RMessage a => if is_assistant id a then RMessage (f a) else r | _ => r end.
Definition on_reasoning (id : Uuid) (f : ReasoningItem -> ReasoningItem) (r : Row) : Row :=
  match r with RReasoning g => if is_reasoning id g then RReasoning (f g) else r | _ => r end.

Lemma add_message base rows a :
  set_assistant_messages (assistant_messages (with_rows base rows) ++ [a]) (with_rows base rows) = with_rows base (rows ++ [RMessage a]).
Proof. unfold with_rows, set_assistant_messages. cbn. rewrite !omap_app. cbn. by rewrite !app_nil_r, app_assoc. Qed.
Lemma add_reasoning base rows g :
  set_reasoning_items (reasoning_items (with_rows base rows) ++ [g]) (with_rows base rows) = with_rows base (rows ++ [RReasoning g]).
Proof. unfold with_rows, set_reasoning_items. cbn. rewrite !omap_app. cbn. by rewrite !app_nil_r, app_assoc. Qed.
Lemma add_call base rows c :
  set_tool_calls (tool_calls (with_rows base rows) ++ [c]) (with_rows base rows) = with_rows base (rows ++ [RCall c]).
Proof. unfold with_rows, set_tool_calls. cbn. rewrite !omap_app. cbn. by rewrite !app_nil_r, app_assoc. Qed.
Lemma add_output base rows o :
  set_tool_outputs (tool_outputs (with_rows base rows) ++ [o]) (with_rows base rows) = with_rows base (rows ++ [ROutput o]).
Proof. unfold with_rows, set_tool_outputs. cbn. rewrite !omap_app. cbn. by rewrite !app_nil_r, app_assoc. Qed.

Lemma omap_map_same {A B} (f : A -> option B) (g : A -> A) (l : list A) : (forall x, x ∈ l -> f (g x) = f x) -> omap f (g <$> l) = omap f l.
Proof.
  induction l as [|x l IH]; intros Hg; [done|]. cbn. rewrite (Hg x) by (by left).
  rewrite IH by (intros; apply Hg; by right). done.
Qed.
Lemma omap_map {A B} (f : A -> option B) (g : A -> A) (h : B -> B) (l : list A) :
  (forall x, x ∈ l -> f (g x) = h <$> f x) -> omap f (g <$> l) = h <$> omap f l.
Proof.
  induction l as [|x l IH]; intros Hg; [done|]. cbn. rewrite (Hg x) by (by left).
  rewrite IH by (intros; apply Hg; by right). by destruct (f x).
Qed.
Lemma update_none {A} (p : A -> bool) f l : (forall x, x ∈ l -> p x = false) -> update_rows p f l = l.
Proof.
  intros Hp. unfold update_rows. rewrite <- (list_fmap_id l) at 2. apply list_fmap_ext. intros i x Hi.
  rewrite Hp; [done|by eapply list_elem_of_lookup_2].
Qed.
Lemma update_message base rows id f : unknown base id ->
  set_assistant_messages (update_rows (is_assistant id) f (assistant_messages (with_rows base rows))) (with_rows base rows) =
  with_rows base (on_message id f <$> rows).
Proof.
  intros [Hm _]. unfold with_rows, set_assistant_messages. cbn.
  rewrite (omap_map_same as_reasoning), (omap_map_same as_call), (omap_map_same as_output)
    by (intros [] _; cbn; try destruct (is_assistant _ _); done).
  f_equal. unfold update_rows. rewrite fmap_app. f_equal.
  - apply update_none. intros a Ha. apply bool_decide_eq_false. by apply Hm.
  - symmetry. apply omap_map. intros [] _; cbn; try done. by destruct (is_assistant _ _).
Qed.
Lemma update_reasoning base rows id f : unknown base id ->
  set_reasoning_items (update_rows (is_reasoning id) f (reasoning_items (with_rows base rows))) (with_rows base rows) =
  with_rows base (on_reasoning id f <$> rows).
Proof.
  intros (_ & Hg & _). unfold with_rows, set_reasoning_items. cbn.
  rewrite (omap_map_same as_message), (omap_map_same as_call), (omap_map_same as_output)
    by (intros [] _; cbn; try destruct (is_reasoning _ _); done).
  f_equal. unfold update_rows. rewrite fmap_app. f_equal.
  - apply update_none. intros a Ha. apply bool_decide_eq_false. by apply Hg.
  - symmetry. apply omap_map. intros [] _; cbn; try done. by destruct (is_reasoning _ _).
Qed.

(** Looking up the rows by identifier. *)
Lemma first_app_r {A} (p : A -> bool) (l l' : list A) : (forall x, x ∈ l -> p x = false) -> first p (l ++ l') = first p l'.
Proof.
  intros Hl. unfold first. rewrite list_find_app_r; [by destruct (list_find _ l') as [[]|]|].
  apply list_find_None, Forall_forall. intros x Hx. by rewrite Hl.
Qed.
Lemma first_is_Some {A} (p : A -> bool) l x : x ∈ l -> p x = true -> is_Some (first p l).
Proof.
  intros Hx Hp. unfold first. destruct (list_find _ l) as [[]|] eqn:Hf; [by eexists|].
  apply list_find_None in Hf. rewrite Forall_forall in Hf. by destruct (Hf x).
Qed.
Lemma first_is_None {A} (p : A -> bool) (l : list A) : (forall x, x ∈ l -> p x = false) -> first p l = None.
Proof. intros Hl. unfold first. apply fmap_None, list_find_None, Forall_forall. intros x Hx. by rewrite Hl. Qed.
Lemma elem_rows {A} (f : Row -> option A) (rows : list Row) x : x ∈ omap f rows <-> exists row, row ∈ rows /\ f row = Some x.
Proof. rewrite list_elem_of_omap. done. Qed.
Lemma not_taken {A} (p : A -> bool) (l : list A) : (forall x, x ∈ l -> p x = false) -> existsb p l = false.
Proof.
  intros Hl. apply not_true_iff_false. rewrite existsb_exists. intros (x & Hx%list_elem_of_In & Hp). by rewrite Hl in Hp.
Qed.

(** ** The storage task on a stream that keeps the protocol *)
Section run.
Context {cr : Crypto} {cl : CryptoLaws cr} {tk : Tokenizer} {sj : SerdeJson}.
Context (now : Z -> Z) (nonce : nat -> bytes) (drain : forall A, list (Uuid * A) -> list (Uuid * A)).
Context (response_id conversation_id : Z) (user_id : Uuid) (user_key : Encrypt.SecretKey) (tool_ack : bool).
Context (Hseal : sealing nonce user_key) (Hdrain : forall A m, drain A m ≡ₚ m).

(** What of the local state matters for the items. *)
Definition same_items (l l' : Local) : Prop :=
  pending_messages l' = pending_messages l /\ pending_reasoning l' = pending_reasoning l /\ next_item_created_at l' = next_item_created_at l.
Lemma same_drawn l l' : l' = l \/ l' = draw l -> same_items l l'.
Proof. by intros [-> | ->]. Qed.

Lemma create_runs tabs id created :
  first (is_assistant id) (assistant_messages tabs) = None -> has_parents response_id conversation_id tabs ->
  run_ok (eq tabs) (or_log (create_assistant_message_if_missing now response_id conversation_id user_id id created))
    (fun _ t' => exists n u, t' = set_assistant_messages
       (assistant_messages tabs ++ [assistant_row n u (new_message response_id conversation_id user_id id created)]) tabs).
Proof.
  intros Hf Hp. eapply run_ok_quietly; [apply quietly_or_log, create_missing_effect|]. cbn.
  intros r t t' <- (r0 & [Hr0 Ht] & ->). rewrite Hf in Ht. exists tt. split; [by destruct r0|]. by destruct Ht as [?|[_ ?]].
Qed.
Lemma finalize_runs tabs l id content status reason :
  is_Some (first (is_assistant id) (assistant_messages tabs)) ->
  run_ok (eq tabs) (run_logged (finalize_assistant_message now nonce user_key l id content status reason))
    (fun l' t' => same_items l l' /\ exists enc u, stored_text user_key content enc /\ t' = set_assistant_messages
       (update_rows (is_assistant id) (finalized enc (clamp_token_count content) status reason u) (assistant_messages tabs)) tabs).
Proof.
  intros [a Hf]. destruct (finalize_message_effect now nonce user_key Hseal l id content status reason) as [He Hl].
  eapply run_ok_quietly; [apply quietly_run_logged, He|]. cbn. intros r t t' <- (r0 & [Hr0 Ht] & ->).
  rewrite Hf in Ht. eexists. split; [by destruct r0|]. split; [by apply same_drawn|exact Ht].
Qed.
Lemma create_reasoning_runs tabs id created :
  existsb (is_reasoning id) (reasoning_items tabs) = false -> has_parents response_id conversation_id tabs ->
  run_ok (eq tabs) (or_log (create_reasoning now response_id conversation_id user_id id created))
    (fun _ t' => exists n u, t' = set_reasoning_items
       (reasoning_items tabs ++ [reasoning_row n u (new_reasoning response_id conversation_id user_id id created)]) tabs).
Proof.
  intros Hf Hp. eapply run_ok_quietly; [apply quietly_or_log, create_reasoning_effect|]. cbn.
  intros r t t' <- (r0 & [Hr0 Ht] & ->). exists tt. split; [by destruct r0|]. destruct Ht as [?|[_ [?|?]]]; [done|congruence|done].
Qed.
Lemma finalize_reasoning_runs tabs l id content status :
  is_Some (first (is_reasoning id) (reasoning_items tabs)) ->
  run_ok (eq tabs) (run_logged (finalize_reasoning_item now nonce user_key l id content status))
    (fun l' t' => same_items l l' /\ exists enc u, stored_text user_key content enc /\ t' = set_reasoning_items
       (update_rows (is_reasoning id) (finalized_reasoning enc (clamp_token_count content) status u) (reasoning_items tabs)) tabs).
Proof.
  intros [a Hf]. destruct (finalize_reasoning_effect now nonce user_key Hseal l id content status) as [He Hl].
  eapply run_ok_quietly; [apply quietly_run_logged, He|]. cbn. intros r t t' <- (r0 & [Hr0 Ht] & ->).
  rewrite Hf in Ht. eexists. split; [by destruct r0|]. split; [by apply same_drawn|exact Ht].
Qed.

Lemma acknowledged_runs b l (m : Db unit) P Q :
  run_ok P m (fun _ => Q) -> run_ok P (acknowledged tool_ack b l m) (fun l' t => same_items l l' /\ Q t).
Proof.
  intros Hm s r s' Hs Hp. unfold acknowledged. destruct (m s) as [r0 s0] eqn:Hr0. destruct (Hm _ _ _ Hs Hp Hr0) as (Hs0 & u & -> & Hq).
  intros [= <- <-]. split; [done|]. eexists. split; [done|]. split; [by destruct (tool_ack && b)|done].
Qed.
Lemma call_runs tabs l id name args created :
  existsb (fun c => bool_decide (nt_uuid (tc_new c) = id)) (tool_calls tabs) = false -> has_parents response_id conversation_id tabs ->
  run_ok (eq tabs) (persist_tool_call now nonce response_id conversation_id user_id user_key l id name args created)
    (fun _ t' => exists n u enc, sealed_text user_key (to_string args) enc /\
       t' = set_tool_calls (tool_calls tabs ++ [MkToolCall n (new_tool_call response_id conversation_id user_id id name args enc created) u]) tabs).
Proof.
  intros Hf Hp. eapply run_ok_quietly; [by apply tool_call_effect|]. cbn. intros r t t' <- [_ [(n & u & enc & Ht & -> & ->)|[_ [?|?]]]]; [|congruence|done].
  exists tt. split; [done|]. by exists n, u, enc.
Qed.
Lemma output_runs tabs l id call c output created :
  first (is_call call user_id) (tool_calls tabs) = Some c ->
  existsb (fun o => bool_decide (no_uuid (to_new o) = id)) (tool_outputs tabs) = false -> has_parents response_id conversation_id tabs ->
  run_ok (eq tabs) (persist_tool_output now nonce response_id conversation_id user_id user_key l id call output created)
    (fun _ t' => exists n u enc, sealed_text user_key output enc /\
       t' = set_tool_outputs (tool_outputs tabs ++ [MkToolOutput n (new_tool_output response_id conversation_id user_id id (tc_id c) output enc created) u]) tabs).
Proof.
  intros Hc Hf Hp. eapply run_ok_quietly; [by apply tool_output_effect|]. cbn.
  intros r t t' <- [_ [(c' & n & u & enc & Hc' & Ht & -> & ->)|[_ [?|[?|?]]]]]; [|congruence|congruence|done].
  assert (c' = c) as -> by congruence. exists tt. split; [done|]. by exists n, u, enc.
Qed.
Lemma terminal_runs tabs status :
  run_ok (eq tabs) (update_terminal_response_status now response_id status)
    (fun _ t' => exists at_ u, t' = terminated response_id status at_ u tabs).
Proof.
  eapply run_ok_quietly; [apply terminal_effect|]. cbn. intros r t t' <- [-> Ht]. by exists tt.
Qed.

(** ** The rows show the transcript *)
Context (first_at : Z).
Definition created (k : nat) : Z := (first_at + Z.of_nat k * MICROSECOND)%Z.
Definition row_shows (rows : list Row) (k : nat) (item : StreamOutputItemRecord) (status : string) (row : Row) : Prop :=
  match item, row with
  | Message id text, RMessage a =>
      a_uuid a = id /\ a_response_id a = Some response_id /\ a_created_at a = created k /\ a_status a = status /\
      (status <> STATUS_IN_PROGRESS -> stored_text user_key text (a_content_enc a))
  | Reasoning id text, RReasoning g =>
      g_uuid g = id /\ g_response_id g = Some response_id /\ g_created_at g = created k /\ g_status g = status /\
      (status <> STATUS_IN_PROGRESS -> stored_text user_key text (g_content_enc g))
  | ToolCallRecord id call name arguments, RCall c =>
      nt_uuid (tc_new c) = id /\ call = id /\ nt_response_id (tc_new c) = Some response_id /\ nt_created_at (tc_new c) = created k /\
      nt_user_id (tc_new c) = user_id /\ nt_name (tc_new c) = name /\
      exists enc, nt_arguments_enc (tc_new c) = Some enc /\ sealed_text user_key arguments enc
  | ToolOutputRecord id call output, ROutput o =>
      no_uuid (to_new o) = id /\ no_response_id (to_new o) = Some response_id /\ no_created_at (to_new o) = created k /\
      sealed_text user_key output (no_output_enc (to_new o)) /\
      exists c, RCall c ∈ rows /\ nt_uuid (tc_new c) = call /\ tc_id c = no_tool_call_fk (to_new o)
  | _, _ => False
  end.
Definition aligned (status : StreamOutputItemRecord -> string) (t : list StreamOutputItemRecord) (rows : list Row) : Prop :=
  length rows = length t /\
  forall k item, t !! k = Some item -> exists row, rows !! k = Some row /\ row_shows rows k item (status item) row.

Definition open_in (p : Turns.Protocol) (item : StreamOutputItemRecord) : bool :=
  match item with
  | Message id _ => bool_decide (Turns.open_message p = Some id)
  | Reasoning id _ => bool_decide (Turns.open_reasoning p = Some id)
  | _ => false
  end.
Definition status_in (p : Turns.Protocol) (item : StreamOutputItemRecord) : string :=
  if open_in p item then STATUS_IN_PROGRESS else STATUS_COMPLETED.

Lemma shows_id rows k item st row : row_shows rows k item st row -> row_id row = ClientStream.record_id item.
Proof. destruct item, row; cbn; try done; by intros (? & _). Qed.
Lemma shows_grow rows rows' k item st row : (forall c, RCall c ∈ rows -> RCall c ∈ rows') ->
  row_shows rows k item st row -> row_shows rows' k item st row.
Proof. intros Hr. destruct item, row; cbn; try done. intros (? & ? & ? & ? & c & Hc & ?). split_and!; try done. exists c. auto. Qed.

Lemma aligned_add st st' t rows item row :
  aligned st t rows -> (forall x, x ∈ t -> st x = st' x) -> row_shows (rows ++ [row]) (length t) item (st' item) row ->
  aligned st' (t ++ [item]) (rows ++ [row]).
Proof.
  intros [Hlen Hrows] Hst Hrow. split; [by rewrite !length_app, Hlen|]. intros k x [Hk|[Hk Hx]]%lookup_app_Some.
  - destruct (Hrows k x Hk) as (r & Hr & Hs). exists r. split; [by apply lookup_app_l_Some|].
    rewrite <- Hst by (by eapply list_elem_of_lookup_2). eapply shows_grow; [|exact Hs]. intros c Hc. apply elem_of_app. by left.
  - apply list_lookup_singleton_Some in Hx as [Hz <-]. assert (k = length t) as -> by lia. exists row.
    rewrite lookup_app_r, Hlen, Nat.sub_diag by lia. done.
Qed.
Lemma aligned_same st st' t rows : aligned st t rows -> (forall x, x ∈ t -> st x = st' x) -> aligned st' t rows.
Proof.
  intros [Hlen Hrows] Hst. split; [done|]. intros k x Hk. rewrite <- Hst by (by eapply list_elem_of_lookup_2). by apply Hrows.
Qed.
Lemma aligned_update st st' t rows f :
  aligned st t rows -> (forall c, RCall c ∈ rows -> f (RCall c) = RCall c) ->
  (forall k item row, t !! k = Some item -> rows !! k = Some row -> row_shows rows k item (st item) row ->
     row_shows rows k item (st' item) (f row)) -> aligned st' t (f <$> rows).
Proof.
  intros [Hlen Hrows] Hcalls Hf. split; [by rewrite length_fmap|]. intros k item Hk. destruct (Hrows k item Hk) as (row & Hr & Hs).
  exists (f row). rewrite list_lookup_fmap, Hr. split; [done|]. eapply shows_grow; [|by eapply Hf].
  intros c Hc. rewrite <- (Hcalls c Hc). by apply list_elem_of_fmap_2.
Qed.
(** Text is added to an item that is in progress. *)
Lemma aligned_delta p t rows id delta :
  aligned (status_in p) t rows -> (forall x, x ∈ t -> ClientStream.record_id x = id -> open_in p x = true) ->
  aligned (status_in p) (ClientStream.add_text id delta <$> t) rows.
Proof.
  intros [Hlen Hrows] Hopen. split; [by rewrite length_fmap|]. intros k item. rewrite list_lookup_fmap.
  destruct (t !! k) as [x|] eqn:Hk; [|done]. intros [= <-]. destruct (Hrows k x Hk) as (row & Hr & Hs). exists row. split; [done|].
  pose proof (Hopen x (list_elem_of_lookup_2 _ _ _ Hk)) as Ho.
  destruct x as [i text|i text| |]; cbn [ClientStream.add_text ClientStream.record_id] in *; [| |done..];
    (case_decide as Hi; [|done]); specialize (Ho Hi); unfold status_in in *; cbn [open_in] in *; rewrite Ho in *;
    destruct row; cbn in *; naive_solver.
Qed.

(** The item [id] is closed. *)
Lemma aligned_close_message st0 t rows id text enc tokens st reason u :
  aligned st0 t rows -> st <> STATUS_IN_PROGRESS -> stored_text user_key text enc ->
  (forall x, x ∈ t -> ClientStream.record_id x = id -> x = Message id text) ->
  forall status, (forall x, x ∈ t -> status x = if decide (ClientStream.record_id x = id) then st else st0 x) ->
  aligned status t (on_message id (finalized enc tokens st reason u) <$> rows).
Proof.
  intros Ha Hst Henc Hid status Hstatus. eapply aligned_update; [exact Ha|done|]. intros k x row Hk Hr Hs.
  pose proof (list_elem_of_lookup_2 _ _ _ Hk) as Hx. rewrite (Hstatus x Hx). pose proof (shows_id _ _ _ _ _ Hs) as Hrow.
  case_decide as Heq.
  - rewrite (Hid x Hx Heq) in *. destruct row as [a| | |]; try done. cbn in *. unfold is_assistant. rewrite bool_decide_true by done.
    cbn. naive_solver.
  - destruct row as [a| | |]; try done. cbn in *. unfold is_assistant. by rewrite bool_decide_false by congruence.
Qed.
Lemma aligned_close_reasoning st0 t rows id text enc tokens st u :
  aligned st0 t rows -> st <> STATUS_IN_PROGRESS -> stored_text user_key text enc ->
  (forall x, x ∈ t -> ClientStream.record_id x = id -> x = Reasoning id text) ->
  forall status, (forall x, x ∈ t -> status x = if decide (ClientStream.record_id x = id) then st else st0 x) ->
  aligned status t (on_reasoning id (finalized_reasoning enc tokens st u) <$> rows).
Proof.
  intros Ha Hst Henc Hid status Hstatus. eapply aligned_update; [exact Ha|done|]. intros k x row Hk Hr Hs.
  pose proof (list_elem_of_lookup_2 _ _ _ Hk) as Hx. rewrite (Hstatus x Hx). pose proof (shows_id _ _ _ _ _ Hs) as Hrow.
  case_decide as Heq.
  - rewrite (Hid x Hx Heq) in *. destruct row as [|g| |]; try done. cbn in *. unfold is_reasoning. rewrite bool_decide_true by done.
    cbn. naive_solver.
  - destruct row as [|g| |]; try done. cbn in *. unfold is_reasoning. by rewrite bool_decide_false by congruence.
Qed.

(** ** The invariant of the task *)
Context (base : Tables) (Hparents : has_parents response_id conversation_id base).
Definition pending_ok (p : Turns.Protocol) (t : list StreamOutputItemRecord) (l : Local) : Prop :=
  next_item_created_at l = created (length t) /\
  match Turns.open_message p with
  | None => pending_messages l = []
  | Some id => exists k text, t !! k = Some (Message id text) /\ pending_messages l = [(id, MkPending text (Some (created k)))]
  end /\
  match Turns.open_reasoning p with
  | None => pending_reasoning l = []
  | Some id => exists k text, t !! k = Some (Reasoning id text) /\ pending_reasoning l = [(id, text)]
  end.
Definition progress (p : Turns.Protocol) (t : list StreamOutputItemRecord) (l : Local) (tabs : Tables) : Prop :=
  ClientStream.fits p t /\ pending_ok p t l /\ exists rows, tabs = with_rows base rows /\ aligned (status_in p) t rows.

(** How the stream ends: the status of the response, and of the items. *)
Definition status_at_end (p : Turns.Protocol) (item : StreamOutputItemRecord) : string :=
  if open_in p item then STATUS_INCOMPLETE else STATUS_COMPLETED.
Definition ending (m : StorageMessage) : ResponseStatus :=
  match m with ResponseDone _ => Responses.Completed | Turns.Cancelled => RCancelled | _ => Failed end.
Definition ended_as (status : ResponseStatus) (p : Turns.Protocol) (t : list StreamOutputItemRecord) (tabs : Tables) : Prop :=
  exists rows at_ u, tabs = with_rows (terminated response_id status at_ u base) rows /\ aligned (status_at_end p) t rows.

Lemma hm_get_one {A} id (v : A) : hm_get id [(id, v)] = Some v.
Proof. unfold hm_get. cbn. by rewrite decide_True. Qed.
Lemma hm_get_nil {A} id : hm_get id ([] : list (Uuid * A)) = None.
Proof. done. Qed.
Lemma hm_remove_one {A} id (v : A) : hm_remove id [(id, v)] = [].
Proof. unfold hm_remove. by rewrite filter_cons_False by (intros Hn; by apply Hn). Qed.
Lemma hm_put_one {A} id (v w : A) : hm_put id w [(id, v)] = [(id, w)].
Proof. unfold hm_put. by rewrite hm_remove_one. Qed.

(** Finding an item of the transcript in the tables. *)
Lemma aligned_elem st t rows row : aligned st t rows -> row ∈ rows -> exists k item, t !! k = Some item /\ row_shows rows k item (st item) row.
Proof.
  intros [Hlen Hrows] [k Hk]%list_elem_of_lookup. pose proof (lookup_lt_Some _ _ _ Hk) as Hlt. rewrite Hlen in Hlt.
  destruct (lookup_lt_is_Some_2 _ _ Hlt) as [item Hitem]. destruct (Hrows k item Hitem) as (row' & Hr & Hs).
  exists k, item. split; [done|]. congruence.
Qed.
Lemma rows_ids st t rows row : aligned st t rows -> row ∈ rows -> row_id row ∈ ClientStream.record_id <$> t.
Proof.
  intros Ha Hr. destruct (aligned_elem _ _ _ _ Ha Hr) as (k & item & Hk & Hs). rewrite (shows_id _ _ _ _ _ Hs).
  apply list_elem_of_fmap_2. by eapply list_elem_of_lookup_2.
Qed.
Lemma find_message tb st t rows id k text : aligned st t rows -> t !! k = Some (Message id text) ->
  is_Some (first (is_assistant id) (assistant_messages (with_rows tb rows))).
Proof.
  intros [_ Hrows] Hk. destruct (Hrows k _ Hk) as (row & Hr & Hs). destruct row as [a| | |]; try done. destruct Hs as (Hid & _).
  apply (first_is_Some _ _ a); [|by apply bool_decide_eq_true]. cbn. apply elem_of_app. right. apply elem_rows. exists (RMessage a).
  split; [by eapply list_elem_of_lookup_2|done].
Qed.
Lemma find_reasoning tb st t rows id k text : aligned st t rows -> t !! k = Some (Reasoning id text) ->
  is_Some (first (is_reasoning id) (reasoning_items (with_rows tb rows))).
Proof.
  intros [_ Hrows] Hk. destruct (Hrows k _ Hk) as (row & Hr & Hs). destruct row as [|g| |]; try done. destruct Hs as (Hid & _).
  apply (first_is_Some _ _ g); [|by apply bool_decide_eq_true]. cbn. apply elem_of_app. right. apply elem_rows. exists (RReasoning g).
  split; [by eapply list_elem_of_lookup_2|done].
Qed.
(** An identifier in none of the tables. *)
Lemma new_id tb st t rows id : aligned st t rows -> unknown tb id -> id ∉ ClientStream.record_id <$> t ->
  first (is_assistant id) (assistant_messages (with_rows tb rows)) = None /\
  existsb (is_reasoning id) (reasoning_items (with_rows tb rows)) = false /\
  existsb (fun c => bool_decide (nt_uuid (tc_new c) = id)) (tool_calls (with_rows tb rows)) = false /\
  existsb (fun o => bool_decide (no_uuid (to_new o) = id)) (tool_outputs (with_rows tb rows)) = false.
Proof.
  intros Ha (Hm & Hg & Hc & Ho) Hnew.
  assert (forall row, row ∈ rows -> row_id row <> id) as Hrow by (intros row Hr <-; by eapply Hnew, rows_ids).
  split; [|split; [|split]]; cbn; [apply first_is_None|apply not_taken..];
    (intros x [Hx|(row & Hr & Hx)%elem_rows]%elem_of_app; apply bool_decide_eq_false; [auto|]);
    specialize (Hrow row Hr); destruct row; try done; cbn in Hx; simplify_eq; exact Hrow.
Qed.
Lemma find_call tb st t rows id k name args : aligned st t rows -> unknown tb id -> t !! k = Some (ToolCallRecord id id name args) ->
  exists c, first (is_call id user_id) (tool_calls (with_rows tb rows)) = Some c /\ RCall c ∈ rows /\ nt_uuid (tc_new c) = id.
Proof.
  intros [_ Hrows] (_ & _ & Hbase & _) Hk. destruct (Hrows k _ Hk) as (row & Hr & Hs). destruct row as [| |c|]; try done.
  destruct Hs as (Hid & _ & _ & _ & Huser & _). cbn [tool_calls with_rows].
  rewrite first_app_r by (intros x Hx; unfold is_call; rewrite (bool_decide_false _ (Hbase x Hx)); done).
  destruct (first_is_Some (is_call id user_id) (omap as_call rows) c) as [c' Hc'].
  { apply elem_rows. exists (RCall c). split; [by eapply list_elem_of_lookup_2|done]. }
  { unfold is_call. by rewrite !bool_decide_true. }
  exists c'. split; [done|]. apply first_found in Hc' as [Hp ([] & Hin & Hrow)%elem_rows]; try done. cbn in Hrow. simplify_eq.
  split; [done|]. apply andb_true_iff in Hp as [Hp _]. by apply bool_decide_eq_true in Hp.
Qed.

Lemma run_ok_exists {E A X} (P : X -> Tables -> Prop) (m : ST Store E A) Q :
  (forall x, run_ok (P x) m Q) -> run_ok (fun t => exists x, P x t) m Q.
Proof. intros Hm s r s' Hs [x Hp]. by eapply Hm. Qed.

Lemma the_only (t : list StreamOutputItemRecord) k item : NoDup (ClientStream.record_id <$> t) -> t !! k = Some item ->
  forall x, x ∈ t -> ClientStream.record_id x = ClientStream.record_id item -> x = item.
Proof.
  intros Hnd Hk x [j Hj]%list_elem_of_lookup Hx. pose proof (ClientStream.distinct_index _ _ _ _ _ Hnd Hj Hk Hx) as ->. congruence.
Qed.

(** The open message and the open reasoning item are finalized as incomplete. *)
Lemma mark_messages_runs tb p t rows l reason status :
  (forall id, id ∈ Turns.used p -> unknown tb id) ->
  ClientStream.fits p t -> pending_ok p t l -> aligned (status_in p) t rows ->
  (forall x, x ∈ t -> status x = match x with Message _ _ => status_at_end p x | _ => status_in p x end) ->
  run_ok (eq (with_rows tb rows)) (finalize_messages now nonce user_key (set_messages [] l) (drain _ (pending_messages l)) reason)
    (fun l' t' => pending_reasoning l' = pending_reasoning l /\ exists rows', t' = with_rows tb rows' /\ aligned status t rows').
Proof.
  intros Hunk Hf (_ & Hm & _) Ha Hstatus. destruct (Turns.open_message p) as [id|] eqn:Hopen.
  - destruct Hm as (k & text & Hk & ->). rewrite (proj1 (Permutation_singleton_r _ _) (Hdrain _ _)).
    cbn [finalize_messages]. pose proof (Hunk id) as Hid.
    eapply run_ok_bind.
    { apply (finalize_runs (with_rows tb rows)). by eapply find_message. }
    intros l'. cbn beta. apply run_ok_ok. intros t' ((_ & Hg & _) & enc & u & Henc & ->). split; [exact Hg|].
    eexists. split; [apply update_message|].
    + apply Hid. rewrite <- (ClientStream.ids_used _ _ Hf), elem_of_reverse. change id with (ClientStream.record_id (Message id text)).
      apply list_elem_of_fmap_2. by eapply list_elem_of_lookup_2.
    + eapply aligned_close_message; [exact Ha|done|exact Henc|apply (the_only _ _ _ (ClientStream.ids_distinct _ _ Hf) Hk)|].
      intros x Hx. rewrite Hstatus by done. case_decide as Heq.
      * rewrite (the_only _ _ _ (ClientStream.ids_distinct _ _ Hf) Hk x Hx Heq). unfold status_at_end, open_in.
        by rewrite bool_decide_true.
      * destruct x as [i txt| | |]; try done. unfold status_at_end, status_in, open_in. rewrite bool_decide_false; [done|].
        rewrite Hopen. intros [= ->]. by apply Heq.
  - rewrite Hm. rewrite (proj1 (Permutation_nil_r _) (Hdrain _ _)). cbn. apply run_ok_ok. intros t' <-. split; [done|]. exists rows. split; [done|].
    eapply aligned_same; [exact Ha|]. intros x Hx. rewrite Hstatus by done. unfold status_in, status_at_end, open_in.
    destruct x; try done. by rewrite Hopen.
Qed.

Lemma mark_reasonings_runs tb p t rows l status0 status :
  (forall id, id ∈ Turns.used p -> unknown tb id) ->
  ClientStream.fits p t ->
  match Turns.open_reasoning p with
  | None => pending_reasoning l = []
  | Some id => exists k text, t !! k = Some (Reasoning id text) /\ pending_reasoning l = [(id, text)]
  end -> aligned status0 t rows ->
  (forall x, x ∈ t -> status0 x = match x with Message _ _ => status_at_end p x | _ => status_in p x end) ->
  (forall x, x ∈ t -> status x = status_at_end p x) ->
  run_ok (eq (with_rows tb rows)) (finalize_reasonings now nonce user_key (set_pending_reasoning [] l) (drain _ (pending_reasoning l)))
    (fun _ t' => exists rows', t' = with_rows tb rows' /\ aligned status t rows').
Proof.
  intros Hunk Hf Hm Ha Hstatus0 Hstatus. destruct (Turns.open_reasoning p) as [id|] eqn:Hopen.
  - destruct Hm as (k & text & Hk & ->). rewrite (proj1 (Permutation_singleton_r _ _) (Hdrain _ _)).
    cbn [finalize_reasonings]. eapply run_ok_bind.
    { apply (finalize_reasoning_runs (with_rows tb rows)). by eapply find_reasoning. }
    intros l'. cbn beta. apply run_ok_ok. intros t' (_ & enc & u & Henc & ->).
    eexists. split; [apply update_reasoning|].
    + apply Hunk. rewrite <- (ClientStream.ids_used _ _ Hf), elem_of_reverse. change id with (ClientStream.record_id (Reasoning id text)).
      apply list_elem_of_fmap_2. by eapply list_elem_of_lookup_2.
    + eapply aligned_close_reasoning; [exact Ha|done|exact Henc|apply (the_only _ _ _ (ClientStream.ids_distinct _ _ Hf) Hk)|].
      intros x Hx. rewrite Hstatus, Hstatus0 by done. case_decide as Heq.
      * rewrite (the_only _ _ _ (ClientStream.ids_distinct _ _ Hf) Hk x Hx Heq). unfold status_at_end, open_in.
        by rewrite bool_decide_true.
      * destruct x as [|i txt| |]; try done. unfold status_at_end, status_in, open_in. rewrite bool_decide_false; [done|].
        rewrite Hopen. intros [= ->]. by apply Heq.
  - rewrite Hm. rewrite (proj1 (Permutation_nil_r _) (Hdrain _ _)). cbn. apply run_ok_ok. intros t' <-. exists rows. split; [done|].
    eapply aligned_same; [exact Ha|]. intros x Hx. rewrite Hstatus, Hstatus0 by done. unfold status_in, status_at_end, open_in.
    destruct x; try done. by rewrite Hopen.
Qed.
Lemma mark_runs tb p t rows l reason :
  (forall id, id ∈ Turns.used p -> unknown tb id) ->
  ClientStream.fits p t -> pending_ok p t l -> aligned (status_in p) t rows ->
  run_ok (eq (with_rows tb rows)) (mark_pending_items_incomplete now nonce drain user_key l reason)
    (fun _ t' => exists rows', t' = with_rows tb rows' /\ aligned (status_at_end p) t rows').
Proof.
  intros Hunk Hf Hp Ha. set (status1 x := match x with Message _ _ => status_at_end p x | _ => status_in p x end).
  unfold mark_pending_items_incomplete. eapply run_ok_bind; [by apply (mark_messages_runs tb p t rows l reason status1)|].
  intros l'. cbn beta. apply run_ok_from. intros t' (Hg & rows' & -> & Ha'). eapply (mark_reasonings_runs tb p t rows' l' status1); try done.
  rewrite Hg. by destruct Hp as (_ & _ & Hr).
Qed.

(** The status, then the items; or the other way round when nothing is open. *)
Lemma end_runs p t rows l status reason :
  (forall id, id ∈ Turns.used p -> unknown base id) ->
  ClientStream.fits p t -> pending_ok p t l -> aligned (status_in p) t rows ->
  run_ok (eq (with_rows base rows))
    (_ ← update_terminal_response_status now response_id status; mark_pending_items_incomplete now nonce drain user_key l reason)
    (fun _ => ended_as status p t).
Proof.
  intros Hunk Hf Hp Ha. eapply run_ok_bind; [apply terminal_runs|]. intros u. cbn beta. apply run_ok_from. intros t' (at_ & n & ->).
  eapply run_ok_post; [exact (mark_runs (terminated response_id status at_ n base) p t rows l reason Hunk Hf Hp Ha)|].
  cbn. intros _ t' (rows' & -> & Ha'). by exists rows', at_, n.
Qed.

Lemma goes_on_runs P (m : ST Store Empty_set Local) Q :
  run_ok P m Q -> run_ok P (goes_on m) (fun r t => r.2 = true /\ Q r.1 t).
Proof. intros Hm. eapply run_ok_bind; [exact Hm|]. intros l. by apply run_ok_ok. Qed.
Lemma returns_runs P (m : ST Store Empty_set Local) Q :
  run_ok P m Q -> run_ok P (returns m) (fun r t => r.2 = false /\ Q r.1 t).
Proof. intros Hm. eapply run_ok_bind; [exact Hm|]. intros l. by apply run_ok_ok. Qed.

(** One accepted message. *)
Definition after (m : StorageMessage) (q : Turns.Protocol) (t : list StreamOutputItemRecord) (r : Local * bool) (tabs : Tables) : Prop :=
  if Turns.ended q then r.2 = false /\ ended_as (ending m) q t tabs else r.2 = true /\ progress q t r.1 tabs.
Abbreviation the_step := (step now nonce drain response_id conversation_id user_id user_key tool_ack).

Lemma pending_weak p q t l l' :
  same_items l l' -> Turns.open_message q = Turns.open_message p -> Turns.open_reasoning q = Turns.open_reasoning p ->
  pending_ok p t l -> pending_ok q t l'.
Proof. unfold pending_ok. by intros (-> & -> & ->) -> ->. Qed.
Lemma created_next k : (created k + MICROSECOND)%Z = created (S k).
Proof. unfold created. lia. Qed.
Lemma status_before p q (t : list StreamOutputItemRecord) id x :
  id ∉ ClientStream.record_id <$> t -> x ∈ t ->
  (forall id', id' <> id -> Turns.open_message p = Some id' <-> Turns.open_message q = Some id') ->
  (forall id', id' <> id -> Turns.open_reasoning p = Some id' <-> Turns.open_reasoning q = Some id') ->
  status_in p x = status_in q x.
Proof.
  intros Hnew Hx Hm Hg. assert (ClientStream.record_id x <> id) as Hne by (intros <-; by apply Hnew, list_elem_of_fmap_2).
  unfold status_in, open_in. destruct x; cbn in *; try done.
  - specialize (Hm _ Hne). by rewrite (bool_decide_ext _ _ Hm).
  - specialize (Hg _ Hne). by rewrite (bool_decide_ext _ _ Hg).
Qed.
(** Items opened earlier are still there, and further back. *)
Lemma pending_grow p t l item :
  pending_ok p t l -> forall l', next_item_created_at l' = created (S (length t)) -> pending_messages l' = pending_messages l ->
  pending_reasoning l' = pending_reasoning l -> pending_ok p (t ++ [item]) l'.
Proof.
  intros (Hn & Hm & Hg) l' Hn' H1 H2. unfold pending_ok. rewrite H1, H2. split; [rewrite Hn', length_app; cbn; f_equal; lia|]. split.
  - destruct (Turns.open_message p); [|done]. destruct Hm as (k & text & Hk & ->). exists k, text. split; [by apply lookup_app_l_Some|done].
  - destruct (Turns.open_reasoning p); [|done]. destruct Hg as (k & text & Hk & ->). exists k, text. split; [by apply lookup_app_l_Some|done].
Qed.

Lemma started_progress p t l tabs id q :
  progress p t l tabs -> unknown base id -> id ∉ Turns.used p -> Turns.open_message p = None ->
  q = Turns.MkProtocol (Some id) (Turns.open_reasoning p) None (id :: Turns.used p) false (Turns.calls p) ->
  ClientStream.fits q (t ++ [Message id EmptyString]) ->
  run_ok (eq tabs) (the_step l (MessageStarted id)) (fun r t' => r.2 = true /\ progress q (t ++ [Message id EmptyString]) r.1 t').
Proof.
  intros (Hf & Hp & rows & -> & Ha) Hunk Hu Hnone -> Hfq. pose proof (ClientStream.unused_fresh _ _ _ Hf Hu) as Hnew.
  pose proof Hp as (Hn & Hm & Hg). rewrite Hnone in Hm. cbn [step]. rewrite Hm, hm_get_nil. cbn [default from_option p_created_at pending_default allocate_created_at]. rewrite Hn. eapply run_ok_post; [apply goes_on_runs|cbn; intros [l' b] t' H'; exact H'].
  eapply run_ok_bind; [apply create_runs; [by eapply (new_id base)|exact Hparents]|]. intros u. cbn beta. apply run_ok_ok.
  intros t' (n & upd & ->). split; [exact Hfq|]. split.
  - split; [cbn [next_item_created_at set_messages set_next]; rewrite created_next, length_app; cbn; f_equal; lia|].
    cbn [Turns.open_message Turns.open_reasoning]. split.
    + exists (length t), EmptyString. split; [by rewrite lookup_app_r, Nat.sub_diag by lia|]. cbn [pending_messages set_messages set_next].
      by rewrite Hm.
    + cbn. destruct (Turns.open_reasoning p); [|done]. destruct Hg as (k & text & Hk & Hl). exists k, text.
      split; [by apply lookup_app_l_Some|done].
  - eexists. split; [apply add_message|]. eapply aligned_add; [exact Ha| |].
    + intros x Hx. eapply status_before; [exact Hnew|exact Hx|cbn; rewrite Hnone; naive_solver|done].
    + cbn. split_and!; try done; unfold status_in; cbn; rewrite bool_decide_true by done; done.
Qed.
Lemma reasoning_started_progress p t l tabs id q :
  progress p t l tabs -> unknown base id -> id ∉ Turns.used p -> Turns.open_reasoning p = None ->
  q = Turns.MkProtocol (Turns.open_message p) (Some id) None (id :: Turns.used p) false (Turns.calls p) ->
  ClientStream.fits q (t ++ [Reasoning id EmptyString]) ->
  run_ok (eq tabs) (the_step l (ReasoningStarted id)) (fun r t' => r.2 = true /\ progress q (t ++ [Reasoning id EmptyString]) r.1 t').
Proof.
  intros (Hf & Hp & rows & -> & Ha) Hunk Hu Hnone -> Hfq. pose proof (ClientStream.unused_fresh _ _ _ Hf Hu) as Hnew.
  pose proof Hp as (Hn & Hm & Hg). rewrite Hnone in Hg. cbn [step]. rewrite Hg, hm_get_nil. cbn [default from_option].
  cbn [allocate_created_at set_pending_reasoning next_item_created_at]. rewrite Hn. eapply run_ok_post; [apply goes_on_runs|cbn; intros [l' b] t' H'; exact H'].
  eapply run_ok_bind; [apply create_reasoning_runs; [by eapply (new_id base)|exact Hparents]|]. intros u. cbn beta. apply run_ok_ok.
  intros t' (n & upd & ->). split; [exact Hfq|]. split.
  - split; [cbn [next_item_created_at set_next]; rewrite created_next, length_app; cbn; f_equal; lia|].
    cbn [Turns.open_message Turns.open_reasoning]. split.
    + cbn. destruct (Turns.open_message p); [|done]. destruct Hm as (k & text & Hk & Hl). exists k, text.
      split; [by apply lookup_app_l_Some|done].
    + exists (length t), EmptyString. split; [by rewrite lookup_app_r, Nat.sub_diag by lia|done].
  - eexists. split; [apply add_reasoning|]. eapply aligned_add; [exact Ha| |].
    + intros x Hx. eapply status_before; [exact Hnew|exact Hx|done|cbn; rewrite Hnone; naive_solver].
    + cbn. split_and!; try done; unfold status_in; cbn; rewrite bool_decide_true by done; done.
Qed.

Lemma used_unknown p t k item : (forall id, id ∈ Turns.used p -> unknown base id) -> ClientStream.fits p t ->
  t !! k = Some item -> unknown base (ClientStream.record_id item).
Proof.
  intros Hunk Hf Hk. apply Hunk. rewrite <- (ClientStream.ids_used _ _ Hf), elem_of_reverse.
  apply list_elem_of_fmap_2. by eapply list_elem_of_lookup_2.
Qed.
Lemma done_progress p t l tabs id reason q :
  progress p t l tabs -> (forall id, id ∈ Turns.used p -> unknown base id) -> Turns.open_message p = Some id ->
  q = Turns.MkProtocol None (Turns.open_reasoning p) (Turns.pending_call p) (Turns.used p) false (Turns.calls p) ->
  ClientStream.fits q t ->
  run_ok (eq tabs) (the_step l (MessageDone id reason)) (fun r t' => r.2 = true /\ progress q t r.1 t').
Proof.
  intros (Hf & Hp & rows & -> & Ha) Hunk Hopen -> Hfq. pose proof Hp as (Hn & Hm & Hg). rewrite Hopen in Hm.
  destruct Hm as (k & text & Hk & Hl). cbn [step]. rewrite Hl, hm_get_one, hm_remove_one. cbn [default from_option p_created_at].
  eapply run_ok_post; [apply goes_on_runs|cbn; intros [l' b] t' H'; exact H'].
  destruct (find_message base _ _ _ _ _ _ Ha Hk) as [a Hfirst].
  eapply run_ok_bind with (Q := fun _ t' => t' = with_rows base rows).
  { eapply run_ok_quietly; [apply quietly_or_log, create_missing_effect|]. cbn. intros r t0 t' <- (r0 & [Hr0 Ht] & ->).
    rewrite Hfirst in Ht. exists tt. split; [by destruct r0|done]. }
  intros u. cbn beta. apply run_ok_from. intros t' ->. eapply run_ok_post; [apply finalize_runs; by eexists|].
  cbn beta. intros l' t' (Hsame & enc & upd & Henc & ->). split; [exact Hfq|]. split.
  - destruct Hsame as (H1 & H2 & H3). split; [rewrite H3; exact Hn|]. split; [exact H1|]. cbn [Turns.open_reasoning]. rewrite H2. exact Hg.
  - eexists. split; [apply update_message; exact (used_unknown _ _ _ _ Hunk Hf Hk)|].
    eapply aligned_close_message; [exact Ha|done|exact Henc|apply (the_only _ _ _ (ClientStream.ids_distinct _ _ Hf) Hk)|].
    intros x Hx. case_decide as Heq.
    + rewrite (the_only _ _ _ (ClientStream.ids_distinct _ _ Hf) Hk x Hx Heq). done.
    + unfold status_in, open_in. destruct x; try done. cbn. rewrite !bool_decide_false; [done| |done]. rewrite Hopen. intros [= ->]. by apply Heq.
Qed.
Lemma reasoning_done_progress p t l tabs id q :
  progress p t l tabs -> (forall id, id ∈ Turns.used p -> unknown base id) -> Turns.open_reasoning p = Some id ->
  q = Turns.MkProtocol (Turns.open_message p) None (Turns.pending_call p) (Turns.used p) false (Turns.calls p) ->
  ClientStream.fits q t ->
  run_ok (eq tabs) (the_step l (ReasoningDone id)) (fun r t' => r.2 = true /\ progress q t r.1 t').
Proof.
  intros (Hf & Hp & rows & -> & Ha) Hunk Hopen -> Hfq. pose proof Hp as (Hn & Hm & Hg). rewrite Hopen in Hg.
  destruct Hg as (k & text & Hk & Hl). cbn [step]. rewrite Hl, hm_get_one, hm_remove_one. cbn [default from_option].
  eapply run_ok_post; [apply goes_on_runs|cbn; intros [l' b] t' H'; exact H'].
  eapply run_ok_post; [apply finalize_reasoning_runs; by eapply find_reasoning|].
  cbn beta. intros l' t' (Hsame & enc & upd & Henc & ->). split; [exact Hfq|]. split.
  - destruct Hsame as (H1 & H2 & H3). split; [rewrite H3; exact Hn|]. split; [|exact H2]. cbn [Turns.open_message]. rewrite H1. exact Hm.
  - eexists. split; [apply update_reasoning; exact (used_unknown _ _ _ _ Hunk Hf Hk)|].
    eapply aligned_close_reasoning; [exact Ha|done|exact Henc|apply (the_only _ _ _ (ClientStream.ids_distinct _ _ Hf) Hk)|].
    intros x Hx. case_decide as Heq.
    + rewrite (the_only _ _ _ (ClientStream.ids_distinct _ _ Hf) Hk x Hx Heq). done.
    + unfold status_in, open_in. destruct x; try done. cbn. rewrite !bool_decide_false; [done| |done]. rewrite Hopen. intros [= ->]. by apply Heq.
Qed.

Lemma call_progress p t l tabs id name args q :
  progress p t l tabs -> unknown base id -> id ∉ Turns.used p -> Turns.quiet p ->
  q = Turns.MkProtocol None None (Some id) (id :: Turns.used p) false (S (Turns.calls p)) ->
  let item := ToolCallRecord id id name (to_string args) in
  ClientStream.fits q (t ++ [item]) ->
  run_ok (eq tabs) (the_step l (ToolCall id name args)) (fun r t' => r.2 = true /\ progress q (t ++ [item]) r.1 t').
Proof.
  intros (Hf & Hp & rows & -> & Ha) Hunk Hu (Hm0 & Hg0 & _) -> item Hfq. pose proof (ClientStream.unused_fresh _ _ _ Hf Hu) as Hnew.
  pose proof Hp as (Hn & Hm & Hg). cbn [step allocate_created_at]. eapply run_ok_post; [apply goes_on_runs|cbn; intros [l' b] t' H'; exact H'].
  eapply run_ok_post; [apply acknowledged_runs, call_runs; [by eapply (new_id base)|exact Hparents]|].
  cbn beta. intros l' t' ((H1 & H2 & H3) & n & u & enc & Henc & ->). split; [exact Hfq|]. split.
  - apply (pending_weak p _ _ l'); [done|by rewrite Hm0|by rewrite Hg0|]. eapply (pending_grow _ _ l); [exact Hp| |exact H1|exact H2].
    rewrite H3. cbn. by rewrite Hn, created_next.
  - eexists. split; [apply add_call|]. eapply aligned_add; [exact Ha| |].
    + intros x Hx. eapply status_before; [exact Hnew|exact Hx|by rewrite Hm0|by rewrite Hg0].
    + cbn. rewrite Hn. split_and!; try done. by exists enc.
Qed.
Lemma output_progress p t l tabs id call output q :
  progress p t l tabs -> (forall id, id ∈ Turns.used p -> unknown base id) -> unknown base id -> id ∉ Turns.used p ->
  Turns.pending_call p = Some call ->
  q = Turns.MkProtocol (Turns.open_message p) (Turns.open_reasoning p) None (id :: Turns.used p) false (Turns.calls p) ->
  let item := ToolOutputRecord id call output in
  ClientStream.fits q (t ++ [item]) ->
  run_ok (eq tabs) (the_step l (ToolOutput id call output)) (fun r t' => r.2 = true /\ progress q (t ++ [item]) r.1 t').
Proof.
  intros (Hf & Hp & rows & -> & Ha) Hall Hunk Hu Hcall -> item Hfq. pose proof (ClientStream.unused_fresh _ _ _ Hf Hu) as Hnew.
  destruct (ClientStream.call_pending _ _ Hf _ Hcall) as (k & name & args & Hk).
  destruct (find_call base _ _ _ _ _ _ _ Ha (used_unknown _ _ _ _ Hall Hf Hk) Hk) as (c & Hc & Hin & Hid).
  pose proof Hp as (Hn & Hm & Hg). cbn [step allocate_created_at]. eapply run_ok_post; [apply goes_on_runs|cbn; intros [l' b] t' H'; exact H'].
  eapply run_ok_post; [apply acknowledged_runs, output_runs; [exact Hc|by eapply (new_id base)|exact Hparents]|].
  cbn beta. intros l' t' ((H1 & H2 & H3) & n & u & enc & Henc & ->). split; [exact Hfq|]. split.
  - apply (pending_weak p _ _ l'); [done|done|done|]. eapply (pending_grow _ _ l); [exact Hp| |exact H1|exact H2].
    rewrite H3. cbn. by rewrite Hn, created_next.
  - eexists. split; [apply add_output|]. eapply aligned_add; [exact Ha| |].
    + intros x Hx. by eapply status_before.
    + cbn. rewrite Hn. split_and!; try done. exists c. split; [apply elem_of_app; by left|done].
Qed.

(** Deltas stay in the maps of the task. *)
Lemma message_delta_progress p t l tabs id delta :
  progress p t l tabs -> Turns.open_message p = Some id ->
  run_ok (eq tabs) (the_step l (ContentDelta id delta))
    (fun r t' => r.2 = true /\ progress p (ClientStream.add_text id delta <$> t) r.1 t').
Proof.
  intros (Hf & Hp & rows & -> & Ha) Hopen. pose proof Hp as (Hn & Hm & Hg). rewrite Hopen in Hm. destruct Hm as (k & text & Hk & Hl).
  cbn [step]. rewrite Hl, hm_get_one, hm_put_one. cbn [default from_option p_content p_created_at].
  eapply run_ok_post; [apply goes_on_runs|cbn; intros [l' b] t' H'; exact H']. apply run_ok_ok. intros t' <-.
  split; [by apply ClientStream.fits_delta|]. split.
  - split; [cbn; by rewrite length_fmap|]. cbn [pending_messages pending_reasoning set_messages]. split.
    + rewrite Hopen. exists k, (text +:+ delta). rewrite list_lookup_fmap, Hk. cbn. by rewrite decide_True.
    + destruct (Turns.open_reasoning p) as [id'|]; [|done]. destruct Hg as (k' & text' & Hk' & Hl'). exists k', text'. split; [|done].
      rewrite list_lookup_fmap, Hk'. cbn. rewrite decide_False; [done|]. intros ->.
      pose proof (ClientStream.distinct_index _ _ _ _ _ (ClientStream.ids_distinct _ _ Hf) Hk Hk' eq_refl) as ->. congruence.
  - exists rows. split; [done|]. apply aligned_delta; [done|]. intros x Hx Hid.
    rewrite (the_only _ _ _ (ClientStream.ids_distinct _ _ Hf) Hk x Hx Hid). cbn. by apply bool_decide_eq_true.
Qed.
Lemma reasoning_delta_progress p t l tabs id delta :
  progress p t l tabs -> Turns.open_reasoning p = Some id ->
  run_ok (eq tabs) (the_step l (ReasoningDelta id delta))
    (fun r t' => r.2 = true /\ progress p (ClientStream.add_text id delta <$> t) r.1 t').
Proof.
  intros (Hf & Hp & rows & -> & Ha) Hopen. pose proof Hp as (Hn & Hm & Hg). rewrite Hopen in Hg. destruct Hg as (k & text & Hk & Hl).
  cbn [step]. rewrite Hl, hm_get_one, hm_put_one. cbn [default from_option].
  eapply run_ok_post; [apply goes_on_runs|cbn; intros [l' b] t' H'; exact H']. apply run_ok_ok. intros t' <-.
  split; [by apply ClientStream.fits_delta|]. split.
  - split; [cbn; by rewrite length_fmap|]. cbn [pending_messages pending_reasoning set_pending_reasoning]. split.
    + destruct (Turns.open_message p) as [id'|]; [|done]. destruct Hm as (k' & text' & Hk' & Hl'). exists k', text'. split; [|done].
      rewrite list_lookup_fmap, Hk'. cbn. rewrite decide_False; [done|]. intros ->.
      pose proof (ClientStream.distinct_index _ _ _ _ _ (ClientStream.ids_distinct _ _ Hf) Hk Hk' eq_refl) as ->. congruence.
    + rewrite Hopen. exists k, (text +:+ delta). rewrite list_lookup_fmap, Hk. cbn. by rewrite decide_True.
  - exists rows. split; [done|]. apply aligned_delta; [done|]. intros x Hx Hid.
    rewrite (the_only _ _ _ (ClientStream.ids_distinct _ _ Hf) Hk x Hx Hid). cbn. by apply bool_decide_eq_true.
Qed.

(** The stream ends. *)
Lemma response_done_ends p t l tabs reason q :
  progress p t l tabs -> Turns.quiet p -> q = Turns.MkProtocol None None None (Turns.used p) true (Turns.calls p) ->
  run_ok (eq tabs) (the_step l (ResponseDone reason)) (fun r t' => r.2 = false /\ ended_as Responses.Completed q t t').
Proof.
  intros (Hf & Hp & rows & -> & Ha) (Hm0 & Hg0 & _) ->. pose proof Hp as (_ & Hm & Hg). rewrite Hm0 in Hm. rewrite Hg0 in Hg.
  cbn [step]. unfold nothing_pending. rewrite !bool_decide_true by done. cbn [andb].
  apply (returns_runs _ _ (fun _ => ended_as Responses.Completed _ t)).
  eapply run_ok_bind; [by apply (run_ok_ok _ _ (fun _ => eq (with_rows base rows)))|]. intros l'. cbn beta.
  eapply run_ok_bind; [apply terminal_runs|]. intros u. cbn beta. apply run_ok_ok. intros t' (at_ & n & ->).
  exists rows, at_, n. split; [done|]. eapply aligned_same; [exact Ha|]. intros x _. unfold status_in, status_at_end, open_in. cbn.
  rewrite Hm0, Hg0. by destruct x.
Qed.
Lemma ended_weak status p q t tabs : Turns.open_message q = Turns.open_message p -> Turns.open_reasoning q = Turns.open_reasoning p ->
  ended_as status p t tabs -> ended_as status q t tabs.
Proof.
  intros Hm Hg (rows & at_ & u & -> & Ha). exists rows, at_, u. split; [done|]. eapply aligned_same; [exact Ha|].
  intros x _. unfold status_at_end, open_in. by rewrite Hm, Hg.
Qed.

Lemma step_progress p t l tabs m q :
  (forall id, id ∈ Turns.used q -> unknown base id) -> progress p t l tabs -> Turns.accept p m = Some q ->
  run_ok (eq tabs) (the_step l m) (after m q (ClientStream.transcript_step t m)).
Proof.
  intros Hunk Hprog Haccept. pose proof Hprog as (Hf & Hp & rows & -> & Ha).
  pose proof (ClientStream.fits_step _ _ _ _ Hf Haccept) as Hfq. revert Haccept Hunk. unfold Turns.accept, after.
  destruct (Turns.ended p) eqn:He; [done|].
  destruct m as [id|id delta|id reason|id|id delta|id|pt ct|reason|msg| |id name args|id call out]; cbn [ClientStream.transcript_step] in *;
    try case_decide as Hd; intros [= <-] Hunk; cbn [Turns.ended]; rewrite ?He.
  - destruct Hd as (Hnone & _ & Hu). eapply started_progress; try done. apply Hunk. by left.
  - by apply message_delta_progress.
  - by eapply done_progress.
  - destruct Hd as (Hnone & _ & Hu). eapply reasoning_started_progress; try done. apply Hunk. by left.
  - by apply reasoning_delta_progress.
  - by eapply reasoning_done_progress.
  - cbn [step]. eapply run_ok_post; [apply goes_on_runs|cbn; intros [l' b] t' H'; exact H']. apply run_ok_ok. by intros t' <-.
  - by eapply response_done_ends.
  - cbn [step]. eapply run_ok_post; [by apply returns_runs, end_runs|]. cbn beta. intros r t' [Hr Hend]. split; [done|]. by eapply ended_weak.
  - cbn [step]. eapply run_ok_post; [by apply returns_runs, end_runs|]. cbn beta. intros r t' [Hr Hend]. split; [done|]. by eapply ended_weak.
  - destruct Hd as (Hq & Hu & _). eapply call_progress; try done. apply Hunk. by left.
  - destruct Hd as (Hc & Hu). eapply output_progress; try done; [intros x Hx; apply Hunk; by right|apply Hunk; by left].
Qed.

Lemma accept_used p m q : Turns.accept p m = Some q -> Turns.used p ⊆ Turns.used q.
Proof using. clear. unfold Turns.accept. destruct (Turns.ended p); [done|]. destruct m; try case_decide; intros [= <-]; cbn; set_solver. Qed.
Lemma accepts_used p rx q : Turns.accepts p rx = Some q -> Turns.used p ⊆ Turns.used q.
Proof using.
  clear. revert p. induction rx as [|m rx IH]; intros p; cbn; [by intros [= <-]|].
  destruct (Turns.accept p m) as [p'|] eqn:Ha; [|done]. cbn. intros Hrx. etrans; [by eapply accept_used|by apply IH].
Qed.
Definition ending_of (rx : list StorageMessage) : ResponseStatus :=
  match last rx with Some m => ending m | None => Failed end.
Lemma ending_failed p m q : Turns.accept p m = Some q -> Turns.ended q = false -> ending m = Failed.
Proof. unfold Turns.accept. destruct (Turns.ended p); [done|]. destruct m; try case_decide; try done; by intros [= <-]. Qed.

Lemma task_ends p t l tabs rx q :
  (forall id, id ∈ Turns.used q -> unknown base id) -> progress p t l tabs -> Turns.ended p = false -> Turns.accepts p rx = Some q ->
  run_ok (eq tabs) (run_task now nonce drain response_id conversation_id user_id user_key tool_ack l rx)
    (fun _ => ended_as (ending_of rx) q (foldl ClientStream.transcript_step t rx)).
Proof.
  revert p t l tabs. induction rx as [|m rx IH]; intros p t l tabs Hunk Hprog He; cbn [Turns.accepts run_task foldl].
  - intros [= <-]. pose proof Hprog as (Hf & Hp & rows & -> & Ha). by apply end_runs.
  - destruct (Turns.accept p m) as [p'|] eqn:Ha; [|done]. cbn [mbind option_bind]. intros Hrx.
    eapply run_ok_bind; [eapply step_progress; [|exact Hprog|exact Ha]|].
    { intros id Hid. apply Hunk. by apply (accepts_used _ _ _ Hrx). }
    intros [l' go]. unfold after. cbn [fst snd]. apply run_ok_from. intros t1. destruct (Turns.ended p') eqn:He'.
    + intros [-> Hend]. pose proof (ClientStream.ended_stays _ _ _ He' Hrx) as ->. injection Hrx as <-. apply run_ok_ok. by intros t' <-.
    + intros [-> Hprog']. eapply run_ok_post; [eapply IH; [exact Hunk|exact Hprog'|exact He'|exact Hrx]|]. cbn beta.
      intros _ t'. destruct rx as [|m' rx]; [|done]. unfold ending_of at 2. cbn. by rewrite (ending_failed _ _ _ Ha He').
Qed.
End run.

(** ** The rows in the order of the stream *)
#[export] Instance earlier_trans : Transitive earlier.
Proof. intros a b c. unfold earlier. lia. Qed.
#[export] Instance earlier_total : Total earlier.
Proof. intros a b. unfold earlier. lia. Qed.

Section sorting.
Context {A : Type} (key : A -> Z).
(** A list is determined by its elements and an order in which they differ. *)
Lemma sorted_unique (l l' : list A) :
  l ≡ₚ l' -> StronglySorted (fun x y => key x <= key y)%Z l -> StronglySorted (fun x y => key x < key y)%Z l' -> l = l'.
Proof.
  revert l. induction l' as [|x l' IH]; intros l Hp Hs Hs'; [by apply Permutation_nil_r in Hp|].
  apply StronglySorted_inv in Hs' as [Hs' Hx]. rewrite Forall_forall in Hx.
  destruct l as [|y l]; [by apply Permutation_nil_cons in Hp|]. apply StronglySorted_inv in Hs as [Hs Hy]. rewrite Forall_forall in Hy.
  assert (y = x) as ->.
  { assert (y ∈ x :: l') as Hin by (rewrite <- Hp; by left). apply elem_of_cons in Hin as [?|Hin]; [done|].
    pose proof (Hx _ Hin). assert (x ∈ y :: l) as Hin' by (rewrite Hp; by left). apply elem_of_cons in Hin' as [?|Hin']; [done|].
    pose proof (Hy _ Hin'). lia. }
  f_equal. apply IH; [by apply (Permutation_cons_inv (a := x))|done|done].
Qed.
Lemma increasing_sorted (at_ : nat -> Z) (l : list A) :
  (forall i j : nat, i < j -> (at_ i < at_ j)%Z) -> (forall k x, l !! k = Some x -> key x = at_ k) ->
  StronglySorted (fun x y => key x < key y)%Z l.
Proof.
  revert at_. induction l as [|x l IH]; intros at_ Hat Hkey; [constructor|]. constructor.
  - apply (IH (at_ ∘ S)); [intros; apply Hat; lia|]. intros k y Hk. by apply (Hkey (S k)).
  - apply Forall_forall. intros y [k Hk]%list_elem_of_lookup. rewrite (Hkey 0 x eq_refl), (Hkey (S k) y Hk). apply Hat. lia.
Qed.
End sorting.

Lemma collect {A B} (f : A -> list B) (P : nat -> B -> Prop) (l : list A) :
  (forall k x, l !! k = Some x -> exists y, f x = [y] /\ P k y) ->
  exists ys, mjoin (f <$> l) = ys /\ length ys = length l /\ forall k y, ys !! k = Some y -> P k y.
Proof.
  revert P. induction l as [|x l IH]; intros P Hf; [by exists []|].
  destruct (Hf 0 x eq_refl) as (y & Hy & Hp). destruct (IH (P ∘ S)) as (ys & Hys & Hlen & Hps); [intros k z Hk; by apply (Hf (S k))|].
  exists (y :: ys). split; [change (f x ++ mjoin (f <$> l) = y :: ys); by rewrite Hy, Hys|]. cbn. split; [by rewrite Hlen|]. intros [|k] z; cbn; [by intros [= <-]|apply Hps].
Qed.
Lemma filter_one {A B} `{!EqDecision B} (f : A -> B) (l : list A) x :
  NoDup (f <$> l) -> x ∈ l -> filter (fun y => f y = f x) l = [x].
Proof.
  induction l as [|y l IH]; intros Hnd Hx; [by apply elem_of_nil in Hx|]. apply NoDup_cons in Hnd as [Hy Hnd].
  apply elem_of_cons in Hx as [->|Hx].
  - rewrite filter_cons_True by done. f_equal. apply filter_none, Forall_forall. intros z Hz Heq. apply Hy. rewrite <- Heq.
    by apply list_elem_of_fmap_2.
  - rewrite filter_cons_False; [by apply IH|]. intros Heq. apply Hy. rewrite Heq. by apply list_elem_of_fmap_2.
Qed.

(** A row of the thread. *)
Definition raw_of (t : Tables) (row : Row) : list Raw :=
  match row with
  | RMessage a => [raw_assistant t a] | RReasoning g => [raw_reasoning g] | RCall c => [raw_tool_call c]
  | ROutput o => raw_tool_output t o
  end.
Lemma thread_rows t rows :
  (raw_assistant t <$> omap as_message rows) ++ (raw_tool_call <$> omap as_call rows) ++
  mjoin (raw_tool_output t <$> omap as_output rows) ++ (raw_reasoning <$> omap as_reasoning rows)
  ≡ₚ mjoin (raw_of t <$> rows).
Proof.
  induction rows as [|row rows IH]; [done|]. change (mjoin (raw_of t <$> row :: rows)) with (raw_of t row ++ mjoin (raw_of t <$> rows)).
  rewrite <- IH.
  destruct row; cbn [omap list_omap as_message as_call as_output as_reasoning raw_of fmap list_fmap mjoin list_join app]; solve_Permutation.
Qed.

(** Every tool call has its own id. *)
Definition ids_ok (s : Store) : Prop :=
  NoDup (tc_id <$> tool_calls (tables s)) /\ forall c, c ∈ tool_calls (tables s) -> (tc_id c < serial s)%Z.
Definition keeps_ids (s s' : Store) : Prop := ids_ok s -> ids_ok s'.
#[export] Instance keeps_ids_preorder : PreOrder keeps_ids.
Proof. split; [by intros s Hs|]. intros s1 s2 s3 H1 H2 Hs. auto. Qed.
Lemma keeps_ids_same s t' : tool_calls t' = tool_calls (tables s) -> keeps_ids s (with_tables t' (advance s)).
Proof. intros Heq [Hnd Hlt]. split; cbn; rewrite Heq; [done|]. intros c Hc%Hlt. lia. Qed.
Lemma keeps_ids_call s n u : keeps_ids s (with_tables
  (set_tool_calls (tool_calls (tables s) ++ [MkToolCall (serial s) n u]) (tables s)) (advance s)).
Proof.
  intros [Hnd Hlt]. split; cbn.
  - rewrite fmap_app. apply NoDup_app. split; [done|]. split; [|apply NoDup_singleton].
    intros x (c & -> & Hc)%list_elem_of_fmap Heq%list_elem_of_singleton. apply Hlt in Hc. cbn in Heq. lia.
  - intros c [Hc%Hlt|Hc]%elem_of_app; [lia|]. apply list_elem_of_singleton in Hc as ->. cbn. lia.
Qed.

(** ** What is retrieved *)
Section retrieved.
Context {cr : Crypto} {cl : CryptoLaws cr} {tk : Tokenizer} {sj : SerdeJson} {ut : UuidText}.
Context (response_id : Z) (user_id : Uuid) (user_key : Encrypt.SecretKey) (first_at : Z).

(** An item as the route shows it; a message without text has no content part. *)
Definition retrieved (status : StreamOutputItemRecord -> string) (item : StreamOutputItemRecord) : OutputItem :=
  match item with
  | Message id text =>
      ClientStream.message_item id (status item) (if is_empty text then [] else [ClientStream.new_output_text text])
  | Reasoning id _ => ClientStream.reasoning_item id (status item)
  | ToolCallRecord id call name arguments => ClientStream.tool_call_item id STATUS_COMPLETED call name (Some arguments)
  | ToolOutputRecord id call output => ClientStream.tool_output_item id STATUS_COMPLETED (Some call) (Some output)
  end.
Definition utf8_item (item : StreamOutputItemRecord) : Prop :=
  match item with
  | Message _ text | Reasoning _ text | ToolCallRecord _ _ _ text | ToolOutputRecord _ _ text => is_utf8 text = true
  end.

Lemma sealed_decrypts text enc : is_utf8 text = true -> sealed_text user_key text enc ->
  Encrypt.decrypt_string user_key (Some enc) = Ok (Some text).
Proof. unfold sealed_text, Encrypt.decrypt_string. intros Hu ->. cbn. by rewrite from_utf8_lossy_as_bytes. Qed.
Lemma stored_decrypts text enc : is_utf8 text = true -> stored_text user_key text enc ->
  Encrypt.decrypt_string user_key enc = Ok (if is_empty text then None else Some text).
Proof.
  intros Hu. destruct enc as [enc|]; cbn [stored_text].
  - intros [Hne Hs]. rewrite (sealed_decrypts _ _ Hu Hs). unfold is_empty. by rewrite bool_decide_false.
  - by intros ->.
Qed.

Lemma row_retrieved tabs rows k item status row :
  NoDup (tc_id <$> tool_calls tabs) -> (forall c, RCall c ∈ rows -> c ∈ tool_calls tabs) ->
  utf8_item item -> status item <> STATUS_IN_PROGRESS ->
  row_shows response_id user_id user_key first_at rows k item (status item) row ->
  exists raw, raw_of tabs row = [raw] /\ Conversions.created_at raw = created first_at k /\
    Conversions.message_type raw <> "user" /\ retrieved_item user_key raw = Ok [retrieved status item].
Proof.
  intros Hnd Hcalls Hu Hst. destruct item as [id text|id text|id call name args|id call out], row as [a|g|c|o]; try done; cbn [row_shows].
  - intros (<- & _ & Hat & Hs & Htext). eexists. split; [done|]. split; [done|]. split; [done|].
    unfold retrieved_item. cbn -[Encrypt.decrypt_string]. rewrite (stored_decrypts _ _ Hu (Htext Hst)), Hs. cbn. by destruct (is_empty text).
  - intros (<- & _ & Hat & Hs & _). eexists. split; [done|]. split; [done|]. split; [done|].
    unfold retrieved_item. cbn. by rewrite Hs.
  - intros (<- & -> & _ & Hat & _ & <- & enc & Henc & Hs). eexists. split; [done|]. split; [done|]. split; [done|].
    unfold retrieved_item. cbn -[Encrypt.decrypt_string]. by rewrite Henc, (sealed_decrypts _ _ Hu Hs).
  - intros (<- & _ & Hat & Hs & c & Hc & <- & Hfk). cbn [raw_of]. unfold raw_tool_output. rewrite <- Hfk.
    rewrite (filter_one tc_id _ _ Hnd (Hcalls _ Hc)). eexists. split; [done|]. split; [done|]. split; [done|].
    unfold retrieved_item. cbn -[Encrypt.decrypt_string].
    by rewrite (sealed_decrypts _ _ Hu Hs).
Qed.

(** Nothing of the response was there before. *)
Definition no_items (base : Tables) : Prop :=
  (forall a, a ∈ assistant_messages base -> a_response_id a <> Some response_id) /\
  (forall g, g ∈ reasoning_items base -> g_response_id g <> Some response_id) /\
  (forall c, c ∈ tool_calls base -> nt_response_id (tc_new c) <> Some response_id) /\
  (forall o, o ∈ tool_outputs base -> no_response_id (to_new o) <> Some response_id).

Lemma filter_new {A} (f : A -> option Z) (l l' : list A) :
  (forall x, x ∈ l -> f x <> Some response_id) -> (forall x, x ∈ l' -> f x = Some response_id) ->
  filter (fun x => response_is response_id (f x) = true) (l ++ l') = l'.
Proof.
  intros Hl Hl'. unfold response_is. rewrite filter_app, filter_none, filter_all; [done| |]; apply Forall_forall; intros x Hx.
  - apply bool_decide_eq_true. by apply Hl'.
  - rewrite bool_decide_eq_true. by apply Hl.
Qed.
Lemma thread_with_rows base rows status t :
  no_items base -> aligned response_id user_id user_key first_at status t rows ->
  exists users, Forall (fun r => Conversions.message_type r = "user") users /\
    thread (with_rows base rows) response_id ≡ₚ users ++ mjoin (raw_of (with_rows base rows) <$> rows).
Proof.
  intros (Hm & Hg & Hc & Ho) Ha. unfold thread. set (tabs := with_rows base rows).
  assert (forall row, row ∈ rows -> match row with
    | RMessage a => a_response_id a | RReasoning g => g_response_id g | RCall c => nt_response_id (tc_new c)
    | ROutput o => no_response_id (to_new o) end = Some response_id) as Hrow.
  { intros row Hr. destruct (aligned_elem _ _ _ _ _ _ _ _ Ha Hr) as (k & item & _ & Hs). destruct item, row; cbn in Hs; naive_solver. }
  eexists. split; [|apply Permutation_app_head; rewrite <- thread_rows; cbn [tabs with_rows assistant_messages tool_calls tool_outputs reasoning_items]].
  - apply Forall_forall. intros r (m & -> & _)%list_elem_of_fmap. done.
  - rewrite !filter_new; try done; (intros x (row & Hr & Hx)%elem_rows; specialize (Hrow row Hr); destruct row; try done; cbn in Hx; by simplify_eq).
Qed.

Lemma retrieved_skip_users l :
  retrieved_items user_key (filter (fun r => Conversions.message_type r <> "user") l) = retrieved_items user_key l.
Proof.
  induction l as [|r l IH]; [done|]. rewrite filter_cons. case_decide as Hr; cbn; rewrite IH; [done|].
  assert (Conversions.message_type r = "user") as Hu by (by destruct (decide (Conversions.message_type r = "user"))).
  unfold retrieved_item. rewrite Hu. cbn. by destruct (retrieved_items user_key l).
Qed.
Lemma retrieved_all (f : nat -> OutputItem) (l : list Raw) :
  (forall k raw, l !! k = Some raw -> retrieved_item user_key raw = Ok [f k]) -> retrieved_items user_key l = Ok (f <$> seq 0 (length l)).
Proof.
  revert f. induction l as [|raw l IH]; intros f Hf; [done|]. cbn [retrieved_items]. rewrite (Hf 0 raw eq_refl). cbn.
  rewrite (IH (f ∘ S)) by (intros k r Hk; by apply (Hf (S k))). cbn. do 2 f_equal. by rewrite <- fmap_S_seq, <- list_fmap_compose.
Qed.

(** The messages of the response, in the order of the stream. *)
Lemma thread_retrieved base rows status t :
  no_items base -> aligned response_id user_id user_key first_at status t rows ->
  NoDup (tc_id <$> tool_calls (with_rows base rows)) -> Forall utf8_item t -> (forall x, status x <> STATUS_IN_PROGRESS) ->
  retrieved_items user_key (merge_sort earlier (thread (with_rows base rows) response_id)) = Ok (retrieved status <$> t).
Proof.
  intros Hno Ha Hnd Hu Hst. set (tabs := with_rows base rows) in *.
  destruct (thread_with_rows base rows status t Hno Ha) as (users & Husers & Hperm). fold tabs in Hperm.
  destruct (collect (raw_of tabs) (fun k raw => Conversions.created_at raw = created first_at k /\ Conversions.message_type raw <> "user" /\
      exists item, t !! k = Some item /\ retrieved_item user_key raw = Ok [retrieved status item]) rows) as (raws & Hraws & Hlen & Hraw).
  { intros k row Hk. pose proof Ha as [Hl Hrows]. pose proof (lookup_lt_Some _ _ _ Hk) as Hlt. rewrite Hl in Hlt.
    destruct (lookup_lt_is_Some_2 _ _ Hlt) as [item Hitem]. destruct (Hrows k item Hitem) as (row' & Hr & Hs).
    assert (row' = row) as -> by congruence. rewrite Forall_forall in Hu.
    destruct (row_retrieved tabs rows k item status row Hnd) as (raw & H1 & H2 & H3 & H4); [|by apply Hu; eapply list_elem_of_lookup_2|done|done|].
    { intros c Hc. cbn. apply elem_of_app. right. apply elem_rows. by exists (RCall c). }
    exists raw. eauto 6. }
  rewrite Hraws in Hperm.
  rewrite <- retrieved_skip_users.
  assert (filter (fun r => Conversions.message_type r <> "user") (merge_sort earlier (thread tabs response_id)) = raws) as ->.
  { apply (sorted_unique Conversions.created_at).
    - rewrite merge_sort_Permutation, Hperm, filter_app, filter_none, filter_all; [done| |].
      + apply Forall_forall. intros raw [k Hk]%list_elem_of_lookup. by destruct (Hraw _ _ Hk) as (_ & ? & _).
      + eapply Forall_impl; [exact Husers|]. cbn. intros r Hr Hn. by apply Hn.
    - eapply StronglySorted_sublist; [apply sublist_filter|]. apply (StronglySorted_merge_sort earlier).
    - apply (increasing_sorted _ (created first_at)); [unfold created, MICROSECOND; intros; lia|]. intros k x Hk. by destruct (Hraw _ _ Hk) as (? & _). }
  destruct Ha as [Hl _]. rewrite (retrieved_all (fun k => from_option (retrieved status) (ClientStream.reasoning_item [] EmptyString) (t !! k))).
  - f_equal. rewrite Hlen, Hl. apply list_eq. intros k. rewrite !list_lookup_fmap. destruct (t !! k) as [item|] eqn:Hk.
    + rewrite lookup_seq_lt by (by eapply lookup_lt_Some). cbn. by rewrite Hk.
    + rewrite lookup_seq_ge by (by apply lookup_ge_None). done.
  - intros k raw Hk. destruct (Hraw _ _ Hk) as (_ & _ & item & Hitem & Hr). by rewrite Hitem.
Qed.
End retrieved.

(** ** The texts of a stream of strings are well formed *)
Definition utf8_message (m : StorageMessage) : Prop :=
  match m with
  | ContentDelta _ text | ReasoningDelta _ text | ToolOutput _ _ text => is_utf8 text = true
  | _ => True
  end.
Lemma add_text_utf8 id delta item : is_utf8 delta = true -> utf8_item item -> utf8_item (ClientStream.add_text id delta item).
Proof. intros Hd. destruct item; cbn; try case_decide; cbn; try done; intros; by apply is_utf8_app. Qed.
Lemma transcript_utf8 `{SerdeJson} t rx :
  (forall v, is_utf8 (to_string v) = true) -> Forall utf8_message rx -> Forall utf8_item t ->
  Forall utf8_item (foldl ClientStream.transcript_step t rx).
Proof.
  intros Hjson Hrx. revert t. induction Hrx as [|m rx Hm _ IH]; intros t Ht; [done|]. cbn [foldl]. apply IH.
  destruct m; cbn [ClientStream.transcript_step utf8_message] in *; try done; try (apply Forall_app; split; [done|by repeat constructor]).
  - apply Forall_fmap. eapply Forall_impl; [exact Ht|]. intros. by apply add_text_utf8.
  - apply Forall_fmap. eapply Forall_impl; [exact Ht|]. intros. by apply add_text_utf8.
  - apply Forall_app. split; [done|]. constructor; [apply Hjson|done].
Qed.

(** ** From the stream to the answer of the route *)
Section composition.
Context {cr : Crypto} {cl : CryptoLaws cr} {tk : Tokenizer} {sj : SerdeJson} {ut : UuidText}.
Context (now : Z -> Z) (nonce : nat -> bytes) (drain : forall A, list (Uuid * A) -> list (Uuid * A)).

Lemma first_update {A} (p q : A -> bool) f (l : list A) :
  (forall x, p (f x) = p x) -> first p (update_rows q f l) = (fun x => if q x then f x else x) <$> first p l.
Proof.
  intros Hp. unfold first, update_rows. rewrite list_find_fmap.
  assert (list_find ((fun x => p x = true) ∘ (fun x => if q x then f x else x)) l = list_find (fun x => p x = true) l) as ->.
  { apply list_find_ext. intros x. cbn. destruct (q x); [by rewrite Hp|done]. }
  by destruct (list_find _ l) as [[]|].
Qed.
Lemma get_context_runs id s :
  faults s = [] -> get_response_context_messages id s = (Ok (merge_sort earlier (thread (tables s) id)), advance (advance s)).
Proof.
  intros Hs. unfold get_response_context_messages. rewrite (method_runs _ _ Hs).
  unfold st_map_err, get_response_context, query, st_map_err. by rewrite (statement_unfaulty _ _ (advance_unfaulty _ Hs)).
Qed.

(** The database before the stream of the response [r]. *)
Record before_stream (user : Uuid) (r : Response) (conversation : Z) (rx : list StorageMessage) (s : Store) : Prop := {
  no_faults : faults s = [];
  call_ids : ids_ok s;
  the_response : first (response_of (nr_uuid (r_new r)) user) (responses (tables s)) = Some r;
  in_progress : r_status r = InProgress;
  conversation_exists : exists_conversation (tables s) conversation = true;
  nothing_yet : no_items (r_id r) (tables s);
  new_ids p id : Turns.accepts Turns.start rx = Some p -> id ∈ Turns.used p -> unknown (tables s) id;
}.

(** A healthy database that holds the rows of an ended stream answers with
    them. *)
Lemma rows_are_retrieved user user_key first_at base rows status t r s :
  faults s = [] -> NoDup (tc_id <$> tool_calls (tables s)) -> tables s = with_rows base rows ->
  first (response_of (nr_uuid (r_new r)) user) (responses base) = Some r -> no_items (r_id r) base ->
  aligned (r_id r) user user_key first_at status t rows -> Forall utf8_item t -> (forall x, status x <> STATUS_IN_PROGRESS) ->
  exists answer s', get_response (nr_uuid (r_new r)) user (Ok user_key) s = (Ok answer, s') /\
    rr_id answer = nr_uuid (r_new r) /\ rr_status answer = status_str (r_status r) /\ rr_output answer = retrieved status <$> t.
Proof.
  intros Hs Hnd Htabs Hr Hno Ha Hutf Hst. unfold get_response, mbind, ST_bind, st_map_err. rewrite (get_response_runs _ _ _ Hs).
  rewrite Htabs in Hnd |- *. cbn [responses with_rows]. rewrite Hr. cbn [map_err].
  rewrite (get_context_runs _ _ (advance_unfaulty _ (advance_unfaulty _ Hs))). cbn [map_err st_lift tables advance]. rewrite Htabs.
  rewrite (thread_retrieved (r_id r) user user_key first_at base rows status t Hno Ha Hnd Hutf Hst). by eexists _, _.
Qed.
(** The response after its stream ended. *)
Lemma response_terminated base uuid user r status at_ u :
  first (response_of uuid user) (responses base) = Some r -> r_status r = InProgress ->
  first (response_of uuid user) (responses (terminated (r_id r) status at_ u base)) = Some (Responses.with_status status (Some at_) u r).
Proof.
  intros Hr Hst. cbn [responses terminated set_responses]. rewrite first_update by done. rewrite Hr. cbn.
  by rewrite Hst, !bool_decide_true.
Qed.

Lemma keeps_ids_advance s : keeps_ids s (advance s).
Proof. intros [H1 H2]. split; [done|]. cbn. intros c Hc%H2. lia. Qed.
Lemma parents_of_response user r conversation base :
  first (response_of (nr_uuid (r_new r)) user) (responses base) = Some r -> exists_conversation base conversation = true ->
  has_parents (r_id r) conversation base.
Proof.
  intros Hr Hconv. unfold has_parents. rewrite Hconv. cbn. apply existsb_exists. exists r. apply first_found in Hr as [_ Hr].
  split; [by apply list_elem_of_In|by apply bool_decide_eq_true].
Qed.
Lemma start_progress response_id user user_key first_at base :
  progress response_id user user_key first_at base Turns.start [] (MkLocal [] [] first_at 0 []) base.
Proof.
  split; [apply ClientStream.fits_start|]. split; [split; [unfold created; cbn; lia|done]|]. exists []. split; [|split; done].
  unfold with_rows. cbn. rewrite !app_nil_r. by destruct base.
Qed.

Lemma stream_is_retrieved user user_key conversation tool_ack rx p first_at s r :
  sealing nonce user_key -> (forall A m, drain A m ≡ₚ m) -> (forall v, is_utf8 (to_string v) = true) ->
  before_stream user r conversation rx s -> Turns.accepts Turns.start rx = Some p -> Forall utf8_message rx ->
  exists l s1, storage_task now nonce drain (r_id r) conversation user user_key tool_ack rx first_at s = (Ok l, s1) /\
    exists answer s2, get_response (nr_uuid (r_new r)) user (Ok user_key) s1 = (Ok answer, s2) /\
      rr_id answer = nr_uuid (r_new r) /\ rr_status answer = status_str (ending_of rx) /\
      rr_output answer = retrieved (status_at_end p) <$> ClientStream.transcript rx.
Proof.
  intros Hseal Hdrain Hjson [Hs Hids Hr Hst Hconv Hno Hnew] Hrx Hutf.
  pose proof (parents_of_response _ _ _ _ Hr Hconv) as Hpar. unfold storage_task. set (l0 := MkLocal _ _ _ _ _).
  pose proof (task_ends now nonce drain (r_id r) conversation user user_key tool_ack Hseal Hdrain first_at (tables s) Hpar
    Turns.start [] l0 (tables s) rx p (fun id => Hnew p id Hrx) (start_progress _ _ _ _ _) eq_refl Hrx) as Htask.
  destruct (run_task _ _ _ _ _ _ _ _ _ _ s) as [res s1] eqn:Hrun.
  destruct (Htask _ _ _ Hs eq_refl Hrun) as (Hs1 & l & -> & rows & at_ & u & Htabs & Ha). exists l, s1. split; [done|].
  assert (ids_ok s1) as [Hnd _].
  { eapply (stable_task now nonce drain (r_id r) conversation user user_key tool_ack keeps_ids); [..|exact Hrun|exact Hids];
      intros; (apply keeps_ids_advance || apply keeps_ids_call || by apply keeps_ids_same). }
  apply (rows_are_retrieved user user_key first_at (terminated (r_id r) (ending_of rx) at_ u (tables s)) rows (status_at_end p) _
    (Responses.with_status (ending_of rx) (Some at_) u r) s1 Hs1 Hnd Htabs); [|done|done| |].
  - by apply response_terminated.
  - by apply transcript_utf8.
  - intros x. unfold status_at_end. by destruct (open_in p x).
Qed.

(** The two views of an item: equal, but a message without text has an empty
    part in the stream and no part when it is retrieved. *)
Definition shown_alike (streamed stored : OutputItem) : Prop :=
  streamed = stored \/
  exists id, streamed = ClientStream.message_item id STATUS_COMPLETED [ClientStream.new_output_text EmptyString] /\
             stored = ClientStream.message_item id STATUS_COMPLETED [].
Lemma alike p item : Turns.quiet p -> shown_alike (ClientStream.output_of item) (retrieved (status_at_end p) item).
Proof.
  intros (Hm & Hg & _). assert (status_at_end p item = STATUS_COMPLETED) as Hst.
  { unfold status_at_end. destruct item; cbn [open_in]; try done; rewrite bool_decide_false; congruence. }
  destruct item as [id text|id text| |]; cbn [retrieved ClientStream.output_of]; rewrite ?Hst; [|by left..].
  unfold is_empty. case_bool_decide as He; [|by left]. right. exists id. by rewrite He.
Qed.

(** C31. What was streamed is what is stored and retrieved.  On every stream that
    keeps the protocol, complete or cut off anywhere, the storage task ends, and
    then the retrieval route answers the status the stream ended with and exactly
    its items, in its order, with their texts: those the stream closed as
    completed, those it left open as incomplete.  The completed event of the live
    stream and the answer of the route list the same items; only a message
    without text differs, by an empty part. *)
Theorem stream_and_retrieval_agree user user_key conversation tool_ack rx p first_at s r metadata prompt_tokens cancel_id cancelled_at :
  sealing nonce user_key -> (forall A m, drain A m ≡ₚ m) -> (forall v, is_utf8 (to_string v) = true) ->
  before_stream user r conversation rx s -> Turns.accepts Turns.start rx = Some p -> Forall utf8_message rx ->
  (Z.of_nat (length (ClientStream.transcript rx)) <= i32_max)%Z ->
  exists l s1, storage_task now nonce drain (r_id r) conversation user user_key tool_ack rx first_at s = (Ok l, s1) /\
    exists answer s2, get_response (nr_uuid (r_new r)) user (Ok user_key) s1 = (Ok answer, s2) /\
      rr_id answer = nr_uuid (r_new r) /\ rr_status answer = status_str (ending_of rx) /\
      rr_output answer = retrieved (status_at_end p) <$> ClientStream.transcript rx /\
      forall reason, last rx = Some (ResponseDone reason) ->
        exists completed n,
          last (omap ClientStream.payload (ClientStream.event_stream r metadata prompt_tokens cancel_id cancelled_at [] rx)) =
            Some (ClientStream.Completed completed n) /\
          Forall2 shown_alike (ClientStream.cr_output completed) (rr_output answer).
Proof.
  intros Hseal Hdrain Hjson Hbefore Hrx Hutf Hsmall.
  destruct (stream_is_retrieved user user_key conversation tool_ack rx p first_at s r Hseal Hdrain Hjson Hbefore Hrx Hutf)
    as (l & s1 & Htask & answer & s2 & Hget & Hid & Hst & Hout).
  exists l, s1. split; [done|]. exists answer, s2. do 4 (split; [done|]). intros reason Hlast.
  destruct (ClientStream.completed_lists r metadata prompt_tokens cancel_id cancelled_at rx p reason Hrx Hsmall Hlast)
    as (completed & n & Hl & _ & _ & Ho & Hq).
  exists completed, n. split; [done|]. rewrite Ho, Hout. apply Forall2_fmap, Forall2_same_length_lookup. split; [done|].
  intros i x y Hx Hy. assert (x = y) as -> by congruence. by apply alike.
Qed.
End composition.

(** ** Witness *)
Section witness.
#[local] Existing Instances ToyCrypto.toy ToyCrypto.toy_laws.
#[local] Instance demo_uuid_text : UuidText := {| uuid_to_string := of_bytes; uuid_parse_str s := Some (as_bytes s) |}.
#[local] Instance demo_tokens : Tokenizer := fun s => Z.of_nat (String.length s).
#[local] Instance demo_serde : SerdeJson := {| from_str _ := None; to_string _ := "{}" |}.
Abbreviation demo_rx := ClientStream.demo_rx.
Definition demo_response : Response := Storage.demo_response InProgress.

Lemma demo_before : before_stream demo_user demo_response 9 demo_rx (demo_store InProgress).
Proof.
  split; try done.
  - split; [constructor|]. intros c Hc. by apply elem_of_nil in Hc.
  - repeat split; intros x Hx; by apply elem_of_nil in Hx.
  - intros p id _ _. repeat split; intros x Hx; by apply elem_of_nil in Hx.
Qed.
Lemma demo_utf8 : Forall utf8_message demo_rx.
Proof. repeat constructor. Qed.

Lemma stream_and_retrieval_agree_witness :
  exists l s1, storage_task (fun n => n) demo_nonce demo_drain 5 9 demo_user demo_key true demo_rx 1000 (demo_store InProgress) = (Ok l, s1) /\
    exists answer s2, get_response demo_uuid demo_user (Ok demo_key) s1 = (Ok answer, s2) /\ rr_status answer = "completed".
Proof.
  destruct (Turns.accepts Turns.start demo_rx) as [p|] eqn:Hp;
    [|pose proof ClientStream.demo_accepted as Ha; rewrite Hp in Ha; discriminate].
  assert (Z.of_nat (length (ClientStream.transcript demo_rx)) <= i32_max)%Z as Hs by (by apply Z.leb_le).
  destruct (stream_and_retrieval_agree (sj := demo_serde) (ut := demo_uuid_text) (fun n => n) demo_nonce demo_drain demo_user demo_key 9 true demo_rx p 1000 (demo_store InProgress)
    demo_response None 5 [] 0 demo_sealing (fun A m => Permutation_refl m) (fun v => eq_refl) demo_before Hp demo_utf8 Hs)
    as (l & s1 & Htask & answer & s2 & Hget & _ & Hst & _).
  exact (ex_intro _ l (ex_intro _ s1 (conj Htask (ex_intro _ answer (ex_intro _ s2 (conj Hget Hst)))))).
Defined.
End witness.
End Retrieval.
