(* ===== verification/CancelledTask.v ===== *)
(** * The storage task and a cancellation request

    [cancel_response] of [src/src/web/responses/handlers.rs] writes the status of a
    response while the task of [storage.rs] still stores its items.  Here the
    request comes after any number of the messages the task handles, and whatever
    that number the items are those of the stream; the status is the one that was
    written first. *)

From S2P Require Import Prelude Text Json Crypto Api Encrypt Conversions Database Turns Responses Storage ClientStream Retrieval.

Module CancelledTask.
Import Responses Storage Retrieval.
Import Turns(StorageMessage(..)).
Import ClientStream(StreamOutputItemRecord).

(** ** The task with the request in it *)
Section task.
Context `{Crypto, Tokenizer, SerdeJson}.
Context (now : Z -> Z) (nonce : nat -> bytes) (drain : forall A, list (Uuid * A) -> list (Uuid * A)).
Context (response_id conversation_id : Z) (user_id : Uuid) (user_key : Encrypt.SecretKey) (tool_ack : bool).
#[local] Abbreviation step := (step now nonce drain response_id conversation_id user_id user_key tool_ack).
#[local] Abbreviation run_task := (run_task now nonce drain response_id conversation_id user_id user_key tool_ack).

(** The answer of [cancel_response]; the broadcast reaches the listener of
    [CreateResponse]. *)
Definition cancel_request (id user : Uuid) : ST Store Empty_set (outcome Api.ApiError Response) := fun s =>
  let '(answer, s) := cancel_route now id user (MkRoutes s []) in (Ok answer, store_of s).

(** [cancel] runs when the task has handled [n] messages, or has returned. *)
Fixpoint task_with_cancel {C} (cancel : ST Store Empty_set C) (n : nat) (l : Local) (rx : list StorageMessage)
    : ST Store Empty_set (Local * option C) :=
  match n, rx with
  | 0, _ => c ← cancel; l ← run_task l rx; st_ok (l, Some c)
  | S _, [] => l ← run_task l []; c ← cancel; st_ok (l, Some c)
  | S n, msg :: rx =>
      r ← step l msg;
      if (r.2 : bool) then task_with_cancel cancel n r.1 rx else (c ← cancel; st_ok (r.1, Some c))
  end.
(** The task alone, or with a request. *)
Definition task_beside {C} (cancel : ST Store Empty_set C) (when : option nat) (l : Local) (rx : list StorageMessage)
    : ST Store Empty_set (Local * option C) :=
  match when with
  | Some n => task_with_cancel cancel n l rx
  | None => l ← run_task l rx; st_ok (l, None)
  end.

(** ** What the task reads of its channel: up to the first message that ends it *)
Definition terminal (m : StorageMessage) : bool :=
  match m with ResponseDone _ | Error _ | Cancelled => true | _ => false end.
Fixpoint until_terminal (rx : list StorageMessage) : list StorageMessage :=
  match rx with
  | [] => []
  | m :: rx => m :: if terminal m then [] else until_terminal rx
  end.
Lemma returns_stops (m : ST Store Empty_set Local) s l go s' : returns m s = (Ok (l, go), s') -> go = false.
Proof. unfold returns. intros (l0 & s1 & _ & [= _ <- _])%ST_bind_Ok. done. Qed.
Lemma terminal_stops l m s r s' : terminal m = true -> step l m s = (Ok r, s') -> r.2 = false.
Proof. destruct r as [l' go]. by destruct m; cbn; try done; intros _ ?%returns_stops. Qed.
Lemma run_until l rx s : run_task l rx s = run_task l (until_terminal rx) s.
Proof.
  revert l s. induction rx as [|m rx IH]; intros l s; [done|]. cbn [until_terminal Storage.run_task].
  unfold mbind, ST_bind. destruct (step l m s) as [[[l' go]|e|] s1] eqn:Hs; [|done..]. destruct (terminal m) eqn:Hm.
  - apply terminal_stops in Hs; [|done]. cbn in Hs. by subst go.
  - cbn [fst snd]. destruct go; [apply IH|done].
Qed.
Lemma task_until {C} (cancel : ST Store Empty_set C) when l rx s :
  task_beside cancel when l rx s = task_beside cancel when l (until_terminal rx) s.
Proof.
  destruct when as [n|]; cbn [task_beside]; [|by unfold mbind, ST_bind; rewrite run_until].
  revert n l s. induction rx as [|m rx IH]; intros [|n] l s; try done; cbn [task_with_cancel].
  - unfold mbind, ST_bind. destruct (cancel s) as [[c|e|] s1]; [|done..]. by rewrite run_until.
  - cbn [until_terminal task_with_cancel]. unfold mbind, ST_bind.
    destruct (step l m s) as [[[l' go]|e|] s1] eqn:Hs; [|done..]. destruct (terminal m) eqn:Hm.
    + apply terminal_stops in Hs; [|done]. cbn in Hs. by subst go.
    + cbn [fst snd]. destruct go; [apply IH|done].
Qed.
End task.

Lemma until_prefix rx : until_terminal rx `prefix_of` rx.
Proof.
  induction rx as [|m rx IH]; [done|]. cbn. apply prefix_cons. destruct (terminal m); [apply prefix_nil|done].
Qed.
(** A stream that keeps the protocol ends with its first terminal message. *)
Lemma accept_terminal p m q : Turns.accept p m = Some q -> Turns.ended p = false /\ Turns.ended q = terminal m.
Proof.
  unfold Turns.accept. destruct (Turns.ended p) eqn:He; [done|]. destruct m; try case_decide; try done; by intros [= <-].
Qed.
Lemma accepted_until p l q more : Turns.accepts p l = Some q -> Turns.ended p = false ->
  until_terminal (l ++ more) = if Turns.ended q then l else l ++ until_terminal more.
Proof.
  revert p. induction l as [|m l IH]; intros p; cbn [Turns.accepts app until_terminal]; [by intros [= <-] ->|].
  intros (p' & [_ Hm]%accept_terminal & Hl)%bind_Some _. rewrite <- Hm. destruct (Turns.ended p') eqn:He.
  - pose proof (ClientStream.ended_stays _ _ _ He Hl) as ->. injection Hl as <-. by rewrite He.
  - rewrite (IH _ Hl He). by destruct (Turns.ended q).
Qed.

(** ** The request *)
Section request.
Context (now : Z -> Z).
(** The row after it. *)
Definition cancelled_in (id user : Uuid) (at_ : Z) (t : Tables) : Tables :=
  set_responses (update_rows (fun x => response_of id user x && cancelable x) (cancelled at_) (responses t)) t.
Lemma cancel_request_runs id user r s :
  faults s = [] -> first (response_of id user) (responses (tables s)) = Some r ->
  exists s', faults s' = [] /\ (serial s <= serial s')%Z /\
    if final_status (r_status r) then cancel_request now id user s = (Ok (Err Api.BadRequest), s') /\ tables s' = tables s
    else exists at_, cancel_request now id user s = (Ok (Ok (cancelled at_ r)), s') /\ tables s' = cancelled_in id user at_ (tables s).
Proof.
  intros Hs Hf. unfold cancel_request, cancel_route, mbind, ST_bind, lift_db. cbn [store_of].
  rewrite (get_response_runs _ _ _ Hs), Hf. cbn [map_err].
  pose proof (advance_unfaulty _ (advance_unfaulty _ Hs)) as Hs2.
  assert (cancelable r = negb (final_status (r_status r))) as Hc by (unfold cancelable; by destruct (r_status r)).
  assert (bool_decide (r_status r = Queued \/ r_status r = InProgress) = negb (final_status (r_status r))) as -> by by destruct (r_status r).
  destruct (final_status (r_status r)); cbn [negb] in *.
  - eexists. split; [|split; [|by split]]; [done|cbn; lia].
  - unfold cancel_response. rewrite (method_runs _ _ Hs2). unfold st_map_err, cancel_by_uuid_and_user.
    rewrite (statement_unfaulty _ _ (advance_unfaulty _ Hs2)). cbn [tables advance].
    rewrite (first_and _ _ _ r Hf Hc). cbn. eexists. split; [|split; [|eexists; by split]]; [cbn; by rewrite Hs|cbn; lia].
Qed.
Lemma first_cancelled id user at_ base r :
  first (response_of id user) (responses base) = Some r -> r_status r = InProgress ->
  first (response_of id user) (responses (cancelled_in id user at_ base)) = Some (cancelled at_ r).
Proof.
  intros Hf Hr. cbn [responses cancelled_in set_responses]. rewrite first_update by done. rewrite Hf. cbn.
  apply first_found in Hf as [-> _]. unfold cancelable. by rewrite Hr.
Qed.
End request.

(** ** Every tool call keeps its own id *)
Section ids.
Context {cr : Crypto} {tk : Tokenizer} {sj : SerdeJson}.
Context (now : Z -> Z).
#[local] Hint Resolve keeps_ids_preorder keeps_ids_advance keeps_ids_call : stable.
Lemma stable_get_response uuid user : stable keeps_ids (get_by_uuid_and_user uuid user).
Proof.
  apply stable_map_err, stable_statement; [eauto with stable..|]. intros s a t'. destruct (first _ _); [|done]. cbn.
  intros [= <- <-]. by apply keeps_ids_same.
Qed.
Lemma stable_cancel_response uuid user : stable keeps_ids (cancel_response now uuid user).
Proof.
  apply stable_method; [eauto with stable..|]. intros s r s'. unfold cancel_by_uuid_and_user.
  destruct (statement _ s) as [r0 s0] eqn:Hst.
  assert (keeps_ids s s0) as Hk.
  { eapply stable_statement; [eauto with stable.. | |exact Hst]. intros s1 a t'. cbn. destruct (first _ _); [|done]. cbn.
    intros [= <- <-]. by apply keeps_ids_same. }
  destruct r0 as [a|[]|]; try (by intros [= <- <-]).
  intros Hr. etrans; [exact Hk|]. eapply stable_bind; [eauto with stable|apply stable_get_response|intros; apply stable_err; eauto with stable|exact Hr].
Qed.
Lemma stable_cancel_request uuid user : stable keeps_ids (cancel_request now uuid user).
Proof.
  intros s r s'. unfold cancel_request, cancel_route, mbind, ST_bind, lift_db. cbn [store_of].
  destruct (get_response_by_uuid_and_user uuid user s) as [r1 s1] eqn:H1.
  assert (keeps_ids s s1) as Hk1 by (eapply stable_method; [eauto with stable..|apply stable_get_response|exact H1]).
  destruct r1 as [x|e|]; cbn [map_err]; [|by intros [= <- <-]..]. destruct (negb _); [by intros [= <- <-]|]. cbn [store_of].
  destruct (cancel_response now uuid user s1) as [r2 s2] eqn:H2.
  assert (keeps_ids s s2) as Hk by (etrans; [exact Hk1|by eapply stable_cancel_response]).
  by destruct r2; intros [= <- <-].
Qed.

Context (nonce : nat -> bytes) (drain : forall A, list (Uuid * A) -> list (Uuid * A)).
Context (response_id conversation_id : Z) (user : Uuid) (user_key : Encrypt.SecretKey) (tool_ack : bool).
Lemma keeps_ids_task l rx : stable keeps_ids (run_task now nonce drain response_id conversation_id user user_key tool_ack l rx).
Proof. apply stable_task; try apply _; intros; (apply keeps_ids_advance || apply keeps_ids_call || by apply keeps_ids_same). Qed.
Lemma keeps_ids_step l m : stable keeps_ids (step now nonce drain response_id conversation_id user user_key tool_ack l m).
Proof. apply stable_step; try apply _; intros; (apply keeps_ids_advance || apply keeps_ids_call || by apply keeps_ids_same). Qed.
Lemma keeps_ids_beside {C} (cancel : ST Store Empty_set C) when l rx : stable keeps_ids cancel ->
  stable keeps_ids (task_beside now nonce drain response_id conversation_id user user_key tool_ack cancel when l rx).
Proof.
  intros Hc. assert (forall l rx, stable keeps_ids (run_task now nonce drain response_id conversation_id user user_key tool_ack l rx)) as Ht
    by (intros; apply keeps_ids_task).
  destruct when as [n|]; cbn [task_beside]; [|apply stable_bind; eauto with stable].
  revert l rx. induction n as [|n IH]; intros l rx; cbn [task_with_cancel].
  - apply stable_bind; [eauto with stable|done|]. intros c. apply stable_bind; eauto with stable.
  - destruct rx as [|m rx].
    + apply stable_bind; [eauto with stable|done|]. intros l'. apply stable_bind; eauto with stable.
    + apply stable_bind; [eauto with stable|apply keeps_ids_step|]. intros [l' []]; cbn [fst snd]; [apply IH|].
      apply stable_bind; eauto with stable.
Qed.
End ids.

(** ** How the two end *)
Lemma ending_final rx : final_status (ending_of rx) = true.
Proof. unfold ending_of. destruct (last rx) as [[]|]; done. Qed.
(** What the task handles: the messages, and the closing of the channel when none
    of them ends it. *)
Definition handled (rx : list StorageMessage) : nat := length rx + if existsb terminal rx then 0 else 1.
Definition in_time (when : option nat) (rx : list StorageMessage) : bool :=
  match when with Some n => n <? handled rx | None => false end.
(** The status of the response: that of the request, if it came in time. *)
Definition end_status (when : option nat) (rx : list StorageMessage) : ResponseStatus :=
  if in_time when rx then RCancelled else ending_of rx.
(** The answer to the request. *)
Definition answered (when : option nat) (rx : list StorageMessage) (answer : option (outcome Api.ApiError Response)) : Prop :=
  match when with
  | Some _ => if in_time when rx then exists row, answer = Some (Ok row) /\ r_status row = RCancelled else answer = Some (Err Api.BadRequest)
  | None => answer = None
  end.

Section ends.
Context {cr : Crypto} {cl : CryptoLaws cr} {tk : Tokenizer} {sj : SerdeJson}.
Context (now : Z -> Z) (nonce : nat -> bytes) (drain : forall A, list (Uuid * A) -> list (Uuid * A)).
Context (r : Response) (conversation_id : Z) (user : Uuid) (user_key : Encrypt.SecretKey) (tool_ack : bool).
Context (Hseal : sealing nonce user_key) (Hdrain : forall A m, drain A m ≡ₚ m).
Context (first_at : Z) (base : Tables).
#[local] Abbreviation uuid := (nr_uuid (r_new r)).
#[local] Abbreviation cancel := (cancel_request now uuid user).
Context (Hfound : first (response_of uuid user) (responses base) = Some r) (Hopen : r_status r = InProgress).
Context (Hconv : exists_conversation base conversation_id = true).
#[local] Abbreviation progress_in b := (progress (r_id r) user user_key first_at b).
#[local] Abbreviation with_cancel := (task_with_cancel now nonce drain (r_id r) conversation_id user user_key tool_ack cancel).
#[local] Abbreviation the_task := (run_task now nonce drain (r_id r) conversation_id user user_key tool_ack).

(** The rows of the stream over the tables that were there, where only responses
    have changed, and this one to [status]. *)
Definition settled_as (status : ResponseStatus) (p : Turns.Protocol) (t : list StreamOutputItemRecord) (tabs : Tables) : Prop :=
  exists base' r' rows, base' = set_responses (responses base') base /\
    first (response_of uuid user) (responses base') = Some r' /\ r_id r' = r_id r /\ r_new r' = r_new r /\ r_status r' = status /\
    tabs = with_rows base' rows /\ aligned (r_id r) user user_key first_at (status_at_end p) t rows.
Lemma settled_by_task status p t tabs : ended_as (r_id r) user user_key first_at base status p t tabs -> settled_as status p t tabs.
Proof.
  intros (rows & at_ & u & -> & Ha). do 3 eexists. split_and!; [|by eapply response_terminated| | | |done|done]; done.
Qed.
Lemma settled_by_request status at_ p t tabs :
  ended_as (r_id r) user user_key first_at (cancelled_in uuid user at_ base) status p t tabs -> settled_as RCancelled p t tabs.
Proof.
  intros (rows & at' & u & -> & Ha). exists (terminated (r_id r) status at' u (cancelled_in uuid user at_ base)), (cancelled at_ r), rows.
  split_and!; try done. cbn [responses terminated set_responses]. rewrite first_update by done.
  rewrite (first_cancelled _ _ _ _ r) by done. cbn. by rewrite andb_false_r.
Qed.
Lemma late_request status p t tabs : final_status status = true -> settled_as status p t tabs ->
  run_ok (eq tabs) cancel (fun c tabs' => c = Err Api.BadRequest /\ settled_as status p t tabs').
Proof.
  intros Hfin (base' & r' & rows & Hb & Hf & Hid & Hnew & Hst & Htabs & Ha) s a s' Hs Heq Hr. rewrite Heq in Htabs.
  assert (first (response_of uuid user) (responses (tables s)) = Some r') as Hfs by by rewrite Htabs.
  destruct (cancel_request_runs now uuid user r' s Hs Hfs) as (s1 & Hs1 & _ & Hrun). rewrite Hst, Hfin in Hrun.
  destruct Hrun as [Hrun Ht]. rewrite Hrun in Hr. injection Hr as <- <-. split; [done|]. eexists. split; [done|]. split; [done|].
  exists base', r', rows. by rewrite Ht.
Qed.
Lemma early_request p t l tabs : progress_in base p t l tabs ->
  run_ok (eq tabs) cancel (fun c tabs' => (exists row, c = Ok row /\ r_status row = RCancelled) /\
    exists at_, progress_in (cancelled_in uuid user at_ base) p t l tabs').
Proof.
  intros (Hfit & Hp & rows & -> & Ha) s a s' Hs Htabs Hr.
  assert (first (response_of uuid user) (responses (tables s)) = Some r) as Hfs by by rewrite <- Htabs.
  destruct (cancel_request_runs now uuid user r s Hs Hfs) as (s1 & Hs1 & _ & Hrun). rewrite Hopen in Hrun. cbn in Hrun.
  destruct Hrun as (at_ & Hrun & Ht). rewrite Hrun in Hr. injection Hr as <- <-. split; [done|]. eexists. split; [done|].
  split; [by eexists|]. exists at_. split; [done|]. split; [done|]. exists rows. split; [|done]. by rewrite Ht, <- Htabs.
Qed.

Lemma parents : has_parents (r_id r) conversation_id base.
Proof. by eapply parents_of_response. Qed.
Lemma cancelled_parents at_ : has_parents (r_id r) conversation_id (cancelled_in uuid user at_ base).
Proof. eapply (parents_of_response user (cancelled at_ r)); [by apply first_cancelled|done]. Qed.

Lemma with_cancel_ends n p t l tabs rx q :
  (forall id, id ∈ Turns.used q -> unknown base id) -> progress_in base p t l tabs -> Turns.ended p = false ->
  Turns.accepts p rx = Some q ->
  run_ok (eq tabs) (with_cancel n l rx)
    (fun x tabs' => answered (Some n) rx x.2 /\ settled_as (end_status (Some n) rx) q (foldl ClientStream.transcript_step t rx) tabs').
Proof.
  revert p t l tabs rx. induction n as [|n IH]; intros p t l tabs rx Hunk Hprog He Hrx.
  - assert (in_time (Some 0) rx = true) as Hin by (apply Nat.ltb_lt; unfold handled; destruct rx; cbn; lia).
    unfold answered, end_status. rewrite Hin. cbn [task_with_cancel].
    eapply run_ok_bind; [by apply early_request|]. intros c. cbn beta. apply run_ok_from. intros t1 [Hc [at_ Hprog']].
    eapply run_ok_bind; [apply (task_ends now nonce drain (r_id r) conversation_id user user_key tool_ack Hseal Hdrain first_at
      _ (cancelled_parents at_) p t l t1 rx q Hunk Hprog' He Hrx)|]. intros l'. cbn beta. apply run_ok_ok. intros t2 Hend. cbn [snd]. split.
    + destruct Hc as (row & -> & ?). by eexists.
    + by eapply settled_by_request.
  - destruct rx as [|m rx]; cbn [task_with_cancel].
    + cbn in Hrx. injection Hrx as <-. eapply run_ok_bind.
      { apply (task_ends now nonce drain (r_id r) conversation_id user user_key tool_ack Hseal Hdrain first_at base parents p t l tabs [] p); done. }
      intros l'. cbn beta. apply run_ok_from. intros t1 Hend%settled_by_task.
      eapply run_ok_bind; [by apply (late_request (ending_of []) p t)|].
      intros c. apply run_ok_ok. cbn. intros t2 [-> Hset]. done.
    + cbn [Turns.accepts] in Hrx. apply bind_Some in Hrx as (p' & Hm & Hrx). pose proof (accept_terminal _ _ _ Hm) as [_ Hterm].
      eapply run_ok_bind; [eapply (step_progress now nonce drain (r_id r) conversation_id user user_key tool_ack Hseal Hdrain first_at
        base parents p t l tabs m p'); [|exact Hprog|exact Hm]|].
      { intros id Hid. apply Hunk. exact (accepts_used _ _ _ Hrx id Hid). }
      intros [l' go]. unfold after. cbn [fst snd]. apply run_ok_from. intros t1. destruct (Turns.ended p') eqn:He'.
      * intros [-> Hend%settled_by_task]. pose proof (ClientStream.ended_stays _ _ _ He' Hrx) as ->. injection Hrx as <-.
        assert (in_time (Some (S n)) [m] = false) as Hin by (unfold in_time, handled; cbn; by rewrite <- Hterm).
        unfold answered, end_status. rewrite Hin.
        eapply run_ok_bind; [by apply (late_request (ending m) p' (ClientStream.transcript_step t m)); [destruct m|]|].
        intros c. apply run_ok_ok. cbn. by intros t2 [-> Hset].
      * intros [-> Hprog']. eapply run_ok_post; [by eapply IH|]. cbn beta. intros x t2.
        assert (in_time (Some (S n)) (m :: rx) = in_time (Some n) rx) as Hin by (unfold in_time, handled; cbn; by rewrite <- Hterm).
        assert (ending_of (m :: rx) = ending_of rx) as Hend.
        { destruct rx; [|done]. unfold ending_of. cbn. by rewrite (ending_failed _ _ _ Hm He'). }
        unfold answered, end_status. by rewrite Hin, Hend.
Qed.
Lemma beside_ends when p t l tabs rx q :
  (forall id, id ∈ Turns.used q -> unknown base id) -> progress_in base p t l tabs -> Turns.ended p = false ->
  Turns.accepts p rx = Some q ->
  run_ok (eq tabs) (task_beside now nonce drain (r_id r) conversation_id user user_key tool_ack cancel when l rx)
    (fun x tabs' => answered when rx x.2 /\ settled_as (end_status when rx) q (foldl ClientStream.transcript_step t rx) tabs').
Proof.
  destruct when as [n|]; [apply with_cancel_ends|]. intros Hunk Hprog He Hrx. cbn [task_beside].
  eapply run_ok_bind; [by apply (task_ends now nonce drain (r_id r) conversation_id user user_key tool_ack Hseal Hdrain first_at
      _ parents p t l tabs rx q)|]. intros l'. cbn beta. apply run_ok_ok. intros t2 Hend. split; [done|]. by apply settled_by_task.
Qed.
End ends.
End CancelledTask.
