(* ===== verification/Sse.v ===== *)
(** * Server-sent events from a model provider

    The reader of provider streams in [src/src/web/openai.rs]: finding the end of
    a frame, extracting its data, and what a sequence of network chunks holds,
    wherever the network cut them. *)

From S2P Require Import Prelude Text.

Module Sse.
Definition LF : Byte.byte := Byte.x0a.
Definition CR : Byte.byte := Byte.x0d.
Definition is_ascii_whitespace (b : Byte.byte) : bool :=
  bool_decide (b ∈ [Byte.x09; Byte.x0a; Byte.x0c; Byte.x0d; Byte.x20]).

(** [slice::strip_prefix] and [slice::strip_suffix] with one byte. *)
Fixpoint strip_prefix (p l : bytes) : option bytes :=
  match p, l with
  | [], l => Some l
  | x :: p, y :: l => if decide (x = y) then strip_prefix p l else None
  | _ :: _, [] => None
  end.
Fixpoint strip_last (x : Byte.byte) (l : bytes) : option bytes :=
  match l with
  | [] => None
  | [y] => if decide (x = y) then Some [] else None
  | y :: l => cons y <$> strip_last x l
  end.
Definition starts (p l : bytes) : bool := bool_decide (is_Some (strip_prefix p l)).

(** [buffer.windows(n).position(|window| window == w)]. *)
Fixpoint position (w buffer : bytes) : option nat :=
  if starts w buffer then Some 0
  else match buffer with [] => None | _ :: buffer => S <$> position w buffer end.

Definition find_sse_frame_boundary (buffer : bytes) : option (nat * nat) :=
  match position [LF; LF] buffer, position [CR; LF; CR; LF] buffer with
  | Some lf, Some crlf => if lf <? crlf then Some (lf, 2) else Some (crlf, 4)
  | None, Some crlf => Some (crlf, 4)
  | Some lf, None => Some (lf, 2)
  | None, None => None
  end.

(** [slice::split] on a byte. *)
Fixpoint split (x : Byte.byte) (l : bytes) : list bytes :=
  match l with
  | [] => [[]]
  | y :: l =>
      if decide (x = y) then [] :: split x l
      else match split x l with
           | line :: lines => (y :: line) :: lines
           | [] => [[y]]
           end
  end.

(** The [data:] lines of a frame, joined. *)
Definition push_line (data line : bytes) : bytes :=
  let line := default line (strip_last CR line) in
  match strip_prefix (as_bytes "data:") line with
  | None => data
  | Some value =>
      let value := default value (strip_prefix (as_bytes " ") value) in
      (if decide (data = []) then data else data ++ [LF]) ++ value
  end.
Definition frame_data (frame : bytes) : bytes := foldl push_line [] (split LF frame).

Fixpoint extract_frame (fuel : nat) (buffer : bytes) : option bytes * bytes :=
  match fuel with
  | 0 => (None, buffer)
  | S fuel =>
      match find_sse_frame_boundary buffer with
      | None => (None, buffer)
      | Some (frame_end, delimiter_len) =>
          let frame := take frame_end buffer in
          let buffer := drop (frame_end + delimiter_len) buffer in
          if forallb is_ascii_whitespace frame then extract_frame fuel buffer
          else
            let data := frame_data frame in
            if decide (data = []) then extract_frame fuel buffer else (Some data, buffer)
      end
  end.
Definition extract_sse_frame (buffer : bytes) : option bytes * bytes := extract_frame (S (length buffer)) buffer.

(** [while let Some(frame) = extract_sse_frame(&mut buffer)]: the frames of a
    buffer, and what is left. *)
Fixpoint frames_loop (fuel : nat) (buffer : bytes) : list bytes * bytes :=
  match fuel with
  | 0 => ([], buffer)
  | S fuel =>
      match extract_sse_frame buffer with
      | (Some frame, buffer) => let '(frames, rest) := frames_loop fuel buffer in (frame :: frames, rest)
      | (None, buffer) => ([], buffer)
      end
  end.
Definition frames (buffer : bytes) : list bytes * bytes := frames_loop (S (length buffer)) buffer.

(** ** The boundary, found in one pass *)
Fixpoint boundary (buffer : bytes) : option (nat * nat) :=
  if starts [LF; LF] buffer then Some (0, 2)
  else if starts [CR; LF; CR; LF] buffer then Some (0, 4)
  else match buffer with
       | [] => None
       | _ :: buffer => (fun '(i, n) => (S i, n)) <$> boundary buffer
       end.

Lemma starts_iff p l : starts p l = true <-> exists l', l = p ++ l'.
Proof.
  unfold starts. rewrite bool_decide_eq_true. revert l. induction p as [|x p IH]; intros l; cbn.
  { split; [by exists l|by eauto]. }
  destruct l as [|y l]; [split; [by intros []|by intros []]|].
  case_decide as H; [subst; rewrite IH|split; [by intros []|by intros [? [=]]]].
  split; intros [l' Hl']; exists l'; [by rewrite Hl'|by injection Hl'].
Qed.
Lemma starts_LF_CR l : starts [LF; LF] l = true -> starts [CR; LF; CR; LF] l = false.
Proof. intros [l' ->]%starts_iff. apply not_true_iff_false. by intros [l0 [=]]%starts_iff. Qed.

Lemma find_boundary l : find_sse_frame_boundary l = boundary l.
Proof.
  unfold find_sse_frame_boundary. induction l as [|x l IH]; [reflexivity|]. cbn [position boundary].
  destruct (starts [LF; LF] (x :: l)) eqn:Hlf.
  { rewrite (starts_LF_CR _ Hlf). by destruct (position [CR; LF; CR; LF] l). }
  destruct (starts [CR; LF; CR; LF] (x :: l)) eqn:Hcr; [by destruct (position [LF; LF] l)|].
  rewrite <- IH. destruct (position [LF; LF] l) as [i|], (position [CR; LF; CR; LF] l) as [j|]; try reflexivity.
  cbn [fmap option_fmap option_map]. change (S i <? S j) with (i <? j). by destruct (i <? j).
Qed.

Lemma starts_app p l l' : starts p l = true -> starts p (l ++ l') = true.
Proof. rewrite !starts_iff. intros [l0 ->]. exists (l0 ++ l'). by rewrite app_assoc. Qed.
Lemma starts_long p l : length l < length p -> starts p l = false.
Proof.
  intros Hlen. apply not_true_iff_false. intros [l' ->]%starts_iff. rewrite length_app in Hlen. lia.
Qed.
Lemma starts_short p l l' : length p <= length l -> starts p (l ++ l') = starts p l.
Proof.
  intros Hlen. apply eq_bool_prop_intro. rewrite !Is_true_true, !starts_iff. split.
  - intros [l0 Heq]. exists (drop (length p) l). rewrite <- (take_drop (length p) l) at 1. f_equal.
    by rewrite <- (take_app_le l l') by done; rewrite Heq, take_app_length.
  - intros [l0 ->]. exists (l0 ++ l'). by rewrite app_assoc.
Qed.

(** A boundary is inside the buffer, and later bytes do not move it. *)
Lemma boundary_bound l i n : boundary l = Some (i, n) -> i + n <= length l /\ 0 < n.
Proof.
  revert i. induction l as [|x l IH]; intros i; [done|]. cbn [boundary].
  destruct (starts [LF; LF] _) eqn:Hlf; [apply starts_iff in Hlf as [l' Hl']; intros [= <- <-]; rewrite Hl'; cbn; lia|].
  destruct (starts [CR; LF; CR; LF] _) eqn:Hcr;
    [apply starts_iff in Hcr as [l' Hl']; intros [= <- <-]; rewrite Hl'; cbn; lia|].
  destruct (boundary l) as [[j m]|] eqn:Hb; [|done]. cbn. intros [= <- <-]. destruct (IH j eq_refl). cbn. lia.
Qed.

Lemma boundary_app l l' i n : boundary l = Some (i, n) -> boundary (l ++ l') = Some (i, n).
Proof.
  revert i. induction l as [|x l IH]; intros i; [done|]. cbn [boundary app].
  destruct (starts [LF; LF] (x :: l)) eqn:Hlf; [by rewrite (starts_app _ (x :: l) l' Hlf : starts _ (x :: l ++ l') = true)|].
  destruct (starts [CR; LF; CR; LF] (x :: l)) eqn:Hcr.
  { pose proof (starts_app _ (x :: l) l' Hcr) as Hcr'. apply starts_iff in Hcr as [l0 Hl0].
    intros [= <- <-]. cbn in Hcr'. rewrite Hcr'. cbn in Hl0. injection Hl0 as -> ->. done. }
  destruct (boundary l) as [[j m]|] eqn:Hb; [|done]. cbn [fmap option_fmap option_map]. intros [= <- <-].
  rewrite (IH j eq_refl). clear IH.
  assert (starts [LF; LF] (x :: l ++ l') = false) as ->.
  { rewrite <- Hlf. apply (starts_short _ (x :: l) l'). destruct l; [done|cbn; lia]. }
  assert (starts [CR; LF; CR; LF] (x :: l ++ l') = false) as ->; [|done].
  destruct (decide (4 <= length (x :: l))); [by rewrite <- Hcr; apply (starts_short _ (x :: l) l')|].
  apply boundary_bound in Hb as Hlen. cbn [length] in n.
  destruct l as [|y [|z [|? ?]]]; cbn [length] in *; try lia.
  { cbn [boundary] in Hb. by rewrite !starts_long in Hb by (cbn; lia). }
  cbn [boundary] in Hb. destruct (starts [LF; LF] [y; z]) eqn:Hyz; [|by rewrite !starts_long in Hb by (cbn; lia)].
  apply starts_iff in Hyz as [l0 Hl0]. cbn in Hl0. injection Hl0 as -> -> ->. cbn. by destruct x.
Qed.

(** ** Extraction reads a prefix and does not depend on what follows *)
Lemma extract_None_boundary fuel l l' : length l < fuel -> extract_frame fuel l = (None, l') -> boundary l' = None.
Proof.
  revert l. induction fuel as [|fuel IH]; intros l Hf; [lia|]. cbn [extract_frame]. rewrite find_boundary.
  destruct (boundary l) as [[i n]|] eqn:Hb; [|by intros [= <-]]. apply boundary_bound in Hb.
  assert (length (drop (i + n) l) < fuel) by (rewrite length_drop; lia).
  destruct (forallb _ _); [by apply IH|]. case_decide; [by apply IH|done].
Qed.

Lemma extract_length fuel l o l' : extract_frame fuel l = (o, l') -> length l' <= length l /\ (is_Some o -> length l' < length l).
Proof.
  revert l. induction fuel as [|fuel IH]; intros l; cbn [extract_frame]; [intros [= <- <-]; split; [done|by intros []]|].
  rewrite find_boundary. destruct (boundary l) as [[i n]|] eqn:Hb; [|intros [= <- <-]; split; [done|by intros []]].
  apply boundary_bound in Hb. pose proof (length_drop l (i + n)).
  destruct (forallb _ _); [intros [? ?]%IH; split; [lia|intros; lia]|].
  case_decide; [intros [? ?]%IH; split; [lia|intros; lia]|intros [= <- <-]; split; [lia|intros; lia]].
Qed.

Lemma extract_fuel f1 f2 l : length l < f1 -> length l < f2 -> extract_frame f1 l = extract_frame f2 l.
Proof.
  revert f2 l. induction f1 as [|f1 IH]; intros f2 l H1 H2; [lia|]. destruct f2 as [|f2]; [lia|]. cbn [extract_frame].
  rewrite find_boundary. destruct (boundary l) as [[i n]|] eqn:Hb; [|done]. apply boundary_bound in Hb.
  rewrite (IH f2 (drop (i + n) l)); [done|rewrite length_drop; lia..].
Qed.

Lemma extract_app fuel fuel' l l' :
  length l < fuel -> length (l ++ l') < fuel' ->
  extract_frame fuel' (l ++ l') =
    match extract_frame fuel l with
    | (Some f, rest) => (Some f, rest ++ l')
    | (None, rest) => extract_frame (S (length (rest ++ l'))) (rest ++ l')
    end.
Proof.
  revert fuel' l. induction fuel as [|fuel IH]; intros fuel' l Hf Hf'; [lia|]. cbn [extract_frame].
  rewrite find_boundary. destruct (boundary l) as [[i n]|] eqn:Hb.
  - destruct fuel' as [|fuel']; [lia|]. cbn [extract_frame]. rewrite find_boundary, (boundary_app _ _ _ _ Hb).
    apply boundary_bound in Hb as [Hb ?]. rewrite take_app_le by lia. rewrite drop_app_le by lia.
    rewrite length_app in Hf'.
    assert (length (drop (i + n) l) < fuel) by (rewrite length_drop; lia).
    assert (length (drop (i + n) l ++ l') < fuel') by (rewrite length_app, length_drop; lia).
    destruct (forallb _ _); [by apply IH|]. case_decide; [by apply IH|done].
  - by rewrite (extract_fuel fuel' (S (length (l ++ l')))) by lia.
Qed.

Lemma frames_fuel f1 f2 l : length l < f1 -> length l < f2 -> frames_loop f1 l = frames_loop f2 l.
Proof.
  revert f2 l. induction f1 as [|f1 IH]; intros f2 l H1 H2; [lia|]. destruct f2 as [|f2]; [lia|]. cbn [frames_loop].
  unfold extract_sse_frame. destruct (extract_frame _ l) as [[f|] r] eqn:He; [|done].
  apply extract_length in He as [_ He]. specialize (He ltac:(by eauto)). by rewrite (IH f2 r) by lia.
Qed.
Lemma frames_loop_app f1 f2 f3 l l' :
  length l < f1 -> length (l ++ l') < f2 -> length ((frames_loop f1 l).2 ++ l') < f3 ->
  frames_loop f2 (l ++ l') =
    (let '(fs, rest) := frames_loop f1 l in
     let '(gs, rest') := frames_loop f3 (rest ++ l') in (fs ++ gs, rest')).
Proof.
  revert f2 l. induction f1 as [|f1 IH]; intros f2 l H1 H2 H3; [lia|]. destruct f2 as [|f2]; [lia|].
  cbn [frames_loop] in *. unfold extract_sse_frame at 1. rewrite (extract_app (S (length l))) by lia.
  unfold extract_sse_frame in *. destruct (extract_frame (S (length l)) l) as [[f|] rest] eqn:He.
  - apply extract_length in He as [_ He]. specialize (He ltac:(by eauto)).
    rewrite (IH f2 rest) by (rewrite ?length_app in *; destruct (frames_loop f1 rest) eqn:?; cbn in *; lia).
    destruct (frames_loop f1 rest) as [fs r]. by destruct (frames_loop f3 (r ++ l')) as [gs r'].
  - apply extract_length in He as [He _]. cbn in H3. destruct f3 as [|f3]; [lia|]. cbn [frames_loop].
    unfold extract_sse_frame. destruct (extract_frame (S (length (rest ++ l'))) (rest ++ l')) as [[f|] r] eqn:He'; [|done].
    apply extract_length in He' as [_ He']. specialize (He' ltac:(by eauto)).
    rewrite (frames_fuel f2 f3); [by destruct (frames_loop f3 r)|rewrite length_app in *; lia|lia].
Qed.
Lemma frames_app l l' :
  frames (l ++ l') = (let '(fs, rest) := frames l in let '(gs, rest') := frames (rest ++ l') in (fs ++ gs, rest')).
Proof.
  unfold frames. rewrite (frames_loop_app (S (length l)) _ (S (length ((frames_loop (S (length l)) l).2 ++ l')))) by lia.
  by destruct (frames_loop (S (length l)) l).
Qed.

(** What is left holds no frame. *)
Lemma frames_rest l fs rest : frames l = (fs, rest) -> frames rest = ([], rest).
Proof.
  intros Hl. pose proof (frames_app l []) as H. rewrite !app_nil_r, Hl in H.
  destruct (frames (rest ++ [])) as [gs rest'] eqn:Hr. rewrite app_nil_r in Hr. injection H as Hgs ->.
  assert (gs = []) as ->; [|done]. apply (app_inv_head fs). by rewrite app_nil_r.
Qed.

(** ** Frames written as [data: <payload>] *)
Definition event (payload : bytes) : bytes := as_bytes "data: " ++ payload ++ [LF; LF].
(** A payload on one line, such as the text of a JSON value. *)
Definition one_line (payload : bytes) : Prop :=
  payload <> [] /\ (LF ∉ payload) /\ last payload <> Some CR.

Lemma boundary_LF l l' : LF ∉ l -> boundary (l ++ LF :: LF :: l') = Some (length l, 2).
Proof.
  induction l as [|x l IH]; intros Hl.
  { cbn [app boundary]. by rewrite (proj2 (starts_iff [LF; LF] (LF :: LF :: l'))) by (by exists l'). }
  apply not_elem_of_cons in Hl as [Hx Hl]. cbn [app boundary]. rewrite (IH Hl).
  assert (starts [LF; LF] (x :: l ++ LF :: LF :: l') = false) as ->.
  { apply not_true_iff_false. intros [l0 Hl0]%starts_iff. by injection Hl0 as -> _. }
  assert (starts [CR; LF; CR; LF] (x :: l ++ LF :: LF :: l') = false) as ->; [|done].
  apply not_true_iff_false. intros [l0 Hl0]%starts_iff.
  destruct l as [|y l]; cbn in Hl0; [by injection Hl0|]. injection Hl0 as -> -> _.
  by apply Hl, list_elem_of_here.
Qed.
Lemma split_free x l : x ∉ l -> split x l = [l].
Proof.
  induction l as [|y l IH]; [done|]. intros [Hy Hl]%not_elem_of_cons. cbn [split].
  by rewrite decide_False, (IH Hl) by done.
Qed.
Lemma strip_last_None x l : last l <> Some x -> strip_last x l = None.
Proof.
  induction l as [|y l IH]; [done|]. destruct l as [|z l].
  { cbn. intros. by rewrite decide_False by congruence. }
  intros H. change (strip_last x (y :: z :: l)) with (cons y <$> strip_last x (z :: l)). rewrite IH; [done|exact H].
Qed.
Lemma strip_prefix_app p l : strip_prefix p (p ++ l) = Some l.
Proof. induction p as [|x p IH]; [done|]. cbn. by rewrite decide_True. Qed.

Lemma data_LF payload : LF ∉ payload -> LF ∉ as_bytes "data: " ++ payload.
Proof.
  intros HLF. rewrite elem_of_app. intros [H|H]; [|done].
  repeat (apply elem_of_cons in H as [H|H]; [done|]). by apply elem_of_nil in H.
Qed.
Lemma frame_data_event payload : one_line payload -> frame_data (as_bytes "data: " ++ payload) = payload.
Proof.
  intros (Hne & HLF & HCR). unfold frame_data.
  rewrite split_free by by apply data_LF.
  cbn [foldl]. unfold push_line. rewrite strip_last_None by (rewrite last_app; by destruct (last payload) eqn:Hl; [|apply last_None in Hl]).
  cbn [default from_option]. change (as_bytes "data: ") with (as_bytes "data:" ++ as_bytes " "). rewrite <- app_assoc, !strip_prefix_app.
  cbn [default from_option]. by rewrite decide_True.
Qed.
Lemma frames_event payload l : one_line payload -> frames (event payload ++ l) = (payload :: (frames l).1, (frames l).2).
Proof.
  intros Hp. pose proof Hp as (Hne & HLF & HCR). unfold event. rewrite <- !app_assoc, app_assoc. cbn [app].
  set (frame := as_bytes "data: " ++ payload).
  assert (boundary (frame ++ LF :: LF :: l) = Some (length frame, 2)) as Hb.
  { by apply boundary_LF, data_LF. }
  assert (extract_sse_frame (frame ++ LF :: LF :: l) = (Some payload, l)) as He.
  { unfold extract_sse_frame. cbn [extract_frame]. rewrite find_boundary, Hb, take_app_length.
    rewrite drop_app_add. cbn [drop]. unfold frame at 1. cbn [as_bytes app list_byte_of_string forallb].
    assert (forallb is_ascii_whitespace (as_bytes "data: " ++ payload) = false) as -> by reflexivity.
    unfold frame. rewrite frame_data_event by done. by rewrite decide_False. }
  unfold frames at 1. cbn [frames_loop]. rewrite He. rewrite (frames_fuel _ (S (length l))); [|rewrite length_app; cbn; lia|lia].
  fold (frames l). by destruct (frames l).
Qed.
End Sse.
