(* ===== verification/ProviderClient.v ===== *)
(** * Outbound requests to model providers

    [src/src/provider_client.rs].  Module [Outbound]: the headers and requests
    built for a provider and the sending of one request.  Module [Transport]: the
    attested Tinfoil client shared by all requests — discovery in the background,
    refresh after a failed connection — as a step relation over the interleaved
    tasks.  The HTTP libraries and the discovery itself are parameters. *)

From S2P Require Import Prelude Text Crypto Api Sse Routing.

Module Outbound.
Import Routing(as_str, ProviderName(..)).

(** [http::HeaderMap]: each name with its values, in the order of insertion. *)
Definition HeaderMap : Type := list (string * list bytes).
Fixpoint append (name : string) (value : bytes) (m : HeaderMap) : HeaderMap :=
  match m with
  | [] => [(name, [value])]
  | (name', values) :: m =>
      if decide (name = name') then (name', values ++ [value]) :: m else (name', values) :: append name value m
  end.
Fixpoint insert (name : string) (value : bytes) (m : HeaderMap) : HeaderMap :=
  match m with
  | [] => [(name, [value])]
  | (name', values) :: m =>
      if decide (name = name') then (name', [value]) :: m else (name', values) :: insert name value m
  end.
Fixpoint get_all (name : string) (m : HeaderMap) : list bytes :=
  match m with
  | [] => []
  | (name', values) :: m => if decide (name = name') then values else get_all name m
  end.
Definition iter (m : HeaderMap) : list (string * bytes) := '(name, values) ← m; pair name <$> values.

(** Of the HTTP libraries: [HeaderName::from_bytes], [HeaderValue::from_str]
    (and their [hyper] versions), [Url::parse] and the URI check of
    [hyper::Request::builder]. *)
Class Http := {
  header_name : bytes -> option string;
  header_value : string -> outcome string bytes;
  hyper_name : string -> option string;
  hyper_value : bytes -> option bytes;
  url_parse : string -> outcome string string;
  hyper_uri : string -> outcome string string;
}.

Inductive ProviderRequestError := TinfoilUnavailable | Timeout (d : Z) | Build (m : string) | Send (m : string).
Definition into_api_error (e : ProviderRequestError) : Api.ApiError :=
  match e with TinfoilUnavailable => Api.ServiceUnavailable | Timeout _ | Build _ | Send _ => Api.InternalServerError end.

Record ProviderRequest := MkRequest {
  method : string; path : string; source_headers : option HeaderMap; content_type : option string;
  body : option bytes; response_start_timeout : Z }.
Definition request_new (method path : string) (timeout : Z) : ProviderRequest := MkRequest method path None None None timeout.

(** What goes on the wire. *)
Record WireRequest := MkWire { w_method : string; w_url : string; w_headers : HeaderMap; w_body : option bytes }.

Fixpoint trim_start_char (c : ascii) (s : string) : string :=
  match s with String c' s' => if decide (c = c') then trim_start_char c s' else s | EmptyString => s end.
Fixpoint trim_end_char (c : ascii) (s : string) : string :=
  match s with
  | EmptyString => EmptyString
  | String c' s => match trim_end_char c s with
                   | EmptyString => if decide (c = c') then EmptyString else String c' EmptyString
                   | s' => String c' s'
                   end
  end.
Definition join_url (base path : string) : string :=
  trim_end_char "/" base +:+ "/" +:+ trim_start_char "/" path.
Definition bearer (key : string) : string := "Bearer " +:+ key.

Definition HOP_BY_HOP : list string :=
  ["authorization"; "connection"; "content-length"; "content-type"; "host"; "proxy-authenticate";
   "proxy-authorization"; "te"; "trailer"; "transfer-encoding"; "upgrade"; "keep-alive"; "proxy-connection"].

Fixpoint trim_front (l : bytes) : bytes :=
  match l with x :: l' => if Sse.is_ascii_whitespace x then trim_front l' else l | [] => [] end.
Fixpoint trim_back (l : bytes) : bytes :=
  match l with
  | [] => []
  | x :: l => match trim_back l with [] => if Sse.is_ascii_whitespace x then [] else [x] | l' => x :: l' end
  end.
Definition trim_ascii_whitespace (l : bytes) : bytes := trim_back (trim_front l).

(** ** The network


    An attested client; what its connection does with a request; where the
    response timeout strikes, if it does; and what the recovery task returned
    ([JoinError] included). *)
Record TinfoilClient := MkClient { client_id : nat; enclave : string; client_key : string }.
Inductive Executed (R : Type) := Response (r : R) | ConnectError (e : string) | OtherError (e : string).
Arguments Response {R} _.
Arguments ConnectError {R} _.
Arguments OtherError {R} _.
Inductive Stage := FirstExecute | Recovering | SecondExecute.
Record Network (R : Type) := MkNetwork {
  current : option TinfoilClient;
  http_client : TinfoilClient -> outcome string unit;
  execute : nat -> TinfoilClient -> WireRequest -> Executed R;
  recovery : TinfoilClient -> outcome ProviderRequestError TinfoilClient;
  elapsed : Stage -> bool;
  standard : WireRequest -> outcome string R }.
Arguments current {R} _.
Arguments http_client {R} _ _.
Arguments execute {R} _ _ _ _.
Arguments recovery {R} _ _.
Arguments elapsed {R} _ _.
Arguments standard {R} _ _.

Section http.
Context `{Http}.

Definition connection_tokens (source : HeaderMap) : list string :=
  value ← get_all "connection" source;
  token ← Sse.split Byte.x2c value;
  let token := trim_ascii_whitespace token in
  if decide (token = []) then [] else option_list (header_name token).
Definition skipped_forward_headers (source : HeaderMap) : gset string :=
  list_to_set HOP_BY_HOP ∪ list_to_set (connection_tokens source).

Definition forward_one (skipped : gset string) (forwarded : HeaderMap) (header : string * bytes) : HeaderMap :=
  if decide (header.1 ∈ skipped) then forwarded else append header.1 header.2 forwarded.
Definition forwarded_headers (source : HeaderMap) : HeaderMap :=
  foldl (forward_one (skipped_forward_headers source)) [] (iter source).

(** The request of one attempt over the attested client. *)
Definition build_tinfoil_request_for_attempt (enclave api_key : string) (request : ProviderRequest)
    : outcome ProviderRequestError WireRequest :=
  url ← map_err Build (url_parse (join_url ("https://" +:+ enclave) (path request)));
  let headers := match source_headers request with Some source => forwarded_headers source | None => [] end in
  headers ← match content_type request with
            | Some t => value ← map_err Build (header_value t); Ok (insert "content-type" value headers)
            | None => Ok headers
            end;
  headers ← (if is_empty api_key then Ok headers
             else value ← map_err Build (header_value (bearer api_key)); Ok (insert "authorization" value headers));
  Ok (MkWire (method request) url headers (body request)).

(** The request of [send_standard]; [hyper]'s builder keeps its first error. *)
Definition hyper_forward (skipped : gset string) (headers : HeaderMap) (header : string * bytes) : HeaderMap :=
  if decide (header.1 ∈ skipped) then headers
  else match hyper_name header.1, hyper_value header.2 with
       | Some name, Some value => append name value headers
       | _, _ => headers
       end.
Definition build_standard_request (provider : Proxy.ProxyConfig) (request : ProviderRequest)
    : outcome ProviderRequestError WireRequest :=
  url ← map_err Build (hyper_uri (join_url (Proxy.base_url provider) (path request)));
  headers ← match content_type request with
            | Some t => value ← map_err Build (header_value t); Ok (append "content-type" value [])
            | None => Ok []
            end;
  headers ← match Proxy.api_key provider with
            | Some key =>
                if is_empty key then Ok headers
                else value ← map_err Build (header_value (bearer key)); Ok (append "authorization" value headers)
            | None => Ok headers
            end;
  let headers :=
    match source_headers request with
    | Some source => foldl (hyper_forward (skipped_forward_headers source)) headers (iter source)
    | None => headers
    end in
  Ok (MkWire (method request) url headers (body request)).

(** ** Sending

    The requests handed to a connection, in order. *)
Definition Log : Type := list (option TinfoilClient * WireRequest).
Definition Send' (A : Type) : Type := ST Log ProviderRequestError A.

Section send.
Context {R : Type} (net : Network R).

Definition build_for (client : TinfoilClient) (request : ProviderRequest) : Send' WireRequest :=
  st_lift (build_tinfoil_request_for_attempt (enclave client) (client_key client) request).
(** A wait inside [tokio::time::timeout]. *)
Definition within {A} (limit : Z) (stage : Stage) (m : Send' A) : Send' A :=
  if elapsed net stage then fun log => (Err (Timeout limit), (m log).2) else m.
Definition run_execute (client : TinfoilClient) (wire : WireRequest) : Send' (Executed R) := fun log =>
  (Ok (execute net (length log) client wire), log ++ [(Some client, wire)]).

Definition send_tinfoil (request : ProviderRequest) : Send' R :=
  let limit := response_start_timeout request in
  attempt ← st_lift (ok_or TinfoilUnavailable (current net));
  first_request ← build_for attempt request;
  _ ← st_lift (map_err Send (http_client net attempt));
  executed ← within limit FirstExecute (run_execute attempt first_request);
  match executed with
  | Response response => st_ok response
  | OtherError error => st_err (Send error)
  | ConnectError _ =>
      refreshed ← within limit Recovering (st_lift (recovery net attempt));
      retry_request ← build_for refreshed request;
      _ ← st_lift (map_err Send (http_client net refreshed));
      executed ← within limit SecondExecute (run_execute refreshed retry_request);
      match executed with
      | Response response => st_ok response
      | ConnectError error | OtherError error => st_err (Send error)
      end
  end.
Definition send_standard (provider : Proxy.ProxyConfig) (request : ProviderRequest) : Send' R :=
  wire ← st_lift (build_standard_request provider request);
  within (response_start_timeout request) FirstExecute
    (fun log => (map_err Send (standard net wire), log ++ [(None, wire)])).
Definition send (provider : Proxy.ProxyConfig) (request : ProviderRequest) : Send' R :=
  if decide (Proxy.provider_name provider <> as_str Tinfoil) then send_standard provider request
  else send_tinfoil request.
End send.
End http.

(** ** Lemmas *)
Section header_facts.
Implicit Types (m source : HeaderMap) (l : list (string * bytes)).

Lemma get_all_append n n' v m :
  get_all n (append n' v m) = if decide (n = n') then get_all n m ++ [v] else get_all n m.
Proof.
  induction m as [|[n0 vs] m IH]; cbn; [by repeat case_decide|].
  repeat (case_decide; cbn); subst; try done; congruence.
Qed.
Lemma get_all_insert n n' v m : get_all n (insert n' v m) = if decide (n = n') then [v] else get_all n m.
Proof.
  induction m as [|[n0 vs] m IH]; cbn; [by repeat case_decide|].
  repeat (case_decide; cbn); subst; try done; congruence.
Qed.

(** The values of one name among the headers an iteration yields. *)
Definition values_of (n : string) l : list bytes := snd <$> filter (fun h => h.1 = n) l.
Lemma values_of_cons n h l : values_of n (h :: l) = (if decide (h.1 = n) then [h.2] else []) ++ values_of n l.
Proof. unfold values_of. rewrite filter_cons. by case_decide. Qed.
Lemma values_of_app n l1 l2 : values_of n (l1 ++ l2) = values_of n l1 ++ values_of n l2.
Proof. unfold values_of. by rewrite filter_app, fmap_app. Qed.
Lemma values_of_pairs n n' vs : values_of n (pair n' <$> vs) = if decide (n' = n) then vs else [].
Proof.
  induction vs as [|v vs IH]; [by case_decide|]. cbn [fmap list_fmap]. rewrite values_of_cons, IH. cbn.
  by case_decide.
Qed.
Lemma iter_cons n vs m : iter ((n, vs) :: m) = (pair n <$> vs) ++ iter m.
Proof. reflexivity. Qed.
Lemma values_of_iter n m : NoDup m.*1 -> values_of n (iter m) = get_all n m.
Proof.
  induction m as [|[n' vs] m IH]; [done|]. cbn [fmap list_fmap fst]. intros [Hn' Hm]%NoDup_cons.
  rewrite iter_cons, values_of_app, values_of_pairs, (IH Hm). cbn [get_all].
  destruct (decide (n' = n)) as [->|Hne]; [|by rewrite decide_False].
  rewrite decide_True by done. assert (get_all n m = []) as ->; [|by rewrite app_nil_r].
  clear -Hn'. induction m as [|[n0 vs0] m IH]; [done|]. cbn in *. apply not_elem_of_cons in Hn' as [? ?].
  rewrite decide_False by done. by apply IH.
Qed.

(** What a loop that skips some names and filters values leaves under a name. *)
Lemma get_all_forward (f : bytes -> option bytes) (step : HeaderMap -> string * bytes -> HeaderMap)
    (skipped : gset string) n acc l :
  (forall m h, h ∈ l -> step m h = if decide (h.1 ∈ skipped) then m
                         else match f h.2 with Some v => append h.1 v m | None => m end) ->
  get_all n (foldl step acc l) = get_all n acc ++ (if decide (n ∈ skipped) then [] else omap f (values_of n l)).
Proof.
  revert acc. induction l as [|h l IH]; intros acc Hstep; cbn [foldl].
  { case_decide; by rewrite app_nil_r. }
  rewrite IH by (intros; apply Hstep; by right). rewrite Hstep by by left.
  rewrite values_of_cons. destruct h as [n' v]. cbn [fst snd].
  destruct (decide (n' ∈ skipped)) as [Hs|Hs].
  { destruct (decide (n' = n)) as [->|]; [|done]. by rewrite !decide_True. }
  rewrite omap_app. destruct (decide (n' = n)) as [->|Hne].
  - rewrite !(decide_False (P := n ∈ skipped)) by done. cbn [omap list_omap app].
    destruct (f v) as [w|] eqn:Hf; cbn; rewrite ?Hf; [|done]. by rewrite get_all_append, decide_True, <- app_assoc.
  - cbn [app]. destruct (f v); [|done]. by rewrite get_all_append, decide_False by done.
Qed.
End header_facts.

(** ** Whose credentials a provider sees

    The HTTP libraries keep a valid name and a valid value as they are. *)
Class HttpLaws (h : Http) : Prop := {
  header_value_same s v : header_value s = Ok v -> v = as_bytes s;
  hyper_name_same n : header_name (as_bytes n) = Some n -> hyper_name n = Some n;
}.
(** A header map of the library: distinct, valid names. *)
Definition well_formed `{Http} (m : HeaderMap) : Prop :=
  NoDup m.*1 /\ Forall (fun h => header_name (as_bytes h.1) = Some h.1) m.

(** What the headers of a request to a provider may be: the provider's own key,
    the backend's content type, and the caller's headers that are meant for
    every hop ([f] is the check of the values by the library). *)
Definition own_headers `{Http} (key : string) (f : bytes -> option bytes) (request : ProviderRequest)
    (source : HeaderMap) (w : WireRequest) : Prop :=
  w_method w = method request /\ w_body w = body request /\
  forall n, get_all n (w_headers w) =
    if decide (n = "authorization") then (if is_empty key then [] else [as_bytes (bearer key)])
    else if decide (n = "content-type") then option_list (as_bytes <$> content_type request)
    else if decide (n ∈ skipped_forward_headers source) then []
    else omap f (get_all n source).

Section sending.
Context `{Hh : Http, !HttpLaws Hh}.

Lemma skipped_own source : "authorization" ∈ skipped_forward_headers source /\ "content-type" ∈ skipped_forward_headers source.
Proof.
  unfold skipped_forward_headers. split; apply elem_of_union_l, elem_of_list_to_set; unfold HOP_BY_HOP;
    repeat (first [apply list_elem_of_here|apply list_elem_of_further]).
Qed.

Lemma get_all_forwarded n source :
  well_formed source ->
  get_all n (forwarded_headers source) = if decide (n ∈ skipped_forward_headers source) then [] else get_all n source.
Proof.
  intros [Hnd _]. unfold forwarded_headers.
  rewrite (get_all_forward Some _ (skipped_forward_headers source)); [|intros m h _; by unfold forward_one].
  cbn [get_all app]. rewrite values_of_iter by done. case_decide; [done|].
  rewrite list_omap_id || idtac. generalize (get_all n source). induction l as [|x l IH]; [done|]. cbn. by rewrite IH.
Qed.

Lemma tinfoil_own_headers enclave key request source w :
  source_headers request = Some source -> well_formed source ->
  build_tinfoil_request_for_attempt enclave key request = Ok w -> own_headers key Some request source w.
Proof.
  intros Hs Hw. unfold build_tinfoil_request_for_attempt. rewrite Hs. intros (url & _ & H)%bind_Ok.
  apply bind_Ok in H as (h1 & H1 & H). apply bind_Ok in H as (h2 & H2 & [= <-]).
  destruct (skipped_own source) as [Ha Hc]. split_and!; [done|done|]. cbn [w_headers]. intros n.
  assert (get_all n h1 = if decide (n = "content-type") then option_list (as_bytes <$> content_type request)
    else if decide (n ∈ skipped_forward_headers source) then [] else get_all n source) as Hh1.
  { destruct (content_type request) as [t|]; [inv_ok|injection H1 as <-].
    - rewrite get_all_insert, get_all_forwarded by done. case_decide; [|done].
      match goal with H : header_value _ = Ok _ |- _ => apply header_value_same in H as -> end. done.
    - rewrite get_all_forwarded by done. repeat case_decide; subst; done. }
  assert (forall l : list bytes, omap Some l = l) as Hid by (induction l as [|x l IH]; cbn; [done|by rewrite IH]).
  rewrite Hid. destruct (is_empty key); [injection H2 as <-|inv_ok].
  - rewrite Hh1. repeat case_decide; subst; done.
  - rewrite get_all_insert, Hh1.
    match goal with H : header_value _ = Ok _ |- _ => apply header_value_same in H as -> end. by repeat case_decide.
Qed.

Lemma standard_own_headers provider request source w :
  source_headers request = Some source -> well_formed source ->
  build_standard_request provider request = Ok w ->
  own_headers (default "" (Proxy.api_key provider)) hyper_value request source w.
Proof.
  intros Hs Hw. unfold build_standard_request. rewrite Hs. intros (url & _ & H)%bind_Ok.
  apply bind_Ok in H as (h1 & H1 & H). apply bind_Ok in H as (h2 & H2 & [= <-]).
  destruct (skipped_own source) as [Ha Hc]. split_and!; [done|done|]. cbn [w_headers]. intros n.
  rewrite (get_all_forward hyper_value _ (skipped_forward_headers source)).
  2:{ intros m h Hin. unfold hyper_forward. case_decide; [done|]. destruct Hw as [_ Hw].
      assert (header_name (as_bytes h.1) = Some h.1) as ->%hyper_name_same; [|done].
      unfold iter in Hin. apply list_elem_of_bind in Hin as ([n' vs] & Hin & Hin').
      apply list_elem_of_fmap in Hin as (v & -> & _). cbn. by apply (proj1 (Forall_forall _ _) Hw (n', vs)). }
  rewrite values_of_iter by apply Hw.
  assert (get_all n h1 = if decide (n = "content-type") then option_list (as_bytes <$> content_type request) else []) as Hh1.
  { destruct (content_type request) as [t|]; [inv_ok|injection H1 as <-; by case_decide].
    match goal with H : header_value _ = Ok _ |- _ => apply header_value_same in H as -> end.
    cbn [get_all]. by repeat case_decide. }
  assert (get_all n h2 = if decide (n = "authorization")
    then (if is_empty (default "" (Proxy.api_key provider)) then [] else [as_bytes (bearer (default "" (Proxy.api_key provider)))])
    else get_all n h1) as ->.
  { destruct (Proxy.api_key provider) as [key|]; cbn [default from_option id]; [destruct (is_empty key); [injection H2 as <-|inv_ok]|injection H2 as <-].
    - rewrite Hh1. repeat case_decide; by subst.
    - rewrite get_all_append, Hh1. repeat case_decide; try done; subst; try done.
      by match goal with H : header_value _ = Ok _ |- _ => apply header_value_same in H as -> end.
    - rewrite Hh1. repeat case_decide; by subst. }
  rewrite Hh1. repeat case_decide; subst; rewrite ?app_nil_r; done.
Qed.

(** The requests one [send] hands to connections. *)
Section handed.
Context {R : Type} (net : Network R) (provider : Proxy.ProxyConfig) (request : ProviderRequest) (log : Log).
Inductive handed : Log -> Prop :=
| HandedNone : handed []
| HandedStandard w :
    Proxy.provider_name provider <> as_str Tinfoil -> build_standard_request provider request = Ok w ->
    handed [(None, w)]
| HandedOnce c w :
    Proxy.provider_name provider = as_str Tinfoil ->
    build_tinfoil_request_for_attempt (enclave c) (client_key c) request = Ok w ->
    handed [(Some c, w)]
| HandedTwice c w e c' w' :
    Proxy.provider_name provider = as_str Tinfoil ->
    build_tinfoil_request_for_attempt (enclave c) (client_key c) request = Ok w ->
    execute net (length log) c w = ConnectError e ->
    recovery net c = Ok c' ->
    build_tinfoil_request_for_attempt (enclave c') (client_key c') request = Ok w' ->
    handed [(Some c, w); (Some c', w')].
End handed.

Lemma handed_bodies {R} (net : Network R) provider request log sent :
  handed net provider request log sent -> Forall (fun '(_, w) => w_body w = body request) sent.
Proof.
  assert (forall e k w, build_tinfoil_request_for_attempt e k request = Ok w -> w_body w = body request) as H1.
  { intros e k w. unfold build_tinfoil_request_for_attempt. intros Hw. inv_ok. done. }
  assert (forall w, build_standard_request provider request = Ok w -> w_body w = body request) as H2.
  { intros w. unfold build_standard_request. intros Hw. inv_ok. done. }
  destruct 1; rewrite ?Forall_cons, ?Forall_nil; split_and?; eauto.
Qed.
Lemma send_handed {R} (net : Network R) provider request log r log' :
  send net provider request log = (r, log') -> exists sent, log' = log ++ sent /\ handed net provider request log sent.
Proof.
  assert (forall l : Log, l = l ++ []) as Hnil by (intros l; by rewrite app_nil_r).
  unfold send. case_decide as Hp.
  - unfold send_standard, mbind, ST_bind, st_lift, within.
    destruct (build_standard_request provider request) as [w|e|] eqn:Hw; [|intros [= _ <-]; eexists; by split; [apply Hnil|constructor]..].
    assert (exists sent, log ++ [(None, w)] = log ++ sent /\ handed net provider request log sent) as Hd
      by (exists [(None, w)]; split; [done|by apply HandedStandard]).
    by destruct (elapsed net FirstExecute); cbn; intros [= _ <-].
  - unfold send_tinfoil, build_for, run_execute, mbind, ST_bind, st_lift, within, st_ok, st_err.
    destruct (current net) as [c|]; cbn [ok_or]; [|intros [= _ <-]; eexists; by split; [apply Hnil|constructor]].
    destruct (build_tinfoil_request_for_attempt (enclave c) _ request) as [w|e|] eqn:Hw; [|intros [= _ <-]; eexists; by split; [apply Hnil|constructor]..].
    destruct (map_err Send (http_client net c)); [|intros [= _ <-]; eexists; by split; [apply Hnil|constructor]..].
    assert (exists sent, log ++ [(Some c, w)] = log ++ sent /\ handed net provider request log sent) as H1
      by (exists [(Some c, w)]; split; [done|by apply HandedOnce]).
    destruct (elapsed net FirstExecute); cbn [snd]; [by intros [= _ <-]|].
    destruct (execute net (length log) c w) as [?|e|?] eqn:He; [by intros [= _ <-]| |by intros [= _ <-]].
    destruct (elapsed net Recovering); cbn [snd]; [by intros [= _ <-]|].
    destruct (recovery net c) as [c'|?|] eqn:Hr; [|by intros [= _ <-]..].
    destruct (build_tinfoil_request_for_attempt (enclave c') _ request) as [w'|?|] eqn:Hw'; [|by intros [= _ <-]..].
    destruct (map_err Send (http_client net c')); [|by intros [= _ <-]..].
    assert (exists sent, (log ++ [(Some c, w)]) ++ [(Some c', w')] = log ++ sent /\ handed net provider request log sent) as H2
      by (eexists; split; [by rewrite <- app_assoc|by econstructor]).
    destruct (elapsed net SecondExecute); cbn [snd]; [by intros [= _ <-]|].
    by destruct (execute net (length (log ++ [(Some c, w)])) c' w'); intros [= _ <-].
Qed.

(** C9. Whatever provider a request is sent to and however the network behaves,
    the request carries the key of that provider (of the attested client it is
    sent over, for Tinfoil) and no other credential: of the caller's headers it
    carries exactly those that are neither hop-by-hop nor named by the caller's
    [Connection] header, under their names and in their order.  At most two
    requests are made; the second has the same method, body and forwarded headers
    and follows only a connection that was never established. *)
Theorem outbound_requests {R} (net : Network R) (provider : Proxy.ProxyConfig) (request : ProviderRequest)
    (source : HeaderMap) (log log' : Log) (r : outcome ProviderRequestError R) :
  source_headers request = Some source -> well_formed source ->
  send net provider request log = (r, log') ->
  exists sent, log' = log ++ sent /\
    Forall (fun '(client, w) =>
      own_headers (match client with Some c => client_key c | None => default "" (Proxy.api_key provider) end)
        (match client with Some _ => Some | None => hyper_value end) request source w) sent /\
    (length sent <= 1 \/
     exists c w c' w' e, sent = [(Some c, w); (Some c', w')] /\ execute net (length log) c w = ConnectError e).
Proof.
  intros Hs Hw (sent & -> & Hsent)%send_handed. exists sent. split; [done|].
  destruct Hsent; split; rewrite ?Forall_cons, ?Forall_nil; split_and?; try done;
    eauto using tinfoil_own_headers, standard_own_headers; first [left; cbn; lia|right; by repeat eexists].
Qed.
End sending.

(** ** A request that follows a rotated router *)
#[export] Instance toy_http : Http := {|
  header_name b := Some (of_bytes b); header_value s := Ok (as_bytes s); hyper_name n := Some n;
  hyper_value v := Some v; url_parse s := Ok s; hyper_uri s := Ok s |}.
#[export] Instance toy_http_laws : HttpLaws toy_http.
Proof. split; intros; cbn in *; by simplify_eq. Qed.

Definition demo_source : HeaderMap :=
  [("authorization", [as_bytes "Bearer caller"]); ("connection", [as_bytes "close, x-hop "]);
   ("x-hop", [as_bytes "1"]); ("x-request-id", [as_bytes "7"; as_bytes "8"])].
Definition demo_request : ProviderRequest :=
  MkRequest "POST" "/v1/chat/completions" (Some demo_source) (Some "application/json") (Some (as_bytes "{}")) (secs 120).
Definition demo_network : Network unit :=
  MkNetwork unit (Some (MkClient 0 "old.example" "key")) (fun _ => Ok tt)
    (fun _ c _ => if decide (client_id c = 0) then ConnectError "pin" else Response tt)
    (fun _ => Ok (MkClient 1 "new.example" "key")) (fun _ => false) (fun _ => Ok tt).
Definition demo_provider : Proxy.ProxyConfig := Proxy.MkProxy "https://tinfoil.example" None "tinfoil".

Example demo_sent :
  w_url ∘ snd <$> (send demo_network demo_provider demo_request []).2 =
    ["https://old.example/v1/chat/completions"; "https://new.example/v1/chat/completions"] /\
  w_headers ∘ snd <$> (send demo_network demo_provider demo_request []).2 =
    replicate 2 [("x-request-id", [as_bytes "7"; as_bytes "8"]); ("content-type", [as_bytes "application/json"]);
                 ("authorization", [as_bytes "Bearer key"])].
Proof. split; vm_compute; reflexivity. Qed.

Lemma demo_well_formed : well_formed demo_source.
Proof. split; [by apply (bool_decide_unpack (NoDup demo_source.*1))|]. repeat constructor; reflexivity. Qed.

Lemma outbound_requests_witness :
  exists sent, (send demo_network demo_provider demo_request []).2 = [] ++ sent /\
    Forall (fun '(client, w) =>
      own_headers (match client with Some c => client_key c | None => default "" (Proxy.api_key demo_provider) end)
        (match client with Some _ => Some | None => hyper_value end) demo_request demo_source w) sent /\
    (length sent <= 1 \/
     exists c w c' w' e, sent = [(Some c, w); (Some c', w')] /\ execute demo_network (length (A := option TinfoilClient * WireRequest) []) c w = ConnectError e).
Proof.
  apply (outbound_requests demo_network demo_provider demo_request demo_source []
    (send demo_network demo_provider demo_request []).2 (send demo_network demo_provider demo_request []).1);
    [reflexivity|exact demo_well_formed|by destruct (send demo_network demo_provider demo_request [])].
Defined.
End Outbound.

(** ** The attested transport *)
Module Transport.

Definition TINFOIL_INITIAL_RETRY_DELAY : Z := secs 1.
Definition TINFOIL_MAX_RETRY_DELAY : Z := secs 30.
(** [Duration::MAX]. *)
Definition duration_max : Z := (2 ^ 64 - 1) * 10 ^ 9 + 999999999.
Definition next_retry_delay (current : Z) : Z := Z.min (Z.min (current * 2) duration_max) TINFOIL_MAX_RETRY_DELAY.

Inductive RefreshDecision := Refresh | UseCurrent | PreviousAttemptFailed.
Definition refresh_decision (failed_attempt current_attempt : Z) (same_client : bool) : RefreshDecision :=
  if negb same_client then UseCurrent
  else if decide (failed_attempt = current_attempt) then Refresh
  else PreviousAttemptFailed.
Definition u64_wrapping_add (a b : Z) : Z := (a + b) mod 2 ^ 64.

(** A client is a number given when it is attested ([Arc::ptr_eq]). *)
Record SecureClientSlot := MkSlot { client : option nat; refresh_attempt : Z }.
Record SecureClientSnapshot := MkSnap { s_client : nat; s_attempt : Z }.

(** Where a task is.  The gate is held in the states marked so. *)
Inductive Pc :=
| Starting                                    (* [start_background_initialization]: before the snapshot *)
| Claiming                                    (* no client seen; before the [compare_exchange] *)
| InitLock (delay : Z)                        (* [initialize_until_ready], waiting for the gate *)
| InitCheck (delay : Z)                       (* gate held *)
| InitDiscover (delay : Z)                    (* gate held, discovery running *)
| InitSleep (delay : Z)
| Unlocking                                   (* done; gate held until the guard is dropped *)
| Using (s : SecureClientSnapshot)            (* a request on its snapshot *)
| RefreshTry (s : SecureClientSnapshot)       (* [refresh_after_connect_failure]: before [try_lock] *)
| RefreshDecide (s : SecureClientSnapshot)    (* gate held *)
| RefreshDiscover (s : SecureClientSnapshot)  (* gate held, discovery running *)
| RefreshFailed.                              (* slot emptied; gate held until the guard is dropped *)

Definition holds_gate (p : Pc) : bool :=
  match p with
  | InitCheck _ | InitDiscover _ | Unlocking | RefreshDecide _ | RefreshDiscover _ | RefreshFailed => true
  | _ => false
  end.
(** The task owns an active [InitializationClaim]. *)
Definition claims (p : Pc) : bool :=
  match p with InitLock _ | InitCheck _ | InitDiscover _ | InitSleep _ => true | _ => false end.
Definition snapshot_of (p : Pc) : option SecureClientSnapshot :=
  match p with Using s | RefreshTry s | RefreshDecide s | RefreshDiscover s => Some s | _ => None end.
Definition discovering (p : Pc) : bool := match p with InitDiscover _ | RefreshDiscover _ => true | _ => false end.

Record State := MkState {
  slot : SecureClientSlot; gate : option nat; initialization_started : bool; tasks : gmap nat Pc; attested : nat }.
Definition goto (i : nat) (p : Pc) (s : State) : State :=
  MkState (slot s) (gate s) (initialization_started s) (<[i:=p]> (tasks s)) (attested s).
Definition exit (i : nat) (s : State) : State :=
  MkState (slot s) (gate s) (initialization_started s) (delete i (tasks s)) (attested s).
Definition set_gate (g : option nat) (s : State) : State :=
  MkState (slot s) g (initialization_started s) (tasks s) (attested s).
Definition set_started (b : bool) (s : State) : State := MkState (slot s) (gate s) b (tasks s) (attested s).
Definition bump (c : option nat) (attested' : nat) (s : State) : State :=
  MkState (MkSlot c (u64_wrapping_add (refresh_attempt (slot s)) 1)) (gate s) (initialization_started s) (tasks s) attested'.
(** A new client is installed; or the slot is emptied. *)
Definition install (s : State) : State := bump (Some (attested s)) (S (attested s)) s.
Definition empty_slot (s : State) : State := bump None (attested s) s.
Definition same_client (s : SecureClientSnapshot) (st : State) : bool := bool_decide (client (slot st) = Some (s_client s)).
Definition decision (s : SecureClientSnapshot) (st : State) : RefreshDecision :=
  refresh_decision (s_attempt s) (refresh_attempt (slot st)) (same_client s st).

(** Dropping a panicking task's claim and guard. *)
Definition dropped (i : nat) (p : Pc) (s : State) : State :=
  let s := if claims p then set_started false s else s in
  let s := if holds_gate p then set_gate None s else s in
  exit i s.

Inductive Kind := Background | Failure | Request | Death.
Inductive step : Kind -> State -> State -> Prop :=
(* start_background_initialization *)
| StartReady i s : tasks s !! i = Some Starting -> client (slot s) <> None -> step Background s (exit i s)
| StartNone i s : tasks s !! i = Some Starting -> client (slot s) = None -> step Background s (goto i Claiming s)
| ClaimLost i s : tasks s !! i = Some Claiming -> initialization_started s = true -> step Background s (exit i s)
| ClaimWon i s : tasks s !! i = Some Claiming -> initialization_started s = false ->
    step Background s (goto i (InitLock TINFOIL_INITIAL_RETRY_DELAY) (set_started true s))
(* initialize_until_ready *)
| InitLocked i d s : tasks s !! i = Some (InitLock d) -> gate s = None ->
    step Background s (goto i (InitCheck d) (set_gate (Some i) s))
| InitSeen i d s : tasks s !! i = Some (InitCheck d) -> client (slot s) <> None ->
    step Background s (goto i Unlocking (set_started false s))
| InitStart i d s : tasks s !! i = Some (InitCheck d) -> client (slot s) = None ->
    step Background s (goto i (InitDiscover d) s)
| InitSuccess i d s : tasks s !! i = Some (InitDiscover d) ->
    step Background s (goto i Unlocking (set_started false (install s)))
| InitFailure i d s : tasks s !! i = Some (InitDiscover d) ->
    step Failure s (goto i (InitSleep d) (set_gate None s))
| InitWake i d s : tasks s !! i = Some (InitSleep d) ->
    step Background s (goto i (InitLock (next_retry_delay d)) s)
| Unlocked i s : tasks s !! i = Some Unlocking -> step Background s (exit i (set_gate None s))
(* send *)
| SendStarts i s : tasks s !! i = None -> step Request s (goto i Starting s)
| SendSnapshot i c s : tasks s !! i = None -> client (slot s) = Some c ->
    step Request s (goto i (Using (MkSnap c (refresh_attempt (slot s)))) s)
| SendReplied i s0 s : tasks s !! i = Some (Using s0) -> step Request s (exit i s)
| SendConnectFailure i s0 s : tasks s !! i = Some (Using s0) -> step Request s (goto i (RefreshTry s0) s)
(* refresh_after_connect_failure *)
| RefreshBusy i s0 s : tasks s !! i = Some (RefreshTry s0) -> gate s <> None -> step Background s (exit i s)
| RefreshLocked i s0 s : tasks s !! i = Some (RefreshTry s0) -> gate s = None ->
    step Background s (goto i (RefreshDecide s0) (set_gate (Some i) s))
| RefreshNotNeeded i s0 s : tasks s !! i = Some (RefreshDecide s0) -> decision s0 s <> Refresh ->
    step Background s (goto i Unlocking s)
| RefreshStart i s0 s : tasks s !! i = Some (RefreshDecide s0) -> decision s0 s = Refresh ->
    step Background s (goto i (RefreshDiscover s0) s)
| RefreshSuccess i s0 s : tasks s !! i = Some (RefreshDiscover s0) ->
    step Background s (goto i Unlocking (install s))
| RefreshFailure i s0 s : tasks s !! i = Some (RefreshDiscover s0) ->
    step Failure s (goto i RefreshFailed (empty_slot s))
| RefreshRestart i s : tasks s !! i = Some RefreshFailed -> step Background s (goto i Starting (set_gate None s))
(* a panic while a discovery runs *)
| TaskDies i p s : tasks s !! i = Some p -> discovering p = true -> step Death s (dropped i p s).

(** [ProviderClient::new]. *)
Definition initial : State := MkState (MkSlot None 0) None false {[0 := Starting]} 0.
(** The states reached with or without panics. *)
Inductive reachable (panics : bool) : State -> Prop :=
| ReachInitial : reachable panics initial
| ReachStep k s s' : reachable panics s -> step k s s' -> (k = Death -> panics = true) -> reachable panics s'.

(** ** Invariants *)
Definition any (f : Pc -> bool) (o : option Pc) : bool := match o with Some p => f p | None => false end.
Definition GateOk (g : option nat) (m : gmap nat Pc) : Prop := forall i, g = Some i <-> any holds_gate (m !! i) = true.
Definition ClaimOk (b : bool) (m : gmap nat Pc) : Prop :=
  (forall i j, any claims (m !! i) = true -> any claims (m !! j) = true -> i = j) /\
  (b = true <-> exists i, any claims (m !! i) = true).
Definition TaskOk (sl : SecureClientSlot) (n : nat) (p : Pc) : Prop :=
  (forall s0, snapshot_of p = Some s0 ->
    s_client s0 < n /\ (client sl = Some (s_client s0) -> s_attempt s0 = refresh_attempt sl)) /\
  match p with
  | InitDiscover _ => client sl = None
  | RefreshDiscover s0 => client sl = Some (s_client s0)
  | _ => True
  end.
Record Inv (s : State) : Prop := {
  inv_gate : GateOk (gate s) (tasks s);
  inv_claim : ClaimOk (initialization_started s) (tasks s);
  inv_slot c : client (slot s) = Some c -> c < attested s;
  inv_tasks : map_Forall (fun _ => TaskOk (slot s) (attested s)) (tasks s);
}.

(** Task [i] moves to [o] or ends. *)
Definition move (i : nat) (o : option Pc) (m : gmap nat Pc) : gmap nat Pc := partial_alter (fun _ => o) i m.

Section moves.
Context (m : gmap nat Pc) (i : nat) (o : option Pc).

Lemma lookup_move j : move i o m !! j = if decide (j = i) then o else m !! j.
Proof.
  unfold move. case_decide; [subst; apply lookup_partial_alter_eq|by apply lookup_partial_alter_ne].
Qed.
Lemma gate_move g :
  GateOk g m -> (any holds_gate o = true -> any holds_gate (m !! i) = true \/ g = None) ->
  GateOk (if any holds_gate o then Some i else if any holds_gate (m !! i) then None else g) (move i o m).
Proof.
  intros Hg Ho j. rewrite lookup_move. pose proof (Hg i) as Hi. pose proof (Hg j) as Hj.
  case_decide as Hji; [subst j|].
  - destruct (any holds_gate o); [by split|]. destruct (any holds_gate (m !! i)); [by split|].
    destruct Hi as [Hi _]. split; [intros Hgi; by apply Hi in Hgi|done].
  - destruct (any holds_gate o).
    + split; [congruence|]. intros Hm. apply Hj in Hm. destruct (Ho eq_refl) as [Hh|Hh]; [apply Hi in Hh|]; congruence.
    + destruct (any holds_gate (m !! i)); [|done]. split; [done|]. intros Hm. apply Hj in Hm.
      assert (g = Some i) by by apply Hi. congruence.
Qed.
Lemma claim_move b :
  ClaimOk b m -> (any claims o = true -> any claims (m !! i) = true \/ b = false) ->
  ClaimOk (if any claims o then true else if any claims (m !! i) then false else b) (move i o m).
Proof.
  intros [Huniq Hb] Ho.
  assert (forall j, any claims (move i o m !! j) = true ->
    (j = i /\ any claims o = true) \/ (j <> i /\ any claims (m !! j) = true)) as Hm.
  { intros j. rewrite lookup_move. case_decide; eauto. }
  assert (any claims o = true -> forall j, j <> i -> any claims (m !! j) = true -> False) as Hother.
  { intros H j Hne Hj. destruct (Ho H) as [Hi| ->]; [by apply Hne, Huniq|].
    destruct Hb as [_ Hb]. discriminate Hb. by exists j. }
  split.
  { intros j k [[-> H1]|[Hj H1]]%Hm [[-> H2]|[Hk H2]]%Hm; [done| | |by apply Huniq]; exfalso; eauto. }
  destruct (any claims o) eqn:Hco.
  { split; [|done]. intros _. exists i. by rewrite lookup_move, decide_True. }
  destruct (any claims (m !! i)) eqn:Hci.
  { split; [done|]. intros [j [[_ ?]|[Hne Hj]]%Hm]; [done|]. by rewrite (Huniq j i) in Hne. }
  rewrite Hb. split; intros [j Hj].
  - exists j. rewrite lookup_move. case_decide; [subst; congruence|done].
  - apply Hm in Hj as [[_ ?]|[_ ?]]; [done|by exists j].
Qed.
Lemma tasks_move (P : Pc -> Prop) :
  map_Forall (fun _ => P) m -> (forall p, o = Some p -> P p) -> map_Forall (fun _ => P) (move i o m).
Proof. intros Hm Ho j p. rewrite lookup_move. case_decide; [apply Ho|apply Hm]. Qed.
End moves.

(** A slot written under the gate: emptied, or holding a client of its own. *)
Definition rewritten (s s' : State) : Prop :=
  attested s <= attested s' /\
  (client (slot s') = None \/ (client (slot s') = Some (attested s) /\ attested s' = S (attested s))).

Lemma discovering_holds p : discovering p = true -> holds_gate p = true.
Proof. by destruct p. Qed.

Lemma inv_move (s s' : State) i o :
  Inv s -> tasks s' = move i o (tasks s) ->
  gate s' = (if any holds_gate o then Some i else if any holds_gate (tasks s !! i) then None else gate s) ->
  initialization_started s' =
    (if any claims o then true else if any claims (tasks s !! i) then false else initialization_started s) ->
  (any holds_gate o = true -> any holds_gate (tasks s !! i) = true \/ gate s = None) ->
  (any claims o = true -> any claims (tasks s !! i) = true \/ initialization_started s = false) ->
  (slot s' = slot s /\ attested s' = attested s) \/ (rewritten s s' /\ any discovering (tasks s !! i) = true) ->
  (forall p, o = Some p -> TaskOk (slot s') (attested s') p) -> Inv s'.
Proof.
  intros [Hg Hc Hsl Ht] Hm Hgate Hstart Hg' Hc' Hslot Ho. split.
  - rewrite Hm, Hgate. by apply gate_move.
  - rewrite Hm, Hstart. by apply claim_move.
  - destruct Hslot as [[-> ->]|[[Hle [Hn|[Hn Ha]]] _]]; [done|by rewrite Hn|]. rewrite Hn, Ha. intros c [= <-]. lia.
  - rewrite Hm. intros j q. rewrite lookup_move. case_decide as Hji; [apply Ho|]. intros Hq.
    pose proof (Ht j q Hq) as [Hsnap Hdisc]. destruct Hslot as [[-> ->]|[[Hle Hnew] Hi]]; [by split|].
    assert (discovering q = false) as Hdq.
    { apply not_true_iff_false. intros Hd%discovering_holds. apply Hji.
      assert (gate s = Some j) as Hgj by (apply Hg; by rewrite Hq).
      assert (gate s = Some i) as Hgi; [|congruence].
      apply Hg. destruct (tasks s !! i); [by apply discovering_holds|done]. }
    split; [|by destruct q].
    intros s0 Hs0. destruct (Hsnap s0 Hs0) as [Hlt _]. split; [lia|].
    destruct Hnew as [->|[-> _]]; [done|]. intros [= Heq]. lia.
Qed.

Ltac move_task s i o :=
  apply (inv_move s _ i o); cbn;
  repeat match goal with H : tasks s !! i = _ |- context [tasks s !! i] => rewrite H; cbn end; auto;
  try (match goal with Hi : tasks s !! i = _, Hc : ClaimOk _ _, Hg : GateOk _ _ |- _ =>
    first [apply (proj2 Hc); exists i; by rewrite Hi|apply Hg; by rewrite Hi|symmetry; apply Hg; by rewrite Hi] end);
  try (let E := fresh in intros ? E; first [discriminate E|injection E as <-; split; cbn; try done; try (intros ? [= <-])]).

Lemma decision_Refresh s0 s : decision s0 s = Refresh -> client (slot s) = Some (s_client s0).
Proof. unfold decision, refresh_decision, same_client. by case_bool_decide. Qed.

Lemma inv_step k s s' : Inv s -> step k s s' -> Inv s'.
Proof.
  intros HI Hstep. pose proof HI as [Hg Hc Hsl Ht].
  destruct Hstep as [i s Hi|i s Hi|i s Hi|i s Hi|i d s Hi|i d s Hi|i d s Hi|i d s Hi|i d s Hi|i d s Hi|i s Hi
    |i s Hi|i c s Hi|i s0 s Hi|i s0 s Hi|i s0 s Hi|i s0 s Hi|i s0 s Hi|i s0 s Hi|i s0 s Hi|i s0 s Hi|i s Hi|i p s Hi];
    try pose proof (Ht _ _ Hi) as [Hsnap Hdisc].
  - move_task s i (@None Pc).
  - move_task s i (Some Claiming).
  - move_task s i (@None Pc).
  - move_task s i (Some (InitLock TINFOIL_INITIAL_RETRY_DELAY)).
  - move_task s i (Some (InitCheck d)).
  - move_task s i (Some Unlocking).
  - move_task s i (Some (InitDiscover d)).
  - move_task s i (Some Unlocking).
    right. split; [|done]. split; cbn; [lia|auto].
  - move_task s i (Some (InitSleep d)).
  - move_task s i (Some (InitLock (next_retry_delay d))).
  - move_task s i (@None Pc).
  - move_task s i (Some Starting).
  - move_task s i (Some (Using (MkSnap c (refresh_attempt (slot s))))). by split; [apply Hsl|].
  - move_task s i (@None Pc).
  - move_task s i (Some (RefreshTry s0)).
  - move_task s i (@None Pc).
  - move_task s i (Some (RefreshDecide s0)).
  - move_task s i (Some Unlocking).
  - move_task s i (Some (RefreshDiscover s0)).
    by apply decision_Refresh.
  - move_task s i (Some Unlocking). right. split; [|done]. split; cbn; [lia|auto].
  - move_task s i (Some RefreshFailed). right. split; [|done]. split; cbn; [lia|auto].
  - move_task s i (Some Starting).
  - destruct p; try done; move_task s i (@None Pc).
Qed.

Lemma inv_initial : Inv initial.
Proof.
  split; cbn; [| |done|].
  - intros i. destruct (decide (i = 0)) as [->|]; simplify_map_eq; by split.
  - split; [intros i j|split; [done|intros [i Hi]]];
      repeat match goal with |- context [?m !! ?k] => destruct (decide (k = 0)) as [->|]; simplify_map_eq end; try done.
    destruct (decide (i = 0)) as [->|]; by simplify_map_eq.
  - apply map_Forall_singleton. by split.
Qed.
Lemma reachable_inv b s : reachable b s -> Inv s.
Proof. induction 1 as [|k s s' _ IH Hstep _]; [apply inv_initial|by eapply inv_step]. Qed.

(** ** Someone is always on the way to a new client *)
Definition waking (p : Pc) : bool := match p with RefreshFailed | Starting | Claiming => true | _ => false end.
Definition woken (s : State) : Prop :=
  client (slot s) = None -> initialization_started s = true \/ exists i, any waking (tasks s !! i) = true.

Lemma woken_move (s s' : State) i o :
  woken s -> tasks s' = move i o (tasks s) ->
  (client (slot s') = None -> client (slot s) = None \/ any waking o = true) ->
  (client (slot s') = None -> initialization_started s = true -> initialization_started s' = true) ->
  (any waking (tasks s !! i) = true -> client (slot s') <> None \/ any waking o = true \/ initialization_started s' = true) ->
  woken s'.
Proof.
  intros Hw Hm Hc Hs Hi Hn. destruct (any waking o) eqn:Ho.
  { right. exists i. by rewrite Hm, lookup_move, decide_True. }
  destruct (Hc Hn) as [Hn0|]; [|done]. destruct (Hw Hn0) as [Hst|[j Hj]]; [left; auto|].
  destruct (decide (j = i)) as [->|Hne]; [destruct (Hi Hj) as [?|[?|?]]; auto; done|].
  right. exists j. by rewrite Hm, lookup_move, decide_False.
Qed.

Ltac woken_task s i o :=
  apply (woken_move s _ i o); cbn;
  repeat match goal with H : tasks s !! i = _ |- context [tasks s !! i] => rewrite H; cbn end; auto; try done.

Lemma woken_step k s s' : Inv s -> woken s -> step k s s' -> k <> Death -> woken s'.
Proof.
  intros HI Hw Hstep Hk.
  destruct Hstep as [i s Hi|i s Hi|i s Hi|i s Hi|i d s Hi|i d s Hi|i d s Hi|i d s Hi|i d s Hi|i d s Hi|i s Hi
    |i s Hi|i c s Hi|i s0 s Hi|i s0 s Hi|i s0 s Hi|i s0 s Hi|i s0 s Hi|i s0 s Hi|i s0 s Hi|i s0 s Hi|i s Hi|i p s Hi];
    [..|done].
  - woken_task s i (@None Pc).
  - woken_task s i (Some Claiming).
  - woken_task s i (@None Pc).
  - woken_task s i (Some (InitLock TINFOIL_INITIAL_RETRY_DELAY)).
  - woken_task s i (Some (InitCheck d)).
  - woken_task s i (Some Unlocking).
  - woken_task s i (Some (InitDiscover d)).
  - woken_task s i (Some Unlocking).
  - woken_task s i (Some (InitSleep d)).
  - woken_task s i (Some (InitLock (next_retry_delay d))).
  - woken_task s i (@None Pc).
  - woken_task s i (Some Starting).
  - woken_task s i (Some (Using (MkSnap c (refresh_attempt (slot s))))).
  - woken_task s i (@None Pc).
  - woken_task s i (Some (RefreshTry s0)).
  - woken_task s i (@None Pc).
  - woken_task s i (Some (RefreshDecide s0)).
  - woken_task s i (Some Unlocking).
  - woken_task s i (Some (RefreshDiscover s0)).
  - woken_task s i (Some Unlocking).
  - woken_task s i (Some RefreshFailed).
  - woken_task s i (Some Starting).
Qed.
Lemma reachable_woken s : reachable false s -> woken s.
Proof.
  induction 1 as [|k s s' Hr IH Hstep Hk].
  - intros _. right. by exists 0.
  - eapply woken_step; [by eapply reachable_inv|done..|]. intros ->. by specialize (Hk eq_refl).
Qed.

Definition ready (s : State) : Prop := client (slot s) <> None.
Definition recovers (s : State) : Prop := exists s', rtc (step Background) s s' /\ ready s'.

Lemma recovers_step s s' : step Background s s' -> recovers s' -> recovers s.
Proof. intros Hs (s2 & Hr & ?). exists s2. split; [by eapply rtc_l|done]. Qed.
Lemma goto_lookup i p s : tasks (goto i p s) !! i = Some p.
Proof. apply lookup_insert_eq. Qed.
Lemma recovers_discover i d s : tasks s !! i = Some (InitDiscover d) -> recovers s.
Proof. intros Hi. eexists. split; [apply rtc_once; by eapply InitSuccess|done]. Qed.
Lemma recovers_check i d s : tasks s !! i = Some (InitCheck d) -> client (slot s) = None -> recovers s.
Proof. intros Hi Hn. eapply recovers_step; [by eapply InitStart|]. eapply recovers_discover, goto_lookup. Qed.
Lemma recovers_lock i d s :
  tasks s !! i = Some (InitLock d) -> gate s = None -> client (slot s) = None -> recovers s.
Proof.
  intros Hi Hg Hn. eapply recovers_step; [by eapply InitLocked|]. by eapply recovers_check; [apply goto_lookup|].
Qed.
Lemma recovers_free s : Inv s -> woken s -> gate s = None -> client (slot s) = None -> recovers s.
Proof.
  intros [Hg [_ Hc] _ _] Hw Hgate Hn.
  assert (forall i, any holds_gate (tasks s !! i) = true -> False) as Hfree.
  { intros i Hi%Hg. congruence. }
  destruct (initialization_started s) eqn:Hst.
  - destruct (proj1 Hc eq_refl) as [i Hi]. specialize (Hfree i).
    destruct (tasks s !! i) as [[]|] eqn:Hl; try done; try by destruct (Hfree eq_refl).
    + by eapply recovers_lock.
    + eapply recovers_step; [by eapply InitWake|]. by eapply recovers_lock; [apply goto_lookup|..].
  - destruct (Hw Hn) as [|[i Hi]]; [congruence|]. specialize (Hfree i).
    assert (forall t, tasks t !! i = Some Claiming -> gate t = None -> client (slot t) = None ->
      initialization_started t = false -> recovers t) as Hclaim.
    { intros t Ht ???. eapply recovers_step; [by eapply ClaimWon|]. by eapply recovers_lock; [apply goto_lookup|..]. }
    destruct (tasks s !! i) as [[]|] eqn:Hl; try done.
    + eapply recovers_step; [by eapply StartNone|]. by apply Hclaim; [apply goto_lookup|..].
    + by apply Hclaim.
Qed.
Lemma recovers_woken s : Inv s -> woken s -> client (slot s) = None -> recovers s.
Proof.
  intros HI Hw Hn. destruct (gate s) as [i|] eqn:Hgate; [|by apply recovers_free].
  pose proof (inv_gate _ HI i) as Hi. rewrite Hgate in Hi. pose proof (proj1 Hi eq_refl) as Hh.
  assert (forall t t', Inv t -> woken t -> step Background t t' -> gate t' = None -> client (slot t') = None -> recovers t) as Hlast.
  { intros t t' ????. intros. eapply recovers_step; [done|]. apply recovers_free; try done; [by eapply inv_step|by eapply woken_step]. }
  assert (forall t, Inv t -> woken t -> tasks t !! i = Some Unlocking -> client (slot t) = None -> recovers t) as Hunlock.
  { intros t ????. by eapply Hlast; [..|by eapply Unlocked| |]. }
  destruct (tasks s !! i) as [p|] eqn:Hl; [|done]. pose proof (proj2 (inv_tasks _ HI i p Hl)) as Hd.
  destruct p; try done.
  - by eapply recovers_check.
  - by eapply recovers_discover.
  - by apply Hunlock.
  - assert (step Background s (goto i Unlocking s)) as Hstep.
    { eapply RefreshNotNeeded; [done|]. intros Hr%decision_Refresh. congruence. }
    eapply recovers_step; [done|]. apply Hunlock; [by eapply inv_step|by eapply woken_step|apply goto_lookup|done].
  - cbn in Hd. congruence.
  - by eapply Hlast; [..|by eapply RefreshRestart| |].
Qed.

(** ** Properties *)
Definition delay_of (p : Pc) : option Z :=
  match p with InitLock d | InitCheck d | InitDiscover d | InitSleep d => Some d | _ => None end.
Definition delay_ok (p : Pc) : Prop :=
  forall d, delay_of p = Some d -> (TINFOIL_INITIAL_RETRY_DELAY <= d <= TINFOIL_MAX_RETRY_DELAY)%Z.
Lemma next_retry_delay_ok d :
  (TINFOIL_INITIAL_RETRY_DELAY <= d <= TINFOIL_MAX_RETRY_DELAY)%Z ->
  (TINFOIL_INITIAL_RETRY_DELAY <= next_retry_delay d <= TINFOIL_MAX_RETRY_DELAY)%Z.
Proof.
  unfold next_retry_delay, TINFOIL_INITIAL_RETRY_DELAY, TINFOIL_MAX_RETRY_DELAY, duration_max, secs. lia.
Qed.
Lemma reachable_delay b s : reachable b s -> map_Forall (fun _ => delay_ok) (tasks s).
Proof.
  induction 1 as [|k s s' _ IH Hstep _]; [by apply map_Forall_singleton|].
  assert (forall i p d, tasks s !! i = Some p -> delay_of p = Some d ->
    (TINFOIL_INITIAL_RETRY_DELAY <= d <= TINFOIL_MAX_RETRY_DELAY)%Z) as Hd by (intros i p d Hp; by apply (IH i p)).
  destruct Hstep; cbn;
    match goal with
    | |- map_Forall _ (<[?i:=?p]> _) => apply (tasks_move _ i (Some p)); [done|intros ? [= <-] ? [= <-]]
    | |- map_Forall _ (delete ?i _) => by apply (tasks_move _ i None)
    | |- _ => idtac
    end; try (by eapply Hd); try (by apply next_retry_delay_ok; eapply Hd).
  - unfold TINFOIL_INITIAL_RETRY_DELAY, TINFOIL_MAX_RETRY_DELAY, secs. lia.
  - by destruct p; try done; apply (tasks_move _ i None).
Qed.

(** C8. Discovery and attestation are single-flight in every interleaving of
    requests, background initialisation and refreshes, panics included: at most
    one discovery runs at a time and at most one initialiser exists, exactly while
    the claim flag is set.  A refresh runs only for the client that is still
    installed, so one failure wave discovers once: every other task of the wave
    finds the gate taken or uses the new client, and the third outcome of
    [refresh_decision], a failed previous attempt for an installed client, never
    occurs. *)
Theorem discovery_single_flight (panics : bool) (s : State) :
  reachable panics s ->
  (forall i j p q, tasks s !! i = Some p -> tasks s !! j = Some q ->
    discovering p = true -> discovering q = true -> i = j) /\
  (forall i j p q, tasks s !! i = Some p -> tasks s !! j = Some q -> claims p = true -> claims q = true -> i = j) /\
  (initialization_started s = true <-> exists i p, tasks s !! i = Some p /\ claims p = true) /\
  (forall i s0, tasks s !! i = Some (RefreshDiscover s0) -> client (slot s) = Some (s_client s0)) /\
  (forall i s0, tasks s !! i = Some (RefreshDecide s0) ->
    decision s0 s = if decide (client (slot s) = Some (s_client s0)) then Refresh else UseCurrent).
Proof.
  intros Hr. pose proof (reachable_inv _ _ Hr) as [Hg [Hu Hc] _ Ht]. split_and!.
  - intros i j p q Hi Hj Hp%discovering_holds Hq%discovering_holds.
    assert (gate s = Some i) by (apply Hg; by rewrite Hi).
    assert (gate s = Some j) by (apply Hg; by rewrite Hj). congruence.
  - intros i j p q Hi Hj ??. apply Hu; by rewrite ?Hi, ?Hj.
  - rewrite Hc. split; intros [i Hi]; exists i; [destruct (tasks s !! i) as [p|]; [by exists p|done]|].
    destruct Hi as (p & -> & ?). done.
  - intros i s0 Hi. by destruct (Ht i _ Hi).
  - intros i s0 Hi. destruct (Ht i _ Hi) as [Hsnap _]. destruct (Hsnap s0 eq_refl) as [_ Ha].
    unfold decision, refresh_decision, same_client.
    destruct (decide (client (slot s) = Some (s_client s0))); [|by rewrite bool_decide_false].
    rewrite bool_decide_true by done. cbn. by rewrite decide_True by auto.
Qed.

(** C7. The transport does not stay unavailable: from every state without a client
    that is reached without a panic, the background tasks alone lead to a new
    client as soon as a discovery succeeds, whatever failed before; after panics
    the next request is enough.  Between two attempts an initialiser sleeps at
    least one second and at most thirty. *)
Theorem transport_recovers (panics : bool) (s : State) :
  reachable panics s -> client (slot s) = None ->
  (panics = false -> recovers s) /\
  (forall i, tasks s !! i = None -> exists s', step Request s s' /\ recovers s') /\
  (forall i d, tasks s !! i = Some (InitSleep d) -> secs 1 <= d <= secs 30)%Z.
Proof.
  intros Hr Hn. pose proof (reachable_inv _ _ Hr) as HI. split_and!.
  - intros ->. apply recovers_woken; [done|by apply reachable_woken|done].
  - intros i Hi. assert (step Request s (goto i Starting s)) as Hstep by by constructor.
    exists (goto i Starting s). split; [done|]. apply recovers_woken; [by eapply inv_step| |done].
    intros _. right. exists i. by rewrite goto_lookup.
  - intros i d Hi. by apply (reachable_delay _ _ Hr i _ Hi).
Qed.

(** The first attempt failed: the initialiser sleeps. *)
Definition demo_sleeping : State :=
  goto 0 (InitSleep TINFOIL_INITIAL_RETRY_DELAY) (set_gate None
    (goto 0 (InitDiscover TINFOIL_INITIAL_RETRY_DELAY)
      (goto 0 (InitCheck TINFOIL_INITIAL_RETRY_DELAY) (set_gate (Some 0)
        (goto 0 (InitLock TINFOIL_INITIAL_RETRY_DELAY) (set_started true (goto 0 Claiming initial))))))).
Lemma demo_reachable : reachable false demo_sleeping.
Proof.
  assert (forall k s s', reachable false s -> step k s s' -> k <> Death -> reachable false s') as Hnext.
  { intros k s s' H1 H2 H3. apply (ReachStep false k s s' H1 H2). by intros ->. }
  eapply Hnext; [|by apply InitFailure|done]. eapply Hnext; [|by apply InitStart|done].
  eapply Hnext; [|by apply InitLocked|done]. eapply Hnext; [|by apply ClaimWon|done].
  eapply Hnext; [|by apply StartNone|done]. constructor.
Qed.

Lemma discovery_single_flight_witness :
  initialization_started demo_sleeping = true <->
  exists i p, tasks demo_sleeping !! i = Some p /\ claims p = true.
Proof. exact (proj1 (proj2 (proj2 (discovery_single_flight false demo_sleeping demo_reachable)))). Defined.
Lemma transport_recovers_witness : recovers demo_sleeping.
Proof. exact (proj1 (transport_recovers false demo_sleeping demo_reachable eq_refl) eq_refl). Defined.
End Transport.
