(* ===== verification/Billing.v ===== *)
(** * Billing access

    [src/src/billing.rs] and [AppState::chat_billing_access] of
    [src/src/main.rs]: what two concurrent lookups at the billing service say of a
    user's quota and plan.  The answers of the service and when they come are
    inputs. *)

From S2P Require Import Prelude Text Models.

Module Billing.

Record UsageResponse := MkUsage { can_use : bool; is_free : bool }.
Record ChatBillingAccess := MkAccess { a_can_use : bool; a_is_free : bool }.
Inductive BillingError :=
| RequestFailed (m : string) | ParseError (m : string) | ServiceError (m : string)
| UsageLimitExceeded | FreeTokenLimitExceeded.

Definition from_frontend_usage (u : UsageResponse) : ChatBillingAccess := MkAccess (can_use u) (is_free u).
Definition from_api_and_plan_usage (api plan : UsageResponse) : ChatBillingAccess := MkAccess (can_use api) (is_free plan).
Definition is_paid (a : ChatBillingAccess) : bool := negb (a_is_free a).
Definition check_with_tokens (a : ChatBillingAccess) (input_tokens : Z) : outcome BillingError unit :=
  if negb (a_can_use a) then Err UsageLimitExceeded
  else if a_is_free a && bool_decide (20000 < input_tokens)%Z then Err FreeTokenLimitExceeded
  else Ok tt.
Definition paid_feature_access (u : UsageResponse) : bool := negb (is_free u) && can_use u.

(** One call of [check_usage]: its answer and the time it comes, if it does. *)
Record Lookup := MkLookup { answers_at : option Z; answer : outcome BillingError UsageResponse }.
(** A computation of the caller: when it is done, and with what. *)
Definition Timed (A : Type) : Type := option (Z * A).
Definition await (l : Lookup) : Timed (outcome BillingError UsageResponse) :=
  (fun t => (t, answer l)) <$> answers_at l.
Definition then_at {A B} (m : Timed A) (f : A -> Timed B) : Timed B :=
  '(t, a) ← m; '(t', b) ← f a; Some (Z.max t t', b).
Definition at_once {A} (a : A) : Timed A := Some (0%Z, a).

Definition denied : ChatBillingAccess := MkAccess false true.
Definition plan_or_free (plan : outcome BillingError UsageResponse) : UsageResponse :=
  match plan with Ok u => u | _ => MkUsage false true end.
(** After the [select!]. *)
Definition conclude (api : UsageResponse) (plan : outcome BillingError UsageResponse)
    : outcome BillingError ChatBillingAccess :=
  if negb (can_use api) then Ok denied else Ok (from_api_and_plan_usage api (plan_or_free plan)).

(** [select!] on the two lookups: the earlier one; either on a tie. *)
Definition api_first (api plan : Lookup) (tie : bool) : bool :=
  match answers_at api, answers_at plan with
  | Some a, Some p => if decide (a = p) then tie else bool_decide (a < p)%Z
  | Some _, None => true
  | None, _ => false
  end.
Definition chat_access_api (api plan : Lookup) (tie : bool) : Timed (outcome BillingError ChatBillingAccess) :=
  if api_first api plan tie then
    then_at (await api) (fun api_usage =>
      match api_usage with
      | Ok u => if negb (can_use u) then at_once (Ok denied)
                else then_at (await plan) (fun p => at_once (conclude u p))
      | Err e => at_once (Err e)
      | Panic => at_once Panic
      end)
  else
    then_at (await plan) (fun p =>
      then_at (await api) (fun api_usage =>
        match api_usage with
        | Ok u => at_once (conclude u p)
        | Err e => at_once (Err e)
        | Panic => at_once Panic
        end)).
Definition chat_access (is_api : bool) (api plan : Lookup) (tie : bool) : Timed (outcome BillingError ChatBillingAccess) :=
  if negb is_api then then_at (await plan) (fun u => at_once (from_frontend_usage <$> u))
  else chat_access_api api plan tie.

(** [chat_billing_access]: the lookups of a configured client, within a timeout. *)
Definition BILLING_ACCESS_TIMEOUT : Z := secs 5.
Definition chat_billing_access (client : option (Lookup * Lookup)) (is_api tie : bool) : option ChatBillingAccess :=
  '(api, plan) ← client;
  '(t, result) ← chat_access is_api api plan tie;
  if decide (t <= BILLING_ACCESS_TIMEOUT)%Z then
    match result with Ok access => Some access | _ => None end
  else None.

(** ** What a lookup within the time limit says *)
Definition in_time (l : Lookup) : option (outcome BillingError UsageResponse) :=
  t ← answers_at l; if decide (t <= BILLING_ACCESS_TIMEOUT)%Z then Some (answer l) else None.
(** The quota is the API's, the plan is the frontend's. *)
Definition snapshot (is_api : bool) (api plan : Lookup) : option ChatBillingAccess :=
  if is_api then
    match in_time api with
    | Some (Ok quota) =>
        if can_use quota then (fun p => MkAccess true (is_free (plan_or_free p))) <$> in_time plan else Some denied
    | _ => None
    end
  else match in_time plan with Some (Ok u) => Some (MkAccess (can_use u) (is_free u)) | _ => None end.

(** The billing snapshot is the one of the two answers that come within the
    limit, whichever comes first: an API quota that is used up is reported even if
    the plan is never known, an account counts as paid only if the plan lookup
    said so, and a missing or failed quota answer leaves no snapshot (so it does
    not block, and grants free models only). *)
Theorem billing_snapshot_exact (api plan : Lookup) (is_api tie : bool) :
  chat_billing_access (Some (api, plan)) is_api tie = snapshot is_api api plan.
Proof.
  assert (0 <= BILLING_ACCESS_TIMEOUT)%Z as HT by (unfold BILLING_ACCESS_TIMEOUT, secs; lia).
  destruct api as [[ta|] ra], plan as [[tp|] rp]; unfold chat_billing_access, snapshot, chat_access, chat_access_api,
    in_time, api_first, then_at, await, at_once, conclude, from_frontend_usage, from_api_and_plan_usage; cbn [answers_at answer fmap option_fmap option_map mbind option_bind];
    revert HT; generalize BILLING_ACCESS_TIMEOUT; intros T HT.
  all: destruct is_api, tie; cbn [negb]; repeat case_decide; cbn;
    destruct ra as [[[] ?]| |], rp as [[[] ?]| |]; cbn; repeat case_bool_decide; cbn; repeat case_decide; cbn; try done; lia.
Qed.
End Billing.
