(* ===== verification/Completions.v ===== *)
(** * The completion service

    [get_chat_completion_response] of [src/src/web/openai.rs]: the request sent to
    the provider, the relay of its stream, and the usage that is billed; and the
    gate in front of it ([proxy_openai], [billing.rs], [main.rs]).  The provider,
    the feature flags, the billing service and the reader of the channel are
    inputs. *)

From stdpp Require Import pretty.
From S2P Require Import Prelude Text Crypto Api Json Encrypt OsFlags Models Routing Database Accounts Turns Sse ProviderClient Billing.

Module Completions.
Import Encrypt(Uuid).

(** ** Data *)
Inductive AuthMethod := Jwt | ApiKey.
Record BillingContext := MkBilling { auth_method : AuthMethod; model_name : string }.
Record CompletionUsage := MkUsage {
  prompt_tokens : Z; completion_tokens : Z; cached_prompt_tokens : option Z }.
Record CompletionUsageObservation := MkObservation {
  o_prompt : option Z; o_completion : option Z; o_cached : option Z }.
Definition observation_is_empty (o : CompletionUsageObservation) : bool :=
  bool_decide (o_prompt o = None) && bool_decide (o_completion o = None) && bool_decide (o_cached o = None).

Inductive StreamUsageFinalization :=
| ProviderDone | EndOfStream | TransportError | StreamTimeout | ConsumerDropped | InvalidData.
Definition is_provider_done (f : StreamUsageFinalization) : bool :=
  match f with ProviderDone => true | _ => false end.
Record StreamUsageAccumulator := MkAccumulator {
  latest_usage : option CompletionUsage; saw_terminal_signal : bool; finalized : bool }.
Definition accumulator_default : StreamUsageAccumulator := MkAccumulator None false false.

Inductive CompletionChunk :=
| StreamChunk (json : Value)
| FullResponse (json : Value)
| ChunkUsage (usage : CompletionUsage)
| ChunkDone
| ChunkError (msg : string).
Record CompletionMetadata := MkMetadata { provider_name : string; m_model_name : string; is_streaming : bool }.

(** [tokens.clamp(0, i32::MAX as i64) as i32]. *)
Definition clamp_tokens (tokens : Z) : Z := Z.max 0 (Z.min tokens i32_max).

(** ** Usage *)
Definition extract_usage_observation (json : Value) : option CompletionUsageObservation :=
  usage_json ← (get "usage" json ≫= as_object);
  let field name := clamp_tokens <$> (member name usage_json ≫= as_i64) in
  let cached := clamp_tokens <$> ((member "prompt_tokens_details" usage_json ≫= get "cached_tokens") ≫= as_i64) in
  Some (MkObservation (field "prompt_tokens") (field "completion_tokens") cached).

Definition extract_usage (json : Value) : option CompletionUsage :=
  observed ← extract_usage_observation json;
  let prompt := default 0%Z (o_prompt observed) in
  Some (MkUsage prompt (default 0%Z (o_completion observed)) ((fun t => Z.min t prompt) <$> o_cached observed)).

Definition has_finish_reason (json : Value) : bool :=
  match get "choices" json ≫= as_array with
  | Some choices =>
      existsb (fun choice => match get "finish_reason" choice with Some r => negb (is_null r) | None => false end) choices
  | None => false
  end.
Definition has_terminal_stream_signal (json : Value) : bool :=
  if has_finish_reason json then true
  else match get "choices" json ≫= as_array with Some choices => bool_decide (choices = []) | None => false end.

Definition or_previous {A} (o previous : option A) : option A := match o with Some a => Some a | None => previous end.
Definition observe (json : Value) (self : StreamUsageAccumulator) : StreamUsageAccumulator :=
  let saw := saw_terminal_signal self || has_terminal_stream_signal json in
  match extract_usage_observation json with
  | None => MkAccumulator (latest_usage self) saw (finalized self)
  | Some observed =>
      if observation_is_empty observed then MkAccumulator (latest_usage self) saw (finalized self)
      else
        MkAccumulator
          (Some (MkUsage
            (default 0%Z (or_previous (o_prompt observed) (prompt_tokens <$> latest_usage self)))
            (default 0%Z (or_previous (o_completion observed) (completion_tokens <$> latest_usage self)))
            (or_previous (o_cached observed) (latest_usage self ≫= cached_prompt_tokens))))
          saw (finalized self)
  end.
Definition take_final_usage (finalization : StreamUsageFinalization) (self : StreamUsageAccumulator)
    : option CompletionUsage * StreamUsageAccumulator :=
  let can_finalize := is_provider_done finalization || saw_terminal_signal self in
  if finalized self || negb can_finalize then (None, self)
  else
    let self' := MkAccumulator None (saw_terminal_signal self) true in
    match latest_usage self with
    | None => (None, self')
    | Some usage =>
        let usage := MkUsage (prompt_tokens usage) (completion_tokens usage)
          ((fun cached => Z.min cached (prompt_tokens usage)) <$> cached_prompt_tokens usage) in
        (if decide (0 < prompt_tokens usage \/ 0 < completion_tokens usage)%Z then Some usage else None, self')
    end.

(** ** The request *)
Definition ensure_stream_usage (body : list (string * Value)) : list (string * Value) :=
  let include := [("include_usage", Bool true)] in
  if negb (default false (member "stream" body ≫= as_bool)) then body
  else
    set_member "stream_options"
      (match member "stream_options" body with
       | Some (Object options) => Object (set_member "include_usage" (Bool true) options)
       | Some _ | None => Object include
       end) body.

Definition CACHE_SALT : string := "cache_salt".
Definition USER_CACHE_SECRET : string := "user_cache_secret".

Section crypto.
Context `{Crypto}.
Definition tinfoil_user_cache_secret (user_uuid : Uuid) : string := Accounts.hex (sha256 user_uuid).
Definition apply_provider_managed_request_fields (provider : string) (user_uuid : Uuid)
    (body : list (string * Value)) : list (string * Value) :=
  let body := del_member USER_CACHE_SECRET (del_member CACHE_SALT body) in
  if decide (provider = Routing.as_str Routing.Tinfoil)
  then set_member USER_CACHE_SECRET (Str (tinfoil_user_cache_secret user_uuid)) body
  else body.
End crypto.

Definition canonicalize_response_model (response_model_id : string) (json : Value) : Value :=
  match get "model" json with
  | Some (Str _) => set "model" (Str response_model_id) json
  | _ => json
  end.

Definition ensure_completion_model_access (name : string) (access : Models.ModelFeatureAccess) (plan : Models.ModelPlan)
    : outcome Api.ApiError unit :=
  if negb (Models.allows_model access name) then Err Api.BadRequest
  else if negb (Models.plan_allows_model plan name) then Err Api.ModelNotAvailableOnPlan
  else Ok tt.

(** ** Publishing usage

    [BigDecimal] as its digits and scale; the row of [token_usage] and the event
    for the billing queue.  Both are written by a task of their own, whose errors
    are only logged: what it attempts is what is recorded here. *)
Record BigDecimal := MkDecimal { digits : Z; scale : Z }.
Definition decimal_of_int (z : Z) : BigDecimal := MkDecimal z 0.
Definition decimal_mul (a b : BigDecimal) : BigDecimal := MkDecimal (digits a * digits b) (scale a + scale b).
Definition decimal_add (a b : BigDecimal) : BigDecimal :=
  let s := Z.max (scale a) (scale b) in
  MkDecimal (digits a * 10 ^ (s - scale a) + digits b * 10 ^ (s - scale b)) s.
(** ["0.0000053"]. *)
Definition TOKEN_COST : BigDecimal := MkDecimal 53 7.

Record NewTokenUsage := MkTokenUsage {
  t_user_id : Uuid; t_input_tokens : Z; t_output_tokens : Z; t_estimated_cost : BigDecimal }.
Record UsageEvent := MkEvent {
  event_id : Uuid; e_user_id : Uuid; e_input_tokens : Z; e_output_tokens : Z; e_estimated_cost : BigDecimal;
  chat_time : Z; is_api_request : bool; e_provider_name : string; e_model_name : string;
  cached_input_tokens : option Z }.
Inductive Effect := CreateTokenUsage (row : NewTokenUsage) | PublishEvent (event : UsageEvent).

(** The queue, if configured; UUIDs and clock readings by the number of effects
    before them. *)
Record Billing := MkBillingEnv { sqs_publisher : bool; new_v4 : nat -> Uuid; now : nat -> Z }.
Record Payer := MkPayer { payer : Uuid; billing_context : BillingContext; provider : string }.

Definition build_usage_event (id : Uuid) (time : Z) (user_id : Uuid) (usage : CompletionUsage) (cost : BigDecimal)
    (is_api : bool) (provider model : string) : UsageEvent :=
  MkEvent id user_id (prompt_tokens usage) (completion_tokens usage) cost time is_api provider model
    (cached_prompt_tokens usage).
Definition total_cost (usage : CompletionUsage) : BigDecimal :=
  decimal_add (decimal_mul TOKEN_COST (decimal_of_int (prompt_tokens usage)))
    (decimal_mul TOKEN_COST (decimal_of_int (completion_tokens usage))).
Definition publish_usage_event_internal (env : Billing) (p : Payer) (usage : CompletionUsage) (published : list Effect)
    : list Effect :=
  if decide (prompt_tokens usage = 0 /\ completion_tokens usage = 0)%Z then published
  else
    let cost := total_cost usage in
    let published := published ++
      [CreateTokenUsage (MkTokenUsage (payer p) (prompt_tokens usage) (completion_tokens usage) cost)] in
    if sqs_publisher env then
      published ++
        [PublishEvent (build_usage_event (new_v4 env (length published)) (now env (length published)) (payer p) usage
          cost (match auth_method (billing_context p) with ApiKey => true | Jwt => false end) (provider p)
          (model_name (billing_context p)))]
    else published.

(** ** The relay task

    [receiver] is the number of chunks the reader of the channel takes before it
    goes away, if it does. *)
Record Task := MkTask { acc : StreamUsageAccumulator; sent : list CompletionChunk; published : list Effect }.
Inductive Flow := Continue | Return.
(** How the provider's body ends. *)
Inductive BodyEnd := BodyEnded | BodyError (e : string) | BodyTimeout.

Section task.
Context `{SerdeJson}.
Context (env : Billing) (p : Payer) (response_model_id : string) (receiver : option nat).

Definition from_slice (b : bytes) : option Value := s ← from_utf8 b; from_str s.
Definition receiving (t : Task) : bool :=
  match receiver with Some n => length (sent t) <? n | None => true end.
Definition tx_send (chunk : CompletionChunk) (t : Task) : bool * Task :=
  if receiving t then (true, MkTask (acc t) (sent t ++ [chunk]) (published t)) else (false, t).
Definition tx_send' (chunk : CompletionChunk) (t : Task) : Task := (tx_send chunk t).2.

Definition finalize_stream_usage (finalization : StreamUsageFinalization) (t : Task) : Task :=
  let '(usage, acc) := take_final_usage finalization (acc t) in
  let t := MkTask acc (sent t) (published t) in
  match usage with
  | None => t
  | Some usage =>
      tx_send' (ChunkUsage usage) (MkTask acc (sent t) (publish_usage_event_internal env p usage (published t)))
  end.

Definition on_frame (frame : bytes) (t : Task) : Flow * Task :=
  if decide (frame = as_bytes "[DONE]") then (Return, tx_send' ChunkDone (finalize_stream_usage ProviderDone t))
  else match from_slice frame with
       | Some json =>
           let t := MkTask (observe json (acc t)) (sent t) (published t) in
           match tx_send (StreamChunk (canonicalize_response_model response_model_id json)) t with
           | (true, t) => (Continue, t)
           | (false, t) => (Return, finalize_stream_usage ConsumerDropped t)
           end
       | None => (Return, tx_send' (ChunkError "Invalid JSON") (finalize_stream_usage InvalidData t))
       end.
(** [while let Some(frame) = extract_sse_frame(&mut buffer)]. *)
Fixpoint drain (fuel : nat) (buffer : bytes) (t : Task) : Flow * bytes * Task :=
  match fuel with
  | 0 => (Continue, buffer, t)
  | S fuel =>
      match Sse.extract_sse_frame buffer with
      | (None, buffer) => (Continue, buffer, t)
      | (Some frame, buffer) =>
          match on_frame frame t with
          | (Continue, t) => drain fuel buffer t
          | (Return, t) => (Return, buffer, t)
          end
      end
  end.
Definition on_bytes (b buffer : bytes) (t : Task) : Flow * bytes * Task :=
  let buffer := buffer ++ b in drain (S (length buffer)) buffer t.
Definition on_end (last : BodyEnd) (t : Task) : Task :=
  match last with
  | BodyError e => tx_send' (ChunkError e) (finalize_stream_usage TransportError t)
  | BodyEnded => tx_send' ChunkDone (finalize_stream_usage EndOfStream t)
  | BodyTimeout => tx_send' (ChunkError "Stream timeout") (finalize_stream_usage StreamTimeout t)
  end.
Fixpoint relay_loop (chunks : list bytes) (last : BodyEnd) (buffer : bytes) (t : Task) : Task :=
  match chunks with
  | [] => on_end last t
  | b :: chunks =>
      match on_bytes b buffer t with
      | (Continue, buffer, t) => relay_loop chunks last buffer t
      | (Return, _, t) => t
      end
  end.
Definition relay (chunks : list bytes) (last : BodyEnd) : Task :=
  relay_loop chunks last [] (MkTask accumulator_default [] []).
End task.

(** ** Calling the provider *)
Record ProviderResponse := MkResponse {
  status : Z; body_bytes : outcome string bytes; body_stream : list bytes * BodyEnd }.
Definition is_success (r : ProviderResponse) : bool := bool_decide (200 <= status r < 300)%Z.

(** [safe_log_preview]: the first 150 characters, control characters as spaces. *)
Definition LOG_PREVIEW_CHARS : nat := 150.
Definition safe_log_preview (value : string) : string :=
  let all := chars value in
  let preview := of_codes (mjoin ((fun c => if is_control c then [32] else c) <$> take LOG_PREVIEW_CHARS all)) in
  if decide (drop LOG_PREVIEW_CHARS all = []) then preview else preview +:+ "...".

Section provider.
Context `{Outbound.Http}.
Context (net : Outbound.Network ProviderResponse).

Definition REQUEST_TIMEOUT : Z := secs 120.
Definition completion_request (body_json : string) (headers : Outbound.HeaderMap) : Outbound.ProviderRequest :=
  Outbound.MkRequest "POST" "/v1/chat/completions" (Some headers) (Some "application/json")
    (Some (as_bytes body_json)) REQUEST_TIMEOUT.
Definition status_message (proxy : Proxy.ProxyConfig) (r : ProviderResponse) : string :=
  let head := "Provider " +:+ Proxy.provider_name proxy +:+ " returned status " +:+ pretty (status r) in
  match body_bytes r with
  | Ok body => head +:+ "; body_preview=" +:+ safe_log_preview (from_utf8_lossy body)
  | _ => head
  end.
Definition try_provider (proxy : Proxy.ProxyConfig) (body_json : string) (headers : Outbound.HeaderMap)
    : Outbound.Send' ProviderResponse :=
  response ← Outbound.send net proxy (completion_request body_json headers);
  if is_success response then st_ok response else st_err (Outbound.Send (status_message proxy response)).
End provider.

(** ** The service *)
Record CompletionStream := MkStream {
  stream : list CompletionChunk; metadata : CompletionMetadata; effects : list Effect }.
Definition Svc (A : Type) : Type := ST Outbound.Log Api.ApiError A.
Definition svc_map_err {A} (m : Outbound.Send' A) : Svc A := fun log =>
  let '(r, log) := m log in (map_err Outbound.into_api_error r, log).
Definition routing_error (e : Routing.ProviderRoutingError) : Api.ApiError :=
  match e with Routing.UnsupportedModel _ => Api.BadRequest | Routing.NoEligibleRoute _ => Api.InternalServerError end.

Section service.
Context `{Crypto, SerdeJson, Outbound.Http}.
Context (net : Outbound.Network ProviderResponse) (router : Routing.ProviderRouter) (proxies : Proxy.ProxyRouter).
Context (env : Billing) (receiver : option nat).

Definition full_response (res : ProviderResponse) (p : Payer) (response_model_id : string)
    : outcome Api.ApiError (list CompletionChunk * list Effect) :=
  body ← map_err (fun _ => Api.InternalServerError) (body_bytes res);
  response_json ← ok_or Api.InternalServerError (from_str (from_utf8_lossy body));
  let response_json := canonicalize_response_model response_model_id response_json in
  let published := match extract_usage response_json with
                   | Some usage => publish_usage_event_internal env p usage []
                   | None => []
                   end in
  Ok ([FullResponse response_json; ChunkDone], published).

Definition get_chat_completion_response (user : Db.User) (body : Value) (headers : Outbound.HeaderMap)
    (context : BillingContext) (access : Models.ModelFeatureAccess) (plan : Models.ModelPlan) : Svc CompletionStream :=
  modified_body ← st_lift (match body with Object ((_ :: _) as members) => Ok members | _ => Err Api.BadRequest end);
  let streaming := default false (member "stream" modified_body ≫= as_bool) in
  requested_model_name ← st_lift (ok_or Api.BadRequest (member "model" modified_body ≫= as_str));
  _ ← st_lift (ensure_completion_model_access requested_model_name access plan);
  route ← st_lift (map_err routing_error
            (Routing.select_completion_route router proxies (Db.uuid user) requested_model_name));
  let modified_body := set_member "model" (Str (Routing.s_provider_model_id route)) modified_body in
  let name := Proxy.provider_name (Routing.proxy route) in
  let modified_body := apply_provider_managed_request_fields name (Db.uuid user) modified_body in
  let context := MkBilling (auth_method context) (Routing.s_public_model_id route) in
  let request_body_json := to_string (Object (ensure_stream_usage modified_body)) in
  res ← svc_map_err (try_provider net (Routing.proxy route) request_body_json headers);
  let p := MkPayer (Db.uuid user) context name in
  let response_model_id := Routing.response_model_id route in
  if negb streaming then
    answer ← st_lift (full_response res p response_model_id);
    st_ok (MkStream answer.1 (MkMetadata name (model_name context) false) answer.2)
  else
    let t := relay env p response_model_id receiver (body_stream res).1 (body_stream res).2 in
    st_ok (MkStream (sent t) (MkMetadata name (model_name context) true) (published t)).

(** ** The gate of [proxy_openai]

    [flags] is the answer of the feature flag service to a list of keys, if it
    came in time. *)
Context (billing : bool -> option Billing.ChatBillingAccess).
Context (flags : list string -> option (gmap string bool)).

Definition model_feature_access : Models.ModelFeatureAccess :=
  match flags OsFlags.MODEL_ACCESS_FLAG_KEYS with
  | Some values => Models.from_flag_values values
  | None => Models.MkAccess false
  end.
Definition model_feature_access_for_request (requested_model : string) : Models.ModelFeatureAccess :=
  if negb (Models.model_requires_feature_flag requested_model) then Models.MkAccess false else model_feature_access.
Definition model_alias_targets (plan : Models.ModelPlan) : Models.ModelAliasTargets :=
  if negb (Models.plan_is_paid plan) then Models.for_plan plan
  else match flags OsFlags.PAID_MODEL_ALIAS_FLAG_KEYS with
       | Some values => Models.for_plan_with_overrides plan (Models.overrides_from_flag_values values)
       | None => Models.for_plan plan
       end.

Definition is_guest (user : Db.User) : bool := bool_decide (Db.email user = None).
Definition paid_plan (access : option Billing.ChatBillingAccess) : Models.ModelPlan :=
  Models.from_is_paid (match access with Some a => Billing.is_paid a | None => false end).
Definition proxy_openai (user : Db.User) (headers : Outbound.HeaderMap) (method : AuthMethod) (body : Value)
    : Svc CompletionStream :=
  let billing_access := billing (match method with ApiKey => true | Jwt => false end) in
  let plan := paid_plan billing_access in
  if is_guest user && negb (Models.plan_is_paid plan) then st_err Api.Unauthorized
  else if (match billing_access with Some a => negb (Billing.a_can_use a) | None => false end)
  then st_err Api.UsageLimitReached
  else
    requested_model_name ← st_lift (ok_or Api.BadRequest (get "model" body ≫= as_str));
    let targets := if Models.is_auto_model_alias requested_model_name then model_alias_targets plan
                   else Models.for_plan plan in
    let name := Models.resolve targets requested_model_name in
    let body := if decide (requested_model_name = name) then body else set "model" (Str name) body in
    get_chat_completion_response user body headers (MkBilling method requested_model_name)
      (model_feature_access_for_request name) plan.
End service.

(** The events of the answer: [seal] is the n-th encryption under the session,
    which may fail. *)
Fixpoint sse_events (seal : nat -> Value -> option string) (n : nat) (chunks : list CompletionChunk) : list string :=
  match chunks with
  | [] => []
  | StreamChunk json :: chunks =>
      match seal n json with
      | Some data => data :: sse_events seal (S n) chunks
      | None => ["Error: Encryption failed"]
      end
  | ChunkUsage _ :: chunks => sse_events seal n chunks
  | ChunkDone :: _ => ["[DONE]"]
  | ChunkError msg :: _ => ["Error: " +:+ msg]
  | FullResponse _ :: _ => ["Error: Invalid event format"]
  end.
Definition proxy_response (seal : nat -> Value -> option string) (completion : CompletionStream)
    : outcome Api.ApiError (list string) :=
  if is_streaming (metadata completion) then Ok (sse_events seal 0 (stream completion))
  else match stream completion with
       | FullResponse json :: _ => data ← ok_or Api.InternalServerError (seal 0 json); Ok [data]
       | _ => Err Api.InternalServerError
       end.

(** ** A reference for the relay

    What the frames of the body say: the JSON values before the first frame that
    ends the relay, and how it ends. *)
Section reference.
Context `{SerdeJson}.
Fixpoint story (frames : list bytes) : list Value * option StreamUsageFinalization :=
  match frames with
  | [] => ([], None)
  | frame :: frames =>
      if decide (frame = as_bytes "[DONE]") then ([], Some ProviderDone)
      else match from_slice frame with
           | Some json => let '(jsons, stop) := story frames in (json :: jsons, stop)
           | None => ([], Some InvalidData)
           end
  end.
Definition finalization_of (last : BodyEnd) (stop : option StreamUsageFinalization) : StreamUsageFinalization :=
  match stop, last with
  | Some f, _ => f
  | None, BodyEnded => EndOfStream
  | None, BodyError _ => TransportError
  | None, BodyTimeout => StreamTimeout
  end.
Definition closing_chunk (last : BodyEnd) (stop : option StreamUsageFinalization) : CompletionChunk :=
  match stop, last with
  | Some InvalidData, _ => ChunkError "Invalid JSON"
  | Some _, _ | None, BodyEnded => ChunkDone
  | None, BodyError e => ChunkError e
  | None, BodyTimeout => ChunkError "Stream timeout"
  end.

(** The last value given for each count; cached tokens are part of the prompt. *)
Definition last_of (field : CompletionUsageObservation -> option Z) (jsons : list Value) : option Z :=
  last (omap (fun json => extract_usage_observation json ≫= field) jsons).
Definition latest (jsons : list Value) : CompletionUsage :=
  let prompt := default 0%Z (last_of o_prompt jsons) in
  MkUsage prompt (default 0%Z (last_of o_completion jsons)) ((fun c => Z.min c prompt) <$> last_of o_cached jsons).
(** What is billed: the latest counts, when the stream is known to be complete. *)
Definition billable (jsons : list Value) (f : StreamUsageFinalization) : option CompletionUsage :=
  let usage := latest jsons in
  if decide ((is_provider_done f || existsb has_terminal_stream_signal jsons) /\
             (0 < prompt_tokens usage \/ 0 < completion_tokens usage)%Z)
  then Some usage else None.

Definition taken {A} (receiver : option nat) (l : list A) : list A :=
  match receiver with Some n => take n l | None => l end.
(** A reader that leaves while values are still coming ends the relay at the first
    value it does not take; that value is still counted. *)
Definition counted (receiver : option nat) (jsons : list Value) (f : StreamUsageFinalization)
    : list Value * StreamUsageFinalization :=
  match receiver with
  | Some n => if n <? length jsons then (take (S n) jsons, ConsumerDropped) else (jsons, f)
  | None => (jsons, f)
  end.
Definition reference_of (env : Billing) (p : Payer) (response_model_id : string) (receiver : option nat)
    (last : BodyEnd) (jsons : list Value) (stop : option StreamUsageFinalization) : list CompletionChunk * list Effect :=
  let finish := finalization_of last stop in
  let '(values, f) := counted receiver jsons finish in
  (taken receiver
     ((StreamChunk ∘ canonicalize_response_model response_model_id <$> jsons) ++
      option_list (ChunkUsage <$> billable jsons finish) ++ [closing_chunk last stop]),
   match billable values f with Some usage => publish_usage_event_internal env p usage [] | None => [] end).
Definition reference (env : Billing) (p : Payer) (response_model_id : string) (receiver : option nat)
    (body : bytes) (last : BodyEnd) : list CompletionChunk * list Effect :=
  let '(jsons, stop) := story (Sse.frames body).1 in reference_of env p response_model_id receiver last jsons stop.
End reference.

(** ** The relay agrees with it *)
Section relay_facts.
Context `{SerdeJson}.
Context (env : Billing) (p : Payer) (response_model_id : string) (receiver : option nat).
Abbreviation on_frame := (on_frame env p response_model_id receiver).
Abbreviation drain := (drain env p response_model_id receiver).
Abbreviation relay_loop := (relay_loop env p response_model_id receiver).
Abbreviation on_end := (on_end env p receiver).

Fixpoint on_frames (fs : list bytes) (t : Task) : Flow * Task :=
  match fs with
  | [] => (Continue, t)
  | f :: fs => match on_frame f t with (Continue, t) => on_frames fs t | (Return, t) => (Return, t) end
  end.
Lemma on_frames_app fs gs t :
  on_frames (fs ++ gs) t = match on_frames fs t with (Continue, t) => on_frames gs t | (Return, t) => (Return, t) end.
Proof.
  revert t. induction fs as [|f fs IH]; intros t; [done|]. cbn [app on_frames].
  destruct (on_frame f t) as [[] t']; [apply IH|done].
Qed.
Lemma drain_frames fuel buffer t :
  (drain fuel buffer t).1.1 = (on_frames (Sse.frames_loop fuel buffer).1 t).1 /\
  (drain fuel buffer t).2 = (on_frames (Sse.frames_loop fuel buffer).1 t).2 /\
  ((drain fuel buffer t).1.1 = Continue -> (drain fuel buffer t).1.2 = (Sse.frames_loop fuel buffer).2).
Proof.
  revert buffer t. induction fuel as [|fuel IH]; intros buffer t; [done|]. cbn [Completions.drain Sse.frames_loop].
  destruct (Sse.extract_sse_frame buffer) as [[f|] rest]; [|done].
  specialize (IH rest). destruct (Sse.frames_loop fuel rest) as [fs r] eqn:Hf. cbn [fst snd on_frames] in *.
  destruct (on_frame f t) as [[] t']; [apply IH|done].
Qed.

(** Where the network cuts the body does not matter. *)
Lemma relay_loop_frames chunks last buffer t :
  Sse.frames buffer = ([], buffer) ->
  relay_loop chunks last buffer t =
    match on_frames (Sse.frames (buffer ++ concat chunks)).1 t with
    | (Continue, t) => on_end last t
    | (Return, t) => t
    end.
Proof.
  revert buffer t. induction chunks as [|b chunks IH]; intros buffer t Hb.
  { cbn [concat]. by rewrite app_nil_r, Hb. }
  cbn [Completions.relay_loop concat]. rewrite app_assoc, Sse.frames_app. unfold on_bytes.
  destruct (drain_frames (S (length (buffer ++ b))) (buffer ++ b) t) as (H1 & H2 & H3).
  fold (Sse.frames (buffer ++ b)) in *.
  destruct (drain _ (buffer ++ b) t) as [[flow rest] t']. cbn [fst snd] in *.
  destruct (Sse.frames (buffer ++ b)) as [fs r] eqn:Hf. cbn [fst snd] in *.
  destruct (Sse.frames (r ++ concat chunks)) as [gs r'] eqn:Hg. cbn [fst].
  rewrite on_frames_app. destruct (on_frames fs t) as [fl t0]. cbn [fst snd] in *. subst fl t0.
  destruct flow; [|done]. rewrite (H3 eq_refl), IH by by eapply Sse.frames_rest. by rewrite Hg.
Qed.

(** ** The accumulator *)
Lemma last_of_snoc field jsons json :
  last_of field (jsons ++ [json]) = or_previous (extract_usage_observation json ≫= field) (last_of field jsons).
Proof.
  unfold last_of. rewrite omap_app. cbn [omap list_omap].
  destruct (extract_usage_observation json ≫= field); cbn [or_previous]; [by rewrite last_snoc|by rewrite app_nil_r].
Qed.
Definition raw_latest (jsons : list Value) : option CompletionUsage :=
  match last_of o_prompt jsons, last_of o_completion jsons, last_of o_cached jsons with
  | None, None, None => None
  | prompt, completion, cached => Some (MkUsage (default 0%Z prompt) (default 0%Z completion) cached)
  end.
Definition observed (jsons : list Value) : StreamUsageAccumulator :=
  MkAccumulator (raw_latest jsons) (existsb has_terminal_stream_signal jsons) false.

Lemma observe_snoc jsons json : observe json (observed jsons) = observed (jsons ++ [json]).
Proof.
  unfold observed, raw_latest, observe. rewrite !last_of_snoc, existsb_app. cbn [existsb saw_terminal_signal latest_usage finalized].
  rewrite orb_false_r.
  destruct (extract_usage_observation json) as [[a b c]|]; cbn [mbind option_bind o_prompt o_completion o_cached]; [|done].
  unfold observation_is_empty. cbn.
  destruct a, b, c, (last_of o_prompt jsons), (last_of o_completion jsons), (last_of o_cached jsons); reflexivity.
Qed.

Lemma finalize_observed f jsons t :
  acc t = observed jsons ->
  exists a, finalize_stream_usage env p receiver f t =
    match billable jsons f with
    | Some usage => tx_send' receiver (ChunkUsage usage)
        (MkTask a (sent t) (publish_usage_event_internal env p usage (published t)))
    | None => MkTask a (sent t) (published t)
    end.
Proof.
  intros Ht. unfold finalize_stream_usage. rewrite Ht. unfold take_final_usage, observed, billable, latest.
  cbn [finalized saw_terminal_signal latest_usage orb].
  destruct (is_provider_done f || existsb has_terminal_stream_signal jsons) eqn:Hok; cbn [negb].
  2:{ rewrite decide_False by (intros [H0 _]; exact H0). by eexists. }
  unfold raw_latest.
  destruct (last_of o_prompt jsons) as [a|], (last_of o_completion jsons) as [b|], (last_of o_cached jsons) as [c|];
    cbn [default from_option id prompt_tokens completion_tokens cached_prompt_tokens fmap option_fmap option_map];
    repeat case_decide; try (by eexists); exfalso;
    match goal with H1 : ~ (_ /\ ?P), H2 : ?P |- _ => by destruct H1 | H : _ /\ _ |- _ => by destruct H | _ => lia end.
Qed.

(** ** The chunks *)
Definition chunks_of (jsons : list Value) : list CompletionChunk :=
  StreamChunk ∘ canonicalize_response_model response_model_id <$> jsons.
Definition so_far (jsons : list Value) (t : Task) : Prop :=
  acc t = observed jsons /\ sent t = chunks_of jsons /\ published t = [] /\
  match receiver with Some n => length jsons <= n | None => True end.

Lemma taken_all {A} (l : list A) : match receiver with Some n => length l <= n | None => True end -> taken receiver l = l.
Proof. unfold taken. destruct receiver; [|done]. apply take_ge. Qed.
Lemma tx_send_taken c l t :
  sent t = taken receiver l -> sent (tx_send' receiver c t) = taken receiver (l ++ [c]) /\
    acc (tx_send' receiver c t) = acc t /\ published (tx_send' receiver c t) = published t.
Proof.
  intros Ht. unfold tx_send', tx_send, receiving, taken in *. destruct receiver as [n|]; [|by cbn; rewrite Ht].
  rewrite Ht, length_take. destruct (Nat.ltb_spec (min n (length l)) n); cbn [snd sent acc published].
  - rewrite !take_ge; [done|rewrite length_app; cbn; lia|lia].
  - rewrite Ht, take_app_le by lia. done.
Qed.

(** The relay ends of itself. *)
Lemma finish_chunk jsons t f last stop :
  so_far jsons t -> finalization_of last stop = f ->
  let t' := tx_send' receiver (closing_chunk last stop) (finalize_stream_usage env p receiver f t) in
  (sent t', published t') = reference_of env p response_model_id receiver last jsons stop.
Proof.
  intros (Hacc & Hsent & Hpub & Hn) Hf. cbv zeta. unfold reference_of. rewrite Hf.
  assert (counted receiver jsons f = (jsons, f)) as ->.
  { unfold counted. destruct receiver; [|done]. by rewrite (proj2 (Nat.ltb_ge _ _)). }
  destruct (finalize_observed f jsons t Hacc) as [a ->]. fold (chunks_of jsons).
  assert (sent t = taken receiver (chunks_of jsons)) as Ht.
  { rewrite Hsent, taken_all; [done|]. unfold chunks_of. by rewrite length_fmap. }
  destruct (billable jsons f) as [u|]; cbn [fmap option_fmap option_map option_list app].
  - edestruct (tx_send_taken (ChunkUsage u) (chunks_of jsons)) as (H1 & _ & H2); [|].
    2:{ destruct (tx_send_taken (closing_chunk last stop) _ _ H1) as (-> & _ & ->). rewrite H2, <- app_assoc. cbn. by rewrite Hpub. }
    done.
  - edestruct (tx_send_taken (closing_chunk last stop) (chunks_of jsons)) as (-> & _ & ->); [done|]. cbn. by rewrite Hpub.
Qed.

Lemma on_frames_story fs jsons t last :
  so_far jsons t ->
  let t' := match on_frames fs t with (Continue, t) => on_end last t | (Return, t) => t end in
  (sent t', published t') =
    reference_of env p response_model_id receiver last (jsons ++ (story fs).1) (story fs).2.
Proof.
  revert jsons t. induction fs as [|f fs IH]; intros jsons t Ht; cbv zeta.
  { cbn [on_frames story fst snd]. rewrite app_nil_r.
    destruct last; cbn [Completions.on_end]; [apply (finish_chunk _ _ EndOfStream BodyEnded None)|
      apply (finish_chunk _ _ TransportError (BodyError e) None)|apply (finish_chunk _ _ StreamTimeout BodyTimeout None)]; done. }
  cbn [on_frames story]. unfold Completions.on_frame. case_decide as Hd.
  { cbn [fst snd]. rewrite app_nil_r. by apply (finish_chunk _ _ ProviderDone last (Some ProviderDone)). }
  destruct (from_slice f) as [json|].
  2:{ cbn [fst snd]. rewrite app_nil_r. by apply (finish_chunk _ _ InvalidData last (Some InvalidData)). }
  destruct (story fs) as [rest stop] eqn:Hstory. cbn [fst snd] in *.
  destruct Ht as (Hacc & Hsent & Hpub & Hn). rewrite Hacc, observe_snoc.
  unfold tx_send, receiving. cbn [sent].
  destruct (match receiver with Some n => length (sent t) <? n | None => true end) eqn:Hr.
  - cbn [acc sent published].
    replace (jsons ++ json :: rest) with ((jsons ++ [json]) ++ rest) by (by rewrite <- app_assoc). apply IH. split_and!; cbn; [done| |done|].
    + unfold chunks_of. by rewrite fmap_app, Hsent.
    + destruct receiver; [|done]. apply Nat.ltb_lt in Hr. rewrite Hsent in Hr. unfold chunks_of in Hr.
      rewrite length_fmap in Hr. rewrite length_app. cbn. lia.
  - destruct receiver as [n|] eqn:Hrec; [|done]. apply Nat.ltb_ge in Hr. rewrite Hsent in Hr. unfold chunks_of in Hr.
    rewrite length_fmap in Hr. assert (n = length jsons) as -> by lia.
    edestruct (finalize_observed ConsumerDropped (jsons ++ [json])) as [a Hfin]; [|rewrite <- Hrec, Hfin, Hrec]; [done|].
    unfold reference_of, counted. rewrite (proj2 (Nat.ltb_lt _ _)) by (rewrite length_app; cbn; lia).
    replace (jsons ++ json :: rest) with ((jsons ++ [json]) ++ rest) by by rewrite <- app_assoc.
    rewrite (take_app_length' (jsons ++ [json])) by (rewrite length_app; cbn; lia).
    assert (forall l, taken (Some (length jsons)) ((StreamChunk ∘ canonicalize_response_model response_model_id <$> (jsons ++ [json]) ++ rest) ++ l) = chunks_of jsons) as ->.
    { intros l. cbn [taken]. rewrite !fmap_app, <- !app_assoc. apply (take_app_length' (chunks_of jsons)). unfold chunks_of. by rewrite length_fmap. }
    destruct (billable (jsons ++ [json]) ConsumerDropped) as [u|]; cbn [sent published]; [|by rewrite Hsent, Hpub].
    unfold tx_send', tx_send, receiving. cbn [sent]. rewrite Hsent. unfold chunks_of. rewrite length_fmap, Nat.ltb_irrefl.
    cbn. by rewrite Hpub.
Qed.
Lemma relay_exact chunks last :
  let t := relay env p response_model_id receiver chunks last in
  (sent t, published t) = reference env p response_model_id receiver (concat chunks) last.
Proof.
  cbv zeta. unfold relay, reference. rewrite relay_loop_frames by reflexivity. cbn [app].
  destruct (story (Sse.frames (concat chunks)).1) as [jsons stop] eqn:Hs.
  assert (so_far [] (MkTask accumulator_default [] [])) as H0 by (split_and!; try done; by destruct receiver; [apply Nat.le_0_l|]).
  pose proof (on_frames_story (Sse.frames (concat chunks)).1 [] _ last H0) as H1. cbv zeta in H1. rewrite H1, Hs. done.
Qed.
End relay_facts.

(** ** What a provider writes and what is read *)
Section delivery.
Context `{SerdeJson}.

(** An event of a provider: its text and the value it denotes. *)
Definition wire_event (e : bytes * Value) : Prop :=
  Sse.one_line e.1 /\ e.1 <> as_bytes "[DONE]" /\ from_slice e.1 = Some e.2.
Definition wire (events : list (bytes * Value)) (rest : bytes) : bytes :=
  foldr (fun e b => Sse.event e.1 ++ b) rest events.

Lemma story_wire (events : list (bytes * Value)) rest :
  Forall wire_event events ->
  story (Sse.frames (wire events rest)).1 =
    ((events.*2 ++ (story (Sse.frames rest).1).1), (story (Sse.frames rest).1).2).
Proof.
  induction 1 as [|[text json] events (Hline & Hdone & Hjson) _ IH]; cbn [wire foldr fmap list_fmap app].
  { by destruct (story (Sse.frames rest).1). }
  fold (wire events rest). rewrite Sse.frames_event by done. cbn [fst story]. rewrite decide_False by done.
  cbn in Hjson. rewrite Hjson, IH. done.
Qed.

Lemma one_line_done : Sse.one_line (as_bytes "[DONE]").
Proof. split_and!; [done| |done]. apply (bool_decide_unpack (~ Sse.LF ∈ as_bytes "[DONE]")). vm_compute. exact I. Qed.
Lemma clamp_tokens_bounds z : (0 <= clamp_tokens z <= i32_max)%Z.
Proof. unfold clamp_tokens, i32_max. lia. Qed.
Lemma observation_bounds json o :
  extract_usage_observation json = Some o ->
  forall z, o_prompt o = Some z \/ o_completion o = Some z \/ o_cached o = Some z -> (0 <= z <= i32_max)%Z.
Proof.
  unfold extract_usage_observation. destruct (get "usage" json ≫= as_object) as [usage|]; [|done].
  cbn [mbind option_bind]. intros [= <-] z. cbn [o_prompt o_completion o_cached].
  intros [Hz|[Hz|Hz]]; apply fmap_Some in Hz as (? & _ & ->); apply clamp_tokens_bounds.
Qed.
Lemma last_of_bounds field jsons z :
  (forall o z, field o = Some z -> o_prompt o = Some z \/ o_completion o = Some z \/ o_cached o = Some z) ->
  last_of field jsons = Some z -> (0 <= z <= i32_max)%Z.
Proof.
  intros Hf Hz. apply last_Some_elem_of in Hz. apply list_elem_of_omap in Hz as (json & _ & Hz).
  apply bind_Some in Hz as (o & Ho & Hz). by eapply observation_bounds; [|apply Hf].
Qed.
Lemma latest_bounds jsons :
  (0 <= prompt_tokens (latest jsons) <= i32_max)%Z /\ (0 <= completion_tokens (latest jsons) <= i32_max)%Z /\
  (forall c, cached_prompt_tokens (latest jsons) = Some c -> 0 <= c <= prompt_tokens (latest jsons))%Z.
Proof.
  assert (forall field, (forall o z, field o = Some z -> o_prompt o = Some z \/ o_completion o = Some z \/ o_cached o = Some z) ->
    0 <= default 0 (last_of field jsons) <= i32_max)%Z as Hd.
  { intros field Hf. destruct (last_of field jsons) as [z|] eqn:Hz; cbn; [by eapply last_of_bounds|unfold i32_max; lia]. }
  cbn. split_and!; [apply Hd; auto..|]. intros c (c0 & Hc & ->)%fmap_Some.
  assert (0 <= c0 <= i32_max)%Z by (eapply last_of_bounds; [|done]; auto).
  assert (0 <= default 0 (last_of o_prompt jsons) <= i32_max)%Z by (apply Hd; auto). cbn in *. lia.
Qed.

(** C5. The relay of a provider's stream depends on the bytes of the body only,
    not on where the network cut them, and is what the reference reading says of
    them: for every body, well formed or not, every way it can end and every
    moment at which the reader may leave, the reader gets the values in order with
    the public model name, then the usage if it is billed, then one closing chunk;
    and the usage is published at most once, with the last value given for each
    count, exactly when the provider said it was done or gave a terminal signal. *)
Theorem relay_is_reference (env : Billing) (p : Payer) (response_model_id : string) (receiver : option nat)
    (chunks : list bytes) (last : BodyEnd) :
  let t := relay env p response_model_id receiver chunks last in
  (sent t, published t) = reference env p response_model_id receiver (concat chunks) last.
Proof. apply relay_exact. Qed.

(** A provider that writes its values as events on one line and ends with
    [[DONE]] has them relayed exactly, wherever the network cuts the bytes and
    whatever comes after: the reader gets every value, the usage if any and the end
    of the stream, and the tokens billed are the last counts the provider gave,
    non-negative machine integers with no more cached tokens than prompt tokens. *)
Theorem complete_stream_delivered (env : Billing) (p : Payer) (response_model_id : string)
    (events : list (bytes * Value)) (rest : bytes) (chunks : list bytes) (last : BodyEnd) :
  Forall wire_event events ->
  concat chunks = wire events (Sse.event (as_bytes "[DONE]") ++ rest) ->
  let t := relay env p response_model_id None chunks last in
  let usage := latest events.*2 in
  (0 <= prompt_tokens usage <= i32_max)%Z /\ (0 <= completion_tokens usage <= i32_max)%Z /\
  (forall c, cached_prompt_tokens usage = Some c -> 0 <= c <= prompt_tokens usage)%Z /\
  if decide (prompt_tokens usage = 0 /\ completion_tokens usage = 0)%Z
  then sent t = (StreamChunk ∘ canonicalize_response_model response_model_id <$> events.*2) ++ [ChunkDone] /\
       published t = []
  else sent t = (StreamChunk ∘ canonicalize_response_model response_model_id <$> events.*2) ++
         [ChunkUsage usage; ChunkDone] /\
       published t = publish_usage_event_internal env p usage [].
Proof.
  intros Hev Hbytes t usage. destruct (latest_bounds events.*2) as (H1 & H2 & H3).
  split; [done|]. split; [done|]. split; [done|].
  pose proof (relay_exact env p response_model_id None chunks last) as Ht. cbv zeta in Ht. fold t in Ht.
  unfold reference in Ht. rewrite Hbytes, story_wire, Sse.frames_event in Ht by (done || apply one_line_done).
  cbn [fst snd story] in Ht. rewrite decide_True, app_nil_r in Ht by done.
  unfold reference_of, finalization_of, counted, taken, closing_chunk, billable in Ht. fold usage in Ht, H1, H2, H3. clearbody usage.
  cbn [is_provider_done orb] in Ht. injection Ht as -> ->.
  destruct (decide (prompt_tokens usage = 0 /\ completion_tokens usage = 0)%Z) as [Hz|Hz].
  - rewrite !decide_False by (intros [_ ?]; lia). done.
  - rewrite !decide_True by (split; [done|lia]). done.
Qed.
End delivery.

(** ** Who may have a request sent, and what it says *)
Section entitlement.
Context `{Crypto, SerdeJson, Outbound.Http}.
Context (net : Outbound.Network ProviderResponse) (router : Routing.ProviderRouter) (proxies : Proxy.ProxyRouter).
Context (env : Billing) (receiver : option nat).
Context (billing : bool -> option Billing.ChatBillingAccess) (flags : list string -> option (gmap string bool)).

(** The member [k] of the request to the provider, given the caller's. *)
Definition provider_member (user_uuid : Uuid) (route : Routing.SelectedProviderRoute) (members : list (string * Value))
    (k : string) : option Value :=
  if decide (k = "model") then Some (Str (Routing.s_provider_model_id route))
  else if decide (k = CACHE_SALT) then None
  else if decide (k = USER_CACHE_SECRET) then
    if decide (Proxy.provider_name (Routing.proxy route) = "tinfoil")
    then Some (Str (Accounts.hex (sha256 user_uuid))) else None
  else if decide (k = "stream_options" /\ (member "stream" members ≫= as_bool) = Some true) then
    Some (Object (set_member "include_usage" (Bool true)
      (default [] (member "stream_options" members ≫= as_object))))
  else member k members.

Lemma member_request user_uuid route members k :
  NoDup members.*1 ->
  member k (ensure_stream_usage (apply_provider_managed_request_fields (Proxy.provider_name (Routing.proxy route)) user_uuid
    (set_member "model" (Str (Routing.s_provider_model_id route)) members))) =
  provider_member user_uuid route members k.
Proof.
  intros Hnd. set (m0 := set_member "model" _ members).
  assert (NoDup m0.*1) as Hnd0 by by apply set_member_NoDup.
  assert (forall k, member k m0 = if decide (k = "model") then Some (Str (Routing.s_provider_model_id route)) else member k members) as Hm0.
  { intros k0. unfold m0. case_decide; [subst; apply member_set_eq|by apply member_set_ne]. }
  set (m2 := del_member USER_CACHE_SECRET (del_member CACHE_SALT m0)).
  assert (forall k, member k m2 = if decide (k = CACHE_SALT) then None else if decide (k = USER_CACHE_SECRET) then None else member k m0) as Hm2.
  { intros k0. unfold m2. destruct (decide (k0 = USER_CACHE_SECRET)) as [->|Hne].
    - rewrite member_del_eq by by apply del_member_NoDup. by case_decide.
    - rewrite member_del_ne by done. case_decide; [subst; by apply member_del_eq|by apply member_del_ne]. }
  set (m3 := apply_provider_managed_request_fields _ user_uuid m0).
  assert (forall k, member k m3 = if decide (k = USER_CACHE_SECRET) then
      if decide (Proxy.provider_name (Routing.proxy route) = "tinfoil") then Some (Str (Accounts.hex (sha256 user_uuid))) else None
    else member k m2) as Hm3.
  { intros k0. unfold m3, apply_provider_managed_request_fields. fold m2. change (Routing.as_str Routing.Tinfoil) with "tinfoil".
    destruct (decide (Proxy.provider_name (Routing.proxy route) = "tinfoil")); case_decide; subst;
      [apply member_set_eq|by apply member_set_ne|by rewrite Hm2|done]. }
  assert (forall k, member k m3 = if decide (k = "model") then Some (Str (Routing.s_provider_model_id route))
    else if decide (k = CACHE_SALT) then None
    else if decide (k = USER_CACHE_SECRET) then
      if decide (Proxy.provider_name (Routing.proxy route) = "tinfoil") then Some (Str (Accounts.hex (sha256 user_uuid))) else None
    else member k members) as Hall.
  { intros k0. rewrite Hm3, Hm2, Hm0. unfold CACHE_SALT, USER_CACHE_SECRET. by repeat case_decide; subst. }
  clearbody m3. unfold ensure_stream_usage. rewrite (Hall "stream"), (Hall "stream_options").
  repeat rewrite (decide_False (P := _ = _)) by done. unfold provider_member.
  assert (forall k, k = "stream_options" -> k <> "model" /\ k <> CACHE_SALT /\ k <> USER_CACHE_SECRET) as Hso by by intros k0 ->.
  destruct (member "stream" members ≫= as_bool) as [[]|] eqn:Hstream; cbn [default from_option id negb].
  - destruct (decide (k = "stream_options")) as [->|Hne].
    + rewrite member_set_eq. repeat rewrite (decide_False (P := _ = _)) by done. rewrite decide_True by done.
      by destruct (member "stream_options" members) as [[]|].
    + rewrite member_set_ne, Hall by done. by rewrite (decide_False (P := k = "stream_options" /\ _)) by naive_solver.
  - rewrite Hall. by rewrite (decide_False (P := k = "stream_options" /\ _)) by naive_solver.
  - rewrite Hall. by rewrite (decide_False (P := k = "stream_options" /\ _)) by naive_solver.
Qed.

(** What entitles a request for [name] to be sent. *)
Definition entitled (user : Db.User) (method : AuthMethod) (name : string) : Prop :=
  let access := billing (match method with ApiKey => true | Jwt => false end) in
  (Db.email user = None -> exists a, access = Some a /\ Billing.a_is_free a = false) /\
  (forall a, access = Some a -> Billing.a_can_use a = true) /\
  Models.allows_model (model_feature_access_for_request flags name) name = true /\
  Models.plan_allows_model (paid_plan access) name = true.

Definition answered (m : Svc CompletionStream) (log log' : Outbound.Log) : Prop := exists r, m log = (r, log').

Lemma get_completion_log user members headers context access plan log log' :
  NoDup members.*1 ->
  answered (get_chat_completion_response net router proxies env receiver user (Object members) headers context access plan) log log' ->
  log' = log \/
  exists name route sent, member "model" members = Some (Str name) /\ log' = log ++ sent /\
    Models.allows_model access name = true /\ Models.plan_allows_model plan name = true /\
    Routing.select_completion_route router proxies (Db.uuid user) name = Ok route /\
    Forall (fun '(_, w) => exists fields, Outbound.w_body w = Some (as_bytes (to_string (Object fields))) /\
      forall k, member k fields = provider_member (Db.uuid user) route members k) sent.
Proof.
  intros Hnd [r Hr]. revert Hr. unfold get_chat_completion_response, mbind, ST_bind, st_lift.
  destruct members as [|m0 members0] eqn:Hm; [by intros [= _ <-]; left|]. rewrite <- Hm in *. clear Hm m0 members0.
  destruct (member "model" members) as [v|] eqn:Hmodel; [|by intros [= _ <-]; left].
  destruct v as [| | |name| |]; try (by intros [= _ <-]; left). cbn [mbind option_bind as_str ok_or].
  unfold ensure_completion_model_access.
  destruct (Models.allows_model access name) eqn:Ha; [|by intros [= _ <-]; left].
  destruct (Models.plan_allows_model plan name) eqn:Hp; [|by intros [= _ <-]; left]. cbn [negb].
  destruct (Routing.select_completion_route router proxies (Db.uuid user) name) as [route|e|] eqn:Hroute;
    cbn [map_err]; [|by intros [= _ <-]; left..].
  set (fields := ensure_stream_usage _). unfold svc_map_err, try_provider, mbind, ST_bind.
  destruct (Outbound.send net (Routing.proxy route) (completion_request (to_string (Object fields)) headers) log) as [o log1] eqn:Hsend.
  apply Outbound.send_handed in Hsend as (sent & -> & Hsent%Outbound.handed_bodies).
  assert (log' = log ++ sent -> log' = log \/
    exists name' route' sent', Some (Str name) = Some (Str name') /\ log' = log ++ sent' /\
    Models.allows_model access name' = true /\ Models.plan_allows_model plan name' = true /\
    Routing.select_completion_route router proxies (Db.uuid user) name' = Ok route' /\
    Forall (fun '(_, w) => exists fields, Outbound.w_body w = Some (as_bytes (to_string (Object fields))) /\
      forall k, member k fields = provider_member (Db.uuid user) route' members k) sent') as Hdone.
  { intros ->. right. exists name, route, sent. split_and!; try done.
    eapply Forall_impl; [exact Hsent|]. intros [c w] Hw. exists fields. split; [exact Hw|].
    intros k. by apply member_request. }
  intros Hr. apply Hdone. revert Hr.
  destruct o as [res|e|]; cbn [map_err]; [|by intros [= _ <-]..].
  destruct (is_success res); cbn; [|by intros [= _ <-]].
  destruct (negb _); cbn; [|by intros [= _ <-]].
  by destruct (full_response _ _ _ _) as [?|?|]; intros [= _ <-].
Qed.

Lemma provider_member_model user_uuid route v members k :
  provider_member user_uuid route (set_member "model" v members) k = provider_member user_uuid route members k.
Proof.
  unfold provider_member. rewrite !(member_set_ne _ "model") by done. case_decide; [done|].
  by rewrite member_set_ne.
Qed.

(** C4. [proxy_openai] lets no chat completion request reach a provider unless the
    account is entitled to it: a guest needs a paid plan, a known exhausted quota refuses everyone, and
    the model must be open to the account's flags and plan.  What it then sends is
    the caller's object with the provider's model name, and the cache fields under
    the backend's control: no [cache_salt], and a [user_cache_secret] only for
    Tinfoil, where it is the hash of the user's identifier and never the caller's.
    A stream asks for its usage; every other member is the caller's. *)
Theorem requests_are_entitled (user : Db.User) (headers : Outbound.HeaderMap) (method : AuthMethod)
    (members : list (string * Value)) (log log' : Outbound.Log) (r : outcome Api.ApiError CompletionStream) :
  NoDup members.*1 ->
  proxy_openai net router proxies env receiver billing flags user headers method (Object members) log = (r, log') ->
  log' = log \/
  exists requested name route sent,
    member "model" members = Some (Str requested) /\
    name = Models.resolve (if Models.is_auto_model_alias requested
                           then model_alias_targets flags (paid_plan (billing (match method with ApiKey => true | Jwt => false end)))
                           else Models.for_plan (paid_plan (billing (match method with ApiKey => true | Jwt => false end))))
             requested /\
    log' = log ++ sent /\ entitled user method name /\
    Routing.select_completion_route router proxies (Db.uuid user) name = Ok route /\
    Forall (fun '(_, w) => exists fields, Outbound.w_body w = Some (as_bytes (to_string (Object fields))) /\
      forall k, member k fields = provider_member (Db.uuid user) route members k) sent.
Proof.
  intros Hnd. unfold proxy_openai, entitled. set (access := billing _).
  destruct (is_guest user && negb (Models.plan_is_paid (paid_plan access))) eqn:Hguest; [by intros [= _ <-]; left|].
  destruct (match access with Some a => negb (Billing.a_can_use a) | None => false end) eqn:Hquota; [by intros [= _ <-]; left|].
  unfold mbind at 1, ST_bind, st_lift. cbn [get].
  destruct (member "model" members) as [[| | |requested| |]|] eqn:Hmodel; try (by intros [= _ <-]; left).
  cbn [mbind option_bind as_str ok_or]. set (name := Models.resolve _ requested). intros Hr.
  assert (exists members', (if decide (requested = name) then Object members else set "model" (Str name) (Object members)) = Object members' /\
    NoDup members'.*1 /\ member "model" members' = Some (Str name) /\
    forall route k, provider_member (Db.uuid user) route members' k = provider_member (Db.uuid user) route members k) as (members' & Hbody & Hnd' & Hname & Hmem).
  { case_decide as Heq.
    - exists members. rewrite <- Heq. by split_and!.
    - exists (set_member "model" (Str name) members). split_and!; [done|by apply set_member_NoDup|apply member_set_eq|].
      intros. apply provider_member_model. }
  rewrite Hbody in Hr. apply (fun H => get_completion_log _ _ _ _ _ _ _ _ Hnd' (ex_intro _ r H)) in Hr
    as [->|(name' & route & sent & Hn & -> & Ha & Hp & Hroute & Hsent)]; [by left|]. right.
  rewrite Hname in Hn. injection Hn as <-.
  exists requested, name, route, sent. split_and!; try done.
  - intros Hemail. unfold is_guest in Hguest. rewrite bool_decide_true in Hguest by done. cbn [andb] in Hguest.
    destruct access as [a|]; [|done]. exists a. split; [done|]. unfold paid_plan, Billing.is_paid in Hguest.
    by destruct (Billing.a_is_free a).
  - intros a Ha'. rewrite Ha' in Hquota. by destruct (Billing.a_can_use a).
  - eapply Forall_impl; [exact Hsent|]. intros [c w] (fields & Hw & Hf). exists fields. split; [done|].
    intros k. by rewrite Hf.
Qed.
End entitlement.

(** ** A stream of two values, cut inside the first event *)
#[local] Existing Instances ToyCrypto.toy Outbound.toy_http Outbound.toy_http_laws.
Definition demo_delta : Value :=
  Object [("model", Str "provider-model"); ("choices", Array [Object [("delta", Object [("content", Str "hi")])]]);
          ("usage", Object [("prompt_tokens", int 7); ("completion_tokens", int 1)])].
Definition demo_last : Value :=
  Object [("model", Str "provider-model"); ("choices", Array []);
          ("usage", Object [("completion_tokens", int 3);
                            ("prompt_tokens_details", Object [("cached_tokens", int 9)])])].
#[local] Instance demo_serde : SerdeJson := {|
  from_str s := if decide (s = "{1}") then Some demo_delta else if decide (s = "{2}") then Some demo_last else None;
  to_string _ := "{}" |}.
Definition demo_events : list (bytes * Value) := [(as_bytes "{1}", demo_delta); (as_bytes "{2}", demo_last)].
Definition demo_bytes : bytes := wire demo_events (Sse.event (as_bytes "[DONE]") ++ as_bytes "junk").
Definition demo_billing : Billing := MkBillingEnv true (fun _ => []) (fun _ => 0%Z).
Definition demo_payer : Payer := MkPayer [] (MkBilling ApiKey "m") "tinfoil".

Example demo_usage : latest demo_events.*2 = MkUsage 7 3 (Some 7%Z).
Proof. reflexivity. Qed.
Example demo_event_cost : total_cost (latest demo_events.*2) = MkDecimal 530 7.
Proof. reflexivity. Qed.

Lemma demo_wire : Forall wire_event demo_events.
Proof.
  repeat constructor; try (intros ?; discriminate); cbn; try done.
  all: by apply (bool_decide_unpack (~ Sse.LF ∈ _)).
Qed.
Lemma complete_stream_delivered_witness :
  published (relay demo_billing demo_payer "public" None [take 9 demo_bytes; drop 9 demo_bytes] BodyTimeout) =
    publish_usage_event_internal demo_billing demo_payer (latest demo_events.*2) [].
Proof.
  pose proof (complete_stream_delivered demo_billing demo_payer "public" demo_events (as_bytes "junk")
    [take 9 demo_bytes; drop 9 demo_bytes] BodyTimeout demo_wire ltac:(vm_compute; reflexivity)) as (_ & _ & _ & H).
  rewrite decide_False in H by (rewrite demo_usage; intros []; discriminate). exact (proj2 H).
Defined.

(** A paid account asks for the powerful alias with cache fields of its own. *)
Definition demo_user : Db.User := Db.MkUser 1 (replicate 16 Byte.x07) None None None 0 0 1.
Definition demo_members : list (string * Value) :=
  [("model", Str "auto:powerful"); ("cache_salt", Str "mine"); ("user_cache_secret", Str "theirs"); ("stream", Bool true)].
Definition demo_network : Outbound.Network ProviderResponse :=
  Outbound.MkNetwork ProviderResponse (Some (Outbound.MkClient 0 "enclave.example" "key")) (fun _ => Ok tt)
    (fun _ _ _ => Outbound.ConnectError "unused") (fun _ => Err Outbound.TinfoilUnavailable) (fun _ => false)
    (fun _ => Ok (MkResponse 200 (Ok []) ([demo_bytes], BodyEnded))).
Definition demo_proxies : Proxy.ProxyRouter :=
  Proxy.MkRouter (Proxy.MkProxy "https://continuum.example" None "continuum") (Proxy.MkProxy "https://tinfoil.example" None "tinfoil").
Definition demo_run : outcome Api.ApiError CompletionStream * Outbound.Log :=
  proxy_openai demo_network Routing.DEFAULT_PROVIDER_ROUTING_CONFIG demo_proxies demo_billing None
    (fun _ => Some (Billing.MkAccess true false)) (fun _ => None) demo_user [] Jwt (Object demo_members) [].

Example demo_relayed :
  match demo_run.1 with
  | Ok s => proxy_response (fun _ _ => Some "sealed") s = Ok ["sealed"; "sealed"; "[DONE]"] /\ length (effects s) = 2
  | _ => False
  end.
Proof. vm_compute. by split. Qed.

Lemma requests_are_entitled_witness :
  exists name, entitled (fun _ => Some (Billing.MkAccess true false)) (fun _ => None) demo_user Jwt name.
Proof.
  assert (NoDup demo_members.*1) as Hnd by by apply (bool_decide_unpack (NoDup demo_members.*1)).
  destruct (requests_are_entitled demo_network Routing.DEFAULT_PROVIDER_ROUTING_CONFIG demo_proxies demo_billing None
    (fun _ => Some (Billing.MkAccess true false)) (fun _ => None) demo_user [] Jwt demo_members [] demo_run.2 demo_run.1 Hnd)
    as [Hl|(requested & name & route & sent & _ & _ & _ & He & _)].
  - unfold demo_run. by destruct (proxy_openai _ _ _ _ _ _ _ _ _ _ _ _).
  - exfalso. vm_compute in Hl. discriminate Hl.
  - exists name. exact He.
Defined.
End Completions.
