(* ===== verification/Audio.v ===== *)
(** * Splitting audio and merging transcriptions

    [src/src/web/audio_utils.rs]: a WAV file that is too large for a provider is
    cut into overlapping files, and the transcriptions of the parts are merged.
    Positions and sizes are [usize]; the log lines are left out. *)

From stdpp Require Import pretty.
From Stdlib Require Import Floats.SpecFloat.
From S2P Require Import Prelude Text Json.

Module Audio.

Definition MAX_CHUNK_SIZE : Z := 20 * 1024 * 1024.
Definition CHUNK_OVERLAP_SECONDS : Z := 1.
Definition MIN_WAV_HEADER_SIZE : Z := 44.
Definition TINFOIL_MAX_SIZE : Z := 512 * 1024.

(** A time is the quotient that the code rounds to [f64]. *)
Record Seconds := MkSeconds { bytes_before : Z; per_second : Z }.
Definition zero_seconds : Seconds := MkSeconds 0 1.
Record AudioChunk := MkChunk { data : bytes; start_time : Seconds; end_time : Seconds; index : Z }.
(** [overlap_seconds] is a whole number: the only constructor sets it to one. *)
Record AudioSplitter := MkSplitter { max_chunk_size : Z; overlap_seconds : Z }.
Definition splitter_new : AudioSplitter := MkSplitter MAX_CHUNK_SIZE CHUNK_OVERLAP_SECONDS.

(** ** Bytes *)
Definition len (b : bytes) : Z := Z.of_nat (length b).
Definition slice (from to : Z) (b : bytes) : bytes := take (Z.to_nat (to - from)) (drop (Z.to_nat from) b).
(** [from_le_bytes] and [to_le_bytes]. *)
Definition le_value (b : bytes) : Z := be_value (reverse b).
Definition le_bytes (n : nat) (v : Z) : bytes := reverse (be_bytes n v).
Definition tag (from : Z) (b : bytes) : bytes := slice from (from + 4) b.
Definition u32_at (from : Z) (b : bytes) : Z := le_value (slice from (from + 4) b).
Definition u16_at (from : Z) (b : bytes) : Z := le_value (slice from (from + 2) b).

(** ** The header *)
Record Found := MkFound { data_start : Z; data_size : Z; fmt_pos : Z; fmt_size : Z }.
Definition nothing_found : Found := MkFound 0 0 0 0.
Definition note_chunk (id : bytes) (pos size : Z) (s : Found) : Found :=
  if decide (id = as_bytes "fmt ") then MkFound (data_start s) (data_size s) (pos + 8) size
  else if decide (id = as_bytes "data") then MkFound (pos + 8) size (fmt_pos s) (fmt_size s)
  else s.
(** The position after a chunk, if the file goes on there. *)
Definition next_chunk (length_ pos chunk_size : Z) : outcome string (option Z) :=
  p ← ok_or "Invalid WAV file: position overflow" (usize_checked_add pos 8);
  next_pos ← ok_or "Invalid WAV file: chunk size would cause overflow" (usize_checked_add p chunk_size);
  if decide (length_ < next_pos)%Z then Ok None
  else if decide (chunk_size mod 2 = 1)%Z then
    pos ← ok_or "Invalid WAV file: position overflow with padding" (usize_checked_add next_pos 1);
    Ok (Some pos)
  else Ok (Some next_pos).
(** The loop over the chunks; every round moves [pos] by eight or more. *)
Fixpoint find_chunks (fuel : nat) (audio : bytes) (pos : Z) (s : Found) : outcome string Found :=
  match fuel with
  | 0 => Ok s
  | S fuel =>
      if decide (pos + 8 <= len audio)%Z then
        let chunk_size := u32_at (pos + 4) audio in
        let s := note_chunk (tag pos audio) pos chunk_size s in
        if decide (fmt_pos s <> 0 /\ data_start s <> 0)%Z then Ok s
        else
          next ← next_chunk (len audio) pos chunk_size;
          match next with Some pos => find_chunks fuel audio pos s | None => Ok s end
      else Ok s
  end.

(** What [split_wav] reads before it cuts. *)
Record Wav := MkWav { header : bytes; audio_samples : bytes; bytes_per_second : Z; block_align : Z }.
Definition guard_err (b : bool) (e : string) : outcome string unit := if b then Ok tt else Err e.
Definition read_wav (audio : bytes) : outcome string Wav :=
  _ ← guard_err (bool_decide (MIN_WAV_HEADER_SIZE <= len audio)%Z)
        ("Invalid WAV file: too small (minimum " +:+ pretty MIN_WAV_HEADER_SIZE +:+ " bytes required)");
  _ ← guard_err (bool_decide (tag 0 audio = as_bytes "RIFF" /\ tag 8 audio = as_bytes "WAVE")) "Not a valid WAV file";
  s ← find_chunks (length audio) audio 12 nothing_found;
  _ ← guard_err (bool_decide (fmt_pos s <> 0%Z)) "WAV file has no fmt chunk";
  _ ← guard_err (bool_decide (data_start s <> 0%Z)) "WAV file has no data chunk";
  _ ← guard_err (bool_decide (16 <= fmt_size s)%Z) "WAV fmt chunk too small";
  _ ← guard_err (bool_decide (fmt_pos s + fmt_size s <= len audio)%Z) "WAV fmt chunk exceeds file length";
  _ ← guard_err (bool_decide (data_start s + data_size s <= len audio)%Z) "WAV file data chunk exceeds file length";
  _ ← guard_err (bool_decide (8 <= data_start s)%Z) "Invalid WAV file: data chunk offset too small";
  let header := slice 0 (data_start s - 8) audio in
  let audio_samples := slice (data_start s) (data_start s + data_size s) audio in
  let bytes_per_second := u32_at (fmt_pos s + 8) audio in
  let block_align := u16_at (fmt_pos s + 12) audio in
  _ ← guard_err (bool_decide (block_align <> 0%Z)) "Invalid WAV file: block_align is zero";
  _ ← guard_err (bool_decide (bytes_per_second <> 0%Z)) "Invalid WAV file: bytes_per_second is zero";
  Ok (MkWav header audio_samples bytes_per_second block_align).

(** ** Cutting *)
(** The new file: the header up to the data chunk, the sizes corrected. *)
Definition create_wav_from_samples (original_header samples : bytes) : outcome string bytes :=
  let wav := original_header ++ as_bytes "data" ++ le_bytes 4 (len samples mod 2 ^ 32) ++ samples in
  if decide (len wav < 8)%Z then Panic
  else Ok (slice 0 4 wav ++ le_bytes 4 ((len wav - 8) mod 2 ^ 32) ++ drop 8 wav).

Record Plan := MkPlan { chunk_duration_bytes : Z; overlap_bytes : Z }.
Definition plan_chunks (self : AudioSplitter) (w : Wav) : outcome string Plan :=
  let header_overhead := (len (header w) + 8)%Z in
  available ← (if decide (header_overhead <= max_chunk_size self)%Z then Ok (max_chunk_size self - header_overhead)%Z
    else Err ("WAV file header too large for chunking: " +:+ pretty header_overhead +:+ " bytes (max chunk size: " +:+
      pretty (max_chunk_size self) +:+ " bytes)"));
  let chunk_duration_bytes := (available / block_align w * block_align w)%Z in
  _ ← guard_err (bool_decide (block_align w <= chunk_duration_bytes)%Z)
        "Computed chunk size is smaller than one audio frame; increase max_chunk_size";
  let overlap_bytes := (overlap_seconds self * bytes_per_second w / block_align w * block_align w)%Z in
  Ok (MkPlan chunk_duration_bytes (if decide (chunk_duration_bytes <= overlap_bytes)%Z then 0%Z else overlap_bytes)).

Section cut.
Context (p : Plan) (w : Wav).
Definition window_start (offset index : Z) : Z :=
  if decide (0 < index /\ overlap_bytes p <= offset)%Z then (offset - overlap_bytes p)%Z else offset.
Definition window_end (start : Z) : Z := Z.min (Z.min (start + chunk_duration_bytes p) usize_max) (len (audio_samples w)).
(** The loop; every round moves [offset] forward. *)
Fixpoint cut (fuel : nat) (offset index : Z) : outcome string (list AudioChunk) :=
  match fuel with
  | 0 => Ok []
  | S fuel =>
      if decide (offset < len (audio_samples w))%Z then
        let start := window_start offset index in
        let stop := window_end start in
        _ ← guard_err (bool_decide (offset < stop)%Z) "Split produced a non-progressing window; check max_chunk_size/overlap";
        chunk_wav ← create_wav_from_samples (header w) (slice start stop (audio_samples w));
        rest ← cut fuel stop (index + 1);
        Ok (MkChunk chunk_wav (MkSeconds start (bytes_per_second w)) (MkSeconds stop (bytes_per_second w)) index :: rest)
      else Ok []
  end.
End cut.
Definition split_wav (self : AudioSplitter) (audio : bytes) : outcome string (list AudioChunk) :=
  w ← read_wav audio;
  p ← plan_chunks self w;
  cut p w (length (audio_samples w)) 0 0.

Definition should_split (self : AudioSplitter) (audio : bytes) : bool := bool_decide (max_chunk_size self < len audio)%Z.
Definition whole (audio : bytes) : list AudioChunk := [MkChunk audio zero_seconds zero_seconds 0].
Definition split_audio (self : AudioSplitter) (audio : bytes) (content_type : string) : outcome string (list AudioChunk) :=
  if negb (should_split self audio) then Ok (whole audio)
  else if decide (content_type = "audio/wav" \/ content_type = "audio/wave") then split_wav self audio
  else Ok (whole audio).

(** ** Merging *)
Record TranscriptionSegment := MkSegment {
  text : string; start : option spec_float; stop : option spec_float; chunk_index : Z }.
Record MergedTranscription := MkMerged {
  merged_text : string; segments : option (list TranscriptionSegment); language : option string; duration : option spec_float }.
(** [Value::as_f64]. *)
Definition as_f64 (v : Value) : option spec_float :=
  match v with
  | Number (NInt z) => Some (binary_normalize 53 1024 z 0 false)
  | Number (NFloat f) => Some f
  | _ => None
  end.
Definition earlier (a b : Z * Value) : Prop := (a.1 <= b.1)%Z.
#[export] Instance earlier_dec : RelDecision earlier.
Proof. intros a b. unfold earlier. apply _. Defined.
(** [sort_by_key], which keeps the order of equal keys. *)
Fixpoint insert_result (r : Z * Value) (l : list (Z * Value)) : list (Z * Value) :=
  match l with
  | [] => [r]
  | r' :: l' => if decide (earlier r r') then r :: l else r' :: insert_result r l'
  end.
Definition sort_by_index (l : list (Z * Value)) : list (Z * Value) := foldr insert_result [] l.

Definition add_text (result : Value) (merged : string) : string :=
  match get "text" result ≫= as_str with
  | Some t => (if is_empty merged then merged else merged +:+ " ") +:+ t
  | None => merged
  end.
Definition segment_of (index : Z) (segment : Value) : option TranscriptionSegment :=
  o ← as_object segment;
  Some (MkSegment (default EmptyString (member "text" o ≫= as_str)) (member "start" o ≫= as_f64) (member "end" o ≫= as_f64) index).
Definition segments_of (index : Z) (result : Value) : list TranscriptionSegment :=
  match get "segments" result ≫= as_array with Some l => omap (segment_of index) l | None => [] end.
Definition language_of (result : Value) : option string := get "language" result ≫= as_str.
Fixpoint merge_sorted (l : list (Z * Value)) (merged : string) (all_segments : list TranscriptionSegment) (detected : option string)
    : MergedTranscription :=
  match l with
  | [] => MkMerged merged (if decide (all_segments = []) then None else Some all_segments) detected None
  | (index, result) :: l =>
      merge_sorted l (add_text result merged) (all_segments ++ segments_of index result)
        (match detected with Some d => Some d | None => language_of result end)
  end.
Definition merge_transcriptions (results : list (Z * Value)) : outcome string MergedTranscription :=
  match results with
  | [] => Err "No transcription results to merge"
  | _ => Ok (merge_sorted (sort_by_index results) EmptyString [] None)
  end.

(** ** Slices *)
Lemma len_app a b : len (a ++ b) = (len a + len b)%Z.
Proof. unfold len. rewrite length_app. lia. Qed.
Lemma len_slice from to b : (0 <= from <= to)%Z -> (to <= len b)%Z -> len (slice from to b) = (to - from)%Z.
Proof. unfold len, slice. rewrite length_take, length_drop. lia. Qed.
Lemma slice_app_l from to a b : (0 <= from)%Z -> (to <= len a)%Z -> slice from to (a ++ b) = slice from to a.
Proof.
  unfold slice, len. intros Hf Ht. destruct (decide (to < from)%Z); [replace (Z.to_nat (to - from)) with 0 by lia; by rewrite !take_0|].
  rewrite drop_app_le by lia. apply take_app_le. rewrite length_drop. lia.
Qed.
Lemma slice_app_r from to a b : (len a <= from)%Z -> slice from to (a ++ b) = slice (from - len a) (to - len a) b.
Proof.
  unfold slice, len. intros Hf. rewrite drop_app_ge by lia. f_equal; [lia|]. f_equal. lia.
Qed.
Lemma slice_slice from to n b : (0 <= from)%Z -> (to <= n)%Z -> slice from to (slice 0 n b) = slice from to b.
Proof.
  unfold slice. intros Hf Ht. rewrite drop_0, Z.sub_0_r. destruct (decide (to <= from)%Z).
  { replace (Z.to_nat (to - from)) with 0 by lia. by rewrite !take_0. }
  replace (Z.to_nat n) with (Z.to_nat from + Z.to_nat (n - from)) by lia. rewrite <- take_drop_commute, take_take.
  f_equal. lia.
Qed.
Lemma slice_drop from to k b : (0 <= from)%Z -> slice from to (drop k b) = slice (from + Z.of_nat k) (to + Z.of_nat k) b.
Proof. unfold slice. intros Hf. rewrite drop_drop. f_equal; [lia|]. f_equal. lia. Qed.
Lemma slice_all b : slice 0 (len b) b = b.
Proof. unfold slice, len. rewrite drop_0. apply take_ge. lia. Qed.
Lemma be_value_bound b : (0 <= be_value b < 256 ^ len b)%Z.
Proof.
  unfold len. induction b as [|x b IH]; cbn; [lia|]. pose proof (Z_of_byte_bound x).
  change (S (length b)) with (1 + length b). rewrite Nat2Z.inj_add, Z.pow_add_r by lia. nia.
Qed.
Lemma u32_nonneg from b : (0 <= u32_at from b)%Z.
Proof. unfold u32_at, le_value. pose proof (be_value_bound (reverse (slice from (from + 4) b))). lia. Qed.
Lemma le_value_bytes n v : le_value (le_bytes n v) = (v mod 256 ^ Z.of_nat n)%Z.
Proof. unfold le_value, le_bytes. rewrite reverse_involutive. apply be_value_bytes. Qed.
Lemma len_le_bytes n v : len (le_bytes n v) = Z.of_nat n.
Proof. unfold len, le_bytes. by rewrite length_reverse, be_bytes_length. Qed.

(** ** A part is a WAV file again *)
(** Bytes between [lo] and [hi] that two files share. *)
Definition agree (lo hi : Z) (a c : bytes) : Prop := forall from to, (lo <= from)%Z -> (to <= hi)%Z -> slice from to c = slice from to a.

Lemma next_chunk_None n pos size : next_chunk n pos size = Ok None -> (n < pos + 8 + size)%Z.
Proof. unfold next_chunk, usize_checked_add. intros Hr. repeat (case_decide; cbn in Hr; try done). Qed.
Lemma next_chunk_Some n pos size p : next_chunk n pos size = Ok (Some p) ->
  (pos + 8 + size <= n)%Z /\ (pos + 8 + size <= p <= pos + 9 + size)%Z /\ (p <= usize_max)%Z.
Proof. unfold next_chunk, usize_checked_add. intros Hr. repeat (case_decide; cbn in Hr; try done); injection Hr as <-; lia. Qed.
(** The file is needed no further than its next chunk. *)
Lemma next_chunk_shorter n n' pos size p : next_chunk n pos size = Ok (Some p) -> (pos + 8 + size <= n')%Z ->
  next_chunk n' pos size = Ok (Some p).
Proof.
  unfold next_chunk, usize_checked_add. intros Hr Hn. repeat (case_decide; cbn in Hr |- *; try done; try lia).
Qed.

Section find.
Context (a : bytes).
(** Once the data chunk is found first, a later fmt chunk stands behind it. *)
Lemma find_data_first fuel pos s s' : find_chunks fuel a pos s = Ok s' -> fmt_pos s = 0%Z -> (0 < data_start s < pos + 8)%Z ->
  fmt_pos s' = 0%Z \/ (data_start s' < fmt_pos s')%Z.
Proof.
  revert pos s. induction fuel as [|fuel IH]; intros pos s; cbn [find_chunks]; [intros [= <-]; lia|].
  case_decide; [|intros [= <-]; lia]. pose proof (u32_nonneg (pos + 4) a) as Hn. set (size := u32_at (pos + 4) a) in *.
  intros Hr Hf Hd. unfold note_chunk in Hr.
  destruct (decide (tag pos a = as_bytes "fmt ")); [|destruct (decide (tag pos a = as_bytes "data"))].
  - rewrite decide_True in Hr by (cbn; lia). injection Hr as <-. cbn. lia.
  - rewrite decide_False in Hr by (cbn; lia). apply bind_Ok in Hr as ([p|] & Hp & Hr).
    + apply next_chunk_Some in Hp. eapply IH; [exact Hr|cbn; lia..].
    + injection Hr as <-. cbn. lia.
  - rewrite decide_False in Hr by lia. apply bind_Ok in Hr as ([p|] & Hp & Hr).
    + apply next_chunk_Some in Hp. eapply IH; [exact Hr|lia..].
    + injection Hr as <-. lia.
Qed.
(** The chunks are found at [pos] or later. *)
Lemma find_later fuel pos s s' : find_chunks fuel a pos s = Ok s' ->
  (data_start s' = data_start s \/ (pos + 8 <= data_start s')%Z) /\
  (fmt_pos s' = fmt_pos s \/ (pos + 8 <= fmt_pos s')%Z) /\ ((0 <= data_size s)%Z -> (0 <= data_size s')%Z).
Proof.
  revert pos s. induction fuel as [|fuel IH]; intros pos s; cbn [find_chunks]; [intros [= <-]; lia|].
  case_decide; [|intros [= <-]; lia]. pose proof (u32_nonneg (pos + 4) a) as Hn. set (size := u32_at (pos + 4) a) in *.
  set (s1 := note_chunk _ _ _ _). assert ((data_start s1 = data_start s \/ data_start s1 = pos + 8)%Z /\
    (fmt_pos s1 = fmt_pos s \/ fmt_pos s1 = pos + 8)%Z /\ ((0 <= data_size s)%Z -> (0 <= data_size s1)%Z)) as (Hs & Hf & Hd).
  { unfold s1, note_chunk. repeat case_decide; cbn; lia. }
  intros Hr. case_decide; [injection Hr as <-; lia|]. apply bind_Ok in Hr as ([p|] & Hp & Hr); [|injection Hr as <-; lia].
  apply next_chunk_Some in Hp. apply IH in Hr. lia.
Qed.

(** Found again in a file that agrees up to the data chunk, whatever its size there. *)
Lemma find_chunks_again fuel pos s s' c D fuel' : find_chunks fuel a pos s = Ok s' ->
  data_start s = 0%Z -> (fmt_pos s + fmt_size s <= pos)%Z -> (0 < fmt_pos s' < data_start s')%Z -> (data_start s' = D + 8)%Z ->
  (0 < pos)%Z -> agree pos D a c -> tag D c = as_bytes "data" -> (D + 8 <= len c)%Z -> (len c < pos + 8 * Z.of_nat fuel')%Z ->
  find_chunks fuel' c pos s = Ok (MkFound (D + 8) (u32_at (D + 4) c) (fmt_pos s') (fmt_size s')) /\
  (fmt_pos s' + fmt_size s' <= D)%Z.
Proof.
  revert pos s fuel'. induction fuel as [|fuel IH]; intros pos s fuel' Hr Hd Hf Hb HD Hpos Hag Htag Hlen Hfuel;
    pose proof (find_later _ _ _ _ Hr) as (Hlate & _ & _); cbn [find_chunks] in Hr.
  { injection Hr as <-. lia. }
  case_decide as H1; [|injection Hr as <-; lia]. pose proof (u32_nonneg (pos + 4) a) as Hn. set (size := u32_at (pos + 4) a) in *.
  destruct fuel' as [|fuel']; [lia|]. cbn [find_chunks]. 
  destruct (decide (tag pos a = as_bytes "data")) as [Hdata|Hdata].
  - assert (note_chunk (tag pos a) pos size s = MkFound (pos + 8) size (fmt_pos s) (fmt_size s)) as Hnote
      by (unfold note_chunk; rewrite Hdata; done).
    rewrite Hnote in Hr. cbn in Hr. case_decide as H2.
    + injection Hr as <-. cbn in HD, Hb |- *. assert (pos = D) as -> by lia. rewrite decide_True by lia. unfold note_chunk.
      rewrite Htag. cbn. rewrite decide_True by done. split; [done|lia].
    + apply bind_Ok in Hr as ([p|] & Hp & Hr); [|injection Hr as <-; cbn in *; lia]. apply next_chunk_Some in Hp.
      apply find_data_first in Hr; cbn in *; lia.
  - set (s1 := note_chunk (tag pos a) pos size s) in *.
    assert (data_start s1 = 0 /\ (fmt_pos s1 + fmt_size s1 <= pos + 8 + size))%Z as [Hd1 Hf1].
    { unfold s1, note_chunk. destruct (decide (tag pos a = as_bytes "fmt ")); [cbn; lia|]. rewrite decide_False by done. lia. }
    rewrite decide_False in Hr by lia. apply bind_Ok in Hr as ([p|] & Hp & Hr); [|injection Hr as <-; lia].
    pose proof (next_chunk_Some _ _ _ _ Hp) as (Hp1 & Hp2 & _). pose proof (find_later _ _ _ _ Hr) as (Hlater & _ & _).
    assert (p <= D)%Z by lia. rewrite decide_True by lia.
    assert (tag pos c = tag pos a) as -> by (apply Hag; lia).
    assert (u32_at (pos + 4) c = size) as -> by (unfold u32_at, size, u32_at; f_equal; apply Hag; lia). fold s1.
    rewrite decide_False by lia. rewrite (next_chunk_shorter (len a) (len c) pos size p Hp) by lia. cbn.
    apply IH; try done; try lia. intros from to ? ?. apply Hag; lia.
Qed.
End find.

(** The new file, part by part. *)
Definition patched (h : bytes) (riff_size : Z) : bytes := slice 0 4 h ++ le_bytes 4 riff_size ++ drop 8 h.
Definition part (h x : bytes) : bytes :=
  patched h ((len h + len x) mod 2 ^ 32) ++ as_bytes "data" ++ le_bytes 4 (len x mod 2 ^ 32) ++ x.
Lemma len_data : len (as_bytes "data") = 4%Z.
Proof. reflexivity. Qed.
Lemma len_drop k b : (Z.of_nat k <= len b)%Z -> len (drop k b) = (len b - Z.of_nat k)%Z.
Proof. unfold len. rewrite length_drop. lia. Qed.
Lemma len_patched h n : (8 <= len h)%Z -> len (patched h n) = len h.
Proof. intros Hh. unfold patched. rewrite !len_app, len_slice, len_le_bytes, len_drop by lia. lia. Qed.
Lemma len_part h x : (8 <= len h)%Z -> len (part h x) = (len h + 8 + len x)%Z.
Proof. intros Hh. unfold part. rewrite !len_app, len_patched, len_le_bytes, len_data by done. lia. Qed.
Lemma create_wav_part h x : (8 <= len h)%Z -> create_wav_from_samples h x = Ok (part h x).
Proof.
  intros Hh. unfold create_wav_from_samples. rewrite !len_app, len_le_bytes, len_data.
  assert (0 <= len x)%Z by (unfold len; lia). rewrite decide_False by lia. do 2 f_equal.
  unfold part, patched. rewrite slice_app_l by lia. rewrite <- !app_assoc. f_equal. f_equal.
  - do 2 f_equal. lia.
  - rewrite drop_app_le; [done|]. unfold len in Hh. lia.
Qed.
Lemma part_agrees h x : (8 <= len h)%Z -> agree 8 (len h) h (part h x).
Proof.
  intros Hh from to Hf Ht. unfold part. rewrite slice_app_l by (rewrite ?len_patched; lia). unfold patched.
  rewrite slice_app_r by (rewrite len_slice; lia). rewrite len_slice by lia. rewrite slice_app_r by (rewrite len_le_bytes; lia).
  rewrite len_le_bytes, slice_drop by lia. f_equal; lia.
Qed.
Lemma part_start h x : (8 <= len h)%Z -> tag 0 (part h x) = tag 0 h.
Proof.
  intros Hh. unfold tag, part. rewrite slice_app_l by (rewrite ?len_patched; lia). unfold patched.
  rewrite slice_app_l by (rewrite ?len_slice; lia). rewrite slice_slice by lia. done.
Qed.
Lemma part_header h x : (8 <= len h)%Z -> slice 0 (len h) (part h x) = patched h ((len h + len x) mod 2 ^ 32).
Proof.
  intros Hh. unfold part. rewrite slice_app_l by (rewrite ?len_patched; lia).
  pose proof (slice_all (patched h ((len h + len x) mod 2 ^ 32))) as Hs. by rewrite len_patched in Hs.
Qed.
Lemma part_data h x : (8 <= len h)%Z -> tag (len h) (part h x) = as_bytes "data".
Proof.
  intros Hh. unfold tag, part. rewrite slice_app_r by (rewrite ?len_patched; lia). rewrite len_patched by done.
  replace (len h - len h)%Z with 0%Z by lia. replace (len h + 4 - len h)%Z with 4%Z by lia. done.
Qed.
Lemma part_size h x : (8 <= len h)%Z -> (len x < 2 ^ 32)%Z -> u32_at (len h + 4) (part h x) = len x.
Proof.
  intros Hh Hx. unfold u32_at, part. rewrite slice_app_r by (rewrite ?len_patched; lia). rewrite len_patched by done.
  rewrite slice_app_r by (rewrite len_data; lia). rewrite len_data, slice_app_l by (rewrite ?len_le_bytes; lia).
  replace (len h + 4 - len h - 4)%Z with 0%Z by lia. replace (len h + 4 + 4 - len h - 4)%Z with (len (le_bytes 4 (len x mod 2 ^ 32)))
    by (rewrite len_le_bytes; lia).
  assert (0 <= len x)%Z by (unfold len; lia). rewrite slice_all, le_value_bytes. rewrite Z.mod_mod by lia. by rewrite Z.mod_small.
Qed.
Lemma part_samples h x : (8 <= len h)%Z -> slice (len h + 8) (len h + 8 + len x) (part h x) = x.
Proof.
  intros Hh. unfold part. rewrite slice_app_r by (rewrite ?len_patched; lia). rewrite len_patched by done.
  rewrite slice_app_r by (rewrite len_data; lia). rewrite len_data, slice_app_r by (rewrite ?len_le_bytes; lia). rewrite len_le_bytes.
  replace (len h + 8 - len h - 4 - Z.of_nat 4)%Z with 0%Z by lia. replace (len h + 8 + len x - len h - 4 - Z.of_nat 4)%Z with (len x) by lia.
  apply slice_all.
Qed.

(** Reading a part again. *)
Definition fmt_first (audio : bytes) : Prop :=
  exists s, find_chunks (length audio) audio 12 nothing_found = Ok s /\ (fmt_pos s < data_start s)%Z.
Lemma guard_err_Ok b e u : guard_err b e = Ok u -> b = true.
Proof. by destruct b. Qed.
Lemma read_wav_Ok audio w : read_wav audio = Ok w <->
  (MIN_WAV_HEADER_SIZE <= len audio)%Z /\ (tag 0 audio = as_bytes "RIFF" /\ tag 8 audio = as_bytes "WAVE") /\
  exists s, find_chunks (length audio) audio 12 nothing_found = Ok s /\
    fmt_pos s <> 0%Z /\ data_start s <> 0%Z /\ (16 <= fmt_size s)%Z /\ (fmt_pos s + fmt_size s <= len audio)%Z /\
    (data_start s + data_size s <= len audio)%Z /\ (8 <= data_start s)%Z /\
    block_align w <> 0%Z /\ bytes_per_second w <> 0%Z /\
    w = MkWav (slice 0 (data_start s - 8) audio) (slice (data_start s) (data_start s + data_size s) audio)
          (u32_at (fmt_pos s + 8) audio) (u16_at (fmt_pos s + 12) audio).
Proof.
  unfold read_wav. split.
  - intros Hr. repeat (apply bind_Ok in Hr as (? & Hg & Hr);
      first [apply guard_err_Ok in Hg; rewrite bool_decide_eq_true in Hg; let G := fresh "G" in rename Hg into G|rename Hg into Hs]).
    injection Hr as <-. destruct_and?. split_and!; try done. eexists. split; [exact Hs|]. by split_and!.
  - intros (? & ? & s & Hs & ? & ? & ? & ? & ? & ? & Hb & Hp & ->). cbn in Hb, Hp.
    unfold guard_err. rewrite bool_decide_true by done. cbn [mbind outcome_bind]. rewrite bool_decide_true by done. cbn [mbind outcome_bind]. rewrite Hs.
    cbn [mbind outcome_bind]. rewrite !bool_decide_true by done. done.
Qed.
Lemma read_part audio w x : read_wav audio = Ok w -> fmt_first audio -> (len x < 2 ^ 32)%Z ->
  read_wav (part (header w) x) =
    Ok (MkWav (patched (header w) ((len (header w) + len x) mod 2 ^ 32)) x (bytes_per_second w) (block_align w)) /\
  (8 <= len (header w))%Z.
Proof.
  intros (Hmin & [Hriff Hwave] & s' & Hs' & Hw)%read_wav_Ok (s & Hs & Hlt) Hx. rewrite Hs in Hs'. injection Hs' as <-.
  destruct Hw as (Hf0 & Hd0 & Hf16 & Hfl & Hdl & Hd8 & Hb & Hbs & ->). cbn [header bytes_per_second block_align] in *.
  pose proof (find_later _ _ _ _ _ Hs) as (Hlate & Hf & Hn). cbn [data_start fmt_pos data_size nothing_found] in Hlate, Hf, Hn.
  set (D := (data_start s - 8)%Z) in *. set (h := slice 0 D audio).
  assert (0 <= len x)%Z by (unfold len; lia).
  assert (len h = D) as Hh by (unfold h; rewrite len_slice; lia).
  assert (agree 8 D audio (part h x)) as Hag.
  { intros from to ? ?. rewrite part_agrees by lia. unfold h. rewrite slice_slice by lia. done. }
  destruct (find_chunks_again audio _ _ _ _ (part h x) D (length (part h x)) Hs) as [Hfound Hfmt]; cbn [data_start fmt_pos fmt_size nothing_found].
  1-5: lia.
  { intros from to ? ?. apply Hag; lia. }
  { rewrite <- Hh. apply part_data. lia. }
  { rewrite len_part by lia. lia. }
  { unfold len. lia. }
  split; [|lia]. apply read_wav_Ok. rewrite len_part, Hh by lia.
  assert (tag 0 (part h x) = tag 0 audio) as ->.
  { rewrite part_start by lia. unfold h, tag. rewrite slice_slice by lia. done. }
  assert (tag 8 (part h x) = tag 8 audio) as -> by (apply Hag; lia).
  unfold MIN_WAV_HEADER_SIZE in *. split_and!; [lia|done..|]. eexists. split; [exact Hfound|].
  cbn [data_start data_size fmt_pos fmt_size block_align bytes_per_second].
  assert (u32_at (D + 4) (part h x) = len x) as -> by (rewrite <- Hh; apply part_size; lia).
  assert (u32_at (fmt_pos s + 8) (part h x) = u32_at (fmt_pos s + 8) audio) as -> by (unfold u32_at; f_equal; apply Hag; lia).
  assert (u16_at (fmt_pos s + 12) (part h x) = u16_at (fmt_pos s + 12) audio) as -> by (unfold u16_at; f_equal; apply Hag; lia).
  split_and!; try done; try lia. rewrite <- Hh. replace (len h + 8 - 8)%Z with (len h) by lia.
  by rewrite part_header, part_samples by lia.
Qed.

(** ** The parts in closed form *)
Section windows.
Context (p : Plan) (w : Wav).
Abbreviation total := (len (audio_samples w)).
Abbreviation d := (chunk_duration_bytes p).
Abbreviation o := (overlap_bytes p).
Definition start_at (k : Z) : Z := k * (d - o).
Definition end_at (k : Z) : Z := Z.min (start_at k + d) total.
Definition part_at (k : Z) : AudioChunk :=
  MkChunk (part (header w) (slice (start_at k) (end_at k) (audio_samples w)))
    (MkSeconds (start_at k) (bytes_per_second w)) (MkSeconds (end_at k) (bytes_per_second w)) k.
(** The first part, and one for every further stretch of [d - o] bytes begun. *)
Definition count : Z := if decide (total = 0)%Z then 0 else Z.max 1 ((total - o + (d - o) - 1) / (d - o)).
(** What a part adds to the ones before it. *)
Definition fresh (k : Z) : bytes := slice (if decide (k = 0)%Z then 0 else start_at k + o)%Z (end_at k) (audio_samples w).

Context (Ho : (0 <= o < d)%Z).

Lemma lt_count k : (0 < k)%Z -> (k < count)%Z <-> (start_at k + o < total)%Z.
Proof.
  intros Hk. unfold count, start_at. assert (0 <= total)%Z by (unfold len; lia). set (m := (d - o)%Z).
  pose proof (Z.div_mod (total - o + m - 1) m ltac:(lia)) as Hd. pose proof (Z.mod_pos_bound (total - o + m - 1) m ltac:(lia)) as Hm.
  set (q := ((total - o + m - 1) / m)%Z) in *. case_decide as H0; [split; [lia|]; nia|].
  split; [|intros; assert (k < q)%Z by nia; lia]. intros Hlt. assert (k < q)%Z by lia. nia.
Qed.
Lemma count_nonneg : (0 <= count)%Z.
Proof. unfold count. destruct (decide (total = 0)%Z); [lia|]. pose proof (Z.le_max_l 1 ((total - o + (d - o) - 1) / (d - o))). lia. Qed.
Lemma count_pos : (0 < total)%Z -> (0 < count)%Z.
Proof. intros. unfold count. rewrite decide_False by lia. lia. Qed.
Lemma slice_glue a b c l : (0 <= a <= b)%Z -> (b <= c)%Z -> slice a b l ++ slice b c l = slice a c l.
Proof.
  intros Ha Hb. unfold slice. replace (Z.to_nat (c - a)) with (Z.to_nat (b - a) + Z.to_nat (c - b)) by lia.
  rewrite <- (take_take_drop (drop (Z.to_nat a) l)), drop_drop. do 3 f_equal. lia.
Qed.
Lemma part_bounds k : (0 <= k < count)%Z ->
  (0 <= start_at k < end_at k)%Z /\ (end_at k <= start_at k + d)%Z /\ (end_at k <= total)%Z.
Proof.
  intros Hk. split; [|unfold end_at; lia]. unfold end_at. destruct (decide (k = 0)%Z) as [->|].
  - unfold start_at. assert (0 <= total)%Z by (unfold len; lia). destruct (decide (total = 0)%Z); [|lia].
    unfold count in Hk. rewrite decide_True in Hk by done. lia.
  - pose proof (proj1 (lt_count k ltac:(lia)) ltac:(lia)). unfold start_at in *. nia.
Qed.
(** Without what they repeat, the parts are the samples. *)
Lemma fresh_all n k : (0 <= k)%Z -> (Z.of_nat n = count - k)%Z ->
  mjoin (fresh <$> seqZ k (count - k)) = slice (if decide (k = 0) then 0 else Z.min (start_at k + o) total)%Z total (audio_samples w).
Proof.
  assert (0 <= total)%Z as H0 by (unfold len; lia).
  revert k. induction n as [|n IH]; intros k Hk Hn.
  - rewrite seqZ_nil by lia. cbn. symmetry. assert (total <= if decide (k = 0) then 0 else Z.min (start_at k + o) total)%Z as Hle.
    + case_decide as Hk0; [subst; pose proof count_pos; lia|]. pose proof (lt_count k ltac:(lia)). lia.
    + unfold slice. by replace (Z.to_nat (total - _)) with 0 by lia.
  - rewrite seqZ_cons by lia. cbn [fmap list_fmap mjoin list_join]. replace (Z.pred (count - k)) with (count - (k + 1))%Z by lia.
    replace (Z.succ k) with (k + 1)%Z by lia. rewrite IH by lia. rewrite decide_False by lia. unfold fresh.
    assert (Z.min (start_at (k + 1) + o) total = end_at k) as -> by (unfold end_at, start_at; lia).
    case_decide as Hk0.
    + subst. apply slice_glue; unfold end_at, start_at; lia.
    + pose proof (proj1 (lt_count k ltac:(lia)) ltac:(lia)). rewrite Z.min_l by lia.
      apply slice_glue; unfold end_at; [|lia]. unfold start_at in *. nia.
Qed.

Context (Hh : (8 <= len (header w))%Z) (Htotal : (total <= usize_max)%Z).
Lemma cut_parts fuel k offset : (total - offset <= Z.of_nat fuel)%Z -> (0 <= k)%Z ->
  (k = 0 /\ offset = 0 \/ 0 < k /\ offset = Z.min (start_at k + o) total)%Z ->
  cut p w fuel offset k = Ok (part_at <$> seqZ k (count - k)).
Proof.
  assert (0 <= total)%Z as H0 by (unfold len; lia).
  revert k offset. induction fuel as [|fuel IH]; intros k offset Hf Hk Hoff; cbn [cut].
  - assert (count <= k)%Z; [|by rewrite seqZ_nil by lia].
    destruct Hoff as [[-> ->]|[Hk0 ->]]; [unfold count; rewrite decide_True; lia|]. pose proof (lt_count k Hk0). lia.
  - case_decide as Hlt.
    + assert (window_start p offset k = start_at k) as ->.
      { unfold window_start, start_at in *. destruct Hoff as [[-> ->]|[Hk0 ->]]; [by rewrite decide_False by lia|].
        rewrite decide_True by nia. lia. }
      assert (window_end p w (start_at k) = end_at k) as -> by (unfold window_end, end_at; lia).
      assert (k < count)%Z.
      { destruct Hoff as [[-> ->]|[Hk0 ->]]; [by apply count_pos|]. apply lt_count; lia. }
      assert (0 <= start_at k <= end_at k /\ offset < end_at k)%Z as (Hs & He).
      { unfold end_at, start_at in *. destruct Hoff as [[-> ->]|[Hk0 ->]]; nia. }
      unfold guard_err. rewrite bool_decide_true by lia. cbn [mbind outcome_bind]. rewrite create_wav_part by done. cbn [mbind outcome_bind].
      rewrite (IH (k + 1)%Z); [| |lia|].
      * cbn [mbind outcome_bind]. rewrite (seqZ_cons k) by lia. cbn [fmap list_fmap]. unfold part_at at 1. do 3 f_equal. f_equal; lia.
      * lia.
      * right. split; [lia|]. unfold end_at, start_at. lia.
    + assert (count <= k)%Z; [|by rewrite seqZ_nil by lia].
      destruct Hoff as [[-> ->]|[Hk0 ->]]; [unfold count; rewrite decide_True; lia|]. pose proof (lt_count k Hk0). lia.
Qed.
End windows.

Lemma read_wav_facts audio w : read_wav audio = Ok w ->
  (8 <= len (header w))%Z /\ (len (audio_samples w) <= len audio)%Z /\ (0 < block_align w)%Z /\ (0 < bytes_per_second w)%Z.
Proof.
  intros (Hmin & _ & s & Hs & Hf0 & Hd0 & _ & _ & Hdl & _ & Hb & Hbs & ->)%read_wav_Ok.
  pose proof (find_later _ _ _ _ _ Hs) as (Hlate & _ & Hn). cbn in Hlate, Hn, Hb, Hbs |- *.
  pose proof (u32_nonneg (fmt_pos s + 8) audio).
  pose proof (be_value_bound (reverse (slice (fmt_pos s + 12) (fmt_pos s + 12 + 2) audio))). unfold u16_at, le_value in *.
  rewrite !len_slice by lia. lia.
Qed.
Lemma plan_facts self w p : plan_chunks self w = Ok p -> (0 < block_align w)%Z -> (0 < bytes_per_second w)%Z -> (0 <= overlap_seconds self)%Z ->
  (0 <= overlap_bytes p < chunk_duration_bytes p)%Z /\ (len (header w) + 8 + chunk_duration_bytes p <= max_chunk_size self)%Z /\
  (block_align w | chunk_duration_bytes p - overlap_bytes p)%Z.
Proof.
  unfold plan_chunks. intros Hr Hb Hp Ho. apply bind_Ok in Hr as (available & Ha & Hr).
  destruct (decide (len (header w) + 8 <= max_chunk_size self)%Z) as [Hle|]; [|done]. injection Ha as <-.
  apply bind_Ok in Hr as (? & Hg%guard_err_Ok & [= <-]). rewrite bool_decide_eq_true in Hg. cbn [overlap_bytes chunk_duration_bytes].
  set (n := (max_chunk_size self - (len (header w) + 8))%Z) in *. pose proof (Z.mul_div_le n (block_align w) Hb).
  assert (0 <= overlap_seconds self * bytes_per_second w / block_align w)%Z by (apply Z.div_pos; nia).
  split; [case_decide; nia|]. split; [lia|].
  apply Z.divide_sub_r; [apply Z.divide_factor_r|]. case_decide; [apply Z.divide_0_r|apply Z.divide_factor_r].
Qed.

(** A WAV file that is too large is cut exactly so: part [k] begins [k] times the
    chunk length less the overlap into the samples, on the boundary of a frame, holds
    one chunk length of them or what is left, and is no larger than allowed; the last
    part ends with the samples; and the parts without what they repeat are the samples.
    So no sample is lost, whatever the format says, and the loop ends. *)
Theorem split_windows_exact self audio w p :
  read_wav audio = Ok w -> plan_chunks self w = Ok p -> (0 <= overlap_seconds self)%Z -> (len audio <= usize_max)%Z ->
  let n := count p w in
  split_wav self audio = Ok (part_at p w <$> seqZ 0 n) /\
  (forall k, (0 <= k < n)%Z -> (len (data (part_at p w k)) <= max_chunk_size self)%Z /\ (block_align w | start_at p k)%Z /\
     (start_at p k < end_at p w k)%Z) /\
  mjoin (fresh p w <$> seqZ 0 n) = audio_samples w /\ ((0 < n)%Z -> end_at p w (n - 1) = len (audio_samples w)).
Proof.
  intros Hr Hp Ho Hlen. pose proof (read_wav_facts _ _ Hr) as (Hh & Hs & Hb & Hbs).
  destruct (plan_facts _ _ _ Hp Hb Hbs Ho) as (Hod & Hmax & Hdiv). set (n := count p w).
  assert (0 <= len (audio_samples w))%Z by (unfold len; lia).
  split_and!.
  - unfold split_wav. rewrite Hr. cbn [mbind outcome_bind]. rewrite Hp. cbn [mbind outcome_bind].
    rewrite (cut_parts p w Hod Hh) by (unfold len in *; lia). by rewrite Z.sub_0_r.
  - intros k Hk. destruct (part_bounds p w Hod k Hk) as (Hse & Hed & Het).
    split_and!; [|unfold start_at; by apply Z.divide_mul_r|lia].
    cbn [part_at data]. rewrite len_part by done. rewrite len_slice by lia. lia.
  - pose proof (fresh_all p w Hod (Z.to_nat n) 0 ltac:(lia)) as Hf. rewrite Z.sub_0_r in Hf. cbn in Hf. fold n in Hf. rewrite Hf.
    + apply slice_all.
    + rewrite Z2Nat.id; [done|]. apply count_nonneg.
  - intros Hn. unfold end_at. pose proof (lt_count p w Hod n Hn) as Hlt. fold n in Hlt. unfold start_at in *. lia.
Qed.

(** Every part of a file that gives its format before its data is a WAV file
    itself: reading it back gives the part's samples in the same format, and the size
    in its header is its own. *)
Theorem parts_are_wav_files self audio w p k :
  read_wav audio = Ok w -> fmt_first audio -> plan_chunks self w = Ok p -> (0 <= overlap_seconds self)%Z ->
  (max_chunk_size self <= u32_max)%Z -> (0 <= k < count p w)%Z ->
  read_wav (data (part_at p w k)) =
    Ok (MkWav (patched (header w) (len (data (part_at p w k)) - 8)) (slice (start_at p k) (end_at p w k) (audio_samples w))
          (bytes_per_second w) (block_align w)).
Proof.
  intros Hr Hfmt Hp Ho Hu Hk. pose proof (read_wav_facts _ _ Hr) as (Hh & Hs & Hb & Hbs).
  destruct (plan_facts _ _ _ Hp Hb Hbs Ho) as (Hod & Hmax & _).
  destruct (part_bounds p w Hod k Hk) as (Hse & Hed & Het). cbn [part_at data]. rewrite len_part by done.
  assert (len (slice (start_at p k) (end_at p w k) (audio_samples w)) = end_at p w k - start_at p k)%Z as Hl by (apply len_slice; lia).
  destruct (read_part audio w (slice (start_at p k) (end_at p w k) (audio_samples w)) Hr Hfmt) as [-> _].
  - unfold u32_max in Hu. lia.
  - unfold u32_max in Hu. rewrite Z.mod_small by (unfold len in *; lia). do 3 f_equal. lia.
Qed.

(** ** Merging in any order *)
Lemma insert_result_perm r l : insert_result r l ≡ₚ r :: l.
Proof. induction l as [|r' l IH]; cbn; [done|]. case_decide; [done|]. rewrite IH. apply Permutation_swap. Qed.
Lemma sort_by_index_perm l : sort_by_index l ≡ₚ l.
Proof. induction l as [|r l IH]; cbn; [done|]. by rewrite insert_result_perm, IH. Qed.
Lemma insert_result_sorted r l : StronglySorted earlier l -> StronglySorted earlier (insert_result r l).
Proof.
  induction 1 as [|r' l Hs IH Hall]; cbn; [repeat constructor|]. case_decide as Hle.
  - constructor; [by constructor|]. constructor; [done|]. eapply Forall_impl; [exact Hall|]. unfold earlier in *. intros; lia.
  - constructor; [done|]. rewrite insert_result_perm. constructor; [unfold earlier in *; lia|done].
Qed.
Lemma sort_by_index_sorted l : StronglySorted earlier (sort_by_index l).
Proof. induction l as [|r l IH]; cbn; [constructor|]. by apply insert_result_sorted. Qed.
(** However the answers for the parts arrive, they are merged in the order of the parts. *)
Lemma merge_any_order l l' : NoDup l.*1 -> l ≡ₚ l' -> merge_transcriptions l = merge_transcriptions l'.
Proof.
  intros Hn Hp. assert (sort_by_index l = sort_by_index l') as Hs.
  { apply (StronglySorted_unique_strong earlier); [|apply sort_by_index_sorted..|by rewrite !sort_by_index_perm].
    intros x y Hx Hy Hxy Hyx. rewrite sort_by_index_perm in Hx, Hy. rewrite <- Hp in Hy.
    assert (x.1 = y.1) as He by (unfold earlier in *; lia).
    apply list_elem_of_lookup in Hx as [i Hi], Hy as [j Hj].
    assert (i = j) as ->; [|congruence]. eapply NoDup_lookup; [exact Hn| |]; rewrite list_lookup_fmap.
    - by rewrite Hi.
    - by rewrite Hj, He. }
  unfold merge_transcriptions. rewrite Hs. destruct l as [|r l], l' as [|r' l']; try done.
  - by apply Permutation_nil_l in Hp.
  - by apply Permutation_nil_r in Hp.
Qed.

(** *** The text *)
Lemma append_assoc (a b c : string) : a +:+ (b +:+ c) = (a +:+ b) +:+ c.
Proof. induction a as [|x a IH]; cbn; [done|]. by rewrite IH. Qed.
Definition text_of (result : Value) : option string := get "text" result ≫= as_str.
Lemma join_glue s a b rest : join s ((a +:+ s +:+ b) :: rest) = a +:+ s +:+ join s (b :: rest).
Proof.
  destruct rest as [|q rest]; [done|].
  change ((a +:+ s +:+ b) +:+ (s +:+ join s (q :: rest)) = a +:+ (s +:+ (b +:+ (s +:+ join s (q :: rest))))). by rewrite !append_assoc.
Qed.
Lemma merge_sorted_text l merged segs d :
  merged_text (merge_sorted l merged segs d) = foldl (fun m (r : Z * Value) => add_text r.2 m) merged l.
Proof. revert merged segs d. induction l as [|[i r] l IH]; intros merged segs d; [done|]. cbn. by rewrite IH. Qed.
Lemma add_text_of r m : text_of r <> Some EmptyString ->
  add_text r m = match text_of r with Some t => if is_empty m then t else m +:+ " " +:+ t | None => m end.
Proof.
  unfold add_text, text_of. intros Hne. destruct (get "text" r ≫= as_str) as [t|]; [|done].
  destruct (is_empty m) eqn:Hm; [|by rewrite append_assoc]. unfold is_empty in Hm. by rewrite bool_decide_eq_true in Hm; subst.
Qed.
Lemma merged_text_from l m : m <> EmptyString -> Forall (fun r : Z * Value => text_of r.2 <> Some EmptyString) l ->
  foldl (fun m (r : Z * Value) => add_text r.2 m) m l = join " " (m :: omap text_of l.*2).
Proof.
  intros Hm Hl. revert m Hm. induction Hl as [|[i r] l Hr _ IH]; intros m Hm; [done|]. cbn [foldl fmap list_fmap omap list_omap snd].
  rewrite add_text_of by done. cbn [snd] in Hr. destruct (text_of r) as [t|].
  - unfold is_empty. rewrite bool_decide_false by done. rewrite IH by (destruct m; cbn; congruence). apply join_glue.
  - by rewrite IH.
Qed.
(** The texts of the parts in their order, separated by spaces. *)
Lemma merged_text_join l segs d : Forall (fun r : Z * Value => text_of r.2 <> Some EmptyString) l ->
  merged_text (merge_sorted l EmptyString segs d) = join " " (omap text_of l.*2).
Proof.
  rewrite merge_sorted_text. induction 1 as [|[i r] l Hr Hl IH]; [done|]. cbn [foldl fmap list_fmap omap list_omap snd].
  rewrite add_text_of by done. cbn [snd] in Hr. destruct (text_of r) as [t|]; [|done].
  change (is_empty EmptyString) with true. cbv iota. apply merged_text_from; [|done]. intros ->. by apply Hr.
Qed.
Lemma sort_sorted l : StronglySorted earlier l -> sort_by_index l = l.
Proof.
  induction 1 as [|r l Hs IH Hall]; [done|]. change (insert_result r (sort_by_index l) = r :: l).
  rewrite IH. destruct l as [|r' l]; [done|]. cbn.
  apply Forall_cons in Hall as [Hle _]. by rewrite decide_True.
Qed.
Lemma seqZ_sorted n k : StronglySorted Z.le (seqZ k (Z.of_nat n)).
Proof.
  revert k. induction n as [|n IH]; intros k; [rewrite seqZ_nil by lia; constructor|]. rewrite seqZ_cons by lia.
  replace (Z.pred (Z.of_nat (S n))) with (Z.of_nat n) by lia. constructor; [apply IH|].
  apply Forall_forall. intros x Hx%elem_of_seqZ. lia.
Qed.
Lemma earlier_by_index l : StronglySorted Z.le l.*1 -> StronglySorted earlier l.
Proof.
  induction l as [|[i r] l IH]; intros Hs; [constructor|]. cbn in Hs. apply StronglySorted_inv in Hs as [Hs Hall].
  constructor; [by apply IH|]. rewrite Forall_fmap in Hall. exact Hall.
Qed.
(** The parts are numbered in their order. *)
Lemma cut_indexes p w fuel offset k chunks : cut p w fuel offset k = Ok chunks -> index <$> chunks = seqZ k (Z.of_nat (length chunks)).
Proof.
  revert offset k chunks. induction fuel as [|fuel IH]; intros offset k chunks; cbn [cut]; [by intros [= <-]|].
  case_decide; [|by intros [= <-]]. intros (u & _ & Hr)%bind_Ok. apply bind_Ok in Hr as (wav & _ & Hr).
  apply bind_Ok in Hr as (rest & Hrest & [= <-]). apply IH in Hrest. cbn [fmap list_fmap length]. rewrite Hrest.
  rewrite (seqZ_cons k) by lia. cbn. f_equal. f_equal; lia.
Qed.
Lemma split_indexes self audio content_type chunks : split_audio self audio content_type = Ok chunks ->
  index <$> chunks = seqZ 0 (Z.of_nat (length chunks)).
Proof.
  unfold split_audio. case_match; [by intros [= <-]|]. case_decide; [|by intros [= <-]].
  unfold split_wav. intros (w & _ & Hr)%bind_Ok. apply bind_Ok in Hr as (p & _ & Hr). by eapply cut_indexes.
Qed.

(** ** Examples *)
(** Two bytes a frame, two frames a second, the fmt chunk first or last. *)
Definition demo_fmt : bytes := as_bytes "fmt " ++ le_bytes 4 16 ++ le_bytes 2 1 ++ le_bytes 2 1 ++ le_bytes 4 2 ++ le_bytes 4 4 ++
  le_bytes 2 2 ++ le_bytes 2 16.
Definition demo_samples : bytes := byte_of_Z <$> seqZ 0 24.
Definition demo_data : bytes := as_bytes "data" ++ le_bytes 4 24 ++ demo_samples.
Definition demo_riff (body : bytes) : bytes := as_bytes "RIFF" ++ le_bytes 4 (4 + len body) ++ as_bytes "WAVE" ++ body.
Definition demo_wav : bytes := demo_riff (demo_fmt ++ demo_data).
Definition demo_splitter : AudioSplitter := MkSplitter 60 1.
Definition demo_read : Wav := MkWav (take 36 demo_wav) demo_samples 4 2.
Definition demo_plan : Plan := MkPlan 16 4.
Lemma split_windows_exact_witness :
  read_wav demo_wav = Ok demo_read /\ count demo_plan demo_read = 2%Z /\
  split_wav demo_splitter demo_wav = Ok (part_at demo_plan demo_read <$> [0; 1]%Z) /\
  mjoin (fresh demo_plan demo_read <$> [0; 1]%Z) = demo_samples.
Proof.
  assert (read_wav demo_wav = Ok demo_read) as Hr by (vm_compute; reflexivity).
  assert (plan_chunks demo_splitter demo_read = Ok demo_plan) as Hp by (vm_compute; reflexivity).
  assert (count demo_plan demo_read = 2%Z) as Hc by (vm_compute; reflexivity).
  destruct (split_windows_exact demo_splitter demo_wav demo_read demo_plan Hr Hp) as (Hs & _ & Hf & _); [cbn; lia|vm_compute; discriminate|].
  rewrite Hc in Hs, Hf. split; [exact Hr|]. split; [exact Hc|]. split; [exact Hs|exact Hf].
Defined.
Lemma parts_are_wav_files_witness : exists w,
  read_wav (data (part_at demo_plan demo_read 1)) = Ok w /\ audio_samples w = drop 12 demo_samples /\ block_align w = 2%Z.
Proof.
  eexists. split.
  - apply (parts_are_wav_files demo_splitter demo_wav demo_read demo_plan 1).
    + vm_compute; reflexivity.
    + eexists. split; vm_compute; reflexivity.
    + vm_compute; reflexivity.
    + cbn; lia.
    + vm_compute; discriminate.
    + vm_compute. split; [discriminate|reflexivity].
  - split; vm_compute; reflexivity.
Defined.
(** With the data before the format the file is accepted, but its parts lose the
    format: the header copied to them ends where the data begins. *)
Lemma late_format_is_lost : exists chunks,
  split_wav demo_splitter (demo_riff (demo_data ++ demo_fmt)) = Ok chunks /\ chunks <> [] /\
  forall c, c ∈ chunks -> is_ok (read_wav (data c)) = false.
Proof.
  eexists. split; [vm_compute; reflexivity|]. split; [discriminate|].
  intros c Hc. repeat (apply elem_of_cons in Hc as [->|Hc]; [vm_compute; reflexivity|]). by apply elem_of_nil in Hc.
Qed.
End Audio.
