(* ===== verification/Media.v ===== *)
(** * Speech, transcription, embeddings and the model lists

    The remaining routes of [src/src/web/openai.rs], from the decrypted request to
    the answer before it is encrypted.  The network and the billing service are
    inputs: each attempt meets its own network, and each part of an audio file,
    sent concurrently with the others, its own attempts. *)

From Stdlib Require Import Floats.SpecFloat.
From S2P Require Import Prelude Text Crypto Api Json Encrypt OsFlags Models Routing Database ProviderClient Billing Completions Audio.

Module Media.
Import Completions.

Definition MAX_AUDIO_SIZE : Z := 100 * 1024 * 1024.
Definition TTS_BILLING_CHECK_TIMEOUT : Z := secs 5.
Definition TTS_PROVIDER_TIMEOUT : Z := secs 120.
Definition MAX_TTS_INPUT_CHARS : Z := 100000.

(** ** Data *)
Record TranscriptionParams := MkParams {
  audio_data : bytes; filename : string; p_content_type : string; p_language : option string; prompt : option string;
  response_format : string; temperature : option spec_float }.
Record TranscriptionRequest := MkTranscription {
  file : string; tr_filename : string; tr_content_type : string; tr_model : string; tr_language : option string;
  tr_prompt : option string; tr_response_format : string; tr_temperature : option spec_float }.
Definition default_transcription_filename : string := "audio.mp3".
Definition default_transcription_content_type : string := "audio/mpeg".
Definition default_transcription_model : string := "whisper-large-v3".
Definition default_transcription_response_format : string := "json".
Record EmbeddingRequest := MkEmbedding {
  input : Value; e_model : string; encoding_format : option string; dimensions : option Z; e_user : option string }.
Definition default_embedding_model : string := "nomic-embed-text".
Inductive TTSRequestValidationError := EmptyInput | InputTooLong | UnsupportedModel.
Record PreparedTTSRequest := MkPrepared { pt_model : string; voice_for_log : string; provider_payload : list (string * Value) }.
Inductive TTSBillingAccess := Allowed | FreeOrExhausted | Unavailable.

(** An answer of a provider. *)
Record MediaResponse := MkMedia {
  m_status : Z; m_content_type : option string; m_body : outcome string bytes }.
Definition m_is_success (r : MediaResponse) : bool := bool_decide (200 <= m_status r < 300)%Z.

(** ** Speech *)
Definition VOXTRAL_TTS_MODEL : string := "voxtral-tts".
Definition DEFAULT_VOXTRAL_TTS_VOICE : string := "neutral_female".
Definition VOXTRAL_TTS_VOICE_CONDITIONING_FIELDS : list string := ["voice"; "speaker"; "ref_audio"; "references"].

Definition prepare_tts_request (payload : list (string * Value)) : outcome TTSRequestValidationError PreparedTTSRequest :=
  input ← ok_or EmptyInput (member "input" payload ≫= as_str);
  if is_empty (trim input) then Err EmptyInput
  else if decide (MAX_TTS_INPUT_CHARS < Z.of_nat (char_count input))%Z then Err InputTooLong
  else
    _ ← match member "model" payload with
        | Some model => if decide (as_str model = Some VOXTRAL_TTS_MODEL) then Ok tt else Err UnsupportedModel
        | None => Ok tt
        end;
    let payload := match member "model" payload with
                   | Some _ => payload
                   | None => set_member "model" (Str VOXTRAL_TTS_MODEL) payload
                   end in
    let payload :=
      if existsb (fun field => bool_decide (is_Some (member field payload))) VOXTRAL_TTS_VOICE_CONDITIONING_FIELDS then payload
      else set_member "voice" (Str DEFAULT_VOXTRAL_TTS_VOICE) payload in
    Ok (MkPrepared VOXTRAL_TTS_MODEL
      (match member "voice" payload with
       | Some (Str voice) => voice
       | Some Null => "<null>"
       | Some _ => "<non-string>"
       | None => "<provider-conditioned>"
       end) payload).

Definition tts_billing_access_decision (access : TTSBillingAccess) : outcome Api.ApiError unit :=
  match access with
  | Allowed => Ok tt
  | FreeOrExhausted => Err Api.UsageLimitReached
  | Unavailable => Err Api.ServiceUnavailable
  end.
(** The lookup of the billing client, if there is one. *)
Definition tts_access (client : option Billing.Lookup) : TTSBillingAccess :=
  match client with
  | None => Unavailable
  | Some l =>
      match Billing.answers_at l with
      | Some t =>
          if decide (TTS_BILLING_CHECK_TIMEOUT < t)%Z then Unavailable
          else match Billing.answer l with
               | Ok usage => if Billing.paid_feature_access usage then Allowed else FreeOrExhausted
               | _ => Unavailable
               end
      | None => Unavailable
      end
  end.
Definition ensure_paid_tts_access (client : option Billing.Lookup) : outcome Api.ApiError unit :=
  tts_billing_access_decision (tts_access client).

(** ** Guests

    [is_user_paid] has no time limit: [client] is the answer it gives, if billing
    is configured. *)
Definition guest_allowed (user : Db.User) (client : option (outcome Billing.BillingError Billing.UsageResponse))
    : outcome Api.ApiError unit :=
  if is_guest user then
    match client with
    | Some (Ok usage) => if negb (Billing.is_free usage) then Ok tt else Err Api.Unauthorized
    | Some _ | None => Err Api.Unauthorized
    end
  else Ok tt.

(** ** The form of a transcription request *)
(** [f64]'s [Display]. *)
Class F64Display := { display_f64 : spec_float -> string }.
Definition crlf : string := String carriage_return nl.
Definition quote : ascii := ascii_of_nat 34.
Definition quoted (s : string) : string := String quote (s +:+ String quote EmptyString).
Definition sanitize_form_field (value : string) : string :=
  string_of_list_ascii (filter (fun c => c <> carriage_return /\ c <> newline) (list_ascii_of_string value)).
Definition safe_filename_char (c : list nat) : list nat :=
  match c with
  | [b] => if between 48 57 b || between 65 90 b || between 97 122 b || bool_decide (b ∈ [46; 95; 45]) then [b] else [95]
  | _ => [95]
  end.
Definition safe_filename (name : string) : string := of_codes (mjoin (safe_filename_char <$> chars name)).
Definition form_field (boundary name value : string) : bytes :=
  as_bytes ("--" +:+ boundary +:+ crlf +:+ "Content-Disposition: form-data; name=" +:+ quoted name +:+ crlf +:+ crlf +:+
    value +:+ crlf).
Definition file_field (boundary : string) (params : TranscriptionParams) : bytes :=
  as_bytes ("--" +:+ boundary +:+ crlf +:+ "Content-Disposition: form-data; name=" +:+ quoted "file" +:+ "; filename=" +:+
    quoted (safe_filename (filename params)) +:+ crlf +:+
    "Content-Type: " +:+ sanitize_form_field (p_content_type params) +:+ crlf +:+ crlf) ++
  audio_data params ++ as_bytes crlf.
Definition optional_field (boundary name : string) (value : option string) : bytes :=
  match value with Some v => form_field boundary name v | None => [] end.

Section form.
Context `{F64Display}.
Definition form_data (boundary model : string) (params : TranscriptionParams) : bytes :=
  form_field boundary "model" (sanitize_form_field model) ++ file_field boundary params ++
  optional_field boundary "language" (sanitize_form_field <$> p_language params) ++
  optional_field boundary "prompt" (sanitize_form_field <$> prompt params) ++
  form_field boundary "response_format" (sanitize_form_field (response_format params)) ++
  optional_field boundary "temperature" (display_f64 <$> temperature params) ++
  as_bytes ("--" +:+ boundary +:+ "--" +:+ crlf).
End form.
Definition transcription_model_for_provider (model_name provider_name : string) : string :=
  if decide (model_name = "whisper-large-v3" /\ provider_name = "tinfoil") then "whisper-large-v3-turbo"
  else if decide (model_name = "whisper-large-v3-turbo" /\ provider_name <> "tinfoil") then "whisper-large-v3"
  else model_name.

(** ** Calls *)
Section calls.
Context `{Crypto, SerdeJson, Outbound.Http, F64Display}.

Definition post (path content_type : string) (body : bytes) (timeout : Z) : Outbound.ProviderRequest :=
  Outbound.MkRequest "POST" path None (Some content_type) (Some body) timeout.
(** The JSON of a successful answer. *)
Definition json_answer (res : MediaResponse) : Svc Value :=
  if m_is_success res then
    body ← st_lift (map_err (fun _ => Api.InternalServerError) (m_body res));
    st_lift (ok_or Api.InternalServerError (from_slice body))
  else st_err Api.InternalServerError.

Section transcription.
(** The boundary of the form and the network of each attempt. *)
Context (boundary : nat -> string) (net : nat -> Outbound.Network MediaResponse).

Definition transcription_request (attempt : nat) (model : string) (params : TranscriptionParams) : Outbound.ProviderRequest :=
  post "/v1/audio/transcriptions" ("multipart/form-data; boundary=" +:+ boundary attempt)
    (form_data (boundary attempt) model params) REQUEST_TIMEOUT.
Definition send_transcription_request (attempt : nat) (provider : Proxy.ProxyConfig) (model : string) (params : TranscriptionParams)
    : Svc Value :=
  res ← svc_map_err (Outbound.send (net attempt) provider (transcription_request attempt model params));
  json_answer res.
Definition send_for (attempt : nat) (provider : Proxy.ProxyConfig) (model_name : string) (params : TranscriptionParams) : Svc Value :=
  send_transcription_request attempt provider
    (transcription_model_for_provider model_name (Proxy.provider_name provider)) params.

Definition MAX_CYCLES : nat := 3.
(** The cycles left, the attempts made, the last error. *)
Fixpoint send_cycles (cycles attempt : nat) (last_error : option Api.ApiError) (primary : Proxy.ProxyConfig)
    (fallback : option Proxy.ProxyConfig) (model_name : string) (params : TranscriptionParams) : Svc Value :=
  match cycles with
  | 0 => st_err (default Api.InternalServerError last_error)
  | S cycles => fun log =>
      match send_for attempt primary model_name params log with
      | (Err err, log) =>
          match fallback with
          | None => send_cycles cycles (S attempt) (Some err) primary fallback model_name params log
          | Some provider =>
              match send_for (S attempt) provider model_name params log with
              | (Err err, log) => send_cycles cycles (S (S attempt)) (Some err) primary fallback model_name params log
              | answered => answered
              end
          end
      | answered => answered
      end
  end.
Definition send_transcription_with_retries (primary : Proxy.ProxyConfig) (fallback : option Proxy.ProxyConfig) (model_name : string)
    (params : TranscriptionParams) : Svc Value :=
  send_cycles MAX_CYCLES 0 None primary fallback model_name params.

(** The providers of a part: Tinfoil refuses large bodies. *)
Definition providers_for (proxies : Proxy.ProxyRouter) (chunk_size : Z) : Proxy.ProxyConfig * option Proxy.ProxyConfig :=
  let default_proxy := Proxy.get_default_proxy proxies in
  let tinfoil_proxy := Proxy.get_tinfoil_proxy proxies in
  if decide (Audio.TINFOIL_MAX_SIZE < chunk_size /\ Proxy.provider_name tinfoil_proxy = "tinfoil")%Z then (default_proxy, None)
  else (tinfoil_proxy, Some default_proxy).
Definition params_for (request : TranscriptionRequest) (data : bytes) : TranscriptionParams :=
  MkParams data (tr_filename request) (tr_content_type request) (tr_language request) (tr_prompt request)
    (tr_response_format request) (tr_temperature request).
Definition transcribe_chunk (proxies : Proxy.ProxyRouter) (request : TranscriptionRequest) (chunk : Audio.AudioChunk) : Svc Value :=
  let '(primary, fallback) := providers_for proxies (Audio.len (Audio.data chunk)) in
  send_transcription_with_retries primary fallback (tr_model request) (params_for request (Audio.data chunk)).
End transcription.

(** [join_all], then the first error; each part has its own log. *)
Fixpoint all_answers (results : list (Z * outcome Api.ApiError Value)) : outcome Api.ApiError (list (Z * Value)) :=
  match results with
  | [] => Ok []
  | (index, r) :: results => v ← r; rest ← all_answers results; Ok ((index, v) :: rest)
  end.
Definition float_json (f : option spec_float) : Value := match f with Some f => Number (NFloat f) | None => Null end.
Definition segment_json (s : Audio.TranscriptionSegment) : Value :=
  Object [("text", Str (Audio.text s)); ("start", float_json (Audio.start s)); ("end", float_json (Audio.stop s));
          ("chunk_index", int (Audio.chunk_index s))].
Definition merged_json (m : Audio.MergedTranscription) : Value :=
  let response := [("text", Str (Audio.merged_text m))] in
  let response := match Audio.language m with Some lang => set_member "language" (Str lang) response | None => response end in
  Object (match Audio.segments m with
          | Some segments => set_member "segments" (Array (segment_json <$> segments)) response
          | None => response
          end).
Definition transcription_response (answers : list (Z * Value)) : outcome Api.ApiError Value :=
  match answers with
  | [] => Err Api.InternalServerError
  | [(_, response)] => Ok response
  | _ => merged_json <$> map_err (fun _ => Api.InternalServerError) (Audio.merge_transcriptions answers)
  end.
Definition transcription_file (request : TranscriptionRequest) : outcome Api.ApiError (list Audio.AudioChunk) :=
  file_bytes ← ok_or Api.BadRequest (base64_decode (file request));
  if decide (Audio.len file_bytes = 0)%Z then Err Api.BadRequest
  else if decide (MAX_AUDIO_SIZE < Audio.len file_bytes)%Z then Err Api.BadRequest
  else map_err (fun _ => Api.InternalServerError) (Audio.split_audio Audio.splitter_new file_bytes (tr_content_type request)).
Definition proxy_transcription (client : option (outcome Billing.BillingError Billing.UsageResponse))
    (boundary : Z -> nat -> string) (net : Z -> nat -> Outbound.Network MediaResponse) (proxies : Proxy.ProxyRouter)
    (user : Db.User) (request : TranscriptionRequest) : outcome Api.ApiError Value * list Outbound.Log :=
  match (_ ← guest_allowed user client; transcription_file request) with
  | Ok chunks =>
      let results := (fun chunk => (Audio.index chunk,
        transcribe_chunk (boundary (Audio.index chunk)) (net (Audio.index chunk)) proxies request chunk [])) <$> chunks in
      (answers ← all_answers ((fun r => (r.1, r.2.1)) <$> results); transcription_response answers, (fun r => r.2.2) <$> results)
  | Err e => (Err e, [])
  | Panic => (Panic, [])
  end.

(** ** Speech and embeddings *)
Section routes.
Context (net : Outbound.Network MediaResponse) (proxies : Proxy.ProxyRouter).

Definition build_tts_response_payload (body : bytes) (content_type : string) : Value :=
  Object [("content_base64", Str (base64_encode body)); ("content_type", Str content_type)].
Definition tts_error (e : TTSRequestValidationError) : Api.ApiError :=
  match e with InputTooLong => Api.PayloadTooLarge | _ => Api.BadRequest end.
Definition tts_exchange (payload : list (string * Value)) : Svc Value :=
  res ← svc_map_err (Outbound.send net (Proxy.get_tinfoil_proxy proxies)
          (post "/v1/audio/speech" "application/json" (as_bytes (to_string (Object payload))) TTS_PROVIDER_TIMEOUT));
  if m_is_success res then
    body ← st_lift (map_err (fun _ => Api.InternalServerError) (m_body res));
    st_ok (build_tts_response_payload body (default "application/octet-stream" (m_content_type res)))
  else st_err Api.InternalServerError.
(** [elapsed]: the time limit around the exchange strikes. *)
Definition within_limit {A} (elapsed : bool) (m : Svc A) : Svc A :=
  if elapsed then fun log => (Err Api.InternalServerError, (m log).2) else m.
Definition proxy_tts (client : option Billing.Lookup) (elapsed : bool) (payload : list (string * Value)) : Svc Value :=
  prepared ← st_lift (map_err tts_error (prepare_tts_request payload));
  _ ← st_lift (ensure_paid_tts_access client);
  within_limit elapsed (tts_exchange (provider_payload prepared)).

Definition optional_member (name : string) (v : option Value) : list (string * Value) :=
  match v with Some v => [(name, v)] | None => [] end.
Definition embedding_json (r : EmbeddingRequest) : Value :=
  Object ([("input", input r); ("model", Str (e_model r))] ++ optional_member "encoding_format" (Str <$> encoding_format r) ++
    optional_member "dimensions" (int <$> dimensions r) ++ optional_member "user" (Str <$> e_user r)).
Definition input_is_empty (input : Value) : bool :=
  match input with Str s => is_empty (trim s) | Array arr => bool_decide (arr = []) | _ => true end.
(** [as i32]. *)
Definition as_i32 (z : Z) : Z := ((z + 2 ^ 31) mod 2 ^ 32 - 2 ^ 31)%Z.
Definition embedding_effects (env : Completions.Billing) (user : Db.User) (method : AuthMethod) (request : EmbeddingRequest) (provider : string)
    (response : Value) : list Effect :=
  match get "usage" response with
  | Some usage =>
      let prompt_tokens := as_i32 (default 0%Z (get "prompt_tokens" usage ≫= as_i64)) in
      if decide (0 < prompt_tokens)%Z then
        publish_usage_event_internal env (MkPayer (Db.uuid user) (MkBilling method (e_model request)) provider)
          (MkUsage prompt_tokens 0 None) []
      else []
  | None => []
  end.
Definition proxy_embeddings (client : option (outcome Billing.BillingError Billing.UsageResponse)) (env : Completions.Billing)
    (user : Db.User) (method : AuthMethod) (request : EmbeddingRequest) : Svc (Value * list Effect) :=
  _ ← st_lift (guest_allowed user client);
  if input_is_empty (input request) then st_err Api.BadRequest
  else
    let proxy_config := Proxy.get_tinfoil_proxy proxies in
    res ← svc_map_err (Outbound.send net proxy_config
            (post "/v1/embeddings" "application/json" (as_bytes (to_string (embedding_json request))) REQUEST_TIMEOUT));
    response_json ← json_answer res;
    st_ok (response_json, embedding_effects env user method request (Proxy.provider_name proxy_config) response_json).

(** ** The model lists *)
Definition fetch_provider_models (proxy_config : Proxy.ProxyConfig) : Svc Value :=
  res ← svc_map_err (Outbound.send net proxy_config (Outbound.request_new "GET" "/v1/models" REQUEST_TIMEOUT));
  json_answer res.
Definition proxy_models (access : Models.ModelFeatureAccess) : Svc Value :=
  let proxy_config := Proxy.get_completion_proxy proxies in
  models_response ← (if decide (Proxy.provider_name proxy_config = "tinfoil") then st_ok (Models.openai_models_response access)
                     else fetch_provider_models proxy_config);
  st_ok (Models.filter_model_list_response_for_access models_response access).
Definition proxy_model_catalog (flags : list string -> option (gmap string bool)) (billing : option Billing.ChatBillingAccess)
    : outcome Api.ApiError Value :=
  lift (Models.model_catalog_response (model_feature_access flags) (model_alias_targets flags (paid_plan billing))).
End routes.
End calls.

(** ** What is sent *)
(** A member of the object sent for speech, from the caller's. *)
Definition conditioned (payload : list (string * Value)) : bool :=
  existsb (fun field => bool_decide (is_Some (member field payload))) VOXTRAL_TTS_VOICE_CONDITIONING_FIELDS.
Definition speech_member (payload : list (string * Value)) (k : string) : option Value :=
  if decide (k = "model") then Some (Str VOXTRAL_TTS_MODEL)
  else if decide (k = "voice") then (if conditioned payload then member "voice" payload else Some (Str DEFAULT_VOXTRAL_TTS_VOICE))
  else member k payload.
Definition speakable (payload : list (string * Value)) : Prop :=
  exists text, member "input" payload = Some (Str text) /\ trim text <> EmptyString /\
    (Z.of_nat (char_count text) <= MAX_TTS_INPUT_CHARS)%Z /\
    (member "model" payload = None \/ member "model" payload = Some (Str VOXTRAL_TTS_MODEL)).

Lemma prepare_tts_request_Ok payload p : prepare_tts_request payload = Ok p ->
  speakable payload /\ forall k, member k (provider_payload p) = speech_member payload k.
Proof.
  unfold prepare_tts_request. intros (text & Ht & Hr)%bind_Ok. apply ok_or_Ok in Ht.
  destruct (member "input" payload) as [[| | |input| |]|] eqn:Hinput; try done. injection Ht as <-.
  destruct (is_empty (trim input)) eqn:Hempty; [done|]. case_decide as Hlen; [done|].
  apply bind_Ok in Hr as ([] & Hm & [= <-]). cbn [provider_payload].
  assert (member "model" payload = None \/ member "model" payload = Some (Str VOXTRAL_TTS_MODEL)) as Hmodel.
  { destruct (member "model" payload) as [[| | |m| |]|]; try (by left); case_decide as Hd; try done. injection Hd as ->. by right. }
  split.
  - exists input. split_and!; [done| |lia|done]. unfold is_empty in Hempty. by rewrite bool_decide_eq_false in Hempty.
  - set (with_model := match member "model" payload with Some _ => payload | None => _ end).
    assert (forall k, k <> "model" -> member k with_model = member k payload) as Hother.
    { intros k Hk. unfold with_model. destruct (member "model" payload); [done|]. by apply member_set_ne. }
    assert (member "model" with_model = Some (Str VOXTRAL_TTS_MODEL)) as Hwm.
    { unfold with_model. destruct Hmodel as [Hm' |Hm']; rewrite Hm'; [apply member_set_eq|done]. }
    change (forall k, member k (if conditioned with_model then with_model else
      set_member "voice" (Str DEFAULT_VOXTRAL_TTS_VOICE) with_model) = speech_member payload k).
    assert (conditioned with_model = conditioned payload) as -> by (unfold conditioned; cbn; by rewrite !Hother by done).
    intros k. unfold speech_member. destruct (conditioned payload).
    + case_decide as H1; [by subst|]. case_decide as H2; [subst; by apply Hother|by apply Hother].
    + destruct (decide (k = "voice")) as [->|Hv]; [by rewrite member_set_eq|]. rewrite member_set_ne by done.
      case_decide; [by subst|]. by apply Hother.
Qed.
Lemma tts_access_Ok client u : ensure_paid_tts_access client = Ok u ->
  exists l t usage, client = Some l /\ Billing.answers_at l = Some t /\ (t <= TTS_BILLING_CHECK_TIMEOUT)%Z /\
    Billing.answer l = Ok usage /\ Billing.is_free usage = false /\ Billing.can_use usage = true.
Proof.
  unfold ensure_paid_tts_access, tts_access. destruct client as [l|]; [|done]. destruct (Billing.answers_at l) as [t|] eqn:Ht; [|done].
  case_decide; [done|]. destruct (Billing.answer l) as [usage| |] eqn:Ha; try done.
  destruct (Billing.paid_feature_access usage) eqn:Hp; [|done]. intros _. exists l, t, usage.
  unfold Billing.paid_feature_access in Hp. apply andb_true_iff in Hp as [?%negb_true_iff ?]. split_and!; try done. lia.
Qed.

Section sending.
Context `{cr : Crypto, sj : SerdeJson, Hh : Outbound.Http, fd : F64Display}.

(** What one exchange adds to the log: at most two requests, all with its body. *)
Definition sends (net : Outbound.Network MediaResponse) (provider : Proxy.ProxyConfig) (request : Outbound.ProviderRequest)
    (log log' : Outbound.Log) : Prop :=
  exists sent, log' = log ++ sent /\ Outbound.handed net provider request log sent.
Lemma svc_send_inv net provider request log r log' :
  svc_map_err (Outbound.send net provider request) log = (r, log') -> sends net provider request log log'.
Proof.
  unfold svc_map_err. destruct (Outbound.send net provider request log) as [r0 log0] eqn:Hs. intros [= _ <-].
  by eapply Outbound.send_handed.
Qed.
(** The rest of an exchange reads the answer only. *)
Lemma exchange_log {A} net provider request (f : MediaResponse -> Svc A) log r log' : (forall res log0, (f res log0).2 = log0) ->
  (res ← svc_map_err (Outbound.send net provider request); f res) log = (r, log') -> sends net provider request log log'.
Proof.
  intros Hf. unfold mbind, ST_bind. destruct (svc_map_err _ log) as [[res|e|] log1] eqn:Hs.
  - intros Hr. pose proof (Hf res log1) as Hl. rewrite Hr in Hl. cbn in Hl. subst. by eapply svc_send_inv.
  - intros [= _ <-]. by eapply svc_send_inv.
  - intros [= _ <-]. by eapply svc_send_inv.
Qed.
Lemma json_answer_log res log : (json_answer res log).2 = log.
Proof.
  unfold json_answer. destruct (m_is_success res); [|done]. unfold mbind, ST_bind, st_lift. by destruct (map_err _ _).
Qed.
Lemma tts_exchange_log net proxies payload log r log' : tts_exchange net proxies payload log = (r, log') ->
  sends net (Proxy.get_tinfoil_proxy proxies)
    (post "/v1/audio/speech" "application/json" (as_bytes (to_string (Object payload))) TTS_PROVIDER_TIMEOUT) log log'.
Proof.
  intros Hr. eapply exchange_log; [|exact Hr]. intros res log0. cbv beta. destruct (m_is_success res); [|done].
  unfold mbind, ST_bind, st_lift. by destruct (map_err _ _).
Qed.
Lemma sends_bodies net provider request log log' : sends net provider request log log' ->
  exists sent, log' = log ++ sent /\ Forall (fun '(_, w) => Outbound.w_body w = Outbound.body request) sent.
Proof. intros (sent & -> & Hs). exists sent. split; [done|]. by eapply Outbound.handed_bodies. Qed.

(** Nothing is spoken or embedded for an account that may not: a speech request
    reaches a provider only if the billing service said within its time limit that the
    plan is paid and not used up, with a text that is not blank and not too long and no
    other model; a request for embeddings only with something to embed and, for a
    guest, a paid plan.  A speech request carries the caller's members, the one model
    that is allowed, and the default voice exactly when the caller conditions none. *)
Theorem metered_routes_are_entitled (net : Outbound.Network MediaResponse) (proxies : Proxy.ProxyRouter)
    (lookup : option Billing.Lookup) (elapsed : bool) (payload : list (string * Value))
    (client : option (outcome Billing.BillingError Billing.UsageResponse)) (env : Completions.Billing)
    (user : Db.User) (method : AuthMethod) (request : EmbeddingRequest) (log : Outbound.Log) :
  (forall r log', proxy_tts net proxies lookup elapsed payload log = (r, log') ->
     log' = log \/
     (exists l t usage, lookup = Some l /\ Billing.answers_at l = Some t /\ (t <= TTS_BILLING_CHECK_TIMEOUT)%Z /\
        Billing.answer l = Ok usage /\ Billing.is_free usage = false /\ Billing.can_use usage = true) /\
     speakable payload /\
     exists sent fields, log' = log ++ sent /\ (forall k, member k fields = speech_member payload k) /\
       Forall (fun '(_, w) => Outbound.w_body w = Some (as_bytes (to_string (Object fields)))) sent) /\
  (forall r log', proxy_embeddings net proxies client env user method request log = (r, log') ->
     log' = log \/
     input_is_empty (input request) = false /\
     (Db.email user = None -> exists usage, client = Some (Ok usage) /\ Billing.is_free usage = false) /\
     exists sent, log' = log ++ sent /\
       Forall (fun '(_, w) => Outbound.w_body w = Some (as_bytes (to_string (embedding_json request)))) sent).
Proof.
  split; intros r log'.
  - unfold proxy_tts. unfold mbind at 1, ST_bind at 1, st_lift at 1.
    destruct (prepare_tts_request payload) as [p|e|] eqn:Hp; cbn [map_err]; [|by intros [= _ <-]; left..].
    unfold mbind, ST_bind, st_lift. destruct (ensure_paid_tts_access lookup) as [u|e|] eqn:Ha; [|by intros [= _ <-]; left..].
    intros Hr. right. apply prepare_tts_request_Ok in Hp as [Hs Hm]. apply tts_access_Ok in Ha. split; [done|]. split; [done|].
    assert (sends net (Proxy.get_tinfoil_proxy proxies)
      (post "/v1/audio/speech" "application/json" (as_bytes (to_string (Object (provider_payload p)))) TTS_PROVIDER_TIMEOUT) log log')
      as (sent & Hl & Hb)%sends_bodies.
    { unfold within_limit in Hr. destruct (tts_exchange net proxies (provider_payload p) log) as [r0 log0] eqn:Hx.
      assert (log0 = log') as <- by (destruct elapsed; rewrite Hx in Hr; by injection Hr).
      by eapply tts_exchange_log. }
    exists sent, (provider_payload p). by split_and!.
  - unfold proxy_embeddings, guest_allowed. unfold mbind at 1, ST_bind at 1, st_lift at 1.
    set (guard := if is_guest user then _ else _). destruct guard as [u|e|] eqn:Hg; [|by intros [= _ <-]; left..].
    destruct (input_is_empty (input request)) eqn:Hin; [by intros [= _ <-]; left|]. intros Hr. right. split; [done|]. split.
    + intros He. unfold guard, is_guest in Hg. rewrite bool_decide_true in Hg by done. destruct client as [[usage| |]|]; try done.
      exists usage. split; [done|]. by destruct (Billing.is_free usage).
    + eapply exchange_log, sends_bodies in Hr; [exact Hr|]. intros res log0. unfold mbind, ST_bind, st_ok.
      pose proof (json_answer_log res log0) as Hj. by destruct (json_answer res log0) as [[v| |] log1].
Qed.
End sending.

(** ** Transcription *)
Section transcribing.
Context `{cr : Crypto, sj : SerdeJson, Hh : Outbound.Http, fd : F64Display}.

(** Attempts one after another: the first answer, or the last error. *)
Fixpoint try_in_order (attempts : list (Svc Value)) (last_error : Api.ApiError) : Svc Value :=
  match attempts with
  | [] => st_err last_error
  | m :: attempts => fun log =>
      match m log with
      | (Err e, log) => try_in_order attempts e log
      | answered => answered
      end
  end.
(** The attempts of one part: three rounds, the primary provider first. *)
Definition attempts (boundary : nat -> string) (net : nat -> Outbound.Network MediaResponse) (proxies : Proxy.ProxyRouter)
    (request : TranscriptionRequest) (chunk : Audio.AudioChunk) : list (Svc Value) :=
  let params := params_for request (Audio.data chunk) in
  match providers_for proxies (Audio.len (Audio.data chunk)) with
  | (primary, None) => (fun i => send_for boundary net i primary (tr_model request) params) <$> seq 0 3
  | (primary, Some fallback) =>
      (fun i => send_for boundary net i (if Nat.even i then primary else fallback) (tr_model request) params) <$> seq 0 6
  end.
Lemma transcribe_attempts boundary net proxies request chunk log :
  transcribe_chunk boundary net proxies request chunk log =
  try_in_order (attempts boundary net proxies request chunk) Api.InternalServerError log.
Proof.
  unfold transcribe_chunk, attempts, send_transcription_with_retries, MAX_CYCLES.
  destruct (providers_for _ _) as [primary [fallback|]]; cbn [fmap list_fmap seq try_in_order send_cycles Nat.even].
  - do 6 (destruct (send_for _ _ _ _ _ _ _) as [[?|?|] ?]; [done| |done]). done.
  - do 3 (destruct (send_for _ _ _ _ _ _ _) as [[?|?|] ?]; [done| |done]). done.
Qed.

(** One part, with the boundaries and the network it meets. *)
Definition part_run (boundary : Z -> nat -> string) (net : Z -> nat -> Outbound.Network MediaResponse) (proxies : Proxy.ProxyRouter)
    (request : TranscriptionRequest) (c : Audio.AudioChunk) : outcome Api.ApiError Value * Outbound.Log :=
  try_in_order (attempts (boundary (Audio.index c)) (net (Audio.index c)) proxies request c) Api.InternalServerError [].
(** What the attempts of a list hand over. *)
Definition adds (n : nat) (ok : option Outbound.TinfoilClient -> Prop) (m : Svc Value) : Prop := forall log r log', m log = (r, log') ->
  exists sent, log' = log ++ sent /\ length sent <= n /\ Forall (fun h => ok h.1) sent.
Lemma send_for_adds boundary net i provider model params :
  adds 2 (fun c => Proxy.provider_name provider <> "tinfoil" -> c = None) (send_for boundary net i provider model params).
Proof.
  intros log r log' Hr. eapply exchange_log in Hr as (sent & -> & Hs); [|apply json_answer_log]. exists sent. split; [done|].
  destruct Hs; rewrite ?Forall_cons, ?Forall_nil; cbn; split_and!; try done; try lia; by intros.
Qed.
Lemma try_in_order_adds ok l e : Forall (adds 2 ok) l -> adds (2 * length l) ok (try_in_order l e).
Proof.
  intros Hl. revert e. induction Hl as [|m l Hm _ IH]; intros e log r log'; cbn [try_in_order].
  - intros [= _ <-]. exists []. by rewrite app_nil_r.
  - destruct (m log) as [[v|e'|] log1] eqn:Hr; apply Hm in Hr as (sent & -> & Hn & Hok).
    + intros [= _ <-]. exists sent. split_and!; [done|cbn; lia|done].
    + intros (sent' & -> & Hn' & Hok')%IH. exists (sent ++ sent'). rewrite app_assoc, length_app. split_and!; [done|cbn; lia|].
      by apply Forall_app.
    + intros [= _ <-]. exists sent. split_and!; [done|cbn; lia|done].
Qed.
Lemma attempts_adds boundary net proxies request chunk : let l := attempts boundary net proxies request chunk in
  length l <= 6 /\
  Forall (adds 2 (fun c => (Audio.TINFOIL_MAX_SIZE < Audio.len (Audio.data chunk))%Z ->
    Proxy.provider_name (Proxy.get_default_proxy proxies) <> "tinfoil" -> c = None)) l.
Proof.
  unfold attempts, providers_for. case_decide as Hlarge; cbn zeta iota beta; (split; [rewrite length_fmap, length_seq; lia|]);
    apply Forall_fmap, Forall_forall; intros i _ log r log' (sent & -> & Hn & Hok)%send_for_adds; exists sent; (split; [done|]); (split; [done|]);
    (eapply Forall_impl; [exact Hok|]); intros h Hh' Hsize Hname; apply Hh'; try done.
  destruct (Nat.even i); [|done]. intros Heq. by apply Hlarge.
Qed.
Lemma merged_json_text m : get "text" (merged_json m) = Some (Str (Audio.merged_text m)).
Proof.
  unfold merged_json, get. destruct (Audio.segments m); rewrite ?member_set_ne by done;
    destruct (Audio.language m); by rewrite ?member_set_ne by done.
Qed.
Lemma all_answers_Ok l answers : all_answers l = Ok answers <->
  Forall2 (fun r (a : Z * Value) => r.1 = a.1 /\ r.2 = Ok a.2) l answers.
Proof.
  revert answers. induction l as [|[i r] l IH]; intros answers; cbn.
  - split; [intros [= <-]; constructor|by inversion 1].
  - split.
    + intros (v & -> & (rest & Hrest & [= <-])%bind_Ok)%bind_Ok. constructor; [done|]. by apply IH.
    + intros ([i' v] & rest & [Hi Hv] & Hrest%IH & ->)%Forall2_cons_inv_l. cbn in Hi, Hv. subst. cbn. by rewrite Hrest.
Qed.
Lemma all_answers_Err l e : all_answers l = Err e -> exists r, r ∈ l /\ r.2 = Err e.
Proof.
  induction l as [|[i r] l IH]; cbn; [done|]. destruct r as [v|e'|]; cbn; [|intros [= ->]; exists (i, Err e); split; [by left|done]|done].
  destruct (all_answers l) as [?|e'|]; cbn; [done| |done]. intros [= ->]. destruct IH as (r & ? & ?); [done|]. exists r. split; [by right|done].
Qed.
Lemma all_answers_Panic l : all_answers l = Panic -> exists r, r ∈ l /\ r.2 = Panic.
Proof.
  induction l as [|[i r] l IH]; cbn; [done|]. destruct r as [v|e'|]; cbn; [|done|intros _; exists (i, Panic); split; [by left|done]].
  destruct (all_answers l) as [?|e'|]; cbn; [done|done|]. intros _. destruct IH as (r & ? & ?); [done|]. exists r. split; [by right|done].
Qed.

(** A transcription is complete or an error.  When the file is accepted, each part is
    sent on its own: at most six attempts of at most two requests, Tinfoil and the
    default provider in turn, and the default provider alone for a part that is too
    large for Tinfoil; the part's answer is that of its first attempt to succeed, else
    the error of its last.  An answer means an answer to every part: the one answer
    itself, or else a text that joins the texts of the parts in their order in the file,
    however the parts were interleaved. *)
Theorem transcription_exact client boundary net proxies user request chunks :
  guest_allowed user client = Ok tt -> transcription_file request = Ok chunks ->
  let part := part_run boundary net proxies request in
  let '(r, logs) := proxy_transcription client boundary net proxies user request in
  logs = (fun c => (part c).2) <$> chunks /\
  (forall c, c ∈ chunks -> length (part c).2 <= 12 /\
     ((Audio.TINFOIL_MAX_SIZE < Audio.len (Audio.data c))%Z ->
      Proxy.provider_name (Proxy.get_default_proxy proxies) <> "tinfoil" -> Forall (fun h => h.1 = None) (part c).2)) /\
  match r with
  | Ok v => exists answers, Forall2 (fun c a => (part c).1 = Ok a) chunks answers /\
      (answers = [v] \/ 2 <= length answers /\
         (Forall (fun a => Audio.text_of a <> Some EmptyString) answers ->
          get "text" v = Some (Str (join " " (omap Audio.text_of answers)))))
  | Err e => chunks = [] \/ exists c, c ∈ chunks /\ (part c).1 = Err e
  | Panic => exists c, c ∈ chunks /\ (part c).1 = Panic
  end.
Proof.
  intros Hguest Hfile. intros part. unfold proxy_transcription. rewrite Hguest, Hfile. cbn [mbind outcome_bind].
  match goal with |- context [?f <$> chunks] => set (results := f <$> chunks) end.
  assert (results = (fun c => (Audio.index c, part c)) <$> chunks) as ->.
  { unfold results, part, part_run. apply list_fmap_ext. intros i c _. by rewrite transcribe_attempts. }
  split; [by rewrite <- list_fmap_compose|]. split.
  { intros c Hc. destruct (attempts_adds (boundary (Audio.index c)) (net (Audio.index c)) proxies request c) as [Hlen Hall].
    destruct (part c) as [r log'] eqn:Hr. apply (try_in_order_adds _ _ _ Hall) in Hr as (sent & -> & Hn & Hok). cbn [app snd].
    split; [lia|]. intros Hsize Hname. eapply Forall_impl; [exact Hok|]. intros h Hh'. by apply Hh'. }
  rewrite <- list_fmap_compose. unfold compose. cbn [fst snd].
  destruct (all_answers _) as [answers|e|] eqn:Ha; cbn [mbind outcome_bind].
  - apply all_answers_Ok in Ha. rewrite Forall2_fmap_l in Ha. cbn in Ha.
    assert (Forall2 (fun c a => (part c).1 = Ok a) chunks answers.*2) as Hparts.
    { rewrite Forall2_fmap_r. eapply Forall2_impl; [exact Ha|]. by intros c a [_ ?]. }
    assert (answers.*1 = Audio.index <$> chunks) as Hindex.
    { clear -Ha. induction Ha as [|c a l l' [Hi _] _ IH]; [done|]. cbn in Hi |- *. by rewrite IH, Hi. }
    destruct answers as [|a1 [|a2 answers]].
    + left. by apply Forall2_nil_inv_r in Hparts.
    + destruct a1 as [i1 v1]. cbn. exists [v1]. split; [done|by left].
    + unfold transcription_response. destruct a1 as [i1 v1]. set (l := (i1, v1) :: a2 :: answers) in *.
      assert (Audio.sort_by_index l = l) as Hsort.
      { apply Audio.sort_sorted. unfold transcription_file in Hfile. apply bind_Ok in Hfile as (audio & _ & Hfile).
        do 2 (case_decide; [done|]). apply map_err_Ok, Audio.split_indexes in Hfile.
        apply Audio.earlier_by_index. rewrite Hindex, Hfile. apply Audio.seqZ_sorted. }
      cbn [map_err fmap outcome_fmap]. exists l.*2. split; [exact Hparts|]. right. split; [cbn; lia|]. intros Hne.
      rewrite merged_json_text, Hsort, Audio.merged_text_join; [done|]. by rewrite Forall_fmap in Hne.
  - right. apply all_answers_Err in Ha as (r & (c & -> & Hc)%list_elem_of_fmap & He). by exists c.
  - apply all_answers_Panic in Ha as (r & (c & -> & Hc)%list_elem_of_fmap & He). by exists c.
Qed.
End transcribing.

(** ** Examples *)
#[local] Existing Instances ToyCrypto.toy Outbound.toy_http Outbound.toy_http_laws.
#[local] Instance demo_serde : SerdeJson := {| from_str s := Some (Object [("text", Str s)]); to_string _ := "{}" |}.
#[local] Instance demo_display : F64Display := {| display_f64 _ := "0.5" |}.
Definition demo_proxies : Proxy.ProxyRouter :=
  Proxy.MkRouter (Proxy.MkProxy "https://continuum.example" None "continuum") (Proxy.MkProxy "https://tinfoil.example" None "tinfoil").
Definition demo_client : Outbound.TinfoilClient := Outbound.MkClient 0 "enclave.example" "key".
(** The first attempt meets a provider that refuses; the second answers. *)
Definition demo_network (attempt : nat) : Outbound.Network MediaResponse :=
  Outbound.MkNetwork MediaResponse (Some demo_client) (fun _ => Ok tt)
    (fun _ _ _ => Outbound.Response (MkMedia 503 None (Ok []))) (fun _ => Ok demo_client) (fun _ => false)
    (fun _ => Ok (MkMedia 200 None (Ok (as_bytes "hello")))).
Definition demo_request : TranscriptionRequest :=
  MkTranscription (base64_encode (as_bytes "AB")) "a b.wav" "audio/wav" "whisper-large-v3" (Some "en") None "json" None.
Definition demo_user : Db.User := Db.MkUser 1 [] None (Some "a@example.com") None 0 0 1.
Lemma transcription_exact_witness :
  let '(r, logs) := proxy_transcription None (fun _ _ => "b") (fun _ => demo_network) demo_proxies demo_user demo_request in
  r = Ok (Object [("text", Str "hello")]) /\ length <$> logs = [2] /\ (mjoin logs).*1 = [Some demo_client; None].
Proof.
  pose proof (transcription_exact None (fun _ _ => "b") (fun _ => demo_network) demo_proxies demo_user demo_request
    [Audio.MkChunk (as_bytes "AB") Audio.zero_seconds Audio.zero_seconds 0]) as Hex.
  destruct (proxy_transcription _ _ _ _ _ _) as [r logs] eqn:Hr. destruct Hex as [Hlogs _].
  - vm_compute; reflexivity.
  - vm_compute; reflexivity.
  - rewrite Hlogs. vm_compute in Hr. injection Hr as <- _. split_and!; vm_compute; reflexivity.
Defined.
Definition demo_lookup (free : bool) : option Billing.Lookup := Some (Billing.MkLookup (Some 0%Z) (Ok (Billing.MkUsage true free))).
Definition demo_speech : list (string * Value) := [("input", Str "hi")].
Definition demo_tts (free : bool) := proxy_tts (demo_network 0) demo_proxies (demo_lookup free) false demo_speech [].
Definition demo_embedding : EmbeddingRequest := MkEmbedding (Str " ") default_embedding_model None None None.
Lemma metered_routes_are_entitled_witness :
  (demo_tts true).1 = Err Api.UsageLimitReached /\ (demo_tts true).2 = [] /\ length (demo_tts false).2 = 1 /\ speakable demo_speech.
Proof.
  split; [vm_compute; reflexivity|]. split; [vm_compute; reflexivity|]. split; [vm_compute; reflexivity|].
  destruct (metered_routes_are_entitled (demo_network 0) demo_proxies (demo_lookup false) false demo_speech None
    (MkBillingEnv false (fun _ => []) (fun _ => 0%Z)) demo_user Jwt demo_embedding []) as [Htts _].
  destruct (demo_tts false) as [r log'] eqn:Hr. destruct (Htts r log' Hr) as [->|(_ & Hs & _)]; [|exact Hs].
  exfalso. vm_compute in Hr. discriminate Hr.
Defined.
End Media.
