(* ===== verification/Conversations.v ===== *)
(** * Conversations, projects and instructions in the database

    The rows and queries of [src/src/models/responses.rs] for conversations,
    conversation projects and user instructions, and the [DBConnection] methods of
    [src/src/db.rs] on them: ownership filters, cascades, unique indexes, the
    [updated_at] triggers and the list queries with a cursor.  The items of a
    conversation are the tables of [Responses]. *)

From S2P Require Import Prelude Text Json Crypto Encrypt Conversions Database Statements Pagination Responses.

Module Conversations.
Import Sql.
Abbreviation Uuid := Encrypt.Uuid.
Abbreviation DBError := Responses.DBError.
Abbreviation ResponsesError := Responses.ResponsesError.
Abbreviation Raw := Conversions.RawThreadMessage.

(** ** Rows *)
Record ConversationProject := MkProject {
  p_id : Z; p_uuid : Uuid; p_user_id : Uuid; p_name_enc : bytes; p_created_at : Z; p_updated_at : Z }.
Record NewConversationProject := MkNewProject { np_uuid : Uuid; np_user_id : Uuid; np_name_enc : bytes }.

Record UserInstruction := MkInstruction {
  i_id : Z; i_uuid : Uuid; i_user_id : Uuid; i_name_enc : option bytes; i_prompt_enc : bytes;
  i_prompt_tokens : Z; i_is_default : bool; i_created_at : Z; i_updated_at : Z; i_project_id : option Z }.
Record NewUserInstruction := MkNewInstruction {
  ni_uuid : Uuid; ni_user_id : Uuid; ni_project_id : option Z; ni_name_enc : option bytes;
  ni_prompt_enc : bytes; ni_prompt_tokens : Z; ni_is_default : bool }.

Record Conversation := MkConversation {
  c_id : Z; c_uuid : Uuid; c_user_id : Uuid; c_metadata_enc : option bytes; c_created_at : Z;
  c_updated_at : Z; c_project_id : option Z; c_is_pinned : bool; c_last_activity_at : Z }.
Record NewConversation := MkNewConversation {
  nc_uuid : Uuid; nc_user_id : Uuid; nc_project_id : option Z; nc_is_pinned : bool; nc_metadata_enc : option bytes }.

Inductive ConversationProjectFilter := Any | Assigned (project : Z) | Unassigned.
Inductive ProjectInstructionUpdate := Unchanged | Set_ (prompt_enc : bytes) (prompt_tokens : Z) | Clear.

(** [chat]: the tables of responses and items. *)
Record Tables := MkTables {
  users : list Uuid; projects : list ConversationProject; instructions : list UserInstruction;
  conversations : list Conversation; chat : Responses.Tables }.
Abbreviation State := (Store Tables).
Definition set_projects l t := MkTables (users t) l (instructions t) (conversations t) (chat t).
Definition set_instructions l t := MkTables (users t) (projects t) l (conversations t) (chat t).
Definition set_conversations l t := MkTables (users t) (projects t) (instructions t) l
  (Responses.MkTables (c_id <$> l) (Responses.responses (chat t)) (Responses.user_messages (chat t))
     (Responses.assistant_messages (chat t)) (Responses.reasoning_items (chat t)) (Responses.tool_calls (chat t))
     (Responses.tool_outputs (chat t))).

Definition diesel {A} (m : ST State DieselError A) : ST State ResponsesError A := st_map_err Responses.DatabaseError m.
(** [NotFound] becomes the error [e]. *)
Definition or_not_found {A} (e : ResponsesError) (m : ST State DieselError A) : ST State ResponsesError A :=
  st_map_err (Responses.not_found e) m.

(** ** Conversation projects *)
Definition project_by_id (id : Z) (user : Uuid) (p : ConversationProject) : bool :=
  bool_decide (p_id p = id) && bool_decide (p_user_id p = user).
Definition project_by_uuid (uuid user : Uuid) (p : ConversationProject) : bool :=
  bool_decide (p_uuid p = uuid) && bool_decide (p_user_id p = user).
Definition project_of (user : Uuid) (p : ConversationProject) : bool := bool_decide (p_user_id p = user).

Definition project_get_by_id_and_user (id : Z) (user : Uuid) : ST State ResponsesError ConversationProject :=
  or_not_found Responses.ConversationProjectNotFound (select_first (fun t => first (project_by_id id user) (projects t))).
Definition project_get_by_uuid_and_user (uuid user : Uuid) : ST State ResponsesError ConversationProject :=
  or_not_found Responses.ConversationProjectNotFound (select_first (fun t => first (project_by_uuid uuid user) (projects t))).

(** Rows that refer to a deleted conversation, or to a response, message or
    call in one, go with it. *)
Definition in_gone (gone : list Z) (o : option Z) : bool := Responses.of_response gone o.
Definition drop_chat (gone : list Z) (t : Responses.Tables) : Responses.Tables :=
  let here c := bool_decide (c ∈ gone) in
  let dead_response r := here (Responses.nr_conversation_id (Responses.r_new r)) in
  let responses := Responses.r_id <$> matching_rows dead_response (Responses.responses t) in
  let dead_message a := here (Responses.a_conversation_id a) || in_gone responses (Responses.a_response_id a) in
  let messages := Responses.a_id <$> matching_rows dead_message (Responses.assistant_messages t) in
  let dead_call c := here (Responses.nt_conversation_id (Responses.tc_new c)) ||
    in_gone responses (Responses.nt_response_id (Responses.tc_new c)) in
  let calls := Responses.tc_id <$> matching_rows dead_call (Responses.tool_calls t) in
  Responses.MkTables (Responses.conversations t)
    (delete_rows dead_response (Responses.responses t))
    (delete_rows (fun m => here (Responses.nu_conversation_id (Responses.um_new m)) ||
       in_gone responses (Responses.nu_response_id (Responses.um_new m))) (Responses.user_messages t))
    (delete_rows dead_message (Responses.assistant_messages t))
    (delete_rows (fun g => here (Responses.g_conversation_id g) || in_gone responses (Responses.g_response_id g) ||
       in_gone messages (Responses.g_assistant_message_id g)) (Responses.reasoning_items t))
    (delete_rows dead_call (Responses.tool_calls t))
    (delete_rows (fun o => here (Responses.no_conversation_id (Responses.to_new o)) ||
       in_gone responses (Responses.no_response_id (Responses.to_new o)) ||
       in_gone calls (Some (Responses.no_tool_call_fk (Responses.to_new o)))) (Responses.tool_outputs t)).
Definition drop_conversations (p : Conversation -> bool) (t : Tables) : Tables :=
  let gone := c_id <$> matching_rows p (conversations t) in
  set_conversations (delete_rows p (conversations t))
    (MkTables (users t) (projects t) (instructions t) (conversations t) (drop_chat gone (chat t))).
(** Deleting a project deletes its instruction and its conversations. *)
Definition drop_projects (p : ConversationProject -> bool) (t : Tables) : Tables :=
  let gone := p_id <$> matching_rows p (projects t) in
  drop_conversations (fun c => in_gone gone (c_project_id c))
    (set_instructions (delete_rows (fun i => in_gone gone (i_project_id i)) (instructions t))
      (set_projects (delete_rows p (projects t)) t)).

Definition project_delete_by_id_and_user (id : Z) (user : Uuid) : ST State ResponsesError unit :=
  deleted ← diesel (statement (fun _ t =>
    Ok (length (matching_rows (project_by_id id user) (projects t)), drop_projects (project_by_id id user) t)));
  if decide (deleted = 0) then st_err Responses.ConversationProjectNotFound else st_ok tt.
Definition project_count_for_user (user : Uuid) : ST State ResponsesError Z :=
  diesel (select (fun t => Z.of_nat (length (matching_rows (project_of user) (projects t))))).
Definition project_list_for_user (user : Uuid) (limit : Z) (after : option Uuid) (order : string)
    : ST State ResponsesError (list ConversationProject) :=
  cursor ← match after with
    | Some after_uuid => diesel (select (fun t =>
        (fun p => (p_updated_at p, p_id p)) <$> first (project_by_uuid after_uuid user) (projects t)))
    | None => st_ok None
    end;
  diesel (select (fun t =>
    Pagination.page_query p_updated_at p_id order limit cursor (matching_rows (project_of user) (projects t)))).
Definition exists_user (user : Uuid) (t : Tables) : bool := bool_decide (user ∈ users t).
Definition project_insert (now : Z) (n : NewConversationProject) : ST State ResponsesError ConversationProject :=
  diesel (statement (fun id t =>
    let row := MkProject id (np_uuid n) (np_user_id n) (np_name_enc n) now now in
    if existsb (fun p => bool_decide (p_uuid p = np_uuid n)) (projects t) then Err Db.UniqueViolation
    else if negb (exists_user (np_user_id n) t) then Err Db.ForeignKeyViolation
    else Ok (row, set_projects (projects t ++ [row]) t))).
(** An update of a project; the trigger sets [updated_at]. *)
Definition project_update (now : Z) (id : Z) (user : Uuid) (f : ConversationProject -> ConversationProject)
    : ST State DieselError unit :=
  statement (fun _ t => Ok (tt, set_projects (update_rows (project_by_id id user)
    (fun p => let p := f p in MkProject (p_id p) (p_uuid p) (p_user_id p) (p_name_enc p) (p_created_at p) now)
    (projects t)) t)).

(** ** User instructions *)
Definition instruction_global (user : Uuid) (i : UserInstruction) : bool :=
  bool_decide (i_user_id i = user) && bool_decide (i_project_id i = None).
Definition instruction_default (user : Uuid) (i : UserInstruction) : bool := instruction_global user i && i_is_default i.
Definition instruction_of_project (project : Z) (user : Uuid) (i : UserInstruction) : bool :=
  bool_decide (i_user_id i = user) && bool_decide (i_project_id i = Some project).
Definition instruction_by_uuid (uuid user : Uuid) (i : UserInstruction) : bool :=
  bool_decide (i_uuid i = uuid) && instruction_global user i.
Definition instruction_by_id (id : Z) (user : Uuid) (i : UserInstruction) : bool :=
  bool_decide (i_id i = id) && instruction_global user i.

Definition exists_project (t : Tables) (id : option Z) : bool :=
  match id with Some id => existsb (fun p => bool_decide (p_id p = id)) (projects t) | None => true end.

(** The columns an update of an instruction sets; the trigger sets
    [updated_at]. *)
Definition with_default (now : Z) (is_default : bool) (i : UserInstruction) : UserInstruction :=
  MkInstruction (i_id i) (i_uuid i) (i_user_id i) (i_name_enc i) (i_prompt_enc i) (i_prompt_tokens i) is_default
    (i_created_at i) now (i_project_id i).
Definition with_content (now : Z) (name_enc : option bytes) (prompt_enc : bytes) (prompt_tokens : Z) (is_default : bool)
    (i : UserInstruction) : UserInstruction :=
  MkInstruction (i_id i) (i_uuid i) (i_user_id i) name_enc prompt_enc prompt_tokens is_default (i_created_at i) now
    (i_project_id i).

(** The constraints the rows of [user] are checked against when they are written:
    the two [CHECK]s, and the index of one default per user. *)
Definition instruction_checked (i : UserInstruction) : bool :=
  (bool_decide (i_project_id i = None) || negb (i_is_default i)) &&
  (bool_decide (is_Some (i_project_id i)) || bool_decide (is_Some (i_name_enc i))).
Definition instruction_of (user : Uuid) (i : UserInstruction) : bool := bool_decide (i_user_id i = user).
Definition default_of (user : Uuid) (i : UserInstruction) : bool := instruction_of user i && i_is_default i.
Definition write_instructions {A} (user : Uuid) (a : A) (l : list UserInstruction) (t : Tables)
    : outcome DieselError (A * Tables) :=
  if negb (forallb instruction_checked (matching_rows (instruction_of user) l)) then Err Db.CheckViolation
  else if decide (1 < length (matching_rows (default_of user) l)) then Err Db.UniqueViolation
  else Ok (a, set_instructions l t).

Definition instruction_insert (now : Z) (n : NewUserInstruction) : ST State DieselError UserInstruction :=
  statement (fun id t =>
    let row := MkInstruction id (ni_uuid n) (ni_user_id n) (ni_name_enc n) (ni_prompt_enc n) (ni_prompt_tokens n)
                 (ni_is_default n) now now (ni_project_id n) in
    if existsb (fun i => bool_decide (i_uuid i = ni_uuid n)) (instructions t) ||
       existsb (fun i => bool_decide (is_Some (i_project_id i) /\ i_project_id i = ni_project_id n)) (instructions t)
    then Err Db.UniqueViolation
    else if negb (exists_user (ni_user_id n) t && exists_project t (ni_project_id n)) then Err Db.ForeignKeyViolation
    else write_instructions (ni_user_id n) row (instructions t ++ [row]) t).
(** An update of the instructions [p] selects, all of [user]. *)
Definition instruction_update (user : Uuid) (p : UserInstruction -> bool) (f : UserInstruction -> UserInstruction)
    : ST State DieselError unit :=
  statement (fun _ t => write_instructions user tt (update_rows p f (instructions t)) t).
(** The same with [get_result]: the updated row, or [NotFound]. *)
Definition instruction_update_one (user : Uuid) (p : UserInstruction -> bool) (f : UserInstruction -> UserInstruction)
    : ST State DieselError UserInstruction :=
  statement (fun _ t =>
    i ← ok_or Db.NotFound (first p (instructions t));
    write_instructions user (f i) (update_rows p f (instructions t)) t).

(** ** Conversations *)
Definition conversation_by_id (id : Z) (user : Uuid) (c : Conversation) : bool :=
  bool_decide (c_id c = id) && bool_decide (c_user_id c = user).
Definition conversation_by_uuid (uuid user : Uuid) (c : Conversation) : bool :=
  bool_decide (c_uuid c = uuid) && bool_decide (c_user_id c = user).
Definition conversation_of (user : Uuid) (c : Conversation) : bool := bool_decide (c_user_id c = user).
Definition conversation_among (uuids : list Uuid) (user : Uuid) (c : Conversation) : bool :=
  conversation_of user c && bool_decide (c_uuid c ∈ uuids).

Definition get_by_id_and_user (id : Z) (user : Uuid) : ST State ResponsesError Conversation :=
  or_not_found Responses.ConversationNotFound (select_first (fun t => first (conversation_by_id id user) (conversations t))).
Definition get_by_uuid_and_user (uuid user : Uuid) : ST State ResponsesError Conversation :=
  or_not_found Responses.ConversationNotFound (select_first (fun t => first (conversation_by_uuid uuid user) (conversations t))).

(** [ConversationUpdateChanges]: a column that is [None] stays; the trigger
    sets [updated_at]. *)
Definition with_changes (now : Z) (metadata_enc : option bytes) (project_id : option (option Z)) (is_pinned : option bool)
    (c : Conversation) : Conversation :=
  MkConversation (c_id c) (c_uuid c) (c_user_id c)
    (match metadata_enc with Some m => Some m | None => c_metadata_enc c end) (c_created_at c) now
    (default (c_project_id c) project_id) (default (c_is_pinned c) is_pinned) (c_last_activity_at c).
Definition update (now : Z) (id : Z) (user : Uuid) (metadata_enc : option bytes) (project_id : option (option Z))
    (is_pinned : option bool) : ST State ResponsesError Conversation :=
  if bool_decide (metadata_enc = None) && bool_decide (project_id = None) && bool_decide (is_pinned = None)
  then get_by_id_and_user id user
  else
    updated ← diesel (statement (fun _ t =>
      match first (conversation_by_id id user) (conversations t) with
      | None => Ok (None, t)
      | Some c =>
          if exists_project t (default None project_id)
          then Ok (Some (with_changes now metadata_enc project_id is_pinned c),
                   set_conversations (update_rows (conversation_by_id id user)
                     (with_changes now metadata_enc project_id is_pinned) (conversations t)) t)
          else Err Db.ForeignKeyViolation
      end));
    match updated with Some c => st_ok c | None => st_err Responses.ConversationNotFound end.
Definition update_metadata (now : Z) (id : Z) (user : Uuid) (metadata_enc : bytes) : ST State ResponsesError Conversation :=
  update now id user (Some metadata_enc) None None.

Definition batch_update_project (now : Z) (uuids : list Uuid) (user : Uuid) (target : option Z)
    : ST State ResponsesError unit :=
  if decide (uuids = []) then st_err Responses.ValidationError
  else if decide (length (remove_dups uuids) <> length uuids) then st_err Responses.ValidationError
  else transaction Responses.DatabaseError (
    _ ← match target with
        | Some target =>
            project ← diesel (select (fun t => p_id <$> first (project_by_id target user) (projects t)));
            if decide (project = None) then st_err Responses.ConversationProjectNotFound else st_ok tt
        | None => st_ok tt
        end;
    existing ← diesel (select (fun t => matching_rows (conversation_among uuids user) (conversations t)));
    if decide (length existing <> length uuids) then st_err Responses.ConversationNotFound
    else
      source ← st_lift (ok_or Responses.ValidationError (c_project_id <$> head existing));
      if existsb (fun c => negb (bool_decide (c_project_id c = source))) existing then st_err Responses.ValidationError
      else
        updated ← diesel (statement (fun _ t =>
          if exists_project t target
          then Ok (length (matching_rows (conversation_among uuids user) (conversations t)),
                   set_conversations (update_rows (conversation_among uuids user)
                     (with_changes now None (Some target) None) (conversations t)) t)
          else Err Db.ForeignKeyViolation));
        if decide (updated <> length uuids) then st_err Responses.ConversationNotFound else st_ok tt).

Definition delete_by_id_and_user (id : Z) (user : Uuid) : ST State ResponsesError unit :=
  deleted ← diesel (statement (fun _ t =>
    Ok (length (matching_rows (conversation_by_id id user) (conversations t)),
        drop_conversations (conversation_by_id id user) t)));
  if decide (deleted = 0) then st_err Responses.ConversationNotFound else st_ok tt.
Definition delete_all_for_user (user : Uuid) : ST State ResponsesError unit :=
  diesel (statement (fun _ t => Ok (tt, drop_conversations (conversation_of user) t))).

Definition project_matches (filter : ConversationProjectFilter) (c : Conversation) : bool :=
  match filter with
  | Any => true
  | Assigned p => bool_decide (c_project_id c = Some p)
  | Unassigned => bool_decide (c_project_id c = None)
  end.
Definition pin_matches (pinned : option bool) (c : Conversation) : bool :=
  match pinned with Some b => bool_decide (c_is_pinned c = b) | None => true end.
Definition listed (user : Uuid) (filter : ConversationProjectFilter) (pinned : option bool) (c : Conversation) : bool :=
  conversation_of user c && project_matches filter c && pin_matches pinned c.
Definition list_for_user (user : Uuid) (limit : Z) (after : option Uuid) (order : string)
    (filter : ConversationProjectFilter) (pinned : option bool) : ST State ResponsesError (list Conversation) :=
  cursor ← match after with
    | Some after_uuid => diesel (select (fun t =>
        (fun c => (c_last_activity_at c, c_id c)) <$> first (conversation_by_uuid after_uuid user) (conversations t)))
    | None => st_ok None
    end;
  diesel (select (fun t =>
    Pagination.page_query c_last_activity_at c_id order limit cursor
      (matching_rows (listed user filter pinned) (conversations t)))).
Definition insert (now : Z) (n : NewConversation) : ST State ResponsesError Conversation :=
  diesel (statement (fun id t =>
    let row := MkConversation id (nc_uuid n) (nc_user_id n) (nc_metadata_enc n) now now (nc_project_id n)
                 (nc_is_pinned n) now in
    if existsb (fun c => bool_decide (c_uuid c = nc_uuid n)) (conversations t) then Err Db.UniqueViolation
    else if negb (exists_user (nc_user_id n) t && exists_project t (nc_project_id n)) then Err Db.ForeignKeyViolation
    else Ok (row, set_conversations (conversations t ++ [row]) t))).

(** ** The items of a conversation: a union of five tables *)
Definition conversation_messages (t : Responses.Tables) (conversation : Z) : list Raw :=
  let here c := bool_decide (c = conversation) in
  (Responses.raw_user t <$> matching_rows (fun m => here (Responses.nu_conversation_id (Responses.um_new m))) (Responses.user_messages t)) ++
  (Responses.raw_assistant t <$> matching_rows (fun a => here (Responses.a_conversation_id a)) (Responses.assistant_messages t)) ++
  (Responses.raw_tool_call <$> matching_rows (fun c => here (Responses.nt_conversation_id (Responses.tc_new c))) (Responses.tool_calls t)) ++
  mjoin (Responses.raw_tool_output t <$> matching_rows (fun o => here (Responses.no_conversation_id (Responses.to_new o))) (Responses.tool_outputs t)) ++
  (Responses.raw_reasoning <$> matching_rows (fun g => here (Responses.g_conversation_id g)) (Responses.reasoning_items t)).
(** A cursor that is not an item of the conversation gives no rows.  Rows with
    the same time and id come in any order, here in the order of the union. *)
Definition get_conversation_context (conversation limit : Z) (after : option Uuid) (order : string)
    : ST State ResponsesError (list Raw) :=
  diesel (select (fun t =>
    let messages := conversation_messages (chat t) conversation in
    match after with
    | Some after_uuid =>
        match first (fun m => bool_decide (Conversions.uuid m = after_uuid)) messages with
        | Some cursor => Pagination.page_query Conversions.created_at Conversions.id order limit
                           (Some (Conversions.created_at cursor, Conversions.id cursor)) messages
        | None => []
        end
    | None => Pagination.page_query Conversions.created_at Conversions.id order limit None messages
    end)).

(** ** [DBConnection] *)
Definition MAX_CONVERSATION_PROJECTS_PER_USER : Z := 10.
Definition validate_conversation_project_limit (existing_project_count : Z) : outcome ResponsesError unit :=
  if decide (existing_project_count >= MAX_CONVERSATION_PROJECTS_PER_USER)%Z then Err Responses.ValidationError else Ok tt.

Definition db_connection : ST State DBError unit := connection Responses.ConnectionError.
Definition method {A} (m : ST State ResponsesError A) : ST State DBError A :=
  _ ← db_connection; st_map_err Responses.ResponsesErr m.

Section methods.
(** The time of the transaction, and the fresh UUID of an instruction. *)
Context (now : Z).

Definition create_conversation (n : NewConversation) : ST State DBError Conversation := method (insert now n).
Definition create_conversation_project (n : NewConversationProject) : ST State DBError ConversationProject :=
  method (transaction Responses.DatabaseError (
    _ ← diesel (select_first (fun t => if exists_user (np_user_id n) t then Some tt else None));
    existing_project_count ← project_count_for_user (np_user_id n);
    _ ← st_lift (validate_conversation_project_limit existing_project_count);
    project_insert now n)).
Definition get_conversation_by_id_and_user (id : Z) (user : Uuid) : ST State DBError Conversation :=
  method (get_by_id_and_user id user).
Definition get_conversation_by_uuid_and_user (uuid user : Uuid) : ST State DBError Conversation :=
  method (get_by_uuid_and_user uuid user).
Definition get_conversation_project_by_id_and_user (id : Z) (user : Uuid) : ST State DBError ConversationProject :=
  method (project_get_by_id_and_user id user).
Definition get_conversation_project_by_uuid_and_user (uuid user : Uuid) : ST State DBError ConversationProject :=
  method (project_get_by_uuid_and_user uuid user).
Definition update_conversation_metadata (id : Z) (user : Uuid) (metadata_enc : bytes) : ST State DBError Conversation :=
  method (update_metadata now id user metadata_enc).
Definition update_conversation (id : Z) (user : Uuid) (metadata_enc : option bytes) (project_id : option (option Z))
    (is_pinned : option bool) : ST State DBError Conversation :=
  method (update now id user metadata_enc project_id is_pinned).
Definition batch_update_conversation_project (uuids : list Uuid) (user : Uuid) (target : option Z) : ST State DBError unit :=
  method (batch_update_project now uuids user target).
Definition list_conversations (user : Uuid) (limit : Z) (after : option Uuid) (order : string)
    (filter : ConversationProjectFilter) (pinned : option bool) : ST State DBError (list Conversation) :=
  method (list_for_user user limit after order filter pinned).
Definition list_conversation_projects (user : Uuid) (limit : Z) (after : option Uuid) (order : string)
    : ST State DBError (list ConversationProject) :=
  method (project_list_for_user user limit after order).

(** The new prompt of a project's instruction: the row is updated, or inserted. *)
Definition set_project_instruction (new_v4 : Uuid) (id : Z) (user : Uuid) (prompt_enc : bytes) (prompt_tokens : Z)
    : ST State DieselError unit :=
  existing ← select (fun t => first (instruction_of_project id user) (instructions t));
  match existing with
  | Some i =>
      instruction_update user (fun j => bool_decide (i_id j = i_id i))
        (fun j => with_content now (i_name_enc j) prompt_enc prompt_tokens false j)
  | None =>
      _ ← instruction_insert now (MkNewInstruction new_v4 user (Some id) None prompt_enc prompt_tokens false);
      st_ok tt
  end.
Definition clear_project_instruction (id : Z) (user : Uuid) : ST State DieselError unit :=
  statement (fun _ t => Ok (tt, set_instructions (delete_rows (instruction_of_project id user) (instructions t)) t)).
Definition update_conversation_project (new_v4 : Uuid) (id : Z) (user : Uuid) (name_enc : option bytes)
    (instruction_update : ProjectInstructionUpdate) : ST State DBError ConversationProject :=
  _ ← db_connection;
  st_map_err (fun e => Responses.ResponsesErr (Responses.not_found Responses.ConversationProjectNotFound e)) (
    transaction (fun e => e) (
      _ ← select_first (fun t => first (project_by_id id user) (projects t));
      _ ← match name_enc with
          | Some name_enc => project_update now id user (fun p =>
              MkProject (p_id p) (p_uuid p) (p_user_id p) name_enc (p_created_at p) now)
          | None => st_ok tt
          end;
      _ ← match instruction_update with
          | Unchanged => st_ok tt
          | Set_ prompt_enc prompt_tokens =>
              _ ← set_project_instruction new_v4 id user prompt_enc prompt_tokens;
              project_update now id user (fun p => p)
          | Clear =>
              _ ← clear_project_instruction id user;
              project_update now id user (fun p => p)
          end;
      select_first (fun t => first (project_by_id id user) (projects t)))).
Definition delete_conversation (id : Z) (user : Uuid) : ST State DBError unit := method (delete_by_id_and_user id user).
Definition delete_all_conversations (user : Uuid) : ST State DBError unit := method (delete_all_for_user user).
Definition delete_conversation_project (id : Z) (user : Uuid) : ST State DBError unit :=
  method (project_delete_by_id_and_user id user).

(** *** Instructions *)
Definition instruction_method {A} (m : ST State DieselError A) : ST State DBError A := method (diesel m).
Definition get_default_user_instruction (user : Uuid) : ST State DBError (option UserInstruction) :=
  instruction_method (select (fun t => first (instruction_default user) (instructions t))).
Definition get_project_instruction (project : Z) (user : Uuid) : ST State DBError (option UserInstruction) :=
  instruction_method (select (fun t => first (instruction_of_project project user) (instructions t))).
Definition get_project_instruction_for_conversation (conversation : Z) (user : Uuid)
    : ST State DBError (option UserInstruction) :=
  _ ← db_connection;
  found ← st_map_err Responses.ResponsesErr (diesel (select (fun t =>
    c_project_id <$> first (conversation_by_id conversation user) (conversations t))));
  project ← st_lift (ok_or (Responses.ResponsesErr Responses.ConversationNotFound) found);
  match project with
  | Some project => st_map_err Responses.ResponsesErr (diesel (select (fun t =>
      first (instruction_of_project project user) (instructions t))))
  | None => st_ok None
  end.
Definition get_user_instruction_by_uuid_and_user (uuid user : Uuid) : ST State DBError UserInstruction :=
  method (or_not_found Responses.SystemPromptNotFound (select_first (fun t =>
    first (instruction_by_uuid uuid user) (instructions t)))).
Definition create_user_instruction (n : NewUserInstruction) : ST State DBError UserInstruction :=
  instruction_method (transaction (fun e => e) (
    _ ← (if ni_is_default n
         then instruction_update (ni_user_id n) (instruction_default (ni_user_id n)) (with_default now false)
         else st_ok tt);
    instruction_insert now n)).
Definition update_user_instruction (id : Z) (user : Uuid) (name_enc prompt_enc : bytes) (prompt_tokens : Z) (is_default : bool)
    : ST State DBError UserInstruction :=
  instruction_method (transaction (fun e => e) (
    _ ← (if is_default
         then instruction_update user (fun i => instruction_default user i && negb (bool_decide (i_id i = id))) (with_default now false)
         else st_ok tt);
    instruction_update_one user (instruction_by_id id user) (with_content now (Some name_enc) prompt_enc prompt_tokens is_default))).
Definition delete_user_instruction (id : Z) (user : Uuid) : ST State DBError unit :=
  _ ← db_connection;
  rows ← st_map_err Responses.QueryError (statement (fun _ t =>
    Ok (length (matching_rows (instruction_by_id id user) (instructions t)),
        set_instructions (delete_rows (instruction_by_id id user) (instructions t)) t)));
  if decide (rows = 0) then st_err (Responses.ResponsesErr Responses.SystemPromptNotFound) else st_ok tt.
Definition list_user_instructions (user : Uuid) (limit : Z) (after : option Uuid) (order : string)
    : ST State DBError (list UserInstruction) :=
  _ ← db_connection;
  cursor ← match after with
    | Some after_uuid => st_map_err Responses.QueryError (select (fun t =>
        (fun i => (i_updated_at i, i_id i)) <$> first (instruction_by_uuid after_uuid user) (instructions t)))
    | None => st_ok None
    end;
  st_map_err Responses.ResponsesErr (diesel (select (fun t =>
    Pagination.page_query i_updated_at i_id order limit cursor (matching_rows (instruction_global user) (instructions t))))).
Definition set_default_user_instruction (id : Z) (user : Uuid) : ST State DBError UserInstruction :=
  instruction_method (transaction (fun e => e) (
    _ ← instruction_update user (instruction_default user) (with_default now false);
    instruction_update_one user (instruction_by_id id user) (with_default now true))).

Definition get_conversation_context_messages (conversation limit : Z) (after : option Uuid) (order : string)
    : ST State DBError (list Raw) :=
  method (get_conversation_context conversation limit after order).
End methods.
End Conversations.
