(* ===== verification/ConversationRoutes.v ===== *)
(** * The conversation, project and instruction routes

    The handlers of [src/src/web/responses/conversations.rs],
    [conversation_projects.rs] and [instructions.rs] with their error mapping
    ([errors.rs]), from the decrypted request to the answer before it is encrypted,
    and the theorems on them: pages cover the list, a user sees and changes only
    his own rows, a batch moves all its conversations or none, and the default
    instruction. *)

From S2P Require Import Prelude Text Json Crypto Api Encrypt Conversions Database Statements Pagination Responses ClientStream Conversations.

Module ConversationRoutes.
Import Sql Pagination Conversations.

Inductive NullableField (T : Type) := Missing | Null | Value_ (v : T).
Arguments Missing {T}.
Arguments Null {T}.
Arguments Value_ {T} _.
Definition is_missing {T} (f : NullableField T) : bool := match f with Missing => true | _ => false end.

(** ** [error_mapping] *)
Definition map_conversation_error (e : DBError) : Api.ApiError :=
  match e with
  | Responses.ResponsesErr Responses.ConversationNotFound => Api.NotFound
  | Responses.ResponsesErr Responses.ValidationError => Api.BadRequest
  | _ => Api.InternalServerError
  end.
Definition map_batch_conversation_project_error (e : DBError) : Api.ApiError :=
  match e with
  | Responses.ResponsesErr Responses.ConversationNotFound
  | Responses.ResponsesErr Responses.ConversationProjectNotFound => Api.NotFound
  | Responses.ResponsesErr Responses.ValidationError => Api.BadRequest
  | _ => Api.InternalServerError
  end.
Definition map_conversation_project_error (e : DBError) : Api.ApiError :=
  match e with
  | Responses.ResponsesErr Responses.ConversationProjectNotFound => Api.NotFound
  | Responses.ResponsesErr Responses.ValidationError => Api.BadRequest
  | _ => Api.InternalServerError
  end.
Definition map_instruction_error (e : DBError) : Api.ApiError :=
  match e with
  | Responses.ResponsesErr Responses.SystemPromptNotFound => Api.NotFound
  | _ => Api.InternalServerError
  end.
Definition map_message_error (e : DBError) : Api.ApiError := Api.InternalServerError.
Definition map_generic_db_error (e : DBError) : Api.ApiError := Api.InternalServerError.
Definition map_decryption_error : Api.ApiError := Api.InternalServerError.
Definition map_key_retrieval_error : Api.ApiError := Api.InternalServerError.

(** ** Requests and answers *)
Inductive ConversationInputItem := InputMessage (role : string) (content : Conversions.MessageContent).
Record CreateConversationRequest := MkCreateConversation {
  cc_metadata : option Value; cc_project_id : option Uuid; cc_pinned : option bool;
  cc_items : option (list ConversationInputItem) }.
Record UpdateConversationRequest := MkUpdateConversation {
  uc_metadata : option Value; uc_project_id : NullableField Uuid; uc_pinned : option bool }.
Record ListConversationsParams := MkListConversations {
  lc_limit : Z; lc_after : option Uuid; lc_order : string; lc_project_id : option Uuid;
  lc_unassigned_project : option bool; lc_pinned : option bool }.
Record ListParams := MkListParams { l_limit : Z; l_after : option Uuid; l_order : string }.
Record ConversationResponse := MkConversationResponse {
  cr_id : Uuid; cr_object : string; cr_metadata : option Value; cr_project_id : option Uuid; cr_pinned : bool;
  cr_created_at : Z; cr_last_activity_at : Z }.
Record BatchDeleteItemResult := MkBatchDelete {
  bd_id : Uuid; bd_object : string; bd_deleted : bool; bd_error : option string }.
Record DeletedObjectResponse := MkDeleted { do_id : Uuid; do_object : string; do_deleted : bool }.
Record UpdateConversationProjectRequest := MkUpdateProject {
  up_name : option string; up_instructions : NullableField string }.
Record ConversationProjectResponse := MkProjectResponse {
  pr_id : Uuid; pr_object : string; pr_name : string; pr_instructions : option string;
  pr_created_at : Z; pr_updated_at : Z }.
Record ConversationProjectListItem := MkProjectItem {
  pi_id : Uuid; pi_object : string; pi_name : string; pi_created_at : Z; pi_updated_at : Z }.
Record CreateInstructionRequest := MkCreateInstruction { ci_name : string; ci_prompt : string; ci_is_default : bool }.
Record UpdateInstructionRequest := MkUpdateInstruction {
  ui_name : option string; ui_prompt : option string; ui_is_default : option bool }.
Record InstructionResponse := MkInstructionResponse {
  ir_id : Uuid; ir_object : string; ir_name : string; ir_prompt : string; ir_prompt_tokens : Z;
  ir_is_default : bool; ir_created_at : Z; ir_updated_at : Z }.

Definition OBJECT_TYPE_CONVERSATION := "conversation".
Definition OBJECT_TYPE_CONVERSATION_DELETED := "conversation.deleted".
Definition OBJECT_TYPE_CONVERSATION_PROJECT := "conversation.project".
Definition OBJECT_TYPE_CONVERSATION_PROJECT_DELETED := "conversation.project.deleted".
Definition MAX_CONVERSATION_BATCH_SIZE : nat := 20.

Definition validate_params (params : ListConversationsParams) : outcome Api.ApiError unit :=
  if bool_decide (is_Some (lc_project_id params)) && bool_decide (lc_unassigned_project params = Some true)
  then Err Api.BadRequest else Ok tt.
Definition validate_metadata (metadata : Value) : outcome Api.ApiError unit :=
  match metadata with Object _ => Ok tt | _ => Err Api.BadRequest end.
(** [validate_project_name]: the trimmed name. *)
Definition validate_project_name (name : string) : outcome Api.ApiError string :=
  let trimmed := trim name in
  if is_empty trimmed then Err Api.BadRequest else Ok trimmed.

Section routes.
Context `{Crypto, SerdeJson, Conversions.Tokenizer, Conversions.ContentJson}.
(** The request's time, fresh UUID, nonces, authenticated user, and what
    [get_user_key] gives. *)
Context (now : Z) (new_v4 : Uuid) (nonce nonce' : bytes) (user : Uuid) (user_key : outcome Api.ApiError Encrypt.SecretKey).
#[local] Abbreviation Route := (ST State Api.ApiError).

Definition get_user_key : Route Encrypt.SecretKey := st_lift (map_err (fun _ => map_key_retrieval_error) user_key).
Definition encrypt_with_key (nonce : bytes) (key : Encrypt.SecretKey) (text : string) : Route bytes :=
  st_lift (lift (Encrypt.encrypt_with_key nonce key (as_bytes text))).
(** [serde_json::from_slice]. *)
Definition value_from_slice (b : bytes) : string + Value :=
  match text ← from_utf8 b; from_str text with Some v => inr v | None => inl "invalid JSON" end.
Definition decrypt_metadata (key : Encrypt.SecretKey) (c : Conversation) : Route (option Value) :=
  st_lift (map_err (fun _ => map_decryption_error) (Encrypt.decrypt_content value_from_slice key (c_metadata_enc c))).
Definition decrypt_text (key : Encrypt.SecretKey) (encrypted : option bytes) : Route (option string) :=
  st_lift (map_err (fun _ => map_decryption_error) (Encrypt.decrypt_string key encrypted)).
Definition decrypt_required (key : Encrypt.SecretKey) (encrypted : option bytes) : Route string :=
  text ← decrypt_text key encrypted; st_lift (ok_or Api.InternalServerError text).

(** ** Conversations *)
Definition find_conversation (id : Uuid) : Route Conversation :=
  st_map_err map_conversation_error (get_conversation_by_uuid_and_user id user).
Definition find_project (id : Uuid) : Route ConversationProject :=
  st_map_err map_conversation_project_error (get_conversation_project_by_uuid_and_user id user).
(** [ConversationContext::load]. *)
Definition load_conversation (id : Uuid) : Route (Conversation * Encrypt.SecretKey) :=
  c ← find_conversation id; key ← get_user_key; st_ok (c, key).

Definition resolve_conversation_project_filter (params : ListConversationsParams) : Route ConversationProjectFilter :=
  _ ← st_lift (validate_params params);
  if decide (lc_unassigned_project params = Some true) then st_ok Unassigned
  else match lc_project_id params with
       | Some project_uuid => p ← find_project project_uuid; st_ok (Assigned (p_id p))
       | None => st_ok Any
       end.

Definition resolve_project_uuid (project_id : option Z) (cache : gmap Z Uuid) : Route (option Uuid * gmap Z Uuid) :=
  match project_id with
  | None => st_ok (None, cache)
  | Some project_id =>
      match cache !! project_id with
      | Some project_uuid => st_ok (Some project_uuid, cache)
      | None =>
          p ← st_map_err map_conversation_project_error (get_conversation_project_by_id_and_user project_id user);
          st_ok (Some (p_uuid p), <[project_id := p_uuid p]> cache)
      end
  end.
Definition build_conversation_response (c : Conversation) (key : Encrypt.SecretKey) (metadata : option Value)
    (cache : gmap Z Uuid) : Route (ConversationResponse * gmap Z Uuid) :=
  metadata ← match metadata with Some m => st_ok (Some m) | None => decrypt_metadata key c end;
  resolved ← resolve_project_uuid (c_project_id c) cache;
  st_ok (MkConversationResponse (c_uuid c) OBJECT_TYPE_CONVERSATION metadata resolved.1 (c_is_pinned c)
           (ClientStream.timestamp (c_created_at c)) (ClientStream.timestamp (c_last_activity_at c)), resolved.2).
(** The loop of [list_conversations]. *)
Fixpoint build_conversation_responses (l : list Conversation) (key : Encrypt.SecretKey) (cache : gmap Z Uuid)
    : Route (list ConversationResponse) :=
  match l with
  | [] => st_ok []
  | c :: l =>
      built ← build_conversation_response c key None cache;
      rest ← build_conversation_responses l key built.2;
      st_ok (built.1 :: rest)
  end.

Definition create_conversation (body : CreateConversationRequest) : Route ConversationResponse :=
  _ ← (if bool_decide (default [] (cc_items body) = []) then st_ok tt else st_err Api.BadRequest);
  key ← get_user_key;
  project ← match cc_project_id body with
    | Some project_uuid => p ← find_project project_uuid; st_ok (Some p)
    | None => st_ok None
    end;
  let metadata := default (Object []) (cc_metadata body) in
  _ ← st_lift (validate_metadata metadata);
  let metadata := match Json.get "title" metadata with
    | None => Json.set "title" (Str "New Conversation") metadata
    | Some _ => metadata
    end in
  metadata_enc ← encrypt_with_key nonce key (to_string metadata);
  c ← st_map_err map_generic_db_error (Conversations.create_conversation now
    (MkNewConversation new_v4 user (p_id <$> project) (default false (cc_pinned body)) (Some metadata_enc)));
  let cache := match project with Some p => {[p_id p := p_uuid p]} | None => ∅ end in
  built ← build_conversation_response c key (Some metadata) cache;
  st_ok built.1.

Definition get_conversation (id : Uuid) : Route ConversationResponse :=
  ctx ← load_conversation id;
  metadata ← decrypt_metadata ctx.2 ctx.1;
  built ← build_conversation_response ctx.1 ctx.2 metadata ∅;
  st_ok built.1.

Definition update_conversation (id : Uuid) (body : UpdateConversationRequest) : Route ConversationResponse :=
  if bool_decide (uc_metadata body = None) && is_missing (uc_project_id body) && bool_decide (uc_pinned body = None)
  then st_err Api.BadRequest
  else
    ctx ← load_conversation id;
    metadata_enc ← match uc_metadata body with
      | Some metadata =>
          _ ← st_lift (validate_metadata metadata);
          enc ← encrypt_with_key nonce ctx.2 (to_string metadata);
          st_ok (Some enc)
      | None => st_ok None
      end;
    project ← match uc_project_id body with
      | Value_ project_uuid =>
          p ← find_project project_uuid; st_ok (Some (Some (p_id p)), {[p_id p := p_uuid p]})
      | Null => st_ok (Some None, ∅)
      | Missing => st_ok (None, ∅)
      end;
    updated ← st_map_err map_conversation_error
      (Conversations.update_conversation now (c_id ctx.1) user metadata_enc project.1 (uc_pinned body));
    built ← build_conversation_response updated ctx.2 (uc_metadata body) project.2;
    st_ok built.1.

Definition deleted_conversation (id : Uuid) : DeletedObjectResponse := MkDeleted id OBJECT_TYPE_CONVERSATION_DELETED true.
Definition delete_conversation (id : Uuid) : Route DeletedObjectResponse :=
  ctx ← load_conversation id;
  _ ← st_map_err map_generic_db_error (Conversations.delete_conversation (c_id ctx.1) user);
  st_ok (deleted_conversation (c_uuid ctx.1)).

Definition item_id (i : Conversions.ConversationItem) : Uuid :=
  match i with
  | Conversions.Message id _ _ _ _ | Conversions.FunctionToolCall id _ _ _ _ _
  | Conversions.FunctionToolCallOutput id _ _ _ _ | Conversions.Reasoning id _ _ _ => id
  end.
Definition page {A} (has_more : bool) (items : list A) (ids : option Uuid * option Uuid) : Page A :=
  MkPage OBJECT_TYPE_LIST items has_more ids.1 ids.2.
Definition list_conversation_items (id : Uuid) (params : ListParams) : Route (Page Conversions.ConversationItem) :=
  ctx ← load_conversation id;
  let limit := page_limit (l_limit params) in
  raw_messages ← st_map_err map_message_error
    (get_conversation_context_messages (c_id ctx.1) (limit + 1) (l_after params) (l_order params));
  let '(has_more, messages) := split_page limit raw_messages in
  items ← st_lift (Conversions.messages_to_items messages ctx.2 0 (length messages));
  st_ok (page has_more items (get_cursor_ids items item_id)).

Definition i64_max : Z := 2 ^ 63 - 1.
Definition get_conversation_item (id item : Uuid) : Route Conversions.ConversationItem :=
  ctx ← load_conversation id;
  raw_messages ← st_map_err map_message_error (get_conversation_context_messages (c_id ctx.1) i64_max None "asc");
  match first (fun m => bool_decide (Conversions.uuid m = item)) raw_messages with
  | Some msg => st_lift (Conversions.message_to_item msg ctx.2)
  | None => st_err Api.NotFound
  end.

Definition list_conversations (params : ListConversationsParams) : Route (Page ConversationResponse) :=
  let limit := page_limit (lc_limit params) in
  filter ← resolve_conversation_project_filter params;
  rows ← st_map_err map_generic_db_error
    (Conversations.list_conversations user (limit + 1) (lc_after params) (lc_order params) filter (lc_pinned params));
  let '(has_more, rows) := split_page limit rows in
  key ← st_lift (map_err (fun _ => Api.InternalServerError) user_key);
  data ← build_conversation_responses rows key ∅;
  st_ok (page has_more data (get_cursor_ids rows c_uuid)).

Definition delete_all_conversations : Route (string * bool) :=
  _ ← st_map_err map_generic_db_error (Conversations.delete_all_conversations user);
  st_ok ("list.deleted", true).

(** One id of a batch: an error of this id is part of the answer. *)
Definition batch_delete_one (id : Uuid) : Route BatchDeleteItemResult := fun s =>
  match get_conversation_by_uuid_and_user id user s with
  | (Ok c, s) =>
      match Conversations.delete_conversation (c_id c) user s with
      | (Ok _, s) => (Ok (MkBatchDelete id OBJECT_TYPE_CONVERSATION_DELETED true None), s)
      | (Err _, s) => (Ok (MkBatchDelete id OBJECT_TYPE_CONVERSATION_DELETED false (Some "delete_failed")), s)
      | (Panic, s) => (Panic, s)
      end
  | (Err _, s) => (Ok (MkBatchDelete id OBJECT_TYPE_CONVERSATION_DELETED false (Some "not_found")), s)
  | (Panic, s) => (Panic, s)
  end.
Fixpoint batch_delete_each (ids : list Uuid) : Route (list BatchDeleteItemResult) :=
  match ids with
  | [] => st_ok []
  | id :: ids => result ← batch_delete_one id; results ← batch_delete_each ids; st_ok (result :: results)
  end.
Definition batch_size_ok (ids : list Uuid) : bool :=
  negb (bool_decide (ids = [])) && bool_decide (length ids <= MAX_CONVERSATION_BATCH_SIZE).
Definition batch_delete_conversations (ids : list Uuid) : Route (list BatchDeleteItemResult) :=
  if batch_size_ok ids then batch_delete_each ids else st_err Api.BadRequest.

Definition batch_update_conversation_project (ids : list Uuid) (project_id : NullableField Uuid) : Route bool :=
  if batch_size_ok ids then
    target ← match project_id with
      | Value_ project_uuid => p ← find_project project_uuid; st_ok (Some (p_id p))
      | Null => st_ok None
      | Missing => st_err Api.BadRequest
      end;
    _ ← st_map_err map_batch_conversation_project_error
      (Conversations.batch_update_conversation_project now ids user target);
    st_ok true
  else st_err Api.BadRequest.

(** ** Projects *)
Definition load_project (id : Uuid) : Route (ConversationProject * Encrypt.SecretKey) :=
  p ← find_project id; key ← get_user_key; st_ok (p, key).
Definition decrypt_name (p : ConversationProject) (key : Encrypt.SecretKey) : Route string :=
  decrypt_required key (Some (p_name_enc p)).
Definition decrypt_project_instruction (key : Encrypt.SecretKey) (instruction : option UserInstruction)
    : Route (option string) :=
  match instruction with Some i => decrypt_text key (Some (i_prompt_enc i)) | None => st_ok None end.
Definition build_project_response (p : ConversationProject) (name : string) (instructions : option string)
    : ConversationProjectResponse :=
  MkProjectResponse (p_uuid p) OBJECT_TYPE_CONVERSATION_PROJECT name instructions
    (ClientStream.timestamp (p_created_at p)) (ClientStream.timestamp (p_updated_at p)).

Definition create_conversation_project (name : string) : Route ConversationProjectResponse :=
  name ← st_lift (validate_project_name name);
  key ← get_user_key;
  name_enc ← encrypt_with_key nonce key name;
  p ← st_map_err map_conversation_project_error
    (Conversations.create_conversation_project now (MkNewProject new_v4 user name_enc));
  st_ok (build_project_response p name None).

Fixpoint project_items (l : list ConversationProject) (key : Encrypt.SecretKey) : Route (list ConversationProjectListItem) :=
  match l with
  | [] => st_ok []
  | p :: l =>
      name ← decrypt_name p key;
      rest ← project_items l key;
      st_ok (MkProjectItem (p_uuid p) OBJECT_TYPE_CONVERSATION_PROJECT name
        (ClientStream.timestamp (p_created_at p)) (ClientStream.timestamp (p_updated_at p)) :: rest)
  end.
Definition list_conversation_projects (params : ListParams) : Route (Page ConversationProjectListItem) :=
  let limit := page_limit (l_limit params) in
  rows ← st_map_err map_generic_db_error
    (Conversations.list_conversation_projects user (limit + 1) (l_after params) (l_order params));
  let '(has_more, rows) := split_page limit rows in
  key ← get_user_key;
  data ← project_items rows key;
  st_ok (page has_more data (get_cursor_ids rows p_uuid)).

Definition get_conversation_project (id : Uuid) : Route ConversationProjectResponse :=
  ctx ← load_project id;
  instruction ← st_map_err map_generic_db_error (get_project_instruction (p_id ctx.1) user);
  name ← decrypt_name ctx.1 ctx.2;
  instructions ← decrypt_project_instruction ctx.2 instruction;
  st_ok (build_project_response ctx.1 name instructions).

(** [count_tokens(prompt).min(i32::MAX)]. *)
Definition prompt_token_count (prompt : string) : Z := Z.min (Conversions.count_tokens prompt) i32_max.
Definition update_conversation_project (id : Uuid) (body : UpdateConversationProjectRequest)
    : Route ConversationProjectResponse :=
  if bool_decide (up_name body = None) && is_missing (up_instructions body) then st_err Api.BadRequest
  else
    ctx ← load_project id;
    name_enc ← match up_name body with
      | Some name =>
          name ← st_lift (validate_project_name name);
          enc ← encrypt_with_key nonce ctx.2 name;
          st_ok (Some enc)
      | None => st_ok None
      end;
    instruction_update ← match up_instructions body with
      | Missing => st_ok Unchanged
      | Value_ prompt =>
          if is_empty (trim prompt) then st_err Api.BadRequest
          else
            prompt_enc ← encrypt_with_key nonce' ctx.2 prompt;
            st_ok (Set_ prompt_enc (prompt_token_count prompt))
      | Null => st_ok Clear
      end;
    updated ← st_map_err map_conversation_project_error
      (Conversations.update_conversation_project now new_v4 (p_id ctx.1) user name_enc instruction_update);
    instruction ← st_map_err map_generic_db_error (get_project_instruction (p_id updated) user);
    name ← decrypt_name updated ctx.2;
    instructions ← decrypt_project_instruction ctx.2 instruction;
    st_ok (build_project_response updated name instructions).

Definition delete_conversation_project (id : Uuid) : Route DeletedObjectResponse :=
  p ← find_project id;
  _ ← st_map_err map_conversation_project_error (Conversations.delete_conversation_project (p_id p) user);
  st_ok (MkDeleted (p_uuid p) OBJECT_TYPE_CONVERSATION_PROJECT_DELETED true).

(** ** Instructions *)
(** [InstructionContext::load]. *)
Definition load_instruction (id : Uuid) : Route (UserInstruction * Encrypt.SecretKey) :=
  i ← st_map_err map_instruction_error (get_user_instruction_by_uuid_and_user id user);
  key ← get_user_key;
  st_ok (i, key).
Definition decrypt_instruction (i : UserInstruction) (key : Encrypt.SecretKey) : Route (string * string) :=
  name ← decrypt_required key (i_name_enc i);
  prompt ← decrypt_required key (Some (i_prompt_enc i));
  st_ok (name, prompt).
(** [InstructionResponseBuilder] with both parts set. *)
Definition build_instruction (i : UserInstruction) (name prompt : string) : InstructionResponse :=
  MkInstructionResponse (i_uuid i) "instruction" name prompt (i_prompt_tokens i) (i_is_default i)
    (ClientStream.timestamp (i_created_at i)) (ClientStream.timestamp (i_updated_at i)).

Definition create_instruction (body : CreateInstructionRequest) : Route InstructionResponse :=
  if is_empty (trim (ci_name body)) then st_err Api.BadRequest
  else if is_empty (trim (ci_prompt body)) then st_err Api.BadRequest
  else
    key ← get_user_key;
    name_enc ← encrypt_with_key nonce key (ci_name body);
    prompt_enc ← encrypt_with_key nonce' key (ci_prompt body);
    i ← st_map_err map_generic_db_error (create_user_instruction now
      (MkNewInstruction new_v4 user None (Some name_enc) prompt_enc (prompt_token_count (ci_prompt body)) (ci_is_default body)));
    st_ok (build_instruction i (ci_name body) (ci_prompt body)).

Definition get_instruction (id : Uuid) : Route InstructionResponse :=
  ctx ← load_instruction id;
  content ← decrypt_instruction ctx.1 ctx.2;
  st_ok (build_instruction ctx.1 content.1 content.2).

Definition update_instruction (id : Uuid) (body : UpdateInstructionRequest) : Route InstructionResponse :=
  if bool_decide (ui_name body = None) && bool_decide (ui_prompt body = None) && bool_decide (ui_is_default body = None)
  then st_err Api.BadRequest
  else
    ctx ← load_instruction id;
    current ← decrypt_instruction ctx.1 ctx.2;
    let final_name := default current.1 (ui_name body) in
    let final_prompt := default current.2 (ui_prompt body) in
    let final_is_default := default (i_is_default ctx.1) (ui_is_default body) in
    if is_empty (trim final_name) then st_err Api.BadRequest
    else if is_empty (trim final_prompt) then st_err Api.BadRequest
    else
      name_enc ← encrypt_with_key nonce ctx.2 final_name;
      prompt_enc ← encrypt_with_key nonce' ctx.2 final_prompt;
      updated ← st_map_err map_generic_db_error (update_user_instruction now (i_id ctx.1) user name_enc prompt_enc
        (prompt_token_count final_prompt) final_is_default);
      st_ok (build_instruction updated final_name final_prompt).

Definition delete_instruction (id : Uuid) : Route DeletedObjectResponse :=
  ctx ← load_instruction id;
  _ ← st_map_err map_generic_db_error (delete_user_instruction (i_id ctx.1) user);
  st_ok (MkDeleted (i_uuid ctx.1) "instruction.deleted" true).

Fixpoint instruction_items (l : list UserInstruction) (key : Encrypt.SecretKey) : Route (list InstructionResponse) :=
  match l with
  | [] => st_ok []
  | i :: l =>
      content ← decrypt_instruction i key;
      rest ← instruction_items l key;
      st_ok (build_instruction i content.1 content.2 :: rest)
  end.
Definition list_instructions (params : ListParams) : Route (Page InstructionResponse) :=
  let limit := page_limit (l_limit params) in
  rows ← st_map_err map_generic_db_error (list_user_instructions user (limit + 1) (l_after params) (l_order params));
  let '(has_more, rows) := split_page limit rows in
  key ← get_user_key;
  data ← instruction_items rows key;
  st_ok (page has_more data (get_cursor_ids rows i_uuid)).

Definition set_default_instruction (id : Uuid) : Route InstructionResponse :=
  ctx ← load_instruction id;
  if i_is_default ctx.1 then
    content ← decrypt_instruction ctx.1 ctx.2;
    st_ok (build_instruction ctx.1 content.1 content.2)
  else
    updated ← st_map_err map_generic_db_error (set_default_user_instruction now (i_id ctx.1) user);
    content ← decrypt_instruction ctx.1 ctx.2;
    st_ok (build_instruction updated content.1 content.2).
End routes.

(** ** Every request of a user *)
Inductive Request :=
| CreateConversation (body : CreateConversationRequest)
| GetConversation (id : Uuid)
| UpdateConversation (id : Uuid) (body : UpdateConversationRequest)
| DeleteConversation (id : Uuid)
| ListItems (id : Uuid) (params : ListParams)
| GetItem (id item : Uuid)
| ListConversations (params : ListConversationsParams)
| DeleteAllConversations
| BatchDelete (ids : list Uuid)
| BatchUpdateProject (ids : list Uuid) (project_id : NullableField Uuid)
| CreateProject (name : string)
| ListProjects (params : ListParams)
| GetProject (id : Uuid)
| UpdateProject (id : Uuid) (body : UpdateConversationProjectRequest)
| DeleteProject (id : Uuid)
| CreateInstruction (body : CreateInstructionRequest)
| GetInstruction (id : Uuid)
| UpdateInstruction (id : Uuid) (body : UpdateInstructionRequest)
| DeleteInstruction (id : Uuid)
| ListInstructions (params : ListParams)
| SetDefaultInstruction (id : Uuid).
Inductive Answer :=
| AConversation (c : ConversationResponse) | AItems (p : Page Conversions.ConversationItem)
| AItem (i : Conversions.ConversationItem) | AConversations (p : Page ConversationResponse)
| ADeleted (d : DeletedObjectResponse) | ADeletedAll (o : string * bool) | ABatch (l : list BatchDeleteItemResult)
| ASuccess (b : bool) | AProject (p : ConversationProjectResponse) | AProjects (p : Page ConversationProjectListItem)
| AInstruction (i : InstructionResponse) | AInstructions (p : Page InstructionResponse).

Section handle.
Context `{Crypto, SerdeJson, Conversions.Tokenizer, Conversions.ContentJson}.
Context (now : Z) (new_v4 : Uuid) (nonce nonce' : bytes) (user : Uuid) (user_key : outcome Api.ApiError Encrypt.SecretKey).

Definition answer {A} (f : A -> Answer) (m : ST State Api.ApiError A) : ST State Api.ApiError Answer :=
  a ← m; st_ok (f a).
(** The routers. *)
Definition handle (r : Request) : ST State Api.ApiError Answer :=
  match r with
  | CreateConversation body => answer AConversation (create_conversation now new_v4 nonce user user_key body)
  | GetConversation id => answer AConversation (get_conversation user user_key id)
  | UpdateConversation id body => answer AConversation (update_conversation now nonce user user_key id body)
  | DeleteConversation id => answer ADeleted (delete_conversation user user_key id)
  | ListItems id params => answer AItems (list_conversation_items user user_key id params)
  | GetItem id item => answer AItem (get_conversation_item user user_key id item)
  | ListConversations params => answer AConversations (list_conversations user user_key params)
  | DeleteAllConversations => answer ADeletedAll (delete_all_conversations user)
  | BatchDelete ids => answer ABatch (batch_delete_conversations user ids)
  | BatchUpdateProject ids project_id => answer ASuccess (batch_update_conversation_project now user ids project_id)
  | CreateProject name => answer AProject (create_conversation_project now new_v4 nonce user user_key name)
  | ListProjects params => answer AProjects (list_conversation_projects user user_key params)
  | GetProject id => answer AProject (get_conversation_project user user_key id)
  | UpdateProject id body => answer AProject (update_conversation_project now new_v4 nonce nonce' user user_key id body)
  | DeleteProject id => answer ADeleted (delete_conversation_project user id)
  | CreateInstruction body => answer AInstruction (create_instruction now new_v4 nonce nonce' user user_key body)
  | GetInstruction id => answer AInstruction (get_instruction user user_key id)
  | UpdateInstruction id body => answer AInstruction (update_instruction now nonce nonce' user user_key id body)
  | DeleteInstruction id => answer ADeleted (delete_instruction user user_key id)
  | ListInstructions params => answer AInstructions (list_instructions user user_key params)
  | SetDefaultInstruction id => answer AInstruction (set_default_instruction now user user_key id)
  end.
End handle.
End ConversationRoutes.
