(* ===== verification/ThreadContext.v ===== *)
(** * The prompt, read from the tables

    The queries of [src/src/models/responses.rs] and [src/src/db.rs] that the
    context builder makes, and [build_prompt_with_token_reserve] of
    [src/src/web/responses/context_builder.rs] as the calls it makes, in order, on a
    database where any statement may fail.  What it computes from the answers is
    [ContextBuilder]. *)

From S2P Require Import Prelude Text Json Crypto Api Encrypt Models Conversions ContextBuilder Database Statements Pagination Responses Conversations.

Module ThreadContext.
Import Sql Conversations.
Abbreviation Metadata := ContextBuilder.RawThreadMessageMetadata.

(** ** The queries *)
Definition metadata_of (r : Raw) : Metadata :=
  ContextBuilder.MkMetadata (Conversions.message_type r) (Conversions.id r) (Conversions.uuid r)
    (Conversions.created_at r) (Conversions.token_count r) (Conversions.tool_call_id r).
Definition METADATA_LIMIT : Z := 1000.
(** The newest rows, oldest first. *)
Definition recent_metadata (t : Responses.Tables) (conversation : Z) : list Metadata :=
  metadata_of <$> rev (Pagination.page_query Conversions.created_at Conversions.id "desc" METADATA_LIMIT None
    (conversation_messages t conversation)).
Definition context_metadata (conversation : Z) : ST State ResponsesError (list Metadata) :=
  diesel (select (fun t => recent_metadata (chat t) conversation)).

Definition requested (message_ids : list (string * Z)) (r : Raw) : bool :=
  bool_decide ((Conversions.message_type r, Conversions.id r) ∈ message_ids).
Definition rows_by_ids (t : Responses.Tables) (conversation : Z) (message_ids : list (string * Z)) : list Raw :=
  Pagination.ordered Conversions.created_at Conversions.id "asc"
    (matching_rows (requested message_ids) (conversation_messages t conversation)).
Definition messages_by_ids (conversation : Z) (message_ids : list (string * Z)) : ST State ResponsesError (list Raw) :=
  if decide (message_ids = []) then st_ok []
  else diesel (select (fun t => rows_by_ids (chat t) conversation message_ids)).

Definition get_conversation_context_metadata (conversation : Z) : ST State DBError (list Metadata) :=
  method (context_metadata conversation).
Definition get_messages_by_ids (conversation : Z) (message_ids : list (string * Z)) : ST State DBError (list Raw) :=
  method (messages_by_ids conversation message_ids).

(** ** The builder *)
Abbreviation Route := (ST State Api.ApiError).
Definition internal {A} (m : ST State DBError A) : Route A := st_map_err (fun _ => Api.InternalServerError) m.
Definition instruction_row (i : UserInstruction) : ContextBuilder.Instruction :=
  ContextBuilder.MkInstruction (i_prompt_enc i) (i_prompt_tokens i).

Section builder.
Context `{Conversions.Tokenizer, Crypto, SerdeJson, Conversions.ContentJson, UuidText, ContextBuilder.BuildProfile}.

Definition decrypt_instruction (user_key : Encrypt.SecretKey) (i : UserInstruction) : Route (option (string * Z)) :=
  st_lift (Some <$> ContextBuilder.decrypt_instruction user_key (instruction_row i)).

Definition base_instructions (conversation : Z) (user : Uuid) (user_key : Encrypt.SecretKey)
    (override_instructions : option string) : Route (option (string * Z)) :=
  match override_instructions with
  | Some text => st_ok (Some (text, Conversions.count_tokens text))
  | None =>
      project ← internal (get_project_instruction_for_conversation conversation user);
      match project with
      | Some i => decrypt_instruction user_key i
      | None =>
          default ← internal (get_default_user_instruction user);
          match default with
          | Some i => decrypt_instruction user_key i
          | None => st_ok None
          end
      end
  end.
(** The internal instructions go first. *)
Definition with_internal (internal_instructions : option string) (base : option (string * Z)) : option (string * Z) :=
  match internal_instructions with
  | None => base
  | Some instructions =>
      let content := match base with
                     | Some (existing, _) => instructions +:+ nl +:+ nl +:+ existing
                     | None => instructions
                     end in
      Some (content, Conversions.count_tokens content)
  end.
Definition assemble (system_msg_opt : option (string * Z)) (rows : list ContextBuilder.ChatMsg) (did_truncate : bool)
    (model : string) (token_reserve : Z) : outcome Api.ApiError (list Value * Z) :=
  let msgs := option_list (ContextBuilder.system_chat_msg <$> system_msg_opt) ++ rows in
  let msgs := ContextBuilder.insert_truncation did_truncate (bool_decide (is_Some system_msg_opt)) msgs in
  if decide (token_reserve = 0%Z) then ContextBuilder.build_prompt_from_chat_messages msgs model
  else ContextBuilder.build_prompt_from_chat_messages_with_token_reserve msgs model token_reserve.

Definition build_prompt_with_token_reserve (new_v4 : Z -> Uuid) (conversation : Z) (user : Uuid)
    (user_key : Encrypt.SecretKey) (model : string) (override_instructions internal_instructions : option string)
    (token_reserve : Z) : Route (list Value * Z) :=
  base ← base_instructions conversation user user_key override_instructions;
  let system_msg_opt := with_internal internal_instructions base in
  metadata ← internal (get_conversation_context_metadata conversation);
  needed ← st_lift (ContextBuilder.determine_needed_message_ids metadata model
    (default 0%Z (snd <$> system_msg_opt)) token_reserve);
  raw ← (if bool_decide (needed.1 = []) then st_ok [] else internal (get_messages_by_ids conversation needed.1));
  rows ← st_lift (ContextBuilder.push_rows user_key (Models.model_supports_reasoning_history model) new_v4 None raw);
  st_lift (assemble system_msg_opt rows needed.2 model token_reserve).
Definition build_prompt (new_v4 : Z -> Uuid) (conversation : Z) (user : Uuid) (user_key : Encrypt.SecretKey)
    (model : string) (override_instructions internal_instructions : option string) : Route (list Value * Z) :=
  build_prompt_with_token_reserve new_v4 conversation user user_key model override_instructions internal_instructions 0.
End builder.

(** ** The answers of the tables *)
Definition project_instruction (t : Tables) (conversation : Z) (user : Uuid) : outcome DBError (option UserInstruction) :=
  project ← ok_or (Responses.ResponsesErr Responses.ConversationNotFound)
              (c_project_id <$> first (conversation_by_id conversation user) (conversations t));
  Ok (match project with Some project => first (instruction_of_project project user) (instructions t) | None => None end).
Definition prompt_db (t : Tables) : ContextBuilder.Db :=
  ContextBuilder.MkDb
    (fun conversation user => map_err (fun _ => tt) (option_map instruction_row <$> project_instruction t conversation user))
    (fun user => Ok (option_map instruction_row (first (instruction_default user) (instructions t))))
    (fun conversation => Ok (recent_metadata (chat t) conversation))
    (fun conversation ids => Ok (rows_by_ids (chat t) conversation ids)).

(** *** Calls that read

    [reports bad m o]: [m] changes no table and answers [o] of the tables, or one
    of the errors [bad] if a statement failed. *)
Definition reports {E A} (bad : E -> Prop) (m : ST State E A) (o : Tables -> outcome E A) : Prop :=
  forall s r s', m s = (r, s') -> tables s' = tables s /\ (r = o (tables s) \/ exists e, bad e /\ r = Err e) /\
    (faults s = [] -> r = o (tables s) /\ faults s' = []).

Lemma reports_lift {E A} (bad : E -> Prop) (o : outcome E A) : reports bad (st_lift o) (fun _ => o).
Proof. intros s r s' [= <- <-]. naive_solver. Qed.
Lemma reports_ok {E A} (bad : E -> Prop) (a : A) : reports bad (st_ok a) (fun _ => Ok a).
Proof. intros s r s' [= <- <-]. naive_solver. Qed.
Lemma reports_bind {E A B} (bad : E -> Prop) (m : ST State E A) o (f : A -> ST State E B) p :
  reports bad m o -> (forall a, reports bad (f a) (p a)) -> reports bad (x ← m; f x) (fun t => x ← o t; p x t).
Proof.
  intros Hm Hf s r s'. unfold mbind, ST_bind. destruct (m s) as [r0 s1] eqn:H1. intros H2.
  destruct (Hm _ _ _ H1) as (Ht & Hc & Hg). destruct r0 as [a|e|].
  - destruct (Hf a _ _ _ H2) as (Ht' & Hc' & Hg'). rewrite Ht in *. split; [done|]. split.
    + destruct Hc as [<-|(e & _ & ?)]; [exact Hc'|done].
    + intros Hs. destruct (Hg Hs) as [<- Hs1]. by apply Hg'.
  - injection H2 as <- <-. split; [done|]. split; [|by intros Hs; destruct (Hg Hs) as [<- ?]].
    destruct Hc as [<-|(e' & ? & [= ->])]; [by left|right; eauto].
  - injection H2 as <- <-. split; [done|]. split; [|by intros Hs; destruct (Hg Hs) as [<- ?]].
    destruct Hc as [<-|(e' & _ & ?)]; [by left|done].
Qed.
Lemma reports_map_err {E E' A} (bad : E -> Prop) (bad' : E' -> Prop) (f : E -> E') (m : ST State E A) o :
  (forall e, bad e -> bad' (f e)) -> reports bad m o -> reports bad' (st_map_err f m) (fun t => map_err f (o t)).
Proof.
  intros Hb Hm s r s' (r0 & Hs & ->)%Db.st_map_err_inv. destruct (Hm _ _ _ Hs) as (Ht & Hc & Hg). split; [done|]. split.
  - destruct Hc as [->|(e & ? & ->)]; [by left|right; exists (f e); auto].
  - intros Hf. by destruct (Hg Hf) as [-> ?].
Qed.
Lemma reports_ext {E A} (bad : E -> Prop) (m : ST State E A) o p : (forall t, o t = p t) -> reports bad m o -> reports bad m p.
Proof. intros He Hm s r s' Hs. rewrite <- He. by apply Hm. Qed.

Definition any {E} (_ : E) : Prop := True.
Definition is_500 (e : Api.ApiError) : Prop := e = Api.InternalServerError.
Lemma reports_select {A} (f : Tables -> A) : reports any (select f) (fun t => Ok (f t)).
Proof.
  intros s r s'. unfold select, statement, faulty, advance, with_tables, any.
  destruct (faults s) as [|[] l]; cbn; intros [= <- <-]; cbn; naive_solver.
Qed.
Lemma reports_connection : reports any db_connection (fun _ => Ok tt).
Proof. intros s r s'. unfold db_connection, connection, faulty, advance, any. destruct (faults s) as [|[] l]; cbn; intros [= <- <-]; cbn; naive_solver. Qed.
Lemma reports_diesel {A} (f : Tables -> A) : reports any (diesel (select f)) (fun t => Ok (f t)).
Proof. apply (reports_ext _ _ (fun t => map_err Responses.DatabaseError (Ok (f t)))); [done|]. by eapply reports_map_err, reports_select. Qed.
Lemma reports_method {A} (m : ST State ResponsesError A) o :
  reports any m o -> reports any (method m) (fun t => map_err Responses.ResponsesErr (o t)).
Proof.
  intros Hm. apply (reports_ext _ _ (fun t => u ← Ok tt; map_err Responses.ResponsesErr (o t))); [done|].
  apply (reports_bind _ _ (fun _ => Ok tt) _ (fun _ t => map_err Responses.ResponsesErr (o t))); [apply reports_connection|].
  intros []. by eapply reports_map_err.
Qed.
Lemma reports_internal {A} (m : ST State DBError A) o :
  reports any m o -> reports is_500 (internal m) (fun t => ContextBuilder.internal (o t)).
Proof. intros Hm. by eapply reports_map_err. Qed.

Lemma metadata_reports conversation :
  reports is_500 (internal (get_conversation_context_metadata conversation)) (fun t => Ok (recent_metadata (chat t) conversation)).
Proof.
  eapply reports_ext; [|apply reports_internal, reports_method, reports_diesel]. done.
Qed.
Lemma messages_answer conversation ids :
  reports is_500 (if bool_decide (ids = []) then st_ok [] else internal (get_messages_by_ids conversation ids))
    (fun t => if bool_decide (ids = []) then Ok [] else Ok (rows_by_ids (chat t) conversation ids)).
Proof.
  case_bool_decide; [apply reports_ok|]. eapply reports_ext; [|apply reports_internal, reports_method].
  2: { unfold messages_by_ids. rewrite decide_False by done. apply reports_diesel. }
  done.
Qed.
Lemma default_reports user :
  reports is_500 (internal (get_default_user_instruction user)) (fun t => Ok (first (instruction_default user) (instructions t))).
Proof. eapply reports_ext; [|apply reports_internal, reports_method, reports_diesel]. done. Qed.
Lemma project_reports conversation user :
  reports is_500 (internal (get_project_instruction_for_conversation conversation user))
    (fun t => ContextBuilder.internal (project_instruction t conversation user)).
Proof.
  apply reports_internal.
  apply (reports_ext _ _ (fun t => _ ← Ok tt; project_instruction t conversation user)); [done|].
  apply (reports_bind _ _ _ _ (fun _ t => project_instruction t conversation user)); [apply reports_connection|intros _].
  apply (reports_ext _ _ (fun t =>
    found ← map_err Responses.ResponsesErr (Ok (c_project_id <$> first (conversation_by_id conversation user) (conversations t)));
    project ← ok_or (Responses.ResponsesErr Responses.ConversationNotFound) found;
    Ok (match project with Some project => first (instruction_of_project project user) (instructions t) | None => None end))).
  { done. }
  apply (reports_bind _ _ _ _ (fun found t => project ← ok_or (Responses.ResponsesErr Responses.ConversationNotFound) found;
    Ok (match project with Some project => first (instruction_of_project project user) (instructions t) | None => None end))).
  { by eapply reports_map_err, reports_diesel. }
  intros found. apply (reports_bind _ _ (fun _ => ok_or _ found) _ (fun project t =>
    Ok (match project with Some project => first (instruction_of_project project user) (instructions t) | None => None end))).
  { apply reports_lift. }
  intros [project|]; [|apply reports_ok].
  apply (reports_ext _ _ (fun t => map_err Responses.ResponsesErr (Ok (first (instruction_of_project project user) (instructions t))))); [done|].
  by eapply reports_map_err, reports_diesel.
Qed.

Section runs.
Context `{Conversions.Tokenizer, Crypto, SerdeJson, Conversions.ContentJson, UuidText, ContextBuilder.BuildProfile}.

Lemma decrypt_reports user_key i :
  reports is_500 (decrypt_instruction user_key i)
    (fun _ => Some <$> ContextBuilder.decrypt_instruction user_key (instruction_row i)).
Proof. apply reports_lift. Qed.

Definition pure_base (t : Tables) (conversation : Z) (user : Uuid) (user_key : Encrypt.SecretKey) (override : option string)
    : outcome Api.ApiError (option (string * Z)) :=
  ContextBuilder.system_message (prompt_db t) conversation user user_key override None.
Lemma base_reports conversation user user_key override :
  reports is_500 (base_instructions conversation user user_key override) (fun t => pure_base t conversation user user_key override).
Proof.
  unfold base_instructions, pure_base. destruct override as [text|]; [apply reports_ok|].
  set (of_default (t : Tables) (d : option UserInstruction) := match d with
    | Some i => Some <$> ContextBuilder.decrypt_instruction user_key (instruction_row i) | None => Ok None end).
  set (of_project (t : Tables) (p : option UserInstruction) := match p with
    | Some i => Some <$> ContextBuilder.decrypt_instruction user_key (instruction_row i)
    | None => d ← Ok (first (instruction_default user) (instructions t)); of_default t d end).
  apply (reports_ext _ _ (fun t => p ← ContextBuilder.internal (project_instruction t conversation user); of_project t p)).
  { intros t. cbn. destruct (project_instruction t conversation user) as [[i|]|e|]; cbn; try done.
    - by destruct (ContextBuilder.decrypt_instruction _ _).
    - destruct (first _ _); cbn; [by destruct (ContextBuilder.decrypt_instruction _ _)|done]. }
  apply (reports_bind _ _ _ _ (fun p t => of_project t p)); [apply project_reports|].
  intros [i|]; cbn [of_project]; [apply reports_lift|].
  apply (reports_bind _ _ _ _ (fun d t => of_default t d)); [apply default_reports|].
  intros [i|]; cbn [of_default]; [apply reports_lift|apply reports_ok].
Qed.

Lemma system_message_internal t conversation user user_key override internal_instructions :
  ContextBuilder.system_message (prompt_db t) conversation user user_key override internal_instructions =
  (base ← pure_base t conversation user user_key override; Ok (with_internal internal_instructions base)).
Proof.
  unfold pure_base, ContextBuilder.system_message.
  match goal with |- mbind _ ?m = mbind _ (mbind _ ?m') => change m' with m; destruct m as [base|e|] end; [|done..].
  by destruct internal_instructions.
Qed.

(** What the builder answers is what [ContextBuilder] computes of the tables. *)
Lemma builder_reports new_v4 conversation user user_key model override internal_instructions reserve :
  reports is_500
    (build_prompt_with_token_reserve new_v4 conversation user user_key model override internal_instructions reserve)
    (fun t => ContextBuilder.build_prompt_with_token_reserve (prompt_db t) new_v4 conversation user user_key model override
                internal_instructions reserve).
Proof.
  set (finish (base : option (string * Z)) (t : Tables) (raw : list Raw) (needed : list (string * Z) * bool) :=
    rows ← ContextBuilder.push_rows user_key (Models.model_supports_reasoning_history model) new_v4 None raw;
    assemble (with_internal internal_instructions base) rows (snd needed) model reserve).
  set (fetch base t (needed : list (string * Z) * bool) :=
    raw ← (if bool_decide (needed.1 = []) then Ok [] else Ok (rows_by_ids (chat t) conversation needed.1));
    finish base t raw needed).
  set (plan base (t : Tables) (metadata : list Metadata) :=
    needed ← ContextBuilder.determine_needed_message_ids metadata model
      (default 0%Z (snd <$> with_internal internal_instructions base)) reserve;
    fetch base t needed).
  apply (reports_ext _ _ (fun t => base ← pure_base t conversation user user_key override;
    metadata ← Ok (recent_metadata (chat t) conversation); plan base t metadata)).
  { intros t. unfold ContextBuilder.build_prompt_with_token_reserve. rewrite (system_message_internal t).
    destruct (pure_base _ _ _ _ _) as [base|e|]; [|done..]. cbn. unfold plan, fetch, finish.
    destruct (ContextBuilder.determine_needed_message_ids _ _ _ _) as [[ids b]|e|]; [|done..]. cbn.
    case_bool_decide; [|done]. done. }
  apply (reports_bind _ _ _ _ (fun base t => metadata ← Ok (recent_metadata (chat t) conversation); plan base t metadata));
    [apply base_reports|intros base].
  apply (reports_bind _ _ _ _ (fun metadata t => plan base t metadata)); [apply metadata_reports|intros metadata].
  apply (reports_bind _ _ (fun _ => _) _ (fun needed t => fetch base t needed)); [apply reports_lift|intros needed].
  apply (reports_bind _ _ _ _ (fun raw t => finish base t raw needed)); [apply messages_answer|intros raw].
  apply (reports_bind _ _ (fun _ => _) _ (fun rows _ => assemble _ rows _ model reserve)); [apply reports_lift|intros rows].
  apply reports_lift.
Qed.
End runs.
End ThreadContext.
