(* ===== verification/Isolation.v ===== *)
(** * Users do not see each other

    What one user sees of the tables of [Conversations], the invariant that
    separates users, and the proof that every request of [ConversationRoutes]
    depends only on, and changes only, what its user sees. *)

From S2P Require Import Prelude Text Json Crypto Api Encrypt Conversions Database Statements Rows Pagination Responses Conversations ConversationRoutes.

Module Isolation.
Import Sql Conversations.

(** ** The invariant *)
Definition belongs (convs : list Z) (t : Responses.Tables) (conv : Z) (resp : option Z) : Prop :=
  conv ∈ convs /\
  forall r, r ∈ Responses.responses t -> resp = Some (Responses.r_id r) -> Responses.nr_conversation_id (Responses.r_new r) = conv.
(** The rows of a response, a message or a call are rows of its conversation,
    and the conversation exists. *)
Record chat_ok (convs : list Z) (t : Responses.Tables) : Prop := {
  co_responses r : r ∈ Responses.responses t -> Responses.nr_conversation_id (Responses.r_new r) ∈ convs;
  co_users m : m ∈ Responses.user_messages t ->
    belongs convs t (Responses.nu_conversation_id (Responses.um_new m)) (Responses.nu_response_id (Responses.um_new m));
  co_assistants a : a ∈ Responses.assistant_messages t -> belongs convs t (Responses.a_conversation_id a) (Responses.a_response_id a);
  co_reasoning g : g ∈ Responses.reasoning_items t ->
    belongs convs t (Responses.g_conversation_id g) (Responses.g_response_id g) /\
    forall a, a ∈ Responses.assistant_messages t -> Responses.g_assistant_message_id g = Some (Responses.a_id a) ->
      Responses.a_conversation_id a = Responses.g_conversation_id g;
  co_calls c : c ∈ Responses.tool_calls t ->
    belongs convs t (Responses.nt_conversation_id (Responses.tc_new c)) (Responses.nt_response_id (Responses.tc_new c));
  co_outputs o : o ∈ Responses.tool_outputs t ->
    belongs convs t (Responses.no_conversation_id (Responses.to_new o)) (Responses.no_response_id (Responses.to_new o)) /\
    forall c, c ∈ Responses.tool_calls t -> Responses.tc_id c = Responses.no_tool_call_fk (Responses.to_new o) ->
      Responses.nt_conversation_id (Responses.tc_new c) = Responses.no_conversation_id (Responses.to_new o) }.

(** [n]: the next sequence value. *)
Record wf (n : Z) (t : Tables) : Prop := {
  wf_project_ids : NoDup (p_id <$> projects t);
  wf_project_uuids : NoDup (p_uuid <$> projects t);
  wf_project_serial p : p ∈ projects t -> (p_id p < n)%Z;
  wf_project_limit v : (Z.of_nat (length (own p_user_id v (projects t))) <= MAX_CONVERSATION_PROJECTS_PER_USER)%Z;
  wf_instruction_ids : NoDup (i_id <$> instructions t);
  wf_instruction_uuids : NoDup (i_uuid <$> instructions t);
  wf_instruction_serial i : i ∈ instructions t -> (i_id i < n)%Z;
  wf_instruction_checked i : i ∈ instructions t -> instruction_checked i = true;
  wf_one_default v : length (matching_rows i_is_default (own i_user_id v (instructions t))) <= 1;
  wf_one_per_project : NoDup (omap i_project_id (instructions t));
  wf_instruction_project i p : i ∈ instructions t -> i_project_id i = Some p ->
    exists q, q ∈ projects t /\ p_id q = p /\ p_user_id q = i_user_id i;
  wf_conversation_ids : NoDup (c_id <$> conversations t);
  wf_conversation_uuids : NoDup (c_uuid <$> conversations t);
  wf_conversation_serial c : c ∈ conversations t -> (c_id c < n)%Z;
  wf_conversation_project c p : c ∈ conversations t -> c_project_id c = Some p ->
    exists q, q ∈ projects t /\ p_id q = p /\ p_user_id q = c_user_id c;
  wf_chat_conversations : Responses.conversations (chat t) = c_id <$> conversations t;
  wf_chat : chat_ok (c_id <$> conversations t) (chat t) }.

(** ** What a user sees *)
(** The rows of the six tables that belong to a conversation: its responses
    with their statuses, its messages, reasoning, calls and outputs. *)
Definition chat_rows (t : Responses.Tables) (conv : Z) : Responses.Tables :=
  let here c := bool_decide (c = conv) in
  Responses.MkTables []
    (matching_rows (fun r => here (Responses.nr_conversation_id (Responses.r_new r))) (Responses.responses t))
    (matching_rows (fun m => here (Responses.nu_conversation_id (Responses.um_new m))) (Responses.user_messages t))
    (matching_rows (fun a => here (Responses.a_conversation_id a)) (Responses.assistant_messages t))
    (matching_rows (fun g => here (Responses.g_conversation_id g)) (Responses.reasoning_items t))
    (matching_rows (fun c => here (Responses.nt_conversation_id (Responses.tc_new c))) (Responses.tool_calls t))
    (matching_rows (fun o => here (Responses.no_conversation_id (Responses.to_new o))) (Responses.tool_outputs t)).
(** The items the routes list, and the rows. *)
Definition items (t : Responses.Tables) (conv : Z) : list Raw * Responses.Tables :=
  (conversation_messages t conv, chat_rows t conv).
Record View := MkView {
  v_user : bool; v_projects : list ConversationProject; v_instructions : list UserInstruction;
  v_conversations : list (Conversation * (list Raw * Responses.Tables)) }.
Definition view (v : Uuid) (t : Tables) : View :=
  MkView (exists_user v t) (own p_user_id v (projects t)) (own i_user_id v (instructions t))
    ((fun c => (c, items (chat t) (c_id c))) <$> own c_user_id v (conversations t)).

Lemma view_eq v t1 t2 : view v t1 = view v t2 <->
  exists_user v t1 = exists_user v t2 /\ own p_user_id v (projects t1) = own p_user_id v (projects t2) /\
  own i_user_id v (instructions t1) = own i_user_id v (instructions t2) /\
  own c_user_id v (conversations t1) = own c_user_id v (conversations t2) /\
  (forall c, c ∈ own c_user_id v (conversations t1) ->
     items (chat t1) (c_id c) = items (chat t2) (c_id c)).
Proof.
  unfold view. split.
  - intros [= Hu Hp Hi Hc].
    assert (own c_user_id v (conversations t1) = own c_user_id v (conversations t2)) as Heq.
    { apply (f_equal (fmap fst)) in Hc. rewrite <- !list_fmap_compose in Hc. unfold compose in Hc. cbn in Hc. by rewrite !list_fmap_id in Hc. }
    split_and!; [done..|]. rewrite <- Heq in Hc. intros c Hin. apply list_elem_of_lookup in Hin as [i Hi'].
    apply (f_equal (lookup i)) in Hc. rewrite !list_lookup_fmap, Hi' in Hc. cbn in Hc. congruence.
  - intros (-> & -> & -> & Hc & Hm). f_equal. rewrite <- Hc. apply list_fmap_ext. intros i c Hi.
    f_equal. apply Hm. by eapply list_elem_of_lookup_2.
Qed.

(** ** Items and cascades *)

(** The items of the conversations that stay. *)
Definition kept_chat (gone : list Z) (t : Responses.Tables) : Responses.Tables :=
  let here c := bool_decide (c ∈ gone) in
  Responses.MkTables (Responses.conversations t)
    (delete_rows (fun r => here (Responses.nr_conversation_id (Responses.r_new r))) (Responses.responses t))
    (delete_rows (fun m => here (Responses.nu_conversation_id (Responses.um_new m))) (Responses.user_messages t))
    (delete_rows (fun a => here (Responses.a_conversation_id a)) (Responses.assistant_messages t))
    (delete_rows (fun g => here (Responses.g_conversation_id g)) (Responses.reasoning_items t))
    (delete_rows (fun c => here (Responses.nt_conversation_id (Responses.tc_new c))) (Responses.tool_calls t))
    (delete_rows (fun o => here (Responses.no_conversation_id (Responses.to_new o))) (Responses.tool_outputs t)).
Section cascade.
Context (convs gone : list Z) (t : Responses.Tables) (Hok : chat_ok convs t).

Lemma in_gone_elem ids o : in_gone ids o = true <-> exists id, o = Some id /\ id ∈ ids.
Proof. unfold in_gone, Responses.of_response. destruct o; [rewrite bool_decide_eq_true|]; naive_solver. Qed.
Lemma gone_response conv resp : belongs convs t conv resp ->
  in_gone (Responses.r_id <$> matching_rows (fun r => bool_decide (Responses.nr_conversation_id (Responses.r_new r) ∈ gone)) (Responses.responses t)) resp = true ->
  conv ∈ gone.
Proof.
  intros [_ Hb] (id & -> & (r & -> & [Hr Hin]%Db.elem_of_matching)%list_elem_of_fmap)%in_gone_elem.
  rewrite bool_decide_eq_true in Hr. by rewrite <- (Hb r Hin eq_refl).
Qed.

Lemma drop_chat_rows : drop_chat gone t = kept_chat gone t.
Proof.
  unfold drop_chat, kept_chat. cbv zeta.
  f_equal; apply filter_ext_elem; intros x Hx; rewrite ?orb_false_iff; (split; [tauto|]); intros Hhere;
    rewrite bool_decide_eq_false in Hhere; rewrite ?bool_decide_eq_false.
  - split; [done|]. apply not_true_is_false. intros Hg. by apply (gone_response _ _ (co_users _ _ Hok x Hx)) in Hg.
  - split; [done|]. apply not_true_is_false. intros Hg. by apply (gone_response _ _ (co_assistants _ _ Hok x Hx)) in Hg.
  - destruct (co_reasoning _ _ Hok x Hx) as [Hb Ha]. split_and!; [done|..]; apply not_true_is_false.
    + intros Hg. by apply (gone_response _ _ Hb) in Hg.
    + intros (id & Hid & (a & -> & [Hm Hin]%Db.elem_of_matching)%list_elem_of_fmap)%in_gone_elem.
      apply Hhere. rewrite <- (Ha a Hin Hid). apply orb_true_iff in Hm as [Hm%bool_decide_eq_true|Hm]; [done|].
      by apply (gone_response _ _ (co_assistants _ _ Hok a Hin)) in Hm.
  - split; [done|]. apply not_true_is_false. intros Hg. by apply (gone_response _ _ (co_calls _ _ Hok x Hx)) in Hg.
  - destruct (co_outputs _ _ Hok x Hx) as [Hb Ha]. split_and!; [done|..]; apply not_true_is_false.
    + intros Hg. by apply (gone_response _ _ Hb) in Hg.
    + intros (id & [= Hid] & (c & Hc & [Hm Hin]%Db.elem_of_matching)%list_elem_of_fmap)%in_gone_elem.
      apply Hhere. rewrite <- (Ha c Hin ltac:(congruence)). apply orb_true_iff in Hm as [Hm%bool_decide_eq_true|Hm]; [done|].
      by apply (gone_response _ _ (co_calls _ _ Hok c Hin)) in Hm.
Qed.

(** Dropping conversations leaves the items of the others. *)
Lemma drop_chat_messages conv : (conv ∉ gone) -> conversation_messages (drop_chat gone t) conv = conversation_messages t conv.
Proof.
  intros Hc. rewrite drop_chat_rows. unfold conversation_messages.
  assert (forall resp, belongs convs t conv resp ->
    Responses.response_model (kept_chat gone t) resp =
    Responses.response_model t resp) as Hmodel.
  { intros [id|] [_ Hb]; [|done]. unfold Responses.response_model. cbn. f_equal. apply first_delete_elem.
    intros r Hr Hid%bool_decide_eq_true. apply bool_decide_eq_false. rewrite (Hb r Hr) by congruence. done. }
  cbn [kept_chat Responses.user_messages Responses.assistant_messages Responses.tool_calls Responses.tool_outputs Responses.reasoning_items].
  rewrite !matching_delete by (intros ? ->%bool_decide_eq_true; by apply bool_decide_eq_false).
  f_equal; [|f_equal; [|f_equal; f_equal]].
  - apply list_fmap_ext. intros i m [Hm Hin]%list_elem_of_lookup_2%Db.elem_of_matching. rewrite bool_decide_eq_true in Hm. unfold Responses.raw_user.
    f_equal. apply Hmodel. rewrite <- Hm. by apply (co_users _ _ Hok).
  - apply list_fmap_ext. intros i a [Hm Hin]%list_elem_of_lookup_2%Db.elem_of_matching. rewrite bool_decide_eq_true in Hm. unfold Responses.raw_assistant.
    f_equal. apply Hmodel. rewrite <- Hm. by apply (co_assistants _ _ Hok).
  - f_equal. apply list_fmap_ext. intros i o [Hm Hin]%list_elem_of_lookup_2%Db.elem_of_matching. rewrite bool_decide_eq_true in Hm. unfold Responses.raw_tool_output.
    cbn. f_equal. unfold Db.delete_rows. rewrite list_filter_filter. apply filter_ext_elem. intros c Hcin.
    destruct (co_outputs _ _ Hok o Hin) as [_ Ho]. split; [tauto|]. intros Hfk. split; [done|].
    apply bool_decide_eq_false. rewrite (Ho c Hcin Hfk), Hm. done.
Qed.

Lemma drop_chat_items conv : (conv ∉ gone) -> items (drop_chat gone t) conv = items t conv.
Proof.
  intros Hc. unfold items. f_equal; [by apply drop_chat_messages|]. rewrite drop_chat_rows. unfold chat_rows, kept_chat.
  f_equal; apply matching_delete; intros x ->%bool_decide_eq_true; by apply bool_decide_eq_false.
Qed.

Lemma drop_chat_ok : chat_ok (filter (fun c => c ∉ gone) convs) (drop_chat gone t).
Proof.
  rewrite drop_chat_rows. 
  assert (forall conv resp, belongs convs t conv resp -> (conv ∉ gone) -> belongs (filter (fun c => c ∉ gone) convs)
    (kept_chat gone t) conv resp) as Hb.
  { intros conv resp [Hin Hr] Hg. split; [by apply list_elem_of_filter|]. cbn. intros r [_ Hrin]%Db.elem_of_deleted. by apply Hr. }
  constructor; cbn; intros x [Hx Hin]%Db.elem_of_deleted; rewrite bool_decide_eq_false in Hx.
  - apply list_elem_of_filter. split; [done|]. by apply (co_responses _ _ Hok).
  - apply Hb; [|done]. by apply (co_users _ _ Hok).
  - apply Hb; [|done]. by apply (co_assistants _ _ Hok).
  - destruct (co_reasoning _ _ Hok x Hin) as [? Ha]. split; [by apply Hb|]. intros a [_ ?]%Db.elem_of_deleted. by apply Ha.
  - apply Hb; [|done]. by apply (co_calls _ _ Hok).
  - destruct (co_outputs _ _ Hok x Hin) as [? Ha]. split; [by apply Hb|]. intros c [_ ?]%Db.elem_of_deleted. by apply Ha.
Qed.
End cascade.

(** ** What each write keeps *)
Ltac tables :=
  cbn [drop_projects drop_conversations set_projects set_instructions set_conversations users projects instructions
       conversations chat] in *.
Lemma wf_grows n m t : (n <= m)%Z -> wf n t -> wf m t.
Proof. intros Hnm []. constructor; try done; intros ? Hx; [apply wf_project_serial0 in Hx|apply wf_instruction_serial0 in Hx|apply wf_conversation_serial0 in Hx]; lia. Qed.
Lemma fresh_id {A} (id : A -> Z) (l : list A) n : (forall x, x ∈ l -> (id x < n)%Z) -> n ∉ id <$> l.
Proof. intros Hl (x & -> & Hx)%list_elem_of_fmap. apply Hl in Hx. lia. Qed.
Lemma uuid_not_taken {A} (uuid : A -> Uuid) (l : list A) id :
  existsb (fun x => bool_decide (uuid x = id)) l = false -> id ∉ uuid <$> l.
Proof.
  intros He (x & -> & Hx)%list_elem_of_fmap. apply not_true_iff_false in He. apply He, Db.existsb_elem. exists x. by rewrite bool_decide_eq_true.
Qed.
Lemma elem_of_snoc {A} (l : list A) x y : y ∈ l ++ [x] <-> y ∈ l \/ y = x.
Proof. rewrite elem_of_app, list_elem_of_singleton. done. Qed.

Section writes.
Context (u : Uuid).

(** *** Projects *)
Lemma wf_update_projects n t p f : wf n t ->
  (forall x, p_id (f x) = p_id x /\ p_uuid (f x) = p_uuid x /\ p_user_id (f x) = p_user_id x) ->
  wf n (set_projects (update_rows p f (projects t)) t).
Proof.
  intros Hw Hf. assert (forall x, x ∈ projects t -> exists y, y ∈ update_rows p f (projects t) /\ p_id y = p_id x /\ p_user_id y = p_user_id x) as Hin.
  { intros x Hx. exists (if p x then f x else x). split; [apply Db.elem_of_updated; eauto|]. destruct (p x); [|done]. destruct (Hf x) as (? & ? & ?). done. }
  destruct Hw. constructor; try done; tables.
  - rewrite fmap_update by (intros; apply Hf). done.
  - rewrite fmap_update by (intros; apply Hf). done.
  - intros x (y & Hy & ->)%Db.elem_of_updated. apply wf_project_serial0 in Hy. destruct (p y); [|done]. destruct (Hf y) as [-> _]. done.
  - intros v. specialize (wf_project_limit0 v).
    assert (length (own p_user_id v (update_rows p f (projects t))) = length (own p_user_id v (projects t))) as ->; [|done].
    clear -Hf. unfold own, Db.matching_rows, Db.update_rows, owned_by. induction (projects t) as [|x l IH]; [done|]. rewrite fmap_cons, !filter_cons.
    destruct (p x); [destruct (Hf x) as (_ & _ & ->)|]; case_decide; cbn; lia.
  - intros i q Hi Hq. destruct (wf_instruction_project0 i q Hi Hq) as (x & Hx & <- & <-). destruct (Hin x Hx) as (y & Hy & <- & <-). eauto.
  - intros c q Hi Hq. destruct (wf_conversation_project0 c q Hi Hq) as (x & Hx & <- & <-). destruct (Hin x Hx) as (y & Hy & <- & <-). eauto.
Qed.
Lemma wf_add_project n t x : wf n t -> p_id x = n -> (p_uuid x ∉ p_uuid <$> projects t) ->
  (Z.of_nat (length (own p_user_id (p_user_id x) (projects t))) < MAX_CONVERSATION_PROJECTS_PER_USER)%Z ->
  wf (n + 1) (set_projects (projects t ++ [x]) t).
Proof.
  intros Hw Hn Hu Hl. apply (wf_grows _ (n + 1)) in Hw as Hw'; [|lia]. destruct Hw', Hw. constructor; try done; tables.
  - apply NoDup_snoc; [done|]. rewrite Hn. by apply fresh_id.
  - by apply NoDup_snoc.
  - intros y [Hy| ->]%elem_of_snoc; [by apply wf_project_serial0|lia].
  - intros v. rewrite own_app, own_one. case_decide; subst; [rewrite length_app; cbn; lia|rewrite app_nil_r; done].
  - intros i q Hi Hq. destruct (wf_instruction_project0 i q Hi Hq) as (y & Hy & ?). exists y. by rewrite elem_of_snoc; auto.
  - intros i q Hi Hq. destruct (wf_conversation_project0 i q Hi Hq) as (y & Hy & ?). exists y. by rewrite elem_of_snoc; auto.
Qed.

(** *** Instructions: the written list satisfies what [write_instructions]
    checked *)
Lemma wf_set_instructions n t l : wf n t -> NoDup (i_id <$> l) -> NoDup (i_uuid <$> l) -> (forall i, i ∈ l -> (i_id i < n)%Z) ->
  NoDup (omap i_project_id l) ->
  (forall i, i ∈ l -> i_user_id i = u -> instruction_checked i = true) ->
  (length (matching_rows (default_of u) l) <= 1) ->
  (forall v, v <> u -> own i_user_id v l = own i_user_id v (instructions t)) ->
  (forall i p, i ∈ l -> i_project_id i = Some p -> exists q, q ∈ projects t /\ p_id q = p /\ p_user_id q = i_user_id i) ->
  wf n (set_instructions l t).
Proof.
  intros Hw H1 H2 H3 H4 Hc Hd Hv Hp. destruct Hw. constructor; try done; tables.
  - intros i Hi. destruct (decide (i_user_id i = u)) as [|Hne]; [auto|]. apply wf_instruction_checked0.
    assert (i ∈ own i_user_id (i_user_id i) l) as Ho by by apply elem_of_own. rewrite Hv in Ho by done. by apply elem_of_own in Ho as [? _].
  - intros v. destruct (decide (v = u)) as [->|Hne]; [|by rewrite Hv].
    assert (matching_rows i_is_default (own i_user_id u l) = matching_rows (default_of u) l) as ->; [|done].
    unfold own, Db.matching_rows, owned_by, default_of, instruction_of. rewrite list_filter_filter. apply list_filter_iff. intros i.
    rewrite andb_true_iff. tauto.
Qed.

(** *** Conversations *)
Lemma wf_update_conversations n t p f : wf n t ->
  (forall x, c_id (f x) = c_id x /\ c_uuid (f x) = c_uuid x /\ c_user_id (f x) = c_user_id x) ->
  (forall x q, x ∈ conversations t -> p x = true -> c_project_id (f x) = Some q ->
     exists y, y ∈ projects t /\ p_id y = q /\ p_user_id y = c_user_id x) ->
  wf n (set_conversations (update_rows p f (conversations t)) t).
Proof.
  intros Hw Hf Hq. assert (c_id <$> update_rows p f (conversations t) = c_id <$> conversations t) as Hids by (apply fmap_update; intros; apply Hf).
  destruct Hw. constructor; cbn; rewrite ?Hids; try done.
  - rewrite fmap_update by (intros; apply Hf). done.
  - intros x (y & Hy & ->)%Db.elem_of_updated. apply wf_conversation_serial0 in Hy. destruct (p y); [|done]. destruct (Hf y) as [-> _]. done.
  - intros x q (y & Hy & ->)%Db.elem_of_updated. destruct (p y) eqn:Hpy; [|eauto]. destruct (Hf y) as (_ & _ & ->). eauto.
  - destruct wf_chat0. constructor; done.
Qed.
Lemma wf_add_conversation n t x : wf n t -> c_id x = n -> (c_uuid x ∉ c_uuid <$> conversations t) ->
  (forall q, c_project_id x = Some q -> exists y, y ∈ projects t /\ p_id y = q /\ p_user_id y = c_user_id x) ->
  wf (n + 1) (set_conversations (conversations t ++ [x]) t).
Proof.
  intros Hw Hn Hu Hq. apply (wf_grows _ (n + 1)) in Hw as Hw'; [|lia]. destruct Hw', Hw. constructor; try done; tables.
  - apply NoDup_snoc; [done|]. rewrite Hn. by apply fresh_id.
  - by apply NoDup_snoc.
  - intros y [Hy| ->]%elem_of_snoc; [by apply wf_conversation_serial0|lia].
  - intros y q [Hy| ->]%elem_of_snoc; eauto.
  - assert (forall conv resp, belongs (c_id <$> conversations t) (chat t) conv resp ->
      belongs (c_id <$> (conversations t ++ [x])) (chat (set_conversations (conversations t ++ [x]) t)) conv resp) as Hb.
    { intros conv resp [? ?]. split; [|done]. rewrite fmap_app. set_solver. }
    destruct wf_chat0. constructor; cbn; try (intros y Hy); try by apply Hb; auto.
    + rewrite fmap_app. set_solver.
    + destruct (co_reasoning0 y Hy). auto.
    + destruct (co_outputs0 y Hy). auto.
Qed.
Lemma gone_ids t p c : NoDup (c_id <$> conversations t) -> c ∈ conversations t ->
  c_id c ∈ c_id <$> matching_rows p (conversations t) <-> p c = true.
Proof.
  intros Hn Hc. rewrite list_elem_of_fmap. split.
  - intros (c' & Hid & [Hp Hc']%Db.elem_of_matching). by rewrite (Db.NoDup_fmap_same c_id (conversations t) c c').
  - intros Hp. exists c. split; [done|]. by apply Db.elem_of_matching.
Qed.
Lemma deleted_ids t p : NoDup (c_id <$> conversations t) ->
  c_id <$> delete_rows p (conversations t) =
  filter (fun c => c ∉ c_id <$> matching_rows p (conversations t)) (c_id <$> conversations t).
Proof.
  intros Hn. assert (forall l, (forall c, c ∈ l -> c ∈ conversations t) -> c_id <$> delete_rows p l =
    filter (fun c => c ∉ c_id <$> matching_rows p (conversations t)) (c_id <$> l)) as Hl; [|by apply Hl].
  induction l as [|c l IH]; intros Hin; [done|]. unfold Db.delete_rows in *. rewrite fmap_cons, !filter_cons.
  pose proof (gone_ids t p c Hn (Hin c ltac:(set_solver))) as Hg. specialize (IH ltac:(set_solver)).
  destruct (p c); [rewrite decide_False by done; rewrite decide_False by tauto|rewrite decide_True by done; rewrite decide_True by (rewrite Hg; done); cbn; f_equal]; exact IH.
Qed.
Lemma wf_drop_conversations n t p : wf n t -> wf n (drop_conversations p t).
Proof.
  intros Hw. destruct Hw. unfold drop_conversations. constructor; try done;
    tables.
  - by apply Db.NoDup_fmap_deleted.
  - by apply Db.NoDup_fmap_deleted.
  - intros c [_ Hc]%Db.elem_of_deleted. auto.
  - intros c q [_ Hc]%Db.elem_of_deleted. auto.
  - rewrite deleted_ids by done. pose proof (drop_chat_ok _ (c_id <$> matching_rows p (conversations t)) _ wf_chat0) as [].
    constructor; done.
Qed.
Lemma wf_drop_projects n t p : wf n t -> (forall x, x ∈ projects t -> p x = true -> p_user_id x = u) -> wf n (drop_projects p t).
Proof.
  intros Hw Hp. unfold drop_projects. set (gone := p_id <$> matching_rows p (projects t)).
  pose proof (wf_drop_conversations n t (fun c => in_gone gone (c_project_id c)) Hw) as Hd.
  assert (forall q, q ∈ projects t -> p_id q ∉ gone -> q ∈ delete_rows p (projects t)) as Hkeep.
  { intros q Hq Hg. apply Db.elem_of_deleted. split; [|done]. apply not_true_is_false. intros Hpq. apply Hg.
    apply list_elem_of_fmap. exists q. split; [done|]. by apply Db.elem_of_matching. }
  destruct Hd. constructor; tables; try done.
  - by apply Db.NoDup_fmap_deleted.
  - by apply Db.NoDup_fmap_deleted.
  - intros x [_ Hx]%Db.elem_of_deleted. auto.
  - intros v. specialize (wf_project_limit0 v). rewrite (own_delete _ u) by done. case_decide; [|done].
    pose proof (sublist_length _ _ (delete_sublist p (own p_user_id v (projects t)))). unfold MAX_CONVERSATION_PROJECTS_PER_USER in *. lia.
  - by apply Db.NoDup_fmap_deleted.
  - by apply Db.NoDup_fmap_deleted.
  - intros x [_ Hx]%Db.elem_of_deleted. auto.
  - intros x [_ Hx]%Db.elem_of_deleted. auto.
  - intros v. specialize (wf_one_default0 v). eapply Nat.le_trans; [|exact wf_one_default0].
    apply sublist_length. unfold own, Db.matching_rows, Db.delete_rows. apply filter_sublist, filter_sublist, sublist_filter.
  - eapply sublist_NoDup; [exact wf_one_per_project0|]. apply omap_sublist, delete_sublist.
  - intros i q [Hg Hi]%Db.elem_of_deleted Hq. destruct (wf_instruction_project0 i q Hi Hq) as (x & Hx & Hid & Ho).
    exists x. split; [|done]. apply Hkeep; [done|]. intros Hin. apply not_true_iff_false in Hg. apply Hg, in_gone_elem. exists q. subst q. done.
  - intros c q [Hg Hi]%Db.elem_of_deleted Hq. destruct (wf_conversation_project0 c q) as (x & Hx & Hid & Ho); [by apply Db.elem_of_deleted|done|].
    exists x. split; [|done]. apply Hkeep; [done|]. intros Hin. apply not_true_iff_false in Hg. apply Hg, in_gone_elem. exists q. subst q. done.
Qed.
End writes.

(** ** What each write shows *)
Section shows.
Context (u : Uuid).
(** Everyone but [u] sees the same. *)
Definition beside (t t' : Tables) : Prop := forall v, v <> u -> view v t' = view v t.
#[export] Instance beside_preorder : PreOrder beside.
Proof. split; [done|]. intros t1 t2 t3 H1 H2 v Hv. by rewrite H2, H1. Qed.

Lemma view_set_projects v l t :
  view v (set_projects l t) = MkView (v_user (view v t)) (own p_user_id v l) (v_instructions (view v t)) (v_conversations (view v t)).
Proof. done. Qed.
Lemma view_set_instructions v l t :
  view v (set_instructions l t) = MkView (v_user (view v t)) (v_projects (view v t)) (own i_user_id v l) (v_conversations (view v t)).
Proof. done. Qed.
Lemma beside_projects l t : (forall v, v <> u -> own p_user_id v l = own p_user_id v (projects t)) -> beside t (set_projects l t).
Proof. intros Hl v Hv. rewrite view_set_projects, Hl by done. done. Qed.
Lemma beside_instructions l t : (forall v, v <> u -> own i_user_id v l = own i_user_id v (instructions t)) -> beside t (set_instructions l t).
Proof. intros Hl v Hv. rewrite view_set_instructions, Hl by done. done. Qed.
Lemma beside_conversations l t : (forall v, v <> u -> own c_user_id v l = own c_user_id v (conversations t)) ->
  beside t (set_conversations l t).
Proof. intros Hl v Hv. apply view_eq. tables. rewrite Hl by done. done. Qed.
Lemma same_projects l1 l2 t1 t2 : view u t1 = view u t2 -> own p_user_id u l1 = own p_user_id u l2 ->
  view u (set_projects l1 t1) = view u (set_projects l2 t2).
Proof. intros Hv Hl. by rewrite !view_set_projects, Hv, Hl. Qed.
Lemma same_instructions l1 l2 t1 t2 : view u t1 = view u t2 -> own i_user_id u l1 = own i_user_id u l2 ->
  view u (set_instructions l1 t1) = view u (set_instructions l2 t2).
Proof. intros Hv Hl. by rewrite !view_set_instructions, Hv, Hl. Qed.
(** New lists of conversations, whose items were shown before. *)
Lemma same_conversations l1 l2 t1 t2 : view u t1 = view u t2 -> own c_user_id u l1 = own c_user_id u l2 ->
  (forall c, c ∈ own c_user_id u l1 -> items (chat t1) (c_id c) = items (chat t2) (c_id c)) ->
  view u (set_conversations l1 t1) = view u (set_conversations l2 t2).
Proof. rewrite !view_eq. intros (? & ? & ? & _ & _) Hl Hc. tables. done. Qed.

(** The conversations that are kept keep their items. *)
Lemma kept_items n t p c : wf n t -> c ∈ delete_rows p (conversations t) ->
  items (drop_chat (c_id <$> matching_rows p (conversations t)) (chat t)) (c_id c) =
  items (chat t) (c_id c).
Proof.
  intros Hw [Hp Hc]%Db.elem_of_deleted. eapply drop_chat_items; [apply Hw|]. rewrite gone_ids by (done || apply Hw). congruence.
Qed.
Lemma view_drop_conversations n v p t : wf n t -> (forall c, c ∈ conversations t -> p c = true -> c_user_id c = u) ->
  view v (drop_conversations p t) =
  MkView (v_user (view v t)) (v_projects (view v t)) (v_instructions (view v t))
    (if decide (v = u) then delete_rows (fun c => p c.1) (v_conversations (view v t)) else v_conversations (view v t)).
Proof.
  intros Hw Hp. unfold view. cbn [v_user v_projects v_instructions v_conversations]. tables. f_equal.
  transitivity ((fun c => (c, items (chat t) (c_id c))) <$> own c_user_id v (delete_rows p (conversations t))).
  - apply list_fmap_ext. intros i c [Hc _]%list_elem_of_lookup_2%elem_of_own. f_equal. by eapply kept_items.
  - rewrite (own_delete _ u) by done. case_decide; [|done]. by rewrite delete_fmap.
Qed.
Lemma view_drop_projects n v p t : wf n t -> (forall x, x ∈ projects t -> p x = true -> p_user_id x = u) ->
  let gone := p_id <$> matching_rows p (projects t) in
  view v (drop_projects p t) =
  if decide (v = u) then
    MkView (v_user (view v t)) (delete_rows p (v_projects (view v t)))
      (delete_rows (fun i => in_gone gone (i_project_id i)) (v_instructions (view v t)))
      (delete_rows (fun c => in_gone gone (c_project_id c.1)) (v_conversations (view v t)))
  else view v t.
Proof.
  intros Hw Hp gone.
  assert (forall id owner, in_gone gone id = true -> (forall q, id = Some q -> exists x, x ∈ projects t /\ p_id x = q /\ p_user_id x = owner) ->
    owner = u) as Hgone.
  { intros id owner (q & -> & (x & -> & [Hx Hin]%Db.elem_of_matching)%list_elem_of_fmap)%in_gone_elem Hq.
    destruct (Hq _ eq_refl) as (y & Hy & Hid & <-). rewrite <- (Hp x Hin Hx). f_equal.
    by eapply (Db.NoDup_fmap_same p_id); [apply Hw|..]. }
  unfold drop_projects. fold gone. 
  pose proof (view_drop_conversations n v (fun c => in_gone gone (c_project_id c)) t Hw) as Hd.
  apply (f_equal v_conversations) in Hd as Hd'; [|intros c Hc Hg; eapply Hgone; [exact Hg|]; intros q Hq; by eapply (wf_conversation_project _ _ Hw)].
  unfold view at 1. change (items _) with (items (chat (drop_conversations (fun c => in_gone gone (c_project_id c)) t))).
  cbn [view v_conversations] in Hd'. tables. rewrite Hd'.
  rewrite (own_delete p_user_id u), (own_delete i_user_id u); [by case_decide|..].
  - intros i Hi Hg. eapply Hgone; [exact Hg|]. intros q Hq. by eapply (wf_instruction_project _ _ Hw).
  - done.
Qed.
End shows.

(** ** Two databases that one user cannot tell apart *)
Section alike.
Context (u new : Uuid).
(** Does another user have a row with the UUID [new]? *)
Definition foreign (t : Tables) : bool * bool * bool :=
  (existsb (fun x => bool_decide (p_uuid x = new) && negb (owned_by p_user_id u x)) (projects t),
   existsb (fun x => bool_decide (i_uuid x = new) && negb (owned_by i_user_id u x)) (instructions t),
   existsb (fun x => bool_decide (c_uuid x = new) && negb (owned_by c_user_id u x)) (conversations t)).
Record alike (n : Z) (t1 t2 : Tables) : Prop := {
  alike_wf1 : wf n t1; alike_wf2 : wf n t2; alike_view : view u t1 = view u t2; alike_foreign : foreign t1 = foreign t2 }.

Lemma foreign_rows {A} (owner uuid : A -> Uuid) (l l' : list A) :
  (forall v, v <> u -> own owner v l' = own owner v l) ->
  existsb (fun x => bool_decide (uuid x = new) && negb (owned_by owner u x)) l' =
  existsb (fun x => bool_decide (uuid x = new) && negb (owned_by owner u x)) l.
Proof.
  intros Hv. apply eq_true_iff_eq. rewrite !Db.existsb_elem.
  assert (forall x, negb (owned_by owner u x) = true -> x ∈ l' <-> x ∈ l) as Hin.
  { intros x Hx. apply negb_true_iff, bool_decide_eq_false in Hx. specialize (Hv (owner x) Hx).
    pose proof (elem_of_own owner (owner x) l x) as H1. pose proof (elem_of_own owner (owner x) l' x) as H2. rewrite Hv in H2. tauto. }
  setoid_rewrite andb_true_iff. naive_solver.
Qed.
Lemma beside_foreign t t' : beside u t t' -> foreign t' = foreign t.
Proof.
  intros Hb. unfold foreign. f_equal; [f_equal|]; apply foreign_rows; intros v Hv.
  - apply (f_equal v_projects (Hb v Hv)).
  - apply (f_equal v_instructions (Hb v Hv)).
  - pose proof (proj1 (view_eq v t' t) (Hb v Hv)). tauto.
Qed.
Lemma alike_step n t1 t2 t1' t2' : alike n t1 t2 -> wf (n + 1) t1' -> wf (n + 1) t2' -> beside u t1 t1' -> beside u t2 t2' ->
  view u t1' = view u t2' -> alike (n + 1) t1' t2'.
Proof. intros [] ? ? H1 H2 ?. split; try done. by rewrite (beside_foreign _ _ H1), (beside_foreign _ _ H2). Qed.
Lemma alike_grows n m t1 t2 : (n <= m)%Z -> alike n t1 t2 -> alike m t1 t2.
Proof. intros ? []. split; try done; by eapply wf_grows. Qed.
Lemma alike_refl n t1 t2 : alike n t1 t2 -> alike n t1 t1 /\ alike n t2 t2.
Proof. intros []. by split. Qed.

(** The rules of [Statements] for these relations. *)
Definition does {E A} := @Sql.acts Tables View (view u) alike (beside u) E A.
Implicit Types (Pre : View -> Prop).

Lemma does_select {A} Pre (f : Tables -> A) (g : View -> A) : (forall n t, wf n t -> f t = g (view u t)) ->
  does Pre (select f) (fun a v => a = g v /\ Pre v).
Proof.
  intros Hf. apply Sql.acts_select; [exact alike_grows|exact alike_view|apply _| |exact alike_refl].
  intros n t []. by eapply Hf.
Qed.
Lemma does_select_first {A} Pre (f : Tables -> option A) (g : View -> option A) : (forall n t, wf n t -> f t = g (view u t)) ->
  does Pre (select_first f) (fun a v => g v = Some a /\ Pre v).
Proof.
  intros Hf. apply Sql.acts_select_first; [exact alike_grows|exact alike_view|apply _| |exact alike_refl].
  intros n t []. by eapply Hf.
Qed.
Lemma does_transaction {E A} (from : DieselError -> E) Pre (body : ST State E A) Post :
  does Pre body Post -> does Pre (transaction from body) Post.
Proof. apply Sql.acts_transaction; [exact alike_grows|exact alike_view|apply _|exact alike_refl]. Qed.
Lemma does_bind {E A B} Pre (m : ST State E A) (f : A -> ST State E B) Mid Post :
  does Pre m Mid -> (forall a, does (Mid a) (f a) Post) -> does Pre (x ← m; f x) Post.
Proof. apply Sql.acts_bind. apply _. Qed.
Lemma does_ok {E A} Pre (a : A) (Post : A -> View -> Prop) : (forall v, Pre v -> Post a v) -> does Pre (@st_ok _ E A a) Post.
Proof. intros Hp. eapply Sql.acts_post; [apply Sql.acts_ok; apply _|]. naive_solver. Qed.
Lemma does_lift {E A} Pre (m : outcome E A) (Post : A -> View -> Prop) : (forall a v, m = Ok a -> Pre v -> Post a v) ->
  does Pre (@st_lift _ E A m) Post.
Proof. intros Hp. eapply Sql.acts_post; [apply Sql.acts_lift; apply _|]. naive_solver. Qed.
Lemma does_err {E A} Pre (e : E) (Post : A -> View -> Prop) : does Pre (@st_err _ E A e) Post.
Proof. apply Sql.acts_err. apply _. Qed.
Lemma does_map_err {E E' A} (g : E -> E') Pre (m : ST State E A) Post : does Pre m Post -> does Pre (st_map_err g m) Post.
Proof. apply Sql.acts_map_err. Qed.
Lemma does_method {A} Pre (m : ST State ResponsesError A) Post : does Pre m Post -> does Pre (method m) Post.
Proof.
  intros Hm. eapply does_bind; [apply Sql.acts_connection; [exact alike_grows|apply _]|]. intros []. by apply does_map_err.
Qed.
Lemma does_conseq {E A} Pre Pre' (m : ST State E A) (Post Post' : A -> View -> Prop) :
  does Pre m Post -> (forall v, Pre' v -> Pre v) -> (forall a v, Post a v -> Post' a v) -> does Pre' m Post'.
Proof. intros Hm Hpre Hpost. eapply Sql.acts_post; [|exact Hpost]. by eapply Sql.acts_pre. Qed.

(** A statement that only writes, from its effect on each side. *)
Lemma does_write {A} Pre (f : Z -> Tables -> outcome DieselError (A * Tables)) Post :
  (forall n t1 t2, alike n t1 t2 -> Pre (view u t1) ->
    (exists e, f n t1 = Err e /\ f n t2 = Err e) \/
    (exists a t1' t2', f n t1 = Ok (a, t1') /\ f n t2 = Ok (a, t2') /\ wf (n + 1) t1' /\ wf (n + 1) t2' /\
       beside u t1 t1' /\ beside u t2 t2' /\ view u t1' = view u t2' /\ Post a (view u t1'))) ->
  does Pre (statement f) Post.
Proof.
  intros Hf. apply Sql.acts_statement; [exact alike_grows|apply _|].
  intros n t1 t2 Ha Hp. destruct (Hf n t1 t2 Ha Hp) as [?|(a & t1' & t2' & ? & ? & ? & ? & ? & ? & ? & ?)]; [by left|right].
  exists a, t1', t2'. split_and!; try done. by eapply alike_step.
Qed.

(** *** Reads *)
Ltac owned :=
  intros; cbv beta in *;
  unfold listed, conversation_among, default_of, instruction_default, instruction_by_uuid, instruction_by_id in *;
  unfold project_by_id, project_by_uuid, project_of, instruction_global, instruction_of_project, instruction_of,
    conversation_by_id, conversation_by_uuid, conversation_of in *;
  rewrite ?andb_true_iff, ?bool_decide_eq_true in *; destruct_and?; done.

Lemma v_conversations_own t : (v_conversations (view u t)).*1 = own c_user_id u (conversations t).
Proof. cbn. rewrite <- list_fmap_compose. unfold compose. cbn. apply list_fmap_id. Qed.

Lemma reads_project {E} (g : DieselError -> E) Pre (p : ConversationProject -> bool) : (forall x, p x = true -> p_user_id x = u) ->
  does Pre (st_map_err g (select_first (fun t => first p (projects t)))) (fun a v => a ∈ v_projects v /\ p a = true /\ Pre v).
Proof.
  intros Hp. eapply does_conseq with (Post := fun a v => first p (v_projects v) = Some a /\ Pre v); [|done|].
  - apply does_map_err, does_select_first. intros n t Hw. by apply first_own.
  - intros a v [[? ?]%Db.first_Some ?]. done.
Qed.
Lemma reads_conversation {E} (g : DieselError -> E) Pre (p : Conversation -> bool) : (forall x, p x = true -> c_user_id x = u) ->
  does Pre (st_map_err g (select_first (fun t => first p (conversations t))))
    (fun a v => a ∈ (v_conversations v).*1 /\ p a = true /\ Pre v).
Proof.
  intros Hp. eapply does_conseq with (Post := fun a v => first p (v_conversations v).*1 = Some a /\ Pre v); [|done|].
  - apply does_map_err, does_select_first. intros n t Hw. rewrite v_conversations_own. by apply first_own.
  - intros a v [[? ?]%Db.first_Some ?]. done.
Qed.
Lemma reads_instruction {E} (g : DieselError -> E) Pre (p : UserInstruction -> bool) : (forall x, p x = true -> i_user_id x = u) ->
  does Pre (st_map_err g (select_first (fun t => first p (instructions t))))
    (fun a v => a ∈ v_instructions v /\ p a = true /\ Pre v).
Proof.
  intros Hp. eapply does_conseq with (Post := fun a v => first p (v_instructions v) = Some a /\ Pre v); [|done|].
  - apply does_map_err, does_select_first. intros n t Hw. by apply first_own.
  - intros a v [[? ?]%Db.first_Some ?]. done.
Qed.
(** A query of rows that determines its answer from what the user sees. *)
Lemma reads_view {E A} (h : DieselError -> E) Pre (f : Tables -> A) (g : View -> A) : (forall n t, wf n t -> f t = g (view u t)) ->
  does Pre (st_map_err h (select f)) (fun a v => a = g v /\ Pre v).
Proof. intros. by apply does_map_err, does_select. Qed.

Lemma reads_projects {E A} (h : DieselError -> E) Pre (k : list ConversationProject -> A) p : (forall x, p x = true -> p_user_id x = u) ->
  does Pre (st_map_err h (select (fun t => k (matching_rows p (projects t))))) (fun a v => a = k (matching_rows p (v_projects v)) /\ Pre v).
Proof. intros Hp. apply (reads_view _ _ _ (fun v => k (matching_rows p (v_projects v)))). intros n t Hw. f_equal. by apply matching_own. Qed.
Lemma reads_conversations {E A} (h : DieselError -> E) Pre (k : list Conversation -> A) p : (forall x, p x = true -> c_user_id x = u) ->
  does Pre (st_map_err h (select (fun t => k (matching_rows p (conversations t)))))
    (fun a v => a = k (matching_rows p (v_conversations v).*1) /\ Pre v).
Proof.
  intros Hp. apply (reads_view _ _ _ (fun v => k (matching_rows p (v_conversations v).*1))). intros n t Hw.
  rewrite v_conversations_own. f_equal. by apply matching_own.
Qed.
Lemma reads_instructions {E A} (h : DieselError -> E) Pre (k : list UserInstruction -> A) p : (forall x, p x = true -> i_user_id x = u) ->
  does Pre (st_map_err h (select (fun t => k (matching_rows p (instructions t)))))
    (fun a v => a = k (matching_rows p (v_instructions v)) /\ Pre v).
Proof. intros Hp. apply (reads_view _ _ _ (fun v => k (matching_rows p (v_instructions v)))). intros n t Hw. f_equal. by apply matching_own. Qed.
Lemma reads_first {E A B} (h : DieselError -> E) Pre (rows : Tables -> list A) (vrows : View -> list A) (owner : A -> Uuid) p (k : A -> B) :
  (forall t, vrows (view u t) = own owner u (rows t)) -> (forall x, p x = true -> owner x = u) ->
  does Pre (st_map_err h (select (fun t => k <$> first p (rows t)))) (fun a v => a = k <$> first p (vrows v) /\ Pre v).
Proof.
  intros Hv Hp. apply (reads_view _ _ _ (fun v => k <$> first p (vrows v))). intros n t Hw. rewrite Hv. f_equal. by apply first_own.
Qed.

(** *** Writes *)
Lemma writes_drop_projects Pre p : (forall x, p x = true -> p_user_id x = u) ->
  does Pre (statement (fun _ t => Ok (length (matching_rows p (projects t)), drop_projects p t))) (fun _ _ => True).
Proof.
  intros Hp. apply does_write. intros n t1 t2 [] Hpre. right.
  exists (length (matching_rows p (projects t1))), (drop_projects p t1), (drop_projects p t2). split_and!; try done.
  - assert (matching_rows p (projects t1) = matching_rows p (projects t2)) as Hm; [|by rewrite Hm].
    apply (matching_same p_user_id u); [done|]. exact (f_equal v_projects alike_view0).
  - apply (wf_grows n); [lia|]. by apply (wf_drop_projects u); [|intros; apply Hp].
  - apply (wf_grows n); [lia|]. by apply (wf_drop_projects u); [|intros; apply Hp].
  - intros v Hv. rewrite (view_drop_projects u n) by (done || intros; by apply Hp). by rewrite decide_False by done.
  - intros v Hv. rewrite (view_drop_projects u n) by (done || intros; by apply Hp). by rewrite decide_False by done.
  - rewrite !(view_drop_projects u n) by (done || intros; by apply Hp). rewrite !decide_True by done.
    rewrite (matching_same p_user_id u p (projects t1) (projects t2)); [by rewrite alike_view0|done|].
    exact (f_equal v_projects alike_view0).
Qed.
Lemma writes_drop_conversations {A} Pre p (k : list Conversation -> A) : (forall x, p x = true -> c_user_id x = u) ->
  does Pre (statement (fun _ t => Ok (k (matching_rows p (conversations t)), drop_conversations p t))) (fun _ _ => True).
Proof.
  intros Hp. apply does_write. intros n t1 t2 [] Hpre. right.
  exists (k (matching_rows p (conversations t1))), (drop_conversations p t1), (drop_conversations p t2). split_and!; try done.
  - assert (matching_rows p (conversations t1) = matching_rows p (conversations t2)) as Hm; [|by rewrite Hm].
    apply (matching_same c_user_id u); [done|]. by apply view_eq in alike_view0 as (_ & _ & _ & ? & _).
  - apply (wf_grows n); [lia|]. by apply wf_drop_conversations.
  - apply (wf_grows n); [lia|]. by apply wf_drop_conversations.
  - intros v Hv. rewrite (view_drop_conversations u n) by (done || intros; by apply Hp). by rewrite decide_False by done.
  - intros v Hv. rewrite (view_drop_conversations u n) by (done || intros; by apply Hp). by rewrite decide_False by done.
  - rewrite !(view_drop_conversations u n) by (done || intros; by apply Hp). by rewrite alike_view0.
Qed.

Lemma taken_alike {A} (owner uuid : A -> Uuid) (l1 l2 : list A) : own owner u l1 = own owner u l2 ->
  existsb (fun x => bool_decide (uuid x = new) && negb (owned_by owner u x)) l1 =
  existsb (fun x => bool_decide (uuid x = new) && negb (owned_by owner u x)) l2 ->
  existsb (fun x => bool_decide (uuid x = new)) l1 = existsb (fun x => bool_decide (uuid x = new)) l2.
Proof. intros Ho Hf. rewrite (existsb_own owner u _ l1), (existsb_own owner u _ l2). by rewrite Ho, Hf. Qed.

Lemma writes_project_insert now n : np_user_id n = u -> np_uuid n = new ->
  does (fun v => Z.of_nat (length (v_projects v)) < MAX_CONVERSATION_PROJECTS_PER_USER)%Z (project_insert now n) (fun _ _ => True).
Proof.
  intros Hu Hn. unfold project_insert, diesel. apply does_map_err, does_write. intros id t1 t2 [Hw1 Hw2 Hv Hf] Hlen. cbv beta zeta.
  rewrite Hu, Hn. assert (view u t2 = view u t1) as Hv' by done.
  rewrite (taken_alike p_user_id p_uuid (projects t1) (projects t2)); [|apply (f_equal v_projects Hv)|by injection Hf].
  change (exists_user u t1) with (v_user (view u t1)). change (exists_user u t2) with (v_user (view u t2)). rewrite Hv.
  destruct (existsb _ (projects t2)) eqn:Htaken; [left; eauto|]. destruct (v_user (view u t2)); [right|left; eauto].
  do 3 eexists. split_and!; [done|done|..]; try done.
  - apply wf_add_project; [done|done| |].
    + apply uuid_not_taken. rewrite <- Htaken. cbn. apply (taken_alike p_user_id); [apply (f_equal v_projects Hv)|by injection Hf].
    + cbn. by apply Hlen.
  - apply wf_add_project; [done|done| |].
    + by apply uuid_not_taken.
    + cbn. rewrite Hv in Hlen. by apply Hlen.
  - apply beside_projects. intros v Hne. rewrite own_app, own_one. cbn. rewrite decide_False by congruence. by rewrite app_nil_r.
  - apply beside_projects. intros v Hne. rewrite own_app, own_one. cbn. rewrite decide_False by congruence. by rewrite app_nil_r.
  - apply same_projects; [done|]. rewrite !own_app. f_equal. apply (f_equal v_projects Hv).
Qed.
Lemma writes_project_update Pre now id f : (forall x, p_id (f x) = p_id x /\ p_uuid (f x) = p_uuid x /\ p_user_id (f x) = p_user_id x) ->
  (forall v ps, Pre v -> p_id <$> ps = p_id <$> v_projects v -> Pre (MkView (v_user v) ps (v_instructions v) (v_conversations v))) ->
  does Pre (project_update now id u f) (fun _ v => Pre v).
Proof.
  intros Hf Hpre. unfold project_update. apply does_write. intros n t1 t2 [] Hp. right.
  match goal with |- context [update_rows _ ?g _] => set (h := g) end.
  assert (forall x, p_id (h x) = p_id x /\ p_uuid (h x) = p_uuid x /\ p_user_id (h x) = p_user_id x) as Hh by exact Hf.
  assert (forall v l, own p_user_id v (update_rows (project_by_id id u) h l) =
    if decide (v = u) then update_rows (project_by_id id u) h (own p_user_id v l) else own p_user_id v l) as Ho.
  { intros v l. apply own_update; [owned|]. intros x. by destruct (Hh x) as (_ & _ & ?). }
  do 3 eexists. split_and!; [done|done|..].
  - apply (wf_grows n); [lia|]. by apply wf_update_projects.
  - apply (wf_grows n); [lia|]. by apply wf_update_projects.
  - apply beside_projects. intros v Hv. by rewrite Ho, decide_False by done.
  - apply beside_projects. intros v Hv. by rewrite Ho, decide_False by done.
  - apply same_projects; [done|]. rewrite !Ho. by rewrite (f_equal v_projects alike_view0 : own _ _ _ = own _ _ _).
  - rewrite view_set_projects. apply Hpre; [done|]. rewrite Ho. case_decide; [|done]. cbn. apply fmap_update. intros x. by destruct (Hh x).
Qed.

(** *** Writes of instructions *)
Record list_ok (n : Z) (t : Tables) (l : list UserInstruction) : Prop := {
  lo_ids : NoDup (i_id <$> l); lo_uuids : NoDup (i_uuid <$> l); lo_serial i : i ∈ l -> (i_id i < n)%Z;
  lo_projects : NoDup (omap i_project_id l);
  lo_others v : v <> u -> own i_user_id v l = own i_user_id v (instructions t);
  lo_owner i p : i ∈ l -> i_project_id i = Some p -> exists q, q ∈ projects t /\ p_id q = p /\ p_user_id q = i_user_id i }.

Lemma list_ok_update n t p f : wf n t -> (forall x, x ∈ instructions t -> p x = true -> i_user_id x = u) ->
  (forall x, i_id (f x) = i_id x /\ i_uuid (f x) = i_uuid x /\ i_user_id (f x) = i_user_id x /\ i_project_id (f x) = i_project_id x) ->
  list_ok n t (update_rows p f (instructions t)).
Proof.
  intros Hw Hp Hf. destruct Hw. constructor.
  - rewrite fmap_update by (intros; apply Hf). done.
  - rewrite fmap_update by (intros; apply Hf). done.
  - intros i (j & Hj & ->)%Db.elem_of_updated. apply wf_instruction_serial0 in Hj. destruct (p j); [|done]. by destruct (Hf j) as [-> _].
  - assert (omap i_project_id (update_rows p f (instructions t)) = omap i_project_id (instructions t)) as ->; [|done].
    clear -Hf. unfold Db.update_rows. induction (instructions t) as [|x l IH]; [done|]. cbn. destruct (p x); [destruct (Hf x) as (_ & _ & _ & ->)|]; by rewrite IH.
  - intros v Hv. rewrite (own_update i_user_id u) by (done || intros; apply Hf). by rewrite decide_False by done.
  - intros i q (j & Hj & ->)%Db.elem_of_updated Hq. destruct (p j); [|eauto]. destruct (Hf j) as (_ & _ & -> & Hproj). rewrite Hproj in Hq. eauto.
Qed.
Lemma list_ok_delete n t p : wf n t -> (forall x, x ∈ instructions t -> p x = true -> i_user_id x = u) ->
  list_ok n t (delete_rows p (instructions t)).
Proof.
  intros Hw Hp. destruct Hw. constructor.
  - by apply Db.NoDup_fmap_deleted.
  - by apply Db.NoDup_fmap_deleted.
  - intros i [_ Hi]%Db.elem_of_deleted. auto.
  - eapply sublist_NoDup; [exact wf_one_per_project0|]. apply omap_sublist, delete_sublist.
  - intros v Hv. rewrite (own_delete i_user_id u) by done. by rewrite decide_False by done.
  - intros i q [_ Hi]%Db.elem_of_deleted. auto.
Qed.
Lemma list_ok_insert n t x : wf n t -> i_id x = n -> i_user_id x = u -> (i_uuid x ∉ i_uuid <$> instructions t) ->
  (forall p, i_project_id x = Some p -> (p ∉ omap i_project_id (instructions t)) /\
     exists q, q ∈ projects t /\ p_id q = p /\ p_user_id q = u) ->
  list_ok (n + 1) t (instructions t ++ [x]).
Proof.
  intros Hw Hn Hu Hx Hp. destruct Hw. constructor.
  - apply NoDup_snoc; [done|]. rewrite Hn. by apply fresh_id.
  - by apply NoDup_snoc.
  - intros i [Hi| ->]%elem_of_snoc; [apply wf_instruction_serial0 in Hi|]; lia.
  - rewrite omap_app. cbn. destruct (i_project_id x) as [p|]; [|by rewrite app_nil_r]. destruct (Hp p eq_refl) as [Hni _].
    apply NoDup_app. split_and!; [done|set_solver|apply NoDup_singleton].
  - intros v Hv. rewrite own_app, own_one, decide_False by congruence. by rewrite app_nil_r.
  - intros i q [Hi| ->]%elem_of_snoc Hq; [eauto|]. rewrite Hu. by apply Hp.
Qed.

Lemma write_ok n t {A} (a : A) l r : wf n t -> list_ok n t l -> write_instructions u a l t = Ok r -> wf n (set_instructions l t).
Proof.
  intros Hw [] Hr. unfold write_instructions in Hr.
  destruct (forallb _ _) eqn:Hc; [cbn in Hr|done]. case_decide as Hd; [done|]. apply (wf_set_instructions u); try done; [|lia].
  intros i Hi Ho. rewrite forallb_forall in Hc. apply Hc, list_elem_of_In, Db.elem_of_matching. split; [|done].
  unfold instruction_of. by apply bool_decide_eq_true.
Qed.
(** What a write of the instructions of [u] depends on. *)
Lemma write_same {A} (a : A) l1 l2 t1 t2 : own i_user_id u l1 = own i_user_id u l2 ->
  (exists e, write_instructions u a l1 t1 = Err e /\ write_instructions u a l2 t2 = Err e) \/
  (write_instructions u a l1 t1 = Ok (a, set_instructions l1 t1) /\ write_instructions u a l2 t2 = Ok (a, set_instructions l2 t2)).
Proof.
  intros Ho. unfold write_instructions.
  rewrite (matching_same i_user_id u (instruction_of u) l1 l2), (matching_same i_user_id u (default_of u) l1 l2); [|owned|done|owned|done].
  destruct (negb _); [left; eauto|]. case_decide; [left; eauto|by right].
Qed.
Lemma does_write_instructions {A} Pre (f : Z -> Tables -> outcome DieselError (A * Tables)) Post :
  (forall n t1 t2, alike n t1 t2 -> Pre (view u t1) ->
    (exists e, f n t1 = Err e /\ f n t2 = Err e) \/
    (exists a l1 l2, f n t1 = write_instructions u a l1 t1 /\ f n t2 = write_instructions u a l2 t2 /\
       list_ok (n + 1) t1 l1 /\ list_ok (n + 1) t2 l2 /\ own i_user_id u l1 = own i_user_id u l2 /\
       Post a (view u (set_instructions l1 t1)))) ->
  does Pre (statement f) Post.
Proof.
  intros Hf. apply does_write. intros n t1 t2 Ha Hp. destruct (Hf n t1 t2 Ha Hp) as [?|(a & l1 & l2 & -> & -> & H1 & H2 & Ho & Hpost)]; [by left|].
  destruct Ha. destruct (write_same a l1 l2 t1 t2 Ho) as [?|[W1 W2]]; [by left|right].
  exists a, (set_instructions l1 t1), (set_instructions l2 t2). split_and!; [done|done|..|done].
  - eapply write_ok; [|exact H1|exact W1]. by apply (wf_grows n); [lia|].
  - eapply write_ok; [|exact H2|exact W2]. by apply (wf_grows n); [lia|].
  - apply beside_instructions, H1.
  - apply beside_instructions, H2.
  - by apply same_instructions.
Qed.
Lemma list_ok_grows n t l : list_ok n t l -> list_ok (n + 1) t l.
Proof. intros []. constructor; try done. intros i Hi. apply lo_serial0 in Hi. lia. Qed.

(** The columns that writes of instructions keep. *)
Definition keeps_instruction (f : UserInstruction -> UserInstruction) : Prop :=
  forall x, i_id (f x) = i_id x /\ i_uuid (f x) = i_uuid x /\ i_user_id (f x) = i_user_id x /\ i_project_id (f x) = i_project_id x.
(** What is known after instructions were written. *)
Definition of_projects (Pre Post : View -> Prop) : Prop := forall v js, Pre v -> Post (MkView (v_user v) (v_projects v) js (v_conversations v)).

Lemma own_instructions_update p f t1 t2 : view u t1 = view u t2 -> keeps_instruction f ->
  (forall x, x ∈ instructions t1 -> p x = true -> i_user_id x = u) -> (forall x, x ∈ instructions t2 -> p x = true -> i_user_id x = u) ->
  own i_user_id u (update_rows p f (instructions t1)) = own i_user_id u (update_rows p f (instructions t2)).
Proof.
  intros Hv Hf H1 H2. rewrite !(own_update i_user_id u) by (done || intros; apply Hf). rewrite !decide_True by done.
  f_equal. exact (f_equal v_instructions Hv).
Qed.
Lemma writes_instruction_update Pre Post p f : of_projects Pre Post -> keeps_instruction f ->
  (forall n t, wf n t -> Pre (view u t) -> forall x, x ∈ instructions t -> p x = true -> i_user_id x = u) ->
  does Pre (instruction_update u p f) (fun _ => Post).
Proof.
  intros Hpre Hf Hp. apply does_write_instructions. intros n t1 t2 Ha Hv. right.
  pose proof Ha as [Hw1 Hw2 Hview _]. pose proof (Hp _ _ Hw1 Hv) as Hp1. assert (Hv2 := Hv). rewrite Hview in Hv2. pose proof (Hp _ _ Hw2 Hv2) as Hp2.
  exists tt, (update_rows p f (instructions t1)), (update_rows p f (instructions t2)). split_and!; [done|done|..].
  - by apply list_ok_grows, list_ok_update.
  - by apply list_ok_grows, list_ok_update.
  - by apply own_instructions_update.
  - rewrite view_set_instructions. by apply Hpre.
Qed.
Lemma writes_instruction_update_one Pre p f : keeps_instruction f -> (forall x, p x = true -> i_user_id x = u) ->
  does Pre (instruction_update_one u p f) (fun _ _ => True).
Proof.
  intros Hf Hp. apply does_write_instructions. intros n t1 t2 Ha Hv. pose proof Ha as [Hw1 Hw2 Hview _].
  rewrite (first_own i_user_id u p (instructions t1)), (first_own i_user_id u p (instructions t2)) by done.
  rewrite <- (f_equal v_instructions Hview : own _ _ _ = own _ _ _).
  destruct (first p (own i_user_id u (instructions t1))) as [i|]; cbn; [right|left; eauto].
  exists (f i), (update_rows p f (instructions t1)), (update_rows p f (instructions t2)). split_and!; [done|done|..|done].
  - apply list_ok_grows, list_ok_update; auto.
  - apply list_ok_grows, list_ok_update; auto.
  - apply own_instructions_update; auto.
Qed.

(** The project [p] is one that [u] sees. *)
Definition has_project (p : Z) (v : View) : Prop := exists q, q ∈ v_projects v /\ p_id q = p.
Lemma has_project_row n t p : wf n t -> has_project p (view u t) -> exists q, q ∈ projects t /\ p_id q = p /\ p_user_id q = u.
Proof. intros Hw (q & [Hq Ho]%elem_of_own & Hid). eauto. Qed.
Lemma project_owner n t p i : wf n t -> has_project p (view u t) -> i ∈ instructions t -> i_project_id i = Some p -> i_user_id i = u.
Proof.
  intros Hw (q & Hq & Hid & <-)%(has_project_row n); [|done]. intros Hi Hp.
  destruct (wf_instruction_project _ _ Hw i p Hi Hp) as (q' & Hq' & Hid' & <-). f_equal.
  eapply (Db.NoDup_fmap_same p_id); [apply Hw|done|done|congruence].
Qed.
Lemma conversation_owner n t p c : wf n t -> has_project p (view u t) -> c ∈ conversations t -> c_project_id c = Some p -> c_user_id c = u.
Proof.
  intros Hw (q & Hq & Hid & <-)%(has_project_row n); [|done]. intros Hi Hp.
  destruct (wf_conversation_project _ _ Hw c p Hi Hp) as (q' & Hq' & Hid' & <-). f_equal.
  eapply (Db.NoDup_fmap_same p_id); [apply Hw|done|done|congruence].
Qed.
Lemma exists_project_has n t p : wf n t -> (forall id, p = Some id -> has_project id (view u t)) -> exists_project t p = true.
Proof.
  intros Hw Hp. destruct p as [id|]; [|done]. destruct (has_project_row n t id Hw (Hp id eq_refl)) as (q & Hq & Hid & _).
  cbn. apply Db.existsb_elem. exists q. by rewrite bool_decide_eq_true.
Qed.

Lemma project_taken n t p : wf n t -> (forall id, p = Some id -> has_project id (view u t)) ->
  existsb (fun i => bool_decide (is_Some (i_project_id i) /\ i_project_id i = p)) (instructions t) =
  existsb (fun i => bool_decide (is_Some (i_project_id i) /\ i_project_id i = p)) (own i_user_id u (instructions t)).
Proof.
  intros Hw Hp. apply eq_true_iff_eq. rewrite !Db.existsb_elem. split; intros (i & Hi & Hb); exists i; (split; [|done]).
  - apply elem_of_own. split; [done|]. apply bool_decide_eq_true in Hb as [[q Hq] Hpp]. eapply (project_owner n t q); try done. apply Hp. congruence.
  - by apply elem_of_own in Hi as [? _].
Qed.
Lemma writes_instruction_insert (Pre Post : View -> Prop) now n : ni_user_id n = u -> ni_uuid n = new -> of_projects Pre Post ->
  (forall v, Pre v -> forall id, ni_project_id n = Some id -> has_project id v) ->
  does Pre (instruction_insert now n) (fun _ v => Post v).
Proof.
  intros Hu Hn Hpre Hproj. unfold instruction_insert. apply does_write_instructions. intros id t1 t2 Ha Hv. cbv beta zeta.
  pose proof Ha as [Hw1 Hw2 Hview Hf]. pose proof (Hproj _ Hv) as Hp1. assert (Hp2 := Hp1). rewrite Hview in Hp2.
  rewrite Hu, Hn. pose proof (f_equal v_instructions Hview : own _ _ _ = own _ _ _) as Ho.
  assert (existsb (fun x => bool_decide (i_uuid x = new)) (instructions t1) = existsb (fun x => bool_decide (i_uuid x = new)) (instructions t2)) as Ht.
  { apply (taken_alike i_user_id); [done|by injection Hf]. }
  pose proof (project_taken id t1 _ Hw1 Hp1) as Hk1. pose proof (project_taken id t2 _ Hw2 Hp2) as Hk2. rewrite <- Ho in Hk2.
  rewrite Ht, Hk1, Hk2. destruct (_ || _) eqn:Htaken; [left; eauto|]. apply orb_false_iff in Htaken as [Huuid Hnone].
  rewrite (exists_project_has id t1), (exists_project_has id t2) by done. rewrite !andb_true_r.
  change (exists_user u t1) with (v_user (view u t1)). change (exists_user u t2) with (v_user (view u t2)). rewrite Hview.
  destruct (v_user (view u t2)); [right|left; eauto]. cbn [negb].
  set (row := MkInstruction _ _ _ _ _ _ _ _ _ _). rewrite Hnone in Hk1, Hk2.
  assert (forall t, existsb (fun i => bool_decide (is_Some (i_project_id i) /\ i_project_id i = ni_project_id n)) (instructions t) = false ->
    (forall p, ni_project_id n = Some p -> p ∉ omap i_project_id (instructions t))) as Hnot.
  { intros t He p Hp (i & Hi & Hip)%list_elem_of_omap. apply not_true_iff_false in He. apply He, Db.existsb_elem. exists i.
    rewrite bool_decide_eq_true. rewrite Hip, Hp. eauto. }
  exists row, (instructions t1 ++ [row]), (instructions t2 ++ [row]). split_and!; [done|done|..].
  - apply list_ok_insert; [done|done|done|change (i_uuid row) with new; apply uuid_not_taken; by rewrite Ht|]. intros p Hp. split; [by apply Hnot|].
    eapply has_project_row; [done|by apply Hp1].
  - apply list_ok_insert; [done|done|done|change (i_uuid row) with new; by apply uuid_not_taken|]. intros p Hp. split; [by apply Hnot|].
    eapply has_project_row; [done|by apply Hp2].
  - rewrite !own_app. by f_equal.
  - rewrite view_set_instructions. by apply Hpre.
Qed.
Lemma writes_instruction_delete {A} Pre Post p (k : list UserInstruction -> A) : of_projects Pre Post -> (forall x, p x = true -> i_user_id x = u) ->
  does Pre (statement (fun _ t => Ok (k (matching_rows p (instructions t)), set_instructions (delete_rows p (instructions t)) t)))
    (fun _ v => Post v).
Proof.
  intros Hpre Hp. apply does_write. intros n t1 t2 [Hw1 Hw2 Hview _] Hv. right.
  pose proof (f_equal v_instructions Hview : own _ _ _ = own _ _ _) as Ho.
  exists (k (matching_rows p (instructions t1))), (set_instructions (delete_rows p (instructions t1)) t1),
    (set_instructions (delete_rows p (instructions t2)) t2).
  assert (forall t, wf n t -> wf (n + 1) (set_instructions (delete_rows p (instructions t)) t)) as Hd.
  { intros t Hw. destruct (list_ok_delete n t p Hw) as []; [auto|]. apply (wf_grows n); [lia|]. apply (wf_set_instructions u); try done.
    - intros i [_ Hi]%Db.elem_of_deleted _. by apply (wf_instruction_checked _ _ Hw).
    - eapply Nat.le_trans; [|apply (wf_one_default _ _ Hw u)]. apply sublist_length.
      unfold own, Db.matching_rows, Db.delete_rows, owned_by, default_of, instruction_of. rewrite !list_filter_filter.
      match goal with |- filter ?P ?l `sublist_of` filter ?Q ?l' => assert (filter P l = filter (fun i => p i = false) (filter Q l')) as -> end.
      { rewrite list_filter_filter. apply list_filter_iff. intros i. rewrite andb_true_iff. tauto. }
      apply sublist_filter. }
  split_and!; try done.
  - assert (matching_rows p (instructions t1) = matching_rows p (instructions t2)) as Hm; [|by rewrite Hm].
    by apply (matching_same i_user_id u).
  - by apply Hd.
  - by apply Hd.
  - eapply beside_instructions, lo_others, (list_ok_delete n); auto.
  - eapply beside_instructions, lo_others, (list_ok_delete n); auto.
  - apply same_instructions; [done|]. rewrite !(own_delete i_user_id u) by auto. by rewrite Ho.
  - rewrite view_set_instructions. by apply Hpre.
Qed.

(** *** Writes of conversations *)
Definition v_own_conversations (v : View) : list Conversation := (v_conversations v).*1.
Lemma own_conversations_same t1 t2 : view u t1 = view u t2 ->
  own c_user_id u (conversations t1) = own c_user_id u (conversations t2) /\
  (forall c, c ∈ own c_user_id u (conversations t1) ->
     items (chat t1) (c_id c) = items (chat t2) (c_id c)).
Proof. rewrite view_eq. tauto. Qed.

Lemma no_items n t conv : wf n t -> (conv ∉ c_id <$> conversations t) ->
  items (chat t) conv = ([], Responses.MkTables [] [] [] [] [] [] []).
Proof.
  intros Hw Hc. destruct (wf_chat _ _ Hw). unfold items, conversation_messages, chat_rows.
  rewrite !Db.matching_none; [done|..]; intros x Hx; apply bool_decide_eq_false; intros <-; apply Hc;
    try by apply co_responses0.
  - by destruct (co_reasoning0 x Hx) as [[? _] _].
  - by destruct (co_outputs0 x Hx) as [[? _] _].
  - by destruct (co_calls0 x Hx).
  - by destruct (co_assistants0 x Hx).
  - by destruct (co_users0 x Hx).
Qed.
Lemma writes_conversation_insert Pre now n : nc_user_id n = u -> nc_uuid n = new ->
  (forall v, Pre v -> forall id, nc_project_id n = Some id -> has_project id v) ->
  does Pre (insert now n) (fun _ _ => True).
Proof.
  intros Hu Hn Hproj. unfold insert, diesel. apply does_map_err, does_write. intros id t1 t2 [Hw1 Hw2 Hview Hf] Hv. cbv beta zeta.
  pose proof (Hproj _ Hv) as Hp1. assert (Hp2 := Hp1). rewrite Hview in Hp2. rewrite Hu, Hn.
  destruct (own_conversations_same t1 t2 Hview) as [Ho Hm].
  assert (existsb (fun x => bool_decide (c_uuid x = new)) (conversations t1) = existsb (fun x => bool_decide (c_uuid x = new)) (conversations t2)) as Ht.
  { apply (taken_alike c_user_id); [done|by injection Hf]. }
  rewrite Ht. destruct (existsb _ (conversations t2)) eqn:Htaken; [left; eauto|].
  change (exists_user u t1) with (v_user (view u t1)). change (exists_user u t2) with (v_user (view u t2)). rewrite Hview.
  rewrite (exists_project_has id t1), (exists_project_has id t2) by done.
  destruct (v_user (view u t2)); [right|left; eauto]. cbn [negb andb].
  set (row := MkConversation _ _ _ _ _ _ _ _ _).
  exists row, (set_conversations (conversations t1 ++ [row]) t1), (set_conversations (conversations t2 ++ [row]) t2).
  assert (forall t v, v <> u -> own c_user_id v (conversations t ++ [row]) = own c_user_id v (conversations t)) as Hother.
  { intros t v Hne. rewrite own_app, own_one, decide_False by (cbn; congruence). by rewrite app_nil_r. }
  split_and!; [done|done|..|done].
  - apply wf_add_conversation; [done|done|change (c_uuid row) with new; apply uuid_not_taken; by rewrite Ht|]. intros q Hq. by apply (has_project_row id), Hp1.
  - apply wf_add_conversation; [done|done|change (c_uuid row) with new; by apply uuid_not_taken|]. intros q Hq. by apply (has_project_row id), Hp2.
  - apply beside_conversations; intros v Hne; by apply Hother.
  - apply beside_conversations; intros v Hne; by apply Hother.
  - apply same_conversations; [done|rewrite !own_app; by f_equal|]. intros c. rewrite own_app, elem_of_app. intros [Hc|Hc]; [by apply Hm|].
    apply elem_of_own in Hc as [->%list_elem_of_singleton _]. cbn.
    rewrite !(no_items id) by (done || by apply fresh_id, wf_conversation_serial). done.
Qed.

Definition keeps_conversation (f : Conversation -> Conversation) : Prop :=
  forall x, c_id (f x) = c_id x /\ c_uuid (f x) = c_uuid x /\ c_user_id (f x) = c_user_id x.
Lemma update_conversations_ok n t p f : wf n t -> keeps_conversation f -> (forall x, p x = true -> c_user_id x = u) ->
  (forall x q, x ∈ conversations t -> p x = true -> c_project_id (f x) = Some q -> c_project_id x = Some q \/ has_project q (view u t)) ->
  wf (n + 1) (set_conversations (update_rows p f (conversations t)) t) /\
  beside u t (set_conversations (update_rows p f (conversations t)) t).
Proof.
  intros Hw Hf Hp Hq. split.
  - apply (wf_grows n); [lia|]. apply wf_update_conversations; [done|done|]. intros x q Hx Hpx Hfx.
    destruct (Hq x q Hx Hpx Hfx) as [?|Hhas]; [by eapply wf_conversation_project|]. rewrite (Hp x Hpx). by eapply has_project_row.
  - apply beside_conversations. intros v Hv. rewrite (own_update c_user_id u) by (auto || intros; apply Hf). by rewrite decide_False by done.
Qed.
Lemma update_conversations_same t1 t2 p f : view u t1 = view u t2 -> keeps_conversation f -> (forall x, p x = true -> c_user_id x = u) ->
  view u (set_conversations (update_rows p f (conversations t1)) t1) = view u (set_conversations (update_rows p f (conversations t2)) t2).
Proof.
  intros Hview Hf Hp. destruct (own_conversations_same t1 t2 Hview) as [Ho Hm].
  assert (forall t, own c_user_id u (update_rows p f (conversations t)) = update_rows p f (own c_user_id u (conversations t))) as Hu.
  { intros t. rewrite (own_update c_user_id u) by (auto || intros; apply Hf). by rewrite decide_True by done. }
  apply same_conversations; [done|by rewrite !Hu, Ho|]. intros c. rewrite Hu. intros (x & Hx & ->)%Db.elem_of_updated.
  destruct (p x); [destruct (Hf x) as [-> _]|]; by apply Hm.
Qed.

(** Reading the items of an own conversation. *)
Definition has_conversation (conv : Z) (v : View) : Prop := exists c, c ∈ v_own_conversations v /\ c_id c = conv.
Definition v_messages (conv : Z) (v : View) : list Raw :=
  default [] ((fun c => c.2.1) <$> first (fun c => bool_decide (c_id c.1 = conv)) (v_conversations v)).
Lemma v_messages_own n t conv : wf n t -> has_conversation conv (view u t) ->
  conversation_messages (chat t) conv = v_messages conv (view u t).
Proof.
  intros Hw (c & Hc & <-). unfold v_own_conversations in Hc. rewrite v_conversations_own in Hc. unfold v_messages.
  destruct (first _ (v_conversations (view u t))) as [[c' l]|] eqn:Hf.
  - apply Db.first_Some in Hf as [Hid%bool_decide_eq_true (x & [= -> ->] & _)%list_elem_of_fmap]. cbn in *. congruence.
  - apply fmap_None, list_find_None in Hf. rewrite Forall_forall in Hf.
    destruct (Hf (c, items (chat t) (c_id c))); [apply list_elem_of_fmap; by exists c|]. by apply bool_decide_eq_true.
Qed.
Lemma reads_messages conv limit after order (Pre : View -> Prop) : (forall v, Pre v -> has_conversation conv v) ->
  does Pre (get_conversation_context conv limit after order) (fun _ v => Pre v).
Proof.
  intros Hpre. unfold get_conversation_context, diesel. apply does_map_err, Sql.acts_statement; [exact alike_grows|apply _|].
  intros n t1 t2 Ha Hv. right. pose proof Ha as [Hw1 Hw2 Hview _].
  rewrite (v_messages_own n t1), (v_messages_own n t2), Hview by (done || rewrite <- ?Hview; auto).
  do 3 eexists. split_and!; [done|done|by apply (alike_grows n); [lia|]|done|done].
Qed.

(** *** The methods of [DBConnection], for the user [u] *)
Lemma does_weaken {E A} Pre (m : ST State E A) Post : does Pre m Post -> does Pre m (fun _ _ => True).
Proof. intros Hm. by eapply does_conseq; [exact Hm|..]. Qed.
(** A run of which nothing is remembered but what was known before. *)
Definition quiet {E A} (m : ST State E A) : Prop := forall Pre, does Pre m (fun _ v => Pre v).
Lemma quiet_lift {E A} (m : outcome E A) : quiet (@st_lift State E A m).
Proof. intros Pre. by apply does_lift. Qed.
Lemma quiet_ok {E A} (a : A) : quiet (@st_ok State E A a).
Proof. intros Pre. by apply does_ok. Qed.
Lemma quiet_err {E A} (e : E) : quiet (@st_err State E A e).
Proof. intros Pre. by apply does_err. Qed.
Lemma quiet_then {E A B} (m : ST State E A) (f : A -> ST State E B) : quiet m -> (forall a, quiet (f a)) -> quiet (x ← m; f x).
Proof. intros Hm Hf Pre. eapply does_bind; [apply Hm|]. intros a. apply Hf. Qed.
Lemma quiet_map_err {E E' A} (g : E -> E') (m : ST State E A) : quiet m -> quiet (st_map_err g m).
Proof. intros Hm Pre. by apply does_map_err. Qed.
Lemma quiet_connection : quiet db_connection.
Proof. intros Pre. apply Sql.acts_connection; [exact alike_grows|apply _]. Qed.
Lemma quiet_method {A} (m : ST State ResponsesError A) : quiet m -> quiet (method m).
Proof. intros Hm Pre. by apply does_method. Qed.
Lemma quiet_of {E A} (m : ST State E A) (Q : A -> View -> Prop) :
  (forall Pre, does Pre m (fun a v => Q a v /\ Pre v)) -> quiet m.
Proof. intros Hm Pre. eapply does_conseq; [apply (Hm Pre)|done|]. naive_solver. Qed.

Lemma get_conversation_known uuid :
  forall Pre, does Pre (get_conversation_by_uuid_and_user uuid u) (fun c v => has_conversation (c_id c) v /\ Pre v).
Proof.
  intros Pre. apply does_method. eapply does_conseq; [apply (reads_conversation _ Pre); owned|done|].
  intros c v (Hc & _ & Hp). split; [by exists c|done].
Qed.
Lemma get_project_known uuid :
  forall Pre, does Pre (get_conversation_project_by_uuid_and_user uuid u) (fun p v => has_project (p_id p) v /\ Pre v).
Proof.
  intros Pre. apply does_method. eapply does_conseq; [apply (reads_project _ Pre); owned|done|].
  intros p v (Hp & _ & ?). split; [by exists p|done].
Qed.
Lemma quiet_project_by_id id : quiet (get_conversation_project_by_id_and_user id u).
Proof.
  intros Pre. apply does_method. eapply does_conseq; [apply (reads_project _ Pre); owned|done|]. by intros p v (_ & _ & ?).
Qed.
Lemma quiet_instruction_by_uuid id : quiet (get_user_instruction_by_uuid_and_user id u).
Proof.
  intros Pre. apply does_method. eapply does_conseq; [apply (reads_instruction _ Pre); owned|done|]. by intros p v (_ & _ & ?).
Qed.
Lemma quiet_project_instruction id : quiet (get_project_instruction id u).
Proof.
  intros Pre. apply does_method. eapply does_conseq;
    [apply does_map_err, (does_select Pre _ (fun v => first (instruction_of_project id u) (v_instructions v)))|done|by intros ? ? [_ ?]].
  intros n t _. apply first_own. owned.
Qed.

Lemma quiet_cursor {E A} (h : DieselError -> E) (rows : Tables -> list A) vrows owner (p : Uuid -> A -> bool) (k : A -> Z * Z) (after : option Uuid) :
  (forall t, vrows (view u t) = own owner u (rows t)) -> (forall i x, p i x = true -> owner x = u) ->
  quiet (match after with
         | Some i => st_map_err h (select (fun t => k <$> first (p i) (rows t)))
         | None => st_ok None
         end).
Proof.
  intros Hv Hp Pre. destruct after as [i|]; [|by apply does_ok].
  eapply does_conseq; [apply (reads_first h Pre rows vrows owner (p i) k); [done|apply Hp]|done|]. by intros ? ? [_ ?].
Qed.
Lemma quiet_list_projects limit after order : quiet (Conversations.list_conversation_projects u limit after order).
Proof.
  apply quiet_method, quiet_then.
  - apply (quiet_cursor _ projects v_projects p_user_id (fun i => project_by_uuid i u)); [done|]. owned.
  - intros cursor. apply (quiet_of _ (fun a v => a = Pagination.page_query p_updated_at p_id order limit cursor (matching_rows (project_of u) (v_projects v)))).
    intros Pre. apply (reads_projects _ Pre (Pagination.page_query p_updated_at p_id order limit cursor)). owned.
Qed.
Lemma quiet_list_conversations limit after order filter pinned : quiet (Conversations.list_conversations u limit after order filter pinned).
Proof.
  apply quiet_method, quiet_then.
  - apply (quiet_cursor _ conversations v_own_conversations c_user_id (fun i => conversation_by_uuid i u)); [apply v_conversations_own|]. owned.
  - intros cursor. apply (quiet_of _ (fun a v => a = Pagination.page_query c_last_activity_at c_id order limit cursor
      (matching_rows (listed u filter pinned) (v_own_conversations v)))).
    intros Pre. apply (reads_conversations _ Pre (Pagination.page_query c_last_activity_at c_id order limit cursor)). owned.
Qed.
Lemma quiet_list_instructions limit after order : quiet (list_user_instructions u limit after order).
Proof.
  apply quiet_then; [apply quiet_connection|]. intros []. apply quiet_then.
  - apply (quiet_cursor _ instructions v_instructions i_user_id (fun i => instruction_by_uuid i u)); [done|]. owned.
  - intros cursor. apply quiet_map_err, (quiet_of _ (fun a v => a = Pagination.page_query i_updated_at i_id order limit cursor
      (matching_rows (instruction_global u) (v_instructions v)))).
    intros Pre. apply (reads_instructions _ Pre (Pagination.page_query i_updated_at i_id order limit cursor)). owned.
Qed.

Definition done_with {E A} Pre (m : ST State E A) : Prop := does Pre m (fun _ _ => True).
Lemma done_quiet {E A} Pre (m : ST State E A) : quiet m -> done_with Pre m.
Proof. intros Hm. eapply does_weaken, Hm. Qed.
Lemma done_bind {E A B} Pre (m : ST State E A) (f : A -> ST State E B) : quiet m -> (forall a, done_with Pre (f a)) -> done_with Pre (x ← m; f x).
Proof. intros Hm Hf. eapply does_bind; [apply Hm|exact Hf]. Qed.
Lemma done_then {E A B} Pre (m : ST State E A) (f : A -> ST State E B) : done_with Pre m -> (forall a, done_with (fun _ => True) (f a)) ->
  done_with Pre (x ← m; f x).
Proof. intros Hm Hf. eapply does_bind; [apply Hm|exact Hf]. Qed.
Lemma done_method {A} Pre (m : ST State ResponsesError A) : done_with Pre m -> done_with Pre (method m).
Proof. apply does_method. Qed.
Lemma done_map_err {E E' A} (g : E -> E') Pre (m : ST State E A) : done_with Pre m -> done_with Pre (st_map_err g m).
Proof. apply does_map_err. Qed.
Lemma done_pre {E A} (Pre Pre' : View -> Prop) (m : ST State E A) : done_with Pre m -> (forall v, Pre' v -> Pre v) -> done_with Pre' m.
Proof. intros Hm Hp. eapply does_conseq; [exact Hm|done|done]. Qed.

Lemma done_delete_conversation id : done_with (fun _ => True) (Conversations.delete_conversation id u).
Proof.
  apply done_method, done_then; [|intros deleted; case_decide; apply done_quiet; [apply quiet_err|apply quiet_ok]].
  apply does_map_err, writes_drop_conversations. owned.
Qed.
Lemma done_delete_all : done_with (fun _ => True) (Conversations.delete_all_conversations u).
Proof. apply done_method, does_map_err, (writes_drop_conversations _ _ (fun _ => tt)). owned. Qed.
Lemma done_delete_project id : done_with (fun _ => True) (Conversations.delete_conversation_project id u).
Proof.
  apply done_method, done_then; [|intros deleted; case_decide; apply done_quiet; [apply quiet_err|apply quiet_ok]].
  apply does_map_err, writes_drop_projects. owned.
Qed.
Lemma done_create_conversation now n : nc_user_id n = u -> nc_uuid n = new ->
  done_with (fun v => forall id, nc_project_id n = Some id -> has_project id v) (Conversations.create_conversation now n).
Proof. intros Hu Hn. apply done_method. by apply writes_conversation_insert. Qed.
Lemma done_create_project now n : np_user_id n = u -> np_uuid n = new ->
  done_with (fun _ => True) (Conversations.create_conversation_project now n).
Proof.
  intros Hu Hn. apply done_method, does_transaction. apply done_bind.
  { rewrite Hu. intros Pre. eapply does_conseq.
    - by apply does_map_err, (does_select_first Pre _ (fun v => if v_user v then Some tt else None)).
    - done.
    - by intros ? ? [_ ?]. }
  intros []. eapply does_bind with (Mid := fun count v => count = Z.of_nat (length (v_projects v))).
  { rewrite Hu. eapply does_conseq.
    - by apply (reads_view _ (fun _ => True) _ (fun v => Z.of_nat (length (v_projects v)))).
    - done.
    - by intros a v [-> _]. }
  intros count. eapply does_bind with (Mid := fun _ v => (Z.of_nat (length (v_projects v)) < MAX_CONVERSATION_PROJECTS_PER_USER)%Z).
  { apply does_lift. intros [] v. unfold validate_conversation_project_limit. case_decide; [done|]. intros _ ->. lia. }
  intros []. by apply writes_project_insert.
Qed.
Lemma keeps_with_changes now m p b : keeps_conversation (with_changes now m p b).
Proof. by intros x. Qed.
Lemma write_conversations (p : Conversation -> bool) f (target : option Z) {A} (k : list Conversation -> A) :
  keeps_conversation f -> (forall x, p x = true -> c_user_id x = u) ->
  (forall x, c_project_id (f x) = c_project_id x \/ c_project_id (f x) = target) ->
  done_with (fun v => forall id, target = Some id -> has_project id v) (statement (fun _ t =>
    if exists_project t target
    then Ok (k (matching_rows p (conversations t)), set_conversations (update_rows p f (conversations t)) t)
    else Err Db.ForeignKeyViolation)).
Proof.
  intros Hf Hp Ht. apply does_write. intros n t1 t2 [Hw1 Hw2 Hview _] Hv. right. assert (Hv2 := Hv). rewrite Hview in Hv2.
  rewrite (exists_project_has n t1), (exists_project_has n t2) by done.
  destruct (own_conversations_same t1 t2 Hview) as [Ho _].
  exists (k (matching_rows p (conversations t1))), (set_conversations (update_rows p f (conversations t1)) t1),
    (set_conversations (update_rows p f (conversations t2)) t2).
  destruct (update_conversations_ok n t1 p f Hw1 Hf Hp) as [? ?].
  { intros x q _ _ Hq. destruct (Ht x) as [<-|He]; [by left|right]. apply Hv. congruence. }
  destruct (update_conversations_ok n t2 p f Hw2 Hf Hp) as [? ?].
  { intros x q _ _ Hq. destruct (Ht x) as [<-|He]; [by left|right]. apply Hv2. congruence. }
  split_and!; try done; [|by apply update_conversations_same].
  assert (matching_rows p (conversations t1) = matching_rows p (conversations t2)) as Hm; [|by rewrite Hm].
  by apply (matching_same c_user_id u).
Qed.

Lemma done_update_conversation now id metadata project pinned :
  done_with (fun v => forall p, project = Some (Some p) -> has_project p v)
    (Conversations.update_conversation now id u metadata project pinned).
Proof.
  apply done_method. unfold update. destruct (_ && _ && _).
  { eapply does_conseq; [by apply (reads_conversation _ (fun _ => True)); owned|done|done]. }
  apply done_then; [|intros [c|]; apply done_quiet; [apply quiet_ok|apply quiet_err]].
  set (f := with_changes now metadata project pinned). set (target := default None project).
  assert (forall v, (forall p, project = Some (Some p) -> has_project p v) -> forall p, target = Some p -> has_project p v) as Hpre.
  { intros v Hp p Ht. apply Hp. by destruct project as [[]|]; cbn in Ht; simplify_eq. }
  apply does_map_err, does_write. intros n t1 t2 [Hw1 Hw2 Hview _] Hv. pose proof (Hpre _ Hv) as Hv1. assert (Hv2 := Hv1). rewrite Hview in Hv2.
  destruct (own_conversations_same t1 t2 Hview) as [Ho _]. right.
  rewrite (first_own c_user_id u _ (conversations t1)), (first_own c_user_id u _ (conversations t2)), Ho by owned.
  destruct (first _ _) as [c|].
  - rewrite (exists_project_has n t1), (exists_project_has n t2) by done.
    exists (Some (f c)), (set_conversations (update_rows (conversation_by_id id u) f (conversations t1)) t1),
      (set_conversations (update_rows (conversation_by_id id u) f (conversations t2)) t2).
    assert (forall x q, c_project_id (f x) = Some q -> c_project_id x = Some q \/ target = Some q) as Hq.
    { intros x q. unfold f, with_changes, target. destruct project as [[]|]; cbn; auto. }
    destruct (update_conversations_ok n t1 (conversation_by_id id u) f Hw1) as [? ?]; [done|owned|intros x q _ _ [?|?]%Hq; auto|].
    destruct (update_conversations_ok n t2 (conversation_by_id id u) f Hw2) as [? ?]; [done|owned|intros x q _ _ [?|?]%Hq; auto|].
    split_and!; try done. apply update_conversations_same; [done|done|owned].
  - exists None, t1, t2. split_and!; try done; by apply (wf_grows n); [lia|].
Qed.
Lemma done_batch_update now uuids target : done_with (fun _ => True) (Conversations.batch_update_conversation_project now uuids u target).
Proof.
  apply done_method. unfold batch_update_project. case_decide; [apply done_quiet, quiet_err|]. case_decide; [apply done_quiet, quiet_err|].
  apply does_transaction. eapply does_bind with (Mid := fun _ v => forall p, target = Some p -> has_project p v).
  { destruct target as [id|]; [|by apply does_ok].
    eapply does_bind; [apply (reads_first _ (fun _ => True) projects v_projects p_user_id (project_by_id id u) p_id); [done|owned]|].
    intros found. case_decide as Hf; [apply does_err|]. apply does_ok. intros v [-> _] p [= <-].
    destruct (first _ _) as [q|] eqn:Hq; [|done]. apply Db.first_Some in Hq as [Hq Hin]. exists q. split; [done|].
    unfold project_by_id in Hq. apply andb_true_iff in Hq as [Hq _]. by apply bool_decide_eq_true in Hq. }
  intros _. apply done_bind.
  { apply (quiet_of _ (fun a v => a = matching_rows (conversation_among uuids u) (v_own_conversations v))). intros Pre.
    apply (reads_conversations _ Pre (fun l => l)). owned. }
  intros existing. case_decide; [apply done_quiet, quiet_err|]. apply done_bind; [apply quiet_lift|]. intros source.
  destruct (existsb _ _); [apply done_quiet, quiet_err|].
  apply done_then; [|intros updated; case_decide; apply done_quiet; [apply quiet_err|apply quiet_ok]].
  apply does_map_err, (write_conversations _ _ target length); [done|owned|]. intros x. by right.
Qed.

Lemma keeps_with_default now b : keeps_instruction (with_default now b).
Proof. by intros x. Qed.
Lemma keeps_with_content now n p k b : keeps_instruction (with_content now n p k b).
Proof. by intros x. Qed.
Lemma of_projects_has p (Q : View -> Prop) : of_projects (fun v => has_project p v /\ Q v) (has_project p).
Proof. by intros v js [? _]. Qed.

Lemma does_set_project_instruction now id prompt k :
  does (has_project id) (set_project_instruction now new id u prompt k) (fun _ => has_project id).
Proof.
  unfold set_project_instruction.
  eapply does_bind; [apply (does_select (has_project id) _ (fun v => first (instruction_of_project id u) (v_instructions v)))|].
  { intros n t _. apply first_own. owned. }
  intros [i|].
  - eapply does_conseq; [apply (writes_instruction_update (fun v => has_project id v /\ i ∈ v_instructions v) (has_project id))| |done].
    + apply of_projects_has.
    + by intros x.
    + intros n t Hw [_ Hi] x Hx Hid%bool_decide_eq_true. apply elem_of_own in Hi as [Hi <-]. f_equal.
      by eapply (Db.NoDup_fmap_same i_id); [apply Hw|..].
    + intros v [Hf ?]. split; [done|]. symmetry in Hf. by apply Db.first_Some in Hf as [_ ?].
  - eapply does_bind with (Mid := fun _ => has_project id); [|by intros ?; apply does_ok].
    eapply does_conseq; [apply (writes_instruction_insert (fun v => has_project id v /\ True) (has_project id))| |done]; [done|done|apply of_projects_has|..].
    + by intros v [? _] p [= <-].
    + naive_solver.
Qed.
Lemma done_update_project now id name upd : done_with (fun _ => True) (Conversations.update_conversation_project now new id u name upd).
Proof.
  apply done_bind; [apply quiet_connection|]. intros []. apply done_map_err, does_transaction.
  assert (forall f, (forall x, p_id (f x) = p_id x /\ p_uuid (f x) = p_uuid x /\ p_user_id (f x) = p_user_id x) ->
    does (has_project id) (project_update now id u f) (fun _ => has_project id)) as Hupdate.
  { intros f Hf. apply writes_project_update; [done|]. intros v ps (q & Hq & Hid) Hps.
    assert (id ∈ p_id <$> ps) as (q' & -> & ?)%list_elem_of_fmap; [|by exists q'].
    rewrite Hps. apply list_elem_of_fmap. eauto. }
  eapply does_bind with (Mid := fun _ => has_project id).
  { eapply does_conseq; [apply (does_select_first (fun _ => True) _ (fun v => first (project_by_id id u) (v_projects v)))|done|].
    - intros n t _. apply first_own. owned.
    - intros q v [[Hq Hin]%Db.first_Some _]. exists q. split; [done|]. unfold project_by_id in Hq. by apply andb_true_iff in Hq as [?%bool_decide_eq_true _]. }
  intros _. eapply does_bind with (Mid := fun _ => has_project id); [destruct name; [by apply Hupdate|by apply does_ok]|].
  intros _. eapply does_bind with (Mid := fun _ => has_project id).
  { destruct upd; [by apply does_ok|..].
    - eapply does_bind; [apply does_set_project_instruction|]. intros []. by apply Hupdate.
    - eapply does_bind with (Mid := fun _ => has_project id); [|by intros []; apply Hupdate].
      eapply does_conseq; [apply (writes_instruction_delete (fun v => has_project id v /\ True) (has_project id) (instruction_of_project id u) (fun _ => tt))| |done].
      + apply of_projects_has.
      + owned.
      + naive_solver. }
  intros _. eapply does_conseq; [apply (does_select_first (fun _ => True) _ (fun v => first (project_by_id id u) (v_projects v)))|done|done].
  intros n t _. apply first_own. owned.
Qed.

Lemma done_clear_default Pre now p : (forall x, p x = true -> i_user_id x = u) ->
  done_with Pre (instruction_update u p (with_default now false)).
Proof. intros Hp. eapply does_weaken, (writes_instruction_update Pre (fun _ => True)); [done|apply keeps_with_default|auto]. Qed.
Lemma done_instruction_transaction {A} (m : ST State DieselError A) : done_with (fun _ => True) m ->
  done_with (fun _ => True) (instruction_method (transaction (fun e => e) m)).
Proof. intros Hm. by apply done_method, done_map_err, does_transaction. Qed.
Lemma done_create_instruction now n : ni_user_id n = u -> ni_uuid n = new -> ni_project_id n = None ->
  done_with (fun _ => True) (create_user_instruction now n).
Proof.
  intros Hu Hn Hp. apply done_instruction_transaction, done_then.
  - destruct (ni_is_default n); [|by apply done_quiet, quiet_ok]. rewrite Hu. apply done_clear_default. owned.
  - intros []. apply (writes_instruction_insert (fun _ => True) (fun _ => True)); [done|done|done|]. intros v _ id. by rewrite Hp.
Qed.
Lemma done_update_instruction now id name prompt k b : done_with (fun _ => True) (update_user_instruction now id u name prompt k b).
Proof.
  apply done_instruction_transaction, done_then.
  - destruct b; [|by apply done_quiet, quiet_ok]. apply done_clear_default. owned.
  - intros []. apply writes_instruction_update_one; [apply keeps_with_content|]. owned.
Qed.
Lemma done_set_default now id : done_with (fun _ => True) (set_default_user_instruction now id u).
Proof.
  apply done_instruction_transaction, done_then; [apply done_clear_default; owned|].
  intros []. apply writes_instruction_update_one; [apply keeps_with_default|]. owned.
Qed.
Lemma done_delete_instruction id : done_with (fun _ => True) (delete_user_instruction id u).
Proof.
  apply done_bind; [apply quiet_connection|]. intros []. apply done_then.
  - apply does_map_err, (writes_instruction_delete (fun _ => True) (fun _ => True)); [done|]. owned.
  - intros rows. case_decide; apply done_quiet; [apply quiet_err|apply quiet_ok].
Qed.

(** ** The routes *)
Section routes.
Import ConversationRoutes.
Context `{Crypto, SerdeJson, Conversions.Tokenizer, Conversions.ContentJson}.
Context (now : Z) (nonce nonce' : bytes) (user_key : outcome Api.ApiError Encrypt.SecretKey).

Ltac calm :=
  repeat match goal with
  | |- forall _, _ => intros ?
  | |- quiet (mbind _ _) => apply quiet_then
  | |- quiet (st_lift _) => apply quiet_lift
  | |- quiet (get_user_key _) => apply quiet_lift
  | |- quiet (encrypt_with_key _ _ _) => apply quiet_lift
  | |- quiet (decrypt_metadata _ _) => apply quiet_lift
  | |- quiet (decrypt_text _ _) => apply quiet_lift
  | |- quiet (st_ok _) => apply quiet_ok
  | |- quiet (st_err _) => apply quiet_err
  | |- quiet (st_map_err _ _) => apply quiet_map_err
  | |- quiet (if _ then _ else _) => case_match
  | |- quiet (match _ with _ => _ end) => case_match
  end; try done.

Lemma quiet_find_conversation id : quiet (find_conversation u id).
Proof. apply quiet_map_err, (quiet_of _ (fun c => has_conversation (c_id c))), get_conversation_known. Qed.
Lemma quiet_find_project id : quiet (find_project u id).
Proof. apply quiet_map_err, (quiet_of _ (fun p => has_project (p_id p))), get_project_known. Qed.
Lemma quiet_load_conversation id : quiet (load_conversation u user_key id).
Proof. apply quiet_then; [apply quiet_find_conversation|]. calm. Qed.
Lemma load_conversation_known id Pre :
  does Pre (load_conversation u user_key id) (fun ctx v => has_conversation (c_id ctx.1) v /\ Pre v).
Proof.
  eapply does_bind; [apply does_map_err, get_conversation_known|]. intros c.
  eapply does_bind; [apply quiet_lift|]. intros key. apply does_ok. done.
Qed.
Lemma quiet_build c key metadata cache : quiet (build_conversation_response u c key metadata cache).
Proof.
  unfold build_conversation_response, decrypt_metadata. apply quiet_then; [calm|]. intros m. apply quiet_then; [|calm].
  unfold resolve_project_uuid. calm. apply quiet_project_by_id.
Qed.
Lemma quiet_builds l key cache : quiet (build_conversation_responses u l key cache).
Proof. revert cache. induction l as [|c l IH]; intros cache; [apply quiet_ok|]. apply quiet_then; [apply quiet_build|]. calm. Qed.
Lemma quiet_project_items l key : quiet (project_items l key).
Proof. induction l as [|p l IH]; [apply quiet_ok|]. cbn [project_items]. unfold decrypt_name, decrypt_required, decrypt_text. calm. Qed.
Lemma quiet_instruction_items l key : quiet (instruction_items l key).
Proof. induction l as [|i l IH]; [apply quiet_ok|]. cbn [instruction_items]. unfold decrypt_instruction, decrypt_required, decrypt_text. calm. Qed.
Lemma quiet_load_instruction id : quiet (load_instruction u user_key id).
Proof. apply quiet_then; [apply quiet_map_err, quiet_instruction_by_uuid|]. unfold get_user_key. calm. Qed.
Lemma quiet_load_project id : quiet (load_project u user_key id).
Proof. apply quiet_then; [apply quiet_find_project|]. unfold get_user_key. calm. Qed.
Lemma quiet_decrypt_instruction i key : quiet (decrypt_instruction i key).
Proof. unfold decrypt_instruction, decrypt_required, decrypt_text. calm. Qed.
Lemma quiet_project_texts p key i : quiet (name ← decrypt_name p key; instructions ← decrypt_project_instruction key i;
  @st_ok State Api.ApiError _ (build_project_response p name instructions)).
Proof. unfold decrypt_name, decrypt_required, decrypt_project_instruction, decrypt_text. calm. Qed.

Lemma route_create_conversation body : done_with (fun _ => True) (create_conversation now new nonce u user_key body).
Proof.
  unfold create_conversation. apply done_bind; [calm|]. intros []. apply done_bind; [unfold get_user_key; calm|]. intros key.
  eapply does_bind with (Mid := fun project v => forall id, p_id <$> project = Some id -> has_project id v).
  { destruct (cc_project_id body) as [id|]; [|by apply does_ok].
    eapply does_bind; [apply does_map_err, (get_project_known id (fun _ => True))|]. intros p. apply does_ok. intros v [Hp _] i [= <-]. done. }
  intros project. eapply does_bind; [apply quiet_lift|]. intros []. eapply does_bind; [apply quiet_lift|]. intros enc.
  apply done_then; [apply done_map_err; by apply (done_create_conversation now (MkNewConversation _ _ _ _ _))|].
  intros c. apply done_bind; [apply quiet_build|]. intros ?. apply done_quiet, quiet_ok.
Qed.
Lemma route_update_conversation id body : done_with (fun _ => True) (update_conversation now nonce u user_key id body).
Proof.
  unfold update_conversation. destruct (_ && _ && _); [apply done_quiet, quiet_err|].
  apply done_bind; [apply quiet_load_conversation|]. intros ctx. apply done_bind; [calm|]. intros enc.
  eapply does_bind with (Mid := fun project v => forall id, project.1 = Some (Some id) -> has_project id v).
  { destruct (uc_project_id body) as [| |i]; [by apply does_ok..|].
    eapply does_bind; [apply does_map_err, (get_project_known i (fun _ => True))|]. intros p. apply does_ok. intros v [Hp _] j [= <-]. done. }
  intros project. apply done_then; [apply done_map_err, done_update_conversation|].
  intros c. apply done_bind; [apply quiet_build|]. intros ?. apply done_quiet, quiet_ok.
Qed.
Lemma route_list_items id params : done_with (fun _ => True) (list_conversation_items u user_key id params).
Proof.
  unfold list_conversation_items. eapply does_bind; [apply (load_conversation_known id (fun _ => True))|]. intros ctx.
  eapply does_bind; [apply does_map_err, does_method, reads_messages; by intros v [? _]|]. intros raw.
  destruct (Pagination.split_page _ raw) as [more msgs]. apply done_quiet. calm.
Qed.
Lemma route_get_item id item : done_with (fun _ => True) (get_conversation_item u user_key id item).
Proof.
  unfold get_conversation_item. eapply does_bind; [apply (load_conversation_known id (fun _ => True))|]. intros ctx.
  eapply does_bind; [apply does_map_err, does_method, reads_messages; by intros v [? _]|]. intros raw. apply done_quiet. calm.
Qed.
Lemma route_list_conversations params : quiet (list_conversations u user_key params).
Proof.
  unfold list_conversations. apply quiet_then.
  { unfold resolve_conversation_project_filter. calm. apply quiet_find_project. }
  intros filter. apply quiet_then; [apply quiet_map_err, quiet_list_conversations|]. intros rows.
  destruct (Pagination.split_page _ rows) as [more l]. apply quiet_then; [calm|]. intros key. apply quiet_then; [apply quiet_builds|calm].
Qed.

Lemma done_catch {E E' A B} (m : ST State E A) (f : A -> ST State E' B) (g : E -> ST State E' B) :
  done_with (fun _ => True) m -> (forall a, done_with (fun _ => True) (f a)) -> (forall e, done_with (fun _ => True) (g e)) ->
  done_with (fun _ => True) (fun s => match m s with (Ok a, s) => f a s | (Err e, s) => g e s | (Panic, s) => (Panic, s) end).
Proof.
  intros Hm Hf Hg n l t1 t2 Ha Hv. destruct (Hm n l t1 t2 Ha Hv) as (r & n1 & l1 & u1 & u2 & -> & -> & Hn & Ha1 & Hb & _).
  destruct r as [a|e|].
  - destruct (Hf a n1 l1 u1 u2 Ha1 I) as (r & n2 & l2 & w1 & w2 & -> & -> & ? & ? & ? & _).
    exists r, n2, l2, w1, w2. split_and!; [done|done|lia|done|by etransitivity|done].
  - destruct (Hg e n1 l1 u1 u2 Ha1 I) as (r & n2 & l2 & w1 & w2 & -> & -> & ? & ? & ? & _).
    exists r, n2, l2, w1, w2. split_and!; [done|done|lia|done|by etransitivity|done].
  - exists Panic, n1, l1, u1, u2. by split_and!.
Qed.
Lemma route_batch_delete ids : done_with (fun _ => True) (batch_delete_conversations u ids).
Proof.
  unfold batch_delete_conversations. destruct (batch_size_ok ids); [|apply done_quiet, quiet_err].
  induction ids as [|id ids IH]; [apply done_quiet, quiet_ok|]. apply done_then.
  - apply (done_catch _ (fun c s => match Conversations.delete_conversation (c_id c) u s with
      | (Ok _, s) => st_ok (MkBatchDelete id OBJECT_TYPE_CONVERSATION_DELETED true None) s
      | (Err _, s) => st_ok (MkBatchDelete id OBJECT_TYPE_CONVERSATION_DELETED false (Some "delete_failed")) s
      | (Panic, s) => (Panic, s) end)
      (fun _ => st_ok (MkBatchDelete id OBJECT_TYPE_CONVERSATION_DELETED false (Some "not_found")))).
    + apply done_quiet, (quiet_of _ (fun c => has_conversation (c_id c))), get_conversation_known.
    + intros c. apply (done_catch _ (fun _ => st_ok _) (fun _ => st_ok _)); [apply done_delete_conversation|..]; intros; apply done_quiet, quiet_ok.
    + intros e. apply done_quiet, quiet_ok.
  - intros r. apply done_then; [exact IH|]. intros rs. apply done_quiet, quiet_ok.
Qed.
Lemma route_batch_update ids p : done_with (fun _ => True) (batch_update_conversation_project now u ids p).
Proof.
  unfold batch_update_conversation_project. destruct (batch_size_ok ids); [|apply done_quiet, quiet_err].
  apply done_bind; [calm; apply quiet_find_project|]. intros target.
  apply done_then; [apply done_map_err, done_batch_update|]. intros []. apply done_quiet, quiet_ok.
Qed.
Lemma route_update_project id body : done_with (fun _ => True) (update_conversation_project now new nonce nonce' u user_key id body).
Proof.
  unfold update_conversation_project. destruct (_ && _); [apply done_quiet, quiet_err|].
  apply done_bind; [apply quiet_load_project|]. intros ctx. apply done_bind; [calm|]. intros enc. apply done_bind; [calm|]. intros upd.
  apply done_then; [apply done_map_err, done_update_project|]. intros p.
  apply done_quiet, quiet_then; [apply quiet_map_err, quiet_project_instruction|]. intros i. apply quiet_project_texts.
Qed.
Lemma route_create_instruction body : done_with (fun _ => True) (create_instruction now new nonce nonce' u user_key body).
Proof.
  unfold create_instruction. case_match; [apply done_quiet, quiet_err|]. case_match; [apply done_quiet, quiet_err|].
  do 3 (apply done_bind; [calm|]; intros ?). apply done_then; [by apply done_map_err, done_create_instruction|].
  intros i. apply done_quiet, quiet_ok.
Qed.
Lemma route_update_instruction id body : done_with (fun _ => True) (update_instruction now nonce nonce' u user_key id body).
Proof.
  unfold update_instruction. case_match; [apply done_quiet, quiet_err|].
  apply done_bind; [apply quiet_load_instruction|]. intros ctx. apply done_bind; [apply quiet_decrypt_instruction|]. intros current.
  case_match; [apply done_quiet, quiet_err|]. case_match; [apply done_quiet, quiet_err|].
  do 2 (apply done_bind; [calm|]; intros ?). apply done_then; [apply done_map_err, done_update_instruction|].
  intros i. apply done_quiet, quiet_ok.
Qed.
Lemma route_set_default id : done_with (fun _ => True) (set_default_instruction now u user_key id).
Proof.
  unfold set_default_instruction. apply done_bind; [apply quiet_load_instruction|]. intros ctx. case_match.
  - apply done_quiet. apply quiet_then; [apply quiet_decrypt_instruction|]. calm.
  - apply done_then; [apply done_map_err, done_set_default|]. intros i. apply done_quiet, quiet_then; [apply quiet_decrypt_instruction|]. calm.
Qed.
Lemma quiet_list_projects_route params : quiet (list_conversation_projects u user_key params).
Proof.
  unfold list_conversation_projects. apply quiet_then; [apply quiet_map_err, quiet_list_projects|]. intros rows.
  destruct (Pagination.split_page _ rows) as [more l]. apply quiet_then; [calm|]. intros key. apply quiet_then; [apply quiet_project_items|calm].
Qed.
Lemma quiet_list_instructions_route params : quiet (list_instructions u user_key params).
Proof.
  unfold list_instructions. apply quiet_then; [apply quiet_map_err, quiet_list_instructions|]. intros rows.
  destruct (Pagination.split_page _ rows) as [more l]. apply quiet_then; [calm|]. intros key. apply quiet_then; [apply quiet_instruction_items|calm].
Qed.

Lemma handle_done r : done_with (fun _ => True) (handle now new nonce nonce' u user_key r).
Proof.
  destruct r; cbn [handle]; (apply done_then; [|intros ?; apply done_quiet, quiet_ok]).
  - apply route_create_conversation.
  - apply done_quiet. unfold get_conversation. apply quiet_then; [apply quiet_load_conversation|]. intros ctx.
    apply quiet_then; [calm|]. intros m. apply quiet_then; [apply quiet_build|calm].
  - apply route_update_conversation.
  - unfold delete_conversation. apply done_bind; [apply quiet_load_conversation|]. intros ctx.
    apply done_then; [apply done_map_err, done_delete_conversation|]. intros []. apply done_quiet, quiet_ok.
  - apply route_list_items.
  - apply route_get_item.
  - apply done_quiet, route_list_conversations.
  - apply done_then; [apply done_map_err, done_delete_all|]. intros []. apply done_quiet, quiet_ok.
  - apply route_batch_delete.
  - apply route_batch_update.
  - unfold create_conversation_project. do 3 (apply done_bind; [calm|]; intros ?).
    apply done_then; [by apply done_map_err, done_create_project|]. intros p. apply done_quiet, quiet_ok.
  - apply done_quiet, quiet_list_projects_route.
  - apply done_quiet. unfold get_conversation_project. apply quiet_then; [apply quiet_load_project|]. intros ctx.
    apply quiet_then; [apply quiet_map_err, quiet_project_instruction|]. intros i. apply quiet_project_texts.
  - apply route_update_project.
  - unfold delete_conversation_project. apply done_bind; [apply quiet_find_project|]. intros p.
    apply done_then; [apply done_map_err, done_delete_project|]. intros []. apply done_quiet, quiet_ok.
  - apply route_create_instruction.
  - apply done_quiet. unfold get_instruction. apply quiet_then; [apply quiet_load_instruction|]. intros ctx.
    apply quiet_then; [apply quiet_decrypt_instruction|calm].
  - apply route_update_instruction.
  - unfold delete_instruction. apply done_bind; [apply quiet_load_instruction|]. intros ctx.
    apply done_then; [apply done_map_err, done_delete_instruction|]. intros []. apply done_quiet, quiet_ok.
  - apply done_quiet, quiet_list_instructions_route.
  - apply route_set_default.
Qed.
End routes.
End alike.
(** ** Isolation *)
(** [new] is not the UUID of a row. *)
Definition unused (new : Uuid) (t : Tables) : Prop :=
  (new ∉ p_uuid <$> projects t) /\ (new ∉ i_uuid <$> instructions t) /\ (new ∉ c_uuid <$> conversations t).
Lemma unused_foreign u new t : unused new t -> foreign u new t = (false, false, false).
Proof.
  intros (Hp & Hi & Hc). unfold foreign.
  assert (forall {A} (uuid owner : A -> Uuid) l, (new ∉ uuid <$> l) ->
    existsb (fun x => bool_decide (uuid x = new) && negb (owned_by owner u x)) l = false) as Hn.
  { intros A uuid owner l Hl. apply not_true_iff_false. intros (x & Hx & [Hu%bool_decide_eq_true _]%andb_true_iff)%Db.existsb_elem.
    apply Hl, list_elem_of_fmap. eauto. }
  by rewrite !Hn.
Qed.

(** C1. Two databases that show a user the same give the same answer to any of
    his conversation, project and instruction requests, whatever fails, and show
    him the same afterwards; the request changes nothing that another user sees:
    no project, instruction or conversation of his, and no response, message,
    reasoning item, tool call or tool output row of his conversations.  The
    invariant is kept. *)
Theorem users_are_isolated `{Crypto, SerdeJson, Conversions.Tokenizer, Conversions.ContentJson}
    now new nonce nonce' u user_key r n faults t1 t2 :
  wf n t1 -> wf n t2 -> view u t1 = view u t2 -> unused new t1 -> unused new t2 ->
  let '(a1, s1) := ConversationRoutes.handle now new nonce nonce' u user_key r (MkStore t1 n faults) in
  let '(a2, s2) := ConversationRoutes.handle now new nonce nonce' u user_key r (MkStore t2 n faults) in
  a1 = a2 /\ view u (tables s1) = view u (tables s2) /\
  wf (serial s1) (tables s1) /\ (forall v, v <> u -> view v (tables s1) = view v t1).
Proof.
  intros Hw1 Hw2 Hv Hn1 Hn2.
  assert (alike u new n t1 t2) as Ha by (split; [done..|]; by rewrite !unused_foreign).
  destruct (handle_done u new now nonce nonce' user_key r n faults t1 t2 Ha I) as (a & n' & l' & t1' & t2' & -> & -> & _ & [] & Hb & _).
  done.
Qed.

(** A database with the given conversations and nothing else. *)
Definition no_chat (l : list Conversation) : Responses.Tables := Responses.MkTables (c_id <$> l) [] [] [] [] [] [].
Definition only_conversations (us : list Uuid) (l : list Conversation) : Tables := MkTables us [] [] l (no_chat l).
Lemma only_conversations_wf n us l : NoDup (c_id <$> l) -> NoDup (c_uuid <$> l) ->
  (forall c, c ∈ l -> (c_id c < n)%Z /\ c_project_id c = None) -> wf n (only_conversations us l).
Proof.
  intros Hi Hu Hl. constructor; cbn; try done; try apply NoDup_nil_2; try (intros x Hx; by apply elem_of_nil in Hx);
    try (intros x y Hx; by apply elem_of_nil in Hx).
  - intros v. lia.
  - intros c Hc. by apply Hl.
  - intros c p Hc Hp. destruct (Hl c Hc). congruence.
  - constructor; cbn; intros x Hx; by apply elem_of_nil in Hx.
Qed.

(** The same with responses in the conversations. *)
Definition with_responses (l : list Responses.Response) (t : Tables) : Tables :=
  MkTables (users t) (projects t) (instructions t) (conversations t) (Responses.set_responses l (chat t)).
Lemma with_responses_wf n us l rs : wf n (only_conversations us l) ->
  (forall r, r ∈ rs -> Responses.nr_conversation_id (Responses.r_new r) ∈ c_id <$> l) ->
  wf n (with_responses rs (only_conversations us l)).
Proof.
  intros Hw Hr. destruct Hw. constructor; cbn in *; try done.
  constructor; cbn; intros x Hx; try by apply elem_of_nil in Hx. by apply Hr.
Qed.

#[local] Existing Instances ToyCrypto.toy ToyCrypto.toy_laws.
#[local] Instance demo_serde : SerdeJson := {| from_str _ := None; to_string _ := "{}" |}.
#[local] Instance demo_tokens : Conversions.Tokenizer := fun _ => 1%Z.
#[local] Instance demo_json : Conversions.ContentJson := Conversions.ToyContent.toy_content.
Definition demo_conversation (id : Z) (uuid user : Uuid) (pinned : bool) : Conversation :=
  MkConversation id uuid user None 0 0 None pinned 7.
Definition demo_response (id : Z) (user : Uuid) (conv : Z) : Responses.Response :=
  Responses.MkResponse id
    (Responses.MkNewResponse [Byte.xaa] user conv Responses.InProgress "m" None None None None false true None) Responses.InProgress 0 None 0.
Definition demo_alice : Conversation := demo_conversation 1 [Byte.x01] [Byte.x0a] false.
Definition demo_bob : Conversation := demo_conversation 2 [Byte.x02] [Byte.x0b] true.
(** Alice alone, and with Bob. *)
Definition demo_one : Tables :=
  with_responses [demo_response 10 [Byte.x0a] 1] (only_conversations [[Byte.x0a]; [Byte.x0b]] [demo_alice]).
Definition demo_two : Tables :=
  with_responses [demo_response 10 [Byte.x0a] 1; demo_response 11 [Byte.x0b] 2]
    (only_conversations [[Byte.x0a]; [Byte.x0b]] [demo_alice; demo_bob]).
Definition demo_delete (t : Tables) :=
  ConversationRoutes.handle 9 [Byte.xff] [] [] [Byte.x0a] (Ok (Encrypt.MkSecretKey (replicate 32 Byte.x07)))
    (ConversationRoutes.DeleteConversation [Byte.x01]) (MkStore t 20 []).
Lemma demo_wf : wf 20 demo_one /\ wf 20 demo_two.
Proof.
  split; (apply with_responses_wf; [apply only_conversations_wf; [apply (bool_decide_unpack _); vm_compute; exact I..|]|]).
  - intros c ->%list_elem_of_singleton. split; [cbn; lia|done].
  - intros r ->%list_elem_of_singleton. apply (bool_decide_unpack _). vm_compute. exact I.
  - intros c [-> | ->%list_elem_of_singleton]%elem_of_cons; (split; [cbn; lia|done]).
  - intros r [-> | ->%list_elem_of_singleton]%elem_of_cons; apply (bool_decide_unpack _); vm_compute; exact I.
Qed.
(** Alice deletes her conversation, with Bob there and without: the same answer,
    her response row is gone and Bob's stays. *)
Lemma users_are_isolated_witness :
  is_ok (demo_delete demo_one).1 = true /\ (demo_delete demo_one).1 = (demo_delete demo_two).1 /\
  Responses.responses (chat (tables (demo_delete demo_two).2)) = [demo_response 11 [Byte.x0b] 2] /\
  (forall v, v <> [Byte.x0a] -> view v (tables (demo_delete demo_two).2) = view v demo_two).
Proof.
  split; [vm_compute; reflexivity|]. destruct demo_wf as [Hw1 Hw2].
  assert (unused [Byte.xff] demo_one /\ unused [Byte.xff] demo_two) as [Hn1 Hn2].
  { split; repeat split; apply (bool_decide_unpack _); vm_compute; exact I. }
  pose proof (users_are_isolated 9 [Byte.xff] [] [] [Byte.x0a] (Ok (Encrypt.MkSecretKey (replicate 32 Byte.x07)))
    (ConversationRoutes.DeleteConversation [Byte.x01]) 20 []) as Hiso.
  pose proof (Hiso demo_one demo_two Hw1 Hw2 eq_refl Hn1 Hn2) as H12.
  pose proof (Hiso demo_two demo_one Hw2 Hw1 eq_refl Hn2 Hn1) as H21.
  assert (Responses.responses (chat (tables (demo_delete demo_two).2)) = [demo_response 11 [Byte.x0b] 2]) as Hrows by (vm_compute; reflexivity).
  fold (demo_delete demo_one) (demo_delete demo_two) in H12, H21.
  destruct (demo_delete demo_one) as [a1 s1], (demo_delete demo_two) as [a2 s2].
  destruct H12 as [? _], H21 as (_ & _ & _ & ?). by split_and!.
Defined.
End Isolation.
