(* ===== verification/Pages.v ===== *)
(** * Pages of conversations

    A client that lists conversations page after page with the [last_id] of each
    page gets every conversation the query matches, each once, in the order asked
    for; and a batch that moves conversations to a project moves all or none. *)

From S2P Require Import Prelude Text Json Crypto Api Encrypt Conversions Database Statements Rows Pagination Responses ClientStream Conversations ConversationRoutes Isolation.

Module Pages.
Import Sql Pagination Conversations ConversationRoutes Isolation.

Lemma answers_method {A} t (m : ST State ResponsesError A) a : answers t m a -> answers t (method m) a.
Proof. intros Hm. eapply answers_bind; [apply answers_connection|]. by apply answers_map_err. Qed.

(** What a list route keeps of [limit + 1] rows. *)
Lemma split_page_take {A} (limit : Z) (rest : list A) : (0 <= limit)%Z ->
  split_page limit (take (Z.to_nat (limit + 1)) rest) =
  (bool_decide (Z.to_nat limit < length rest), take (Z.to_nat limit) rest).
Proof.
  intros Hl. unfold split_page. assert (Z.to_nat (limit + 1) = S (Z.to_nat limit)) as -> by lia. rewrite length_take.
  destruct (decide (Z.to_nat limit < length rest)).
  - rewrite !bool_decide_true by lia. f_equal. rewrite take_take. f_equal. lia.
  - rewrite !bool_decide_false by lia. f_equal. rewrite !take_ge by lia. done.
Qed.

(** ** The list of conversations *)
Section conversations.
Context `{Crypto, SerdeJson}.
Context (n : Z) (t : Tables) (user : Uuid) (key : Encrypt.SecretKey) (params : ListConversationsParams) (filter : ConversationProjectFilter).
Context (Hw : wf n t).

Definition at_cursor (after : option Uuid) : ListConversationsParams :=
  MkListConversations (lc_limit params) after (lc_order params) (lc_project_id params) (lc_unassigned_project params) (lc_pinned params).
Definition matched : list Conversation := matching_rows (listed user filter (lc_pinned params)) (conversations t).
(** The filter of the parameters. *)
Definition filter_of : Prop :=
  validate_params params = Ok tt /\
  filter = (if decide (lc_unassigned_project params = Some true) then Unassigned
           else match lc_project_id params with
                | Some uuid => from_option (fun p => Assigned (p_id p)) Any (first (project_by_uuid uuid user) (projects t))
                | None => Any
                end) /\
  (lc_unassigned_project params <> Some true -> forall uuid, lc_project_id params = Some uuid ->
     is_Some (first (project_by_uuid uuid user) (projects t))).

(** The entry of a conversation. *)
Definition readable (c : Conversation) : Prop := exists m, Encrypt.decrypt_content value_from_slice key (c_metadata_enc c) = Ok m.
Definition entry (c : Conversation) : ConversationResponse :=
  MkConversationResponse (c_uuid c) OBJECT_TYPE_CONVERSATION
    (match Encrypt.decrypt_content value_from_slice key (c_metadata_enc c) with Ok m => m | _ => None end)
    (p ← c_project_id c; p_uuid <$> first (project_by_id p user) (projects t))
    (c_is_pinned c) (ClientStream.timestamp (c_created_at c)) (ClientStream.timestamp (c_last_activity_at c)).

Lemma own_project c p : c ∈ conversations t -> c_user_id c = user -> c_project_id c = Some p ->
  exists q, first (project_by_id p user) (projects t) = Some q.
Proof.
  intros Hc Hu Hp. destruct (wf_conversation_project _ _ Hw c p Hc Hp) as (q & Hq & Hid & Ho).
  destruct (first (project_by_id p user) (projects t)) as [q'|] eqn:Hf; [eauto|].
  apply fmap_None, list_find_None in Hf. rewrite Forall_forall in Hf. destruct (Hf q Hq).
  unfold project_by_id. rewrite andb_true_iff, !bool_decide_eq_true. split; congruence.
Qed.
(** The cache of project UUIDs only holds what the table holds. *)
Definition cache_ok (cache : gmap Z Uuid) : Prop :=
  forall p uuid, cache !! p = Some uuid -> p_uuid <$> first (project_by_id p user) (projects t) = Some uuid.
Lemma answers_build c cache : c ∈ conversations t -> c_user_id c = user -> readable c -> cache_ok cache ->
  exists cache', cache_ok cache' /\ answers t (build_conversation_response user c key None cache) (entry c, cache').
Proof.
  intros Hc Hu [m Hm] Hcache. unfold build_conversation_response, entry. rewrite Hm.
  assert (answers t (decrypt_metadata key c) m) as Hd by (apply answers_lift; by rewrite Hm).
  unfold resolve_project_uuid. destruct (c_project_id c) as [p|] eqn:Hp; cbn.
  - destruct (own_project c p Hc Hu Hp) as [q Hq]. rewrite Hq. cbn.
    destruct (cache !! p) as [uuid|] eqn:Hin.
    + exists cache. split; [done|]. eapply answers_bind; [exact Hd|]. eapply answers_bind; [apply answers_ok|].
      apply Hcache in Hin. rewrite Hq in Hin. injection Hin as <-. apply answers_ok.
    + exists (<[p := p_uuid q]> cache). split.
      { intros p' uuid. destruct (decide (p' = p)) as [->|].
        - rewrite lookup_insert_eq. intros [= <-]. by rewrite Hq.
        - rewrite lookup_insert_ne by done. apply Hcache. }
      eapply answers_bind; [exact Hd|]. eapply (answers_bind _ _ _ (Some (p_uuid q), _)); [|apply answers_ok].
      eapply answers_bind; [|apply answers_ok]. apply answers_map_err, answers_method, answers_map_err, answers_select_first. exact Hq.
  - exists cache. split; [done|]. eapply answers_bind; [exact Hd|]. eapply answers_bind; [apply answers_ok|apply answers_ok].
Qed.
Lemma answers_builds l cache : (forall c, c ∈ l -> c ∈ conversations t /\ c_user_id c = user /\ readable c) -> cache_ok cache ->
  answers t (build_conversation_responses user l key cache) (entry <$> l).
Proof.
  revert cache. induction l as [|c l IH]; intros cache Hl Hcache; [apply answers_ok|].
  destruct (Hl c ltac:(set_solver)) as (? & ? & ?). destruct (answers_build c cache) as (cache' & Hc' & Hb); [done..|].
  eapply answers_bind; [exact Hb|]. cbn [fst snd]. eapply answers_bind; [apply IH; [set_solver|done]|apply answers_ok].
Qed.

Lemma matched_rows c : c ∈ matched -> c ∈ conversations t /\ c_user_id c = user.
Proof. intros [Hl Hc]%Db.elem_of_matching. split; [done|]. unfold listed, conversation_of in Hl. by destruct (bool_decide_reflect (c_user_id c = user)). Qed.
Lemma matched_keys : NoDup (keys c_last_activity_at c_id matched).
Proof.
  apply (NoDup_fmap_1 snd). unfold keys. rewrite <- list_fmap_compose. eapply sublist_NoDup; [apply (wf_conversation_ids _ _ Hw)|].
  apply sublist_fmap, sublist_filter.
Qed.
Lemma cursor_row c : c ∈ matched -> first (conversation_by_uuid (c_uuid c) user) (conversations t) = Some c.
Proof.
  intros [Hc Hu]%matched_rows. destruct (first _ _) as [c'|] eqn:Hf.
  - apply Db.first_Some in Hf as [Hc' Hin]. unfold conversation_by_uuid in Hc'. apply andb_true_iff in Hc' as [Hid%bool_decide_eq_true _].
    f_equal. by eapply (Db.NoDup_fmap_same c_uuid); [apply Hw|..].
  - apply fmap_None, list_find_None in Hf. rewrite Forall_forall in Hf. destruct (Hf c Hc).
    unfold conversation_by_uuid. by rewrite andb_true_iff, !bool_decide_eq_true.
Qed.

Definition route (after : option Uuid) := list_conversations user (Ok key) (at_cursor after).
Abbreviation all := (ordered c_last_activity_at c_id (lc_order params) matched).
Lemma route_serves after cursor rest : filter_of -> (forall c, c ∈ matched -> readable c) ->
  answers t (match after with
     | Some after_uuid => diesel (select (fun t =>
         (fun c => (c_last_activity_at c, c_id c)) <$> first (conversation_by_uuid after_uuid user) (conversations t)))
     | None => st_ok None
     end) cursor ->
  page_query c_last_activity_at c_id (lc_order params) (page_limit (lc_limit params) + 1) cursor matched =
    take (Z.to_nat (page_limit (lc_limit params) + 1)) rest ->
  (forall c, c ∈ rest -> c ∈ matched) ->
  serves route c_uuid entry (Z.to_nat (page_limit (lc_limit params))) (steady t) after rest.
Proof.
  intros (Hv & Hf & Hsome) Hread Hcursor Hquery Hrest. pose proof (page_limit_bounds (lc_limit params)).
  unfold serves. change (answers t (route after) (page_of c_uuid entry (Z.to_nat (page_limit (lc_limit params))) rest)).
  unfold route, list_conversations. eapply answers_bind.
  { unfold resolve_conversation_project_filter. eapply answers_bind; [by apply answers_lift|].
    instantiate (1 := filter). rewrite Hf. cbn [at_cursor lc_unassigned_project lc_project_id].
    case_decide; [apply answers_ok|]. destruct (lc_project_id params) as [uuid|] eqn:Hid; [|apply answers_ok].
    destruct (Hsome ltac:(done) uuid eq_refl) as [p Hp]. rewrite Hp. cbn. eapply answers_bind; [|apply answers_ok].
    by apply answers_map_err, answers_method, answers_map_err, answers_select_first. }
  eapply answers_bind.
  { apply answers_map_err, answers_method. eapply answers_bind; [exact Hcursor|]. apply answers_map_err, answers_select. }
  cbn [at_cursor lc_limit lc_order lc_pinned]. fold matched. rewrite Hquery, split_page_take by lia.
  eapply answers_bind; [by apply answers_lift|]. eapply answers_bind; [apply answers_builds; [|done]|].
  { intros c Hc. assert (c ∈ matched) as Hm by (apply Hrest; by eapply sublist_subseteq; [apply sublist_take|]).
    destruct (matched_rows c Hm). auto. }
  unfold page_of, page, get_cursor_ids. apply answers_ok.
Qed.
End conversations.

(** C6. On a database that does not fail, a client that asks for the conversations
    with any limit, order, project filter and pin filter, each time after the
    [last_id] it got, stops after [ceil(count / limit)] requests; the pages are full
    but the last one, and together they are the matching conversations of the user,
    each once, in the order asked for, decrypted. *)
Theorem conversation_pages_cover `{Crypto, SerdeJson} n t user key params filter fuel :
  wf n t -> filter_of t user params filter ->
  (forall c, c ∈ matched t user params filter -> readable key c) ->
  length (matched t user params filter) < fuel ->
  let limit := Z.to_nat (page_limit (lc_limit params)) in
  let all := ordered c_last_activity_at c_id (lc_order params) (matched t user params filter) in
  exists pages s', follow (route user key params) fuel None (MkStore t n []) = (Ok (Some pages), s') /\ tables s' = t /\
    concat (data <$> pages) = entry t user key <$> all /\
    Forall (fun p => length (data p) = limit) (removelast pages) /\
    length pages = 1 + (length all - 1) / limit /\
    all ≡ₚ matched t user params filter /\ NoDup (c_uuid <$> all).
Proof.
  intros Hw Hf Hread Hfuel limit all. pose proof (page_limit_bounds (lc_limit params)).
  assert (all ≡ₚ matched t user params filter) as Hperm by apply ordered_perm.
  pose proof (matched_keys n t user params filter Hw) as Hkeys.
  destruct (follow_serves (route user key params) c_uuid (entry t user key) limit (steady t) ltac:(unfold limit; lia) all)
    with (fuel := fuel) (l1 := @nil Conversation) (rest := all) (after := @None Uuid) (s := MkStore t n (@nil bool)) as (pages & s' & Hrun & [Ht _] & Hd & Hp & Hl).
  - intros l1 c l2 Hall. assert (c ∈ matched t user params filter) as Hc by (rewrite <- Hperm, Hall; set_solver).
    apply (route_serves n t user key params filter Hw _ (Some (c_last_activity_at c, c_id c))); [done|done|..].
    + assert (Some (c_last_activity_at c, c_id c) = (fun c => (c_last_activity_at c, c_id c)) <$>
        first (conversation_by_uuid (c_uuid c) user) (conversations t)) as Hrow by (by rewrite (cursor_row n t user params filter Hw c Hc)).
      rewrite Hrow. apply answers_map_err, (answers_select t (fun t => _ <$> first _ (conversations t))).
    + by apply (page_query_after _ _ _ _ _ l1).
    + intros x Hx. rewrite <- Hperm, Hall. set_solver.
  - done.
  - apply (route_serves n t user key params filter Hw _ None); [done|done|apply answers_ok|done|]. intros x Hx. by rewrite <- Hperm.
  - by rewrite Hperm.
  - done.
  - exists pages, s'. split_and!; try done. rewrite Hperm. eapply sublist_NoDup; [apply (wf_conversation_uuids _ _ Hw)|].
    apply sublist_fmap, sublist_filter.
Qed.

(** ** Moving a batch of conversations *)
Lemma length_remove_dups {A} `{EqDecision A} (l : list A) : length (remove_dups l) = length l -> NoDup l.
Proof.
  assert (forall l : list A, length (remove_dups l) <= length l) as Hle.
  { intros l'. induction l' as [|x l' IH]; cbn; [done|]. case_decide; cbn; lia. }
  induction l as [|x l IH]; [constructor|]. cbn. specialize (Hle l).
  case_decide; cbn; intros Hl; [lia|]. constructor; [done|]. apply IH. lia.
Qed.
(** As many rows as distinct names: every name has a row. *)
Lemma every_name {A} (uuid : A -> Uuid) (rows : list A) (ids : list Uuid) : NoDup (uuid <$> rows) -> (forall x, x ∈ rows -> uuid x ∈ ids) ->
  length rows = length ids -> forall id, id ∈ ids -> exists x, x ∈ rows /\ uuid x = id.
Proof.
  intros Hn Hin Hl id Hid. assert (uuid <$> rows ≡ₚ ids) as Hp.
  { apply submseteq_length_Permutation; [|by rewrite length_fmap, Hl]. apply NoDup_submseteq; [done|].
    by intros y (x & -> & Hx)%list_elem_of_fmap; apply Hin. }
  rewrite <- Hp in Hid. apply list_elem_of_fmap in Hid as (x & -> & Hx). eauto.
Qed.

Definition moved (now : Z) (ids : list Uuid) (user : Uuid) (target : option Z) (t : Tables) : Tables :=
  set_conversations (update_rows (conversation_among ids user) (with_changes now None (Some target) None) (conversations t)) t.
Lemma batch_update_inv now ids user target n t s r s' : wf n t -> tables s = t ->
  batch_update_project now ids user target s = (r, s') ->
  (r = Ok tt /\ tables s' = moved now ids user target t /\ NoDup ids /\
   (forall id, id ∈ ids -> exists c, c ∈ conversations t /\ c_uuid c = id /\ c_user_id c = user) /\
   (exists source, forall c, c ∈ conversations t -> c_uuid c ∈ ids -> c_user_id c = user -> c_project_id c = source)) \/
  (Db.not_ok r /\ tables s' = t).
Proof.
  intros Hw Ht. unfold batch_update_project. case_decide; [intros [= <- <-]; right; by split; [intros ?|]|].
  case_decide as Hdup; [intros [= <- <-]; right; by split; [intros ?|]|]. apply length_remove_dups in Hdup.
  intros [(a & s1 & s2 & -> & Hs1 & Hrun & Hs2)|[? ?]]%sql_transaction_inv; [left|right; split; [done|congruence]].
  apply ST_bind_Ok in Hrun as (u1 & s3 & Htarget & Hrun). 
  assert (tables s3 = t) as Hs3.
  { rewrite <- Ht, <- Hs1. revert Htarget. destruct target; [|by intros [= <- <-]]. apply sql_reads_bind; [apply sql_reads_map_err, sql_reads_select|].
    intros p. case_decide; apply sql_reads_lift. }
  apply ST_bind_Ok in Hrun as (existing & s4 & [-> Hs4]%Db.st_map_err_Ok%sql_select_Ok & Hrun).
  case_decide as Hlen; [done|].
  apply ST_bind_Ok in Hrun as (source & s5 & [= Hsource <-] & Hrun). destruct (existsb _ _) eqn:Hsame; [done|].
  apply ST_bind_Ok in Hrun as (updated & s6 & Hup%Db.st_map_err_Ok%sql_statement_Ok & Hrun).
  rewrite Hs4, Hs3 in Hup. rewrite Hs3 in *. destruct (exists_project t target); [|done]. injection Hup as <- Hs6.
  case_decide; [done|]. injection Hrun as <- <-. split_and!; [done|by rewrite Hs2|done|..].
  - intros id Hid. destruct (every_name c_uuid (matching_rows (conversation_among ids user) (conversations t)) ids) with (id := id) as (c & Hc & Huuid).
    + eapply sublist_NoDup; [apply (wf_conversation_uuids _ _ Hw)|]. apply sublist_fmap, sublist_filter.
    + intros c [Hc _]%Db.elem_of_matching. unfold conversation_among in Hc. by apply andb_true_iff in Hc as [_ Hc%bool_decide_eq_true].
    + done.
    + done.
    + exists c. apply Db.elem_of_matching in Hc as [Hc Hin]. unfold conversation_among, conversation_of in Hc.
      by apply andb_true_iff in Hc as [Hc%bool_decide_eq_true _].
  - exists source. intros c Hc Hid Hu. apply not_true_iff_false in Hsame.
    destruct (decide (c_project_id c = source)) as [|Hne]; [done|]. destruct Hsame. apply Db.existsb_elem. exists c. split.
    + apply Db.elem_of_matching. split; [|done]. unfold conversation_among, conversation_of. by rewrite andb_true_iff, !bool_decide_eq_true.
    + by rewrite bool_decide_false.
Qed.

(** C10. A batch that moves conversations to a project answers success only when
    it named one to twenty distinct conversations of the user, all in the same
    project before, and then exactly those are in the target, a project of the user or
    none; any other answer, whatever failed, changed nothing. *)
Theorem batch_moves_all_or_none now user ids project n faults t : wf n t ->
  let '(r, s') := batch_update_conversation_project now user ids project (MkStore t n faults) in
  match r with
  | Ok _ => exists target, tables s' = moved now ids user target t /\
      match project with
      | Value_ uuid => exists p, p ∈ projects t /\ p_uuid p = uuid /\ p_user_id p = user /\ target = Some (p_id p)
      | _ => target = None
      end /\
      NoDup ids /\ 1 <= length ids <= 20 /\
      (forall id, id ∈ ids -> exists c, c ∈ conversations t /\ c_uuid c = id /\ c_user_id c = user) /\
      (exists source, forall c, c ∈ conversations t -> c_uuid c ∈ ids -> c_user_id c = user -> c_project_id c = source)
  | _ => tables s' = t
  end.
Proof.
  intros Hw. destruct (batch_update_conversation_project now user ids project (MkStore t n faults)) as [r s'] eqn:Hrun.
  unfold batch_update_conversation_project in Hrun.
  destruct (batch_size_ok ids) eqn:Hsize; [|by injection Hrun as <- <-].
  assert (1 <= length ids <= 20) as Hlen.
  { unfold batch_size_ok, MAX_CONVERSATION_BATCH_SIZE in Hsize. apply andb_true_iff in Hsize as [Hne Hle%bool_decide_eq_true].
    apply negb_true_iff, bool_decide_eq_false in Hne. destruct ids; [done|]. cbn in *. lia. }
  assert (forall uuid, reads (find_project user uuid)) as Hfind.
  { intros uuid. apply sql_reads_map_err, sql_reads_bind; [apply sql_reads_connection|]. intros []. apply sql_reads_map_err, sql_reads_map_err, reads_select_first. }
  set (resolve := match project with Missing => _ | _ => _ end) in Hrun.
  assert (reads resolve) as Hread.
  { unfold resolve. destruct project; [apply sql_reads_lift..|]. apply sql_reads_bind; [apply Hfind|]. intros p. apply sql_reads_lift. }
  apply Db.ST_bind_inv in Hrun as [(target & s1 & H1 & Hrun)|(r0 & H1 & _ & Hnot)].
  2: { apply Hread in H1. destruct r as [b| |]; [by destruct (Hnot b)|done..]. }
  pose proof (Hread _ _ _ H1) as Hs1. apply Db.ST_bind_inv in Hrun as [([] & s2 & H2 & [= <- <-])|(r0 & H2 & Hnot0 & Hnot)].
  - apply Db.st_map_err_Ok in H2. apply ST_bind_Ok in H2 as ([] & s3 & Hs3%sql_reads_connection & H2%Db.st_map_err_Ok).
    destruct (batch_update_inv _ _ _ _ n t _ _ _ Hw (eq_trans Hs3 Hs1) H2) as [(_ & Hs2 & Hdup & Hall & Hsrc)|[Hn _]]; [|by destruct (Hn tt)].
    exists target. split_and!; try done; try lia. unfold resolve in H1. destruct project as [| |uuid]; [done|by injection H1 as <- <-|].
    apply ST_bind_Ok in H1 as (p & s4 & H1 & [= <- <-]). apply Db.st_map_err_Ok, ST_bind_Ok in H1 as ([] & s5 & Hs5%sql_reads_connection & H1).
    apply Db.st_map_err_Ok, Db.st_map_err_Ok, select_first_Ok in H1 as [[Hp Hin]%Db.first_Some _]. rewrite Hs5 in Hin.
    unfold project_by_uuid in Hp. apply andb_true_iff in Hp as [Hid%bool_decide_eq_true Hu%bool_decide_eq_true]. eauto.
  - apply Db.st_map_err_inv in H2 as (r1 & H2 & ->). rewrite Db.map_err_not_ok in Hnot0.
    assert (tables s' = t) as Hs'; [|destruct r as [b| |]; [by destruct (Hnot b)|done..]].
    apply Db.ST_bind_inv in H2 as [([] & s3 & Hs3%sql_reads_connection & H2)|(r2 & Hs3%sql_reads_connection & _)]; [|by rewrite Hs3].
    apply Db.st_map_err_inv in H2 as (r3 & H2 & ->). rewrite Db.map_err_not_ok in Hnot0.
    destruct (batch_update_inv _ _ _ _ n t _ _ _ Hw (eq_trans Hs3 Hs1) H2) as [(-> & _)|[_ ?]]; [by destruct (Hnot0 tt)|done].
Qed.
#[local] Existing Instances ToyCrypto.toy ToyCrypto.toy_laws.
#[local] Instance demo_serde : SerdeJson := {| from_str _ := None; to_string _ := "{}" |}.
Definition demo_key : Encrypt.SecretKey := Encrypt.MkSecretKey (replicate 32 Byte.x07).
Definition demo_user : Uuid := [Byte.x0a].
(** Two of them with the same activity; a third of another user. *)
Definition demo_listed : list Conversation :=
  [MkConversation 1 [Byte.x01] demo_user None 0 0 None false 7; MkConversation 2 [Byte.x02] demo_user None 0 0 None false 7;
   MkConversation 3 [Byte.x03] [Byte.x0b] None 0 0 None false 8; MkConversation 4 [Byte.x04] demo_user None 0 0 None false 9].
Definition demo_list : Tables := only_conversations [demo_user; [Byte.x0b]] demo_listed.
Definition demo_params : ListConversationsParams := MkListConversations 2 None "desc" None None None.
Lemma demo_list_wf : wf 9 demo_list.
Proof.
  apply only_conversations_wf; [apply (bool_decide_unpack _); vm_compute; exact I..|].
  intros c Hc. repeat (apply elem_of_cons in Hc as [->|Hc]; [split; [cbn; lia|done]|]). by apply elem_of_nil in Hc.
Qed.
Lemma conversation_pages_cover_witness : exists pages s',
  follow (route demo_user demo_key demo_params) 4 None (MkStore demo_list 9 []) = (Ok (Some pages), s') /\
  (fun p => cr_id <$> data p) <$> pages = [[[Byte.x04]; [Byte.x02]]; [[Byte.x01]]] /\
  concat (data <$> pages) = entry demo_list demo_user demo_key <$>
    ordered c_last_activity_at c_id "desc" (matched demo_list demo_user demo_params Any).
Proof.
  destruct (conversation_pages_cover 9 demo_list demo_user demo_key demo_params Any 4 demo_list_wf) as (pages & s' & Hrun & _ & Hdata & _).
  - split_and!; [reflexivity|reflexivity|by intros].
  - intros c Hc. exists None.
    cbn in Hc. repeat (apply elem_of_cons in Hc as [->|Hc]; [reflexivity|]). by apply elem_of_nil in Hc.
  - vm_compute. lia.
  - exists pages, s'. split; [exact Hrun|]. split; [|exact Hdata].
    assert (fst (follow (route demo_user demo_key demo_params) 4 None (MkStore demo_list 9 [])) = Ok (Some pages)) as Hp by by rewrite Hrun.
    vm_compute in Hp. injection Hp as <-. reflexivity.
Defined.
Lemma batch_moves_all_or_none_witness :
  let '(r, s') := batch_update_conversation_project 11 demo_user [[Byte.x01]; [Byte.x04]] Null (MkStore demo_list 9 [false; false; false]) in
  is_ok r = true /\ tables s' = moved 11 [[Byte.x01]; [Byte.x04]] demo_user None demo_list.
Proof.
  pose proof (batch_moves_all_or_none 11 demo_user [[Byte.x01]; [Byte.x04]] Null 9 [false; false; false] demo_list demo_list_wf) as Hb.
  assert (is_ok (fst (batch_update_conversation_project 11 demo_user [[Byte.x01]; [Byte.x04]] Null (MkStore demo_list 9 [false; false; false]))) = true)
    as Hok by (vm_compute; reflexivity).
  destruct (batch_update_conversation_project _ _ _ _ _) as [r s']. cbn in Hok. destruct r; [|done..].
  destruct Hb as (target & Ht & -> & _). by split.
Defined.
End Pages.
