(* ===== verification/Defaults.v ===== *)
(** * The default instruction

    What the instruction routes of [ConversationRoutes] do to the instruction a
    user's conversations start with: it is a register that exactly the requests
    that say so write. *)

From S2P Require Import Prelude Text Json Crypto Api Encrypt Conversions Database Statements Rows Pagination Responses ClientStream Conversations ConversationRoutes Isolation.

Module Defaults.
Import Sql Conversations ConversationRoutes Isolation.

(** What [get_default_user_instruction] finds. *)
Definition default_uuid (user : Uuid) (t : Tables) : option Uuid :=
  i_uuid <$> first (instruction_default user) (instructions t).

(** The default after a request that succeeded; [new] names a created one. *)
Definition next_default (new : Uuid) (r : Request) (d : option Uuid) : option Uuid :=
  match r with
  | CreateInstruction body => if ci_is_default body then Some new else d
  | UpdateInstruction id body =>
      match ui_is_default body with
      | Some true => Some id
      | Some false => if decide (d = Some id) then None else d
      | None => d
      end
  | SetDefaultInstruction id => Some id
  | DeleteInstruction id => if decide (d = Some id) then None else d
  | _ => d
  end.
Definition about_instructions (r : Request) : bool :=
  match r with
  | CreateInstruction _ | GetInstruction _ | UpdateInstruction _ _ | DeleteInstruction _ | ListInstructions _
  | SetDefaultInstruction _ => true
  | _ => false
  end.

Section default.
Context (user : Uuid).
Definition is_default (l : list UserInstruction) (x : Uuid) : Prop :=
  exists i, i ∈ l /\ instruction_default user i = true /\ i_uuid i = x.

Lemma instruction_default_true i :
  instruction_default user i = true <-> i_user_id i = user /\ i_project_id i = None /\ i_is_default i = true.
Proof. unfold instruction_default, instruction_global. rewrite !andb_true_iff, !bool_decide_eq_true. tauto. Qed.
Lemma instruction_by_id_true id i :
  instruction_by_id id user i = true <-> i_id i = id /\ i_user_id i = user /\ i_project_id i = None.
Proof. unfold instruction_by_id, instruction_global. rewrite !andb_true_iff, !bool_decide_eq_true. tauto. Qed.
Lemma instruction_by_uuid_true id i :
  instruction_by_uuid id user i = true <-> i_uuid i = id /\ i_user_id i = user /\ i_project_id i = None.
Proof. unfold instruction_by_uuid, instruction_global. rewrite !andb_true_iff, !bool_decide_eq_true. tauto. Qed.

(** A user has one default at most. *)
Lemma one_default n t i j : wf n t -> i ∈ instructions t -> j ∈ instructions t ->
  instruction_default user i = true -> instruction_default user j = true -> i = j.
Proof.
  intros Hw Hi Hj (Hui & _ & Hdi)%instruction_default_true (Huj & _ & Hdj)%instruction_default_true.
  pose proof (wf_one_default _ _ Hw user) as Hone.
  assert (forall k, k ∈ instructions t -> i_user_id k = user -> i_is_default k = true ->
    k ∈ matching_rows i_is_default (own i_user_id user (instructions t))) as Hin.
  { intros k Hk Hu Hd. apply Db.elem_of_matching. split; [done|]. by apply elem_of_own. }
  pose proof (Hin i Hi Hui Hdi) as Hi'. pose proof (Hin j Hj Huj Hdj) as Hj'.
  destruct (matching_rows _ _) as [|x [|y l]]; cbn in Hone; [by apply elem_of_nil in Hi'| |lia].
  apply list_elem_of_singleton in Hi', Hj'. congruence.
Qed.
Lemma default_uuid_Some n t x : wf n t -> default_uuid user t = Some x <-> is_default (instructions t) x.
Proof.
  intros Hw. unfold default_uuid, is_default. split.
  - intros (i & [Hd Hi]%Db.first_Some & ->)%fmap_Some. eauto.
  - intros (i & Hi & Hd & <-). destruct (first _ _) as [j|] eqn:Hf.
    + apply Db.first_Some in Hf as [Hdj Hj]. cbn. f_equal. f_equal. by eapply one_default.
    + apply fmap_None, list_find_None in Hf. rewrite Forall_forall in Hf. by destruct (Hf i Hi).
Qed.
Lemma default_uuid_eq n t d : wf n t -> (forall x, is_default (instructions t) x <-> d = Some x) -> default_uuid user t = d.
Proof.
  intros Hw Hd. destruct d as [x|].
  - apply (default_uuid_Some n); [done|]. by apply Hd.
  - destruct (default_uuid user t) as [x|] eqn:Hx; [|done]. apply (default_uuid_Some n), Hd in Hx; done.
Qed.

(** ** What the writes do to the default *)
Lemma same_instruction n t i j : wf n t -> i ∈ instructions t -> j ∈ instructions t -> i_id i = i_id j -> i = j.
Proof. intros Hw. apply (Db.NoDup_fmap_same i_id), Hw. Qed.
Lemma same_uuid n t i j : wf n t -> i ∈ instructions t -> j ∈ instructions t -> i_uuid i = i_uuid j -> i = j.
Proof. intros Hw. apply (Db.NoDup_fmap_same i_uuid), Hw. Qed.

(** The row that is made the default. *)
Lemma default_made n t (p : UserInstruction -> bool) now f i x : wf n t -> i ∈ instructions t -> instruction_by_id (i_id i) user i = true ->
  keeps_instruction f -> (forall j, i_is_default (f j) = true) ->
  (forall j, j ∈ instructions t -> instruction_default user j = true -> i_id j <> i_id i -> p j = true) ->
  let l := update_rows p (with_default now false) (instructions t) in
  is_default (update_rows (instruction_by_id (i_id i) user) f l) x <-> i_uuid i = x.
Proof.
  intros Hw Hi Hid Hf Hd Hp l. split.
  - intros (k & (j & Hj & ->)%Db.elem_of_updated & Hdef & <-). apply Db.elem_of_updated in Hj as (j0 & Hj0 & ->).
    set (j := if p j0 then with_default now false j0 else j0) in *.
    assert (i_id j = i_id j0 /\ i_uuid j = i_uuid j0) as [Hjid Hjuuid] by (unfold j; by destruct (p j0)).
    destruct (instruction_by_id (i_id i) user j) eqn:Hby.
    + apply instruction_by_id_true in Hby as [Hji _]. destruct (Hf j) as (_ & -> & _). rewrite Hjuuid.
      f_equal. eapply same_instruction; [done..|congruence].
    + destruct (p j0) eqn:Hpj; unfold j in *; [apply instruction_default_true in Hdef as (_ & _ & Hdef); done|].
      destruct (decide (i_id j0 = i_id i)) as [He|Hne]; [|by rewrite Hp in Hpj].
      assert (j0 = i) as -> by by eapply same_instruction. congruence.
  - intros <-. exists (f (if p i then with_default now false i else i)). split_and!.
    + apply Db.elem_of_updated. exists (if p i then with_default now false i else i). split; [apply Db.elem_of_updated; eauto|].
      assert (instruction_by_id (i_id i) user (if p i then with_default now false i else i) = true) as ->; [|done].
      by destruct (p i).
    + apply instruction_by_id_true in Hid as (_ & Hu & Hpr). apply instruction_default_true.
      destruct (Hf (if p i then with_default now false i else i)) as (_ & _ & -> & ->). split_and!; [by destruct (p i)..|apply Hd].
    + destruct (Hf (if p i then with_default now false i else i)) as (_ & -> & _). by destruct (p i).
Qed.
(** The row that is no default any more, or is deleted. *)
Lemma default_unmade n t f i x : wf n t -> i ∈ instructions t -> instruction_by_id (i_id i) user i = true ->
  keeps_instruction f -> (forall j, i_is_default (f j) = false) ->
  is_default (update_rows (instruction_by_id (i_id i) user) f (instructions t)) x <-> is_default (instructions t) x /\ x <> i_uuid i.
Proof.
  intros Hw Hi Hid Hf Hd. split.
  - intros (k & (j & Hj & ->)%Db.elem_of_updated & Hdef & <-). destruct (instruction_by_id (i_id i) user j) eqn:Hby.
    + apply instruction_default_true in Hdef as (_ & _ & Hdef). congruence.
    + split; [by exists j|]. intros He. assert (j = i) as -> by by eapply same_uuid. congruence.
  - intros [(j & Hj & Hdef & <-) Hne]. exists j. split_and!; [|done|done]. apply Db.elem_of_updated. exists j. split; [done|].
    destruct (instruction_by_id (i_id i) user j) eqn:Hby; [|done]. apply instruction_by_id_true in Hby as [He _].
    assert (j = i) as -> by by eapply same_instruction. done.
Qed.
Lemma default_deleted n t i x : wf n t -> i ∈ instructions t -> instruction_by_id (i_id i) user i = true ->
  is_default (delete_rows (instruction_by_id (i_id i) user) (instructions t)) x <-> is_default (instructions t) x /\ x <> i_uuid i.
Proof.
  intros Hw Hi Hid. split.
  - intros (j & [Hby Hj]%Db.elem_of_deleted & Hdef & <-). split; [by exists j|]. intros He.
    assert (j = i) as -> by by eapply same_uuid. congruence.
  - intros [(j & Hj & Hdef & <-) Hne]. exists j. split_and!; [|done|done]. apply Db.elem_of_deleted. split; [|done].
    apply not_true_iff_false. intros [He _]%instruction_by_id_true. assert (j = i) as -> by by eapply same_instruction. done.
Qed.
Lemma default_added n t p now row x : wf n t -> i_user_id row = user -> i_project_id row = None ->
  (forall j, j ∈ instructions t -> instruction_default user j = true -> p j = i_is_default row) ->
  is_default (update_rows p (with_default now false) (instructions t) ++ [row]) x <->
  if i_is_default row then i_uuid row = x else is_default (instructions t) x.
Proof.
  intros Hw Hu Hpr Hp. destruct (i_is_default row) eqn:Hd.
  - split.
    + intros (k & [(j & Hj & ->)%Db.elem_of_updated| ->]%elem_of_snoc & Hdef & <-); [|done].
      destruct (p j) eqn:Hpj; [by apply instruction_default_true in Hdef as (_ & _ & ?)|]. by rewrite Hp in Hpj.
    + intros <-. exists row. split_and!; [by apply elem_of_snoc; right|by apply instruction_default_true|done].
  - split.
    + intros (k & [(j & Hj & ->)%Db.elem_of_updated| ->]%elem_of_snoc & Hdef & <-).
      * destruct (p j) eqn:Hpj; [by apply instruction_default_true in Hdef as (_ & _ & ?)|by exists j].
      * apply instruction_default_true in Hdef as (_ & _ & ?). congruence.
    + intros (j & Hj & Hdef & <-). exists j. split_and!; [|done|done]. apply elem_of_snoc. left. apply Db.elem_of_updated. exists j.
      by rewrite Hp.
Qed.
End default.

(** ** Runs *)
Section runs.
Lemma instruction_transaction_inv {A} (body : ST State DieselError A) s r s' :
  instruction_method (transaction (fun e => e) body) s = (r, s') ->
  (exists a s1 s2, r = Ok a /\ tables s1 = tables s /\ body s1 = (Ok a, s2) /\ tables s' = tables s2) \/
  (Db.not_ok r /\ tables s' = tables s).
Proof.
  intros [([] & s1 & _ & Hs1 & Hr)|?]%bind_reads_inv; [|by right|apply sql_reads_connection].
  apply Db.st_map_err_inv in Hr as (r1 & (r2 & Hr & ->)%Db.st_map_err_inv & ->).
  apply sql_transaction_inv in Hr as [(a & s2 & s3 & -> & Hs2 & Hb & Hs3)|[Hn Hs']]; [left|right].
  - exists a, s2, s3. split_and!; [done|congruence|done|done].
  - rewrite !Db.map_err_not_ok. split; [done|congruence].
Qed.
Lemma write_Ok {A} (user : Uuid) (a : A) l t r : write_instructions user a l t = Ok r -> r = (a, set_instructions l t).
Proof. unfold write_instructions. destruct (negb _); [done|]. case_decide; [done|]. by intros [= <-]. Qed.
Lemma instruction_update_Ok user p f s a s' : instruction_update user p f s = (Ok a, s') ->
  tables s' = set_instructions (update_rows p f (instructions (tables s))) (tables s).
Proof. intros Hs%sql_statement_Ok. apply write_Ok in Hs. congruence. Qed.
Lemma instruction_update_one_Ok user p f s a s' : instruction_update_one user p f s = (Ok a, s') ->
  tables s' = set_instructions (update_rows p f (instructions (tables s))) (tables s) /\
  exists i, first p (instructions (tables s)) = Some i /\ a = f i.
Proof.
  intros Hs%sql_statement_Ok. destruct (first p _) as [i|]; cbn in Hs; [|done]. apply write_Ok in Hs. split; [congruence|].
  exists i. split; congruence.
Qed.
Lemma instruction_insert_Ok now n s a s' : instruction_insert now n s = (Ok a, s') ->
  a = MkInstruction (serial s) (ni_uuid n) (ni_user_id n) (ni_name_enc n) (ni_prompt_enc n) (ni_prompt_tokens n)
        (ni_is_default n) now now (ni_project_id n) /\
  tables s' = set_instructions (instructions (tables s) ++ [a]) (tables s).
Proof.
  intros Hs%sql_statement_Ok. cbv beta zeta in Hs. destruct (_ || _); [done|]. destruct (negb _); [done|]. apply write_Ok in Hs.
  injection Hs as Ha Ht. rewrite Ha. done.
Qed.

(** Clearing the other defaults, when the new row is a default. *)
Lemma clear_Ok user (b : bool) p now s a s' :
  (if b then instruction_update user p (with_default now false) else st_ok tt) s = (Ok a, s') ->
  tables s' = set_instructions (update_rows (fun i => b && p i) (with_default now false) (instructions (tables s))) (tables s).
Proof.
  destruct b; [apply instruction_update_Ok|]. intros [= _ <-].
  assert (update_rows (fun i => false && p i) (with_default now false) (instructions (tables s)) = instructions (tables s)) as ->.
  { unfold Db.update_rows. cbn. apply list_fmap_id. }
  by destruct (tables s).
Qed.

Lemma create_inv now n s r s' : create_user_instruction now n s = (r, s') ->
  (exists row, r = Ok row /\ i_uuid row = ni_uuid n /\ i_user_id row = ni_user_id n /\ i_project_id row = ni_project_id n /\
     i_is_default row = ni_is_default n /\
     tables s' = set_instructions (update_rows (fun i => ni_is_default n && instruction_default (ni_user_id n) i)
       (with_default now false) (instructions (tables s)) ++ [row]) (tables s)) \/
  (Db.not_ok r /\ tables s' = tables s).
Proof.
  intros [(a & s1 & s2 & -> & Hs1 & Hb & Hs')|?]%instruction_transaction_inv; [left|by right].
  apply ST_bind_Ok in Hb as ([] & s3 & H3%clear_Ok & [-> H2]%instruction_insert_Ok). eexists.
  split_and!; [done..|]. rewrite Hs', H2, H3, Hs1. done.
Qed.
Lemma update_inv now id user name prompt k b s r s' : update_user_instruction now id user name prompt k b s = (r, s') ->
  (exists row, r = Ok row /\
     tables s' = set_instructions (update_rows (instruction_by_id id user) (with_content now (Some name) prompt k b)
       (update_rows (fun i => b && (instruction_default user i && negb (bool_decide (i_id i = id))))
         (with_default now false) (instructions (tables s)))) (tables s)) \/
  (Db.not_ok r /\ tables s' = tables s).
Proof.
  intros [(a & s1 & s2 & -> & Hs1 & Hb & Hs')|?]%instruction_transaction_inv; [left|by right].
  apply ST_bind_Ok in Hb as ([] & s3 & H3%clear_Ok & [H2 _]%instruction_update_one_Ok). eexists.
  split_and!; [done..|]. rewrite Hs', H2, H3, Hs1. done.
Qed.
Lemma set_default_inv now id user s r s' : set_default_user_instruction now id user s = (r, s') ->
  (exists row, r = Ok row /\
     tables s' = set_instructions (update_rows (instruction_by_id id user) (with_default now true)
       (update_rows (instruction_default user) (with_default now false) (instructions (tables s)))) (tables s)) \/
  (Db.not_ok r /\ tables s' = tables s).
Proof.
  intros [(a & s1 & s2 & -> & Hs1 & Hb & Hs')|?]%instruction_transaction_inv; [left|by right].
  apply ST_bind_Ok in Hb as ([] & s3 & H3%instruction_update_Ok & [H2 _]%instruction_update_one_Ok). eexists.
  split_and!; [done..|]. rewrite Hs', H2, H3, Hs1. done.
Qed.
Lemma delete_inv id user s r s' : delete_user_instruction id user s = (r, s') ->
  (r = Ok tt /\ tables s' = set_instructions (delete_rows (instruction_by_id id user) (instructions (tables s))) (tables s)) \/
  (Db.not_ok r /\ (tables s' = tables s \/
     tables s' = set_instructions (delete_rows (instruction_by_id id user) (instructions (tables s))) (tables s) /\
     matching_rows (instruction_by_id id user) (instructions (tables s)) = [])).
Proof.
  intros [([] & s1 & _ & Hs1 & Hr)|?]%bind_reads_inv; [|naive_solver|apply sql_reads_connection].
  apply Db.ST_bind_inv in Hr as [(rows & s2 & [= Hrows Hs2]%Db.st_map_err_Ok%sql_statement_Ok & Hr)|(r0 & Hr & Hn0 & Hn)].
  - rewrite Hs1 in *. case_decide; injection Hr as <- <-; [right|by left]. split; [by intros ?|]. right. split; [done|].
    apply nil_length_inv. congruence.
  - right. split; [done|]. left. apply Db.st_map_err_inv in Hr as (r1 & Hr & ->). rewrite Db.map_err_not_ok in Hn0.
    rewrite (sql_statement_not_ok _ _ _ _ Hr Hn0). done.
Qed.
End runs.

(** ** Routes *)
Section routes.
Context `{cr : Crypto, sj : SerdeJson, tk : Conversions.Tokenizer, cj : Conversions.ContentJson}.
Context (now : Z) (new : Uuid) (nonce nonce' : bytes) (user : Uuid) (user_key : outcome Api.ApiError Encrypt.SecretKey).
Context (n : Z) (t : Tables) (Hw : wf n t).
#[local] Abbreviation d := (default_uuid user t).

(** The default is [next] after a success, and as before after an error. *)
Definition effect {A} (next : option Uuid) (r : outcome Api.ApiError A) (s' : State) : Prop :=
  (is_ok r = true /\ forall x, is_default user (instructions (tables s')) x <-> next = Some x) \/
  (Db.not_ok r /\ forall x, is_default user (instructions (tables s')) x <-> d = Some x).

Lemma stays x : is_default user (instructions t) x <-> d = Some x.
Proof. symmetry. by apply (default_uuid_Some user n). Qed.
Lemma effect_none {A} next (r : outcome Api.ApiError A) s' : Db.not_ok r -> tables s' = t -> effect next r s'.
Proof. intros Hr Ht. right. split; [done|]. rewrite Ht. apply stays. Qed.
Lemma effect_read {A} (m : ST State Api.ApiError A) s r s' : reads m -> tables s = t -> m s = (r, s') -> effect d r s'.
Proof.
  intros Hm Ht Hr. apply Hm in Hr. destruct r as [a|e|].
  - left. split; [done|]. rewrite Hr, Ht. apply stays.
  - by apply effect_none; [intros ?|congruence].
  - by apply effect_none; [intros ?|congruence].
Qed.
(** The rest of a route after a write that succeeded. *)
Lemma effect_bind_read {A B} next (m : ST State Api.ApiError A) (f : A -> ST State Api.ApiError B) s r s' :
  tables s = t -> reads m -> (x ← m; f x) s = (r, s') ->
  (forall a s1, m s = (Ok a, s1) -> tables s1 = t -> f a s1 = (r, s') -> effect next r s') -> effect next r s'.
Proof.
  intros Ht Hm [(a & s1 & H1 & Hs1 & H2)|[Hn Hs']]%bind_reads_inv Hf; [|by apply effect_none; [|congruence]|done].
  eapply Hf; [done|congruence|done].
Qed.

Lemma reads_load id : reads (load_instruction user user_key id).
Proof.
  apply sql_reads_bind; [|intros i; apply sql_reads_bind; [apply sql_reads_lift|intros ?; apply sql_reads_lift]].
  apply sql_reads_map_err, sql_reads_bind; [apply sql_reads_connection|]. intros []. apply sql_reads_map_err, sql_reads_map_err, reads_select_first.
Qed.
Lemma reads_decrypt_instruction i key : reads (decrypt_instruction i key).
Proof. repeat (apply sql_reads_bind; [|intros ?]); apply sql_reads_lift. Qed.
Lemma load_Ok id s ctx s' : tables s = t -> load_instruction user user_key id s = (Ok ctx, s') ->
  ctx.1 ∈ instructions t /\ i_uuid ctx.1 = id /\ instruction_by_id (i_id ctx.1) user ctx.1 = true.
Proof.
  intros Ht Hr. apply ST_bind_Ok in Hr as (i & s1 & Hi%Db.st_map_err_Ok & Hr).
  apply ST_bind_Ok in Hr as (key & s2 & _ & [= <- _]). cbn.
  apply ST_bind_Ok in Hi as ([] & s3 & Hs3%sql_reads_connection & Hi%Db.st_map_err_Ok%Db.st_map_err_Ok%select_first_Ok).
  destruct Hi as [[(Hu & Hus & Hp)%instruction_by_uuid_true Hin]%Db.first_Some _]. rewrite Hs3, Ht in Hin.
  split_and!; [done|done|]. by apply instruction_by_id_true.
Qed.

Lemma create_effect body s r s' : tables s = t -> create_instruction now new nonce nonce' user user_key body s = (r, s') ->
  effect (next_default new (CreateInstruction body) d) r s'.
Proof.
  intros Ht. unfold create_instruction. do 2 (case_match; [by intros [= <- <-]; apply effect_none|]). intros Hr.
  eapply effect_bind_read in Hr; [exact Hr|done|apply sql_reads_lift|]. clear Hr. intros key s1 _ Hs1 Hr.
  eapply effect_bind_read in Hr; [exact Hr|done|apply sql_reads_lift|]. clear Hr. intros e1 s2 _ Hs2 Hr.
  eapply effect_bind_read in Hr; [exact Hr|done|apply sql_reads_lift|]. clear Hr. intros e2 s3 _ Hs3 Hr.
  apply Db.ST_bind_inv in Hr as [(row & s4 & [(row' & [= ->] & Huuid & Hus & Hp & Hdef & Hs4)|[Hn _]]%Db.st_map_err_Ok%create_inv & [= <- <-])|(r0 & Hr & Hn0 & Hn)].
  - left. split; [done|]. intros x. rewrite Hs4, Hs3. cbn [set_instructions instructions]. cbn in Huuid, Hus, Hp, Hdef |- *.
    rewrite (default_added user n) by (done || (intros j Hj ->; by rewrite andb_true_r)). rewrite Hdef, Huuid.
    destruct (ci_is_default body); [|apply stays]. split; [by intros ->|by intros [= ->]].
  - by destruct (Hn row).
  - apply Db.st_map_err_inv in Hr as (r1 & Hr & ->). rewrite Db.map_err_not_ok in Hn0.
    apply create_inv in Hr as [(row & -> & _)|[_ Hs]]; [by destruct (Hn0 row)|]. apply effect_none; [done|congruence].
Qed.
Lemma update_effect id body s r s' : tables s = t -> update_instruction now nonce nonce' user user_key id body s = (r, s') ->
  effect (next_default new (UpdateInstruction id body) d) r s'.
Proof.
  intros Ht. unfold update_instruction. case_match; [by intros [= <- <-]; apply effect_none|]. intros Hr.
  eapply effect_bind_read in Hr; [exact Hr|done|apply reads_load|]. clear Hr. intros ctx s1 Hload Hs1 Hr.
  destruct (load_Ok _ _ _ _ Ht Hload) as (Hin & Hid & Hby).
  eapply effect_bind_read in Hr; [exact Hr|done|apply reads_decrypt_instruction|]. clear Hr. intros cur s2 _ Hs2 Hr. revert Hr.
  do 2 (case_match; [by intros [= <- <-]; apply effect_none|]). intros Hr.
  eapply effect_bind_read in Hr; [exact Hr|done|apply sql_reads_lift|]. clear Hr. intros e1 s3 _ Hs3 Hr.
  eapply effect_bind_read in Hr; [exact Hr|done|apply sql_reads_lift|]. clear Hr. intros e2 s4 _ Hs4 Hr.
  apply Db.ST_bind_inv in Hr as [(row & s5 & [(row' & [= ->] & Hs5)|[Hn _]]%Db.st_map_err_Ok%update_inv & [= <- <-])|(r0 & Hr & Hn0 & Hn)].
  - left. split; [done|]. intros x. rewrite Hs5, Hs4. cbn [set_instructions instructions].
    destruct (default (i_is_default ctx.1) (ui_is_default body)) eqn:Hb.
    + rewrite (default_made user n); [|done|done|done|apply keeps_with_content|done|].
      2: { intros j _ Hj Hne. cbn. by rewrite Hj, bool_decide_false. }
      rewrite Hid.
      assert (next_default new (UpdateInstruction id body) d = Some id) as ->; [|split; [by intros ->|by intros [= ->]]].
      cbn. destruct (ui_is_default body) as [[]|]; cbn in Hb; [done|done|]. apply stays. exists ctx.1. split_and!; [done| |done].
      apply instruction_by_id_true in Hby as (_ & ? & ?). by apply instruction_default_true.
    + assert (update_rows (fun i => false && (instruction_default user i && negb (bool_decide (i_id i = i_id ctx.1))))
        (with_default now false) (instructions t) = instructions t) as -> by (unfold Db.update_rows; cbn; apply list_fmap_id).
      rewrite (default_unmade user n), stays by done. rewrite Hid. cbn.
      destruct (ui_is_default body) as [[]|]; cbn in Hb; [done|case_decide as Hd; rewrite ?Hd; naive_solver|].
      split; [naive_solver|]. intros Hd. split; [done|]. intros ->. apply stays in Hd as (j & Hj & Hdj & Hjid).
      assert (j = ctx.1) as -> by (eapply same_uuid; [done..|congruence]). apply instruction_default_true in Hdj as (_ & _ & Hdj). congruence.
  - by destruct (Hn row).
  - apply Db.st_map_err_inv in Hr as (r1 & Hr & ->). rewrite Db.map_err_not_ok in Hn0.
    apply update_inv in Hr as [(row & -> & _)|[_ Hs]]; [by destruct (Hn0 row)|]. apply effect_none; [done|congruence].
Qed.
Lemma delete_default_effect id s r s' : tables s = t -> delete_instruction user user_key id s = (r, s') ->
  effect (next_default new (DeleteInstruction id) d) r s'.
Proof.
  intros Ht Hr. eapply effect_bind_read in Hr; [exact Hr|done|apply reads_load|]. clear Hr. intros ctx s1 Hload Hs1 Hr.
  destruct (load_Ok _ _ _ _ Ht Hload) as (Hin & Hid & Hby).
  apply Db.ST_bind_inv in Hr as [([] & s2 & [[_ Hs2]|[Hn _]]%Db.st_map_err_Ok%delete_inv & [= <- <-])|(r0 & Hr & Hn0 & Hn)].
  - left. split; [done|]. intros x. rewrite Hs2, Hs1. cbn [set_instructions instructions].
    rewrite (default_deleted user n), stays by done. rewrite Hid. cbn. case_decide as Hd; rewrite ?Hd; naive_solver.
  - by destruct (Hn tt).
  - apply Db.st_map_err_inv in Hr as (r1 & Hr & ->). rewrite Db.map_err_not_ok in Hn0.
    apply delete_inv in Hr as [[-> _]|[_ [Hs|[_ Hnone]]]]; [by destruct (Hn0 tt)|apply effect_none; [done|congruence]|].
    rewrite Hs1 in Hnone. assert (ctx.1 ∈ matching_rows (instruction_by_id (i_id ctx.1) user) (instructions t)) as Hc by by apply Db.elem_of_matching.
    rewrite Hnone in Hc. by apply elem_of_nil in Hc.
Qed.

(** [set_default_instruction] decrypts its answer after the write: an error
    there leaves the new default. *)
Lemma set_default_effect id s r s' : tables s = t -> set_default_instruction now user user_key id s = (r, s') ->
  effect (Some id) r s' \/ (Db.not_ok r /\ forall x, is_default user (instructions (tables s')) x <-> Some id = Some x).
Proof.
  intros Ht [(ctx & s1 & Hload & Hs1 & Hr)|[Hn Hs]]%bind_reads_inv; [|left; by apply effect_none; [|congruence]|apply reads_load].
  rewrite Ht in Hs1. destruct (load_Ok _ _ _ _ Ht Hload) as (Hin & Hid & Hby). destruct (i_is_default ctx.1) eqn:Hdef.
  - left. assert (d = Some id) as <-.
    { apply stays. exists ctx.1. split_and!; [done| |done]. apply instruction_by_id_true in Hby as (_ & ? & ?). by apply instruction_default_true. }
    eapply effect_read; [|exact Hs1|exact Hr]. apply sql_reads_bind; [apply reads_decrypt_instruction|]. intros ?. apply sql_reads_lift.
  - apply Db.ST_bind_inv in Hr as [(row & s2 & [(row' & [= ->] & Hs2)|[Hn _]]%Db.st_map_err_Ok%set_default_inv & Hr)|(r0 & Hr & Hn0 & Hn)].
    + assert (tables s' = tables s2) as Hs'.
      { revert Hr. apply sql_reads_bind; [apply reads_decrypt_instruction|]. intros ?. apply sql_reads_lift. }
      assert (forall x, is_default user (instructions (tables s')) x <-> Some id = Some x) as Hx.
      { intros x. rewrite Hs', Hs2, Hs1. cbn [set_instructions instructions].
        rewrite (default_made user n); [|done|done|done|apply keeps_with_default|done|by intros].
        rewrite Hid. split; [by intros ->|by intros [= ->]]. }
      destruct r as [a|e|]; [left; by left|right; split; [by intros ?|done]..].
    + by destruct (Hn row).
    + left. apply Db.st_map_err_inv in Hr as (r1 & Hr & ->). rewrite Db.map_err_not_ok in Hn0.
      apply set_default_inv in Hr as [(row & -> & _)|[_ Hs]]; [by destruct (Hn0 row)|]. apply effect_none; [done|congruence].
Qed.

Lemma reads_get_list r : match r with GetInstruction _ | ListInstructions _ => True | _ => False end ->
  reads (handle now new nonce nonce' user user_key r).
Proof.
  destruct r; try done; intros _; cbn [handle]; (apply sql_reads_bind; [|intros ?; apply sql_reads_lift]).
  - apply sql_reads_bind; [apply reads_load|]. intros ctx. apply sql_reads_bind; [apply reads_decrypt_instruction|]. intros ?. apply sql_reads_lift.
  - apply sql_reads_bind.
    + apply sql_reads_map_err, sql_reads_bind; [apply sql_reads_connection|]. intros [].
      apply sql_reads_bind; [destruct (l_after params); [apply sql_reads_map_err, sql_reads_select|apply sql_reads_lift]|].
      intros cursor. apply sql_reads_map_err, sql_reads_map_err, sql_reads_select.
    + intros rows. destruct (Pagination.split_page _ rows) as [more l]. apply sql_reads_bind; [apply sql_reads_lift|]. intros key.
      apply sql_reads_bind; [|intros ?; apply sql_reads_lift]. induction l as [|i l IH]; [apply sql_reads_lift|].
      cbn [instruction_items]. apply sql_reads_bind; [apply reads_decrypt_instruction|]. intros c. apply sql_reads_bind; [exact IH|]. intros ?. apply sql_reads_lift.
Qed.
Lemma answer_inv {A} (f : A -> Answer) m s a s' : answer f m s = (a, s') ->
  exists r, m s = (r, s') /\ (is_ok r = is_ok a) /\ (Db.not_ok r <-> Db.not_ok a).
Proof.
  intros [(b & s1 & Hm & [= <- <-])|(r0 & Hm & Hn0 & Hn)]%Db.ST_bind_inv.
  - exists (Ok b). split_and!; [done|done|]. split; intros Hn; [by destruct (Hn b)|by destruct (Hn (f b))].
  - exists r0. split_and!; [done| |done]. destruct r0 as [b| |]; [by destruct (Hn0 b)|..]; (destruct a as [b| |]; [by destruct (Hn b)|done..]).
Qed.
Lemma effect_answer {A B} o (r : outcome Api.ApiError A) (a : outcome Api.ApiError B) s : is_ok r = is_ok a -> (Db.not_ok r <-> Db.not_ok a) ->
  effect o r s <-> effect o a s.
Proof. intros Hok Hnot. unfold effect. by rewrite Hok, Hnot. Qed.
Lemma handle_effect r s a s' : tables s = t -> about_instructions r = true ->
  handle now new nonce nonce' user user_key r s = (a, s') ->
  effect (next_default new r d) a s' \/
  (Db.not_ok a /\ exists id, r = SetDefaultInstruction id /\ forall x, is_default user (instructions (tables s')) x <-> Some id = Some x).
Proof.
  intros Ht Hr Hrun. assert (reads (handle now new nonce nonce' user user_key r) -> next_default new r d = d ->
    effect (next_default new r d) a s') as Hread by (intros Hreads ->; by eapply effect_read).
  destruct r; try done; try (left; by apply Hread; [apply reads_get_list|]); clear Hread;
    cbn [handle] in Hrun; apply answer_inv in Hrun as (r0 & Hrun & Hok & Hnot).
  - left. rewrite <- (effect_answer _ r0) by done. by eapply create_effect.
  - left. rewrite <- (effect_answer _ r0) by done. by eapply update_effect.
  - left. rewrite <- (effect_answer _ r0) by done. by eapply delete_default_effect.
  - apply set_default_effect in Hrun as [?|[? ?]]; [|right|done]; [left; by rewrite <- (effect_answer _ r0)|].
    split; [by apply Hnot|]. eauto.
Qed.
End routes.

(** C11. The default instruction of a user is a register that the instruction
    requests write as [next_default] says: creating or updating an instruction as
    default, and setting the default, make exactly that one the default, un-setting or
    deleting the default leaves none, everything else leaves it; a request that fails
    leaves it too, but for setting the default, which may fail after the write. *)
Theorem default_instruction_register `{Crypto, SerdeJson, Conversions.Tokenizer, Conversions.ContentJson}
    now new nonce nonce' user user_key r n faults t : wf n t -> unused new t -> about_instructions r = true ->
  let '(a, s') := handle now new nonce nonce' user user_key r (MkStore t n faults) in
  let d := default_uuid user t in
  match a with
  | Ok _ => default_uuid user (tables s') = next_default new r d
  | _ => default_uuid user (tables s') = d \/
         exists id, r = SetDefaultInstruction id /\ default_uuid user (tables s') = Some id
  end.
Proof.
  intros Hw Hnew Hr. assert (alike user new n t t) as Hal by by split.
  destruct (handle_done user new now nonce nonce' user_key r n faults t t Hal I) as (a & n' & l' & t' & t2 & Hrun & _ & _ & [Hw' _ _ _] & _).
  rewrite Hrun. cbn [tables].
  apply (handle_effect now new nonce nonce' user user_key n t Hw) in Hrun as [[[Hok Hx]|[Hn Hx]]|(Hn & id & -> & Hx)]; [..|done|done].
  - destruct a; [|done..]. by apply (default_uuid_eq user n').
  - destruct a as [a| |]; [by destruct (Hn a)|..]; left; by apply (default_uuid_eq user n').
  - destruct a as [a| |]; [by destruct (Hn a)|..]; right; exists id; (split; [done|]); by apply (default_uuid_eq user n').
Qed.

(** Two instructions, and a request that makes the second the default. *)
#[local] Existing Instances ToyCrypto.toy ToyCrypto.toy_laws.
#[local] Instance demo_serde : SerdeJson := {| from_str _ := None; to_string _ := "{}" |}.
#[local] Instance demo_tokens : Conversions.Tokenizer := fun _ => 1%Z.
#[local] Instance demo_json : Conversions.ContentJson := Conversions.ToyContent.toy_content.
Definition demo_key : Encrypt.SecretKey := Encrypt.MkSecretKey (replicate 32 Byte.x07).
Definition demo_text : bytes :=
  match Encrypt.encrypt_with_key (replicate 12 Byte.x01) demo_key (as_bytes "a") with Ok b => b | _ => [] end.
Definition demo_instruction (id : Z) (uuid : Uuid) (b : bool) : UserInstruction :=
  MkInstruction id uuid [Byte.x0a] (Some demo_text) demo_text 1 b 0 0 None.
Definition demo_tables : Tables :=
  MkTables [[Byte.x0a]] [] [demo_instruction 1 [Byte.x01] true; demo_instruction 2 [Byte.x02] false] [] (no_chat []).
Lemma default_instruction_register_witness :
  let run := handle 9 [Byte.xff] [] [] [Byte.x0a] (Ok demo_key) (SetDefaultInstruction [Byte.x02]) (MkStore demo_tables 3 []) in
  is_ok run.1 = true /\ default_uuid [Byte.x0a] (tables run.2) = Some [Byte.x02].
Proof.
  intros run. assert (is_ok run.1 = true) as Hok by (vm_compute; reflexivity). split; [exact Hok|].
  assert (wf 3 demo_tables) as Hw.
  { constructor; try (apply (bool_decide_unpack _); vm_compute; exact I); try (intros x Hx; by apply elem_of_nil in Hx);
      try (intros x y Hx; by apply elem_of_nil in Hx); try done.
    - intros i [-> | ->%list_elem_of_singleton]%elem_of_cons; cbn; lia.
    - by intros i [-> | ->%list_elem_of_singleton]%elem_of_cons.
    - intros v. unfold own, owned_by, Db.matching_rows. cbn. repeat case_decide; cbn; repeat case_decide; cbn; (lia || done).
    - by intros i p [-> | ->%list_elem_of_singleton]%elem_of_cons.
    - constructor; cbn; intros x Hx; by apply elem_of_nil in Hx. }
  assert (unused [Byte.xff] demo_tables) as Hn by (repeat split; apply (bool_decide_unpack _); vm_compute; exact I).
  pose proof (default_instruction_register 9 [Byte.xff] [] [] [Byte.x0a] (Ok demo_key) (SetDefaultInstruction [Byte.x02]) 3 [] demo_tables
    Hw Hn eq_refl) as Hd. fold run in Hd. destruct run as [[] s']; cbn in Hok; [exact Hd|done..].
Defined.
End Defaults.
