(* ===== verification/Organizations.v ===== *)
(** * Organizations in the database

    The rows and queries of [src/src/models/orgs.rs], [org_memberships.rs],
    [invite_codes.rs], [org_projects.rs], [org_project_secrets.rs] and
    [project_settings.rs], with the constraints and cascades of the migration that
    creates them, and the [DBConnection] methods of [src/src/db.rs] on them. *)

From S2P Require Import Prelude Text Json Encrypt Database Statements.

Module Organizations.
Import Sql.
Abbreviation Uuid := Encrypt.Uuid.

(** ** Roles *)
Inductive OrgRole := Owner | Admin | Developer | Viewer.
#[export] Instance role_dec : EqDecision OrgRole.
Proof. solve_decision. Defined.
Definition role_as_str (r : OrgRole) : string :=
  match r with Owner => "owner" | Admin => "admin" | Developer => "developer" | Viewer => "viewer" end.
(** [TryFrom<&str>].  Of the characters that lower-case to a letter of these
    names only the ASCII letters occur, so lower-casing ASCII is enough. *)
Definition role_try_from (s : string) : option OrgRole :=
  let s := to_ascii_lowercase s in
  if decide (s = "owner") then Some Owner
  else if decide (s = "admin") then Some Admin
  else if decide (s = "developer") then Some Developer
  else if decide (s = "viewer") then Some Viewer
  else None.
(** [From<String>]: anything else is the lowest privilege. *)
Definition role_from (s : string) : OrgRole := default Viewer (role_try_from s).

(** ** Rows *)
Record PlatformUser := MkPlatformUser {
  u_id : Z; u_uuid : Uuid; u_email : string; u_name : option string; u_password_enc : option bytes;
  u_created_at : Z; u_updated_at : Z }.
Record Org := MkOrg { o_id : Z; o_uuid : Uuid; o_name : string; o_created_at : Z; o_updated_at : Z }.
Record OrgMembership := MkMembership {
  m_id : Z; m_platform_user_id : Uuid; m_org_id : Z; m_role : string; m_created_at : Z; m_updated_at : Z }.
Record NewOrgMembership := MkNewMembership { nm_platform_user_id : Uuid; nm_org_id : Z; nm_role : string }.
(** A membership with the columns of the user it is joined with. *)
Record OrgMembershipWithUser := MkMembershipWithUser { mu_membership : OrgMembership; mu_user_name : option string }.
Record InviteCode := MkInvite {
  v_id : Z; v_code : Uuid; v_org_id : Z; v_email : string; v_role : string; v_used : bool; v_expires_at : Z;
  v_created_at : Z; v_updated_at : Z }.
Record NewInviteCode := MkNewInvite {
  nv_code : Uuid; nv_org_id : Z; nv_email : string; nv_role : string; nv_expires_at : Z }.
Record OrgProject := MkProject {
  p_id : Z; p_uuid : Uuid; p_client_id : Uuid; p_org_id : Z; p_name : string; p_description : option string;
  p_status : string; p_created_at : Z; p_updated_at : Z }.
Record NewOrgProject := MkNewProject {
  np_org_id : Z; np_name : string; np_description : option string; np_status : string }.
Record OrgProjectSecret := MkSecret {
  s_id : Z; s_project_id : Z; s_key_name : string; s_secret_enc : bytes; s_created_at : Z; s_updated_at : Z }.
Record NewOrgProjectSecret := MkNewSecret { ns_project_id : Z; ns_key_name : string; ns_secret_enc : bytes }.
Record ProjectSetting := MkSetting {
  g_id : Z; g_project_id : Z; g_category : string; g_settings : Value; g_created_at : Z; g_updated_at : Z }.
Record NewProjectSetting := MkNewSetting { ng_project_id : Z; ng_category : string; ng_settings : Value }.

Definition new_membership (user : Uuid) (org : Z) (role : OrgRole) : NewOrgMembership :=
  MkNewMembership user org (role_as_str role).
Definition HOUR : Z := 3600 * 10 ^ 6.
Definition new_invite (code : Uuid) (now : Z) (org : Z) (email role : string) (expiry_hours : Z) : NewInviteCode :=
  MkNewInvite code org email role (now + expiry_hours * HOUR)%Z.
Definition new_project (org : Z) (name : string) : NewOrgProject := MkNewProject org name None "active".
Definition with_description (description : string) (n : NewOrgProject) : NewOrgProject :=
  MkNewProject (np_org_id n) (np_name n) (Some description) (np_status n).

(** ** Settings: their serde encoding is a parameter *)
Inductive SettingCategory := Email | OAuth.
Definition category_as_str (c : SettingCategory) : string := match c with Email => "email" | OAuth => "oauth" end.
Record EmailSettings := MkEmailSettings { provider : string; send_from : string; email_verification_url : string }.
Record OAuthProviderSettings := MkProvider { client_id : string; redirect_url : string }.
Record AppleOAuthSettings := MkApple {
  a_client_id : string; a_redirect_url : string; team_id : option string; key_id : option string }.
Record OAuthSettings := MkOAuthSettings {
  google_oauth_enabled : bool; github_oauth_enabled : bool; apple_oauth_enabled : bool;
  google_oauth_settings : option OAuthProviderSettings; github_oauth_settings : option OAuthProviderSettings;
  apple_oauth_settings : option AppleOAuthSettings }.
Definition default_oauth_settings : OAuthSettings := MkOAuthSettings false false false None None None.
Class SettingsJson := {
  email_to_value : EmailSettings -> option Value;
  email_from_value : Value -> option EmailSettings;
  oauth_to_value : OAuthSettings -> option Value;
  oauth_from_value : Value -> option OAuthSettings }.

(** ** Tables *)
Record Tables := MkTables {
  platform_users : list PlatformUser; orgs : list Org; memberships : list OrgMembership; invites : list InviteCode;
  projects : list OrgProject; secrets : list OrgProjectSecret; settings : list ProjectSetting }.
Abbreviation State := (Store Tables).
Definition set_orgs l t := MkTables (platform_users t) l (memberships t) (invites t) (projects t) (secrets t) (settings t).
Definition set_memberships l t := MkTables (platform_users t) (orgs t) l (invites t) (projects t) (secrets t) (settings t).
Definition set_invites l t := MkTables (platform_users t) (orgs t) (memberships t) l (projects t) (secrets t) (settings t).
Definition set_projects l t := MkTables (platform_users t) (orgs t) (memberships t) (invites t) l (secrets t) (settings t).
Definition set_secrets l t := MkTables (platform_users t) (orgs t) (memberships t) (invites t) (projects t) l (settings t).
Definition set_settings l t := MkTables (platform_users t) (orgs t) (memberships t) (invites t) (projects t) (secrets t) l.

(** ** Errors *)
Inductive InviteError := InviteDatabaseError (e : DieselError) | Expired | AlreadyUsed.
Inductive SettingError := SettingDatabaseError (e : DieselError) | InvalidSettings | SerializationError.
Inductive DBError :=
| ConnectionError | QueryError (e : DieselError) | OrgError (e : DieselError) | OrgNotFound
| OrgProjectError (e : DieselError) | OrgProjectNotFound | OrgProjectSecretError (e : DieselError)
| OrgProjectSecretNotFound | InviteCodeError (e : InviteError) | InviteCodeNotFound
| OrgMembershipError (e : DieselError) | OrgMembershipNotFound | ProjectSettingError (e : SettingError).

Definition db_connection : ST State DBError unit := connection ConnectionError.
(** A method: a connection from the pool, then the query; the model's error is
    wrapped. *)
Definition method {A} (wrap : DieselError -> DBError) (m : ST State DieselError A) : ST State DBError A :=
  _ ← db_connection; st_map_err wrap m.
(** The same for a lookup whose missing row is the error [e]. *)
Definition lookup {A} (wrap : DieselError -> DBError) (e : DBError) (f : Tables -> option A) : ST State DBError A :=
  o ← method wrap (select f);
  st_lift (ok_or e o).

Section methods.
(** The time of the database. *)
Context (now : Z).

(** ** Organizations *)
Definition org_by_id (id : Z) (o : Org) : bool := bool_decide (o_id o = id).
Definition org_by_uuid (uuid : Uuid) (o : Org) : bool := bool_decide (o_uuid o = uuid).
Definition get_org_by_id (id : Z) : ST State DBError Org :=
  lookup OrgError OrgNotFound (fun t => first (org_by_id id) (orgs t)).
Definition get_org_by_uuid (uuid : Uuid) : ST State DBError Org :=
  lookup OrgError OrgNotFound (fun t => first (org_by_uuid uuid) (orgs t)).
Definition get_org_by_name (name : string) : ST State DBError (option Org) :=
  method OrgError (select (fun t => first (fun o => bool_decide (o_name o = name)) (orgs t))).
Definition get_all_orgs : ST State DBError (list Org) := method OrgError (select orgs).
(** [uuid] is the database's [uuid_generate_v4()]. *)
Definition org_insert (uuid : Uuid) (name : string) : ST State DieselError Org :=
  statement (fun id t =>
    let row := MkOrg id uuid name now now in
    if existsb (org_by_uuid uuid) (orgs t) then Err Db.UniqueViolation
    else Ok (row, set_orgs (orgs t ++ [row]) t)).
Definition create_org (uuid : Uuid) (name : string) : ST State DBError Org := method OrgError (org_insert uuid name).
Definition update_org (o : Org) : ST State DBError unit :=
  method OrgError (statement (fun _ t => Ok (tt, set_orgs (update_rows (org_by_id (o_id o))
    (fun r => MkOrg (o_id r) (o_uuid r) (o_name o) (o_created_at r) now) (orgs t)) t))).

(** A deleted project takes its secrets and settings with it, a deleted
    organization its memberships, invites and projects. *)
Definition drop_projects (p : OrgProject -> bool) (t : Tables) : Tables :=
  let gone := p_id <$> matching_rows p (projects t) in
  set_settings (delete_rows (fun g => bool_decide (g_project_id g ∈ gone)) (settings t))
    (set_secrets (delete_rows (fun s => bool_decide (s_project_id s ∈ gone)) (secrets t))
      (set_projects (delete_rows p (projects t)) t)).
Definition drop_org (id : Z) (t : Tables) : Tables :=
  drop_projects (fun p => bool_decide (p_org_id p = id))
    (set_invites (delete_rows (fun v => bool_decide (v_org_id v = id)) (invites t))
      (set_memberships (delete_rows (fun m => bool_decide (m_org_id m = id)) (memberships t))
        (set_orgs (delete_rows (org_by_id id) (orgs t)) t))).
Definition delete_org (o : Org) : ST State DBError unit :=
  method OrgError (statement (fun _ t =>
    Ok (tt, if existsb (org_by_id (o_id o)) (orgs t) then drop_org (o_id o) t else t))).

(** ** Memberships *)
Definition member_of (user : Uuid) (org : Z) (m : OrgMembership) : bool :=
  bool_decide (m_platform_user_id m = user) && bool_decide (m_org_id m = org).
Definition membership_by_id (id : Z) (m : OrgMembership) : bool := bool_decide (m_id m = id).
Definition exists_org (id : Z) (t : Tables) : bool := existsb (org_by_id id) (orgs t).
Definition exists_user (user : Uuid) (t : Tables) : bool :=
  existsb (fun u => bool_decide (u_uuid u = user)) (platform_users t).
(** The [CHECK] on the column [role]. *)
Definition role_checked (role : string) : bool := bool_decide (role ∈ ["owner"; "admin"; "developer"; "viewer"]).

Definition membership_insert (n : NewOrgMembership) : ST State DieselError OrgMembership :=
  statement (fun id t =>
    let row := MkMembership id (nm_platform_user_id n) (nm_org_id n) (nm_role n) now now in
    if negb (role_checked (nm_role n)) then Err Db.CheckViolation
    else if existsb (member_of (nm_platform_user_id n) (nm_org_id n)) (memberships t) then Err Db.UniqueViolation
    else if negb (exists_user (nm_platform_user_id n) t && exists_org (nm_org_id n) t) then Err Db.ForeignKeyViolation
    else Ok (row, set_memberships (memberships t ++ [row]) t)).
Definition create_org_membership (n : NewOrgMembership) : ST State DBError OrgMembership :=
  method OrgMembershipError (membership_insert n).
(** [.first] without [optional]: no row is an error of the database. *)
Definition get_org_membership_by_platform_user_and_org (user : Uuid) (org : Z) : ST State DBError OrgMembership :=
  method OrgMembershipError (select_first (fun t => first (member_of user org) (memberships t))).
(** The inner join with the user. *)
Definition with_user (t : Tables) (m : OrgMembership) : option OrgMembershipWithUser :=
  (fun u => MkMembershipWithUser m (u_name u)) <$>
    first (fun u => bool_decide (u_uuid u = m_platform_user_id m)) (platform_users t).
Definition get_org_membership_by_platform_user_and_org_with_user (user : Uuid) (org : Z)
    : ST State DBError OrgMembershipWithUser :=
  method OrgMembershipError (select_first (fun t =>
    head (omap (with_user t) (matching_rows (member_of user org) (memberships t))))).
Definition get_all_org_memberships_for_platform_user (user : Uuid) : ST State DBError (list OrgMembership) :=
  method OrgMembershipError (select (fun t =>
    matching_rows (fun m => bool_decide (m_platform_user_id m = user)) (memberships t))).
Definition of_org (org : Z) (m : OrgMembership) : bool := bool_decide (m_org_id m = org).
Definition get_all_org_memberships_for_org (org : Z) : ST State DBError (list OrgMembership) :=
  method OrgMembershipError (select (fun t => matching_rows (of_org org) (memberships t))).
Definition get_all_org_memberships_with_users_for_org (org : Z) : ST State DBError (list OrgMembershipWithUser) :=
  method OrgMembershipError (select (fun t => omap (with_user t) (matching_rows (of_org org) (memberships t)))).

Definition with_role (role : string) (m : OrgMembership) : OrgMembership :=
  MkMembership (m_id m) (m_platform_user_id m) (m_org_id m) role (m_created_at m) now.
Definition membership_set_role (id : Z) (role : string) : ST State DieselError unit :=
  statement (fun _ t =>
    if existsb (membership_by_id id) (memberships t) && negb (role_checked role) then Err Db.CheckViolation
    else Ok (tt, set_memberships (update_rows (membership_by_id id) (with_role role) (memberships t)) t)).
Definition membership_delete (id : Z) : ST State DieselError unit :=
  statement (fun _ t => Ok (tt, set_memberships (delete_rows (membership_by_id id) (memberships t)) t)).
Definition update_org_membership (m : OrgMembership) : ST State DBError unit :=
  method OrgMembershipError (membership_set_role (m_id m) (m_role m)).
Definition delete_org_membership (m : OrgMembership) : ST State DBError unit :=
  method OrgMembershipError (membership_delete (m_id m)).

Definition owner_of (org : Z) (m : OrgMembership) : bool := of_org org m && bool_decide (m_role m = role_as_str Owner).
(** The owners, locked; the last one may not go. *)
Definition check_owners (org : Z) : ST State DieselError unit :=
  owner_memberships ← select (fun t => matching_rows (owner_of org) (memberships t));
  if decide (length owner_memberships <= 1) then st_err Db.RollbackTransaction else st_ok tt.
(** [membership] is the row as the caller read it before the transaction. *)
Definition update_role_with_owner_check (membership : OrgMembership) (new_role : OrgRole) : ST State DieselError unit :=
  transaction (fun e => e) (
    _ ← (if decide (role_from (m_role membership) = Owner /\ new_role <> Owner)
         then check_owners (m_org_id membership) else st_ok tt);
    membership_set_role (m_id membership) (role_as_str new_role)).
Definition delete_with_owner_check (membership : OrgMembership) : ST State DieselError unit :=
  transaction (fun e => e) (
    _ ← (if decide (role_from (m_role membership) = Owner)
         then check_owners (m_org_id membership) else st_ok tt);
    membership_delete (m_id membership)).
Definition update_membership_role (membership : OrgMembership) (new_role : OrgRole) : ST State DBError unit :=
  method OrgMembershipError (update_role_with_owner_check membership new_role).
Definition delete_membership_with_owner_check (membership : OrgMembership) : ST State DBError unit :=
  method OrgMembershipError (delete_with_owner_check membership).

Definition create_org_with_owner (uuid : Uuid) (name : string) (owner : Uuid) : ST State DBError Org :=
  _ ← db_connection;
  transaction QueryError (
    org ← st_map_err OrgError (org_insert uuid name);
    _ ← st_map_err OrgMembershipError (membership_insert (new_membership owner (o_id org) Owner));
    st_ok org).

(** ** Invites *)
Definition invite_by_id (id : Z) (v : InviteCode) : bool := bool_decide (v_id v = id).
Definition invite_by_code (code : Uuid) (v : InviteCode) : bool := bool_decide (v_code v = code).
Definition of_org_invite (org : Z) (v : InviteCode) : bool := bool_decide (v_org_id v = org).
Abbreviation invite_error := (fun e => InviteCodeError (InviteDatabaseError e)).
Definition invite_insert (n : NewInviteCode) : ST State DieselError InviteCode :=
  statement (fun id t =>
    let row := MkInvite id (nv_code n) (nv_org_id n) (nv_email n) (nv_role n) false (nv_expires_at n) now now in
    if negb (role_checked (nv_role n)) then Err Db.CheckViolation
    else if existsb (invite_by_code (nv_code n)) (invites t) then Err Db.UniqueViolation
    else if negb (exists_org (nv_org_id n) t) then Err Db.ForeignKeyViolation
    else Ok (row, set_invites (invites t ++ [row]) t)).
Definition create_invite_code (n : NewInviteCode) : ST State DBError InviteCode := method invite_error (invite_insert n).
Definition get_invite_code_by_id (id : Z) : ST State DBError InviteCode :=
  lookup invite_error InviteCodeNotFound (fun t => first (invite_by_id id) (invites t)).
Definition get_invite_code_by_code (code : Uuid) : ST State DBError InviteCode :=
  lookup invite_error InviteCodeNotFound (fun t => first (invite_by_code code) (invites t)).
Definition get_invite_code_by_email_and_org (email : string) (org : Z) : ST State DBError (option InviteCode) :=
  method invite_error (select (fun t => first (fun v => bool_decide (v_email v = email) && of_org_invite org v &&
    negb (v_used v) && bool_decide (v_expires_at v > now)%Z) (invites t))).
Definition get_all_invite_codes_for_org (org : Z) : ST State DBError (list InviteCode) :=
  method invite_error (select (fun t => matching_rows (of_org_invite org) (invites t))).
Definition invite_set (email : string) (used : bool) (expires_at : Z) (v : InviteCode) : InviteCode :=
  MkInvite (v_id v) (v_code v) (v_org_id v) email (v_role v) used expires_at (v_created_at v) now.
Definition update_invite_code (v : InviteCode) : ST State DBError unit :=
  method invite_error (statement (fun _ t => Ok (tt, set_invites (update_rows (invite_by_id (v_id v))
    (invite_set (v_email v) (v_used v) (v_expires_at v)) (invites t)) t))).
Definition delete_invite_code (v : InviteCode) : ST State DBError unit :=
  method invite_error (statement (fun _ t => Ok (tt, set_invites (delete_rows (invite_by_id (v_id v)) (invites t)) t))).
(** [clock]: [Utc::now()]. *)
Definition mark_as_used (clock : Z) (v : InviteCode) : ST State InviteError unit :=
  if v_used v then st_err AlreadyUsed
  else if decide (v_expires_at v < clock)%Z then st_err Expired
  else
    let unused r := invite_by_id (v_id v) r && negb (v_used r) in
    rows ← st_map_err InviteDatabaseError (statement (fun _ t => Ok (length (matching_rows unused (invites t)),
      set_invites (update_rows unused (fun r => invite_set (v_email r) true (v_expires_at r) r) (invites t)) t)));
    if decide (rows = 0) then st_err AlreadyUsed else st_ok tt.
Definition mark_invite_code_as_used (clock : Z) (v : InviteCode) : ST State DBError unit :=
  _ ← db_connection; st_map_err InviteCodeError (mark_as_used clock v).
Definition accept_invite_transaction (clock : Z) (v : InviteCode) (n : NewOrgMembership) : ST State DBError OrgMembership :=
  _ ← db_connection;
  transaction QueryError (
    membership ← st_map_err OrgMembershipError (membership_insert n);
    _ ← st_map_err InviteCodeError (mark_as_used clock v);
    st_ok membership).

(** ** Projects *)
Definition project_by_id (id : Z) (p : OrgProject) : bool := bool_decide (p_id p = id).
Definition project_by_uuid (uuid : Uuid) (p : OrgProject) : bool := bool_decide (p_uuid p = uuid).
Definition project_by_client_id (id : Uuid) (p : OrgProject) : bool := bool_decide (p_client_id p = id).
Definition project_of_org (org : Z) (p : OrgProject) : bool := bool_decide (p_org_id p = org).
Definition project_named (name : string) (org : Z) (p : OrgProject) : bool :=
  bool_decide (p_name p = name) && project_of_org org p.
Definition get_org_project_by_id (id : Z) : ST State DBError OrgProject :=
  lookup OrgProjectError OrgProjectNotFound (fun t => first (project_by_id id) (projects t)).
Definition get_org_project_by_uuid (uuid : Uuid) : ST State DBError OrgProject :=
  lookup OrgProjectError OrgProjectNotFound (fun t => first (project_by_uuid uuid) (projects t)).
Definition get_org_project_by_client_id (id : Uuid) : ST State DBError OrgProject :=
  lookup OrgProjectError OrgProjectNotFound (fun t => first (project_by_client_id id) (projects t)).
Definition get_org_project_by_name_and_org (name : string) (org : Z) : ST State DBError (option OrgProject) :=
  method OrgProjectError (select (fun t => first (project_named name org) (projects t))).
Definition get_all_org_projects_for_org (org : Z) : ST State DBError (list OrgProject) :=
  method OrgProjectError (select (fun t => matching_rows (project_of_org org) (projects t))).
Definition get_active_org_projects_for_org (org : Z) : ST State DBError (list OrgProject) :=
  method OrgProjectError (select (fun t =>
    matching_rows (fun p => project_of_org org p && bool_decide (p_status p = "active")) (projects t))).
Definition status_checked (status : string) : bool := bool_decide (status ∈ ["active"; "inactive"; "suspended"]).
(** [uuid] and [client] are [uuid_generate_v4()] of the database. *)
Definition project_insert (uuid client : Uuid) (n : NewOrgProject) : ST State DieselError OrgProject :=
  statement (fun id t =>
    let row := MkProject id uuid client (np_org_id n) (np_name n) (np_description n) (np_status n) now now in
    if negb (status_checked (np_status n)) then Err Db.CheckViolation
    else if existsb (fun p => project_by_uuid uuid p || project_by_client_id client p ||
                              project_named (np_name n) (np_org_id n) p) (projects t) then Err Db.UniqueViolation
    else if negb (exists_org (np_org_id n) t) then Err Db.ForeignKeyViolation
    else Ok (row, set_projects (projects t ++ [row]) t)).
Definition create_org_project (uuid client : Uuid) (n : NewOrgProject) : ST State DBError OrgProject :=
  method OrgProjectError (project_insert uuid client n).
Definition project_set (name : string) (description : option string) (status : string) (p : OrgProject) : OrgProject :=
  MkProject (p_id p) (p_uuid p) (p_client_id p) (p_org_id p) name description status (p_created_at p) now.
(** [UNIQUE(org_id, name)] is checked against the other rows. *)
Definition update_org_project (q : OrgProject) : ST State DBError unit :=
  method OrgProjectError (statement (fun _ t =>
    match first (project_by_id (p_id q)) (projects t) with
    | None => Ok (tt, t)
    | Some p =>
        if negb (status_checked (p_status q)) then Err Db.CheckViolation
        else if existsb (fun r => project_named (p_name q) (p_org_id p) r && negb (project_by_id (p_id q) r)) (projects t)
        then Err Db.UniqueViolation
        else Ok (tt, set_projects (update_rows (project_by_id (p_id q))
               (project_set (p_name q) (p_description q) (p_status q)) (projects t)) t)
    end)).
Definition delete_org_project (q : OrgProject) : ST State DBError unit :=
  method OrgProjectError (statement (fun _ t => Ok (tt, drop_projects (project_by_id (p_id q)) t))).

(** ** Secrets *)
Definition secret_of (key : string) (project : Z) (s : OrgProjectSecret) : bool :=
  bool_decide (s_key_name s = key) && bool_decide (s_project_id s = project).
Definition secret_by_id (id : Z) (s : OrgProjectSecret) : bool := bool_decide (s_id s = id).
Definition exists_project (id : Z) (t : Tables) : bool := existsb (project_by_id id) (projects t).
Definition secret_set (key : string) (secret_enc : bytes) (s : OrgProjectSecret) : OrgProjectSecret :=
  MkSecret (s_id s) (s_project_id s) key secret_enc (s_created_at s) now.
(** [on_conflict do_update]: the row of the key gets the new value. *)
Definition secret_insert (n : NewOrgProjectSecret) : ST State DieselError OrgProjectSecret :=
  statement (fun id t =>
    let row := MkSecret id (ns_project_id n) (ns_key_name n) (ns_secret_enc n) now now in
    match first (secret_of (ns_key_name n) (ns_project_id n)) (secrets t) with
    | Some s => Ok (secret_set (s_key_name s) (ns_secret_enc n) s, set_secrets (update_rows
        (secret_of (ns_key_name n) (ns_project_id n)) (fun s => secret_set (s_key_name s) (ns_secret_enc n) s) (secrets t)) t)
    | None =>
        if negb (exists_project (ns_project_id n) t) then Err Db.ForeignKeyViolation
        else Ok (row, set_secrets (secrets t ++ [row]) t)
    end).
Definition create_org_project_secret (n : NewOrgProjectSecret) : ST State DBError OrgProjectSecret :=
  method OrgProjectSecretError (secret_insert n).
Definition get_org_project_secret_by_id (id : Z) : ST State DBError OrgProjectSecret :=
  lookup OrgProjectSecretError OrgProjectSecretNotFound (fun t => first (secret_by_id id) (secrets t)).
Definition get_org_project_secret_by_key_name_and_project (key : string) (project : Z)
    : ST State DBError (option OrgProjectSecret) :=
  method OrgProjectSecretError (select (fun t => first (secret_of key project) (secrets t))).
Definition get_all_org_project_secrets_for_project (project : Z) : ST State DBError (list OrgProjectSecret) :=
  method OrgProjectSecretError (select (fun t =>
    matching_rows (fun s => bool_decide (s_project_id s = project)) (secrets t))).
Definition update_org_project_secret (s : OrgProjectSecret) : ST State DBError unit :=
  method OrgProjectSecretError (statement (fun _ t =>
    match first (secret_by_id (s_id s)) (secrets t) with
    | None => Ok (tt, t)
    | Some r =>
        if existsb (fun r' => secret_of (s_key_name s) (s_project_id r) r' && negb (secret_by_id (s_id s) r')) (secrets t)
        then Err Db.UniqueViolation
        else Ok (tt, set_secrets (update_rows (secret_by_id (s_id s)) (secret_set (s_key_name s) (s_secret_enc s)) (secrets t)) t)
    end)).
Definition delete_org_project_secret (s : OrgProjectSecret) : ST State DBError unit :=
  method OrgProjectSecretError (statement (fun _ t =>
    Ok (tt, set_secrets (delete_rows (secret_by_id (s_id s)) (secrets t)) t))).

(** ** Settings *)
Definition setting_of (project : Z) (category : string) (g : ProjectSetting) : bool :=
  bool_decide (g_project_id g = project) && bool_decide (g_category g = category).
Abbreviation setting_error := (fun e => ProjectSettingError (SettingDatabaseError e)).
Definition setting_select (project : Z) (c : SettingCategory) : ST State DieselError (option ProjectSetting) :=
  select (fun t => first (setting_of project (category_as_str c)) (settings t)).
Definition setting_insert (n : NewProjectSetting) : ST State DieselError ProjectSetting :=
  statement (fun id t =>
    let row := MkSetting id (ng_project_id n) (ng_category n) (ng_settings n) now now in
    if existsb (setting_of (ng_project_id n) (ng_category n)) (settings t) then Err Db.UniqueViolation
    else if negb (exists_project (ng_project_id n) t) then Err Db.ForeignKeyViolation
    else Ok (row, set_settings (settings t ++ [row]) t)).
Definition with_settings (v : Value) (g : ProjectSetting) : ProjectSetting :=
  MkSetting (g_id g) (g_project_id g) (g_category g) v (g_created_at g) (g_updated_at g).
(** [self.update]: the row gets the category and the settings of [self]; the
    category is the row's own here. *)
Definition setting_update (self : ProjectSetting) : ST State DieselError unit :=
  statement (fun _ t => Ok (tt, set_settings (update_rows (fun g => bool_decide (g_id g = g_id self))
    (fun g => MkSetting (g_id g) (g_project_id g) (g_category self) (g_settings self) (g_created_at g) now) (settings t)) t)).
Definition get_project_settings (project : Z) (c : SettingCategory) : ST State DBError (option ProjectSetting) :=
  method setting_error (setting_select project c).
(** Settings that exist are updated, others inserted. *)
Definition write_settings (project : Z) (c : SettingCategory) (v : Value) : ST State DBError ProjectSetting :=
  existing ← st_map_err setting_error (setting_select project c);
  match existing with
  | Some existing =>
      let existing := with_settings v existing in
      _ ← st_map_err setting_error (setting_update existing);
      st_ok existing
  | None => st_map_err setting_error (setting_insert (MkNewSetting project (category_as_str c) v))
  end.
Definition update_project_settings (project : Z) (c : SettingCategory) (v : Value) : ST State DBError ProjectSetting :=
  _ ← db_connection; write_settings project c v.

Context `{SettingsJson}.
Definition serialization {A} (o : option A) : ST State DBError A :=
  st_lift (ok_or (ProjectSettingError SerializationError) o).
Definition get_email_settings (g : ProjectSetting) : option EmailSettings := email_from_value (g_settings g).
Definition get_oauth_settings (g : ProjectSetting) : option OAuthSettings := oauth_from_value (g_settings g).
Definition get_project_email_settings (project : Z) : ST State DBError (option EmailSettings) :=
  g ← get_project_settings project Email;
  match g with Some g => e ← serialization (get_email_settings g); st_ok (Some e) | None => st_ok None end.
Definition get_project_oauth_settings (project : Z) : ST State DBError (option OAuthSettings) :=
  g ← get_project_settings project OAuth;
  match g with Some g => e ← serialization (get_oauth_settings g); st_ok (Some e) | None => st_ok None end.
Definition update_project_email_settings (project : Z) (e : EmailSettings) : ST State DBError ProjectSetting :=
  v ← serialization (email_to_value e);
  _ ← db_connection;
  write_settings project Email v.
Definition update_project_oauth_settings (project : Z) (e : OAuthSettings) : ST State DBError ProjectSetting :=
  v ← serialization (oauth_to_value e);
  _ ← db_connection;
  write_settings project OAuth v.
End methods.
End Organizations.
