(* ===== verification/OrganizationRoutes.v ===== *)
(** * The organization routes of the platform

    The handlers of [src/src/web/platform/org_routes.rs], [membership_routes.rs],
    [invite_routes.rs] and [project_routes.rs], with the validation of
    [common.rs] and [validation.rs], from the decrypted request to the answer
    before it is encrypted.  Sending the invitation mail is left out: it happens
    after the answer is decided and its failure is only logged. *)

From S2P Require Import Prelude Text Json Crypto Api Encrypt Database Statements Organizations.

(** The checks of the [validator] and [url] crates. *)
Class Validator := { valid_email : string -> bool; valid_url : string -> bool; url_parses : string -> bool }.

Module OrganizationRoutes.
Import Sql Organizations.

(** ** Validation *)
(** [length(min, max)] counts characters. *)
Definition length_between (min max : nat) (s : string) : bool := bool_decide (min <= char_count s <= max).
Definition alphanumeric (b : nat) : bool := between 97 122 b || between 65 90 b || between 48 57 b.
(** [[a-zA-Z0-9\s&@!()\-+._]]; [\s] is any white space of Unicode. *)
Definition name_symbol (b : nat) : bool := alphanumeric b || bool_decide (b ∈ [38; 64; 33; 40; 41; 45; 43; 46; 95]).
Fixpoint name_symbols (fuel : nat) (l : list nat) : bool :=
  match fuel, l with
  | _, [] => true
  | 0, _ => false
  | S fuel, b :: l' =>
      if name_symbol b then name_symbols fuel l'
      else match strip_any whitespace l with Some l' => name_symbols fuel l' | None => false end
  end.
Definition validate_alphanumeric_with_symbols (value : string) : bool :=
  let trimmed := trim value in
  negb (is_empty trimmed) && name_symbols (str_len trimmed) (codes trimmed).
Definition validate_alphanumeric_only (value : string) : bool :=
  negb (is_empty value) && forallb (fun b => alphanumeric b || (b =? 95)) (codes value).
Definition validate_secret_size (value : string) : bool := bool_decide (Z.of_nat (str_len value) * 3 / 4 <= 1048576)%Z.
Definition validate_project_status (status : string) : bool := bool_decide (status ∈ ["active"; "inactive"; "suspended"]).
Definition validate_email_provider (provider : string) : bool := bool_decide (provider = "resend").

Section validation.
Context `{Validator}.
Definition valid_redirect (client redirect : string) : bool :=
  negb (is_empty client) && bool_decide (str_len client <= 255) &&
  negb (is_empty redirect) && bool_decide (str_len redirect <= 255) && url_parses redirect.
Definition validate_oauth_provider_settings (s : OAuthProviderSettings) : bool := valid_redirect (client_id s) (redirect_url s).
Definition ten_chars (o : option string) : bool := match o with Some s => bool_decide (str_len s = 10) | None => true end.
Definition validate_apple_oauth_settings (s : AppleOAuthSettings) : bool :=
  valid_redirect (a_client_id s) (a_redirect_url s) && ten_chars (team_id s) && ten_chars (key_id s).
Definition optional {A} (p : A -> bool) (o : option A) : bool := match o with Some a => p a | None => true end.
End validation.

(** ** Requests *)
Record CreateProjectRequest := MkCreateProject { cp_name : string; cp_description : option string }.
Record UpdateProjectRequest := MkUpdateProject {
  up_name : option string; up_description : option string; up_status : option string }.
Record CreateInviteRequest := MkCreateInvite { ci_email : string; ci_role : OrgRole }.
Definition default_invite_role : OrgRole := Admin.
Record CreateSecretRequest := MkCreateSecret { cs_key_name : string; cs_secret : string }.
Record UpdateEmailSettingsRequest := MkUpdateEmail { ue_provider : string; ue_send_from : string; ue_email_verification_url : string }.
(** [UpdateOAuthSettingsRequest] has the fields of [OAuthSettings]. *)
Definition validate_create_org (name : string) : bool := length_between 1 50 name && validate_alphanumeric_with_symbols name.
Definition validate_create_project (r : CreateProjectRequest) : bool :=
  length_between 1 50 (cp_name r) && validate_alphanumeric_with_symbols (cp_name r) &&
  optional (length_between 0 255) (cp_description r).
Definition validate_create_secret (r : CreateSecretRequest) : bool :=
  length_between 1 50 (cs_key_name r) && validate_alphanumeric_only (cs_key_name r) && validate_secret_size (cs_secret r).
Definition validate_update_email `{Validator} (r : UpdateEmailSettingsRequest) : bool :=
  length_between 1 255 (ue_provider r) && validate_email_provider (ue_provider r) && valid_email (ue_send_from r) &&
  length_between 1 255 (ue_email_verification_url r) && valid_url (ue_email_verification_url r).
Definition validate_update_oauth `{Validator} (r : OAuthSettings) : bool :=
  optional validate_oauth_provider_settings (google_oauth_settings r) &&
  optional validate_oauth_provider_settings (github_oauth_settings r) &&
  optional validate_apple_oauth_settings (apple_oauth_settings r).

(** ** Answers *)
Record OrgResponse := MkOrgResponse { or_id : Uuid; or_name : string }.
Record ProjectResponse := MkProjectResponse {
  pr_id : Uuid; pr_client_id : Uuid; pr_name : string; pr_description : option string; pr_status : string; pr_created_at : Z }.
Record MembershipResponse := MkMembershipResponse { mr_user_id : Uuid; mr_role : string; mr_name : option string }.
Record InviteResponse := MkInviteResponse {
  ir_code : Uuid; ir_email : string; ir_role : string; ir_used : bool; ir_expires_at : Z; ir_created_at : Z; ir_updated_at : Z }.
Record DetailedInviteResponse := MkDetailedInvite { dr_invite : InviteResponse; dr_organization_name : string }.
Record SecretResponse := MkSecretResponse { sr_key_name : string; sr_created_at : Z; sr_updated_at : Z }.
Definition project_response (p : OrgProject) : ProjectResponse :=
  MkProjectResponse (p_uuid p) (p_client_id p) (p_name p) (p_description p) (p_status p) (p_created_at p).
Definition membership_response (m : OrgMembershipWithUser) : MembershipResponse :=
  MkMembershipResponse (m_platform_user_id (mu_membership m)) (m_role (mu_membership m)) (mu_user_name m).
Definition invite_response (v : InviteCode) : InviteResponse :=
  MkInviteResponse (v_code v) (v_email v) (v_role v) (v_used v) (v_expires_at v) (v_created_at v) (v_updated_at v).
Definition secret_response (s : OrgProjectSecret) : SecretResponse :=
  MkSecretResponse (s_key_name s) (s_created_at s) (s_updated_at s).

(** [From<DBError> for ApiError], which [?] applies. *)
Definition api_error (e : DBError) : Api.ApiError :=
  match e with OrgMembershipNotFound => Api.NotFound | _ => Api.InternalServerError end.

(** ** Handlers *)
Section routes.
Context `{Crypto, SettingsJson, Validator}.
Abbreviation Route A := (ST State Api.ApiError A).
(** [now]: the clock of the database; [clock] and [later]: two readings of
    [Utc::now()]; [new] and [client]: UUIDs of the database; [code]: of the code. *)
Context (now clock later : Z) (new client code : Uuid) (nonce : bytes) (enclave_key : option Encrypt.SecretKey).
Context (user : PlatformUser).

Definition internal {A} (m : ST State DBError A) : Route A := st_map_err (fun _ => Api.InternalServerError) m.
Definition find_org (uuid : Uuid) : Route Org := st_map_err (fun _ => Api.NotFound) (get_org_by_uuid uuid).
Definition find_membership (who : Uuid) (org : Org) : Route OrgMembership :=
  st_map_err (fun _ => Api.Unauthorized) (get_org_membership_by_platform_user_and_org who (o_id org)).
(** The user's membership, with one of the roles. *)
Definition require (roles : list OrgRole) (org : Org) : Route unit :=
  membership ← find_membership (u_uuid user) org;
  if decide (role_from (m_role membership) ∈ roles) then st_ok tt else st_err Api.Unauthorized.
Definition any_role : list OrgRole := [Owner; Admin; Developer; Viewer].
Definition bad_request_unless (b : bool) : Route unit := if b then st_ok tt else st_err Api.BadRequest.

(** *** [org_routes.rs] *)
Definition create_org (name : string) : Route OrgResponse :=
  _ ← bad_request_unless (validate_create_org name);
  org ← internal (create_org_with_owner now new name (u_uuid user));
  st_ok (MkOrgResponse (o_uuid org) (o_name org)).
(** An organization that cannot be read is skipped. *)
Fixpoint list_orgs_of (l : list OrgMembership) : Route (list OrgResponse) :=
  match l with
  | [] => st_ok []
  | m :: l => fun s =>
      match get_org_by_id (m_org_id m) s with
      | (Ok org, s) => (rest ← list_orgs_of l; st_ok (MkOrgResponse (o_uuid org) (o_name org) :: rest)) s
      | (Err _, s) => list_orgs_of l s
      | (Panic, s) => (Panic, s)
      end
  end.
Definition list_orgs : Route (list OrgResponse) :=
  memberships ← internal (get_all_org_memberships_for_platform_user (u_uuid user));
  list_orgs_of memberships.
Definition delete_org (org_id : Uuid) : Route unit :=
  org ← find_org org_id;
  _ ← require [Owner] org;
  internal (Organizations.delete_org org).

(** *** [membership_routes.rs] *)
Definition list_memberships (org_id : Uuid) : Route (list MembershipResponse) :=
  org ← find_org org_id;
  _ ← require any_role org;
  l ← internal (get_all_org_memberships_with_users_for_org (o_id org));
  st_ok (membership_response <$> l).
(** What [update_membership] and [delete_membership] read before they write: the
    organization and the membership of [user_id] in it. *)
Definition load_target (org_id user_id : Uuid) : Route (Org * OrgMembership) :=
  org ← find_org org_id;
  _ ← require [Owner] org;
  target ← st_map_err (fun _ => Api.NotFound) (get_org_membership_by_platform_user_and_org user_id (o_id org));
  st_ok (org, target).
Definition last_owner_error (e : DBError) : Api.ApiError :=
  match e with OrgMembershipError Db.RollbackTransaction => Api.BadRequest | _ => Api.InternalServerError end.
Definition write_role (target : Org * OrgMembership) (user_id : Uuid) (role : OrgRole) : Route MembershipResponse :=
  _ ← st_map_err last_owner_error (update_membership_role now target.2 role);
  m ← internal (get_org_membership_by_platform_user_and_org_with_user user_id (o_id target.1));
  st_ok (membership_response m).
Definition update_membership (org_id user_id : Uuid) (role : OrgRole) : Route MembershipResponse :=
  target ← load_target org_id user_id;
  write_role target user_id role.
Definition delete_membership (org_id user_id : Uuid) : Route unit :=
  target ← load_target org_id user_id;
  st_map_err last_owner_error (delete_membership_with_owner_check target.2).

(** *** [invite_routes.rs] *)
Definition create_invite (org_id : Uuid) (body : CreateInviteRequest) : Route InviteResponse :=
  org ← st_map_err (fun _ => Api.BadRequest) (get_org_by_uuid org_id);
  _ ← require [Owner; Admin] org;
  role ← st_lift (ok_or Api.BadRequest (role_try_from (role_as_str (ci_role body))));
  invite ← internal (create_invite_code now (new_invite code clock (o_id org) (ci_email body) (role_as_str role) 24));
  st_ok (invite_response invite).
Definition list_invites (org_id : Uuid) : Route (list InviteResponse) :=
  org ← find_org org_id;
  _ ← require [Owner; Admin] org;
  all_invites ← internal (get_all_invite_codes_for_org (o_id org));
  st_ok (invite_response <$> matching_rows (fun v => negb (v_used v) && bool_decide (v_expires_at v > clock)%Z) all_invites).
Definition find_invite (invite_code : Uuid) (org : Org) : Route InviteCode :=
  invite ← st_map_err (fun e => match e with InviteCodeNotFound => Api.NotFound | _ => Api.InternalServerError end)
    (get_invite_code_by_code invite_code);
  if decide (v_org_id invite = o_id org) then st_ok invite else st_err Api.NotFound.
Definition is_org_admin (org : Org) : Route bool := fun s =>
  match get_org_membership_by_platform_user_and_org (u_uuid user) (o_id org) s with
  | (Ok m, s) => (Ok (bool_decide (role_from (m_role m) ∈ [Owner; Admin])), s)
  | (Err _, s) => (Ok false, s)
  | (Panic, s) => (Panic, s)
  end.
Definition get_invite (org_id invite_code : Uuid) : Route DetailedInviteResponse :=
  org ← find_org org_id;
  invite ← find_invite invite_code org;
  is_admin ← is_org_admin org;
  if negb (bool_decide (u_email user = v_email invite)) && negb is_admin then st_err Api.Unauthorized
  else st_ok (MkDetailedInvite (invite_response invite) (o_name org)).
Definition delete_invite (org_id invite_code : Uuid) : Route unit :=
  org ← find_org org_id;
  _ ← require [Owner; Admin] org;
  invite ← find_invite invite_code org;
  internal (delete_invite_code invite).
Definition accept_error (e : DBError) : Api.ApiError :=
  match e with
  | InviteCodeError AlreadyUsed | InviteCodeError Expired => Api.BadRequest
  | _ => Api.InternalServerError
  end.
Definition accept_invite (invite_code : Uuid) : Route unit :=
  invite ← st_map_err (fun _ => Api.NotFound) (get_invite_code_by_code invite_code);
  if v_used invite then st_err Api.BadRequest
  else if decide (v_expires_at invite < clock)%Z then st_err Api.BadRequest
  else if decide (v_email invite <> u_email user) then st_err Api.Unauthorized
  else
    _ ← st_map_err accept_error (accept_invite_transaction now later invite
          (new_membership (u_uuid user) (v_org_id invite) (role_from (v_role invite))));
    st_ok tt.

(** *** [project_routes.rs] *)
Definition no_project_named (name : string) (org : Org) : Route unit :=
  existing ← internal (get_org_project_by_name_and_org name (o_id org));
  if decide (is_Some existing) then st_err Api.BadRequest else st_ok tt.
(** The project of the path, which belongs to the organization. *)
Definition project_in (org : Org) (project_id : Uuid) : Route OrgProject :=
  project ← st_map_err (fun _ => Api.NotFound) (get_org_project_by_uuid project_id);
  if decide (p_org_id project = o_id org) then st_ok project else st_err Api.NotFound.
Definition find_project (roles : list OrgRole) (org_id project_id : Uuid) : Route (Org * OrgProject) :=
  org ← find_org org_id;
  project ← project_in org project_id;
  _ ← require roles org;
  st_ok (org, project).
Definition create_project (org_id : Uuid) (body : CreateProjectRequest) : Route ProjectResponse :=
  _ ← bad_request_unless (validate_create_project body);
  org ← find_org org_id;
  _ ← require [Owner; Admin] org;
  _ ← no_project_named (cp_name body) org;
  project ← internal (create_org_project now new client
    (with_description (default EmptyString (cp_description body)) (Organizations.new_project (o_id org) (cp_name body))));
  st_ok (project_response project).
Definition list_projects (org_id : Uuid) : Route (list ProjectResponse) :=
  org ← find_org org_id;
  _ ← require any_role org;
  l ← internal (get_all_org_projects_for_org (o_id org));
  st_ok (project_response <$> l).
Definition with_update (body : UpdateProjectRequest) (p : OrgProject) : OrgProject :=
  MkProject (p_id p) (p_uuid p) (p_client_id p) (p_org_id p) (default (p_name p) (up_name body))
    (match up_description body with Some d => Some d | None => p_description p end)
    (default (p_status p) (up_status body)) (p_created_at p) (p_updated_at p).
Definition update_project (org_id project_id : Uuid) (body : UpdateProjectRequest) : Route ProjectResponse :=
  found ← find_project [Owner; Admin] org_id project_id;
  _ ← match up_name body with
      | Some name => if decide (name <> p_name found.2) then no_project_named name found.1 else st_ok tt
      | None => st_ok tt
      end;
  let updated_project := with_update body found.2 in
  _ ← internal (update_org_project now updated_project);
  st_ok (project_response updated_project).
Definition get_project (org_id project_id : Uuid) : Route ProjectResponse :=
  org ← find_org org_id;
  _ ← require any_role org;
  project ← project_in org project_id;
  st_ok (project_response project).
Definition delete_project (org_id project_id : Uuid) : Route unit :=
  found ← find_project [Owner; Admin] org_id project_id;
  internal (delete_org_project found.2).

Definition encrypt_secret (secret : bytes) : Route bytes :=
  key ← st_lift (ok_or Api.InternalServerError enclave_key);
  st_lift (lift (Encrypt.encrypt_with_key nonce key secret)).
Definition create_secret (org_id project_id : Uuid) (body : CreateSecretRequest) : Route SecretResponse :=
  _ ← bad_request_unless (validate_create_secret body);
  found ← find_project [Owner; Admin] org_id project_id;
  secret_bytes ← st_lift (ok_or Api.BadRequest (base64_decode (cs_secret body)));
  encrypted_secret ← encrypt_secret secret_bytes;
  secret ← internal (create_org_project_secret now (MkNewSecret (p_id found.2) (cs_key_name body) encrypted_secret));
  st_ok (secret_response secret).
Definition list_secrets (org_id project_id : Uuid) : Route (list SecretResponse) :=
  found ← find_project any_role org_id project_id;
  l ← internal (get_all_org_project_secrets_for_project (p_id found.2));
  st_ok (secret_response <$> l).
Definition delete_secret (org_id project_id : Uuid) (key_name : string) : Route unit :=
  found ← find_project [Owner; Admin] org_id project_id;
  secret ← internal (get_org_project_secret_by_key_name_and_project key_name (p_id found.2));
  secret ← st_lift (ok_or Api.NotFound secret);
  internal (delete_org_project_secret secret).

Definition get_email_settings (org_id project_id : Uuid) : Route EmailSettings :=
  found ← find_project any_role org_id project_id;
  e ← st_map_err api_error (get_project_email_settings (p_id found.2));
  st_lift (ok_or Api.NotFound e).
Definition update_email_settings (org_id project_id : Uuid) (body : UpdateEmailSettingsRequest) : Route EmailSettings :=
  _ ← bad_request_unless (validate_update_email body);
  found ← find_project [Owner; Admin] org_id project_id;
  g ← st_map_err api_error (update_project_email_settings now (p_id found.2)
        (MkEmailSettings (ue_provider body) (ue_send_from body) (ue_email_verification_url body)));
  st_lift (ok_or Api.InternalServerError (Organizations.get_email_settings g)).
Definition get_oauth_settings (org_id project_id : Uuid) : Route OAuthSettings :=
  found ← find_project any_role org_id project_id;
  e ← st_map_err api_error (get_project_oauth_settings (p_id found.2));
  st_ok (default default_oauth_settings e).
(** An enabled provider needs its settings. *)
Definition enabled_configured (r : OAuthSettings) : bool :=
  negb (google_oauth_enabled r && bool_decide (google_oauth_settings r = None)) &&
  negb (github_oauth_enabled r && bool_decide (github_oauth_settings r = None)) &&
  negb (apple_oauth_enabled r && bool_decide (apple_oauth_settings r = None)).
Definition update_oauth_settings (org_id project_id : Uuid) (body : OAuthSettings) : Route OAuthSettings :=
  _ ← bad_request_unless (validate_update_oauth body);
  _ ← bad_request_unless (enabled_configured body);
  found ← find_project [Owner; Admin] org_id project_id;
  g ← st_map_err api_error (update_project_oauth_settings now (p_id found.2) body);
  st_lift (ok_or Api.InternalServerError (Organizations.get_oauth_settings g)).
End routes.

(** ** All routes *)
Inductive Request :=
| CreateOrg (name : string) | ListOrgs | DeleteOrg (org : Uuid)
| ListMemberships (org : Uuid) | UpdateMembership (org user : Uuid) (role : OrgRole) | DeleteMembership (org user : Uuid)
| CreateInvite (org : Uuid) (body : CreateInviteRequest) | ListInvites (org : Uuid) | GetInvite (org code : Uuid)
| DeleteInvite (org code : Uuid) | AcceptInvite (code : Uuid)
| CreateProject (org : Uuid) (body : CreateProjectRequest) | ListProjects (org : Uuid)
| UpdateProject (org project : Uuid) (body : UpdateProjectRequest) | GetProject (org project : Uuid)
| DeleteProject (org project : Uuid)
| CreateSecret (org project : Uuid) (body : CreateSecretRequest) | ListSecrets (org project : Uuid)
| DeleteSecret (org project : Uuid) (key_name : string)
| GetEmailSettings (org project : Uuid) | UpdateEmailSettings (org project : Uuid) (body : UpdateEmailSettingsRequest)
| GetOAuthSettings (org project : Uuid) | UpdateOAuthSettings (org project : Uuid) (body : OAuthSettings).

Inductive Answer :=
| Done | AnOrg (r : OrgResponse) | Orgs (l : list OrgResponse) | AMembership (r : MembershipResponse)
| Memberships (l : list MembershipResponse) | AnInvite (r : InviteResponse) | Invites (l : list InviteResponse)
| AnInviteWithOrg (r : DetailedInviteResponse) | AProject (r : ProjectResponse) | Projects (l : list ProjectResponse)
| ASecret (r : SecretResponse) | Secrets (l : list SecretResponse) | TheEmailSettings (e : EmailSettings)
| TheOAuthSettings (e : OAuthSettings).

Section handle.
Context `{Crypto, SettingsJson, Validator}.
Context (now clock later : Z) (new client code : Uuid) (nonce : bytes) (enclave_key : option Encrypt.SecretKey).
Definition answer {A} (f : A -> Answer) (m : ST State Api.ApiError A) : ST State Api.ApiError Answer :=
  a ← m; st_ok (f a).
Definition done (m : ST State Api.ApiError unit) : ST State Api.ApiError Answer := answer (fun _ => Done) m.
Definition handle (user : PlatformUser) (r : Request) : ST State Api.ApiError Answer :=
  match r with
  | CreateOrg name => answer AnOrg (create_org now new user name)
  | ListOrgs => answer Orgs (list_orgs user)
  | DeleteOrg org => done (delete_org user org)
  | ListMemberships org => answer Memberships (list_memberships user org)
  | UpdateMembership org u role => answer AMembership (update_membership now user org u role)
  | DeleteMembership org u => done (delete_membership user org u)
  | CreateInvite org body => answer AnInvite (create_invite now clock code user org body)
  | ListInvites org => answer Invites (list_invites clock user org)
  | GetInvite org code => answer AnInviteWithOrg (get_invite user org code)
  | DeleteInvite org code => done (delete_invite user org code)
  | AcceptInvite code => done (accept_invite now clock later user code)
  | CreateProject org body => answer AProject (create_project now new client user org body)
  | ListProjects org => answer Projects (list_projects user org)
  | UpdateProject org project body => answer AProject (update_project now user org project body)
  | GetProject org project => answer AProject (get_project user org project)
  | DeleteProject org project => done (delete_project user org project)
  | CreateSecret org project body => answer ASecret (create_secret now nonce enclave_key user org project body)
  | ListSecrets org project => answer Secrets (list_secrets user org project)
  | DeleteSecret org project key_name => done (delete_secret user org project key_name)
  | GetEmailSettings org project => answer TheEmailSettings (get_email_settings user org project)
  | UpdateEmailSettings org project body => answer TheEmailSettings (update_email_settings now user org project body)
  | GetOAuthSettings org project => answer TheOAuthSettings (get_oauth_settings user org project)
  | UpdateOAuthSettings org project body => answer TheOAuthSettings (update_oauth_settings now user org project body)
  end.
End handle.
End OrganizationRoutes.
