(* ===== verification/Roles.v ===== *)
(** * Who may change an organization

    An abstract machine of the organization tables: which request of which user
    may make which change.  Every run of [OrganizationRoutes.handle] makes one of
    its steps or none; its steps keep the invariant of the tables, in which every
    organization has an owner, and change only what the user's role allows. *)

From S2P Require Import Prelude Text Json Crypto Api Encrypt Database Statements Rows Organizations OrganizationRoutes.

Module Roles.
Import Sql Organizations OrganizationRoutes.

(** ** The invariant *)
Definition orgs_ok (n : Z) (l : list Org) : Prop := unique o_id l /\ unique o_uuid l /\ below n o_id l.
Definition pair_of (m : OrgMembership) : Uuid * Z := (m_platform_user_id m, m_org_id m).
Definition members_ok (n : Z) (us : list PlatformUser) (os : list Org) (l : list OrgMembership) : Prop :=
  unique m_id l /\ unique pair_of l /\ below n m_id l /\ refers m_org_id l o_id os /\ refers m_platform_user_id l u_uuid us /\
  (forall m, m ∈ l -> role_checked (m_role m) = true).
Definition invites_ok (n : Z) (os : list Org) (l : list InviteCode) : Prop :=
  unique v_id l /\ unique v_code l /\ below n v_id l /\ refers v_org_id l o_id os /\
  (forall v, v ∈ l -> role_checked (v_role v) = true).
Definition name_in (p : OrgProject) : string * Z := (p_name p, p_org_id p).
Definition projects_ok (n : Z) (os : list Org) (l : list OrgProject) : Prop :=
  unique p_id l /\ unique p_uuid l /\ unique p_client_id l /\ unique name_in l /\ below n p_id l /\ refers p_org_id l o_id os.
Definition key_in (s : OrgProjectSecret) : string * Z := (s_key_name s, s_project_id s).
Definition secrets_ok (n : Z) (ps : list OrgProject) (l : list OrgProjectSecret) : Prop :=
  unique s_id l /\ unique key_in l /\ below n s_id l /\ refers s_project_id l p_id ps.
Definition category_in (g : ProjectSetting) : Z * string := (g_project_id g, g_category g).
Definition settings_ok (n : Z) (ps : list OrgProject) (l : list ProjectSetting) : Prop :=
  unique g_id l /\ unique category_in l /\ below n g_id l /\ refers g_project_id l p_id ps.
(** Every organization has an owner, but those the migration inserts without members. *)
Section invariant.
Context (seeded : list Z).
Definition owned (os : list Org) (l : list OrgMembership) : Prop :=
  forall o, o ∈ os -> o_id o ∈ seeded \/ exists m, m ∈ l /\ owner_of (o_id o) m = true.
Definition wf (n : Z) (t : Tables) : Prop :=
  orgs_ok n (orgs t) /\ members_ok n (platform_users t) (orgs t) (memberships t) /\ invites_ok n (orgs t) (invites t) /\
  projects_ok n (orgs t) (projects t) /\ secrets_ok n (projects t) (secrets t) /\ settings_ok n (projects t) (settings t) /\
  owned (orgs t) (memberships t).

Lemma wf_mono n m t : wf n t -> (n <= m)%Z -> wf m t.
Proof.
  intros (Ho & Hm & Hv & Hp & Hs & Hg & Hw) Hn.
  destruct Ho as (?&?&?), Hm as (?&?&?&?&?&?), Hv as (?&?&?&?&?), Hp as (?&?&?&?&?&?), Hs as (?&?&?&?), Hg as (?&?&?&?).
  repeat split; eauto with rows.
Qed.

(** ** Rights *)
Section steps.
Context (user : PlatformUser) (clock later : Z).

(** A role of the user in the organization. *)
Definition authorised (roles : list OrgRole) (org : Z) (t : Tables) : Prop :=
  exists m, m ∈ memberships t /\ m_platform_user_id m = u_uuid user /\ m_org_id m = org /\ role_from (m_role m) ∈ roles.
(** The organization of the path, in which the user has one of the roles. *)
Definition may (roles : list OrgRole) (path : Uuid) (org : Org) (t : Tables) : Prop :=
  org ∈ orgs t /\ o_uuid org = path /\ authorised roles (o_id org) t.
Definition project_at (path : Uuid) (org : Org) (p : OrgProject) (t : Tables) : Prop :=
  p ∈ projects t /\ p_uuid p = path /\ p_org_id p = o_id org.
(** An invite the user may accept. *)
Definition invited (code : Uuid) (v : InviteCode) (t : Tables) : Prop :=
  v ∈ invites t /\ v_code v = code /\ v_used v = false /\ (clock <= v_expires_at v)%Z /\ v_email v = u_email user.
(** Another owner stays when [m] stops being one. *)
Definition not_last_owner (m : OrgMembership) (t : Tables) : Prop :=
  role_from (m_role m) = Owner -> 1 < length (matching_rows (owner_of (m_org_id m)) (memberships t)).

(** ** The machine: new rows get ids from [n] to [n'] *)
Inductive step (n n' : Z) (t : Tables) : Request -> Tables -> Prop :=
| S_create_org name now uuid id id' :
    (n <= id < n')%Z -> (n <= id' < n')%Z -> (forall o, o ∈ orgs t -> o_uuid o <> uuid) -> exists_user (u_uuid user) t = true ->
    step n n' t (CreateOrg name)
      (set_memberships (memberships t ++ [MkMembership id' (u_uuid user) id (role_as_str Owner) now now])
        (set_orgs (orgs t ++ [MkOrg id uuid name now now]) t))
| S_delete_org path org : may [Owner] path org t -> step n n' t (DeleteOrg path) (drop_org (o_id org) t)
| S_update_membership path who role now org m :
    may [Owner] path org t -> m ∈ memberships t -> pair_of m = (who, o_id org) -> (role <> Owner -> not_last_owner m t) ->
    step n n' t (UpdateMembership path who role)
      (set_memberships (update_rows (membership_by_id (m_id m)) (with_role now (role_as_str role)) (memberships t)) t)
| S_delete_membership path who org m :
    may [Owner] path org t -> m ∈ memberships t -> pair_of m = (who, o_id org) -> not_last_owner m t ->
    step n n' t (DeleteMembership path who) (set_memberships (delete_rows (membership_by_id (m_id m)) (memberships t)) t)
| S_create_invite path body code now id org :
    may [Owner; Admin] path org t -> (n <= id < n')%Z -> (forall v, v ∈ invites t -> v_code v <> code) ->
    step n n' t (CreateInvite path body) (set_invites (invites t ++
      [MkInvite id code (o_id org) (ci_email body) (role_as_str (ci_role body)) false (clock + 24 * HOUR) now now]) t)
| S_delete_invite path code org v :
    may [Owner; Admin] path org t -> v ∈ invites t -> v_code v = code -> v_org_id v = o_id org ->
    step n n' t (DeleteInvite path code) (set_invites (delete_rows (invite_by_id (v_id v)) (invites t)) t)
| S_accept_invite code now id v :
    invited code v t -> (n <= id < n')%Z -> existsb (member_of (u_uuid user) (v_org_id v)) (memberships t) = false ->
    exists_user (u_uuid user) t = true ->
    step n n' t (AcceptInvite code)
      (set_invites (update_rows (fun r => invite_by_id (v_id v) r && negb (v_used r))
          (fun r => invite_set now (v_email r) true (v_expires_at r) r) (invites t))
        (set_memberships (memberships t ++
          [MkMembership id (u_uuid user) (v_org_id v) (role_as_str (role_from (v_role v))) now now]) t))
| S_create_project path body uuid client now id org :
    may [Owner; Admin] path org t -> (n <= id < n')%Z ->
    (forall p, p ∈ projects t -> p_uuid p <> uuid /\ p_client_id p <> client /\ name_in p <> (cp_name body, o_id org)) ->
    step n n' t (CreateProject path body) (set_projects (projects t ++
      [MkProject id uuid client (o_id org) (cp_name body) (Some (default EmptyString (cp_description body))) "active" now now]) t)
| S_update_project path pid body now org p :
    may [Owner; Admin] path org t -> project_at pid org p t ->
    (forall q, q ∈ projects t -> name_in q = (p_name (with_update body p), p_org_id p) -> p_id q = p_id p) ->
    step n n' t (UpdateProject path pid body) (set_projects (update_rows (project_by_id (p_id p))
      (project_set now (p_name (with_update body p)) (p_description (with_update body p)) (p_status (with_update body p)))
      (projects t)) t)
| S_delete_project path pid org p :
    may [Owner; Admin] path org t -> project_at pid org p t ->
    step n n' t (DeleteProject path pid) (drop_projects (project_by_id (p_id p)) t)
| S_new_secret path pid body secret_enc now id org p :
    may [Owner; Admin] path org t -> project_at pid org p t -> (n <= id < n')%Z ->
    (forall s, s ∈ secrets t -> key_in s <> (cs_key_name body, p_id p)) ->
    step n n' t (CreateSecret path pid body)
      (set_secrets (secrets t ++ [MkSecret id (p_id p) (cs_key_name body) secret_enc now now]) t)
| S_set_secret path pid body secret_enc now org p :
    may [Owner; Admin] path org t -> project_at pid org p t ->
    step n n' t (CreateSecret path pid body) (set_secrets (update_rows (secret_of (cs_key_name body) (p_id p))
      (fun s => secret_set now (s_key_name s) secret_enc s) (secrets t)) t)
| S_delete_secret path pid key org p s :
    may [Owner; Admin] path org t -> project_at pid org p t -> s ∈ secrets t -> key_in s = (key, p_id p) ->
    step n n' t (DeleteSecret path pid key) (set_secrets (delete_rows (secret_by_id (s_id s)) (secrets t)) t)
| S_new_setting r path pid c v now id org p :
    match r with
    | UpdateEmailSettings path' pid' _ => (path', pid', c) = (path, pid, Email)
    | UpdateOAuthSettings path' pid' _ => (path', pid', c) = (path, pid, OAuth)
    | _ => False
    end ->
    may [Owner; Admin] path org t -> project_at pid org p t -> (n <= id < n')%Z ->
    (forall g, g ∈ settings t -> category_in g <> (p_id p, category_as_str c)) ->
    step n n' t r (set_settings (settings t ++ [MkSetting id (p_id p) (category_as_str c) v now now]) t)
| S_set_setting r path pid c v now org p g :
    match r with
    | UpdateEmailSettings path' pid' _ => (path', pid', c) = (path, pid, Email)
    | UpdateOAuthSettings path' pid' _ => (path', pid', c) = (path, pid, OAuth)
    | _ => False
    end ->
    may [Owner; Admin] path org t -> project_at pid org p t -> g ∈ settings t -> category_in g = (p_id p, category_as_str c) ->
    step n n' t r (set_settings (update_rows (fun g' => bool_decide (g_id g' = g_id g))
      (fun g' => MkSetting (g_id g') (g_project_id g') (g_category g) v (g_created_at g') now) (settings t)) t).
End steps.

(** ** The invariant is kept *)
Lemma role_checked_as_str r : role_checked (role_as_str r) = true.
Proof. by destruct r. Qed.
Lemma owner_of_true o m : owner_of o m = true <-> m_org_id m = o /\ m_role m = role_as_str Owner.
Proof. unfold owner_of, of_org. by rewrite andb_true_iff, !bool_decide_eq_true. Qed.
Lemma role_from_checked role : role_checked role = true -> role_from role = Owner -> role = role_as_str Owner.
Proof.
  intros Hc%bool_decide_eq_true Hr. cbn. set_unfold. destruct Hc as [->|[->|[->|[->|[]]]]]; vm_compute in Hr; congruence.
Qed.
Lemma ids_in {A} (f : A -> Z) (l : list A) x : x ∈ l -> f x ∈ f <$> l.
Proof. intros. by apply list_elem_of_fmap_2. Qed.

(** Two rows of one owner table: when one changes, another stays. *)
Lemma other_owner m l : unique m_id l -> 1 < length (matching_rows (owner_of (m_org_id m)) l) ->
  exists m', m' ∈ l /\ owner_of (m_org_id m) m' = true /\ m_id m' <> m_id m.
Proof.
  intros Hu Hl. assert (forall x, x ∈ matching_rows (owner_of (m_org_id m)) l -> x ∈ l /\ owner_of (m_org_id m) x = true) as Hin.
  { intros x [? ?]%Db.elem_of_matching. done. }
  assert (unique m_id (matching_rows (owner_of (m_org_id m)) l)) as Hu'.
  { eapply sublist_NoDup; [exact Hu|]. apply sublist_fmap, sublist_filter. }
  destruct (matching_rows _ l) as [|x [|y l']]; cbn in Hl; [lia..|].
  destruct (decide (m_id x = m_id m)) as [Hx|]; [|exists x; by split_and!; try apply Hin; set_solver].
  exists y. destruct (Hin y) as [? ?]; [set_solver|]. split_and!; [done|done|]. intros Hy.
  unfold unique in Hu'. cbn in Hu'. apply NoDup_cons in Hu' as [Hn _]. apply Hn. rewrite Hx, <- Hy. set_solver.
Qed.
Lemma members_update n us os l p now role : members_ok n us os l -> role_checked role = true ->
  members_ok n us os (update_rows p (with_role now role) l).
Proof.
  intros (?&?&?&?&?&Hr) Hc. split_and!; eauto with rows. intros m (m' & Hm & ->)%Db.elem_of_updated. destruct (p m'); [done|by apply Hr].
Qed.
Lemma members_delete n us os l p : members_ok n us os l -> members_ok n us os (delete_rows p l).
Proof. intros (?&?&?&?&?&Hr). split_and!; eauto with rows. intros m [_ Hm]%Db.elem_of_deleted. by apply Hr. Qed.
Lemma members_snoc n n' us os l m : members_ok n us os l -> (n <= m_id m < n')%Z -> (forall x, x ∈ l -> pair_of x <> pair_of m) ->
  (exists o, o ∈ os /\ o_id o = m_org_id m) -> (exists u, u ∈ us /\ u_uuid u = m_platform_user_id m) -> role_checked (m_role m) = true ->
  members_ok n' us os (l ++ [m]).
Proof.
  intros (?&?&?&?&?&Hr) Hid Hp Ho Hu Hc. split_and!.
  - apply unique_snoc; [done|]. intros y Hy. eapply below_fresh; [done| |done]. lia.
  - by apply unique_snoc.
  - apply below_snoc; [|lia]. eapply below_mono; [done|lia].
  - by apply refers_snoc_l.
  - by apply refers_snoc_l.
  - intros x [Hx| ->%list_elem_of_singleton]%elem_of_app; [by apply Hr|done].
Qed.
Lemma owned_snoc os l m : owned os l -> owned os (l ++ [m]).
Proof. intros Hw o Ho. destruct (Hw o Ho) as [Hs|(m' & ? & ?)]; [by left|right]. exists m'. split; [apply elem_of_app; by left|done]. Qed.
Lemma owned_update n us os l m now role : members_ok n us os l -> owned os l -> m ∈ l ->
  (role <> Owner -> role_from (m_role m) = Owner -> 1 < length (matching_rows (owner_of (m_org_id m)) l)) ->
  owned os (update_rows (membership_by_id (m_id m)) (with_role now (role_as_str role)) l).
Proof.
  intros (Hu&_&_&_&_&Hr) Hw Hm Hl o Ho. destruct (Hw o Ho) as [|(x & Hx & Hox)]; [by left|right].
  assert (forall y, y ∈ l -> owner_of (o_id o) y = true -> m_id y <> m_id m -> exists z,
    z ∈ update_rows (membership_by_id (m_id m)) (with_role now (role_as_str role)) l /\ owner_of (o_id o) z = true) as Hother.
  { intros y Hy Hoy Hne. exists y. split; [|done]. apply Db.elem_of_updated. exists y. split; [done|].
    unfold membership_by_id. by rewrite bool_decide_false. }
  destruct (decide (m_id x = m_id m)) as [He|Hne]; [|by eapply Hother].
  assert (x = m) as -> by by eapply unique_same. apply owner_of_true in Hox as [Horg Hrole].
  destruct (decide (role = Owner)) as [->|Hno].
  - exists (with_role now (role_as_str Owner) m). split; [|by apply owner_of_true].
    apply Db.elem_of_updated. exists m. split; [done|]. unfold membership_by_id. by rewrite bool_decide_true.
  - destruct (other_owner m l Hu) as (y & Hy & Hoy & Hney); [apply Hl; [done|]; by rewrite Hrole|].
    rewrite <- Horg in *. by eapply Hother.
Qed.
Lemma owned_delete n us os l m : members_ok n us os l -> owned os l -> m ∈ l ->
  (role_from (m_role m) = Owner -> 1 < length (matching_rows (owner_of (m_org_id m)) l)) ->
  owned os (delete_rows (membership_by_id (m_id m)) l).
Proof.
  intros (Hu&_&_&_&_&Hr) Hw Hm Hl o Ho. destruct (Hw o Ho) as [|(x & Hx & Hox)]; [by left|right].
  assert (forall y, y ∈ l -> owner_of (o_id o) y = true -> m_id y <> m_id m -> exists z,
    z ∈ delete_rows (membership_by_id (m_id m)) l /\ owner_of (o_id o) z = true) as Hother.
  { intros y Hy Hoy Hne. exists y. split; [|done]. apply Db.elem_of_deleted. split; [|done].
    unfold membership_by_id. by rewrite bool_decide_false. }
  destruct (decide (m_id x = m_id m)) as [He|Hne]; [|by eapply Hother].
  assert (x = m) as -> by by eapply unique_same. pose proof Hox as [Horg Hrole]%owner_of_true.
  destruct (other_owner m l Hu) as (y & Hy & Hoy & Hney); [apply Hl; by rewrite Hrole|].
  rewrite <- Horg in *. by eapply Hother.
Qed.

Lemma invites_update n os l p now : invites_ok n os l ->
  invites_ok n os (update_rows p (fun r => invite_set now (v_email r) true (v_expires_at r) r) l).
Proof.
  intros (?&?&?&?&Hr). split_and!; eauto with rows. intros v (v' & Hv & ->)%Db.elem_of_updated. destruct (p v'); exact (Hr v' Hv).
Qed.
Lemma invites_delete n os l p : invites_ok n os l -> invites_ok n os (delete_rows p l).
Proof. intros (?&?&?&?&Hr). split_and!; eauto with rows. intros v [_ Hv]%Db.elem_of_deleted. by apply Hr. Qed.
Lemma projects_delete n os l p : projects_ok n os l -> projects_ok n os (delete_rows p l).
Proof. intros (?&?&?&?&?&?). split_and!; eauto with rows. Qed.

(** Deleting projects with what belongs to them. *)
Lemma dropped_ok n t p : projects_ok n (orgs t) (projects t) -> secrets_ok n (projects t) (secrets t) -> settings_ok n (projects t) (settings t) ->
  let t' := drop_projects p t in
  projects_ok n (orgs t) (projects t') /\ secrets_ok n (projects t') (secrets t') /\ settings_ok n (projects t') (settings t').
Proof.
  intros Hp (?&?&?&?) (?&?&?&?). cbn.
  assert (forall A (g : A -> Z) (l : list A), refers g l p_id (projects t) ->
    refers g (delete_rows (fun x => bool_decide (g x ∈ p_id <$> matching_rows p (projects t))) l) p_id (delete_rows p (projects t))) as Hr.
  { intros A g l Hl. apply refers_delete_r; [done|]. intros x q _ Hq He Hpq. apply bool_decide_eq_true. rewrite <- He.
    by apply ids_in, Db.elem_of_matching. }
  split_and!; [by apply projects_delete|unfold secrets_ok|unfold settings_ok]; split_and!; eauto with rows.
Qed.
Lemma dropped_org_ok n t id : wf n t -> wf n (drop_org id t).
Proof.
  intros ((?&?&?) & Hm & Hv & Hp & Hs & Hg & Hw).
  pose proof (dropped_ok n t (fun p => bool_decide (p_org_id p = id)) Hp Hs Hg) as (Hp' & Hs' & Hg').
  assert (forall A (g : A -> Z) (l : list A), refers g l o_id (orgs t) ->
    refers g (delete_rows (fun x => bool_decide (g x = id)) l) o_id (delete_rows (org_by_id id) (orgs t))) as Hr.
  { intros A g l Hl. apply refers_delete_r; [done|]. intros x o _ _ He Ho%bool_decide_eq_true. apply bool_decide_eq_true. congruence. }
  split_and!; try done.
  - unfold orgs_ok. cbn. split_and!; eauto with rows.
  - destruct (members_delete _ _ _ _ (fun m => bool_decide (m_org_id m = id)) Hm) as (?&?&?&_&?&?). unfold members_ok. split_and!; try done. apply Hr, Hm.
  - destruct (invites_delete _ _ _ (fun v => bool_decide (v_org_id v = id)) Hv) as (?&?&?&_&?). unfold invites_ok. split_and!; try done. apply Hr, Hv.
  - destruct Hp' as (?&?&?&?&?&_). unfold projects_ok. split_and!; try done. apply Hr, Hp.
  - intros o [Hid Ho]%Db.elem_of_deleted. destruct (Hw o Ho) as [|(m & Hin & Hom)]; [by left|right]. exists m. split; [|done].
    apply Db.elem_of_deleted. split; [|done]. apply owner_of_true in Hom as [-> _]. exact Hid.
Qed.
Lemma secrets_projects n ps l p now name description status : secrets_ok n ps l ->
  secrets_ok n (update_rows p (project_set now name description status) ps) l.
Proof. intros (?&?&?&?). split_and!; eauto with rows. Qed.
Lemma settings_projects n ps l p now name description status : settings_ok n ps l ->
  settings_ok n (update_rows p (project_set now name description status) ps) l.
Proof. intros (?&?&?&?). split_and!; eauto with rows. Qed.
Lemma named_update l p now name description status : unique p_id l -> unique name_in l -> p ∈ l ->
  (forall q, q ∈ l -> name_in q = (name, p_org_id p) -> p_id q = p_id p) ->
  unique name_in (update_rows (project_by_id (p_id p)) (project_set now name description status) l).
Proof.
  intros Hid Hn Hp Hq. unfold unique, update_rows in *. rewrite <- list_fmap_compose.
  set (f := name_in ∘ _). assert (forall x, x ∈ l -> f x = if decide (p_id x = p_id p) then (name, p_org_id p) else name_in x) as Hf.
  { intros x Hx. unfold f. cbn. unfold project_by_id. case_decide as He; [rewrite bool_decide_true by done|by rewrite bool_decide_false].
    assert (x = p) as -> by by eapply (unique_same p_id). done. }
  assert (forall x y, x ∈ l -> y ∈ l -> f x = f y -> x = y) as Hinj.
  { intros x y Hx Hy He. rewrite (Hf x), (Hf y) in He by done. repeat case_decide; try (eapply unique_same; [exact Hid|done|done|congruence]).
    - symmetry in He. apply (Hq y Hy) in He. done.
    - by apply (Hq x Hx) in He.
    - eapply unique_same; [exact Hn|done..]. }
  clear Hf. apply NoDup_fmap_2_strong; [|by apply NoDup_fmap_1 in Hid]. intros x y Hx Hy. by apply Hinj.
Qed.
Lemma exists_user_true t u : exists_user u t = true <-> exists x, x ∈ platform_users t /\ u_uuid x = u.
Proof.
  unfold exists_user. rewrite Db.existsb_elem. split; intros (x & Hx & He); exists x; by rewrite bool_decide_eq_true in *.
Qed.
Lemma wf_members n t t' : wf n t -> orgs t' = orgs t -> platform_users t' = platform_users t -> invites t' = invites t ->
  projects t' = projects t -> secrets t' = secrets t -> settings t' = settings t ->
  members_ok n (platform_users t) (orgs t) (memberships t') -> owned (orgs t) (memberships t') -> wf n t'.
Proof. intros (?&_&?&?&?&?&_) Ho Hu Hv Hp Hs Hg Hm Hw. unfold wf. rewrite Ho, Hu, Hv, Hp, Hs, Hg. by split_and!. Qed.
Lemma wf_invites n t l : wf n t -> invites_ok n (orgs t) l -> wf n (set_invites l t).
Proof. intros (?&?&_&?&?&?&?) Hl. by split_and!. Qed.
Lemma wf_secrets n t l : wf n t -> secrets_ok n (projects t) l -> wf n (set_secrets l t).
Proof. intros (?&?&?&?&_&?&?) Hl. by split_and!. Qed.
Lemma wf_settings n t l : wf n t -> settings_ok n (projects t) l -> wf n (set_settings l t).
Proof. intros (?&?&?&?&?&_&?) Hl. by split_and!. Qed.
Lemma may_org user roles path org t : may user roles path org t -> exists o, o ∈ orgs t /\ o_id o = o_id org.
Proof. intros (? & _). eauto. Qed.

Lemma create_org_wf n n' t name now uuid id id' u : wf n t -> (n <= id < n')%Z -> (n <= id' < n')%Z ->
  (forall o, o ∈ orgs t -> o_uuid o <> uuid) -> exists_user u t = true ->
  wf n' (set_memberships (memberships t ++ [MkMembership id' u id (role_as_str Owner) now now])
           (set_orgs (orgs t ++ [MkOrg id uuid name now now]) t)).
Proof.
  intros Hwf Hid Hid' Huuid Hu%exists_user_true. pose proof (wf_mono n n' t Hwf ltac:(lia)) as Hwf'.
  destruct Hwf as ((?&?&Hb)&(?&?&?&Hr&?&?)&_). destruct Hwf' as ((?&?&?)&_&(?&?&?&?&?)&(?&?&?&?&?&?)&?&?&Hw).
  assert (forall o, o ∈ orgs t -> o_id o <> id) as Hnew by (intros o Ho; apply (below_fresh n _ (orgs t)); [done|lia|done]).
  unfold wf. cbn. split_and!; try done.
  - unfold orgs_ok. split_and!; [by apply unique_snoc..|apply below_snoc; [done|cbn; lia]].
  - apply (members_snoc n); cbn; try done.
    + unfold members_ok. split_and!; eauto with rows.
    + intros x Hx [= _ He]. destruct (Hr x Hx) as (o & Ho & Hid2). apply (Hnew o Ho). congruence.
    + eexists. split; [apply elem_of_app; right; by apply list_elem_of_singleton|done].
  - unfold invites_ok. split_and!; eauto with rows.
  - unfold projects_ok. split_and!; eauto with rows.
  - intros o [Ho| ->%list_elem_of_singleton]%elem_of_app.
    + destruct (Hw o Ho) as [|(m & Hin & ?)]; [by left|right]. exists m. split; [apply elem_of_app; by left|done].
    + right. eexists. split; [apply elem_of_app; right; by apply list_elem_of_singleton|]. by apply owner_of_true.
Qed.

(** Every step keeps the invariant. *)
Lemma step_wf user clock n n' t r t' : wf n t -> (n <= n')%Z -> step user clock n n' t r t' -> wf n' t'.
Proof.
  intros Hwf Hn Hs. pose proof (wf_mono n n' t Hwf Hn) as Hwf'.
  pose proof Hwf as (Ho&Hm&Hv&Hp&Hsec&Hset&Hw). pose proof Hwf' as (Ho'&Hm'&Hv'&Hp'&Hsec'&Hset'&Hw').
  destruct Hs as [name now uuid id id' Hid Hid' Hnew Hu|path org Hmay|path who role now org m Hmay Hin Hpair Hl|path who org m Hmay Hin Hpair Hl|
    path body code now id org Hmay Hid Hnew|path code org v Hmay Hin Hc Horg|code now id v Hinv Hid Hex Hu|
    path body uuid client now id org Hmay Hid Hnew|path pid body now org p Hmay Hat Hnew|path pid org p Hmay Hat|
    path pid body secret_enc now id org p Hmay Hat Hid Hnew|path pid body secret_enc now org p Hmay Hat|path pid key org p s Hmay Hat Hin Hk|
    r path pid c v now id org p Hr Hmay Hat Hid Hnew|r path pid c v now org p g Hr Hmay Hat Hin Hk].
  - by apply (create_org_wf n).
  - by apply dropped_org_ok.
  - eapply wf_members; try done; cbn; [apply members_update; [done|apply role_checked_as_str]|]. by eapply owned_update.
  - eapply wf_members; try done; cbn; [by apply members_delete|]. by eapply owned_delete.
  - apply wf_invites; [done|]. destruct Hv as (?&?&Hb&?&?). destruct Hv' as (?&?&?&?&?). unfold invites_ok. split_and!.
    + apply unique_snoc; [done|]. intros y Hy. apply (below_fresh n _ (invites t)); [done|cbn; lia|done].
    + by apply unique_snoc.
    + apply below_snoc; [done|cbn; lia].
    + apply refers_snoc_l; [done|]. destruct Hmay as (? & _). eauto.
    + intros x [Hx| ->%list_elem_of_singleton]%elem_of_app; [auto|apply role_checked_as_str].
  - apply wf_invites; [done|]. by apply invites_delete.
  - destruct Hinv as (Hin & _). apply wf_invites; cbn; [|by apply invites_update].
    eapply wf_members; try done; cbn; [|by apply owned_snoc].
    apply (members_snoc n); cbn; [done|lia| | |by apply exists_user_true|apply role_checked_as_str].
    + intros x Hx [= H1 H2]. apply not_true_iff_false in Hex. apply Hex, Db.existsb_elem. exists x. split; [done|].
      unfold member_of. by rewrite andb_true_iff, !bool_decide_eq_true.
    + apply Hv. exact Hin.
  - destruct Hwf' as (?&?&?&_&(?&?&?&?)&(?&?&?&?)&?), Hp as (?&?&?&?&Hb&?), Hp' as (?&?&?&?&?&?). unfold wf. cbn. split_and!; try done.
    + unfold projects_ok. split_and!.
      * apply unique_snoc; [done|]. intros y Hy. apply (below_fresh n _ (projects t)); [done|cbn; lia|done].
      * apply unique_snoc; [done|]. intros y Hy. by apply Hnew.
      * apply unique_snoc; [done|]. intros y Hy. by apply Hnew.
      * apply unique_snoc; [done|]. intros y Hy. by apply Hnew.
      * apply below_snoc; [done|cbn; lia].
      * apply refers_snoc_l; [done|]. destruct Hmay as (? & _). eauto.
    + unfold secrets_ok. split_and!; eauto with rows.
    + unfold settings_ok. split_and!; eauto with rows.
  - destruct Hat as (Hin & _ & _). destruct Hp' as (?&?&?&?&?&?). unfold wf. cbn. split_and!; try done.
    + unfold projects_ok. split_and!; eauto with rows. by apply named_update.
    + by apply secrets_projects.
    + by apply settings_projects.
  - destruct (dropped_ok n' t (project_by_id (p_id p)) Hp' Hsec' Hset') as (?&?&?). by split_and!.
  - apply wf_secrets; [done|]. destruct Hsec as (?&?&Hb&?), Hsec' as (?&?&?&?), Hat as (Hin & _). unfold secrets_ok. split_and!.
    + apply unique_snoc; [done|]. intros y Hy. apply (below_fresh n _ (secrets t)); [done|cbn; lia|done].
    + by apply unique_snoc.
    + apply below_snoc; [done|cbn; lia].
    + apply refers_snoc_l; [done|]. eauto.
  - apply wf_secrets; [done|]. destruct Hsec' as (?&?&?&?). unfold secrets_ok. split_and!; eauto with rows.
  - apply wf_secrets; [done|]. destruct Hsec' as (?&?&?&?). unfold secrets_ok. split_and!; eauto with rows.
  - apply wf_settings; [done|]. destruct Hset as (?&?&Hb&?), Hset' as (?&?&?&?), Hat as (Hin & _). unfold settings_ok. split_and!.
    + apply unique_snoc; [done|]. intros y Hy. apply (below_fresh n _ (settings t)); [done|cbn; lia|done].
    + by apply unique_snoc.
    + apply below_snoc; [done|cbn; lia].
    + apply refers_snoc_l; [done|]. eauto.
  - apply wf_settings; [done|]. destruct Hset' as (Hid&?&?&?). unfold settings_ok. split_and!; eauto with rows.
    unfold unique, update_rows. rewrite <- list_fmap_compose.
    erewrite list_fmap_ext; [exact H|]. intros i g' Hg'%list_elem_of_lookup_2. cbn. case_bool_decide as He; [|done].
    assert (g' = g) as -> by by eapply (unique_same g_id). done.
Qed.
End invariant.
End Roles.
