(* ===== verification/OrganizationSteps.v ===== *)
(** * The organization routes are steps of the machine of roles

    Every run of a handler of [OrganizationRoutes], whatever statement fails, makes
    one step of [Roles.step] or leaves the tables alone; from this follow the
    invariant of the organizations and the rights of their members. *)

From S2P Require Import Prelude Text Json Crypto Api Encrypt Database Statements Rows Organizations OrganizationRoutes Roles.

Module OrganizationSteps.
Import Sql Organizations OrganizationRoutes Roles.

(** ** Runs of the methods *)
Definition observes {E A} (m : ST State E A) : Prop := reads m /\ grows m.
Lemma observes_lift {E A} (m : outcome E A) : observes (@st_lift _ E A m).
Proof. split; [apply sql_reads_lift|apply grows_lift]. Qed.
Lemma observes_ok {E A} (a : A) : observes (@st_ok State E A a).
Proof. apply (observes_lift (Ok a)). Qed.
Lemma observes_err {E A} (e : E) : observes (@st_err State E A e).
Proof. apply (observes_lift (Err e)). Qed.
Lemma observes_bind {E A B} (m : ST State E A) (f : A -> ST State E B) : observes m -> (forall a, observes (f a)) -> observes (x ← m; f x).
Proof. intros [? ?] Hf. split; [apply sql_reads_bind|apply grows_bind]; try done; intros a; apply Hf. Qed.
Lemma observes_map_err {E E' A} (f : E -> E') (m : ST State E A) : observes m -> observes (st_map_err f m).
Proof. intros [? ?]. split; [by apply sql_reads_map_err|by apply grows_map_err]. Qed.
Lemma observes_connection : observes db_connection.
Proof. split; [apply sql_reads_connection|apply grows_connection]. Qed.
Lemma observes_select {A} wrap (f : Tables -> A) : observes (method wrap (select f)).
Proof. apply observes_bind; [apply observes_connection|]. intros []. apply observes_map_err. split; [apply sql_reads_select|apply grows_statement]. Qed.
Lemma observes_select_first {A} wrap (f : Tables -> option A) : observes (method wrap (select_first f)).
Proof. apply observes_bind; [apply observes_connection|]. intros []. apply observes_map_err. split; [apply reads_select_first|apply grows_statement]. Qed.
Lemma observes_lookup {A} wrap e (f : Tables -> option A) : observes (lookup wrap e f).
Proof. apply observes_bind; [apply observes_select|]. intros o. apply observes_lift. Qed.

Lemma bind_observes_inv {E A B} (m : ST State E A) (f : A -> ST State E B) s r s' : observes m -> (x ← m; f x) s = (r, s') ->
  (exists a s1, m s = (Ok a, s1) /\ tables s1 = tables s /\ (serial s <= serial s1)%Z /\ f a s1 = (r, s')) \/
  (Db.not_ok r /\ tables s' = tables s).
Proof.
  intros [Hr Hg] [(a & s1 & H1 & Ht & H2)|?]%bind_reads_inv; [left|by right|done]. exists a, s1. split_and!; try done. by eapply Hg.
Qed.
Lemma select_method_Ok {A} wrap (f : Tables -> A) s a s' : method wrap (select f) s = (Ok a, s') -> a = f (tables s).
Proof. intros ([] & s1 & H1%sql_reads_connection & H2%Db.st_map_err_Ok%sql_select_Ok)%ST_bind_Ok. destruct H2 as [-> _]. by rewrite H1. Qed.
Lemma select_first_method_Ok {A} wrap (f : Tables -> option A) s a s' : method wrap (select_first f) s = (Ok a, s') -> f (tables s) = Some a.
Proof. intros ([] & s1 & H1%sql_reads_connection & H2%Db.st_map_err_Ok%select_first_Ok)%ST_bind_Ok. destruct H2 as [H2 _]. by rewrite H1 in H2. Qed.
Lemma lookup_Ok {A} wrap e (f : Tables -> option A) s a s' : lookup wrap e f s = (Ok a, s') -> f (tables s) = Some a.
Proof. intros (o & s1 & H1%select_method_Ok & H2)%ST_bind_Ok. injection H2 as H2 _. apply ok_or_Ok in H2. congruence. Qed.

(** A writing statement succeeds with a row id of the run, or nothing changes. *)
Definition wrote {A} (f : Z -> Tables -> outcome DieselError (A * Tables)) (s : State) (a : A) (s' : State) : Prop :=
  exists k, (serial s <= k < serial s')%Z /\ f k (tables s) = Ok (a, tables s').
Lemma statement_inv {A} (f : Z -> Tables -> outcome DieselError (A * Tables)) s r s' : statement f s = (r, s') ->
  (exists a, r = Ok a /\ wrote f s a s') \/ (Db.not_ok r /\ tables s' = tables s).
Proof.
  intros Hs. destruct r as [a|e|]; [left|right; split; [by intros ?|by eapply sql_statement_not_ok]..].
  exists a. split; [done|]. exists (serial s). split; [|by apply sql_statement_Ok].
  revert Hs. unfold statement. destruct (faulty s); [done|]. destruct (f _ _) as [[a' t]| |]; intros [= -> <-]. cbn. lia.
Qed.
Lemma write_inv {A} wrap (f : Z -> Tables -> outcome DieselError (A * Tables)) s r s' : method wrap (statement f) s = (r, s') ->
  (exists a, r = Ok a /\ wrote f s a s') \/ (Db.not_ok r /\ tables s' = tables s).
Proof.
  intros [([] & s1 & _ & Ht & Hn & Hr)|?]%bind_observes_inv; [|by right|apply observes_connection].
  apply Db.st_map_err_inv in Hr as (r0 & [(a & -> & k & Hk & Hf)|[Hno Hs]]%statement_inv & ->).
  - left. exists a. split; [done|]. exists k. rewrite <- Ht. split; [lia|done].
  - right. rewrite Db.map_err_not_ok. split; [done|congruence].
Qed.
(** The same for a transaction, whose body may use several statements. *)
Lemma transaction_grows_inv {E A} (from : DieselError -> E) (body : ST State E A) s r s' : transaction from body s = (r, s') ->
  (exists a s1 s2, r = Ok a /\ tables s1 = tables s /\ (serial s <= serial s1)%Z /\ body s1 = (Ok a, s2) /\
     tables s' = tables s2 /\ (serial s2 <= serial s')%Z) \/ (Db.not_ok r /\ tables s' = tables s).
Proof.
  unfold transaction.
  destruct ((_ ← st_map_err from (select (fun _ => tt)); a ← body;
    _ ← st_map_err from (select (fun _ => tt)); st_ok a) s) as [r0 s0] eqn:Hrun.
  destruct r0 as [a|e|]; intros [= <- <-]; [left|right; split; [by intros ?|done]..].
  apply ST_bind_Ok in Hrun as ([] & s1 & H1 & (a' & s2 & H2 & ([] & s3 & H3 & [= -> ->])%ST_bind_Ok)%ST_bind_Ok).
  exists a, s1, s2. split_and!; try done.
  - by eapply sql_reads_map_err; [apply sql_reads_select|].
  - by eapply grows_map_err; [apply grows_statement|].
  - by eapply sql_reads_map_err; [apply sql_reads_select|].
  - by eapply grows_map_err; [apply grows_statement|].
Qed.
Lemma find_org_Ok path s org s1 : find_org path s = (Ok org, s1) -> org ∈ orgs (tables s) /\ o_uuid org = path.
Proof. intros Hr%Db.st_map_err_Ok%lookup_Ok. apply Db.first_Some in Hr as [Hp%bool_decide_eq_true ?]. done. Qed.
Lemma find_membership_Ok who org s m s1 : find_membership who org s = (Ok m, s1) ->
  m ∈ memberships (tables s) /\ pair_of m = (who, o_id org).
Proof.
  intros Hr%Db.st_map_err_Ok%select_first_method_Ok. apply Db.first_Some in Hr as [Hp ?]. split; [done|].
  unfold member_of in Hp. apply andb_true_iff in Hp as [H1%bool_decide_eq_true H2%bool_decide_eq_true]. unfold pair_of. congruence.
Qed.

Section handlers.
Context `{cr : Crypto, sj : SettingsJson, vl : Validator}.
Context (now clock later : Z) (new client code : Uuid) (nonce : bytes) (enclave_key : option Encrypt.SecretKey).
Context (user : PlatformUser).
Abbreviation step := (step user clock).
Abbreviation may := (may user).

Lemma observes_find_org path : observes (find_org path).
Proof. apply observes_map_err, observes_lookup. Qed.
Lemma observes_find_membership who org : observes (find_membership who org).
Proof. apply observes_map_err, observes_select_first. Qed.
Lemma observes_require roles org : observes (require user roles org).
Proof. apply observes_bind; [apply observes_find_membership|]. intros m. case_decide; [apply observes_ok|apply observes_err]. Qed.
Lemma observes_project_in org pid : observes (project_in org pid).
Proof. apply observes_bind; [apply observes_map_err, observes_lookup|]. intros m. case_decide; [apply observes_ok|apply observes_err]. Qed.
Lemma observes_find_project roles path pid : observes (find_project user roles path pid).
Proof.
  apply observes_bind; [apply observes_find_org|]. intros org. apply observes_bind; [apply observes_project_in|]. intros p.
  apply observes_bind; [apply observes_require|]. intros ?. apply observes_ok.
Qed.
Lemma observes_bad_request b : observes (bad_request_unless b).
Proof. destruct b; [apply observes_ok|apply observes_err]. Qed.
Lemma observes_no_project_named name org : observes (no_project_named name org).
Proof. apply observes_bind; [apply observes_map_err, observes_select|]. intros o. case_decide; [apply observes_err|apply observes_ok]. Qed.

Lemma require_Ok roles org s s1 u : require user roles org s = (Ok u, s1) -> authorised user roles (o_id org) (tables s).
Proof.
  intros (m & s2 & [Hm Hp]%find_membership_Ok & Hr)%ST_bind_Ok. case_decide; [|done]. injection Hp as Hu Ho. exists m. by split_and!.
Qed.
Lemma project_in_Ok org pid s p s1 : project_in org pid s = (Ok p, s1) -> project_at pid org p (tables s).
Proof.
  intros (q & s2 & Hq%Db.st_map_err_Ok%lookup_Ok & Hr)%ST_bind_Ok. apply Db.first_Some in Hq as [Hq%bool_decide_eq_true Hin].
  case_decide; [|done]. injection Hr as <- <-. by split_and!.
Qed.
Lemma find_project_Ok roles path pid s x s1 : find_project user roles path pid s = (Ok x, s1) ->
  may roles path x.1 (tables s) /\ project_at pid x.1 x.2 (tables s).
Proof.
  intros (org & s2 & Ho & Hr)%ST_bind_Ok. apply ST_bind_Ok in Hr as (p & s3 & Hp & Hr). apply ST_bind_Ok in Hr as ([] & s4 & Hq & [= <- <-]).
  pose proof (proj1 (observes_find_org path) _ _ _ Ho) as H2. pose proof (proj1 (observes_project_in org pid) _ _ _ Hp) as H3.
  apply find_org_Ok in Ho as [Ho Hu]. apply project_in_Ok in Hp. apply require_Ok in Hq. rewrite H3, H2 in Hq. rewrite H2 in Hp.
  split; [by split_and!|done].
Qed.

(** ** What a run does *)
(** The requests that change something when they succeed. *)
Definition writes (r : Request) : bool :=
  match r with
  | ListOrgs | ListMemberships _ | ListInvites _ | GetInvite _ _ | ListProjects _ | GetProject _ _ | ListSecrets _ _
  | GetEmailSettings _ _ | GetOAuthSettings _ _ => false
  | _ => true
  end.
(** The requests that read again after the change, and may fail then. *)
Definition late (r : Request) : bool :=
  match r with UpdateMembership _ _ _ | UpdateEmailSettings _ _ _ | UpdateOAuthSettings _ _ _ => true | _ => false end.
Definition does (r : Request) (s : State) (ok : bool) (s' : State) : Prop :=
  (step (serial s) (serial s') (tables s) r (tables s') /\ (ok = true \/ late r = true)) \/
  (tables s' = tables s /\ (ok = true -> writes r = false)).

Lemma does_nothing {A} r s (a : outcome Api.ApiError A) s' : Db.not_ok a -> tables s' = tables s -> does r s (is_ok a) s'.
Proof. intros Hn Ht. right. split; [done|]. destruct a as [a| |]; [by destruct (Hn a)|done..]. Qed.
Lemma does_read {A} r s (a : outcome Api.ApiError A) s' : writes r = false -> tables s' = tables s -> does r s (is_ok a) s'.
Proof. intros Hn Ht. by right. Qed.
(** After a prefix that only observes. *)
Lemma step_from (s1 s s' : State) r t' : tables s1 = tables s -> (serial s <= serial s1)%Z -> step (serial s1) (serial s') (tables s1) r t' ->
  step (serial s) (serial s') (tables s) r t'.
Proof.
  intros Ht Hn Hs. rewrite Ht in Hs. destruct Hs; econstructor; eauto; lia.
Qed.
Lemma does_from (s1 s : State) ok r s' : tables s1 = tables s -> (serial s <= serial s1)%Z -> does r s1 ok s' -> does r s ok s'.
Proof. intros Ht Hn [[Hs ?]|[? ?]]; [left|right]; (split; [|done]); [by eapply step_from|congruence]. Qed.
Lemma does_observed {E A B} r s (m : ST State E A) (f : A -> ST State E B) (b : outcome E B) s' : observes m ->
  (x ← m; f x) s = (b, s') ->
  (forall a s1, m s = (Ok a, s1) -> tables s1 = tables s -> f a s1 = (b, s') -> does r s1 (is_ok b) s') ->
  does r s (is_ok b) s'.
Proof.
  intros Hm [(a & s1 & H1 & Ht & Hn & H2)|[Hno Ht]]%bind_observes_inv Hf; [by eapply does_from; [done..|eapply Hf]| |done].
  right. split; [done|]. destruct b as [b| |]; [by destruct (Hno b)|done..].
Qed.
(** The organization of the path, and the role. *)
Lemma does_org {B} r s e path roles (f : Org -> ST State Api.ApiError B) (b : outcome Api.ApiError B) s' :
  (org ← st_map_err (fun _ => e) (get_org_by_uuid path); _ ← require user roles org; f org) s = (b, s') ->
  (forall org s1, may roles path org (tables s1) -> f org s1 = (b, s') -> does r s1 (is_ok b) s') -> does r s (is_ok b) s'.
Proof.
  intros Hr Hf. eapply does_observed; [|exact Hr|]; [apply observes_map_err, observes_lookup|]. clear Hr. intros org s1 Ho Ht1 Hr.
  apply Db.st_map_err_Ok, lookup_Ok, Db.first_Some in Ho as [Hp%bool_decide_eq_true Ho]. rewrite <- Ht1 in Ho.
  eapply does_observed; [|exact Hr|]; [apply observes_require|]. clear Hr. intros [] s2 Hq%require_Ok Ht2 Hr. rewrite <- Ht2 in Ho, Hq.
  eapply Hf; [|exact Hr]. by split_and!.
Qed.
(** The project of the path, and the role. *)
Lemma does_project {B} r s path pid roles (f : Org * OrgProject -> ST State Api.ApiError B) (b : outcome Api.ApiError B) s' :
  (found ← find_project user roles path pid; f found) s = (b, s') ->
  (forall org p s1, may roles path org (tables s1) -> project_at pid org p (tables s1) -> f (org, p) s1 = (b, s') ->
     does r s1 (is_ok b) s') -> does r s (is_ok b) s'.
Proof.
  intros Hr Hf. eapply does_observed; [|exact Hr|]; [apply observes_find_project|]. intros [org p] s1 [Hm Hp]%find_project_Ok Ht Hr1.
  rewrite <- Ht in Hm, Hp. by eapply Hf.
Qed.
(** The last call writes with one statement. *)
Lemma does_one_write {A} r s (wrap : DieselError -> DBError) (g : DBError -> Api.ApiError)
    (w : Z -> Tables -> outcome DieselError (A * Tables)) (b : outcome Api.ApiError A) s' :
  st_map_err g (method wrap (statement w)) s = (b, s') ->
  (forall a k t', (serial s <= k < serial s')%Z -> w k (tables s) = Ok (a, t') -> step (serial s) (serial s') (tables s) r t') ->
  does r s (is_ok b) s'.
Proof.
  intros (r0 & [(a & -> & k & Hk & Hw)|[Hn Ht]]%write_inv & ->)%Db.st_map_err_inv Hs.
  - left. split; [|by left]. by eapply Hs.
  - by apply does_nothing; [apply Db.map_err_not_ok|].
Qed.
(** What only builds the answer. *)
Lemma does_answer {A B} r s (m : ST State Api.ApiError A) (f : A -> B) (b : outcome Api.ApiError B) s' :
  (a ← m; st_ok (f a)) s = (b, s') -> (forall b' s1, m s = (b', s1) -> does r s (is_ok b') s1) -> does r s (is_ok b) s'.
Proof.
  intros [(a & s1 & H1 & [= <- <-])|(r0 & H1 & Hn0 & Hn)]%Db.ST_bind_inv Hm; [by apply (Hm (Ok a))|].
  specialize (Hm r0 _ H1). assert (is_ok r0 = is_ok b) as <-; [|done].
  destruct r0 as [a| |]; [by destruct (Hn0 a)|..]; (destruct b as [c| |]; [by destruct (Hn c)|done..]).
Qed.

(** ** The writing handlers *)
Lemma delete_org_does path s b s' : delete_org user path s = (b, s') -> does (DeleteOrg path) s (is_ok b) s'.
Proof.
  intros Hr. eapply does_org; [exact Hr|]. clear s Hr. intros org s Hmay Hr. eapply does_one_write; [exact Hr|].
  intros a k t' _ [= _ <-].
  assert (existsb (org_by_id (o_id org)) (orgs (tables s)) = true) as ->; [|by constructor].
  apply Db.existsb_elem. exists org. split; [apply Hmay|]. by apply bool_decide_eq_true.
Qed.
Lemma create_invite_does path body s b s' : create_invite now clock code user path body s = (b, s') ->
  does (CreateInvite path body) s (is_ok b) s'.
Proof.
  intros Hr. eapply does_org; [exact Hr|]. clear s Hr. intros org s Hmay Hr.
  eapply does_observed; [|exact Hr|]; [apply observes_lift|]. clear Hr. intros role s1 [= Hrole <-] _ Hr.
  eapply does_answer; [exact Hr|]. clear b s' Hr. intros b s' Hr. eapply does_one_write; [exact Hr|]. clear Hr.
  intros a k t' Hk. cbn -[HOUR]. destruct (negb _); [done|]. destruct (existsb _ _) eqn:Hex; [done|]. destruct (negb _); [done|]. intros [= _ <-].
  assert (role = ci_role body) as -> by (destruct (ci_role body); vm_compute in Hrole; congruence).
  apply (S_create_invite user clock _ _ _ path body code now k org); [done|done|].
  intros v Hv Hc. apply not_true_iff_false in Hex. apply Hex, Db.existsb_elem. exists v. split; [done|]. by apply bool_decide_eq_true.
Qed.
Lemma find_invite_Ok c org s v s1 : find_invite c org s = (Ok v, s1) -> v ∈ invites (tables s) /\ v_code v = c /\ v_org_id v = o_id org.
Proof.
  intros (w & s2 & Hw%Db.st_map_err_Ok%lookup_Ok & Hr)%ST_bind_Ok. apply Db.first_Some in Hw as [Hc%bool_decide_eq_true Hin].
  case_decide; [|done]. injection Hr as <- <-. by split_and!.
Qed.
Lemma observes_find_invite c org : observes (find_invite c org).
Proof. apply observes_bind; [apply observes_map_err, observes_lookup|]. intros v. case_decide; [apply observes_ok|apply observes_err]. Qed.
Lemma delete_invite_does path c s b s' : delete_invite user path c s = (b, s') -> does (DeleteInvite path c) s (is_ok b) s'.
Proof.
  intros Hr. eapply does_org; [exact Hr|]. clear s Hr. intros org s Hmay Hr.
  eapply does_observed; [|exact Hr|]; [apply observes_find_invite|]. clear Hr. intros v s1 (Hv & Hc & Ho)%find_invite_Ok Ht Hr. rewrite <- Ht in Hmay, Hv.
  eapply does_one_write; [exact Hr|]. intros a k t' _ [= _ <-]. by eapply S_delete_invite.
Qed.
(** *** The transactions *)
Lemma statement_wrote {A} (w : Z -> Tables -> outcome DieselError (A * Tables)) s a s' : statement w s = (Ok a, s') ->
  w (serial s) (tables s) = Ok (a, tables s') /\ serial s' = (serial s + 1)%Z.
Proof.
  intros Hs. split; [by apply sql_statement_Ok|]. revert Hs. unfold statement. destruct (faulty s); [done|].
  destruct (w _ _) as [[a' t]| |]; by intros [= -> <-].
Qed.
Lemma membership_insert_Ok n s m s' : membership_insert now n s = (Ok m, s') ->
  m = MkMembership (serial s) (nm_platform_user_id n) (nm_org_id n) (nm_role n) now now /\
  existsb (member_of (nm_platform_user_id n) (nm_org_id n)) (memberships (tables s)) = false /\
  exists_user (nm_platform_user_id n) (tables s) = true /\
  tables s' = set_memberships (memberships (tables s) ++ [m]) (tables s) /\ serial s' = (serial s + 1)%Z.
Proof.
  intros [Hw Hn]%statement_wrote. cbv beta zeta in Hw. destruct (negb (role_checked _)); [done|]. destruct (existsb _ _); [done|].
  destruct (exists_user _ _ && _) eqn:Hu; [|done]. apply andb_true_iff in Hu as [Hu _]. injection Hw as <- Ht. by split_and!.
Qed.
Lemma create_org_does name s b s' : create_org now new user name s = (b, s') -> does (CreateOrg name) s (is_ok b) s'.
Proof.
  intros Hr. eapply does_observed; [|exact Hr|]; [apply observes_bad_request|]. clear Hr. intros [] s0 _ _ Hr.
  clear s. rename s0 into s.
  eapply does_answer; [exact Hr|]. clear b s' Hr. intros b s' (r0 & Hr & ->)%Db.st_map_err_inv.
  apply bind_observes_inv in Hr as [([] & s1 & _ & Ht & Hn & Hr)|[Hno Ht]]; [|apply does_nothing; [by apply Db.map_err_not_ok|done]|apply observes_connection].
  apply transaction_grows_inv in Hr as [(org & s2 & s3 & -> & Ht2 & Hn2 & Hr & Ht3 & Hn3)|[Hno Ht2]];
    [|apply does_nothing; [by apply Db.map_err_not_ok|congruence]].
  left. split; [|by left]. apply ST_bind_Ok in Hr as (o & s4 & Ho%Db.st_map_err_Ok & Hr).
  apply ST_bind_Ok in Hr as (m & s5 & Hm%Db.st_map_err_Ok%membership_insert_Ok & [= -> <-]).
  apply statement_wrote in Ho as [Ho Hn4]. cbv beta zeta in Ho. destruct (existsb _ _) eqn:Hex; [done|]. injection Ho as Ho Ht4.
  destruct Hm as (-> & _ & Hu & Ht5 & Hn5). cbn [nm_platform_user_id nm_org_id nm_role new_membership o_id] in *.
  rewrite Ht3, Ht5, <- Ht4, Ht2, Ht, <- Ho. cbn [memberships set_orgs o_id].
  apply (S_create_org user clock _ _ _ name now new (serial s2) (serial s4)); [lia|lia| |].
  - intros x Hx Hux. apply not_true_iff_false in Hex. apply Hex, Db.existsb_elem. exists x. rewrite Ht2, Ht. split; [done|].
    by apply bool_decide_eq_true.
  - rewrite <- Ht4 in Hu. rewrite <- Ht, <- Ht2. exact Hu.
Qed.

Lemma load_target_Ok path who s x s1 : load_target user path who s = (Ok x, s1) ->
  may [Owner] path x.1 (tables s) /\ x.2 ∈ memberships (tables s) /\ pair_of x.2 = (who, o_id x.1).
Proof.
  intros (org & s2 & Ho & Hr)%ST_bind_Ok. apply ST_bind_Ok in Hr as ([] & s3 & Hq & Hr). apply ST_bind_Ok in Hr as (m & s4 & Hm & [= <- <-]).
  pose proof (proj1 (observes_find_org path) _ _ _ Ho) as H2. pose proof (proj1 (observes_require _ org) _ _ _ Hq) as H3.
  apply find_org_Ok in Ho as [Ho Hu]. apply require_Ok in Hq. rewrite H2 in Hq.
  apply Db.st_map_err_Ok, select_first_method_Ok, Db.first_Some in Hm as [Hp Hm].
  rewrite H3, H2 in Hm. unfold member_of in Hp. apply andb_true_iff in Hp as [Hp1%bool_decide_eq_true Hp2%bool_decide_eq_true].
  split_and!; try done. unfold pair_of. cbn. congruence.
Qed.
Lemma observes_load_target path who : observes (load_target user path who).
Proof.
  apply observes_bind; [apply observes_find_org|]. intros org. apply observes_bind; [apply observes_require|]. intros ?.
  apply observes_bind; [apply observes_map_err, observes_select_first|]. intros ?. apply observes_ok.
Qed.
(** The owners were counted in the transaction. *)
Lemma check_owners_Ok org s u s' : check_owners org s = (Ok u, s') ->
  1 < length (matching_rows (owner_of org) (memberships (tables s))) /\ tables s' = tables s /\ (serial s <= serial s')%Z.
Proof.
  intros (l & s1 & Hl & Hr)%ST_bind_Ok. pose proof (grows_statement _ _ _ _ Hl). apply sql_select_Ok in Hl as [-> Ht].
  case_decide; [done|]. injection Hr as _ <-. split_and!; [lia|done|done].
Qed.
(** A guarded write of the membership [m]. *)
Lemma guarded_inv (m : OrgMembership) (c : Prop) `{!Decision c} (w : Z -> Tables -> outcome DieselError (unit * Tables)) (wrap : DieselError -> DBError) s (r : outcome DBError unit) s' :
  method wrap (transaction (fun e => e) (_ ← (if decide c then check_owners (m_org_id m) else st_ok tt); statement w)) s = (r, s') ->
  (r = Ok tt /\ (serial s <= serial s')%Z /\ (exists k, w k (tables s) = Ok (tt, tables s')) /\
    (c -> 1 < length (matching_rows (owner_of (m_org_id m)) (memberships (tables s))))) \/
  (Db.not_ok r /\ tables s' = tables s).
Proof.
  intros [([] & s1 & _ & Ht & Hn & Hr)|?]%bind_observes_inv; [|by right|apply observes_connection].
  apply Db.st_map_err_inv in Hr as (r0 & Hr & ->).
  apply transaction_grows_inv in Hr as [([] & s2 & s3 & -> & Ht2 & Hn2 & Hr & Ht3 & Hn3)|[Hno Ht2]]; [left|right; rewrite Db.map_err_not_ok; split; [done|congruence]].
  apply ST_bind_Ok in Hr as ([] & s4 & Hc & Hw). pose proof (grows_statement _ _ _ _ Hw). apply sql_statement_Ok in Hw.
  assert (tables s4 = tables s2 /\ (serial s2 <= serial s4)%Z /\ (c -> 1 < length (matching_rows (owner_of (m_org_id m)) (memberships (tables s2))))) as (Ht4 & Hn4 & Hl).
  { case_decide; [apply check_owners_Ok in Hc; naive_solver|injection Hc as <-; by split_and!]. }
  rewrite Ht4, Ht2, Ht, <- Ht3 in Hw. rewrite Ht2, Ht in Hl. split_and!; [done|lia|eauto|done].
Qed.
Lemma update_membership_does path who role s b s' : update_membership now user path who role s = (b, s') ->
  does (UpdateMembership path who role) s (is_ok b) s'.
Proof.
  intros Hr. eapply does_observed; [|exact Hr|]; [apply observes_load_target|]. clear Hr. intros [org m] s1 Hl Ht Hr.
  apply load_target_Ok in Hl as (Hmay & Hm & Hp). rewrite <- Ht in Hmay, Hm. cbn in Hmay, Hm, Hp. clear Ht.
  apply Db.ST_bind_inv in Hr as [([] & s2 & Hw & Hr)|(r0 & Hw & Hn0 & Hno)].
  - apply Db.st_map_err_Ok, guarded_inv in Hw as [(_ & Hn & (k & Hk) & Hl)|[Hno _]]; [|by destruct (Hno tt)].
    assert (tables s' = tables s2 /\ (serial s2 <= serial s')%Z) as [Ht2 Hn2].
    { split; eapply observes_bind; try exact Hr; try (apply observes_map_err, observes_select_first); intros ?; apply observes_ok. }
    left. split; [|by right]. rewrite Ht2. destruct (_ && _); [done|]. injection Hk as <-.
    apply (S_update_membership user clock _ _ _ path who role now org m); [done..|].
    intros Hne Hown. by apply Hl.
  - apply does_nothing; [done|]. apply Db.st_map_err_inv in Hw as (r1 & Hw & ->). rewrite Db.map_err_not_ok in Hn0.
    apply guarded_inv in Hw as [(-> & _)|[_ ?]]; [by destruct (Hn0 tt)|done].
Qed.
Lemma delete_membership_does path who s b s' : delete_membership user path who s = (b, s') ->
  does (DeleteMembership path who) s (is_ok b) s'.
Proof.
  intros Hr. eapply does_observed; [|exact Hr|]; [apply observes_load_target|]. clear Hr. intros [org m] s1 Hl Ht Hr.
  apply load_target_Ok in Hl as (Hmay & Hm & Hp). rewrite <- Ht in Hmay, Hm. cbn in Hmay, Hm, Hp.
  apply Db.st_map_err_inv in Hr as (r0 & Hw & ->). apply guarded_inv in Hw as [(-> & Hn & (k & Hk) & Hl)|[Hno Hs]].
  - left. split; [|by left]. injection Hk as <-. by eapply S_delete_membership.
  - apply does_nothing; [by apply Db.map_err_not_ok|done].
Qed.
Lemma mark_as_used_Ok v s u s' : mark_as_used now later v s = (Ok u, s') ->
  tables s' = set_invites (update_rows (fun r => invite_by_id (v_id v) r && negb (v_used r))
    (fun r => invite_set now (v_email r) true (v_expires_at r) r) (invites (tables s))) (tables s) /\ (serial s <= serial s')%Z.
Proof.
  unfold mark_as_used. destruct (v_used v); [done|]. case_decide; [done|].
  intros (rows & s1 & [Hw Hn]%Db.st_map_err_Ok%statement_wrote & Hr)%ST_bind_Ok. cbv beta in Hw. injection Hw as _ Ht.
  case_decide; [done|]. injection Hr as _ <-. split; [done|lia].
Qed.
Lemma accept_invite_does c s b s' : accept_invite now clock later user c s = (b, s') -> does (AcceptInvite c) s (is_ok b) s'.
Proof.
  intros Hr. eapply does_observed; [|exact Hr|]; [apply observes_map_err, observes_lookup|]. clear Hr.
  intros v s1 Hv%Db.st_map_err_Ok%lookup_Ok Ht Hr. apply Db.first_Some in Hv as [Hc%bool_decide_eq_true Hv]. rewrite <- Ht in Hv.
  cbv beta in Hr. destruct (v_used v) eqn:Hu; [injection Hr as <- <-; by apply does_nothing|].
  case_decide as Hexp; [injection Hr as <- <-; by apply does_nothing|].
  case_decide as Hemail; [injection Hr as <- <-; by apply does_nothing|].
  eapply does_answer; [exact Hr|]. clear b s' Hr. intros b s' (r0 & Hr & ->)%Db.st_map_err_inv.
  apply bind_observes_inv in Hr as [([] & s2 & _ & Ht2 & Hn2 & Hr)|[Hno Ht2]]; [|apply does_nothing; [by apply Db.map_err_not_ok|done]|apply observes_connection].
  apply transaction_grows_inv in Hr as [(m & s3 & s4 & -> & Ht3 & Hn3 & Hr & Ht4 & Hn4)|[Hno Ht3]];
    [|apply does_nothing; [by apply Db.map_err_not_ok|congruence]].
  left. split; [|by left]. apply ST_bind_Ok in Hr as (m' & s5 & Hm%Db.st_map_err_Ok%membership_insert_Ok & Hr).
  apply ST_bind_Ok in Hr as ([] & s6 & Hmark%Db.st_map_err_Ok%mark_as_used_Ok & [= -> <-]). destruct Hmark as [Ht6 Hn6].
  destruct Hm as (-> & Hex & Hus & Ht5 & Hn5). cbn [nm_platform_user_id nm_org_id nm_role new_membership] in *.
  rewrite Ht4, Ht6, Ht5, Ht3, Ht2. cbn [invites set_memberships]. rewrite Ht3, Ht2 in Hex, Hus.
  apply (S_accept_invite user clock _ _ _ c now (serial s3) v); [|lia|done|done].
  split_and!; [done|done|done|lia|]. by destruct (decide (v_email v = u_email user)).
Qed.

(** *** Projects, secrets, settings *)
Lemma existsb_false {A} (p : A -> bool) l x : existsb p l = false -> x ∈ l -> p x = false.
Proof. intros Hf Hx. apply not_true_iff_false. intros Hp. apply not_true_iff_false in Hf. apply Hf, Db.existsb_elem. eauto. Qed.
Lemma create_project_does path body s b s' : create_project now new client user path body s = (b, s') ->
  does (CreateProject path body) s (is_ok b) s'.
Proof.
  intros Hr. eapply does_observed; [|exact Hr|]; [apply observes_bad_request|]. clear Hr. intros [] s0 _ _ Hr.
  clear s. rename s0 into s. eapply does_org; [exact Hr|]. clear s Hr. intros org s Hmay Hr.
  eapply does_observed; [|exact Hr|]; [apply observes_no_project_named|]. clear Hr. intros [] s1 _ Ht Hr. rewrite <- Ht in Hmay.
  eapply does_answer; [exact Hr|]. clear b s' Hr. intros b s' Hr. eapply does_one_write; [exact Hr|]. clear Hr.
  intros a k t' Hk. cbv beta zeta. destruct (negb _); [done|]. destruct (existsb _ _) eqn:Hex; [done|]. destruct (negb _); [done|]. intros [= _ <-].
  apply (S_create_project user clock _ _ _ path body new client now k org); [done|done|].
  intros p Hp. apply (existsb_false _ _ _ Hex) in Hp. apply orb_false_iff in Hp as [[H1 H2]%orb_false_iff H3].
  unfold project_by_uuid, project_by_client_id, project_named, project_of_org in *. rewrite bool_decide_eq_false in H1, H2.
  apply andb_false_iff in H3. rewrite !bool_decide_eq_false in H3. split_and!; [done|done|]. intros [= ? ?]. naive_solver.
Qed.
Lemma first_by_id (p : OrgProject) l : unique p_id l -> p ∈ l -> first (project_by_id (p_id p)) l = Some p.
Proof.
  intros Hu Hp. destruct (first _ l) as [q|] eqn:Hq.
  - apply Db.first_Some in Hq as [Hid%bool_decide_eq_true Hin]. f_equal. by eapply (unique_same p_id).
  - apply fmap_None, list_find_None in Hq. rewrite Forall_forall in Hq. destruct (Hq p Hp). by apply bool_decide_eq_true.
Qed.
Lemma update_project_does path pid body s b s' : unique p_id (projects (tables s)) ->
  update_project now user path pid body s = (b, s') -> does (UpdateProject path pid body) s (is_ok b) s'.
Proof.
  intros Hids Hr. unfold update_project in Hr. eapply does_observed; [|exact Hr|]; [apply observes_find_project|]. clear Hr.
  intros [org p] s1 [Hmay Hat]%find_project_Ok Ht Hr. rewrite <- Ht in Hids, Hmay, Hat. cbn [fst snd] in *.
  eapply does_observed; [|exact Hr|]; [destruct (up_name body); [case_decide; [apply observes_no_project_named|]|]; apply observes_ok|]. clear Hr.
  intros [] s2 _ Ht2 Hr. rewrite <- Ht2 in Hids, Hmay, Hat. eapply does_answer; [exact Hr|]. clear b s' Hr. intros b s' Hr.
  eapply does_one_write; [exact Hr|]. clear Hr. intros a k t' Hk. cbv beta zeta. cbn [with_update p_id].
  rewrite first_by_id by (done || apply Hat). destruct (negb _); [done|]. destruct (existsb _ _) eqn:Hex; [done|]. intros [= _ <-].
  apply (S_update_project user clock _ _ _ path pid body now org p); [done|done|].
  intros q Hq [= Hname Horg]. apply (existsb_false _ _ _ Hex) in Hq. unfold project_named, project_of_org, project_by_id in Hq.
  rewrite bool_decide_true, bool_decide_true in Hq by done. cbn in Hq. apply negb_false_iff, bool_decide_eq_true in Hq. done.
Qed.
Lemma delete_project_does path pid s b s' : delete_project user path pid s = (b, s') -> does (DeleteProject path pid) s (is_ok b) s'.
Proof.
  intros Hr. eapply does_project; [exact Hr|]. clear s Hr. intros org p s Hmay Hat Hr. eapply does_one_write; [exact Hr|].
  intros a k t' _ [= _ <-]. by eapply S_delete_project.
Qed.
Lemma create_secret_does path pid body s b s' : create_secret now nonce enclave_key user path pid body s = (b, s') ->
  does (CreateSecret path pid body) s (is_ok b) s'.
Proof.
  intros Hr. eapply does_observed; [|exact Hr|]; [apply observes_bad_request|]. clear Hr. intros [] s0 _ _ Hr.
  clear s. rename s0 into s. eapply does_project; [exact Hr|]. clear s Hr. intros org p s Hmay Hat Hr.
  eapply does_observed; [|exact Hr|]; [apply observes_lift|]. clear Hr. intros sb s1 _ Ht Hr. rewrite <- Ht in Hmay, Hat.
  eapply does_observed; [|exact Hr|]; [apply observes_bind; [apply observes_lift|intros ?; apply observes_lift]|]. clear Hr.
  intros enc s2 _ Ht2 Hr. rewrite <- Ht2 in Hmay, Hat. eapply does_answer; [exact Hr|]. clear b s' Hr. intros b s' Hr.
  eapply does_one_write; [exact Hr|]. clear Hr. intros a k t' Hk. cbv beta zeta. cbn [ns_key_name ns_project_id ns_secret_enc fst snd].
  destruct (first _ _) as [sec|] eqn:Hf.
  - intros [= _ <-]. by eapply S_set_secret.
  - destruct (negb _); [done|]. intros [= _ <-]. eapply S_new_secret; [done|done|done|].
    intros x Hx [= Hkey Hpr]. apply fmap_None, list_find_None in Hf. rewrite Forall_forall in Hf. apply (Hf x Hx).
    unfold secret_of. by rewrite andb_true_iff, !bool_decide_eq_true.
Qed.
Lemma delete_secret_does path pid key s b s' : delete_secret user path pid key s = (b, s') -> does (DeleteSecret path pid key) s (is_ok b) s'.
Proof.
  intros Hr. eapply does_project; [exact Hr|]. clear s Hr. intros org p s Hmay Hat Hr.
  eapply does_observed; [|exact Hr|]; [apply observes_map_err, observes_select|]. clear Hr. intros o s1 Ho%Db.st_map_err_Ok%select_method_Ok Ht Hr.
  eapply does_observed; [|exact Hr|]; [apply observes_lift|]. clear Hr. intros sec s2 [= Hsec%ok_or_Ok _] Ht2 Hr. subst o.
  apply Db.first_Some in Hsec as [Hk Hin]. rewrite <- Ht in Hmay, Hat, Hin. rewrite <- Ht2 in Hmay, Hat, Hin.
  eapply does_one_write; [exact Hr|]. intros a k t' _ [= _ <-]. eapply S_delete_secret; [done|done|done|].
  unfold secret_of in Hk. apply andb_true_iff in Hk as [H1%bool_decide_eq_true H2%bool_decide_eq_true]. unfold key_in. cbn in H2. congruence.
Qed.
(** Settings: read, then updated or inserted. *)
Lemma write_settings_inv p c v s r s' : write_settings now p c v s = (r, s') ->
  (exists g k, r = Ok g /\ (serial s <= k < serial s')%Z /\
    ((exists g0, g0 ∈ settings (tables s) /\ category_in g0 = (p, category_as_str c) /\
        tables s' = set_settings (update_rows (fun g' => bool_decide (g_id g' = g_id g0))
          (fun g' => MkSetting (g_id g') (g_project_id g') (g_category g0) v (g_created_at g') now) (settings (tables s))) (tables s)) \/
     ((forall g, g ∈ settings (tables s) -> category_in g <> (p, category_as_str c)) /\
        tables s' = set_settings (settings (tables s) ++ [MkSetting k p (category_as_str c) v now now]) (tables s)))) \/
  (Db.not_ok r /\ tables s' = tables s).
Proof.
  intros [(o & s1 & Ho & Ht & Hn & Hr)|?]%bind_observes_inv; [|by right|apply observes_map_err; split; [apply sql_reads_select|apply grows_statement]].
  apply Db.st_map_err_Ok, sql_select_Ok in Ho as [-> _].
  destruct (first _ _) as [g0|] eqn:Hf.
  - apply Db.first_Some in Hf as [Hg Hin]. unfold setting_of in Hg. apply andb_true_iff in Hg as [H1%bool_decide_eq_true H2%bool_decide_eq_true].
    apply Db.ST_bind_inv in Hr as [([] & s2 & [Hw Hn2]%Db.st_map_err_Ok%statement_wrote & [= <- <-])|(r0 & Hw & Hn0 & Hno)].
    + left. exists (with_settings v g0), (serial s1). split_and!; [done|lia|lia|]. left. exists g0. split_and!; [done|unfold category_in; congruence|].
      rewrite <- Ht. by injection Hw as <-.
    + right. split; [done|]. apply Db.st_map_err_inv in Hw as (r1 & Hw & ->). rewrite Db.map_err_not_ok in Hn0.
      apply sql_statement_not_ok in Hw; [congruence|done].
  - apply Db.st_map_err_inv in Hr as (r0 & [(g & -> & k & Hk & Hw)|[Hno Hs]]%statement_inv & ->).
    + left. cbv beta zeta in Hw. destruct (existsb _ _); [done|]. destruct (negb _); [done|]. injection Hw as Hg Hts.
      exists g, k. split_and!; [done|lia|lia|]. right. split; [|by rewrite <- Hts, Ht].
      intros x Hx [= H1 H2]. apply fmap_None, list_find_None in Hf. rewrite Forall_forall in Hf. apply (Hf x Hx).
      unfold setting_of. by rewrite andb_true_iff, !bool_decide_eq_true.
    + right. rewrite Db.map_err_not_ok. split; [done|congruence].
Qed.
(** Both settings routes, after their validation. *)
Lemma settings_does {A} r path pid c (v : option Value) (parse : ProjectSetting -> option A) s (b : outcome Api.ApiError A) s' :
  match r with
  | UpdateEmailSettings path' pid' _ => (path', pid', c) = (path, pid, Email)
  | UpdateOAuthSettings path' pid' _ => (path', pid', c) = (path, pid, OAuth)
  | _ => False
  end ->
  (found ← find_project user [Owner; Admin] path pid;
   g ← st_map_err api_error (v ← serialization v; _ ← db_connection; write_settings now (p_id found.2) c v);
   st_lift (ok_or Api.InternalServerError (parse g))) s = (b, s') -> does r s (is_ok b) s'.
Proof.
  intros Hreq Hr. eapply does_project; [exact Hr|]. clear s Hr. intros org p s Hmay Hat Hr.
  assert (late r = true) as Hlate by (destruct r; done).
  assert (forall r0 s1, (v ← serialization v; _ ← db_connection; write_settings now (p_id p) c v) s = (r0, s1) ->
    (is_ok r0 = true /\ step (serial s) (serial s1) (tables s) r (tables s1)) \/ (Db.not_ok r0 /\ tables s1 = tables s)) as Hw.
  { clear Hr. intros r0 s1 [(w & s2 & _ & Ht2 & Hn2 & Hr)|?]%bind_observes_inv; [|by right|apply observes_lift].
    apply bind_observes_inv in Hr as [([] & s3 & _ & Ht3 & Hn3 & Hr)|[? ?]]; [|right; split; [done|congruence]|apply observes_connection].
    apply write_settings_inv in Hr as [(g & k & -> & Hk & Hcase)|[? ?]]; [left; split; [done|]|right; split; [done|congruence]].
    rewrite Ht3, Ht2 in Hcase. destruct Hcase as [(g0 & Hin & Hcat & ->)|[Hnew ->]].
    - by eapply S_set_setting.
    - eapply S_new_setting; [done|done|done|lia|done]. }
  apply Db.ST_bind_inv in Hr as [(g & s1 & H1%Db.st_map_err_Ok%Hw & [= <- <-])|(r0 & (r1 & H1%Hw & ->)%Db.st_map_err_inv & Hn0 & Hno)].
  - destruct H1 as [[_ Hs]|[Hn _]]; [|by destruct (Hn g)]. left. split; [done|by right].
  - rewrite Db.map_err_not_ok in Hn0. destruct H1 as [[Hok _]|[_ Ht]]; [destruct r1 as [a| |]; [by destruct (Hn0 a)|done..]|].
    by apply does_nothing.
Qed.

(** *** The reading handlers *)
Lemma observes_list_orgs l : observes (list_orgs_of l).
Proof.
  induction l as [|m l IH]; [apply observes_ok|]. cbn [list_orgs_of].
  assert (observes (get_org_by_id (m_org_id m))) as [Hr Hg] by apply observes_lookup.
  assert (forall org, observes (rest ← list_orgs_of l; @st_ok _ Api.ApiError _ (MkOrgResponse (o_uuid org) (o_name org) :: rest))) as Hrest.
  { intros org. apply observes_bind; [exact IH|]. intros ?. apply observes_ok. }
  split; intros s r s'; destruct (get_org_by_id (m_org_id m) s) as [[org|e|] s1] eqn:H1; pose proof (Hr _ _ _ H1) as Ht; pose proof (Hg _ _ _ H1) as Hn.
  - intros H2. etransitivity; [by eapply Hrest|done].
  - intros H2. etransitivity; [by eapply IH|done].
  - by intros [= <- <-].
  - intros H2%Hrest. lia.
  - intros H2%IH. lia.
  - by intros [= <- <-].
Qed.
Lemma observes_is_org_admin org : observes (is_org_admin user org).
Proof.
  assert (observes (get_org_membership_by_platform_user_and_org (u_uuid user) (o_id org))) as [Hr Hg] by apply observes_select_first.
  unfold is_org_admin. split; intros s r s'; destruct (get_org_membership_by_platform_user_and_org _ _ s) as [[m|e|] s1] eqn:H1;
    intros [= <- <-]; by eapply Hr || by eapply Hg.
Qed.
Lemma observes_settings {A} p c (parse : ProjectSetting -> option A) :
  observes (g ← get_project_settings p c; match g with Some g => e ← serialization (parse g); st_ok (Some e) | None => st_ok None end).
Proof.
  apply observes_bind; [apply observes_select|]. intros [g|]; [|apply observes_ok]. apply observes_bind; [apply observes_lift|].
  intros ?. apply observes_ok.
Qed.
Lemma observes_reader r : writes r = false -> observes (handle now clock later new client code nonce enclave_key user r).
Proof.
  destruct r; try done; intros _; (apply observes_bind; [|intros ?; apply observes_ok]).
  - apply observes_bind; [apply observes_map_err, observes_select|]. intros ?. apply observes_list_orgs.
  - apply observes_bind; [apply observes_find_org|]. intros ?. apply observes_bind; [apply observes_require|]. intros ?.
    apply observes_bind; [apply observes_map_err, observes_select|]. intros ?. apply observes_ok.
  - apply observes_bind; [apply observes_find_org|]. intros ?. apply observes_bind; [apply observes_require|]. intros ?.
    apply observes_bind; [apply observes_map_err, observes_select|]. intros ?. apply observes_ok.
  - apply observes_bind; [apply observes_find_org|]. intros ?. apply observes_bind; [apply observes_find_invite|]. intros ?.
    apply observes_bind; [apply observes_is_org_admin|]. intros ?. destruct (_ && _); [apply observes_err|apply observes_ok].
  - apply observes_bind; [apply observes_find_org|]. intros ?. apply observes_bind; [apply observes_require|]. intros ?.
    apply observes_bind; [apply observes_map_err, observes_select|]. intros ?. apply observes_ok.
  - apply observes_bind; [apply observes_find_org|]. intros ?. apply observes_bind; [apply observes_require|]. intros ?.
    apply observes_bind; [apply observes_project_in|]. intros ?. apply observes_ok.
  - apply observes_bind; [apply observes_find_project|]. intros ?. apply observes_bind; [apply observes_map_err, observes_select|].
    intros ?. apply observes_ok.
  - apply observes_bind; [apply observes_find_project|]. intros ?.
    apply observes_bind; [apply observes_map_err, observes_settings|]. intros ?. apply observes_lift.
  - apply observes_bind; [apply observes_find_project|]. intros ?.
    apply observes_bind; [apply observes_map_err, observes_settings|]. intros ?. apply observes_ok.
Qed.

Lemma handle_does r s a s' : unique p_id (projects (tables s)) ->
  handle now clock later new client code nonce enclave_key user r s = (a, s') -> does r s (is_ok a) s'.
Proof.
  intros Hids Hr. destruct (writes r) eqn:Hw.
  - destruct r; try done; (eapply does_answer; [exact Hr|]; clear a s' Hr; intros a s' Hr).
    + by apply create_org_does.
    + by apply delete_org_does.
    + by apply update_membership_does.
    + by apply delete_membership_does.
    + by apply create_invite_does.
    + by apply delete_invite_does.
    + by apply accept_invite_does.
    + by apply create_project_does.
    + by apply update_project_does.
    + by apply delete_project_does.
    + by apply create_secret_does.
    + by apply delete_secret_does.
    + eapply does_observed; [|exact Hr|]; [apply observes_bad_request|]. clear Hr. intros [] s1 _ _ Hr. by eapply settings_does; [|exact Hr].
    + eapply does_observed; [|exact Hr|]; [apply observes_bad_request|]. clear Hr. intros [] s1 _ _ Hr.
      eapply does_observed; [|exact Hr|]; [apply observes_bad_request|]. clear Hr. intros [] s2 _ _ Hr. by eapply settings_does; [|exact Hr].
  - apply does_read; [done|]. by eapply observes_reader.
Qed.
Lemma grows_method {A} wrap (m : ST State DieselError A) : grows m -> grows (method wrap m).
Proof. intros Hm. apply grows_bind; [apply grows_connection|]. intros []. by apply grows_map_err. Qed.
#[local] Ltac grow :=
  repeat first
    [ apply observes_list_orgs | apply observes_is_org_admin | apply observes_find_org | apply observes_require
    | apply observes_find_project | apply observes_project_in | apply observes_bad_request | apply observes_no_project_named
    | apply grows_ok | apply grows_err | apply grows_lift | apply grows_connection | apply grows_statement
    | apply grows_method | apply grows_map_err | apply grows_transaction | apply grows_bind; [|intros ?] | case_match ].
Lemma handle_grows r : grows (handle now clock later new client code nonce enclave_key user r).
Proof.
  destruct r; cbn [handle]; (apply grows_bind; [|intros ?; apply grows_ok]);
    unfold create_org, list_orgs, delete_org, list_memberships, update_membership, write_role, load_target, delete_membership,
      create_invite, list_invites, get_invite, find_invite, delete_invite, accept_invite, create_project, list_projects, update_project,
      get_project, delete_project, create_secret, encrypt_secret, list_secrets, delete_secret, get_email_settings, update_email_settings,
      get_oauth_settings, update_oauth_settings, create_org_with_owner, accept_invite_transaction, mark_as_used,
      update_membership_role, delete_membership_with_owner_check, update_role_with_owner_check, delete_with_owner_check, check_owners; grow.
Qed.
End handlers.
End OrganizationSteps.
