(* ===== verification/PlatformAccounts.v ===== *)
(** * Accounts of developers

    The accounts behind [/platform]: the rows and queries of
    [src/src/models/platform_users.rs], [platform_email_verification.rs],
    [platform_password_reset.rs] and [platform_invite_codes.rs], the methods of
    [src/src/db.rs] and [src/src/main.rs] on them, and the handlers of
    [src/src/web/platform/login_routes.rs] and [me_routes.rs] up to the encryption
    of their answers.  E-mails sent in the background are left out. *)

From S2P Require Import Prelude Text Crypto Api Encrypt Claims Database Statements Rows Accounts Credentials Tokens Organizations OrganizationRoutes OrganizationSteps.

Module PlatformAccounts.
Import Sql.
Abbreviation Uuid := Encrypt.Uuid.
Abbreviation PlatformUser := Organizations.PlatformUser.
Abbreviation u_uuid := Organizations.u_uuid.
Abbreviation u_email := Organizations.u_email.
Abbreviation u_password_enc := Organizations.u_password_enc.
Abbreviation Draws := Accounts.Draws.

(** ** Rows *)
Record NewPlatformUser := MkNewUser { n_email : string; n_name : option string; n_password_enc : option bytes }.
Definition new_user (email : string) (password_enc : option bytes) : NewPlatformUser := MkNewUser email None password_enc.
Definition with_name (name : string) (n : NewPlatformUser) : NewPlatformUser :=
  MkNewUser (n_email n) (Some name) (n_password_enc n).
Record PlatformEmailVerification := MkVerification {
  v_id : Z; v_platform_user_id : Uuid; verification_code : Uuid; is_verified : bool; v_created_at : Z; v_updated_at : Z;
  v_expires_at : Z }.
Record NewPlatformEmailVerification := MkNewVerification {
  nv_platform_user_id : Uuid; nv_verification_code : Uuid; nv_expires_at : Z; nv_is_verified : bool }.
Record PlatformPasswordResetRequest := MkReset {
  r_id : Z; r_platform_user_id : Uuid; r_hashed_secret : string; r_encrypted_code : bytes; r_expiration_time : Z;
  r_created_at : Z; r_updated_at : Z; is_reset : bool }.
Record NewPlatformPasswordResetRequest := MkNewReset {
  nr_platform_user_id : Uuid; nr_hashed_secret : string; nr_encrypted_code : bytes; nr_expiration_time : Z }.
Record PlatformInviteCode := MkCode { c_id : Z; c_code : Uuid }.

Inductive VerificationError :=
  VerificationDatabaseError (e : DieselError) | Expired | AlreadyVerified | InvalidExpirationDuration.
Inductive ResetError := ResetDatabaseError (e : DieselError) | InvalidExpirationHours.
Definition hours (h : Z) : Z := Db.hours h.
Definition verification_new (now : Z) (user code : Uuid) (expire_hours : Z) (verified : bool)
    : outcome VerificationError NewPlatformEmailVerification :=
  if decide (expire_hours <= 0)%Z then Err InvalidExpirationDuration
  else if decide (8760 < expire_hours)%Z then Err InvalidExpirationDuration
  else Ok (MkNewVerification user code (now + hours expire_hours) verified).
Definition reset_new (now : Z) (user : Uuid) (hashed_secret : string) (encrypted_code : bytes) (expiration_hours : Z)
    : outcome ResetError NewPlatformPasswordResetRequest :=
  if decide (expiration_hours <= 0)%Z then Err InvalidExpirationHours
  else Ok (MkNewReset user hashed_secret encrypted_code (now + hours expiration_hours)).
Definition is_expired (now : Z) (r : PlatformPasswordResetRequest) : bool := bool_decide (r_expiration_time r < now)%Z.

(** ** Tables *)
Record Tables := MkTables {
  organizations : Organizations.Tables; verifications : list PlatformEmailVerification;
  resets : list PlatformPasswordResetRequest; invite_codes : list PlatformInviteCode }.
Abbreviation State := (Store Tables).
Definition users (t : Tables) : list PlatformUser := Organizations.platform_users (organizations t).
Definition set_organizations o t := MkTables o (verifications t) (resets t) (invite_codes t).
Definition set_users l t := set_organizations
  (Organizations.MkTables l (Organizations.orgs (organizations t)) (Organizations.memberships (organizations t))
    (Organizations.invites (organizations t)) (Organizations.projects (organizations t))
    (Organizations.secrets (organizations t)) (Organizations.settings (organizations t))) t.
Definition set_verifications l t := MkTables (organizations t) l (resets t) (invite_codes t).
Definition set_resets l t := MkTables (organizations t) (verifications t) l (invite_codes t).
(** A method of [Organizations] on its tables. *)
Definition on_organizations {E A} (m : ST Organizations.State E A) : ST State E A := fun s =>
  let '(r, s') := m (MkStore (organizations (tables s)) (serial s) (faults s)) in
  (r, MkStore (set_organizations (tables s') (tables s)) (serial s') (faults s')).

(** ** Errors *)
Inductive DBError :=
| ConnectionError | PlatformUserError (e : DieselError) | PlatformUserNotFound
| PlatformEmailVerificationError (e : VerificationError) | PlatformEmailVerificationNotFound
| PlatformPasswordResetError (e : ResetError) | PlatformInviteCodeError (e : DieselError) | PlatformInviteCodeNotFound.
(** [From<DBError> for ApiError]. *)
Definition api_error (e : DBError) : Api.ApiError :=
  match e with PlatformUserNotFound => Api.UserNotFound | _ => Api.InternalServerError end.
(** The errors of [main.rs] these methods return. *)
Inductive Error :=
| DatabaseError (e : DBError) | UserNotFound | EncryptionError | PasswordResetExpired
| InvalidPasswordResetSecret | InvalidPasswordResetRequest.

Definition method {E A} (wrap : E -> DBError) (m : ST State E A) : ST State DBError A :=
  _ ← connection ConnectionError; st_map_err wrap m.
Definition verification_error (e : DieselError) : DBError := PlatformEmailVerificationError (VerificationDatabaseError e).
Definition reset_error (e : DieselError) : DBError := PlatformPasswordResetError (ResetDatabaseError e).
(** [match m]. *)
Definition attempt {E E' A} (m : ST State E A) : ST State E' (outcome E A) := fun s =>
  match m s with
  | (Panic, s) => (Panic, s)
  | (r, s) => (Ok r, s)
  end.

Section methods.
Context {ci : Citext}.
(** The time of the database. *)
Context (now : Z).

(** ** Users *)
Definition user_by_id (id : Z) (u : PlatformUser) : bool := bool_decide (Organizations.u_id u = id).
Definition user_by_uuid (uuid : Uuid) (u : PlatformUser) : bool := bool_decide (u_uuid u = uuid).
Definition user_by_email (e : string) (u : PlatformUser) : bool := email_eq (u_email u) e.
(** [uuid] is the database's [uuid_generate_v4()]. *)
Definition user_insert (uuid : Uuid) (n : NewPlatformUser) : ST State DieselError PlatformUser :=
  statement (fun id t =>
    let u := Organizations.MkPlatformUser id uuid (n_email n) (n_name n) (n_password_enc n) now now in
    if existsb (fun u => user_by_uuid uuid u || user_by_email (n_email n) u) (users t) then Err Db.UniqueViolation
    else Ok (u, set_users (users t ++ [u]) t)).
Definition create_platform_user (uuid : Uuid) (n : NewPlatformUser) : ST State DBError PlatformUser :=
  method PlatformUserError (user_insert uuid n).
Definition get_platform_user_by_id (id : Z) : ST State DBError PlatformUser :=
  u ← method PlatformUserError (select (fun t => first (user_by_id id) (users t)));
  st_lift (ok_or PlatformUserNotFound u).
Definition get_platform_user_by_uuid (uuid : Uuid) : ST State DBError PlatformUser :=
  u ← method PlatformUserError (select (fun t => first (user_by_uuid uuid) (users t)));
  st_lift (ok_or PlatformUserNotFound u).
Definition get_platform_user_by_email (e : string) : ST State DBError (option PlatformUser) :=
  method PlatformUserError (select (fun t => first (user_by_email e) (users t))).
(** The trigger dates every update. *)
Definition with_password (password_enc : bytes) (u : PlatformUser) : PlatformUser :=
  Organizations.MkPlatformUser (Organizations.u_id u) (u_uuid u) (u_email u) (Organizations.u_name u) (Some password_enc)
    (Organizations.u_created_at u) now.
Definition user_update_password (id : Z) (password_enc : bytes) : ST State DieselError unit :=
  statement (fun _ t => Ok (tt, set_users (update_rows (user_by_id id) (with_password password_enc) (users t)) t)).
Definition update_platform_user_password (u : PlatformUser) (password_enc : bytes) : ST State DBError unit :=
  method PlatformUserError (user_update_password (Organizations.u_id u) password_enc).
Definition with_profile (p u : PlatformUser) : PlatformUser :=
  Organizations.MkPlatformUser (Organizations.u_id u) (u_uuid u) (u_email p) (Organizations.u_name p) (u_password_enc u)
    (Organizations.u_created_at u) now.
Definition update_platform_user (p : PlatformUser) : ST State DBError unit :=
  method PlatformUserError (statement (fun _ t =>
    let mine := user_by_id (Organizations.u_id p) in
    if existsb mine (users t) && existsb (fun u => negb (mine u) && user_by_email (u_email p) u) (users t) then Err Db.UniqueViolation
    else Ok (tt, set_users (update_rows mine (with_profile p) (users t)) t))).

(** ** Verifications of addresses *)
Definition exists_user (user : Uuid) (t : Tables) : bool := existsb (user_by_uuid user) (users t).
Definition verification_by_id (id : Z) (v : PlatformEmailVerification) : bool := bool_decide (v_id v = id).
Definition verification_insert (n : NewPlatformEmailVerification) : ST State DieselError PlatformEmailVerification :=
  statement (fun id t =>
    let v := MkVerification id (nv_platform_user_id n) (nv_verification_code n) (nv_is_verified n) now now (nv_expires_at n) in
    if exists_user (nv_platform_user_id n) t then Ok (v, set_verifications (verifications t ++ [v]) t)
    else Err Db.ForeignKeyViolation).
Definition create_platform_email_verification (n : NewPlatformEmailVerification) : ST State DBError PlatformEmailVerification :=
  method verification_error (verification_insert n).
Definition found_verification (f : PlatformEmailVerification -> bool) : ST State DBError PlatformEmailVerification :=
  v ← method verification_error (select (fun t => first f (verifications t)));
  st_lift (ok_or PlatformEmailVerificationNotFound v).
Definition get_platform_email_verification_by_id (id : Z) : ST State DBError PlatformEmailVerification :=
  found_verification (verification_by_id id).
Definition get_platform_email_verification_by_platform_user_id (user : Uuid) : ST State DBError PlatformEmailVerification :=
  found_verification (fun v => bool_decide (v_platform_user_id v = user)).
Definition get_platform_email_verification_by_code (code : Uuid) : ST State DBError PlatformEmailVerification :=
  found_verification (fun v => bool_decide (verification_code v = code)).
Definition verification_update (row : PlatformEmailVerification) : ST State DieselError unit :=
  statement (fun _ t => Ok (tt, set_verifications (update_rows (verification_by_id (v_id row))
    (fun v => MkVerification (v_id v) (v_platform_user_id v) (verification_code v) (is_verified row) (v_created_at v) now
       (v_expires_at v)) (verifications t)) t)).
Definition update_platform_email_verification (v : PlatformEmailVerification) : ST State DBError unit :=
  method verification_error (verification_update v).
Definition delete_platform_email_verification (v : PlatformEmailVerification) : ST State DBError unit :=
  method verification_error (statement (fun _ t =>
    Ok (tt, set_verifications (delete_rows (verification_by_id (v_id v)) (verifications t)) t))).
(** [clock] is the time on which [verify] decides. *)
Definition verified_row (v : PlatformEmailVerification) : PlatformEmailVerification :=
  MkVerification (v_id v) (v_platform_user_id v) (verification_code v) true (v_created_at v) (v_updated_at v) (v_expires_at v).
Definition verification_verify (clock : Z) (v : PlatformEmailVerification) : ST State VerificationError unit :=
  if is_verified v then st_err AlreadyVerified
  else if decide (v_expires_at v < clock)%Z then st_err Expired
  else st_map_err VerificationDatabaseError (verification_update (verified_row v)).
Definition verify_platform_email (clock : Z) (v : PlatformEmailVerification) : ST State DBError unit :=
  method PlatformEmailVerificationError (verification_verify clock v).

(** ** Password resets *)
Definition reset_insert (n : NewPlatformPasswordResetRequest) : ST State DieselError PlatformPasswordResetRequest :=
  statement (fun id t =>
    let r := MkReset id (nr_platform_user_id n) (nr_hashed_secret n) (nr_encrypted_code n) (nr_expiration_time n) now now false in
    if negb (exists_user (nr_platform_user_id n) t) then Err Db.ForeignKeyViolation
    else Ok (r, set_resets (resets t ++ [r]) t)).
Definition create_reset_row (n : NewPlatformPasswordResetRequest)
    : ST State DBError PlatformPasswordResetRequest :=
  method reset_error (reset_insert n).
Definition open_reset (clock : Z) (user : Uuid) (code : bytes) (r : PlatformPasswordResetRequest) : bool :=
  bool_decide (r_platform_user_id r = user) && bool_decide (r_encrypted_code r = code) && negb (is_reset r) &&
  bool_decide (clock < r_expiration_time r)%Z.
Definition get_platform_password_reset_request_by_user_id_and_code (clock : Z) (user : Uuid) (code : bytes)
    : ST State DBError (option PlatformPasswordResetRequest) :=
  method reset_error (select (fun t => first (open_reset clock user code) (resets t))).
Definition reset_by_id (id : Z) (r : PlatformPasswordResetRequest) : bool := bool_decide (r_id r = id).
Definition mark_reset (r : PlatformPasswordResetRequest) : PlatformPasswordResetRequest :=
  MkReset (r_id r) (r_platform_user_id r) (r_hashed_secret r) (r_encrypted_code r) (r_expiration_time r) (r_created_at r) now true.
Definition mark_platform_password_reset_as_complete (r : PlatformPasswordResetRequest) : ST State DBError unit :=
  method reset_error (statement (fun _ t => Ok (tt, set_resets (update_rows (reset_by_id (r_id r)) mark_reset (resets t)) t))).

(** ** Invite codes *)
Definition validate_platform_invite_code (code : Uuid) : ST State DBError PlatformInviteCode :=
  c ← method PlatformInviteCodeError (select (fun t => first (fun c => bool_decide (c_code c = code)) (invite_codes t)));
  st_lift (ok_or PlatformInviteCodeNotFound c).
End methods.

(** ** Requests and answers *)
Record PlatformLoginRequest := MkLogin { l_email : string; l_password : string }.
Record PlatformRegisterRequest := MkRegister {
  g_email : string; g_password : string; g_name : option string; g_invite_code : string }.
Record PlatformPasswordResetRequestPayload := MkResetRequest { rr_email : string; rr_hashed_secret : string }.
Record PlatformPasswordResetConfirmPayload := MkResetConfirm {
  rc_email : string; rc_alphanumeric_code : string; rc_plaintext_secret : string; rc_new_password : string }.
Record PlatformChangePasswordRequest := MkChange { cp_current_password : string; cp_new_password : string }.
Record PlatformAuthResponse := MkAuth {
  a_id : Uuid; a_email : string; a_name : option string; a_access_token : string; a_refresh_token : string }.
Record PlatformRefreshResponse := MkRefresh { rf_access_token : string; rf_refresh_token : string }.
Record PlatformUserResponse := MkUserResponse {
  p_id : Uuid; p_email : string; p_name : option string; p_email_verified : bool; p_created_at : Z; p_updated_at : Z }.
Record MeResponse := MkMe { me_user : PlatformUserResponse; me_organizations : list OrganizationRoutes.OrgResponse }.
(** The [json!] objects with one text. *)
Inductive Note := Message (s : string) | ErrorNote (s : string).

Section requests.
Context {vl : OrganizationRoutes.Validator}.
Definition valid_address (e : string) : bool :=
  OrganizationRoutes.valid_email e && bool_decide (char_count e <= 255).
Definition valid_password (p : string) : bool := OrganizationRoutes.length_between 8 64 p.
Definition non_empty (s : string) : bool := bool_decide (1 <= char_count s).
Definition validate_login (r : PlatformLoginRequest) : bool := valid_address (l_email r) && valid_password (l_password r).
Definition validate_register (r : PlatformRegisterRequest) : bool :=
  valid_address (g_email r) && valid_password (g_password r) &&
  OrganizationRoutes.optional (fun n => bool_decide (char_count n <= 50)) (g_name r) && non_empty (g_invite_code r).
Definition validate_reset_request (r : PlatformPasswordResetRequestPayload) : bool :=
  valid_address (rr_email r) && non_empty (rr_hashed_secret r).
Definition validate_reset_confirm (r : PlatformPasswordResetConfirmPayload) : bool :=
  valid_address (rc_email r) && non_empty (rc_alphanumeric_code r) && non_empty (rc_plaintext_secret r) &&
  valid_password (rc_new_password r).
Definition validate_change (r : PlatformChangePasswordRequest) : bool :=
  valid_password (cp_current_password r) && valid_password (cp_new_password r).
End requests.

Section routes.
Context {cr : Crypto} {ci : Citext} {ut : UuidText} {ad : AccountDeps} {ub : UrlBase64} {au : Claims.AudienceText} {jw : Tokens.Jwt}.
Context {vl : OrganizationRoutes.Validator}.
Context (enclave_key : bytes) (signing_key : Encrypt.SecretKey).
(** The time of a request, and of the checks it makes after its queries. *)
Context (now later : Z).
Abbreviation Route A := (ST State Api.ApiError A).
Definition db {A} (m : ST State DBError A) : ST State Error A := st_map_err DatabaseError m.
Definition internal_error {E A} (m : ST State E A) : Route A := st_map_err (fun _ => Api.InternalServerError) m.
Definition bad_request_unless (b : bool) : Route unit := if b then st_ok tt else st_err Api.BadRequest.

(** ** The application's methods *)
Definition enclave_secret : outcome Error Encrypt.SecretKey := ok_or EncryptionError (secret_from_slice enclave_key).
(** The hash of a password, encrypted under the enclave key. *)
Definition encrypted_password (d : Draws) (new_password : string) : outcome Error bytes :=
  let password_hash := generate_hash (Accounts.salt d) new_password in
  secret_key ← enclave_secret;
  lift (Encrypt.encrypt_with_key (Accounts.password_nonce d) secret_key (as_bytes password_hash)).

Definition authenticate_platform_user (e password : string) : ST State Error (option PlatformUser) :=
  platform_user ← db (get_platform_user_by_email e);
  match platform_user with
  | None => st_ok None
  | Some platform_user =>
      match u_password_enc platform_user with
      | None => st_ok None
      | Some password_enc =>
          secret_key ← st_lift enclave_secret;
          decrypted_password_bytes ← st_lift (map_err (fun _ => EncryptionError) (Encrypt.decrypt_with_key secret_key password_enc));
          decrypted_password_hash ← st_lift (ok_or EncryptionError (from_utf8 decrypted_password_bytes));
          st_ok (if verify_password password decrypted_password_hash then Some platform_user else None)
      end
  end.
Definition change_platform_user_password (d : Draws) (u : PlatformUser) (new_password : string) : ST State Error unit :=
  e ← st_lift (encrypted_password d new_password);
  db (update_platform_user_password now u e).

Definition create_platform_password_reset_request (d : Draws) (e hashed_secret : string) : ST State Error string :=
  let alphanumeric_code := Accounts.generate_alphanumeric_code (Accounts.code_bytes d) in
  r ← attempt (get_platform_user_by_email e);
  match r with
  | Ok (Some platform_user) =>
      if bool_decide (is_Some (u_password_enc platform_user)) then
        secret_key ← st_lift enclave_secret;
        encrypted_code ← st_lift (lift (Encrypt.encrypt_key_deterministic secret_key (as_bytes alphanumeric_code)));
        new_request ← st_lift (map_err (fun _ => EncryptionError)
          (reset_new now (u_uuid platform_user) hashed_secret encrypted_code 24));
        _ ← db (create_reset_row now new_request);
        st_ok alphanumeric_code
      else st_ok alphanumeric_code
  | Panic => st_lift Panic
  | _ => st_ok alphanumeric_code
  end.

Definition confirm_platform_password_reset (d : Draws) (e alphanumeric_code plaintext_secret new_password : string)
    : ST State Error unit :=
  platform_user ← st_map_err (fun _ => UserNotFound) (get_platform_user_by_email e);
  platform_user ← st_lift (ok_or UserNotFound platform_user);
  secret_key ← st_lift enclave_secret;
  encrypted_code ← st_lift (lift (Encrypt.encrypt_key_deterministic secret_key (as_bytes alphanumeric_code)));
  reset_request ← db (get_platform_password_reset_request_by_user_id_and_code now (u_uuid platform_user) encrypted_code);
  match reset_request with
  | None => st_err InvalidPasswordResetRequest
  | Some reset_request =>
      if is_expired later reset_request then st_err PasswordResetExpired
      else if decide (Accounts.generate_reset_hash plaintext_secret = r_hashed_secret reset_request) then
        e ← st_lift (encrypted_password d new_password);
        _ ← db (update_platform_user_password now platform_user e);
        db (mark_platform_password_reset_as_complete now reset_request)
      else st_err InvalidPasswordResetSecret
  end.

(** ** Signing in *)
Definition platform_tokens (u : PlatformUser) : outcome Api.ApiError (string * string) :=
  access_token ← Tokens.new_for_platform_user signing_key now (u_uuid u) Claims.Access;
  refresh_token ← Tokens.new_for_platform_user signing_key now (u_uuid u) Claims.Refresh;
  Ok (access_token, refresh_token).
Definition auth_response (u : PlatformUser) : outcome Api.ApiError PlatformAuthResponse :=
  '(access_token, refresh_token) ← platform_tokens u;
  Ok (MkAuth (u_uuid u) (u_email u) (Organizations.u_name u) access_token refresh_token).

Definition login_internal_platform (r : PlatformLoginRequest) : Route PlatformAuthResponse :=
  u ← internal_error (authenticate_platform_user (l_email r) (l_password r));
  match u with
  | Some platform_user => st_lift (auth_response platform_user)
  | None => st_err Api.InvalidUsernameOrPassword
  end.
Definition login_platform_user (r : PlatformLoginRequest) : Route PlatformAuthResponse :=
  _ ← bad_request_unless (validate_login r);
  login_internal_platform r.

Definition register_platform_user (d : Draws) (r : PlatformRegisterRequest) : Route PlatformAuthResponse :=
  _ ← bad_request_unless (validate_register r);
  existing ← st_map_err api_error (get_platform_user_by_email (g_email r));
  _ ← (if bool_decide (is_Some existing) then st_err Api.EmailAlreadyExists else st_ok tt);
  invite_code ← st_lift (ok_or Api.BadRequest (uuid_parse_str (g_invite_code r)));
  _ ← st_map_err (fun _ => Api.BadRequest) (validate_platform_invite_code invite_code);
  e ← st_lift (map_err (fun _ => Api.InternalServerError) (encrypted_password d (g_password r)));
  let new_platform_user := with_name (default "" (g_name r)) (new_user (g_email r) (Some e)) in
  platform_user ← internal_error (create_platform_user now (Accounts.new_uuid d) new_platform_user);
  new_verification ← st_lift (map_err (fun _ => Api.InternalServerError)
    (verification_new now (u_uuid platform_user) (Accounts.verification_uuid d) 24 false));
  _ ← internal_error (create_platform_email_verification now new_verification);
  st_lift (auth_response platform_user).

Definition refresh_platform_token (token : string) : Route PlatformRefreshResponse :=
  _ ← bad_request_unless (non_empty token);
  claims ← st_lift (Tokens.validate_token signing_key now token Claims.PLATFORM_REFRESH);
  platform_user_id ← st_lift (ok_or Api.InvalidJwt (uuid_parse_str (Claims.sub claims)));
  platform_user ← st_map_err api_error (get_platform_user_by_uuid platform_user_id);
  '(access_token, refresh_token) ← st_lift (platform_tokens platform_user);
  st_ok (MkRefresh access_token refresh_token).
(** The token is dropped; nothing is stored about it. *)
Definition logout_platform_user (token : string) : Route Note := st_ok (Message "Logged out successfully").

(** ** Verifying the address *)
Definition verify_platform_email_route (code : Uuid) : Route Note :=
  verification ← st_map_err (fun e => match e with PlatformEmailVerificationNotFound => Api.BadRequest | _ => Api.InternalServerError end)
    (get_platform_email_verification_by_code code);
  if is_verified verification then st_ok (Message "Email already verified")
  else if decide (v_expires_at verification < now)%Z then st_err Api.BadRequest
  else
    _ ← internal_error (verify_platform_email now later verification);
    st_ok (Message "Email verified successfully").

Definition request_platform_verification (d : Draws) (u : PlatformUser) : Route Note :=
  let create : Route Note :=
    new_verification ← st_lift (map_err (fun _ => Api.InternalServerError)
      (verification_new now (u_uuid u) (Accounts.verification_uuid d) 24 false));
    _ ← internal_error (create_platform_email_verification now new_verification);
    st_ok (Message "New verification code sent successfully") in
  r ← attempt (get_platform_email_verification_by_platform_user_id (u_uuid u));
  match r with
  | Ok verification =>
      if is_verified verification then st_ok (ErrorNote "User is already verified")
      else
        _ ← internal_error (delete_platform_email_verification verification);
        create
  | Err PlatformEmailVerificationNotFound => create
  | Err _ => st_err Api.InternalServerError
  | Panic => st_lift Panic
  end.

(** ** Passwords *)
Definition reset_answer : Note := Message "If an account with that email exists, we have sent a password reset link.".
Definition platform_password_reset_request (d : Draws) (r : PlatformPasswordResetRequestPayload) : Route Note :=
  _ ← bad_request_unless (validate_reset_request r);
  u ← internal_error (get_platform_user_by_email (rr_email r));
  match u with
  | Some user =>
      if bool_decide (u_password_enc user = None) then st_ok reset_answer
      else
        r ← attempt (create_platform_password_reset_request d (rr_email r) (rr_hashed_secret r));
        match r with Panic => st_lift Panic | _ => st_ok reset_answer end
  | None => st_ok reset_answer
  end.
Definition confirm_error (e : Error) : Api.ApiError :=
  match e with
  | PasswordResetExpired | InvalidPasswordResetSecret | InvalidPasswordResetRequest => Api.BadRequest
  | _ => Api.InternalServerError
  end.
Definition platform_password_reset_confirm (d : Draws) (r : PlatformPasswordResetConfirmPayload) : Route Note :=
  _ ← bad_request_unless (validate_reset_confirm r);
  u ← internal_error (get_platform_user_by_email (rc_email r));
  match u with
  | Some user =>
      if bool_decide (u_password_enc user = None) then st_err Api.InvalidUsernameOrPassword
      else
        _ ← st_map_err confirm_error (confirm_platform_password_reset d (rc_email r) (rc_alphanumeric_code r)
              (rc_plaintext_secret r) (rc_new_password r));
        st_ok (Message "Password reset successful. You can now log in with your new password.")
  | None => st_err Api.InvalidUsernameOrPassword
  end.
Definition platform_change_password (d : Draws) (u : PlatformUser) (r : PlatformChangePasswordRequest) : Route Note :=
  _ ← bad_request_unless (validate_change r);
  if bool_decide (u_password_enc u = None) then st_err Api.InvalidUsernameOrPassword
  else
    a ← attempt (authenticate_platform_user (u_email u) (cp_current_password r));
    match a with
    | Ok (Some authenticated_user) =>
        if decide (u_uuid authenticated_user = u_uuid u) then
          _ ← internal_error (change_platform_user_password d u (cp_new_password r));
          st_ok (Message "Password changed successfully")
        else st_err Api.InvalidUsernameOrPassword
    | Panic => st_lift Panic
    | _ => st_err Api.InvalidUsernameOrPassword
    end.

(** ** The profile *)
(** An organization that cannot be read is skipped. *)
Fixpoint org_responses (l : list Organizations.OrgMembership) : Route (list OrganizationRoutes.OrgResponse) :=
  match l with
  | [] => st_ok []
  | membership :: l =>
      r ← attempt (on_organizations (Organizations.get_org_by_id (Organizations.m_org_id membership)));
      rest ← org_responses l;
      match r with
      | Ok org => st_ok (OrganizationRoutes.MkOrgResponse (Organizations.o_uuid org) (Organizations.o_name org) :: rest)
      | _ => st_ok rest
      end
  end.
Definition get_platform_user (u : PlatformUser) : Route MeResponse :=
  r ← attempt (get_platform_email_verification_by_platform_user_id (u_uuid u));
  email_verified ← match r with
    | Ok verification => st_ok (is_verified verification)
    | Err PlatformEmailVerificationNotFound => st_ok false
    | Err _ => st_err Api.InternalServerError
    | Panic => st_lift Panic
    end;
  memberships ← internal_error (on_organizations (Organizations.get_all_org_memberships_for_platform_user (u_uuid u)));
  organizations ← org_responses memberships;
  st_ok (MkMe (MkUserResponse (u_uuid u) (u_email u) (Organizations.u_name u) email_verified (Organizations.u_created_at u)
                 (Organizations.u_updated_at u)) organizations).

(** ** One request *)
Inductive DeveloperOp :=
  | GetMe | RequestVerification (d : Draws) | ChangePassword (d : Draws) (r : PlatformChangePasswordRequest).
Inductive PublicOp :=
  | Login (r : PlatformLoginRequest) | Register (d : Draws) (r : PlatformRegisterRequest) | Refresh (token : string)
  | Logout (token : string) | VerifyEmail (code : Uuid) | ResetRequest (d : Draws) (r : PlatformPasswordResetRequestPayload)
  | ResetConfirm (d : Draws) (r : PlatformPasswordResetConfirmPayload).
Inductive Request := Developer (header : option string) (op : DeveloperOp) | Public (op : PublicOp).
Inductive Answer := AMe (m : MeResponse) | ANote (n : Note) | AAuth (a : PlatformAuthResponse) | ARefresh (a : PlatformRefreshResponse).
Definition answer {A} (f : A -> Answer) (m : Route A) : Route Answer := a ← m; st_ok (f a).

Definition serve_developer (u : PlatformUser) (op : DeveloperOp) : Route Answer :=
  match op with
  | GetMe => answer AMe (get_platform_user u)
  | RequestVerification d => answer ANote (request_platform_verification d u)
  | ChangePassword d r => answer ANote (platform_change_password d u r)
  end.
Definition serve_public (op : PublicOp) : Route Answer :=
  match op with
  | Login r => answer AAuth (login_platform_user r)
  | Register d r => answer AAuth (register_platform_user d r)
  | Refresh token => answer ARefresh (refresh_platform_token token)
  | Logout token => answer ANote (logout_platform_user token)
  | VerifyEmail code => answer ANote (verify_platform_email_route code)
  | ResetRequest d r => answer ANote (platform_password_reset_request d r)
  | ResetConfirm d r => answer ANote (platform_password_reset_confirm d r)
  end.
(** The middleware hands on the developer of the token. *)
Definition serve (q : Request) : Route Answer :=
  match q with
  | Developer header op =>
      u ← Tokens.validate_platform_jwt signing_key get_platform_user_by_uuid now header;
      serve_developer u op
  | Public op => serve_public op
  end.
End routes.

(** ** Calls that leave the accounts and the reset requests *)
Definition same (s s' : State) : Prop :=
  users (tables s') = users (tables s) /\ resets (tables s') = resets (tables s) /\
  invite_codes (tables s') = invite_codes (tables s) /\ (serial s <= serial s')%Z.
#[local] Instance same_preorder : PreOrder same.
Proof.
  split; [by intros s|]. intros s1 s2 s3 (E1 & F1 & G1 & L1) (E2 & F2 & G2 & L2). split_and!; [by rewrite E2|by rewrite F2|by rewrite G2|lia].
Qed.
Definition idle {E A} (m : ST State E A) : Prop := forall s r s', m s = (r, s') -> same s s'.
Lemma idle_lift {E A} (m : outcome E A) : idle (@st_lift _ E A m).
Proof. by intros s r s' [= _ <-]. Qed.
Lemma idle_bind {E A B} (m : ST State E A) (f : A -> ST State E B) : idle m -> (forall a, idle (f a)) -> idle (x ← m; f x).
Proof.
  intros Hm Hf s r s' (r0 & s1 & H1%Hm & H2)%bind_cases. etransitivity; [exact H1|].
  destruct r0 as [a| |]; [by eapply Hf|by destruct H2 as [_ ->]..].
Qed.
Lemma idle_map_err {E E' A} (f : E -> E') (m : ST State E A) : idle m -> idle (st_map_err f m).
Proof. intros Hm s r s' (r0 & Hs & _)%Db.st_map_err_inv. by eapply Hm. Qed.
Lemma idle_attempt {E E' A} (m : ST State E A) : idle m -> idle (@attempt E E' A m).
Proof. intros Hm s r s'. unfold attempt. destruct (m s) as [r0 s0] eqn:Hs. destruct r0; intros [= _ <-]; by eapply Hm. Qed.
Lemma idle_statement {A} (f : Z -> Tables -> outcome DieselError (A * Tables)) :
  (forall n t a t', f n t = Ok (a, t') -> users t' = users t /\ resets t' = resets t /\ invite_codes t' = invite_codes t) -> idle (statement f).
Proof.
  intros Hf s r s' Hs. assert (tables s' = tables s \/ exists a, f (serial s) (tables s) = Ok (a, tables s')) as Ht.
  { destruct r as [a|e|]; [right; exists a; by apply sql_statement_Ok|left..]; eapply sql_statement_not_ok; (exact Hs || by intros ?). }
  apply grows_statement in Hs. destruct Ht as [Ht|[a (Hu & Hr & Hc)%Hf]]; [split_and!; [by rewrite Ht..|done]|done].
Qed.
Lemma idle_select {A} (f : Tables -> A) : idle (select f).
Proof. apply idle_statement. by intros n t a t' [= _ <-]. Qed.
Lemma idle_method {E A} (wrap : E -> DBError) (m : ST State E A) : idle m -> idle (method wrap m).
Proof.
  intros Hm. apply idle_bind; [|intros []; by apply idle_map_err]. intros s r s' Hs.
  pose proof (sql_reads_connection _ _ _ _ Hs) as Ht. apply grows_connection in Hs. split_and!; [by rewrite Ht..|done].
Qed.
Lemma idle_organizations {E A} (m : ST Organizations.State E A) : OrganizationSteps.observes m -> idle (on_organizations m).
Proof.
  intros [Hm Hg] s r s'. unfold on_organizations. destruct (m _) as [r0 s0] eqn:Hs. pose proof (Hg _ _ _ Hs) as Hn.
  apply Hm in Hs. cbn in Hs, Hn. intros [= _ <-]. unfold same, users. cbn. by rewrite Hs.
Qed.

(** Follow a program; [tac] closes the statements that write. *)
Ltac platform_walk :=
  repeat first
    [ apply idle_lift | apply idle_select | apply idle_method | apply idle_map_err | apply idle_attempt
    | apply idle_statement; intros ? ? ? ?; repeat case_match; by intros [= _ <-]
    | apply idle_bind; [|intros ?]
    | progress unfold bad_request_unless, internal_error, db
    | match goal with
      | |- idle (match ?x with _ => _ end) => destruct x
      | |- idle (let '(_, _) := ?x in _) => destruct x
      | |- idle (st_ok ?a) => apply (idle_lift (Ok a))
      | |- idle (st_err ?e) => apply (idle_lift (Err e))
      end ].

(** One call, then the rest. *)
Lemma idle_bind_inv {E A B} (m : ST State E A) (f : A -> ST State E B) s r s' : idle m -> (x ← m; f x) s = (r, s') ->
  (exists a s1, m s = (Ok a, s1) /\ same s s1 /\ f a s1 = (r, s')) \/ (Db.not_ok r /\ same s s').
Proof.
  intros Hm (r0 & s1 & H1 & H2)%bind_cases. pose proof (Hm _ _ _ H1) as Hs.
  destruct r0 as [a| |]; [left; by exists a, s1|right; destruct H2 as [-> ->]; by split; [intros ?|]..].
Qed.
Lemma lift_bind_inv {E A B} (m : outcome E A) (f : A -> ST State E B) s r s' : (x ← st_lift m; f x) s = (r, s') ->
  (exists a, m = Ok a /\ f a s = (r, s')) \/ (Db.not_ok r /\ s' = s).
Proof.
  intros (r0 & s1 & [= <- <-] & H2)%bind_cases. destruct m as [a| |]; [left; by exists a|right; destruct H2 as [-> ->]; by split; [intros ?|]..].
Qed.

(** ** The machine of the developers' passwords *)
Section machine.
Context {cr : Crypto} {ci : Citext} {ut : UuidText} {ad : AccountDeps} {ub : UrlBase64} {au : Claims.AudienceText} {jw : Tokens.Jwt}.
Context {vl : OrganizationRoutes.Validator}.
Context (enclave_key : bytes) (signing_key : Encrypt.SecretKey).

(** The access token of a request names a developer. *)
Definition token_of (now : Z) (header : option string) (t : Tables) (u : PlatformUser) : Prop :=
  exists token c, Tokens.bearer_token header = Some token /\
    Tokens.validate_token signing_key now token Claims.PLATFORM_ACCESS = Ok c /\
    uuid_parse_str (Claims.sub c) = Some (u_uuid u) /\ u ∈ users t.
(** The password opens the stored verifier. *)
Definition knows (u : PlatformUser) (password : string) : Prop :=
  exists k e b hash, enclave_secret enclave_key = Ok k /\ u_password_enc u = Some e /\ Encrypt.decrypt_with_key k e = Ok b /\
    from_utf8 b = Some hash /\ verify_password password hash = true.
(** An open request of the developer with this code and this secret. *)
Definition proves_reset (now : Z) (code secret : string) (t : Tables) (u : PlatformUser) (row : PlatformPasswordResetRequest) : Prop :=
  row ∈ resets t /\ r_platform_user_id row = u_uuid u /\ is_reset row = false /\ (now < r_expiration_time row)%Z /\
  Accounts.generate_reset_hash secret = r_hashed_secret row /\
  exists k, enclave_secret enclave_key = Ok k /\ Encrypt.encrypt_key_deterministic k (as_bytes code) = Ok (r_encrypted_code row).
Definition asks (now : Z) (d : Draws) (r : PlatformPasswordResetRequestPayload) (u : PlatformUser)
    (row : PlatformPasswordResetRequest) : Prop :=
  r_platform_user_id row = u_uuid u /\ r_hashed_secret row = rr_hashed_secret r /\ is_reset row = false /\
  r_expiration_time row = (now + hours 24)%Z /\
  exists k, enclave_secret enclave_key = Ok k /\
    Encrypt.encrypt_key_deterministic k (as_bytes (Accounts.generate_alphanumeric_code (Accounts.code_bytes d))) = Ok (r_encrypted_code row).
Definition newcomer (t : Tables) (u : PlatformUser) : Prop := forall v, v ∈ users t ->
  Organizations.u_id v <> Organizations.u_id u /\ u_uuid v <> u_uuid u /\ email_eq (u_email v) (u_email u) = false.
(** [e] becomes the verifier of [u], and of nobody else. *)
Definition sets_password (now : Z) (u : PlatformUser) (e : bytes) (t t' : Tables) : Prop :=
  users t' = update_rows (user_by_id (Organizations.u_id u)) (with_password now e) (users t).

Inductive step (now : Z) (t : Tables) : Request -> Tables -> Prop :=
| step_quiet q t' : users t' = users t -> resets t' = resets t -> step now t q t'
| step_open d r u e code t' : newcomer t u -> u_email u = g_email r -> u_password_enc u = Some e ->
    encrypted_password enclave_key d (g_password r) = Ok e ->
    uuid_parse_str (g_invite_code r) = Some code -> code ∈ c_code <$> invite_codes t ->
    users t' = users t ++ [u] -> resets t' = resets t -> step now t (Public (Register d r)) t'
| step_ask d r u row t' : u ∈ users t -> email_eq (u_email u) (rr_email r) = true -> is_Some (u_password_enc u) ->
    asks now d r u row -> users t' = users t -> resets t' = resets t ++ [row] -> step now t (Public (ResetRequest d r)) t'
| step_change header d r u a e t' : token_of now header t u -> a ∈ users t -> u_uuid a = u_uuid u ->
    knows a (cp_current_password r) -> encrypted_password enclave_key d (cp_new_password r) = Ok e ->
    sets_password now u e t t' -> resets t' = resets t -> step now t (Developer header (ChangePassword d r)) t'
| step_reset d r u row e t' : u ∈ users t -> email_eq (u_email u) (rc_email r) = true ->
    proves_reset now (rc_alphanumeric_code r) (rc_plaintext_secret r) t u row ->
    encrypted_password enclave_key d (rc_new_password r) = Ok e -> sets_password now u e t t' ->
    (resets t' = resets t \/ resets t' = update_rows (reset_by_id (r_id row)) (mark_reset now) (resets t)) ->
    step now t (Public (ResetConfirm d r)) t'.

Lemma idle_step now s s' q : same s s' -> step now (tables s) q (tables s').
Proof. intros (Hu & Hr & _). by apply step_quiet. Qed.

(** The identifiers of the accounts are their own, and older than the next. *)
Definition wf (s : State) : Prop :=
  unique u_uuid (users (tables s)) /\ unique Organizations.u_id (users (tables s)) /\
  below (serial s) Organizations.u_id (users (tables s)).
Lemma platform_wf_same s s' : wf s -> same s s' -> wf s'.
Proof. intros (H1 & H2 & H3) (Hu & _ & _ & Hn). split_and!; rewrite Hu; [done..|]. by eapply below_mono. Qed.

Lemma idle_get_by_uuid uuid : idle (get_platform_user_by_uuid uuid).
Proof. unfold get_platform_user_by_uuid. platform_walk. Qed.
Lemma idle_get_by_email e : idle (get_platform_user_by_email e).
Proof. unfold get_platform_user_by_email. platform_walk. Qed.
Lemma idle_authenticate e password : idle (authenticate_platform_user enclave_key e password).
Proof. unfold authenticate_platform_user, db. platform_walk. Qed.

Lemma method_select_Ok {A} wrap (f : Tables -> A) s a s' : method wrap (select f) s = (Ok a, s') -> a = f (tables s).
Proof. intros ([] & s1 & H1%sql_reads_connection & [H2 _]%Db.st_map_err_Ok%sql_select_Ok)%ST_bind_Ok. by rewrite H2, H1. Qed.
Lemma by_email_Ok e s u s' : get_platform_user_by_email e s = (Ok (Some u), s') -> u ∈ users (tables s) /\ email_eq (u_email u) e = true.
Proof. intros Hu%method_select_Ok. symmetry in Hu. by apply Db.first_Some in Hu as [? ?]. Qed.
Lemma by_uuid_Ok id s u s' : get_platform_user_by_uuid id s = (Ok u, s') -> u ∈ users (tables s) /\ u_uuid u = id.
Proof.
  intros (o & s1 & Ho%method_select_Ok & Hu)%ST_bind_Ok. injection Hu as Hu _. apply ok_or_Ok in Hu. subst o.
  by apply Db.first_Some in Hu as [?%bool_decide_eq_true ?].
Qed.
Lemma platform_authenticate_Ok e password s u s' : authenticate_platform_user enclave_key e password s = (Ok (Some u), s') ->
  Db.first (user_by_email e) (users (tables s)) = Some u /\ knows u password.
Proof.
  intros (o & s1 & Ho%Db.st_map_err_Ok & Hr)%ST_bind_Ok. destruct o as [v|]; [|done].
  apply method_select_Ok in Ho. destruct (u_password_enc v) as [c|] eqn:Hc; [|done].
  apply bind_lift_Ok in Hr as (k & Hk & Hr). apply bind_lift_Ok in Hr as (b & Hb%map_err_Ok & Hr).
  apply bind_lift_Ok in Hr as (hash & Hh%ok_or_Ok & Hr). injection Hr as Hr _.
  destruct (verify_password _ _) eqn:Hp; [|done]. injection Hr as <-. split_and!; [done..|]. by exists k, c, b, hash.
Qed.

(** A writing method: it fails and changes nothing, or does its work. *)
Lemma method_statement_inv {A} wrap (f : Z -> Tables -> outcome DieselError (A * Tables)) s r s' :
  method wrap (statement f) s = (r, s') ->
  (Db.not_ok r /\ same s s') \/ (exists a k, r = Ok a /\ (serial s <= k < serial s')%Z /\ f k (tables s) = Ok (a, tables s')).
Proof.
  intros (r0 & s1 & H1 & H2)%bind_cases. pose proof (sql_reads_connection _ _ _ _ H1) as Ht. apply grows_connection in H1.
  destruct r0 as [[]| |]; [|left; destruct H2 as [-> ->]; split; [by intros ?|]; unfold same; by rewrite Ht..].
  apply Db.st_map_err_inv in H2 as (r1 & H2 & ->). pose proof H2 as Hg%grows_statement. destruct r1 as [a|e|].
  - right. pose proof H2 as Hf%sql_statement_Ok. exists a, (serial s1). split; [done|]. rewrite <- Ht. split; [|done]. split; [done|].
    revert H2. unfold statement. destruct (faulty s1); [done|]. destruct (f _ _) as [[a' t]| |]; intros [= _ <-]. cbn. lia.
  - left. split; [by intros ?|]. apply sql_statement_not_ok in H2; [|by intros ?]. unfold same. rewrite H2, Ht. split_and!; [done..|lia].
  - left. split; [by intros ?|]. apply sql_statement_not_ok in H2; [|by intros ?]. unfold same. rewrite H2, Ht. split_and!; [done..|lia].
Qed.

Lemma wf_open s k u : wf s -> (serial s <= k)%Z -> Organizations.u_id u = k ->
  existsb (fun v => user_by_uuid (u_uuid u) v || user_by_email (u_email u) v) (users (tables s)) = false -> newcomer (tables s) u.
Proof.
  intros (_ & _ & Hb) Hk Hid He v Hv. split; [rewrite Hid; by eapply below_fresh|].
  rewrite <- not_true_iff_false, Db.existsb_elem in He.
  destruct (user_by_uuid (u_uuid u) v) eqn:H1, (user_by_email (u_email u) v) eqn:H2;
    try (destruct He; exists v; split; [done|]; by rewrite H1, H2).
  by apply bool_decide_eq_false in H1.
Qed.
Lemma quiet_step now s s1 s' q : same s s1 -> same s1 s' -> step now (tables s) q (tables s').
Proof. intros H1 H2. by apply idle_step, (transitivity H1). Qed.

(** Either nothing changes, or an account is opened. *)
Lemma register_inv now d r s a s' : wf s -> register_platform_user enclave_key signing_key now d r s = (a, s') ->
  (Db.not_ok a /\ same s s') \/ exists u e code, newcomer (tables s) u /\ u_uuid u = Accounts.new_uuid d /\ (Organizations.u_id u < serial s')%Z /\ (serial s <= serial s')%Z /\
    u_email u = g_email r /\ u_password_enc u = Some e /\ encrypted_password enclave_key d (g_password r) = Ok e /\
    uuid_parse_str (g_invite_code r) = Some code /\ code ∈ c_code <$> invite_codes (tables s) /\
    users (tables s') = users (tables s) ++ [u] /\ resets (tables s') = resets (tables s).
Proof.
  intros Hwf Hr. apply idle_bind_inv in Hr as [([] & s1 & _ & H1 & Hr)|[Hno ?]]; [|by left; split|platform_walk].
  apply idle_bind_inv in Hr as [(o & s2 & _ & H2 & Hr)|[Hno ?]]; [|left; split; [done|]; by etransitivity|platform_walk].
  assert (same s s2) as H3 by (by etransitivity). clear H1 H2.
  apply idle_bind_inv in Hr as [([] & s3 & _ & H4 & Hr)|[Hno ?]]; [|left; split; [done|]; by etransitivity|platform_walk].
  assert (same s s3) as H5 by (by etransitivity). clear H3 H4.
  apply lift_bind_inv in Hr as [(code & Hc%ok_or_Ok & Hr)|[Hno ->]]; [|by left].
  apply idle_bind_inv in Hr as [(c & s5 & Hcode & H6 & Hr)|[Hno ?]]; [|left; split; [done|]; by etransitivity|unfold validate_platform_invite_code; platform_walk].
  apply Db.st_map_err_Ok in Hcode. apply ST_bind_Ok in Hcode as (oc & s6 & Hoc%method_select_Ok & Hcode).
  injection Hcode as Hcode _. apply ok_or_Ok in Hcode. subst oc. apply Db.first_Some in Hcode as [<-%bool_decide_eq_true Hin].
  assert (same s s5) as H7 by (by etransitivity).
  apply lift_bind_inv in Hr as [(e & He%map_err_Ok & Hr)|[Hno ->]]; [|by left].
  apply bind_cases in Hr as (r8 & s8 & (r9 & H8 & ->)%Db.st_map_err_inv & Hr).
  assert (same s8 s') as H9.
  { destruct r9 as [u| |]; cbn [map_err] in Hr; [|by destruct Hr as [_ ->]..]. revert Hr. match goal with |- ?m s8 = _ -> _ => cut (idle m); [by intros Hm ?%Hm|] end.
    unfold create_platform_email_verification, verification_insert, internal_error. platform_walk. }
  apply method_statement_inv in H8 as [[Hno H8]|(u & k & -> & Hk & Hf)]; [left|right].
  { split; [|repeat (etransitivity; [eassumption|]); done].
    destruct r9 as [u| |]; cbn [map_err] in Hr; [by destruct (Hno u)|destruct Hr as [-> _]; by intros ?..]. }
  destruct H7 as (Hu7 & Hr7 & Hc7 & Hn7), H9 as (Hu9 & Hr9 & _ & Hn9). destruct H5 as (_ & _ & Hc5 & _).
  cbv beta zeta in Hf. destruct (existsb _ _) eqn:He8 in Hf; [done|]. injection Hf as Hu Ht. rewrite Hu7 in *.
  exists u, e, (c_code c). split_and!; try (by rewrite <- Hu); try done.
  - eapply (wf_open _ k); [done|lia|by rewrite <- Hu|by rewrite <- Hu].
  - rewrite <- Hu. cbn. lia.
  - lia.
  - rewrite <- Hc5. by apply list_elem_of_fmap_2.
  - rewrite Hu9, <- Ht. unfold users at 1. cbn. by rewrite Hu.
  - rewrite Hr9, <- Ht. done.
Qed.

Lemma register_steps now d r s a s' : wf s -> register_platform_user enclave_key signing_key now d r s = (a, s') ->
  step now (tables s) (Public (Register d r)) (tables s').
Proof.
  intros Hwf [[_ Hs]|(u & e & code & ? & _ & _ & _ & ?)]%register_inv; [by apply idle_step| |done].
  by eapply (step_open _ _ d r u e code); naive_solver.
Qed.
Lemma register_wf now d r s a s' : wf s -> register_platform_user enclave_key signing_key now d r s = (a, s') -> wf s'.
Proof.
  intros Hwf [[_ Hs]|(u & e & code & Hnew & _ & Hid & Hn & _ & _ & _ & _ & _ & Hu & _)]%register_inv; [by eapply platform_wf_same| |done].
  destruct Hwf as (H1 & H2 & H3). split_and!; rewrite Hu.
  - apply unique_snoc; [done|]. intros v Hv. by apply Hnew.
  - apply unique_snoc; [done|]. intros v Hv. by apply Hnew.
  - apply below_snoc; [|done]. by eapply below_mono.
Qed.

Lemma change_steps now d u r header s a s' : token_of now header (tables s) u ->
  platform_change_password enclave_key now d u r s = (a, s') -> step now (tables s) (Developer header (ChangePassword d r)) (tables s').
Proof.
  intros Htok Hr. apply idle_bind_inv in Hr as [([] & s1 & _ & H1 & Hr)|[_ ?]]; [|by apply idle_step|platform_walk].
  case_bool_decide; [injection Hr as _ <-; by apply idle_step|].
  apply bind_cases in Hr as (r2 & s2 & Ha & Hr).
  assert (same s1 s2) as H2 by (by eapply idle_attempt; [apply idle_authenticate|]).
  assert (same s s2) as H3 by (by etransitivity).
  destruct r2 as [r2| |]; [|destruct Hr as [_ ->]; by apply idle_step..].
  assert (forall v, r2 = Ok (Some v) -> v ∈ users (tables s) /\ knows v (cp_current_password r)) as Hauth.
  { intros v ->. unfold attempt in Ha. destruct (authenticate_platform_user _ _ _ s1) as [r0 s0] eqn:H0.
    destruct r0 as [o| |]; [|done..]. injection Ha as -> ->. apply platform_authenticate_Ok in H0 as [[_ Hv]%Db.first_Some ?].
    destruct H1 as (Hu & _). by rewrite <- Hu. }
  destruct r2 as [[v|]| |]; try (injection Hr as _ <-; by apply idle_step).
  destruct (Hauth v eq_refl) as [Hv Hk]. case_decide as Hid; [|injection Hr as _ <-; by apply idle_step].
  apply bind_cases in Hr as (r3 & s3 & (r4 & H4 & ->)%Db.st_map_err_inv & Hr).
  assert (s' = s3) as ->.
  { destruct r4 as [[]| |]; cbn [map_err] in Hr; [by injection Hr|by destruct Hr as [_ ->]..]. }
  clear Hr. apply lift_bind_inv in H4 as [(e & He & H4)|[_ ->]]; [|by apply idle_step].
  apply Db.st_map_err_inv in H4 as (r5 & H4 & ->).
  apply method_statement_inv in H4 as [[_ H4]|([] & k & -> & _ & Hf)]; [by eapply quiet_step|].
  injection Hf as Hf. destruct H3 as (Hu & Hrs & _).
  eapply (step_change _ _ header d r u v e); try done; unfold sets_password; rewrite <- Hf; [by rewrite <- Hu|done].
Qed.
Lemma reset_steps now later d r s a s' :
  platform_password_reset_confirm enclave_key now later d r s = (a, s') -> step now (tables s) (Public (ResetConfirm d r)) (tables s').
Proof.
  intros Hr. apply idle_bind_inv in Hr as [([] & s1 & _ & H1 & Hr)|[_ ?]]; [|by apply idle_step|platform_walk].
  apply idle_bind_inv in Hr as [(o & s2 & _ & H2 & Hr)|[_ ?]]; [|by eapply quiet_step|apply idle_map_err, idle_get_by_email].
  assert (same s s2) as H3 by (by etransitivity). clear H1 H2.
  destruct o as [w|]; [|injection Hr as _ <-; by apply idle_step].
  case_bool_decide; [injection Hr as _ <-; by apply idle_step|].
  apply bind_cases in Hr as (r3 & s3 & (r4 & H4 & ->)%Db.st_map_err_inv & Hr).
  assert (s' = s3) as ->.
  { destruct r4 as [[]| |]; cbn [map_err] in Hr; [by injection Hr|by destruct Hr as [_ ->]..]. }
  clear Hr.
  apply idle_bind_inv in H4 as [(o & s4 & Ho & H5 & H4)|[_ ?]]; [|by eapply quiet_step|apply idle_map_err, idle_get_by_email].
  assert (same s s4) as H6 by (by etransitivity).
  apply lift_bind_inv in H4 as [(u & ->%ok_or_Ok & H4)|[_ ->]]; [|by apply idle_step].
  apply Db.st_map_err_Ok, by_email_Ok in Ho as [Hu He].
  apply lift_bind_inv in H4 as [(k & Hk & H4)|[_ ->]]; [|by apply idle_step].
  apply lift_bind_inv in H4 as [(c & Hc%lift_Ok & H4)|[_ ->]]; [|by apply idle_step].
  apply idle_bind_inv in H4 as [(o & s5 & Hreset & H7 & H4)|[_ ?]]; [|by eapply quiet_step|unfold db, get_platform_password_reset_request_by_user_id_and_code; platform_walk].
  assert (same s s5) as H8 by (by etransitivity).
  apply Db.st_map_err_Ok, method_select_Ok in Hreset.
  destruct o as [row|]; [|injection H4 as _ <-; by apply idle_step].
  symmetry in Hreset. apply Db.first_Some in Hreset as [Hopen Hrow].
  destruct (is_expired later row); [injection H4 as _ <-; by apply idle_step|].
  case_decide as Hsecret; [|injection H4 as _ <-; by apply idle_step].
  apply lift_bind_inv in H4 as [(e & Hpw & H4)|[_ ->]]; [|by apply idle_step].
  apply bind_cases in H4 as (r5 & s6 & (r6 & H9 & ->)%Db.st_map_err_inv & H4).
  assert (proves_reset now (rc_alphanumeric_code r) (rc_plaintext_secret r) (tables s) u row) as Hproof.
  { unfold open_reset in Hopen. apply andb_true_iff in Hopen as [[[Hru%bool_decide_eq_true Hrc%bool_decide_eq_true]%andb_true_iff
      Hnew%negb_true_iff]%andb_true_iff Hlive%bool_decide_eq_true].
    destruct H6 as (_ & Hr6 & _). rewrite Hr6 in Hrow. split_and!; try done. exists k. by rewrite Hrc. }
  assert (u ∈ users (tables s)) as Hin by (destruct H3 as (Hu3 & _); by rewrite <- Hu3).
  apply method_statement_inv in H9 as [[Hn H9]|([] & n & -> & _ & Hf)].
  { destruct r6 as [[]| |]; cbn [map_err] in H4; [by destruct (Hn tt)|destruct H4 as [_ ->]; by eapply quiet_step..]. }
  destruct H8 as (Hu8 & Hr8 & Hc8 & Hn8). injection Hf as Hf. apply Db.st_map_err_inv in H4 as (r7 & H4 & ->).
  assert (sets_password now u e (tables s) (tables s6)) as Hset by (unfold sets_password; by rewrite <- Hf, <- Hu8).
  assert (resets (tables s6) = resets (tables s)) as Hr6 by (by rewrite <- Hf).
  apply method_statement_inv in H4 as [(_ & Hu9 & Hr9 & _)|([] & m & -> & _ & Hm)]; [|injection Hm as Hm].
  - eapply (step_reset _ _ d r u row e); try done; [unfold sets_password; by rewrite Hu9|left; congruence].
  - eapply (step_reset _ _ d r u row e); try done; [unfold sets_password; by rewrite <- Hm|right; by rewrite <- Hm, <- Hr6].
Qed.

Lemma ask_steps now d r s a s' :
  platform_password_reset_request enclave_key now d r s = (a, s') -> step now (tables s) (Public (ResetRequest d r)) (tables s').
Proof.
  intros Hr. apply idle_bind_inv in Hr as [([] & s1 & _ & H1 & Hr)|[_ ?]]; [|by apply idle_step|platform_walk].
  apply idle_bind_inv in Hr as [(o & s2 & _ & H2 & Hr)|[_ ?]]; [|by eapply quiet_step|apply idle_map_err, idle_get_by_email].
  assert (same s s2) as H3 by (by etransitivity). clear H1 H2.
  destruct o as [w|]; [|injection Hr as _ <-; by apply idle_step].
  case_bool_decide; [injection Hr as _ <-; by apply idle_step|].
  apply bind_cases in Hr as (r3 & s3 & H4 & Hr).
  assert (s' = s3) as -> by (destruct r3 as [[]| |]; first [by injection Hr|by destruct Hr as [_ ->]]). clear Hr.
  unfold attempt in H4. destruct (create_platform_password_reset_request _ _ _ _ _ s2) as [r4 s4] eqn:H5.
  assert (s3 = s4) as -> by (by destruct r4; injection H4). clear H4.
  apply bind_cases in H5 as (r5 & s5 & H6 & H5).
  assert (same s s5) as H7 by (etransitivity; [exact H3|]; by eapply idle_attempt; [apply idle_get_by_email|]).
  destruct r5 as [r5| |]; [|destruct H5 as [_ ->]; by apply idle_step..].
  destruct r5 as [[u|]| |]; try (injection H5 as _ <-; by apply idle_step).
  unfold attempt in H6. destruct (get_platform_user_by_email _ _) as [r6 s6] eqn:H8. destruct r6; [|done..].
  injection H6 as -> ->. apply by_email_Ok in H8 as [Hu He].
  case_bool_decide as Hp; [|injection H5 as _ <-; by apply idle_step].
  apply lift_bind_inv in H5 as [(k & Hk & H5)|[_ ->]]; [|by apply idle_step].
  apply lift_bind_inv in H5 as [(c & Hc%lift_Ok & H5)|[_ ->]]; [|by apply idle_step].
  apply lift_bind_inv in H5 as [(n & [= <-] & H5)|[_ ->]]; [|by apply idle_step].
  apply bind_cases in H5 as (r7 & s7 & (r8 & H9 & ->)%Db.st_map_err_inv & H5).
  assert (s4 = s7) as -> by (destruct r8; cbn [map_err] in H5; [by injection H5|by destruct H5 as [_ ->]..]). clear H5.
  apply method_statement_inv in H9 as [[_ H9]|(row & id & -> & _ & Hf)]; [by eapply quiet_step|].
  cbv beta zeta in Hf. destruct (exists_user _ _); [|done]. injection Hf as Hrow Ht.
  destruct H3 as (Hu3 & _), H7 as (Hu7 & Hr7 & _). rewrite Hu3 in Hu.
  apply (step_ask _ _ d r u row); try done.
  - rewrite <- Hrow. split_and!; try done. by exists k.
  - by rewrite <- Ht.
  - rewrite <- Ht. cbn. by rewrite Hrow, Hr7.
Qed.

Lemma step_after now s s1 t' header d r : same s s1 -> step now (tables s1) (Developer header (ChangePassword d r)) t' ->
  step now (tables s) (Developer header (ChangePassword d r)) t'.
Proof.
  intros (Hu & Hr & _) Hs. inversion Hs as [? ? Hu' Hr'| | |? ? ? u v e ? (token & c & Hb & Hc & Hid & Hin) Hv ? ? ? Hset Hr'|]; subst.
  - apply step_quiet; congruence.
  - unfold sets_password in Hset. rewrite Hu in *. eapply (step_change _ _ header d r u v e); try done; [by exists token, c|congruence].
Qed.
Lemma idle_org_responses l : idle (org_responses l).
Proof.
  induction l as [|m l IH]; [apply (idle_lift (Ok []))|]. apply idle_bind; [apply idle_attempt, idle_organizations, OrganizationSteps.observes_lookup|].
  intros r. apply idle_bind; [done|]. intros rest. destruct r; platform_walk.
Qed.
Lemma idle_profile u : idle (get_platform_user u).
Proof.
  unfold get_platform_user. apply idle_bind; [platform_walk|intros r]. apply idle_bind; [platform_walk|intros v].
  apply idle_bind; [apply idle_map_err, idle_organizations, OrganizationSteps.observes_select|intros ms].
  apply idle_bind; [apply idle_org_responses|intros os]. platform_walk.
Qed.
Lemma idle_login now r : idle (login_platform_user enclave_key signing_key now r).
Proof. unfold login_platform_user, login_internal_platform. platform_walk. Qed.
Lemma idle_refresh now token : idle (refresh_platform_token signing_key now token).
Proof. unfold refresh_platform_token. platform_walk. Qed.
Lemma idle_verify now later code : idle (verify_platform_email_route now later code).
Proof. unfold verify_platform_email_route, verify_platform_email, verification_verify, verification_update. platform_walk. Qed.
Lemma idle_request now d u : idle (request_platform_verification now d u).
Proof. unfold request_platform_verification. platform_walk. Qed.
Lemma idle_answer {A} (f : A -> Answer) (m : ST State Api.ApiError A) : idle m -> idle (answer f m).
Proof. intros Hm. apply idle_bind; [done|intros a]. apply (idle_lift (Ok (f a))). Qed.
Lemma answer_run {A} (f : A -> Answer) (m : ST State Api.ApiError A) s r s' : answer f m s = (r, s') -> exists r0, m s = (r0, s').
Proof. intros (r0 & Hm & _)%bind_ok. by exists r0. Qed.

(** ** Accounts keep their identifiers *)
Lemma grows_attempt {E E' A} (m : ST State E A) : grows m -> grows (@attempt E E' A m).
Proof. intros Hm s r s'. unfold attempt. destruct (m s) as [r0 s0] eqn:Hs. destruct r0; intros [= _ <-]; by eapply Hm. Qed.
Lemma grows_calm {E A} (m : ST State E A) : idle m -> grows m.
Proof. by intros Hm s r s' (_ & _ & _ & Hn)%Hm. Qed.
Ltac growing :=
  repeat first
    [ apply grows_lift | apply grows_ok | apply grows_err | apply grows_statement | apply grows_connection | apply grows_map_err
    | apply grows_attempt | apply grows_calm, idle_authenticate | apply grows_bind; [|intros ?]
    | progress unfold bad_request_unless, internal_error, db
    | match goal with |- grows (match ?x with _ => _ end) => destruct x end ].
Lemma grows_writers now later d :
  (forall u r, grows (platform_change_password enclave_key now d u r)) /\
  (forall r, grows (platform_password_reset_confirm enclave_key now later d r)) /\
  (forall r, grows (platform_password_reset_request enclave_key now d r)).
Proof.
  split_and!; [intros u r|intros r..]; [unfold platform_change_password, change_platform_user_password|unfold platform_password_reset_confirm, confirm_platform_password_reset
    |unfold platform_password_reset_request, create_platform_password_reset_request]; growing.
Qed.
Lemma platform_step_wf now s s' q : wf s -> step now (tables s) q (tables s') -> (forall d r, q <> Public (Register d r)) ->
  (serial s <= serial s')%Z -> wf s'.
Proof.
  intros (H1 & H2 & H3) Hs Hq Hn. apply (below_mono _ (serial s')) in H3; [|done].
  assert (forall u e, sets_password now u e (tables s) (tables s') -> wf s') as Hset.
  { intros u e Hu. unfold sets_password in Hu. split_and!; rewrite Hu; [by apply unique_update..|by apply below_update]. }
  inversion Hs; subst; try (by eapply Hset); try (by edestruct Hq); split_and!;
    match goal with Hu : users _ = users _ |- _ => by rewrite Hu end.
Qed.

(** A request of a developer makes one step of the machine of the passwords,
    whatever fails, and keeps the identifiers of the accounts. *)
Lemma requests_are_password_steps now later q s a s' : wf s ->
  serve enclave_key signing_key now later q s = (a, s') -> step now (tables s) q (tables s') /\ wf s'.
Proof.
  intros Hwf Hr.
  assert (same s s' -> step now (tables s) q (tables s') /\ wf s') as Hcalm by (split; [by apply idle_step|by eapply platform_wf_same]).
  destruct q as [header op|op].
  - apply idle_bind_inv in Hr as [(u & s1 & Htok & H1 & Hr)|[_ ?]]; [|by apply Hcalm|].
    2: { unfold Tokens.validate_platform_jwt. platform_walk. }
    destruct op as [|d|d r]; cbn [serve_developer] in Hr.
    + apply (idle_answer _ _ (idle_profile u)) in Hr. apply Hcalm. by etransitivity.
    + apply (idle_answer _ _ (idle_request now d u)) in Hr. apply Hcalm. by etransitivity.
    + apply answer_run in Hr as [r0 Hr]. pose proof (proj1 (grows_writers now later d) u r _ _ _ Hr) as Hn.
      assert (step now (tables s) (Developer header (ChangePassword d r)) (tables s')) as Hs.
      { eapply step_after, change_steps; [done| |exact Hr].
        apply bind_lift_Ok in Htok as (token & Ht%ok_or_Ok & Htok). apply bind_lift_Ok in Htok as (c & Hc%map_err_Ok & Htok).
        apply bind_lift_Ok in Htok as (id & Hid%ok_or_Ok & Htok). apply Db.st_map_err_Ok, by_uuid_Ok in Htok as [Hu <-].
        exists token, c. destruct H1 as (Hu1 & _). by rewrite Hu1. }
      split; [done|]. eapply platform_step_wf; [done|exact Hs|done|]. destruct H1 as (_ & _ & _ & ?). lia.
  - destruct op as [r|d r|token|token|code|d r|d r]; cbn [serve serve_public] in Hr; try (apply answer_run in Hr as [r0 Hr]).
    + apply idle_login in Hr. by apply Hcalm.
    + split; [by eapply register_steps|by eapply register_wf].
    + apply idle_refresh in Hr. by apply Hcalm.
    + injection Hr as _ <-. by apply Hcalm.
    + apply idle_verify in Hr. by apply Hcalm.
    + pose proof (ask_steps _ _ _ _ _ _ Hr) as Hs. split; [done|]. eapply platform_step_wf; [done|exact Hs|done|].
      exact (proj2 (proj2 (grows_writers now now d)) r _ _ _ Hr).
    + pose proof (reset_steps _ _ _ _ _ _ _ Hr) as Hs. split; [done|]. eapply platform_step_wf; [done|exact Hs|done|].
      exact (proj1 (proj2 (grows_writers now later d)) r _ _ _ Hr).
Qed.

(** ** What happened since the service started *)
Definition Entry : Type := (Z * Z) * Request.
Definition after (qs : list Entry) (s : State) : State :=
  foldl (fun s q => (serve enclave_key signing_key q.1.1 q.1.2 q.2 s).2) s qs.

(** Every reset request was asked for, for the address of its account. *)
Definition accounted (qs : list Entry) (s : State) : Prop := forall row, row ∈ resets (tables s) ->
  exists asked_at t d p u k, ((asked_at, t), Public (ResetRequest d p)) ∈ qs /\
    u ∈ users (tables s) /\ u_uuid u = r_platform_user_id row /\ email_eq (u_email u) (rr_email p) = true /\
    r_hashed_secret row = rr_hashed_secret p /\ r_expiration_time row = (asked_at + hours 24)%Z /\
    enclave_secret enclave_key = Ok k /\
    Encrypt.encrypt_key_deterministic k (as_bytes (Accounts.generate_alphanumeric_code (Accounts.code_bytes d))) = Ok (r_encrypted_code row).

(** Accounts are not deleted and keep their addresses. *)
Lemma accounts_stay now t q t' u : step now t q t' -> u ∈ users t ->
  exists u', u' ∈ users t' /\ u_uuid u' = u_uuid u /\ u_email u' = u_email u.
Proof.
  intros Hs Hu. assert (forall v e, sets_password now v e t t' -> exists u', u' ∈ users t' /\ u_uuid u' = u_uuid u /\ u_email u' = u_email u) as Hset.
  { intros v e Hv. unfold sets_password in Hv. rewrite Hv. exists (if user_by_id (Organizations.u_id v) u then with_password now e u else u).
    split; [apply Db.elem_of_updated; by exists u|by destruct (user_by_id _ u)]. }
  inversion Hs; subst; eauto; exists u; (split; [|done]); match goal with H : users t' = _ |- _ => rewrite H end; set_solver.
Qed.
Lemma rows_stay now t q t' row : step now t q t' -> row ∈ resets t' ->
  (exists row0, row0 ∈ resets t /\ r_platform_user_id row = r_platform_user_id row0 /\ r_hashed_secret row = r_hashed_secret row0 /\
     r_expiration_time row = r_expiration_time row0 /\ r_encrypted_code row = r_encrypted_code row0) \/
  (exists d r u, q = Public (ResetRequest d r) /\ u ∈ users t /\ email_eq (u_email u) (rr_email r) = true /\ asks now d r u row).
Proof.
  intros Hs Hrow. assert (row ∈ resets t -> exists row0, row0 ∈ resets t /\ r_platform_user_id row = r_platform_user_id row0 /\
    r_hashed_secret row = r_hashed_secret row0 /\ r_expiration_time row = r_expiration_time row0 /\
    r_encrypted_code row = r_encrypted_code row0) as Hold by (intros ?; by exists row).
  inversion Hs; subst; try (match goal with Hr : resets t' = resets t |- _ => rewrite Hr in Hrow; left; by apply Hold end).
  - match goal with Hr : resets t' = _ |- _ => rewrite Hr in Hrow end.
    apply elem_of_app in Hrow as [Hrow| ->%list_elem_of_singleton]; [left; by apply Hold|right]. by do 3 eexists.
  - left. match goal with Hr : _ \/ _ |- _ => destruct Hr as [Hr|Hr]; rewrite Hr in Hrow end; [by apply Hold|].
    apply Db.elem_of_updated in Hrow as (row1 & Hin & ->). exists row1. by destruct (reset_by_id _ row1).
Qed.

Lemma after_snoc qs q s : after (qs ++ [q]) s = (serve enclave_key signing_key q.1.1 q.1.2 q.2 (after qs s)).2.
Proof. unfold after. by rewrite foldl_app. Qed.
Lemma history_accounted qs s : wf s -> resets (tables s) = [] -> wf (after qs s) /\ accounted qs (after qs s).
Proof.
  intros Hwf Hnone. induction qs as [|[[now later] q] qs [Hwf1 IH]] using rev_ind.
  { split; [done|]. intros row Hrow. cbn in Hrow. rewrite Hnone in Hrow. by apply elem_of_nil in Hrow. }
  rewrite after_snoc. cbn [fst snd]. destruct (serve _ _ _ _ _ _) as [a s'] eqn:Hr. cbn.
  apply requests_are_password_steps in Hr as [Hs Hwf']; [|done]. split; [done|].
  intros row Hrow. destruct (rows_stay _ _ _ _ _ Hs Hrow) as [(row0 & H0 & E1 & E2 & E3 & E4)|(d & r & u & -> & Hu & He & Ha)].
  - destruct (IH row0 H0) as (t & t' & d & p & u & k & Hq & Hu & Hid & He & Hh & Hx & Hk & Hc).
    destruct (accounts_stay _ _ _ _ _ Hs Hu) as (u' & Hu' & Hid' & He'). exists t, t', d, p, u', k.
    split_and!; try congruence; set_solver.
  - destruct (accounts_stay _ _ _ _ _ Hs Hu) as (u' & Hu' & Hid' & He'). destruct Ha as (A1 & A2 & A3 & A4 & k & A5 & A6).
    exists now, later, d, r, u', k. split_and!; try congruence; set_solver.
Qed.

(** The verifier of an account after a step. *)
Lemma password_step now t q t' u u' : unique u_uuid (users t) -> unique Organizations.u_id (users t) -> step now t q t' ->
  u ∈ users t -> u' ∈ users t' -> u_uuid u' = u_uuid u -> u_password_enc u' <> u_password_enc u ->
  exists e, u_password_enc u' = Some e /\
  ((exists header d r, q = Developer header (ChangePassword d r) /\ token_of now header t u /\ knows u (cp_current_password r) /\
      encrypted_password enclave_key d (cp_new_password r) = Ok e) \/
   (exists d r row, q = Public (ResetConfirm d r) /\ proves_reset now (rc_alphanumeric_code r) (rc_plaintext_secret r) t u row /\
      encrypted_password enclave_key d (rc_new_password r) = Ok e)).
Proof.
  intros Hun Hids Hs Hu Hu' Hid Hpw.
  assert (forall v e, v ∈ users t -> sets_password now v e t t' -> v = u /\ u_password_enc u' = Some e) as Hset.
  { intros v e Hv Hset. unfold sets_password in Hset. rewrite Hset in Hu'. apply Db.elem_of_updated in Hu' as (w & Hw & ->).
    destruct (user_by_id (Organizations.u_id v) w) eqn:Hvw.
    - apply bool_decide_eq_true in Hvw. assert (w = v) as -> by (by apply (unique_same Organizations.u_id (users t))).
      split; [|done]. by apply (unique_same u_uuid (users t)).
    - assert (w = u) as -> by (by apply (unique_same u_uuid (users t))). done. }
  assert (users t' = users t -> False) as Hsame.
  { intros Hs'. rewrite Hs' in Hu'. apply Hpw. f_equal. by apply (unique_same u_uuid (users t)). }
  inversion Hs as [|d r v e code ? Hnew ? ? ? ? ? Hus ?| |header d r v a e ? Htok Ha Hva Hk He Hsets ?|d r v row e ? Hv ? Hproof He Hsets ?];
    subst; try (by destruct Hsame).
  - exfalso. rewrite Hus in Hu'. apply elem_of_app in Hu' as [Hin| ->%list_elem_of_singleton].
    + apply Hpw. f_equal. by apply (unique_same u_uuid (users t)).
    + destruct (Hnew u Hu) as (_ & Hne & _). by apply Hne.
  - assert (v ∈ users t) as Hv by (by destruct Htok as (? & ? & _ & _ & _ & ?)).
    destruct (Hset v e Hv Hsets) as [-> He']. exists e. split; [done|left]. exists header, d, r. split_and!; try done.
    by replace u with a by (by apply (unique_same u_uuid (users t))).
  - destruct (Hset v e Hv Hsets) as [-> He']. exists e. split; [done|right]. by exists d, r, row.
Qed.

(** C18. Nobody takes over the account of a developer.  However the service was
    used since no reset was open, if a request changes the password of an account,
    then either it carries the account's access token and its current password, or
    it carries the very code that was drawn and mailed for an earlier request, less
    than a day old, that named the account's address, together with a text whose
    hash that request had given. *)
Theorem developer_passwords_are_safe {cl : CryptoLaws cr} qs s0 now later q a s' u u' : wf s0 -> resets (tables s0) = [] ->
  let s := after qs s0 in
  serve enclave_key signing_key now later q s = (a, s') ->
  u ∈ users (tables s) -> u' ∈ users (tables s') -> u_uuid u' = u_uuid u -> u_password_enc u' <> u_password_enc u ->
  (exists header d r, q = Developer header (ChangePassword d r) /\ token_of now header (tables s) u /\ knows u (cp_current_password r)) \/
  (exists d r asked_at t d0 p, q = Public (ResetConfirm d r) /\ ((asked_at, t), Public (ResetRequest d0 p)) ∈ qs /\
     email_eq (u_email u) (rr_email p) = true /\ (now < asked_at + hours 24)%Z /\
     rc_alphanumeric_code r = Accounts.generate_alphanumeric_code (Accounts.code_bytes d0) /\
     Accounts.generate_reset_hash (rc_plaintext_secret r) = rr_hashed_secret p).
Proof.
  intros Hwf Hnone s Hr Hu Hu' Hid Hpw. destruct (history_accounted qs s0 Hwf Hnone) as [Hwf1 Hacc]. fold s in Hwf1, Hacc.
  apply requests_are_password_steps in Hr as [Hs _]; [|done]. destruct Hwf1 as (H1 & H2 & _).
  destruct (password_step _ _ _ _ _ _ H1 H2 Hs Hu Hu' Hid Hpw) as (e & _ & [(h & d & r & ? & ? & ? & _)|(d & r & row & -> & Hp & _)]).
  { left. by exists h, d, r. }
  right. destruct Hp as (Hrow & Hru & _ & Hlive & Hhash & k & Hk & Hc).
  destruct (Hacc row Hrow) as (t & t' & d0 & p & v & k' & Hq & Hv & Hvid & He & Hh & Hx & Hk' & Hc').
  exists d, r, t, t', d0, p. split_and!; try congruence.
  - replace u with v; [done|]. apply (unique_same u_uuid (users (tables s))); [done..|congruence].
  - rewrite Hk in Hk'. injection Hk' as <-. unfold Encrypt.encrypt_key_deterministic in Hc, Hc'. apply expect_Ok in Hc, Hc'.
    apply (open_seal _ siv_ok) in Hc, Hc'. rewrite Hc in Hc'. injection Hc' as Hc'. by apply as_bytes_inj.
Qed.

(** ** The password last set signs in *)
Section signing_in.
Context {cl : CryptoLaws cr} {al : AccountDepsLaws ad} {jl : Tokens.JwtLaws jw} {il : UuidTextLaws ut}.

Lemma stored_password d password e u : length (Accounts.password_nonce d) = 12 -> encrypted_password enclave_key d password = Ok e ->
  u_password_enc u = Some e -> knows u password.
Proof.
  intros Hn (k & Hk & He%lift_Ok)%bind_Ok Hu. exists k, e, (as_bytes (generate_hash (Accounts.salt d) password)), (generate_hash (Accounts.salt d) password).
  pose proof Hk as Hb%ok_or_Ok%secret_bytes_from_slice. destruct Hb as [Hb Hl], k as [k]. cbn in Hb. subst k.
  split_and!; try done; [by eapply Encrypt.with_key_exact|unfold from_utf8; by rewrite of_as_bytes, hash_utf8|apply hash_verifies].
Qed.
Lemma by_email_answers t e : answers t (get_platform_user_by_email e) (Db.first (user_by_email e) (users t)).
Proof.
  eapply answers_bind; [apply answers_connection|]. eapply answers_map_err, (answers_select t (fun t => Db.first (user_by_email e) (users t))).
Qed.
Lemma by_uuid_answers t u : Db.first (user_by_uuid (u_uuid u)) (users t) = Some u -> answers t (get_platform_user_by_uuid (u_uuid u)) u.
Proof.
  intros Hu. eapply (answers_bind _ _ _ (Some u)); [|by apply answers_lift].
  eapply answers_bind; [apply answers_connection|]. rewrite <- Hu.
  eapply answers_map_err, (answers_select t (fun t => Db.first (user_by_uuid (u_uuid u)) (users t))).
Qed.
Lemma authenticate_answers t e u password : Db.first (user_by_email e) (users t) = Some u -> knows u password ->
  answers t (authenticate_platform_user enclave_key e password) (Some u).
Proof.
  intros Hu (k & c & b & hash & Hk & Hc & Hb & Hh & Hv). eapply answers_bind; [apply answers_map_err, by_email_answers|]. rewrite Hu, Hc.
  eapply answers_bind; [by apply answers_lift|]. eapply answers_bind; [apply answers_lift; by rewrite Hb|].
  eapply answers_bind; [apply answers_lift; by rewrite Hh|]. rewrite Hv. apply answers_ok.
Qed.
Lemma signs_total c : exists token, Tokens.sign signing_key c = Ok token.
Proof. unfold Tokens.sign. destruct (Tokens.es256k_total signing_key c) as [token ->]. by exists token. Qed.
(** The tokens of a sign-in name the developer. *)
Lemma tokens_name now u : exists access refresh,
  platform_tokens signing_key now u = Ok (access, refresh) /\
  forall now', (now' <= Tokens.whole_second (now - Tokens.minutes 1 + Tokens.minutes Tokens.access_token_maxage))%Z ->
    exists c, Tokens.validate_token signing_key now' access Claims.PLATFORM_ACCESS = Ok c /\ Claims.sub c = uuid_to_string (u_uuid u).
Proof.
  unfold platform_tokens, Tokens.new_for_platform_user. cbn [mbind outcome_bind].
  destruct (signs_total (Tokens.dated now (Tokens.minutes Tokens.access_token_maxage)
    (Claims.MkClaims (uuid_to_string (u_uuid u)) (Some Claims.PLATFORM_ACCESS) None None None None None None))) as [access Ha].
  destruct (signs_total (Tokens.dated now (Tokens.days Tokens.refresh_token_maxage)
    (Claims.MkClaims (uuid_to_string (u_uuid u)) (Some Claims.PLATFORM_REFRESH) None None None None None None))) as [refresh Hf].
  exists access, refresh. rewrite Ha, Hf. split; [done|]. intros now' Hn. eexists. split; [by eapply Tokens.signed_validates|done].
Qed.

(** Whoever sends this address and this password is let in as [u]. *)
Definition lets_in (t : Tables) (e password : string) (u : PlatformUser) : Prop :=
  forall now, valid_address e = true -> valid_password password = true ->
    exists access refresh,
      answers t (login_platform_user enclave_key signing_key now (MkLogin e password))
        (MkAuth (u_uuid u) (u_email u) (Organizations.u_name u) access refresh) /\
      forall now', (now' <= Tokens.whole_second (now - Tokens.minutes 1 + Tokens.minutes Tokens.access_token_maxage))%Z ->
        answers t (Tokens.validate_platform_jwt signing_key get_platform_user_by_uuid now' (Some (String.append "Bearer " access))) u.
Lemma knows_lets_in t e password u : unique u_uuid (users t) -> length (u_uuid u) = 16 ->
  Db.first (user_by_email e) (users t) = Some u -> knows u password -> lets_in t e password u.
Proof.
  intros Hun Hl Hu Hk now He Hp. destruct (tokens_name now u) as (access & refresh & Ht & Hname). exists access, refresh. split.
  - eapply (answers_bind _ _ _ tt); [unfold bad_request_unless, validate_login; cbn; rewrite He, Hp; apply answers_ok|].
    eapply answers_bind; [by apply answers_map_err, authenticate_answers|]. apply answers_lift. unfold auth_response. by rewrite Ht.
  - intros now' Hn. destruct (Hname now' Hn) as (c & Hc & Hs).
    eapply (answers_bind _ _ _ access); [by apply answers_lift|]. eapply answers_bind; [apply answers_lift; by rewrite Hc|].
    eapply (answers_bind _ _ _ (u_uuid u)); [apply answers_lift; rewrite Hs, uuid_roundtrip; done|].
    apply answers_map_err, by_uuid_answers. apply Db.first_Some in Hu as [_ Hu].
    destruct (Db.first _ _) as [v|] eqn:Hv.
    + apply Db.first_Some in Hv as [Hv%bool_decide_eq_true Hin]. f_equal. by apply (unique_same u_uuid (users t)).
    + exfalso. unfold Db.first in Hv. apply fmap_None, list_find_None in Hv. rewrite Forall_forall in Hv.
      apply (Hv u Hu). by apply bool_decide_eq_true.
Qed.

Lemma first_updated p (f : PlatformUser -> PlatformUser) q l : (forall x, q (f x) = q x) ->
  Db.first q (update_rows p f l) = (fun x => if p x then f x else x) <$> Db.first q l.
Proof.
  intros Hf. unfold Db.first, Db.update_rows. induction l as [|x l IH]; [done|]. rewrite fmap_cons. cbn [list_find].
  assert (q (if p x then f x else x) = q x) as Hq by (by destruct (p x)). rewrite Hq. case_decide; [done|].
  rewrite <- !option_fmap_compose in *. by destruct (list_find _ _) as [[]|], (list_find _ l) as [[]|].
Qed.
Lemma set_lets_in now t t' u e d email password : unique u_uuid (users t) -> length (u_uuid u) = 16 ->
  length (Accounts.password_nonce d) = 12 -> Db.first (user_by_email email) (users t) = Some u ->
  encrypted_password enclave_key d password = Ok e -> sets_password now u e t t' -> lets_in t' email password (with_password now e u).
Proof.
  intros Hun Hl Hn Hu He Hset. unfold sets_password in Hset. apply knows_lets_in; try done.
  - rewrite Hset. by apply unique_update.
  - rewrite Hset, first_updated by done. rewrite Hu. cbn. unfold user_by_id. by rewrite bool_decide_true.
  - by eapply stored_password.
Qed.

Lemma platform_write_Ok {A} wrap (f : Z -> Tables -> outcome DieselError (A * Tables)) s a s' : method wrap (statement f) s = (Ok a, s') ->
  exists k, f k (tables s) = Ok (a, tables s').
Proof. intros [[Hn _]|(b & k & [= ->] & _ & Hf)]%method_statement_inv; [by destruct (Hn a)|by exists k]. Qed.
Lemma attempt_Ok {E E' A} (m : ST State E A) s a s' : @attempt E E' A m s = (Ok (Ok a), s') -> m s = (Ok a, s').
Proof. unfold attempt. destruct (m s) as [[]]; by intros [= -> ->]. Qed.
Lemma platform_change_Ok now d u r s n s' : platform_change_password enclave_key now d u r s = (Ok n, s') ->
  exists a e, Db.first (user_by_email (u_email u)) (users (tables s)) = Some a /\ u_uuid a = u_uuid u /\
    encrypted_password enclave_key d (cp_new_password r) = Ok e /\ sets_password now u e (tables s) (tables s').
Proof.
  intros ([] & s1 & H1 & Hr)%ST_bind_Ok. assert (same s s1) as (Hu1 & _) by (revert H1; destruct (validate_change r); by intros [= <-]).
  case_bool_decide; [done|]. apply ST_bind_Ok in Hr as (a & s2 & Ha & Hr).
  pose proof (idle_attempt _ (idle_authenticate _ _) _ _ _ Ha) as (Hu2 & _).
  destruct a as [[v|]| |]; try done. apply attempt_Ok, platform_authenticate_Ok in Ha as [Ha _]. rewrite Hu1 in Ha.
  case_decide; [|done]. apply ST_bind_Ok in Hr as ([] & s3 & Hw%Db.st_map_err_Ok & [= _ <-]).
  apply bind_lift_Ok in Hw as (e & He & [k Hf]%Db.st_map_err_Ok%platform_write_Ok). injection Hf as Hf.
  exists v, e. split_and!; try done. unfold sets_password. rewrite <- Hf, <- Hu1, <- Hu2. done.
Qed.
Lemma reset_Ok now later d r s n s' : platform_password_reset_confirm enclave_key now later d r s = (Ok n, s') ->
  validate_reset_confirm r = true /\
  exists u e, Db.first (user_by_email (rc_email r)) (users (tables s)) = Some u /\
    encrypted_password enclave_key d (rc_new_password r) = Ok e /\ sets_password now u e (tables s) (tables s').
Proof.
  intros ([] & s1 & H1 & Hr)%ST_bind_Ok. unfold bad_request_unless in H1. destruct (validate_reset_confirm r); [|done]. injection H1 as <-. split; [done|].
  apply ST_bind_Ok in Hr as (o & s2 & H2 & Hr). pose proof (idle_map_err _ _ (idle_get_by_email _) _ _ _ H2) as (Hu2 & _).
  destruct o as [w|]; [|done]. case_bool_decide; [done|]. apply ST_bind_Ok in Hr as ([] & s3 & Hw%Db.st_map_err_Ok & [= _ <-]).
  apply ST_bind_Ok in Hw as (o & s4 & H4 & Hw). pose proof (idle_map_err _ _ (idle_get_by_email _) _ _ _ H4) as (Hu4 & _).
  apply bind_lift_Ok in Hw as (u & ->%ok_or_Ok & Hw). apply Db.st_map_err_Ok, method_select_Ok in H4.
  apply bind_lift_Ok in Hw as (k & Hk & Hw). apply bind_lift_Ok in Hw as (c & Hc & Hw).
  apply ST_bind_Ok in Hw as (o & s5 & H5 & Hw).
  assert (same s4 s5) as (Hu5 & _).
  { revert H5. match goal with |- ?m s4 = _ -> _ => cut (idle m); [by intros Hm ?%Hm|] end.
    unfold db, get_platform_password_reset_request_by_user_id_and_code. platform_walk. }
  destruct o as [row|]; [|done]. destruct (is_expired later row); [done|]. case_decide; [|done].
  apply bind_lift_Ok in Hw as (e & He & Hw). apply ST_bind_Ok in Hw as ([] & s6 & [k1 Hf]%Db.st_map_err_Ok%platform_write_Ok & [k2 Hm]%Db.st_map_err_Ok%platform_write_Ok).
  injection Hf as Hf. injection Hm as Hm. exists u, e. split_and!; [congruence|done|].
  unfold sets_password. rewrite <- Hm. change (users (tables s6) = update_rows (user_by_id (Organizations.u_id u)) (with_password now e) (users (tables s))).
  rewrite <- Hf, <- Hu2, <- Hu4, <- Hu5. done.
Qed.
Lemma register_Ok now d r s a s' : wf s -> register_platform_user enclave_key signing_key now d r s = (Ok a, s') ->
  validate_register r = true /\ exists u e, newcomer (tables s) u /\ u_email u = g_email r /\ u_uuid u = Accounts.new_uuid d /\
    u_password_enc u = Some e /\ encrypted_password enclave_key d (g_password r) = Ok e /\ users (tables s') = users (tables s) ++ [u].
Proof.
  intros Hwf Hr. pose proof Hr as ([] & s1 & H1 & _)%ST_bind_Ok. unfold bad_request_unless in H1.
  destruct (validate_register r); [|done]. split; [done|].
  apply register_inv in Hr as [[Hno _]|(u & e & code & ? & ? & _ & _ & ? & ? & ? & _ & _ & ? & _)]; [by destruct (Hno a)| |done].
  by exists u, e.
Qed.
Lemma first_snoc q (l : list PlatformUser) u : (forall v, v ∈ l -> q v = false) -> q u = true -> Db.first q (l ++ [u]) = Some u.
Proof.
  intros Hl Hu. unfold Db.first. induction l as [|v l IH]; cbn; [by rewrite decide_True|].
  rewrite decide_False by (by rewrite (Hl v) by left).
  assert (snd <$> list_find (fun x => q x = true) (l ++ [u]) = Some u) as E by (apply IH; intros w Hw; apply Hl; by right).
  by destruct (list_find _ _) as [[]|].
Qed.

Hypothesis email_eq_refl : forall e, email_eq e e = true.
(** The password a developer last set is the password that signs in.  When a
    registration, a change of the password or the confirmation of a reset answers
    success, then from that database the account's address and the new password
    are answered with tokens, and the access token lets its bearer in as that
    account until it expires. *)
Theorem new_password_signs_in now later s s' : wf s -> (forall u, u ∈ users (tables s) -> length (u_uuid u) = 16) ->
  (forall d r a, length (Accounts.password_nonce d) = 12 -> length (Accounts.new_uuid d) = 16 ->
     register_platform_user enclave_key signing_key now d r s = (Ok a, s') ->
     exists u', u_uuid u' = Accounts.new_uuid d /\ lets_in (tables s') (g_email r) (g_password r) u') /\
  (forall u d r n, u ∈ users (tables s) -> length (Accounts.password_nonce d) = 12 ->
     platform_change_password enclave_key now d u r s = (Ok n, s') ->
     exists u', u_uuid u' = u_uuid u /\ lets_in (tables s') (u_email u) (cp_new_password r) u') /\
  (forall d r n, length (Accounts.password_nonce d) = 12 ->
     platform_password_reset_confirm enclave_key now later d r s = (Ok n, s') ->
     exists u', email_eq (u_email u') (rc_email r) = true /\ lets_in (tables s') (rc_email r) (rc_new_password r) u').
Proof.
  intros Hwf Hl. destruct (Hwf) as (Hun & Hids & _). split_and!.
  - intros d r a Hn Hd (Hv & u & e & Hnew & Hm & Hid & Hp & He & Hus)%register_Ok; [|done]. exists u. split; [done|].
    assert (Db.first (user_by_email (g_email r)) (users (tables s')) = Some u) as Hfirst.
    { rewrite Hus. apply first_snoc; unfold user_by_email; [|by rewrite Hm]. intros v Hin. rewrite <- Hm. by apply Hnew. }
    apply knows_lets_in; [|congruence|done|by eapply stored_password].
    rewrite Hus. apply unique_snoc; [done|]. intros v Hin. by apply Hnew.
  - intros u d r n Hu Hn (a & e & Ha & Hid & He & Hset)%platform_change_Ok. exists (with_password now e u). split; [done|].
    pose proof Ha as [_ Hin]%Db.first_Some. assert (a = u) as -> by (by apply (unique_same u_uuid (users (tables s)))).
    eapply set_lets_in; try done. by apply Hl.
  - intros d r n Hn (Hv & u & e & Hu & He & Hset)%reset_Ok. pose proof Hu as [Hm Hin]%Db.first_Some.
    exists (with_password now e u). split; [exact Hm|]. eapply set_lets_in; try done. by apply Hl.
Qed.
End signing_in.
End machine.

(** ** Witnesses *)
Section witnesses.
#[local] Existing Instances ToyCrypto.toy ToyCrypto.toy_laws.
#[local] Existing Instances ToyAccounts.toy_citext ToyAccounts.toy_uuid ToyAccounts.toy_uuid_laws ToyAccounts.toy_accounts ToyAccounts.toy_account_laws.
#[local] Existing Instances Tokens.ToyJwt.toy_jwt Tokens.ToyJwt.toy_jwt_laws Tokens.ToyJwt.toy_url Tokens.ToyJwt.toy_audience.
#[local] Instance demo_validator : OrganizationRoutes.Validator :=
  {| OrganizationRoutes.valid_email _ := true; OrganizationRoutes.valid_url _ := true; OrganizationRoutes.url_parses _ := true |}.
Definition demo_key : bytes := Credentials.key.
Definition demo_signing : Encrypt.SecretKey := Tokens.demo_signing_key.
Definition demo_draws : Draws := Accounts.MkDraws [Byte.x01] (replicate 12 Byte.x02) [] [] (replicate 16 Byte.x0a) (replicate 8 Byte.x01)
  (replicate 16 Byte.x0b).
Definition demo_invite : Uuid := replicate 16 Byte.x0c.
Definition demo_tables : Tables := MkTables (Organizations.MkTables [] [] [] [] [] [] []) [] [] [MkCode 1 demo_invite].
Definition demo_start : State := MkStore demo_tables 2 [].
Definition demo_register : Request :=
  Public (Register demo_draws (MkRegister "dev@example.com" "password-1" None (uuid_to_string demo_invite))).
Definition demo_ask : Request :=
  Public (ResetRequest demo_draws (MkResetRequest "dev@example.com" (Accounts.generate_reset_hash "secret"))).
Definition demo_confirm : Request :=
  Public (ResetConfirm demo_draws (MkResetConfirm "dev@example.com" "BBBBBBBB" "secret" "password-2")).
Definition T0 : Z := Tokens.demo_now.
Definition demo_history : list Entry := [((T0, T0), demo_register); ((T0, T0), demo_ask)].
Definition demo_state : State := after demo_key demo_signing demo_history demo_start.
Definition demo_reset : outcome Api.ApiError Answer * State := serve demo_key demo_signing (T0 + 1) (T0 + 1) demo_confirm demo_state.
Definition nobody : PlatformUser := Organizations.MkPlatformUser 0 [] "" None None 0 0.
Definition demo_before : PlatformUser := default nobody (head (users (tables demo_state))).
Definition demo_after : PlatformUser := default nobody (head (users (tables demo_reset.2))).
Lemma demo_start_wf : wf demo_start.
Proof. split_and!; [by apply NoDup_nil_2|by apply NoDup_nil_2|]. intros u Hu. by apply elem_of_nil in Hu. Qed.

Example demo_run : demo_reset.1 = Ok (ANote (Message "Password reset successful. You can now log in with your new password.")).
Proof. vm_compute. reflexivity. Qed.

Lemma developer_passwords_are_safe_witness :
  u_password_enc demo_after <> u_password_enc demo_before /\
  ((exists header d r, demo_confirm = Developer header (ChangePassword d r) /\
      token_of demo_signing (T0 + 1) header (tables demo_state) demo_before /\ knows demo_key demo_before (cp_current_password r)) \/
   (exists d r asked_at t d0 p, demo_confirm = Public (ResetConfirm d r) /\
      ((asked_at, t), Public (ResetRequest d0 p)) ∈ demo_history /\
      email_eq (u_email demo_before) (rr_email p) = true /\ (T0 + 1 < asked_at + hours 24)%Z /\
      rc_alphanumeric_code r = Accounts.generate_alphanumeric_code (Accounts.code_bytes d0) /\
      Accounts.generate_reset_hash (rc_plaintext_secret r) = rr_hashed_secret p)).
Proof.
  assert (u_password_enc demo_after <> u_password_enc demo_before) as Hne by (vm_compute; discriminate). split; [exact Hne|].
  apply (developer_passwords_are_safe demo_key demo_signing demo_history demo_start (T0 + 1) (T0 + 1) demo_confirm demo_reset.1 demo_reset.2
    demo_before demo_after demo_start_wf).
  - reflexivity.
  - apply surjective_pairing.
  - assert (demo_before ∈ take 1 (users (tables demo_state))) as Hin; [|by apply (elem_of_take demo_before 1) in Hin as (i & Hi%list_elem_of_lookup_2 & _)].
    replace (take 1 (users (tables demo_state))) with [demo_before] by (vm_compute; reflexivity). by left.
  - replace (users (tables demo_reset.2)) with [demo_after] by (vm_compute; reflexivity). by left.
  - vm_compute. reflexivity.
  - exact Hne.
Defined.

Definition demo_payload : PlatformPasswordResetConfirmPayload := MkResetConfirm "dev@example.com" "BBBBBBBB" "secret" "password-2".
Definition demo_confirmed : outcome Api.ApiError Note * State :=
  platform_password_reset_confirm demo_key (T0 + 1) (T0 + 1) demo_draws demo_payload demo_state.
Lemma demo_state_wf : wf demo_state.
Proof. apply (history_accounted demo_key demo_signing demo_history demo_start); [apply demo_start_wf|reflexivity]. Qed.
Lemma new_password_signs_in_witness : exists u', email_eq (u_email u') "dev@example.com" = true /\
  lets_in demo_key demo_signing (tables demo_confirmed.2) "dev@example.com" "password-2" u'.
Proof.
  assert (forall u, u ∈ users (tables demo_state) -> length (u_uuid u) = 16) as Hl.
  { replace (users (tables demo_state)) with [demo_before] by (vm_compute; reflexivity).
    intros u ->%list_elem_of_singleton. vm_compute. reflexivity. }
  apply (proj2 (proj2 (new_password_signs_in demo_key demo_signing String.eqb_refl (T0 + 1) (T0 + 1) demo_state demo_confirmed.2 demo_state_wf Hl))
    demo_draws demo_payload (Message "Password reset successful. You can now log in with your new password.")); [reflexivity|].
  vm_compute. reflexivity.
Defined.

(** The old password is refused from then on. *)
Example demo_old_password :
  (login_platform_user demo_key demo_signing (T0 + 2) (MkLogin "dev@example.com" "password-1") demo_confirmed.2).1 =
  Err Api.InvalidUsernameOrPassword.
Proof. vm_compute. reflexivity. Qed.

(** The password and the mark are two statements: when the second fails the answer
    is an error, and yet the password is changed and the code works again. *)
Definition demo_interrupted : outcome Api.ApiError Note * State :=
  platform_password_reset_confirm demo_key (T0 + 1) (T0 + 1) demo_draws demo_payload
    (MkStore (tables demo_state) (serial demo_state) [false; false; false; false; false; false; false; false; true; true]).
Definition demo_third : PlatformPasswordResetConfirmPayload := MkResetConfirm "dev@example.com" "BBBBBBBB" "secret" "password-3".
Lemma failed_reset_changes_the_password :
  demo_interrupted.1 = Err Api.InternalServerError /\
  is_ok (login_platform_user demo_key demo_signing (T0 + 2) (MkLogin "dev@example.com" "password-2") (MkStore (tables demo_interrupted.2) 20 [])).1 = true /\
  is_ok (platform_password_reset_confirm demo_key (T0 + 2) (T0 + 2) demo_draws demo_third (MkStore (tables demo_interrupted.2) 20 [])).1 = true.
Proof. vm_compute. split_and!; reflexivity. Qed.

(** A reset leaves the account's other open requests as they are. *)
Definition demo_other_draws : Draws := Accounts.MkDraws [Byte.x01] (replicate 12 Byte.x02) [] [] [] (replicate 8 Byte.x02) [].
Definition demo_ask_again : Request :=
  Public (ResetRequest demo_other_draws (MkResetRequest "dev@example.com" (Accounts.generate_reset_hash "other"))).
Lemma other_resets_stay_open :
  let s := (serve demo_key demo_signing (T0 + 1) (T0 + 1) demo_confirm
    (serve demo_key demo_signing T0 T0 demo_ask_again demo_state).2).2 in
  is_ok (platform_password_reset_confirm demo_key (T0 + 2) (T0 + 2) demo_draws
    (MkResetConfirm "dev@example.com" "CCCCCCCC" "other" "password-3") s).1 = true.
Proof. vm_compute. reflexivity. Qed.
End witnesses.
End PlatformAccounts.
