(* ===== verification/OAuthRoutes.v ===== *)
(** * The OAuth routes

    The handlers of [src/src/web/oauth_routes.rs] up to the encryption of their
    answers, over the accounts, the settings of the projects, the pending states of
    the providers and the cache of Apple's keys.  The answers of GitHub, Google and
    Apple are inputs of a request ([Upstream]). *)

From stdpp Require Import pretty.
From S2P Require Import Prelude Text Chars Crypto Api Encrypt Claims Database Accounts Credentials Tokens Statements Organizations OrganizationRoutes OrganizationSteps OAuth AppleSignin OAuthUsers.

Module OAuthRoutes.
Import OAuth OAuthUsers.
Import Chars(ends_with, replace).
Abbreviation Uuid := Encrypt.Uuid.

Definition PROJECT_GOOGLE_OAUTH_SECRET : string := "GOOGLE_OAUTH_SECRET".
Definition PROJECT_GITHUB_OAUTH_SECRET : string := "GITHUB_OAUTH_SECRET".
Definition PROJECT_APPLE_OAUTH_SECRET : string := "APPLE_OAUTH_SECRET".

(** ** Requests, answers, and what the providers say *)
Record OAuthAuthRequest := MkAuthRequest { ar_client_id : Uuid }.
Record OAuthOAuthCallbackResponse := MkAuthResponse { or_auth_url : string; or_state : string }.
Record OAuthCallbackRequest := MkCallback { cb_code : string; cb_state : string }.
Record AppleNativeSignInRequest := MkNative {
  an_identity_token : string; an_user_identifier : option string; an_email : option string; an_given_name : option string;
  an_family_name : option string; an_client_id : Uuid; an_nonce : option string }.
Record GithubUser := MkGithubUser { gu_id : Z; gu_login : string; gu_name : option string; gu_email : option string }.
Record GithubEmail := MkGithubEmail { ge_email : string; ge_primary : bool; ge_verified : bool }.
Record GoogleUser := MkGoogleUser { ou_sub : string; ou_email : string; ou_email_verified : bool; ou_name : option string }.
Record AppleUser := MkAppleUser { au_sub : string; au_email : option string; au_email_verified : option bool; au_name : option string }.
Record AppleTokenResponse := MkAppleToken { at_access_token : string; at_expires_in : Z; at_refresh_token : option string; at_id_token : string }.
(** [StandardTokenResponse], what is read of it. *)
Record StandardToken := MkToken { access_token : string; refresh_token : option string }.
Definition to_standard_token (t : AppleTokenResponse) : StandardToken := MkToken (at_access_token t) (at_refresh_token t).

(** The answers one request meets; a body is what was read and parsed of it. *)
Record Upstream := MkUpstream {
  exchange_code : BasicClient -> string -> option StandardToken;
  apple_exchange : list (string * string) -> Apple.Answer AppleTokenResponse;
  github_user : string -> string -> Apple.Answer GithubUser;              (* url, token *)
  github_emails : string -> Apple.Answer (list GithubEmail);
  google_user : string -> string -> Apple.Answer GoogleUser;
  apple_keys : Z * Apple.Answer (list Apple.AppleKey) }.

(** ** Strings *)
Definition with_services (client : string) : string := if ends_with ".services" client then client else client +:+ ".services".
(** [i64::to_string]. *)
Definition to_decimal (z : Z) : string := pretty z.

(** ** The shared state *)
Record World := MkWorld {
  accounts : Db.State; platform : Organizations.State; manager : OAuthManager; jwks : Apple.AppleJwksCache }.
Definition on_accounts {E A} (m : ST Db.State E A) : ST World E A := fun w =>
  let '(r, s) := m (accounts w) in (r, MkWorld s (platform w) (manager w) (jwks w)).
Definition on_platform {E A} (m : ST Organizations.State E A) : ST World E A := fun w =>
  let '(r, s) := m (platform w) in (r, MkWorld (accounts w) s (manager w) (jwks w)).
Definition on_manager {E A} (m : ST OAuthManager E A) : ST World E A := fun w =>
  let '(r, s) := m (manager w) in (r, MkWorld (accounts w) (platform w) s (jwks w)).
Definition on_jwks {E A} (m : ST Apple.AppleJwksCache E A) : ST World E A := fun w =>
  let '(r, s) := m (jwks w) in (r, MkWorld (accounts w) (platform w) (manager w) s).
Abbreviation Route A := (ST World Api.ApiError A).

(** The times of one request. *)
Record Clock := MkClock { instant : Z; utc : Z }.

(** The serde encoding of a state, and the rest of its way through the URL. *)
Class StateJson := { state_to_json : OAuthState -> option string; state_from_json : bytes -> option OAuthState }.

Section routes.
Context {cr : Crypto} {ci : Citext} {ut : UuidText} {ad : AccountDeps} {ub : UrlBase64} {au : Claims.AudienceText} {jw : Tokens.Jwt}.
Context {sj : Organizations.SettingsJson} {oa : OAuth2} {aj : Apple.AppleJwt} {st : StateJson}.
Context (enclave_key : bytes) (signing_key : Encrypt.SecretKey).

Definition org_error {A} (m : ST Organizations.State Organizations.DBError A) : Route A :=
  on_platform (Db.st_map_err OrganizationRoutes.api_error m).
Definition found {A} (e : Api.ApiError) (o : option A) : Route A := st_lift (ok_or e o).
Definition the_provider (name : string) : Route OAuthProvider := fun w =>
  (ok_or Api.InternalServerError (get_provider name (manager w)), w).

Definition decrypt_secret (s : Organizations.OrgProjectSecret) : outcome Api.ApiError string :=
  secret_key ← ok_or Api.InternalServerError (secret_from_slice enclave_key);
  b ← map_err (fun _ => Api.InternalServerError) (Encrypt.decrypt_with_key secret_key (Organizations.s_secret_enc s));
  ok_or Api.InternalServerError (from_utf8 b).
(** From the stored base64 of a PEM to the client secret of the web flow. *)
Definition apple_client_secret (utc : Z) (settings : Organizations.AppleOAuthSettings) (client_secret : string)
    : outcome Api.ApiError string :=
  private_key_pem ← ok_or Api.InternalServerError (base64_decode client_secret);
  private_key_pem_str ← ok_or Api.InternalServerError (from_utf8 private_key_pem);
  let client_id_with_services := with_services (Organizations.a_client_id settings) in
  team_id ← ok_or Api.BadRequest (Organizations.team_id settings);
  key_id ← ok_or Api.BadRequest (Organizations.key_id settings);
  ok_or Api.InternalServerError
    (Apple.generate_apple_client_secret (utc / 10 ^ 9) team_id key_id private_key_pem_str client_id_with_services).

Definition get_project_oauth_client (utc : Z) (project_id : Z) (provider_name : string) : Route BasicClient :=
  settings ← org_error (Organizations.get_project_oauth_settings project_id);
  settings ← found Api.BadRequest settings;
  '(enabled, provider_settings, secret) ←
    (if decide (provider_name = "github") then
       secret ← org_error (Organizations.get_org_project_secret_by_key_name_and_project PROJECT_GITHUB_OAUTH_SECRET project_id);
       st_ok (Organizations.github_oauth_enabled settings, Organizations.github_oauth_settings settings, secret)
     else if decide (provider_name = "google") then
       secret ← org_error (Organizations.get_org_project_secret_by_key_name_and_project PROJECT_GOOGLE_OAUTH_SECRET project_id);
       st_ok (Organizations.google_oauth_enabled settings, Organizations.google_oauth_settings settings, secret)
     else if decide (provider_name = "apple") then
       secret ← org_error (Organizations.get_org_project_secret_by_key_name_and_project PROJECT_APPLE_OAUTH_SECRET project_id);
       st_ok (Organizations.apple_oauth_enabled settings,
              (fun a => Organizations.MkProvider (with_services (Organizations.a_client_id a)) (Organizations.a_redirect_url a))
                <$> Organizations.apple_oauth_settings settings, secret)
     else st_err Api.BadRequest);
  if negb enabled then st_err Api.BadRequest
  else
    provider_settings ← found Api.BadRequest provider_settings;
    secret ← found Api.BadRequest secret;
    client_secret ← st_lift (decrypt_secret secret);
    oauth_provider ← the_provider provider_name;
    if decide (provider_name = "apple") then
      apple_settings ← found Api.BadRequest (Organizations.apple_oauth_settings settings);
      client_secret_jwt ← st_lift (apple_client_secret utc apple_settings client_secret);
      found Api.InternalServerError (build_client oauth_provider (with_services (Organizations.a_client_id apple_settings))
        client_secret_jwt (Organizations.a_redirect_url apple_settings))
    else
      found Api.InternalServerError (build_client oauth_provider (Organizations.client_id provider_settings) client_secret
        (Organizations.redirect_url provider_settings)).

(** The store of a provider, which all requests share. *)
Definition store_state (name : string) (p : OAuthProvider) (csrf : string) (s : OAuthState) (now : Z) : Route unit :=
  on_manager (Db.st_map_err (fun _ => Api.TooManyRequests) (on_states name p (store_at csrf s now))).
Definition consume_state (name : string) (p : OAuthProvider) (s : OAuthState) (now : Z) : Route bool :=
  on_manager (Db.st_map_err (fun e : Empty_set => match e with end) (on_states name p (consume_at s now))).

(** [csrf]: the random token the [oauth2] crate draws. *)
Definition initiate_oauth (clock : Clock) (csrf : string) (r : OAuthAuthRequest) (provider_name : string)
    : Route OAuthOAuthCallbackResponse :=
  project ← on_platform (Db.st_map_err (fun _ => Api.BadRequest) (Organizations.get_org_project_by_client_id (ar_client_id r)));
  oauth_client ← get_project_oauth_client (utc clock) (Organizations.p_id project) provider_name;
  oauth_provider ← the_provider provider_name;
  let initial_url := generate_authorize_url oauth_provider csrf oauth_client in
  let state := MkState csrf (Organizations.p_client_id project) in
  _ ← store_state provider_name oauth_provider csrf state (instant clock);
  state_json ← found Api.InternalServerError (state_to_json state);
  let state_base64 := url_encode (as_bytes state_json) in
  st_ok (MkAuthResponse (replace csrf state_base64 initial_url) state_base64).

(** ** The profile of the subject *)
Definition successful {A} (a : Apple.Answer A) : outcome Api.ApiError A :=
  match a with Apple.Status true (Some b) => Ok b | _ => Err Api.InternalServerError end.
Definition fetch_github_user (up : Upstream) (token : string) (p : GithubProvider) : outcome Api.ApiError GithubUser :=
  user ← successful (github_user up (gh_user_info_url p) token);
  mail ← match gu_email user with
         | Some m => Ok (Some m)
         | None =>
             emails ← successful (github_emails up token);
             Ok (ge_email <$> Db.first (fun e => ge_primary e && ge_verified e) emails)
         end;
  match mail with
  | Some m => Ok (MkGithubUser (gu_id user) (gu_login user) (gu_name user) (Some m))
  | None => Err Api.NoEmailFound
  end.
Definition fetch_google_user (up : Upstream) (token : string) (p : GoogleProvider) : outcome Api.ApiError GoogleUser :=
  user ← successful (google_user up (go_user_info_url p) token);
  if is_empty (ou_email user) || negb (ou_email_verified user) then Err Api.BadRequest else Ok user.
Definition fetch_apple_user (utc : Z) (up : Upstream) (id_token client_id : string) : Route AppleUser :=
  claims ← on_jwks (Apple.validate_apple_native_token utc (apple_keys up) id_token client_id None);
  let user := MkAppleUser (Apple.sub claims) (Apple.email claims) (Apple.email_verified claims) None in
  match au_email user with
  | Some m => if negb (is_empty m) && default false (au_email_verified user) then st_ok user else st_err Api.NoEmailFound
  | None => st_err Api.NoEmailFound
  end.

(** ** The callback *)
Definition exchange_apple (utc : Z) (up : Upstream) (project_id : Z) (oauth_client : BasicClient) (code : string)
    : Route (StandardToken * option string) :=
  settings ← org_error (Organizations.get_project_oauth_settings project_id);
  settings ← found Api.BadRequest settings;
  apple_settings ← found Api.BadRequest (Organizations.apple_oauth_settings settings);
  secret ← org_error (Organizations.get_org_project_secret_by_key_name_and_project PROJECT_APPLE_OAUTH_SECRET project_id);
  secret ← found Api.BadRequest secret;
  client_secret_raw ← st_lift (decrypt_secret secret);
  client_secret ← st_lift (apple_client_secret utc apple_settings client_secret_raw);
  let client_id_param :=
    if ends_with ".services" (Organizations.a_client_id apple_settings) then bc_client_id oauth_client
    else with_services (Organizations.a_client_id apple_settings) in
  apple_token ← st_lift (successful (apple_exchange up
    [("client_id", client_id_param); ("client_secret", client_secret); ("code", code);
     ("grant_type", "authorization_code"); ("redirect_uri", bc_redirect_url oauth_client)]));
  st_ok (to_standard_token apple_token, Some (at_id_token apple_token)).

Definition exchange (utc : Z) (up : Upstream) (project_id : Z) (provider_name : string) (oauth_client : BasicClient) (code : string)
    : Route (StandardToken * option string) :=
  if decide (provider_name = "apple") then exchange_apple utc up project_id oauth_client code
  else token ← found Api.InternalServerError (exchange_code up oauth_client code); st_ok (token, None).
(** Fetch user information and find or create the user. *)
Definition authenticate (clock : Clock) (d : OAuthDraws) (up : Upstream) (oauth_provider : OAuthProvider) (provider_name : string)
    (project_id : Z) (token : StandardToken) (apple_id_token : option string) : Route AuthenticatedOAuthUser :=
  let sign_in mail subject stored_token name :=
    on_accounts (find_or_create_user_from_oauth enclave_key (utc clock) d mail subject provider_name stored_token name project_id) in
  if decide (provider_name = "github") then
    p ← found Api.InternalServerError (as_github oauth_provider);
    u ← st_lift (fetch_github_user up (access_token token) p);
    sign_in (gu_email u) (to_decimal (gu_id u)) (access_token token)
      (match gu_name u with Some n => Some n | None => Some (gu_login u) end)
  else if decide (provider_name = "google") then
    p ← found Api.InternalServerError (as_google oauth_provider);
    u ← st_lift (fetch_google_user up (access_token token) p);
    sign_in (Some (ou_email u)) (ou_sub u) (access_token token) (ou_name u)
  else if decide (provider_name = "apple") then
    _ ← found Api.InternalServerError (as_apple oauth_provider);
    settings ← org_error (Organizations.get_project_oauth_settings project_id);
    settings ← found Api.BadRequest settings;
    apple_settings ← found Api.BadRequest (Organizations.apple_oauth_settings settings);
    let client_id := with_services (Organizations.a_client_id apple_settings) in
    id_token ← found Api.InternalServerError apple_id_token;
    u ← fetch_apple_user (utc clock) up id_token client_id;
    sign_in (au_email u) (au_sub u) (default "" (refresh_token token)) (au_name u)
  else st_err Api.InternalServerError.

Definition oauth_callback (clock : Clock) (d : OAuthDraws) (up : Upstream) (r : OAuthCallbackRequest) (provider_name : string)
    : Route OAuthCallbackResponse :=
  state_json ← found Api.BadRequest (url_decode (cb_state r));
  state ← found Api.BadRequest (state_from_json state_json);
  oauth_provider ← the_provider provider_name;
  is_valid ← consume_state provider_name oauth_provider state (instant clock);
  if negb is_valid then st_err Api.BadRequest
  else
    project ← on_platform (Db.st_map_err (fun _ => Api.BadRequest) (Organizations.get_org_project_by_client_id (client_id state)));
    oauth_client ← get_project_oauth_client (utc clock) (Organizations.p_id project) provider_name;
    '(token, apple_id_token) ← exchange (utc clock) up (Organizations.p_id project) provider_name oauth_client (cb_code r);
    authenticated_user ← authenticate clock d up oauth_provider provider_name (Organizations.p_id project) token apple_id_token;
    st_lift (oauth_callback_response signing_key (utc clock) authenticated_user).

(** ** Apple's native flow *)
Definition trimmed_name (s : string) : option string := if is_empty (trim s) then None else Some (trim s).
Definition native_name (given family : option string) : option string :=
  match given, family with
  | Some given, Some family => trimmed_name (trim given +:+ " " +:+ trim family)
  | Some given, None => trimmed_name given
  | None, Some family => trimmed_name family
  | None, None => None
  end.

Definition handle_apple_native_signin (clock : Clock) (d : OAuthDraws) (up : Upstream) (r : AppleNativeSignInRequest)
    : Route OAuthCallbackResponse :=
  project ← on_platform (Db.st_map_err (fun _ => Api.BadRequest) (Organizations.get_org_project_by_client_id (an_client_id r)));
  let project_id := Organizations.p_id project in
  settings ← org_error (Organizations.get_project_oauth_settings project_id);
  settings ← found Api.BadRequest settings;
  if negb (Organizations.apple_oauth_enabled settings) then st_err Api.BadRequest
  else
    apple_settings ← found Api.BadRequest (Organizations.apple_oauth_settings settings);
    claims ← on_jwks (Apple.validate_apple_native_token (utc clock) (apple_keys up) (an_identity_token r)
                        (Organizations.a_client_id apple_settings) (an_nonce r));
    if match an_user_identifier r with Some id => bool_decide (id <> Apple.sub claims) | None => false end
    then st_err Api.BadRequest
    else
      let verified_user_id := Apple.sub claims in
      apple_provider ← on_accounts (internal (Db.get_oauth_provider_by_name "apple"));
      apple_provider ← found Api.InternalServerError apple_provider;
      connection ← on_accounts (internal
        (Db.get_project_user_oauth_connection_by_provider_subject (Db.op_id apple_provider) verified_user_id project_id));
      match connection with
      | Some row =>
          u ← on_accounts (Db.st_map_err db_api_error (Db.get_user_by_uuid (Db.o_user_id row)));
          if decide (Db.project_id u <> project_id) then st_err Api.Unauthorized
          else
            _ ← on_accounts (update_provider_connection enclave_key (utc clock) (token_nonce d) row "");
            authenticated_user ← on_accounts (authenticated_oauth_user enclave_key u "apple" verified_user_id);
            st_lift (oauth_callback_response signing_key (utc clock) authenticated_user)
      | None =>
          mail ← found Api.NoEmailFound
            (m ← match Apple.email claims with Some m => Some m | None => an_email r end;
             if negb (is_empty m) then Some m else None);
          authenticated_user ← on_accounts (find_or_create_user_from_oauth enclave_key (utc clock) d (Some mail) verified_user_id
            "apple" "" (native_name (an_given_name r) (an_family_name r)) project_id);
          st_lift (oauth_callback_response signing_key (utc clock) authenticated_user)
      end.

(** ** Lemmas: what of the shared state a call keeps *)
Section keeps.
Context {X : Type} (view : World -> X).
Definition keeps {E A} (m : ST World E A) : Prop := forall w r w', m w = (r, w') -> view w' = view w.
Lemma keeps_bind {E A B} (m : ST World E A) (f : A -> ST World E B) :
  keeps m -> (forall a, keeps (f a)) -> keeps (x ← m; f x).
Proof.
  intros Hm Hf w r w' (r0 & w1 & H1%Hm & H2)%bind_cases. rewrite <- H1. destruct r0; [by eapply Hf|by destruct H2 as [_ ->]..].
Qed.
Lemma keeps_lift {E A} (m : outcome E A) : keeps (@st_lift World E A m).
Proof. by intros w r w' [= _ <-]. Qed.
Lemma keeps_ok {E A} (a : A) : keeps (@st_ok World E A a).
Proof. apply keeps_lift. Qed.
Lemma keeps_err {E A} (e : E) : keeps (@st_err World E A e).
Proof. apply keeps_lift. Qed.
Lemma keeps_found {A} e (o : option A) : keeps (found e o).
Proof. apply keeps_lift. Qed.
Lemma keeps_provider name : keeps (the_provider name).
Proof. by intros w r w' [= _ <-]. Qed.
Lemma keeps_accounts {E A} (m : ST Db.State E A) :
  (forall w s, view (MkWorld s (platform w) (manager w) (jwks w)) = view w) -> keeps (on_accounts m).
Proof. intros Hv w r w'. unfold on_accounts. destruct (m (accounts w)). by intros [= _ <-]. Qed.
Lemma keeps_platform {E A} (m : ST Organizations.State E A) : OrganizationSteps.observes m ->
  (forall w s, Sql.tables s = Sql.tables (platform w) -> view (MkWorld (accounts w) s (manager w) (jwks w)) = view w) ->
  keeps (on_platform m).
Proof.
  intros [Hm _] Hv w r w'. unfold on_platform. destruct (m (platform w)) as [r0 s] eqn:Hs. intros [= _ <-]. by eapply Hv, Hm.
Qed.
Lemma keeps_jwks {E A} (m : ST Apple.AppleJwksCache E A) :
  (forall w s, view (MkWorld (accounts w) (platform w) (manager w) s) = view w) -> keeps (on_jwks m).
Proof. intros Hv w r w'. unfold on_jwks. destruct (m (jwks w)). by intros [= _ <-]. Qed.
End keeps.

(** What the routes read of the platform. *)
Lemma observes_oauth_settings project : OrganizationSteps.observes (Organizations.get_project_oauth_settings project).
Proof.
  apply OrganizationSteps.observes_bind; [apply OrganizationSteps.observes_select|]. intros [g|]; [|apply OrganizationSteps.observes_ok].
  apply OrganizationSteps.observes_bind; [apply OrganizationSteps.observes_lift|]. intros ?. apply OrganizationSteps.observes_ok.
Qed.
Lemma observes_secret key project :
  OrganizationSteps.observes (Organizations.get_org_project_secret_by_key_name_and_project key project).
Proof. apply OrganizationSteps.observes_select. Qed.
Lemma observes_project id : OrganizationSteps.observes (Organizations.get_org_project_by_client_id id).
Proof. apply OrganizationSteps.observes_lookup. Qed.

(** Follow the program. *)
Ltac keep_view :=
  repeat first
    [ apply keeps_ok | apply keeps_err | apply keeps_found | apply keeps_lift | apply keeps_provider
    | apply keeps_accounts; by intros | apply keeps_jwks; by intros
    | apply keeps_platform;
        [apply OrganizationSteps.observes_map_err; first [apply observes_oauth_settings|apply observes_secret|apply observes_project]
        |intros ? ?; cbn; by first [intros ->|intros _]]
    | apply keeps_bind; [|intros ?]
    | match goal with
      | |- keeps _ (match ?x with _ => _ end) => destruct x
      | |- keeps _ (let '(_, _) := ?x in _) => destruct x
      end ].

(** Finding the client and exchanging the code only read the settings. *)
Definition seen (w : World) := (accounts w, jwks w, Sql.tables (platform w)).
Definition tables_kept (w : World) := (manager w, seen w).
Lemma client_keeps utc project name : keeps tables_kept (get_project_oauth_client utc project name).
Proof. unfold get_project_oauth_client, tables_kept, seen. keep_view. Qed.
Lemma exchange_keeps utc up project name c code : keeps tables_kept (exchange utc up project name c code).
Proof. unfold exchange, exchange_apple, tables_kept, seen. keep_view. Qed.
Lemma keeps_weaken {E A} (m : ST World E A) : keeps tables_kept m -> keeps manager m.
Proof. intros Hm w r w' Hr. apply Hm in Hr. by injection Hr. Qed.
Lemma authenticate_keeps clock d up p name project t idt : keeps manager (authenticate clock d up p name project t idt).
Proof. unfold authenticate, fetch_apple_user. cbv zeta. keep_view. Qed.
Lemma native_keeps clock d up r : keeps manager (handle_apple_native_signin clock d up r).
Proof. unfold handle_apple_native_signin. cbv zeta. keep_view. Qed.

(** ** A state works once *)
(** The store of [name] holds [σ] under its token. *)
Definition pending (name : string) (σ : OAuthState) (w : World) : Prop :=
  exists p x, get_provider name (manager w) = Some p /\ entries (states p) !! csrf_token σ = Some x /\ state x = σ.

Inductive OAuthRequest :=
  | Initiate (clock : Clock) (csrf : string) (r : OAuthAuthRequest) (provider : string)
  | Callback (clock : Clock) (d : OAuthDraws) (up : Upstream) (r : OAuthCallbackRequest) (provider : string)
  | Native (clock : Clock) (d : OAuthDraws) (up : Upstream) (r : AppleNativeSignInRequest).
Definition serve (q : OAuthRequest) (w : World) : World :=
  match q with
  | Initiate clock csrf r provider => (initiate_oauth clock csrf r provider w).2
  | Callback clock d up r provider => (oauth_callback clock d up r provider w).2
  | Native clock d up r => (handle_apple_native_signin clock d up r w).2
  end.
Definition serve_all (qs : list OAuthRequest) (w : World) : World := foldl (fun w q => serve q w) w qs.
(** The request does not draw the token [csrf] for [provider]. *)
Definition draws_other (provider csrf : string) (q : OAuthRequest) : Prop :=
  match q with Initiate _ csrf' _ provider' => csrf' <> csrf \/ provider' <> provider | _ => True end.

Lemma states_set p s : states (set_states s p) = s.
Proof. by destruct p. Qed.
(** A call on one store changes that store, and no pending state of another provider. *)
Lemma on_states_pending {E A} name p (call : ST OAuthStateStore E A) w m r σ other :
  get_provider name (manager w) = Some p ->
  on_states name p call (manager w) = (r, m) ->
  (forall x, name = other -> entries (call (states p)).2 !! csrf_token σ = Some x -> state x = σ ->
     entries (states p) !! csrf_token σ = Some x) ->
  forall w', manager w' = m -> pending other σ w' -> pending other σ w.
Proof.
  unfold on_states, get_provider, OAuthManager. intros Hp. rewrite Hp. cbn. destruct (call (states p)) as [r1 s1] eqn:Hc. intros [= <- <-] Hk w' Hw (p' & x & Hp' & Hx & Hs).
  unfold get_provider, OAuthManager in Hp'. rewrite Hw in Hp'. destruct (decide (name = other)) as [->|Hne].
  - rewrite lookup_insert_eq in Hp'. injection Hp' as <-. rewrite states_set in Hx. exists p, x. split_and!; try done. by apply Hk.
  - rewrite lookup_insert_ne in Hp' by done. by exists p', x.
Qed.
Lemma lookup_with m s k : entries (with_entries m s) !! k = m !! k.
Proof. done. Qed.
Lemma store_pending csrf v now s σ x : csrf <> csrf_token σ ->
  entries (store_at csrf v now s).2 !! csrf_token σ = Some x -> entries s !! csrf_token σ = Some x.
Proof.
  intros Hne. unfold store_at, instant_checked_add. cbv zeta. destruct (_ && _); [by intros [? _]%lookup_retain|].
  case_decide; cbn; [rewrite lookup_insert_ne by done|]; by intros [? _]%lookup_retain.
Qed.
Lemma consume_pending v now s k x :
  entries (consume_at v now s).2 !! k = Some x -> entries s !! k = Some x /\ (k = csrf_token v -> state x <> v).
Proof.
  unfold consume_at. cbv zeta. destruct (retain_live now (entries s) !! csrf_token v) as [y|] eqn:Hy; [case_decide as He|]; cbn.
  - intros [Hne [Hx _]%lookup_retain]%lookup_delete_Some. split; [done|]. congruence.
  - intros Hx. split; [by apply lookup_retain in Hx as [? _]|]. congruence.
  - intros Hx. split; [by apply lookup_retain in Hx as [? _]|]. congruence.
Qed.
Lemma provider_is name w r w' : the_provider name w = (r, w') ->
  w' = w /\ ((exists p, r = Ok p /\ get_provider name (manager w) = Some p) \/ r = Err Api.InternalServerError /\ get_provider name (manager w) = None).
Proof. unfold the_provider. intros [= <- <-]. split; [done|]. destruct (get_provider _ _); cbn; eauto. Qed.
Lemma pending_manager name σ w w' : manager w' = manager w -> pending name σ w' -> pending name σ w.
Proof. unfold pending. by intros ->. Qed.

Definition brings (r : OAuthCallbackRequest) (σ : OAuthState) : Prop :=
  exists j, url_decode (cb_state r) = Some j /\ state_from_json j = Some σ.

Lemma consume_state_pending name p σ now w r w' :
  get_provider name (manager w) = Some p -> consume_state name p σ now w = (r, w') ->
  ~ pending name σ w' /\ (forall other τ, pending other τ w' -> pending other τ w) /\ accounts w' = accounts w /\
  platform w' = platform w /\ jwks w' = jwks w /\ exists b, r = Ok b /\
  (b = true -> exists x, entries (states p) !! csrf_token σ = Some x /\ state x = σ /\ (now < expires_at x)%Z).
Proof.
  unfold consume_state, on_manager, Db.st_map_err. intros Hp.
  destruct (on_states name p (consume_at σ now) (manager w)) as [r1 m] eqn:Hc. intros [= <- <-].
  assert (forall other τ, pending other τ (MkWorld (accounts w) (platform w) m (jwks w)) -> pending other τ w) as Hstay.
  { intros other τ Hpend. refine (on_states_pending name p _ w m r1 τ other Hp Hc _ _ _ Hpend); [|done]. by intros x _ [? _]%consume_pending _. }
  split_and!; try done.
  - intros (p' & x & Hp' & Hx & Hs). unfold on_states in Hc. unfold get_provider, OAuthManager in *. rewrite Hp in Hc. cbn in Hc.
    destruct (consume_at σ now (states p)) as [r2 s2] eqn:H2. injection Hc as <- <-. cbn in Hp'. rewrite lookup_insert_eq in Hp'.
    injection Hp' as <-. rewrite states_set in Hx. assert (s2 = (consume_at σ now (states p)).2) as -> by by rewrite H2.
    apply consume_pending in Hx as [_ Hx]. by apply Hx.
  - unfold on_states in Hc. unfold get_provider, OAuthManager in *. rewrite Hp in Hc. cbn in Hc.
    destruct (consume_at σ now (states p)) as [r2 s2] eqn:H2. injection Hc as <- _. unfold consume_at in H2. cbv zeta in H2.
    destruct (retain_live now (entries (states p)) !! csrf_token σ) as [x|] eqn:Hx; [case_decide as He|]; injection H2 as <- _;
      eexists; (split; [reflexivity|]); [|done..]. intros _. apply lookup_retain in Hx as [Hx Hlive]. by exists x.
Qed.

Lemma callback_state clock d up r name σ w res w1 :
  brings r σ -> oauth_callback clock d up r name w = (res, w1) ->
  ~ pending name σ w1 /\ (forall other τ, pending other τ w1 -> pending other τ w) /\
  (~ pending name σ w -> (exists e, res = Err e) /\ accounts w1 = accounts w /\ platform w1 = platform w).
Proof.
  intros (j & Hj & Hσ). unfold oauth_callback, found. rewrite Hj.
  intros (r1 & w2 & [= <- <-] & Hr)%bind_cases. cbn [ok_or] in Hr. rewrite Hσ in Hr.
  apply bind_cases in Hr as (r1 & w2 & [= <- <-] & Hr). cbn [ok_or] in Hr.
  apply bind_cases in Hr as (r1 & w2 & [-> [(p & -> & Hp)|[-> Hp]]]%provider_is & Hr).
  2: { destruct Hr as [-> ->]. split_and!; try done; [|by intros _; split; [eexists|]]. intros (p & x & Hp' & _). congruence. }
  apply bind_cases in Hr as (r1 & w2 & (Hgone & Hstay & Ha & Hpl & _ & b & -> & Hb)%consume_state_pending & Hr); [|done].
  assert (manager w1 = manager w2) as Hm.
  { revert Hr. match goal with |- ?m w2 = _ -> _ => enough (keeps manager m) as Hk by apply Hk end.
    repeat first [progress keep_view|apply keeps_weaken, client_keeps|apply keeps_weaken, exchange_keeps|apply authenticate_keeps]. }
  split_and!.
  - intros Hpend%(pending_manager _ _ w2); done.
  - intros other τ Hpend. by eapply Hstay, pending_manager.
  - intros Hno. destruct b; [|injection Hr as <- <-; split_and!; try done; by eexists]. exfalso. apply Hno.
    destruct (Hb eq_refl) as (x & Hx & Hs & _). by exists p, x.
Qed.
Lemma callback_pending clock d up r name w other τ :
  pending other τ (oauth_callback clock d up r name w).2 -> pending other τ w.
Proof.
  destruct (url_decode (cb_state r)) as [j|] eqn:Hj; [|by unfold oauth_callback, found; rewrite Hj].
  destruct (state_from_json j) as [σ|] eqn:Hσ.
  2: { unfold oauth_callback, found. rewrite Hj. unfold mbind, ST_bind. cbn. by rewrite Hσ. }
  destruct (oauth_callback clock d up r name w) as [res w1] eqn:Hr. cbn. apply (callback_state _ _ _ _ _ σ) in Hr; [by apply Hr|by exists j].
Qed.
Lemma initiate_pending clock csrf r name w other σ : csrf <> csrf_token σ \/ name <> other ->
  pending other σ (initiate_oauth clock csrf r name w).2 -> pending other σ w.
Proof.
  intros Hne. destruct (initiate_oauth clock csrf r name w) as [res w'] eqn:Hr. cbn. unfold initiate_oauth in Hr.
  apply bind_cases in Hr as (r1 & w1 & H1 & Hr). assert (manager w1 = manager w) as H1' by by eapply (keeps_platform manager), H1; [apply OrganizationSteps.observes_map_err, observes_project|intros].
  destruct r1 as [project| |]; [|destruct Hr as [-> ->]; by apply pending_manager..].
  apply bind_cases in Hr as (r2 & w2 & H2%(keeps_weaken _ (client_keeps _ _ _)) & Hr). rewrite H1' in H2.
  destruct r2 as [client| |]; [|destruct Hr as [-> ->]; by apply pending_manager..].
  apply bind_cases in Hr as (r3 & w3 & [-> [(p & -> & Hp)|[-> Hp]]]%provider_is & Hr); [|destruct Hr as [-> ->]; by apply pending_manager].
  cbv zeta in Hr. apply bind_cases in Hr as (r4 & w4 & H4 & Hr). unfold store_state, on_manager, Db.st_map_err in H4.
  destruct (on_states _ _ _ (manager w2)) as [r5 m] eqn:H5. injection H4 as <- <-.
  intros Hpend. apply (pending_manager _ _ _ w2 H2).
  refine (on_states_pending name p _ w2 m r5 σ other Hp H5 _ w' _ Hpend).
  { intros x <- Hx _. apply store_pending in Hx; [done|]. destruct Hne; congruence. }
  destruct (map_err _ _); [|by destruct Hr as [_ ->]..].
  change m with (manager (MkWorld (accounts w2) (platform w2) m (jwks w2))). revert Hr. match goal with |- ?m ?w = _ -> _ => enough (keeps manager m) as Hk by apply Hk end.
  keep_view.
Qed.

Lemma serve_pending q name σ w : draws_other name (csrf_token σ) q -> pending name σ (serve q w) -> pending name σ w.
Proof.
  destruct q as [clock csrf r p|clock d up r p|clock d up r]; cbn.
  - by apply initiate_pending.
  - intros _. apply callback_pending.
  - intros _. destruct (handle_apple_native_signin clock d up r w) as [res w'] eqn:Hr. by apply pending_manager, (native_keeps _ _ _ _ _ _ _ Hr).
Qed.
Lemma serve_all_pending qs name σ w :
  Forall (draws_other name (csrf_token σ)) qs -> pending name σ (serve_all qs w) -> pending name σ w.
Proof.
  intros Hqs. revert w. induction Hqs as [|q qs Hq _ IH]; intros w; [done|]. cbn. intros Hp%IH. by eapply serve_pending.
Qed.

(** C16. A state of the OAuth flow works once.  After a callback that brings a
    state to a provider - accepted or not, whatever fails after the state was
    taken - no later callback with that state to that provider is answered: it
    errs and changes no account, whatever other requests came in between, as long
    as none of them drew the same random token. *)
Theorem callback_is_one_time clock d up r name w res w1 qs clock' d' up' r' res' w3 σ :
  brings r σ -> brings r' σ ->
  oauth_callback clock d up r name w = (res, w1) ->
  Forall (draws_other name (csrf_token σ)) qs ->
  oauth_callback clock' d' up' r' name (serve_all qs w1) = (res', w3) ->
  (exists e, res' = Err e) /\ accounts w3 = accounts (serve_all qs w1) /\ platform w3 = platform (serve_all qs w1).
Proof.
  intros Hb Hb' (Hgone & _ & _)%(callback_state _ _ _ _ _ σ) Hqs (_ & _ & Hno)%(callback_state _ _ _ _ _ σ); [|done..].
  apply Hno. by intros Hp%serve_all_pending.
Qed.

(** ** Who is signed in *)
(** The settings of the project, as a read of the platform's tables finds them. *)
Definition configured (w : World) (project : Z) (s : Organizations.OAuthSettings) : Prop :=
  exists q q', Sql.tables q = Sql.tables (platform w) /\ Organizations.get_project_oauth_settings project q = (Ok (Some s), q').
(** The provider, asked with what the client of the project got for the code,
    names the subject and a verified e-mail address. *)
Inductive vouched (utc : Z) (up : Upstream) (w : World) (project : Z) (p : OAuthProvider) (client : BasicClient) (code : string)
    : string -> string -> string -> Prop :=
  | by_github g t u mail :
      p = Github g -> exchange_code up client code = Some t ->
      github_user up (gh_user_info_url g) (access_token t) = Apple.Status true (Some u) ->
      (gu_email u = Some mail \/ gu_email u = None /\ exists es e, github_emails up (access_token t) = Apple.Status true (Some es) /\
         e ∈ es /\ ge_primary e = true /\ ge_verified e = true /\ ge_email e = mail) ->
      vouched utc up w project p client code "github" (to_decimal (gu_id u)) mail
  | by_google g t u :
      p = Google g -> exchange_code up client code = Some t ->
      google_user up (go_user_info_url g) (access_token t) = Apple.Status true (Some u) ->
      ou_email_verified u = true -> is_empty (ou_email u) = false ->
      vouched utc up w project p client code "google" (ou_sub u) (ou_email u)
  | by_apple a s apple form t claims mail c :
      p = Apple a -> ("code", code) ∈ form -> apple_exchange up form = Apple.Status true (Some t) ->
      configured w project s -> Organizations.apple_oauth_settings s = Some apple ->
      Apple.verify_token utc (apple_keys up) (at_id_token t) (with_services (Organizations.a_client_id apple)) None (jwks w) = (Ok claims, c) ->
      Apple.email claims = Some mail -> Apple.email_verified claims = Some true -> is_empty mail = false ->
      vouched utc up w project p client code "apple" (Apple.sub claims) mail.

Lemma successful_Ok {A} (a : Apple.Answer A) b : successful a = Ok b -> a = Apple.Status true (Some b).
Proof. by destruct a as [|[] [?|]]; intros [= ->]. Qed.
Lemma github_Ok up token p u : fetch_github_user up token p = Ok u ->
  exists u0 mail, github_user up (gh_user_info_url p) token = Apple.Status true (Some u0) /\ gu_id u = gu_id u0 /\ gu_email u = Some mail /\
    (gu_email u0 = Some mail \/ gu_email u0 = None /\ exists es e, github_emails up token = Apple.Status true (Some es) /\
       e ∈ es /\ ge_primary e = true /\ ge_verified e = true /\ ge_email e = mail).
Proof.
  intros (u0 & Hu0%successful_Ok & (mail & Hm & Hr)%bind_Ok)%bind_Ok. destruct mail as [mail|]; [|done]. injection Hr as <-.
  exists u0, mail. split_and!; try done. destruct (gu_email u0) as [m|]; [injection Hm as ->; by left|right; split; [done|]].
  apply bind_Ok in Hm as (es & Hes%successful_Ok & [= Hf]). apply fmap_Some in Hf as (e & [[He1 He2]%andb_true_iff Hin]%Db.first_Some & ->).
  by exists es, e.
Qed.
Lemma google_Ok up token p u : fetch_google_user up token p = Ok u ->
  google_user up (go_user_info_url p) token = Apple.Status true (Some u) /\ ou_email_verified u = true /\ is_empty (ou_email u) = false.
Proof.
  intros (u0 & Hu0%successful_Ok & Hr)%bind_Ok. destruct (is_empty (ou_email u0)) eqn:He, (ou_email_verified u0) eqn:Hv; cbn in Hr; try done.
  by injection Hr as <-.
Qed.
Lemma exchange_apple_Ok utc up project c code w t idt w' : exchange_apple utc up project c code w = (Ok (t, idt), w') ->
  exists form tok, ("code", code) ∈ form /\ apple_exchange up form = Apple.Status true (Some tok) /\ idt = Some (at_id_token tok).
Proof.
  unfold exchange_apple, found.
  intros (s0 & w1 & _ & (s1 & _ & (s2 & _ & (k0 & w2 & _ & (k1 & _ & (raw & _ & (cs & _ & Hr)%bind_lift_Ok)%bind_lift_Ok)%bind_lift_Ok)%ST_bind_Ok)%bind_lift_Ok)%bind_lift_Ok)%ST_bind_Ok.
  cbv zeta in Hr. apply bind_lift_Ok in Hr as (tok & Ht%successful_Ok & [= _ <- _]). eexists _, tok. split_and!; [|exact Ht|done].
  right. right. left.
Qed.
Lemma on_jwks_Ok {E A} (m : ST Apple.AppleJwksCache E A) w a w' :
  on_jwks m w = (Ok a, w') -> m (jwks w) = (Ok a, jwks w') /\ accounts w' = accounts w.
Proof. unfold on_jwks. destruct (m (jwks w)) as [r c]. by intros [= -> <-]. Qed.
Lemma on_accounts_Ok {E A} (m : ST Db.State E A) w a w' :
  on_accounts m w = (Ok a, w') -> m (accounts w) = (Ok a, accounts w').
Proof. unfold on_accounts. destruct (m (accounts w)) as [r c]. by intros [= -> <-]. Qed.
Lemma on_platform_Ok {E A} (m : ST Organizations.State E A) w a w' :
  on_platform m w = (Ok a, w') -> m (platform w) = (Ok a, platform w').
Proof. unfold on_platform. destruct (m (platform w)) as [r c]. by intros [= -> <-]. Qed.
Lemma apple_user_Ok utc up token client w u w' : fetch_apple_user utc up token client w = (Ok u, w') ->
  exists claims mail, Apple.verify_token utc (apple_keys up) token client None (jwks w) = (Ok claims, jwks w') /\
    au_sub u = Apple.sub claims /\ au_email u = Some mail /\ Apple.email claims = Some mail /\
    Apple.email_verified claims = Some true /\ is_empty mail = false /\ accounts w' = accounts w.
Proof.
  intros (claims & w1 & [Hv Ha]%on_jwks_Ok & Hr)%ST_bind_Ok. cbn in Hr. destruct (Apple.email claims) as [mail|] eqn:Hm; [|done].
  destruct (is_empty mail) eqn:He, (Apple.email_verified claims) as [[]|] eqn:Hver; cbn in Hr; try done. injection Hr as <- <-.
  by exists claims, mail.
Qed.
Lemma settings_Ok project w s w' : org_error (Organizations.get_project_oauth_settings project) w = (Ok (Some s), w') ->
  configured w project s.
Proof. intros Hr%on_platform_Ok%Db.st_map_err_Ok. by exists (platform w), (platform w'). Qed.
Lemma configured_kept w w1 project s : seen w1 = seen w -> configured w1 project s -> configured w project s.
Proof. intros [= _ _ Ht] (q & q' & Hq & Hr). exists q, q'. split; [congruence|done]. Qed.

(** The client of the project, found in the platform's tables. *)
Definition client_of (utc : Z) (w : World) (project : Z) (name : string) (client : BasicClient) : Prop :=
  exists wa wb, Sql.tables (platform wa) = Sql.tables (platform w) /\ get_project_oauth_client utc project name wa = (Ok client, wb).
Definition answers (utc : Z) (a : AuthenticatedOAuthUser) (resp : OAuthCallbackResponse) : Prop :=
  cb_id resp = Db.uuid (oauth_user a) /\
  Tokens.new_with_auth_context signing_key utc (oauth_user a) Claims.Access (oauth_context a) = Ok (cb_access_token resp) /\
  Tokens.new_with_auth_context signing_key utc (oauth_user a) Claims.Refresh (oauth_context a) = Ok (cb_refresh_token resp).
Lemma response_Ok utc a resp : oauth_callback_response signing_key utc a = Ok resp -> answers utc a resp.
Proof.
  intros (at' & Ha%map_err_Ok & (rt & Hr%map_err_Ok & (mail & _ & [= <-])%bind_Ok)%bind_Ok)%bind_Ok. done.
Qed.
(** The account of a sign-in that succeeded. *)
Definition signed_in (w' : World) (name subject : string) (project : Z) (a : AuthenticatedOAuthUser) : Prop :=
  account_of (Db.tables (accounts w')) name subject project (oauth_user a) /\
  Accounts.oauth_auth_context_for_user enclave_key (oauth_user a) name subject = Ok (oauth_context a) /\
  opens enclave_key (oauth_user a) (oauth_context a) (Db.tables (accounts w')).
Lemma sign_in_Ok now d mail subject name tok un project w a w' :
  Credentials.owners (Db.tables (accounts w)) ->
  on_accounts (find_or_create_user_from_oauth enclave_key now d mail subject name tok un project) w = (Ok a, w') ->
  signed_in w' name subject project a.
Proof.
  intros Ho Hr%on_accounts_Ok. destruct (accounts w) as [t n f] eqn:Hw. cbn in Ho.
  pose proof (sign_in_account enclave_key (MkSignIn now d mail subject name tok un project f) (Db.MkState t n []) a (accounts w') Ho Hr) as Hacc.
  split; [exact Hacc|]. apply sign_in_cases in Hr as [[_ Hok]|(p & u & m & _ & _ & _ & _ & _ & _ & _ & _ & _ & _ & Hok)]; [| |done];
    specialize (Hok a eq_refl); naive_solver.
Qed.

Lemma settings_keeps project : keeps tables_kept (org_error (Organizations.get_project_oauth_settings project)).
Proof. unfold tables_kept, seen. keep_view. Qed.
Lemma keeps_seen {E A} (m : ST World E A) w r w' : keeps tables_kept m -> m w = (r, w') -> seen w' = seen w.
Proof. intros Hm Hr%Hm. by apply (f_equal snd) in Hr. Qed.
Lemma seen_accounts w w' : seen w' = seen w -> accounts w' = accounts w /\ jwks w' = jwks w.
Proof. unfold seen. by intros [= -> -> _]. Qed.

Lemma authenticate_Ok clock d up p name project client code w t idt a w1 w2 w' :
  Credentials.owners (Db.tables (accounts w)) ->
  seen w1 = seen w -> exchange (utc clock) up project name client code w1 = (Ok (t, idt), w2) ->
  authenticate clock d up p name project t idt w2 = (Ok a, w') ->
  exists subject mail, vouched (utc clock) up w project p client code name subject mail /\ signed_in w' name subject project a.
Proof.
  intros Ho Hw1 Hx Hr. pose proof (keeps_seen _ _ _ _ (exchange_keeps _ _ _ _ _ _) Hx) as Hw2. rewrite Hw1 in Hw2.
  pose proof (seen_accounts _ _ Hw2) as [Ha Hk].
  unfold authenticate in Hr. cbv zeta in Hr. destruct (decide (name = "github")) as [->|Hg].
  { apply bind_lift_Ok in Hr as (g & Hg%ok_or_Ok & (u & (u0 & mail & Hu & Hid & Hm & Hmail)%github_Ok & Hr%sign_in_Ok)%bind_lift_Ok); [|by rewrite Ha].
    destruct p; [|done..]. injection Hg as ->. unfold exchange in Hx. cbn [decide] in Hx. rewrite decide_False in Hx by done.
    apply bind_lift_Ok in Hx as (t' & Ht%ok_or_Ok & [= <- _ _]). rewrite Hid in Hr. exists (to_decimal (gu_id u0)), mail.
    split; [by eapply by_github|exact Hr]. }
  destruct (decide (name = "google")) as [->|Ho'].
  { apply bind_lift_Ok in Hr as (g & Hg'%ok_or_Ok & (u & (Hu & Hv & He)%google_Ok & Hr%sign_in_Ok)%bind_lift_Ok); [|by rewrite Ha].
    destruct p; [done| |done]. injection Hg' as ->. unfold exchange in Hx. rewrite decide_False in Hx by done.
    apply bind_lift_Ok in Hx as (t' & Ht%ok_or_Ok & [= <- _ _]). exists (ou_sub u), (ou_email u).
    split; [by eapply by_google|exact Hr]. }
  destruct (decide (name = "apple")) as [->|]; [|done].
  unfold exchange in Hx. rewrite decide_True in Hx by done. apply exchange_apple_Ok in Hx as (form & tok & Hform & Htok & ->).
  apply bind_lift_Ok in Hr as (g & Hg'%ok_or_Ok & Hr). destruct p; [done..|]. injection Hg' as ->.
  apply ST_bind_Ok in Hr as (s & w3 & H3 & (s' & Hs'%ok_or_Ok & (ap & Hap%ok_or_Ok & Hr)%bind_lift_Ok)%bind_lift_Ok).
  subst s. pose proof (keeps_seen _ _ _ _ (settings_keeps _) H3) as Hw3. apply settings_Ok, (configured_kept w) in H3; [|done].
  rewrite Hw2 in Hw3. pose proof (seen_accounts _ _ Hw3) as [Ha3 Hk3].
  apply bind_lift_Ok in Hr as (tk & [= <-]%ok_or_Ok & (u & w4 & (claims & mail & Hv & Hsub & Hm & Hm' & Hver & He & Ha4)%apple_user_Ok & Hr%sign_in_Ok)%ST_bind_Ok);
    [|by rewrite Ha4, Ha3].
  rewrite Hk3 in Hv. rewrite Hsub in Hr. exists (Apple.sub claims), mail. split; [by eapply by_apple|exact Hr].
Qed.

(** C12. Who signs in is whom the provider vouched for.  A callback that is answered
    brought a state that this provider's store held under its token, unexpired; the
    project is the one of the client id in that state, and the provider, asked with
    what the project's client got for the code of the callback, named the subject
    and its address, verified where it says so.  The answer is for an account of exactly this subject
    in this project, with tokens whose context opens the seed of the account. *)
Theorem callback_signs_in_vouched_subject clock d up r name w resp w' :
  Credentials.owners (Db.tables (accounts w)) ->
  oauth_callback clock d up r name w = (Ok resp, w') ->
  exists σ p x project client subject mail a,
    brings r σ /\ get_provider name (manager w) = Some p /\
    entries (states p) !! csrf_token σ = Some x /\ state x = σ /\ (instant clock < expires_at x)%Z /\
    Sql.first (Organizations.project_by_client_id (client_id σ)) (Organizations.projects (Sql.tables (platform w))) = Some project /\
    client_of (utc clock) w (Organizations.p_id project) name client /\
    vouched (utc clock) up w (Organizations.p_id project) p client (cb_code r) name subject mail /\
    signed_in w' name subject (Organizations.p_id project) a /\ answers (utc clock) a resp.
Proof.
  intros Ho (j & Hj%ok_or_Ok & (σ & Hσ%ok_or_Ok & Hr)%bind_lift_Ok)%bind_lift_Ok.
  apply ST_bind_Ok in Hr as (p & w0 & [-> [(p' & [= <-] & Hp)|[? _]]]%provider_is & Hr); [|done].
  apply ST_bind_Ok in Hr as (b & w1 & (_ & _ & Ha1 & Hp1 & Hk1 & b' & [= <-] & Hb)%consume_state_pending & Hr); [|done].
  destruct b; [|done]. destruct (Hb eq_refl) as (x & Hx & Hs & Hlive). cbn [negb] in Hr.
  apply ST_bind_Ok in Hr as (project & w2 & H2 & Hr). pose proof (on_platform_Ok _ _ _ _ H2) as H2'%Db.st_map_err_Ok.
  pose proof H2' as Hproj%OrganizationSteps.lookup_Ok. rewrite Hp1 in Hproj.
  assert (seen w2 = seen w) as Hw2.
  { unfold on_platform in H2. destruct (Db.st_map_err _ _ _). injection H2 as _ <-. apply (proj1 (observes_project _)) in H2'. cbn in H2'.
    unfold seen. cbn. by rewrite H2', Ha1, Hk1, Hp1. }
  apply ST_bind_Ok in Hr as (client & w3 & H3 & Hr). pose proof (keeps_seen _ _ _ _ (client_keeps _ _ _) H3) as Hw3. rewrite Hw2 in Hw3.
  apply ST_bind_Ok in Hr as ([t idt] & w4 & H4 & Hr).
  apply ST_bind_Ok in Hr as (a & w5 & H5 & Hr). injection Hr as Hans%response_Ok <-.
  destruct (authenticate_Ok clock d up p name (Organizations.p_id project) client (cb_code r) w t idt a w3 w4 w5) as (subject & mail & Hv & Hin); [done..|].
  exists σ, p, x, project, client, subject, mail, a. split_and!; try done; [by exists j|]. exists w2, w3. split; [by injection Hw2|done].
Qed.
End routes.

(** ** Witnesses *)
Section witnesses.
#[local] Existing Instances ToyCrypto.toy ToyCrypto.toy_laws.
#[local] Existing Instances ToyAccounts.toy_citext ToyAccounts.toy_uuid ToyAccounts.toy_accounts.
#[local] Existing Instances Tokens.ToyJwt.toy_jwt Tokens.ToyJwt.toy_url Tokens.ToyJwt.toy_audience.
Definition demo_client : Uuid := [Byte.x0c].
#[local] Instance demo_states : StateJson := {|
  state_to_json σ := Some (csrf_token σ); state_from_json b := (fun c => MkState c demo_client) <$> from_utf8 b |}.
Definition demo_oauth : Organizations.OAuthSettings :=
  Organizations.MkOAuthSettings true false true (Some (Organizations.MkProvider "client" "https://app")) None
    (Some (Organizations.MkApple "app" "https://app" None None)).
#[local] Instance demo_settings : Organizations.SettingsJson := {|
  Organizations.email_to_value _ := None; Organizations.email_from_value _ := None;
  Organizations.oauth_to_value _ := None; Organizations.oauth_from_value _ := Some demo_oauth |}.
#[local] Instance demo_oauth2 : OAuth2 := {| url_parses _ := true; authorize_url c csrf scopes extra := "https://auth?state=" +:+ csrf |}.
(** Apple's token has a subject and no e-mail address. *)
#[local] Instance demo_apple : Apple.AppleJwt := {|
  Apple.DecodingKey := string; Apple.EncodingKey := string;
  Apple.from_rsa_components n e := Some n;
  Apple.decode_header token := Some (Some "k1");
  Apple.decode now token key v := Some (Apple.MkClaims Apple.APPLE_ISSUER token "app" 1000 0 None None None None None None None);
  Apple.from_ec_pem pem := None; Apple.encode key_id claims pem := None |}.

Definition demo_secret : bytes :=
  match Encrypt.encrypt_with_key (replicate 12 Byte.x05) (Encrypt.MkSecretKey Credentials.key) (as_bytes "secret") with Ok b => b | _ => [] end.
Definition demo_platform : Organizations.Tables :=
  Organizations.MkTables [] [] [] []
    [Organizations.MkProject 5 [Byte.x01] demo_client 1 "app" None "active" 0 0]
    [Organizations.MkSecret 1 5 PROJECT_GOOGLE_OAUTH_SECRET demo_secret 0 0]
    [Organizations.MkSetting 1 5 "oauth" Json.Null 0 0].
Definition apple_row : Db.OAuthProvider := Db.MkProvider 2 "apple" "" "" "" 0 0.
Definition demo_world : World :=
  MkWorld (Credentials.demo_state (Db.set_oauth_providers [OAuthUsers.google; apple_row] Credentials.empty)) (Sql.MkStore demo_platform 1 [])
    {["google" := Google (MkGoogle "auth" "token" "info" (MkStore ∅ OAUTH_STATE_TTL OAUTH_STATE_CAPACITY))]} (Apple.verifier_new 0).
Definition demo_clock : Clock := MkClock 10 (secs 1000).
Definition demo_up : Upstream :=
  MkUpstream (fun _ code => Some (MkToken code None)) (fun _ => Apple.SendFailed) (fun _ _ => Apple.SendFailed) (fun _ => Apple.SendFailed)
    (fun _ token => Apple.Status true (Some (MkGoogleUser ("subject of " +:+ token) "a@b.c" true None)))
    (secs 1000, Apple.Status true (Some [Apple.MkKey "RSA" "k1" "sig" "RS256" "n" "e"])).
Definition demo_oauth_draws : OAuthDraws := MkOAuthDraws Credentials.demo_draws (replicate 12 Byte.x0d).
Definition started : World := (initiate_oauth Credentials.key demo_clock "t1" (MkAuthRequest demo_client) "google" demo_world).2.
Definition demo_callback : OAuthCallbackRequest := MkCallback "code" (url_encode (as_bytes "t1")).
Definition demo_σ : OAuthState := MkState "t1" demo_client.
Definition first_callback : outcome Api.ApiError OAuthCallbackResponse * World :=
  oauth_callback Credentials.key Tokens.demo_signing_key demo_clock demo_oauth_draws demo_up demo_callback "google" started.
Definition demo_response : OAuthCallbackResponse :=
  match first_callback.1 with Ok resp => resp | _ => MkCallbackResponse [] "" "" "" end.
Definition in_between : list OAuthRequest :=
  [Initiate demo_clock "t2" (MkAuthRequest demo_client) "google";
   Callback demo_clock demo_oauth_draws demo_up (MkCallback "code" (url_encode (as_bytes "t2"))) "google"].
Lemma callback_is_one_time_witness :
  is_ok first_callback.1 = true /\
  let w2 := serve_all Credentials.key Tokens.demo_signing_key in_between first_callback.2 in
  let '(r, w3) := oauth_callback Credentials.key Tokens.demo_signing_key demo_clock demo_oauth_draws demo_up demo_callback "google" w2 in
  (exists e, r = Err e) /\ accounts w3 = accounts w2.
Proof.
  split; [vm_compute; reflexivity|]. cbv zeta.
  destruct (oauth_callback _ _ _ _ _ _ _ (serve_all _ _ _ _)) as [r w3] eqn:Hr.
  destruct (callback_is_one_time Credentials.key Tokens.demo_signing_key demo_clock demo_oauth_draws demo_up demo_callback "google" started
    first_callback.1 first_callback.2 in_between demo_clock demo_oauth_draws demo_up demo_callback r w3 demo_σ) with (5 := Hr) as (He & Ha & _).
  - eexists. split; [vm_compute; reflexivity|vm_compute; reflexivity].
  - eexists. split; [vm_compute; reflexivity|vm_compute; reflexivity].
  - unfold first_callback. by destruct (oauth_callback _ _ _ _ _ _ _ started).
  - apply Forall_cons. split; [left; discriminate|]. apply Forall_singleton. exact I.
  - split; [exact He|exact Ha].
Defined.

Lemma callback_signs_in_vouched_subject_witness :
  exists project client subject mail, vouched (utc demo_clock) demo_up started project
    (Google (MkGoogle "auth" "token" "info" (MkStore {["t1" := MkStored demo_σ (10 + OAUTH_STATE_TTL)]} OAUTH_STATE_TTL OAUTH_STATE_CAPACITY)))
    client "code" "google" subject mail /\ subject = "subject of code".
Proof.
  destruct (callback_signs_in_vouched_subject Credentials.key Tokens.demo_signing_key demo_clock demo_oauth_draws demo_up demo_callback
    "google" started demo_response first_callback.2) as (σ & p & x & project & client & subject & mail & a & _ & Hp & _ & _ & _ & _ & _ & Hv & _).
  - intros q Hq. vm_compute in Hq. by apply elem_of_nil in Hq.
  - vm_compute. reflexivity.
  - assert (p = Google (MkGoogle "auth" "token" "info" (MkStore {["t1" := MkStored demo_σ (10 + OAUTH_STATE_TTL)]} OAUTH_STATE_TTL
      OAUTH_STATE_CAPACITY))) as -> by (vm_compute in Hp; injection Hp as <-; reflexivity).
    exists (Organizations.p_id project), client, subject, mail. split; [exact Hv|].
    inversion Hv as [|g t u Hg Hx Hu|]. injection Hg as <-. cbn in Hx, Hu. injection Hx as <-. injection Hu as <-. reflexivity.
Defined.

(** The native flow takes the address of the request when Apple's token has none,
    and the account it opens is a verified one: here the token names the subject
    [sub] only. *)
Definition native_request : AppleNativeSignInRequest :=
  MkNative "sub" None (Some "anyone@b.c") None None demo_client None.
Lemma native_trusts_requested_email :
  let '(r, w) := handle_apple_native_signin Credentials.key Tokens.demo_signing_key demo_clock demo_oauth_draws demo_up native_request demo_world in
  is_ok r = true /\ Db.email <$> Db.users (Db.tables (accounts w)) = [Some "anyone@b.c"] /\
  Db.is_verified <$> Db.email_verifications (Db.tables (accounts w)) = [true].
Proof. vm_compute. by split_and!. Qed.
End witnesses.
End OAuthRoutes.
