(* ===== verification/Permissions.v ===== *)
(** * Who may read and change an organization

    What the steps of [Roles.step] change of which organization, and what the
    routes answer to whom. *)

From S2P Require Import Prelude Text Json Crypto Api Encrypt Database Statements Rows Organizations OrganizationRoutes Roles OrganizationSteps.

Module Permissions.
Import Sql Organizations OrganizationRoutes Roles OrganizationSteps.

(** The rows that belong to the organization [o]. *)
Definition project_ids (o : Z) (t : Tables) : list Z := p_id <$> own p_org_id o (projects t).
Definition secrets_of (o : Z) (t : Tables) : list OrgProjectSecret :=
  matching_rows (fun s => bool_decide (s_project_id s ∈ project_ids o t)) (secrets t).
Definition settings_of (o : Z) (t : Tables) : list ProjectSetting :=
  matching_rows (fun g => bool_decide (g_project_id g ∈ project_ids o t)) (settings t).
Definition rows_of (o : Z) (t : Tables) :=
  (own o_id o (orgs t), own m_org_id o (memberships t), own v_org_id o (invites t), own p_org_id o (projects t),
   secrets_of o t, settings_of o t).

(** The organization in the path, and the roles the route asks for. *)
Definition path_of (r : Request) : option Uuid :=
  match r with
  | CreateOrg _ | ListOrgs | AcceptInvite _ => None
  | DeleteOrg o | ListMemberships o | UpdateMembership o _ _ | DeleteMembership o _ | CreateInvite o _ | ListInvites o
  | GetInvite o _ | DeleteInvite o _ | CreateProject o _ | ListProjects o | UpdateProject o _ _ | GetProject o _
  | DeleteProject o _ | CreateSecret o _ _ | ListSecrets o _ | DeleteSecret o _ _ | GetEmailSettings o _
  | UpdateEmailSettings o _ _ | GetOAuthSettings o _ | UpdateOAuthSettings o _ _ => Some o
  end.
Definition needs (r : Request) : list OrgRole :=
  match r with
  | DeleteOrg _ | UpdateMembership _ _ _ | DeleteMembership _ _ => [Owner]
  | CreateInvite _ _ | ListInvites _ | GetInvite _ _ | DeleteInvite _ _ | CreateProject _ _ | UpdateProject _ _ _
  | DeleteProject _ _ | CreateSecret _ _ _ | DeleteSecret _ _ _ | UpdateEmailSettings _ _ _ | UpdateOAuthSettings _ _ _ =>
      [Owner; Admin]
  | _ => any_role
  end.
(** Why the request may change the organization [q]. *)
Definition granted (user : PlatformUser) (clock : Z) (r : Request) (q : Z) (t t' : Tables) : Prop :=
  match path_of r, r with
  | Some path, _ => exists org, o_id org = q /\ may user (needs r) path org t
  | None, CreateOrg name => own o_id q (orgs t) = [] /\
      exists m, own m_org_id q (memberships t') = [m] /\ m_platform_user_id m = u_uuid user /\ m_role m = role_as_str Owner
  | None, AcceptInvite code => exists v, v_org_id v = q /\ invited user clock code v t /\
      exists m, own m_org_id q (memberships t') = own m_org_id q (memberships t) ++ [m] /\
        m_platform_user_id m = u_uuid user /\ m_role m = v_role v
  | None, _ => False
  end.

Section changes.
Context (seeded : list Z) (user : PlatformUser) (clock : Z) (n n' : Z) (t : Tables) (Hwf : wf seeded n t).

Lemma other_project o p : p ∈ projects t -> o <> p_org_id p -> (p_id p ∉ project_ids o t).
Proof.
  intros Hp Ho (q & He & Hq)%list_elem_of_fmap. apply elem_of_own in Hq as [Hq Hoq].
  assert (q = p) as -> by (eapply (unique_same p_id); [apply Hwf|done..]). done.
Qed.
Lemma rows_memberships o l t' : own m_org_id o l = own m_org_id o (memberships t') -> rows_of o (set_memberships l t') = rows_of o t'.
Proof. intros Hl. unfold rows_of, secrets_of, settings_of, project_ids. cbn [orgs memberships invites projects secrets settings set_memberships set_invites set_projects]. by rewrite Hl. Qed.
Lemma rows_invites o l t' : own v_org_id o l = own v_org_id o (invites t') -> rows_of o (set_invites l t') = rows_of o t'.
Proof. intros Hl. unfold rows_of, secrets_of, settings_of, project_ids. cbn [orgs memberships invites projects secrets settings set_memberships set_invites set_projects]. by rewrite Hl. Qed.
Lemma rows_projects o l : own p_org_id o l = own p_org_id o (projects t) -> rows_of o (set_projects l t) = rows_of o t.
Proof. intros Hl. unfold rows_of, secrets_of, settings_of, project_ids. cbn [orgs memberships invites projects secrets settings set_memberships set_invites set_projects]. by rewrite Hl. Qed.
Lemma rows_secrets o l : let q s := bool_decide (s_project_id s ∈ project_ids o t) in
  matching_rows q l = matching_rows q (secrets t) -> rows_of o (set_secrets l t) = rows_of o t.
Proof. intros q Hl. unfold q, project_ids in Hl. unfold rows_of, secrets_of, settings_of, project_ids. cbn [orgs memberships invites projects secrets settings set_secrets set_settings]. by rewrite Hl. Qed.
Lemma rows_settings o l : let q g := bool_decide (g_project_id g ∈ project_ids o t) in
  matching_rows q l = matching_rows q (settings t) -> rows_of o (set_settings l t) = rows_of o t.
Proof. intros q Hl. unfold q, project_ids in Hl. unfold rows_of, secrets_of, settings_of, project_ids. cbn [orgs memberships invites projects secrets settings set_secrets set_settings]. by rewrite Hl. Qed.

(** Rows of one organization only. *)
Lemma own_snoc_other {A} (g : A -> Z) o l x : g x <> o -> own g o (l ++ [x]) = own g o l.
Proof. intros Hx. rewrite own_app, own_one, decide_False by done. apply app_nil_r. Qed.
Lemma own_update_other {A} (g : A -> Z) o q p f (l : list A) : q <> o -> (forall x, x ∈ l -> p x = true -> g x = q) ->
  (forall x, g (f x) = g x) -> own g o (update_rows p f l) = own g o l.
Proof. intros Hq Hp Hf. by rewrite (own_update g q), decide_False. Qed.
Lemma own_delete_other {A} (g : A -> Z) o q p (l : list A) : q <> o -> (forall x, x ∈ l -> p x = true -> g x = q) ->
  own g o (delete_rows p l) = own g o l.
Proof. intros Hq Hp. by rewrite (own_delete g q), decide_False. Qed.
Lemma rows_dropped o q p t' : projects t' = projects t -> q <> o -> (forall x, x ∈ projects t -> p x = true -> p_org_id x = q) ->
  rows_of o (drop_projects p t') = rows_of o t'.
Proof.
  intros Ht Hq Hp. assert (project_ids o (drop_projects p t') = project_ids o t') as Hids.
  { unfold project_ids, drop_projects. cbn [projects set_secrets set_settings set_projects]. rewrite Ht. by rewrite (own_delete_other _ o q). }
  assert (forall A (g : A -> Z) (l : list A), matching_rows (fun x => bool_decide (g x ∈ project_ids o t'))
    (delete_rows (fun x => bool_decide (g x ∈ p_id <$> matching_rows p (projects t'))) l) =
    matching_rows (fun x => bool_decide (g x ∈ project_ids o t')) l) as Hm.
  { intros A g l. apply matching_delete. intros x Hx%bool_decide_eq_true. apply bool_decide_eq_false.
    intros (r & He & [Hpr Hr]%Db.elem_of_matching)%list_elem_of_fmap. rewrite Ht in Hr.
    apply (other_project o r Hr); [rewrite (Hp r Hr Hpr); congruence|]. rewrite <- He. unfold project_ids in *. by rewrite <- Ht. }
  unfold rows_of, secrets_of, settings_of. rewrite Hids. unfold drop_projects.
  cbn [orgs memberships invites projects secrets settings set_secrets set_settings set_projects].
  rewrite !Hm, Ht. by rewrite (own_delete_other _ o q).
Qed.

Lemma rows_orgs o l t' : own o_id o l = own o_id o (orgs t') -> rows_of o (set_orgs l t') = rows_of o t'.
Proof.
  intros Hl. unfold rows_of, secrets_of, settings_of, project_ids.
  cbn [orgs memberships invites projects secrets settings set_orgs]. by rewrite Hl.
Qed.
Lemma by_id {A} (f : A -> Z) (g : A -> Z) l x q : unique f l -> x ∈ l -> g x = q ->
  forall y, y ∈ l -> bool_decide (f y = f x) = true -> g y = q.
Proof. intros Hu Hx Hq y Hy He%bool_decide_eq_true. by assert (y = x) as -> by by eapply unique_same. Qed.
Lemma rows_drop_org o q : q <> o -> rows_of o (drop_org q t) = rows_of o t.
Proof.
  intros Hq. unfold drop_org. rewrite (rows_dropped o q); [|done|done|by intros x _ Hx%bool_decide_eq_true].
  rewrite rows_invites, rows_memberships, rows_orgs; try done;
    by apply (own_delete_other _ o q); [|intros x _ Hx%bool_decide_eq_true].
Qed.

(** A change of the secrets or settings of one project. *)
Lemma rows_of_project {A} (g : A -> Z) o p : p ∈ projects t -> p_org_id p <> o ->
  let q x := bool_decide (g x ∈ project_ids o t) in forall x, g x = p_id p -> q x = false.
Proof. intros Hp Ho q x Hx. apply bool_decide_eq_false. rewrite Hx. by apply (other_project o p). Qed.

(** Renaming a project moves it nowhere. *)
Lemma rows_project_update o p now name description status : p ∈ projects t -> p_org_id p <> o ->
  rows_of o (set_projects (update_rows (project_by_id (p_id p)) (project_set now name description status) (projects t)) t) = rows_of o t.
Proof.
  intros Hp Ho. apply rows_projects, (own_update_other _ o (p_org_id p)); [done| |done].
  apply (by_id p_id); [apply Hwf|done..].
Qed.
Lemma role_as_str_from role : role_checked role = true -> role_as_str (role_from role) = role.
Proof. intros Hc%bool_decide_eq_true. cbn in Hc. set_unfold. destruct Hc as [->|[->|[->|[->|[]]]]]; done. Qed.

(** A step changes the rows of an organization only where it is granted. *)
Lemma step_rows r t' o : step user clock n n' t r t' -> rows_of o t' = rows_of o t \/ granted user clock r o t t'.
Proof.
  pose proof Hwf as ((Ho&_&Hob)&(Hm&_&_&Hmr&_)&(Hv&_&_&_&Hvr)&(Hp&_)&(Hs&_)&(Hg&_)&_). intros Hstep.
  assert (forall path roles org, may user roles path org t -> path_of r = Some path -> needs r = roles ->
    (o_id org <> o -> rows_of o t' = rows_of o t) -> rows_of o t' = rows_of o t \/ granted user clock r o t t') as Hpath.
  { intros path roles org Hmay He Hn Hrows. destruct (decide (o_id org = o)) as [Hid|Hid]; [right|left; by apply Hrows].
    unfold granted. rewrite He, Hn. by exists org. }
  destruct Hstep as [name now uuid id id' Hid Hid' Hnew Hu|path org Hmay|path who role now org m Hmay Hin Hpair Hl|path who org m Hmay Hin Hpair Hl|
    path body code now id org Hmay Hid Hnew|path code org v Hmay Hin Hc Horg|code now id v Hinv Hid Hex Hu|
    path body uuid client now id org Hmay Hid Hnew|path pid body now org p Hmay Hat Hnew|path pid org p Hmay Hat|
    path pid body secret_enc now id org p Hmay Hat Hid Hnew|path pid body secret_enc now org p Hmay Hat|path pid key org p s Hmay Hat Hin Hk|
    r path pid c v now id org p Hr Hmay Hat Hid Hnew|r path pid c v now org p g Hr Hmay Hat Hin Hk].
  all: try (destruct Hat as (Hat & _ & Hpo)).
  - destruct (decide (id = o)) as [->|Hne]; [right; cbn [granted path_of memberships set_memberships set_orgs]|left].
    + assert (own o_id o (orgs t) = []) as Hno.
      { apply Db.matching_none. intros x Hx. apply bool_decide_eq_false. apply (below_fresh n _ (orgs t)); [done|lia|done]. }
      assert (own m_org_id o (memberships t) = []) as Hnm.
      { apply Db.matching_none. intros x Hx. apply bool_decide_eq_false. intros Hxo. destruct (Hmr x Hx) as (y & Hy & Hyx).
        assert (y ∈ own o_id o (orgs t)) as Hin by (apply elem_of_own; split; congruence). rewrite Hno in Hin. set_solver. }
      split; [done|]. eexists. rewrite own_app, own_one, decide_True, Hnm by done. split; [reflexivity|]. done.
    + rewrite rows_memberships, rows_orgs; [done|..]; by apply own_snoc_other.
  - apply (Hpath path [Owner] org Hmay); [done..|]. intros Hne. by apply rows_drop_org.
  - apply (Hpath path [Owner] org Hmay); [done..|]. intros Hne. apply rows_memberships.
    apply (own_update_other _ o (o_id org)); [done| |done]. apply (by_id m_id); [done|done|by injection Hpair].
  - apply (Hpath path [Owner] org Hmay); [done..|]. intros Hne. apply rows_memberships.
    apply (own_delete_other _ o (o_id org)); [done|]. apply (by_id m_id); [done|done|by injection Hpair].
  - apply (Hpath path [Owner; Admin] org Hmay); [done..|]. intros Hne. by apply rows_invites, own_snoc_other.
  - apply (Hpath path [Owner; Admin] org Hmay); [done..|]. intros Hne. apply rows_invites.
    apply (own_delete_other _ o (o_id org)); [done|]. by apply (by_id v_id).
  - destruct Hinv as (Hvin & Hinv). destruct (decide (v_org_id v = o)) as [Heq|Hne]; [right|left].
    + exists v. split; [done|]. split; [done|]. eexists. cbn [memberships set_memberships set_invites].
      rewrite own_app, own_one, decide_True by done. split; [reflexivity|]. split; [done|]. apply role_as_str_from. by apply Hvr.
    + rewrite rows_invites, rows_memberships; [done|by apply own_snoc_other|].
      apply (own_update_other _ o (v_org_id v)); [done| |done]. intros x Hx [Hxv _]%andb_true_iff. by apply (by_id v_id _ (invites t) v).
  - apply (Hpath path [Owner; Admin] org Hmay); [done..|]. intros Hne. by apply rows_projects, own_snoc_other.
  - apply (Hpath path [Owner; Admin] org Hmay); [done..|]. intros Hne. apply rows_project_update; [done|congruence].
  - apply (Hpath path [Owner; Admin] org Hmay); [done..|]. intros Hne. apply (rows_dropped o (o_id org)); [done..|].
    by apply (by_id p_id).
  - apply (Hpath path [Owner; Admin] org Hmay); [done..|]. intros Hne. apply rows_secrets, matching_snoc_other.
    apply (rows_of_project s_project_id o p); [done|congruence|done].
  - apply (Hpath path [Owner; Admin] org Hmay); [done..|]. intros Hne. apply rows_secrets, matching_update_other; [|done].
    intros x _ [_ Hx%bool_decide_eq_true]%andb_true_iff. apply (rows_of_project s_project_id o p); [done|congruence|done].
  - apply (Hpath path [Owner; Admin] org Hmay); [done..|]. intros Hne. apply rows_secrets, matching_delete_elem.
    intros x Hx Hxo. destruct (secret_by_id (s_id s) x) eqn:Hxs; [|done]. rewrite <- Hxo.
    apply (rows_of_project s_project_id o p); [done|congruence|]. apply (by_id s_id s_project_id (secrets t) s); try done. by injection Hk.
  - apply (Hpath path [Owner; Admin] org Hmay); [by destruct r; simplify_eq..|]. intros Hne. apply rows_settings, matching_snoc_other.
    apply (rows_of_project g_project_id o p); [done|congruence|done].
  - apply (Hpath path [Owner; Admin] org Hmay); [by destruct r; simplify_eq..|]. intros Hne. apply rows_settings, matching_update_other; [|done].
    intros x Hx Hxg. apply (rows_of_project g_project_id o p); [done|congruence|].
    apply (by_id g_id g_project_id (settings t) g); try done. by injection Hk.
Qed.
End changes.

(** ** What the routes do and answer *)
Section served.
Context `{cr : Crypto, sj : SettingsJson, vl : Validator}.

(** One call with the values it takes from outside: the times of the database
    and of the service, fresh identifiers, the nonce and key for a secret. *)
Record Call := MkCall {
  c_user : PlatformUser; c_request : Request; c_now : Z; c_clock : Z; c_later : Z;
  c_new : Uuid; c_client : Uuid; c_code : Uuid; c_nonce : bytes; c_key : option Encrypt.SecretKey }.
Definition serve_one (c : Call) : ST State Api.ApiError Answer :=
  handle (c_now c) (c_clock c) (c_later c) (c_new c) (c_client c) (c_code c) (c_nonce c) (c_key c) (c_user c) (c_request c).
(** Calls served one after another. *)
Fixpoint serve (l : list Call) (s : State) : State :=
  match l with [] => s | c :: l => serve l (serve_one c s).2 end.

(** Who gets an answer: a member with one of the roles, about a project of that
    organization, or the person an invite is addressed to. *)
Definition invitee (user : PlatformUser) (r : Request) (org : Org) (t : Tables) : Prop :=
  exists code v, r = GetInvite (o_uuid org) code /\ v ∈ invites t /\ v_code v = code /\ v_org_id v = o_id org /\ v_email v = u_email user.
Definition allowed (user : PlatformUser) (r : Request) (t : Tables) : Prop :=
  match path_of r with
  | Some path => exists org, may user (needs r) path org t \/ (org ∈ orgs t /\ o_uuid org = path /\ invitee user r org t)
  | None => True
  end.

Lemma step_allowed user clock n n' t r t' : step user clock n n' t r t' -> allowed user r t.
Proof.
  intros Hs. destruct Hs; unfold allowed; cbn [path_of needs]; try done;
    try match goal with r : Request |- _ => destruct r; try done; simplify_eq end; eexists; left; eassumption.
Qed.
Lemma writer_allowed c s a s' : writes (c_request c) = true -> unique p_id (projects (tables s)) -> serve_one c s = (Ok a, s') ->
  allowed (c_user c) (c_request c) (tables s).
Proof.
  intros Hw Hids [[Hs _]|[_ Hw']]%handle_does; [by eapply step_allowed| |done]. rewrite Hw' in Hw by done. done.
Qed.
(** A reader that finds the organization and asks for a role in it. *)
Lemma org_reader_may {B} user path roles (f : Org -> ST State Api.ApiError B) s b s' :
  (org ← find_org path; _ ← require user roles org; f org) s = (Ok b, s') -> exists org, may user roles path org (tables s).
Proof.
  intros (org & s1 & Ho & (u & s2 & Hq%require_Ok & _)%ST_bind_Ok)%ST_bind_Ok.
  rewrite (proj1 (observes_find_org path) _ _ _ Ho) in Hq. apply find_org_Ok in Ho as [Ho Hu]. exists org. by split_and!.
Qed.
Lemma project_reader_may {B} user path pid roles (f : Org * OrgProject -> ST State Api.ApiError B) s b s' :
  (found ← find_project user roles path pid; f found) s = (Ok b, s') -> exists org, may user roles path org (tables s).
Proof. intros (x & s1 & [Hm _]%find_project_Ok & _)%ST_bind_Ok. by eexists. Qed.
Lemma is_org_admin_Ok user org s s' : is_org_admin user org s = (Ok true, s') -> authorised user [Owner; Admin] (o_id org) (tables s).
Proof.
  unfold is_org_admin. destruct (get_org_membership_by_platform_user_and_org _ _ s) as [[m|e|] s1] eqn:Hm; [|done..].
  intros [= Hr <-]. assert (find_membership (u_uuid user) org s = (Ok m, s1)) as [Hin Hp]%find_membership_Ok.
  { unfold find_membership, st_map_err. by rewrite Hm. }
  injection Hp as ? ?. exists m. by rewrite bool_decide_eq_true in Hr.
Qed.
Lemma get_invite_allowed user path code s b s' : get_invite user path code s = (Ok b, s') -> allowed user (GetInvite path code) (tables s).
Proof.
  intros (org & s1 & Ho & Hr)%ST_bind_Ok. pose proof (proj1 (observes_find_org path) _ _ _ Ho) as H1.
  apply find_org_Ok in Ho as [Ho Hu]. apply ST_bind_Ok in Hr as (v & s2 & Hv & Hr). pose proof (proj1 (observes_find_invite code org) _ _ _ Hv) as H2.
  apply find_invite_Ok in Hv as (Hv & Hc & Hvo). rewrite H1 in Hv. apply ST_bind_Ok in Hr as (adm & s3 & Ha & Hr). exists org.
  destruct adm; [left|right].
  - apply is_org_admin_Ok in Ha. rewrite H2, H1 in Ha. by split_and!.
  - split_and!; [done..|]. exists code, v. rewrite Hu. split_and!; try done. rewrite andb_true_r in Hr.
    case_bool_decide; [done|discriminate].
Qed.
Lemma reader_allowed c s a s' : writes (c_request c) = false -> serve_one c s = (Ok a, s') ->
  allowed (c_user c) (c_request c) (tables s).
Proof.
  destruct c as [user r]. unfold serve_one. cbn [c_request c_user]. intros Hw Hr.
  assert (forall path, path_of r = Some path -> (exists org, may user (needs r) path org (tables s)) -> allowed user r (tables s)) as Hmay.
  { intros path Hp (org & Hm). unfold allowed. rewrite Hp. exists org. by left. }
  destruct r; try done; cbn [handle] in Hr; unfold answer in Hr; apply ST_bind_Ok in Hr as (b & s1 & Hr & _).
  all: unfold list_memberships, list_invites, list_projects, get_project, list_secrets, get_email_settings, get_oauth_settings in Hr.
  all: try (eapply Hmay; [reflexivity|]; first [eapply org_reader_may; exact Hr|eapply project_reader_may; exact Hr]).
  by eapply get_invite_allowed.
Qed.

Lemma serve_one_wf seeded c s : wf seeded (serial s) (tables s) -> let s' := (serve_one c s).2 in wf seeded (serial s') (tables s').
Proof.
  intros Hwf. destruct (serve_one c s) as [a s'] eqn:Hr. cbn. pose proof (handle_grows _ _ _ _ _ _ _ _ _ _ _ _ _ Hr) as Hn.
  apply handle_does in Hr as [[Hs _]|[-> _]]; [by eapply step_wf| |apply Hwf]. by eapply wf_mono.
Qed.
Lemma serve_wf seeded l s : wf seeded (serial s) (tables s) -> wf seeded (serial (serve l s)) (tables (serve l s)).
Proof. revert s. induction l as [|c l IH]; [done|]. intros s Hwf. by apply IH, serve_one_wf. Qed.

(** Every request of every user, whatever statements fail on the way, makes one
    step of the abstract machine [Roles.step] or leaves every table as it was: a
    step only under an answer of success, or where the route reads the changed row
    again and that read fails; nothing but a reading route succeeds without one. *)
Theorem organization_requests_are_steps seeded c s a s' : wf seeded (serial s) (tables s) -> serve_one c s = (a, s') ->
  (step (c_user c) (c_clock c) (serial s) (serial s') (tables s) (c_request c) (tables s') /\
     (is_ok a = true \/ late (c_request c) = true)) \/
  (tables s' = tables s /\ (is_ok a = true -> writes (c_request c) = false)).
Proof. intros Hwf Hr. apply handle_does in Hr; [exact Hr|apply Hwf]. Qed.

(** C3. No sequence of requests, whoever sends them and whatever statements fail,
    leaves an organization without an owner: when each request is served before the
    next, the tables keep their constraints and each organization has a member with
    the role of an owner, who is a user of the platform.  Only the organizations the
    migration inserts without members, [seeded], may have none. *)
Theorem every_organization_keeps_an_owner seeded l s : wf seeded (serial s) (tables s) ->
  let s' := serve l s in
  wf seeded (serial s') (tables s') /\
  forall o, o ∈ orgs (tables s') -> o_id o ∈ seeded \/
    exists m u, m ∈ memberships (tables s') /\ m_org_id m = o_id o /\ role_from (m_role m) = Owner /\ u ∈ platform_users (tables s') /\ u_uuid u = m_platform_user_id m.
Proof.
  intros Hwf'%(serve_wf seeded l). split; [exact Hwf'|]. intros o Ho. destruct Hwf' as (_&(_&_&_&_&Hu&_)&_&_&_&_&Hw).
  destruct (Hw o Ho) as [|(m & Hm & [Hmo Hrole]%owner_of_true)]; [by left|right]. destruct (Hu m Hm) as (u & Hin & Hue).
  exists m, u. rewrite Hrole. by split_and!.
Qed.

(** C2. A request changes the rows of an organization (itself, its members, invites,
    projects, their secrets and settings) only where it is granted: the path names
    that organization and the user has there one of the roles the route asks for; or
    it creates the organization, with the user as its only member and owner; or it
    accepts an unused invite to it addressed to the user's e-mail, which adds the
    user with the role of the invite.  And an answer of success to a route of an
    organization goes to such a user only, or to the person an invite is for. *)
Theorem organizations_change_by_role seeded c s a s' : wf seeded (serial s) (tables s) -> serve_one c s = (a, s') ->
  (forall o, rows_of o (tables s') = rows_of o (tables s) \/
    granted (c_user c) (c_clock c) (c_request c) o (tables s) (tables s')) /\
  (is_ok a = true -> allowed (c_user c) (c_request c) (tables s)).
Proof.
  intros Hwf Hr. split.
  - intros o. apply handle_does in Hr as [[Hs _]|[-> _]]; [by eapply step_rows|by left|apply Hwf].
  - destruct a as [a| |]; [intros _|done..]. destruct (writes (c_request c)) eqn:Hw; [|by eapply reader_allowed].
    eapply writer_allowed; [done| |done]. apply Hwf.
Qed.
End served.

(** ** Examples *)
#[local] Existing Instances ToyCrypto.toy ToyCrypto.toy_laws.
#[local] Instance demo_settings : SettingsJson :=
  {| email_to_value _ := None; email_from_value _ := None; oauth_to_value _ := None; oauth_from_value _ := None |}.
#[local] Instance demo_validator : Validator := {| valid_email _ := true; valid_url _ := true; url_parses _ := true |}.
Definition demo_person (n : Z) (uuid : Uuid) (email : string) : PlatformUser := MkPlatformUser n uuid email None None 0 0.
Definition ann : PlatformUser := demo_person 1 [Byte.x0a] "ann@example.com".
Definition bob : PlatformUser := demo_person 2 [Byte.x0b] "bob@example.com".
Definition demo_empty : Tables := MkTables [ann; bob] [] [] [] [] [] [].
Definition demo_call (u : PlatformUser) (r : Request) : Call :=
  MkCall u r 5 5 5 [Byte.x01] [Byte.x02] [Byte.x03] [] None.
Definition demo_org : Uuid := [Byte.x01].
(** Ann creates an organization and invites Bob as an administrator, who accepts. *)
Definition demo_history : list Call :=
  [demo_call ann (CreateOrg "Acme"); demo_call ann (CreateInvite demo_org (MkCreateInvite "bob@example.com" Admin));
   demo_call bob (AcceptInvite [Byte.x03])].
Definition demo_shared : State := serve demo_history (MkStore demo_empty 3 []).
Lemma demo_empty_wf : wf [] 3 demo_empty.
Proof.
  repeat split; try apply NoDup_nil_2; try (intros x Hx; by apply elem_of_nil in Hx).
Qed.
Lemma demo_shared_wf : wf [] (serial demo_shared) (tables demo_shared).
Proof. apply serve_wf, demo_empty_wf. Qed.
Definition promote_bob : Call := demo_call ann (UpdateMembership demo_org [Byte.x0b] Owner).
Definition remove_ann (u : PlatformUser) : Call := demo_call u (DeleteMembership demo_org [Byte.x0a]).

Lemma organization_requests_are_steps_witness :
  (serve_one promote_bob demo_shared).1 = Ok (AMembership (MkMembershipResponse [Byte.x0b] "owner" None)) /\
  exists n' t', step ann 5 21 n' (tables demo_shared) (UpdateMembership demo_org [Byte.x0b] Owner) t' /\
    m_role <$> memberships t' = ["owner"; "owner"].
Proof.
  split; [vm_compute; reflexivity|]. destruct (serve_one promote_bob demo_shared) as [a s'] eqn:Hr.
  destruct (organization_requests_are_steps [] promote_bob demo_shared a s' demo_shared_wf Hr) as [[Hs _]|[Ht _]].
  - exists (serial s'), (tables s'). split; [exact Hs|vm_compute in Hr; injection Hr as _ <-; vm_compute; reflexivity].
  - exfalso. assert (m_role <$> memberships (tables s') = ["owner"; "admin"]) as Hm by (rewrite Ht; vm_compute; reflexivity).
    vm_compute in Hr. injection Hr as _ <-. vm_compute in Hm. discriminate Hm.
Defined.
Lemma every_organization_keeps_an_owner_witness :
  let s' := serve (demo_history ++ [remove_ann ann; remove_ann bob]) (MkStore demo_empty 3 []) in
  o_id <$> orgs (tables s') = [5%Z] /\
  exists m, m ∈ memberships (tables s') /\ m_org_id m = 5%Z /\ role_from (m_role m) = Owner.
Proof.
  pose proof (every_organization_keeps_an_owner [] (demo_history ++ [remove_ann ann; remove_ann bob]) (MkStore demo_empty 3 []) demo_empty_wf)
    as [_ Hown].
  assert (o_id <$> orgs (tables (serve (demo_history ++ [remove_ann ann; remove_ann bob]) (MkStore demo_empty 3 []))) = [5%Z]) as Ho
    by (vm_compute; reflexivity).
  cbv zeta in Hown |- *. revert Hown Ho. generalize (serve (demo_history ++ [remove_ann ann; remove_ann bob]) (MkStore demo_empty 3 [])).
  intros s' Hown Ho. split; [exact Ho|]. destruct (orgs (tables s')) as [|o l]; [discriminate Ho|]. injection Ho as Hid _.
  destruct (Hown o) as [Hn|(m & u & Hm & Hmo & Hrole & _)]; [by left|by apply elem_of_nil in Hn|]. exists m. rewrite <- Hid. by split_and!.
Defined.
Lemma organizations_change_by_role_witness :
  let '(a, s') := serve_one (remove_ann bob) demo_shared in
  a = Err Api.Unauthorized /\ (forall o, rows_of o (tables s') = rows_of o (tables demo_shared)) /\
  rows_of 5 (tables (serve_one promote_bob demo_shared).2) <> rows_of 5 (tables demo_shared) /\
  granted ann 5 (c_request promote_bob) 5 (tables demo_shared) (tables (serve_one promote_bob demo_shared).2).
Proof.
  destruct (serve_one (remove_ann bob) demo_shared) as [a s'] eqn:Hr.
  destruct (organizations_change_by_role [] _ _ _ _ demo_shared_wf Hr) as [Hrows _]. split; [vm_compute in Hr; by injection Hr as <- _|].
  split; [|split].
  - intros o. destruct (Hrows o) as [Ho|Hg]; [exact Ho|]. exfalso. destruct Hg as (org & _ & _ & _ & m & Hm & Hu & _ & Hrole).
    unfold needs in Hrole. cbn in Hrole. vm_compute in Hm.
    apply elem_of_cons in Hm as [->|Hm]; [vm_compute in Hu; discriminate Hu|].
    apply list_elem_of_singleton in Hm as ->. apply list_elem_of_singleton in Hrole. vm_compute in Hrole. discriminate Hrole.
  - vm_compute. discriminate.
  - destruct (serve_one promote_bob demo_shared) as [b s2] eqn:Hr2.
    destruct (organizations_change_by_role [] _ _ _ _ demo_shared_wf Hr2) as [Hrows2 _]. destruct (Hrows2 5%Z) as [Ho|Hg]; [|exact Hg].
    exfalso. vm_compute in Hr2. injection Hr2 as _ <-. vm_compute in Ho. discriminate Ho.
Defined.

(** A removal that read Bob's membership while he was an administrator, and runs
    after Ann made him an owner and he removed her: the check of the last owner
    looks at the role it read before, and the organization is left without one. *)
Lemma stale_role_leaves_no_owner : exists target,
  (load_target ann demo_org [Byte.x0b] demo_shared).1 = Ok target /\
  let s1 := serve [promote_bob; remove_ann bob] demo_shared in
  let '(r, s2) := st_map_err last_owner_error (delete_membership_with_owner_check target.2) s1 in
  r = Ok tt /\ o_id <$> orgs (tables s2) = [5%Z] /\ memberships (tables s2) = [].
Proof. eexists. split; [vm_compute; reflexivity|]. vm_compute. by split_and!. Qed.
End Permissions.
