(* ===== verification/WebSafety.v ===== *)
(** * What the web tools may open and show

    [src/src/web/web_safety.rs]: the normalization of the URLs that may leave the
    enclave, the addresses that are not public, and the cleaning and bounding of
    Markdown that strangers wrote.  The [url] crate and the two Markdown crates are
    classes; serializing Markdown to a [String] does not fail, as the code expects. *)

From S2P Require Import Prelude Text Chars.

Module WebSafety.
Import Chars.

(** ** The crates *)
Inductive Host := Domain (domain : string) | Ipv4 (address : Z) | Ipv6 (address : Z).
Class UrlCrate := {
  Url : Type;
  url_parse : string -> option Url;
  url_string : Url -> string;
  scheme : Url -> string; username : Url -> string; password : Url -> option string;
  host : Url -> option Host; port : Url -> option Z;
  without_fragment : Url -> Url;
  without_port : Url -> option Url }.
(** A serialized URL is printable ASCII and is read back as itself. *)
Definition printable (s : string) : Prop := forall b, b ∈ codes s -> 33 <= b <= 126.
Class UrlLaws (uc : UrlCrate) : Prop := {
  url_printable u : scheme u = "https" -> printable (url_string u);
  url_reads_back u : scheme u = "https" -> url_parse (url_string u) = Some u;
  ipv4_range u a : host u = Some (Ipv4 a) -> (0 <= a < 2 ^ 32)%Z;
  ipv6_range u a : host u = Some (Ipv6 a) -> (0 <= a < 2 ^ 128)%Z;
  fragment_scheme u : scheme (without_fragment u) = scheme u;
  fragment_username u : username (without_fragment u) = username u;
  fragment_password u : password (without_fragment u) = password u;
  fragment_host u : host (without_fragment u) = host u;
  fragment_once u : without_fragment (without_fragment u) = without_fragment u;
  port_gone u u' : without_port u = Some u' -> scheme u' = scheme u /\ username u' = username u /\ password u' = password u /\
    host u' = host u /\ port u' = None /\ (without_fragment u = u -> without_fragment u' = u') }.

Inductive Event (other : Type) :=
| StartImage | EndImage | Html (html : string) | InlineHtml (html : string) | TextEvent (text : string) | OtherEvent (e : other).
Arguments StartImage {other}.
Arguments EndImage {other}.
Arguments Html {other} _.
Arguments InlineHtml {other} _.
Arguments TextEvent {other} _.
Arguments OtherEvent {other} _.
Class Markdown := {
  other : Type;
  markdown_events : string -> list (Event other);
  cmark : list (Event other) -> string }.
Class MarkdownLaws (md : Markdown) : Prop := {
  events_empty : markdown_events "" = [];
  cmark_empty : cmark [] = "" }.

(** ** Addresses *)
(** Octet [i] of an IPv4 address, segment [i] of an IPv6 address. *)
Definition octet (i a : Z) : Z := (a / 256 ^ (3 - i) mod 256)%Z.
Definition segment (i a : Z) : Z := (a / 65536 ^ (7 - i) mod 65536)%Z.
Definition ipv4_new (a b c d : Z) : Z := (((a * 256 + b) * 256 + c) * 256 + d)%Z.
Definition zin (lo hi x : Z) : bool := (lo <=? x)%Z && (x <=? hi)%Z.
(** The methods of [Ipv4Addr]. *)
Definition is_private (a : Z) : bool :=
  (octet 0 a =? 10)%Z || (octet 0 a =? 172)%Z && zin 16 31 (octet 1 a) || (octet 0 a =? 192)%Z && (octet 1 a =? 168)%Z.
Definition is_loopback (a : Z) : bool := (octet 0 a =? 127)%Z.
Definition is_link_local (a : Z) : bool := (octet 0 a =? 169)%Z && (octet 1 a =? 254)%Z.
Definition is_unspecified (a : Z) : bool := (a =? 0)%Z.
Definition is_broadcast (a : Z) : bool := (a =? 4294967295)%Z.
Definition is_multicast (a : Z) : bool := zin 224 239 (octet 0 a).
Definition is_non_public_ipv4 (a : Z) : bool :=
  is_private a || is_loopback a || is_link_local a || is_unspecified a || is_broadcast a || is_multicast a ||
  (octet 0 a =? 0)%Z ||
  (octet 0 a =? 100)%Z && zin 64 127 (octet 1 a) ||
  (octet 0 a =? 168)%Z && (octet 1 a =? 63)%Z && (octet 2 a =? 129)%Z && (octet 3 a =? 16)%Z ||
  (octet 0 a =? 192)%Z && (octet 1 a =? 0)%Z && bool_decide (octet 2 a = 0 \/ octet 2 a = 2)%Z ||
  (octet 0 a =? 192)%Z && (octet 1 a =? 88)%Z && (octet 2 a =? 99)%Z ||
  (octet 0 a =? 198)%Z && bool_decide (octet 1 a = 18 \/ octet 1 a = 19)%Z ||
  (octet 0 a =? 198)%Z && (octet 1 a =? 51)%Z && (octet 2 a =? 100)%Z ||
  (octet 0 a =? 203)%Z && (octet 1 a =? 0)%Z && (octet 2 a =? 113)%Z ||
  (240 <=? octet 0 a)%Z.

(** [Ipv6Addr::to_ipv4]: mapped and compatible addresses. *)
Definition to_ipv4 (a : Z) : option Z :=
  if (segment 0 a =? 0)%Z && (segment 1 a =? 0)%Z && (segment 2 a =? 0)%Z && (segment 3 a =? 0)%Z && (segment 4 a =? 0)%Z &&
     bool_decide (segment 5 a = 0 \/ segment 5 a = 65535)%Z
  then Some (segment 6 a * 65536 + segment 7 a)%Z else None.
Definition embedded_6to4_ipv4 (a : Z) : option Z :=
  if negb (segment 0 a =? 8194)%Z then None
  else
    let high := segment 1 a in
    let low := segment 2 a in
    Some (ipv4_new (high / 256) (high mod 256) (low / 256) (low mod 256)).
(** The bytes [00 64 ff 9b] and eight zero bytes. *)
Definition embedded_well_known_nat64_ipv4 (a : Z) : option Z :=
  if negb ((segment 0 a =? 100)%Z && (segment 1 a =? 65435)%Z && (segment 2 a =? 0)%Z && (segment 3 a =? 0)%Z && (segment 4 a =? 0)%Z &&
           (segment 5 a =? 0)%Z) then None
  else Some (ipv4_new (segment 6 a / 256) (segment 6 a mod 256) (segment 7 a / 256) (segment 7 a mod 256)).
Definition is_some_and {A} (f : A -> bool) (o : option A) : bool := match o with Some a => f a | None => false end.
Definition is_non_public_ipv6 (a : Z) : bool :=
  is_some_and is_non_public_ipv4 (to_ipv4 a) ||
  is_some_and is_non_public_ipv4 (embedded_6to4_ipv4 a) ||
  is_some_and is_non_public_ipv4 (embedded_well_known_nat64_ipv4 a) ||
  (a =? 1)%Z || (a =? 0)%Z ||
  (Z.land (segment 0 a) 65024 =? 64512)%Z ||
  (Z.land (segment 0 a) 65472 =? 65152)%Z ||
  (Z.land (segment 0 a) 65280 =? 65280)%Z ||
  (Z.land (segment 0 a) 65472 =? 65216)%Z ||
  (segment 0 a =? 256)%Z && (segment 1 a =? 0)%Z && (segment 2 a =? 0)%Z && (segment 3 a =? 0)%Z ||
  (segment 0 a =? 100)%Z && (segment 1 a =? 65435)%Z && (segment 2 a =? 1)%Z ||
  (segment 0 a =? 8193)%Z && bool_decide (segment 1 a = 0 \/ segment 1 a = 3512)%Z.

(** ** Hosts and URLs *)
Definition private_name (domain : string) : bool :=
  bool_decide (domain ∈ ["localhost"; "localdomain"; "metadata"; "instance-data"; "metadata.google.internal"]) ||
  ends_with ".localhost" domain || ends_with ".local" domain || ends_with ".internal" domain || ends_with ".home.arpa" domain.

Inductive PublicUrlError := TooLong | Invalid | NotHttps | Credentials | NonPublicHost.
Definition public_url_error (e : PublicUrlError) : string :=
  match e with
  | TooLong => "URL exceeds 2048 characters"
  | Invalid => "URL is invalid"
  | NotHttps => "URL must use HTTPS"
  | Credentials => "URL must not contain credentials"
  | NonPublicHost => "URL must include a public host"
  end.
Definition MAX_PUBLIC_URL_CHARS : nat := 2048.
Definition validate_public_host (h : option Host) : outcome PublicUrlError unit :=
  match h with
  | Some (Domain domain) =>
      let domain := to_ascii_lowercase (trim_end_matches (fun c => bool_decide (c = "."%char)) domain) in
      let is_single_label := negb (contains_char "." domain) in
      if is_empty domain || is_single_label || private_name domain then Err NonPublicHost else Ok tt
  | Some (Ipv4 address) => if is_non_public_ipv4 address then Err NonPublicHost else Ok tt
  | Some (Ipv6 address) => if is_non_public_ipv6 address then Err NonPublicHost else Ok tt
  | None => Err NonPublicHost
  end.
Definition normalize_public_https_url `{UrlCrate} (raw_url : string) : outcome PublicUrlError string :=
  if decide (MAX_PUBLIC_URL_CHARS < char_count raw_url) then Err TooLong
  else if existsb is_control (chars raw_url) then Err Invalid
  else
    url ← ok_or Invalid (url_parse raw_url);
    if decide (scheme url <> "https") then Err NotHttps
    else if negb (is_empty (username url)) || bool_decide (is_Some (password url)) then Err Credentials
    else
      _ ← validate_public_host (host url);
      let url := without_fragment url in
      url ← (if decide (port url = Some 443%Z) then ok_or Invalid (without_port url) else Ok url);
      Ok (url_string url).

(** ** Markdown *)
(** The offset of the first closing bracket outside quotes. *)
Fixpoint closing (quote : option nat) (l : list nat) : option nat :=
  match l with
  | [] => None
  | byte :: l =>
      match quote with
      | Some active_quote => S <$> closing (if decide (byte = active_quote) then None else quote) l
      | None =>
          if decide (byte = 39 \/ byte = 34) then S <$> closing (Some byte) l
          else if decide (byte = 62) then Some 0 else S <$> closing None l
      end
  end.
Definition find_html_tag_end (html : list nat) (tag_start : nat) : option nat :=
  (fun offset => tag_start + offset + 2) <$> closing None (drop (tag_start + 1) html).
Definition find_open (html : list nat) (cursor : nat) : option nat := fst <$> list_find (fun b => b = 60) (drop cursor html).
Fixpoint strip_tags (fuel : nat) (html : list nat) (cursor : nat) (text : list nat) : list nat :=
  match fuel with
  | 0 => text
  | S fuel =>
      match find_open html cursor with
      | None => text ++ drop cursor html
      | Some relative_start =>
          let tag_start := cursor + relative_start in
          let text := text ++ take relative_start (drop cursor html) in
          match find_html_tag_end html tag_start with
          | None => text ++ drop tag_start html
          | Some tag_end => strip_tags fuel html tag_end text
          end
      end
  end.
Definition strip_raw_html_tags (html : string) : string := of_codes (strip_tags (S (str_len html)) (codes html) 0 []).

Section markdown.
Context {md : Markdown}.
Definition sanitize_event (e : Event other) : option (Event other) :=
  match e with
  | StartImage | EndImage => None
  | Html html | InlineHtml html =>
      let text := strip_raw_html_tags html in if is_empty text then None else Some (TextEvent text)
  | e => Some e
  end.
Definition strip_image_embeds (markdown : string) : string := cmark (omap sanitize_event (markdown_events markdown)).

Definition truncate_chars (value : string) (max_chars : nat) : string * bool :=
  (take_chars max_chars value, bool_decide (max_chars < length (chars value))).
(** The fuel is enough: see [truncate_loop_ends]. *)
Fixpoint truncate_loop (fuel : nat) (value : string) (max_chars prefix_limit : nat) : option string :=
  match fuel with
  | 0 => None
  | S fuel =>
      let '(prefix, _) := truncate_chars value prefix_limit in
      let sanitized := strip_image_embeds prefix in
      let sanitized_chars := char_count sanitized in
      if decide (sanitized_chars <= max_chars) then Some sanitized
      else
        let overflow := Nat.max (sanitized_chars - max_chars) 1 in
        truncate_loop fuel value max_chars (prefix_limit - overflow)
  end.
Definition truncate_sanitized_markdown (value : string) (max_chars : nat) : string * bool :=
  if decide (char_count value <= max_chars) then (value, false)
  else (default EmptyString (truncate_loop (S max_chars) value max_chars max_chars), true).

Definition MARKER : string := "...".
Definition compact_untrusted_markdown (value : string) (max_chars : nat) : string :=
  let sanitized := replace "&#32;" " " (strip_image_embeds value) in
  let '(prefix, truncated) := truncate_sanitized_markdown sanitized max_chars in
  let compact := join " " (split_whitespace prefix) in
  if negb truncated then compact
  else if decide (max_chars <= char_count MARKER) then take_chars max_chars MARKER
  else
    let content_limit := max_chars - char_count MARKER in
    let '(prefix, _) := truncate_sanitized_markdown sanitized content_limit in
    join " " (split_whitespace prefix) +:+ MARKER.

(** ** Bounds *)
Context {ml : MarkdownLaws md}.
(** The loop ends within one round per character allowed. *)
Lemma truncate_loop_ends value max_chars fuel limit : limit < fuel ->
  exists s, truncate_loop fuel value max_chars limit = Some s /\ char_count s <= max_chars.
Proof.
  revert limit. induction fuel as [|fuel IH]; intros limit Hf; [lia|]. cbn [truncate_loop truncate_chars].
  case_decide as Hc; [by eexists|]. destruct limit as [|limit]; [|apply IH; lia]. exfalso. apply Hc.
  change (take_chars 0 value) with EmptyString. unfold strip_image_embeds. rewrite events_empty. cbn. rewrite cmark_empty. cbn. lia.
Qed.
Lemma truncation_bounded value max_chars :
  char_count (truncate_sanitized_markdown value max_chars).1 <= max_chars.
Proof.
  unfold truncate_sanitized_markdown. case_decide; [done|].
  destruct (truncate_loop_ends value max_chars (S max_chars) max_chars) as (s & -> & Hs); [lia|done].
Qed.
Lemma compact_bounded value max_chars : char_count (compact_untrusted_markdown value max_chars) <= max_chars.
Proof.
  unfold compact_untrusted_markdown. set (sanitized := replace _ _ _).
  pose proof (truncation_bounded sanitized max_chars) as H1. destruct (truncate_sanitized_markdown sanitized max_chars) as [prefix []].
  - case_decide as Hm.
    + change (char_count MARKER) with 3 in Hm. destruct max_chars as [|[|[|[|n]]]]; vm_compute; lia.
    + pose proof (truncation_bounded sanitized (max_chars - char_count MARKER)) as H2.
      destruct (truncate_sanitized_markdown sanitized (max_chars - _)) as [short ?]. cbn [negb fst] in *.
      rewrite char_count_app. pose proof (split_whitespace_count short). lia.
  - cbn [negb fst] in *. etransitivity; [apply split_whitespace_count|done].
Qed.
(** It is one line. *)
Lemma compact_free x value max_chars : x < 32 -> [x] ∈ whitespace -> free x (compact_untrusted_markdown value max_chars).
Proof.
  intros Hx Hw. assert (free x " ") as Hsp by (change (x ∉ [32]); intros ?%list_elem_of_singleton; lia).
  assert (forall s, free x (join " " (split_whitespace s))) as Hj.
  { intros s. apply free_join; [done|]. apply split_whitespace_free; [lia|done]. }
  unfold compact_untrusted_markdown. destruct (truncate_sanitized_markdown _ max_chars) as [prefix []]; [|apply Hj].
  assert (codes MARKER = [46; 46; 46]) as Hcodes by reflexivity.
  assert (free x MARKER) as Hmark by (unfold free; rewrite Hcodes; set_solver by lia).
  cbn [negb]. case_decide.
  - intros Hin. apply Hmark. unfold free. rewrite Hcodes.
    assert (codes (take_chars max_chars MARKER) = take max_chars [46; 46; 46]) as Ht by (by destruct max_chars as [|[|[|[|n]]]]).
    rewrite Ht in Hin. by eapply subseteq_take.
  - destruct (truncate_sanitized_markdown _ _) as [short ?]. by apply free_app.
Qed.
End markdown.

(** ** Which addresses are refused *)
(** The blocks [base/length] of IPv4 that are not public. *)
Definition reserved_ipv4 : list (Z * Z) :=
  [(ipv4_new 0 0 0 0, 8); (ipv4_new 10 0 0 0, 8); (ipv4_new 100 64 0 0, 10); (ipv4_new 127 0 0 0, 8); (ipv4_new 168 63 129 16, 32);
   (ipv4_new 169 254 0 0, 16); (ipv4_new 172 16 0 0, 12); (ipv4_new 192 0 0 0, 24); (ipv4_new 192 0 2 0, 24);
   (ipv4_new 192 88 99 0, 24); (ipv4_new 192 168 0 0, 16); (ipv4_new 198 18 0 0, 15); (ipv4_new 198 51 100 0, 24);
   (ipv4_new 203 0 113 0, 24); (ipv4_new 224 0 0 0, 4); (ipv4_new 240 0 0 0, 4)]%Z.
Definition in_block (bits a : Z) (block : Z * Z) : bool := (a / 2 ^ (bits - block.2) =? block.1 / 2 ^ (bits - block.2))%Z.
Lemma ipv4_octets a : (0 <= a < 2 ^ 32)%Z -> exists o0 o1 o2 o3,
  (0 <= o0 < 256 /\ 0 <= o1 < 256 /\ 0 <= o2 < 256 /\ 0 <= o3 < 256)%Z /\ a = ipv4_new o0 o1 o2 o3 /\
  octet 0 a = o0 /\ octet 1 a = o1 /\ octet 2 a = o2 /\ octet 3 a = o3.
Proof.
  intros Ha. exists (octet 0 a), (octet 1 a), (octet 2 a), (octet 3 a). unfold octet, ipv4_new.
  change (256 ^ (3 - 0))%Z with 16777216%Z. change (256 ^ (3 - 1))%Z with 65536%Z. change (256 ^ (3 - 2))%Z with 256%Z.
  change (256 ^ (3 - 3))%Z with 1%Z. change (2 ^ 32)%Z with 4294967296%Z in Ha.
  split_and!; try done; Z.to_euclidean_division_equations; lia.
Qed.
Lemma in_block_true bits a base len : in_block bits a (base, len) = true <-> (a / 2 ^ (bits - len) = base / 2 ^ (bits - len))%Z.
Proof. unfold in_block. apply Z.eqb_eq. Qed.
Ltac zpow :=
  repeat match goal with
  | |- context [(2 ^ ?k)%Z] => let v := eval vm_compute in (2 ^ k)%Z in change (2 ^ k)%Z with v
  end.
Ltac pick := lazymatch goal with |- _ \/ _ => first [left; pick | right; pick] | |- _ => first [assumption | lia] end.
Ltac zdiv := repeat match goal with |- context [(?x / ?d)%Z] => pose proof (Z.div_mod x d ltac:(done)); pose proof (Z.mod_pos_bound x d ltac:(done)); generalize dependent (x / d)%Z; intros end.
Lemma ipv4_quotients o0 o1 o2 o3 : (0 <= o0 < 256)%Z -> (0 <= o1 < 256)%Z -> (0 <= o2 < 256)%Z -> (0 <= o3 < 256)%Z ->
  let a := ipv4_new o0 o1 o2 o3 in
  (a / 2 ^ 24 = o0 /\ a / 2 ^ 28 = o0 / 16 /\ a / 2 ^ 16 = o0 * 256 + o1 /\ a / 2 ^ 22 = o0 * 4 + o1 / 64 /\
   a / 2 ^ 20 = o0 * 16 + o1 / 16 /\ a / 2 ^ 17 = o0 * 128 + o1 / 2 /\ a / 2 ^ 8 = (o0 * 256 + o1) * 256 + o2)%Z.
Proof. intros H0 H1 H2 H3. unfold ipv4_new. zpow. split_and!; Z.to_euclidean_division_equations; lia. Qed.
Lemma refused_ipv4_exact a : (0 <= a < 2 ^ 32)%Z -> is_non_public_ipv4 a = existsb (in_block 32 a) reserved_ipv4.
Proof.
  intros Ha. destruct (ipv4_octets a Ha) as (o0 & o1 & o2 & o3 & (H0 & H1 & H2 & H3) & Heq & E0 & E1 & E2 & E3).
  pose proof (ipv4_quotients o0 o1 o2 o3 H0 H1 H2 H3) as (Q24 & Q28 & Q16 & Q22 & Q20 & Q17 & Q8). rewrite <- Heq in *.
  apply eq_true_iff_eq.
  unfold is_non_public_ipv4, is_private, is_loopback, is_link_local, is_unspecified, is_broadcast, is_multicast, zin.
  rewrite E0, E1, E2, E3. unfold reserved_ipv4, existsb.
  rewrite !orb_true_iff, !in_block_true, !andb_true_iff, !Z.eqb_eq, !Z.leb_le, !bool_decide_eq_true.
  change (32 - 4)%Z with 28%Z. change (32 - 8)%Z with 24%Z. change (32 - 10)%Z with 22%Z. change (32 - 12)%Z with 20%Z.
  change (32 - 15)%Z with 17%Z. change (32 - 16)%Z with 16%Z. change (32 - 24)%Z with 8%Z. change (a / 2 ^ (32 - 32))%Z with (a / 1)%Z.
  rewrite Z.div_1_r, Q24, Q28, Q16, Q22, Q20, Q17, Q8. clear Q24 Q28 Q16 Q22 Q20 Q17 Q8 E0 E1 E2 E3.
  repeat match goal with
  | |- context [(ipv4_new ?a ?b ?c ?d / 2 ^ ?k)%Z] =>
      let v := eval vm_compute in (ipv4_new a b c d / 2 ^ k)%Z in change (ipv4_new a b c d / 2 ^ k)%Z with v
  end.
  change (ipv4_new 168 63 129 16) with 2822734096%Z. unfold ipv4_new in Heq. zdiv.
  split; intros Hor; destruct_and?; destruct_or?; destruct_and?; destruct_or?; try done; pick.
Qed.

(** The blocks of IPv6: those of IPv4 wherever an IPv4 address is embedded, and
    IPv6's own. *)
Definition embed (prefix len : Z) (block : Z * Z) : Z * Z := (prefix * 2 ^ (128 - len) + block.1 * 2 ^ (96 - len), len + block.2)%Z.
Definition reserved_ipv6 : list (Z * Z) :=
  (embed 0 96 <$> reserved_ipv4) ++ (embed 65535 96 <$> reserved_ipv4) ++ (embed 8194 16 <$> reserved_ipv4) ++
  (embed (100 * 2 ^ 80 + 65435 * 2 ^ 64) 96 <$> reserved_ipv4) ++
  [(1, 128); (0, 128); (126 * 2 ^ 121, 7); (1018 * 2 ^ 118, 10); (255 * 2 ^ 120, 8); (1019 * 2 ^ 118, 10); (256 * 2 ^ 112, 64);
   (100 * 2 ^ 112 + 65435 * 2 ^ 96 + 2 ^ 80, 48); (8193 * 2 ^ 112, 32); (8193 * 2 ^ 112 + 3512 * 2 ^ 96, 32)]%Z.

Lemma div_split a i j : (0 <= i)%Z -> (0 <= j)%Z -> (a / 2 ^ (i + j) = a / 2 ^ j / 2 ^ i)%Z.
Proof. intros Hi Hj. rewrite Z.add_comm, Z.pow_add_r by done. rewrite Z.div_div; lia. Qed.
Lemma in_embed a prefix len base size : (0 <= len <= 96)%Z -> (0 <= size <= 32)%Z -> (0 <= base < 2 ^ 32)%Z ->
  in_block 128 a (embed prefix len (base, size)) =
    (a / 2 ^ (128 - len) =? prefix)%Z && in_block 32 (a / 2 ^ (96 - len) mod 2 ^ 32) (base, size).
Proof.
  intros Hl Hs Hb. unfold in_block, embed. cbn [fst snd].
  replace (128 - (len + size))%Z with ((32 - size) + (96 - len))%Z by lia. replace (128 - len)%Z with (32 + (96 - len))%Z by lia.
  rewrite !div_split by lia. set (x := (a / 2 ^ (96 - len))%Z).
  rewrite Z.pow_add_r by lia. rewrite Z.mul_assoc, <- Z.mul_add_distr_r, Z.div_mul by lia.
  assert (2 ^ 32 = 2 ^ size * 2 ^ (32 - size))%Z as H32 by (rewrite <- Z.pow_add_r by lia; f_equal; lia).
  assert (0 < 2 ^ (32 - size))%Z as Hp by (apply Z.pow_pos_nonneg; lia). assert (0 < 2 ^ size)%Z as Hq by (apply Z.pow_pos_nonneg; lia).
  set (P := (2 ^ (32 - size))%Z) in *. set (Q := (2 ^ size)%Z) in *.
  pose proof (Z.div_mod x (2 ^ 32) ltac:(done)) as Hx. pose proof (Z.mod_pos_bound x (2 ^ 32) ltac:(done)) as Hm.
  set (hi := (x / 2 ^ 32)%Z) in *. set (lo := (x mod 2 ^ 32)%Z) in *.
  assert (x / P = hi * Q + lo / P)%Z as -> by (rewrite Hx, H32; rewrite <- Z.div_add_l by lia; f_equal; ring).
  assert ((prefix * 2 ^ 32 + base) / P = prefix * Q + base / P)%Z as -> by (rewrite H32; rewrite <- Z.div_add_l by lia; f_equal; ring).
  assert (0 <= lo / P < Q)%Z by (split; [apply Z.div_pos; lia|apply Z.div_lt_upper_bound; lia]).
  assert (0 <= base / P < Q)%Z by (split; [apply Z.div_pos; lia|apply Z.div_lt_upper_bound; lia]).
  apply eq_true_iff_eq. rewrite andb_true_iff, !Z.eqb_eq. split; [|intros [-> ->]; done]. intros Heq.
  assert (hi = prefix) by nia. subst. split; [done|lia].
Qed.
Lemma in_embeds a prefix len : (0 <= len <= 96)%Z ->
  existsb (in_block 128 a) (embed prefix len <$> reserved_ipv4) =
    (a / 2 ^ (128 - len) =? prefix)%Z && is_non_public_ipv4 (a / 2 ^ (96 - len) mod 2 ^ 32).
Proof.
  intros Hl. rewrite refused_ipv4_exact by (apply Z.mod_pos_bound; done).
  assert (Forall (fun b => 0 <= b.1 < 2 ^ 32 /\ 0 <= b.2 <= 32)%Z reserved_ipv4) as Hall by (repeat constructor; done).
  induction Hall as [|[base size] l [Hb Hs] Hall IH]; cbn [fmap list_fmap existsb]; [by rewrite andb_false_r|].
  rewrite IH, in_embed by done. by rewrite andb_orb_distrib_r.
Qed.

Record segments_of (a s0 s1 s2 s3 s4 s5 s6 s7 : Z) : Prop := {
  seg_bound : Forall (fun s => 0 <= s < 65536)%Z [s0; s1; s2; s3; s4; s5; s6; s7];
  seg_is : (fun i => segment i a) <$> [0; 1; 2; 3; 4; 5; 6; 7]%Z = [s0; s1; s2; s3; s4; s5; s6; s7];
  seg_112 : (a / 2 ^ 112 = s0)%Z;
  seg_96 : (a / 2 ^ 96 = s0 * 65536 + s1)%Z;
  seg_80 : (a / 2 ^ 80 = (s0 * 65536 + s1) * 65536 + s2)%Z;
  seg_64 : (a / 2 ^ 64 = ((s0 * 65536 + s1) * 65536 + s2) * 65536 + s3)%Z;
  seg_32 : (a / 2 ^ 32 = ((((s0 * 65536 + s1) * 65536 + s2) * 65536 + s3) * 65536 + s4) * 65536 + s5)%Z;
  seg_low : (a mod 2 ^ 32 = s6 * 65536 + s7)%Z }.
Lemma quotient_step a k : (0 <= k)%Z -> (a / 2 ^ k = a / 2 ^ (16 + k) * 65536 + a / 2 ^ k mod 65536)%Z.
Proof. intros Hk. rewrite div_split by lia. change (2 ^ 16)%Z with 65536%Z. pose proof (Z.div_mod (a / 2 ^ k) 65536 ltac:(done)). lia. Qed.
Lemma ipv6_segments a : (0 <= a < 2 ^ 128)%Z -> exists s0 s1 s2 s3 s4 s5 s6 s7, segments_of a s0 s1 s2 s3 s4 s5 s6 s7.
Proof.
  intros Ha. exists (segment 0 a), (segment 1 a), (segment 2 a), (segment 3 a), (segment 4 a), (segment 5 a), (segment 6 a), (segment 7 a).
  assert (a / 2 ^ 112 = segment 0 a)%Z as E0.
  { unfold segment. change (65536 ^ (7 - 0))%Z with (2 ^ 112)%Z. rewrite Z.mod_small; [done|].
    split; [apply Z.div_pos; lia|]. apply Z.div_lt_upper_bound; [lia|]. apply Ha. }
  assert (a / 2 ^ 96 = segment 0 a * 65536 + segment 1 a)%Z as E1 by (rewrite <- E0; by apply quotient_step).
  assert (a / 2 ^ 80 = (segment 0 a * 65536 + segment 1 a) * 65536 + segment 2 a)%Z as E2 by (rewrite <- E1; by apply quotient_step).
  assert (a / 2 ^ 64 = ((segment 0 a * 65536 + segment 1 a) * 65536 + segment 2 a) * 65536 + segment 3 a)%Z as E3
    by (rewrite <- E2; by apply quotient_step).
  pose proof (quotient_step a 48 ltac:(done)) as E4. pose proof (quotient_step a 32 ltac:(done)) as E5.
  pose proof (quotient_step a 16 ltac:(done)) as E6. pose proof (quotient_step a 0 ltac:(done)) as E7.
  pose proof (Z.div_mod a (2 ^ 32) ltac:(done)) as Hmod.
  change (2 ^ 0)%Z with 1%Z in E7. rewrite Z.div_1_r in E7.
  assert (a / 2 ^ 48 mod 65536 = segment 4 a)%Z as S4 by done. assert (a / 2 ^ 32 mod 65536 = segment 5 a)%Z as S5 by done.
  assert (a / 2 ^ 16 mod 65536 = segment 6 a)%Z as S6 by done.
  assert (a mod 65536 = segment 7 a)%Z as S7 by (unfold segment; change (65536 ^ (7 - 7))%Z with 1%Z; by rewrite Z.div_1_r).
  change (16 + 48)%Z with 64%Z in E4. change (16 + 32)%Z with 48%Z in E5. change (16 + 16)%Z with 32%Z in E6. change (16 + 0)%Z with 16%Z in E7.
  split; try done; [repeat constructor; by apply Z.mod_pos_bound|rewrite E5, E4; lia|].
  change (2 ^ 32)%Z with 4294967296%Z in *. lia.
Qed.

Lemma land_mask s k : (0 <= k <= 16)%Z -> (0 <= s < 65536)%Z -> Z.land s (65536 - 2 ^ k) = (s / 2 ^ k * 2 ^ k)%Z.
Proof.
  intros Hk Hs. rewrite <- Z.shiftr_div_pow2, <- Z.shiftl_mul_pow2, <- Z.ldiff_ones_r by lia.
  apply Z.bits_inj'. intros n Hn. rewrite Z.land_spec, Z.ldiff_spec.
  assert (65536 - 2 ^ k = Z.ldiff (Z.ones 16) (Z.ones k))%Z as ->.
  { rewrite Z.ldiff_ones_r, Z.shiftr_div_pow2, Z.shiftl_mul_pow2, !Z.ones_equiv by lia.
    assert (2 ^ 16 = 2 ^ (16 - k) * 2 ^ k)%Z as H by (rewrite <- Z.pow_add_r by lia; f_equal; lia).
    change 65536%Z with (2 ^ 16)%Z. assert (0 < 2 ^ k)%Z by (apply Z.pow_pos_nonneg; lia).
    replace (Z.pred (2 ^ 16)) with ((2 ^ (16 - k) - 1) * 2 ^ k + (2 ^ k - 1))%Z by lia.
    rewrite Z.div_add_l, Z.div_small by lia. lia. }
  rewrite Z.ldiff_spec, !Z.testbit_ones_nonneg by lia.
  destruct (Z.testbit s n) eqn:Hbit; [|done]. cbn.
  destruct (Z.ltb_spec n 16); [done|]. exfalso. rewrite (Z.bits_above_log2 s n) in Hbit; [done|lia|].
  destruct (decide (s = 0)%Z) as [->|]; [cbn; lia|]. assert (Z.log2 s < 16)%Z; [apply Z.log2_lt_pow2; lia|lia].
Qed.

Section ipv6.
Context (a s0 s1 s2 s3 s4 s5 s6 s7 : Z) (Hs : segments_of a s0 s1 s2 s3 s4 s5 s6 s7).
Lemma mapped_blocks :
  is_some_and is_non_public_ipv4 (to_ipv4 a) =
    existsb (in_block 128 a) (embed 0 96 <$> reserved_ipv4) || existsb (in_block 128 a) (embed 65535 96 <$> reserved_ipv4).
Proof.
  destruct Hs as [Hb [= E0 E1 E2 E3 E4 E5 E6 E7] _ _ _ _ H32 Hlow]. rewrite !in_embeds by lia.
  change (128 - 96)%Z with 32%Z. change (a / 2 ^ (96 - 96))%Z with (a / 1)%Z. rewrite Z.div_1_r, Hlow, H32, <- andb_orb_distrib_l.
  unfold to_ipv4. rewrite E0, E1, E2, E3, E4, E5, E6, E7. clear E0 E1 E2 E3 E4 E5 E6 E7 Hs H32 Hlow. decompose_Forall_hyps. case_match eqn:Hc; cbn [is_some_and].
  - rewrite !andb_true_iff, !Z.eqb_eq, bool_decide_eq_true in Hc. destruct_and!. destruct_or!; subst; done.
  - symmetry. apply andb_false_iff. left. apply not_true_iff_false. intros Ht. apply not_true_iff_false in Hc. apply Hc.
    rewrite orb_true_iff, !Z.eqb_eq in Ht. rewrite !andb_true_iff, !Z.eqb_eq, bool_decide_eq_true. lia.
Qed.
Lemma relay_blocks : is_some_and is_non_public_ipv4 (embedded_6to4_ipv4 a) = existsb (in_block 128 a) (embed 8194 16 <$> reserved_ipv4).
Proof.
  destruct Hs as [Hb [= E0 E1 E2 E3 E4 E5 E6 E7] H112 _ H80 _ _ _]. rewrite in_embeds by lia.
  change (128 - 16)%Z with 112%Z. change (96 - 16)%Z with 80%Z. rewrite H112, H80.
  unfold embedded_6to4_ipv4. rewrite E0, E1, E2. clear E0 E1 E2 E3 E4 E5 E6 E7 Hs H112 H80. decompose_Forall_hyps. destruct (s0 =? 8194)%Z eqn:Hc; [|done]. cbn [negb is_some_and andb].
  f_equal. unfold ipv4_new. change (2 ^ 32)%Z with 4294967296%Z. Z.to_euclidean_division_equations. lia.
Qed.
Lemma nat64_blocks : is_some_and is_non_public_ipv4 (embedded_well_known_nat64_ipv4 a) =
  existsb (in_block 128 a) (embed (100 * 2 ^ 80 + 65435 * 2 ^ 64) 96 <$> reserved_ipv4).
Proof.
  destruct Hs as [Hb [= E0 E1 E2 E3 E4 E5 E6 E7] _ _ _ _ H32 Hlow]. rewrite in_embeds by lia.
  change (128 - 96)%Z with 32%Z. change (a / 2 ^ (96 - 96))%Z with (a / 1)%Z. rewrite Z.div_1_r, Hlow, H32.
  unfold embedded_well_known_nat64_ipv4. rewrite E0, E1, E2, E3, E4, E5, E6, E7. clear E0 E1 E2 E3 E4 E5 E6 E7 Hs H32 Hlow. decompose_Forall_hyps. case_match eqn:Hc; cbn [is_some_and].
  - symmetry. apply andb_false_iff. left. apply not_true_iff_false. intros Ht%Z.eqb_eq. apply negb_true_iff, not_true_iff_false in Hc.
    apply Hc. rewrite !andb_true_iff, !Z.eqb_eq. lia.
  - apply negb_false_iff in Hc. rewrite !andb_true_iff, !Z.eqb_eq in Hc. destruct_and!. subst. 
    transitivity (true && is_non_public_ipv4 (s6 * 65536 + s7)%Z); [|f_equal; symmetry; apply Z.eqb_eq; lia]. cbn [andb].
    f_equal. unfold ipv4_new. Z.to_euclidean_division_equations. lia.
Qed.
End ipv6.
Lemma refused_ipv6_exact a : (0 <= a < 2 ^ 128)%Z -> is_non_public_ipv6 a = existsb (in_block 128 a) reserved_ipv6.
Proof.
  intros Ha. destruct (ipv6_segments a Ha) as (s0 & s1 & s2 & s3 & s4 & s5 & s6 & s7 & Hs).
  unfold is_non_public_ipv6, reserved_ipv6. erewrite mapped_blocks, relay_blocks, nat64_blocks by done.
  rewrite !existsb_app. destruct Hs as [Hb [= E0 E1 E2 E3 E4 E5 E6 E7] H112 H96 H80 H64 _ _].
  rewrite E0, E1, E2, E3. clear E0 E1 E2 E3 E4 E5 E6 E7. set (b0 := existsb _ _). set (b1 := existsb _ _). set (b2 := existsb _ _). set (b3 := existsb _ _).
  clearbody b0 b1 b2 b3. apply eq_true_iff_eq. unfold existsb.
  rewrite !orb_true_iff, !in_block_true, !andb_true_iff, !Z.eqb_eq, !bool_decide_eq_true.
  pose proof (land_mask s0 9 ltac:(lia)) as L9. pose proof (land_mask s0 8 ltac:(lia)) as L8. pose proof (land_mask s0 6 ltac:(lia)) as L6.
  pose proof (div_split a 9 112 ltac:(lia) ltac:(lia)) as D9. pose proof (div_split a 8 112 ltac:(lia) ltac:(lia)) as D8.
  pose proof (div_split a 6 112 ltac:(lia) ltac:(lia)) as D6. rewrite H112 in D9, D8, D6.
  change (65536 - 2 ^ 9)%Z with 65024%Z in L9. change (65536 - 2 ^ 8)%Z with 65280%Z in L8. change (65536 - 2 ^ 6)%Z with 65472%Z in L6.
  change (9 + 112)%Z with 121%Z in D9. change (8 + 112)%Z with 120%Z in D8. change (6 + 112)%Z with 118%Z in D6.
  change (128 - 7)%Z with 121%Z. change (128 - 10)%Z with 118%Z. change (128 - 8)%Z with 120%Z. change (128 - 64)%Z with 64%Z.
  change (128 - 48)%Z with 80%Z. change (128 - 32)%Z with 96%Z. change (2 ^ (128 - 128))%Z with 1%Z.
  rewrite !Z.div_1_r, D9, D8, D6, H64, H80, H96. clear D9 D8 D6 H112 H96 H80 H64. decompose_Forall_hyps.
  rewrite L9, L8, L6 by done. clear L9 L8 L6.
  repeat match goal with
  | |- context [(?p / 2 ^ ?k)%Z] => let v := eval vm_compute in (p / 2 ^ k)%Z in lazymatch v with Z0 => fail | Zpos _ => change (p / 2 ^ k)%Z with v end
  end.
  change (2 ^ 9)%Z with 512%Z. change (2 ^ 8)%Z with 256%Z. change (2 ^ 6)%Z with 64%Z. zdiv.
  split; intros Hor; destruct_and?; destruct_or?; destruct_and?; destruct_or?; try done; pick.
Qed.

(** ** What a normalized URL is *)
Definition outside (bits : Z) (blocks : list (Z * Z)) (a : Z) : Prop := Forall (fun b => in_block bits a b = false) blocks.
Definition public_host (h : option Host) : Prop :=
  match h with
  | Some (Domain domain) =>
      let domain := to_ascii_lowercase (trim_end_matches (fun c => bool_decide (c = "."%char)) domain) in
      contains_char "." domain = true /\ private_name domain = false
  | Some (Ipv4 address) => outside 32 reserved_ipv4 address
  | Some (Ipv6 address) => outside 128 reserved_ipv6 address
  | None => False
  end.
Lemma existsb_Forall {A} (f : A -> bool) l : existsb f l = false <-> Forall (fun x => f x = false) l.
Proof. induction l as [|x l IH]; cbn; [done|]. by rewrite orb_false_iff, Forall_cons, IH. Qed.
Lemma free_of_printable s x : printable s -> x < 33 -> free x s.
Proof. intros Hs Hx Hin. specialize (Hs _ Hin). lia. Qed.
Lemma printable_control s : printable s -> existsb is_control (chars s) = false.
Proof.
  intros Hs. apply existsb_Forall, Forall_forall. intros c Hc.
  assert (Forall (fun b => 33 <= b <= 126) c) as Hb.
  { assert (Forall (Forall (fun b => 33 <= b <= 126)) (chars s)) as Hall by (rewrite <- Forall_concat, concat_chars; by apply Forall_forall).
    rewrite Forall_forall in Hall. by apply Hall. }
  destruct c as [|b c]; [done|]. apply Forall_cons in Hb as [Hb Hc'].
  rewrite (chars_ascii _ _ _ b Hc) by (by left || lia).
  assert (Forall (fun b => is_control [b] = false) (seq 33 94)) as Hall by (repeat (apply Forall_cons; split; [reflexivity|]); apply Forall_nil_2).
  rewrite Forall_forall in Hall. apply Hall, elem_of_seq. lia.
Qed.

Section urls.
Context `{UrlCrate} {ul : UrlLaws _}.
(** What the URL of a normalized text is. *)
Record Normalized (u : Url) : Prop := {
  n_scheme : scheme u = "https"; n_username : username u = ""; n_password : password u = None;
  n_host : validate_public_host (host u) = Ok tt; n_fragment : without_fragment u = u; n_port : port u <> Some 443%Z }.
Lemma normalize_Ok raw s : normalize_public_https_url raw = Ok s -> exists u, s = url_string u /\ Normalized u.
Proof.
  unfold normalize_public_https_url. case_decide; [done|]. destruct (existsb _ _); [done|]. intros Hn.
  apply bind_Ok in Hn as (u & Hu & Hn). case_decide as Hs; [done|].
  destruct (negb _ || _) eqn:Hc; [done|]. apply orb_false_iff in Hc as [Hname%negb_false_iff%bool_decide_eq_true Hpass%bool_decide_eq_false].
  rewrite <- eq_None_not_Some in Hpass. apply bind_Ok in Hn as ([] & Hhost & Hn).
  set (v := without_fragment u) in *. apply bind_Ok in Hn as (w & Hw & [= <-]).
  assert (Hv : scheme v = "https" /\ username v = "" /\ password v = None /\ host v = host u /\ without_fragment v = v).
  { unfold v. by rewrite fragment_scheme, fragment_username, fragment_password, fragment_host, fragment_once. }
  destruct Hv as (Hv1 & Hv2 & Hv3 & Hv4 & Hv5). exists w. split; [done|]. case_decide as Hport.
  - apply ok_or_Ok in Hw. destruct (port_gone _ _ Hw) as (W1 & W2 & W3 & W4 & W5 & W6). split; [congruence..|by rewrite W4, Hv4|by apply W6|by rewrite W5].
  - injection Hw as <-. by split; rewrite ?Hv4.
Qed.
Lemma normalized_again u : Normalized u -> char_count (url_string u) <= MAX_PUBLIC_URL_CHARS ->
  normalize_public_https_url (url_string u) = Ok (url_string u).
Proof.
  intros [N1 N2 N3 N4 N5 N6] Hc. unfold normalize_public_https_url. rewrite decide_False by lia.
  rewrite printable_control by by apply url_printable. rewrite url_reads_back by done. cbn [ok_or mbind outcome_bind].
  rewrite N1, N2, N3. rewrite decide_False by (by intros []). cbn. rewrite N4. cbn. by rewrite N5, decide_False.
Qed.
Definition canonical_url (s : string) : Prop := exists u, s = url_string u /\ Normalized u.
Lemma canonical_again s page : canonical_url s -> normalize_public_https_url s = Ok page -> page = s.
Proof.
  intros (u & -> & Hu) Hn. destruct (decide (char_count (url_string u) <= MAX_PUBLIC_URL_CHARS)) as [Hc|Hc].
  - rewrite normalized_again in Hn by done. by injection Hn as <-.
  - unfold normalize_public_https_url in Hn. by rewrite decide_True in Hn by lia.
Qed.
Lemma validate_public h : (forall a, h = Some (Ipv4 a) -> (0 <= a < 2 ^ 32)%Z) -> (forall a, h = Some (Ipv6 a) -> (0 <= a < 2 ^ 128)%Z) ->
  validate_public_host h = Ok tt <-> public_host h.
Proof.
  intros H4 H6. destruct h as [[d|a|a]|]; cbn [validate_public_host public_host]; [| | |done].
  - set (d' := to_ascii_lowercase _). unfold is_empty. case_bool_decide as Hd; cbn.
    + rewrite Hd. cbn. split; [done|by intros []].
    + destruct (contains_char _ d'), (private_name d'); cbn; naive_solver.
  - rewrite refused_ipv4_exact by by apply H4. unfold outside. rewrite <- existsb_Forall. by destruct (existsb _ _).
  - rewrite refused_ipv6_exact by by apply H6. unfold outside. rewrite <- existsb_Forall. by destruct (existsb _ _).
Qed.
End urls.

(** C39. A URL that leaves the enclave is an HTTPS URL without credentials or
    fragment whose host is public: a name with at least two labels that is not
    reserved for private use, or an address outside every reserved block of IPv4
    and IPv6, the blocks of IPv4 counted wherever IPv6 embeds an address.  It is
    printable, so nothing after it in a text reads as part of it, and it is
    normalized to itself. *)
Theorem normalized_urls_are_public `{UrlCrate} {ul : UrlLaws _} raw s : normalize_public_https_url raw = Ok s ->
  exists u, s = url_string u /\ scheme u = "https" /\ username u = "" /\ password u = None /\ public_host (host u) /\
    without_fragment u = u /\ port u <> Some 443%Z /\ printable s /\
    (char_count s <= MAX_PUBLIC_URL_CHARS -> normalize_public_https_url s = Ok s).
Proof.
  intros (u & -> & Hu)%normalize_Ok. pose proof Hu as [N1 N2 N3 N4 N5 N6]. exists u.
  apply validate_public in N4; [|apply ipv4_range|apply ipv6_range].
  split_and!; try done; [by apply url_printable|by apply normalized_again].
Qed.

(** ** Examples

    HTTPS URLs over the printable characters, and Markdown of plain texts. *)
Definition demo_ok (s : string) : bool := forallb (fun n => (33 <=? n) && (n <=? 126) && negb (n =? 35)) (codes s).
Definition before (c : ascii) (s : string) : string := hd EmptyString (split_char c s).
#[local] Instance demo_url : UrlCrate := {
  Url := { s : string | demo_ok s = true };
  url_parse raw :=
    rest ← strip_prefix "https://" raw;
    match Bool.bool_dec (demo_ok (before "#" rest)) true with left e => Some (exist _ (before "#" rest) e) | right _ => None end;
  url_string u := "https://" +:+ proj1_sig u;
  scheme _ := "https"; username _ := ""; password _ := None;
  host u := Some (Domain (before "/" (proj1_sig u))); port _ := None;
  without_fragment u := u; without_port u := Some u }.
#[local] Instance demo_url_laws : UrlLaws demo_url.
Proof.
  split; try done.
  - intros [s Hs] _ b. change (b ∈ codes ("https://" +:+ s) -> 33 <= b <= 126). unfold demo_ok in Hs. rewrite forallb_forall in Hs. rewrite (codes_app "https://" s), elem_of_app.
    intros [Hb|Hb%list_elem_of_In%Hs].
    + change (b ∈ [104; 116; 116; 112; 115; 58; 47; 47]) in Hb. repeat (apply elem_of_cons in Hb as [->|Hb]; [lia|]). by apply elem_of_nil in Hb.
    + rewrite !andb_true_iff, !Nat.leb_le in Hb. lia.
  - intros [s Hs] _. change ((rest ← strip_prefix "https://" ("https://" +:+ s);
       match Bool.bool_dec (demo_ok (before "#" rest)) true with
       | left e => Some (exist (fun s => demo_ok s = true) (before "#" rest) e) | right _ => None end) = Some (exist (fun s => demo_ok s = true) s Hs)).
    rewrite str_prefix_app. cbn [mbind option_bind].
    assert (before "#" s = s) as ->.
    { unfold before. rewrite split_char_whole; [done|]. unfold demo_ok in Hs. rewrite forallb_forall in Hs. intros Hin%list_elem_of_In%Hs.
      by apply andb_true_iff in Hin as [_ ?]. }
    destruct (Bool.bool_dec _ _) as [e|n]; [|done]. f_equal. by apply (sig_eq_pi (fun s => demo_ok s = true)).
  - intros u u' [= <-]. done.
Qed.
#[local] Instance demo_markdown : Markdown := {
  other := Empty_set;
  markdown_events s := if is_empty s then [] else [TextEvent s];
  cmark events := String.concat "" (omap (fun e => match e with TextEvent s => Some s | _ => None end) events) }.
#[local] Instance demo_markdown_laws : MarkdownLaws demo_markdown.
Proof. by split. Qed.

Lemma normalized_urls_are_public_witness :
  normalize_public_https_url "https://example.com/page#top" = Ok "https://example.com/page" /\
  exists u : Url, "https://example.com/page" = url_string u /\ scheme u = "https" /\ username u = "" /\ password u = None /\ public_host (host u) /\
    without_fragment u = u /\ port u <> Some 443%Z /\ printable "https://example.com/page" /\
    (char_count "https://example.com/page" <= MAX_PUBLIC_URL_CHARS ->
     normalize_public_https_url "https://example.com/page" = Ok "https://example.com/page").
Proof.
  assert (normalize_public_https_url "https://example.com/page#top" = Ok "https://example.com/page") as Hn by (vm_compute; reflexivity).
  split; [exact Hn|]. exact (normalized_urls_are_public "https://example.com/page#top" "https://example.com/page" Hn).
Defined.
End WebSafety.
