(* ===== verification/Kagi.v ===== *)
(** * The Kagi client

    [src/src/kagi.rs]: the requests of the Search and Extract APIs, their
    validation, and the reading of a bounded reply.  What the provider answers is
    a function of the requests it has received; the requests are logged.  A JSON
    document is given with its members as written. *)

From Stdlib Require Import Strings.String.
From S2P Require Import Prelude Text Crypto Json Chars WebSafety.

Module Kagi.
Import Chars WebSafety.

Definition KAGI_API_BASE : string := "https://kagi.com/api/v1/".
Definition SEARCH_RESPONSE_LIMIT_BYTES : Z := 1024 * 1024.
Definition EXTRACT_RESPONSE_LIMIT_BYTES : Z := 5 * 1024 * 1024.
Definition ERROR_MESSAGE_LIMIT_CHARS : nat := 4 * 1024.
Definition MAX_EXTRACT_URLS : nat := 10.
Definition TRACE_ID_LIMIT_CHARS : nat := 128.

Inductive KagiError :=
| InvalidApiKey
| InvalidQuery
| InvalidSearchParameter (field : string)
| InvalidUrlCount (count : nat)
| InvalidUrl (index : nat) (reason : string)
| InvalidBaseUrl
| Request (operation : string)
| ResponseTooLarge (operation : string) (limit_bytes : Z) (trace_id : string)
| ApiStatus (operation : string) (status : Z) (message trace_id : string)
| InvalidResponse (operation message trace_id : string).

(** ** Requests *)
Inductive SearchWorkflow := Search | Images | Videos | News | Podcasts.
Inductive SearchTimeRelative := Day | Week | Month.
Record SearchLens := MkLens {
  sites_included : option (list string); sites_excluded : option (list string);
  keywords_included : option (list string); keywords_excluded : option (list string);
  file_type : option string; time_after : option string; time_before : option string;
  time_relative : option SearchTimeRelative; search_region : option string }.
Record SearchFilters := MkFilters { region : option string; after : option string; before : option string }.
Record SearchOptions := MkOptions {
  query : string; workflow : SearchWorkflow; lens_id : option string; lens : option SearchLens; timeout : option spec_float;
  page : option Z; limit : Z; filters : option SearchFilters; safe_search : bool }.
Definition basic (query : string) : SearchOptions := MkOptions query Search None None None None 10 None true.
(** What is sent: the options with the query trimmed; one to ten pages. *)
Inductive Call :=
| SearchCall (api_key endpoint : string) (request : SearchOptions)
| ExtractCall (api_key endpoint : string) (pages : list string) (timeout : option spec_float).

(** [0.5], [4.0] and [10.0] as [f32]. *)
Definition f32_half : spec_float := S754_finite false 8388608 (-24).
Definition f32_four : spec_float := S754_finite false 8388608 (-21).
Definition f32_ten : spec_float := S754_finite false 10485760 (-20).
Definition in_range (lo hi v : spec_float) : bool := SFleb lo v && SFleb v hi.
Definition is_finite (v : spec_float) : bool := match v with S754_zero _ | S754_finite _ _ _ => true | _ => false end.
Definition bad_timeout (hi : spec_float) (v : option spec_float) : bool :=
  is_some_and (fun v => negb (in_range f32_half hi v) || negb (is_finite v)) v.

Definition validate_search_options (options : SearchOptions) : outcome KagiError unit :=
  if bool_decide (limit options = 0 \/ limit options > 1024)%Z then Err (InvalidSearchParameter "limit")
  else if is_some_and (fun p => negb (zin 1 10 p)) (page options) then Err (InvalidSearchParameter "page")
  else if bad_timeout f32_four (timeout options) then Err (InvalidSearchParameter "timeout")
  else if bool_decide (is_Some (lens_id options)) && bool_decide (is_Some (lens options)) then Err (InvalidSearchParameter "lens")
  else Ok tt.
Section urls.
Context `{UrlCrate}.
Fixpoint normalize_from (index : nat) (urls : list string) : outcome KagiError (list string) :=
  match urls with
  | [] => Ok []
  | raw_url :: urls =>
      url ← map_err (fun error => InvalidUrl index (public_url_error error)) (normalize_public_https_url raw_url);
      (cons url) <$> normalize_from (S index) urls
  end.
Definition normalize_extract_urls (urls : list string) : outcome KagiError (list string) :=
  if bool_decide (urls = []) || bool_decide (MAX_EXTRACT_URLS < length urls) then Err (InvalidUrlCount (length urls))
  else normalize_from 0 urls.
End urls.

(** ** Documents *)
Definition is_trace_char (c : list nat) : bool :=
  match c with
  | [b] => between 48 57 b || between 65 90 b || between 97 122 b || bool_decide (b ∈ codes "-_.:")
  | _ => false
  end.
Definition sanitize_trace_id (value : string) : string :=
  let sanitized := of_codes (concat (take TRACE_ID_LIMIT_CHARS (filter (fun c => is_trace_char c = true) (chars value)))) in
  if is_empty sanitized then "unavailable" else sanitized.

(** [serde_json::Value] keeps the last of the members with one name. *)
Fixpoint canonical (v : Value) : Value :=
  match v with
  | Array l => Array (map canonical l)
  | Object members => Object (fold_left (fun acc nv => match nv with (n, v) => set_member n (canonical v) acc end) members [])
  | v => v
  end.
(** The derived reading of a struct: an object in which no field occurs twice, or
    an array of the first fields. *)
Definition fields (names : list string) (v : Value) : option (list (string * Value)) :=
  match v with
  | Object members =>
      if decide (NoDup (filter (fun nv => nv.1 ∈ names) members).*1) then Some members else None
  | Array l => if decide (length l <= length names) then Some (zip names l) else None
  | _ => None
  end.
Definition field {A} (name : string) (missing : option A) (read : Value -> option A) (members : list (string * Value)) : option A :=
  match member name members with Some v => read v | None => missing end.
Definition read_option {A} (read : Value -> option A) (v : Value) : option (option A) :=
  match v with Null => Some None | v => Some <$> read v end.
(** [deserialize_null_default]. *)
Definition null_default {A} (d : A) (read : Value -> option A) (v : Value) : option A := default d <$> read_option read v.
Definition read_list {A} (read : Value -> option A) (v : Value) : option (list A) := l ← as_array v; mapM read l.
Definition optional_string : Value -> option (option string) := read_option as_str.

Record Meta := MkMeta { trace : option string }.
Record SearchResult := MkResult { r_url : string; r_title : string; r_snippet : option string; r_time : option string }.
Record SearchData := MkData { search : list SearchResult; news : list SearchResult; categories : list (string * list SearchResult) }.
Record SearchResponse := MkSearch { s_meta : Meta; s_data : SearchData }.
Record ExtractPage := MkPage { p_url : string; p_markdown : option string; p_error : option string }.
Record ErrorDetail := MkDetail { e_code : string; e_url : string; e_message : option string; e_location : option string }.
Record ExtractResponse := MkExtract { x_meta : Meta; x_data : list ExtractPage; x_errors : list ErrorDetail }.

Definition read_meta (v : Value) : option Meta :=
  m ← fields ["trace"] v;
  trace ← field "trace" (Some None) (fun v => option_map sanitize_trace_id <$> optional_string v) m;
  Some (MkMeta trace).
Definition read_result (v : Value) : option SearchResult :=
  m ← fields ["url"; "title"; "snippet"; "time"] v;
  url ← field "url" None as_str m;
  title ← field "title" None as_str m;
  snippet ← field "snippet" (Some None) optional_string m;
  time ← field "time" (Some None) optional_string m;
  Some (MkResult url title snippet time).
(** A [BTreeMap], as its entries in the order of their names. *)
Fixpoint btree_insert {A} (name : string) (a : A) (m : list (string * A)) : list (string * A) :=
  match m with
  | [] => [(name, a)]
  | (name', a') :: m' =>
      match String.compare name name' with
      | Lt => (name, a) :: m
      | Eq => (name, a) :: m'
      | Gt => (name', a') :: btree_insert name a m'
      end
  end.
Definition read_category (data : SearchData) (member : string * Value) : SearchData :=
  let '(category, value) := member in
  let results := omap read_result (default [] (as_array value)) in
  if decide (category = "search") then MkData results (news data) (categories data)
  else if decide (category = "news") then MkData (search data) results (categories data)
  else match results with
       | [] => data
       | _ => MkData (search data) (news data) (btree_insert category results (categories data))
       end.
Definition no_data : SearchData := MkData [] [] [].
Definition read_data (v : Value) : option SearchData :=
  object ← as_object (canonical v); Some (foldl read_category no_data object).
Definition into_categories (data : SearchData) : list (string * list SearchResult) :=
  (match search data with [] => [] | l => [("search", l)] end) ++ (match news data with [] => [] | l => [("news", l)] end) ++
  categories data.
Definition read_search_response (v : Value) : option SearchResponse :=
  m ← fields ["meta"; "data"] v;
  meta ← field "meta" (Some (MkMeta None)) (null_default (MkMeta None) read_meta) m;
  data ← field "data" (Some no_data) (null_default no_data read_data) m;
  Some (MkSearch meta data).
Definition read_page (v : Value) : option ExtractPage :=
  m ← fields ["url"; "markdown"; "error"] v;
  url ← field "url" None as_str m;
  markdown ← field "markdown" (Some None) optional_string m;
  error ← field "error" (Some None) optional_string m;
  Some (MkPage url markdown error).
Definition read_detail (v : Value) : option ErrorDetail :=
  m ← fields ["code"; "url"; "message"; "location"] v;
  code ← field "code" (Some "") as_str m;
  url ← field "url" (Some "") as_str m;
  message ← field "message" (Some None) optional_string m;
  location ← field "location" (Some None) optional_string m;
  Some (MkDetail code url message location).
Definition read_extract_response (v : Value) : option ExtractResponse :=
  m ← fields ["meta"; "data"; "errors"; "error"] v;
  meta ← field "meta" (Some (MkMeta None)) (null_default (MkMeta None) read_meta) m;
  data ← field "data" (Some []) (null_default [] (read_list read_page)) m;
  errors ← field "errors" (Some []) (null_default [] (read_list read_detail)) m;
  error ← field "error" (Some []) (null_default [] (read_list read_detail)) m;
  Some (MkExtract meta data (errors ++ error)).

Fixpoint collect_error_messages (value : Value) : list string :=
  match value with
  | Str message => [message]
  | Array errors => concat (map collect_error_messages errors)
  | Object error =>
      match member "code" error ≫= as_str, member "message" error ≫= as_str with
      | Some code, Some message => [code +:+ ": " +:+ message]
      | Some code, None => [code]
      | None, Some message => [message]
      | None, None => []
      end
  | _ => []
  end.
Definition collect_optional (value : option Value) : list string := default [] (collect_error_messages <$> value).
Definition truncate_message (value : string) (max_chars : nat) : string :=
  if decide (max_chars < length (chars value)) then take_chars max_chars value +:+ "..." else take_chars max_chars value.

(** The reading of a text as a document, and the error when it cannot be read. *)
Class KagiJson := {
  document : bytes -> option Value;
  decode_error : bytes -> string }.

(** ** Replies *)
Record Reply := MkReply {
  status : Z; trace_header : option string; content_length : option Z;
  chunks : list bytes; broken : bool }.

Section replies.
Context `{KagiJson}.
Definition trace_from_body (body : bytes) : option string :=
  v ← document body; meta ← get "meta" (canonical v); trace ← get "trace" meta; sanitize_trace_id <$> as_str trace.
Definition api_error_message (body : bytes) : string :=
  let parsed : option Value := canonical <$> document body in
  let messages := collect_optional (v ← parsed; get "error" v) ++ collect_optional (v ← parsed; get "errors" v) in
  let messages := match messages with [] => option_list (v ← parsed; m ← get "message" v; as_str m) | _ => messages end in
  let message :=
    match messages with
    | [] => let text := trim (from_utf8_lossy body) in if is_empty text then "empty error response" else text
    | _ => join "; " messages
    end in
  truncate_message message ERROR_MESSAGE_LIMIT_CHARS.

Definition unavailable (trace : option string) : string := default "unavailable" trace.
Fixpoint read_chunks (operation : string) (response_limit : Z) (trace : option string) (broken : bool) (body : bytes)
    (chunks : list bytes) : outcome KagiError bytes :=
  match chunks with
  | [] => if broken then Err (Request operation) else Ok body
  | chunk :: chunks =>
      if decide (response_limit < Z.of_nat (length body + length chunk))%Z
      then Err (ResponseTooLarge operation response_limit (unavailable trace))
      else read_chunks operation response_limit trace broken (body ++ chunk) chunks
  end.
Definition read_bounded_body (response : Reply) (operation : string) (response_limit : Z) (trace : option string) : outcome KagiError bytes :=
  if is_some_and (fun length => bool_decide (response_limit < length)%Z) (content_length response)
  then Err (ResponseTooLarge operation response_limit (unavailable trace))
  else read_chunks operation response_limit trace (broken response) [] (chunks response).
Definition parse_response {T} (read : Value -> option T) (response : Reply) (operation : string) (response_limit : Z) : outcome KagiError T :=
  let header_trace := sanitize_trace_id <$> trace_header response in
  body ← read_bounded_body response operation response_limit header_trace;
  let trace_id := match trace_from_body body with Some t => t | None => unavailable header_trace end in
  if negb (zin 200 299 (status response)) then Err (ApiStatus operation (status response) (api_error_message body) trace_id)
  else match document body ≫= read with
       | Some v => Ok v
       | None => Err (InvalidResponse operation (decode_error body) trace_id)
       end.

(** ** The client

    A reply, or no reply at all, is a function of the requests sent before. *)
Record KagiClient := MkClient { api_key : string; base_url : string }.
Definition new (key : string) : outcome KagiError KagiClient :=
  let key := trim key in if is_empty key then Err InvalidApiKey else Ok (MkClient key KAGI_API_BASE).
Definition Network : Type := list Call -> Call -> option Reply.
Definition Log (E A : Type) : Type := ST (list Call) E A.
Definition send_json (net : Network) (operation : string) (payload : Call) : Log KagiError Reply := fun log =>
  (ok_or (Request operation) (net log payload), log ++ [payload]).

Context `{UrlCrate}.
Definition search_with_options (net : Network) (self : KagiClient) (options : SearchOptions) : Log KagiError SearchResponse :=
  let query := trim (query options) in
  if is_empty query then st_err InvalidQuery
  else
    _ ← st_lift (validate_search_options options);
    let request := MkOptions query (workflow options) (lens_id options) (lens options) (timeout options) (page options) (limit options)
                     (filters options) (safe_search options) in
    response ← send_json net "search" (SearchCall (api_key self) (base_url self +:+ "search") request);
    st_lift (parse_response read_search_response response "search" SEARCH_RESPONSE_LIMIT_BYTES).
Definition client_search (net : Network) (self : KagiClient) (query : string) : Log KagiError SearchResponse :=
  search_with_options net self (basic query).
Definition extract_with_timeout (net : Network) (self : KagiClient) (urls : list string) (timeout : option spec_float)
    : Log KagiError ExtractResponse :=
  urls ← st_lift (normalize_extract_urls urls);
  if bad_timeout f32_ten timeout then st_err (InvalidSearchParameter "extract.timeout")
  else
    response ← send_json net "extract" (ExtractCall (api_key self) (base_url self +:+ "extract") urls timeout);
    st_lift (parse_response read_extract_response response "extract" EXTRACT_RESPONSE_LIMIT_BYTES).
Definition extract (net : Network) (self : KagiClient) (urls : list string) : Log KagiError ExtractResponse :=
  extract_with_timeout net self urls None.
End replies.

(** ** What a call sends *)
Section sends.
Context `{KagiJson} `{UrlCrate} (net : Network) (self : KagiClient).
Lemma normalize_from_Ok index urls pages : normalize_from index urls = Ok pages ->
  Forall2 (fun raw page => normalize_public_https_url raw = Ok page) urls pages.
Proof.
  revert index pages. induction urls as [|raw urls IH]; intros index pages; cbn; [by intros [= <-]|].
  intros Hn. inv_ok. constructor; [done|]. by eapply IH.
Qed.
Lemma search_sends options log r log' : search_with_options net self options log = (r, log') ->
  log' = log /\ (forall v, r <> Ok v) \/
  exists request, let call := SearchCall (api_key self) (base_url self +:+ "search") request in
    log' = log ++ [call] /\ query request = trim (query options) /\ query request <> "" /\ limit request = limit options /\
    forall v, r = Ok v -> exists reply, net log call = Some reply /\ parse_response read_search_response reply "search" SEARCH_RESPONSE_LIMIT_BYTES = Ok v.
Proof.
  unfold search_with_options. destruct (is_empty _) eqn:He; [intros [= <- <-]; by left|]. apply bool_decide_eq_false in He. unfold mbind, ST_bind, st_lift at 1.
  destruct (validate_search_options options) as [[]|e|]; [|intros [= <- <-]; by left..]. unfold send_json.
  set (request := MkOptions _ _ _ _ _ _ _ _ _). intros Hr. right. exists request.
  destruct (net log _) as [reply|]; cbn in Hr; injection Hr as <- <-; split_and!; try done. intros v Hv. by exists reply.
Qed.
Lemma extract_sends urls timeout log r log' : extract_with_timeout net self urls timeout log = (r, log') ->
  log' = log /\ (forall v, r <> Ok v) \/
  exists pages, log' = log ++ [ExtractCall (api_key self) (base_url self +:+ "extract") pages timeout] /\
    Forall2 (fun raw page => normalize_public_https_url raw = Ok page) urls pages /\ 1 <= length urls <= MAX_EXTRACT_URLS.
Proof.
  unfold extract_with_timeout, mbind, ST_bind, st_lift at 1. destruct (normalize_extract_urls urls) as [pages|e|] eqn:Hn;
    [|intros [= <- <-]; by left..].
  destruct (bad_timeout _ _); [intros [= <- <-]; by left|]. intros Hr. right. exists pages.
  unfold normalize_extract_urls in Hn. destruct (bool_decide (urls = []) || _) eqn:Hc; [done|]. apply orb_false_iff in Hc as [Hc1 Hc2].
  apply bool_decide_eq_false in Hc1, Hc2. split_and!; [|by eapply normalize_from_Ok|destruct urls; [done|cbn; lia]|lia].
  unfold send_json in Hr. by destruct (net log _); cbn in Hr; injection Hr as _ <-.
Qed.
End sends.

End Kagi.
