(* ===== verification/WebRoutes.v ===== *)
(** * The web search and extraction routes

    [src/src/web/web_routes.rs]: the reading and validation of a request, paid
    access, and the answer made of the provider's.  Bodies arrive decrypted; parsing
    a date is a parameter. *)

From S2P Require Import Prelude Text Crypto Json Api Chars WebSafety Kagi Billing.

Module WebRoutes.
Import Chars WebSafety Kagi.

Definition MAX_QUERY_CHARS : nat := 512.
Definition DEFAULT_SEARCH_LIMIT : Z := 10.
Definition MAX_SEARCH_LIMIT : Z := 50.
Definition MAX_LENS_ID_CHARS : nat := 2048.
Definition MAX_LENS_LIST_ITEMS : nat := 50.
Definition MAX_LENS_VALUE_CHARS : nat := 256.
Definition MAX_FILE_TYPE_CHARS : nat := 32.
Definition MAX_CATEGORY_CHARS : nat := 64.
Definition MAX_TITLE_CHARS : nat := 300.
Definition MAX_SNIPPET_CHARS : nat := 800.
Definition MAX_PUBLISHED_AT_CHARS : nat := 100.
Definition WEB_BILLING_CHECK_TIMEOUT : Z := secs 5.

(** ** Requests and answers *)
Record WebSearchRequest := MkSearchRequest {
  w_query : string; w_workflow : option SearchWorkflow; w_page : option Z; w_limit : option Z; w_safe_search : option bool;
  w_timeout : option spec_float; w_lens_id : option string; w_lens : option SearchLens; w_filters : option SearchFilters }.
Record WebSearchResult := MkWebResult {
  wr_category : string; wr_url : string; wr_title : string; wr_snippet : option string; wr_published_at : option string }.
Record WebSearchResponse := MkWebResponse { ws_trace_id : option string; ws_results : list WebSearchResult }.
Record WebExtractRequest := MkExtractRequest { wx_urls : list string; wx_timeout : option spec_float }.
Record WebExtractPageError := MkPageError { pe_code : string; pe_message : string }.
Record WebExtractPage := MkWebPage { wp_url : string; wp_markdown : option string; wp_error : option WebExtractPageError }.
Record WebExtractResponse := MkWebExtract { we_trace_id : option string; we_pages : list WebExtractPage }.
Inductive WebRouteError := InvalidRequest | ProviderUnavailable (trace_id : option string) | ApiErr (e : Api.ApiError).
Record WebErrorBody := MkErrorBody { b_status : Z; b_code : string; b_message : string; b_trace_id : option string }.
Definition into_response (e : WebRouteError) : WebErrorBody + (Z * Api.ErrorResponse) :=
  match e with
  | InvalidRequest => inl (MkErrorBody 422 "invalid_request" "The web request is invalid." None)
  | ProviderUnavailable trace_id =>
      inl (MkErrorBody 503 "web_provider_unavailable" "The web provider is temporarily unavailable." trace_id)
  | ApiErr e => inr (Api.into_response e)
  end.

(** ** Reading a body

    A unit variant is its name, or an object of its name and [null]; unknown fields
    are refused. *)
Definition variant (v : Value) : option string :=
  match v with Str s => Some s | Object [(name, Null)] => Some name | _ => None end.
Definition read_workflow (v : Value) : option SearchWorkflow :=
  s ← variant v;
  if decide (s = "search") then Some Search else if decide (s = "images") then Some Images else if decide (s = "videos") then Some Videos
  else if decide (s = "news") then Some News else if decide (s = "podcasts") then Some Podcasts else None.
Definition read_time_relative (v : Value) : option SearchTimeRelative :=
  s ← variant v;
  if decide (s = "day") then Some Day else if decide (s = "week") then Some Week else if decide (s = "month") then Some Month else None.
Definition read_uint (max : Z) (v : Value) : option Z :=
  match v with Number (NInt z) => if decide (0 <= z <= max)%Z then Some z else None | _ => None end.
(** A JSON number as [f32], to the nearest. *)
Definition read_f32 (v : Value) : option spec_float :=
  match v with
  | Number (NInt z) => Some (binary_normalize 24 128 z 0 false)
  | Number (NFloat (S754_finite s m e)) => Some (binary_normalize 24 128 (if s then Zneg m else Zpos m) e s)
  | Number (NFloat f) => Some f
  | _ => None
  end.
Definition known_fields (names : list string) (v : Value) : option (list (string * Value)) :=
  m ← fields names v; if decide (Forall (fun nv => nv.1 ∈ names) m) then Some m else None.
Definition optional {A} (name : string) (read : Value -> option A) (m : list (string * Value)) : option (option A) :=
  field name (Some None) (read_option read) m.
Definition strings : Value -> option (list string) := read_list as_str.
Definition read_lens (v : Value) : option SearchLens :=
  m ← known_fields ["sites_included"; "sites_excluded"; "keywords_included"; "keywords_excluded"; "file_type"; "time_after"; "time_before";
                    "time_relative"; "search_region"] v;
  sites_included ← optional "sites_included" strings m;
  sites_excluded ← optional "sites_excluded" strings m;
  keywords_included ← optional "keywords_included" strings m;
  keywords_excluded ← optional "keywords_excluded" strings m;
  file_type ← optional "file_type" as_str m;
  time_after ← optional "time_after" as_str m;
  time_before ← optional "time_before" as_str m;
  time_relative ← optional "time_relative" read_time_relative m;
  search_region ← optional "search_region" as_str m;
  Some (MkLens sites_included sites_excluded keywords_included keywords_excluded file_type time_after time_before time_relative search_region).
Definition read_filters (v : Value) : option SearchFilters :=
  m ← known_fields ["region"; "after"; "before"] v;
  region ← optional "region" as_str m;
  after ← optional "after" as_str m;
  before ← optional "before" as_str m;
  Some (MkFilters region after before).
Definition read_search_request (v : Value) : option WebSearchRequest :=
  m ← known_fields ["query"; "workflow"; "page"; "limit"; "safe_search"; "timeout"; "lens_id"; "lens"; "filters"] v;
  query ← field "query" None as_str m;
  workflow ← optional "workflow" read_workflow m;
  page ← optional "page" (read_uint 255) m;
  limit ← optional "limit" (read_uint 65535) m;
  safe_search ← optional "safe_search" as_bool m;
  timeout ← optional "timeout" read_f32 m;
  lens_id ← optional "lens_id" as_str m;
  lens ← optional "lens" read_lens m;
  filters ← optional "filters" read_filters m;
  Some (MkSearchRequest query workflow page limit safe_search timeout lens_id lens filters).
Definition read_extract_request (v : Value) : option WebExtractRequest :=
  m ← known_fields ["urls"; "timeout"] v;
  urls ← field "urls" None strings m;
  timeout ← optional "timeout" read_f32 m;
  Some (MkExtractRequest urls timeout).

(** ** Paid access *)
Inductive AppMode := Local | Dev | Preview | Prod | Custom (name : string).
Inductive PaidWebAccess := BillingUnavailable | Paid | Free | CheckFailed.
Definition is_local (m : AppMode) : bool := match m with Local => true | _ => false end.
Definition paid_web_access_decision (app_mode : AppMode) (is_guest : bool) (access : PaidWebAccess) : outcome Api.ApiError unit :=
  match access with
  | Paid => Ok tt
  | BillingUnavailable =>
      if is_local app_mode && negb is_guest then Ok tt else if is_local app_mode then Err Api.Unauthorized else Err Api.ServiceUnavailable
  | Free => Err Api.UsageLimitReached
  | CheckFailed => Err Api.ServiceUnavailable
  end.
(** The lookup of the user's usage, if billing is configured, under its timeout. *)
Definition paid_access (billing_client : option Billing.Lookup) : PaidWebAccess :=
  match billing_client with
  | None => BillingUnavailable
  | Some lookup =>
      match Billing.await lookup with
      | Some (t, Ok usage) =>
          if decide (t <= WEB_BILLING_CHECK_TIMEOUT)%Z then if Billing.paid_feature_access usage then Paid else Free else CheckFailed
      | _ => CheckFailed
      end
  end.
Record AppState := MkAppState { kagi_client : option KagiClient; billing_client : option Billing.Lookup; app_mode : AppMode }.
Definition ensure_paid_web_access (state : AppState) (is_guest : bool) : outcome Api.ApiError unit :=
  paid_web_access_decision (app_mode state) is_guest (paid_access (billing_client state)).

(** ** Validation *)
Definition refuse_if (b : bool) : outcome WebRouteError unit := if b then Err InvalidRequest else Ok tt.
Definition validate_bounded_text (value : string) (max_chars : nat) : outcome WebRouteError unit :=
  refuse_if (is_empty (trim value) || bool_decide (max_chars < char_count value) || existsb is_control (chars value)).
Fixpoint validate_texts (values : list string) (max_chars : nat) : outcome WebRouteError unit :=
  match values with [] => Ok tt | value :: values => _ ← validate_bounded_text value max_chars; validate_texts values max_chars end.
Definition validate_bounded_list (values : option (list string)) : outcome WebRouteError unit :=
  match values with
  | None => Ok tt
  | Some values =>
      _ ← refuse_if (bool_decide (values = []) || bool_decide (MAX_LENS_LIST_ITEMS < length values));
      validate_texts values MAX_LENS_VALUE_CHARS
  end.
Definition ascii_alphabetic (n : nat) : bool := between 65 90 n || between 97 122 n.
Definition ascii_alphanumeric (n : nat) : bool := ascii_alphabetic n || between 48 57 n.
Definition validate_region (region : string) (allow_no_region : bool) : outcome WebRouteError unit :=
  if allow_no_region && bool_decide (region = "no_region") then Ok tt
  else refuse_if (bool_decide (str_len region <> 2) || negb (forallb ascii_alphabetic (codes region))).
Definition on_some {A} (o : option A) (f : A -> outcome WebRouteError unit) : outcome WebRouteError unit :=
  match o with Some a => f a | None => Ok tt end.

Class Dates := { parse_date : string -> option Z }.
Section routes.
Context `{UrlCrate} `{md : Markdown} `{KagiJson} `{Dates}.
Definition optional_date (value : option string) : outcome WebRouteError (option Z) :=
  match value with Some value => d ← ok_or InvalidRequest (parse_date value); Ok (Some d) | None => Ok None end.
Definition validate_date_range (after before : option string) : outcome WebRouteError unit :=
  after ← optional_date after;
  before ← optional_date before;
  match after, before with Some after, Some before => refuse_if (bool_decide (before < after)%Z) | _, _ => Ok tt end.
Definition validate_lens (lens : SearchLens) : outcome WebRouteError unit :=
  _ ← validate_bounded_list (sites_included lens);
  _ ← validate_bounded_list (sites_excluded lens);
  _ ← validate_bounded_list (keywords_included lens);
  _ ← validate_bounded_list (keywords_excluded lens);
  _ ← on_some (file_type lens) (fun file_type =>
        _ ← validate_bounded_text file_type MAX_FILE_TYPE_CHARS;
        refuse_if (negb (forallb (fun n => ascii_alphanumeric n || bool_decide (n = 45 \/ n = 95)) (codes file_type))));
  _ ← validate_date_range (time_after lens) (time_before lens);
  on_some (search_region lens) (fun region => validate_region region true).
Definition validate_filters (filters : SearchFilters) : outcome WebRouteError unit :=
  _ ← on_some (region filters) (fun region => validate_region region false);
  validate_date_range (after filters) (before filters).
Definition present {A} (o : option A) : bool := bool_decide (is_Some o).
Definition validate_search_request (request : WebSearchRequest) : outcome WebRouteError SearchOptions :=
  let query := trim (w_query request) in
  _ ← refuse_if (is_empty query || bool_decide (MAX_QUERY_CHARS < char_count query));
  _ ← refuse_if (is_some_and (fun page => negb (zin 1 10 page)) (w_page request));
  let limit := default DEFAULT_SEARCH_LIMIT (w_limit request) in
  _ ← refuse_if (negb (zin 1 MAX_SEARCH_LIMIT limit));
  _ ← refuse_if (bad_timeout f32_four (w_timeout request));
  _ ← refuse_if (present (w_lens_id request) && present (w_lens request));
  _ ← on_some (w_lens_id request) (fun lens_id => validate_bounded_text lens_id MAX_LENS_ID_CHARS);
  _ ← on_some (w_lens request) validate_lens;
  _ ← on_some (w_filters request) validate_filters;
  let relative_time := present (w_lens request ≫= time_relative) in
  let absolute_time :=
    is_some_and (fun lens => present (time_after lens) || present (time_before lens)) (w_lens request) ||
    is_some_and (fun filters => present (after filters) || present (before filters)) (w_filters request) in
  _ ← refuse_if (relative_time && absolute_time);
  Ok (MkOptions query (default Search (w_workflow request)) (w_lens_id request) (w_lens request) (w_timeout request) (w_page request) limit
        (w_filters request) (default true (w_safe_search request))).
Fixpoint distinct_urls (raw_urls urls : list string) : outcome WebRouteError (list string) :=
  match raw_urls with
  | [] => Ok urls
  | raw_url :: raw_urls =>
      url ← map_err (fun _ => InvalidRequest) (normalize_public_https_url raw_url);
      if decide (url ∈ urls) then Err InvalidRequest else distinct_urls raw_urls (urls ++ [url])
  end.
Definition validate_extract_request (request : WebExtractRequest) : outcome WebRouteError (list string * option spec_float) :=
  _ ← refuse_if (bool_decide (wx_urls request = []) || bool_decide (MAX_EXTRACT_URLS < length (wx_urls request)));
  _ ← refuse_if (bad_timeout f32_ten (wx_timeout request));
  urls ← distinct_urls (wx_urls request) [];
  Ok (urls, wx_timeout request).

(** ** Answers *)
Definition meaningful_trace_id (trace_id : option string) : option string :=
  t ← sanitize_trace_id <$> trace_id; if decide (t = "unavailable") then None else Some t.
Definition map_kagi_error (error : KagiError) : WebRouteError :=
  let trace_id :=
    match error with
    | ApiStatus _ _ _ trace_id | ResponseTooLarge _ _ trace_id | InvalidResponse _ _ trace_id => meaningful_trace_id (Some trace_id)
    | _ => None
    end in
  match error with
  | InvalidQuery | InvalidSearchParameter _ | InvalidUrlCount _ | InvalidUrl _ _ => InvalidRequest
  | ApiStatus _ status _ _ => if bool_decide (status = 400 \/ status = 422)%Z then InvalidRequest else ProviderUnavailable trace_id
  | _ => ProviderUnavailable trace_id
  end.
Definition is_category_char (c : list nat) : bool :=
  match c with [b] => ascii_alphanumeric b || bool_decide (b = 95 \/ b = 45) | _ => false end.
Definition sanitize_category (category : string) : string :=
  let category := of_codes (concat (take MAX_CATEGORY_CHARS (filter (fun c => is_category_char c = true) (chars category)))) in
  if is_empty category then "other" else category.
Definition nonempty_text (o : option string) (max_chars : nat) : option string :=
  value ← o; let value := compact_untrusted_markdown value max_chars in if is_empty value then None else Some value.
Definition web_result (category url : string) (result : SearchResult) : WebSearchResult :=
  let title := compact_untrusted_markdown (r_title result) MAX_TITLE_CHARS in
  MkWebResult category url (if is_empty title then "Untitled result" else title)
    (nonempty_text (r_snippet result) MAX_SNIPPET_CHARS) (nonempty_text (r_time result) MAX_PUBLISHED_AT_CHARS).
(** Each result with the category it came in. *)
Definition by_category (categories : list (string * list SearchResult)) : list (string * SearchResult) :=
  '(category, results) ← categories; pair (sanitize_category category) <$> results.
Fixpoint collect_results (result_limit : nat) (found : list (string * SearchResult)) (results : list WebSearchResult) : list WebSearchResult :=
  match found with
  | [] => results
  | (category, result) :: found =>
      if decide (result_limit <= length results) then results
      else match normalize_public_https_url (r_url result) with
           | Ok url =>
               if decide (url ∈ wr_url <$> results) then collect_results result_limit found results
               else collect_results result_limit found (results ++ [web_result category url result])
           | _ => collect_results result_limit found results
           end
  end.
Definition execute_search (net : Network) (client : KagiClient) (options : SearchOptions) : Log WebRouteError WebSearchResponse := fun log =>
  let '(r, log) := search_with_options net client options log in
  (response ← map_err map_kagi_error r;
   Ok (MkWebResponse (meaningful_trace_id (trace (s_meta response)))
         (collect_results (Z.to_nat (limit options)) (by_category (into_categories (s_data response))) [])), log).

(** [str::parse::<usize>], a leading plus allowed. *)
Fixpoint digits_value (acc : Z) (l : list nat) : option Z :=
  match l with
  | [] => Some acc
  | b :: l => if between 48 57 b then let acc := (acc * 10 + Z.of_nat (b - 48))%Z in if decide (acc <= usize_max)%Z then digits_value acc l else None else None
  end.
Definition parse_usize (s : string) : option Z :=
  let l := codes (default s (strip_prefix "+" s)) in match l with [] => None | _ => digits_value 0 l end.
Definition parse_page_location (location : string) : option Z :=
  suffix ← strip_prefix "pages[" location;
  '(index, rest) ← split_once "]" suffix;
  if decide (rest ∈ [""; ".url"]) then parse_usize index else None.
Definition extraction_error_indices (response : ExtractResponse) : list Z :=
  omap (fun error => location ← e_location error; parse_page_location location) (x_errors response).
Definition failed_page (url code message : string) : WebExtractPage := MkWebPage url None (Some (MkPageError code message)).
Definition format_extract_page (url : string) (page : option ExtractPage) (diagnostic_failure : bool) : WebExtractPage :=
  match page with
  | None => failed_page url "missing_result" "No extraction result was returned."
  | Some page =>
      if is_some_and (fun error => negb (is_empty (trim error))) (p_error page) || diagnostic_failure then
        failed_page url "extraction_failed" "The page could not be extracted."
      else match p_markdown page with
           | None => failed_page url "no_content" "No textual page content was returned."
           | Some markdown =>
               let sanitized := strip_image_embeds markdown in
               if is_empty (trim sanitized) then failed_page url "no_content" "No textual page content was returned."
               else MkWebPage url (Some sanitized) None
           end
  end.
(** The first page whose normalized URL is the one asked for. *)
Definition has_url (url : string) (page : ExtractPage) : bool :=
  match normalize_public_https_url (p_url page) with Ok u => bool_decide (u = url) | _ => false end.
Definition page_for (data : list ExtractPage) (url : string) : option ExtractPage :=
  snd <$> list_find (fun page => has_url url page = true) data.
Definition format_extract_response (urls : list string) (response : ExtractResponse) : WebExtractResponse :=
  let failed_indices := extraction_error_indices response in
  MkWebExtract (meaningful_trace_id (trace (x_meta response)))
    (imap (fun index url => format_extract_page url (page_for (x_data response) url) (bool_decide (Z.of_nat index ∈ failed_indices))) urls).
Definition execute_extract (net : Network) (client : KagiClient) (urls : list string) (timeout : option spec_float)
    : Log WebRouteError WebExtractResponse := fun log =>
  let '(r, log) := extract_with_timeout net client urls timeout log in
  (response ← map_err map_kagi_error r; Ok (format_extract_response urls response), log).

(** ** The routes *)
Definition search_web (net : Network) (state : AppState) (is_guest : bool) (body : Value) : Log WebRouteError WebSearchResponse :=
  request ← st_lift (ok_or InvalidRequest (read_search_request body));
  options ← st_lift (validate_search_request request);
  client ← st_lift (ok_or (ProviderUnavailable None) (kagi_client state));
  _ ← st_lift (map_err ApiErr (ensure_paid_web_access state is_guest));
  execute_search net client options.
Definition extract_web (net : Network) (state : AppState) (is_guest : bool) (body : Value) : Log WebRouteError WebExtractResponse :=
  request ← st_lift (ok_or InvalidRequest (read_extract_request body));
  '(urls, timeout) ← st_lift (validate_extract_request request);
  client ← st_lift (ok_or (ProviderUnavailable None) (kagi_client state));
  _ ← st_lift (map_err ApiErr (ensure_paid_web_access state is_guest));
  execute_extract net client urls timeout.

(** Either route, and what it answers. *)
Inductive WebRequest := SearchWeb (body : Value) | ExtractWeb (body : Value).
Definition serve (net : Network) (state : AppState) (is_guest : bool) (q : WebRequest) : Log WebRouteError (WebSearchResponse + WebExtractResponse) :=
  match q with
  | SearchWeb body => r ← search_web net state is_guest body; st_ok (inl r)
  | ExtractWeb body => r ← extract_web net state is_guest body; st_ok (inr r)
  end.
End routes.

(** ** What may be asked, and what is answered *)
Lemma trim_codes_suffix fuel ps l : exists p, l = p ++ trim_codes fuel ps l.
Proof.
  revert l. induction fuel as [|fuel IH]; intros l; cbn; [by exists []|]. destruct (strip_any ps l) as [l'|] eqn:Hs; [|by exists []].
  assert (exists p, l = p ++ l') as [p ->].
  { clear IH. induction ps as [|q ps IHp]; cbn in Hs; [done|]. destruct (strip_nat_prefix q l) as [l0|] eqn:Hq; [|by apply IHp].
    injection Hs as <-. exists q. clear IHp. revert l Hq. induction q as [|a q IHq]; intros l Hq; cbn in Hq; [by injection Hq as ->|].
    destruct l as [|b l]; [done|]. case_decide; [subst|done]. cbn. f_equal. by apply IHq. }
  destruct (IH l') as [p' Hp']. exists (p ++ p'). by rewrite <- app_assoc, <- Hp'.
Qed.
Lemma trim_start_suffix s : exists p, codes s = p ++ codes (trim_start s).
Proof.
  unfold trim_start. destruct (trim_codes_suffix (str_len s) whitespace (codes s)) as [p Hp]. exists p.
  rewrite of_codes_codes; [done|]. pose proof (codes_below s) as Hb. rewrite Hp in Hb. by apply Forall_app in Hb as [_ ?].
Qed.
Lemma trim_end_prefix s : exists p, codes s = codes (trim_end s) ++ p.
Proof.
  unfold trim_end. destruct (trim_codes_suffix (str_len s) (reverse <$> whitespace) (reverse (codes s))) as [p Hp]. exists (reverse p).
  set (t := trim_codes _ _ _) in *. assert (codes s = reverse t ++ reverse p) as Heq by (by rewrite <- reverse_app, <- Hp, reverse_involutive).
  rewrite of_codes_codes; [done|]. pose proof (codes_below s) as Hb. rewrite Heq in Hb. by apply Forall_app in Hb as [? _].
Qed.
Lemma char_count_trim s : char_count (trim s) <= char_count s.
Proof.
  unfold trim. destruct (trim_start_suffix s) as [p Hp]. destruct (trim_end_prefix (trim_start s)) as [p' Hp'].
  change (leading (codes (trim_end (trim_start s))) <= leading (codes s)). rewrite Hp, Hp', !leading_app. lia.
Qed.

Section served.
Context `{UrlCrate} {ul : UrlLaws _} `{md : Markdown} {ml : MarkdownLaws md} `{KagiJson} `{Dates} (net : Network) (state : AppState) (is_guest : bool).
(** A plan that is paid and not used up, answered in time; or a developer's own
    server without billing. *)
Definition pays : Prop :=
  (exists lookup t usage, billing_client state = Some lookup /\ Billing.answers_at lookup = Some t /\ (t <= WEB_BILLING_CHECK_TIMEOUT)%Z /\
     Billing.answer lookup = Ok usage /\ Billing.can_use usage = true /\ Billing.is_free usage = false) \/
  (billing_client state = None /\ app_mode state = Local /\ is_guest = false).
Lemma entitled_pays : ensure_paid_web_access state is_guest = Ok tt -> pays.
Proof.
  unfold ensure_paid_web_access, paid_access, pays. destruct (billing_client state) as [lookup|].
  - unfold Billing.await. destruct (Billing.answers_at lookup) as [t|] eqn:Ht; [|done]. cbn. destruct (Billing.answer lookup) as [usage|e|] eqn:Ha; try done.
    case_decide; [|done]. unfold Billing.paid_feature_access. destruct (Billing.is_free usage) eqn:Hf, (Billing.can_use usage) eqn:Hu; try done.
    intros _. left. by exists lookup, t, usage.
  - cbn. destruct (app_mode state), is_guest; try done. intros _. by right.
Qed.
Definition public_page (s : string) : Prop :=
  exists u, s = url_string u /\ scheme u = "https" /\ username u = "" /\ password u = None /\ public_host (host u).
Lemma normalized_public raw s : normalize_public_https_url raw = Ok s -> public_page s.
Proof.
  intros (u & -> & [N1 N2 N3 N4 N5 N6])%normalize_Ok. exists u. split_and!; try done.
  apply validate_public in N4; [done|apply ipv4_range|apply ipv6_range].
Qed.
Definition bounded_call (client : KagiClient) (call : Call) : Prop :=
  match call with
  | SearchCall key endpoint request =>
      key = api_key client /\ endpoint = base_url client +:+ "search" /\ query request <> "" /\ char_count (query request) <= MAX_QUERY_CHARS /\
      (1 <= limit request <= MAX_SEARCH_LIMIT)%Z
  | ExtractCall key endpoint pages _ =>
      key = api_key client /\ endpoint = base_url client +:+ "extract" /\ 1 <= length pages <= MAX_EXTRACT_URLS /\ Forall public_page pages
  end.

Lemma refuse_Ok b : refuse_if b = Ok tt -> b = false.
Proof. by destruct b. Qed.
Lemma validated_search request options : validate_search_request request = Ok options ->
  query options <> "" /\ char_count (query options) <= MAX_QUERY_CHARS /\ (1 <= limit options <= MAX_SEARCH_LIMIT)%Z.
Proof.
  unfold validate_search_request. intros Hv. apply bind_Ok in Hv as ([] & Hq%refuse_Ok & Hv). apply bind_Ok in Hv as ([] & _ & Hv).
  apply bind_Ok in Hv as ([] & Hl%refuse_Ok & Hv). repeat (apply bind_Ok in Hv as ([] & _ & Hv)). injection Hv as <-. cbn [query limit].
  apply orb_false_iff in Hq as [Hq1%bool_decide_eq_false Hq2%bool_decide_eq_false].
  apply negb_false_iff in Hl. unfold zin in Hl. apply andb_true_iff in Hl as [Hl1%Z.leb_le Hl2%Z.leb_le]. split_and!; [done|lia|lia|lia].
Qed.
Lemma distinct_urls_Ok raw_urls urls l : distinct_urls raw_urls urls = Ok l -> NoDup urls ->
  NoDup l /\ length l = length urls + length raw_urls.
Proof.
  revert urls. induction raw_urls as [|raw raw_urls IH]; intros urls; cbn [distinct_urls].
  { intros [= <-] Hd. split; [done|cbn; lia]. }
  intros Ho Hd. apply bind_Ok in Ho as (url & _ & Ho). case_decide; [done|]. apply IH in Ho as [Ho1 Ho2].
  - split; [done|]. rewrite Ho2, length_app. cbn. lia.
  - apply NoDup_app. split_and!; [done| |apply NoDup_singleton]. by intros u Hu ->%list_elem_of_singleton.
Qed.
Lemma validated_extract request urls timeout : validate_extract_request request = Ok (urls, timeout) ->
  NoDup urls /\ 1 <= length urls <= MAX_EXTRACT_URLS.
Proof.
  unfold validate_extract_request. intros Hv. apply bind_Ok in Hv as ([] & Hc%refuse_Ok & Hv). apply bind_Ok in Hv as ([] & _ & Hv).
  apply bind_Ok in Hv as (l & Hl & [= <- <-]). apply orb_false_iff in Hc as [Hc1%bool_decide_eq_false Hc2%bool_decide_eq_false].
  apply distinct_urls_Ok in Hl as [Hl1 Hl2]; [|constructor]. split; [done|]. rewrite Hl2. cbn. destruct (wx_urls request); [done|cbn in *; lia].
Qed.

Lemma distinct_urls_canonical raw_urls urls l : distinct_urls raw_urls urls = Ok l -> Forall canonical_url urls -> Forall canonical_url l.
Proof.
  revert urls. induction raw_urls as [|raw raw_urls IH]; intros urls; cbn [distinct_urls]; [by intros [= <-]|].
  intros Ho Hc. apply bind_Ok in Ho as (url & Hurl & Ho). case_decide; [done|]. apply IH in Ho; [done|]. apply Forall_app. split; [done|].
  apply Forall_singleton. apply map_err_Ok in Hurl. by apply normalize_Ok in Hurl.
Qed.
Lemma validated_canonical request urls timeout : validate_extract_request request = Ok (urls, timeout) -> Forall canonical_url urls.
Proof.
  unfold validate_extract_request. intros Hv. apply bind_Ok in Hv as ([] & _ & Hv). apply bind_Ok in Hv as ([] & _ & Hv).
  apply bind_Ok in Hv as (l & Hl & [= <- <-]). by eapply distinct_urls_canonical.
Qed.

(** ** Results *)
Definition clean_result (r : WebSearchResult) : Prop :=
  public_page (wr_url r) /\ wr_title r <> "" /\ char_count (wr_title r) <= MAX_TITLE_CHARS /\
  (forall t, wr_snippet r = Some t -> t <> "" /\ char_count t <= MAX_SNIPPET_CHARS) /\
  (forall t, wr_published_at r = Some t -> t <> "" /\ char_count t <= MAX_PUBLISHED_AT_CHARS).
Lemma nonempty_text_bounded o max t : nonempty_text o max = Some t -> t <> "" /\ char_count t <= max.
Proof.
  unfold nonempty_text, is_empty. destruct o as [v|]; [|done]. cbn. case_bool_decide; [done|]. intros [= <-]. split; [done|apply compact_bounded].
Qed.
Lemma web_result_clean category raw url result : normalize_public_https_url raw = Ok url -> clean_result (web_result category url result).
Proof.
  intros Hn%normalized_public. unfold web_result. split_and!; cbn [wr_url wr_title wr_snippet wr_published_at]; [done|..|apply nonempty_text_bounded|apply nonempty_text_bounded].
  - unfold is_empty. by case_bool_decide.
  - unfold is_empty. case_bool_decide; [|apply compact_bounded]. apply Nat.leb_le. by vm_compute.
Qed.
Lemma collect_results_clean result_limit found results : NoDup (wr_url <$> results) -> Forall clean_result results -> length results <= result_limit ->
  let l := collect_results result_limit found results in NoDup (wr_url <$> l) /\ Forall clean_result l /\ length l <= result_limit.
Proof.
  revert results. induction found as [|[category result] found IH]; intros results Hd Hc Hl; cbn [collect_results]; [done|]. case_decide; [done|].
  destruct (normalize_public_https_url (r_url result)) as [url|e|] eqn:Hn; [|by apply IH..]. case_decide; [by apply IH|]. apply IH.
  - rewrite fmap_app. apply NoDup_app. split_and!; [done| |apply NoDup_singleton]. by intros u Hu ->%list_elem_of_singleton.
  - apply Forall_app. split; [done|]. apply Forall_singleton. by eapply web_result_clean.
  - rewrite length_app. cbn. lia.
Qed.
Definition one_of (p : WebExtractPage) : Prop :=
  (exists m, wp_markdown p = Some m /\ is_empty (trim m) = false /\ wp_error p = None) \/ (exists e, wp_markdown p = None /\ wp_error p = Some e).
Lemma extract_page_one_of url page failure : let p := format_extract_page url page failure in wp_url p = url /\ one_of p.
Proof.
  unfold format_extract_page. destruct page as [page|]; [|by split; [|right; eexists]].
  destruct (_ || failure); [by split; [|right; eexists]|]. destruct (p_markdown page) as [m|]; [|by split; [|right; eexists]].
  cbv zeta. destruct (is_empty (trim (strip_image_embeds m))) eqn:He; [by split; [|right; eexists]|]. split; [done|]. left. by eexists.
Qed.
Lemma imap_pages (f : nat -> string -> WebExtractPage) urls : (forall i u, wp_url (f i u) = u /\ one_of (f i u)) ->
  wp_url <$> imap f urls = urls /\ Forall one_of (imap f urls).
Proof.
  intros Hf. revert f Hf. induction urls as [|url urls IH]; intros f Hf; [done|]. cbn [imap]. destruct (Hf 0 url) as [Hf1 Hf2].
  destruct (IH (f ∘ S) ltac:(intros; apply Hf)) as [Hf3 Hf4]. split; [cbn; by rewrite Hf1, Hf3|by constructor].
Qed.
Lemma extract_pages_exact urls response : let pages := we_pages (format_extract_response urls response) in
  wp_url <$> pages = urls /\ Forall one_of pages.
Proof. apply imap_pages. intros i u. apply extract_page_one_of. Qed.

Lemma execute_search_cases client options log r log' : execute_search net client options log = (r, log') ->
  exists r0, search_with_options net client options log = (r0, log') /\
    forall answer, r = Ok answer -> exists found, ws_results answer = collect_results (Z.to_nat (limit options)) found [].
Proof.
  unfold execute_search. destruct (search_with_options net client options log) as [r0 log0]. intros [= <- <-]. exists r0. split; [done|].
  intros answer Ha. apply bind_Ok in Ha as (response & _ & [= <-]). by eexists.
Qed.
Lemma execute_extract_cases client urls timeout log r log' : execute_extract net client urls timeout log = (r, log') ->
  exists r0, extract_with_timeout net client urls timeout log = (r0, log') /\
    forall answer, r = Ok answer -> exists response, r0 = Ok response /\ answer = format_extract_response urls response.
Proof.
  unfold execute_extract. destruct (extract_with_timeout net client urls timeout log) as [r0 log0]. intros [= <- <-]. exists r0. split; [done|].
  intros answer Ha. apply bind_Ok in Ha as (response & Hr & [= <-]). apply map_err_Ok in Hr. by eexists.
Qed.
Lemma lift_cases {E A B} (m : outcome E A) (f : A -> Log E B) log r log' : (x ← st_lift m; f x) log = (r, log') ->
  (log' = log /\ forall v, r <> Ok v) \/ exists x, m = Ok x /\ f x log = (r, log').
Proof. unfold mbind, ST_bind, st_lift. destruct m as [x|e|]; [intros; right; by exists x|intros [= <- <-]; by left..]. Qed.
(** The way to the provider. *)
Lemma search_web_cases body log r log' : search_web net state is_guest body log = (r, log') ->
  (log' = log /\ forall v, r <> Ok v) \/
  exists request options client, validate_search_request request = Ok options /\ kagi_client state = Some client /\ pays /\
    execute_search net client options log = (r, log').
Proof.
  intros [Hno|(request & _ & Hr)]%lift_cases; [by left|]. apply lift_cases in Hr as [Hno|(options & Ho & Hr)]; [by left|].
  apply lift_cases in Hr as [Hno|(client & Hclient & Hr)]; [by left|]. apply lift_cases in Hr as [Hno|([] & Hp & Hr)]; [by left|].
  right. exists request, options, client. apply ok_or_Ok in Hclient. apply map_err_Ok in Hp. split_and!; try done. by apply entitled_pays.
Qed.
Lemma extract_web_cases body log r log' : extract_web net state is_guest body log = (r, log') ->
  (log' = log /\ forall v, r <> Ok v) \/
  exists request urls timeout client, validate_extract_request request = Ok (urls, timeout) /\ kagi_client state = Some client /\ pays /\
    execute_extract net client urls timeout log = (r, log').
Proof.
  intros [Hno|(request & _ & Hr)]%lift_cases; [by left|]. apply lift_cases in Hr as [Hno|([urls timeout] & Ho & Hr)]; [by left|].
  apply lift_cases in Hr as [Hno|(client & Hclient & Hr)]; [by left|]. apply lift_cases in Hr as [Hno|([] & Hp & Hr)]; [by left|].
  right. exists request, urls, timeout, client. apply ok_or_Ok in Hclient. apply map_err_Ok in Hp. split_and!; try done. by apply entitled_pays.
Qed.

(** C38. The provider is asked only on behalf of a user who pays: whatever the body,
    a request either sends nothing, or sends one request with the server's key for a
    user whose plan is paid and not used up (or on a developer's own server); that
    request is a search of 1 to 512 characters for 1 to 50 results, or the
    extraction of 1 to 10 public HTTPS pages. *)
Theorem web_requests_are_paid q log r log' : serve net state is_guest q log = (r, log') ->
  log' = log \/
  (pays /\ exists client call, kagi_client state = Some client /\ log' = log ++ [call] /\ bounded_call client call).
Proof.
  destruct q as [body|body]; cbn [serve]; intros (r0 & Hr & ->)%bind_ok.
  - apply search_web_cases in Hr as [[-> _]|(request & options & client & Hv & Hc & Hp & Hx)]; [by left|].
    apply execute_search_cases in Hx as (r1 & Hs & _). apply search_sends in Hs as [[-> _]|(req & -> & Hq & Hne & Hl & _)]; [by left|].
    right. split; [done|]. do 2 eexists. split_and!; [done..|]. apply validated_search in Hv as (_ & Hv2 & Hv3).
    cbn [bounded_call]. rewrite Hl. split_and!; [done..| |lia|lia]. rewrite Hq. etransitivity; [apply char_count_trim|done].
  - apply extract_web_cases in Hr as [[-> _]|(request & urls & timeout & client & Hv & Hc & Hp & Hx)]; [by left|].
    apply execute_extract_cases in Hx as (r1 & Hs & _). apply extract_sends in Hs as [[-> _]|(pages & -> & Hpages & Hlen)]; [by left|].
    right. split; [done|]. do 2 eexists. split_and!; [done..|]. cbn [bounded_call]. pose proof (Forall2_length _ _ _ Hpages) as Hlp.
    split_and!; [done..|lia|lia|]. clear -Hpages ul. induction Hpages; constructor; [by eapply normalized_public|done].
Qed.

(** An answer is clean: a search answers at most 50 results with distinct public
    URLs, a title and bounded texts; an extraction answers one page for each page the
    provider was asked for, in that order, with either content or an error. *)
Theorem web_answers_are_clean q log answer log' : serve net state is_guest q log = (Ok answer, log') ->
  match answer with
  | inl found => length (ws_results found) <= Z.to_nat MAX_SEARCH_LIMIT /\ NoDup (wr_url <$> ws_results found) /\ Forall clean_result (ws_results found)
  | inr extracted =>
      Forall one_of (we_pages extracted) /\ NoDup (wp_url <$> we_pages extracted) /\
      exists api_key endpoint timeout, log' = log ++ [ExtractCall api_key endpoint (wp_url <$> we_pages extracted) timeout]
  end.
Proof.
  destruct q as [body|body]; cbn [serve]; intros (r0 & Hr & Heq)%bind_ok; destruct r0 as [v|e|]; try done; cbn in Heq; injection Heq as ->.
  - apply search_web_cases in Hr as [[_ Hno]|(request & options & client & Hv & Hc & Hp & Hx)]; [by destruct (Hno v)|].
    apply execute_search_cases in Hx as (r1 & Hs & Hr). destruct (Hr v eq_refl) as (found & ->).
    destruct (collect_results_clean (Z.to_nat (limit options)) found []) as (Hd & Hc' & Hlen); [constructor|done|cbn; lia|].
    apply validated_search in Hv as (_ & _ & Hl). split_and!; [lia|done|done].
  - apply extract_web_cases in Hr as [[_ Hno]|(request & urls & timeout & client & Hv & Hc & Hp & Hx)]; [by destruct (Hno v)|].
    apply execute_extract_cases in Hx as (r1 & Hs & Hr). destruct (Hr v eq_refl) as (response & -> & ->).
    destruct (extract_pages_exact urls response) as [-> Hone]. pose proof (validated_extract _ _ _ Hv) as [Hd _]. split_and!; [done..|].
    apply extract_sends in Hs as [[_ Hno]|(pages & -> & Hpages & _)]; [by destruct (Hno response)|].
    assert (pages = urls) as ->; [|by do 3 eexists].
    assert (Forall canonical_url urls) as Hcan by (by eapply validated_canonical).
    clear -Hpages Hcan ul. induction Hpages as [|raw page raws pages Hp Hps IH]; [done|]. apply Forall_cons in Hcan as [Hc Hcan].
    f_equal; [by eapply canonical_again|by apply IH].
Qed.
End served.

(** ** Examples *)
Section demo.
#[local] Existing Instance demo_url.
#[local] Existing Instance demo_url_laws.
#[local] Existing Instance demo_markdown.
#[local] Existing Instance demo_markdown_laws.
Definition demo_found : Value :=
  Object [("data", Object [("search", Array [
    Object [("url", Str "https://b.example/y#part"); ("title", Str ""); ("snippet", Str "text")];
    Object [("url", Str "https://b.example/y"); ("title", Str "again")];
    Object [("url", Str "https://service.internal/y"); ("title", Str "private")]])])].
#[local] Instance demo_json : KagiJson := { document _ := Some demo_found; decode_error _ := "unreadable" }.
#[local] Instance demo_dates : Dates := { parse_date _ := None }.
Definition demo_net : Network := fun _ _ => Some (MkReply 200 None None [as_bytes "{}"] false).
Definition demo_state : AppState :=
  MkAppState (Some (MkClient "key" KAGI_API_BASE)) (Some (Billing.MkLookup (Some (secs 1)) (Ok (Billing.MkUsage true false)))) Prod.
Definition demo_body : Value := Object [("query", Str " rocq "); ("limit", int 5)].
Definition demo_call : Call :=
  SearchCall "key" "https://kagi.com/api/v1/search" (MkOptions "rocq" Search None None None None 5 None true).
Definition demo_answer : WebSearchResponse :=
  MkWebResponse None [MkWebResult "search" "https://b.example/y" "Untitled result" (Some "text") None].
Lemma demo_served : serve demo_net demo_state false (SearchWeb demo_body) [] = (Ok (inl demo_answer), [demo_call]).
Proof. vm_compute. reflexivity. Defined.

Lemma web_requests_are_paid_witness :
  serve demo_net demo_state false (SearchWeb demo_body) [] = (Ok (inl demo_answer), [demo_call]) /\
  ([demo_call] = [] \/
   (pays demo_state false /\
    exists client call, kagi_client demo_state = Some client /\ [demo_call] = [] ++ [call] /\ bounded_call client call)).
Proof. split; [exact demo_served|]. exact (web_requests_are_paid demo_net demo_state false _ _ _ _ demo_served). Defined.
Lemma web_answers_are_clean_witness :
  serve demo_net demo_state false (SearchWeb demo_body) [] = (Ok (inl demo_answer), [demo_call]) /\
  (length (ws_results demo_answer) <= Z.to_nat MAX_SEARCH_LIMIT /\ NoDup (wr_url <$> ws_results demo_answer) /\
   Forall clean_result (ws_results demo_answer)).
Proof. split; [exact demo_served|]. exact (web_answers_are_clean demo_net demo_state false _ _ _ _ demo_served). Defined.
End demo.
End WebRoutes.
